(* ===== verification/_CoqProject ===== *)
-Q . S2P
Prelude.v
UnicodeTables.v
GoStd.v
GoSort.v
GoEncoding.v
GoJSON.v
GoFloat.v
GoStruct.v
Wire.v
Codec.v
Payload.v
Tree.v
PolicySchema.v
FileSchema.v
EnrollmentWire.v
EnrollmentPayload.v
AdmissionSchema.v
Identity.v
Keystore.v
Admission.v
EnrollmentAuthority.v
EnrollmentTheory.v
EnrollmentHistory.v
EnrollmentSession.v
EnrollmentHandshake.v
ClientStore.v
Policy.v
PolicyStore.v
PolicyTheory.v
Delivery.v
Interest.v
Command.v
Catalog.v
VariableModel.v
VariableSchema.v
VariableTheory.v
Streams.v
FileTransfer.v
FileTransferTheory.v
FileUpload.v
Registry.v
Manager.v
Node.v
AdmissionService.v
AdmissionListing.v
RemoteEnrollment.v
Join.v
Connection.v
ConnectionRuns.v
JoinRuns.v
Supervisor.v
SupervisorRuns.v
Link.v
LinkTheory.v
LinkRuns.v
LinkSession.v
NodeSessions.v
UploadSessions.v
