(* ===== verification/Prelude.v ===== *)
(** * The MyFlowHub runtime: a verification library

    MyFlowHub connects nodes into a tree.  Every node owns resources (variables, streams,
    topics, commands), describes them in a catalog, and serves them to other nodes; frames
    travel hop by hop along the tree, and every node on the way down from a common ancestor
    decides by its policy whether a request may pass.  This library models the core of the
    runtime, the Go packages under src/protocol, src/runtime and src/internal/keystore, with the
    uploads and the admission management on top of it, and proves what makes it correct.  Paths below are relative
    to src/.

    ** Parts and files

    - Prelude (this file): results of fallible Go functions, the [fail_if] notation for early
      returns, 64-bit arithmetic, maps read with a zero default, shared tactics.
    - UnicodeTables, GoStd, GoSort: what the sources use of the Go standard library: UTF-8,
      character classes, string functions, hexadecimal and decimal text, sorting, search.
    - GoEncoding, GoJSON, GoFloat: base64, the JSON encoder and decoder with a proof that what
      is written reads back, and numbers: rationals, binary64 rounding, shortest decimals.
    - GoStruct: encoding/json on structs: the encoder and the strict decoder of a struct given
      by its fields, with the round trip and a bound on the size of the text.
    - Wire: protocol/types.go, payload.go: identifiers, envelopes and their validation.
    - Codec: protocol/codec.go: the binary frame, its decoder, and the write loop.
    - Payload: protocol/payload.go: JSON payloads of validated records, for every record that
      has a JSON form.
    - Tree: runtime/tree: the topology a node keeps; all methods as steps on one state.
    - PolicySchema, Policy, PolicyStore, PolicyTheory: protocol/schema_policy.go and
      runtime/auth/policy.go, policy_store.go: policy records, the [Policy] interface with
      its implementations, inbound checks, and the persistent store with its invariant.
    - EnrollmentWire, EnrollmentPayload: protocol/enrollment.go, schema_provisioning.go:
      enrollment frames and records, and their JSON payloads.
    - Identity: runtime/auth/identity.go, store.go: device and node identities, join claims and
      acknowledgements, the trust store.
    - Keystore: internal/keystore/store.go: state files, with a fault at every system call.
    - Admission: runtime/auth/admission.go: provisioning permits.
    - EnrollmentAuthority, EnrollmentTheory, EnrollmentHistory:
      runtime/auth/enrollment_authority.go: permits, requests and enrollments; the invariant
      and the abstract transitions that the operations refine; histories of calls, failed
      saves and restarts.
    - EnrollmentSession, EnrollmentHandshake: runtime/enrollment: both ends of the enrollment
      handshake as programs that read and write frames, and their composition with each other
      and with the authority.
    - ClientStore: runtime/auth/enrollment_client_store.go and the client of
      sdk/bindings/enrollment.go: what a device keeps of its enrollment.
    - AdmissionSchema, AdmissionService, AdmissionListing: protocol/schema_admission.go, the
      admission commands of feature/management with its audit log, host/config's RevokeNode,
      and runtime/enrollment/remote_broker.go; lists read page by page.
    - RemoteEnrollment: parents whose authority is another node: submissions, enrollment and
      revocation through the commands of that node.
    - Delivery, Interest, Manager: runtime/subscription: the bounded queue of a subscription
      with its goroutine, the interest table, and the manager that ties both together.
    - Command: runtime/command/dispatcher.go: authorised, deduplicated execution.
    - Catalog, VariableModel, Streams, Registry: protocol/schema_catalog.go and
      runtime/resource: descriptors, variables with revisions and observers, streams and
      topics, and the registry with the catalog it publishes.
    - VariableSchema, VariableTheory: protocol/data_schema.go, data_schema_variable.go,
      schema_variable.go, schema_variable_json.go, variable_definition_clone.go: the types of
      variables, the strict reader of their values, and the check of a value against a type.
    - FileSchema: protocol/schema_file.go, schema_session.go: the records of file transfers
      and of resource sessions.
    - FileTransfer, FileTransferTheory, FileUpload: feature/file: uploads over a file system
      in which every call can fail, their invariant, and the delivery of a file.
    - Node: runtime/node: routing, adjudication, forwarded subscriptions, local dispatch; and
      networks of nodes.
    - Join, Connection, ConnectionRuns, JoinRuns: runtime/node/connection.go and wire.go, with the
      accepting, the route events and the closing of node.go and routing.go: joins over a link,
      the sessions of a node with their goroutines, and what they do to the tree; the session
      table is the one of Node ([node_sessions]).
    - Supervisor, SupervisorRuns: runtime/node/supervisor.go: the goroutine that keeps a node
      connected to one parent, beside the machine of Connection.
    - Link, LinkTheory, LinkRuns, LinkSession: runtime/link/queue.go and session.go: the two
      ends of a link with their goroutines, queues, heartbeats and shutdown; the invariant of
      one session, two sessions joined by pipes, and the writer's and the last steps.
    - NodeSessions: runtime/node/sessions.go: the sessions that a node serves, over any
      resource with sessions (the class [SessionResource]).
    - UploadSessions: uploads as such a resource, and the composition of both.

    The node uses the tree to route ([RouteTo], [ValidateSource]) and a policy to adjudicate
    ([AuthorizeRequest]); local requests go to the subscription manager or the dispatcher;
    the manager resolves resources in the registry, observes them, and feeds deliveries;
    the registry publishes itself as a variable.  A new device asks the enrollment authority
    for a node identifier with a request that is approved or carries a permit; it joins its
    parent with a claim that the parent checks against its trust store and, for a provisioned
    child, its admission records.  All of these keep their state in key store files.

    ** How code is modelled

    A Go function is a function on values: the receiver's state is a record that is passed
    and returned, an error return is [Err] of a type with one constructor per error, guards
    and early returns are written in the order of the code.  Integers are [Z], wrapped to 64
    bits where the code can overflow; strings are byte strings, byte slices lists of bytes,
    maps and sets [gmap] and [gset].  Where the result depends on the order in which Go
    iterates over a map, the order is an argument and the theorems hold for every order.
    Clocks and random identifiers are arguments.  Copies made only to avoid aliasing
    (clone functions, [append] to nil) are identities on values.

    Concurrency is a step machine per component, with one step per section under a mutex or
    per channel operation: [Delivery.mstep], [Command.dstep], [VariableModel.vstep],
    [Streams.tstep], [Manager.manager_step], [NodeSessions.step],
    [Link.lstep],
    [Connection.kstep], [Supervisor.wstep].  Components whose methods hold their lock for
    the whole body (tree, interest table, policy store, registry) have one step per method.
    [Node.routeEnvelope] is one step although the code takes its locks separately: a change of
    the topology between the lookups of one frame is not modelled.

    Parameters stand for what is outside these sources or this library's scope: Ed25519 and
    SHA-256 (the class [Identity.Crypto], whose law is that a signature verifies), the compiler
    of regular expressions, the JSON encoding of catalogs and state files, the schema check
    of the runtime's variables (which VariableSchema models for itself), the outcome of writes to disk ([saved]), the
    answer of a link's send queue ([sent]), the scope resolver of the host, the write handler
    of a variable, the resource behind a command, the [io.Writer] (a class with its contract),
    the outcome of each system call ([FileTransfer.faults], [Keystore]), the conversion of
    the list of transfers to the value of a variable ([convert]), whether the management
    variables could be published ([en_refreshed]), and the text of an error that one node
    tells another ([RemoteEnrollment.parent_link]).

    ** What is proved

    - Frames: [Decode] accepts exactly what encoding produces and inverts it; the write loop
      ends and writes the whole frame or reports an error; identifiers and resource names
      are accepted exactly in canonical, safe form.
    - Tree: the state stays well formed; routing, source checks, withdrawal, snapshots and the
      replay of a subtree do what they should.  [ScopeContains] decides ancestry when
      announcements are honest and can be made to loop when they are not.
    - Policy: decisions agree with their declarative meaning; commits are atomic in memory and
      on disk; a restart changes no decision; revocation and compare-and-set work.  A commit
      at the moment of an expiry can leave an expired binding without a timer.
    - Identities: a claim made with a trusted key is accepted and acknowledged; the trust store
      forgets nothing and reloads to itself.  A save replaces the file or keeps the old
      contents; a crash between its two renames makes the next start begin with nothing.
    - Admission and enrollment: permits are used at most once over all interleavings of calls,
      failed saves and restarts; node identifiers are never shared; every grant verifies;
      records only move forward; retries change nothing; a restart reads back exactly the
      state in memory, unless the wall clock was set back.
    - Enrollment handshake: each end accepts only what the holder of the other key signed for
      this exchange; with a reachable authority the exchange completes and the device holds
      an identity its parent accepts; the device's store never replaces a credential with
      one that does not verify.
    - Administration: a list that is read page by page is complete and without repetition
      whatever happens in between; a submission through another node is the submission at the
      authority, open only to the parent that it names, and with it a device enrolls through
      any parent; a revocation that is answered has reached the parent of the grant.  After a
      failed save of the policy a repeated revocation leaves the policy of the node.
    - Subscriptions: every published sequence number is delivered, offered, queued or covered
      by a gap, and told to a reader that keeps reading; failures are terminal; queues are
      bounded; the interest table refines a bounded map; the manager leaks neither interests
      nor observers.  Two jumps of the source, or two overlapping publications of a topic, can
      lose an event without a gap.
    - Commands: a message is executed at most once within the retention time, only if it was
      checked and authorised, and within the limits.
    - Resources: the history of a variable is a chain of revisions in which compare-and-set is
      sound; observers of variables and topics are called with exactly what was published;
      topic rates are bounded; the catalog lists exactly what is registered and changes
      atomically.
    - Types of variables: a validated definition accepts exactly the strict JSON texts whose
      value has the type it denotes; validation never panics; a copy of a definition is
      equivalent to it.
    - Node: a child link can only speak for nodes behind it and can only do what the policy
      permits; in a network whose trees agree every frame reaches its target.
    - Connections: a session is in the table, and an edge in the tree, only by a claim or an
      acknowledgement that verified; as long as the generations of a child are used in order,
      every edge belongs to one goroutine that removes it; and a join between nodes that trust
      each other connects.  A join that registers after a newer one leaves an edge
      without a session, and a withdrawal that is sent late hides a child that has rejoined.
      A supervisor misses no change of its parent link, keeps its backoff within its bounds and
      ends when it is stopped; it also gives up on a parent whose link is lost at once.
    - Uploads: whatever system calls fail, the limits hold, a completed transfer is at its
      destination with the content that was offered, and no other file is touched; when no
      call fails, a file that is sent arrives.  A refused commit keeps its bytes until the
      offer expires, and a file that is named like a temporary one is lost at the next start.
    - Links: whatever the goroutines of both ends do, a class of frames is delivered in order,
      without loss or change up to where the link is cut; queues keep to their counts and
      bytes; nothing but join frames passes before activation; data is not starved by control
      frames; a link that is closed ends.
    - Sessions: the table is bounded, no open session is lost, whatever is interleaved, and
      only the owner's frames reach a session; together with uploads, the controller's
      invariant holds along every interleaving.

    Theorems with hypotheses have a witness, a lemma [<name>_witness] that applies the
    theorem to a concrete state.

    ** Fuel and bounds

    [Tree.ScopeContains] takes the number of iterations, because the loop in the code has no
    bound: the theorems say that from some number on the answer is the same and right, and
    that on the cyclic state no number is enough.  [Tree.depth] follows at most as many edges as there are nodes,
    like the [seen] set of the code.  [FormatUint] prints 20 digits, enough for 64 bits.
    [Command.evict_loop] runs at most once per list element.  The write loop of [Encode] is
    proved to end for every writer that keeps its contract.  [Node.walk] takes the number of
    hops and is proved to need only finitely many.  Histories of variables and topics are
    shorter than 2^64 steps, so that observer identifiers do not wrap.  The JSON reader takes
    twice the length of the text as fuel, proved to be enough for every text.  The searches
    for a free identifier stop after 128 attempts, like the code.  A float is written with at
    most 17 digits.

    ** Not modelled

    Transports, the client side of a node, catalog paging, the host, the
    topology, policy and configuration commands of the management feature, the reflection that builds the built-in schemas and the other JSON codecs of domain
    structs, the other features, the rest of the SDK, applications and commands: network,
    files and product code around the core. *)

From stdpp Require Export base gmap sets list strings numbers fin_maps.
From Stdlib Require Export Init.Byte.
From Stdlib Require Strings.Byte.


(** ** Results: a Go function that returns [(value, error)] *)

Inductive result (E A : Type) : Type :=
| Ok (a : A)
| Err (e : E).
Arguments Ok {E A} a.
Arguments Err {E A} e.

#[global] Instance result_eq_dec `{EqDecision E, EqDecision A} : EqDecision (result E A).
Proof. solve_decision. Defined.

#[global] Instance result_ret {E} : MRet (result E) := λ A a, Ok a.
#[global] Instance result_bind {E} : MBind (result E) :=
  λ A B f r, match r with Ok a => f a | Err e => Err e end.
#[global] Instance result_fmap {E} : FMap (result E) :=
  λ A B f r, match r with Ok a => Ok (f a) | Err e => Err e end.

Definition is_ok {E A} (r : result E A) : bool :=
  match r with Ok _ => true | Err _ => false end.

(** The value of a call that is known to succeed. *)
Definition from_ok {E A} (d : A) (r : result E A) : A := match r with Ok a => a | Err _ => d end.
Lemma from_ok_spec {E A} (d : A) (r : result E A) : is_ok r = true → r = Ok (from_ok d r).
Proof. by destruct r. Qed.

(** [mapErr g r]: wrapping an error, as [fmt.Errorf("...: %w", err)] does. *)
Definition mapErr {E E' A} (g : E → E') (r : result E A) : result E' A :=
  match r with Ok a => Ok a | Err e => Err (g e) end.

Declare Scope go_scope.
Delimit Scope go_scope with go.
Open Scope go_scope.

(** [fail_if b with e ;; k] is [if b { return e }; k]. *)
Notation "'fail_if' b 'with' e ;; k" := (if b then Err e else k)
  (at level 10, b at level 99, e at level 99, k at level 200,
   format "'[v' 'fail_if'  b  'with'  e  ;; '/' k ']'") : go_scope.

(** ** Machine integers *)

Definition maxUint64 : Z := 2 ^ 64 - 1.
Definition maxInt : Z := 2 ^ 63 - 1.
Definition u64 (x : Z) : Z := x `mod` 2 ^ 64.
Definition is_u64 (x : Z) : Prop := (0 ≤ x ≤ maxUint64)%Z.
Definition is_i64 (x : Z) : Prop := (- 2 ^ 63 ≤ x < 2 ^ 63)%Z.

#[global] Instance is_u64_dec x : Decision (is_u64 x).
Proof. unfold is_u64; apply _. Defined.
#[global] Instance is_i64_dec x : Decision (is_i64 x).
Proof. unfold is_i64; apply _. Defined.

Lemma u64_small x : is_u64 x → u64 x = x.
Proof. unfold u64, is_u64, maxUint64. intros. apply Z.mod_small. lia. Qed.

Lemma u64_range x : is_u64 (u64 x).
Proof.
  unfold u64, is_u64, maxUint64. pose proof (Z.mod_pos_bound x (2 ^ 64)). lia.
Qed.

(** ** Go maps: [m[k]] reads the zero value for an absent key *)

Definition mget `{Countable K} (m : gmap K Z) (k : K) : Z := default 0%Z (m !! k).

Section mget.
Context `{Countable K}.
Implicit Types (m : gmap K Z) (k : K).

Lemma mget_insert_eq m k v : mget (<[k:=v]> m) k = v.
Proof. unfold mget. by rewrite lookup_insert_eq. Qed.
Lemma mget_insert_ne m k k' v : k ≠ k' → mget (<[k:=v]> m) k' = mget m k'.
Proof. intros. unfold mget. by rewrite lookup_insert_ne. Qed.
Lemma mget_delete_eq m k : mget (delete k m) k = 0%Z.
Proof. unfold mget. by rewrite lookup_delete_eq. Qed.
Lemma mget_delete_ne m k k' : k ≠ k' → mget (delete k m) k' = mget m k'.
Proof. intros. unfold mget. by rewrite lookup_delete_ne. Qed.
Lemma mget_Some m k v : m !! k = Some v → mget m k = v.
Proof. unfold mget. by intros ->. Qed.
Lemma mget_nonzero m k : mget m k ≠ 0%Z → m !! k = Some (mget m k).
Proof. unfold mget. by destruct (m !! k). Qed.
End mget.

(** ** Proof automation *)

Create HintDb mfh.

(** Split the conditionals and matches of a Go body one at a time, keeping
    only the branches that are consistent with the hypotheses. *)
Ltac go_step :=
  match goal with
  | H : Ok _ = Ok _ |- _ => injection H as H; try subst
  | H : Err _ = Err _ |- _ => injection H as H; try subst
  | H : Ok _ = Err _ |- _ => discriminate H
  | H : Err _ = Ok _ |- _ => discriminate H
  | H : Some _ = Some _ |- _ => injection H as H; try subst
  | H : (_, _) = (_, _) |- _ => injection H as H; try subst
  | H : context [ if ?b then _ else _ ] |- _ => destruct b eqn:?
  | H : context [ match ?x with _ => _ end ] |- _ => destruct x eqn:?
  | |- context [ if ?b then _ else _ ] => destruct b eqn:?
  end.
Ltac go_cases := repeat (go_step; try done).

(** Turn the boolean tests of a body into propositions. *)
Ltac bool_prop :=
  repeat match goal with
  | H : bool_decide _ = true |- _ => apply bool_decide_eq_true_1 in H
  | H : bool_decide _ = false |- _ => apply bool_decide_eq_false_1 in H
  | H : _ || _ = false |- _ => apply orb_false_iff in H as [? ?]
  | H : _ || _ = true |- _ => apply orb_true_iff in H
  | H : _ && _ = true |- _ => apply andb_true_iff in H as [? ?]
  | H : _ && _ = false |- _ => apply andb_false_iff in H
  | H : negb _ = true |- _ => apply negb_true_iff in H
  | H : negb _ = false |- _ => apply negb_false_iff in H
  | H : (_ =? _)%Z = true |- _ => apply Z.eqb_eq in H
  | H : (_ =? _)%Z = false |- _ => apply Z.eqb_neq in H
  | H : (_ <? _)%Z = true |- _ => apply Z.ltb_lt in H
  | H : (_ <? _)%Z = false |- _ => apply Z.ltb_ge in H
  | H : (_ <=? _)%Z = true |- _ => apply Z.leb_le in H
  | H : (_ <=? _)%Z = false |- _ => apply Z.leb_gt in H
  end.

(** The same for string comparisons. *)
Ltac eqb_prop :=
  repeat match goal with
  | H : (_ =? _)%string = true |- _ => apply String.eqb_eq in H
  | H : (_ =? _)%string = false |- _ => apply String.eqb_neq in H
  end.
