(* ===== verification/GoStd.v ===== *)
(** * The Go standard library functions the protocol relies on

    Strings are Go byte strings ([string]); [code s] lists the byte values.
    Modelled here: [unicode/utf8] decoding, [unicode.IsControl], [IsSpace],
    [IsLetter], [IsDigit], [strings.HasPrefix], [HasSuffix], [Contains],
    [Split], [ToLower] (on ASCII), [encoding/hex] and [strconv.ParseUint],
    [strconv.FormatUint] in base 10. *)

From S2P Require Import Prelude UnicodeTables.
Open Scope Z_scope.

(** ** Bytes *)

Definition bval (b : byte) : Z := Z.of_N (Byte.to_N b).
Definition byte_of (z : Z) : byte := default x00 (Byte.of_N (Z.to_N (z `mod` 256))).

Lemma bval_range b : 0 ≤ bval b < 256.
Proof. unfold bval. pose proof (Byte.to_N_bounded b). lia. Qed.

Lemma bval_byte_of z : bval (byte_of z) = z `mod` 256.
Proof.
  unfold bval, byte_of.
  assert (0 ≤ z `mod` 256 < 256) as Hr by (apply Z.mod_pos_bound; lia).
  destruct (Byte.of_N (Z.to_N (z `mod` 256))) eqn:E; simpl.
  - apply Byte.to_of_N in E. rewrite E. lia.
  - apply Byte.of_N_None_iff in E. lia.
Qed.

Lemma byte_of_bval b : byte_of (bval b) = b.
Proof.
  unfold byte_of, bval. pose proof (Byte.to_N_bounded b).
  rewrite Z.mod_small by lia. by rewrite N2Z.id, Byte.of_to_N.
Qed.

Lemma bval_inj b b' : bval b = bval b' → b = b'.
Proof. intros E. by rewrite <- (byte_of_bval b), E, byte_of_bval. Qed.

#[global] Instance byte_eq_dec : EqDecision byte := Byte.byte_eq_dec.

(** The bytes of a Go string, and their values. *)
Definition bytes_of (s : string) : list byte := String.list_byte_of_string s.
Definition code (s : string) : list Z := bval <$> bytes_of s.
Definition strlen (s : string) : Z := Z.of_nat (length (bytes_of s)).

Lemma bytes_of_inj s t : bytes_of s = bytes_of t → s = t.
Proof.
  intros E. rewrite <- (String.string_of_list_byte_of_string s), <- (String.string_of_list_byte_of_string t).
  unfold bytes_of in E. by rewrite E.
Qed.
Lemma bytes_of_string_of l : bytes_of (String.string_of_list_byte l) = l.
Proof. apply String.list_byte_of_string_of_list_byte. Qed.
Lemma string_of_bytes_of s : String.string_of_list_byte (bytes_of s) = s.
Proof. apply String.string_of_list_byte_of_string. Qed.

Lemma strlen_nonneg s : 0 ≤ strlen s.
Proof. unfold strlen. lia. Qed.
Lemma strlen_zero s : strlen s = 0 → s = "".
Proof. unfold strlen. destruct s; [done|]. simpl. lia. Qed.

(** ** unicode/utf8 *)

Definition between (lo hi z : Z) : bool := (lo <=? z) && (z <=? hi).

(** The acceptance range of the second byte for a given lead byte. *)
Definition second_ok (b0 b1 : Z) : bool :=
  if b0 =? 0xE0 then between 0xA0 0xBF b1
  else if b0 =? 0xED then between 0x80 0x9F b1
  else if b0 =? 0xF0 then between 0x90 0xBF b1
  else if b0 =? 0xF4 then between 0x80 0x8F b1
  else between 0x80 0xBF b1.

(** Decode a byte sequence into runes; [None] when it is not valid UTF-8. *)
Fixpoint utf8_runes (bs : list Z) : option (list Z) :=
  match bs with
  | [] => Some []
  | b0 :: t0 =>
    if b0 <? 0x80 then cons b0 <$> utf8_runes t0
    else if between 0xC2 0xDF b0 then
      match t0 with
      | b1 :: t1 =>
        if between 0x80 0xBF b1
        then cons (Z.lor (Z.shiftl (Z.land b0 0x1F) 6) (Z.land b1 0x3F)) <$> utf8_runes t1
        else None
      | _ => None
      end
    else if between 0xE0 0xEF b0 then
      match t0 with
      | b1 :: b2 :: t2 =>
        if second_ok b0 b1 && between 0x80 0xBF b2
        then cons (Z.lor (Z.lor (Z.shiftl (Z.land b0 0x0F) 12) (Z.shiftl (Z.land b1 0x3F) 6))
                         (Z.land b2 0x3F)) <$> utf8_runes t2
        else None
      | _ => None
      end
    else if between 0xF0 0xF4 b0 then
      match t0 with
      | b1 :: b2 :: b3 :: t3 =>
        if second_ok b0 b1 && between 0x80 0xBF b2 && between 0x80 0xBF b3
        then cons (Z.lor (Z.lor (Z.shiftl (Z.land b0 0x07) 18) (Z.shiftl (Z.land b1 0x3F) 12))
                         (Z.lor (Z.shiftl (Z.land b2 0x3F) 6) (Z.land b3 0x3F))) <$> utf8_runes t3
        else None
      | _ => None
      end
    else None
  end.

Definition ValidString (s : string) : bool := bool_decide (is_Some (utf8_runes (code s))).

(** The runes a [range] loop over a valid string visits. *)
Definition runes (s : string) : list Z := default [] (utf8_runes (code s)).

(** ** unicode *)

Definition IsControl (r : Z) : bool := between 0 0x1F r || between 0x7F 0x9F r.
Definition IsSpace (r : Z) : bool :=
  between 0x09 0x0D r || (r =? 0x20) || (r =? 0x85) || (r =? 0xA0) || (r =? 0x1680)
  || between 0x2000 0x200A r || between 0x2028 0x2029 r || (r =? 0x202F) || (r =? 0x205F)
  || (r =? 0x3000).
Definition IsLetter (r : Z) : bool := in_ranges letter_ranges r.
Definition IsDigit (r : Z) : bool := in_ranges digit_ranges r.

(** ** strings *)

Definition HasPrefix (s p : string) : bool := String.prefix p s.
Definition HasSuffixByte (s : string) (b : byte) : bool := bool_decide (last (bytes_of s) = Some b).

(** [strings.Contains(s, xx)] for a doubled byte [x]. *)
Fixpoint contains_double (x : byte) (l : list byte) : bool :=
  match l with
  | a :: ((b :: _) as t) => (bool_decide (a = x) && bool_decide (b = x)) || contains_double x t
  | _ => false
  end.

(** [strings.Split(s, sep)] for a one-byte separator. *)
Fixpoint split_bytes (x : byte) (l : list byte) : list (list byte) :=
  match l with
  | [] => [[]]
  | a :: t =>
    if decide (a = x) then [] :: split_bytes x t
    else match split_bytes x t with
         | seg :: rest => (a :: seg) :: rest
         | [] => [[a]]
         end
  end.
Definition Split (s : string) (x : byte) : list string :=
  String.string_of_list_byte <$> split_bytes x (bytes_of s).

(** ASCII lower-casing: the sources call [strings.ToLower] on hexadecimal text only. *)
Definition lower_byte (b : byte) : byte :=
  if between 65 90 (bval b) then byte_of (bval b + 32) else b.
Definition ToLower (s : string) : string := String.string_of_list_byte (lower_byte <$> bytes_of s).

(** ** encoding/hex *)

Definition hex_digit (v : Z) : byte := byte_of (if v <? 10 then 48 + v else 87 + v).
Definition from_hex (c : Z) : option Z :=
  if between 48 57 c then Some (c - 48)
  else if between 97 102 c then Some (c - 87)
  else if between 65 70 c then Some (c - 55)
  else None.

Definition hex_encode (l : list byte) : list byte :=
  mjoin ((λ b, [hex_digit (bval b / 16); hex_digit (bval b `mod` 16)]) <$> l).
Fixpoint hex_decode (l : list byte) : option (list byte) :=
  match l with
  | [] => Some []
  | a :: b :: t =>
    match from_hex (bval a), from_hex (bval b), hex_decode t with
    | Some x, Some y, Some r => Some (byte_of (x * 16 + y) :: r)
    | _, _, _ => None
    end
  | _ => None
  end.
Definition EncodeToString (l : list byte) : string := String.string_of_list_byte (hex_encode l).
Definition DecodeString (s : string) : option (list byte) := hex_decode (bytes_of s).

(** ** strconv, base 10, 64 bits *)

(** The digit loop of [ParseUint]: the value and whether there was no error.  A
    syntax error returns 0, a range error returns the largest value. *)
Fixpoint parse_digits (n : Z) (cs : list Z) : Z * bool :=
  match cs with
  | [] => (n, true)
  | c :: t =>
    if negb (between 48 57 c) then (0, false)
    else if maxUint64 / 10 + 1 <=? n then (maxUint64, false)
    else let n1 := n * 10 + (c - 48) in
         if maxUint64 <? n1 then (maxUint64, false) else parse_digits n1 t
  end.
Definition ParseUint (s : string) : Z * bool :=
  match code s with [] => (0, false) | cs => parse_digits 0 cs end.

(** Least significant digit first; 20 digits hold every 64-bit value. *)
Fixpoint digits_rev (fuel : nat) (n : Z) : list Z :=
  match fuel with
  | O => []
  | S f => if n <? 10 then [48 + n] else (48 + n `mod` 10) :: digits_rev f (n / 10)
  end.
Definition FormatUint (n : Z) : string :=
  String.string_of_list_byte (byte_of <$> rev (digits_rev 20 n)).

(** ** Lemmas *)

Lemma between_spec lo hi z : between lo hi z = true ↔ lo ≤ z ≤ hi.
Proof. unfold between. rewrite andb_true_iff, !Z.leb_le. lia. Qed.

Lemma between_false lo hi z : between lo hi z = false ↔ z < lo ∨ hi < z.
Proof. rewrite <- not_true_iff_false, between_spec. lia. Qed.

Lemma code_string_of (l : list byte) : code (String.string_of_list_byte l) = bval <$> l.
Proof. unfold code. by rewrite bytes_of_string_of. Qed.

(** *** Splitting on a separator *)

Lemma split_bytes_nonempty x l : split_bytes x l ≠ [].
Proof. destruct l as [|a t]; simpl; [done|]. case_decide; [done|]. by destruct (split_bytes x t). Qed.

Lemma split_head_empty x l :
  head (split_bytes x l) = Some [] ↔ l = [] ∨ head l = Some x.
Proof.
  destruct l as [|a t]; simpl; [naive_solver|]. case_decide; [naive_solver|].
  destruct (split_bytes x t); simpl; naive_solver.
Qed.

Lemma contains_double_cons x a l :
  contains_double x (a :: l) = (bool_decide (a = x) && bool_decide (head l = Some x)) || contains_double x l.
Proof.
  destruct l as [|b t]; simpl; [by rewrite andb_false_r|].
  by rewrite (bool_decide_ext (Some b = Some x) (b = x)) by naive_solver.
Qed.

Lemma split_tail_nonempty x l :
  last l ≠ Some x → contains_double x l = false →
  Forall (λ seg, seg ≠ []) (tail (split_bytes x l)).
Proof.
  induction l as [|a t IH]; intros Hl Hd; [constructor|].
  rewrite contains_double_cons in Hd. apply orb_false_iff in Hd as [Hax Hd].
  assert (last t ≠ Some x) as Hl' by (intros E; apply Hl; by rewrite last_cons, E).
  specialize (IH Hl' Hd). simpl. case_decide as Ha; simpl.
  - subst a. pose proof (split_head_empty x t) as Hh.
    destruct (split_bytes x t) as [|seg rest] eqn:E; [done|]. constructor; [|done].
    intros ->. destruct Hh as [[->|Hx] _]; [done|done|].
    by rewrite !bool_decide_eq_true_2 in Hax.
  - by destruct (split_bytes x t).
Qed.

(** A byte string without a leading, trailing or doubled separator splits into
    non-empty segments. *)
Lemma split_segments_nonempty x l :
  l ≠ [] → head l ≠ Some x → last l ≠ Some x → contains_double x l = false →
  Forall (λ seg, seg ≠ []) (split_bytes x l).
Proof.
  intros Hne Hh Hl Hd. pose proof (split_tail_nonempty x l Hl Hd).
  pose proof (split_head_empty x l). pose proof (split_bytes_nonempty x l).
  destruct (split_bytes x l) as [|seg rest]; [done|]. constructor; naive_solver.
Qed.

(** *** Hexadecimal text *)

Lemma from_hex_digit v : 0 ≤ v < 16 → from_hex (bval (hex_digit v)) = Some v.
Proof.
  intros Hv. unfold hex_digit. rewrite bval_byte_of. unfold from_hex.
  destruct (v <? 10) eqn:E; bool_prop.
  - rewrite Z.mod_small by lia. rewrite (proj2 (between_spec _ _ _)) by lia. f_equal. lia.
  - rewrite Z.mod_small by lia.
    rewrite (proj2 (between_false 48 57 _)) by lia.
    rewrite (proj2 (between_spec 97 102 _)) by lia. f_equal. lia.
Qed.

Lemma lower_hex_digit v : 0 ≤ v < 16 → lower_byte (hex_digit v) = hex_digit v.
Proof.
  intros Hv. unfold lower_byte, hex_digit. rewrite bval_byte_of.
  destruct (v <? 10) eqn:E; bool_prop; rewrite Z.mod_small by lia;
    by rewrite (proj2 (between_false 65 90 _)) by lia.
Qed.

Lemma nibbles b : 0 ≤ bval b / 16 < 16 ∧ 0 ≤ bval b `mod` 16 < 16.
Proof.
  pose proof (bval_range b). split; [|by apply Z.mod_pos_bound].
  split; [apply Z.div_pos; lia|apply Z.div_lt_upper_bound; lia].
Qed.

Lemma hex_decode_encode l : hex_decode (hex_encode l) = Some l.
Proof.
  induction l as [|b l IH]; [done|].
  change (hex_encode (b :: l)) with
    (hex_digit (bval b / 16) :: hex_digit (bval b `mod` 16) :: hex_encode l).
  pose proof (nibbles b) as [H1 H2].
  simpl. rewrite !from_hex_digit, IH by done. do 2 f_equal.
  rewrite Z.mul_comm, <- Z_div_mod_eq_full. apply byte_of_bval.
Qed.

Lemma lower_hex_encode l : lower_byte <$> hex_encode l = hex_encode l.
Proof.
  induction l as [|b l IH]; [done|].
  change (hex_encode (b :: l)) with
    (hex_digit (bval b / 16) :: hex_digit (bval b `mod` 16) :: hex_encode l).
  pose proof (nibbles b) as [H1 H2].
  rewrite !fmap_cons, IH. by rewrite !lower_hex_digit.
Qed.

Lemma length_hex_encode l : length (hex_encode l) = (2 * length l)%nat.
Proof.
  induction l as [|b l IH]; [done|].
  change (hex_encode (b :: l)) with
    (hex_digit (bval b / 16) :: hex_digit (bval b `mod` 16) :: hex_encode l).
  simpl. rewrite IH. lia.
Qed.

(** A lower-case digit is the digit of its value. *)
Lemma hex_digit_from_hex b v :
  from_hex (bval b) = Some v → lower_byte b = b → hex_digit v = b ∧ 0 ≤ v < 16.
Proof.
  unfold from_hex, lower_byte, hex_digit. intros Hf Hlow.
  destruct (between 48 57 (bval b)) eqn:E1; simplify_eq.
  - apply between_spec in E1. rewrite (proj2 (Z.ltb_lt _ _)) by lia.
    split; [|lia]. rewrite <- (byte_of_bval b) at 2. f_equal. lia.
  - destruct (between 97 102 (bval b)) eqn:E2; simplify_eq.
    + apply between_spec in E2. rewrite (proj2 (Z.ltb_ge _ _)) by lia.
      split; [|lia]. rewrite <- (byte_of_bval b) at 2. f_equal. lia.
    + destruct (between 65 70 (bval b)) eqn:E3; simplify_eq.
      apply between_spec in E3. rewrite (proj2 (between_spec 65 90 _)) in Hlow by lia.
      apply (f_equal bval) in Hlow. rewrite bval_byte_of, Z.mod_small in Hlow; lia.
Qed.

Lemma hex_encode_decode s l :
  hex_decode s = Some l → lower_byte <$> s = s → hex_encode l = s.
Proof.
  revert s. induction l as [|c l IH]; intros [|a [|b t]] Hd Hlow; simpl in Hd; try done.
  - go_cases.
  - destruct (from_hex (bval a)) as [x|] eqn:Ex; [|done].
    destruct (from_hex (bval b)) as [y|] eqn:Ey; [|done].
    destruct (hex_decode t) as [r|] eqn:Et; [|done]. simplify_eq.
    rewrite !fmap_cons in Hlow. injection Hlow as Ha Hb Ht.
    apply hex_digit_from_hex in Ex as [Ex Rx]; [|done].
    apply hex_digit_from_hex in Ey as [Ey Ry]; [|done].
    change (hex_encode (byte_of (x * 16 + y) :: l)) with
      (hex_digit (bval (byte_of (x * 16 + y)) / 16)
       :: hex_digit (bval (byte_of (x * 16 + y)) `mod` 16) :: hex_encode l).
    rewrite bval_byte_of, (IH t) by done.
    rewrite (Z.mod_small (x * 16 + y)) by lia.
    rewrite Z.div_add_l, (Z.div_small y), Z.add_0_r by lia.
    rewrite Z.add_comm, Z.mod_add, (Z.mod_small y) by lia. by rewrite Ex, Ey.
Qed.

(** *** Decimal text *)

Lemma parse_digits_snoc n cs d :
  parse_digits n (cs ++ [d]) =
    match parse_digits n cs with
    | (m, true) => parse_digits m [d]
    | r => r
    end.
Proof.
  revert n. induction cs as [|c cs IH]; intros n; [done|].
  rewrite <- app_comm_cons. cbn [parse_digits].
  destruct (negb (between 48 57 c)); [done|]. destruct (maxUint64 / 10 + 1 <=? n); [done|].
  cbv zeta. destruct (maxUint64 <? n * 10 + (c - 48)); [done|]. apply IH.
Qed.

Lemma parse_digit_one n d :
  0 ≤ d < 10 → 0 ≤ n → n * 10 + d ≤ maxUint64 → parse_digits n [48 + d] = (n * 10 + d, true).
Proof.
  intros Hd Hn Hle. cbn [parse_digits].
  rewrite (proj2 (between_spec 48 57 _)) by lia. cbn [negb].
  assert (n < maxUint64 / 10 + 1).
  { assert (n ≤ maxUint64 / 10) by (apply Z.div_le_lower_bound; lia). lia. }
  rewrite (proj2 (Z.leb_gt _ _)) by lia.
  replace (48 + d - 48) with d by lia.
  by rewrite (proj2 (Z.ltb_ge _ _)) by lia.
Qed.

Lemma parse_digits_rev fuel n :
  0 ≤ n < 10 ^ Z.of_nat fuel → (0 < fuel)%nat → n ≤ maxUint64 →
  parse_digits 0 (rev (digits_rev fuel n)) = (n, true).
Proof.
  revert n. induction fuel as [|f IH]; intros n Hn Hf Hmax; [lia|].
  cbn [digits_rev]. destruct (n <? 10) eqn:E; bool_prop.
  - cbn [rev app]. rewrite (parse_digit_one 0 n) by lia. done.
  - cbn [rev]. rewrite parse_digits_snoc.
    rewrite Nat2Z.inj_succ, Z.pow_succ_r in Hn by lia.
    assert (n / 10 * 10 + n `mod` 10 = n) by (rewrite Z.mul_comm; symmetry; apply Z_div_mod_eq_full).
    assert (0 ≤ n `mod` 10 < 10) by (apply Z.mod_pos_bound; lia).
    assert (0 ≤ n / 10) by (apply Z.div_pos; lia).
    assert (f ≠ 0%nat) by (intros ->; simpl in Hn; lia).
    rewrite IH by lia. rewrite parse_digit_one by lia. f_equal. done.
Qed.

Lemma digits_rev_range fuel n : 0 ≤ n → Forall (λ d, 48 ≤ d < 58) (digits_rev fuel n).
Proof.
  revert n. induction fuel as [|f IH]; intros n Hn; [constructor|]. cbn [digits_rev].
  destruct (n <? 10) eqn:E; bool_prop; [constructor; [lia|constructor]|].
  assert (0 ≤ n `mod` 10 < 10) by (apply Z.mod_pos_bound; lia).
  constructor; [lia|]. apply IH, Z.div_pos; lia.
Qed.

Lemma code_FormatUint n : 0 ≤ n → code (FormatUint n) = rev (digits_rev 20 n).
Proof.
  intros Hn. unfold FormatUint. rewrite code_string_of, <- list_fmap_compose.
  pose proof (digits_rev_range 20 n Hn) as Hr. apply Forall_rev in Hr.
  induction Hr as [|d l Hd Hr IH]; [done|]. rewrite fmap_cons, IH. f_equal.
  unfold compose. rewrite bval_byte_of. apply Z.mod_small. lia.
Qed.

(** Printing a 64-bit value and parsing it gives the value back. *)
Lemma ParseUint_FormatUint n : is_u64 n → ParseUint (FormatUint n) = (n, true).
Proof.
  unfold is_u64, maxUint64. intros Hn. unfold ParseUint. rewrite code_FormatUint by lia.
  assert (parse_digits 0 (rev (digits_rev 20 n)) = (n, true)) as Hp.
  { apply parse_digits_rev; [|lia|unfold maxUint64; lia]. simpl. lia. }
  destruct (rev (digits_rev 20 n)) eqn:E; [|done].
  apply (f_equal length) in E. rewrite length_rev in E.
  cbn [digits_rev] in E. by destruct (n <? 10).
Qed.

(** *** Canonical decimal text *)

Lemma parse_digits_unique cs n :
  cs ≠ [] → (head cs ≠ Some 48 ∨ length cs = 1%nat) → parse_digits 0 cs = (n, true) →
  (∀ fuel, (length cs ≤ fuel)%nat → rev (digits_rev fuel n) = cs) ∧ 0 ≤ n ≤ maxUint64 ∧
  (head cs ≠ Some 48 → 0 < n).
Proof.
  revert n. induction cs as [|d cs IH] using rev_ind; intros n Hne Hh Hp; [done|].
  rewrite parse_digits_snoc in Hp. destruct (parse_digits 0 cs) as [m [|]] eqn:Em; [|done].
  cbn [parse_digits] in Hp. destruct (between 48 57 d) eqn:Ed; [|done]. cbn [negb] in Hp.
  apply between_spec in Ed. destruct (maxUint64 / 10 + 1 <=? m) eqn:E1; [done|].
  cbv zeta in Hp. destruct (maxUint64 <? m * 10 + (d - 48)) eqn:E2; [done|].
  injection Hp as <-. bool_prop.
  destruct (decide (cs = [])) as [->|Hcs].
  - injection Em as <-. repeat split; try lia.
    + intros [|fuel] Hf; [simpl in Hf; lia|]. cbn [digits_rev].
      rewrite (proj2 (Z.ltb_lt _ _)) by lia. simpl. f_equal. lia.
    + simpl. intros Hd. assert (d ≠ 48) by congruence. lia.
  - assert (head (cs ++ [d]) = head cs) as Hhd by (by destruct cs).
    rewrite Hhd in *.
    assert (head cs ≠ Some 48) as Hh'.
    { destruct Hh as [|Hl]; [done|]. rewrite length_app in Hl. destruct cs; simpl in *; [done|lia]. }
    destruct (IH m Hcs (or_introl Hh') eq_refl) as (Hrev & Hm & Hpos). specialize (Hpos Hh').
    repeat split; try lia. intros [|fuel] Hf; [rewrite length_app in Hf; simpl in Hf; lia|].
    rewrite length_app in Hf. simpl in Hf.
    cbn [digits_rev]. rewrite (proj2 (Z.ltb_ge _ _)) by lia. cbn [rev].
    rewrite Z.div_add_l, (Z.div_small (d - 48)), Z.add_0_r by lia.
    rewrite Hrev by lia. f_equal. f_equal.
    rewrite (Z.add_comm (m * 10)), Z.mod_add, Z.mod_small by lia. lia.
Qed.

Lemma length_digits_rev f k : (length (digits_rev f k) ≤ f)%nat.
Proof.
  revert k. induction f as [|f IH]; intros k; simpl; [lia|].
  destruct (k <? 10); simpl; [lia|]. by apply le_n_S, IH.
Qed.

Lemma digits_rev_stable f g k :
  (0 < f)%nat → 0 ≤ k < 10 ^ Z.of_nat f → (f ≤ g)%nat → digits_rev g k = digits_rev f k.
Proof.
  revert g k. induction f as [|f IH]; intros [|g] k Hf0 Hk Hfg; try lia. simpl.
  destruct (k <? 10) eqn:E; [done|]. bool_prop. rewrite Nat2Z.inj_succ, Z.pow_succ_r in Hk by lia.
  f_equal. destruct (decide (f = 0%nat)) as [->|]; [simpl in Hk; lia|].
  apply IH; [lia| |lia]. split; [apply Z.div_pos; lia|apply Z.div_lt_upper_bound; lia].
Qed.

(** Decimal text that parses and has no leading zero is the printed form of its value. *)
Lemma parse_digits_canonical cs n :
  cs ≠ [] → head cs ≠ Some 48 → parse_digits 0 cs = (n, true) → rev (digits_rev 20 n) = cs.
Proof.
  intros Hne Hh Hp. destruct (parse_digits_unique cs n Hne (or_introl Hh) Hp) as (Hrev & Hn & _).
  unfold maxUint64 in Hn. assert (0 ≤ n < 10 ^ Z.of_nat 20) by (simpl; lia).
  destruct (decide (length cs ≤ 20)%nat) as [Hl|Hl]; [by apply Hrev|].
  specialize (Hrev (length cs) ltac:(lia)).
  rewrite (digits_rev_stable 20 (length cs)) in Hrev by lia. done.
Qed.

Lemma digits_rev_last f n :
  0 < n < 10 ^ Z.of_nat f → last (digits_rev f n) ≠ Some 48.
Proof.
  revert n. induction f as [|f IH]; intros n Hn; [done|]. cbn [digits_rev].
  destruct (n <? 10) eqn:E; bool_prop; [simpl; intros [=]; lia|].
  rewrite Nat2Z.inj_succ, Z.pow_succ_r in Hn by lia.
  assert (0 < n / 10 < 10 ^ Z.of_nat f) as Hn'.
  { split; [apply Z.div_str_pos; lia|apply Z.div_lt_upper_bound; lia]. }
  specialize (IH (n / 10) Hn'). rewrite last_cons.
  destruct (last (digits_rev f (n / 10))) eqn:El; [done|].
  apply last_None in El. destruct f; [simpl in Hn'; lia|]. cbn [digits_rev] in El.
  by destruct (n / 10 <? 10).
Qed.

(** *** Prefixes of one byte *)

Lemma HasPrefix_byte s a :
  HasPrefix s (String a "") = bool_decide (head (bytes_of s) = Some (Ascii.byte_of_ascii a)).
Proof.
  unfold HasPrefix. destruct s as [|b s]; [done|]. simpl.
  destruct (Ascii.ascii_dec a b) as [->|Hne].
  - rewrite bool_decide_eq_true_2 by done. by destruct s.
  - rewrite bool_decide_eq_false_2; [done|]. intros [= E]. apply Hne.
    rewrite <- (Ascii.ascii_of_byte_of_ascii a), <- (Ascii.ascii_of_byte_of_ascii b). by rewrite E.
Qed.

Lemma HasPrefix_lit s p b :
  bytes_of p = [b] → HasPrefix s p = bool_decide (head (bytes_of s) = Some b).
Proof.
  destruct p as [|a [|]]; try done. intros [= <-]. apply HasPrefix_byte.
Qed.

Lemma split_tail_nonempty_inv x l :
  Forall (λ seg, seg ≠ []) (tail (split_bytes x l)) → last l ≠ Some x ∧ contains_double x l = false.
Proof.
  induction l as [|a t IH]; intros Hf; [done|]. rewrite contains_double_cons, last_cons.
  simpl in Hf. case_decide as Ha; simpl in Hf.
  - destruct IH as [Hl Hd]; [by destruct (split_bytes x t); inversion Hf|].
    assert (t ≠ [] ∧ head t ≠ Some x) as [Ht Hh].
    { pose proof (split_head_empty x t) as Hs.
      destruct (split_bytes x t) as [|seg rest] eqn:E; [by destruct (split_bytes_nonempty x t)|].
      inversion Hf; subst. simpl in Hs. split; intros ?; destruct Hs as [_ Hs];
        (assert (Some seg = Some []) by auto); congruence. }
    rewrite (bool_decide_eq_false_2 (head t = Some x)) by done. rewrite andb_false_r, Hd.
    split; [|done]. destruct (last t) eqn:E; [done|]. by apply last_None in E.
  - destruct IH as [Hl Hd]; [by destruct (split_bytes x t); inversion Hf|].
    rewrite bool_decide_eq_false_2 by done. rewrite Hd. split; [|done].
    destruct (last t); [done|]. congruence.
Qed.

(** The converse of [split_segments_nonempty]. *)
Lemma split_nonempty_inv x l :
  Forall (λ seg, seg ≠ []) (split_bytes x l) →
  l ≠ [] ∧ head l ≠ Some x ∧ last l ≠ Some x ∧ contains_double x l = false.
Proof.
  intros Hf. pose proof (split_head_empty x l) as Hs. pose proof (split_tail_nonempty_inv x l) as Ht.
  destruct (split_bytes x l) as [|seg rest] eqn:E; [by destruct (split_bytes_nonempty x l)|].
  inversion Hf; subst. destruct Ht as [Hl Hd]; [done|]. simpl in Hs.
  repeat split; try done; intros ?; destruct Hs as [_ Hs]; (assert (Some seg = Some []) by auto); congruence.
Qed.

Lemma code_inj s t : code s = code t → s = t.
Proof.
  intros E. apply bytes_of_inj. unfold code in E.
  apply (list_fmap_eq_inj bval); [|done]. intros b b'. apply bval_inj.
Qed.

Lemma head_code s b : head (code s) = Some (bval b) ↔ head (bytes_of s) = Some b.
Proof.
  unfold code. destruct (bytes_of s) as [|a l]; simpl; [naive_solver|].
  split; intros [= E]; [by f_equal; apply bval_inj|by subst].
Qed.

Lemma length_code s : Z.of_nat (length (code s)) = strlen s.
Proof. unfold code, strlen. by rewrite length_fmap. Qed.
