(* ===== verification/GoSort.v ===== *)
(** * Ordering: string comparison, [sort.Slice] and [sort.Search]

    Go compares strings byte by byte.  [sort.Slice] leaves the order of equal elements open;
    the model is an insertion sort, and the results below (a sorted permutation) are those
    every sorting function has.  [sort.Search] is the binary search of the Go library. *)

From Stdlib Require Import Sorting.Sorted.
From S2P Require Import Prelude GoStd.
Open Scope Z_scope.

(** ** Strings *)

Definition str_ltb (s t : string) : bool :=
  match String.compare s t with Lt => true | _ => false end.
Definition str_leb (s t : string) : bool := negb (str_ltb t s).

Lemma str_compare_refl s : String.compare s s = Eq.
Proof.
  induction s as [|a s IH]; [done|]. simpl. unfold Ascii.compare. by rewrite N.compare_refl.
Qed.

Lemma ascii_compare_N a b : Ascii.compare a b = N.compare (Ascii.N_of_ascii a) (Ascii.N_of_ascii b).
Proof. done. Qed.

Lemma str_ltb_trans s t u : str_ltb s t = true → str_ltb t u = true → str_ltb s u = true.
Proof.
  unfold str_ltb. revert t u. induction s as [|a s IH]; intros [|b t] [|c u]; simpl; try done.
  rewrite !ascii_compare_N.
  destruct (N.compare_spec (Ascii.N_of_ascii a) (Ascii.N_of_ascii b)) as [E1|E1|E1]; [| |done];
    destruct (N.compare_spec (Ascii.N_of_ascii b) (Ascii.N_of_ascii c)) as [E2|E2|E2]; try done;
    destruct (N.compare_spec (Ascii.N_of_ascii a) (Ascii.N_of_ascii c)) as [E3|E3|E3]; try lia; try done.
  apply IH.
Qed.

Lemma str_ltb_irrefl s : str_ltb s s = false.
Proof. unfold str_ltb. by rewrite str_compare_refl. Qed.

Lemma str_ltb_total s t : str_ltb s t = false → str_ltb t s = false → s = t.
Proof.
  unfold str_ltb. rewrite (String.compare_antisym t s). destruct (String.compare s t) eqn:E; simpl; try done.
  intros _ _. by apply String.compare_eq_iff.
Qed.

Lemma str_ltb_asym s t : str_ltb s t = true → str_ltb t s = false.
Proof.
  intros H. destruct (str_ltb t s) eqn:E; [|done]. pose proof (str_ltb_trans _ _ _ H E) as Hx.
  by rewrite str_ltb_irrefl in Hx.
Qed.

Lemma str_ltb_leb_trans s t u : str_ltb s t = true → str_leb t u = true → str_ltb s u = true.
Proof.
  unfold str_leb. intros H1 H2%negb_true_iff. destruct (str_ltb t u) eqn:E; [by eapply str_ltb_trans|].
  by rewrite <- (str_ltb_total t u).
Qed.

Lemma str_ltb_negtrans x y z : str_ltb x y = false → str_ltb y z = false → str_ltb x z = false.
Proof.
  intros H1 H2. destruct (str_ltb x z) eqn:E; [|done].
  assert (str_leb z y = true) as Hzy by (unfold str_leb; by rewrite H2).
  by rewrite (str_ltb_leb_trans _ _ _ E Hzy) in H1.
Qed.

(** ** Sorting *)

Section sort.
Context {A : Type} (less : A → A → bool).

Fixpoint insert_by (x : A) (l : list A) : list A :=
  match l with
  | [] => [x]
  | y :: r => if less y x then y :: insert_by x r else x :: y :: r
  end.
Definition SortSlice (l : list A) : list A := foldr insert_by [] l.

Lemma insert_by_perm x l : insert_by x l ≡ₚ x :: l.
Proof.
  induction l as [|y r IH]; [done|]. simpl. destruct (less y x); [|done].
  rewrite IH. apply Permutation_swap.
Qed.
Lemma SortSlice_perm l : SortSlice l ≡ₚ l.
Proof. induction l as [|x l IH]; [done|]. simpl. by rewrite insert_by_perm, IH. Qed.

Lemma elem_of_SortSlice x l : x ∈ SortSlice l ↔ x ∈ l.
Proof. by rewrite SortSlice_perm. Qed.

(** Sorted: no element is less than an earlier one. *)
Definition ordered (l : list A) : Prop := StronglySorted (λ x y, less y x = false) l.

Hypothesis less_asym : ∀ x y, less x y = true → less y x = false.
Hypothesis less_total : ∀ x y z, less x y = false → less y z = false → less x z = false.

Lemma insert_by_ordered x l : ordered l → ordered (insert_by x l).
Proof.
  unfold ordered. induction 1 as [|y r Hr IH Hy]; simpl; [by repeat constructor|].
  destruct (less y x) eqn:E; constructor; try done.
  - rewrite Forall_forall in *. intros z Hz. rewrite insert_by_perm in Hz. apply elem_of_cons in Hz as [-> |Hz].
    + by apply less_asym.
    + by apply Hy.
  - by constructor.
  - constructor; [done|]. rewrite Forall_forall in *. intros z Hz. eapply less_total; [by apply Hy|done].
Qed.

Lemma SortSlice_ordered l : ordered (SortSlice l).
Proof. induction l as [|x l IH]; [constructor|]. by apply insert_by_ordered. Qed.
End sort.

(** A strictly sorted slice is left as it is. *)
Lemma SortSlice_id {A} (less : A → A → bool) l :
  (∀ x y, less x y = true → less y x = false) →
  StronglySorted (λ x y, less x y = true) l → SortSlice less l = l.
Proof.
  intros Hasym. induction 1 as [|x l Hl IH Hx]; [done|]. simpl. rewrite IH. destruct l as [|y r]; [done|]. simpl.
  apply Forall_cons in Hx as [Hxy _]. by rewrite (Hasym _ _ Hxy).
Qed.

Lemma StronglySorted_mono {A} (R S : A → A → Prop) l :
  (∀ x y, R x y → S x y) → StronglySorted R l → StronglySorted S l.
Proof. intros HRS. induction 1; constructor; [done|]. eapply Forall_impl; [done|]. intros; by apply HRS. Qed.
Lemma StronglySorted_filter {A} (R : A → A → Prop) (P : A → Prop) `{∀ x, Decision (P x)} l :
  StronglySorted R l → StronglySorted R (filter P l).
Proof.
  induction 1 as [|x l Hl IH Hx]; [constructor|]. rewrite filter_cons. case_decide; [|done].
  constructor; [done|]. rewrite Forall_forall in *. intros y [_ Hy]%list_elem_of_filter. by apply Hx.
Qed.

(** [sort.Strings] *)
Definition SortStrings : list string → list string := SortSlice str_ltb.

Definition strictly_sorted (l : list string) : Prop := StronglySorted (λ x y, str_ltb x y = true) l.

(** ** Binary search: the smallest index at which [f] holds *)

Section search.
Context (f : nat → bool).

Fixpoint search_loop (fuel i j : nat) : nat :=
  match fuel with
  | O => i
  | S fuel =>
    if (i <? j)%nat then
      let h := ((i + j) / 2)%nat in
      if f h then search_loop fuel i h else search_loop fuel (S h) j
    else i
  end.
(** The interval shrinks at every turn, so its length is enough fuel. *)
Definition Search (n : nat) : nat := search_loop n 0 n.

Hypothesis f_mono : ∀ i j, (i ≤ j)%nat → f i = true → f j = true.

Lemma search_loop_correct fuel i j :
  (j - i ≤ fuel)%nat → (i ≤ j)%nat → (∀ k, (k < i)%nat → f k = false) →
  let r := search_loop fuel i j in
  (i ≤ r ≤ j)%nat ∧ (∀ k, (k < r)%nat → f k = false) ∧ ((r < j)%nat → f r = true).
Proof.
  revert i j. induction fuel as [|fuel IH]; intros i j Hf Hij Hi; cbn [search_loop].
  { split_and!; try done; lia. }
  destruct (Nat.ltb_spec i j) as [Hlt|Hge]; [|split_and!; try done; lia].
  assert (i ≤ (i + j) / 2 < j)%nat as Hh by (split; [apply Nat.div_le_lower_bound|apply Nat.Div0.div_lt_upper_bound]; lia).
  revert Hh. generalize ((i + j) / 2)%nat. intros h Hh.
  destruct (f h) eqn:E.
  - destruct (IH i h) as (H1 & H2 & H3); [lia|lia|exact Hi|]. split_and!; [lia|lia|done|].
    intros Hr. destruct (decide (search_loop fuel i h < h)%nat); [by apply H3|].
    by replace (search_loop fuel i h) with h by lia.
  - destruct (IH (S h) j) as (H1 & H2 & H3); [lia|lia| |].
    + intros k Hk. destruct (f k) eqn:Ek; [|done]. rewrite (f_mono k h) in E; [done|lia|done].
    + split_and!; [lia|lia|done|done].
Qed.

Lemma Search_correct n :
  (Search n ≤ n)%nat ∧ (∀ k, (k < Search n)%nat → f k = false) ∧ ((Search n < n)%nat → f (Search n) = true).
Proof.
  destruct (search_loop_correct n 0 n) as (H1 & H2 & H3); [lia|lia|intros; lia|].
  unfold Search. split_and!; [lia|done|done].
Qed.
End search.

(** Looking a string up in a strictly sorted slice, as the policy rules do. *)
Definition search_string (values : list string) (x : string) : bool :=
  let index := Search (λ i, match values !! i with Some v => str_leb x v | None => true end) (length values) in
  (index <? length values)%nat && match values !! index with Some v => String.eqb v x | None => false end.

Lemma search_string_correct values x : strictly_sorted values → search_string values x = true ↔ x ∈ values.
Proof.
  intros Hs. unfold search_string. set (f := λ i, _).
  assert (∀ i j a b, (i < j)%nat → values !! i = Some a → values !! j = Some b → str_ltb a b = true) as Hlt.
  { clear f. induction Hs as [|y r Hr IH Hy]; intros i j a b Hij Ha Hb; [done|].
    destruct i as [|i], j as [|j]; simpl in *; try lia; [|apply (IH i j); [lia|done|done]].
    simplify_eq. rewrite Forall_forall in Hy. apply Hy. by eapply list_elem_of_lookup_2. }
  assert (∀ i j, (i ≤ j)%nat → f i = true → f j = true) as Hm.
  { intros i j Hij Hi. destruct (decide (i = j)) as [->|Hne]; [done|]. unfold f in *.
    destruct (values !! j) as [b|] eqn:Eb; [|done].
    destruct (lookup_lt_is_Some_2 values i) as [a Ea]; [apply lookup_lt_Some in Eb; lia|]. rewrite Ea in Hi.
    assert (str_ltb a b = true) as Hab by (eapply (Hlt i j); [lia|done|done]).
    unfold str_leb in *. apply negb_true_iff in Hi. apply negb_true_iff.
    destruct (str_ltb b x) eqn:E; [|done]. by rewrite (str_ltb_trans _ _ _ Hab E) in Hi. }
  destruct (Search_correct f Hm (length values)) as (H1 & H2 & H3). split.
  - intros [_ H]%andb_true_iff. destruct (values !! _) eqn:E; [|done]. apply String.eqb_eq in H as ->.
    by eapply list_elem_of_lookup_2.
  - intros Hx. apply list_elem_of_lookup in Hx as [i Hi].
    assert (f i = true) as Hfi by (unfold f; rewrite Hi; unfold str_leb; by rewrite str_ltb_irrefl).
    assert (¬ (i < Search f (length values))%nat) as Hle by (intros Hx; apply H2 in Hx; congruence).
    pose proof (lookup_lt_Some _ _ _ Hi) as Hlen.
    assert (Search f (length values) = i) as ->.
    { destruct (decide (Search f (length values) = i)); [done|].
      assert (Search f (length values) < i)%nat as Hsi by lia.
      destruct (lookup_lt_is_Some_2 values (Search f (length values))) as [a Ha]; [lia|].
      pose proof (Hlt _ _ _ _ Hsi Ha Hi) as Hax. pose proof (H3 ltac:(lia)) as Hfa. unfold f in Hfa at 1. rewrite Ha in Hfa.
      unfold str_leb in Hfa. by rewrite Hax in Hfa. }
    apply andb_true_iff. split; [by apply Nat.ltb_lt|]. rewrite Hi. apply String.eqb_refl.
Qed.
