(* ===== verification/GoEncoding.v ===== *)
(** * Go's encoding/base64 and encoding/json, as the sources use them

    [base64.RawStdEncoding] (no padding; the decoder skips line breaks and does not check the
    unused bits of the last character), and [json.Marshal] of a struct whose fields are
    strings, integers and booleans.  The main fact is that the JSON text of such a struct
    determines its fields ([marshal_inj]), which is what a signature over it relies on. *)

From S2P Require Import Prelude GoStd.
Open Scope Z_scope.

(** ** encoding/base64 *)

(** The standard alphabet: A-Z a-z 0-9 + /. *)
Definition b64_char (v : Z) : byte :=
  byte_of (if v <? 26 then 65 + v else if v <? 52 then 71 + v else if v <? 62 then v - 4
           else if v =? 62 then 43 else 47).
Definition b64_value (c : Z) : option Z :=
  if between 65 90 c then Some (c - 65) else if between 97 122 c then Some (c - 71)
  else if between 48 57 c then Some (c + 4) else if c =? 43 then Some 62 else if c =? 47 then Some 63 else None.

Fixpoint b64_encode (l : list byte) : list byte :=
  match l with
  | [] => []
  | [a] => let v := bval a * 16 in [b64_char (v / 64); b64_char (v `mod` 64)]
  | [a; b] => let v := (bval a * 256 + bval b) * 4 in [b64_char (v / 4096); b64_char ((v / 64) `mod` 64); b64_char (v `mod` 64)]
  | a :: b :: c :: rest =>
    let v := bval a * 65536 + bval b * 256 + bval c in
    b64_char (v / 262144) :: b64_char ((v / 4096) `mod` 64) :: b64_char ((v / 64) `mod` 64) :: b64_char (v `mod` 64) :: b64_encode rest
  end.

(** The characters that carry data, as 6-bit values. *)
Fixpoint b64_values (l : list byte) : option (list Z) :=
  match l with
  | [] => Some []
  | c :: rest =>
    if (bval c =? 10) || (bval c =? 13) then b64_values rest
    else v ← b64_value (bval c); cons v <$> b64_values rest
  end.
Fixpoint b64_decode (vs : list Z) : option (list byte) :=
  match vs with
  | [] => Some []
  | [_] => None
  | [a; b] => Some [byte_of ((a * 64 + b) / 16)]
  | [a; b; c] => let v := ((a * 64 + b) * 64 + c) / 4 in Some [byte_of (v / 256); byte_of v]
  | a :: b :: c :: d :: rest =>
    let v := ((a * 64 + b) * 64 + c) * 64 + d in
    app [byte_of (v / 65536); byte_of (v / 256); byte_of v] <$> b64_decode rest
  end.

Definition RawStd_EncodeToString (l : list byte) : string := String.string_of_list_byte (b64_encode l).
(** [None] for an error. *)
Definition RawStd_DecodeString (s : string) : option (list byte) := vs ← b64_values (bytes_of s); b64_decode vs.

Lemma b64_value_char v : 0 ≤ v < 64 → b64_value (bval (b64_char v)) = Some v ∧ bval (b64_char v) ≠ 10 ∧ bval (b64_char v) ≠ 13.
Proof.
  intros Hv. assert (∃ n, (n < 64)%nat ∧ v = Z.of_nat n) as (n & Hn & ->) by (exists (Z.to_nat v); lia).
  do 64 (destruct n as [|n]; [vm_compute; split_and!; done|]). lia.
Qed.

Lemma b64_values_cons v l : 0 ≤ v < 64 → b64_values (b64_char v :: l) = cons v <$> b64_values l.
Proof.
  intros Hv. destruct (b64_value_char v Hv) as (H & H10 & H13). cbn [b64_values].
  rewrite (proj2 (Z.eqb_neq _ _) H10), (proj2 (Z.eqb_neq _ _) H13), H. done.
Qed.

Lemma list_ind3 {A} (P : list A → Prop) :
  P [] → (∀ a, P [a]) → (∀ a b, P [a; b]) → (∀ a b c l, P l → P (a :: b :: c :: l)) → ∀ l, P l.
Proof.
  intros H0 H1 H2 H3. fix IH 1. intros [|a [|b [|c l]]]; [apply H0|apply H1|apply H2|]. apply H3, IH.
Qed.

Lemma byte_of_mod a z : (bval a - z) `mod` 256 = 0 → byte_of z = a.
Proof.
  intros H. apply bval_inj. rewrite bval_byte_of. pose proof (bval_range a). apply Z.mod_divide in H as [k Hk]; [|lia].
  replace z with (bval a + - k * 256) by lia. rewrite Z.mod_add by lia. apply Z.mod_small. lia.
Qed.

(** [lia] with quotients and remainders by constants. *)
Ltac zlia := Z.div_mod_to_equations; lia.

(** Splitting off the last 6-bit digit. *)
Lemma digit64 v k k' : 0 < k → k' = k * 64 → v / k' * 64 + (v / k) `mod` 64 = v / k.
Proof. intros ? ->. rewrite <- Z.div_div by lia. generalize (v / k). intros x. pose proof (Z.div_mod x 64). lia. Qed.
Lemma digit64_1 v : v / 64 * 64 + v `mod` 64 = v.
Proof. pose proof (Z.div_mod v 64). lia. Qed.

Lemma b64_roundtrip l : (vs ← b64_values (b64_encode l); b64_decode vs) = Some l.
Proof.
  induction l as [|a|a b|a b c l IH] using list_ind3; [done| | |].
  - pose proof (bval_range a). cbn [b64_encode]. rewrite !b64_values_cons by zlia. simpl. do 2 f_equal.
    rewrite digit64_1, Z.div_mul by lia. apply byte_of_bval.
  - pose proof (bval_range a). pose proof (bval_range b). cbn [b64_encode]. rewrite !b64_values_cons by zlia. simpl.
    rewrite (digit64 _ 64 4096), digit64_1, Z.div_mul by lia. f_equal. repeat f_equal; apply byte_of_mod; zlia.
  - pose proof (bval_range a). pose proof (bval_range b). pose proof (bval_range c). cbn [b64_encode]. rewrite !b64_values_cons by zlia.
    destruct (b64_values (b64_encode l)) as [vs|]; [|done]. simpl in *. rewrite IH. simpl.
    rewrite (digit64 _ 4096 262144), (digit64 _ 64 4096), digit64_1 by lia. f_equal. repeat f_equal; apply byte_of_mod; zlia.
Qed.

Lemma RawStd_roundtrip l : RawStd_DecodeString (RawStd_EncodeToString l) = Some l.
Proof. unfold RawStd_DecodeString, RawStd_EncodeToString. rewrite bytes_of_string_of. apply b64_roundtrip. Qed.

Lemma RawStd_EncodeToString_inj l l' : RawStd_EncodeToString l = RawStd_EncodeToString l' → l = l'.
Proof. intros H. apply (f_equal RawStd_DecodeString) in H. rewrite !RawStd_roundtrip in H. by simplify_eq. Qed.

(** ** encoding/json: strings

    [json.Marshal] escapes quotes, backslashes, control characters, the characters special
    in HTML, U+2028 and U+2029, and replaces every byte that is not part of valid UTF-8. *)

Definition hex_code (v : Z) : Z := bval (hex_digit v).
Definition escape_ascii (b : Z) : list Z :=
  if (b =? 92) || (b =? 34) then [92; b]
  else if b =? 8 then [92; 98] else if b =? 12 then [92; 102] else if b =? 10 then [92; 110]
  else if b =? 13 then [92; 114] else if b =? 9 then [92; 116]
  else if (b <? 32) || (b =? 38) || (b =? 60) || (b =? 62) then [92; 117; 48; 48; hex_code (b / 16); hex_code (b `mod` 16)]
  else [b].
Definition replacement : list Z := [92; 117; 102; 102; 102; 100].

(** U+2028 and U+2029 are E2 80 A8 and E2 80 A9 in UTF-8. *)
Definition escape3 (b0 b1 b2 : Z) : list Z :=
  if (b0 =? 0xE2) && (b1 =? 0x80) && ((b2 =? 0xA8) || (b2 =? 0xA9)) then [92; 117; 50; 48; 50; hex_code (b2 - 0xA0)]
  else [b0; b1; b2].

Fixpoint json_escape (bs : list Z) : list Z :=
  match bs with
  | [] => []
  | b0 :: t0 =>
    if b0 <? 0x80 then escape_ascii b0 ++ json_escape t0
    else if between 0xC2 0xDF b0 then
      match t0 with
      | b1 :: t1 => if between 0x80 0xBF b1 then [b0; b1] ++ json_escape t1 else replacement ++ json_escape t0
      | _ => replacement ++ json_escape t0
      end
    else if between 0xE0 0xEF b0 then
      match t0 with
      | b1 :: b2 :: t2 =>
        if second_ok b0 b1 && between 0x80 0xBF b2 then escape3 b0 b1 b2 ++ json_escape t2 else replacement ++ json_escape t0
      | _ => replacement ++ json_escape t0
      end
    else if between 0xF0 0xF4 b0 then
      match t0 with
      | b1 :: b2 :: b3 :: t3 =>
        if second_ok b0 b1 && between 0x80 0xBF b2 && between 0x80 0xBF b3
        then [b0; b1; b2; b3] ++ json_escape t3 else replacement ++ json_escape t0
      | _ => replacement ++ json_escape t0
      end
    else replacement ++ json_escape t0
  end.

Definition json_quote (s : string) : list Z := [34] ++ json_escape (code s) ++ [34].

(** A reader for quoted strings, up to and including the closing quote. *)
Definition hex_value4 (h1 h2 h3 h4 : Z) : option Z :=
  a ← from_hex h1; b ← from_hex h2; c ← from_hex h3; d ← from_hex h4; Some (((a * 16 + b) * 16 + c) * 16 + d).
Definition utf8_of (v : Z) : list Z := if (v =? 0x2028) || (v =? 0x2029) then [0xE2; 0x80; v - 0x1F80] else [v].
Definition unescape_char (c : Z) : Z :=
  if c =? 98 then 8 else if c =? 102 then 12 else if c =? 110 then 10 else if c =? 114 then 13 else if c =? 116 then 9 else c.
Fixpoint unescape (l : list Z) : option (list Z * list Z) :=
  match l with
  | [] => None
  | b :: t =>
    if b =? 34 then Some ([], t)
    else if b =? 92 then
      match t with
      | [] => None
      | c :: t1 =>
        if c =? 117 then
          match t1 with
          | h1 :: h2 :: h3 :: h4 :: t4 =>
            v ← hex_value4 h1 h2 h3 h4; '(s, rest) ← unescape t4; Some (utf8_of v ++ s, rest)
          | _ => None
          end
        else '(s, rest) ← unescape t1; Some (unescape_char c :: s, rest)
      end
    else '(s, rest) ← unescape t; Some (b :: s, rest)
  end.

Definition prepend (p : list Z) (r : option (list Z * list Z)) : option (list Z * list Z) := '(s, rest) ← r; Some (p ++ s, rest).

Lemma unescape_ascii b l : 0 ≤ b < 128 → unescape (escape_ascii b ++ l) = prepend [b] (unescape l).
Proof.
  intros Hb. assert (∃ n, (n < 128)%nat ∧ b = Z.of_nat n) as (n & Hn & ->) by (exists (Z.to_nat b); lia).
  do 128 (destruct n as [|n]; [
    match goal with |- context [escape_ascii ?x] => let y := eval vm_compute in (escape_ascii x) in change (escape_ascii x) with y end;
    cbn; by destruct (unescape l) as [[]|]|]). lia.
Qed.
Lemma unescape_plain b l : 128 ≤ b → unescape (b :: l) = prepend [b] (unescape l).
Proof.
  intros Hb. cbn [unescape]. rewrite (proj2 (Z.eqb_neq b 34)), (proj2 (Z.eqb_neq b 92)) by lia. by destruct (unescape l) as [[]|].
Qed.
Lemma prepend_app p q r : prepend p (prepend q r) = prepend (p ++ q) r.
Proof. destruct r as [[]|]; simpl; by rewrite <- ?app_assoc. Qed.

Lemma unescape_escape3 b0 b1 b2 l :
  128 ≤ b0 → 128 ≤ b1 → 128 ≤ b2 → unescape (escape3 b0 b1 b2 ++ l) = prepend [b0; b1; b2] (unescape l).
Proof.
  intros H0 H1 H2. unfold escape3. destruct (_ && _) eqn:E.
  - apply andb_true_iff in E as [E E2]. apply andb_true_iff in E as [E0%Z.eqb_eq E1%Z.eqb_eq]. subst.
    apply orb_true_iff in E2 as [->%Z.eqb_eq| ->%Z.eqb_eq]; cbn; by destruct (unescape l) as [[]|].
  - cbn [app]. rewrite !unescape_plain, !prepend_app by done. done.
Qed.

Lemma second_ok_high b0 b1 : second_ok b0 b1 = true → 128 ≤ b1.
Proof. unfold second_ok. intros H. go_cases; apply between_spec in H; lia. Qed.

(** Every reader that undoes the escapes of single characters reads an escaped text back. *)
Section escape_reader.
Context (rd : list Z → option (list Z * list Z)).
Hypothesis rd_end : ∀ rest, rd (34 :: rest) = Some ([], rest).
Hypothesis rd_ascii : ∀ b l, 0 ≤ b < 128 → rd (escape_ascii b ++ l) = prepend [b] (rd l).
Hypothesis rd_plain : ∀ b l, 128 ≤ b → rd (b :: l) = prepend [b] (rd l).
Hypothesis rd_escape3 : ∀ b0 b1 b2 l, 128 ≤ b0 → 128 ≤ b1 → 128 ≤ b2 → rd (escape3 b0 b1 b2 ++ l) = prepend [b0; b1; b2] (rd l).

Lemma read_escaped bs rest :
  Forall (λ b, 0 ≤ b) bs → is_Some (utf8_runes bs) → rd (json_escape bs ++ 34 :: rest) = Some (bs, rest).
Proof.
  remember (length bs) as n eqn:Hn. revert bs Hn. induction (lt_wf n) as [n _ IH]. intros bs -> Hb Hs.
  destruct bs as [|b0 t0]; [apply rd_end|]. apply Forall_cons in Hb as [H0 Hb]. cbn [json_escape utf8_runes] in *.
  assert (∀ p t, b0 :: t0 = p ++ t → p ≠ [] → is_Some (utf8_runes t) →
            prepend p (rd (json_escape t ++ 34 :: rest)) = Some (b0 :: t0, rest)) as Hstep.
  { intros p t E Hp Ht. rewrite (IH (length t)); [simpl; by rewrite E| |done| |done].
    - rewrite E, length_app. destruct p; [done|]. simpl. lia.
    - apply (Forall_app _ p t). rewrite <- E. by constructor. }
  destruct (Z.ltb_spec b0 0x80) as [Hlt|Hge].
  { rewrite <- app_assoc, rd_ascii by lia. apply Hstep; [done|done|]. by destruct (utf8_runes t0). }
  destruct (between 0xC2 0xDF b0).
  { destruct t0 as [|b1 t1]; [by destruct Hs|]. destruct (between 0x80 0xBF b1) eqn:E1; [|by destruct Hs].
    apply between_spec in E1. cbn [app]. rewrite !rd_plain, !prepend_app by lia.
    apply Hstep; [done|done|]. by destruct (utf8_runes t1). }
  destruct (between 0xE0 0xEF b0).
  { destruct t0 as [|b1 [|b2 t2]]; [by destruct Hs..|]. destruct (_ && _) eqn:E; [|by destruct Hs].
    apply andb_true_iff in E as [E1 E2]. apply second_ok_high in E1. apply between_spec in E2.
    rewrite <- app_assoc, rd_escape3 by lia. apply Hstep; [done|done|]. by destruct (utf8_runes t2). }
  destruct (between 0xF0 0xF4 b0); [|by destruct Hs].
  destruct t0 as [|b1 [|b2 [|b3 t3]]]; [by destruct Hs..|]. destruct (_ && _) eqn:E; [|by destruct Hs].
  apply andb_true_iff in E as [E E3]. apply andb_true_iff in E as [E1 E2]. apply second_ok_high in E1.
  apply between_spec in E2, E3. cbn [app]. rewrite !rd_plain, !prepend_app by lia.
  apply Hstep; [done|done|]. by destruct (utf8_runes t3).
Qed.
End escape_reader.

Lemma json_unescape bs rest :
  Forall (λ b, 0 ≤ b) bs → is_Some (utf8_runes bs) → unescape (json_escape bs ++ 34 :: rest) = Some (bs, rest).
Proof. apply read_escaped; [done|apply unescape_ascii|apply unescape_plain|apply unescape_escape3]. Qed.

Lemma json_quote_inj s t r r' :
  ValidString s = true → ValidString t = true → json_quote s ++ r = json_quote t ++ r' → s = t ∧ r = r'.
Proof.
  unfold ValidString, json_quote. rewrite !bool_decide_eq_true. intros Hs Ht H. simpl in H.
  assert (∀ u, Forall (λ b, 0 ≤ b) (code u)) as Hb.
  { intros u. unfold code. apply Forall_fmap, Forall_forall. intros b _. simpl. pose proof (bval_range b). lia. }
  rewrite <- !app_assoc in H. simpl in H. apply (f_equal (λ l, unescape (tail l))) in H. simpl in H.
  rewrite !json_unescape in H by done. simplify_eq. split; [|done]. by apply code_inj.
Qed.

(** ** encoding/json: structs of strings, integers and booleans *)

Inductive json_value := JString (s : string) | JInt (z : Z) | JBool (b : bool).

Definition json_int (z : Z) : list Z := if z <? 0 then 45 :: code (FormatUint (- z)) else code (FormatUint z).
Definition json_encode (v : json_value) : list Z :=
  match v with
  | JString s => json_quote s
  | JInt z => json_int z
  | JBool b => code (if b then "true" else "false")
  end.
Fixpoint json_fields (l : list (string * json_value)) : list Z :=
  match l with
  | [] => []
  | [(k, v)] => json_quote k ++ [58] ++ json_encode v
  | (k, v) :: rest => json_quote k ++ [58] ++ json_encode v ++ [44] ++ json_fields rest
  end.
(** [json.Marshal] of a struct with these fields. *)
Definition Marshal (fields : list (string * json_value)) : list byte := byte_of <$> [123] ++ json_fields fields ++ [125].

(** The values a Go struct can hold, for which the text is unambiguous. *)
Definition json_wf (v : json_value) : Prop :=
  match v with JString s => ValidString s = true | JInt z => is_i64 z ∨ is_u64 z | JBool _ => True end.
Definition same_kind (v v' : json_value) : Prop :=
  match v, v' with JString _, JString _ | JInt _, JInt _ | JBool _, JBool _ => True | _, _ => False end.

(** What follows a value. *)
Definition sep (l : list Z) : Prop := ∃ c t, l = c :: t ∧ (c = 44 ∨ c = 125).

Lemma span_unique (P : Z → Prop) l1 l2 r1 r2 :
  Forall P l1 → Forall P l2 → (∀ c t, r1 = c :: t → ¬ P c) → (∀ c t, r2 = c :: t → ¬ P c) → r1 ≠ [] → r2 ≠ [] →
  l1 ++ r1 = l2 ++ r2 → l1 = l2 ∧ r1 = r2.
Proof.
  intros H1. revert l2. induction H1 as [|x l1 Hx H1 IH]; intros l2 H2 Hr1 Hr2 Hn1 Hn2 H.
  - destruct H2 as [|y l2 Hy H2]; [done|]. simpl in H. subst. by destruct (Hr1 y (l2 ++ r2)).
  - destruct H2 as [|y l2 Hy H2]; simpl in H; [subst; by destruct (Hr2 x (l1 ++ r1))|].
    injection H as -> H. by destruct (IH l2 H2 Hr1 Hr2 Hn1 Hn2 H) as [-> ->].
Qed.

Definition digit (c : Z) : Prop := 48 ≤ c < 58.
Lemma code_FormatUint_digits n : 0 ≤ n → Forall digit (code (FormatUint n)).
Proof. intros H. rewrite code_FormatUint by done. apply Forall_rev. by apply digits_rev_range. Qed.
Lemma FormatUint_inj n m : is_u64 n → is_u64 m → FormatUint n = FormatUint m → n = m.
Proof. intros Hn Hm H. apply (f_equal ParseUint) in H. rewrite !ParseUint_FormatUint in H by done. by simplify_eq. Qed.

Lemma sep_not_digit r : sep r → r ≠ [] ∧ ∀ c t, r = c :: t → ¬ digit c.
Proof. intros (c & t & -> & Hc). split; [done|]. intros c' t' H. simplify_eq. unfold digit. lia. Qed.

Lemma digits_inj n m r r' :
  is_u64 n → is_u64 m → sep r → sep r' → code (FormatUint n) ++ r = code (FormatUint m) ++ r' → n = m ∧ r = r'.
Proof.
  intros Hn Hm [Hr Hr1]%sep_not_digit [Hr' Hr1']%sep_not_digit H. unfold is_u64 in *.
  destruct (span_unique digit _ _ _ _ (code_FormatUint_digits n ltac:(lia)) (code_FormatUint_digits m ltac:(lia)) Hr1 Hr1' Hr Hr' H)
    as [H1 H2].
  split; [|done]. apply FormatUint_inj; [done..|]. by apply code_inj.
Qed.

Lemma json_int_inj z w r r' :
  is_i64 z ∨ is_u64 z → is_i64 w ∨ is_u64 w → sep r → sep r' → json_int z ++ r = json_int w ++ r' → z = w ∧ r = r'.
Proof.
  intros Hz Hw Hr Hr' H.
  assert (∀ n q q', is_u64 n → sep q' → 45 :: q = code (FormatUint n) ++ q' → False) as Hminus.
  { intros n q q' Hn [Hne Hq]%sep_not_digit E. pose proof (code_FormatUint_digits n ltac:(unfold is_u64 in *; lia)) as Hd.
    destruct (code (FormatUint n)) as [|x l] eqn:En; simpl in E.
    - apply (code_inj _ EmptyString), (f_equal ParseUint) in En. by rewrite ParseUint_FormatUint in En.
    - injection E as <- E. apply Forall_cons in Hd as [Hd _]. unfold digit in Hd. lia. }
  unfold json_int in H. destruct (Z.ltb_spec z 0) as [Hz0|Hz0], (Z.ltb_spec w 0) as [Hw0|Hw0]; simpl in H.
  - injection H as H. apply digits_inj in H as [H ->]; [split; [lia|done]| | |done..];
      unfold is_u64, is_i64, maxUint64 in *; lia.
  - exfalso. apply (Hminus w _ r' ltac:(unfold is_u64, is_i64, maxUint64 in *; lia) Hr' H).
  - exfalso. apply (Hminus z _ r ltac:(unfold is_u64, is_i64, maxUint64 in *; lia) Hr (eq_sym H)).
  - apply digits_inj in H as [H ->]; [done| | |done..]; unfold is_u64, is_i64, maxUint64 in *; lia.
Qed.

Lemma json_encode_inj v v' r r' :
  same_kind v v' → json_wf v → json_wf v' → sep r → sep r' → json_encode v ++ r = json_encode v' ++ r' → v = v' ∧ r = r'.
Proof.
  intros Hk Hv Hv' Hr Hr' H. destruct v, v'; try done; simpl in *.
  - by destruct (json_quote_inj _ _ _ _ Hv Hv' H) as [-> ->].
  - by destruct (json_int_inj _ _ _ _ Hv Hv' Hr Hr' H) as [-> ->].
  - destruct b, b0; simpl in H; by simplify_eq.
Qed.

(** Two structs of one Go type: the same tags and the same kinds of fields. *)
Definition same_type (l l' : list (string * json_value)) : Prop :=
  Forall2 (λ f f', f.1 = f'.1 ∧ same_kind f.2 f'.2) l l'.

Lemma json_fields_inj l l' r :
  same_type l l' → Forall (λ f, json_wf f.2) l → Forall (λ f, json_wf f.2) l' → r = [125] →
  json_fields l ++ r = json_fields l' ++ r → l = l'.
Proof.
  intros Ht Hl Hl' ->. revert Hl Hl'. induction Ht as [|[k v] [k' v'] l l' [Hk Hs] Ht IH]; intros Hl Hl' H; [done|].
  simpl in Hk, Hs. subst k'. apply Forall_cons in Hl as [Hv Hl], Hl' as [Hv' Hl']. simpl in Hv, Hv'.
  destruct Ht as [|x y l l' Hxy Ht].
  - cbn [json_fields] in H. rewrite <- !app_assoc in H. apply app_inv_head in H. simpl in H. injection H as H.
    apply json_encode_inj in H as [-> _]; [done|done..|eexists _, _; eauto|eexists _, _; eauto].
  - assert (∀ v z m, json_fields ((k, v) :: z :: m) = json_quote k ++ [58] ++ json_encode v ++ [44] ++ json_fields (z :: m)) as E
      by done. rewrite !E in H. rewrite <- !app_assoc in H. apply app_inv_head in H. cbn [app] in H. injection H as H.
    apply json_encode_inj in H as [-> H]; [|done..|eexists _, _; eauto|eexists _, _; eauto]. injection H as H.
    f_equal. by apply IH.
Qed.

(** All codes the encoder produces are bytes. *)
Lemma json_escape_bytes bs : Forall (λ b, 0 ≤ b < 256) bs → Forall (λ b, 0 ≤ b < 256) (json_escape bs).
Proof.
  assert (∀ b, 0 ≤ b < 256 → Forall (λ b, 0 ≤ b < 256) (escape_ascii b)) as Ha.
  { intros b Hb. unfold escape_ascii, hex_code. repeat case_match; repeat constructor; try lia; apply bval_range. }
  assert (∀ a b c, 0 ≤ a < 256 → 0 ≤ b < 256 → 0 ≤ c < 256 → Forall (λ b, 0 ≤ b < 256) (escape3 a b c)) as H3.
  { intros a b c ???. unfold escape3, hex_code. case_match; repeat constructor; try lia; apply bval_range. }
  assert (Forall (λ b, 0 ≤ b < 256) replacement) as Hr by (repeat constructor; lia).
  remember (length bs) as n eqn:Hn. revert bs Hn. induction (lt_wf n) as [n _ IH]. intros bs -> Hb.
  destruct bs as [|b0 t0]; [constructor|]. assert (∀ t, (length t ≤ length t0)%nat → Forall (λ b, 0 ≤ b < 256) t →
    Forall (λ b, 0 ≤ b < 256) (json_escape t)) as IH' by (intros t Ht Hb'; apply (IH (length t)); [simpl; lia|done|done]).
  apply Forall_cons in Hb as [H0 Hb]. cbn [json_escape].
  repeat case_match; subst; repeat match goal with H : Forall _ (_ :: _) |- _ => apply Forall_cons in H as [? H] end;
    rewrite ?Forall_app, ?Forall_cons; split_and?; try done; try lia; try (by apply Ha); try (by apply H3);
    try (apply IH'; [simpl; lia|repeat (constructor; [done|]); done]).
Qed.

Lemma code_bytes s : Forall (λ b, 0 ≤ b < 256) (code s).
Proof. unfold code. apply Forall_fmap, Forall_forall. intros b _. apply bval_range. Qed.

Lemma json_encode_bytes v : Forall (λ b, 0 ≤ b < 256) (json_encode v).
Proof.
  assert (∀ s, Forall (λ b, 0 ≤ b < 256) (json_quote s)) as Hq.
  { intros s. unfold json_quote. rewrite !Forall_app, !Forall_cons. split_and!; try done; try lia. apply json_escape_bytes, code_bytes. }
  destruct v as [s|z|b]; simpl; [apply Hq| |apply code_bytes]. unfold json_int. case_match; [constructor; [lia|]|]; apply code_bytes.
Qed.
Lemma json_fields_bytes l : Forall (λ b, 0 ≤ b < 256) (json_fields l).
Proof.
  pose proof json_encode_bytes as He. induction l as [|[k v] l IH]; [constructor|]. pose proof (He (JString k)) as Hk. simpl in Hk.
  destruct l as [|x l]; [cbn [json_fields]|change (json_fields ((k, v) :: x :: l)) with
    (json_quote k ++ [58] ++ json_encode v ++ [44] ++ json_fields (x :: l))];
    rewrite !Forall_app, ?Forall_cons; split_and!; try done; try lia.
Qed.

Lemma bytes_inj l l' : Forall (λ b, 0 ≤ b < 256) l → Forall (λ b, 0 ≤ b < 256) l' → byte_of <$> l = byte_of <$> l' → l = l'.
Proof.
  intros H. revert l'. induction H as [|x l Hx H IH]; intros l' H' E; destruct H' as [|y l' Hy H']; try done.
  rewrite !fmap_cons in E. injection E as E1 E2. f_equal; [|by apply IH].
  apply (f_equal bval) in E1. rewrite !bval_byte_of, !Z.mod_small in E1 by done. done.
Qed.

Lemma marshal_inj l l' :
  same_type l l' → Forall (λ f, json_wf f.2) l → Forall (λ f, json_wf f.2) l' → Marshal l = Marshal l' → l = l'.
Proof.
  intros Ht Hl Hl' H. unfold Marshal in H.
  assert (∀ m, Forall (λ b, 0 ≤ b < 256) ([123] ++ json_fields m ++ [125])) as Hb.
  { intros m. rewrite !Forall_app, !Forall_cons. split_and!; try done; try lia. apply json_fields_bytes. }
  apply bytes_inj in H; [|apply Hb..]. simpl in H. injection H as H. by eapply json_fields_inj.
Qed.

(** ** Text in ASCII is valid UTF-8 *)

Definition ascii (s : string) : Prop := Forall (λ c, 0 ≤ c < 128) (code s).

Lemma ascii_valid s : ascii s → ValidString s = true.
Proof.
  unfold ascii, ValidString. intros Hs. apply bool_decide_eq_true. induction Hs as [|c l Hc Hl IH]; [by eexists|].
  simpl. rewrite (proj2 (Z.ltb_lt c 128)) by lia. by apply fmap_is_Some.
Qed.

Lemma b64_values_ascii l vs : b64_values l = Some vs → Forall (λ b, 0 ≤ bval b < 128) l.
Proof.
  revert vs. induction l as [|b l IH]; intros vs Hl; [constructor|]. cbn [b64_values] in Hl. pose proof (bval_range b) as Hb.
  destruct ((bval b =? 10) || (bval b =? 13)) eqn:E; [constructor; [bool_prop; lia|by eapply IH]|].
  destruct (b64_value (bval b)) as [v|] eqn:Ev; [|done]. simpl in Hl. destruct (b64_values l); [|done]. constructor; [|by eapply IH].
  unfold b64_value, between in Ev. go_cases; bool_prop; lia.
Qed.
Lemma RawStd_ascii s l : RawStd_DecodeString s = Some l → ascii s.
Proof.
  unfold RawStd_DecodeString, ascii, code. destruct (b64_values (bytes_of s)) eqn:E; [|done]. intros _.
  apply Forall_fmap. by eapply b64_values_ascii.
Qed.

Lemma hex_decode_ascii l r : hex_decode l = Some r → Forall (λ b, 0 ≤ bval b < 128) l.
Proof.
  assert (∀ b v, from_hex (bval b) = Some v → 0 ≤ bval b < 128) as Hd.
  { intros b v Hv. pose proof (bval_range b). unfold from_hex, between in Hv. go_cases; bool_prop; lia. }
  revert r. remember (length l) as n eqn:Hn. revert l Hn. induction (lt_wf n) as [n _ IH]. intros l -> r Hl.
  destruct l as [|a [|b l]]; [constructor|done|]. cbn [hex_decode] in Hl.
  destruct (from_hex (bval a)) eqn:Ea; [|done]. destruct (from_hex (bval b)) eqn:Eb; [|done]. simpl in Hl.
  destruct (hex_decode l) eqn:El; [|done]. constructor; [by eapply Hd|]. constructor; [by eapply Hd|].
  eapply (IH (length l)); [simpl; lia|done|done].
Qed.
Lemma DecodeString_ascii s l : DecodeString s = Some l → ascii s.
Proof. unfold DecodeString, ascii, code. intros Hs. apply Forall_fmap. by eapply hex_decode_ascii. Qed.

Lemma parse_digits_ascii cs : ∀ n, (parse_digits n cs).2 = true → Forall (λ c, 0 ≤ c < 128) cs.
Proof.
  induction cs as [|c cs IH]; intros n Hn; [constructor|]. cbn [parse_digits] in Hn. unfold between in Hn.
  constructor; [|repeat case_match; simplify_eq; eauto]. repeat case_match; try done; bool_prop; lia.
Qed.
Lemma ParseUint_ascii s : (ParseUint s).2 = true → ascii s.
Proof. unfold ParseUint, ascii. case_match; [done|]. apply parse_digits_ascii. Qed.
