(* ===== verification/GoJSON.v ===== *)
(** * encoding/json: texts and values

    The grammar of JSON texts as [json.Valid] and the token stream of [json.Decoder] with
    [UseNumber] accept it, and [json.Marshal] of the values such a decoder builds.  A text
    is a list of bytes (as numbers).  [any] is what [interface{}] holds after decoding; a
    map is an association list. *)

From S2P Require Import Prelude GoStd GoSort GoEncoding.
Open Scope Z_scope.

#[local] Unset Elimination Schemes.
Inductive any :=
| ANull
| ABool (b : bool)
| ANumber (text : string)
| AString (s : string)
| AArray (l : list any)
| AObject (l : list (string * any)).
#[local] Set Elimination Schemes.

Section any_ind.
Context (P : any → Prop).
Context (Hnull : P ANull) (Hbool : ∀ b, P (ABool b)) (Hnumber : ∀ t, P (ANumber t)) (Hstring : ∀ s, P (AString s)).
Context (Harray : ∀ l, Forall P l → P (AArray l)) (Hobject : ∀ l, Forall (λ kv, P kv.2) l → P (AObject l)).
Fixpoint any_ind (v : any) : P v :=
  match v with
  | ANull => Hnull
  | ABool b => Hbool b
  | ANumber t => Hnumber t
  | AString s => Hstring s
  | AArray l => Harray l ((fix go l : Forall P l := match l with [] => List.Forall_nil _ | v :: l => List.Forall_cons P v l (any_ind v) (go l) end) l)
  | AObject l => Hobject l ((fix go l : Forall (λ kv, P kv.2) l := match l with [] => List.Forall_nil _ | kv :: l => List.Forall_cons _ kv l (any_ind kv.2) (go l) end) l)
  end.
End any_ind.

(** ** Reading *)

Definition string_of (l : list Z) : string := String.string_of_list_byte (byte_of <$> l).

Definition is_ws (c : Z) : bool := (c =? 32) || (c =? 9) || (c =? 10) || (c =? 13).
Fixpoint skip_ws (l : list Z) : list Z :=
  match l with c :: t => if is_ws c then skip_ws t else l | [] => [] end.

(** A code point in UTF-8. *)
Definition utf8_encode (v : Z) : list Z :=
  if v <? 0x80 then [v]
  else if v <? 0x800 then [0xC0 + v / 64; 0x80 + v `mod` 64]
  else if v <? 0x10000 then [0xE0 + v / 4096; 0x80 + (v / 64) `mod` 64; 0x80 + v `mod` 64]
  else [0xF0 + v / 262144; 0x80 + (v / 4096) `mod` 64; 0x80 + (v / 64) `mod` 64; 0x80 + v `mod` 64].

Definition is_high (v : Z) : bool := between 0xD800 0xDBFF v.
Definition is_low (v : Z) : bool := between 0xDC00 0xDFFF v.
(** The low surrogate escaped at the head of a text. *)
Definition low_escape (l : list Z) : option Z :=
  match l with
  | b :: u :: h1 :: h2 :: h3 :: h4 :: _ =>
    if (b =? 92) && (u =? 117) then match hex_value4 h1 h2 h3 h4 with Some v => if is_low v then Some v else None | None => None end else None
  | _ => None
  end.

Definition unquote_char (c : Z) : option Z :=
  if (c =? 34) || (c =? 92) || (c =? 47) then Some c
  else if c =? 98 then Some 8 else if c =? 102 then Some 12 else if c =? 110 then Some 10
  else if c =? 114 then Some 13 else if c =? 116 then Some 9 else None.

(** The contents of a string after its opening quote, decoded, and what follows the closing
    quote.  The text is valid UTF-8 where this is used, so other bytes are kept; an unpaired
    surrogate becomes U+FFFD. [drop] is the number of bytes of a pair that are still to skip. *)
Fixpoint read_string (skip : nat) (l : list Z) : option (list Z * list Z) :=
  match l with
  | [] => None
  | b :: t =>
    match skip with
    | S k => read_string k t
    | O =>
      if b =? 34 then Some ([], t)
      else if b =? 92 then
        match t with
        | [] => None
        | c :: t1 =>
          if c =? 117 then
            match t1 with
            | h1 :: h2 :: h3 :: h4 :: t4 =>
              v ← hex_value4 h1 h2 h3 h4;
              let '(v, skip) := if is_high v then
                match low_escape t4 with
                | Some low => ((v - 0xD800) * 1024 + (low - 0xDC00) + 0x10000, 6%nat)
                | None => (0xFFFD, O)
                end
                else if is_low v then (0xFFFD, O) else (v, O) in
              '(s, rest) ← read_string skip t4; Some (utf8_encode v ++ s, rest)
            | _ => None
            end
          else x ← unquote_char c; '(s, rest) ← read_string 0 t1; Some (x :: s, rest)
        end
      else if b <? 32 then None
      else '(s, rest) ← read_string 0 t; Some (b :: s, rest)
    end
  end.

Definition is_digit (c : Z) : bool := between 48 57 c.
Fixpoint read_digits (l : list Z) : list Z * list Z :=
  match l with
  | c :: t => if is_digit c then let '(ds, rest) := read_digits t in (c :: ds, rest) else ([], l)
  | [] => ([], [])
  end.
(** The parts of a number literal: sign, integer, fraction and exponent. *)
Definition read_sign (l : list Z) : list Z * list Z :=
  match l with c :: t => if c =? 45 then ([c], t) else ([], l) | [] => ([], []) end.
Definition read_int (l : list Z) : option (list Z * list Z) :=
  match l with
  | c :: t =>
    if c =? 48 then Some ([c], t)
    else let '(ds, rest) := read_digits l in if bool_decide (ds = []) then None else Some (ds, rest)
  | [] => None
  end.
Definition read_fraction (l : list Z) : option (list Z * list Z) :=
  match l with
  | c :: t =>
    if c =? 46 then let '(ds, rest) := read_digits t in if bool_decide (ds = []) then None else Some (c :: ds, rest)
    else Some ([], l)
  | [] => Some ([], [])
  end.
Definition read_exponent (l : list Z) : option (list Z * list Z) :=
  match l with
  | c :: t =>
    if (c =? 101) || (c =? 69) then
      let '(sign, t) := match t with s :: t' => if (s =? 43) || (s =? 45) then ([s], t') else ([], t) | [] => ([], []) end in
      let '(ds, rest) := read_digits t in
      if bool_decide (ds = []) then None else Some (c :: sign ++ ds, rest)
    else Some ([], l)
  | [] => Some ([], [])
  end.
Definition read_number (l : list Z) : option (list Z * list Z) :=
  let '(sign, l) := read_sign l in
  '(int, l) ← read_int l;
  '(fraction, l) ← read_fraction l;
  '(exponent, l) ← read_exponent l;
  Some (sign ++ int ++ fraction ++ exponent, l).

Fixpoint strip (p l : list Z) : option (list Z) :=
  match p, l with
  | [], _ => Some l
  | x :: p, y :: l => if x =? y then strip p l else None
  | _, [] => None
  end.

(** The text after white space and the character. *)
Definition expect (x : Z) (l : list Z) : option (list Z) :=
  match skip_ws l with c :: t => if c =? x then Some t else None | [] => None end.

(** A value after white space.  [depth] is the nesting that is still allowed. *)
Fixpoint parse_value (fuel : nat) (depth : Z) (l : list Z) : option (any * list Z) :=
  match fuel with
  | O => None
  | S fuel =>
    let l := skip_ws l in
    match l with
    | [] => None
    | c :: t =>
      if c =? 123 then
        if depth <=? 0 then None else
        match expect 125 t with
        | Some rest => Some (AObject [], rest)
        | None => '(members, rest) ← parse_members fuel (depth - 1) t; Some (AObject members, rest)
        end
      else if c =? 91 then
        if depth <=? 0 then None else
        match expect 93 t with
        | Some rest => Some (AArray [], rest)
        | None => '(items, rest) ← parse_items fuel (depth - 1) t; Some (AArray items, rest)
        end
      else if c =? 34 then '(s, rest) ← read_string 0 t; Some (AString (string_of s), rest)
      else if c =? 116 then rest ← strip (code "rue") t; Some (ABool true, rest)
      else if c =? 102 then rest ← strip (code "alse") t; Some (ABool false, rest)
      else if c =? 110 then rest ← strip (code "ull") t; Some (ANull, rest)
      else '(text, rest) ← read_number l; Some (ANumber (string_of text), rest)
    end
  end
with parse_members (fuel : nat) (depth : Z) (l : list Z) : option (list (string * any) * list Z) :=
  match fuel with
  | O => None
  | S fuel =>
    t ← expect 34 l;
    '(key, l) ← read_string 0 t;
    l ← expect 58 l;
    '(v, l) ← parse_value fuel depth l;
    match expect 44 l with
    | Some l => '(rest, l) ← parse_members fuel depth l; Some ((string_of key, v) :: rest, l)
    | None => l ← expect 125 l; Some ([(string_of key, v)], l)
    end
  end
with parse_items (fuel : nat) (depth : Z) (l : list Z) : option (list any * list Z) :=
  match fuel with
  | O => None
  | S fuel =>
    '(v, l) ← parse_value fuel depth l;
    match expect 44 l with
    | Some l => '(rest, l) ← parse_items fuel depth l; Some (v :: rest, l)
    | None => l ← expect 93 l; Some ([v], l)
    end
  end.

(** The nesting limit of the scanner. *)
Definition maxNestingDepth : Z := 10000.
Definition fuel_for (l : list Z) : nat := 2 * length l + 2.
(** The value of a text that holds one value and white space. *)
Definition parse_text (l : list Z) : option any :=
  match parse_value (fuel_for l) maxNestingDepth l with
  | Some (v, rest) => match skip_ws rest with [] => Some v | _ => None end
  | None => None
  end.
Definition json_Valid (l : list Z) : bool := bool_decide (is_Some (parse_text l)).

(** ** Writing: [json.Marshal] of a decoded value; maps are written with sorted keys *)

Fixpoint canon (v : any) : any :=
  match v with
  | AArray l => AArray (canon <$> l)
  | AObject l => AObject (SortSlice (λ x y, str_ltb x.1 y.1) ((λ kv, (kv.1, canon kv.2)) <$> l))
  | _ => v
  end.
Definition join (parts : list (list Z)) : list Z :=
  match parts with [] => [] | p :: ps => p ++ mjoin ((λ q, 44 :: q) <$> ps) end.
Fixpoint print (v : any) : list Z :=
  match v with
  | ANull => code "null"
  | ABool b => code (if b then "true" else "false")
  | ANumber text => code text
  | AString s => json_quote s
  | AArray l => 91 :: join (print <$> l) ++ [93]
  | AObject l => 123 :: join ((λ kv, json_quote kv.1 ++ 58 :: print kv.2) <$> l) ++ [125]
  end.
Definition marshal_any (v : any) : list Z := print (canon v).

(** ** Reading what was written *)

Lemma read_string_ascii b l : 0 ≤ b < 128 → read_string 0 (escape_ascii b ++ l) = prepend [b] (read_string 0 l).
Proof.
  intros Hb. assert (∃ n, (n < 128)%nat ∧ b = Z.of_nat n) as (n & Hn & ->) by (exists (Z.to_nat b); lia).
  do 128 (destruct n as [|n]; [
    match goal with |- context [escape_ascii ?x] => let y := eval vm_compute in (escape_ascii x) in change (escape_ascii x) with y end;
    cbn; lazy -[read_string low_escape mbind option_bind prepend app]; by destruct (read_string 0 l) as [[]|]|]). lia.
Qed.
Lemma read_string_plain b l : 128 ≤ b → read_string 0 (b :: l) = prepend [b] (read_string 0 l).
Proof.
  intros Hb. cbn [read_string]. rewrite (proj2 (Z.eqb_neq b 34)), (proj2 (Z.eqb_neq b 92)), (proj2 (Z.ltb_ge b 32)) by lia.
  by destruct (read_string 0 l) as [[]|].
Qed.
Lemma read_string_escape3 b0 b1 b2 l :
  128 ≤ b0 → 128 ≤ b1 → 128 ≤ b2 → read_string 0 (escape3 b0 b1 b2 ++ l) = prepend [b0; b1; b2] (read_string 0 l).
Proof.
  intros H0 H1 H2. unfold escape3. destruct (_ && _) eqn:E.
  - apply andb_true_iff in E as [E E2]. apply andb_true_iff in E as [E0%Z.eqb_eq E1%Z.eqb_eq]. subst.
    apply orb_true_iff in E2 as [->%Z.eqb_eq| ->%Z.eqb_eq]; 
      (match goal with |- context [hex_code ?x] => let y := eval vm_compute in (hex_code x) in change (hex_code x) with y end);
      cbn; lazy -[read_string low_escape mbind option_bind prepend app]; by destruct (read_string 0 l) as [[]|].
  - cbn [app]. rewrite !read_string_plain, !prepend_app by done. done.
Qed.

Lemma string_of_code s : string_of (code s) = s.
Proof.
  unfold string_of, code. rewrite <- list_fmap_compose. rewrite (list_fmap_ext _ id); [by rewrite list_fmap_id, string_of_bytes_of|].
  intros i b _. apply byte_of_bval.
Qed.
Lemma code_string_of_bytes l : Forall (λ b, 0 ≤ b < 256) l → code (string_of l) = l.
Proof.
  intros Hl. unfold string_of. rewrite code_string_of, <- list_fmap_compose. induction Hl as [|b l Hb Hl IH]; [done|]. csimpl.
  rewrite IH, bval_byte_of, Z.mod_small by lia. done.
Qed.

Lemma read_quoted s rest : ValidString s = true → read_string 0 (json_escape (code s) ++ 34 :: rest) = Some (code s, rest).
Proof.
  unfold ValidString. rewrite bool_decide_eq_true. intros Hs.
  apply read_escaped; [done|apply read_string_ascii|apply read_string_plain|apply read_string_escape3| |done].
  eapply Forall_impl; [apply code_bytes|]. simpl. lia.
Qed.

(** What may follow a value in a text without white space. *)
Definition stop (l : list Z) : Prop := match l with [] => True | c :: _ => c = 44 ∨ c = 93 ∨ c = 125 end.

Lemma read_digits_app l rest : stop rest → read_digits (l ++ rest) = let '(ds, r) := read_digits l in (ds, r ++ rest).
Proof.
  intros Hs. induction l as [|c l IH]; simpl.
  - destruct rest as [|c t]; [done|]. simpl. unfold is_digit. rewrite (proj2 (between_false 48 57 c)); [done|]. simpl in Hs. lia.
  - destruct (is_digit c); [|done]. rewrite IH. by destruct (read_digits l).
Qed.

Definition opt_app (rest : list Z) (r : option (list Z * list Z)) : option (list Z * list Z) := '(ds, t) ← r; Some (ds, t ++ rest).

Lemma stop_not c t P : stop (c :: t) → (∀ x, x = 44 ∨ x = 93 ∨ x = 125 → P x = false) → P c = false.
Proof. intros Hs HP. by apply HP. Qed.

Lemma read_int_app l rest : l ≠ [] → stop rest → read_int (l ++ rest) = opt_app rest (read_int l).
Proof.
  intros Hl Hs. destruct l as [|c l]; [done|]. cbn [app read_int]. destruct (c =? 48); [done|].
  rewrite (app_comm_cons l rest c), read_digits_app by done. destruct (read_digits (c :: l)) as [ds r]. case_bool_decide; done.
Qed.
Lemma read_fraction_app l rest : stop rest → read_fraction (l ++ rest) = opt_app rest (read_fraction l).
Proof.
  intros Hs. destruct l as [|c l]; cbn [app read_fraction].
  - destruct rest as [|c t]; [done|]. simpl in Hs. simpl. by rewrite (proj2 (Z.eqb_neq c 46)) by lia.
  - destruct (c =? 46); [|done]. rewrite read_digits_app by done. destruct (read_digits l) as [ds r]. case_bool_decide; done.
Qed.
Lemma read_exponent_app l rest : stop rest → read_exponent (l ++ rest) = opt_app rest (read_exponent l).
Proof.
  intros Hs. destruct l as [|c l]; simpl.
  - destruct rest as [|c t]; [done|]. simpl in Hs. simpl. by destruct Hs as [->|[->| ->]].
  - destruct (_ || _); [|done]. destruct l as [|x l]; simpl.
    + destruct rest as [|y t]; [done|]. simpl in Hs. simpl. destruct Hs as [->|[->| ->]]; done.
    + destruct (_ || _); [|rewrite (app_comm_cons l rest x)]; rewrite read_digits_app by done.
      * destruct (read_digits l) as [ds r]. case_bool_decide; done.
      * destruct (read_digits (x :: l)) as [ds r]. case_bool_decide; done.
Qed.
Lemma read_number_app l rest : l ≠ [] → stop rest → read_number (l ++ rest) = opt_app rest (read_number l).
Proof.
  intros Hl Hs. unfold read_number. assert (read_sign (l ++ rest) = let '(s, t) := read_sign l in (s, t ++ rest)) as ->.
  { destruct l as [|c l]; [done|]. simpl. by destruct (c =? 45). }
  destruct (read_sign l) as [sign t]. destruct (decide (t = [])) as [->|Ht].
  - destruct rest as [|c r]; [done|]. simpl app. assert (read_int (c :: r) = None) as ->; [|done]. simpl in Hs. destruct Hs as [->|[->| ->]]; done.
  - rewrite read_int_app by done. destruct (read_int t) as [[i u]|]; [|done]. simpl. rewrite read_fraction_app by done.
    destruct (read_fraction u) as [[f w]|]; [|done]. simpl. rewrite read_exponent_app by done. by destruct (read_exponent w) as [[e x]|].
Qed.

(** ** Values that can be written *)

Fixpoint json_ok (v : any) : bool :=
  match v with
  | ANull | ABool _ => true
  | ANumber t => bool_decide (read_number (code t) = Some (code t, []))
  | AString s => ValidString s
  | AArray l => forallb json_ok l
  | AObject l => forallb (λ kv, ValidString kv.1 && json_ok kv.2) l
  end.
(** How deep brackets nest. *)
Fixpoint nesting (v : any) : Z :=
  match v with
  | AArray l => 1 + foldr (λ v n, Z.max (nesting v) n) 0 l
  | AObject l => 1 + foldr (λ kv n, Z.max (nesting kv.2) n) 0 l
  | _ => 0
  end.

Lemma number_head l : read_number l = Some (l, []) → ∃ c t, l = c :: t ∧ (c = 45 ∨ 48 ≤ c < 58).
Proof.
  intros H. destruct l as [|c t]; [done|]. exists c, t. split; [done|]. destruct (decide (c = 45)) as [->|Hc]; [by left|]. right.
  unfold read_number in H. assert (read_sign (c :: t) = ([], c :: t)) as E.
  { simpl. by rewrite (proj2 (Z.eqb_neq c 45)). }
  rewrite E in H. destruct (decide (48 ≤ c < 58)) as [|Hn]; [done|]. assert (is_digit c = false) as Hd by (apply between_false; lia).
  assert (read_int (c :: t) = None) as Hi.
  { simpl. rewrite Hd. by rewrite (proj2 (Z.eqb_neq c 48)) by lia. }
  by rewrite Hi in H.
Qed.

Lemma print_head v : json_ok v = true → ∃ c t, print v = c :: t ∧ is_ws c = false ∧ c ≠ 93 ∧ c ≠ 125.
Proof.
  intros Hv. destruct v as [|b|t|s|l|l]; simpl in *; try (do 2 eexists; by split_and!).
  - destruct b; do 2 eexists; by split_and!.
  - apply bool_decide_eq_true in Hv. apply number_head in Hv as (c & u & -> & Hc). exists c, u. split_and!; [done| |lia|lia].
    unfold is_ws. by rewrite !(proj2 (Z.eqb_neq _ _)) by lia.
Qed.
Lemma skip_ws_print v rest : json_ok v = true → skip_ws (print v ++ rest) = print v ++ rest.
Proof. intros (c & t & -> & Hc & _)%print_head. simpl. by rewrite Hc. Qed.
Lemma print_length v : json_ok v = true → (1 ≤ length (print v))%nat.
Proof. intros (c & t & -> & _)%print_head. simpl. lia. Qed.

Lemma join_cons p ps : join (p :: ps) = match ps with [] => p | _ => p ++ 44 :: join ps end.
Proof. destruct ps as [|q ps]; simpl; [by rewrite app_nil_r|done]. Qed.

Lemma expect_here x t : is_ws x = false → expect x (x :: t) = Some t.
Proof. intros Hx. unfold expect. simpl. by rewrite Hx, Z.eqb_refl. Qed.
Lemma expect_other x c t : is_ws c = false → c ≠ x → expect x (c :: t) = None.
Proof. intros Hc Hx. unfold expect. simpl. by rewrite Hc, (proj2 (Z.eqb_neq c x)). Qed.

Definition parses (v : any) : Prop := ∀ f d rest,
  json_ok v = true → nesting v ≤ d → stop rest → (2 * length (print v) ≤ f)%nat → parse_value f d (print v ++ rest) = Some (v, rest).

Lemma join_one {A} (pr : A → list Z) x : join (pr <$> [x]) = pr x.
Proof. simpl. by rewrite app_nil_r. Qed.
Lemma join_more {A} (pr : A → list Z) x y l : join (pr <$> x :: y :: l) = pr x ++ 44 :: join (pr <$> y :: l).
Proof. by rewrite fmap_cons, join_cons. Qed.

Lemma parse_items_print l : Forall parses l → l ≠ [] → ∀ f d rest,
  forallb json_ok l = true → foldr (λ v n, Z.max (nesting v) n) 0 l ≤ d → (2 * length (join (print <$> l)) + 1 ≤ f)%nat →
  parse_items f d (join (print <$> l) ++ 93 :: rest) = Some (l, rest).
Proof.
  induction 1 as [|v l Hv Hl IH]; intros Hne f d rest Hok Hd Hf; [done|]. simpl in Hok, Hd. apply andb_true_iff in Hok as [Hok1 Hok2].
  pose proof (print_length v Hok1) as Hlen. destruct f as [|f]; [lia|]. cbn [parse_items]. destruct l as [|w l].
  - rewrite join_one in Hf |- *. rewrite Hv; [|done|lia|simpl; auto|lia]. cbn [mbind option_bind]. by rewrite expect_other, expect_here by done.
  - rewrite join_more in Hf |- *. rewrite length_app in Hf. cbn [length] in Hf. rewrite <- app_assoc, <- app_comm_cons.
    rewrite Hv; [|done|lia|simpl; auto|lia]. cbn [mbind option_bind]. rewrite expect_here by done.
    rewrite IH; [done|done|done|lia|lia].
Qed.

Definition print_member (kv : string * any) : list Z := json_quote kv.1 ++ 58 :: print kv.2.

Lemma parse_members_print l : Forall (λ kv, parses kv.2) l → l ≠ [] → ∀ f d rest,
  forallb (λ kv, ValidString kv.1 && json_ok kv.2) l = true → foldr (λ kv n, Z.max (nesting kv.2) n) 0 l ≤ d →
  (2 * length (join (print_member <$> l)) + 1 ≤ f)%nat →
  parse_members f d (join (print_member <$> l) ++ 125 :: rest) = Some (l, rest).
Proof.
  induction 1 as [|[k v] l Hv Hl IH]; intros Hne f d rest Hok Hd Hf; [done|]. simpl in Hok, Hd, Hv. apply andb_true_iff in Hok as [Hok1 Hok2].
  apply andb_true_iff in Hok1 as [Hk Hok1]. pose proof (print_length v Hok1) as Hlen. destruct f as [|f]; [lia|]. cbn [parse_members].
  assert (∀ r, print_member (k, v) ++ r = 34 :: json_escape (code k) ++ 34 :: 58 :: print v ++ r) as Ep.
  { intros r. unfold print_member, json_quote. simpl. rewrite <- !app_assoc. simpl. by rewrite <- ?app_assoc. }
  assert (length (print_member (k, v)) = length (json_escape (code k)) + 3 + length (print v))%nat as El.
  { unfold print_member, json_quote. simpl. rewrite !length_app. simpl. lia. }
  destruct l as [|w l].
  - rewrite join_one in Hf |- *. rewrite Ep, expect_here by done. cbn [mbind option_bind]. rewrite read_quoted by done. cbn [mbind option_bind]. rewrite expect_here by done. cbn [mbind option_bind].
    rewrite Hv; [|done|lia|simpl; auto|lia]. cbn [mbind option_bind]. rewrite expect_other, expect_here by done. cbn [mbind option_bind]. by rewrite string_of_code.
  - rewrite join_more in Hf |- *. rewrite length_app in Hf. cbn [length] in Hf. rewrite <- app_assoc, <- app_comm_cons.
    rewrite Ep, expect_here by done. cbn [mbind option_bind]. rewrite read_quoted by done. cbn [mbind option_bind]. rewrite expect_here by done. cbn [mbind option_bind].
    rewrite Hv; [|done|lia|simpl; auto|lia]. cbn [mbind option_bind]. rewrite expect_here by done.
    rewrite IH; [by rewrite string_of_code|done|done|lia|lia].
Qed.

Lemma join_head {A} (pr : A → list Z) x l : ∃ t, join (pr <$> x :: l) = pr x ++ t.
Proof. rewrite fmap_cons, join_cons. destruct (pr <$> l); [exists []; by rewrite app_nil_r|eauto]. Qed.

Lemma foldr_max_nonneg {A} (f : A → Z) l : 0 ≤ foldr (λ x n, Z.max (f x) n) 0 l.
Proof. induction l; simpl; lia. Qed.

Theorem parse_print v : parses v.
Proof.
  induction v as [|b|t|s|l IH|l IH] using any_ind; intros f d rest Hok Hd Hs Hf;
    pose proof (print_length _ Hok) as Hpl; simpl in Hok; (destruct f as [|f]; [lia|]).
  - done.
  - by destruct b.
  - apply bool_decide_eq_true in Hok. destruct (number_head _ Hok) as (c & u & Ec & Hc). cbn [parse_value print].
    pose proof (read_number_app (code t) rest ltac:(by rewrite Ec) Hs) as Hn. rewrite Hok in Hn. simpl in Hn. rewrite Ec in Hn |- *. cbn [app] in Hn |- *.
    assert (skip_ws (c :: u ++ rest) = c :: u ++ rest) as ->.
    { simpl. unfold is_ws. by rewrite !(proj2 (Z.eqb_neq c _)) by lia. }
    rewrite !(proj2 (Z.eqb_neq c _)) by lia. rewrite Hn. cbn [mbind option_bind]. by rewrite <- Ec, string_of_code.
  - cbn [parse_value print]. unfold json_quote. simpl. rewrite <- app_assoc. simpl. rewrite read_quoted by done. simpl. by rewrite string_of_code.
  - cbn [nesting] in Hd. cbn [print length] in Hf. rewrite length_app in Hf. cbn [length] in Hf. pose proof (foldr_max_nonneg nesting l).
    cbn [parse_value print app skip_ws is_ws orb Z.eqb Pos.eqb]. rewrite <- app_assoc. cbn [app]. rewrite (proj2 (Z.leb_gt d 0)) by lia.
    destruct l as [|x l]; [done|]. destruct (join_head print x l) as [u Eu]. simpl in Hok. apply andb_true_iff in Hok as Hok'.
    destruct (print_head x (proj1 Hok')) as (c & w & Ev & Hws & Hc1 & Hc2).
    assert (expect 93 (join (print <$> x :: l) ++ 93 :: rest) = None) as -> by (rewrite Eu, Ev; cbn [app]; by apply expect_other).
    rewrite parse_items_print; [done|done|done|done|simpl in *; lia|lia].
  - cbn [nesting] in Hd. cbn [print length] in Hf. rewrite length_app in Hf. cbn [length] in Hf. pose proof (foldr_max_nonneg (λ kv : string * any, nesting kv.2) l).
    cbn [parse_value print app skip_ws is_ws orb Z.eqb Pos.eqb]. rewrite <- app_assoc. cbn [app]. rewrite (proj2 (Z.leb_gt d 0)) by lia.
    change ((λ kv : string * any, json_quote kv.1 ++ 58 :: print kv.2) <$> l) with (print_member <$> l) in *.
    destruct l as [|x l]; [done|]. destruct (join_head print_member x l) as [u Eu].
    assert (expect 125 (join (print_member <$> x :: l) ++ 125 :: rest) = None) as -> by (rewrite Eu; unfold print_member, json_quote; by apply expect_other).
    rewrite parse_members_print; [done|done|done|done|simpl in *; lia|lia].
Qed.

(** [json.Valid] accepts what [json.Marshal] writes, and the decoder reads it back. *)
Lemma parse_text_print v : json_ok v = true → nesting v ≤ maxNestingDepth → parse_text (print v) = Some v.
Proof.
  intros Hok Hd. unfold parse_text. rewrite <- (app_nil_r (print v)) at 2. rewrite parse_print; [done|done|done|done|]. unfold fuel_for. lia.
Qed.

(** ** The bound on the recursion is enough: more fuel gives the same answer *)

Lemma skip_ws_length l : (length (skip_ws l) ≤ length l)%nat.
Proof. induction l as [|c l IH]; simpl; [done|]. destruct (is_ws c); simpl; lia. Qed.
Lemma expect_length x l t : expect x l = Some t → (length t < length l)%nat.
Proof.
  unfold expect. intros He. pose proof (skip_ws_length l) as Hl. destruct (skip_ws l) as [|c u]; [done|]. destruct (c =? x); [|done].
  injection He as ->. simpl in Hl. lia.
Qed.
Lemma read_string_length l : ∀ k s r, read_string k l = Some (s, r) → (length r < length l)%nat.
Proof.
  remember (length l) as n eqn:Hn. revert l Hn. induction (lt_wf n) as [n _ IH]. intros l -> k s r Hr. destruct l as [|b t]; [done|]. cbn [read_string] in Hr.
  assert (∀ u, (length u < length (b :: t))%nat → ∀ k s r, read_string k u = Some (s, r) → (length r < length u)%nat) as IH'.
  { intros u Hu. by apply (IH (length u)). }
  cbn [length] in *. destruct k as [|k]; [|apply IH' in Hr; lia]. destruct (b =? 34); [simplify_eq; lia|]. destruct (b =? 92).
  - destruct t as [|c t1]; [done|]. cbn [length] in *. destruct (c =? 117).
    + destruct t1 as [|h1 [|h2 [|h3 [|h4 t4]]]]; try done. cbn [length] in *. destruct (hex_value4 h1 h2 h3 h4) as [v|]; [|done]. simpl in Hr.
      destruct (if is_high v then _ else _) as [w sk]. destruct (read_string sk t4) as [[s' r']|] eqn:E; [|done]. simplify_eq/=. apply IH' in E; lia.
    + destruct (unquote_char c); [|done]. simpl in Hr. destruct (read_string 0 t1) as [[s' r']|] eqn:E; [|done]. simplify_eq/=. apply IH' in E; lia.
  - destruct (b <? 32); [done|]. destruct (read_string 0 t) as [[s' r']|] eqn:E; [|done]. simplify_eq/=. apply IH' in E; lia.
Qed.
Lemma read_digits_split l : let '(ds, r) := read_digits l in l = ds ++ r.
Proof. induction l as [|c l IH]; simpl; [done|]. destruct (is_digit c); [|done]. destruct (read_digits l) as [ds r]. simpl. by rewrite IH. Qed.
(** A number is a prefix of the text it is read from. *)
Lemma read_number_split l t r : read_number l = Some (t, r) → l = t ++ r ∧ t ≠ [].
Proof.
  unfold read_number. intros H. assert (let '(s, u) := read_sign l in l = s ++ u) as Hs by (destruct l as [|c l]; simpl; [done|]; by destruct (c =? 45)).
  destruct (read_sign l) as [sign u]. destruct (read_int u) as [[i u1]|] eqn:Ei; [|done]. simpl in H.
  assert (u = i ++ u1 ∧ i ≠ []) as [Hi Hi'].
  { destruct u as [|c u]; [done|]. simpl in Ei. destruct (c =? 48); [by simplify_eq|]. pose proof (read_digits_split (c :: u)) as Hd. simpl in Hd.
    destruct (is_digit c); [|simpl in Ei; done]. destruct (read_digits u) as [ds v]. simpl in Ei. by simplify_eq/=. }
  destruct (read_fraction u1) as [[fr u2]|] eqn:Ef; [|done]. simpl in H. assert (u1 = fr ++ u2) as Hf.
  { destruct u1 as [|c u1]; simpl in Ef; [by simplify_eq|]. destruct (c =? 46); [|by simplify_eq]. pose proof (read_digits_split u1) as Hd.
    destruct (read_digits u1) as [ds v]. case_bool_decide; [done|]. by simplify_eq/=. }
  destruct (read_exponent u2) as [[ex u3]|] eqn:Ex; [|done]. simpl in H. assert (u2 = ex ++ u3) as He.
  { destruct u2 as [|c u2]; simpl in Ex; [by simplify_eq|]. destruct (_ || _); [|by simplify_eq].
    destruct u2 as [|x u2]; simpl in Ex; [simpl in Ex; by try case_bool_decide|]. destruct ((x =? 43) || (x =? 45)); simpl in Ex.
    - pose proof (read_digits_split u2) as Hd. destruct (read_digits u2) as [ds v]. case_bool_decide; [done|]. by simplify_eq/=.
    - pose proof (read_digits_split (x :: u2)) as Hd. simpl in Hd. destruct (is_digit x); [|simpl in Ex; by try case_bool_decide].
      destruct (read_digits u2) as [ds v]. case_bool_decide; [done|]. by simplify_eq/=. }
  simplify_eq. split; [by rewrite !app_assoc|]. destruct sign; [|done]. by destruct i.
Qed.

(** The characters of numbers. *)
Definition number_char (c : Z) : Prop := 43 ≤ c ≤ 101.
Lemma read_digits_chars l : Forall number_char (read_digits l).1.
Proof.
  induction l as [|c l IH]; simpl; [constructor|]. destruct (is_digit c) eqn:Ec; [|constructor]. destruct (read_digits l) as [ds r]. constructor; [|done].
  apply between_spec in Ec. unfold number_char. lia.
Qed.
Lemma read_number_chars l t r : read_number l = Some (t, r) → Forall number_char t.
Proof.
  unfold read_number. intros H. assert (Forall number_char (read_sign l).1) as Hs.
  { destruct l as [|c l]; simpl; [constructor|]. destruct (Z.eqb_spec c 45) as [->|]; repeat constructor; unfold number_char; lia. }
  destruct (read_sign l) as [sign u]. destruct (read_int u) as [[i u1]|] eqn:Ei; [|done]. simpl in H. assert (Forall number_char i) as Hi.
  { destruct u as [|c u]; [done|]. cbn [read_int] in Ei. destruct (Z.eqb_spec c 48) as [->|]; [simplify_eq; repeat constructor; unfold number_char; lia|].
    pose proof (read_digits_chars (c :: u)) as Hd. destruct (read_digits (c :: u)) as [ds v]. case_bool_decide; [done|]. by simplify_eq/=. }
  destruct (read_fraction u1) as [[fr u2]|] eqn:Ef; [|done]. simpl in H. assert (Forall number_char fr) as Hf.
  { destruct u1 as [|c u1]; cbn [read_fraction] in Ef; [simplify_eq; constructor|]. destruct (Z.eqb_spec c 46) as [->|]; [|simplify_eq; constructor].
    pose proof (read_digits_chars u1) as Hd. destruct (read_digits u1) as [ds v]. case_bool_decide; [done|]. simplify_eq/=. constructor; [unfold number_char; lia|done]. }
  destruct (read_exponent u2) as [[ex u3]|] eqn:Ex; [|done]. simpl in H. assert (Forall number_char ex) as He.
  { destruct u2 as [|c u2]; cbn [read_exponent] in Ex; [simplify_eq; constructor|].
    destruct (_ || _) eqn:Ec; [|simplify_eq; constructor]. assert (number_char c) by (apply orb_true_iff in Ec as [?%Z.eqb_eq|?%Z.eqb_eq]; unfold number_char; lia).
    destruct (match u2 with [] => _ | _ => _ end) as [sg w] eqn:Esg. pose proof (read_digits_chars w) as Hd. destruct (read_digits w) as [ds v].
    case_bool_decide; [done|]. simplify_eq/=. constructor; [done|]. apply Forall_app. split; [|done].
    destruct u2 as [|x u2]; [simplify_eq; constructor|]. destruct (_ || _) eqn:Ex in Esg; simplify_eq; [|constructor].
    constructor; [|constructor]. apply orb_true_iff in Ex as [?%Z.eqb_eq|?%Z.eqb_eq]; unfold number_char; lia. }
  simplify_eq. by rewrite !Forall_app.
Qed.

Lemma strip_length p l r : strip p l = Some r → (length r ≤ length l)%nat.
Proof. revert l. induction p as [|x p IH]; intros [|y l] Hs; simplify_eq/=; try done. destruct (x =? y); [|done]. apply IH in Hs. lia. Qed.

Ltac parse_case :=
  match goal with
  | H : context [?m ≫= _] |- _ => destruct m as [[? ?]|] eqn:?; cbn [mbind option_bind] in H; [|done]
  | H : context [?m ≫= _] |- _ => destruct m eqn:?; cbn [mbind option_bind] in H; [|done]
  end.

Lemma parse_length f : ∀ d l,
  (∀ v r, parse_value f d l = Some (v, r) → (length r < length l)%nat) ∧
  (∀ v r, parse_members f d l = Some (v, r) → (length r < length l)%nat) ∧
  (∀ v r, parse_items f d l = Some (v, r) → (length r < length l)%nat).
Proof.
  induction f as [|f IH]; intros d l; [done|]. assert (∀ d l v r, parse_value f d l = Some (v, r) → (length r < length l)%nat) as IHv by (intros d' l'; apply IH).
  assert (∀ d l v r, parse_members f d l = Some (v, r) → (length r < length l)%nat) as IHm by (intros d' l'; apply IH).
  assert (∀ d l v r, parse_items f d l = Some (v, r) → (length r < length l)%nat) as IHi by (intros d' l'; apply IH). clear IH. split_and!.
  - intros v r Hp. cbn [parse_value] in Hp. pose proof (skip_ws_length l) as Hl. destruct (skip_ws l) as [|c t] eqn:El; [done|]. cbn [length] in Hl.
    destruct (c =? 123); [|destruct (c =? 91); [|destruct (c =? 34); [|destruct (c =? 116); [|destruct (c =? 102); [|destruct (c =? 110)]]]]].
    + destruct (d <=? 0); [done|]. destruct (expect 125 t) as [u|] eqn:Ee; [apply expect_length in Ee; simplify_eq; lia|]. parse_case. apply IHm in Heqo. simplify_eq. lia.
    + destruct (d <=? 0); [done|]. destruct (expect 93 t) as [u|] eqn:Ee; [apply expect_length in Ee; simplify_eq; lia|]. parse_case. apply IHi in Heqo. simplify_eq. lia.
    + parse_case. apply read_string_length in Heqo. simplify_eq. lia.
    + parse_case. apply strip_length in Heqo. simplify_eq. lia.
    + parse_case. apply strip_length in Heqo. simplify_eq. lia.
    + parse_case. apply strip_length in Heqo. simplify_eq. lia.
    + parse_case. apply read_number_split in Heqo as [E Hne]. simplify_eq. apply (f_equal length) in E. rewrite length_app in E. destruct l0; [done|]. simpl in E. lia.
  - intros v r Hp. cbn [parse_members] in Hp. destruct (expect 34 l) as [t|] eqn:E1; [|done]. cbn [mbind option_bind] in Hp. apply expect_length in E1.
    destruct (read_string 0 t) as [[k u]|] eqn:E2; [|done]. cbn [mbind option_bind] in Hp. apply read_string_length in E2.
    destruct (expect 58 u) as [w|] eqn:E3; [|done]. cbn [mbind option_bind] in Hp. apply expect_length in E3.
    destruct (parse_value f d w) as [[x y]|] eqn:E4; [|done]. cbn [mbind option_bind] in Hp. apply IHv in E4. destruct (expect 44 y) as [z|] eqn:E5.
    + apply expect_length in E5. parse_case. apply IHm in Heqo. simplify_eq. lia.
    + destruct (expect 125 y) as [z|] eqn:E6; [|done]. apply expect_length in E6. cbn [mbind option_bind] in Hp. simplify_eq. lia.
  - intros v r Hp. cbn [parse_items] in Hp. destruct (parse_value f d l) as [[x y]|] eqn:E4; [|done]. cbn [mbind option_bind] in Hp. apply IHv in E4.
    destruct (expect 44 y) as [z|] eqn:E5.
    + apply expect_length in E5. parse_case. apply IHi in Heqo. simplify_eq. lia.
    + destruct (expect 93 y) as [z|] eqn:E6; [|done]. apply expect_length in E6. cbn [mbind option_bind] in Hp. simplify_eq. lia.
Qed.

Lemma parse_fuel f : ∀ g d l,
  ((2 * length l < f)%nat → (2 * length l < g)%nat → parse_value f d l = parse_value g d l) ∧
  ((2 * length l + 1 < f)%nat → (2 * length l + 1 < g)%nat → parse_members f d l = parse_members g d l ∧ parse_items f d l = parse_items g d l).
Proof.
  induction f as [|f IH]; intros [|g] d l; try (split; lia).
  assert (∀ d l, (2 * length l < f)%nat → (2 * length l < g)%nat → parse_value f d l = parse_value g d l) as IHv by (intros; by apply IH).
  assert (∀ d l, (2 * length l + 1 < f)%nat → (2 * length l + 1 < g)%nat → parse_members f d l = parse_members g d l) as IHm by (intros; by apply IH).
  assert (∀ d l, (2 * length l + 1 < f)%nat → (2 * length l + 1 < g)%nat → parse_items f d l = parse_items g d l) as IHi by (intros; by apply IH). clear IH. split.
  - intros Hf Hg. cbn [parse_value]. pose proof (skip_ws_length l) as Hl. destruct (skip_ws l) as [|c t] eqn:El; [done|]. cbn [length] in Hl.
    by rewrite IHm, IHi by lia.
  - intros Hf Hg. split.
    + cbn [parse_members]. destruct (expect 34 l) as [t|] eqn:E1; [|done]. cbn [mbind option_bind]. apply expect_length in E1.
      destruct (read_string 0 t) as [[k u]|] eqn:E2; [|done]. cbn [mbind option_bind]. apply read_string_length in E2.
      destruct (expect 58 u) as [w|] eqn:E3; [|done]. cbn [mbind option_bind]. apply expect_length in E3. rewrite (IHv d w) by lia.
      destruct (parse_value g d w) as [[x y]|] eqn:E4; [|done]. cbn [mbind option_bind]. apply parse_length in E4.
      destruct (expect 44 y) as [z|] eqn:E5; [|done]. apply expect_length in E5. by rewrite IHm by lia.
    + cbn [parse_items]. rewrite (IHv d l) by lia. destruct (parse_value g d l) as [[x y]|] eqn:E4; [|done]. cbn [mbind option_bind]. apply parse_length in E4.
      destruct (expect 44 y) as [z|] eqn:E5; [|done]. apply expect_length in E5. by rewrite IHi by lia.
Qed.
Corollary parse_fuel_enough k d l : parse_value (fuel_for l + k) d l = parse_value (fuel_for l) d l.
Proof. apply parse_fuel; unfold fuel_for; lia. Qed.
