(* ===== verification/GoFloat.v ===== *)
(** * Numbers of the standard library: math/big rationals, strconv floats and integers, padded base64

    A [big.Rat] is a [Q].  A finite [float64] is the rational number it denotes; conversion
    from a decimal rounds to the nearest binary64 number, ties to even, as [ParseFloat]
    does, and [FormatFloat(x, 'g', -1, 64)] is the shortest decimal that converts back. *)

From S2P Require Import Prelude GoStd GoEncoding GoJSON.
From Stdlib Require Import QArith Qabs.
Open Scope Z_scope.

(** ** Rationals *)

Definition Q_pow2 (e : Z) : Q := if 0 <=? e then inject_Z (2 ^ e) else 1 # Z.to_pos (2 ^ (- e)).
Definition Q_pow10 (e : Z) : Q := if 0 <=? e then inject_Z (10 ^ e) else 1 # Z.to_pos (10 ^ (- e)).
Definition IsInt (q : Q) : bool := Qnum q `mod` QDen q =? 0.
Definition Qltb (x y : Q) : bool := negb (Qle_bool y x).

Lemma IsInt_spec q : IsInt q = true ↔ ∃ z, q == inject_Z z.
Proof.
  unfold IsInt, Qeq, inject_Z. simpl. rewrite Z.eqb_eq. split.
  - intros H. exists (Qnum q / QDen q). pose proof (Z.div_mod (Qnum q) (QDen q)). lia.
  - intros [z Hz]. rewrite Z.mul_1_r in Hz. rewrite Hz. by apply Z.mod_mul.
Qed.
Lemma Qltb_spec x y : Qltb x y = true ↔ (x < y)%Q.
Proof.
  unfold Qltb. rewrite negb_true_iff, <- not_true_iff_false, Qle_bool_iff. split; [apply Qnot_le_lt|apply Qlt_not_le].
Qed.

(** ** Decimal literals *)

Fixpoint digits_value (n : Z) (ds : list Z) : Z := match ds with [] => n | d :: ds => digits_value (n * 10 + (d - 48)) ds end.

(** The exponent of a literal: the text after [e]. *)
Definition exponent_value (l : list Z) : Z :=
  match l with
  | c :: t => if c =? 45 then - digits_value 0 t else if c =? 43 then digits_value 0 t else digits_value 0 l
  | [] => 0
  end.

(** [new(big.Rat).SetString] on a JSON number literal; nothing else is a number. *)
Definition decimal (text : list Z) : option Q :=
  let '(sign, l) := read_sign text in
  '(int, l) ← read_int l;
  '(fraction, l) ← read_fraction l;
  '(exponent, l) ← read_exponent l;
  if bool_decide (l = []) then
    let mantissa := digits_value (digits_value 0 int) (tail fraction) in
    let e := exponent_value (tail exponent) - Z.of_nat (length (tail fraction)) in
    Some (inject_Z (if bool_decide (sign = []) then mantissa else - mantissa) * Q_pow10 e)%Q
  else None.

(** The text after the first [e] or [E]. *)
Fixpoint after_e (l : list Z) : option (list Z) :=
  match l with [] => None | c :: t => if (c =? 101) || (c =? 69) then Some t else after_e t end.

(** ** binary64 *)

Inductive float64 := FNaN | FInf (negative : bool) | FNegZero | FFin (q : Q).

Definition half_even (n d : Z) : Z :=
  let q := n / d in let r := n `mod` d in
  if 2 * r <? d then q else if d <? 2 * r then q + 1 else if Z.even q then q else q + 1.
(** The exponent of the last bit of a positive number: 53 bits, or the smallest exponent. *)
Definition ulp_exponent (n d : Z) : Z :=
  let k := Z.log2 n - Z.log2 d in
  let e := if Qle_bool (Q_pow2 k) (n # Z.to_pos d) then k else k - 1 in
  Z.max (e - 52) (-1074).
(** A positive number rounded to 53 bits. *)
Definition round_pos (n d : Z) : Q :=
  let e := ulp_exponent n d in
  if 0 <=? e then inject_Z (half_even n (d * 2 ^ e) * 2 ^ e) else half_even (n * 2 ^ (- e)) d # Z.to_pos (2 ^ (- e)).
Definition round64 (q : Q) : float64 :=
  if Qnum q =? 0 then FFin 0
  else
    let r := round_pos (Z.abs (Qnum q)) (QDen q) in
    if Qle_bool (Q_pow2 1024) r then FInf (Qnum q <? 0) else FFin (Qred (if Qnum q <? 0 then - r else r)).

(** [strconv.ParseFloat] on a literal; a negative number that rounds to zero gives negative zero. *)
Definition ParseFloat (text : list Z) : option float64 :=
  q ← decimal text;
  Some match round64 q with
       | FFin f => if Qeq_bool f 0 && negb (bool_decide ((read_sign text).1 = [])) then FNegZero else FFin f
       | x => x
       end.
(** The number of a finite float. *)
Definition float_value (x : float64) : option Q := match x with FFin q => Some q | FNegZero => Some 0%Q | _ => None end.

(** Comparisons; NaN compares false. *)
Definition float_gt (x y : float64) : bool :=
  match x, y with
  | FNaN, _ | _, FNaN => false
  | FInf true, _ => false
  | FInf false, FInf b => b
  | FInf false, _ => true
  | _, FInf b => b
  | _, _ => match float_value x, float_value y with Some p, Some q => Qltb q p | _, _ => false end
  end.

(** The decimal exponent of a positive number. *)
Fixpoint log10_up (fuel : nat) (k : Z) (q : Q) : Z :=
  match fuel with O => k | S fuel => if Qle_bool (Q_pow10 (k + 1)) q then log10_up fuel (k + 1) q else k end.
Definition log10 (n d : Z) : Z := log10_up 4 ((Z.log2 n - Z.log2 d) * 30103 / 100000 - 1) (n # Z.to_pos d).
(** The decimals with so many digits on both sides of a positive number, the nearest one first:
    digits and decimal exponent. *)
Definition candidates (digits n d : Z) : list (Z * Z) :=
  let s := digits - 1 - log10 n d in
  let '(n, d) := if 0 <=? s then (n * 10 ^ s, d) else (n, d * 10 ^ (- s)) in
  let near := half_even n d in
  [(near, - s); (if near =? n / d then near + 1 else near - 1, - s)].
Definition decimal_value (c : Z * Z) : Q := (inject_Z c.1 * Q_pow10 c.2)%Q.
Definition converts (n d : Z) (c : Z * Z) : bool :=
  match round64 (decimal_value c) with FFin q => Qeq_bool q (n # Z.to_pos d) | _ => false end.
Fixpoint shortest (fuel : nat) (digits n d : Z) : option (Z * Z) :=
  match fuel with
  | O => None
  | S fuel => match List.find (converts n d) (candidates digits n d) with Some c => Some c | None => shortest fuel (digits + 1) n d end
  end.
(** The digits that [FormatFloat(q, 'g', -1, 64)] writes for the absolute value of a number other
    than zero; 17 digits are enough for every float. *)
Definition shortest_digits (q : Q) : option (Z * Z) := shortest 17 1 (Z.abs (Qnum q)) (QDen q).
(** The decimal it denotes. *)
Definition shortest_decimal (q : Q) : Q :=
  if Qnum q =? 0 then 0%Q
  else let r := match shortest_digits q with Some c => decimal_value c | None => Qabs q end in if Qnum q <? 0 then (- r)%Q else r.

Lemma shortest_converts fuel : ∀ digits n d c, shortest fuel digits n d = Some c → converts n d c = true.
Proof.
  induction fuel as [|fuel IH]; intros digits n d c Hc; [done|]. cbn [shortest] in Hc.
  destruct (List.find _ _) as [c'|] eqn:E; [|by eapply IH]. simplify_eq. by apply find_some in E as [_ E].
Qed.
(** A float that is not zero is not written as zero. *)
Lemma shortest_decimal_zero q : shortest_decimal q == 0 → q == 0.
Proof.
  unfold shortest_decimal. destruct (Z.eqb_spec (Qnum q) 0) as [Hz|Hz].
  - intros _. unfold Qeq. simpl. lia.
  - intros H. exfalso. assert (match shortest_digits q with Some c => decimal_value c | None => Qabs q end == 0) as H0.
    { destruct (Qnum q <? 0); [|done]. unfold Qeq in *. simpl in *. lia. }
    clear H. destruct (shortest_digits q) as [c|] eqn:E.
    + apply shortest_converts in E. unfold converts, round64 in E. unfold Qeq in H0. simpl in H0. rewrite (proj2 (Z.eqb_eq (Qnum (decimal_value c)) 0)) in E by (simpl; lia).
      apply Qeq_bool_iff in E. unfold Qeq in E. simpl in E. destruct (Z.abs (Qnum q)) eqn:Ea; lia.
    + destruct q as [n d]. unfold Qeq in H0. simpl in *. lia.
Qed.

(** ** Rounding of small numbers *)

Lemma half_even_bounds n d m : 0 < d → 0 ≤ n → n ≤ m * d → 0 ≤ half_even n d ≤ m.
Proof.
  intros Hd Hn Hm. unfold half_even. pose proof (Z.div_mod n d ltac:(lia)) as E. pose proof (Z.mod_pos_bound n d Hd) as Hr.
  assert (0 ≤ n / d) by (apply Z.div_pos; lia). assert (n / d < m ∨ (n / d = m ∧ n `mod` d = 0)) by nia.
  repeat match goal with |- context [if ?b then _ else _] => destruct b eqn:? end; lia.
Qed.
Lemma half_even_zero n d : 0 < d → 0 ≤ n → half_even n d = 0 ↔ 2 * n ≤ d.
Proof.
  intros Hd Hn. unfold half_even. pose proof (Z.div_mod n d ltac:(lia)) as E. pose proof (Z.mod_pos_bound n d Hd) as Hr.
  assert (0 ≤ n / d) by (apply Z.div_pos; lia).
  assert (n / d = 0 ∨ 1 ≤ n / d) as [Hq|Hq] by lia.
  - rewrite Hq in *. change (Z.even 0) with true. repeat match goal with |- context [if ?b then _ else _] => destruct b eqn:? end; lia.
  - repeat match goal with |- context [if ?b then _ else _] => destruct b eqn:? end; nia.
Qed.

Lemma Q_pow2_le k n d : 0 < n → 0 < d → Qle_bool (Q_pow2 k) (n # Z.to_pos d) = true ↔ (2 ^ k * d ≤ n ∧ 0 ≤ k) ∨ (d ≤ n * 2 ^ (- k) ∧ k < 0).
Proof.
  intros Hn Hd. rewrite Qle_bool_iff. unfold Q_pow2, Qle. destruct (Z.leb_spec 0 k); simpl.
  - rewrite Z2Pos.id by done. split; [intros; left; lia|intros [?|?]; lia].
  - rewrite !Z2Pos.id by (try apply Z.pow_pos_nonneg; lia). split; [intros; right; lia|intros [?|?]; lia].
Qed.
(** The exponent of the last bit is at most zero below 2^53. *)
Lemma ulp_small n d : 0 < n → 0 < d → n < 2 ^ 53 * d → ulp_exponent n d ≤ 0.
Proof.
  intros Hn Hd Hlt. unfold ulp_exponent. pose proof (Z.log2_spec n Hn) as [Hn1 _]. pose proof (Z.log2_spec d Hd) as [_ Hd2].
  pose proof (Z.log2_nonneg n). pose proof (Z.log2_nonneg d).
  assert (Z.log2 n < 53 + Z.succ (Z.log2 d)) as Hk.
  { apply (Z.pow_lt_mono_r_iff 2); [lia|lia|]. rewrite Z.pow_add_r by lia. nia. }
  destruct (Qle_bool _ _) eqn:E; [|lia]. apply Q_pow2_le in E as [[E E']|[E E']]; [|lia|done..].
  assert (Z.log2 n - Z.log2 d < 53); [|lia]. apply (Z.pow_lt_mono_r_iff 2); [lia|lia|]. apply (Z.mul_lt_mono_pos_r d); lia.
Qed.
Lemma round_pos_small n d m : 0 < n → 0 < d → n ≤ m * d → m < 2 ^ 53 → (0 <= round_pos n d <= inject_Z m)%Q.
Proof.
  intros Hn Hd Hm Hlt. unfold round_pos. pose proof (ulp_small n d Hn Hd ltac:(nia)) as Hu. set (e := ulp_exponent n d) in *. clearbody e.
  assert (0 < 2 ^ (- e)) by (apply Z.pow_pos_nonneg; lia). pose proof (half_even_bounds (n * 2 ^ (- e)) d (m * 2 ^ (- e)) Hd ltac:(nia) ltac:(nia)) as Hb.
  destruct (Z.leb_spec 0 e).
  - assert (e = 0) as -> by lia. change (2 ^ (- 0)) with 1 in *. rewrite Z.pow_0_r, !Z.mul_1_r in *. unfold Qle. simpl. lia.
  - unfold Qle. simpl. rewrite Z2Pos.id by done. lia.
Qed.
Lemma ulp_tiny n d : 0 < n → 0 < d → 2 * n * 2 ^ 1074 ≤ d → ulp_exponent n d = -1074.
Proof.
  intros Hn Hd Hle. unfold ulp_exponent. pose proof (Z.log2_spec n Hn) as [Hn1 _]. pose proof (Z.log2_spec d Hd) as [_ Hd2].
  pose proof (Z.log2_nonneg n). pose proof (Z.log2_nonneg d). assert (Z.log2 n + 1074 < Z.succ (Z.log2 d)) as Hk.
  { apply (Z.pow_lt_mono_r_iff 2); [lia|lia|]. rewrite Z.pow_add_r by lia. nia. }
  destruct (Qle_bool _ _); lia.
Qed.
Lemma round_pos_zero n d : 0 < n → 0 < d → round_pos n d == 0 ↔ 2 * n * 2 ^ 1074 ≤ d.
Proof.
  intros Hn Hd. split.
  - intros H. destruct (Z.le_gt_cases (2 * n * 2 ^ 1074) d) as [|Hgt]; [done|]. exfalso. revert H. unfold round_pos.
    set (e := ulp_exponent n d). assert (-1074 ≤ e) as Hge by (unfold e, ulp_exponent; lia).
    assert (e = -1074 ∨ (0 ≤ e ∧ d * 2 ^ e ≤ n) ∨ (-1074 < e < 0 ∧ d ≤ n * 2 ^ (- e))) as He.
    { unfold e, ulp_exponent. set (k := Z.log2 n - Z.log2 d). destruct (Qle_bool (Q_pow2 k) _) eqn:E.
      - apply Q_pow2_le in E; [|done..]. destruct (Z.le_gt_cases (k - 52) (-1074)); [lia|]. rewrite Z.max_l by lia. right.
        destruct (Z.le_gt_cases 0 (k - 52)).
        + left. destruct E as [[E _]|[_ ?]]; [|lia]. split; [done|]. replace k with (k - 52 + 52) in E by lia. rewrite Z.pow_add_r in E by lia.
          assert (0 < 2 ^ (k - 52)) by (apply Z.pow_pos_nonneg; lia). nia.
        + right. split; [lia|]. destruct E as [[E Ek]|[E Ek]].
          * assert (0 < 2 ^ k) by (apply Z.pow_pos_nonneg; lia). assert (0 < 2 ^ (- (k - 52))) by (apply Z.pow_pos_nonneg; lia). nia.
          * replace (- (k - 52)) with (- k + 52) by lia. rewrite Z.pow_add_r by lia. nia.
      - destruct (Z.le_gt_cases (k - 1 - 52) (-1074)); [lia|]. rewrite Z.max_l by lia. right.
        pose proof (Z.log2_spec n Hn) as [Hn1 _]. pose proof (Z.log2_spec d Hd) as [_ Hd2]. pose proof (Z.log2_nonneg n). pose proof (Z.log2_nonneg d).
        destruct (Z.le_gt_cases 0 (k - 1 - 52)).
        + left. split; [done|]. transitivity (2 ^ (Z.succ (Z.log2 d)) * 2 ^ (k - 1 - 52)); [apply Z.mul_le_mono_nonneg_r; [apply Z.pow_nonneg|]; lia|].
          rewrite <- Z.pow_add_r by lia. transitivity (2 ^ Z.log2 n); [|done]. apply Z.pow_le_mono_r; lia.
        + right. split; [lia|]. transitivity (2 ^ Z.log2 n * 2 ^ (- (k - 1 - 52))); [|apply Z.mul_le_mono_nonneg_r; [apply Z.pow_nonneg|]; lia].
          rewrite <- Z.pow_add_r by lia. transitivity (2 ^ (Z.succ (Z.log2 d))); [lia|]. apply Z.pow_le_mono_r; lia. }
    clearbody e. destruct (Z.leb_spec 0 e).
    + destruct He as [?|[[_ He]|[? _]]]; [lia| |lia]. assert (0 < 2 ^ e) by (apply Z.pow_pos_nonneg; lia). unfold Qeq. simpl. intros H1.
      assert (half_even n (d * 2 ^ e) = 0) as H2 by nia. apply half_even_zero in H2; nia.
    + unfold Qeq. simpl. rewrite !Z.mul_1_r. intros H2. assert (0 < 2 ^ (- e)) by (apply Z.pow_pos_nonneg; lia).
      apply half_even_zero in H2; [|lia|nia]. destruct He as [->|[[? _]|[_ He]]]; [|lia|lia]. change (- -1074) with 1074 in *. lia.
  - intros H. unfold round_pos. rewrite (ulp_tiny n d Hn Hd H). change (0 <=? -1074) with false. cbv iota. change (- -1074) with 1074.
    unfold Qeq. simpl Qnum. rewrite !Z.mul_1_r. rewrite Z.mul_0_l. apply half_even_zero; [done|nia|lia].
Qed.

(** A number within the safe integers is rounded to one. *)
Lemma round64_safe q m : (Qabs q <= inject_Z m)%Q → m < 2 ^ 53 → ∃ f, round64 q = FFin f ∧ (Qabs f <= inject_Z m)%Q.
Proof.
  intros Hq Hm. unfold round64. destruct (Z.eqb_spec (Qnum q) 0) as [Hz|Hz].
  - exists 0%Q. split; [done|]. unfold Qle in *. destruct q as [n d]. simpl in *. lia.
  - assert (Z.abs (Qnum q) ≤ m * QDen q) as Hle by (destruct q as [n d]; unfold Qle in Hq; simpl in *; lia).
    pose proof (round_pos_small (Z.abs (Qnum q)) (QDen q) m ltac:(lia) ltac:(lia) Hle Hm) as [H0 H1].
    set (r := round_pos _ _) in *. clearbody r. assert (Qle_bool (Q_pow2 1024) r = false) as ->.
    { apply not_true_iff_false. rewrite Qle_bool_iff. intros H2. assert (Q_pow2 1024 <= inject_Z m)%Q as H3 by (by eapply Qle_trans).
      change (2 ^ 1024 * 1 ≤ m * 1) in H3.
      assert (2 ^ 53 < 2 ^ 1024) by (apply Z.pow_lt_mono_r; lia). lia. }
    eexists. split; [done|]. rewrite Qred_correct. destruct (Qnum q <? 0); [rewrite Qabs_opp|]; by rewrite Qabs_pos.
Qed.
(** The numbers that are rounded to zero. *)
Lemma round64_zero q f : round64 q = FFin f → f == 0 ↔ (2 * Qabs q <= Q_pow2 (-1074))%Q.
Proof.
  assert ((2 * Qabs q <= Q_pow2 (-1074))%Q ↔ 2 * Z.abs (Qnum q) * 2 ^ 1074 ≤ QDen q) as ->.
  { unfold Qle. change (Qnum (Q_pow2 (-1074))) with 1. change (QDen (Q_pow2 (-1074))) with (2 ^ 1074). destruct q as [n d]. cbn [Qabs Qmult Qnum Qden].
    rewrite Pos.mul_1_l. lia. }
  unfold round64. destruct (Z.eqb_spec (Qnum q) 0) as [Hz|Hz].
  - intros [= <-]. rewrite Hz. split; [|done]. intros _. simpl Z.abs. lia.
  - destruct (Qle_bool _ _); [done|]. intros [= <-]. rewrite Qred_correct. rewrite <- (round_pos_zero (Z.abs (Qnum q)) (QDen q)) by lia.
    destruct (Qnum q <? 0); [|done]. set (r := round_pos _ _). unfold Qeq. simpl. lia.
Qed.

(** ** Floats in JSON *)

Fixpoint strip_zeros (fuel : nat) (m e : Z) : Z * Z :=
  match fuel with O => (m, e) | S fuel => if m `mod` 10 =? 0 then strip_zeros fuel (m / 10) (e + 1) else (m, e) end.
Definition zeros (n : Z) : list Z := replicate (Z.to_nat n) 48.
(** The float nearest to 1e-6. *)
Definition float_1e6 : Q := default 0%Q (float_value (round64 (Q_pow10 (-6)))).
(** Plain notation between 1e-6 and 1e21, scientific notation elsewhere. *)
Definition float_text (q : Q) (m e : Z) : list Z :=
  let '(m, e) := strip_zeros 18 m e in
  let ds := code (FormatUint m) in
  let nd := Z.of_nat (length ds) in
  let dp := nd + e in
  if Qle_bool float_1e6 (Qabs q) && Qltb (Qabs q) (Q_pow10 21) then
    if dp <=? 0 then [48; 46] ++ zeros (- dp) ++ ds
    else if nd <=? dp then ds ++ zeros (dp - nd)
    else take (Z.to_nat dp) ds ++ [46] ++ drop (Z.to_nat dp) ds
  else
    take 1 ds ++ (if nd <=? 1 then [] else 46 :: drop 1 ds) ++ [101; if dp - 1 <? 0 then 45 else 43] ++ code (FormatUint (Z.abs (dp - 1))).
(** A float in JSON; numbers that are not finite have no encoding. *)
Definition json_float (x : float64) : option (list Z) :=
  match x with
  | FNaN | FInf _ => None
  | FNegZero => Some [45; 48]
  | FFin q =>
    if Qnum q =? 0 then Some [48]
    else '(m, e) ← shortest_digits q; Some ((if Qnum q <? 0 then [45] else []) ++ float_text q m e)
  end.

(** ** Integers *)

Definition FormatInt (z : Z) : string := if z <? 0 then string_of (45 :: code (FormatUint (- z))) else FormatUint z.
(** [ParseInt(s, 10, bits)]: the value, or an error. *)
Definition parse_signed (bits : Z) (negative : bool) (l : list Z) : option Z :=
  let '(n, ok) := parse_digits 0 l in
  let cutoff := 2 ^ (bits - 1) in
  if bool_decide (l = []) || negb ok then None
  else if negb negative && (cutoff <=? n) then None
  else if negative && (cutoff <? n) then None
  else Some (if negative then - n else n).
Definition ParseInt (bits : Z) (s : string) : option Z :=
  match code s with
  | c :: t => if c =? 43 then parse_signed bits false t else if c =? 45 then parse_signed bits true t else parse_signed bits false (c :: t)
  | [] => None
  end.

(** ** base64.StdEncoding *)

Definition padding (l : list byte) : list byte := replicate ((3 - length l `mod` 3) `mod` 3)%nat x3d.
Definition Std_EncodeToString (l : list byte) : string := String.string_of_list_byte (b64_encode l ++ padding l).
Fixpoint strip_padding (n : nat) (l : list byte) : list byte :=
  match n with O => l | S n => match last l with Some x3d => strip_padding n (removelast l) | _ => l end end.
(** [base64.StdEncoding.Strict().DecodeString]: line ends are skipped, the padding is required,
    and the bits after the last byte are zero. *)
Definition Std_DecodeString (s : string) : option (list byte) :=
  let text := filter (λ b, bval b ≠ 10 ∧ bval b ≠ 13) (bytes_of s) in
  let body := strip_padding 2 text in
  vs ← b64_values body; decoded ← b64_decode vs;
  if bool_decide (b64_encode decoded ++ padding decoded = text) then Some decoded else None.

(** *** Integers and base64 read back *)

Lemma parse_digits_nonneg cs : ∀ n, 0 ≤ n → 0 ≤ (parse_digits n cs).1.
Proof.
  induction cs as [|c cs IH]; intros n Hn; [done|]. cbn [parse_digits]. destruct (between 48 57 c) eqn:Ec; [|done]. cbn [negb]. apply between_spec in Ec.
  destruct (_ <=? n); [done|]. cbv zeta. destruct (_ <? _); [done|]. apply IH. lia.
Qed.
Lemma parse_digits_FormatUint n : is_u64 n → parse_digits 0 (code (FormatUint n)) = (n, true) ∧ code (FormatUint n) ≠ [].
Proof. intros Hn. pose proof (ParseUint_FormatUint n Hn) as H. unfold ParseUint in H. destruct (code (FormatUint n)); [by simplify_eq|done]. Qed.

Lemma parse_signed_range bits negative l z : 1 ≤ bits → parse_signed bits negative l = Some z → - 2 ^ (bits - 1) ≤ z < 2 ^ (bits - 1).
Proof.
  intros Hbits. unfold parse_signed. assert (0 < 2 ^ (bits - 1)) by (apply Z.pow_pos_nonneg; lia).
  pose proof (parse_digits_nonneg l 0 ltac:(done)) as Hn. destruct (parse_digits 0 l) as [n ok]. simpl in Hn. destruct (_ || _); [done|].
  destruct negative; simpl; intros Hz.
  - destruct (Z.ltb_spec (2 ^ (bits - 1)) n); simplify_eq. lia.
  - destruct (Z.leb_spec (2 ^ (bits - 1)) n); simplify_eq. lia.
Qed.
Lemma ParseInt_range bits s z : 1 ≤ bits → ParseInt bits s = Some z → - 2 ^ (bits - 1) ≤ z < 2 ^ (bits - 1).
Proof.
  intros Hbits. unfold ParseInt. destruct (code s) as [|c t]; [done|]. destruct (c =? 43); [by apply parse_signed_range|].
  destruct (c =? 45); by apply parse_signed_range.
Qed.
Lemma ParseInt_FormatInt z : - 2 ^ 63 ≤ z < 2 ^ 63 → ParseInt 64 (FormatInt z) = Some z.
Proof.
  intros Hz. unfold ParseInt, FormatInt. destruct (Z.ltb_spec z 0) as [Hneg|Hpos].
  - destruct (parse_digits_FormatUint (- z)) as [Hp Hne]; [unfold is_u64, maxUint64; lia|].
    rewrite code_string_of_bytes; [|constructor; [lia|]; eapply Forall_impl; [apply code_bytes|done]]. simpl. unfold parse_signed.
    rewrite Hp, bool_decide_eq_false_2 by done. change (64 - 1) with 63. simpl. rewrite (proj2 (Z.ltb_ge _ _)) by lia. f_equal. lia.
  - assert (is_u64 z) as Hu by (unfold is_u64, maxUint64; lia). destruct (parse_digits_FormatUint z Hu) as [Hp Hne].
    pose proof (code_FormatUint_digits z Hpos) as Hd. destruct (code (FormatUint z)) as [|c t] eqn:E; [done|]. apply Forall_cons in Hd as [Hc _].
    unfold digit in Hc. rewrite (proj2 (Z.eqb_neq c 43)), (proj2 (Z.eqb_neq c 45)) by lia. unfold parse_signed. rewrite Hp, bool_decide_eq_false_2 by done.
    change (64 - 1) with 63. simpl. by rewrite (proj2 (Z.leb_gt _ _)) by lia.
Qed.

Lemma b64_char_plain v : 0 ≤ v < 64 → bval (b64_char v) ≠ 10 ∧ bval (b64_char v) ≠ 13 ∧ b64_char v ≠ x3d.
Proof. intros Hv. destruct (b64_value_char v Hv) as (H & H10 & H13). split_and!; [done|done|]. intros E. by rewrite E in H. Qed.
Lemma b64_encode_plain l : Forall (λ c, bval c ≠ 10 ∧ bval c ≠ 13 ∧ c ≠ x3d) (b64_encode l).
Proof.
  induction l as [|a|a b|a b c l IH] using list_ind3; cbn [b64_encode]; [constructor|..].
  - pose proof (bval_range a). repeat constructor; apply b64_char_plain; zlia.
  - pose proof (bval_range a). pose proof (bval_range b). repeat constructor; apply b64_char_plain; zlia.
  - pose proof (bval_range a). pose proof (bval_range b). pose proof (bval_range c). repeat (constructor; [apply b64_char_plain; zlia|]). done.
Qed.
Lemma filter_true {A} (P : A → Prop) `{∀ x, Decision (P x)} l : Forall P l → filter P l = l.
Proof. induction 1 as [|x l Hx _ IH]; [done|]. rewrite filter_cons_True by done. by rewrite IH. Qed.
Lemma strip_padding_app k : ∀ n e, (k ≤ n)%nat → Forall (λ c, c ≠ x3d) e → strip_padding n (e ++ replicate k x3d) = e.
Proof.
  induction k as [|k IH]; intros n e Hk He.
  - rewrite app_nil_r. destruct n as [|n]; [done|]. simpl. destruct (last e) as [c|] eqn:El; [|done]. apply last_Some in El as [e' ->].
    apply Forall_app in He as [_ He]. apply Forall_cons in He as [Hc _]. by destruct c.
  - destruct n as [|n]; [lia|]. rewrite replicate_S_end, app_assoc. cbn [strip_padding]. rewrite last_snoc, removelast_last. apply IH; [lia|done].
Qed.
Lemma Std_roundtrip l : Std_DecodeString (Std_EncodeToString l) = Some l.
Proof.
  unfold Std_DecodeString, Std_EncodeToString. rewrite bytes_of_string_of. pose proof (b64_encode_plain l) as Hp.
  assert (filter (λ b, bval b ≠ 10 ∧ bval b ≠ 13) (b64_encode l ++ padding l) = b64_encode l ++ padding l) as ->.
  { apply filter_true, Forall_app. split; [by eapply Forall_impl; [exact Hp|intros ? (? & ? & _)]|]. by apply Forall_replicate. }
  assert (strip_padding 2 (b64_encode l ++ padding l) = b64_encode l) as ->.
  { apply strip_padding_app; [|by eapply Forall_impl; [exact Hp|intros ? (_ & _ & ?)]].
    pose proof (Nat.mod_upper_bound (length l) 3). set (r := (length l `mod` 3)%nat) in *. destruct r as [|[|[|r]]]; simpl; lia. }
  pose proof (b64_roundtrip l) as Hr. destruct (b64_values (b64_encode l)) as [vs|]; [|done]. simpl in *. rewrite Hr. simpl. by rewrite bool_decide_eq_true_2.
Qed.
