(* ===== verification/GoStruct.v ===== *)
(** * encoding/json: structs

    [json.Marshal] of a struct writes its fields in order; [json.Decoder] with
    [DisallowUnknownFields] assigns the members of an object to the fields one after the
    other.  A key matches a field exactly, or else up to case as Go folds it; [null] leaves a
    field as it is; a value of another kind, an integer out of range or an unknown key is an
    error.  Bytes that are not valid UTF-8 become U+FFFD. *)

From S2P Require Import Prelude GoStd GoSort GoEncoding GoJSON GoFloat.
Open Scope Z_scope.

(** ** Text that is not valid UTF-8 *)

Definition fffd : list Z := [0xEF; 0xBF; 0xBD].
Fixpoint coerce_utf8 (bs : list Z) : list Z :=
  match bs with
  | [] => []
  | b0 :: t0 =>
    if b0 <? 0x80 then b0 :: coerce_utf8 t0
    else if between 0xC2 0xDF b0 then
      match t0 with
      | b1 :: t1 => if between 0x80 0xBF b1 then b0 :: b1 :: coerce_utf8 t1 else fffd ++ coerce_utf8 t0
      | _ => fffd ++ coerce_utf8 t0
      end
    else if between 0xE0 0xEF b0 then
      match t0 with
      | b1 :: b2 :: t2 =>
        if second_ok b0 b1 && between 0x80 0xBF b2 then b0 :: b1 :: b2 :: coerce_utf8 t2 else fffd ++ coerce_utf8 t0
      | _ => fffd ++ coerce_utf8 t0
      end
    else if between 0xF0 0xF4 b0 then
      match t0 with
      | b1 :: b2 :: b3 :: t3 =>
        if second_ok b0 b1 && between 0x80 0xBF b2 && between 0x80 0xBF b3
        then b0 :: b1 :: b2 :: b3 :: coerce_utf8 t3 else fffd ++ coerce_utf8 t0
      | _ => fffd ++ coerce_utf8 t0
      end
    else fffd ++ coerce_utf8 t0
  end.

(** Induction along the runes of a valid text: a rune of one to four bytes, then a valid text. *)
Definition rune_at (p : list Z) : Prop := p ≠ [] ∧ ∀ t, coerce_utf8 (p ++ t) = p ++ coerce_utf8 t ∧ (is_Some (utf8_runes (p ++ t)) ↔ is_Some (utf8_runes t)).
Lemma fmap_cons_Some (x : Z) (o : option (list Z)) : is_Some (cons x <$> o) ↔ is_Some o.
Proof. by rewrite fmap_is_Some. Qed.
Lemma rune_split b0 t0 : is_Some (utf8_runes (b0 :: t0)) → ∃ p t, b0 :: t0 = p ++ t ∧ rune_at p.
Proof.
  intros Hs. cbn [utf8_runes] in Hs. unfold rune_at. destruct (b0 <? 0x80) eqn:E0.
  { exists [b0], t0. split_and!; [done|done|]. intros t. cbn [app coerce_utf8 utf8_runes]. rewrite E0. by rewrite fmap_cons_Some. }
  destruct (between 0xC2 0xDF b0) eqn:E1.
  { destruct t0 as [|b1 t]; [by destruct Hs|]. destruct (between 0x80 0xBF b1) eqn:F1; [|by destruct Hs].
    exists [b0; b1], t. split_and!; [done|done|]. intros u. cbn [app coerce_utf8 utf8_runes]. rewrite E0, E1, F1. by rewrite fmap_cons_Some. }
  destruct (between 0xE0 0xEF b0) eqn:E2.
  { destruct t0 as [|b1 [|b2 t]]; [by destruct Hs..|]. destruct (second_ok b0 b1 && between 0x80 0xBF b2) eqn:F1; [|by destruct Hs].
    exists [b0; b1; b2], t. split_and!; [done|done|]. intros u. cbn [app coerce_utf8 utf8_runes]. rewrite E0, E1, E2, F1. by rewrite fmap_cons_Some. }
  destruct (between 0xF0 0xF4 b0) eqn:E3; [|by destruct Hs].
  destruct t0 as [|b1 [|b2 [|b3 t]]]; [by destruct Hs..|]. destruct (second_ok b0 b1 && between 0x80 0xBF b2 && between 0x80 0xBF b3) eqn:F1; [|by destruct Hs].
  exists [b0; b1; b2; b3], t. split_and!; [done|done|]. intros u. cbn [app coerce_utf8 utf8_runes]. rewrite E0, E1, E2, E3, F1. by rewrite fmap_cons_Some.
Qed.
Lemma utf8_ind (P : list Z → Prop) : P [] → (∀ p t, rune_at p → is_Some (utf8_runes t) → P t → P (p ++ t)) → ∀ l, is_Some (utf8_runes l) → P l.
Proof.
  intros H0 Hr l. remember (length l) as n eqn:Hn. revert l Hn. induction (lt_wf n) as [n _ IH]. intros l -> Hl. destruct l as [|b0 t0]; [done|].
  destruct (rune_split b0 t0 Hl) as (p & t & E & Hp). rewrite E in *. destruct Hp as [Hne Hp]. pose proof (proj1 (proj2 (Hp t)) Hl) as Ht.
  apply Hr; [done|done|]. apply (IH (length t)); [|done|done]. rewrite length_app. destruct p; [done|]. simpl. lia.
Qed.
Lemma coerce_valid l : is_Some (utf8_runes l) → coerce_utf8 l = l.
Proof. revert l. apply utf8_ind; [done|]. intros p t [_ Hp] _ IH. rewrite (proj1 (Hp t)). by rewrite IH. Qed.
Lemma utf8_app a b : is_Some (utf8_runes a) → is_Some (utf8_runes b) → is_Some (utf8_runes (a ++ b)).
Proof. intros Ha Hb. revert a Ha. apply utf8_ind; [done|]. intros p t [_ Hp] _ IH. rewrite <- app_assoc. by apply Hp. Qed.
Lemma utf8_ascii l : Forall (λ c, c < 128) l → is_Some (utf8_runes l).
Proof. induction 1 as [|c l Hc _ IH]; [by eexists|]. cbn [utf8_runes]. rewrite (proj2 (Z.ltb_lt c 0x80)) by done. by rewrite fmap_is_Some. Qed.
Lemma utf8_cons c l : c < 128 → is_Some (utf8_runes l) → is_Some (utf8_runes (c :: l)).
Proof. intros Hc Hl. apply (utf8_app [c]); [|done]. apply utf8_ascii. by constructor. Qed.

Lemma escape_ascii_ascii b : 0 ≤ b < 128 → Forall (λ c, c < 128) (escape_ascii b).
Proof.
  intros Hb. assert (∃ n, (n < 128)%nat ∧ b = Z.of_nat n) as (n & Hn & ->) by (exists (Z.to_nat b); lia).
  do 128 (destruct n as [|n]; [vm_compute; repeat constructor|]). lia.
Qed.
(** The escape of a rune is valid, whatever follows. *)
Lemma rune_escape b0 t0 : 0 ≤ b0 → is_Some (utf8_runes (b0 :: t0)) →
  ∃ p t e, b0 :: t0 = p ++ t ∧ p ≠ [] ∧ is_Some (utf8_runes t) ∧ json_escape (b0 :: t0) = e ++ json_escape t ∧ is_Some (utf8_runes e).
Proof.
  intros Hpos Hs. pose proof Hs as Hs'. cbn [utf8_runes] in Hs. cbn [json_escape]. destruct (b0 <? 0x80) eqn:E0.
  { exists [b0], t0, (escape_ascii b0). apply Z.ltb_lt in E0. split_and!; [done..|by rewrite fmap_cons_Some in Hs|done|]. by apply utf8_ascii, escape_ascii_ascii. }
  destruct (between 0xC2 0xDF b0) eqn:E1.
  { destruct t0 as [|b1 t]; [by destruct Hs|]. destruct (between 0x80 0xBF b1) eqn:F1; [|by destruct Hs]. rewrite fmap_cons_Some in Hs.
    exists [b0; b1], t, [b0; b1]. split_and!; [done..|]. cbn [utf8_runes]. rewrite E0, E1, F1. by eexists. }
  destruct (between 0xE0 0xEF b0) eqn:E2.
  { destruct t0 as [|b1 [|b2 t]]; [by destruct Hs..|]. destruct (second_ok b0 b1 && between 0x80 0xBF b2) eqn:F1; [|by destruct Hs]. rewrite fmap_cons_Some in Hs.
    exists [b0; b1; b2], t, (escape3 b0 b1 b2). split_and!; [done..|]. unfold escape3. destruct (_ && _ && _) eqn:E3.
    - apply utf8_ascii. assert (∀ v, 8 ≤ v < 10 → hex_code v < 128) as Hh.
      { intros v Hv. assert (v = 8 ∨ v = 9) as [-> | ->] by lia; done. }
      bool_prop. repeat constructor. apply Hh. match goal with H : _ ∨ _ |- _ => destruct H as [H|H]; apply Z.eqb_eq in H end; lia.
    - cbn [utf8_runes]. rewrite E0, E1, E2, F1. by eexists. }
  destruct (between 0xF0 0xF4 b0) eqn:E3; [|by destruct Hs].
  destruct t0 as [|b1 [|b2 [|b3 t]]]; [by destruct Hs..|]. destruct (second_ok b0 b1 && between 0x80 0xBF b2 && between 0x80 0xBF b3) eqn:F1; [|by destruct Hs].
  rewrite fmap_cons_Some in Hs. exists [b0; b1; b2; b3], t, [b0; b1; b2; b3]. split_and!; [done..|]. cbn [utf8_runes]. rewrite E0, E1, E2, E3, F1. by eexists.
Qed.
Lemma utf8_escape l : Forall (λ b, 0 ≤ b) l → is_Some (utf8_runes l) → is_Some (utf8_runes (json_escape l)).
Proof.
  remember (length l) as n eqn:Hn. revert l Hn. induction (lt_wf n) as [n _ IH]. intros l -> Hpos Hl. destruct l as [|b0 t0]; [done|].
  assert (0 ≤ b0) as H0 by (by apply Forall_cons in Hpos as [? _]). destruct (rune_escape b0 t0 H0 Hl) as (p & t & e & E & Hne & Ht & -> & He). apply utf8_app; [done|].
  rewrite E in *. apply Forall_app in Hpos as [_ Hpos]. apply (IH (length t)); [|done|done|done]. rewrite length_app. destruct p; [done|]. simpl. lia.
Qed.
Lemma utf8_quote s : ValidString s = true → is_Some (utf8_runes (json_quote s)).
Proof.
  unfold ValidString. rewrite bool_decide_eq_true. intros Hs. unfold json_quote. apply utf8_cons; [done|]. apply utf8_app; [|by apply utf8_ascii; repeat constructor].
  apply utf8_escape; [|done]. eapply Forall_impl; [apply code_bytes|]. simpl. lia.
Qed.

(** What [print] writes is valid UTF-8. *)
Lemma read_digits_ascii l : Forall (λ c, c < 128) (read_digits l).1.
Proof.
  induction l as [|c l IH]; simpl; [constructor|]. destruct (is_digit c) eqn:Ec; [|constructor]. apply between_spec in Ec. destruct (read_digits l). constructor; [lia|done].
Qed.
Lemma print_utf8 v : json_ok v = true → is_Some (utf8_runes (print v)).
Proof.
  assert (∀ parts, Forall (λ p, is_Some (utf8_runes p)) parts → is_Some (utf8_runes (join parts))) as Hjoin.
  { intros parts. induction parts as [|p ps IH]; intros Hp; [by eexists|]. apply Forall_cons in Hp as [Hp Hps]. rewrite join_cons. destruct ps as [|q ps]; [done|].
    apply utf8_app; [done|]. apply utf8_cons; [done|]. by apply IH. }
  induction v as [|b|t|s|l IH|l IH] using any_ind; intros Hok; cbn [print]; cbn [json_ok] in Hok.
  - apply utf8_ascii. vm_compute. repeat constructor.
  - apply utf8_ascii. destruct b; vm_compute; repeat constructor.
  - apply bool_decide_eq_true, read_number_chars in Hok. apply utf8_ascii. eapply Forall_impl; [exact Hok|]. unfold number_char. simpl. lia.
  - by apply utf8_quote.
  - apply utf8_cons; [done|]. apply utf8_app; [|by apply utf8_ascii; repeat constructor]. apply Hjoin, Forall_fmap. rewrite forallb_forall in Hok.
    rewrite Forall_forall in IH |- *. intros v Hv. apply IH; [done|]. by apply Hok, list_elem_of_In.
  - apply utf8_cons; [done|]. apply utf8_app; [|by apply utf8_ascii; repeat constructor]. apply Hjoin, Forall_fmap. rewrite forallb_forall in Hok.
    rewrite Forall_forall in IH |- *. intros [k v] Hv. pose proof (Hok (k, v) (proj1 (list_elem_of_In _ _) Hv)) as Hkv. apply andb_true_iff in Hkv as [Hk Hkv]. cbn [fst snd] in *.
    apply utf8_app; [by apply utf8_quote|]. apply utf8_cons; [done|]. by apply (IH (k, v)).
Qed.

(** ** Keys *)

(** A key folded as Go folds it, as far as ASCII names can tell: letters in lower case, and the two
    characters outside of ASCII that fold to an ASCII letter, U+017F and U+212A. *)
Fixpoint fold_key (l : list Z) : list Z :=
  match l with
  | 0xC5 :: 0xBF :: t => 115 :: fold_key t
  | 0xE2 :: 0x84 :: 0xAA :: t => 107 :: fold_key t
  | c :: t => (if between 65 90 c then c + 32 else c) :: fold_key t
  | [] => []
  end.

(** ** Structs *)

Section struct.
Context {A : Type}.
(** The fields: a name and how a value is assigned. *)
Definition assignment : Type := A → any → option A.
Definition find_field (spec : list (string * assignment)) (key : string) : option assignment :=
  match List.find (λ f, String.eqb f.1 key) spec with
  | Some f => Some f.2
  | None => snd <$> List.find (λ f, bool_decide (fold_key (code f.1) = fold_key (code key))) spec
  end.
Fixpoint decode_members (spec : list (string * assignment)) (a : A) (l : list (string * any)) : option A :=
  match l with
  | [] => Some a
  | (key, v) :: rest => assign ← find_field spec key; a ← assign a v; decode_members spec a rest
  end.
(** A value into a struct. *)
Definition decode_struct (spec : list (string * assignment)) (a : A) (v : any) : option A :=
  match v with ANull => Some a | AObject l => decode_members spec a l | _ => None end.

Definition assign_string (set : A → string → A) : assignment :=
  λ a v, match v with AString s => Some (set a s) | ANull => Some a | _ => None end.
Definition assign_bool (set : A → bool → A) : assignment :=
  λ a v, match v with ABool b => Some (set a b) | ANull => Some a | _ => None end.
Definition assign_int (set : A → Z → A) : assignment :=
  λ a v, match v with ANumber t => set a <$> ParseInt 64 t | ANull => Some a | _ => None end.
Definition assign_uint (set : A → Z → A) : assignment :=
  λ a v, match v with ANumber t => let '(n, ok) := ParseUint t in if ok then Some (set a n) else None | ANull => Some a | _ => None end.
End struct.
Arguments assignment A : clear implicits.

(** A pointer to a struct: allocated when it is nil. *)
Definition assign_pointer {A B} (spec : list (string * assignment B)) (zero : B) (get : A → option B) (set : A → option B → A) : assignment A :=
  λ a v, match v with
         | ANull => Some (set a None)
         | _ => b ← decode_struct spec (default zero (get a)) v; Some (set a (Some b))
         end.
(** A map of strings, to which members are added. *)
Fixpoint decode_map (m : gmap string string) (l : list (string * any)) : option (gmap string string) :=
  match l with
  | [] => Some m
  | (key, v) :: rest => s ← match v with AString s => Some s | ANull => Some "" | _ => None end; decode_map (<[key := s]> m) rest
  end.
Definition assign_map {A} (get : A → gmap string string) (set : A → gmap string string → A) : assignment A :=
  λ a v, match v with ANull => Some (set a ∅) | AObject l => set a <$> decode_map (get a) l | _ => None end.
(** Its encoding: keys in order. *)
Definition map_any (m : gmap string string) : any := AObject (SortSlice (λ x y, str_ltb x.1 y.1) (prod_map id AString <$> map_to_list m)).

(** A slice of structs: the elements that are there are assigned to, the others are new. *)
Fixpoint decode_items {B} (spec : list (string * assignment B)) (zero : B) (old : list B) (l : list any) : option (list B) :=
  match l with
  | [] => Some []
  | v :: rest => b ← decode_struct spec (default zero (head old)) v; cons b <$> decode_items spec zero (tail old) rest
  end.
Definition assign_slice {A B} (spec : list (string * assignment B)) (zero : B) (get : A → list B) (set : A → list B → A) : assignment A :=
  λ a v, match v with ANull => Some (set a []) | AArray l => set a <$> decode_items spec zero (get a) l | _ => None end.
Definition slice_any {B} (fields : B → list (string * any)) (l : list B) : any := AArray ((λ b, AObject (fields b)) <$> l).

(** [base64.StdEncoding], which unlike its strict variant ignores the bits after the last byte. *)
Definition StdLax_DecodeString (s : string) : option (list byte) :=
  let text := filter (λ b, bval b ≠ 10 ∧ bval b ≠ 13) (bytes_of s) in
  if negb (Nat.eqb (Nat.modulo (length text) 4) 0) then None else vs ← b64_values (strip_padding 2 text); b64_decode vs.
(** A slice of bytes is base64 text; an array of numbers is read too, where a null leaves
    the element as it was.  The empty slice is nil. *)
Fixpoint decode_bytes (old : list byte) (l : list any) : option (list byte) :=
  match l with
  | [] => Some []
  | v :: rest =>
    b ← match v with
        | ANull => Some (default x00 (head old))
        | ANumber t => let '(n, ok) := ParseUint t in if ok && (n <=? 255) then Some (byte_of n) else None
        | _ => None
        end;
    cons b <$> decode_bytes (tail old) rest
  end.
Definition assign_bytes {A} (get : A → list byte) (set : A → list byte → A) : assignment A :=
  λ a v, match v with
         | AString s => set a <$> StdLax_DecodeString s
         | ANull => Some (set a [])
         | AArray l => set a <$> decode_bytes (get a) l
         | _ => None
         end.
Definition bytes_any (l : list byte) : any := match l with [] => ANull | _ => AString (Std_EncodeToString l) end.

(** Members of the encoding: always there, or left out when empty. *)
Definition int_any (z : Z) : any := ANumber (string_of (json_int z)).
Definition member (name : string) (v : any) : list (string * any) := [(name, v)].
Definition member_if (b : bool) (name : string) (v : any) : list (string * any) := if b then [(name, v)] else [].

Definition field_opt {A} (name : string) (f : A → any) (o : option A) : list (string * any) := match o with Some a => [(name, f a)] | None => [] end.
Definition text_field (name value : string) : list (string * any) := member_if (negb (String.eqb value "")) name (AString value).
Definition flag_field (name : string) (value : bool) : list (string * any) := member_if value name (ABool true).

Class JSONStruct (A : Type) := {
  js_zero : A;
  js_spec : list (string * assignment A);
  js_fields : A → list (string * any)
}.
Definition json_Marshal `{JSONStruct A} (a : A) : list byte := byte_of <$> print (AObject (js_fields a)).
Definition json_Unmarshal `{JSONStruct A} (data : list byte) : option A := v ← parse_text (coerce_utf8 (bval <$> data)); decode_struct js_spec js_zero v.

(** ** A struct reads back *)

Lemma print_bytes v : Forall (λ b, 0 ≤ b < 256) (print v).
Proof.
  assert (∀ parts, Forall (Forall (λ b, 0 ≤ b < 256)) parts → Forall (λ b, 0 ≤ b < 256) (join parts)) as Hjoin.
  { intros parts. induction parts as [|p ps IH]; intros Hp; [constructor|]. apply Forall_cons in Hp as [Hp Hps]. rewrite join_cons. destruct ps as [|q ps]; [done|].
    apply Forall_app. split; [done|]. constructor; [lia|]. by apply IH. }
  induction v as [|b|t|s|l IH|l IH] using any_ind; cbn [print]; try apply code_bytes.
  - apply (json_encode_bytes (JString s)).
  - constructor; [lia|]. apply Forall_app. split; [|repeat constructor; lia]. by apply Hjoin, Forall_fmap.
  - constructor; [lia|]. apply Forall_app. split; [|repeat constructor; lia]. apply Hjoin, Forall_fmap. eapply Forall_impl; [exact IH|]. intros [k v] Hv. cbn [fst snd] in *.
    apply Forall_app. split; [apply (json_encode_bytes (JString k))|]. constructor; [lia|done].
Qed.
Lemma bval_bytes l : Forall (λ b, 0 ≤ b < 256) l → bval <$> (byte_of <$> l) = l.
Proof. induction 1 as [|b l Hb _ IH]; [done|]. csimpl. rewrite IH, bval_byte_of, Z.mod_small by lia. done. Qed.

Theorem json_roundtrip `{JSONStruct A} (a : A) :
  json_ok (AObject (js_fields a)) = true → nesting (AObject (js_fields a)) ≤ maxNestingDepth → decode_members js_spec js_zero (js_fields a) = Some a →
  json_Unmarshal (json_Marshal a) = Some a.
Proof.
  intros Hok Hd Hm. unfold json_Unmarshal, json_Marshal. rewrite bval_bytes by apply print_bytes. rewrite coerce_valid by (by apply print_utf8).
  by rewrite parse_text_print.
Qed.

(** *** Integers are number literals that read back *)

Lemma read_digits_all l : Forall digit l → read_digits l = (l, []).
Proof.
  induction 1 as [|c l Hc _ IH]; [done|]. simpl. assert (is_digit c = true) as -> by (apply between_spec; unfold digit in Hc; lia). by rewrite IH.
Qed.
Lemma FormatUint_head n : is_u64 n → ∃ c t, code (FormatUint n) = c :: t ∧ digit c ∧ Forall digit t ∧ (c = 48 → t = []).
Proof.
  intros Hn. pose proof (code_FormatUint_digits n ltac:(unfold is_u64 in Hn; lia)) as Hd. destruct (parse_digits_FormatUint n Hn) as [_ Hne].
  destruct (decide (n = 0)) as [->|Hz]; [by exists 48, []|]. assert (head (code (FormatUint n)) ≠ Some 48) as Hh.
  { unfold is_u64 in Hn. rewrite code_FormatUint by lia. rewrite rev_alt. fold (reverse (digits_rev 20 n)).
    rewrite head_reverse. apply digits_rev_last. unfold maxUint64 in Hn. simpl. lia. }
  destruct (code (FormatUint n)) as [|c t]; [done|]. apply Forall_cons in Hd as [Hc Hd]. exists c, t. split_and!; [done..|]. intros ->. done.
Qed.
Lemma read_int_FormatUint n : is_u64 n → read_int (code (FormatUint n)) = Some (code (FormatUint n), []).
Proof.
  intros Hn. destruct (FormatUint_head n Hn) as (c & t & E & Hc & Ht & Hz). rewrite E. cbn [read_int]. destruct (Z.eqb_spec c 48) as [->|]; [by rewrite Hz|].
  rewrite read_digits_all by (by constructor). done.
Qed.
Lemma code_json_int z : is_i64 z ∨ is_u64 z → code (string_of (json_int z)) = json_int z.
Proof. intros _. apply code_string_of_bytes. unfold json_int. case_match; [constructor; [lia|]|]; apply code_bytes. Qed.
Lemma int_any_ok z : is_i64 z ∨ is_u64 z → json_ok (int_any z) = true.
Proof.
  intros Hz. cbn [json_ok int_any]. apply bool_decide_eq_true. rewrite code_json_int by done. unfold json_int, is_i64, is_u64, maxUint64 in *. destruct (Z.ltb_spec z 0).
  - unfold read_number. cbn [read_sign]. change (45 =? 45) with true. cbv iota. rewrite read_int_FormatUint by (unfold is_u64, maxUint64; lia). simpl. by rewrite app_nil_r.
  - assert (is_u64 z) as Hu by (unfold is_u64, maxUint64; lia). destruct (FormatUint_head z Hu) as (c & t & E & Hc & _). unfold read_number.
    assert (read_sign (code (FormatUint z)) = ([], code (FormatUint z))) as ->.
    { rewrite E. simpl. unfold digit in Hc. by rewrite (proj2 (Z.eqb_neq c 45)) by lia. }
    rewrite read_int_FormatUint by done. simpl. by rewrite app_nil_r.
Qed.
Lemma string_of_json_int z : string_of (json_int z) = FormatInt z.
Proof. unfold json_int, FormatInt. case_match; [done|]. apply string_of_code. Qed.
Lemma assign_int_any {A} (set : A → Z → A) a z : is_i64 z → assign_int set a (int_any z) = Some (set a z).
Proof. intros Hz. unfold assign_int, int_any. by rewrite string_of_json_int, ParseInt_FormatInt. Qed.
Lemma assign_uint_any {A} (set : A → Z → A) a z : is_u64 z → assign_uint set a (int_any z) = Some (set a z).
Proof.
  intros Hz. unfold assign_uint, int_any, json_int. rewrite (proj2 (Z.ltb_ge z 0)) by (unfold is_u64 in Hz; lia). rewrite string_of_code, ParseUint_FormatUint by done. done.
Qed.

(** ** The size of what is written *)

Lemma padded_length l : Nat.modulo (length (b64_encode l ++ padding l)) 4 = 0%nat.
Proof.
  induction l as [|a|a b|a b c l IH] using list_ind3; [done..|]. cbn [b64_encode app length].
  assert (padding (a :: b :: c :: l) = padding l) as ->.
  { unfold padding. f_equal. cbn [length]. rewrite <- (Nat.Div0.mod_add (length l) 1 3). do 3 f_equal. lia. }
  etrans; [|exact IH]. rewrite <- (Nat.Div0.mod_add (length (b64_encode l ++ padding l)) 1 4). f_equal. lia.
Qed.
Lemma StdLax_roundtrip l : StdLax_DecodeString (Std_EncodeToString l) = Some l.
Proof.
  pose proof (Std_roundtrip l) as Hr. unfold Std_DecodeString in Hr. unfold StdLax_DecodeString. revert Hr.
  set (text := filter _ (bytes_of (Std_EncodeToString l))). cbv zeta. intros Hr.
  destruct (b64_values _) as [vs|]; [|done]. cbn [mbind option_bind] in *. destruct (b64_decode vs) as [d|]; [|done]. cbn [mbind option_bind] in Hr.
  case_bool_decide as Ht; [|done]. injection Hr as ->. pose proof (padded_length l) as Hl. rewrite Ht in Hl. by rewrite Hl.
Qed.
Lemma assign_bytes_any {A} get (set : A → list byte → A) a l : assign_bytes get set a (bytes_any l) = Some (set a l).
Proof. destruct l as [|b l]; [done|]. unfold bytes_any, assign_bytes. by rewrite StdLax_roundtrip. Qed.
Lemma escape_ascii_length b : (length (escape_ascii b) ≤ 6)%nat.
Proof. unfold escape_ascii. repeat case_match; simpl; lia. Qed.
Lemma json_escape_length bs : (length (json_escape bs) ≤ 6 * length bs)%nat.
Proof.
  induction bs as [bs IH] using (well_founded_induction (well_founded_ltof _ length)). destruct bs as [|b0 t0]; [done|].
  assert (∀ t, (length t < length (b0 :: t0))%nat → (length (json_escape t) ≤ 6 * length t)%nat) as IH' by (intros t Ht; by apply IH). clear IH.
  pose proof (escape_ascii_length b0). cbn [json_escape].
  repeat (case_match; subst; rewrite ?length_app; cbn [length] in *); unfold replacement, escape3; repeat case_match; cbn [length] in *;
    match goal with |- context [length (json_escape ?t)] => pose proof (IH' t ltac:(simpl; lia)) end; simpl in *; lia.
Qed.
Lemma quote_size s : Z.of_nat (length (json_quote s)) ≤ 6 * strlen s + 2.
Proof. unfold json_quote. simpl. rewrite length_app. simpl. pose proof (json_escape_length (code s)). rewrite <- length_code. lia. Qed.
Lemma digits_rev_length fuel n : (length (digits_rev fuel n) ≤ fuel)%nat.
Proof. revert n. induction fuel as [|f IH]; intros n; simpl; [lia|]. destruct (n <? 10); simpl; [lia|]. specialize (IH (n / 10)). lia. Qed.
Lemma FormatUint_size n : strlen (FormatUint n) ≤ 20.
Proof. unfold strlen, FormatUint. rewrite bytes_of_string_of, length_fmap, length_rev. pose proof (digits_rev_length 20 n). lia. Qed.
Lemma int_size z : Z.of_nat (length (print (int_any z))) ≤ 21.
Proof.
  cbn [print int_any]. unfold string_of. rewrite code_string_of, !length_fmap. unfold json_int.
  pose proof (FormatUint_size z). pose proof (FormatUint_size (- z)). rewrite <- length_code in *. case_match; simpl; lia.
Qed.
Lemma hex_size l : strlen (EncodeToString l) = 2 * Z.of_nat (length l).
Proof. unfold strlen, EncodeToString. rewrite bytes_of_string_of. induction l as [|b l IH]; [done|]. change (hex_encode (b :: l)) with (hex_digit (bval b / 16) :: hex_digit (bval b `mod` 16) :: hex_encode l). cbn [length]. lia. Qed.
Lemma base64_size l : strlen (RawStd_EncodeToString l) ≤ 2 * Z.of_nat (length l).
Proof.
  unfold strlen, RawStd_EncodeToString. rewrite bytes_of_string_of. induction l as [|a|a b|a b c l IH] using list_ind3; cbn [b64_encode length app] in *; lia.
Qed.

(** A bound for a member and for an object. *)
Definition member_size (kv : string * any) : Z := 6 * strlen kv.1 + 4 + Z.of_nat (length (print kv.2)).
Definition members_size (l : list (string * any)) : Z := foldr (λ kv n, member_size kv + n) 1 l.
Lemma join_tail_size l : Z.of_nat (length (mjoin ((λ q, 44 :: q) <$> (print_member <$> l)))) + 1 ≤ members_size l.
Proof.
  induction l as [|kv l IH]; [done|]. rewrite !fmap_cons. change (members_size (kv :: l)) with (member_size kv + members_size l).
  set (t := (λ q, 44 :: q) <$> (print_member <$> l)) in *. change (mjoin ((44 :: print_member kv) :: t)) with ((44 :: print_member kv) ++ mjoin t).
  rewrite length_app. cbn [length]. pose proof (quote_size kv.1). unfold print_member at 1. rewrite length_app. cbn [length]. unfold member_size. lia.
Qed.
Lemma object_size l : Z.of_nat (length (print (AObject l))) ≤ 1 + members_size l.
Proof.
  change (print (AObject l)) with (123 :: join (print_member <$> l) ++ [125]). cbn [length]. rewrite length_app. cbn [length]. destruct l as [|kv l]; [done|].
  rewrite fmap_cons. cbn [join]. change (members_size (kv :: l)) with (member_size kv + members_size l). rewrite length_app.
  pose proof (join_tail_size l). pose proof (quote_size kv.1). unfold print_member at 1. rewrite length_app. cbn [length]. unfold member_size. lia.
Qed.
Lemma json_Marshal_size `{JSONStruct A} (a : A) : Z.of_nat (length (json_Marshal a)) ≤ 1 + members_size (js_fields a).
Proof. unfold json_Marshal. rewrite length_fmap. apply object_size. Qed.
Lemma array_size l n : (∀ v, v ∈ l → Z.of_nat (length (print v)) ≤ n) → 0 ≤ n → Z.of_nat (length (print (AArray l))) ≤ 2 + Z.of_nat (length l) * (n + 1).
Proof.
  intros Hl Hn. change (print (AArray l)) with (91 :: join (print <$> l) ++ [93]). cbn [length]. rewrite length_app. cbn [length].
  assert (∀ k, (∀ v, v ∈ k → Z.of_nat (length (print v)) ≤ n) → Z.of_nat (length (mjoin ((λ q, 44 :: q) <$> (print <$> k)))) ≤ Z.of_nat (length k) * (n + 1)) as Ht.
  { induction k as [|v k IH]; intros Hk; [done|]. rewrite !fmap_cons. set (t := (λ q, 44 :: q) <$> (print <$> k)) in *.
    change (mjoin ((44 :: print v) :: t)) with ((44 :: print v) ++ mjoin t). rewrite length_app. cbn [length].
    pose proof (Hk v ltac:(left)). specialize (IH (λ u Hu, Hk u ltac:(by right))). lia. }
  destruct l as [|v l]; [simpl; lia|]. rewrite fmap_cons. cbn [join]. rewrite length_app. cbn [length].
  pose proof (Hl v ltac:(left)). pose proof (Ht l (λ u Hu, Hl u ltac:(by right))). lia.
Qed.
