(* ===== verification/Wire.v ===== *)
(** * Protocol data types and their validation

    Models protocol/types.go (identifiers, phases, operations, the envelope and
    its [Validate]), the text validators of protocol/payload.go and the
    capability identifiers of protocol/schema_catalog.go.

    [NodeID], epochs and deadlines are [Z] with the width of the source stated
    by [wf_envelope]; a [MessageID] ([16]byte) is its big-endian 128-bit value;
    a [Phase] and an [Operation] are bytes, because the decoder builds them from
    arbitrary wire bytes. *)

From S2P Require Import Prelude GoStd.
Open Scope Z_scope.

Definition CurrentVersion : Z := 2.
Definition DefaultMaxPayload : Z := 2 ^ 20.
Definition MaxResourceNameBytes : Z := 255.
Definition MaxCapabilityBytes : Z := 128.
Definition MaxContentTypeBytes : Z := 127.
Definition MaxSchemaBytes : Z := 255.
Definition MaxIdentifierBytes : Z := 128.
Definition MaxPathBytes : Z := 1024.
Definition MaxItems : Z := 4096.

Abbreviation NodeID := Z (only parsing).
Abbreviation MessageID := Z (only parsing).
Abbreviation CapabilityID := string (only parsing).

(** The errors of the validators, one constructor per [return]. *)
Inductive wire_error :=
| ENodeIDZero | EResourceNameBytes | EResourceNameSegments | EResourceNameDot | EResourceNameRune
| EUnsupportedVersion | EUnknownPhaseOrOperation | EPhaseDisallows | EMessageIDRequired
| EUnexpectedResource | ECorrelationRequired | ENegativeDeadline | EMetadataTooLong
| EUnexpectedCapability | EPayloadTooLarge
| ETextRequired | ETextInvalid | EIdentifierStart | EIdentifierRune
| ENodeIDText | EHexID | EPathPrefix | EPathSegment | EPathPlatform | EMessageIDText | EPayloadEmpty.

#[global] Instance wire_error_eq_dec : EqDecision wire_error.
Proof. solve_decision. Defined.

(** ** Identifiers *)

Definition NodeID_Validate (id : NodeID) : result wire_error unit :=
  fail_if id =? 0 with ENodeIDZero ;; Ok tt.

Definition MessageID_IsZero (id : MessageID) : bool := id =? 0.

(** Big-endian bytes of an integer, most significant first. *)
Fixpoint be_bytes (n : nat) (z : Z) : list byte :=
  match n with
  | O => []
  | S n' => byte_of (z / 256 ^ Z.of_nat n') :: be_bytes n' z
  end.
Definition be_value (l : list byte) : Z := fold_left (λ acc b, acc * 256 + bval b) l 0.

Definition MessageID_String (id : MessageID) : string := EncodeToString (be_bytes 16 id).

Definition ParseMessageID (value : string) : result wire_error MessageID :=
  match DecodeString value with
  | None => Err EMessageIDText
  | Some decoded =>
    fail_if negb (Z.of_nat (length decoded) =? 16) || negb (bool_decide (value = ToLower value))
      with EMessageIDText ;;
    fail_if MessageID_IsZero (be_value decoded) with EMessageIDText ;;
    Ok (be_value decoded)
  end.

Record ResourceID := mkResourceID { r_Owner : NodeID; r_Name : string }.
Definition zeroResourceID : ResourceID := mkResourceID 0 "".

#[global] Instance ResourceID_eq_dec : EqDecision ResourceID.
Proof. solve_decision. Defined.
#[global] Instance ResourceID_countable : Countable ResourceID.
Proof.
  apply (inj_countable' (λ r, (r_Owner r, r_Name r)) (λ p, mkResourceID p.1 p.2)).
  by intros [].
Defined.

Definition slash : byte := x2f.

Definition ResourceID_Validate (id : ResourceID) : result wire_error unit :=
  _ ← NodeID_Validate (r_Owner id);
  let name := r_Name id in
  fail_if bool_decide (name = "") || (MaxResourceNameBytes <? strlen name) || negb (ValidString name)
    with EResourceNameBytes ;;
  fail_if HasPrefix name "/" || HasSuffixByte name slash || contains_double slash (bytes_of name)
    with EResourceNameSegments ;;
  fail_if existsb (λ seg, bool_decide (seg = ".") || bool_decide (seg = "..")) (Split name slash)
    with EResourceNameDot ;;
  fail_if existsb (λ r, IsControl r || IsSpace r) (runes name) with EResourceNameRune ;;
  Ok tt.

(** ** Text validators (protocol/payload.go) *)

Definition validateText (value : string) (maxBytes : Z) (required : bool) : result wire_error unit :=
  fail_if required && bool_decide (value = "") with ETextRequired ;;
  fail_if negb (ValidString value) || (maxBytes <? strlen value) with ETextInvalid ;;
  Ok tt.

Definition validateNodeIDText (value : string) : result wire_error unit :=
  fail_if bool_decide (value = "") || HasPrefix value "+" || ((1 <? strlen value) && HasPrefix value "0")
    with ENodeIDText ;;
  let '(id, ok) := ParseUint value in
  fail_if negb ok || (id =? 0) with ENodeIDText ;;
  Ok tt.

(** The size of a payload; the data only matters by its length. *)
Definition validatePayloadSize (size maxBytes : Z) : result wire_error unit :=
  let maxBytes := if maxBytes <=? 0 then DefaultMaxPayload else maxBytes in
  fail_if size =? 0 with EPayloadEmpty ;;
  fail_if maxBytes <? size with EPayloadTooLarge ;;
  Ok tt.

Definition validateHexID (value : string) (nbytes : Z) : result wire_error unit :=
  fail_if negb (strlen value =? nbytes * 2) with EHexID ;;
  match DecodeString value with
  | None => Err EHexID
  | Some decoded =>
    fail_if negb (Z.of_nat (length decoded) =? nbytes) || negb (bool_decide (value = ToLower value))
      with EHexID ;;
    Ok tt
  end.

Definition backslash : byte := x5c.
Definition colon : byte := x3a.
Definition contains_byte (b : byte) (s : string) : bool := existsb (λ c, bool_decide (c = b)) (bytes_of s).

(** The segment loop of [validateRelativePath]. *)
Fixpoint check_segments (segs : list string) : result wire_error unit :=
  match segs with
  | [] => Ok tt
  | seg :: rest =>
    fail_if bool_decide (seg = "") || bool_decide (seg = ".") || bool_decide (seg = "..") with EPathSegment ;;
    fail_if contains_byte colon seg with EPathPlatform ;;
    check_segments rest
  end.

Definition validateRelativePath (value : string) : result wire_error unit :=
  _ ← validateText value MaxPathBytes true;
  fail_if HasPrefix value "/" || HasPrefix value "\" || contains_byte backslash value with EPathPrefix ;;
  check_segments (Split value slash).

(** The character loop of [validateExtensibleIdentifier]; [first] is [index == 0]. *)
Fixpoint check_identifier (first : bool) (rs : list Z) : result wire_error unit :=
  match rs with
  | [] => Ok tt
  | c :: rest =>
    let punct := (c =? 46) || (c =? 45) || (c =? 95) in
    if IsLetter c || IsDigit c || punct
    then fail_if first && punct with EIdentifierStart ;; check_identifier false rest
    else Err EIdentifierRune
  end.

Definition validateExtensibleIdentifier (value : string) : result wire_error unit :=
  _ ← validateText value MaxIdentifierBytes true;
  check_identifier true (runes value).

Definition CapabilityID_Validate (id : CapabilityID) : result wire_error unit :=
  validateExtensibleIdentifier id.

(** ** Phases and operations *)

Definition PhaseRequest : Z := 1.
Definition PhaseControl : Z := 2.
Definition PhaseResponse : Z := 3.
Definition PhaseEvent : Z := 4.
Definition Phase_Valid (p : Z) : bool := (PhaseRequest <=? p) && (p <=? PhaseEvent).

Definition OperationJoin : Z := 1.
Definition OperationJoinAck : Z := 2.
Definition OperationRouteAnnounce : Z := 3.
Definition OperationRouteWithdraw : Z := 4.
Definition OperationSubscribe : Z := 5.
Definition OperationUnsubscribe : Z := 6.
Definition OperationSubscribeAck : Z := 7.
Definition OperationResourceEvent : Z := 8.
Definition OperationResourceGap : Z := 9.
Definition OperationOperate : Z := 10.
Definition OperationOperateResult : Z := 11.
Definition OperationSessionOpen : Z := 12.
Definition OperationSessionOpenResult : Z := 13.
Definition OperationSessionData : Z := 14.
Definition OperationSessionClose : Z := 15.
Definition OperationError : Z := 16.
Definition OperationHeartbeat : Z := 17.

Definition Operation_Valid (op : Z) : bool := (OperationJoin <=? op) && (op <=? OperationHeartbeat).
Definition RequiresResource (op : Z) : bool := (OperationSubscribe <=? op) && (op <=? OperationSessionClose).
Definition op_in (op : Z) (ops : list Z) : bool := existsb (Z.eqb op) ops.
Definition RequiresCorrelation (op : Z) : bool :=
  op_in op [OperationJoinAck; OperationSubscribeAck; OperationResourceEvent; OperationResourceGap;
            OperationOperateResult; OperationSessionOpenResult; OperationSessionData;
            OperationSessionClose; OperationError].

Definition phaseAllows (phase op : Z) : bool :=
  if op_in op [OperationJoin] then phase =? PhaseRequest
  else if op_in op [OperationJoinAck; OperationSubscribeAck; OperationOperateResult;
                    OperationSessionOpenResult; OperationError] then phase =? PhaseResponse
  else if op_in op [OperationRouteAnnounce; OperationRouteWithdraw; OperationResourceGap;
                    OperationHeartbeat] then phase =? PhaseEvent
  else if op_in op [OperationResourceEvent] then (phase =? PhaseResponse) || (phase =? PhaseEvent)
  else if op_in op [OperationSessionData; OperationSessionClose]
    then (phase =? PhaseRequest) || (phase =? PhaseControl) || (phase =? PhaseResponse)
  else if op_in op [OperationSubscribe; OperationUnsubscribe; OperationOperate; OperationSessionOpen]
    then (phase =? PhaseRequest) || (phase =? PhaseControl)
  else false.

(** ** Envelopes *)

Record Envelope := mkEnvelope {
  e_Version : Z;
  e_Phase : Z;
  e_Operation : Z;
  e_MessageID : MessageID;
  e_CorrelationID : MessageID;
  e_Source : NodeID;
  e_Principal : NodeID;
  e_Target : NodeID;
  e_Resource : ResourceID;
  e_TopologyEpoch : Z;
  e_DeadlineUnixMS : Z;
  e_ContentType : string;
  e_Schema : string;
  e_Capability : CapabilityID;
  e_Payload : list byte
}.

#[global] Instance Envelope_eq_dec : EqDecision Envelope.
Proof. solve_decision. Defined.

Definition Subject (e : Envelope) : NodeID :=
  if negb (e_Principal e =? 0) then e_Principal e else e_Source e.

(** [if c { return err }] where [err] is the result of a nested validation. *)
Definition when (b : bool) (r : result wire_error unit) : result wire_error unit :=
  if b then r else Ok tt.

Definition Envelope_Validate (e : Envelope) (maxPayload : Z) : result wire_error unit :=
  fail_if negb (e_Version e =? CurrentVersion) with EUnsupportedVersion ;;
  fail_if negb (Phase_Valid (e_Phase e)) || negb (Operation_Valid (e_Operation e))
    with EUnknownPhaseOrOperation ;;
  fail_if negb (phaseAllows (e_Phase e) (e_Operation e)) with EPhaseDisallows ;;
  fail_if MessageID_IsZero (e_MessageID e) with EMessageIDRequired ;;
  _ ← NodeID_Validate (e_Source e);
  _ ← when (negb (e_Principal e =? 0)) (NodeID_Validate (e_Principal e));
  _ ← NodeID_Validate (e_Target e);
  _ ← (if RequiresResource (e_Operation e) then ResourceID_Validate (e_Resource e)
       else fail_if negb (bool_decide (e_Resource e = zeroResourceID)) with EUnexpectedResource ;; Ok tt);
  fail_if RequiresCorrelation (e_Operation e) && MessageID_IsZero (e_CorrelationID e)
    with ECorrelationRequired ;;
  fail_if e_DeadlineUnixMS e <? 0 with ENegativeDeadline ;;
  fail_if (MaxContentTypeBytes <? strlen (e_ContentType e)) || (MaxSchemaBytes <? strlen (e_Schema e))
          || (MaxCapabilityBytes <? strlen (e_Capability e)) with EMetadataTooLong ;;
  _ ← (if RequiresResource (e_Operation e) then CapabilityID_Validate (e_Capability e)
       else fail_if negb (bool_decide (e_Capability e = "")) with EUnexpectedCapability ;; Ok tt);
  let maxPayload := if maxPayload <=? 0 then DefaultMaxPayload else maxPayload in
  fail_if maxPayload <? Z.of_nat (length (e_Payload e)) with EPayloadTooLarge ;;
  Ok tt.

(** The ranges the Go types of the fields give. *)
Definition wf_envelope (e : Envelope) : Prop :=
  0 ≤ e_Version e < 2 ^ 16 ∧ 0 ≤ e_Phase e < 256 ∧ 0 ≤ e_Operation e < 256 ∧
  0 ≤ e_MessageID e < 2 ^ 128 ∧ 0 ≤ e_CorrelationID e < 2 ^ 128 ∧
  is_u64 (e_Source e) ∧ is_u64 (e_Principal e) ∧ is_u64 (e_Target e) ∧
  is_u64 (r_Owner (e_Resource e)) ∧ is_u64 (e_TopologyEpoch e) ∧ is_i64 (e_DeadlineUnixMS e).

#[global] Instance wf_envelope_dec e : Decision (wf_envelope e).
Proof. unfold wf_envelope; apply _. Defined.

(** ** Wire errors (protocol/errors.go) *)

Record ErrorPayload := mkErrorPayload {
  ep_Code : string;
  ep_Message : string;
  ep_Retryable : bool;
  ep_Details : gmap string string
}.
#[global] Instance ErrorPayload_eq_dec : EqDecision ErrorPayload.
Proof. solve_decision. Defined.

Definition CodeMalformed : string := "malformed".
Definition CodeUnsupported : string := "unsupported".
Definition CodeUnauthenticated : string := "unauthenticated".
Definition CodeForbidden : string := "forbidden".
Definition CodeNotFound : string := "not_found".
Definition CodeConflict : string := "conflict".
Definition CodeStaleEpoch : string := "stale_epoch".
Definition CodeExpired : string := "expired".
Definition CodeOverflow : string := "overflow".
Definition CodeTimeout : string := "timeout".
Definition CodeGone : string := "gone".
Definition CodeInternal : string := "internal".

Definition failure (code message : string) (retryable : bool) : ErrorPayload :=
  mkErrorPayload code message retryable ∅.

(** ** Lemmas: results without a value *)

Lemma ok_unit {E} (r : result E unit) : is_ok r = true ↔ r = Ok tt.
Proof. destruct r as [[]|]; simpl; naive_solver. Qed.

Lemma bind_ok {E A} (r : result E unit) (k : unit → result E A) (a : A) :
  (r ≫= k) = Ok a ↔ r = Ok tt ∧ k tt = Ok a.
Proof. destruct r as [[]|]; simpl; naive_solver. Qed.

Lemma bind_value {E A A'} (r : result E A) (k : A → result E A') (a' : A') : (r ≫= k) = Ok a' ↔ ∃ a, r = Ok a ∧ k a = Ok a'.
Proof. destruct r; simpl; naive_solver. Qed.

Lemma fail_if_ok {E A} (b : bool) (e : E) (k : result E A) (a : A) :
  (fail_if b with e ;; k) = Ok a ↔ b = false ∧ k = Ok a.
Proof. destruct b; naive_solver. Qed.

Lemma mapErr_ok {E E' A} (g : E → E') (r : result E A) (a : A) : mapErr g r = Ok a ↔ r = Ok a.
Proof. destruct r; naive_solver. Qed.

(** Invert the guards of a successful call. *)
Ltac guards H :=
  repeat match type of H with
  | (_ ≫= _) = Ok _ => apply bind_ok in H as [? H]
  | (if _ then Err _ else _) = Ok _ => apply fail_if_ok in H as [? H]
  | match ?x with _ => _ end = Ok _ => destruct x eqn:?; [|discriminate H]
  end; simpl in H; try discriminate H.

Lemma NodeID_Validate_ok id : NodeID_Validate id = Ok tt ↔ id ≠ 0.
Proof. unfold NodeID_Validate. rewrite fail_if_ok, Z.eqb_neq. naive_solver. Qed.

(** ** Lemmas: big-endian integers *)

(** The hexadecimal form of [n] bytes is an identifier of [n] bytes. *)
Lemma validateHexID_EncodeToString l : validateHexID (EncodeToString l) (Z.of_nat (length l)) = Ok tt.
Proof.
  unfold validateHexID, EncodeToString, DecodeString, ToLower, strlen. rewrite !bytes_of_string_of, length_hex_encode.
  destruct (Z.eqb_spec (Z.of_nat (2 * length l)) (Z.of_nat (length l) * 2)); [|lia]. simpl.
  rewrite hex_decode_encode, Z.eqb_refl. simpl. rewrite lower_hex_encode, bool_decide_eq_true_2; done.
Qed.

Lemma length_be_bytes n z : length (be_bytes n z) = n.
Proof. induction n as [|n IH]; simpl; congruence. Qed.

Lemma fold_be_acc l acc :
  fold_left (λ a b, a * 256 + bval b) l acc = acc * 256 ^ Z.of_nat (length l) + be_value l.
Proof.
  unfold be_value. revert acc. induction l as [|b l IH]; intros acc; [simpl; lia|].
  cbn [fold_left length]. rewrite IH, (IH (0 * 256 + bval b)).
  rewrite Nat2Z.inj_succ, Z.pow_succ_r by lia. lia.
Qed.

Lemma be_value_cons b l : be_value (b :: l) = bval b * 256 ^ Z.of_nat (length l) + be_value l.
Proof. unfold be_value at 1. cbn [fold_left]. rewrite fold_be_acc. lia. Qed.

Lemma be_value_range l : 0 ≤ be_value l < 256 ^ Z.of_nat (length l).
Proof.
  induction l as [|b l IH]; [by unfold be_value|]. rewrite be_value_cons. cbn [length].
  rewrite Nat2Z.inj_succ, Z.pow_succ_r by lia. pose proof (bval_range b). nia.
Qed.

Lemma be_value_be_bytes n z : 0 ≤ z → be_value (be_bytes n z) = z `mod` 256 ^ Z.of_nat n.
Proof.
  intros Hz. induction n as [|n IH]; [by rewrite Z.mod_1_r|].
  cbn [be_bytes]. rewrite be_value_cons, length_be_bytes, bval_byte_of, IH.
  rewrite Nat2Z.inj_succ, Z.pow_succ_r, (Z.mul_comm 256) by lia.
  rewrite Z.rem_mul_r by lia. lia.
Qed.

Lemma be_bytes_app_high n z w :
  0 ≤ z → be_bytes n (z + w * 256 ^ Z.of_nat n) = be_bytes n z.
Proof.
  revert w. induction n as [|n IH]; intros w Hz; [done|]. cbn [be_bytes].
  rewrite Nat2Z.inj_succ, Z.pow_succ_r by lia.
  replace (w * (256 * 256 ^ Z.of_nat n)) with (w * 256 * 256 ^ Z.of_nat n) by lia.
  rewrite IH by done. f_equal. apply bval_inj. rewrite !bval_byte_of.
  rewrite Z.div_add by lia. by rewrite Z.mod_add by lia.
Qed.

Lemma be_bytes_be_value l n : length l = n → be_bytes n (be_value l) = l.
Proof.
  intros <-. induction l as [|b l IH]; [done|]. cbn [length be_bytes].
  pose proof (be_value_range l) as Hr. rewrite be_value_cons. f_equal.
  - rewrite Z.div_add_l, Z.div_small, Z.add_0_r by lia. apply byte_of_bval.
  - rewrite Z.add_comm, be_bytes_app_high by lia. done.
Qed.


(** ** Lemmas: envelopes *)

(** The payload bound [Envelope.Validate] applies. *)
Definition effective_max (maxPayload : Z) : Z := if maxPayload <=? 0 then DefaultMaxPayload else maxPayload.

(** The conditions of [Envelope.Validate], without their order. *)
Definition valid_envelope (e : Envelope) (maxPayload : Z) : Prop :=
  e_Version e = CurrentVersion ∧ Phase_Valid (e_Phase e) = true ∧ Operation_Valid (e_Operation e) = true ∧
  phaseAllows (e_Phase e) (e_Operation e) = true ∧ e_MessageID e ≠ 0 ∧ e_Source e ≠ 0 ∧ e_Target e ≠ 0 ∧
  (if RequiresResource (e_Operation e)
   then ResourceID_Validate (e_Resource e) = Ok tt ∧ CapabilityID_Validate (e_Capability e) = Ok tt
   else e_Resource e = zeroResourceID ∧ e_Capability e = "") ∧
  (RequiresCorrelation (e_Operation e) = true → e_CorrelationID e ≠ 0) ∧
  0 ≤ e_DeadlineUnixMS e ∧
  strlen (e_ContentType e) ≤ MaxContentTypeBytes ∧ strlen (e_Schema e) ≤ MaxSchemaBytes ∧
  strlen (e_Capability e) ≤ MaxCapabilityBytes ∧
  Z.of_nat (length (e_Payload e)) ≤ effective_max maxPayload.

Lemma when_node id : when (negb (id =? 0)) (NodeID_Validate id) = Ok tt.
Proof. unfold when, NodeID_Validate. by destruct (id =? 0). Qed.

Lemma Envelope_Validate_ok e maxPayload :
  Envelope_Validate e maxPayload = Ok tt ↔ valid_envelope e maxPayload.
Proof.
  unfold Envelope_Validate, valid_envelope, effective_max, MessageID_IsZero.
  rewrite when_node. cbv zeta.
  repeat (rewrite fail_if_ok || rewrite bind_ok).
  rewrite !NodeID_Validate_ok, !orb_false_iff, !negb_false_iff, !Z.ltb_ge, !Z.eqb_neq, Z.eqb_eq.
  rewrite andb_false_iff, Z.eqb_neq.
  destruct (RequiresResource (e_Operation e)), (RequiresCorrelation (e_Operation e));
    repeat (rewrite fail_if_ok || rewrite negb_false_iff || rewrite bool_decide_eq_true); intuition (congruence || lia || eauto).
Qed.

Lemma ResourceID_Validate_len id :
  ResourceID_Validate id = Ok tt → strlen (r_Name id) ≤ MaxResourceNameBytes.
Proof.
  unfold ResourceID_Validate. rewrite bind_ok, fail_if_ok, !orb_false_iff, Z.ltb_ge. tauto.
Qed.

Lemma valid_name_len e maxPayload :
  valid_envelope e maxPayload → strlen (r_Name (e_Resource e)) ≤ MaxResourceNameBytes.
Proof.
  intros (_ & _ & _ & _ & _ & _ & _ & Hr & _). destruct (RequiresResource (e_Operation e)).
  - destruct Hr as [Hr _]. by apply ResourceID_Validate_len.
  - destruct Hr as [-> _]. done.
Qed.

(** ** Theorems *)

(** [ParseMessageID] and [MessageID.String] are inverse: a text parses to an
    identifier exactly when the identifier is a non-zero 128-bit value and the text is
    its canonical lower-case hexadecimal form. *)
Theorem ParseMessageID_canonical (s : string) (id : MessageID) :
  ParseMessageID s = Ok id ↔ 0 < id < 2 ^ 128 ∧ s = MessageID_String id.
Proof.
  unfold ParseMessageID, MessageID_String, DecodeString, EncodeToString, MessageID_IsZero. split.
  - intros H. destruct (hex_decode (bytes_of s)) as [d|] eqn:Ed; [|done].
    apply fail_if_ok in H as [Hc H]. apply fail_if_ok in H as [Hz H]. injection H as <-.
    bool_prop. pose proof (be_value_range d) as Hr.
    assert (length d = 16%nat) as Hl by lia. rewrite Hl in Hr.
    change (256 ^ Z.of_nat 16) with (2 ^ 128) in Hr. split; [lia|].
    rewrite be_bytes_be_value by done. apply bytes_of_inj. rewrite bytes_of_string_of.
    symmetry. apply hex_encode_decode; [done|].
    match goal with E : s = ToLower s |- _ => rename E into Elow end.
    unfold ToLower in Elow. apply (f_equal bytes_of) in Elow.
    by rewrite bytes_of_string_of in Elow.
  - intros [Hr ->]. rewrite bytes_of_string_of, hex_decode_encode.
    rewrite length_be_bytes. unfold ToLower. rewrite bytes_of_string_of, lower_hex_encode.
    rewrite bool_decide_eq_true_2 by done. simpl negb. cbn [orb Z.eqb].
    rewrite be_value_be_bytes by lia. change (256 ^ Z.of_nat 16) with (2 ^ 128).
    rewrite Z.mod_small by lia. by rewrite (proj2 (Z.eqb_neq id 0)) by lia.
Qed.

(** The identifier text check accepts exactly the canonical decimal form of the
    non-zero 64-bit node identifiers: no sign, no leading zero, no overflow. *)
Theorem validateNodeIDText_canonical (s : string) :
  validateNodeIDText s = Ok tt ↔ ∃ n, 0 < n ≤ maxUint64 ∧ s = FormatUint n.
Proof.
  unfold validateNodeIDText. rewrite (HasPrefix_lit s "+" x2b), (HasPrefix_lit s "0" x30) by done.
  rewrite (bool_decide_ext (head (bytes_of s) = Some x30) (head (code s) = Some 48))
    by (symmetry; apply (head_code s x30)).
  rewrite (bool_decide_ext (head (bytes_of s) = Some x2b) (head (code s) = Some 43))
    by (symmetry; apply (head_code s x2b)).
  rewrite <- length_code. unfold ParseUint. split.
  - intros H. apply fail_if_ok in H as [Hc H].
    destruct (code s) as [|c cs] eqn:Es; [done|].
    destruct (parse_digits 0 (c :: cs)) as [n ok] eqn:Ep.
    apply fail_if_ok in H as [Hz _]. apply orb_false_iff in Hz as [Hok Hz].
    apply negb_false_iff in Hok as ->. apply Z.eqb_neq in Hz.
    assert (head (c :: cs) ≠ Some 48) as Hh.
    { intros [= ->]. apply orb_false_iff in Hc as [_ Hc].
      rewrite (bool_decide_eq_true_2 (head (48 :: cs) = Some 48)) in Hc by done.
      rewrite andb_true_r in Hc. apply Z.ltb_ge in Hc. destruct cs; [|simpl in Hc; lia].
      injection Ep as <-. done. }
    assert (0 ≤ n ≤ maxUint64) as Hn
      by (destruct (parse_digits_unique (c :: cs) n) as (_ & ? & _); [done|by left|done..]).
    exists n. split; [lia|]. apply code_inj. rewrite Es, code_FormatUint by lia.
    symmetry. by apply parse_digits_canonical.
  - intros (n & Hn & ->). unfold maxUint64 in Hn.
    pose proof (ParseUint_FormatUint n) as Hp. unfold ParseUint in Hp.
    rewrite Hp by (unfold is_u64, maxUint64; lia). clear Hp.
    assert (head (code (FormatUint n)) ≠ Some 48) as Hh.
    { rewrite code_FormatUint by lia. rewrite rev_alt. fold (reverse (digits_rev 20 n)).
      rewrite head_reverse. apply digits_rev_last. simpl. lia. }
    assert (Forall (λ d, 48 ≤ d < 58) (code (FormatUint n))) as Hr.
    { rewrite code_FormatUint by lia. apply Forall_rev, digits_rev_range. lia. }
    rewrite (bool_decide_eq_false_2 (head _ = Some 48)) by done. rewrite andb_false_r, orb_false_r.
    rewrite (bool_decide_eq_false_2 (head _ = Some 43)).
    2: { destruct (code (FormatUint n)); [done|]. inversion Hr; subst. intros [=]. lia. }
    rewrite (bool_decide_eq_false_2 (FormatUint n = "")).
    2: { intros E. pose proof (ParseUint_FormatUint n) as Hp. rewrite E in Hp.
         unfold is_u64, maxUint64 in Hp. by specialize (Hp ltac:(lia)). }
    by rewrite (proj2 (Z.eqb_neq n 0)) by lia.
Qed.

(** What an accepted resource name looks like: slash-separated, with non-empty segments
    none of which is a dot segment, and no control or white-space character. *)
Definition safe_name (name : string) : Prop :=
  1 ≤ strlen name ≤ MaxResourceNameBytes ∧ is_Some (utf8_runes (code name)) ∧
  Forall (λ seg, seg ≠ "" ∧ seg ≠ "." ∧ seg ≠ "..") (Split name slash) ∧
  Forall (λ r, IsControl r = false ∧ IsSpace r = false) (runes name).

Lemma existsb_false_Forall {A} (f : A → bool) l : existsb f l = false ↔ Forall (λ x, f x = false) l.
Proof.
  induction l as [|a l IH]; simpl; [split; [constructor|done]|].
  rewrite orb_false_iff, IH, Forall_cons. done.
Qed.

Lemma string_of_nil l : String.string_of_list_byte l = "" ↔ l = [].
Proof.
  split; [|by intros ->]. intros E. apply (f_equal bytes_of) in E.
  by rewrite bytes_of_string_of in E.
Qed.

Lemma segments_nonempty name :
  Forall (λ seg, seg ≠ "") (Split name slash) ↔
  bytes_of name ≠ [] ∧ HasPrefix name "/" = false ∧ HasSuffixByte name slash = false ∧
  contains_double slash (bytes_of name) = false.
Proof.
  unfold Split, HasSuffixByte. rewrite (HasPrefix_lit name "/" slash) by done.
  rewrite Forall_fmap, !bool_decide_eq_false. split.
  - intros Hf. apply split_nonempty_inv. eapply Forall_impl; [done|].
    intros l Hl ->. by apply Hl.
  - intros (H1 & H2 & H3 & H4). eapply Forall_impl; [by apply split_segments_nonempty|].
    intros l Hl E. by apply string_of_nil in E.
Qed.

#[local] Opaque IsControl IsSpace HasSuffixByte.

(** [ResourceID.Validate] accepts exactly the resources with a non-zero owner and a safe
    relative name, so no accepted name can contain an empty, [.] or [..] segment. *)
Theorem ResourceID_Validate_spec (id : ResourceID) :
  ResourceID_Validate id = Ok tt ↔ r_Owner id ≠ 0 ∧ safe_name (r_Name id).
Proof.
  unfold ResourceID_Validate, safe_name, ValidString. rewrite bind_ok, NodeID_Validate_ok.
  rewrite !fail_if_ok, !orb_false_iff, !existsb_false_Forall, negb_false_iff.
  rewrite bool_decide_eq_true, bool_decide_eq_false, Z.ltb_ge.
  setoid_rewrite orb_false_iff. setoid_rewrite bool_decide_eq_false.
  rewrite (Forall_and (λ seg, seg ≠ "")). rewrite segments_nonempty.
  pose proof (strlen_nonneg (r_Name id)) as Hn. pose proof (strlen_zero (r_Name id)) as Hz.
  assert (r_Name id ≠ "" ↔ 1 ≤ strlen (r_Name id)) as Hlen.
  { split; [intros Hne; destruct (decide (strlen (r_Name id) = 0)) as [E|]; [by apply Hz in E|lia]|].
    intros Hl E. rewrite E in Hl. unfold strlen in Hl. simpl in Hl. lia. }
  assert (bytes_of (r_Name id) ≠ [] ↔ r_Name id ≠ "") as Hb.
  { split; [intros Hb' E; by rewrite E in Hb'|]. intros Hb' E. apply Hb'. by apply bytes_of_inj. }
  unfold MaxResourceNameBytes. intuition (lia || auto).
Qed.

#[local] Transparent IsControl IsSpace HasSuffixByte.
