(* ===== verification/Codec.v ===== *)
(** * Frame codec (protocol/codec.go)

    [encode_frame] builds the frame that [Codec.Encode] writes; [writeAll] is the write
    loop over an [io.Writer]; [Decode] reads one frame from a byte stream (the unread
    rest of the stream is returned with the envelope). *)

From S2P Require Import Prelude GoStd Wire.
Open Scope Z_scope.

Definition fixedHeaderSize : Z := 98.
Definition FrameMagic : string := "MFH4".
Definition maxUint32 : Z := 2 ^ 32 - 1.

Inductive codec_error :=
| CInvalid (e : wire_error)      (* encode/decode frame: %w *)
| CWireLength                    (* wire length exceeds uint32 *)
| CPlatformLength                (* frame exceeds platform length *)
| CHeaderEOF | CBodyEOF          (* io.ReadFull failed *)
| CMagic | CMetadata | CPayloadTooLarge
| CWriterCount | CWriterError | CNoProgress.

#[global] Instance codec_error_eq_dec : EqDecision codec_error.
Proof. solve_decision. Defined.

Record Codec := mkCodec { c_MaxPayload : Z }.

Definition payloadLimit (c : Codec) : Z :=
  if c_MaxPayload c <=? 0 then DefaultMaxPayload else c_MaxPayload c.

Definition blen (l : list byte) : Z := Z.of_nat (length l).

(** ** Encoding *)

(** The 98 header bytes, field by field in the order of their offsets. *)
Definition frame_header (e : Envelope) : list byte :=
  bytes_of FrameMagic ++                                  (* 0:4 *)
  be_bytes 2 (e_Version e) ++                             (* 4:6 *)
  [byte_of (e_Phase e)] ++ [byte_of (e_Operation e)] ++   (* 6, 7 *)
  [byte_of (strlen (e_ContentType e))] ++                 (* 8 *)
  [byte_of (strlen (e_Schema e))] ++                      (* 9 *)
  be_bytes 2 (strlen (e_Capability e)) ++                 (* 10:12 *)
  be_bytes 2 (strlen (r_Name (e_Resource e))) ++          (* 12:14 *)
  be_bytes 4 (blen (e_Payload e)) ++                      (* 14:18 *)
  be_bytes 8 (e_Source e) ++                              (* 18:26 *)
  be_bytes 8 (e_Principal e) ++                           (* 26:34 *)
  be_bytes 8 (e_Target e) ++                              (* 34:42 *)
  be_bytes 8 (e_TopologyEpoch e) ++                       (* 42:50 *)
  be_bytes 8 (u64 (e_DeadlineUnixMS e)) ++                (* 50:58 *)
  be_bytes 16 (e_MessageID e) ++                          (* 58:74 *)
  be_bytes 16 (e_CorrelationID e) ++                      (* 74:90 *)
  be_bytes 8 (r_Owner (e_Resource e)).                    (* 90:98 *)

Definition frame_body (e : Envelope) : list byte :=
  bytes_of (e_ContentType e) ++ bytes_of (e_Schema e) ++ bytes_of (e_Capability e) ++
  bytes_of (r_Name (e_Resource e)) ++ e_Payload e.

Definition metadataSize (e : Envelope) : Z :=
  fixedHeaderSize + strlen (e_ContentType e) + strlen (e_Schema e) + strlen (e_Capability e)
  + strlen (r_Name (e_Resource e)).

Definition encode_frame (c : Codec) (e : Envelope) : result codec_error (list byte) :=
  _ ← mapErr CInvalid (Envelope_Validate e (payloadLimit c));
  fail_if maxUint32 <? blen (e_Payload e) with CWireLength ;;
  fail_if maxInt - metadataSize e <? blen (e_Payload e) with CPlatformLength ;;
  Ok (frame_header e ++ frame_body e).

(** ** Decoding *)

Definition ReadFull (n : nat) (stream : list byte) : option (list byte * list byte) :=
  if (n <=? length stream)%nat then Some (take n stream, drop n stream) else None.

(** [header[a:b]]. *)
Definition slice (a b : nat) (l : list byte) : list byte := take (b - a) (drop a l).
Definition be (a b : nat) (l : list byte) : Z := be_value (slice a b l).

Definition int64_of (x : Z) : Z := if x <? 2 ^ 63 then x else x - 2 ^ 64.

Definition Decode (c : Codec) (stream : list byte) : result codec_error (Envelope * list byte) :=
  match ReadFull 98 stream with
  | None => Err CHeaderEOF
  | Some (header, stream) =>
    fail_if negb (bool_decide (slice 0 4 header = bytes_of FrameMagic)) with CMagic ;;
    let contentLen := be 8 9 header in
    let schemaLen := be 9 10 header in
    let capabilityLen := be 10 12 header in
    let nameLen := be 12 14 header in
    let payloadLength := be 14 18 header in
    fail_if (MaxContentTypeBytes <? contentLen) || (MaxSchemaBytes <? schemaLen)
            || (MaxCapabilityBytes <? capabilityLen) || (MaxResourceNameBytes <? nameLen)
      with CMetadata ;;
    fail_if payloadLimit c <? payloadLength with CPayloadTooLarge ;;
    match ReadFull (Z.to_nat (contentLen + schemaLen + capabilityLen + nameLen + payloadLength)) stream with
    | None => Err CBodyEOF
    | Some (body, stream) =>
      let cl := Z.to_nat contentLen in let sl := Z.to_nat schemaLen in
      let pl := Z.to_nat capabilityLen in let nl := Z.to_nat nameLen in
      let dl := Z.to_nat payloadLength in
      let envelope := mkEnvelope
        (be 4 6 header) (be 6 7 header) (be 7 8 header)
        (be 58 74 header) (be 74 90 header)
        (be 18 26 header) (be 26 34 header) (be 34 42 header)
        (mkResourceID (be 90 98 header)
           (String.string_of_list_byte (slice (cl + sl + pl) (cl + sl + pl + nl) body)))
        (be 42 50 header) (int64_of (be 50 58 header))
        (String.string_of_list_byte (slice 0 cl body))
        (String.string_of_list_byte (slice cl (cl + sl) body))
        (String.string_of_list_byte (slice (cl + sl) (cl + sl + pl) body))
        (slice (cl + sl + pl + nl) (cl + sl + pl + nl + dl) body) in
      _ ← mapErr CInvalid (Envelope_Validate envelope (payloadLimit c));
      Ok (envelope, stream)
    end
  end.

(** ** The write loop *)

(** The contract of [io.Writer]: [write w p] reports how many bytes of [p] it took and
    whether it failed; the bytes taken are appended to what was written before. *)
Class Writer (W : Type) := {
  write : W → list byte → W * Z * bool;
  sink : W → list byte;
  write_sink w p w' n err :
    write w p = (w', n, err) → 0 ≤ n ≤ blen p → sink w' = sink w ++ take (Z.to_nat n) p
}.

(** One iteration consumes at least one byte or returns, so [length data] iterations are
    enough; [None] would mean that they were not. *)
Fixpoint write_loop `{Writer W} (fuel : nat) (w : W) (data : list byte) : option (W * result codec_error unit) :=
  match data with
  | [] => Some (w, Ok tt)
  | _ =>
    match fuel with
    | O => None
    | S fuel =>
      let '(w, written, err) := write w data in
      if (written <? 0) || (blen data <? written) then Some (w, Err CWriterCount)
      else let data := drop (Z.to_nat written) data in
           if err : bool then Some (w, Err CWriterError)
           else if written =? 0 then Some (w, Err CNoProgress)
           else write_loop fuel w data
    end
  end.
Definition writeAll `{Writer W} (w : W) (data : list byte) : option (W * result codec_error unit) :=
  write_loop (length data) w data.

Definition Encode `{Writer W} (c : Codec) (w : W) (e : Envelope) : option (W * result codec_error unit) :=
  match encode_frame c e with
  | Err err => Some (w, Err err)
  | Ok frame => writeAll w frame
  end.

(** ** Lemmas *)

Lemma length_frame_header e : length (frame_header e) = 98%nat.
Proof. unfold frame_header. rewrite !length_app, !length_be_bytes. reflexivity. Qed.

Lemma slice_app_le a b l1 l2 : (b ≤ length l1)%nat → slice a b (l1 ++ l2) = slice a b l1.
Proof.
  intros Hb. unfold slice. destruct (decide (a ≤ b)%nat) as [Hab|Hab].
  - rewrite drop_app_le by lia. rewrite take_app_le; [done|]. rewrite length_drop. lia.
  - by replace (b - a)%nat with 0%nat by lia.
Qed.

Lemma slice_app_ge a b l1 l2 :
  (length l1 ≤ a)%nat → slice a b (l1 ++ l2) = slice (a - length l1) (b - length l1) l2.
Proof.
  intros Ha. unfold slice. rewrite drop_app_ge by lia. f_equal. lia.
Qed.

Lemma slice_join a b c l : (a ≤ b ≤ c)%nat → slice a b l ++ slice b c l = slice a c l.
Proof.
  intros H. unfold slice. replace (c - a)%nat with ((b - a) + (c - b))%nat by lia.
  rewrite <- (take_take_drop (drop a l) (b - a) (c - b)). by rewrite drop_drop, Nat.add_comm, Nat.sub_add by lia.
Qed.

Lemma slice_full l n : length l = n → slice 0 n l = l.
Proof. intros <-. unfold slice. rewrite Nat.sub_0_r. apply firstn_all. Qed.

Lemma length_slice a b l : (a ≤ b ≤ length l)%nat → length (slice a b l) = (b - a)%nat.
Proof. intros H. unfold slice. rewrite length_take, length_drop. lia. Qed.

Lemma be_value_small n z : 0 ≤ z < 256 ^ Z.of_nat n → be_value (be_bytes n z) = z.
Proof. intros Hz. rewrite be_value_be_bytes by lia. by apply Z.mod_small. Qed.

Lemma be_value_byte z : 0 ≤ z < 256 → be_value [byte_of z] = z.
Proof. intros Hz. unfold be_value. simpl. rewrite bval_byte_of. by apply Z.mod_small. Qed.

Lemma int64_u64 z : 0 ≤ z < 2 ^ 63 → int64_of (u64 z) = z.
Proof.
  intros Hz. rewrite u64_small by (unfold is_u64, maxUint64; lia). unfold int64_of.
  by rewrite (proj2 (Z.ltb_lt _ _)) by lia.
Qed.

Lemma ReadFull_app n l rest : length l = n → ReadFull n (l ++ rest) = Some (l, rest).
Proof.
  intros <-. unfold ReadFull. rewrite (proj2 (Nat.leb_le _ _)) by (rewrite length_app; lia).
  by rewrite take_app_length, drop_app_length.
Qed.

Lemma ReadFull_Some n stream l rest :
  ReadFull n stream = Some (l, rest) → stream = l ++ rest ∧ length l = n.
Proof.
  unfold ReadFull. destruct (n <=? length stream)%nat eqn:E; [|done]. intros [= <- <-].
  apply Nat.leb_le in E. by rewrite take_drop, length_take_le.
Qed.

(** *** The fields of a header read back *)

Section header_fields.
Context (e : Envelope) (Hwf : wf_envelope e).
Context (Hct : strlen (e_ContentType e) < 256) (Hsc : strlen (e_Schema e) < 256).
Context (Hcap : strlen (e_Capability e) < 2 ^ 16) (Hname : strlen (r_Name (e_Resource e)) < 2 ^ 16).
Context (Hpay : blen (e_Payload e) < 2 ^ 32) (Hdl : 0 ≤ e_DeadlineUnixMS e).

Lemma header_lengths :
  slice 0 4 (frame_header e) = bytes_of FrameMagic ∧
  be 8 9 (frame_header e) = strlen (e_ContentType e) ∧
  be 9 10 (frame_header e) = strlen (e_Schema e) ∧
  be 10 12 (frame_header e) = strlen (e_Capability e) ∧
  be 12 14 (frame_header e) = strlen (r_Name (e_Resource e)) ∧
  be 14 18 (frame_header e) = blen (e_Payload e).
Proof using Hct Hsc Hcap Hname Hpay.
  assert (∀ s, 0 ≤ strlen s) as Hs by apply strlen_nonneg. unfold be, blen in *.
  split; [reflexivity|].
  split; [exact (be_value_byte (strlen (e_ContentType e)) ltac:(split; [apply Hs|lia]))|].
  split; [exact (be_value_byte (strlen (e_Schema e)) ltac:(split; [apply Hs|lia]))|].
  split; [exact (be_value_small 2 (strlen (e_Capability e)) ltac:(split; [apply Hs|exact Hcap]))|].
  split; [exact (be_value_small 2 (strlen (r_Name (e_Resource e))) ltac:(split; [apply Hs|exact Hname]))|].
  exact (be_value_small 4 (Z.of_nat (length (e_Payload e))) ltac:(split; [lia|exact Hpay])).
Qed.

Lemma header_scalars :
  be 4 6 (frame_header e) = e_Version e ∧ be 6 7 (frame_header e) = e_Phase e ∧
  be 7 8 (frame_header e) = e_Operation e ∧ be 58 74 (frame_header e) = e_MessageID e ∧
  be 74 90 (frame_header e) = e_CorrelationID e ∧ be 18 26 (frame_header e) = e_Source e ∧
  be 26 34 (frame_header e) = e_Principal e ∧ be 34 42 (frame_header e) = e_Target e ∧
  be 90 98 (frame_header e) = r_Owner (e_Resource e) ∧
  be 42 50 (frame_header e) = e_TopologyEpoch e ∧
  int64_of (be 50 58 (frame_header e)) = e_DeadlineUnixMS e.
Proof using Hwf Hdl.
  destruct Hwf as (Hv & Hp & Ho & Hm & Hc & Hs & Hpr & Ht & How & Hte & Hd).
  unfold be. unfold is_u64, maxUint64, is_i64 in *.
  split; [exact (be_value_small 2 _ Hv)|]. split; [exact (be_value_byte _ Hp)|].
  split; [exact (be_value_byte _ Ho)|]. split; [exact (be_value_small 16 _ Hm)|].
  split; [exact (be_value_small 16 _ Hc)|].
  split; [apply (be_value_small 8); simpl; lia|]. split; [apply (be_value_small 8); simpl; lia|].
  split; [apply (be_value_small 8); simpl; lia|]. split; [apply (be_value_small 8); simpl; lia|].
  split; [apply (be_value_small 8); simpl; lia|].
  transitivity (int64_of (u64 (e_DeadlineUnixMS e))); [f_equal|apply int64_u64; lia].
  apply (be_value_small 8). pose proof (u64_range (e_DeadlineUnixMS e)) as Hu.
  unfold is_u64, maxUint64 in Hu. simpl. lia.
Qed.
End header_fields.

(** *** The variable-length part reads back *)

Lemma body_fields a b c d p :
  let body := a ++ b ++ c ++ d ++ p in
  let la := length a in let lb := length b in let lc := length c in let ld := length d in
  slice 0 la body = a ∧ slice la (la + lb) body = b ∧ slice (la + lb) (la + lb + lc) body = c ∧
  slice (la + lb + lc) (la + lb + lc + ld) body = d ∧
  slice (la + lb + lc + ld) (la + lb + lc + ld + length p) body = p.
Proof.
  assert (∀ x y (l1 l2 l3 : list byte), x = length l1 → y = (x + length l2)%nat →
            slice x y (l1 ++ l2 ++ l3) = l2) as Hmid.
  { intros x y l1 l2 l3 -> ->. unfold slice. rewrite drop_app_length.
    replace (length l1 + length l2 - length l1)%nat with (length l2) by lia. apply take_app_length. }
  cbv zeta. split_and!.
  - by apply (Hmid _ _ [] a).
  - by apply Hmid.
  - rewrite !(assoc_L (++) a). apply Hmid; rewrite ?length_app; lia.
  - rewrite (assoc_L (++) b), (assoc_L (++) a). apply Hmid; rewrite ?length_app; lia.
  - rewrite <- (app_nil_r p) at 2. rewrite (assoc_L (++) c), (assoc_L (++) b), (assoc_L (++) a).
    apply Hmid; rewrite ?length_app; lia.
Qed.

Lemma blen_body e :
  blen (frame_body e) = strlen (e_ContentType e) + strlen (e_Schema e) + strlen (e_Capability e)
                        + strlen (r_Name (e_Resource e)) + blen (e_Payload e).
Proof. unfold blen, frame_body, strlen. rewrite !length_app. lia. Qed.

Lemma payloadLimit_pos c : 0 < payloadLimit c.
Proof. unfold payloadLimit. by destruct (c_MaxPayload c <=? 0) eqn:E; bool_prop. Qed.

Lemma effective_payloadLimit c : effective_max (payloadLimit c) = payloadLimit c.
Proof. unfold effective_max. pose proof (payloadLimit_pos c). by rewrite (proj2 (Z.leb_gt _ _)) by lia. Qed.

Lemma encode_frame_ok c e frame :
  encode_frame c e = Ok frame ↔
  valid_envelope e (payloadLimit c) ∧ blen (e_Payload e) ≤ maxUint32 ∧
  blen (e_Payload e) ≤ maxInt - metadataSize e ∧ frame = frame_header e ++ frame_body e.
Proof.
  unfold encode_frame. rewrite <- Envelope_Validate_ok.
  destruct (Envelope_Validate e (payloadLimit c)) as [[]|] eqn:E; simpl; [|naive_solver].
  rewrite !fail_if_ok, !Z.ltb_ge. naive_solver.
Qed.

Lemma strlen_nat s : Z.to_nat (strlen s) = length (bytes_of s).
Proof. unfold strlen. lia. Qed.

(** Decoding the two parts of a frame of a valid envelope. *)
Lemma Decode_frame c e rest :
  wf_envelope e → valid_envelope e (payloadLimit c) → blen (e_Payload e) ≤ maxUint32 →
  Decode c (frame_header e ++ frame_body e ++ rest) = Ok (e, rest).
Proof.
  intros Hwf Hval Hp. pose proof (valid_name_len _ _ Hval) as Hn.
  destruct (id Hval) as (_ & _ & _ & _ & _ & _ & _ & _ & _ & Hdl & Hct & Hsc & Hcap & Hpl).
  rewrite effective_payloadLimit in Hpl. fold (blen (e_Payload e)) in Hpl.
  pose proof Hct as Hct'. pose proof Hsc as Hsc'. pose proof Hcap as Hcap'. pose proof Hn as Hn'.
  unfold MaxContentTypeBytes, MaxSchemaBytes, MaxCapabilityBytes, MaxResourceNameBytes, maxUint32 in *.
  destruct (header_lengths e) as (Hm & L1 & L2 & L3 & L4 & L5); [lia..|].
  destruct (header_scalars e Hwf Hdl) as (S1 & S2 & S3 & S4 & S5 & S6 & S7 & S8 & S9 & S10 & S11).
  unfold Decode. rewrite (ReadFull_app 98), Hm by apply length_frame_header.
  rewrite bool_decide_eq_true_2 by done. cbn [negb].
  rewrite L1, L2, L3, L4, L5. cbv zeta.
  unfold MaxContentTypeBytes, MaxSchemaBytes, MaxCapabilityBytes, MaxResourceNameBytes.
  rewrite !(proj2 (Z.ltb_ge _ _)) by lia. cbn [orb].
  rewrite <- blen_body. unfold blen at 1. rewrite Nat2Z.id, ReadFull_app by done.
  rewrite !strlen_nat. unfold blen at 1 2. rewrite Nat2Z.id.
  destruct (body_fields (bytes_of (e_ContentType e)) (bytes_of (e_Schema e)) (bytes_of (e_Capability e))
              (bytes_of (r_Name (e_Resource e))) (e_Payload e)) as (B1 & B2 & B3 & B4 & B5).
  unfold frame_body. rewrite B1, B2, B3, B4, B5, S1, S2, S3, S4, S5, S6, S7, S8, S9, S10, S11.
  rewrite !string_of_bytes_of.
  replace (mkEnvelope _ _ _ _ _ _ _ _ _ _ _ _ _ _ _) with e by (by destruct e as [????????[??]??????]).
  by rewrite (proj2 (Envelope_Validate_ok e (payloadLimit c))).
Qed.

(** *** A decoded frame is the frame of its envelope *)

Lemma be_bytes_slice a b n h :
  (a ≤ b)%nat → (b ≤ length h)%nat → n = (b - a)%nat → be_bytes n (be a b h) = slice a b h.
Proof. intros ?? ->. apply be_bytes_be_value, length_slice. lia. Qed.

Lemma byte_slice a b h : (b = a + 1)%nat → (b ≤ length h)%nat → [byte_of (be a b h)] = slice a b h.
Proof.
  intros -> Hb. assert (length (slice a (a + 1) h) = 1%nat) as Hl by (rewrite length_slice; lia).
  unfold be. destruct (slice a (a + 1) h) as [|x [|]]; try done.
  change (be_value [x]) with (bval x). by rewrite byte_of_bval.
Qed.

Lemma u64_int64_of z : 0 ≤ z < 2 ^ 64 → u64 (int64_of z) = z.
Proof.
  intros Hz. unfold u64, int64_of. destruct (z <? 2 ^ 63) eqn:E; bool_prop.
  - by rewrite Z.mod_small by lia.
  - replace (z - 2 ^ 64) with (z + (-1) * 2 ^ 64) by lia. rewrite Z.mod_add by lia.
    apply Z.mod_small. lia.
Qed.

Lemma be_range a b h : (a ≤ b ≤ length h)%nat → 0 ≤ be a b h < 256 ^ Z.of_nat (b - a).
Proof. intros H. unfold be. rewrite <- (length_slice a b h H). apply be_value_range. Qed.

Lemma strlen_slice a b l :
  (a ≤ b ≤ length l)%nat → strlen (String.string_of_list_byte (slice a b l)) = Z.of_nat (b - a).
Proof. intros H. unfold strlen. by rewrite bytes_of_string_of, length_slice. Qed.

(** The slices of a 98-byte header, put together again. *)
Lemma header_parts h :
  length h = 98%nat →
  slice 0 4 h ++ slice 4 6 h ++ slice 6 7 h ++ slice 7 8 h ++ slice 8 9 h ++ slice 9 10 h ++
  slice 10 12 h ++ slice 12 14 h ++ slice 14 18 h ++ slice 18 26 h ++ slice 26 34 h ++ slice 34 42 h ++
  slice 42 50 h ++ slice 50 58 h ++ slice 58 74 h ++ slice 74 90 h ++ slice 90 98 h = h.
Proof. intros Hl. rewrite !slice_join by lia. by apply slice_full. Qed.

(** Encoding then decoding returns the envelope and leaves the rest of the stream: every
    envelope that [Encode] accepts is decoded unchanged by the peer with the same limit. *)
Theorem Decode_Encode (c : Codec) (e : Envelope) (frame rest : list byte) :
  wf_envelope e → encode_frame c e = Ok frame → Decode c (frame ++ rest) = Ok (e, rest).
Proof.
  intros Hwf (Hval & Hp & _ & ->)%encode_frame_ok. rewrite <- (assoc_L (++)).
  by apply Decode_frame.
Qed.

(** An envelope built from a header and a body, as [Decode] builds it. *)
Lemma decoded_header h body e :
  length h = 98%nat → slice 0 4 h = bytes_of FrameMagic →
  e_Version e = be 4 6 h → e_Phase e = be 6 7 h → e_Operation e = be 7 8 h →
  strlen (e_ContentType e) = be 8 9 h → strlen (e_Schema e) = be 9 10 h →
  strlen (e_Capability e) = be 10 12 h → strlen (r_Name (e_Resource e)) = be 12 14 h →
  blen (e_Payload e) = be 14 18 h → e_Source e = be 18 26 h → e_Principal e = be 26 34 h →
  e_Target e = be 34 42 h → e_TopologyEpoch e = be 42 50 h →
  e_DeadlineUnixMS e = int64_of (be 50 58 h) → e_MessageID e = be 58 74 h →
  e_CorrelationID e = be 74 90 h → r_Owner (e_Resource e) = be 90 98 h → frame_body e = body →
  frame_header e = h ∧ wf_envelope e ∧ blen (e_Payload e) ≤ maxUint32.
Proof.
  intros Hl Hm E1 E2 E3 E4 E5 E6 E7 E8 E9 E10 E11 E12 E13 E14 E15 E16 Hb.
  assert (0 ≤ be 50 58 h < 2 ^ 64) as Hd by (apply (be_range 50 58); lia).
  split_and!.
  - unfold frame_header. rewrite <- Hm, E1, E2, E3, E4, E5, E6, E7, E8, E9, E10, E11, E12, E13, E14, E15, E16.
    rewrite u64_int64_of by done.
    rewrite !be_bytes_slice, !byte_slice by (lia || done). by apply header_parts.
  - unfold wf_envelope. rewrite E1, E2, E3, E9, E10, E11, E12, E13, E14, E15, E16.
    unfold is_u64, is_i64, maxUint64, int64_of.
    repeat match goal with |- context [be ?a ?b h] =>
      let H := fresh in pose proof (be_range a b h ltac:(lia)) as H; simpl in H;
      generalize dependent (be a b h); intros end.
    repeat case_match; bool_prop; lia.
  - rewrite E8. pose proof (be_range 14 18 h ltac:(lia)) as H. simpl in H. unfold maxUint32. lia.
Qed.

(** What a successful [Decode] read: a header, a body and the rest. *)
Lemma Decode_inv c stream e rest :
  Decode c stream = Ok (e, rest) →
  stream = (frame_header e ++ frame_body e) ++ rest ∧ wf_envelope e ∧
  valid_envelope e (payloadLimit c) ∧ blen (e_Payload e) ≤ maxUint32.
Proof.
  unfold Decode. destruct (ReadFull 98 stream) as [[h s1]|] eqn:R1; [|done].
  apply ReadFull_Some in R1 as [-> Hh]. intros H.
  apply fail_if_ok in H as [Hm H]. cbv zeta in H.
  apply fail_if_ok in H as [_ H]. apply fail_if_ok in H as [_ H].
  destruct (ReadFull _ s1) as [[body s2]|] eqn:R2; [|done].
  apply ReadFull_Some in R2 as [-> Hb].
  match type of H with (mapErr _ (Envelope_Validate ?e0 _) ≫= _) = _ =>
    destruct (Envelope_Validate e0 (payloadLimit c)) as [[]|] eqn:V; [|done];
    simpl in H; injection H as <- <- end.
  apply Envelope_Validate_ok in V.
  pose proof (be_range 8 9 h ltac:(lia)). pose proof (be_range 9 10 h ltac:(lia)).
  pose proof (be_range 10 12 h ltac:(lia)). pose proof (be_range 12 14 h ltac:(lia)).
  pose proof (be_range 14 18 h ltac:(lia)).
  set (cl := be 8 9 h) in *. set (sl := be 9 10 h) in *. set (pl := be 10 12 h) in *.
  set (nl := be 12 14 h) in *. set (dl := be 14 18 h) in *.
  match type of V with valid_envelope ?e0 _ => set (e := e0) in * end.
  assert (frame_body e = body) as Hbody.
  { unfold frame_body, e. cbn [e_ContentType e_Schema e_Capability e_Resource r_Name e_Payload].
    rewrite !bytes_of_string_of, !slice_join by lia. apply slice_full. lia. }
  destruct (decoded_header h body e) as (E & Hwf & Hp); try done.
  all: try (unfold e; cbn [e_ContentType e_Schema e_Capability e_Resource r_Name e_Payload];
            rewrite strlen_slice by lia; lia).
  - by bool_prop.
  - unfold e, blen. cbn [e_Payload]. rewrite length_slice by lia. lia.
  - by rewrite E, Hbody, (assoc_L (++)).
Qed.

(** C6. The wire form is canonical and self-delimiting: what [Decode] accepts is exactly the
    frame that [Encode] produces for the envelope it returns, followed by the unread rest, and
    the envelope is well formed and valid. *)
Theorem Decode_canonical (c : Codec) (stream rest : list byte) (e : Envelope) :
  Decode c stream = Ok (e, rest) ↔
  wf_envelope e ∧ ∃ frame, encode_frame c e = Ok frame ∧ stream = frame ++ rest.
Proof.
  split.
  - intros (-> & Hwf & Hval & Hp)%Decode_inv. split; [done|].
    eexists. split; [|done]. apply encode_frame_ok. split_and!; try done.
    pose proof (valid_name_len _ _ Hval). destruct Hval as (_&_&_&_&_&_&_&_&_&_&?&?&?&_).
    unfold metadataSize, maxInt, fixedHeaderSize, maxUint32, MaxContentTypeBytes, MaxSchemaBytes,
      MaxCapabilityBytes, MaxResourceNameBytes in *. lia.
  - intros (Hwf & frame & (Hval & Hp & _ & ->)%encode_frame_ok & ->).
    rewrite <- (assoc_L (++)). by apply Decode_frame.
Qed.

(** Whatever bytes a peer sends, a decoded frame occupies at most 863 + the payload limit
    bytes: the header, the four bounded metadata strings and a payload within the limit. *)
Theorem Decode_bounded (c : Codec) (stream rest : list byte) (e : Envelope) :
  Decode c stream = Ok (e, rest) →
  blen stream - blen rest ≤ 98 + 127 + 255 + 128 + 255 + payloadLimit c ∧ valid_envelope e (payloadLimit c).
Proof.
  intros (-> & Hwf & Hval & Hp)%Decode_inv. split; [|done].
  pose proof (blen_body e) as Hb. pose proof (valid_name_len _ _ Hval).
  destruct Hval as (_&_&_&_&_&_&_&_&_&_&?&?&?&Hpl). rewrite effective_payloadLimit in Hpl.
  unfold blen in *. rewrite !length_app, length_frame_header.
  unfold MaxContentTypeBytes, MaxSchemaBytes, MaxCapabilityBytes, MaxResourceNameBytes in *. lia.
Qed.

(** *** Writers *)

Section writers.
Context `{Writer W}.

Lemma write_loop_spec fuel w data :
  (length data ≤ fuel)%nat →
  ∃ w' r sent rest, write_loop fuel w data = Some (w', r) ∧ data = sent ++ rest ∧
    (r ≠ Err CWriterCount → sink w' = sink w ++ sent) ∧ (r = Ok tt → rest = []).
Proof.
  revert w data. induction fuel as [|fuel IH]; intros w data Hf.
  - destruct data; [|simpl in Hf; lia]. exists w, (Ok tt), [], []. simpl.
    split_and!; try done. intros _. by rewrite app_nil_r.
  - destruct data as [|b data].
    { exists w, (Ok tt), [], []. split_and!; try done. intros _. by rewrite app_nil_r. }
    cbn [write_loop]. destruct (write w (b :: data)) as [[w1 n] err] eqn:Ew.
    destruct ((n <? 0) || (blen (b :: data) <? n)) eqn:Er.
    { exists w1, (Err CWriterCount), [], (b :: data). done. }
    bool_prop. pose proof (write_sink _ _ _ _ _ Ew ltac:(lia)) as Hs.
    destruct err; [|destruct (n =? 0) eqn:En; bool_prop].
    + exists w1, (Err CWriterError), (take (Z.to_nat n) (b :: data)), (drop (Z.to_nat n) (b :: data)).
      by rewrite take_drop.
    + subst n. exists w1, (Err CNoProgress), [], (b :: data). done.
    + destruct (IH w1 (drop (Z.to_nat n) (b :: data))) as (w' & r & sent & rest & E & Hd & Hsk & Hr).
      { rewrite length_drop. simpl in Hf |- *. lia. }
      exists w', r, (take (Z.to_nat n) (b :: data) ++ sent), rest. split_and!; [done|..|done].
      * by rewrite <- (assoc_L (++)), <- Hd, take_drop.
      * intros Hne. rewrite Hsk, Hs by done. by rewrite (assoc_L (++)).
Qed.
End writers.

(** [Encode] always returns, whatever the writer does (short writes, errors, no progress),
    and when it reports success the writer received exactly the frame, each byte once and in
    order. *)
Theorem Encode_writes `{Writer W} (c : Codec) (w : W) (e : Envelope) :
  ∃ w' r, Encode c w e = Some (w', r) ∧
    (r = Ok tt → ∃ frame, encode_frame c e = Ok frame ∧ sink w' = sink w ++ frame).
Proof.
  unfold Encode. destruct (encode_frame c e) as [frame|err] eqn:E; [|by exists w, (Err err)].
  destruct (write_loop_spec (length frame) w frame) as (w' & r & sent & rest & El & Hd & Hs & Hr); [done|].
  exists w', r. split; [done|]. intros ->. exists frame. split; [done|].
  rewrite Hr in Hd by done. rewrite app_nil_r in Hd. subst. by apply Hs.
Qed.

(** ** Witnesses *)

(** A writer that follows a script of (count, failed) answers, then takes everything. *)
#[global] Program Instance scripted_writer : Writer (list byte * list (Z * bool)) := {
  write w p :=
    match w.2 with
    | [] => ((w.1 ++ p, []), blen p, false)
    | (n, err) :: r => ((w.1 ++ take (Z.to_nat n) p, r), n, err)
    end;
  sink w := w.1
}.
Next Obligation.
  intros [s sched] p w' n err. simpl. intros Hw Hn. destruct sched as [|[k f] r]; simplify_eq; simpl.
  - f_equal. unfold blen. rewrite Nat2Z.id. by rewrite firstn_all.
  - done.
Qed.

Definition sample_envelope : Envelope :=
  mkEnvelope 2 PhaseRequest OperationSubscribe 7 0 5 0 9 (mkResourceID 9 "clip/text") 3 1000
    "application/json" "mfh.subscribe.v2" "subscribe" (bytes_of "{}").

Definition sample_frame : list byte := frame_header sample_envelope ++ frame_body sample_envelope.

Lemma Decode_Encode_witness : Decode (mkCodec 0) (sample_frame ++ [x00; x01]) = Ok (sample_envelope, [x00; x01]).
Proof. apply (Decode_Encode (mkCodec 0) sample_envelope sample_frame); vm_compute; repeat split; congruence. Defined.

Lemma Decode_bounded_witness :
  blen (sample_frame ++ [x00]) - blen [x00] ≤ 98 + 127 + 255 + 128 + 255 + payloadLimit (mkCodec 16) ∧
  valid_envelope sample_envelope (payloadLimit (mkCodec 16)).
Proof. apply (Decode_bounded (mkCodec 16) (sample_frame ++ [x00]) [x00]). vm_compute. reflexivity. Defined.

Lemma Encode_writes_witness :
  ∃ w' r, Encode (mkCodec 0) ([], [(3, false); (40, false)]) sample_envelope = Some (w', r) ∧
    (r = Ok tt → ∃ frame, encode_frame (mkCodec 0) sample_envelope = Ok frame ∧ sink w' = [] ++ frame).
Proof. exact (Encode_writes (mkCodec 0) ([], [(3, false); (40, false)]) sample_envelope). Defined.
