(* ===== verification/Payload.v ===== *)
(** * JSON payloads (protocol/payload.go)

    [EncodeJSONPayload] and [DecodeJSONPayload] for every validated type, with the round trip;
    the tactics that prove it for a struct given by its fields. *)

From S2P Require Import Prelude GoStd GoSort GoEncoding GoJSON GoFloat GoStruct Wire Codec.
Open Scope Z_scope.

Inductive payload_error := PInvalid | PSize (e : wire_error) | PJSON.

(** The interface [ValidatedPayload]. *)
Class ValidatedPayload (A : Type) := { InvalidPayload : Type; Validate : A → result InvalidPayload unit }.

Definition EncodeJSONPayload `{JSONStruct A, ValidatedPayload A} (value : A) (maxBytes : Z) : result payload_error (list byte) :=
  _ ← mapErr (λ _, PInvalid) (Validate value);
  let data := json_Marshal value in
  _ ← mapErr PSize (validatePayloadSize (blen data) maxBytes);
  Ok data.
Definition DecodeJSONPayload `{JSONStruct A, ValidatedPayload A} (data : list byte) (maxBytes : Z) : result payload_error A :=
  _ ← mapErr PSize (validatePayloadSize (blen data) maxBytes);
  match json_Unmarshal data with
  | None => Err PJSON
  | Some target => _ ← mapErr (λ _, PInvalid) (Validate target); Ok target
  end.

(** ** What is encoded is decoded *)

(** The values that encoding/json keeps: valid text, integers in the range of their type. *)
Class JSONValue (A : Type) `{JSONStruct A} := {
  js_ok : A → Prop;
  js_text a : js_ok a → json_ok (AObject (js_fields a)) = true ∧ nesting (AObject (js_fields a)) ≤ maxNestingDepth;
  js_members a : js_ok a → decode_members js_spec js_zero (js_fields a) = Some a
}.
Lemma payload_roundtrip `{JSONValue A, ValidatedPayload A} (value : A) (maxBytes : Z) (data : list byte) :
  js_ok value → EncodeJSONPayload value maxBytes = Ok data → DecodeJSONPayload data maxBytes = Ok value.
Proof.
  intros Hv He. unfold EncodeJSONPayload in He. apply bind_ok in He as [Hval He]. apply bind_ok in He as [Hs He]. simplify_eq.
  unfold DecodeJSONPayload. rewrite Hs. simpl. destruct (js_text value Hv). rewrite json_roundtrip; [|done|done|by apply js_members]. by rewrite Hval.
Qed.
Lemma encoded_valid `{JSONStruct A, ValidatedPayload A} (value : A) (maxBytes : Z) (data : list byte) :
  EncodeJSONPayload value maxBytes = Ok data → Validate value = Ok tt ∧ data ≠ [] ∧ blen data ≤ (if maxBytes <=? 0 then DefaultMaxPayload else maxBytes).
Proof.
  unfold EncodeJSONPayload. intros He. apply bind_ok in He as [Hval He]. apply bind_ok in He as [Hs He]. simplify_eq. apply mapErr_ok in Hval, Hs.
  unfold validatePayloadSize in Hs. guards Hs. bool_prop. split_and!; [done| |done]. intros E. by rewrite E in *.
Qed.

Lemma decode_step {A} (spec : list (string * assignment A)) a key v rest f a' :
  find_field spec key = Some f → f a v = Some a' → decode_members spec a ((key, v) :: rest) = decode_members spec a' rest.
Proof. intros Hf Ha. simpl. rewrite Hf. simpl. by rewrite Ha. Qed.
(** Split on the fields that are left out; decode member by member. *)
Ltac omitted :=
  unfold text_field, flag_field, field_opt, member_if, member;
  repeat match goal with |- context [String.eqb ?x ""] => destruct (String.eqb_spec x "") end.
Ltac assign :=
  match goal with
  | |- assign_int _ _ (int_any _) = _ => by apply assign_int_any
  | |- assign_uint _ _ (int_any _) = _ => by apply assign_uint_any
  | |- assign_string _ _ (AString _) = _ => reflexivity
  | |- assign_bool _ _ (ABool _) = _ => reflexivity
  end.
Ltac find_it := lazy -[assign_int assign_uint assign_string assign_bool assign_pointer assign_map assign_slice]; reflexivity.
Ltac decode_all r :=
  cbn [app negb]; repeat (erewrite decode_step; [|find_it|assign]);
  cbn [decode_members]; destruct r; simpl in *; subst; reflexivity.
Definition valid (s : string) : Prop := ValidString s = true.
Lemma members_ok l : Forall (λ kv : string * any, ValidString kv.1 = true ∧ json_ok kv.2 = true) l → json_ok (AObject l) = true.
Proof. intros Hl. cbn [json_ok]. apply forallb_forall. intros kv Hkv%list_elem_of_In. rewrite Forall_forall in Hl. apply Hl in Hkv as [H1 H2]. by rewrite H1, H2. Qed.
Ltac text_all := cbn [app negb]; apply members_ok; repeat (apply Forall_cons_2; [split; [reflexivity|first [assumption|reflexivity|by apply int_any_ok; left|by apply int_any_ok; right]]|]); apply Forall_nil_2.
Ltac split_valid H := repeat (apply Forall_cons in H as [? H]); unfold valid in *.

Lemma assign_pointer_any `{JSONValue B} {A} (get : A → option B) (set : A → option B → A) a b :
  get a = None → js_ok b → assign_pointer js_spec js_zero get set a (AObject (js_fields b)) = Some (set a (Some b)).
Proof. intros Ha Hb. unfold assign_pointer. simpl. rewrite Ha. simpl. by rewrite js_members. Qed.
Lemma slice_text `{JSONValue B} (l : list B) (n : Z) : (∀ b : B, nesting (AObject (js_fields b)) ≤ n) → Forall js_ok l →
  json_ok (slice_any js_fields l) = true ∧ nesting (slice_any js_fields l) ≤ 1 + Z.max 0 n.
Proof.
  intros Hn Hl. unfold slice_any. cbn [json_ok nesting]. split.
  - apply forallb_forall. intros v Hv%list_elem_of_In. apply list_elem_of_fmap in Hv as (b & -> & Hb). rewrite Forall_forall in Hl. by apply js_text, Hl.
  - clear Hl. induction l as [|b l IH]; cbn [fmap list_fmap foldr]; [lia|]. pose proof (Hn b). lia.
Qed.
Lemma decode_items_any `{JSONValue B} (l : list B) : Forall js_ok l → decode_items js_spec js_zero [] ((λ b, AObject (js_fields b)) <$> l) = Some l.
Proof. induction 1 as [|b l Hb _ IH]; [done|]. cbn [fmap list_fmap decode_items head tail default decode_struct]. rewrite js_members by done. cbn [mbind option_bind]. by rewrite IH. Qed.
Lemma assign_slice_any `{JSONValue B} {A} (get : A → list B) (set : A → list B → A) a l :
  get a = [] → Forall js_ok l → assign_slice js_spec js_zero get set a (slice_any js_fields l) = Some (set a l).
Proof. intros Ha Hl. unfold assign_slice, slice_any. by rewrite Ha, decode_items_any. Qed.

(** ** A record that is small enough *)

Lemma payload_fits `{JSONStruct A, ValidatedPayload A} (v : A) maxBytes :
  Validate v = Ok tt → 1 + members_size (js_fields v) ≤ maxBytes → EncodeJSONPayload v maxBytes = Ok (json_Marshal v).
Proof.
  intros Hv Hs. unfold EncodeJSONPayload. rewrite Hv. cbn [mbind result_bind mapErr]. unfold validatePayloadSize, blen.
  pose proof (json_Marshal_size v). assert (0 < Z.of_nat (length (json_Marshal v))) by (unfold json_Marshal; simpl; lia).
  rewrite (proj2 (Z.leb_gt _ _)) by lia. rewrite (proj2 (Z.eqb_neq _ _)), (proj2 (Z.ltb_ge _ _)) by lia. done.
Qed.
(** Bounds for the members of a record. *)
Ltac literals :=
  repeat match goal with
  | |- context [strlen (String ?a ?s)] => let n := eval vm_compute in (strlen (String a s)) in change (strlen (String a s)) with n in *
  | H : context [strlen (String ?a ?s)] |- _ => let n := eval vm_compute in (strlen (String a s)) in change (strlen (String a s)) with n in *
  end.
Ltac size_facts :=
  repeat match goal with
  | |- context [length (print (AString ?s))] => change (print (AString s)) with (json_quote s); pose proof (quote_size s); generalize dependent (length (json_quote s)); intros
  | |- context [length (print (int_any ?z))] => pose proof (int_size z); generalize dependent (length (print (int_any z))); intros
  end.
Ltac sized := unfold members_size, member_size, text_field, member_if, member; repeat case_match; cbn [app foldr fst snd]; size_facts; literals.
