(* ===== verification/Tree.v ===== *)
(** * The node tree (runtime/tree)

    Models runtime/tree/tree.go and topology_snapshot.go: the single-parent topology a
    node keeps, its routes, and the two version counters.  Every exported method holds the
    state lock for its whole body, so one method call is one step; a method that fails
    leaves the state unchanged.  Go maps are [gmap]s; a read of an absent key yields the
    zero value ([mget]).  The order in which a [range] visits a map is not specified by
    Go; where a method returns such an enumeration the model returns one enumeration and
    the theorems speak about its elements. *)

From stdpp Require Import sorting relations.
From S2P Require Import Prelude GoStd Wire.
Open Scope Z_scope.

Inductive tree_error :=
| ErrInvalidNode      (* NodeID.Validate *)
| ErrZeroEpoch        (* parent/child epoch must be non-zero *)
| ErrParentExists | ErrChildExists | ErrCycle | ErrRouteConflict
| ErrNotReachable | ErrStaleEpoch | ErrForgedSource
| ErrDirectChild.     (* direct child must be withdrawn with WithdrawChild *)

#[global] Instance tree_error_eq_dec : EqDecision tree_error.
Proof. solve_decision. Defined.

Inductive Direction := DirectionLocal | DirectionUp | DirectionDown.
#[global] Instance Direction_eq_dec : EqDecision Direction.
Proof. solve_decision. Defined.

Record Edge := mkEdge { ed_Node : NodeID; ed_Epoch : Z }.
#[global] Instance Edge_eq_dec : EqDecision Edge.
Proof. solve_decision. Defined.

Record Route := mkRoute { rt_Target : NodeID; rt_NextHop : NodeID; rt_Epoch : Z; rt_Kind : Direction }.

Record State := mkState {
  s_local : NodeID;
  s_parent : option Edge;
  s_children : gmap NodeID Edge;
  s_routes : gmap NodeID NodeID;
  s_parents : gmap NodeID NodeID;
  s_epoch : Z;
  s_membershipEpoch : Z
}.
#[global] Instance State_eq_dec : EqDecision State.
Proof. solve_decision. Defined.

Definition checkNode (id : NodeID) : result tree_error unit :=
  mapErr (λ _, ErrInvalidNode) (NodeID_Validate id).

Definition New (local : NodeID) : result tree_error State :=
  _ ← checkNode local;
  Ok (mkState local None ∅ ∅ ∅ 0 1).

Definition NextEpoch (s : State) : Z := u64 (s_epoch s + 1).
Definition Parent (s : State) : option Edge := s_parent s.

(** [bumpMembershipEpochLocked]: the counter saturates instead of wrapping. *)
Definition bump (m : Z) : Z := if m =? maxUint64 then m else m + 1.

(** The three maps replaced, the membership counter advanced. *)
Definition with_members (s : State) (children : gmap NodeID Edge) (routes parents : gmap NodeID NodeID) : State :=
  mkState (s_local s) (s_parent s) children routes parents (s_epoch s) (bump (s_membershipEpoch s)).
(** The parent edge and the link generation replaced, the membership counter advanced. *)
Definition with_parent (s : State) (parent : option Edge) (epoch : Z) : State :=
  mkState (s_local s) parent (s_children s) (s_routes s) (s_parents s) epoch (bump (s_membershipEpoch s)).

Definition wouldCycle (s : State) (parent : NodeID) : bool :=
  (parent =? s_local s) || negb (mget (s_routes s) parent =? 0).

Definition AttachParent (s : State) (parent : NodeID) : result tree_error (State * Z) :=
  _ ← checkNode parent;
  fail_if wouldCycle s parent with ErrCycle ;;
  fail_if bool_decide (is_Some (s_parent s)) with ErrParentExists ;;
  let epoch := u64 (s_epoch s + 1) in
  Ok (with_parent s (Some (mkEdge parent epoch)) epoch, epoch).

Definition Reparent (s : State) (parent : NodeID) : result tree_error (State * Z) :=
  _ ← checkNode parent;
  fail_if wouldCycle s parent with ErrCycle ;;
  let epoch := u64 (s_epoch s + 1) in
  Ok (with_parent s (Some (mkEdge parent epoch)) epoch, epoch).

Definition ActivateParent (s : State) (parent : NodeID) (epoch : Z) : result tree_error State :=
  _ ← checkNode parent;
  fail_if epoch =? 0 with ErrZeroEpoch ;;
  fail_if wouldCycle s parent with ErrCycle ;;
  fail_if (epoch <? s_epoch s) || ((epoch =? s_epoch s) && bool_decide (is_Some (s_parent s)))
    with ErrStaleEpoch ;;
  Ok (with_parent s (Some (mkEdge parent epoch)) epoch).

Definition ReattachChild (s : State) (child : NodeID) (epoch : Z) : result tree_error State :=
  fail_if epoch =? 0 with ErrZeroEpoch ;;
  match s_children s !! child with
  | None => Err ErrNotReachable
  | Some current =>
    fail_if epoch <=? ed_Epoch current with ErrStaleEpoch ;;
    Ok (with_members s (<[child := mkEdge child epoch]> (s_children s)) (s_routes s) (s_parents s))
  end.

Definition DetachParent (s : State) (parent : NodeID) : State * bool :=
  match s_parent s with
  | None => (s, false)
  | Some e =>
    if negb (ed_Node e =? parent) then (s, false)
    else (with_parent s None (u64 (s_epoch s + 1)), true)
  end.

Definition DetachParentEpoch (s : State) (parent : NodeID) (epoch : Z) : State * bool :=
  match s_parent s with
  | None => (s, false)
  | Some e =>
    if negb (ed_Node e =? parent) || negb (ed_Epoch e =? epoch) then (s, false)
    else (with_parent s None (u64 (s_epoch s + 1)), true)
  end.

Definition isParentNode (s : State) (node : NodeID) : bool :=
  match s_parent s with Some e => node =? ed_Node e | None => false end.

Definition AttachChild (s : State) (child : NodeID) (epoch : Z) : result tree_error State :=
  _ ← checkNode child;
  fail_if epoch =? 0 with ErrZeroEpoch ;;
  fail_if (child =? s_local s) || isParentNode s child with ErrCycle ;;
  fail_if bool_decide (is_Some (s_children s !! child)) with ErrChildExists ;;
  fail_if negb (mget (s_routes s) child =? 0) with ErrRouteConflict ;;
  Ok (with_members s (<[child := mkEdge child epoch]> (s_children s))
        (<[child := child]> (s_routes s)) (<[child := s_local s]> (s_parents s))).

Definition ChildEpoch (s : State) (child : NodeID) : Z * bool :=
  match s_children s !! child with Some e => (ed_Epoch e, true) | None => (0, false) end.

Definition AnnounceWithParent (s : State) (via descendant parent : NodeID) (edgeEpoch : Z)
    : result tree_error State :=
  _ ← checkNode descendant;
  _ ← checkNode parent;
  match s_children s !! via with
  | None => Err ErrNotReachable
  | Some edge =>
    fail_if negb (ed_Epoch edge =? edgeEpoch) with ErrStaleEpoch ;;
    fail_if (descendant =? s_local s) || isParentNode s descendant with ErrCycle ;;
    fail_if (parent =? descendant) || (negb (parent =? via) && negb (mget (s_routes s) parent =? via))
      with ErrForgedSource ;;
    fail_if match s_children s !! descendant with
            | Some child => negb (ed_Node child =? via)
            | None => false
            end with ErrRouteConflict ;;
    let current := mget (s_routes s) descendant in
    fail_if negb (current =? 0) && negb (current =? via) with ErrRouteConflict ;;
    Ok (with_members s (s_children s) (<[descendant := via]> (s_routes s))
          (<[descendant := parent]> (s_parents s)))
  end.

Definition Announce (s : State) (via descendant : NodeID) (edgeEpoch : Z) : result tree_error State :=
  AnnounceWithParent s via descendant via edgeEpoch.

(** The targets a child's withdrawal removes. *)
Definition routedVia (s : State) (child : NodeID) : list NodeID :=
  (map_to_list (filter (λ kv, kv.2 = child) (s_routes s))).*1.

Definition withdrawChildLocked (s : State) (child : NodeID) : State * list NodeID :=
  match s_children s !! child with
  | None => (s, [])
  | Some _ =>
    let removed := routedVia s child in
    (with_members s (delete child (s_children s)) (foldr delete (s_routes s) removed)
       (foldr delete (delete child (s_parents s)) removed), removed)
  end.

Definition WithdrawChild (s : State) (child : NodeID) : State * list NodeID := withdrawChildLocked s child.

Definition WithdrawChildEpoch (s : State) (child : NodeID) (epoch : Z) : State * list NodeID :=
  match s_children s !! child with
  | None => (s, [])
  | Some edge => if negb (ed_Epoch edge =? epoch) then (s, []) else withdrawChildLocked s child
  end.

Definition WithdrawRoute (s : State) (via descendant : NodeID) (edgeEpoch : Z) : result tree_error State :=
  match s_children s !! via with
  | None => Err ErrNotReachable
  | Some edge =>
    fail_if negb (ed_Epoch edge =? edgeEpoch) with ErrStaleEpoch ;;
    fail_if descendant =? via with ErrDirectChild ;;
    fail_if negb (mget (s_routes s) descendant =? via) with ErrNotReachable ;;
    Ok (with_members s (s_children s) (delete descendant (s_routes s)) (delete descendant (s_parents s)))
  end.

(** ** Queries *)

Definition reachable (s : State) (node : NodeID) : bool :=
  (node =? s_local s) || negb (mget (s_routes s) node =? 0).

(** The upward walk of [ScopeContains]; [None] when [fuel] iterations did not finish it. *)
Fixpoint scope_walk (fuel : nat) (s : State) (anchor current : NodeID) : option bool :=
  match fuel with
  | O => None
  | S fuel =>
    if current =? anchor then Some true
    else if current =? s_local s then Some false
    else let parent := mget (s_parents s) current in
         if (parent =? 0) || (parent =? current) then Some false
         else scope_walk fuel s anchor parent
  end.

Definition ScopeContains (fuel : nat) (s : State) (anchor candidate : NodeID)
    : result tree_error (option (bool * Z)) :=
  _ ← checkNode anchor;
  _ ← checkNode candidate;
  if negb (reachable s anchor) || negb (reachable s candidate) then Ok (Some (false, s_membershipEpoch s))
  else Ok ((λ b, (b, s_membershipEpoch s)) <$> scope_walk fuel s anchor candidate).

Definition ValidateSource (s : State) (via source : NodeID) (edgeEpoch : Z) : result tree_error unit :=
  match s_children s !! via with
  | None => Err ErrNotReachable
  | Some edge =>
    fail_if negb (ed_Epoch edge =? edgeEpoch) with ErrStaleEpoch ;;
    if (source =? via) || (mget (s_routes s) source =? via) then Ok tt else Err ErrForgedSource
  end.

Definition ValidateParentControl (s : State) (parent : NodeID) (epoch : Z) : result tree_error unit :=
  match s_parent s with
  | None => Err ErrNotReachable
  | Some e =>
    fail_if negb (ed_Node e =? parent) with ErrNotReachable ;;
    fail_if negb (ed_Epoch e =? epoch) with ErrStaleEpoch ;;
    Ok tt
  end.

Definition RouteTo (s : State) (target : NodeID) : result tree_error Route :=
  if target =? s_local s then Ok (mkRoute target 0 (s_epoch s) DirectionLocal)
  else let child := mget (s_routes s) target in
       if negb (child =? 0) then
         let edge := default (mkEdge 0 0) (s_children s !! child) in
         Ok (mkRoute target child (ed_Epoch edge) DirectionDown)
       else match s_parent s with
            | Some p => Ok (mkRoute target (ed_Node p) (ed_Epoch p) DirectionUp)
            | None => Err ErrNotReachable
            end.

Definition Descendants (s : State) : gmap NodeID NodeID := s_routes s.

Definition ParentOf (s : State) (node : NodeID) : option NodeID :=
  match s_parent s with
  | Some e => if node =? s_local s then Some (ed_Node e) else s_parents s !! node
  | None => s_parents s !! node
  end.

(** *** Relations *)


(** [depth]: the [seen] set stops the walk on a cycle; [fuel] is the number of nodes left. *)
Fixpoint depth (fuel : nat) (local : NodeID) (parents : gmap NodeID NodeID) (seen : gset NodeID)
    (node : NodeID) (value : Z) : Z :=
  match fuel with
  | O => maxInt
  | S fuel =>
    if node =? local then value
    else if bool_decide (node ∈ seen) then maxInt
    else let parent := mget parents node in
         if parent =? 0 then maxInt
         else depth fuel local parents ({[node]} ∪ seen) parent (value + 1)
  end.
Definition nodeDepth (s : State) (node : NodeID) : Z :=
  depth (size (s_parents s) + 2) (s_local s) (s_parents s) ∅ node 0.

(** The comparison of [sort.Slice]: by depth, then by node. *)
Definition rel_le (s : State) (l r : NodeID * NodeID) : Prop :=
  nodeDepth s l.1 < nodeDepth s r.1 ∨ (nodeDepth s l.1 = nodeDepth s r.1 ∧ l.1 ≤ r.1).
#[global] Instance rel_le_dec s : RelDecision (rel_le s).
Proof. intros l r. unfold rel_le. apply _. Defined.

Definition Relations (s : State) : list (NodeID * NodeID) :=
  merge_sort (rel_le s) (map_to_list (s_parents s)).

(** *** Versioned snapshots *)

Record TopologyVersion := mkVersion { v_Epoch : Z; v_MembershipEpoch : Z }.
#[global] Instance TopologyVersion_eq_dec : EqDecision TopologyVersion.
Proof. solve_decision. Defined.

Record TopologySnapshot := mkSnapshot {
  sn_Version : TopologyVersion;
  sn_Local : NodeID;
  sn_Parent : option Edge;
  sn_Children : list Edge;
  sn_Relations : list (NodeID * NodeID)
}.

Definition versionOf (s : State) : TopologyVersion := mkVersion (s_epoch s) (s_membershipEpoch s).

Definition TopologySnapshotIfChanged (s : State) (version : TopologyVersion) : TopologySnapshot * bool :=
  if negb (v_MembershipEpoch version =? 0) && negb (s_membershipEpoch s =? maxUint64)
     && bool_decide (version = versionOf s)
  then (mkSnapshot (versionOf s) 0 None [] [], false)
  else (mkSnapshot (versionOf s) (s_local s) (s_parent s) ((map_to_list (s_children s)).*2)
          (map_to_list (s_parents s)), true).

(** ** Operations as steps *)

(** The state-changing methods with their arguments. *)
Inductive tree_op :=
| OpAttachParent (parent : NodeID)
| OpReparent (parent : NodeID)
| OpActivateParent (parent : NodeID) (epoch : Z)
| OpReattachChild (child : NodeID) (epoch : Z)
| OpDetachParent (parent : NodeID)
| OpDetachParentEpoch (parent : NodeID) (epoch : Z)
| OpAttachChild (child : NodeID) (epoch : Z)
| OpAnnounce (via descendant parent : NodeID) (edgeEpoch : Z)
| OpWithdrawChild (child : NodeID)
| OpWithdrawChildEpoch (child : NodeID) (epoch : Z)
| OpWithdrawRoute (via descendant : NodeID) (edgeEpoch : Z).

(** The state after a call; [None] when the call reports an error. *)
Definition ok_state {A} (r : result tree_error A) (f : A → State) : option State :=
  match r with Ok a => Some (f a) | Err _ => None end.

Definition tree_exec (s : State) (op : tree_op) : option State :=
  match op with
  | OpAttachParent p => ok_state (AttachParent s p) fst
  | OpReparent p => ok_state (Reparent s p) fst
  | OpActivateParent p e => ok_state (ActivateParent s p e) id
  | OpReattachChild c e => ok_state (ReattachChild s c e) id
  | OpDetachParent p => Some (DetachParent s p).1
  | OpDetachParentEpoch p e => Some (DetachParentEpoch s p e).1
  | OpAttachChild c e => ok_state (AttachChild s c e) id
  | OpAnnounce v d p e => ok_state (AnnounceWithParent s v d p e) id
  | OpWithdrawChild c => Some (WithdrawChild s c).1
  | OpWithdrawChildEpoch c e => Some (WithdrawChildEpoch s c e).1
  | OpWithdrawRoute v d e => ok_state (WithdrawRoute s v d e) id
  end.

(** One method call that does not fail. *)
Inductive tree_step : State → State → Prop :=
| tree_step_intro s op s' : tree_exec s op = Some s' → tree_step s s'.

(** States a node can reach from [New]. *)
Definition tree_reachable (s : State) : Prop := ∃ local s0, New local = Ok s0 ∧ rtc tree_step s0 s.

(** ** The invariant *)

Record tree_wf (s : State) : Prop := mkTreeWf {
  wf_local : s_local s ≠ 0;
  wf_children : ∀ c e, s_children s !! c = Some e → ed_Node e = c ∧ ed_Epoch e ≠ 0 ∧ s_routes s !! c = Some c;
  wf_routes : ∀ t v, s_routes s !! t = Some v → is_Some (s_children s !! v) ∧ t ≠ 0 ∧ v ≠ 0;
  wf_local_route : s_routes s !! s_local s = None;
  wf_parent : ∀ e, s_parent s = Some e → ed_Node e ≠ 0 ∧ ed_Node e ≠ s_local s ∧ s_routes s !! ed_Node e = None;
  wf_parents : ∀ t, is_Some (s_parents s !! t) ↔ is_Some (s_routes s !! t);
  wf_parents_nz : ∀ t p, s_parents s !! t = Some p → p ≠ 0 ∧ p ≠ t;
  wf_membership : 1 ≤ s_membershipEpoch s ≤ maxUint64
}.

(** ** Lemmas *)

Lemma checkNode_ok id : checkNode id = Ok tt ↔ id ≠ 0.
Proof. unfold checkNode, NodeID_Validate. destruct (Z.eqb_spec id 0); simpl; naive_solver. Qed.

Lemma bump_range m : 1 ≤ m ≤ maxUint64 → 1 ≤ bump m ≤ maxUint64.
Proof. unfold bump. intros Hm. destruct (Z.eqb_spec m maxUint64); lia. Qed.

Lemma mget_zero (m : gmap NodeID NodeID) k :
  (∀ v, m !! k = Some v → v ≠ 0) → mget m k = 0 ↔ m !! k = None.
Proof. unfold mget. intros Hv. destruct (m !! k) as [v|]; simpl; [|naive_solver]. split; [|done]. intros ->. by destruct (Hv 0). Qed.

Lemma routes_zero s k : tree_wf s → mget (s_routes s) k = 0 ↔ s_routes s !! k = None.
Proof. intros W. apply mget_zero. intros v Hv. by apply (wf_routes _ W) in Hv as (_ & _ & ?). Qed.

Lemma mget_route s k v : tree_wf s → v ≠ 0 → mget (s_routes s) k = v ↔ s_routes s !! k = Some v.
Proof.
  intros W Hv. unfold mget. destruct (s_routes s !! k) as [w|] eqn:E; simpl; naive_solver.
Qed.

Lemma parents_zero s k : tree_wf s → mget (s_parents s) k = 0 ↔ s_parents s !! k = None.
Proof. intros W. apply mget_zero. intros v Hv. by apply (wf_parents_nz _ W) in Hv as [? _]. Qed.

Lemma wouldCycle_false s p :
  tree_wf s → wouldCycle s p = false ↔ p ≠ s_local s ∧ s_routes s !! p = None.
Proof.
  intros W. unfold wouldCycle. rewrite orb_false_iff, negb_false_iff, Z.eqb_neq, Z.eqb_eq.
  by rewrite routes_zero.
Qed.

Lemma isParentNode_false s n :
  isParentNode s n = false ↔ ∀ e, s_parent s = Some e → n ≠ ed_Node e.
Proof.
  unfold isParentNode. destruct (s_parent s) as [e|]; [|naive_solver].
  rewrite Z.eqb_neq. naive_solver.
Qed.

(** A change of the parent edge keeps the invariant. *)
Lemma with_parent_wf s p epoch :
  tree_wf s →
  (∀ e, p = Some e → ed_Node e ≠ 0 ∧ ed_Node e ≠ s_local s ∧ s_routes s !! ed_Node e = None) →
  tree_wf (with_parent s p epoch).
Proof. intros [] Hp. constructor; simpl; try done. by apply bump_range. Qed.

Lemma elem_of_routedVia s c t : t ∈ routedVia s c ↔ s_routes s !! t = Some c.
Proof.
  unfold routedVia. rewrite list_elem_of_fmap. split.
  - intros ([k v] & -> & Hkv). apply elem_of_map_to_list, map_lookup_filter_Some in Hkv as [? ?].
    simpl in *. by subst.
  - intros Ht. exists (t, c). split; [done|]. by apply elem_of_map_to_list, map_lookup_filter_Some.
Qed.

Lemma lookup_foldr_delete_decide {A} (m : gmap NodeID A) (l : list NodeID) k :
  foldr delete m l !! k = if decide (k ∈ l) then None else m !! k.
Proof.
  case_decide; [by apply lookup_foldr_delete|by apply lookup_foldr_delete_not_elem_of].
Qed.

Lemma New_wf local s : New local = Ok s → tree_wf s.
Proof.
  unfold New. intros [H1 [= <-]]%bind_ok. apply checkNode_ok in H1.
  constructor; simpl; try done; intros; try (by simplify_map_eq).
Qed.

Lemma parent_change_wf s p epoch :
  tree_wf s → p ≠ 0 → wouldCycle s p = false → tree_wf (with_parent s (Some (mkEdge p epoch)) epoch).
Proof.
  intros W Hp Hc. apply wouldCycle_false in Hc as [? ?]; [|done].
  apply with_parent_wf; [done|]. intros e [= <-]. simpl. done.
Qed.

Lemma AttachChild_wf s c epoch s' : tree_wf s → AttachChild s c epoch = Ok s' → tree_wf s'.
Proof.
  intros W H. unfold AttachChild in H. guards H. injection H as <-. bool_prop.
  rewrite checkNode_ok in *. rewrite isParentNode_false in *. rewrite <- eq_None_not_Some in *.
  match goal with E : mget _ c = 0 |- _ => apply routes_zero in E; [|done]; rename E into Hrc end.
  pose proof (wf_local _ W). destruct (id W) as [_ Wc Wr Wl Wp Wps Wnz Wm].
  constructor; simpl; [done|..].
  - intros k e. rewrite !lookup_insert. case_decide; [intros; by simplify_eq|apply Wc].
  - intros t v. rewrite lookup_insert. case_decide; [intros; simplify_eq|intros Ht].
    + by rewrite lookup_insert_eq.
    + apply Wr in Ht as (Hv & ? & ?). split; [|done]. rewrite lookup_insert.
      case_decide; [done|done].
  - by rewrite lookup_insert_ne.
  - intros e He. destruct (Wp e He) as (? & ? & ?). rewrite lookup_insert_ne; [done|]. naive_solver.
  - intros t. rewrite !lookup_insert. case_decide; [done|apply Wps].
  - intros t p. rewrite lookup_insert. case_decide; [naive_solver|apply Wnz].
  - by apply bump_range.
Qed.

Lemma AnnounceWithParent_wf s via d p epoch s' :
  tree_wf s → AnnounceWithParent s via d p epoch = Ok s' → tree_wf s'.
Proof.
  intros W H. unfold AnnounceWithParent in H. guards H. injection H as <-.
  rewrite checkNode_ok in *.
  destruct (id W) as [_ Wc Wr Wl Wp Wps Wnz Wm].
  match goal with E : s_children s !! via = Some ?e |- _ => rename E into Hvia; rename e into edge end.
  destruct (Wc _ _ Hvia) as (Hn & He & Hrv).
  assert (via ≠ 0) as Hv0 by (apply Wr in Hrv; tauto).
  assert (s_children s !! d = None ∨ d = via) as Hd.
  { destruct (s_children s !! d) as [ch|] eqn:E; [right|by left]. bool_prop.
    destruct (Wc _ _ E) as (? & _). congruence. }
  bool_prop. rewrite isParentNode_false in *.
  constructor; simpl; [apply W|..].
  - intros k e Hk. destruct (Wc _ _ Hk) as (? & ? & ?). rewrite lookup_insert.
    case_decide; [|done]. subst k. destruct Hd as [Hd| ->]; [congruence|split_and!; congruence].
  - intros t v. rewrite lookup_insert. case_decide; [|apply Wr]. intros; simplify_eq. by rewrite Hvia.
  - by rewrite lookup_insert_ne.
  - intros e' He'. destruct (Wp _ He') as (? & ? & ?). rewrite lookup_insert_ne; naive_solver.
  - intros t. rewrite !lookup_insert. case_decide; [done|apply Wps].
  - intros t q. rewrite lookup_insert. case_decide; [naive_solver|apply Wnz].
  - by apply bump_range.
Qed.

Lemma withdrawChildLocked_wf s c : tree_wf s → tree_wf (withdrawChildLocked s c).1.
Proof.
  intros W. unfold withdrawChildLocked. destruct (s_children s !! c) as [e|] eqn:Hc; [|done].
  destruct (id W) as [_ Wc Wr Wl Wp Wps Wnz Wm]. destruct (Wc _ _ Hc) as (_ & _ & Hrc).
  constructor; simpl; [apply W|..].
  - intros k e' [Hk Hk']%lookup_delete_Some. destruct (Wc _ _ Hk') as (? & ? & Hr).
    rewrite lookup_foldr_delete_decide, decide_False; [done|].
    rewrite elem_of_routedVia, Hr. congruence.
  - intros t v. rewrite lookup_foldr_delete_decide. case_decide as Ht; [done|]. intros Hv.
    rewrite elem_of_routedVia in Ht. destruct (Wr _ _ Hv) as ([e' He'] & ? & ?).
    split; [|done]. rewrite lookup_delete_ne by congruence. eauto.
  - rewrite lookup_foldr_delete_decide, Wl. by case_decide.
  - intros e' He'. destruct (Wp _ He') as (? & ? & Hr). split_and!; try done.
    rewrite lookup_foldr_delete_decide, Hr. by case_decide.
  - intros t. rewrite !lookup_foldr_delete_decide. case_decide as Ht; [done|].
    rewrite elem_of_routedVia in Ht. rewrite lookup_delete_ne by congruence. apply Wps.
  - intros t p. rewrite lookup_foldr_delete_decide. case_decide; [done|].
    intros [_ Hp]%lookup_delete_Some. by apply Wnz.
  - by apply bump_range.
Qed.

Lemma WithdrawRoute_wf s via d epoch s' : tree_wf s → WithdrawRoute s via d epoch = Ok s' → tree_wf s'.
Proof.
  intros W H. unfold WithdrawRoute in H. guards H. injection H as <-. bool_prop.
  destruct (id W) as [_ Wc Wr Wl Wp Wps Wnz Wm].
  match goal with E : s_children s !! via = Some ?e |- _ => destruct (Wc _ _ E) as (_ & _ & Hrv) end.
  constructor; simpl; [apply W|..].
  - intros k e' Hk. destruct (Wc _ _ Hk) as (? & ? & Hr). rewrite lookup_delete_ne; [done|].
    intros ->. unfold mget in *. rewrite Hr in *. simpl in *. congruence.
  - intros t v [_ Ht]%lookup_delete_Some. by apply Wr.
  - rewrite lookup_delete, Wl. by case_decide.
  - intros e' He'. destruct (Wp _ He') as (? & ? & Hr). rewrite lookup_delete, Hr. by case_decide.
  - intros t. rewrite !lookup_delete. case_decide; [done|apply Wps].
  - intros t p [_ Hp]%lookup_delete_Some. by apply Wnz.
  - by apply bump_range.
Qed.

Lemma ReattachChild_wf s c epoch s' : tree_wf s → ReattachChild s c epoch = Ok s' → tree_wf s'.
Proof.
  intros W H. unfold ReattachChild in H. guards H. injection H as <-. bool_prop.
  destruct (id W) as [_ Wc Wr Wl Wp Wps Wnz Wm].
  match goal with E : s_children s !! c = Some ?e |- _ => destruct (Wc _ _ E) as (_ & _ & Hrc) end.
  constructor; simpl; try done; [apply W|..].
  - intros k e'. rewrite lookup_insert. case_decide; [naive_solver|apply Wc].
  - intros t v Ht. destruct (Wr _ _ Ht) as ([e' He'] & ? & ?). split; [|done].
    rewrite lookup_insert. case_decide; eauto.
  - by apply bump_range.
Qed.

#[export] Hint Resolve New_wf parent_change_wf AttachChild_wf AnnounceWithParent_wf
  withdrawChildLocked_wf WithdrawRoute_wf ReattachChild_wf : mfh.

Lemma ok_state_inv {A} (r : result tree_error A) f s :
  ok_state r f = Some s → ∃ a, r = Ok a ∧ s = f a.
Proof. destruct r; simpl; naive_solver. Qed.

Lemma tree_exec_wf s op s' : tree_wf s → tree_exec s op = Some s' → tree_wf s'.
Proof.
  intros W H. destruct op; simpl in H;
    try (apply ok_state_inv in H as (a & H & ->)); try injection H as <-;
    unfold AttachParent, Reparent, ActivateParent, DetachParent, DetachParentEpoch, WithdrawChild,
      WithdrawChildEpoch in *; eauto with mfh.
  1-3: guards H; injection H as <-; apply parent_change_wf; [done|by apply checkNode_ok|done].
  1-2: repeat case_match; try done; by apply with_parent_wf.
  repeat case_match; eauto with mfh.
Qed.

Lemma tree_reachable_wf s : tree_reachable s → tree_wf s.
Proof.
  intros (local & s0 & H0 & Hr). apply New_wf in H0. induction Hr as [|? ? ? [? op ? Hop] _ IH]; [done|].
  apply IH. by eapply tree_exec_wf.
Qed.

(** *** The version counter *)

Lemma tree_exec_version s op s' :
  tree_exec s op = Some s' → s' = s ∨ s_membershipEpoch s' = bump (s_membershipEpoch s).
Proof.
  intros H. destruct op; simpl in H;
    try (apply ok_state_inv in H as (a & H & ->)); try injection H as <-;
    unfold AttachParent, Reparent, ActivateParent, ReattachChild, AttachChild, AnnounceWithParent,
      WithdrawRoute, DetachParent, DetachParentEpoch, WithdrawChild, WithdrawChildEpoch,
      withdrawChildLocked in *;
    try (guards H; injection H as <-; by right).
  all: repeat case_match; (by left) || (by right).
Qed.

Lemma bump_ge m : m ≤ bump m.
Proof. unfold bump. destruct (m =? maxUint64); lia. Qed.

Lemma bump_fix m : bump m = m → m = maxUint64.
Proof. unfold bump. destruct (Z.eqb_spec m maxUint64); lia. Qed.

Lemma tree_steps_version s s' :
  rtc tree_step s s' →
  s_membershipEpoch s ≤ s_membershipEpoch s' ∧
  (s_membershipEpoch s' = s_membershipEpoch s → s_membershipEpoch s' ≠ maxUint64 → s' = s).
Proof.
  induction 1 as [|? ? s2 [sa op sb Hop] Hr [IH1 IH2]]; [done|].
  destruct (tree_exec_version _ _ _ Hop) as [->|Hb]; [done|].
  pose proof (bump_ge (s_membershipEpoch sa)) as Hge. rewrite <- Hb in Hge.
  split; [lia|]. intros Heq Hmax.
  assert (bump (s_membershipEpoch sa) = s_membershipEpoch sa) as Hfix by lia.
  apply bump_fix in Hfix. lia.
Qed.

(** *** Walking the parent relation *)

(** The parent relation of a state as a graph edge. *)
Definition up (parents : gmap NodeID NodeID) (x y : NodeID) : Prop := parents !! x = Some y.

(** The chain of parents that starts at [x] ends. *)
Inductive rooted (parents : gmap NodeID NodeID) : NodeID → Prop :=
| rooted_end x : parents !! x = None → rooted parents x
| rooted_up x p : parents !! x = Some p → rooted parents p → rooted parents x.

(** The announcements an honest subtree makes: the announced node is not an ancestor of
    the node it is announced under. *)
Definition acyclic_op (s : State) (op : tree_op) : Prop :=
  match op with
  | OpAnnounce _ d p _ => ¬ rtc (up (s_parents s)) p d
  | _ => True
  end.

Inductive acyclic_step : State → State → Prop :=
| acyclic_step_intro s op s' : tree_exec s op = Some s' → acyclic_op s op → acyclic_step s s'.

Definition acyclic_reachable (s : State) : Prop := ∃ local s0, New local = Ok s0 ∧ rtc acyclic_step s0 s.

Lemma acyclic_step_step s s' : acyclic_step s s' → tree_step s s'.
Proof. intros [? op ? H _]. by econstructor. Qed.

Lemma acyclic_reachable_reachable s : acyclic_reachable s → tree_reachable s.
Proof.
  intros (l & s0 & H0 & Hr). exists l, s0. split; [done|].
  eapply rtc_subrel; [|exact Hr]. intros x y. apply acyclic_step_step.
Qed.

Lemma rooted_insert_avoid parents d q x :
  rooted parents x → ¬ rtc (up parents) x d → rooted (<[d:=q]> parents) x.
Proof.
  induction 1 as [x Hx|x p Hx _ IH]; intros Hn.
  - apply rooted_end. rewrite lookup_insert_ne; [done|]. intros ->. by apply Hn.
  - apply rooted_up with p.
    + rewrite lookup_insert_ne; [done|]. intros ->. by apply Hn.
    + apply IH. intros Hr. apply Hn. by eapply rtc_l.
Qed.

Lemma rooted_insert parents d q :
  (∀ x, rooted parents x) → ¬ rtc (up parents) q d → ∀ x, rooted (<[d:=q]> parents) x.
Proof.
  intros Hall Hn x. induction (Hall x) as [x Hx|x p Hx _ IH].
  all: destruct (decide (x = d)) as [->|Hne];
    [apply rooted_up with q; [by rewrite lookup_insert_eq|by apply rooted_insert_avoid]|].
  - apply rooted_end. by rewrite lookup_insert_ne.
  - apply rooted_up with p; [by rewrite lookup_insert_ne|done].
Qed.

Lemma rooted_delete parents d : (∀ x, rooted parents x) → ∀ x, rooted (delete d parents) x.
Proof.
  intros Hall x. induction (Hall x) as [x Hx|x p Hx _ IH].
  - apply rooted_end. rewrite lookup_delete, Hx. by case_decide.
  - destruct (decide (d = x)) as [->|Hne]; [apply rooted_end; by rewrite lookup_delete_eq|].
    apply rooted_up with p; [by rewrite lookup_delete_ne|done].
Qed.

Lemma rooted_delete_list parents (l : list NodeID) :
  (∀ x, rooted parents x) → ∀ x, rooted (foldr delete parents l) x.
Proof. intros Hall. induction l as [|d l IH]; [done|]. by apply rooted_delete. Qed.

Lemma acyclic_exec_rooted s op s' :
  tree_wf s → acyclic_op s op → tree_exec s op = Some s' →
  (∀ x, rooted (s_parents s) x) → ∀ x, rooted (s_parents s') x.
Proof.
  intros W Ha H Hall. destruct op; simpl in H;
    try (apply ok_state_inv in H as (a & H & ->)); try injection H as <-;
    unfold AttachParent, Reparent, ActivateParent, ReattachChild, AttachChild, AnnounceWithParent,
      WithdrawRoute, DetachParent, DetachParentEpoch, WithdrawChild, WithdrawChildEpoch,
      withdrawChildLocked in *;
    try (guards H; injection H as <-; simpl; auto using rooted_delete; fail).
  - repeat case_match; done.
  - repeat case_match; done.
  - guards H. injection H as <-. simpl. bool_prop. apply rooted_insert; [done|].
    intros Hr. apply rtc_inv in Hr as [Hr|(y & Hy & _)]; [congruence|].
    unfold up in Hy. assert (is_Some (s_routes s !! s_local s)) as [? Hs] by (apply (wf_parents _ W); eauto).
    by rewrite (wf_local_route _ W) in Hs.
  - guards H. injection H as <-. simpl. by apply rooted_insert.
  - case_match; simpl; auto using rooted_delete, rooted_delete_list.
  - repeat case_match; simpl; auto using rooted_delete, rooted_delete_list.
Qed.

Lemma acyclic_reachable_rooted s : acyclic_reachable s → ∀ x, rooted (s_parents s) x.
Proof.
  intros (l & s0 & H0 & Hr).
  assert (tree_wf s0) as W by eauto with mfh.
  assert (∀ x, rooted (s_parents s0) x) as Hall.
  { intros x. apply rooted_end. unfold New in H0. guards H0. by injection H0 as <-. }
  clear H0 l. induction Hr as [|? ? ? [? op ? Hop Ha] _ IH]; [done|].
  apply IH; [by eapply tree_exec_wf|by eapply acyclic_exec_rooted].
Qed.

(** The walk of [ScopeContains] over an ending chain finishes and decides ancestry. *)
Lemma scope_walk_rooted s anchor x :
  tree_wf s → rooted (s_parents s) x →
  ∃ n b, (∀ fuel, (n ≤ fuel)%nat → scope_walk fuel s anchor x = Some b) ∧
         (b = true ↔ rtc (up (s_parents s)) x anchor).
Proof.
  intros W. induction 1 as [x Hx|x p Hx _ (n & b & Hn & Hb)].
  - exists 1%nat, (x =? anchor). split.
    + intros [|fuel] Hf; [lia|]. simpl. destruct (x =? anchor); [done|].
      destruct (x =? s_local s); [done|]. unfold mget. by rewrite Hx.
    + rewrite Z.eqb_eq. split; [by intros ->|]. intros Hr.
      apply rtc_inv in Hr as [?|(y & Hy & _)]; [done|]. unfold up in Hy. congruence.
  - assert (x ≠ s_local s) as Hl.
    { intros ->. assert (is_Some (s_routes s !! s_local s)) as [? Hs] by (apply (wf_parents _ W); eauto).
      by rewrite (wf_local_route _ W) in Hs. }
    destruct (wf_parents_nz _ W _ _ Hx) as [Hp0 Hpx].
    destruct (Z.eqb_spec x anchor) as [->|Hne].
    + exists 1%nat, true. split; [|done]. intros [|fuel] Hf; [lia|]. simpl. by rewrite Z.eqb_refl.
    + exists (S n), b. split.
      * intros [|fuel] Hf; [lia|]. simpl. rewrite (proj2 (Z.eqb_neq x anchor)) by done.
        rewrite (proj2 (Z.eqb_neq x (s_local s))) by done. unfold mget. rewrite Hx. simpl.
        rewrite (proj2 (Z.eqb_neq p 0)), (proj2 (Z.eqb_neq p x)) by done. simpl. apply Hn. lia.
      * rewrite Hb. split; [intros; by eapply rtc_l|]. intros Hr.
        apply rtc_inv in Hr as [?|(y & Hy & Hr)]; [done|]. unfold up in Hy. by simplify_eq.
Qed.

(** *** Depths and the announcement order *)

(** [x] is [n] parent edges below the local node. *)
Inductive at_depth (s : State) : NodeID → nat → Prop :=
| at_local : at_depth s (s_local s) 0
| at_below x p n : x ≠ s_local s → s_parents s !! x = Some p → at_depth s p n → at_depth s x (S n).

Lemma at_depth_fun s x n m : at_depth s x n → at_depth s x m → n = m.
Proof.
  intros H. revert m. induction H as [|x p n Hl Hp _ IH]; intros m Hm; inversion Hm; subst; try done.
  f_equal. apply IH. by simplify_eq.
Qed.

(** A chain of [n] edges visits [n] different nodes that have a parent. *)
Lemma at_depth_nodes s x n :
  at_depth s x n →
  ∃ X : gset NodeID, X ⊆ dom (s_parents s) ∧ size X = n ∧ ∀ y, y ∈ X → ∃ m, at_depth s y m ∧ (m ≤ n)%nat.
Proof.
  induction 1 as [|x p n Hl Hp Hd (X & Hsub & Hsz & HX)]; [by exists ∅|].
  exists ({[x]} ∪ X). split_and!.
  - apply union_least; [|done]. apply singleton_subseteq_l, elem_of_dom. eauto.
  - rewrite size_union, size_singleton, Hsz; [done|]. intros y ->%elem_of_singleton Hy.
    destruct (HX x Hy) as (m & Hm & Hle).
    pose proof (at_depth_fun _ _ _ _ Hm (at_below _ _ _ _ Hl Hp Hd)). lia.
  - intros y [->%elem_of_singleton|Hy]%elem_of_union.
    + exists (S n). split; [by eapply at_below|done].
    + destruct (HX y Hy) as (m & ? & ?). exists m. split; [done|lia].
Qed.

Lemma at_depth_bound s x n : at_depth s x n → (n ≤ size (s_parents s))%nat.
Proof.
  intros (X & Hsub & <- & _)%at_depth_nodes. rewrite <- size_dom. by apply subseteq_size.
Qed.

Lemma depth_walk s x n seen fuel v :
  tree_wf s → at_depth s x n → (n < fuel)%nat →
  (∀ y, y ∈ seen → ∃ m, at_depth s y m ∧ (n < m)%nat) →
  depth fuel (s_local s) (s_parents s) seen x v = v + Z.of_nat n.
Proof.
  intros W Hd. revert seen fuel v. induction Hd as [|x p n Hl Hp Hd IH]; intros seen [|fuel] v Hf Hseen; try lia.
  - simpl. rewrite Z.eqb_refl. lia.
  - simpl. rewrite (proj2 (Z.eqb_neq x _)) by done.
    assert (x ∉ seen) as Hx.
    { intros Hx. destruct (Hseen x Hx) as (m & Hm & Hlt).
      pose proof (at_depth_fun _ _ _ _ Hm (at_below _ _ _ _ Hl Hp Hd)). lia. }
    rewrite bool_decide_eq_false_2 by done. unfold mget. rewrite Hp. simpl.
    rewrite (proj2 (Z.eqb_neq p 0)) by (apply (wf_parents_nz _ W) in Hp; tauto).
    rewrite IH; [lia|lia|]. intros y [->%elem_of_singleton|Hy]%elem_of_union.
    + exists (S n). split; [by eapply at_below|lia].
    + destruct (Hseen y Hy) as (m & ? & ?). exists m. split; [done|lia].
Qed.

Lemma nodeDepth_at s x n : tree_wf s → at_depth s x n → nodeDepth s x = Z.of_nat n.
Proof.
  intros W Hd. unfold nodeDepth. rewrite (depth_walk s x n); [lia|done|done| |done].
  apply at_depth_bound in Hd. lia.
Qed.

#[global] Instance rel_le_trans s : Transitive (rel_le s).
Proof. unfold rel_le. intros [] [] []. simpl. lia. Qed.
#[global] Instance rel_le_total s : Total (rel_le s).
Proof. unfold rel_le. intros [] []. simpl. lia. Qed.

Lemma Relations_perm s : Relations s ≡ₚ map_to_list (s_parents s).
Proof. apply merge_sort_Permutation. Qed.

Lemma Relations_sorted s : StronglySorted (rel_le s) (Relations s).
Proof. apply StronglySorted_merge_sort; apply _. Qed.

Lemma elem_of_Relations s t p : (t, p) ∈ Relations s ↔ s_parents s !! t = Some p.
Proof. rewrite Relations_perm. apply elem_of_map_to_list. Qed.

(** In the announcement order a node's parent is the local node or comes earlier. *)
Lemma Relations_parent_first s l1 t p l2 :
  tree_wf s → (∀ x, is_Some (s_parents s !! x) → ∃ n, at_depth s x n) →
  Relations s = l1 ++ (t, p) :: l2 → p = s_local s ∨ p ∈ l1.*1.
Proof.
  intros W Hall E. assert (s_parents s !! t = Some p) as Hp.
  { apply elem_of_Relations. rewrite E. set_solver. }
  destruct (Hall t ltac:(eauto)) as [n Hn]. inversion Hn as [|? p' n' Hl Hp' Hd]; subst.
  { assert (is_Some (s_routes s !! s_local s)) as [? Hs] by (apply (wf_parents _ W); eauto).
    by rewrite (wf_local_route _ W) in Hs. }
  simplify_eq. inversion Hd as [|? q m Hpl Hq _]; subst; [by left|right].
  assert ((p, q) ∈ Relations s) as Hin by (by apply elem_of_Relations).
  rewrite E in Hin. apply elem_of_app in Hin as [Hin|Hin]; [apply list_elem_of_fmap; by exists (p, q)|].
  exfalso. pose proof (Relations_sorted s) as Hs. rewrite E in Hs.
  apply elem_of_cons in Hin as [[= -> ->]|Hin].
  - pose proof (nodeDepth_at _ _ _ W Hn). pose proof (nodeDepth_at _ _ _ W Hd). lia.
  - assert (rel_le s (t, p) (p, q)) as Hle.
    { clear -Hs Hin. induction l1 as [|a l1 IH]; inversion Hs; subst; [|auto].
      by eapply Forall_forall in H2. }
    unfold rel_le in Hle. simpl in Hle. rewrite (nodeDepth_at _ _ _ W Hn), (nodeDepth_at _ _ _ W Hd) in Hle. lia.
Qed.

(** *** Replaying a subtree into the parent *)

(** The parent's side of the loop in [ConnectParent]: one announcement per relation. *)
Fixpoint announce_all (u : State) (via : NodeID) (epoch : Z) (relations : list (NodeID * NodeID))
    : result tree_error State :=
  match relations with
  | [] => Ok u
  | (node, parent) :: rest => u' ← AnnounceWithParent u via node parent epoch; announce_all u' via epoch rest
  end.

(** What the parent needs to know about an announced node for the announcement to be new. *)
Definition fresh_for (u : State) (t : NodeID) : Prop :=
  t ≠ s_local u ∧ isParentNode u t = false ∧ s_routes u !! t = None.

Lemma AnnounceWithParent_fresh u via e t p :
  tree_wf u → s_children u !! via = Some e → fresh_for u t → t ≠ 0 → p ≠ 0 → p ≠ t →
  (p = via ∨ s_routes u !! p = Some via) →
  AnnounceWithParent u via t p (ed_Epoch e) =
    Ok (with_members u (s_children u) (<[t := via]> (s_routes u)) (<[t := p]> (s_parents u))).
Proof.
  intros W He (Hl & Hpn & Hr) Ht Hp Hpt Hpv. unfold AnnounceWithParent.
  rewrite (proj2 (checkNode_ok t)), (proj2 (checkNode_ok p)) by done. simpl.
  rewrite He, Z.eqb_refl. simpl. rewrite (proj2 (Z.eqb_neq t _)), Hpn by done. simpl.
  rewrite (proj2 (Z.eqb_neq p t)) by done. simpl.
  assert (negb (p =? via) && negb (mget (s_routes u) p =? via) = false) as ->.
  { destruct Hpv as [->|Hpv]; [by rewrite Z.eqb_refl|]. unfold mget. rewrite Hpv. simpl.
    rewrite Z.eqb_refl. apply andb_false_r. }
  destruct (s_children u !! t) as [ch|] eqn:Ec.
  { apply (wf_children _ W) in Ec as (_ & _ & Ec). congruence. }
  unfold mget. by rewrite Hr.
Qed.

Lemma announce_all_prefix s u via e l1 l2 u1 :
  tree_wf s → (∀ x, is_Some (s_parents s !! x) → ∃ n, at_depth s x n) → via = s_local s →
  Relations s = l1 ++ l2 → tree_wf u1 → s_children u1 !! via = Some e →
  s_local u1 = s_local u → s_parent u1 = s_parent u →
  (∀ t, is_Some (s_parents s !! t) → fresh_for u t) →
  (∀ t p, (t, p) ∈ l1 → s_routes u1 !! t = Some via ∧ s_parents u1 !! t = Some p) →
  (∀ t, t ∉ l1.*1 → s_routes u1 !! t = s_routes u !! t) →
  ∃ u', announce_all u1 via (ed_Epoch e) l2 = Ok u' ∧
    ∀ t p, (t, p) ∈ Relations s → s_routes u' !! t = Some via ∧ s_parents u' !! t = Some p.
Proof.
  intros W Hall Hvia. revert l1 u1. induction l2 as [|[t p] l2 IH]; intros l1 u1 E W1 Hc Hl Hpar Hf H1 H2.
  - exists u1. split; [done|]. rewrite app_nil_r in E. by rewrite E.
  - assert (s_parents s !! t = Some p) as Hp by (apply elem_of_Relations; rewrite E; set_solver).
    destruct (wf_parents_nz _ W _ _ Hp) as [Hp0 Hpt].
    assert (NoDup (Relations s).*1) as Hnd.
    { rewrite Relations_perm. apply NoDup_fst_map_to_list. }
    rewrite E, fmap_app, fmap_cons in Hnd. apply NoDup_app in Hnd as (_ & Hdisj & Hnd2).
    apply NoDup_cons in Hnd2 as [Hnt _].
    assert (t ∉ l1.*1) as Htl by (intros Ht; apply (Hdisj t Ht); simpl; set_solver).
    destruct (Hf t ltac:(eauto)) as (F1 & F2 & F3).
    assert (fresh_for u1 t) as Hf1.
    { split_and!; [congruence|by unfold isParentNode in *; rewrite Hpar|by rewrite H2]. }
    assert (t ≠ 0) as Ht0.
    { assert (is_Some (s_routes s !! t)) as [v Hv] by (apply (wf_parents _ W); eauto).
      apply (wf_routes _ W) in Hv. tauto. }
    assert (p = via ∨ s_routes u1 !! p = Some via) as Hpv.
    { destruct (Relations_parent_first s l1 t p l2) as [->|Hin]; [done..|by left|right].
      apply list_elem_of_fmap in Hin as ([p' q] & -> & Hin). by destruct (H1 _ _ Hin). }
    pose proof (AnnounceWithParent_fresh u1 via e t p W1 Hc Hf1 Ht0 Hp0 Hpt Hpv) as Ha.
    cbn [announce_all]. rewrite Ha. simpl.
    apply (IH (l1 ++ [(t, p)])); simpl; try done.
    + by rewrite <- (assoc_L (++)).
    + by eapply AnnounceWithParent_wf.
    + intros t' p' [Hin|Hin]%elem_of_app.
      * assert (t' ≠ t) by (intros ->; apply Htl, list_elem_of_fmap; by exists (t, p')).
        rewrite !lookup_insert_ne by done. by apply H1.
      * apply list_elem_of_singleton in Hin as [= -> ->]. by rewrite !lookup_insert_eq.
    + intros t' Ht'. rewrite fmap_app in Ht'. simpl in Ht'.
      rewrite lookup_insert_ne by set_solver. apply H2. set_solver.
Qed.

(** ** Theorems *)

(** C5. Every state a node reaches through the methods of the tree is well formed: direct
    children route to themselves, every route leads through a current child, the local node
    and its parent are never routed downwards, and the routed nodes are exactly the nodes
    with a recorded parent. *)
Theorem reachable_tree_wf (s : State) : tree_reachable s → tree_wf s.
Proof. apply tree_reachable_wf. Qed.

(** Routing is sound and complete: the local node is handled locally, a known descendant is
    sent to a current direct child under that child's current epoch, anything else goes to the
    parent if there is one and fails otherwise.  In particular the next hop is never the local
    node itself. *)
Theorem RouteTo_correct (s : State) (target : NodeID) :
  tree_reachable s →
  match RouteTo s target with
  | Ok (mkRoute t _ epoch DirectionLocal) => t = target ∧ target = s_local s ∧ epoch = s_epoch s
  | Ok (mkRoute t hop epoch DirectionDown) =>
      t = target ∧ target ≠ s_local s ∧ hop ≠ s_local s ∧ s_routes s !! target = Some hop ∧
      s_children s !! hop = Some (mkEdge hop epoch) ∧ epoch ≠ 0
  | Ok (mkRoute t hop epoch DirectionUp) =>
      t = target ∧ target ≠ s_local s ∧ hop ≠ s_local s ∧ s_routes s !! target = None ∧
      s_parent s = Some (mkEdge hop epoch) ∧ s_routes s !! hop = None
  | Err e => e = ErrNotReachable ∧ target ≠ s_local s ∧ s_routes s !! target = None ∧ s_parent s = None
  end.
Proof.
  intros W%tree_reachable_wf. unfold RouteTo. destruct (Z.eqb_spec target (s_local s)) as [->|Hl]; [done|].
  cbv zeta. destruct (Z.eqb_spec (mget (s_routes s) target) 0) as [E|E]; simpl.
  - apply routes_zero in E; [|done]. destruct (s_parent s) as [[p ep]|] eqn:Ep; [|done].
    apply (wf_parent _ W) in Ep as (? & ? & ?). done.
  - apply mget_nonzero in E. destruct (wf_routes _ W _ _ E) as ([[n ep] He] & ? & ?).
    rewrite He. simpl. destruct (wf_children _ W _ _ He) as (Hn & ? & Hr). simpl in *.
    split_and!; try done; [|congruence]. intros Heq. rewrite Heq, (wf_local_route _ W) in Hr. done.
Qed.

(** A vouched source is routed through the edge it came from, at its current epoch. *)
Lemma ValidateSource_edge s v source ep :
  tree_wf s → ValidateSource s v source ep = Ok tt →
  s_routes s !! source = Some v ∧ s_children s !! v = Some (mkEdge v ep).
Proof.
  intros W. unfold ValidateSource. destruct (s_children s !! v) as [[n ep']|] eqn:E; [|done].
  intros [He H]%fail_if_ok. bool_prop. simpl in He. subst ep'.
  destruct (wf_children _ W _ _ E) as (Hn & _ & Hr). simpl in Hn. subst n. split; [|done].
  destruct (Z.eqb_spec source v) as [->|]; [done|]. simpl in H.
  destruct (Z.eqb_spec (mget (s_routes s) source) v) as [Hm|]; [|done].
  apply mget_route in Hm; [done|done|]. apply (wf_routes _ W) in Hr. tauto.
Qed.

(** Source proof: two different child links can never both vouch for the same source, and
    no child link can vouch for the local node, for the local node's parent, or with an epoch
    other than the current one of its edge. *)
Theorem ValidateSource_exclusive (s : State) (via via' source : NodeID) (epoch epoch' : Z) :
  tree_reachable s → ValidateSource s via source epoch = Ok tt →
  source ≠ s_local s ∧ isParentNode s source = false ∧ s_children s !! via = Some (mkEdge via epoch) ∧
  (ValidateSource s via' source epoch' = Ok tt → via' = via).
Proof.
  intros W%tree_reachable_wf.
  pose proof (λ v ep, ValidateSource_edge s v source ep W) as Hv.
  intros [Hr Hc]%Hv. split_and!; [..|done|].
  - intros ->. by rewrite (wf_local_route _ W) in Hr.
  - apply isParentNode_false. intros e He ->. apply (wf_parent _ W) in He as (_ & _ & He). congruence.
  - intros [Hr' _]%Hv. congruence.
Qed.

(** Withdrawing a child removes exactly its subtree: the reported nodes are the ones that
    were routed through the child, they become unreachable below this node, every other route
    and recorded parent is untouched, and the child can be attached again. *)
Theorem WithdrawChild_exact (s : State) (child : NodeID) (epoch : Z) :
  tree_reachable s → is_Some (s_children s !! child) → epoch ≠ 0 →
  let '(s', removed) := WithdrawChild s child in
  (∀ t, t ∈ removed ↔ s_routes s !! t = Some child) ∧ child ∈ removed ∧
  (∀ t, s_routes s' !! t = if decide (t ∈ removed) then None else s_routes s !! t) ∧
  (∀ t, s_parents s' !! t = if decide (t ∈ removed) then None else s_parents s !! t) ∧
  (∀ c, s_children s' !! c = if decide (c = child) then None else s_children s !! c) ∧
  is_ok (AttachChild s' child epoch) = true.
Proof.
  intros W%tree_reachable_wf [e He] Hep. unfold WithdrawChild, withdrawChildLocked. rewrite He.
  destruct (wf_children _ W _ _ He) as (_ & _ & Hr).
  assert (child ∈ routedVia s child) as Hin by (by apply elem_of_routedVia).
  split_and!; simpl.
  - intros t. apply elem_of_routedVia.
  - done.
  - intros t. apply lookup_foldr_delete_decide.
  - intros t. rewrite lookup_foldr_delete_decide. case_decide as Ht; [done|].
    rewrite lookup_delete_ne; [done|]. congruence.
  - intros c. rewrite lookup_delete. repeat case_decide; congruence.
  - unfold AttachChild. rewrite (proj2 (checkNode_ok child)) by (apply (wf_routes _ W) in Hr; tauto).
    simpl. rewrite (proj2 (Z.eqb_neq epoch 0)) by done.
    assert (child ≠ s_local s) by (intros ->; by rewrite (wf_local_route _ W) in Hr).
    rewrite (proj2 (Z.eqb_neq child _)) by done.
    assert (isParentNode s child = false) as Hp.
    { apply isParentNode_false. intros e' He' ->. apply (wf_parent _ W) in He' as (_ & _ & ?). congruence. }
    unfold isParentNode in *. simpl. rewrite Hp. simpl. rewrite lookup_delete_eq. simpl.
    unfold mget. rewrite lookup_foldr_delete_decide, decide_True by done. done.
Qed.

(** The version check of [TopologySnapshotIfChanged] is sound: when a snapshot taken at [s]
    is reported unchanged after any sequence of method calls, the whole topology is still the
    one of [s]; and a reported change always carries the current topology. *)
Theorem TopologySnapshot_sound (s s' : State) :
  tree_reachable s → rtc tree_step s s' →
  let '(snapshot, changed) := TopologySnapshotIfChanged s' (versionOf s) in
  sn_Version snapshot = versionOf s' ∧
  if changed then
    sn_Local snapshot = s_local s' ∧ sn_Parent snapshot = s_parent s' ∧
    (∀ e, e ∈ sn_Children snapshot ↔ ∃ c, s_children s' !! c = Some e) ∧
    (∀ t p, (t, p) ∈ sn_Relations snapshot ↔ s_parents s' !! t = Some p)
  else s' = s.
Proof.
  intros W%tree_reachable_wf Hr. unfold TopologySnapshotIfChanged.
  destruct (negb _ && negb _ && _) eqn:E; simpl; (split; [done|]).
  - bool_prop. destruct (tree_steps_version _ _ Hr) as [_ Heq]. apply Heq; [|done].
    match goal with E : versionOf s = versionOf s' |- _ => by injection E end.
  - split_and!; try done; [|intros; apply elem_of_map_to_list].
    intros e. rewrite list_elem_of_fmap. split.
    + intros ([c e'] & -> & Hc%elem_of_map_to_list). eauto.
    + intros [c Hc]. exists (c, e). split; [done|]. by apply elem_of_map_to_list.
Qed.

(** On every state reached by honest announcements (no node is announced under one of its
    own descendants) [ScopeContains] terminates and answers whether the anchor is the candidate
    or one of its ancestors, both being known nodes. *)
Theorem ScopeContains_correct (s : State) (anchor candidate : NodeID) :
  acyclic_reachable s → anchor ≠ 0 → candidate ≠ 0 →
  ∃ n b, (∀ fuel, (n ≤ fuel)%nat →
            ScopeContains fuel s anchor candidate = Ok (Some (b, s_membershipEpoch s))) ∧
    (b = true ↔ reachable s anchor = true ∧ reachable s candidate = true ∧
                rtc (up (s_parents s)) candidate anchor).
Proof.
  intros Hs Ha Hc. pose proof (acyclic_reachable_rooted _ Hs candidate) as Hroot.
  apply acyclic_reachable_reachable, tree_reachable_wf in Hs as W.
  destruct (scope_walk_rooted s anchor candidate W Hroot) as (n & b & Hn & Hb).
  unfold ScopeContains. rewrite !(proj2 (checkNode_ok _)) by done. simpl.
  destruct (reachable s anchor) eqn:E1, (reachable s candidate) eqn:E2; simpl.
  - exists n, b. split; [|naive_solver]. intros fuel Hf. by rewrite Hn.
  - exists 0%nat, false. split; [done|]. naive_solver.
  - exists 0%nat, false. split; [done|]. naive_solver.
  - exists 0%nat, false. split; [done|]. naive_solver.
Qed.

(** Reconnecting a subtree: announcing the relations of a node in the order [Relations]
    returns them is accepted in full by a parent that has the node as a child and does not know
    its descendants yet, and afterwards the parent routes every descendant through the node and
    records the same immediate parents. *)
Theorem announce_all_accepted (s u : State) (e : Edge) :
  tree_reachable s → (∀ x, is_Some (s_parents s !! x) → ∃ n, at_depth s x n) →
  tree_reachable u → s_children u !! s_local s = Some e →
  (∀ t, is_Some (s_parents s !! t) → fresh_for u t) →
  ∃ u', announce_all u (s_local s) (ed_Epoch e) (Relations s) = Ok u' ∧
    ∀ t p, s_parents s !! t = Some p → s_routes u' !! t = Some (s_local s) ∧ s_parents u' !! t = Some p.
Proof.
  intros W%tree_reachable_wf Hall Wu%tree_reachable_wf Hc Hf.
  destruct (announce_all_prefix s u (s_local s) e [] (Relations s) u) as (u' & Hu & Hres);
    [done..|set_solver|done|].
  exists u'. split; [done|]. intros t p Hp. by apply Hres, elem_of_Relations.
Qed.

(** ** Concrete executions *)

(** Run a list of operations from [New local]; stops at the first error. *)
Fixpoint run_ops (s : State) (ops : list tree_op) : option State :=
  match ops with
  | [] => Some s
  | op :: rest => s' ← tree_exec s op; run_ops s' rest
  end.
Definition run_from (local : NodeID) (ops : list tree_op) : option State :=
  match New local with Ok s => run_ops s ops | Err _ => None end.

Lemma run_ops_steps ops s s' : run_ops s ops = Some s' → rtc tree_step s s'.
Proof.
  revert s. induction ops as [|op ops IH]; intros s H; simpl in H; [by simplify_eq|].
  destruct (tree_exec s op) as [s1|] eqn:E; [|done]. simpl in H.
  eapply rtc_l; [by econstructor|]. by apply IH.
Qed.

Lemma run_from_reachable local ops s : run_from local ops = Some s → tree_reachable s.
Proof.
  unfold run_from. destruct (New local) as [s0|] eqn:E; [|done]. intros H.
  exists local, s0. split; [done|]. by eapply run_ops_steps.
Qed.

Lemma run_from_acyclic local ops s :
  run_from local ops = Some s → Forall (λ op, match op with OpAnnounce _ _ _ _ => False | _ => True end) ops →
  acyclic_reachable s.
Proof.
  unfold run_from. destruct (New local) as [s0|] eqn:E; [|done]. intros H Hf.
  exists local, s0. split; [done|]. clear E. revert s0 H.
  induction Hf as [|op ops Hop Hf IH]; intros s0 H; simpl in H; [by simplify_eq|].
  destruct (tree_exec s0 op) as [s1|] eqn:E1; [|done]. simpl in H.
  eapply rtc_l; [|by apply IH]. econstructor; [done|]. by destruct op.
Qed.

(** Child 2 announces 3 under itself, 4 under 3, and then 3 again, now under 4. *)
Definition cycle_ops : list tree_op :=
  [OpAttachChild 2 1; OpAnnounce 2 3 2 1; OpAnnounce 2 4 3 1; OpAnnounce 2 3 4 1].
Definition cycle_state : State := default (mkState 0 None ∅ ∅ ∅ 0 0) (run_from 1 cycle_ops).

(** The acceptance test of [AnnounceWithParent] does not exclude cycles: a single child can
    announce a node under that node's own descendant, every announcement is accepted, and then
    [ScopeContains] never returns for the nodes on the cycle (no amount of iterations is enough). *)
Theorem ScopeContains_diverges :
  run_from 1 cycle_ops = Some cycle_state ∧ tree_reachable cycle_state ∧
  ∀ fuel, ScopeContains fuel cycle_state 1 3 = Ok None.
Proof.
  assert (run_from 1 cycle_ops = Some cycle_state) as E by (by vm_compute).
  split_and!; [done|by eapply run_from_reachable|].
  assert (∀ fuel, scope_walk fuel cycle_state 1 3 = None ∧ scope_walk fuel cycle_state 1 4 = None) as Hw.
  { induction fuel as [|fuel [IH3 IH4]]; [done|]. split; cbn [scope_walk].
    - replace (mget (s_parents cycle_state) 3) with 4 by (by vm_compute). done.
    - replace (mget (s_parents cycle_state) 4) with 3 by (by vm_compute). done. }
  intros fuel. unfold ScopeContains.
  replace (reachable cycle_state 1) with true by (by vm_compute).
  replace (reachable cycle_state 3) with true by (by vm_compute).
  simpl. by destruct (Hw fuel) as [-> _].
Qed.

(** A hub (node 1) with parent 9 and children 2 and 5; 3 and 4 are below 2. *)
Definition demo_ops : list tree_op :=
  [OpAttachParent 9; OpAttachChild 2 7; OpAttachChild 5 8; OpAnnounce 2 3 2 7; OpAnnounce 2 4 3 7].
Definition demo_state : State := default (mkState 0 None ∅ ∅ ∅ 0 0) (run_from 1 demo_ops).

Lemma demo_run : run_from 1 demo_ops = Some demo_state.
Proof. by vm_compute. Defined.
Lemma demo_reachable : tree_reachable demo_state.
Proof. exact (run_from_reachable 1 demo_ops demo_state demo_run). Defined.

Lemma reachable_tree_wf_witness : tree_wf demo_state.
Proof. apply (reachable_tree_wf demo_state), demo_reachable. Defined.

Lemma RouteTo_correct_witness :
  4 ≠ s_local demo_state ∧ 2 ≠ s_local demo_state ∧ s_routes demo_state !! 4 = Some 2 ∧
  s_children demo_state !! 2 = Some (mkEdge 2 7).
Proof.
  pose proof (RouteTo_correct demo_state 4 demo_reachable) as H.
  replace (RouteTo demo_state 4) with (Ok (E := tree_error) (mkRoute 4 2 7 DirectionDown)) in H
    by (vm_compute; reflexivity).
  destruct H as (_ & H1 & H2 & H3 & H4 & _). exact (conj H1 (conj H2 (conj H3 H4))).
Defined.

Lemma ValidateSource_exclusive_witness :
  4 ≠ s_local demo_state ∧ isParentNode demo_state 4 = false ∧
  s_children demo_state !! 2 = Some (mkEdge 2 7) ∧ (ValidateSource demo_state 5 4 8 = Ok tt → 5 = 2).
Proof.
  apply (ValidateSource_exclusive demo_state 2 5 4 7 8); [apply demo_reachable|vm_compute; reflexivity].
Defined.

Lemma WithdrawChild_exact_witness :
  let '(s', removed) := WithdrawChild demo_state 2 in
  (∀ t, t ∈ removed ↔ s_routes demo_state !! t = Some 2) ∧ 2 ∈ removed ∧
  (∀ t, s_routes s' !! t = if decide (t ∈ removed) then None else s_routes demo_state !! t) ∧
  (∀ t, s_parents s' !! t = if decide (t ∈ removed) then None else s_parents demo_state !! t) ∧
  (∀ c, s_children s' !! c = if decide (c = 2) then None else s_children demo_state !! c) ∧
  is_ok (AttachChild s' 2 3) = true.
Proof.
  apply (WithdrawChild_exact demo_state 2 3); [apply demo_reachable|vm_compute; eauto|done].
Defined.

Definition demo_later : State := default demo_state (tree_exec demo_state (OpWithdrawChild 5)).

Lemma TopologySnapshot_sound_witness :
  let '(snapshot, changed) := TopologySnapshotIfChanged demo_later (versionOf demo_state) in
  sn_Version snapshot = versionOf demo_later ∧
  if changed then
    sn_Local snapshot = s_local demo_later ∧ sn_Parent snapshot = s_parent demo_later ∧
    (∀ e, e ∈ sn_Children snapshot ↔ ∃ c, s_children demo_later !! c = Some e) ∧
    (∀ t p, (t, p) ∈ sn_Relations snapshot ↔ s_parents demo_later !! t = Some p)
  else demo_later = demo_state.
Proof.
  apply (TopologySnapshot_sound demo_state demo_later); [apply demo_reachable|].
  apply rtc_once. apply (tree_step_intro _ (OpWithdrawChild 5)). vm_compute. reflexivity.
Defined.

(** The same tree built without announcements: 1 with the children 2 and 5. *)
Definition star_state : State :=
  default (mkState 0 None ∅ ∅ ∅ 0 0) (run_from 1 [OpAttachChild 2 7; OpAttachChild 5 8]).
Lemma star_acyclic : acyclic_reachable star_state.
Proof.
  apply (run_from_acyclic 1 [OpAttachChild 2 7; OpAttachChild 5 8]);
    [vm_compute; reflexivity|repeat constructor].
Defined.

Lemma ScopeContains_correct_witness :
  ∃ n b, (∀ fuel, (n ≤ fuel)%nat →
            ScopeContains fuel star_state 1 5 = Ok (Some (b, s_membershipEpoch star_state))) ∧
    (b = true ↔ reachable star_state 1 = true ∧ reachable star_state 5 = true ∧
                rtc (up (s_parents star_state)) 5 1).
Proof. apply (ScopeContains_correct star_state 1 5); [apply star_acyclic|done|done]. Defined.

(** Node 20 with the one child 1, which has announced nothing yet. *)
Definition upper_state : State := default (mkState 0 None ∅ ∅ ∅ 0 0) (run_from 20 [OpAttachChild 1 6]).

Lemma star_nodes x : is_Some (s_parents star_state !! x) → x = 2 ∨ x = 5.
Proof.
  intros [p Hp]. destruct (decide (x = 2)); [by left|]. destruct (decide (x = 5)); [by right|].
  exfalso. change (s_parents star_state) with (<[5:=1]> (<[2:=1]> (∅ : gmap Z Z))) in Hp.
  by rewrite !lookup_insert_ne in Hp.
Qed.

Lemma star_depth x : is_Some (s_parents star_state !! x) → ∃ n, at_depth star_state x n.
Proof.
  intros Hx%star_nodes. exists 1%nat. destruct Hx as [-> | ->];
    (apply (at_below _ _ 1); [done|vm_compute; reflexivity|apply (at_local star_state)]).
Qed.

Lemma announce_all_accepted_witness :
  ∃ u', announce_all upper_state 1 6 (Relations star_state) = Ok u' ∧
    ∀ t p, s_parents star_state !! t = Some p → s_routes u' !! t = Some 1 ∧ s_parents u' !! t = Some p.
Proof.
  apply (announce_all_accepted star_state upper_state (mkEdge 1 6)).
  - apply acyclic_reachable_reachable, star_acyclic.
  - apply star_depth.
  - apply (run_from_reachable 20 [OpAttachChild 1 6]). vm_compute. reflexivity.
  - vm_compute. reflexivity.
  - intros t Ht%star_nodes. destruct Ht as [-> | ->]; vm_compute; repeat split; congruence.
Defined.
