(* ===== verification/PolicySchema.v ===== *)
(** * Policy records and their validators (protocol/schema_policy.go)

    Definitions (sets of rules), bindings of subjects to definitions within an owner scope,
    and the evaluation record.  [fmt.Sprint] of a capability list, used in the keys of rules,
    prints the elements separated by spaces inside brackets. *)

From Stdlib Require Import Sorting.Sorted.
From S2P Require Import Prelude GoStd GoSort Wire.
Open Scope Z_scope.

Definition BuiltinPolicySuperadmin : string := "superadmin".
Definition PolicySelectorExact : string := "exact".
Definition PolicySelectorPrefix : string := "prefix".
Definition PolicySelectorAll : string := "all".
Definition PolicyScopeOwner : string := "owner".
Definition PolicyScopeSubtree : string := "subtree".
Definition PolicyScopeAuthorityDomain : string := "authority-domain".
Definition PolicyEvaluationNone : string := "none".
Definition PolicyEvaluationExactGrant : string := "exact-grant".
Definition PolicyEvaluationBinding : string := "binding".
Definition MaxPolicyRulesPerDefinition : Z := 128.
Definition MaxCapabilities : Z := 64.
Definition MaxLabelBytes : Z := 255.
Definition MaxCollectionRevision : Z := 2 ^ 53 - 1.

Inductive schema_error :=
| EVersion
| EWire (e : wire_error)
| ESelectorValue | ESelectorKind | ECapabilityCount | ECapabilityOrder
| ERevisionRange | ERuleCount | ERuleDuplicate | EScopeKind
| ECreatedAt | EExpiresAt | EGeneration | EEvaluationSource | EEvaluationMetadata.

Definition validateVersion (version : Z) : result schema_error unit :=
  fail_if negb (version =? 1) with EVersion ;; Ok tt.

(** ** Rules *)

Record PolicyResourceSelectorV1 := mkResourceSelector { rs_Kind : string; rs_Value : string }.
#[global] Instance PolicyResourceSelectorV1_eq_dec : EqDecision PolicyResourceSelectorV1.
Proof. solve_decision. Defined.

Definition ResourceSelector_Validate (s : PolicyResourceSelectorV1) : result schema_error unit :=
  if String.eqb (rs_Kind s) PolicySelectorAll then
    fail_if negb (String.eqb (rs_Value s) "") with ESelectorValue ;; Ok tt
  else if String.eqb (rs_Kind s) PolicySelectorExact || String.eqb (rs_Kind s) PolicySelectorPrefix then
    mapErr EWire (ResourceID_Validate (mkResourceID 1 (rs_Value s)))
  else Err ESelectorKind.

Record PolicyCapabilitySelectorV1 := mkCapabilitySelector { cs_Kind : string; cs_Values : list CapabilityID }.
#[global] Instance PolicyCapabilitySelectorV1_eq_dec : EqDecision PolicyCapabilitySelectorV1.
Proof. solve_decision. Defined.

(** The loop over the values; [prev] is the value before, if any. *)
Fixpoint check_capabilities (prev : option CapabilityID) (values : list CapabilityID) : result schema_error unit :=
  match values with
  | [] => Ok tt
  | value :: rest =>
    _ ← mapErr EWire (CapabilityID_Validate value);
    fail_if match prev with Some p => str_leb value p | None => false end with ECapabilityOrder ;;
    check_capabilities (Some value) rest
  end.

Definition CapabilitySelector_Validate (s : PolicyCapabilitySelectorV1) : result schema_error unit :=
  if String.eqb (cs_Kind s) PolicySelectorAll then
    fail_if negb (Z.of_nat (length (cs_Values s)) =? 0) with ESelectorValue ;; Ok tt
  else if String.eqb (cs_Kind s) PolicySelectorExact then
    fail_if (Z.of_nat (length (cs_Values s)) =? 0) || (MaxCapabilities <? Z.of_nat (length (cs_Values s)))
      with ECapabilityCount ;;
    check_capabilities None (cs_Values s)
  else Err ESelectorKind.

Record PolicyRuleV1 := mkRule { rule_Resource : PolicyResourceSelectorV1; rule_Capability : PolicyCapabilitySelectorV1 }.
#[global] Instance PolicyRuleV1_eq_dec : EqDecision PolicyRuleV1.
Proof. solve_decision. Defined.

Definition Rule_Validate (r : PolicyRuleV1) : result schema_error unit :=
  _ ← ResourceSelector_Validate (rule_Resource r);
  CapabilitySelector_Validate (rule_Capability r).

Definition Sprint (values : list CapabilityID) : string := "[" +:+ String.concat " " values +:+ "]".

Definition NUL : string := String Ascii.zero "".
Definition rule_key (r : PolicyRuleV1) : string :=
  rs_Kind (rule_Resource r) +:+ NUL +:+ rs_Value (rule_Resource r) +:+ NUL +:+
  cs_Kind (rule_Capability r) +:+ NUL +:+ Sprint (cs_Values (rule_Capability r)).

Fixpoint check_rules (seen : gset string) (rules : list PolicyRuleV1) : result schema_error unit :=
  match rules with
  | [] => Ok tt
  | rule :: rest =>
    _ ← Rule_Validate rule;
    fail_if bool_decide (rule_key rule ∈ seen) with ERuleDuplicate ;;
    check_rules ({[ rule_key rule ]} ∪ seen) rest
  end.

Definition validatePolicyRules (rules : list PolicyRuleV1) : result schema_error unit :=
  fail_if (Z.of_nat (length rules) =? 0) || (MaxPolicyRulesPerDefinition <? Z.of_nat (length rules)) with ERuleCount ;;
  check_rules ∅ rules.

(** [SortPolicyRules]: the values of each rule, then the rules. *)
Definition sort_rule_values (r : PolicyRuleV1) : PolicyRuleV1 :=
  mkRule (rule_Resource r)
    (mkCapabilitySelector (cs_Kind (rule_Capability r)) (SortStrings (cs_Values (rule_Capability r)))).
Definition rule_less (l r : PolicyRuleV1) : bool :=
  if negb (String.eqb (rs_Kind (rule_Resource l)) (rs_Kind (rule_Resource r)))
  then str_ltb (rs_Kind (rule_Resource l)) (rs_Kind (rule_Resource r))
  else if negb (String.eqb (rs_Value (rule_Resource l)) (rs_Value (rule_Resource r)))
  then str_ltb (rs_Value (rule_Resource l)) (rs_Value (rule_Resource r))
  else if negb (String.eqb (cs_Kind (rule_Capability l)) (cs_Kind (rule_Capability r)))
  then str_ltb (cs_Kind (rule_Capability l)) (cs_Kind (rule_Capability r))
  else str_ltb (Sprint (cs_Values (rule_Capability l))) (Sprint (cs_Values (rule_Capability r))).
Definition SortPolicyRules (rules : list PolicyRuleV1) : list PolicyRuleV1 :=
  SortSlice rule_less (sort_rule_values <$> rules).

(** ** Definitions *)

Record PolicyDefinitionV1 := mkPolicyDefinition {
  pd_Version : Z;
  pd_ID : string;
  pd_Label : string;
  pd_Revision : Z;
  pd_Immutable : bool;
  pd_Rules : list PolicyRuleV1
}.
#[global] Instance PolicyDefinitionV1_eq_dec : EqDecision PolicyDefinitionV1.
Proof. solve_decision. Defined.

Definition Definition_Validate (d : PolicyDefinitionV1) : result schema_error unit :=
  _ ← validateVersion (pd_Version d);
  _ ← mapErr EWire (validateExtensibleIdentifier (pd_ID d));
  _ ← mapErr EWire (validateText (pd_Label d) MaxLabelBytes true);
  fail_if (pd_Revision d =? 0) || (MaxCollectionRevision <? pd_Revision d) with ERevisionRange ;;
  validatePolicyRules (pd_Rules d).

Record PolicyDefinitionPutV1 := mkDefinitionPut {
  put_Version : Z;
  put_ID : string;
  put_Label : string;
  put_ExpectedRevision : Z;
  put_Rules : list PolicyRuleV1
}.

Definition DefinitionPut_Validate (d : PolicyDefinitionPutV1) : result schema_error unit :=
  _ ← validateVersion (put_Version d);
  _ ← mapErr EWire (validateExtensibleIdentifier (put_ID d));
  _ ← mapErr EWire (validateText (put_Label d) MaxLabelBytes true);
  fail_if MaxCollectionRevision <? put_ExpectedRevision d with ERevisionRange ;;
  validatePolicyRules (put_Rules d).

Record PolicyDefinitionDeleteV1 := mkDefinitionDelete {
  del_Version : Z;
  del_ID : string;
  del_ExpectedRevision : Z
}.

Definition DefinitionDelete_Validate (d : PolicyDefinitionDeleteV1) : result schema_error unit :=
  _ ← validateVersion (del_Version d);
  _ ← mapErr EWire (validateExtensibleIdentifier (del_ID d));
  fail_if (del_ExpectedRevision d =? 0) || (MaxCollectionRevision <? del_ExpectedRevision d) with ERevisionRange ;;
  Ok tt.

(** ** Bindings *)

Record PolicyOwnerScopeV1 := mkScope { sc_Kind : string; sc_NodeID : string }.
#[global] Instance PolicyOwnerScopeV1_eq_dec : EqDecision PolicyOwnerScopeV1.
Proof. solve_decision. Defined.

Definition Scope_Validate (s : PolicyOwnerScopeV1) : result schema_error unit :=
  fail_if negb (String.eqb (sc_Kind s) PolicyScopeOwner) && negb (String.eqb (sc_Kind s) PolicyScopeSubtree)
          && negb (String.eqb (sc_Kind s) PolicyScopeAuthorityDomain) with EScopeKind ;;
  mapErr EWire (validateNodeIDText (sc_NodeID s)).

Record PolicyBindingV1 := mkBinding {
  b_Version : Z;
  b_BindingID : string;
  b_Subject : string;
  b_DefinitionID : string;
  b_Scope : PolicyOwnerScopeV1;
  b_CreatedBy : string;
  b_CreatedAtUnixMS : Z;
  b_ExpiresAtUnixMS : Z
}.
#[global] Instance PolicyBindingV1_eq_dec : EqDecision PolicyBindingV1.
Proof. solve_decision. Defined.

Definition Binding_Validate (b : PolicyBindingV1) : result schema_error unit :=
  _ ← validateVersion (b_Version b);
  _ ← mapErr EWire (validateHexID (b_BindingID b) 16);
  _ ← mapErr EWire (validateNodeIDText (b_Subject b));
  _ ← mapErr EWire (validateExtensibleIdentifier (b_DefinitionID b));
  _ ← Scope_Validate (b_Scope b);
  _ ← mapErr EWire (validateNodeIDText (b_CreatedBy b));
  fail_if b_CreatedAtUnixMS b <=? 0 with ECreatedAt ;;
  fail_if (b_ExpiresAtUnixMS b <? 0)
          || (negb (b_ExpiresAtUnixMS b =? 0) && (b_ExpiresAtUnixMS b <=? b_CreatedAtUnixMS b)) with EExpiresAt ;;
  Ok tt.

Record PolicyBindingCreateV1 := mkBindingCreate {
  bc_Version : Z;
  bc_BindingID : string;
  bc_Subject : string;
  bc_DefinitionID : string;
  bc_Scope : PolicyOwnerScopeV1;
  bc_ExpiresAtUnixMS : Z
}.

Definition BindingCreate_Validate (b : PolicyBindingCreateV1) : result schema_error unit :=
  _ ← validateVersion (bc_Version b);
  _ ← mapErr EWire (validateHexID (bc_BindingID b) 16);
  _ ← mapErr EWire (validateNodeIDText (bc_Subject b));
  _ ← mapErr EWire (validateExtensibleIdentifier (bc_DefinitionID b));
  _ ← Scope_Validate (bc_Scope b);
  fail_if bc_ExpiresAtUnixMS b <? 0 with EExpiresAt ;;
  Ok tt.

(** [PolicyBindingRevokeV1.Validate] on the record [RevokeBinding] builds. *)
Definition BindingRevoke_Validate (version : Z) (bindingID : string) : result schema_error unit :=
  _ ← validateVersion version;
  mapErr EWire (validateHexID bindingID 16).

(** ** Evaluations *)

Record PolicyEvaluationV1 := mkEvaluation {
  pe_Version : Z;
  pe_Allowed : bool;
  pe_Source : string;
  pe_PolicyGeneration : Z;
  pe_TopologyEpoch : Z;
  pe_BindingID : string;
  pe_DefinitionID : string;
  pe_DefinitionRevision : Z;
  pe_RuleIndex : Z;
  pe_Scope : option PolicyOwnerScopeV1
}.
#[global] Instance PolicyEvaluationV1_eq_dec : EqDecision PolicyEvaluationV1.
Proof. solve_decision. Defined.

Definition Evaluation_Validate (e : PolicyEvaluationV1) : result schema_error unit :=
  _ ← validateVersion (pe_Version e);
  fail_if pe_PolicyGeneration e =? 0 with EGeneration ;;
  fail_if negb (String.eqb (pe_Source e) PolicyEvaluationNone) && negb (String.eqb (pe_Source e) PolicyEvaluationExactGrant)
          && negb (String.eqb (pe_Source e) PolicyEvaluationBinding) with EEvaluationSource ;;
  fail_if pe_Allowed e && String.eqb (pe_Source e) PolicyEvaluationNone with EEvaluationSource ;;
  fail_if negb (pe_Allowed e) && negb (String.eqb (pe_Source e) PolicyEvaluationNone) with EEvaluationSource ;;
  if String.eqb (pe_Source e) PolicyEvaluationBinding then
    _ ← mapErr EWire (validateHexID (pe_BindingID e) 16);
    _ ← mapErr EWire (validateExtensibleIdentifier (pe_DefinitionID e));
    fail_if (pe_DefinitionRevision e =? 0) || (pe_TopologyEpoch e =? 0) || (pe_RuleIndex e <? 0) with EEvaluationMetadata ;;
    match pe_Scope e with
    | None => Err EEvaluationMetadata
    | Some scope => Scope_Validate scope
    end
  else
    fail_if negb (pe_TopologyEpoch e =? 0) || negb (String.eqb (pe_BindingID e) "") || negb (String.eqb (pe_DefinitionID e) "")
            || negb (pe_DefinitionRevision e =? 0) || negb (pe_RuleIndex e =? 0) || bool_decide (is_Some (pe_Scope e))
      with EEvaluationMetadata ;;
    Ok tt.
