(* ===== verification/FileSchema.v ===== *)
(** * File transfer and session records (protocol/schema_file.go, schema_session.go)

    The records that an upload exchanges, their validation, and those that are JSON payloads
    as encoding/json sees them, with the round trips. *)

From S2P Require Import Prelude GoStd GoSort GoEncoding GoJSON GoFloat GoStruct Wire Codec Payload PolicySchema.
Open Scope Z_scope.

Definition MaxFileChunkBytes : Z := 65536.
Definition MaxSessionChunkBytes : Z := 262144.
Definition SchemaFileProgressV1 : string := "mfh.file.progress.v1".
Definition SchemaFileOfferV1 : string := "mfh.file.offer.v1".
Definition BuiltinFileUpload : string := "file/upload".

Inductive file_error :=
| FWire (e : wire_error) | FVersion | FOfferBounds | FChunkBounds | FSize | FProgressBytes | FState
| FSummaryBounds | FTransfersBounds | FSummary (index : Z) (e : file_error) | FDuplicate | FOrder | FGrantBounds | FDataBounds.

Definition version1 (version : Z) : result file_error unit := mapErr (λ _, FVersion) (validateVersion version).
Definition hex_field (value : string) (nbytes : Z) : result file_error unit := mapErr FWire (validateHexID value nbytes).
Definition text_bounds (value : string) (maxBytes : Z) (required : bool) : result file_error unit := mapErr FWire (validateText value maxBytes required).

(** ** File transfers *)

Record FileOfferV1 := mkOffer {
  fo_Version : Z; fo_TransferID : string; fo_Path : string; fo_Size : Z; fo_SHA256 : string;
  fo_ChunkSize : Z; fo_ContentType : string; fo_ExpiresAtUnixMS : Z
}.
#[global] Instance FileOfferV1_eq_dec : EqDecision FileOfferV1.
Proof. solve_decision. Defined.

Definition Offer_Validate (o : FileOfferV1) : result file_error unit :=
  _ ← version1 (fo_Version o);
  _ ← hex_field (fo_TransferID o) 16;
  _ ← mapErr FWire (validateRelativePath (fo_Path o));
  fail_if (fo_Size o <? 0) || (fo_ChunkSize o <=? 0) || (MaxFileChunkBytes <? fo_ChunkSize o) || (fo_ExpiresAtUnixMS o <=? 0) with FOfferBounds ;;
  _ ← hex_field (fo_SHA256 o) 32;
  text_bounds (fo_ContentType o) MaxContentTypeBytes false.

Record FileChunkV1 := mkChunk { fk_Version : Z; fk_TransferID : string; fk_Offset : Z; fk_Data : list byte; fk_SHA256 : string }.
Definition Chunk_Validate (c : FileChunkV1) : result file_error unit :=
  _ ← version1 (fk_Version c);
  _ ← hex_field (fk_TransferID c) 16;
  fail_if (fk_Offset c <? 0) || (blen (fk_Data c) =? 0) || (MaxFileChunkBytes <? blen (fk_Data c)) with FChunkBounds ;;
  hex_field (fk_SHA256 c) 32.

Record FileCompleteV1 := mkComplete { fc_Version : Z; fc_TransferID : string; fc_Size : Z; fc_SHA256 : string }.
Definition Complete_Validate (c : FileCompleteV1) : result file_error unit :=
  _ ← version1 (fc_Version c);
  _ ← hex_field (fc_TransferID c) 16;
  fail_if fc_Size c <? 0 with FSize ;;
  hex_field (fc_SHA256 c) 32.

Record FileCancelV1 := mkCancel { fx_Version : Z; fx_TransferID : string; fx_Reason : string }.
Definition Cancel_Validate (c : FileCancelV1) : result file_error unit :=
  _ ← version1 (fx_Version c);
  _ ← hex_field (fx_TransferID c) 16;
  text_bounds (fx_Reason c) MaxLabelBytes true.

Definition transfer_states : list string := ["offered"; "receiving"; "completed"; "cancelled"; "failed"].
Definition known_state (s : string) : bool := existsb (String.eqb s) transfer_states.

Record FileProgressV1 := mkProgress {
  fp_Version : Z; fp_TransferID : string; fp_ReceivedBytes : Z; fp_TotalBytes : Z; fp_State : string; fp_Error : string
}.
Definition Progress_Validate (p : FileProgressV1) : result file_error unit :=
  _ ← version1 (fp_Version p);
  _ ← hex_field (fp_TransferID p) 16;
  fail_if (fp_ReceivedBytes p <? 0) || (fp_TotalBytes p <? 0) || (fp_TotalBytes p <? fp_ReceivedBytes p) with FProgressBytes ;;
  fail_if negb (known_state (fp_State p)) with FState ;;
  text_bounds (fp_Error p) 2048 false.

Record FileTransferSummaryV1 := mkSummary {
  fs_TransferID : string; fs_OwnerNodeID : string; fs_Path : string; fs_ReceivedBytes : Z; fs_TotalBytes : Z;
  fs_State : string; fs_ExpiresAtUnixMS : Z; fs_Error : string
}.
Definition Summary_Validate (s : FileTransferSummaryV1) : result file_error unit :=
  _ ← hex_field (fs_TransferID s) 16;
  _ ← mapErr FWire (validateNodeIDText (fs_OwnerNodeID s));
  _ ← mapErr FWire (validateRelativePath (fs_Path s));
  fail_if (fs_ReceivedBytes s <? 0) || (fs_TotalBytes s <? 0) || (fs_TotalBytes s <? fs_ReceivedBytes s) || (fs_ExpiresAtUnixMS s <=? 0) with FSummaryBounds ;;
  fail_if negb (known_state (fs_State s)) with FState ;;
  text_bounds (fs_Error s) 2048 false.

Record FileTransfersV1 := mkTransfers { ft_Version : Z; ft_Revision : Z; ft_Transfers : list FileTransferSummaryV1 }.
(** The loop: [seen] is the set of identifiers so far, [previous] the last one. *)
Fixpoint check_transfers (index : Z) (seen : gset string) (previous : option string) (l : list FileTransferSummaryV1) : result file_error unit :=
  match l with
  | [] => Ok tt
  | transfer :: rest =>
    _ ← mapErr (FSummary index) (Summary_Validate transfer);
    fail_if bool_decide (fs_TransferID transfer ∈ seen) with FDuplicate ;;
    fail_if match previous with Some p => negb (str_ltb p (fs_TransferID transfer)) | None => false end with FOrder ;;
    check_transfers (index + 1) ({[fs_TransferID transfer]} ∪ seen) (Some (fs_TransferID transfer)) rest
  end.
Definition Transfers_Validate (t : FileTransfersV1) : result file_error unit :=
  _ ← version1 (ft_Version t);
  fail_if (ft_Revision t =? 0) || (MaxItems <? Z.of_nat (length (ft_Transfers t))) with FTransfersBounds ;;
  check_transfers 0 ∅ None (ft_Transfers t).

(** ** Resource sessions *)

Record SessionGrantV2 := mkSessionGrant {
  sg_Version : Z; sg_SessionID : string; sg_Capability : CapabilityID; sg_MaxChunkBytes : Z; sg_MaxTotalBytes : Z; sg_ExpiresAtUnixMS : Z
}.
(** [now]: the clock, in milliseconds. *)
Definition SessionGrant_Validate (now : Z) (g : SessionGrantV2) : result file_error unit :=
  fail_if negb (sg_Version g =? 2) with FVersion ;;
  _ ← hex_field (sg_SessionID g) 16;
  _ ← mapErr FWire (CapabilityID_Validate (sg_Capability g));
  fail_if (sg_MaxChunkBytes g <=? 0) || (MaxSessionChunkBytes <? sg_MaxChunkBytes g) with FGrantBounds ;;
  fail_if (sg_MaxTotalBytes g <? 0) || (sg_ExpiresAtUnixMS g <=? now) with FGrantBounds ;;
  Ok tt.

Record SessionDataV2 := mkSessionData { sd_Version : Z; sd_Offset : Z; sd_Checksum : string; sd_Data : list byte }.
Definition SessionData_Validate (d : SessionDataV2) : result file_error unit :=
  fail_if negb (sd_Version d =? 2) with FVersion ;;
  fail_if (sd_Offset d <? 0) || (MaxSessionChunkBytes <? blen (sd_Data d)) with FDataBounds ;;
  hex_field (sd_Checksum d) 32.

Record SessionCloseV2 := mkSessionClose { sc_Version : Z; sc_Commit : bool; sc_Schema : string; sc_Payload : list byte }.
Definition SessionClose_Validate (c : SessionCloseV2) : result file_error unit :=
  fail_if negb (sc_Version c =? 2) with FVersion ;;
  _ ← text_bounds (sc_Schema c) MaxSchemaBytes false;
  fail_if DefaultMaxPayload <? blen (sc_Payload c) with FDataBounds ;;
  Ok tt.

(** ** As JSON *)

Definition offer_zero : FileOfferV1 := mkOffer 0 "" "" 0 "" 0 "" 0.
Definition offer_spec : list (string * assignment FileOfferV1) :=
  [("version", assign_int (λ o x, mkOffer x (fo_TransferID o) (fo_Path o) (fo_Size o) (fo_SHA256 o) (fo_ChunkSize o) (fo_ContentType o) (fo_ExpiresAtUnixMS o)));
   ("transfer_id", assign_string (λ o x, mkOffer (fo_Version o) x (fo_Path o) (fo_Size o) (fo_SHA256 o) (fo_ChunkSize o) (fo_ContentType o) (fo_ExpiresAtUnixMS o)));
   ("path", assign_string (λ o x, mkOffer (fo_Version o) (fo_TransferID o) x (fo_Size o) (fo_SHA256 o) (fo_ChunkSize o) (fo_ContentType o) (fo_ExpiresAtUnixMS o)));
   ("size", assign_int (λ o x, mkOffer (fo_Version o) (fo_TransferID o) (fo_Path o) x (fo_SHA256 o) (fo_ChunkSize o) (fo_ContentType o) (fo_ExpiresAtUnixMS o)));
   ("sha256", assign_string (λ o x, mkOffer (fo_Version o) (fo_TransferID o) (fo_Path o) (fo_Size o) x (fo_ChunkSize o) (fo_ContentType o) (fo_ExpiresAtUnixMS o)));
   ("chunk_size", assign_int (λ o x, mkOffer (fo_Version o) (fo_TransferID o) (fo_Path o) (fo_Size o) (fo_SHA256 o) x (fo_ContentType o) (fo_ExpiresAtUnixMS o)));
   ("content_type", assign_string (λ o x, mkOffer (fo_Version o) (fo_TransferID o) (fo_Path o) (fo_Size o) (fo_SHA256 o) (fo_ChunkSize o) x (fo_ExpiresAtUnixMS o)));
   ("expires_at_unix_ms", assign_int (λ o x, mkOffer (fo_Version o) (fo_TransferID o) (fo_Path o) (fo_Size o) (fo_SHA256 o) (fo_ChunkSize o) (fo_ContentType o) x))].
Definition offer_fields (o : FileOfferV1) : list (string * any) :=
  member "version" (int_any (fo_Version o)) ++ member "transfer_id" (AString (fo_TransferID o)) ++ member "path" (AString (fo_Path o)) ++
  member "size" (int_any (fo_Size o)) ++ member "sha256" (AString (fo_SHA256 o)) ++ member "chunk_size" (int_any (fo_ChunkSize o)) ++
  text_field "content_type" (fo_ContentType o) ++ member "expires_at_unix_ms" (int_any (fo_ExpiresAtUnixMS o)).
#[global] Instance offer_json : JSONStruct FileOfferV1 := {| js_zero := offer_zero; js_spec := offer_spec; js_fields := offer_fields |}.
#[global] Instance offer_validated : ValidatedPayload FileOfferV1 := {| Validate := Offer_Validate |}.

Definition progress_zero : FileProgressV1 := mkProgress 0 "" 0 0 "" "".
Definition progress_spec : list (string * assignment FileProgressV1) :=
  [("version", assign_int (λ p x, mkProgress x (fp_TransferID p) (fp_ReceivedBytes p) (fp_TotalBytes p) (fp_State p) (fp_Error p)));
   ("transfer_id", assign_string (λ p x, mkProgress (fp_Version p) x (fp_ReceivedBytes p) (fp_TotalBytes p) (fp_State p) (fp_Error p)));
   ("received_bytes", assign_int (λ p x, mkProgress (fp_Version p) (fp_TransferID p) x (fp_TotalBytes p) (fp_State p) (fp_Error p)));
   ("total_bytes", assign_int (λ p x, mkProgress (fp_Version p) (fp_TransferID p) (fp_ReceivedBytes p) x (fp_State p) (fp_Error p)));
   ("state", assign_string (λ p x, mkProgress (fp_Version p) (fp_TransferID p) (fp_ReceivedBytes p) (fp_TotalBytes p) x (fp_Error p)));
   ("error", assign_string (λ p x, mkProgress (fp_Version p) (fp_TransferID p) (fp_ReceivedBytes p) (fp_TotalBytes p) (fp_State p) x))].
Definition progress_fields (p : FileProgressV1) : list (string * any) :=
  member "version" (int_any (fp_Version p)) ++ member "transfer_id" (AString (fp_TransferID p)) ++ member "received_bytes" (int_any (fp_ReceivedBytes p)) ++
  member "total_bytes" (int_any (fp_TotalBytes p)) ++ member "state" (AString (fp_State p)) ++ text_field "error" (fp_Error p).
#[global] Instance progress_json : JSONStruct FileProgressV1 := {| js_zero := progress_zero; js_spec := progress_spec; js_fields := progress_fields |}.
#[global] Instance progress_validated : ValidatedPayload FileProgressV1 := {| Validate := Progress_Validate |}.

Definition session_grant_zero : SessionGrantV2 := mkSessionGrant 0 "" "" 0 0 0.
Definition session_grant_spec : list (string * assignment SessionGrantV2) :=
  [("version", assign_int (λ g x, mkSessionGrant x (sg_SessionID g) (sg_Capability g) (sg_MaxChunkBytes g) (sg_MaxTotalBytes g) (sg_ExpiresAtUnixMS g)));
   ("session_id", assign_string (λ g x, mkSessionGrant (sg_Version g) x (sg_Capability g) (sg_MaxChunkBytes g) (sg_MaxTotalBytes g) (sg_ExpiresAtUnixMS g)));
   ("capability", assign_string (λ g x, mkSessionGrant (sg_Version g) (sg_SessionID g) x (sg_MaxChunkBytes g) (sg_MaxTotalBytes g) (sg_ExpiresAtUnixMS g)));
   ("max_chunk_bytes", assign_int (λ g x, mkSessionGrant (sg_Version g) (sg_SessionID g) (sg_Capability g) x (sg_MaxTotalBytes g) (sg_ExpiresAtUnixMS g)));
   ("max_total_bytes", assign_int (λ g x, mkSessionGrant (sg_Version g) (sg_SessionID g) (sg_Capability g) (sg_MaxChunkBytes g) x (sg_ExpiresAtUnixMS g)));
   ("expires_at_unix_ms", assign_int (λ g x, mkSessionGrant (sg_Version g) (sg_SessionID g) (sg_Capability g) (sg_MaxChunkBytes g) (sg_MaxTotalBytes g) x))].
Definition session_grant_fields (g : SessionGrantV2) : list (string * any) :=
  member "version" (int_any (sg_Version g)) ++ member "session_id" (AString (sg_SessionID g)) ++ member "capability" (AString (sg_Capability g)) ++
  member "max_chunk_bytes" (int_any (sg_MaxChunkBytes g)) ++ member "max_total_bytes" (int_any (sg_MaxTotalBytes g)) ++
  member "expires_at_unix_ms" (int_any (sg_ExpiresAtUnixMS g)).
#[global] Instance session_grant_json : JSONStruct SessionGrantV2 := {| js_zero := session_grant_zero; js_spec := session_grant_spec; js_fields := session_grant_fields |}.
Definition session_grant_validated (now : Z) : ValidatedPayload SessionGrantV2 := {| Validate := SessionGrant_Validate now |}.

Definition session_data_zero : SessionDataV2 := mkSessionData 0 0 "" [].
Definition session_data_spec : list (string * assignment SessionDataV2) :=
  [("version", assign_int (λ d x, mkSessionData x (sd_Offset d) (sd_Checksum d) (sd_Data d)));
   ("offset", assign_int (λ d x, mkSessionData (sd_Version d) x (sd_Checksum d) (sd_Data d)));
   ("checksum", assign_string (λ d x, mkSessionData (sd_Version d) (sd_Offset d) x (sd_Data d)));
   ("data", assign_bytes sd_Data (λ d x, mkSessionData (sd_Version d) (sd_Offset d) (sd_Checksum d) x))].
Definition session_data_fields (d : SessionDataV2) : list (string * any) :=
  member "version" (int_any (sd_Version d)) ++ member "offset" (int_any (sd_Offset d)) ++ member "checksum" (AString (sd_Checksum d)) ++
  member "data" (bytes_any (sd_Data d)).
#[global] Instance session_data_json : JSONStruct SessionDataV2 := {| js_zero := session_data_zero; js_spec := session_data_spec; js_fields := session_data_fields |}.
#[global] Instance session_data_validated : ValidatedPayload SessionDataV2 := {| Validate := SessionData_Validate |}.

Definition session_close_zero : SessionCloseV2 := mkSessionClose 0 false "" [].
Definition session_close_spec : list (string * assignment SessionCloseV2) :=
  [("version", assign_int (λ c x, mkSessionClose x (sc_Commit c) (sc_Schema c) (sc_Payload c)));
   ("commit", assign_bool (λ c x, mkSessionClose (sc_Version c) x (sc_Schema c) (sc_Payload c)));
   ("schema", assign_string (λ c x, mkSessionClose (sc_Version c) (sc_Commit c) x (sc_Payload c)));
   ("payload", assign_bytes sc_Payload (λ c x, mkSessionClose (sc_Version c) (sc_Commit c) (sc_Schema c) x))].
Definition session_close_fields (c : SessionCloseV2) : list (string * any) :=
  member "version" (int_any (sc_Version c)) ++ member "commit" (ABool (sc_Commit c)) ++ text_field "schema" (sc_Schema c) ++
  match sc_Payload c with [] => [] | data => member "payload" (bytes_any data) end.
#[global] Instance session_close_json : JSONStruct SessionCloseV2 := {| js_zero := session_close_zero; js_spec := session_close_spec; js_fields := session_close_fields |}.
#[global] Instance session_close_validated : ValidatedPayload SessionCloseV2 := {| Validate := SessionClose_Validate |}.

(** *** What is encoded is decoded *)

Definition offer_ok (o : FileOfferV1) : Prop :=
  is_i64 (fo_Version o) ∧ is_i64 (fo_Size o) ∧ is_i64 (fo_ChunkSize o) ∧ is_i64 (fo_ExpiresAtUnixMS o) ∧
  Forall valid [fo_TransferID o; fo_Path o; fo_SHA256 o; fo_ContentType o].
#[global] Program Instance offer_value : JSONValue FileOfferV1 := {| js_ok := offer_ok |}.
Next Obligation. intros o (? & ? & ? & ? & Hs). split_valid Hs. change (js_fields o) with (offer_fields o). unfold offer_fields. omitted; (split; [text_all|vm_compute; done]). Qed.
Next Obligation. intros o (? & ? & ? & ? & Hs). change (decode_members offer_spec offer_zero (offer_fields o) = Some o). unfold offer_fields. omitted; decode_all o. Qed.

Definition progress_ok (p : FileProgressV1) : Prop :=
  is_i64 (fp_Version p) ∧ is_i64 (fp_ReceivedBytes p) ∧ is_i64 (fp_TotalBytes p) ∧ Forall valid [fp_TransferID p; fp_State p; fp_Error p].
#[global] Program Instance progress_value : JSONValue FileProgressV1 := {| js_ok := progress_ok |}.
Next Obligation. intros p (? & ? & ? & Hs). split_valid Hs. change (js_fields p) with (progress_fields p). unfold progress_fields. omitted; (split; [text_all|vm_compute; done]). Qed.
Next Obligation. intros p (? & ? & ? & Hs). change (decode_members progress_spec progress_zero (progress_fields p) = Some p). unfold progress_fields. omitted; decode_all p. Qed.

Definition session_grant_ok (g : SessionGrantV2) : Prop :=
  is_i64 (sg_Version g) ∧ is_i64 (sg_MaxChunkBytes g) ∧ is_i64 (sg_MaxTotalBytes g) ∧ is_i64 (sg_ExpiresAtUnixMS g) ∧ Forall valid [sg_SessionID g; sg_Capability g].
#[global] Program Instance session_grant_value : JSONValue SessionGrantV2 := {| js_ok := session_grant_ok |}.
Next Obligation. intros g (? & ? & ? & ? & Hs). split_valid Hs. change (js_fields g) with (session_grant_fields g). unfold session_grant_fields. omitted; (split; [text_all|vm_compute; done]). Qed.
Next Obligation. intros g (? & ? & ? & ? & Hs). change (decode_members session_grant_spec session_grant_zero (session_grant_fields g) = Some g). unfold session_grant_fields. omitted; decode_all g. Qed.

Lemma base64_valid l : ValidString (Std_EncodeToString l) = true.
Proof.
  unfold Std_EncodeToString. apply bool_decide_eq_true. unfold code. rewrite bytes_of_string_of. apply utf8_ascii.
  rewrite fmap_app, Forall_app. split; [|apply Forall_fmap, Forall_replicate; done].
  pose proof (b64_roundtrip l) as Hr. destruct (b64_values (b64_encode l)) as [vs|] eqn:E; [|done]. apply b64_values_ascii in E.
  apply Forall_fmap. eapply Forall_impl; [exact E|]. intros c Hc. exact (proj2 Hc).
Qed.
Lemma bytes_any_ok l : json_ok (bytes_any l) = true.
Proof. destruct l; [done|]. apply base64_valid. Qed.
Definition session_data_ok (d : SessionDataV2) : Prop := is_i64 (sd_Version d) ∧ is_i64 (sd_Offset d) ∧ valid (sd_Checksum d).
#[global] Program Instance session_data_value : JSONValue SessionDataV2 := {| js_ok := session_data_ok |}.
Next Obligation.
  intros d (? & ? & Hs). change (js_fields d) with (session_data_fields d). unfold session_data_fields, member. split.
  - cbn [app]. apply members_ok. repeat (apply Forall_cons_2; [split; [reflexivity|first [assumption|by apply int_any_ok; left|apply bytes_any_ok]]|]). apply Forall_nil_2.
  - destruct (sd_Data d); vm_compute; done.
Qed.
Next Obligation.
  intros d (? & ? & Hs). change (decode_members session_data_spec session_data_zero (session_data_fields d) = Some d). unfold session_data_fields, member. cbn [app].
  repeat (erewrite decode_step; [|lazy -[assign_int assign_string assign_bytes]; reflexivity|first [assign|apply assign_bytes_any]]). by destruct d.
Qed.

Definition session_close_ok (c : SessionCloseV2) : Prop := is_i64 (sc_Version c) ∧ valid (sc_Schema c).
#[global] Program Instance session_close_value : JSONValue SessionCloseV2 := {| js_ok := session_close_ok |}.
Next Obligation.
  intros c (? & Hs). change (js_fields c) with (session_close_fields c). unfold session_close_fields. split.
  - apply members_ok. omitted; destruct (sc_Payload c); cbn [app negb]; repeat (apply Forall_cons_2; [split; [reflexivity|first [assumption|reflexivity|by apply int_any_ok; left|apply bytes_any_ok]]|]); apply Forall_nil_2.
  - omitted; destruct (sc_Payload c); vm_compute; done.
Qed.
Next Obligation.
  intros c (? & Hs). change (decode_members session_close_spec session_close_zero (session_close_fields c) = Some c). unfold session_close_fields.
  omitted; destruct (sc_Payload c) eqn:Ep; cbn [app negb];
    repeat (erewrite decode_step; [|lazy -[assign_int assign_string assign_bool assign_bytes]; reflexivity|first [assign|apply assign_bytes_any]]); destruct c; simpl in *; by subst.
Qed.
