(* ===== verification/EnrollmentWire.v ===== *)
(** * Enrollment and admission records (protocol/enrollment.go, schema_provisioning.go)

    The frame of the enrollment handshake with its codec, and the records exchanged in it:
    permits and grants signed by the authority, and the messages of the handshake. *)

From S2P Require Import Prelude GoStd GoEncoding Wire Codec PolicySchema.
Open Scope Z_scope.

Definition SchemaVersionV1 : Z := 1.
Definition EnrollmentProtocolVersion : Z := 1.
Definition EnrollmentMaxPayload : Z := 64 * 1024.
Definition enrollmentHeaderSize : nat := 12.
Definition EnrollmentMagic : string := "MFHE".

Inductive enrollment_error :=
| NVersion | NMessageType | NPayloadRequired | NPayloadTooLarge | NWireLength | NWriter (e : codec_error)
| NReadHeader | NMagic | NFlags | NReadPayload
| NSchemaVersion | NWire (e : wire_error) | NBase64 | NExpiry | NTimeRange | NEpoch | NMaxUses
| NGrantResult | NPendingResult | NErrorResult | NResultStatus | NGrant.

(** ** Frames *)

Definition EnrollmentMessageClientInit : Z := 1.
Definition EnrollmentMessageChallenge : Z := 2.
Definition EnrollmentMessageProof : Z := 3.
Definition EnrollmentMessageResult : Z := 4.
Definition MessageType_Valid (t : Z) : bool := (EnrollmentMessageClientInit <=? t) && (t <=? EnrollmentMessageResult).

Record EnrollmentFrame := mkFrame { f_Version : Z; f_Type : Z; f_Payload : list byte }.

Definition Frame_Validate (frame : EnrollmentFrame) (maxPayload : Z) : result enrollment_error unit :=
  fail_if negb (f_Version frame =? EnrollmentProtocolVersion) with NVersion ;;
  fail_if negb (MessageType_Valid (f_Type frame)) with NMessageType ;;
  let maxPayload := if maxPayload <=? 0 then EnrollmentMaxPayload else maxPayload in
  fail_if blen (f_Payload frame) =? 0 with NPayloadRequired ;;
  fail_if maxPayload <? blen (f_Payload frame) with NPayloadTooLarge ;;
  Ok tt.

Record EnrollmentCodec := mkEnrollmentCodec { ec_MaxPayload : Z }.
Definition enrollmentPayloadLimit (codec : EnrollmentCodec) : Z :=
  if ec_MaxPayload codec <=? 0 then EnrollmentMaxPayload else ec_MaxPayload codec.

Definition enrollment_header (frame : EnrollmentFrame) : list byte :=
  bytes_of EnrollmentMagic ++ be_bytes 2 (f_Version frame) ++ [byte_of (f_Type frame); x00] ++ be_bytes 4 (blen (f_Payload frame)).

(** The header is written first, then the payload; [None] would mean that a write loop does
    not end. *)
Definition EnrollmentEncode `{Writer W} (codec : EnrollmentCodec) (w : W) (frame : EnrollmentFrame)
    : option (W * result enrollment_error unit) :=
  match Frame_Validate frame (enrollmentPayloadLimit codec) with
  | Err e => Some (w, Err e)
  | Ok _ =>
    if maxUint32 <? blen (f_Payload frame) then Some (w, Err NWireLength)
    else match writeAll w (enrollment_header frame) with
         | None => None
         | Some (w, Err e) => Some (w, Err (NWriter e))
         | Some (w, Ok _) =>
           match writeAll w (f_Payload frame) with
           | None => None
           | Some (w, Err e) => Some (w, Err (NWriter e))
           | Some (w, Ok _) => Some (w, Ok tt)
           end
         end
  end.

(** The frame and the rest of the stream. *)
Definition EnrollmentDecode (codec : EnrollmentCodec) (stream : list byte) : result enrollment_error (EnrollmentFrame * list byte) :=
  match ReadFull enrollmentHeaderSize stream with
  | None => Err NReadHeader
  | Some (header, stream) =>
    fail_if negb (bool_decide (slice 0 4 header = bytes_of EnrollmentMagic)) with NMagic ;;
    fail_if negb (be 7 8 header =? 0) with NFlags ;;
    let payloadLength := be 8 12 header in
    fail_if enrollmentPayloadLimit codec <? payloadLength with NPayloadTooLarge ;;
    match ReadFull (Z.to_nat payloadLength) stream with
    | None => Err NReadPayload
    | Some (payload, stream) =>
      let frame := mkFrame (be 4 6 header) (be 6 7 header) payload in
      _ ← Frame_Validate frame (enrollmentPayloadLimit codec);
      Ok (frame, stream)
    end
  end.

(** ** Field validators *)

Definition validateRawBase64 (value : string) (expectedBytes : Z) (required : bool) : result enrollment_error unit :=
  if bool_decide (value = "") && negb required then Ok tt
  else match RawStd_DecodeString value with
       | None => Err NBase64
       | Some decoded => fail_if negb (blen decoded =? expectedBytes) with NBase64 ;; Ok tt
       end.
Definition validateEd25519PublicKey (value : string) (required : bool) : result enrollment_error unit :=
  validateRawBase64 value 32 required.
Definition schemaVersion (version : Z) : result enrollment_error unit := mapErr (λ _, NSchemaVersion) (validateVersion version).
Definition hexID (value : string) (nbytes : Z) : result enrollment_error unit := mapErr NWire (validateHexID value nbytes).
Definition nodeIDText (value : string) : result enrollment_error unit := mapErr NWire (validateNodeIDText value).
Definition text (value : string) (maxBytes : Z) (required : bool) : result enrollment_error unit :=
  mapErr NWire (validateText value maxBytes required).

(** ** Records *)

Record EnrollmentClientInitV1 := mkClientInit {
  ci_Version : Z; ci_RequestID : string; ci_DevicePublicKey : string; ci_Permit : string;
  ci_ExpectedParentNodeID : string; ci_ExpectedParentPublicKey : string
}.
Definition ClientInit_Validate (m : EnrollmentClientInitV1) : result enrollment_error unit :=
  _ ← schemaVersion (ci_Version m);
  _ ← hexID (ci_RequestID m) 16;
  _ ← validateEd25519PublicKey (ci_DevicePublicKey m) true;
  _ ← text (ci_Permit m) (EnrollmentMaxPayload / 2) false;
  _ ← (if negb (bool_decide (ci_ExpectedParentNodeID m = "")) then nodeIDText (ci_ExpectedParentNodeID m) else Ok tt);
  validateEd25519PublicKey (ci_ExpectedParentPublicKey m) false.

Record EnrollmentChallengeV1 := mkChallenge {
  ch_Version : Z; ch_RequestID : string; ch_ParentNodeID : string; ch_ParentPublicKey : string;
  ch_AuthorityNodeID : string; ch_AuthorityPublicKey : string; ch_Nonce : string; ch_ExpiresAtUnixMS : Z; ch_Signature : string
}.
Definition Challenge_Validate (m : EnrollmentChallengeV1) : result enrollment_error unit :=
  _ ← schemaVersion (ch_Version m);
  _ ← hexID (ch_RequestID m) 16;
  _ ← nodeIDText (ch_ParentNodeID m);
  _ ← validateEd25519PublicKey (ch_ParentPublicKey m) true;
  _ ← nodeIDText (ch_AuthorityNodeID m);
  _ ← validateEd25519PublicKey (ch_AuthorityPublicKey m) true;
  _ ← validateRawBase64 (ch_Nonce m) 32 true;
  fail_if ch_ExpiresAtUnixMS m <=? 0 with NExpiry ;;
  validateRawBase64 (ch_Signature m) 64 true.

Record EnrollmentProofV1 := mkProof { pr_Version : Z; pr_RequestID : string; pr_Nonce : string; pr_Signature : string }.
Definition Proof_Validate (m : EnrollmentProofV1) : result enrollment_error unit :=
  _ ← schemaVersion (pr_Version m);
  _ ← hexID (pr_RequestID m) 16;
  _ ← validateRawBase64 (pr_Nonce m) 32 true;
  validateRawBase64 (pr_Signature m) 64 true.

Record EnrollmentPermitV1 := mkPermit {
  pm_Version : Z; pm_PermitID : string; pm_AuthorityNodeID : string; pm_AuthorityPublicKey : string;
  pm_DevicePublicKeyFingerprint : string; pm_TargetNodeID : string; pm_AllowDescendants : bool; pm_AdmissionProfile : string;
  pm_IssuedAtUnixMS : Z; pm_ExpiresAtUnixMS : Z; pm_AuthorityEpoch : Z; pm_Signature : string
}.
#[global] Instance EnrollmentPermitV1_eq_dec : EqDecision EnrollmentPermitV1.
Proof. solve_decision. Defined.
Definition Permit_Validate (p : EnrollmentPermitV1) : result enrollment_error unit :=
  _ ← schemaVersion (pm_Version p);
  _ ← hexID (pm_PermitID p) 16;
  _ ← nodeIDText (pm_AuthorityNodeID p);
  _ ← validateEd25519PublicKey (pm_AuthorityPublicKey p) true;
  _ ← hexID (pm_DevicePublicKeyFingerprint p) 32;
  _ ← nodeIDText (pm_TargetNodeID p);
  _ ← text (pm_AdmissionProfile p) MaxIdentifierBytes true;
  fail_if (pm_IssuedAtUnixMS p <=? 0) || (pm_ExpiresAtUnixMS p <=? pm_IssuedAtUnixMS p) with NTimeRange ;;
  fail_if pm_AuthorityEpoch p =? 0 with NEpoch ;;
  validateRawBase64 (pm_Signature p) 64 true.

Record EnrollmentGrantV1 := mkGrant {
  gr_Version : Z; gr_EnrollmentID : string; gr_AuthorityNodeID : string; gr_AuthorityPublicKey : string;
  gr_NodeID : string; gr_DevicePublicKey : string; gr_ParentNodeID : string; gr_ParentPublicKey : string;
  gr_AdmissionProfile : string; gr_AuthorityEpoch : Z; gr_IssuedAtUnixMS : Z; gr_Signature : string
}.
#[global] Instance EnrollmentGrantV1_eq_dec : EqDecision EnrollmentGrantV1.
Proof. solve_decision. Defined.
Definition Grant_Validate (g : EnrollmentGrantV1) : result enrollment_error unit :=
  _ ← schemaVersion (gr_Version g);
  _ ← hexID (gr_EnrollmentID g) 16;
  _ ← nodeIDText (gr_AuthorityNodeID g);
  _ ← validateEd25519PublicKey (gr_AuthorityPublicKey g) true;
  _ ← nodeIDText (gr_NodeID g);
  _ ← validateEd25519PublicKey (gr_DevicePublicKey g) true;
  _ ← nodeIDText (gr_ParentNodeID g);
  _ ← validateEd25519PublicKey (gr_ParentPublicKey g) true;
  _ ← text (gr_AdmissionProfile g) MaxIdentifierBytes true;
  fail_if (gr_AuthorityEpoch g =? 0) || (gr_IssuedAtUnixMS g <=? 0) with NEpoch ;;
  validateRawBase64 (gr_Signature g) 64 true.

Record EnrollmentResultV1 := mkResult {
  re_Version : Z; re_RequestID : string; re_Status : string; re_Grant : option EnrollmentGrantV1;
  re_Error : option ErrorPayload; re_RetryAfterMS : Z
}.
Definition Result_Validate (r : EnrollmentResultV1) : result enrollment_error unit :=
  _ ← schemaVersion (re_Version r);
  _ ← hexID (re_RequestID r) 16;
  if String.eqb (re_Status r) "granted" then
    match re_Grant r, re_Error r with Some g, None => Grant_Validate g | _, _ => Err NGrantResult end
  else if String.eqb (re_Status r) "pending" then
    match re_Grant r, re_Error r with
    | None, None => fail_if re_RetryAfterMS r <? 0 with NPendingResult ;; Ok tt
    | _, _ => Err NPendingResult
    end
  else if String.eqb (re_Status r) "rejected" || String.eqb (re_Status r) "error" then
    match re_Grant r, re_Error r with
    | None, Some e => fail_if String.eqb (ep_Code e) "" || String.eqb (ep_Message e) "" with NErrorResult ;; Ok tt
    | _, _ => Err NErrorResult
    end
  else Err NResultStatus.

Record ProvisioningPermitV1 := mkProvisioningPermit {
  pp_Version : Z; pp_PermitID : string; pp_ParentNodeID : string; pp_ChildNodeID : string; pp_ChildPublicKey : string;
  pp_Role : string; pp_IssuedAtUnixMS : Z; pp_ExpiresAtUnixMS : Z; pp_MaxUses : Z; pp_Signature : string
}.
#[global] Instance ProvisioningPermitV1_eq_dec : EqDecision ProvisioningPermitV1.
Proof. solve_decision. Defined.
Definition ProvisioningPermit_Validate (p : ProvisioningPermitV1) : result enrollment_error unit :=
  _ ← schemaVersion (pp_Version p);
  _ ← hexID (pp_PermitID p) 16;
  _ ← nodeIDText (pp_ParentNodeID p);
  _ ← nodeIDText (pp_ChildNodeID p);
  _ ← text (pp_Role p) MaxIdentifierBytes true;
  fail_if (pp_IssuedAtUnixMS p <=? 0) || (pp_ExpiresAtUnixMS p <=? pp_IssuedAtUnixMS p) with NTimeRange ;;
  fail_if negb (pp_MaxUses p =? 1) with NMaxUses ;;
  match RawStd_DecodeString (pp_ChildPublicKey p) with
  | None => Err NBase64
  | Some key =>
    fail_if negb (blen key =? 32) with NBase64 ;;
    match RawStd_DecodeString (pp_Signature p) with
    | None => Err NBase64
    | Some signature => fail_if negb (blen signature =? 64) with NBase64 ;; Ok tt
    end
  end.

(** ** The codec inverts itself *)

Lemma list12 {A} (h : list A) : length h = 12%nat → ∃ a b c d e f g i j k l m, h = [a; b; c; d; e; f; g; i; j; k; l; m].
Proof. intros H. do 12 (destruct h as [|? h]; [discriminate H|]). destruct h; [|discriminate H]. do 12 eexists. reflexivity. Qed.

Lemma enrollmentPayloadLimit_pos codec : 0 < enrollmentPayloadLimit codec.
Proof. unfold enrollmentPayloadLimit, EnrollmentMaxPayload. destruct (Z.leb_spec (ec_MaxPayload codec) 0); lia. Qed.

(** What [Encode] accepts: the frame is valid, and its length fits the header. *)
Definition frame_ok (codec : EnrollmentCodec) (frame : EnrollmentFrame) : Prop :=
  Frame_Validate frame (enrollmentPayloadLimit codec) = Ok tt ∧ blen (f_Payload frame) ≤ maxUint32.

Lemma Frame_Validate_ok codec frame :
  Frame_Validate frame (enrollmentPayloadLimit codec) = Ok tt ↔
  f_Version frame = 1 ∧ 1 ≤ f_Type frame ≤ 4 ∧ 0 < blen (f_Payload frame) ≤ enrollmentPayloadLimit codec.
Proof.
  pose proof (enrollmentPayloadLimit_pos codec). unfold Frame_Validate, MessageType_Valid. rewrite !fail_if_ok.
  rewrite (proj2 (Z.leb_gt (enrollmentPayloadLimit codec) 0)) by lia. assert (0 ≤ blen (f_Payload frame)) by (unfold blen; lia).
  rewrite !negb_false_iff, andb_true_iff, !Z.eqb_eq, Z.eqb_neq, !Z.leb_le, Z.ltb_ge.
  unfold EnrollmentProtocolVersion, EnrollmentMessageClientInit, EnrollmentMessageResult. intuition lia.
Qed.

Lemma header_inv h v t n :
  length h = 12%nat → slice 0 4 h = bytes_of EnrollmentMagic → be 7 8 h = 0 → be 4 6 h = v → be 6 7 h = t → be 8 12 h = n →
  h = bytes_of EnrollmentMagic ++ be_bytes 2 v ++ [byte_of t; x00] ++ be_bytes 4 n.
Proof.
  intros Hl Hm Hf <- <- <-. destruct (list12 h Hl) as (a & b & c & d & e & f & g & i & j & k & l & m & ->).
  unfold be in *. cbn [slice take drop Nat.sub] in *. rewrite !be_bytes_be_value by done. rewrite <- Hm.
  rewrite be_value_cons in *. simpl in *. unfold be_value at 1. simpl. rewrite !Z.mul_1_r, !Z.add_0_r in *.
  rewrite byte_of_bval. repeat f_equal. apply bval_inj. unfold be_value in Hf. simpl in Hf. change (bval x00) with 0. lia.
Qed.

Lemma EnrollmentDecode_frame codec frame rest :
  frame_ok codec frame → EnrollmentDecode codec (enrollment_header frame ++ f_Payload frame ++ rest) = Ok (frame, rest).
Proof.
  intros [Hv Hu]. pose proof Hv as (H1 & H2 & H3)%Frame_Validate_ok. destruct frame as [v t p]. simpl in H1, H2, H3, Hu. subst v.
  unfold EnrollmentDecode. rewrite ReadFull_app by (unfold enrollment_header; rewrite !length_app, !length_be_bytes; done).
  unfold enrollment_header. simpl f_Payload. simpl f_Version. simpl f_Type.
  assert (∃ l0 l1 l2 l3, be_bytes 4 (blen p) = [l0; l1; l2; l3]) as (l0 & l1 & l2 & l3 & El).
  { pose proof (length_be_bytes 4 (blen p)) as Hl. destruct (be_bytes 4 (blen p)) as [|a [|b [|c [|d [|]]]]]; try done. eauto. }
  assert (be_value [l0; l1; l2; l3] = blen p) as Eb.
  { rewrite <- El. apply be_value_small. unfold maxUint32 in Hu. unfold blen in *. lia. }
  rewrite El. set (h := bytes_of EnrollmentMagic ++ be_bytes 2 1 ++ [byte_of t; x00] ++ [l0; l1; l2; l3]).
  assert (slice 0 4 h = bytes_of EnrollmentMagic) as -> by done. assert (be 7 8 h = 0) as -> by done.
  assert (be 8 12 h = blen p) as -> by done. assert (be 4 6 h = 1) as -> by done.
  assert (be 6 7 h = t) as -> by (apply (be_value_byte t); lia).
  rewrite bool_decide_eq_true_2 by done. simpl negb. cbv iota. rewrite (proj2 (Z.ltb_ge _ _)) by lia.
  replace (Z.to_nat (blen p)) with (length p) by (unfold blen; lia). rewrite ReadFull_app by done.
  by rewrite Hv.
Qed.


(** The decoder accepts exactly the encodings of valid frames and returns the unread rest. *)
Theorem EnrollmentDecode_canonical (codec : EnrollmentCodec) (stream rest : list byte) (frame : EnrollmentFrame) :
  EnrollmentDecode codec stream = Ok (frame, rest) ↔
  frame_ok codec frame ∧ stream = enrollment_header frame ++ f_Payload frame ++ rest.
Proof.
  split; [|by intros [H ->]; apply EnrollmentDecode_frame]. unfold EnrollmentDecode.
  destruct (ReadFull _ _) as [[h s1]|] eqn:E1; [|done]. apply ReadFull_Some in E1 as [-> Hh]. intros H.
  apply fail_if_ok in H as [Hm H]. apply fail_if_ok in H as [Hf H]. apply fail_if_ok in H as [Hn H].
  destruct (ReadFull _ s1) as [[p s2]|] eqn:E2; [|done]. apply ReadFull_Some in E2 as [-> Hp]. apply bind_ok in H as [Hv H].
  simplify_eq. apply negb_false_iff, bool_decide_eq_true in Hm. apply negb_false_iff, Z.eqb_eq in Hf.
  pose proof (be_range 8 12 h ltac:(rewrite Hh; unfold enrollmentHeaderSize; lia)) as Hr. simpl in Hr.
  assert (blen p = be 8 12 h) as Hb by (unfold blen; lia).
  split; [split; [done|simpl; unfold maxUint32; lia]|]. unfold enrollment_header. simpl. rewrite Hb, app_assoc.
  f_equal. rewrite (header_inv h _ _ _ Hh Hm Hf eq_refl eq_refl eq_refl) at 1. done.
Qed.


(** What a successful [writeAll] wrote. *)
Lemma writeAll_spec `{Writer W} (w : W) (data : list byte) :
  ∃ w' r, writeAll w data = Some (w', r) ∧ (r = Ok tt → sink w' = sink w ++ data).
Proof.
  destruct (write_loop_spec (length data) w data) as (w' & r & sent & rest & El & Hd & Hs & Hr); [done|].
  exists w', r. split; [done|]. intros ->. rewrite Hr in Hd by done. rewrite app_nil_r in Hd. subst. by apply Hs.
Qed.

(** An enrollment frame arrives as it was sent: [Encode] always returns, and when it reports
    success, whatever follows on the stream, [Decode] returns exactly the frame and leaves
    what follows. *)
Theorem enrollment_frame_transport `{Writer W} (codec : EnrollmentCodec) (w : W) (frame : EnrollmentFrame) :
  ∃ w' r, EnrollmentEncode codec w frame = Some (w', r) ∧
    (r = Ok tt → ∃ sent, sink w' = sink w ++ sent ∧ ∀ rest, EnrollmentDecode codec (sent ++ rest) = Ok (frame, rest)).
Proof.
  unfold EnrollmentEncode. destruct (Frame_Validate _ _) as [[]|e] eqn:Ev; [|by exists w, (Err e)].
  destruct (Z.ltb_spec maxUint32 (blen (f_Payload frame))) as [|Hu]; [by exists w, (Err NWireLength)|].
  destruct (writeAll_spec w (enrollment_header frame)) as (w1 & r1 & -> & H1). destruct r1 as [[]|e]; [|by exists w1, (Err (NWriter e))].
  destruct (writeAll_spec w1 (f_Payload frame)) as (w2 & r2 & -> & H2). destruct r2 as [[]|e]; [|by exists w2, (Err (NWriter e))].
  exists w2, (Ok tt). split; [done|]. intros _. exists (enrollment_header frame ++ f_Payload frame).
  split; [by rewrite H2, H1, <- app_assoc by done|]. intros rest. rewrite <- app_assoc. by apply EnrollmentDecode_frame.
Qed.

(** ** Valid fields are valid text *)

Lemma hexID_ascii s n : hexID s n = Ok tt → ascii s.
Proof.
  unfold hexID. rewrite mapErr_ok. unfold validateHexID. intros H. apply fail_if_ok in H as [_ H].
  destruct (DecodeString s) eqn:E; [|done]. by eapply DecodeString_ascii.
Qed.
Lemma nodeIDText_ascii s : nodeIDText s = Ok tt → ascii s.
Proof.
  unfold nodeIDText. rewrite mapErr_ok. unfold validateNodeIDText. intros H. apply fail_if_ok in H as [_ H].
  pose proof (ParseUint_ascii s) as Ha. destruct (ParseUint s) as [id ok]. apply fail_if_ok in H as [H _]. simpl in Ha. bool_prop. auto.
Qed.
Lemma base64_ascii s n : validateRawBase64 s n true = Ok tt → ascii s.
Proof.
  unfold validateRawBase64. rewrite andb_false_r. destruct (RawStd_DecodeString s) eqn:E; [|done]. intros _. by eapply RawStd_ascii.
Qed.
Lemma text_valid s n b : text s n b = Ok tt → ValidString s = true.
Proof. unfold text. rewrite mapErr_ok. unfold validateText. intros H. guards H. by bool_prop. Qed.

#[export] Hint Resolve ascii_valid hexID_ascii nodeIDText_ascii base64_ascii text_valid : mfh.

(** A field that is the canonical encoding of a key has the key's size. *)
Lemma base64_encoded l n : blen l = n → validateRawBase64 (RawStd_EncodeToString l) n true = Ok tt.
Proof. intros Hl. unfold validateRawBase64. rewrite andb_false_r, RawStd_roundtrip, Hl, Z.eqb_refl. done. Qed.
Lemma hexID_encoded l n : blen l = n → hexID (EncodeToString l) n = Ok tt.
Proof. intros <-. unfold hexID, blen. by rewrite validateHexID_EncodeToString. Qed.

(** The fields of a signed struct are well formed, from the validity of its record. *)
Ltac json_fields_wf :=
  repeat (apply Forall_cons_2; [cbn [snd json_wf]|]); [..|apply Forall_nil_2];
  first [left; assumption | right; assumption | exact I | solve [eauto with mfh] | reflexivity].
