(* ===== verification/EnrollmentPayload.v ===== *)
(** * JSON payloads (protocol/payload.go) of the enrollment records

    The structs of protocol/enrollment.go as encoding/json sees them: names, order, and which fields are left
    out when empty. *)

From S2P Require Import Prelude GoStd GoSort GoEncoding GoJSON GoFloat GoStruct Wire Codec PolicySchema EnrollmentWire Payload.
Open Scope Z_scope.

(** ** The structs *)

Definition init_zero : EnrollmentClientInitV1 := mkClientInit 0 "" "" "" "" "".
Definition init_spec : list (string * assignment EnrollmentClientInitV1) :=
  [("version", assign_int (λ r x, mkClientInit x (ci_RequestID r) (ci_DevicePublicKey r) (ci_Permit r) (ci_ExpectedParentNodeID r) (ci_ExpectedParentPublicKey r)));
   ("request_id", assign_string (λ r x, mkClientInit (ci_Version r) x (ci_DevicePublicKey r) (ci_Permit r) (ci_ExpectedParentNodeID r) (ci_ExpectedParentPublicKey r)));
   ("device_public_key", assign_string (λ r x, mkClientInit (ci_Version r) (ci_RequestID r) x (ci_Permit r) (ci_ExpectedParentNodeID r) (ci_ExpectedParentPublicKey r)));
   ("permit", assign_string (λ r x, mkClientInit (ci_Version r) (ci_RequestID r) (ci_DevicePublicKey r) x (ci_ExpectedParentNodeID r) (ci_ExpectedParentPublicKey r)));
   ("expected_parent_node_id", assign_string (λ r x, mkClientInit (ci_Version r) (ci_RequestID r) (ci_DevicePublicKey r) (ci_Permit r) x (ci_ExpectedParentPublicKey r)));
   ("expected_parent_public_key", assign_string (λ r x, mkClientInit (ci_Version r) (ci_RequestID r) (ci_DevicePublicKey r) (ci_Permit r) (ci_ExpectedParentNodeID r) x))].
Definition init_fields (r : EnrollmentClientInitV1) : list (string * any) :=
  member "version" (int_any (ci_Version r)) ++ member "request_id" (AString (ci_RequestID r)) ++
  member "device_public_key" (AString (ci_DevicePublicKey r)) ++ text_field "permit" (ci_Permit r) ++
  text_field "expected_parent_node_id" (ci_ExpectedParentNodeID r) ++
  text_field "expected_parent_public_key" (ci_ExpectedParentPublicKey r).
#[global] Instance init_json : JSONStruct EnrollmentClientInitV1 := {| js_zero := init_zero; js_spec := init_spec; js_fields := init_fields |}.

Definition challenge_zero : EnrollmentChallengeV1 := mkChallenge 0 "" "" "" "" "" "" 0 "".
Definition challenge_spec : list (string * assignment EnrollmentChallengeV1) :=
  [("version", assign_int (λ r x, mkChallenge x (ch_RequestID r) (ch_ParentNodeID r) (ch_ParentPublicKey r) (ch_AuthorityNodeID r) (ch_AuthorityPublicKey r) (ch_Nonce r) (ch_ExpiresAtUnixMS r) (ch_Signature r)));
   ("request_id", assign_string (λ r x, mkChallenge (ch_Version r) x (ch_ParentNodeID r) (ch_ParentPublicKey r) (ch_AuthorityNodeID r) (ch_AuthorityPublicKey r) (ch_Nonce r) (ch_ExpiresAtUnixMS r) (ch_Signature r)));
   ("parent_node_id", assign_string (λ r x, mkChallenge (ch_Version r) (ch_RequestID r) x (ch_ParentPublicKey r) (ch_AuthorityNodeID r) (ch_AuthorityPublicKey r) (ch_Nonce r) (ch_ExpiresAtUnixMS r) (ch_Signature r)));
   ("parent_public_key", assign_string (λ r x, mkChallenge (ch_Version r) (ch_RequestID r) (ch_ParentNodeID r) x (ch_AuthorityNodeID r) (ch_AuthorityPublicKey r) (ch_Nonce r) (ch_ExpiresAtUnixMS r) (ch_Signature r)));
   ("authority_node_id", assign_string (λ r x, mkChallenge (ch_Version r) (ch_RequestID r) (ch_ParentNodeID r) (ch_ParentPublicKey r) x (ch_AuthorityPublicKey r) (ch_Nonce r) (ch_ExpiresAtUnixMS r) (ch_Signature r)));
   ("authority_public_key", assign_string (λ r x, mkChallenge (ch_Version r) (ch_RequestID r) (ch_ParentNodeID r) (ch_ParentPublicKey r) (ch_AuthorityNodeID r) x (ch_Nonce r) (ch_ExpiresAtUnixMS r) (ch_Signature r)));
   ("nonce", assign_string (λ r x, mkChallenge (ch_Version r) (ch_RequestID r) (ch_ParentNodeID r) (ch_ParentPublicKey r) (ch_AuthorityNodeID r) (ch_AuthorityPublicKey r) x (ch_ExpiresAtUnixMS r) (ch_Signature r)));
   ("expires_at_unix_ms", assign_int (λ r x, mkChallenge (ch_Version r) (ch_RequestID r) (ch_ParentNodeID r) (ch_ParentPublicKey r) (ch_AuthorityNodeID r) (ch_AuthorityPublicKey r) (ch_Nonce r) x (ch_Signature r)));
   ("signature", assign_string (λ r x, mkChallenge (ch_Version r) (ch_RequestID r) (ch_ParentNodeID r) (ch_ParentPublicKey r) (ch_AuthorityNodeID r) (ch_AuthorityPublicKey r) (ch_Nonce r) (ch_ExpiresAtUnixMS r) x))].
Definition challenge_fields (r : EnrollmentChallengeV1) : list (string * any) :=
  member "version" (int_any (ch_Version r)) ++ member "request_id" (AString (ch_RequestID r)) ++
  member "parent_node_id" (AString (ch_ParentNodeID r)) ++ member "parent_public_key" (AString (ch_ParentPublicKey r)) ++
  member "authority_node_id" (AString (ch_AuthorityNodeID r)) ++ text_field "authority_public_key" (ch_AuthorityPublicKey r) ++
  member "nonce" (AString (ch_Nonce r)) ++ member "expires_at_unix_ms" (int_any (ch_ExpiresAtUnixMS r)) ++
  member "signature" (AString (ch_Signature r)).
#[global] Instance challenge_json : JSONStruct EnrollmentChallengeV1 := {| js_zero := challenge_zero; js_spec := challenge_spec; js_fields := challenge_fields |}.

Definition proof_zero : EnrollmentProofV1 := mkProof 0 "" "" "".
Definition proof_spec : list (string * assignment EnrollmentProofV1) :=
  [("version", assign_int (λ r x, mkProof x (pr_RequestID r) (pr_Nonce r) (pr_Signature r)));
   ("request_id", assign_string (λ r x, mkProof (pr_Version r) x (pr_Nonce r) (pr_Signature r)));
   ("nonce", assign_string (λ r x, mkProof (pr_Version r) (pr_RequestID r) x (pr_Signature r)));
   ("signature", assign_string (λ r x, mkProof (pr_Version r) (pr_RequestID r) (pr_Nonce r) x))].
Definition proof_fields (r : EnrollmentProofV1) : list (string * any) :=
  member "version" (int_any (pr_Version r)) ++ member "request_id" (AString (pr_RequestID r)) ++ member "nonce" (AString (pr_Nonce r)) ++
  member "signature" (AString (pr_Signature r)).
#[global] Instance proof_json : JSONStruct EnrollmentProofV1 := {| js_zero := proof_zero; js_spec := proof_spec; js_fields := proof_fields |}.

Definition permit_zero : EnrollmentPermitV1 := mkPermit 0 "" "" "" "" "" false "" 0 0 0 "".
Definition permit_spec : list (string * assignment EnrollmentPermitV1) :=
  [("version", assign_int (λ r x, mkPermit x (pm_PermitID r) (pm_AuthorityNodeID r) (pm_AuthorityPublicKey r) (pm_DevicePublicKeyFingerprint r) (pm_TargetNodeID r) (pm_AllowDescendants r) (pm_AdmissionProfile r) (pm_IssuedAtUnixMS r) (pm_ExpiresAtUnixMS r) (pm_AuthorityEpoch r) (pm_Signature r)));
   ("permit_id", assign_string (λ r x, mkPermit (pm_Version r) x (pm_AuthorityNodeID r) (pm_AuthorityPublicKey r) (pm_DevicePublicKeyFingerprint r) (pm_TargetNodeID r) (pm_AllowDescendants r) (pm_AdmissionProfile r) (pm_IssuedAtUnixMS r) (pm_ExpiresAtUnixMS r) (pm_AuthorityEpoch r) (pm_Signature r)));
   ("authority_node_id", assign_string (λ r x, mkPermit (pm_Version r) (pm_PermitID r) x (pm_AuthorityPublicKey r) (pm_DevicePublicKeyFingerprint r) (pm_TargetNodeID r) (pm_AllowDescendants r) (pm_AdmissionProfile r) (pm_IssuedAtUnixMS r) (pm_ExpiresAtUnixMS r) (pm_AuthorityEpoch r) (pm_Signature r)));
   ("authority_public_key", assign_string (λ r x, mkPermit (pm_Version r) (pm_PermitID r) (pm_AuthorityNodeID r) x (pm_DevicePublicKeyFingerprint r) (pm_TargetNodeID r) (pm_AllowDescendants r) (pm_AdmissionProfile r) (pm_IssuedAtUnixMS r) (pm_ExpiresAtUnixMS r) (pm_AuthorityEpoch r) (pm_Signature r)));
   ("device_public_key_fingerprint", assign_string (λ r x, mkPermit (pm_Version r) (pm_PermitID r) (pm_AuthorityNodeID r) (pm_AuthorityPublicKey r) x (pm_TargetNodeID r) (pm_AllowDescendants r) (pm_AdmissionProfile r) (pm_IssuedAtUnixMS r) (pm_ExpiresAtUnixMS r) (pm_AuthorityEpoch r) (pm_Signature r)));
   ("target_node_id", assign_string (λ r x, mkPermit (pm_Version r) (pm_PermitID r) (pm_AuthorityNodeID r) (pm_AuthorityPublicKey r) (pm_DevicePublicKeyFingerprint r) x (pm_AllowDescendants r) (pm_AdmissionProfile r) (pm_IssuedAtUnixMS r) (pm_ExpiresAtUnixMS r) (pm_AuthorityEpoch r) (pm_Signature r)));
   ("allow_descendants", assign_bool (λ r x, mkPermit (pm_Version r) (pm_PermitID r) (pm_AuthorityNodeID r) (pm_AuthorityPublicKey r) (pm_DevicePublicKeyFingerprint r) (pm_TargetNodeID r) x (pm_AdmissionProfile r) (pm_IssuedAtUnixMS r) (pm_ExpiresAtUnixMS r) (pm_AuthorityEpoch r) (pm_Signature r)));
   ("admission_profile", assign_string (λ r x, mkPermit (pm_Version r) (pm_PermitID r) (pm_AuthorityNodeID r) (pm_AuthorityPublicKey r) (pm_DevicePublicKeyFingerprint r) (pm_TargetNodeID r) (pm_AllowDescendants r) x (pm_IssuedAtUnixMS r) (pm_ExpiresAtUnixMS r) (pm_AuthorityEpoch r) (pm_Signature r)));
   ("issued_at_unix_ms", assign_int (λ r x, mkPermit (pm_Version r) (pm_PermitID r) (pm_AuthorityNodeID r) (pm_AuthorityPublicKey r) (pm_DevicePublicKeyFingerprint r) (pm_TargetNodeID r) (pm_AllowDescendants r) (pm_AdmissionProfile r) x (pm_ExpiresAtUnixMS r) (pm_AuthorityEpoch r) (pm_Signature r)));
   ("expires_at_unix_ms", assign_int (λ r x, mkPermit (pm_Version r) (pm_PermitID r) (pm_AuthorityNodeID r) (pm_AuthorityPublicKey r) (pm_DevicePublicKeyFingerprint r) (pm_TargetNodeID r) (pm_AllowDescendants r) (pm_AdmissionProfile r) (pm_IssuedAtUnixMS r) x (pm_AuthorityEpoch r) (pm_Signature r)));
   ("authority_epoch", assign_uint (λ r x, mkPermit (pm_Version r) (pm_PermitID r) (pm_AuthorityNodeID r) (pm_AuthorityPublicKey r) (pm_DevicePublicKeyFingerprint r) (pm_TargetNodeID r) (pm_AllowDescendants r) (pm_AdmissionProfile r) (pm_IssuedAtUnixMS r) (pm_ExpiresAtUnixMS r) x (pm_Signature r)));
   ("signature", assign_string (λ r x, mkPermit (pm_Version r) (pm_PermitID r) (pm_AuthorityNodeID r) (pm_AuthorityPublicKey r) (pm_DevicePublicKeyFingerprint r) (pm_TargetNodeID r) (pm_AllowDescendants r) (pm_AdmissionProfile r) (pm_IssuedAtUnixMS r) (pm_ExpiresAtUnixMS r) (pm_AuthorityEpoch r) x))].
Definition permit_fields (r : EnrollmentPermitV1) : list (string * any) :=
  member "version" (int_any (pm_Version r)) ++ member "permit_id" (AString (pm_PermitID r)) ++
  member "authority_node_id" (AString (pm_AuthorityNodeID r)) ++ member "authority_public_key" (AString (pm_AuthorityPublicKey r)) ++
  member "device_public_key_fingerprint" (AString (pm_DevicePublicKeyFingerprint r)) ++
  member "target_node_id" (AString (pm_TargetNodeID r)) ++ flag_field "allow_descendants" (pm_AllowDescendants r) ++
  member "admission_profile" (AString (pm_AdmissionProfile r)) ++ member "issued_at_unix_ms" (int_any (pm_IssuedAtUnixMS r)) ++
  member "expires_at_unix_ms" (int_any (pm_ExpiresAtUnixMS r)) ++ member "authority_epoch" (int_any (pm_AuthorityEpoch r)) ++
  member "signature" (AString (pm_Signature r)).
#[global] Instance permit_json : JSONStruct EnrollmentPermitV1 := {| js_zero := permit_zero; js_spec := permit_spec; js_fields := permit_fields |}.

Definition grant_zero : EnrollmentGrantV1 := mkGrant 0 "" "" "" "" "" "" "" "" 0 0 "".
Definition grant_spec : list (string * assignment EnrollmentGrantV1) :=
  [("version", assign_int (λ r x, mkGrant x (gr_EnrollmentID r) (gr_AuthorityNodeID r) (gr_AuthorityPublicKey r) (gr_NodeID r) (gr_DevicePublicKey r) (gr_ParentNodeID r) (gr_ParentPublicKey r) (gr_AdmissionProfile r) (gr_AuthorityEpoch r) (gr_IssuedAtUnixMS r) (gr_Signature r)));
   ("enrollment_id", assign_string (λ r x, mkGrant (gr_Version r) x (gr_AuthorityNodeID r) (gr_AuthorityPublicKey r) (gr_NodeID r) (gr_DevicePublicKey r) (gr_ParentNodeID r) (gr_ParentPublicKey r) (gr_AdmissionProfile r) (gr_AuthorityEpoch r) (gr_IssuedAtUnixMS r) (gr_Signature r)));
   ("authority_node_id", assign_string (λ r x, mkGrant (gr_Version r) (gr_EnrollmentID r) x (gr_AuthorityPublicKey r) (gr_NodeID r) (gr_DevicePublicKey r) (gr_ParentNodeID r) (gr_ParentPublicKey r) (gr_AdmissionProfile r) (gr_AuthorityEpoch r) (gr_IssuedAtUnixMS r) (gr_Signature r)));
   ("authority_public_key", assign_string (λ r x, mkGrant (gr_Version r) (gr_EnrollmentID r) (gr_AuthorityNodeID r) x (gr_NodeID r) (gr_DevicePublicKey r) (gr_ParentNodeID r) (gr_ParentPublicKey r) (gr_AdmissionProfile r) (gr_AuthorityEpoch r) (gr_IssuedAtUnixMS r) (gr_Signature r)));
   ("node_id", assign_string (λ r x, mkGrant (gr_Version r) (gr_EnrollmentID r) (gr_AuthorityNodeID r) (gr_AuthorityPublicKey r) x (gr_DevicePublicKey r) (gr_ParentNodeID r) (gr_ParentPublicKey r) (gr_AdmissionProfile r) (gr_AuthorityEpoch r) (gr_IssuedAtUnixMS r) (gr_Signature r)));
   ("device_public_key", assign_string (λ r x, mkGrant (gr_Version r) (gr_EnrollmentID r) (gr_AuthorityNodeID r) (gr_AuthorityPublicKey r) (gr_NodeID r) x (gr_ParentNodeID r) (gr_ParentPublicKey r) (gr_AdmissionProfile r) (gr_AuthorityEpoch r) (gr_IssuedAtUnixMS r) (gr_Signature r)));
   ("parent_node_id", assign_string (λ r x, mkGrant (gr_Version r) (gr_EnrollmentID r) (gr_AuthorityNodeID r) (gr_AuthorityPublicKey r) (gr_NodeID r) (gr_DevicePublicKey r) x (gr_ParentPublicKey r) (gr_AdmissionProfile r) (gr_AuthorityEpoch r) (gr_IssuedAtUnixMS r) (gr_Signature r)));
   ("parent_public_key", assign_string (λ r x, mkGrant (gr_Version r) (gr_EnrollmentID r) (gr_AuthorityNodeID r) (gr_AuthorityPublicKey r) (gr_NodeID r) (gr_DevicePublicKey r) (gr_ParentNodeID r) x (gr_AdmissionProfile r) (gr_AuthorityEpoch r) (gr_IssuedAtUnixMS r) (gr_Signature r)));
   ("admission_profile", assign_string (λ r x, mkGrant (gr_Version r) (gr_EnrollmentID r) (gr_AuthorityNodeID r) (gr_AuthorityPublicKey r) (gr_NodeID r) (gr_DevicePublicKey r) (gr_ParentNodeID r) (gr_ParentPublicKey r) x (gr_AuthorityEpoch r) (gr_IssuedAtUnixMS r) (gr_Signature r)));
   ("authority_epoch", assign_uint (λ r x, mkGrant (gr_Version r) (gr_EnrollmentID r) (gr_AuthorityNodeID r) (gr_AuthorityPublicKey r) (gr_NodeID r) (gr_DevicePublicKey r) (gr_ParentNodeID r) (gr_ParentPublicKey r) (gr_AdmissionProfile r) x (gr_IssuedAtUnixMS r) (gr_Signature r)));
   ("issued_at_unix_ms", assign_int (λ r x, mkGrant (gr_Version r) (gr_EnrollmentID r) (gr_AuthorityNodeID r) (gr_AuthorityPublicKey r) (gr_NodeID r) (gr_DevicePublicKey r) (gr_ParentNodeID r) (gr_ParentPublicKey r) (gr_AdmissionProfile r) (gr_AuthorityEpoch r) x (gr_Signature r)));
   ("signature", assign_string (λ r x, mkGrant (gr_Version r) (gr_EnrollmentID r) (gr_AuthorityNodeID r) (gr_AuthorityPublicKey r) (gr_NodeID r) (gr_DevicePublicKey r) (gr_ParentNodeID r) (gr_ParentPublicKey r) (gr_AdmissionProfile r) (gr_AuthorityEpoch r) (gr_IssuedAtUnixMS r) x))].
Definition grant_fields (r : EnrollmentGrantV1) : list (string * any) :=
  member "version" (int_any (gr_Version r)) ++ member "enrollment_id" (AString (gr_EnrollmentID r)) ++
  member "authority_node_id" (AString (gr_AuthorityNodeID r)) ++ member "authority_public_key" (AString (gr_AuthorityPublicKey r)) ++
  member "node_id" (AString (gr_NodeID r)) ++ member "device_public_key" (AString (gr_DevicePublicKey r)) ++
  member "parent_node_id" (AString (gr_ParentNodeID r)) ++ member "parent_public_key" (AString (gr_ParentPublicKey r)) ++
  member "admission_profile" (AString (gr_AdmissionProfile r)) ++ member "authority_epoch" (int_any (gr_AuthorityEpoch r)) ++
  member "issued_at_unix_ms" (int_any (gr_IssuedAtUnixMS r)) ++ member "signature" (AString (gr_Signature r)).
#[global] Instance grant_json : JSONStruct EnrollmentGrantV1 := {| js_zero := grant_zero; js_spec := grant_spec; js_fields := grant_fields |}.

Definition error_zero : ErrorPayload := mkErrorPayload "" "" false ∅.
Definition error_spec : list (string * assignment ErrorPayload) :=
  [("code", assign_string (λ r x, mkErrorPayload x (ep_Message r) (ep_Retryable r) (ep_Details r)));
   ("message", assign_string (λ r x, mkErrorPayload (ep_Code r) x (ep_Retryable r) (ep_Details r)));
   ("retryable", assign_bool (λ r x, mkErrorPayload (ep_Code r) (ep_Message r) x (ep_Details r)));
   ("details", assign_map ep_Details (λ r x, mkErrorPayload (ep_Code r) (ep_Message r) (ep_Retryable r) x))].
Definition error_fields (r : ErrorPayload) : list (string * any) :=
  member "code" (AString (ep_Code r)) ++ member "message" (AString (ep_Message r)) ++ flag_field "retryable" (ep_Retryable r) ++
  member_if (negb (bool_decide (ep_Details r = ∅))) "details" (map_any (ep_Details r)).
#[global] Instance error_json : JSONStruct ErrorPayload := {| js_zero := error_zero; js_spec := error_spec; js_fields := error_fields |}.

Definition result_zero : EnrollmentResultV1 := mkResult 0 "" "" None None 0.
Definition result_spec : list (string * assignment EnrollmentResultV1) :=
  [("version", assign_int (λ r x, mkResult x (re_RequestID r) (re_Status r) (re_Grant r) (re_Error r) (re_RetryAfterMS r)));
   ("request_id", assign_string (λ r x, mkResult (re_Version r) x (re_Status r) (re_Grant r) (re_Error r) (re_RetryAfterMS r)));
   ("status", assign_string (λ r x, mkResult (re_Version r) (re_RequestID r) x (re_Grant r) (re_Error r) (re_RetryAfterMS r)));
   ("grant", assign_pointer grant_spec grant_zero re_Grant (λ r x, mkResult (re_Version r) (re_RequestID r) (re_Status r) x (re_Error r) (re_RetryAfterMS r)));
   ("error", assign_pointer error_spec error_zero re_Error (λ r x, mkResult (re_Version r) (re_RequestID r) (re_Status r) (re_Grant r) x (re_RetryAfterMS r)));
   ("retry_after_ms", assign_int (λ r x, mkResult (re_Version r) (re_RequestID r) (re_Status r) (re_Grant r) (re_Error r) x))].
Definition result_fields (r : EnrollmentResultV1) : list (string * any) :=
  member "version" (int_any (re_Version r)) ++ member "request_id" (AString (re_RequestID r)) ++ member "status" (AString (re_Status r)) ++
  field_opt "grant" (λ x, AObject (grant_fields x)) (re_Grant r) ++ field_opt "error" (λ x, AObject (error_fields x)) (re_Error r) ++
  member_if (negb (re_RetryAfterMS r =? 0)) "retry_after_ms" (int_any (re_RetryAfterMS r)).
#[global] Instance result_json : JSONStruct EnrollmentResultV1 := {| js_zero := result_zero; js_spec := result_spec; js_fields := result_fields |}.

#[global] Instance init_validated : ValidatedPayload EnrollmentClientInitV1 := {| Validate := ClientInit_Validate |}.
#[global] Instance challenge_validated : ValidatedPayload EnrollmentChallengeV1 := {| Validate := Challenge_Validate |}.
#[global] Instance proof_validated : ValidatedPayload EnrollmentProofV1 := {| Validate := Proof_Validate |}.
#[global] Instance permit_validated : ValidatedPayload EnrollmentPermitV1 := {| Validate := Permit_Validate |}.
#[global] Instance grant_validated : ValidatedPayload EnrollmentGrantV1 := {| Validate := Grant_Validate |}.
#[global] Instance result_validated : ValidatedPayload EnrollmentResultV1 := {| Validate := Result_Validate |}.

(** ** What is encoded is decoded *)

Definition init_ok (r : EnrollmentClientInitV1) : Prop :=
  is_i64 (ci_Version r) ∧ Forall valid [ci_RequestID r; ci_DevicePublicKey r; ci_Permit r; ci_ExpectedParentNodeID r; ci_ExpectedParentPublicKey r].
#[global] Program Instance init_value : JSONValue EnrollmentClientInitV1 := {| js_ok := init_ok |}.
Next Obligation. intros r [Hv Hs]. split_valid Hs. change (js_fields r) with (init_fields r). unfold init_fields. omitted; (split; [text_all|vm_compute; done]). Qed.
Next Obligation. intros r [Hv Hs]. change (decode_members init_spec init_zero (init_fields r) = Some r). unfold init_fields. omitted; decode_all r. Qed.

Definition challenge_ok (r : EnrollmentChallengeV1) : Prop :=
  is_i64 (ch_Version r) ∧ is_i64 (ch_ExpiresAtUnixMS r) ∧
  Forall valid [ch_RequestID r; ch_ParentNodeID r; ch_ParentPublicKey r; ch_AuthorityNodeID r; ch_AuthorityPublicKey r; ch_Nonce r; ch_Signature r].
#[global] Program Instance challenge_value : JSONValue EnrollmentChallengeV1 := {| js_ok := challenge_ok |}.
Next Obligation. intros r (Hv & He & Hs). split_valid Hs. change (js_fields r) with (challenge_fields r). unfold challenge_fields. omitted; (split; [text_all|vm_compute; done]). Qed.
Next Obligation. intros r (Hv & He & Hs). change (decode_members challenge_spec challenge_zero (challenge_fields r) = Some r). unfold challenge_fields. omitted; decode_all r. Qed.

Definition proof_ok (r : EnrollmentProofV1) : Prop := is_i64 (pr_Version r) ∧ Forall valid [pr_RequestID r; pr_Nonce r; pr_Signature r].
#[global] Program Instance proof_value : JSONValue EnrollmentProofV1 := {| js_ok := proof_ok |}.
Next Obligation. intros r (Hv & Hs). split_valid Hs. change (js_fields r) with (proof_fields r). unfold proof_fields. omitted; (split; [text_all|vm_compute; done]). Qed.
Next Obligation. intros r (Hv & Hs). change (decode_members proof_spec proof_zero (proof_fields r) = Some r). unfold proof_fields. omitted; decode_all r. Qed.

Definition permit_ok (r : EnrollmentPermitV1) : Prop :=
  is_i64 (pm_Version r) ∧ is_i64 (pm_IssuedAtUnixMS r) ∧ is_i64 (pm_ExpiresAtUnixMS r) ∧ is_u64 (pm_AuthorityEpoch r) ∧
  Forall valid [pm_PermitID r; pm_AuthorityNodeID r; pm_AuthorityPublicKey r; pm_DevicePublicKeyFingerprint r; pm_TargetNodeID r; pm_AdmissionProfile r; pm_Signature r].
#[global] Program Instance permit_value : JSONValue EnrollmentPermitV1 := {| js_ok := permit_ok |}.
Next Obligation.
  intros r (Hv & Hi & He & Hu & Hs). split_valid Hs. change (js_fields r) with (permit_fields r). unfold permit_fields, flag_field.
  destruct (pm_AllowDescendants r); omitted; (split; [text_all|vm_compute; done]).
Qed.
Next Obligation.
  intros r (Hv & Hi & He & Hu & Hs). change (decode_members permit_spec permit_zero (permit_fields r) = Some r). unfold permit_fields, flag_field.
  destruct (pm_AllowDescendants r) eqn:Ed; omitted; decode_all r.
Qed.

Definition grant_ok (r : EnrollmentGrantV1) : Prop :=
  is_i64 (gr_Version r) ∧ is_i64 (gr_IssuedAtUnixMS r) ∧ is_u64 (gr_AuthorityEpoch r) ∧
  Forall valid [gr_EnrollmentID r; gr_AuthorityNodeID r; gr_AuthorityPublicKey r; gr_NodeID r; gr_DevicePublicKey r; gr_ParentNodeID r; gr_ParentPublicKey r; gr_AdmissionProfile r; gr_Signature r].
#[global] Program Instance grant_value : JSONValue EnrollmentGrantV1 := {| js_ok := grant_ok |}.
Next Obligation. intros r (Hv & Hi & Hu & Hs). split_valid Hs. change (js_fields r) with (grant_fields r). unfold grant_fields. omitted; (split; [text_all|vm_compute; done]). Qed.
Next Obligation. intros r (Hv & Hi & Hu & Hs). change (decode_members grant_spec grant_zero (grant_fields r) = Some r). unfold grant_fields. omitted; decode_all r. Qed.

(** Errors that the server makes have no details. *)
Definition error_ok (r : ErrorPayload) : Prop := Forall valid [ep_Code r; ep_Message r] ∧ ep_Details r = ∅.
#[global] Program Instance error_value : JSONValue ErrorPayload := {| js_ok := error_ok |}.
Next Obligation.
  intros r (Hs & Hd). split_valid Hs. change (js_fields r) with (error_fields r). unfold error_fields, flag_field. rewrite Hd, bool_decide_eq_true_2 by done.
  destruct (ep_Retryable r); omitted; (split; [text_all|vm_compute; done]).
Qed.
Next Obligation.
  intros r (Hs & Hd). change (decode_members error_spec error_zero (error_fields r) = Some r). unfold error_fields, flag_field. rewrite Hd, bool_decide_eq_true_2 by done.
  destruct (ep_Retryable r) eqn:Er; omitted; decode_all r.
Qed.

Definition opt_ok `{JSONValue B} (o : option B) : Prop := match o with Some b => js_ok b | None => True end.
Definition result_ok (r : EnrollmentResultV1) : Prop :=
  is_i64 (re_Version r) ∧ is_i64 (re_RetryAfterMS r) ∧ Forall valid [re_RequestID r; re_Status r] ∧ opt_ok (re_Grant r) ∧ opt_ok (re_Error r).
#[global] Program Instance result_value : JSONValue EnrollmentResultV1 := {| js_ok := result_ok |}.
Next Obligation.
  intros r (Hv & Hr & Hs & Hg & He). split_valid Hs. change (js_fields r) with (result_fields r). split.
  - apply members_ok. unfold result_fields, field_opt, member_if, member. rewrite !Forall_app. split_and!.
    1-3: repeat (apply Forall_cons_2; [split; [reflexivity|first [assumption|by apply int_any_ok; left]]|]); apply Forall_nil_2.
    + destruct (re_Grant r) as [g|]; [|constructor]. constructor; [|constructor]. split; [done|]. exact (proj1 (js_text g Hg)).
    + destruct (re_Error r) as [e|]; [|constructor]. constructor; [|constructor]. split; [done|]. exact (proj1 (js_text e He)).
    + case_match; [|constructor]. constructor; [|constructor]. split; [done|]. apply int_any_ok. by left.
  - unfold result_fields, field_opt, member_if, member.
    assert (∀ e, re_Error r = Some e → ep_Details e = ∅) as Hd by (intros e E; rewrite E in He; apply He).
    destruct (re_Grant r) as [g|], (re_Error r) as [e|]; try (specialize (Hd e eq_refl)); case_match; cbn [app nesting foldr snd int_any];
      unfold grant_fields, error_fields, text_field, flag_field, member_if, member; cbn [app nesting foldr snd int_any]; rewrite ?Hd, ?bool_decide_eq_true_2 by done; repeat case_match; vm_compute; done.
Qed.
Next Obligation.
  intros r (Hv & Hr & Hs & Hg & He). change (decode_members result_spec result_zero (result_fields r) = Some r). unfold result_fields, field_opt, member_if, member.
  assert (re_RetryAfterMS r = 0 ∨ re_RetryAfterMS r ≠ 0) as [Ez|Ez] by lia; [rewrite Ez; change (0 =? 0) with true|rewrite (proj2 (Z.eqb_neq _ _) Ez)];
    destruct (re_Grant r) as [g|] eqn:Eg, (re_Error r) as [e|] eqn:Ee; cbn [app negb];
    repeat (erewrite decode_step; [|lazy -[assign_int assign_string assign_pointer grant_spec grant_zero error_spec error_zero]; reflexivity|
      first [assign|exact (assign_pointer_any (B := EnrollmentGrantV1) _ _ _ g eq_refl Hg)|exact (assign_pointer_any (B := ErrorPayload) _ _ _ e eq_refl He)]]);
    cbn [decode_members]; destruct r; simpl in *; subst; reflexivity.
Qed.
