(* ===== verification/AdmissionSchema.v ===== *)
(** * Admission and management records (protocol/schema_admission.go, schema_management.go)

    The records that administer an enrollment authority, their validation, and their JSON forms
    with the round trips: queries and pages of permits, requests and enrollments, decisions,
    revocations, and the submission of an enrollment by a parent.  Of the management records,
    those that concern admission: permits of a parent, revocation of a node, audit events. *)

From S2P Require Import Prelude GoStd GoSort GoEncoding GoJSON GoFloat GoStruct Wire Codec PolicySchema EnrollmentWire Payload.
Open Scope Z_scope.

Inductive record_error :=
| AField (e : enrollment_error) | AWire (e : wire_error) | AEpoch | ACounts | ALimit | ATTL | ATimeRange | ATimestamps | ARecordStatus | ARevokedAt
| AItems | AItem (index : Z) (e : record_error) | AKey | AResultStatus | ADecision.
#[local] Abbreviation fld := (mapErr AField).
#[local] Abbreviation wire := (mapErr AWire).

Definition BuiltinAdmissionApplyRevocation : string := "system/admission/apply-revocation".
Definition BuiltinAdmissionSubmitEnrollment : string := "system/admission/submit-enrollment".
Definition BuiltinAdmissionIssuePermit : string := "system/admission/issue".
Definition BuiltinAdmissionRevokePermit : string := "system/admission/revoke-permit".
Definition BuiltinAdmissionApprove : string := "system/admission/approve".
Definition BuiltinAdmissionListPermits : string := "system/admission/list-permits".
Definition BuiltinAdmissionListRequests : string := "system/admission/list-requests".
Definition BuiltinAdmissionListEnrollments : string := "system/admission/list-enrollments".
Definition BuiltinAdmissionReject : string := "system/admission/reject".
Definition BuiltinAdmissionRevokeEnrollment : string := "system/admission/revoke-enrollment".

Definition validateAdmissionRecordStatus (value : string) (allowed : list string) : result record_error unit :=
  fail_if negb (existsb (String.eqb value) allowed) with ARecordStatus ;; Ok tt.
Definition validateAdmissionListHeader (version epoch items : Z) : result record_error unit :=
  _ ← fld (schemaVersion version);
  fail_if epoch =? 0 with AEpoch ;;
  fail_if MaxItems <? items with AItems ;;
  Ok tt.
(** The loop of the lists over their items. *)
Fixpoint check_items {I} (validate : I → result record_error unit) (index : Z) (items : list I) : result record_error unit :=
  match items with [] => Ok tt | item :: rest => _ ← mapErr (AItem index) (validate item); check_items validate (index + 1) rest end.

(** ** Records *)

Record AdmissionStatusV1 := mkAdmissionStatus {
  xs_Version : Z; xs_AuthorityNodeID : string; xs_AuthorityEpoch : Z; xs_Permits : Z; xs_PendingRequests : Z; xs_Enrollments : Z; xs_Revocations : Z
}.
Definition AdmissionStatus_Validate (r : AdmissionStatusV1) : result record_error unit :=
  _ ← fld (schemaVersion (xs_Version r));
  _ ← fld (nodeIDText (xs_AuthorityNodeID r));
  fail_if xs_AuthorityEpoch r =? 0 with AEpoch ;;
  fail_if (xs_Permits r <? 0) || (xs_PendingRequests r <? 0) || (xs_Enrollments r <? 0) || (xs_Revocations r <? 0) with ACounts ;;
  Ok tt.

Record AdmissionListV1 := mkAdmissionList {
  aq_Version : Z; aq_Cursor : string; aq_Limit : Z; aq_Status : string
}.
Definition AdmissionList_Validate (r : AdmissionListV1) : result record_error unit :=
  _ ← fld (schemaVersion (aq_Version r));
  _ ← (if negb (String.eqb (aq_Cursor r) "") then fld (hexID (aq_Cursor r) 16) else Ok tt);
  fail_if (aq_Limit r <? 0) || (MaxItems <? aq_Limit r) with ALimit ;;
  fld (text (aq_Status r) MaxIdentifierBytes false).

Record AdmissionIssuePermitV1 := mkAdmissionIssue {
  ai_Version : Z; ai_RequestID : string; ai_DevicePublicKeyFingerprint : string; ai_TargetNodeID : string; ai_AllowDescendants : bool; ai_AdmissionProfile : string;
  ai_TTLMS : Z
}.
Definition AdmissionIssuePermit_Validate (r : AdmissionIssuePermitV1) : result record_error unit :=
  _ ← fld (schemaVersion (ai_Version r));
  _ ← fld (hexID (ai_RequestID r) 16);
  _ ← fld (hexID (ai_DevicePublicKeyFingerprint r) 32);
  _ ← fld (nodeIDText (ai_TargetNodeID r));
  _ ← fld (text (ai_AdmissionProfile r) MaxIdentifierBytes true);
  fail_if ai_TTLMS r <=? 0 with ATTL ;;
  Ok tt.

Record AdmissionRevokePermitV1 := mkAdmissionRevokePermit {
  av_Version : Z; av_RequestID : string; av_PermitID : string; av_Reason : string
}.
Definition AdmissionRevokePermit_Validate (r : AdmissionRevokePermitV1) : result record_error unit :=
  _ ← fld (schemaVersion (av_Version r));
  _ ← fld (hexID (av_RequestID r) 16);
  _ ← fld (hexID (av_PermitID r) 16);
  fld (text (av_Reason r) MaxLabelBytes true).

Record AdmissionDecisionV1 := mkAdmissionDecision {
  xd_Version : Z; xd_RequestID : string; xd_EnrollmentRequestID : string; xd_AdmissionProfile : string; xd_Reason : string
}.
Definition AdmissionDecision_Validate (r : AdmissionDecisionV1) : result record_error unit :=
  _ ← fld (schemaVersion (xd_Version r));
  _ ← fld (hexID (xd_RequestID r) 16);
  _ ← fld (hexID (xd_EnrollmentRequestID r) 16);
  _ ← fld (text (xd_AdmissionProfile r) MaxIdentifierBytes false);
  fld (text (xd_Reason r) MaxLabelBytes false).

Record AdmissionRevokeEnrollmentV1 := mkAdmissionRevokeEnrollment {
  ae_Version : Z; ae_RequestID : string; ae_EnrollmentID : string; ae_Reason : string
}.
Definition AdmissionRevokeEnrollment_Validate (r : AdmissionRevokeEnrollmentV1) : result record_error unit :=
  _ ← fld (schemaVersion (ae_Version r));
  _ ← fld (hexID (ae_RequestID r) 16);
  _ ← fld (hexID (ae_EnrollmentID r) 16);
  fld (text (ae_Reason r) MaxLabelBytes true).

Record AdmissionSubmitV1 := mkAdmissionSubmit {
  sm_Version : Z; sm_RequestID : string; sm_DevicePublicKey : string; sm_ParentNodeID : string; sm_ParentPublicKey : string; sm_Permit : string;
  sm_TranscriptDigest : string
}.
Definition AdmissionSubmit_Validate (r : AdmissionSubmitV1) : result record_error unit :=
  _ ← fld (schemaVersion (sm_Version r));
  _ ← fld (hexID (sm_RequestID r) 16);
  _ ← fld (validateEd25519PublicKey (sm_DevicePublicKey r) true);
  _ ← fld (nodeIDText (sm_ParentNodeID r));
  _ ← fld (validateEd25519PublicKey (sm_ParentPublicKey r) true);
  _ ← fld (text (sm_Permit r) (EnrollmentMaxPayload / 2) false);
  fld (hexID (sm_TranscriptDigest r) 32).

Record AdmissionPermitRecordV1 := mkAdmissionPermit {
  apr_Version : Z; apr_PermitID : string; apr_DevicePublicKeyFingerprint : string; apr_TargetNodeID : string; apr_AllowDescendants : bool; apr_AdmissionProfile : string;
  apr_IssuedAtUnixMS : Z; apr_ExpiresAtUnixMS : Z; apr_Status : string
}.
Definition AdmissionPermitRecord_Validate (r : AdmissionPermitRecordV1) : result record_error unit :=
  _ ← fld (schemaVersion (apr_Version r));
  _ ← fld (hexID (apr_PermitID r) 16);
  _ ← fld (hexID (apr_DevicePublicKeyFingerprint r) 32);
  _ ← fld (nodeIDText (apr_TargetNodeID r));
  _ ← fld (text (apr_AdmissionProfile r) MaxIdentifierBytes true);
  fail_if (apr_IssuedAtUnixMS r <=? 0) || (apr_ExpiresAtUnixMS r <=? apr_IssuedAtUnixMS r) with ATimeRange ;;
  _ ← validateAdmissionRecordStatus (apr_Status r) ["active"; "consumed"; "revoked"; "expired"];
  Ok tt.

Record AdmissionRequestRecordV1 := mkAdmissionRequest {
  arr_Version : Z; arr_RequestID : string; arr_DevicePublicKeyFingerprint : string; arr_ParentNodeID : string; arr_CreatedAtUnixMS : Z; arr_UpdatedAtUnixMS : Z;
  arr_ExpiresAtUnixMS : Z; arr_Status : string; arr_Reason : string
}.
Definition AdmissionRequestRecord_Validate (r : AdmissionRequestRecordV1) : result record_error unit :=
  _ ← fld (schemaVersion (arr_Version r));
  _ ← fld (hexID (arr_RequestID r) 16);
  _ ← fld (hexID (arr_DevicePublicKeyFingerprint r) 32);
  _ ← fld (nodeIDText (arr_ParentNodeID r));
  fail_if (arr_CreatedAtUnixMS r <=? 0) || (arr_UpdatedAtUnixMS r <? arr_CreatedAtUnixMS r) || (arr_ExpiresAtUnixMS r <=? arr_CreatedAtUnixMS r) with ATimestamps ;;
  _ ← validateAdmissionRecordStatus (arr_Status r) ["pending"; "approved"; "rejected"; "expired"];
  fld (text (arr_Reason r) MaxLabelBytes false).

Record AdmissionEnrollmentRecordV1 := mkAdmissionEnrollment {
  aer_Version : Z; aer_EnrollmentID : string; aer_NodeID : string; aer_DevicePublicKeyFingerprint : string; aer_ParentNodeID : string; aer_AdmissionProfile : string;
  aer_CreatedAtUnixMS : Z; aer_Status : string; aer_RevokedAtUnixMS : Z; aer_Reason : string
}.
Definition AdmissionEnrollmentRecord_Validate (r : AdmissionEnrollmentRecordV1) : result record_error unit :=
  _ ← fld (schemaVersion (aer_Version r));
  _ ← fld (hexID (aer_EnrollmentID r) 16);
  _ ← fld (nodeIDText (aer_NodeID r));
  _ ← fld (hexID (aer_DevicePublicKeyFingerprint r) 32);
  _ ← fld (nodeIDText (aer_ParentNodeID r));
  _ ← fld (text (aer_AdmissionProfile r) MaxIdentifierBytes true);
  fail_if (aer_CreatedAtUnixMS r <=? 0) || (aer_RevokedAtUnixMS r <? 0) with ATimestamps ;;
  _ ← validateAdmissionRecordStatus (aer_Status r) ["active"; "revoked"];
  fail_if String.eqb (aer_Status r) "revoked" && (aer_RevokedAtUnixMS r <? aer_CreatedAtUnixMS r) with ARevokedAt ;;
  fld (text (aer_Reason r) MaxLabelBytes false).

Record AdmissionPermitListV1 := mkAdmissionPermits {
  apl_Version : Z; apl_AuthorityEpoch : Z; apl_Items : list AdmissionPermitRecordV1; apl_NextCursor : string
}.
Definition AdmissionPermitList_Validate (r : AdmissionPermitListV1) : result record_error unit :=
  _ ← validateAdmissionListHeader (apl_Version r) (apl_AuthorityEpoch r) (Z.of_nat (length (apl_Items r)));
  _ ← check_items AdmissionPermitRecord_Validate 0 (apl_Items r);
  if negb (String.eqb (apl_NextCursor r) "") then fld (hexID (apl_NextCursor r) 16) else Ok tt.

Record AdmissionRequestListV1 := mkAdmissionRequests {
  arl_Version : Z; arl_AuthorityEpoch : Z; arl_Items : list AdmissionRequestRecordV1; arl_NextCursor : string
}.
Definition AdmissionRequestList_Validate (r : AdmissionRequestListV1) : result record_error unit :=
  _ ← validateAdmissionListHeader (arl_Version r) (arl_AuthorityEpoch r) (Z.of_nat (length (arl_Items r)));
  _ ← check_items AdmissionRequestRecord_Validate 0 (arl_Items r);
  if negb (String.eqb (arl_NextCursor r) "") then fld (hexID (arl_NextCursor r) 16) else Ok tt.

Record AdmissionEnrollmentListV1 := mkAdmissionEnrollments {
  ael_Version : Z; ael_AuthorityEpoch : Z; ael_Items : list AdmissionEnrollmentRecordV1; ael_NextCursor : string
}.
Definition AdmissionEnrollmentList_Validate (r : AdmissionEnrollmentListV1) : result record_error unit :=
  _ ← validateAdmissionListHeader (ael_Version r) (ael_AuthorityEpoch r) (Z.of_nat (length (ael_Items r)));
  _ ← check_items AdmissionEnrollmentRecord_Validate 0 (ael_Items r);
  if negb (String.eqb (ael_NextCursor r) "") then fld (hexID (ael_NextCursor r) 16) else Ok tt.

Record ManagementIssuePermitV1 := mkManagementIssue {
  mi_Version : Z; mi_ChildNodeID : string; mi_ChildPublicKey : string; mi_Role : string; mi_TTLMS : Z
}.
Definition ManagementIssuePermit_Validate (r : ManagementIssuePermitV1) : result record_error unit :=
  _ ← fld (schemaVersion (mi_Version r));
  _ ← fld (nodeIDText (mi_ChildNodeID r));
  match RawStd_DecodeString (mi_ChildPublicKey r) with
  | None => Err AKey
  | Some key =>
    fail_if negb (blen key =? 32) with AKey ;;
    _ ← fld (text (mi_Role r) MaxIdentifierBytes true);
    fail_if mi_TTLMS r <=? 0 with ATTL ;;
    Ok tt
  end.

Record ManagementRevokePermitV1 := mkManagementRevokePermit {
  mp_Version : Z; mp_PermitID : string
}.
Definition ManagementRevokePermit_Validate (r : ManagementRevokePermitV1) : result record_error unit :=
  _ ← fld (schemaVersion (mp_Version r));
  fld (hexID (mp_PermitID r) 16).

Record ManagementRevokeV1 := mkManagementRevoke {
  mr_Version : Z; mr_NodeID : string; mr_Reason : string
}.
Definition ManagementRevoke_Validate (r : ManagementRevokeV1) : result record_error unit :=
  _ ← fld (schemaVersion (mr_Version r));
  _ ← fld (nodeIDText (mr_NodeID r));
  fld (text (mr_Reason r) MaxLabelBytes true).

Record ManagementResultV1 := mkManagementResult {
  mo_Version : Z; mo_Status : string
}.
Definition ManagementResult_Validate (r : ManagementResultV1) : result record_error unit :=
  _ ← fld (schemaVersion (mo_Version r));
  fail_if negb (String.eqb (mo_Status r) "ok") with AResultStatus ;;
  Ok tt.

Record ManagementAuditV1 := mkManagementAudit {
  ma_Version : Z; ma_TimeUnixMS : Z; ma_Subject : string; ma_Action : string; ma_ResourceNode : string; ma_ResourceName : string; ma_Decision : string;
  ma_Target : string; ma_Status : string; ma_Detail : string
}.
Definition ManagementAudit_Validate (r : ManagementAuditV1) : result record_error unit :=
  _ ← fld (schemaVersion (ma_Version r));
  fail_if ma_TimeUnixMS r <=? 0 with ATimestamps ;;
  _ ← fld (nodeIDText (ma_Subject r));
  _ ← wire (CapabilityID_Validate (ma_Action r));
  _ ← fld (nodeIDText (ma_ResourceNode r));
  _ ← wire (ResourceID_Validate (mkResourceID 1 (ma_ResourceName r)));
  fail_if negb (String.eqb (ma_Decision r) "allow") && negb (String.eqb (ma_Decision r) "deny") with ADecision ;;
  _ ← fld (text (ma_Target r) MaxLabelBytes false);
  _ ← fld (text (ma_Status r) MaxIdentifierBytes false);
  fld (text (ma_Detail r) 2048 false).

(** ** JSON *)

Definition admission_status_zero : AdmissionStatusV1 := mkAdmissionStatus 0 "" 0 0 0 0 0.
Definition admission_status_spec : list (string * assignment AdmissionStatusV1) :=
  [("version", assign_int (λ r x, mkAdmissionStatus x (xs_AuthorityNodeID r) (xs_AuthorityEpoch r) (xs_Permits r) (xs_PendingRequests r) (xs_Enrollments r) (xs_Revocations r)));
   ("authority_node_id", assign_string (λ r x, mkAdmissionStatus (xs_Version r) x (xs_AuthorityEpoch r) (xs_Permits r) (xs_PendingRequests r) (xs_Enrollments r) (xs_Revocations r)));
   ("authority_epoch", assign_uint (λ r x, mkAdmissionStatus (xs_Version r) (xs_AuthorityNodeID r) x (xs_Permits r) (xs_PendingRequests r) (xs_Enrollments r) (xs_Revocations r)));
   ("permits", assign_int (λ r x, mkAdmissionStatus (xs_Version r) (xs_AuthorityNodeID r) (xs_AuthorityEpoch r) x (xs_PendingRequests r) (xs_Enrollments r) (xs_Revocations r)));
   ("pending_requests", assign_int (λ r x, mkAdmissionStatus (xs_Version r) (xs_AuthorityNodeID r) (xs_AuthorityEpoch r) (xs_Permits r) x (xs_Enrollments r) (xs_Revocations r)));
   ("enrollments", assign_int (λ r x, mkAdmissionStatus (xs_Version r) (xs_AuthorityNodeID r) (xs_AuthorityEpoch r) (xs_Permits r) (xs_PendingRequests r) x (xs_Revocations r)));
   ("revocations", assign_int (λ r x, mkAdmissionStatus (xs_Version r) (xs_AuthorityNodeID r) (xs_AuthorityEpoch r) (xs_Permits r) (xs_PendingRequests r) (xs_Enrollments r) x))].
Definition admission_status_fields (r : AdmissionStatusV1) : list (string * any) :=
  member "version" (int_any (xs_Version r)) ++ member "authority_node_id" (AString (xs_AuthorityNodeID r)) ++ member "authority_epoch" (int_any (xs_AuthorityEpoch r)) ++
  member "permits" (int_any (xs_Permits r)) ++ member "pending_requests" (int_any (xs_PendingRequests r)) ++ member "enrollments" (int_any (xs_Enrollments r)) ++
  member "revocations" (int_any (xs_Revocations r)).
#[global] Instance admission_status_json : JSONStruct AdmissionStatusV1 := {| js_zero := admission_status_zero; js_spec := admission_status_spec; js_fields := admission_status_fields |}.
#[global] Instance admission_status_validated : ValidatedPayload AdmissionStatusV1 := {| Validate := AdmissionStatus_Validate |}.

Definition list_query_zero : AdmissionListV1 := mkAdmissionList 0 "" 0 "".
Definition list_query_spec : list (string * assignment AdmissionListV1) :=
  [("version", assign_int (λ r x, mkAdmissionList x (aq_Cursor r) (aq_Limit r) (aq_Status r)));
   ("cursor", assign_string (λ r x, mkAdmissionList (aq_Version r) x (aq_Limit r) (aq_Status r)));
   ("limit", assign_int (λ r x, mkAdmissionList (aq_Version r) (aq_Cursor r) x (aq_Status r)));
   ("status", assign_string (λ r x, mkAdmissionList (aq_Version r) (aq_Cursor r) (aq_Limit r) x))].
Definition list_query_fields (r : AdmissionListV1) : list (string * any) :=
  member "version" (int_any (aq_Version r)) ++ text_field "cursor" (aq_Cursor r) ++ member_if (negb (aq_Limit r =? 0)) "limit" (int_any (aq_Limit r)) ++
  text_field "status" (aq_Status r).
#[global] Instance list_query_json : JSONStruct AdmissionListV1 := {| js_zero := list_query_zero; js_spec := list_query_spec; js_fields := list_query_fields |}.
#[global] Instance list_query_validated : ValidatedPayload AdmissionListV1 := {| Validate := AdmissionList_Validate |}.

Definition issue_zero : AdmissionIssuePermitV1 := mkAdmissionIssue 0 "" "" "" false "" 0.
Definition issue_spec : list (string * assignment AdmissionIssuePermitV1) :=
  [("version", assign_int (λ r x, mkAdmissionIssue x (ai_RequestID r) (ai_DevicePublicKeyFingerprint r) (ai_TargetNodeID r) (ai_AllowDescendants r) (ai_AdmissionProfile r) (ai_TTLMS r)));
   ("request_id", assign_string (λ r x, mkAdmissionIssue (ai_Version r) x (ai_DevicePublicKeyFingerprint r) (ai_TargetNodeID r) (ai_AllowDescendants r) (ai_AdmissionProfile r) (ai_TTLMS r)));
   ("device_public_key_fingerprint", assign_string (λ r x, mkAdmissionIssue (ai_Version r) (ai_RequestID r) x (ai_TargetNodeID r) (ai_AllowDescendants r) (ai_AdmissionProfile r) (ai_TTLMS r)));
   ("target_node_id", assign_string (λ r x, mkAdmissionIssue (ai_Version r) (ai_RequestID r) (ai_DevicePublicKeyFingerprint r) x (ai_AllowDescendants r) (ai_AdmissionProfile r) (ai_TTLMS r)));
   ("allow_descendants", assign_bool (λ r x, mkAdmissionIssue (ai_Version r) (ai_RequestID r) (ai_DevicePublicKeyFingerprint r) (ai_TargetNodeID r) x (ai_AdmissionProfile r) (ai_TTLMS r)));
   ("admission_profile", assign_string (λ r x, mkAdmissionIssue (ai_Version r) (ai_RequestID r) (ai_DevicePublicKeyFingerprint r) (ai_TargetNodeID r) (ai_AllowDescendants r) x (ai_TTLMS r)));
   ("ttl_ms", assign_int (λ r x, mkAdmissionIssue (ai_Version r) (ai_RequestID r) (ai_DevicePublicKeyFingerprint r) (ai_TargetNodeID r) (ai_AllowDescendants r) (ai_AdmissionProfile r) x))].
Definition issue_fields (r : AdmissionIssuePermitV1) : list (string * any) :=
  member "version" (int_any (ai_Version r)) ++ member "request_id" (AString (ai_RequestID r)) ++
  member "device_public_key_fingerprint" (AString (ai_DevicePublicKeyFingerprint r)) ++ member "target_node_id" (AString (ai_TargetNodeID r)) ++
  flag_field "allow_descendants" (ai_AllowDescendants r) ++ member "admission_profile" (AString (ai_AdmissionProfile r)) ++ member "ttl_ms" (int_any (ai_TTLMS r)).
#[global] Instance issue_json : JSONStruct AdmissionIssuePermitV1 := {| js_zero := issue_zero; js_spec := issue_spec; js_fields := issue_fields |}.
#[global] Instance issue_validated : ValidatedPayload AdmissionIssuePermitV1 := {| Validate := AdmissionIssuePermit_Validate |}.

Definition revoke_permit_zero : AdmissionRevokePermitV1 := mkAdmissionRevokePermit 0 "" "" "".
Definition revoke_permit_spec : list (string * assignment AdmissionRevokePermitV1) :=
  [("version", assign_int (λ r x, mkAdmissionRevokePermit x (av_RequestID r) (av_PermitID r) (av_Reason r)));
   ("request_id", assign_string (λ r x, mkAdmissionRevokePermit (av_Version r) x (av_PermitID r) (av_Reason r)));
   ("permit_id", assign_string (λ r x, mkAdmissionRevokePermit (av_Version r) (av_RequestID r) x (av_Reason r)));
   ("reason", assign_string (λ r x, mkAdmissionRevokePermit (av_Version r) (av_RequestID r) (av_PermitID r) x))].
Definition revoke_permit_fields (r : AdmissionRevokePermitV1) : list (string * any) :=
  member "version" (int_any (av_Version r)) ++ member "request_id" (AString (av_RequestID r)) ++ member "permit_id" (AString (av_PermitID r)) ++
  member "reason" (AString (av_Reason r)).
#[global] Instance revoke_permit_json : JSONStruct AdmissionRevokePermitV1 := {| js_zero := revoke_permit_zero; js_spec := revoke_permit_spec; js_fields := revoke_permit_fields |}.
#[global] Instance revoke_permit_validated : ValidatedPayload AdmissionRevokePermitV1 := {| Validate := AdmissionRevokePermit_Validate |}.

Definition decision_zero : AdmissionDecisionV1 := mkAdmissionDecision 0 "" "" "" "".
Definition decision_spec : list (string * assignment AdmissionDecisionV1) :=
  [("version", assign_int (λ r x, mkAdmissionDecision x (xd_RequestID r) (xd_EnrollmentRequestID r) (xd_AdmissionProfile r) (xd_Reason r)));
   ("request_id", assign_string (λ r x, mkAdmissionDecision (xd_Version r) x (xd_EnrollmentRequestID r) (xd_AdmissionProfile r) (xd_Reason r)));
   ("enrollment_request_id", assign_string (λ r x, mkAdmissionDecision (xd_Version r) (xd_RequestID r) x (xd_AdmissionProfile r) (xd_Reason r)));
   ("admission_profile", assign_string (λ r x, mkAdmissionDecision (xd_Version r) (xd_RequestID r) (xd_EnrollmentRequestID r) x (xd_Reason r)));
   ("reason", assign_string (λ r x, mkAdmissionDecision (xd_Version r) (xd_RequestID r) (xd_EnrollmentRequestID r) (xd_AdmissionProfile r) x))].
Definition decision_fields (r : AdmissionDecisionV1) : list (string * any) :=
  member "version" (int_any (xd_Version r)) ++ member "request_id" (AString (xd_RequestID r)) ++ member "enrollment_request_id" (AString (xd_EnrollmentRequestID r)) ++
  text_field "admission_profile" (xd_AdmissionProfile r) ++ text_field "reason" (xd_Reason r).
#[global] Instance decision_json : JSONStruct AdmissionDecisionV1 := {| js_zero := decision_zero; js_spec := decision_spec; js_fields := decision_fields |}.
#[global] Instance decision_validated : ValidatedPayload AdmissionDecisionV1 := {| Validate := AdmissionDecision_Validate |}.

Definition revoke_enrollment_zero : AdmissionRevokeEnrollmentV1 := mkAdmissionRevokeEnrollment 0 "" "" "".
Definition revoke_enrollment_spec : list (string * assignment AdmissionRevokeEnrollmentV1) :=
  [("version", assign_int (λ r x, mkAdmissionRevokeEnrollment x (ae_RequestID r) (ae_EnrollmentID r) (ae_Reason r)));
   ("request_id", assign_string (λ r x, mkAdmissionRevokeEnrollment (ae_Version r) x (ae_EnrollmentID r) (ae_Reason r)));
   ("enrollment_id", assign_string (λ r x, mkAdmissionRevokeEnrollment (ae_Version r) (ae_RequestID r) x (ae_Reason r)));
   ("reason", assign_string (λ r x, mkAdmissionRevokeEnrollment (ae_Version r) (ae_RequestID r) (ae_EnrollmentID r) x))].
Definition revoke_enrollment_fields (r : AdmissionRevokeEnrollmentV1) : list (string * any) :=
  member "version" (int_any (ae_Version r)) ++ member "request_id" (AString (ae_RequestID r)) ++ member "enrollment_id" (AString (ae_EnrollmentID r)) ++
  member "reason" (AString (ae_Reason r)).
#[global] Instance revoke_enrollment_json : JSONStruct AdmissionRevokeEnrollmentV1 := {| js_zero := revoke_enrollment_zero; js_spec := revoke_enrollment_spec; js_fields := revoke_enrollment_fields |}.
#[global] Instance revoke_enrollment_validated : ValidatedPayload AdmissionRevokeEnrollmentV1 := {| Validate := AdmissionRevokeEnrollment_Validate |}.

Definition submit_zero : AdmissionSubmitV1 := mkAdmissionSubmit 0 "" "" "" "" "" "".
Definition submit_spec : list (string * assignment AdmissionSubmitV1) :=
  [("version", assign_int (λ r x, mkAdmissionSubmit x (sm_RequestID r) (sm_DevicePublicKey r) (sm_ParentNodeID r) (sm_ParentPublicKey r) (sm_Permit r) (sm_TranscriptDigest r)));
   ("request_id", assign_string (λ r x, mkAdmissionSubmit (sm_Version r) x (sm_DevicePublicKey r) (sm_ParentNodeID r) (sm_ParentPublicKey r) (sm_Permit r) (sm_TranscriptDigest r)));
   ("device_public_key", assign_string (λ r x, mkAdmissionSubmit (sm_Version r) (sm_RequestID r) x (sm_ParentNodeID r) (sm_ParentPublicKey r) (sm_Permit r) (sm_TranscriptDigest r)));
   ("parent_node_id", assign_string (λ r x, mkAdmissionSubmit (sm_Version r) (sm_RequestID r) (sm_DevicePublicKey r) x (sm_ParentPublicKey r) (sm_Permit r) (sm_TranscriptDigest r)));
   ("parent_public_key", assign_string (λ r x, mkAdmissionSubmit (sm_Version r) (sm_RequestID r) (sm_DevicePublicKey r) (sm_ParentNodeID r) x (sm_Permit r) (sm_TranscriptDigest r)));
   ("permit", assign_string (λ r x, mkAdmissionSubmit (sm_Version r) (sm_RequestID r) (sm_DevicePublicKey r) (sm_ParentNodeID r) (sm_ParentPublicKey r) x (sm_TranscriptDigest r)));
   ("transcript_digest", assign_string (λ r x, mkAdmissionSubmit (sm_Version r) (sm_RequestID r) (sm_DevicePublicKey r) (sm_ParentNodeID r) (sm_ParentPublicKey r) (sm_Permit r) x))].
Definition submit_fields (r : AdmissionSubmitV1) : list (string * any) :=
  member "version" (int_any (sm_Version r)) ++ member "request_id" (AString (sm_RequestID r)) ++ member "device_public_key" (AString (sm_DevicePublicKey r)) ++
  member "parent_node_id" (AString (sm_ParentNodeID r)) ++ member "parent_public_key" (AString (sm_ParentPublicKey r)) ++ text_field "permit" (sm_Permit r) ++
  member "transcript_digest" (AString (sm_TranscriptDigest r)).
#[global] Instance submit_json : JSONStruct AdmissionSubmitV1 := {| js_zero := submit_zero; js_spec := submit_spec; js_fields := submit_fields |}.
#[global] Instance submit_validated : ValidatedPayload AdmissionSubmitV1 := {| Validate := AdmissionSubmit_Validate |}.

Definition permit_record_zero : AdmissionPermitRecordV1 := mkAdmissionPermit 0 "" "" "" false "" 0 0 "".
Definition permit_record_spec : list (string * assignment AdmissionPermitRecordV1) :=
  [("version", assign_int (λ r x, mkAdmissionPermit x (apr_PermitID r) (apr_DevicePublicKeyFingerprint r) (apr_TargetNodeID r) (apr_AllowDescendants r) (apr_AdmissionProfile r) (apr_IssuedAtUnixMS r) (apr_ExpiresAtUnixMS r) (apr_Status r)));
   ("permit_id", assign_string (λ r x, mkAdmissionPermit (apr_Version r) x (apr_DevicePublicKeyFingerprint r) (apr_TargetNodeID r) (apr_AllowDescendants r) (apr_AdmissionProfile r) (apr_IssuedAtUnixMS r) (apr_ExpiresAtUnixMS r) (apr_Status r)));
   ("device_public_key_fingerprint", assign_string (λ r x, mkAdmissionPermit (apr_Version r) (apr_PermitID r) x (apr_TargetNodeID r) (apr_AllowDescendants r) (apr_AdmissionProfile r) (apr_IssuedAtUnixMS r) (apr_ExpiresAtUnixMS r) (apr_Status r)));
   ("target_node_id", assign_string (λ r x, mkAdmissionPermit (apr_Version r) (apr_PermitID r) (apr_DevicePublicKeyFingerprint r) x (apr_AllowDescendants r) (apr_AdmissionProfile r) (apr_IssuedAtUnixMS r) (apr_ExpiresAtUnixMS r) (apr_Status r)));
   ("allow_descendants", assign_bool (λ r x, mkAdmissionPermit (apr_Version r) (apr_PermitID r) (apr_DevicePublicKeyFingerprint r) (apr_TargetNodeID r) x (apr_AdmissionProfile r) (apr_IssuedAtUnixMS r) (apr_ExpiresAtUnixMS r) (apr_Status r)));
   ("admission_profile", assign_string (λ r x, mkAdmissionPermit (apr_Version r) (apr_PermitID r) (apr_DevicePublicKeyFingerprint r) (apr_TargetNodeID r) (apr_AllowDescendants r) x (apr_IssuedAtUnixMS r) (apr_ExpiresAtUnixMS r) (apr_Status r)));
   ("issued_at_unix_ms", assign_int (λ r x, mkAdmissionPermit (apr_Version r) (apr_PermitID r) (apr_DevicePublicKeyFingerprint r) (apr_TargetNodeID r) (apr_AllowDescendants r) (apr_AdmissionProfile r) x (apr_ExpiresAtUnixMS r) (apr_Status r)));
   ("expires_at_unix_ms", assign_int (λ r x, mkAdmissionPermit (apr_Version r) (apr_PermitID r) (apr_DevicePublicKeyFingerprint r) (apr_TargetNodeID r) (apr_AllowDescendants r) (apr_AdmissionProfile r) (apr_IssuedAtUnixMS r) x (apr_Status r)));
   ("status", assign_string (λ r x, mkAdmissionPermit (apr_Version r) (apr_PermitID r) (apr_DevicePublicKeyFingerprint r) (apr_TargetNodeID r) (apr_AllowDescendants r) (apr_AdmissionProfile r) (apr_IssuedAtUnixMS r) (apr_ExpiresAtUnixMS r) x))].
Definition permit_record_fields (r : AdmissionPermitRecordV1) : list (string * any) :=
  member "version" (int_any (apr_Version r)) ++ member "permit_id" (AString (apr_PermitID r)) ++
  member "device_public_key_fingerprint" (AString (apr_DevicePublicKeyFingerprint r)) ++ member "target_node_id" (AString (apr_TargetNodeID r)) ++
  flag_field "allow_descendants" (apr_AllowDescendants r) ++ member "admission_profile" (AString (apr_AdmissionProfile r)) ++
  member "issued_at_unix_ms" (int_any (apr_IssuedAtUnixMS r)) ++ member "expires_at_unix_ms" (int_any (apr_ExpiresAtUnixMS r)) ++
  member "status" (AString (apr_Status r)).
#[global] Instance permit_record_json : JSONStruct AdmissionPermitRecordV1 := {| js_zero := permit_record_zero; js_spec := permit_record_spec; js_fields := permit_record_fields |}.
#[global] Instance permit_record_validated : ValidatedPayload AdmissionPermitRecordV1 := {| Validate := AdmissionPermitRecord_Validate |}.

Definition request_record_zero : AdmissionRequestRecordV1 := mkAdmissionRequest 0 "" "" "" 0 0 0 "" "".
Definition request_record_spec : list (string * assignment AdmissionRequestRecordV1) :=
  [("version", assign_int (λ r x, mkAdmissionRequest x (arr_RequestID r) (arr_DevicePublicKeyFingerprint r) (arr_ParentNodeID r) (arr_CreatedAtUnixMS r) (arr_UpdatedAtUnixMS r) (arr_ExpiresAtUnixMS r) (arr_Status r) (arr_Reason r)));
   ("request_id", assign_string (λ r x, mkAdmissionRequest (arr_Version r) x (arr_DevicePublicKeyFingerprint r) (arr_ParentNodeID r) (arr_CreatedAtUnixMS r) (arr_UpdatedAtUnixMS r) (arr_ExpiresAtUnixMS r) (arr_Status r) (arr_Reason r)));
   ("device_public_key_fingerprint", assign_string (λ r x, mkAdmissionRequest (arr_Version r) (arr_RequestID r) x (arr_ParentNodeID r) (arr_CreatedAtUnixMS r) (arr_UpdatedAtUnixMS r) (arr_ExpiresAtUnixMS r) (arr_Status r) (arr_Reason r)));
   ("parent_node_id", assign_string (λ r x, mkAdmissionRequest (arr_Version r) (arr_RequestID r) (arr_DevicePublicKeyFingerprint r) x (arr_CreatedAtUnixMS r) (arr_UpdatedAtUnixMS r) (arr_ExpiresAtUnixMS r) (arr_Status r) (arr_Reason r)));
   ("created_at_unix_ms", assign_int (λ r x, mkAdmissionRequest (arr_Version r) (arr_RequestID r) (arr_DevicePublicKeyFingerprint r) (arr_ParentNodeID r) x (arr_UpdatedAtUnixMS r) (arr_ExpiresAtUnixMS r) (arr_Status r) (arr_Reason r)));
   ("updated_at_unix_ms", assign_int (λ r x, mkAdmissionRequest (arr_Version r) (arr_RequestID r) (arr_DevicePublicKeyFingerprint r) (arr_ParentNodeID r) (arr_CreatedAtUnixMS r) x (arr_ExpiresAtUnixMS r) (arr_Status r) (arr_Reason r)));
   ("expires_at_unix_ms", assign_int (λ r x, mkAdmissionRequest (arr_Version r) (arr_RequestID r) (arr_DevicePublicKeyFingerprint r) (arr_ParentNodeID r) (arr_CreatedAtUnixMS r) (arr_UpdatedAtUnixMS r) x (arr_Status r) (arr_Reason r)));
   ("status", assign_string (λ r x, mkAdmissionRequest (arr_Version r) (arr_RequestID r) (arr_DevicePublicKeyFingerprint r) (arr_ParentNodeID r) (arr_CreatedAtUnixMS r) (arr_UpdatedAtUnixMS r) (arr_ExpiresAtUnixMS r) x (arr_Reason r)));
   ("reason", assign_string (λ r x, mkAdmissionRequest (arr_Version r) (arr_RequestID r) (arr_DevicePublicKeyFingerprint r) (arr_ParentNodeID r) (arr_CreatedAtUnixMS r) (arr_UpdatedAtUnixMS r) (arr_ExpiresAtUnixMS r) (arr_Status r) x))].
Definition request_record_fields (r : AdmissionRequestRecordV1) : list (string * any) :=
  member "version" (int_any (arr_Version r)) ++ member "request_id" (AString (arr_RequestID r)) ++
  member "device_public_key_fingerprint" (AString (arr_DevicePublicKeyFingerprint r)) ++ member "parent_node_id" (AString (arr_ParentNodeID r)) ++
  member "created_at_unix_ms" (int_any (arr_CreatedAtUnixMS r)) ++ member "updated_at_unix_ms" (int_any (arr_UpdatedAtUnixMS r)) ++
  member "expires_at_unix_ms" (int_any (arr_ExpiresAtUnixMS r)) ++ member "status" (AString (arr_Status r)) ++ text_field "reason" (arr_Reason r).
#[global] Instance request_record_json : JSONStruct AdmissionRequestRecordV1 := {| js_zero := request_record_zero; js_spec := request_record_spec; js_fields := request_record_fields |}.
#[global] Instance request_record_validated : ValidatedPayload AdmissionRequestRecordV1 := {| Validate := AdmissionRequestRecord_Validate |}.

Definition enrollment_record_zero : AdmissionEnrollmentRecordV1 := mkAdmissionEnrollment 0 "" "" "" "" "" 0 "" 0 "".
Definition enrollment_record_spec : list (string * assignment AdmissionEnrollmentRecordV1) :=
  [("version", assign_int (λ r x, mkAdmissionEnrollment x (aer_EnrollmentID r) (aer_NodeID r) (aer_DevicePublicKeyFingerprint r) (aer_ParentNodeID r) (aer_AdmissionProfile r) (aer_CreatedAtUnixMS r) (aer_Status r) (aer_RevokedAtUnixMS r) (aer_Reason r)));
   ("enrollment_id", assign_string (λ r x, mkAdmissionEnrollment (aer_Version r) x (aer_NodeID r) (aer_DevicePublicKeyFingerprint r) (aer_ParentNodeID r) (aer_AdmissionProfile r) (aer_CreatedAtUnixMS r) (aer_Status r) (aer_RevokedAtUnixMS r) (aer_Reason r)));
   ("node_id", assign_string (λ r x, mkAdmissionEnrollment (aer_Version r) (aer_EnrollmentID r) x (aer_DevicePublicKeyFingerprint r) (aer_ParentNodeID r) (aer_AdmissionProfile r) (aer_CreatedAtUnixMS r) (aer_Status r) (aer_RevokedAtUnixMS r) (aer_Reason r)));
   ("device_public_key_fingerprint", assign_string (λ r x, mkAdmissionEnrollment (aer_Version r) (aer_EnrollmentID r) (aer_NodeID r) x (aer_ParentNodeID r) (aer_AdmissionProfile r) (aer_CreatedAtUnixMS r) (aer_Status r) (aer_RevokedAtUnixMS r) (aer_Reason r)));
   ("parent_node_id", assign_string (λ r x, mkAdmissionEnrollment (aer_Version r) (aer_EnrollmentID r) (aer_NodeID r) (aer_DevicePublicKeyFingerprint r) x (aer_AdmissionProfile r) (aer_CreatedAtUnixMS r) (aer_Status r) (aer_RevokedAtUnixMS r) (aer_Reason r)));
   ("admission_profile", assign_string (λ r x, mkAdmissionEnrollment (aer_Version r) (aer_EnrollmentID r) (aer_NodeID r) (aer_DevicePublicKeyFingerprint r) (aer_ParentNodeID r) x (aer_CreatedAtUnixMS r) (aer_Status r) (aer_RevokedAtUnixMS r) (aer_Reason r)));
   ("created_at_unix_ms", assign_int (λ r x, mkAdmissionEnrollment (aer_Version r) (aer_EnrollmentID r) (aer_NodeID r) (aer_DevicePublicKeyFingerprint r) (aer_ParentNodeID r) (aer_AdmissionProfile r) x (aer_Status r) (aer_RevokedAtUnixMS r) (aer_Reason r)));
   ("status", assign_string (λ r x, mkAdmissionEnrollment (aer_Version r) (aer_EnrollmentID r) (aer_NodeID r) (aer_DevicePublicKeyFingerprint r) (aer_ParentNodeID r) (aer_AdmissionProfile r) (aer_CreatedAtUnixMS r) x (aer_RevokedAtUnixMS r) (aer_Reason r)));
   ("revoked_at_unix_ms", assign_int (λ r x, mkAdmissionEnrollment (aer_Version r) (aer_EnrollmentID r) (aer_NodeID r) (aer_DevicePublicKeyFingerprint r) (aer_ParentNodeID r) (aer_AdmissionProfile r) (aer_CreatedAtUnixMS r) (aer_Status r) x (aer_Reason r)));
   ("reason", assign_string (λ r x, mkAdmissionEnrollment (aer_Version r) (aer_EnrollmentID r) (aer_NodeID r) (aer_DevicePublicKeyFingerprint r) (aer_ParentNodeID r) (aer_AdmissionProfile r) (aer_CreatedAtUnixMS r) (aer_Status r) (aer_RevokedAtUnixMS r) x))].
Definition enrollment_record_fields (r : AdmissionEnrollmentRecordV1) : list (string * any) :=
  member "version" (int_any (aer_Version r)) ++ member "enrollment_id" (AString (aer_EnrollmentID r)) ++ member "node_id" (AString (aer_NodeID r)) ++
  member "device_public_key_fingerprint" (AString (aer_DevicePublicKeyFingerprint r)) ++ member "parent_node_id" (AString (aer_ParentNodeID r)) ++
  member "admission_profile" (AString (aer_AdmissionProfile r)) ++ member "created_at_unix_ms" (int_any (aer_CreatedAtUnixMS r)) ++
  member "status" (AString (aer_Status r)) ++ member_if (negb (aer_RevokedAtUnixMS r =? 0)) "revoked_at_unix_ms" (int_any (aer_RevokedAtUnixMS r)) ++
  text_field "reason" (aer_Reason r).
#[global] Instance enrollment_record_json : JSONStruct AdmissionEnrollmentRecordV1 := {| js_zero := enrollment_record_zero; js_spec := enrollment_record_spec; js_fields := enrollment_record_fields |}.
#[global] Instance enrollment_record_validated : ValidatedPayload AdmissionEnrollmentRecordV1 := {| Validate := AdmissionEnrollmentRecord_Validate |}.

Definition permit_list_zero : AdmissionPermitListV1 := mkAdmissionPermits 0 0 [] "".
Definition permit_list_spec : list (string * assignment AdmissionPermitListV1) :=
  [("version", assign_int (λ r x, mkAdmissionPermits x (apl_AuthorityEpoch r) (apl_Items r) (apl_NextCursor r)));
   ("authority_epoch", assign_uint (λ r x, mkAdmissionPermits (apl_Version r) x (apl_Items r) (apl_NextCursor r)));
   ("items", assign_slice permit_record_spec permit_record_zero apl_Items (λ r x, mkAdmissionPermits (apl_Version r) (apl_AuthorityEpoch r) x (apl_NextCursor r)));
   ("next_cursor", assign_string (λ r x, mkAdmissionPermits (apl_Version r) (apl_AuthorityEpoch r) (apl_Items r) x))].
Definition permit_list_fields (r : AdmissionPermitListV1) : list (string * any) :=
  member "version" (int_any (apl_Version r)) ++ member "authority_epoch" (int_any (apl_AuthorityEpoch r)) ++
  member "items" (slice_any permit_record_fields (apl_Items r)) ++ text_field "next_cursor" (apl_NextCursor r).
#[global] Instance permit_list_json : JSONStruct AdmissionPermitListV1 := {| js_zero := permit_list_zero; js_spec := permit_list_spec; js_fields := permit_list_fields |}.
#[global] Instance permit_list_validated : ValidatedPayload AdmissionPermitListV1 := {| Validate := AdmissionPermitList_Validate |}.

Definition request_list_zero : AdmissionRequestListV1 := mkAdmissionRequests 0 0 [] "".
Definition request_list_spec : list (string * assignment AdmissionRequestListV1) :=
  [("version", assign_int (λ r x, mkAdmissionRequests x (arl_AuthorityEpoch r) (arl_Items r) (arl_NextCursor r)));
   ("authority_epoch", assign_uint (λ r x, mkAdmissionRequests (arl_Version r) x (arl_Items r) (arl_NextCursor r)));
   ("items", assign_slice request_record_spec request_record_zero arl_Items (λ r x, mkAdmissionRequests (arl_Version r) (arl_AuthorityEpoch r) x (arl_NextCursor r)));
   ("next_cursor", assign_string (λ r x, mkAdmissionRequests (arl_Version r) (arl_AuthorityEpoch r) (arl_Items r) x))].
Definition request_list_fields (r : AdmissionRequestListV1) : list (string * any) :=
  member "version" (int_any (arl_Version r)) ++ member "authority_epoch" (int_any (arl_AuthorityEpoch r)) ++
  member "items" (slice_any request_record_fields (arl_Items r)) ++ text_field "next_cursor" (arl_NextCursor r).
#[global] Instance request_list_json : JSONStruct AdmissionRequestListV1 := {| js_zero := request_list_zero; js_spec := request_list_spec; js_fields := request_list_fields |}.
#[global] Instance request_list_validated : ValidatedPayload AdmissionRequestListV1 := {| Validate := AdmissionRequestList_Validate |}.

Definition enrollment_list_zero : AdmissionEnrollmentListV1 := mkAdmissionEnrollments 0 0 [] "".
Definition enrollment_list_spec : list (string * assignment AdmissionEnrollmentListV1) :=
  [("version", assign_int (λ r x, mkAdmissionEnrollments x (ael_AuthorityEpoch r) (ael_Items r) (ael_NextCursor r)));
   ("authority_epoch", assign_uint (λ r x, mkAdmissionEnrollments (ael_Version r) x (ael_Items r) (ael_NextCursor r)));
   ("items", assign_slice enrollment_record_spec enrollment_record_zero ael_Items (λ r x, mkAdmissionEnrollments (ael_Version r) (ael_AuthorityEpoch r) x (ael_NextCursor r)));
   ("next_cursor", assign_string (λ r x, mkAdmissionEnrollments (ael_Version r) (ael_AuthorityEpoch r) (ael_Items r) x))].
Definition enrollment_list_fields (r : AdmissionEnrollmentListV1) : list (string * any) :=
  member "version" (int_any (ael_Version r)) ++ member "authority_epoch" (int_any (ael_AuthorityEpoch r)) ++
  member "items" (slice_any enrollment_record_fields (ael_Items r)) ++ text_field "next_cursor" (ael_NextCursor r).
#[global] Instance enrollment_list_json : JSONStruct AdmissionEnrollmentListV1 := {| js_zero := enrollment_list_zero; js_spec := enrollment_list_spec; js_fields := enrollment_list_fields |}.
#[global] Instance enrollment_list_validated : ValidatedPayload AdmissionEnrollmentListV1 := {| Validate := AdmissionEnrollmentList_Validate |}.

Definition management_issue_zero : ManagementIssuePermitV1 := mkManagementIssue 0 "" "" "" 0.
Definition management_issue_spec : list (string * assignment ManagementIssuePermitV1) :=
  [("version", assign_int (λ r x, mkManagementIssue x (mi_ChildNodeID r) (mi_ChildPublicKey r) (mi_Role r) (mi_TTLMS r)));
   ("child_node_id", assign_string (λ r x, mkManagementIssue (mi_Version r) x (mi_ChildPublicKey r) (mi_Role r) (mi_TTLMS r)));
   ("child_public_key", assign_string (λ r x, mkManagementIssue (mi_Version r) (mi_ChildNodeID r) x (mi_Role r) (mi_TTLMS r)));
   ("role", assign_string (λ r x, mkManagementIssue (mi_Version r) (mi_ChildNodeID r) (mi_ChildPublicKey r) x (mi_TTLMS r)));
   ("ttl_ms", assign_int (λ r x, mkManagementIssue (mi_Version r) (mi_ChildNodeID r) (mi_ChildPublicKey r) (mi_Role r) x))].
Definition management_issue_fields (r : ManagementIssuePermitV1) : list (string * any) :=
  member "version" (int_any (mi_Version r)) ++ member "child_node_id" (AString (mi_ChildNodeID r)) ++ member "child_public_key" (AString (mi_ChildPublicKey r)) ++
  member "role" (AString (mi_Role r)) ++ member "ttl_ms" (int_any (mi_TTLMS r)).
#[global] Instance management_issue_json : JSONStruct ManagementIssuePermitV1 := {| js_zero := management_issue_zero; js_spec := management_issue_spec; js_fields := management_issue_fields |}.
#[global] Instance management_issue_validated : ValidatedPayload ManagementIssuePermitV1 := {| Validate := ManagementIssuePermit_Validate |}.

Definition management_revoke_permit_zero : ManagementRevokePermitV1 := mkManagementRevokePermit 0 "".
Definition management_revoke_permit_spec : list (string * assignment ManagementRevokePermitV1) :=
  [("version", assign_int (λ r x, mkManagementRevokePermit x (mp_PermitID r)));
   ("permit_id", assign_string (λ r x, mkManagementRevokePermit (mp_Version r) x))].
Definition management_revoke_permit_fields (r : ManagementRevokePermitV1) : list (string * any) :=
  member "version" (int_any (mp_Version r)) ++ member "permit_id" (AString (mp_PermitID r)).
#[global] Instance management_revoke_permit_json : JSONStruct ManagementRevokePermitV1 := {| js_zero := management_revoke_permit_zero; js_spec := management_revoke_permit_spec; js_fields := management_revoke_permit_fields |}.
#[global] Instance management_revoke_permit_validated : ValidatedPayload ManagementRevokePermitV1 := {| Validate := ManagementRevokePermit_Validate |}.

Definition management_revoke_zero : ManagementRevokeV1 := mkManagementRevoke 0 "" "".
Definition management_revoke_spec : list (string * assignment ManagementRevokeV1) :=
  [("version", assign_int (λ r x, mkManagementRevoke x (mr_NodeID r) (mr_Reason r)));
   ("node_id", assign_string (λ r x, mkManagementRevoke (mr_Version r) x (mr_Reason r)));
   ("reason", assign_string (λ r x, mkManagementRevoke (mr_Version r) (mr_NodeID r) x))].
Definition management_revoke_fields (r : ManagementRevokeV1) : list (string * any) :=
  member "version" (int_any (mr_Version r)) ++ member "node_id" (AString (mr_NodeID r)) ++ member "reason" (AString (mr_Reason r)).
#[global] Instance management_revoke_json : JSONStruct ManagementRevokeV1 := {| js_zero := management_revoke_zero; js_spec := management_revoke_spec; js_fields := management_revoke_fields |}.
#[global] Instance management_revoke_validated : ValidatedPayload ManagementRevokeV1 := {| Validate := ManagementRevoke_Validate |}.

Definition management_result_zero : ManagementResultV1 := mkManagementResult 0 "".
Definition management_result_spec : list (string * assignment ManagementResultV1) :=
  [("version", assign_int (λ r x, mkManagementResult x (mo_Status r)));
   ("status", assign_string (λ r x, mkManagementResult (mo_Version r) x))].
Definition management_result_fields (r : ManagementResultV1) : list (string * any) :=
  member "version" (int_any (mo_Version r)) ++ member "status" (AString (mo_Status r)).
#[global] Instance management_result_json : JSONStruct ManagementResultV1 := {| js_zero := management_result_zero; js_spec := management_result_spec; js_fields := management_result_fields |}.
#[global] Instance management_result_validated : ValidatedPayload ManagementResultV1 := {| Validate := ManagementResult_Validate |}.

Definition management_audit_zero : ManagementAuditV1 := mkManagementAudit 0 0 "" "" "" "" "" "" "" "".
Definition management_audit_spec : list (string * assignment ManagementAuditV1) :=
  [("version", assign_int (λ r x, mkManagementAudit x (ma_TimeUnixMS r) (ma_Subject r) (ma_Action r) (ma_ResourceNode r) (ma_ResourceName r) (ma_Decision r) (ma_Target r) (ma_Status r) (ma_Detail r)));
   ("time_unix_ms", assign_int (λ r x, mkManagementAudit (ma_Version r) x (ma_Subject r) (ma_Action r) (ma_ResourceNode r) (ma_ResourceName r) (ma_Decision r) (ma_Target r) (ma_Status r) (ma_Detail r)));
   ("subject", assign_string (λ r x, mkManagementAudit (ma_Version r) (ma_TimeUnixMS r) x (ma_Action r) (ma_ResourceNode r) (ma_ResourceName r) (ma_Decision r) (ma_Target r) (ma_Status r) (ma_Detail r)));
   ("action", assign_string (λ r x, mkManagementAudit (ma_Version r) (ma_TimeUnixMS r) (ma_Subject r) x (ma_ResourceNode r) (ma_ResourceName r) (ma_Decision r) (ma_Target r) (ma_Status r) (ma_Detail r)));
   ("resource_node", assign_string (λ r x, mkManagementAudit (ma_Version r) (ma_TimeUnixMS r) (ma_Subject r) (ma_Action r) x (ma_ResourceName r) (ma_Decision r) (ma_Target r) (ma_Status r) (ma_Detail r)));
   ("resource_name", assign_string (λ r x, mkManagementAudit (ma_Version r) (ma_TimeUnixMS r) (ma_Subject r) (ma_Action r) (ma_ResourceNode r) x (ma_Decision r) (ma_Target r) (ma_Status r) (ma_Detail r)));
   ("decision", assign_string (λ r x, mkManagementAudit (ma_Version r) (ma_TimeUnixMS r) (ma_Subject r) (ma_Action r) (ma_ResourceNode r) (ma_ResourceName r) x (ma_Target r) (ma_Status r) (ma_Detail r)));
   ("target", assign_string (λ r x, mkManagementAudit (ma_Version r) (ma_TimeUnixMS r) (ma_Subject r) (ma_Action r) (ma_ResourceNode r) (ma_ResourceName r) (ma_Decision r) x (ma_Status r) (ma_Detail r)));
   ("status", assign_string (λ r x, mkManagementAudit (ma_Version r) (ma_TimeUnixMS r) (ma_Subject r) (ma_Action r) (ma_ResourceNode r) (ma_ResourceName r) (ma_Decision r) (ma_Target r) x (ma_Detail r)));
   ("detail", assign_string (λ r x, mkManagementAudit (ma_Version r) (ma_TimeUnixMS r) (ma_Subject r) (ma_Action r) (ma_ResourceNode r) (ma_ResourceName r) (ma_Decision r) (ma_Target r) (ma_Status r) x))].
Definition management_audit_fields (r : ManagementAuditV1) : list (string * any) :=
  member "version" (int_any (ma_Version r)) ++ member "time_unix_ms" (int_any (ma_TimeUnixMS r)) ++ member "subject" (AString (ma_Subject r)) ++
  member "action" (AString (ma_Action r)) ++ member "resource_node" (AString (ma_ResourceNode r)) ++ member "resource_name" (AString (ma_ResourceName r)) ++
  member "decision" (AString (ma_Decision r)) ++ text_field "target" (ma_Target r) ++ text_field "status" (ma_Status r) ++ text_field "detail" (ma_Detail r).
#[global] Instance management_audit_json : JSONStruct ManagementAuditV1 := {| js_zero := management_audit_zero; js_spec := management_audit_spec; js_fields := management_audit_fields |}.
#[global] Instance management_audit_validated : ValidatedPayload ManagementAuditV1 := {| Validate := ManagementAudit_Validate |}.

(** The permit of a parent (schema_provisioning.go). *)
Definition provisioning_permit_zero : ProvisioningPermitV1 := mkProvisioningPermit 0 "" "" "" "" "" 0 0 0 "".
Definition provisioning_permit_spec : list (string * assignment ProvisioningPermitV1) :=
  [("version", assign_int (λ r x, mkProvisioningPermit x (pp_PermitID r) (pp_ParentNodeID r) (pp_ChildNodeID r) (pp_ChildPublicKey r) (pp_Role r) (pp_IssuedAtUnixMS r) (pp_ExpiresAtUnixMS r) (pp_MaxUses r) (pp_Signature r)));
   ("permit_id", assign_string (λ r x, mkProvisioningPermit (pp_Version r) x (pp_ParentNodeID r) (pp_ChildNodeID r) (pp_ChildPublicKey r) (pp_Role r) (pp_IssuedAtUnixMS r) (pp_ExpiresAtUnixMS r) (pp_MaxUses r) (pp_Signature r)));
   ("parent_node_id", assign_string (λ r x, mkProvisioningPermit (pp_Version r) (pp_PermitID r) x (pp_ChildNodeID r) (pp_ChildPublicKey r) (pp_Role r) (pp_IssuedAtUnixMS r) (pp_ExpiresAtUnixMS r) (pp_MaxUses r) (pp_Signature r)));
   ("child_node_id", assign_string (λ r x, mkProvisioningPermit (pp_Version r) (pp_PermitID r) (pp_ParentNodeID r) x (pp_ChildPublicKey r) (pp_Role r) (pp_IssuedAtUnixMS r) (pp_ExpiresAtUnixMS r) (pp_MaxUses r) (pp_Signature r)));
   ("child_public_key", assign_string (λ r x, mkProvisioningPermit (pp_Version r) (pp_PermitID r) (pp_ParentNodeID r) (pp_ChildNodeID r) x (pp_Role r) (pp_IssuedAtUnixMS r) (pp_ExpiresAtUnixMS r) (pp_MaxUses r) (pp_Signature r)));
   ("role", assign_string (λ r x, mkProvisioningPermit (pp_Version r) (pp_PermitID r) (pp_ParentNodeID r) (pp_ChildNodeID r) (pp_ChildPublicKey r) x (pp_IssuedAtUnixMS r) (pp_ExpiresAtUnixMS r) (pp_MaxUses r) (pp_Signature r)));
   ("issued_at_unix_ms", assign_int (λ r x, mkProvisioningPermit (pp_Version r) (pp_PermitID r) (pp_ParentNodeID r) (pp_ChildNodeID r) (pp_ChildPublicKey r) (pp_Role r) x (pp_ExpiresAtUnixMS r) (pp_MaxUses r) (pp_Signature r)));
   ("expires_at_unix_ms", assign_int (λ r x, mkProvisioningPermit (pp_Version r) (pp_PermitID r) (pp_ParentNodeID r) (pp_ChildNodeID r) (pp_ChildPublicKey r) (pp_Role r) (pp_IssuedAtUnixMS r) x (pp_MaxUses r) (pp_Signature r)));
   ("max_uses", assign_int (λ r x, mkProvisioningPermit (pp_Version r) (pp_PermitID r) (pp_ParentNodeID r) (pp_ChildNodeID r) (pp_ChildPublicKey r) (pp_Role r) (pp_IssuedAtUnixMS r) (pp_ExpiresAtUnixMS r) x (pp_Signature r)));
   ("signature", assign_string (λ r x, mkProvisioningPermit (pp_Version r) (pp_PermitID r) (pp_ParentNodeID r) (pp_ChildNodeID r) (pp_ChildPublicKey r) (pp_Role r) (pp_IssuedAtUnixMS r) (pp_ExpiresAtUnixMS r) (pp_MaxUses r) x))].
Definition provisioning_permit_fields (r : ProvisioningPermitV1) : list (string * any) :=
  member "version" (int_any (pp_Version r)) ++ member "permit_id" (AString (pp_PermitID r)) ++ member "parent_node_id" (AString (pp_ParentNodeID r)) ++
  member "child_node_id" (AString (pp_ChildNodeID r)) ++ member "child_public_key" (AString (pp_ChildPublicKey r)) ++ member "role" (AString (pp_Role r)) ++
  member "issued_at_unix_ms" (int_any (pp_IssuedAtUnixMS r)) ++ member "expires_at_unix_ms" (int_any (pp_ExpiresAtUnixMS r)) ++
  member "max_uses" (int_any (pp_MaxUses r)) ++ member "signature" (AString (pp_Signature r)).
#[global] Instance provisioning_permit_json : JSONStruct ProvisioningPermitV1 := {| js_zero := provisioning_permit_zero; js_spec := provisioning_permit_spec; js_fields := provisioning_permit_fields |}.
#[global] Instance provisioning_permit_validated : ValidatedPayload ProvisioningPermitV1 := {| Validate := ProvisioningPermit_Validate |}.

(** ** What is encoded is decoded *)

Definition admission_status_ok (r : AdmissionStatusV1) : Prop :=
  is_i64 (xs_Version r) ∧ is_u64 (xs_AuthorityEpoch r) ∧ is_i64 (xs_Permits r) ∧ is_i64 (xs_PendingRequests r) ∧ is_i64 (xs_Enrollments r) ∧ is_i64 (xs_Revocations r) ∧
  Forall valid [xs_AuthorityNodeID r].
#[global] Program Instance admission_status_value : JSONValue AdmissionStatusV1 := {| js_ok := admission_status_ok |}.
Next Obligation.
  intros r (H0 & H1 & H2 & H3 & H4 & H5 & Hs). split_valid Hs. change (js_fields r) with (admission_status_fields r). unfold admission_status_fields, flag_field. omitted; (split; [text_all|vm_compute; done]).
Qed.
Next Obligation.
  intros r (H0 & H1 & H2 & H3 & H4 & H5 & Hs). change (decode_members admission_status_spec admission_status_zero (admission_status_fields r) = Some r). unfold admission_status_fields, flag_field. omitted; decode_all r.
Qed.

Definition list_query_ok (r : AdmissionListV1) : Prop :=
  is_i64 (aq_Version r) ∧ is_i64 (aq_Limit r) ∧ Forall valid [aq_Cursor r; aq_Status r].
#[global] Program Instance list_query_value : JSONValue AdmissionListV1 := {| js_ok := list_query_ok |}.
Next Obligation.
  intros r (H0 & H1 & Hs). split_valid Hs. change (js_fields r) with (list_query_fields r). unfold list_query_fields, flag_field. destruct (Z.eqb_spec (aq_Limit r) 0); omitted; (split; [text_all|vm_compute; done]).
Qed.
Next Obligation.
  intros r (H0 & H1 & Hs). change (decode_members list_query_spec list_query_zero (list_query_fields r) = Some r). unfold list_query_fields, flag_field. destruct (Z.eqb_spec (aq_Limit r) 0); omitted; decode_all r.
Qed.

Definition issue_ok (r : AdmissionIssuePermitV1) : Prop :=
  is_i64 (ai_Version r) ∧ is_i64 (ai_TTLMS r) ∧ Forall valid [ai_RequestID r; ai_DevicePublicKeyFingerprint r; ai_TargetNodeID r; ai_AdmissionProfile r].
#[global] Program Instance issue_value : JSONValue AdmissionIssuePermitV1 := {| js_ok := issue_ok |}.
Next Obligation.
  intros r (H0 & H1 & Hs). split_valid Hs. change (js_fields r) with (issue_fields r). unfold issue_fields, flag_field. destruct (ai_AllowDescendants r) eqn:E0; omitted; (split; [text_all|vm_compute; done]).
Qed.
Next Obligation.
  intros r (H0 & H1 & Hs). change (decode_members issue_spec issue_zero (issue_fields r) = Some r). unfold issue_fields, flag_field. destruct (ai_AllowDescendants r) eqn:E0; omitted; decode_all r.
Qed.

Definition revoke_permit_ok (r : AdmissionRevokePermitV1) : Prop :=
  is_i64 (av_Version r) ∧ Forall valid [av_RequestID r; av_PermitID r; av_Reason r].
#[global] Program Instance revoke_permit_value : JSONValue AdmissionRevokePermitV1 := {| js_ok := revoke_permit_ok |}.
Next Obligation.
  intros r (H0 & Hs). split_valid Hs. change (js_fields r) with (revoke_permit_fields r). unfold revoke_permit_fields, flag_field. omitted; (split; [text_all|vm_compute; done]).
Qed.
Next Obligation.
  intros r (H0 & Hs). change (decode_members revoke_permit_spec revoke_permit_zero (revoke_permit_fields r) = Some r). unfold revoke_permit_fields, flag_field. omitted; decode_all r.
Qed.

Definition decision_ok (r : AdmissionDecisionV1) : Prop :=
  is_i64 (xd_Version r) ∧ Forall valid [xd_RequestID r; xd_EnrollmentRequestID r; xd_AdmissionProfile r; xd_Reason r].
#[global] Program Instance decision_value : JSONValue AdmissionDecisionV1 := {| js_ok := decision_ok |}.
Next Obligation.
  intros r (H0 & Hs). split_valid Hs. change (js_fields r) with (decision_fields r). unfold decision_fields, flag_field. omitted; (split; [text_all|vm_compute; done]).
Qed.
Next Obligation.
  intros r (H0 & Hs). change (decode_members decision_spec decision_zero (decision_fields r) = Some r). unfold decision_fields, flag_field. omitted; decode_all r.
Qed.

Definition revoke_enrollment_ok (r : AdmissionRevokeEnrollmentV1) : Prop :=
  is_i64 (ae_Version r) ∧ Forall valid [ae_RequestID r; ae_EnrollmentID r; ae_Reason r].
#[global] Program Instance revoke_enrollment_value : JSONValue AdmissionRevokeEnrollmentV1 := {| js_ok := revoke_enrollment_ok |}.
Next Obligation.
  intros r (H0 & Hs). split_valid Hs. change (js_fields r) with (revoke_enrollment_fields r). unfold revoke_enrollment_fields, flag_field. omitted; (split; [text_all|vm_compute; done]).
Qed.
Next Obligation.
  intros r (H0 & Hs). change (decode_members revoke_enrollment_spec revoke_enrollment_zero (revoke_enrollment_fields r) = Some r). unfold revoke_enrollment_fields, flag_field. omitted; decode_all r.
Qed.

Definition submit_ok (r : AdmissionSubmitV1) : Prop :=
  is_i64 (sm_Version r) ∧ Forall valid [sm_RequestID r; sm_DevicePublicKey r; sm_ParentNodeID r; sm_ParentPublicKey r; sm_Permit r; sm_TranscriptDigest r].
#[global] Program Instance submit_value : JSONValue AdmissionSubmitV1 := {| js_ok := submit_ok |}.
Next Obligation.
  intros r (H0 & Hs). split_valid Hs. change (js_fields r) with (submit_fields r). unfold submit_fields, flag_field. omitted; (split; [text_all|vm_compute; done]).
Qed.
Next Obligation.
  intros r (H0 & Hs). change (decode_members submit_spec submit_zero (submit_fields r) = Some r). unfold submit_fields, flag_field. omitted; decode_all r.
Qed.

Definition permit_record_ok (r : AdmissionPermitRecordV1) : Prop :=
  is_i64 (apr_Version r) ∧ is_i64 (apr_IssuedAtUnixMS r) ∧ is_i64 (apr_ExpiresAtUnixMS r) ∧
  Forall valid [apr_PermitID r; apr_DevicePublicKeyFingerprint r; apr_TargetNodeID r; apr_AdmissionProfile r; apr_Status r].
#[global] Program Instance permit_record_value : JSONValue AdmissionPermitRecordV1 := {| js_ok := permit_record_ok |}.
Next Obligation.
  intros r (H0 & H1 & H2 & Hs). split_valid Hs. change (js_fields r) with (permit_record_fields r). unfold permit_record_fields, flag_field. destruct (apr_AllowDescendants r) eqn:E0; omitted; (split; [text_all|vm_compute; done]).
Qed.
Next Obligation.
  intros r (H0 & H1 & H2 & Hs). change (decode_members permit_record_spec permit_record_zero (permit_record_fields r) = Some r). unfold permit_record_fields, flag_field. destruct (apr_AllowDescendants r) eqn:E0; omitted; decode_all r.
Qed.

Definition request_record_ok (r : AdmissionRequestRecordV1) : Prop :=
  is_i64 (arr_Version r) ∧ is_i64 (arr_CreatedAtUnixMS r) ∧ is_i64 (arr_UpdatedAtUnixMS r) ∧ is_i64 (arr_ExpiresAtUnixMS r) ∧
  Forall valid [arr_RequestID r; arr_DevicePublicKeyFingerprint r; arr_ParentNodeID r; arr_Status r; arr_Reason r].
#[global] Program Instance request_record_value : JSONValue AdmissionRequestRecordV1 := {| js_ok := request_record_ok |}.
Next Obligation.
  intros r (H0 & H1 & H2 & H3 & Hs). split_valid Hs. change (js_fields r) with (request_record_fields r). unfold request_record_fields, flag_field. omitted; (split; [text_all|vm_compute; done]).
Qed.
Next Obligation.
  intros r (H0 & H1 & H2 & H3 & Hs). change (decode_members request_record_spec request_record_zero (request_record_fields r) = Some r). unfold request_record_fields, flag_field. omitted; decode_all r.
Qed.

Definition enrollment_record_ok (r : AdmissionEnrollmentRecordV1) : Prop :=
  is_i64 (aer_Version r) ∧ is_i64 (aer_CreatedAtUnixMS r) ∧ is_i64 (aer_RevokedAtUnixMS r) ∧
  Forall valid [aer_EnrollmentID r; aer_NodeID r; aer_DevicePublicKeyFingerprint r; aer_ParentNodeID r; aer_AdmissionProfile r; aer_Status r; aer_Reason r].
#[global] Program Instance enrollment_record_value : JSONValue AdmissionEnrollmentRecordV1 := {| js_ok := enrollment_record_ok |}.
Next Obligation.
  intros r (H0 & H1 & H2 & Hs). split_valid Hs. change (js_fields r) with (enrollment_record_fields r). unfold enrollment_record_fields, flag_field. destruct (Z.eqb_spec (aer_RevokedAtUnixMS r) 0); omitted; (split; [text_all|vm_compute; done]).
Qed.
Next Obligation.
  intros r (H0 & H1 & H2 & Hs). change (decode_members enrollment_record_spec enrollment_record_zero (enrollment_record_fields r) = Some r). unfold enrollment_record_fields, flag_field. destruct (Z.eqb_spec (aer_RevokedAtUnixMS r) 0); omitted; decode_all r.
Qed.

Definition management_issue_ok (r : ManagementIssuePermitV1) : Prop :=
  is_i64 (mi_Version r) ∧ is_i64 (mi_TTLMS r) ∧ Forall valid [mi_ChildNodeID r; mi_ChildPublicKey r; mi_Role r].
#[global] Program Instance management_issue_value : JSONValue ManagementIssuePermitV1 := {| js_ok := management_issue_ok |}.
Next Obligation.
  intros r (H0 & H1 & Hs). split_valid Hs. change (js_fields r) with (management_issue_fields r). unfold management_issue_fields, flag_field. omitted; (split; [text_all|vm_compute; done]).
Qed.
Next Obligation.
  intros r (H0 & H1 & Hs). change (decode_members management_issue_spec management_issue_zero (management_issue_fields r) = Some r). unfold management_issue_fields, flag_field. omitted; decode_all r.
Qed.

Definition management_revoke_permit_ok (r : ManagementRevokePermitV1) : Prop :=
  is_i64 (mp_Version r) ∧ Forall valid [mp_PermitID r].
#[global] Program Instance management_revoke_permit_value : JSONValue ManagementRevokePermitV1 := {| js_ok := management_revoke_permit_ok |}.
Next Obligation.
  intros r (H0 & Hs). split_valid Hs. change (js_fields r) with (management_revoke_permit_fields r). unfold management_revoke_permit_fields, flag_field. omitted; (split; [text_all|vm_compute; done]).
Qed.
Next Obligation.
  intros r (H0 & Hs). change (decode_members management_revoke_permit_spec management_revoke_permit_zero (management_revoke_permit_fields r) = Some r). unfold management_revoke_permit_fields, flag_field. omitted; decode_all r.
Qed.

Definition management_revoke_ok (r : ManagementRevokeV1) : Prop :=
  is_i64 (mr_Version r) ∧ Forall valid [mr_NodeID r; mr_Reason r].
#[global] Program Instance management_revoke_value : JSONValue ManagementRevokeV1 := {| js_ok := management_revoke_ok |}.
Next Obligation.
  intros r (H0 & Hs). split_valid Hs. change (js_fields r) with (management_revoke_fields r). unfold management_revoke_fields, flag_field. omitted; (split; [text_all|vm_compute; done]).
Qed.
Next Obligation.
  intros r (H0 & Hs). change (decode_members management_revoke_spec management_revoke_zero (management_revoke_fields r) = Some r). unfold management_revoke_fields, flag_field. omitted; decode_all r.
Qed.

Definition management_result_ok (r : ManagementResultV1) : Prop :=
  is_i64 (mo_Version r) ∧ Forall valid [mo_Status r].
#[global] Program Instance management_result_value : JSONValue ManagementResultV1 := {| js_ok := management_result_ok |}.
Next Obligation.
  intros r (H0 & Hs). split_valid Hs. change (js_fields r) with (management_result_fields r). unfold management_result_fields, flag_field. omitted; (split; [text_all|vm_compute; done]).
Qed.
Next Obligation.
  intros r (H0 & Hs). change (decode_members management_result_spec management_result_zero (management_result_fields r) = Some r). unfold management_result_fields, flag_field. omitted; decode_all r.
Qed.

Definition management_audit_ok (r : ManagementAuditV1) : Prop :=
  is_i64 (ma_Version r) ∧ is_i64 (ma_TimeUnixMS r) ∧
  Forall valid [ma_Subject r; ma_Action r; ma_ResourceNode r; ma_ResourceName r; ma_Decision r; ma_Target r; ma_Status r; ma_Detail r].
#[global] Program Instance management_audit_value : JSONValue ManagementAuditV1 := {| js_ok := management_audit_ok |}.
Next Obligation.
  intros r (H0 & H1 & Hs). split_valid Hs. change (js_fields r) with (management_audit_fields r). unfold management_audit_fields, flag_field. omitted; (split; [text_all|vm_compute; done]).
Qed.
Next Obligation.
  intros r (H0 & H1 & Hs). change (decode_members management_audit_spec management_audit_zero (management_audit_fields r) = Some r). unfold management_audit_fields, flag_field. omitted; decode_all r.
Qed.

Definition provisioning_permit_ok (r : ProvisioningPermitV1) : Prop :=
  is_i64 (pp_Version r) ∧ is_i64 (pp_IssuedAtUnixMS r) ∧ is_i64 (pp_ExpiresAtUnixMS r) ∧ is_i64 (pp_MaxUses r) ∧
  Forall valid [pp_PermitID r; pp_ParentNodeID r; pp_ChildNodeID r; pp_ChildPublicKey r; pp_Role r; pp_Signature r].
#[global] Program Instance provisioning_permit_value : JSONValue ProvisioningPermitV1 := {| js_ok := provisioning_permit_ok |}.
Next Obligation.
  intros r (H0 & H1 & H2 & H3 & Hs). split_valid Hs. change (js_fields r) with (provisioning_permit_fields r). unfold provisioning_permit_fields, flag_field. omitted; (split; [text_all|vm_compute; done]).
Qed.
Next Obligation.
  intros r (H0 & H1 & H2 & H3 & Hs). change (decode_members provisioning_permit_spec provisioning_permit_zero (provisioning_permit_fields r) = Some r). unfold provisioning_permit_fields, flag_field. omitted; decode_all r.
Qed.

(** Pages. *)
Lemma page_text {I} `{JSONValue I} (version epoch : Z) (items : list I) (cursor : string) :
  is_i64 version ∨ is_u64 version → is_i64 epoch ∨ is_u64 epoch → (∀ r : I, nesting (AObject (js_fields r)) ≤ 1) → Forall js_ok items → ValidString cursor = true →
  let l := member "version" (int_any version) ++ member "authority_epoch" (int_any epoch) ++ member "items" (slice_any js_fields items) ++ text_field "next_cursor" cursor in
  json_ok (AObject l) = true ∧ nesting (AObject l) ≤ maxNestingDepth.
Proof.
  intros Hv He Hn Hi Hc. destruct (slice_text items 1 Hn Hi) as [Hs Hs']. split.
  - apply members_ok. unfold text_field, member_if, member. rewrite !Forall_app. split_and!; try (apply Forall_singleton; split; [done|]); [by apply int_any_ok..|done|].
    case_match; [|done]. by apply Forall_singleton.
  - unfold text_field, member_if, member. case_match; cbn [app nesting foldr snd int_any]; unfold maxNestingDepth in *; lia.
Qed.
Ltac page_members r Hi :=
  omitted; cbn [app negb]; repeat (erewrite decode_step; [|find_it|first [assign|exact (assign_slice_any _ _ _ _ eq_refl Hi)]]); cbn [decode_members]; destruct r; simpl in *; subst; reflexivity.

Lemma permit_record_flat r : nesting (AObject (permit_record_fields r)) ≤ 1.
Proof. unfold permit_record_fields, flag_field. omitted; repeat case_match; vm_compute; done. Qed.
Definition permit_list_ok (r : AdmissionPermitListV1) : Prop := is_i64 (apl_Version r) ∧ is_u64 (apl_AuthorityEpoch r) ∧ Forall js_ok (apl_Items r) ∧ Forall valid [apl_NextCursor r].
#[global] Program Instance permit_list_value : JSONValue AdmissionPermitListV1 := {| js_ok := permit_list_ok |}.
Next Obligation.
  intros r (Hv & He & Hi & Hs). split_valid Hs. change (js_fields r) with (permit_list_fields r). unfold permit_list_fields. exact (page_text (I := AdmissionPermitRecordV1) _ _ _ _ (or_introl Hv) (or_intror He) permit_record_flat Hi H).
Qed.
Next Obligation.
  intros r (Hv & He & Hi & Hs). change (decode_members permit_list_spec permit_list_zero (permit_list_fields r) = Some r). unfold permit_list_fields. page_members r Hi.
Qed.

Lemma request_record_flat r : nesting (AObject (request_record_fields r)) ≤ 1.
Proof. unfold request_record_fields, flag_field. omitted; repeat case_match; vm_compute; done. Qed.
Definition request_list_ok (r : AdmissionRequestListV1) : Prop := is_i64 (arl_Version r) ∧ is_u64 (arl_AuthorityEpoch r) ∧ Forall js_ok (arl_Items r) ∧ Forall valid [arl_NextCursor r].
#[global] Program Instance request_list_value : JSONValue AdmissionRequestListV1 := {| js_ok := request_list_ok |}.
Next Obligation.
  intros r (Hv & He & Hi & Hs). split_valid Hs. change (js_fields r) with (request_list_fields r). unfold request_list_fields. exact (page_text (I := AdmissionRequestRecordV1) _ _ _ _ (or_introl Hv) (or_intror He) request_record_flat Hi H).
Qed.
Next Obligation.
  intros r (Hv & He & Hi & Hs). change (decode_members request_list_spec request_list_zero (request_list_fields r) = Some r). unfold request_list_fields. page_members r Hi.
Qed.

Lemma enrollment_record_flat r : nesting (AObject (enrollment_record_fields r)) ≤ 1.
Proof. unfold enrollment_record_fields, flag_field. omitted; repeat case_match; vm_compute; done. Qed.
Definition enrollment_list_ok (r : AdmissionEnrollmentListV1) : Prop := is_i64 (ael_Version r) ∧ is_u64 (ael_AuthorityEpoch r) ∧ Forall js_ok (ael_Items r) ∧ Forall valid [ael_NextCursor r].
#[global] Program Instance enrollment_list_value : JSONValue AdmissionEnrollmentListV1 := {| js_ok := enrollment_list_ok |}.
Next Obligation.
  intros r (Hv & He & Hi & Hs). split_valid Hs. change (js_fields r) with (enrollment_list_fields r). unfold enrollment_list_fields. exact (page_text (I := AdmissionEnrollmentRecordV1) _ _ _ _ (or_introl Hv) (or_intror He) enrollment_record_flat Hi H).
Qed.
Next Obligation.
  intros r (Hv & He & Hi & Hs). change (decode_members enrollment_list_spec enrollment_list_zero (enrollment_list_fields r) = Some r). unfold enrollment_list_fields. page_members r Hi.
Qed.
