(* ===== verification/Identity.v ===== *)
(** * Identities, join claims and the trust store (runtime/auth/identity.go, store.go)

    Ed25519 and SHA-256 are a class with the laws the code relies on; keys, nonces and
    signatures are byte slices.  The random source is an argument: [None] when reading it
    fails.  A Go [PrivateKey] is the seed followed by the public key. *)

From Stdlib Require Import Sorting.Sorted.
From S2P Require Import Prelude GoStd GoSort GoEncoding Wire Codec EnrollmentWire.
Open Scope Z_scope.

Definition PublicKeySize : Z := 32.
Definition PrivateKeySize : Z := 64.
Definition SignatureSize : Z := 64.

(** crypto/ed25519 and crypto/sha256. *)
Class Crypto := mkCrypto {
  Sign : list byte → list byte → list byte;
  Verify : list byte → list byte → list byte → bool;
  Sum256 : list byte → list byte
}.
(** [PrivateKey.Public()]. *)
Definition Public (privateKey : list byte) : list byte := drop 32 privateKey.

Class CryptoLaws `{Crypto} : Prop := {
  Verify_Sign key m : blen key = PrivateKeySize → Verify (Public key) m (Sign key m) = true;
  Sign_size key m : blen (Sign key m) = SignatureSize;
  Sum256_size m : blen (Sum256 m) = 32
}.

Inductive auth_failure :=
| AWire (e : wire_error) | AKeyPair | AKeyMismatch | ARandom | AEpoch | APermit (e : enrollment_error)
| ErrUntrustedIdentity | AJoinSignature | AAckMismatch | AAckSignature
| ATrustKey | ATrustConflict | AGeneration | APersist
| ALoad | AVersion | ANodeMismatch | ARecord | ADuplicate.

(** ** Identities *)

Record DeviceIdentity := mkDevice { dv_PublicKey : list byte; dv_PrivateKey : list byte }.
Record Identity := mkIdentity { i_NodeID : NodeID; i_PublicKey : list byte; i_PrivateKey : list byte }.
#[global] Instance Identity_eq_dec : EqDecision Identity.
Proof. solve_decision. Defined.

Definition Device_Validate (d : DeviceIdentity) : result auth_failure unit :=
  fail_if negb (blen (dv_PublicKey d) =? PublicKeySize) || negb (blen (dv_PrivateKey d) =? PrivateKeySize) with AKeyPair ;;
  fail_if negb (bool_decide (Public (dv_PrivateKey d) = dv_PublicKey d)) with AKeyMismatch ;;
  Ok tt.

Definition Device_Enroll (d : DeviceIdentity) (nodeID : NodeID) : result auth_failure Identity :=
  _ ← Device_Validate d;
  _ ← mapErr AWire (NodeID_Validate nodeID);
  Ok (mkIdentity nodeID (dv_PublicKey d) (dv_PrivateKey d)).

Definition Identity_Validate (i : Identity) : result auth_failure unit :=
  _ ← mapErr AWire (NodeID_Validate (i_NodeID i));
  fail_if negb (blen (i_PublicKey i) =? PublicKeySize) || negb (blen (i_PrivateKey i) =? PrivateKeySize) with AKeyPair ;;
  fail_if negb (bool_decide (Public (i_PrivateKey i) = i_PublicKey i)) with AKeyMismatch ;;
  Ok tt.

(** [generated]: the outcome of [ed25519.GenerateKey], public then private key. *)
Definition GenerateDeviceIdentity (generated : option (list byte * list byte)) : result auth_failure DeviceIdentity :=
  match generated with None => Err ARandom | Some (pub, priv) => Ok (mkDevice pub priv) end.
Definition GenerateIdentity (nodeID : NodeID) (generated : option (list byte * list byte)) : result auth_failure Identity :=
  _ ← mapErr AWire (NodeID_Validate nodeID);
  match generated with None => Err ARandom | Some (pub, priv) => Ok (mkIdentity nodeID pub priv) end.

(** ** The join handshake *)

Section join.
Context `{Crypto}.

Record JoinClaim := mkJoinClaim {
  jc_NodeID : NodeID; jc_PublicKey : list byte; jc_Nonce : list byte; jc_TopologyEpoch : Z;
  jc_Permit : option ProvisioningPermitV1; jc_Signature : list byte
}.
Record JoinAck := mkJoinAck {
  ja_NodeID : NodeID; ja_ChildID : NodeID; ja_ChildNonce : list byte; ja_TopologyEpoch : Z; ja_Signature : list byte
}.

(** The nonce is a Go array of 32 bytes. *)
Definition joinMessage (nodeID : NodeID) (nonce : list byte) (topologyEpoch : Z) : list byte :=
  bytes_of "MFH4-JOIN" ++ be_bytes 8 nodeID ++ nonce ++ be_bytes 8 topologyEpoch.
Definition ackMessage (a : JoinAck) : list byte :=
  bytes_of "MFH4-ACK" ++ be_bytes 8 (ja_NodeID a) ++ be_bytes 8 (ja_ChildID a) ++ ja_ChildNonce a ++ be_bytes 8 (ja_TopologyEpoch a).

Definition newJoinClaim (i : Identity) (topologyEpoch : Z) (permit : option ProvisioningPermitV1) (nonce : option (list byte))
    : result auth_failure JoinClaim :=
  _ ← Identity_Validate i;
  fail_if topologyEpoch =? 0 with AEpoch ;;
  match nonce with
  | None => Err ARandom
  | Some nonce =>
    Ok (mkJoinClaim (i_NodeID i) (i_PublicKey i) nonce topologyEpoch permit
          (Sign (i_PrivateKey i) (joinMessage (i_NodeID i) nonce topologyEpoch)))
  end.
Definition NewJoinClaim (i : Identity) (topologyEpoch : Z) (nonce : option (list byte)) : result auth_failure JoinClaim :=
  newJoinClaim i topologyEpoch None nonce.
Definition NewJoinClaimWithPermit (i : Identity) (topologyEpoch : Z) (permit : ProvisioningPermitV1) (nonce : option (list byte))
    : result auth_failure JoinClaim :=
  _ ← mapErr APermit (ProvisioningPermit_Validate permit);
  newJoinClaim i topologyEpoch (Some permit) nonce.

Definition VerifyJoinClaim (c : JoinClaim) : result auth_failure unit :=
  _ ← mapErr AWire (NodeID_Validate (jc_NodeID c));
  fail_if negb (blen (jc_PublicKey c) =? PublicKeySize) || (jc_TopologyEpoch c =? 0) || negb (blen (jc_Signature c) =? SignatureSize)
       || negb (Verify (jc_PublicKey c) (joinMessage (jc_NodeID c) (jc_Nonce c) (jc_TopologyEpoch c)) (jc_Signature c))
    with AJoinSignature ;;
  Ok tt.

Definition SignJoinAck (parent : Identity) (childID : NodeID) (nonce : list byte) (epoch : Z) : result auth_failure JoinAck :=
  _ ← Identity_Validate parent;
  _ ← mapErr AWire (NodeID_Validate childID);
  fail_if epoch =? 0 with AEpoch ;;
  let ack := mkJoinAck (i_NodeID parent) childID nonce epoch [] in
  Ok (mkJoinAck (i_NodeID parent) childID nonce epoch (Sign (i_PrivateKey parent) (ackMessage ack))).

(** ** The trust store *)

Definition stateVersion : Z := 1.
Record trustRecord := mkTrustRecord { tr_NodeID : NodeID; tr_PublicKey : list byte }.
Record trustState := mkTrustState { ts_Version : Z; ts_Generation : Z; ts_Records : list trustRecord }.

(** [t_persist]: whether the store is backed by trust.json, whose contents are [t_disk]. *)
Record TrustStore := mkTrustStore {
  t_keys : gmap NodeID (list byte); t_generation : Z; t_persist : bool; t_disk : option trustState
}.

Definition NewTrustStore : TrustStore := mkTrustStore ∅ 1 false None.

Definition recordsFromKeys (keys : gmap NodeID (list byte)) : list trustRecord :=
  (λ id, mkTrustRecord id (default [] (keys !! id))) <$> SortSlice Z.ltb (map_to_list keys).*1.
Definition TrustStore_snapshotLocked (s : TrustStore) : trustState := mkTrustState stateVersion (t_generation s) (recordsFromKeys (t_keys s)).

(** The common end of [Add] and [Revoke]; [saved] is the outcome of writing trust.json. *)
Definition trust_commit (s : TrustStore) (keys : gmap NodeID (list byte)) (saved : bool) : TrustStore * result auth_failure unit :=
  if t_generation s =? maxUint64 then (s, Err AGeneration) else
  let next := mkTrustState stateVersion (t_generation s + 1) (recordsFromKeys keys) in
  if t_persist s && negb saved then (s, Err APersist)
  else (mkTrustStore keys (ts_Generation next) (t_persist s) (if t_persist s then Some next else t_disk s), Ok tt).

Definition TrustStore_Add (s : TrustStore) (nodeID : NodeID) (publicKey : list byte) (saved : bool) : TrustStore * result auth_failure unit :=
  match NodeID_Validate nodeID with
  | Err e => (s, Err (AWire e))
  | Ok _ =>
    if negb (blen publicKey =? PublicKeySize) then (s, Err ATrustKey) else
    match t_keys s !! nodeID with
    | Some current => if bool_decide (current = publicKey) then (s, Ok tt) else (s, Err ATrustConflict)
    | None => trust_commit s (<[nodeID := publicKey]> (t_keys s)) saved
    end
  end.

Definition TrustStore_Revoke (s : TrustStore) (nodeID : NodeID) (saved : bool) : TrustStore * result auth_failure unit :=
  match NodeID_Validate nodeID with
  | Err e => (s, Err (AWire e))
  | Ok _ =>
    match t_keys s !! nodeID with
    | None => (s, Err ErrUntrustedIdentity)
    | Some _ => trust_commit s (delete nodeID (t_keys s)) saved
    end
  end.

Definition TrustStore_PublicKey (s : TrustStore) (nodeID : NodeID) : option (list byte) := t_keys s !! nodeID.

Definition VerifyJoin (s : TrustStore) (c : JoinClaim) : result auth_failure unit :=
  match TrustStore_PublicKey s (jc_NodeID c) with
  | None => Err ErrUntrustedIdentity
  | Some key => fail_if negb (bool_decide (key = jc_PublicKey c)) with ErrUntrustedIdentity ;; VerifyJoinClaim c
  end.

Definition VerifyJoinAck (s : TrustStore) (a : JoinAck) (expectedParent expectedChild : NodeID) (nonce : list byte) : result auth_failure unit :=
  fail_if negb (ja_NodeID a =? expectedParent) || negb (ja_ChildID a =? expectedChild)
       || negb (bool_decide (ja_ChildNonce a = nonce)) || (ja_TopologyEpoch a =? 0) with AAckMismatch ;;
  match TrustStore_PublicKey s expectedParent with
  | None => Err ErrUntrustedIdentity
  | Some key =>
    fail_if negb (blen (ja_Signature a) =? SignatureSize) || negb (Verify key (ackMessage a) (ja_Signature a)) with AAckSignature ;;
    Ok tt
  end.

Fixpoint load_records (keys : gmap NodeID (list byte)) (l : list trustRecord) : result auth_failure (gmap NodeID (list byte)) :=
  match l with
  | [] => Ok keys
  | record :: rest =>
    fail_if negb (is_ok (NodeID_Validate (tr_NodeID record))) || negb (blen (tr_PublicKey record) =? PublicKeySize) with ARecord ;;
    fail_if bool_decide (is_Some (keys !! tr_NodeID record)) with ADuplicate ;;
    load_records (<[tr_NodeID record := tr_PublicKey record]> keys) rest
  end.

(** [loaded]: the contents of trust.json, if there is one; the outer [None] is a load error. *)
Definition LoadTrustStore (loaded : option (option trustState)) (saved : bool) : result auth_failure TrustStore :=
  match loaded with
  | None => Err ALoad
  | Some file =>
    let found := bool_decide (is_Some file) in
    let state := default (mkTrustState stateVersion 1 []) file in
    fail_if found && (negb (ts_Version state =? stateVersion) || (ts_Generation state =? 0)) with AVersion ;;
    keys ← load_records ∅ (ts_Records state);
    let store := mkTrustStore keys (ts_Generation state) true file in
    if found then Ok store
    else fail_if negb saved with APersist ;; Ok (mkTrustStore keys (ts_Generation state) true (Some (TrustStore_snapshotLocked store)))
  end.

(** ** The stored identity *)

Record identityState := mkIdentityState { is_Version : Z; is_NodeID : NodeID; is_PublicKey : list byte; is_PrivateKey : list byte }.

(** The identity and the contents of identity.json afterwards. *)
Definition LoadOrCreateIdentity (loaded : option (option identityState)) (nodeID : NodeID) (generated : option (list byte * list byte))
    (saved : bool) : result auth_failure (Identity * identityState) :=
  _ ← mapErr AWire (NodeID_Validate nodeID);
  match loaded with
  | None => Err ALoad
  | Some (Some state) =>
    fail_if negb (is_Version state =? stateVersion) with AVersion ;;
    let i := mkIdentity (is_NodeID state) (is_PublicKey state) (is_PrivateKey state) in
    fail_if negb (i_NodeID i =? nodeID) with ANodeMismatch ;;
    _ ← Identity_Validate i;
    Ok (i, state)
  | Some None =>
    i ← GenerateIdentity nodeID generated;
    let state := mkIdentityState stateVersion (i_NodeID i) (i_PublicKey i) (i_PrivateKey i) in
    fail_if negb saved with APersist ;;
    Ok (i, state)
  end.

(** The variant with a protected store: [None] for an error of [LoadIdentity]. *)
Definition LoadOrCreateIdentityWithStore (loaded : option (option Identity)) (nodeID : NodeID) (generated : option (list byte * list byte))
    (saved : bool) : result auth_failure Identity :=
  _ ← mapErr AWire (NodeID_Validate nodeID);
  match loaded with
  | None => Err ALoad
  | Some (Some i) =>
    fail_if negb (i_NodeID i =? nodeID) with ANodeMismatch ;;
    _ ← Identity_Validate i;
    Ok i
  | Some None =>
    i ← GenerateIdentity nodeID generated;
    fail_if negb saved with APersist ;;
    Ok i
  end.
End join.

(** ** The signed messages are unambiguous *)

Lemma be_bytes_inj n x y : 0 ≤ x < 256 ^ Z.of_nat n → 0 ≤ y < 256 ^ Z.of_nat n → be_bytes n x = be_bytes n y → x = y.
Proof. intros Hx Hy H. apply (f_equal be_value) in H. by rewrite !be_value_small in H. Qed.

Lemma be_bytes8_app_inj x y r r' : is_u64 x → is_u64 y → be_bytes 8 x ++ r = be_bytes 8 y ++ r' → x = y ∧ r = r'.
Proof.
  intros Hx Hy H. apply app_inj_1 in H as [H ->]; [|by rewrite !length_be_bytes]. split; [|done].
  apply (be_bytes_inj 8); unfold is_u64, maxUint64 in *; simpl; lia || done.
Qed.

Lemma joinMessage_inj n n' nonce nonce' e e' :
  is_u64 n → is_u64 n' → is_u64 e → is_u64 e' → length nonce = length nonce' →
  joinMessage n nonce e = joinMessage n' nonce' e' → n = n' ∧ nonce = nonce' ∧ e = e'.
Proof.
  intros Hn Hn' He He' Hl H. unfold joinMessage in H. apply app_inv_head in H. apply be_bytes8_app_inj in H as [-> H]; [|done..].
  apply app_inj_1 in H as [-> H]; [|done]. rewrite <- (app_nil_r (be_bytes 8 e)), <- (app_nil_r (be_bytes 8 e')) in H.
  by apply be_bytes8_app_inj in H as [-> _].
Qed.

(** The fields of an acknowledgement that fit their Go types. *)
Definition ack_wf (a : JoinAck) : Prop :=
  is_u64 (ja_NodeID a) ∧ is_u64 (ja_ChildID a) ∧ is_u64 (ja_TopologyEpoch a) ∧ length (ja_ChildNonce a) = 32%nat.

Lemma ackMessage_inj a a' : ack_wf a → ack_wf a' → ackMessage a = ackMessage a' →
  ja_NodeID a = ja_NodeID a' ∧ ja_ChildID a = ja_ChildID a' ∧ ja_ChildNonce a = ja_ChildNonce a' ∧ ja_TopologyEpoch a = ja_TopologyEpoch a'.
Proof.
  intros (H1 & H2 & H3 & H4) (H1' & H2' & H3' & H4') H. unfold ackMessage in H. apply app_inv_head in H.
  apply be_bytes8_app_inj in H as [-> H]; [|done..]. apply be_bytes8_app_inj in H as [-> H]; [|done..].
  apply app_inj_1 in H as [-> H]; [|congruence]. rewrite <- (app_nil_r (be_bytes 8 _)), <- (app_nil_r (be_bytes 8 (ja_TopologyEpoch a'))) in H.
  by apply be_bytes8_app_inj in H as [-> _].
Qed.

Lemma join_not_ack n nonce e a : length nonce = 32%nat → length (ja_ChildNonce a) = 32%nat → joinMessage n nonce e ≠ ackMessage a.
Proof.
  intros Hn Ha H. apply (f_equal length) in H. unfold joinMessage, ackMessage in H. rewrite !length_app, !length_be_bytes, Hn, Ha in H.
  by vm_compute in H.
Qed.

Lemma Identity_Validate_ok i : Identity_Validate i = Ok tt →
  i_NodeID i ≠ 0 ∧ blen (i_PublicKey i) = PublicKeySize ∧ blen (i_PrivateKey i) = PrivateKeySize ∧ Public (i_PrivateKey i) = i_PublicKey i.
Proof.
  unfold Identity_Validate. intros H. guards H. apply mapErr_ok, NodeID_Validate_ok in H0. bool_prop. split_and!; congruence || done.
Qed.

Section handshake.
Context `{CryptoLaws}.

Lemma claim_accepted (trust : TrustStore) (child : Identity) (nonce : list byte) (epoch : Z) (claim : JoinClaim) :
  t_keys trust !! i_NodeID child = Some (i_PublicKey child) → NewJoinClaim child epoch (Some nonce) = Ok claim → VerifyJoin trust claim = Ok tt.
Proof.
  intros Hc Hclaim. unfold NewJoinClaim, newJoinClaim in Hclaim. apply bind_ok in Hclaim as [Hv Hclaim]. apply fail_if_ok in Hclaim as [He Hclaim]. simplify_eq.
  apply Identity_Validate_ok in Hv as (Hv0 & Hv1 & Hv2 & Hv3). unfold VerifyJoin, TrustStore_PublicKey, VerifyJoinClaim. simpl. rewrite Hc, bool_decide_eq_true_2 by done. simpl.
  rewrite (proj2 (NodeID_Validate_ok _)) by done. simpl. rewrite Hv1, Sign_size, He, <- Hv3, Verify_Sign by done. done.
Qed.

(** The join handshake: a claim made by the holder of a trusted key is accepted, and so is
    the acknowledgement the parent signs for it; what is accepted was signed with the trusted
    key over exactly the node, nonce and epoch it shows (two accepted claims or
    acknowledgements with one signed message agree on all of them), and a signature on a
    claim is never one on an acknowledgement. *)
Theorem join_handshake (childTrust parentTrust : TrustStore) (child parent : Identity) (nonce : list byte) (epoch ackEpoch : Z) (claim : JoinClaim) :
  Identity_Validate parent = Ok tt → length nonce = 32%nat → ackEpoch ≠ 0 →
  t_keys parentTrust !! i_NodeID child = Some (i_PublicKey child) →
  t_keys childTrust !! i_NodeID parent = Some (i_PublicKey parent) →
  NewJoinClaim child epoch (Some nonce) = Ok claim →
  VerifyJoin parentTrust claim = Ok tt ∧
  (∃ ack, SignJoinAck parent (i_NodeID child) nonce ackEpoch = Ok ack ∧
          VerifyJoinAck childTrust ack (i_NodeID parent) (i_NodeID child) nonce = Ok tt) ∧
  (∀ c, VerifyJoin parentTrust c = Ok tt → t_keys parentTrust !! jc_NodeID c = Some (jc_PublicKey c) ∧
        Verify (jc_PublicKey c) (joinMessage (jc_NodeID c) (jc_Nonce c) (jc_TopologyEpoch c)) (jc_Signature c) = true) ∧
  (∀ n e nonce', is_u64 n → is_u64 e → length nonce' = 32%nat → is_u64 (i_NodeID child) → is_u64 epoch →
        joinMessage n nonce' e = joinMessage (i_NodeID child) nonce epoch → n = i_NodeID child ∧ nonce' = nonce ∧ e = epoch) ∧
  (∀ ack, length (ja_ChildNonce ack) = 32%nat → joinMessage (i_NodeID child) nonce epoch ≠ ackMessage ack).
Proof.
  intros Hp Hn Hae Hc Hpk Hclaim. pose proof (Identity_Validate_ok parent Hp) as (Hp0 & Hp1 & Hp2 & Hp3).
  pose proof Hclaim as Hv. unfold NewJoinClaim, newJoinClaim in Hv. apply bind_ok in Hv as [Hv _]. apply Identity_Validate_ok in Hv as (Hv0 & _). split_and!.
  - by eapply claim_accepted.
  - unfold SignJoinAck. rewrite Hp, (proj2 (NodeID_Validate_ok _)), (proj2 (Z.eqb_neq ackEpoch 0)) by done. simpl. eexists. split; [done|].
    unfold VerifyJoinAck, TrustStore_PublicKey. simpl. rewrite !Z.eqb_refl, bool_decide_eq_true_2, (proj2 (Z.eqb_neq _ _)) by done. simpl.
    rewrite Hpk, Sign_size, Z.eqb_refl. simpl. unfold ackMessage. simpl. rewrite <- Hp3, Verify_Sign by done. done.
  - intros c Hj. unfold VerifyJoin, TrustStore_PublicKey in Hj. destruct (t_keys parentTrust !! jc_NodeID c) as [key|] eqn:Ek; [|done].
    apply fail_if_ok in Hj as [Hk Hj]. unfold VerifyJoinClaim in Hj. guards Hj. bool_prop. by subst.
  - intros n e nonce' ????? E. apply joinMessage_inj in E; [done..|congruence].
  - intros ack Ha. by apply join_not_ack.
Qed.
End handshake.

(** ** The trust store survives restarts and pins keys *)

Record trust_ok (s : TrustStore) : Prop := mkTrustOk {
  to_keys : ∀ id key, t_keys s !! id = Some key → id ≠ 0 ∧ blen key = PublicKeySize;
  to_generation : 0 < t_generation s ≤ maxUint64;
  to_disk : t_persist s = true → ∃ file, t_disk s = Some file ∧ ts_Version file = stateVersion ∧
    ts_Generation file = t_generation s ∧ load_records ∅ (ts_Records file) = Ok (t_keys s)
}.

Lemma load_records_app l : ∀ keys, NoDup (tr_NodeID <$> l) → (∀ r, r ∈ l → keys !! tr_NodeID r = None) →
  Forall (λ r, tr_NodeID r ≠ 0 ∧ blen (tr_PublicKey r) = PublicKeySize) l →
  load_records keys l = Ok (foldl (λ m r, <[tr_NodeID r := tr_PublicKey r]> m) keys l).
Proof.
  induction l as [|r l IH]; intros keys Hn Hk Hf; [done|]. simpl. rewrite fmap_cons in Hn. apply NoDup_cons in Hn as [Hr Hn].
  apply Forall_cons in Hf as [[H1 H2] Hf]. rewrite (proj2 (NodeID_Validate_ok _)), H2 by done. simpl.
  rewrite bool_decide_eq_false_2 by (rewrite (Hk r) by left; intros [? ?]; done). apply IH; [done| |done].
  intros r' Hr'. rewrite lookup_insert_ne; [apply Hk; by right|]. intros E. apply Hr. rewrite E. by apply list_elem_of_fmap_2.
Qed.

Lemma foldl_insert_lookup l : ∀ (m : gmap NodeID (list byte)) id,
  NoDup (tr_NodeID <$> l) →
  foldl (λ m r, <[tr_NodeID r := tr_PublicKey r]> m) m l !! id =
  match filter (λ r, tr_NodeID r = id) l with r :: _ => Some (tr_PublicKey r) | [] => m !! id end.
Proof.
  induction l as [|r l IH]; intros m id Hn; [done|]. rewrite fmap_cons in Hn. apply NoDup_cons in Hn as [Hr Hn]. simpl.
  rewrite IH, filter_cons by done. destruct (decide (tr_NodeID r = id)) as [<-|Hne].
  - destruct (filter _ l) as [|r' l'] eqn:Ef; [by rewrite lookup_insert_eq|]. exfalso. apply Hr.
    assert (r' ∈ filter (λ x, tr_NodeID x = tr_NodeID r) l) as [E Hin]%list_elem_of_filter by (rewrite Ef; left).
    rewrite <- E. by apply list_elem_of_fmap_2.
  - by rewrite lookup_insert_ne.
Qed.

Lemma recordsFromKeys_ids keys : tr_NodeID <$> recordsFromKeys keys = SortSlice Z.ltb (map_to_list keys).*1.
Proof. unfold recordsFromKeys. rewrite <- list_fmap_compose. apply list_fmap_id. Qed.

Lemma load_recordsFromKeys keys :
  (∀ id key, keys !! id = Some key → id ≠ 0 ∧ blen key = PublicKeySize) → load_records ∅ (recordsFromKeys keys) = Ok keys.
Proof.
  intros Hk. assert (NoDup (tr_NodeID <$> recordsFromKeys keys)) as Hn.
  { rewrite recordsFromKeys_ids, (SortSlice_perm Z.ltb). apply NoDup_fst_map_to_list. }
  assert (∀ r, r ∈ recordsFromKeys keys ↔ keys !! tr_NodeID r = Some (tr_PublicKey r)) as Hin.
  { intros [id key]. unfold recordsFromKeys. rewrite list_elem_of_fmap. setoid_rewrite elem_of_SortSlice. setoid_rewrite list_elem_of_fmap. simpl. split.
    - intros (y & [= -> ->] & [id' key'] & -> & Hm). apply elem_of_map_to_list in Hm. simpl. by rewrite Hm.
    - intros Hl. exists id. rewrite Hl. split; [done|]. exists (id, key). split; [done|]. by apply elem_of_map_to_list. }
  rewrite load_records_app; [|done| |].
  - f_equal. apply map_eq. intros id. rewrite foldl_insert_lookup by done. destruct (filter _ _) as [|r l] eqn:Ef.
    + rewrite lookup_empty. destruct (keys !! id) as [key|] eqn:E; [|done]. exfalso.
      assert (mkTrustRecord id key ∈ filter (λ r, tr_NodeID r = id) (recordsFromKeys keys)) as Hx.
      { apply list_elem_of_filter. split; [done|]. by apply Hin. }
      rewrite Ef in Hx. by apply not_elem_of_nil in Hx.
    + assert (r ∈ filter (λ r, tr_NodeID r = id) (recordsFromKeys keys)) as [<- Hx]%list_elem_of_filter by (rewrite Ef; left).
      symmetry. by apply Hin.
  - intros r _. apply lookup_empty.
  - apply Forall_forall. intros r Hr. apply Hin in Hr. by apply Hk in Hr.
Qed.

Inductive trust_op := TAdd (nodeID : NodeID) (publicKey : list byte) (saved : bool) | TRevoke (nodeID : NodeID) (saved : bool).
Definition trust_step (s : TrustStore) (op : trust_op) : TrustStore * result auth_failure unit :=
  match op with TAdd id key saved => TrustStore_Add s id key saved | TRevoke id saved => TrustStore_Revoke s id saved end.

(** The stores that can arise; the generation of a file is a [uint64]. *)
Inductive trust_reachable : TrustStore → Prop :=
| tr_new : trust_reachable NewTrustStore
| tr_load file saved s : (∀ f, file = Some f → is_u64 (ts_Generation f)) → LoadTrustStore (Some file) saved = Ok s → trust_reachable s
| tr_step s op : trust_reachable s → trust_reachable (trust_step s op).1.

Lemma load_records_wf l : ∀ keys keys', load_records keys l = Ok keys' →
  (∀ id key, keys !! id = Some key → id ≠ 0 ∧ blen key = PublicKeySize) →
  ∀ id key, keys' !! id = Some key → id ≠ 0 ∧ blen key = PublicKeySize.
Proof.
  induction l as [|r l IH]; intros keys keys' H Hk; simpl in H; [by simplify_eq|].
  apply fail_if_ok in H as [H1 H]. apply fail_if_ok in H as [_ H]. apply (IH _ _ H). bool_prop.
  apply ok_unit, NodeID_Validate_ok in H0. intros id key. rewrite lookup_insert_Some. intros [[<- <-]|[_ ?]]; [done|by apply Hk].
Qed.

Lemma LoadTrustStore_ok file saved s :
  (∀ f, file = Some f → is_u64 (ts_Generation f)) → LoadTrustStore (Some file) saved = Ok s → trust_ok s.
Proof.
  unfold LoadTrustStore. intros Hu H. apply fail_if_ok in H as [Hv H]. destruct (load_records _ _) as [keys|] eqn:El; [|done]. simpl in H.
  pose proof (load_records_wf _ _ _ El ltac:(by intros ?? ?%lookup_empty_Some)) as Hk. destruct file as [f|]; simpl in *.
  - simplify_eq. apply orb_false_iff in Hv as [Hv1 Hv2]. apply negb_false_iff, Z.eqb_eq in Hv1. apply Z.eqb_neq in Hv2.
    specialize (Hu f eq_refl). unfold is_u64 in Hu. split; [done|simpl; lia|]. intros _. by exists f.
  - apply fail_if_ok in H as [_ H]. simplify_eq. split; [done|simpl; unfold maxUint64; lia|]. intros _. eexists. by split_and!.
Qed.

Lemma trust_commit_ok s keys saved :
  trust_ok s → (∀ id key, keys !! id = Some key → id ≠ 0 ∧ blen key = PublicKeySize) → trust_ok (trust_commit s keys saved).1.
Proof.
  intros [H1 H2 H3] Hk. unfold trust_commit. destruct (Z.eqb_spec (t_generation s) maxUint64); [done|].
  destruct (_ && _) eqn:Ep; [done|]. split; simpl; [done|lia|]. intros ->. eexists. split_and!; try done. by apply load_recordsFromKeys.
Qed.

Lemma trust_reachable_ok s : trust_reachable s → trust_ok s.
Proof.
  induction 1 as [|file saved s Hu Hl|s op Hr IH]; [|by eapply LoadTrustStore_ok|].
  - split; [intros ?? Hl; simpl in Hl; by rewrite lookup_empty in Hl|simpl; unfold maxUint64; lia|done].
  - destruct op as [id key saved|id saved]; simpl; unfold TrustStore_Add, TrustStore_Revoke;
      (destruct (NodeID_Validate id) as [[]|] eqn:Ev; [|done]); apply NodeID_Validate_ok in Ev.
    + destruct (blen key =? PublicKeySize) eqn:Ek; [|done]. apply Z.eqb_eq in Ek. simpl. destruct (t_keys s !! id); [by case_match|].
      apply trust_commit_ok; [done|]. intros i k. rewrite lookup_insert_Some. intros [[<- <-]|[_ ?]]; [done|by apply IH].
    + destruct (t_keys s !! id); [|done]. apply trust_commit_ok; [done|]. intros i k. rewrite lookup_delete_Some. intros [_ ?]. by apply IH.
Qed.

(** The trust store: reloading trust.json gives the same keys at the same generation; a
    trusted key is never replaced by [Add]; after a successful [Revoke] every claim of the
    node is refused, and so it is after a restart. *)
Theorem trust_store_correct `{Crypto} (s : TrustStore) (nodeID : NodeID) (key : list byte) (saved saved' : bool) :
  trust_reachable s →
  (t_persist s = true → ∃ s', LoadTrustStore (Some (t_disk s)) saved' = Ok s' ∧ t_keys s' = t_keys s ∧ t_generation s' = t_generation s) ∧
  (∀ current, t_keys s !! nodeID = Some current → (TrustStore_Add s nodeID key saved).1 = s) ∧
  ((TrustStore_Revoke s nodeID saved).2 = Ok tt →
   ∀ claim, jc_NodeID claim = nodeID → VerifyJoin (TrustStore_Revoke s nodeID saved).1 claim = Err ErrUntrustedIdentity).
Proof.
  intros Hr%trust_reachable_ok. split_and!.
  - intros Hp. destruct (to_disk s Hr Hp) as (file & Hd & Hv & Hg & Hl). rewrite Hd. unfold LoadTrustStore. simpl.
    pose proof (to_generation s Hr). rewrite Hv, Hg, Z.eqb_refl, (proj2 (Z.eqb_neq (t_generation s) 0)), Hl by lia. simpl. eexists. split_and!; done.
  - intros current Hc. unfold TrustStore_Add. rewrite Hc. by repeat case_match.
  - unfold TrustStore_Revoke. intros Hok claim Hn. destruct (NodeID_Validate nodeID); [|done]. destruct (t_keys s !! nodeID); [|done].
    unfold trust_commit in *. repeat case_match; try done; unfold VerifyJoin, TrustStore_PublicKey; simpl; by rewrite Hn, lookup_delete_eq.
Qed.

(** ** Witnesses *)

(** A toy signature: the verifier recomputes it from the public key and a checksum. *)
Module Toy.
(** Thirty-two bytes: the first ones of the list, filled up with zeros. *)
Definition fit (l : list byte) : list byte := take 32 (l ++ replicate 32 x00).
Definition digest (m : list byte) : list byte := fit (rev_append m []).
Definition toy_sign (pub m : list byte) : list byte := fit pub ++ digest m.
Lemma length_fit l : length (fit l) = 32%nat.
Proof. unfold fit. rewrite length_take, length_app, length_replicate. lia. Qed.
#[global] Instance toy_crypto : Crypto := mkCrypto (λ key m, toy_sign (Public key) m) (λ pub m s, bool_decide (s = toy_sign pub m)) digest.
#[global] Instance toy_laws : CryptoLaws.
Proof.
  split; intros; unfold Verify, Sign, Sum256, toy_crypto, toy_sign, digest, blen; rewrite ?length_app, ?length_fit; [by apply bool_decide_eq_true_2|done..].
Qed.
Definition private (n : Z) : list byte := be_bytes 32 (n + 1000) ++ be_bytes 32 n.
Definition identity (n : Z) : Identity := mkIdentity n (be_bytes 32 n) (private n).
Definition device (n : Z) : DeviceIdentity := mkDevice (be_bytes 32 n) (private n).
Definition trust (n : Z) : TrustStore := (TrustStore_Add NewTrustStore n (be_bytes 32 n) true).1.
End Toy.

Lemma join_handshake_witness :
  let nonce := be_bytes 32 77 in
  match NewJoinClaim (Toy.identity 5) 3 (Some nonce) with
  | Ok claim => VerifyJoin (Toy.trust 5) claim = Ok tt
  | Err _ => False
  end.
Proof.
  cbv zeta. destruct (NewJoinClaim (Toy.identity 5) 3 (Some (be_bytes 32 77))) as [claim|] eqn:E.
  - refine (proj1 (join_handshake (Toy.trust 9) (Toy.trust 5) (Toy.identity 5) (Toy.identity 9) (be_bytes 32 77) 3 4 claim _ _ _ _ _ E));
      [vm_compute; reflexivity..|vm_compute; congruence|vm_compute; reflexivity|vm_compute; reflexivity].
  - assert (is_ok (NewJoinClaim (Toy.identity 5) 3 (Some (be_bytes 32 77))) = true) as H by (vm_compute; reflexivity).
    rewrite E in H. discriminate H.
Defined.

Lemma trust_store_correct_witness :
  let s := (trust_step NewTrustStore (TAdd 5 (be_bytes 32 5) true)).1 in
  (TrustStore_Add s 5 (be_bytes 32 6) true).1 = s.
Proof.
  intros s. eapply (proj1 (proj2 (trust_store_correct s 5 (be_bytes 32 6) true true (tr_step _ _ tr_new)))).
  vm_compute. reflexivity.
Defined.
