(* ===== verification/Keystore.v ===== *)
(** * The key store (internal/keystore/store.go)

    Small JSON files in one directory, keyed by their name.  Every system call of
    [writeAtomic] is one step on the directory that may fail ([faults]); the states between
    the steps are recorded, because a crash can leave the directory in any of them.  The
    effects of the calls are taken to reach the disk in the order in which they are made.
    JSON encoding and decoding are parameters. *)

From S2P Require Import Prelude GoStd Wire Identity.
Open Scope Z_scope.

(** The directory: file names and contents. *)
Abbreviation dir := (gmap string (list byte)) (only parsing).

Inductive keystore_error :=
| KName | KRead | KDecode | KEncode | KCreate | KProtectTemp | KWrite | KSync | KClose | KInspect | KStale | KBackup | KActivate | KProtect.
#[global] Instance keystore_error_eq_dec : EqDecision keystore_error.
Proof. solve_decision. Defined.

(** The regular expression for file names: [a-z0-9][a-z0-9_-]*, then .json *)
Definition lower_alnum (c : Z) : bool := between 97 122 c || between 48 57 c.
Definition fileName (name : string) : bool :=
  let cs := code name in
  let stem := take (length cs - 5) cs in
  bool_decide (drop (length cs - 5) cs = code ".json") &&
  match stem with
  | [] => false
  | c :: rest => lower_alnum c && forallb (λ c, lower_alnum c || (c =? 95) || (c =? 45)) rest
  end.

(** Which system calls succeed, in the order of the code; [wf_partial] is how much of the data
    a failing write leaves. *)
Record faults := mkFaults {
  ok_create : bool; ok_chmod_temp : bool; ok_write : bool; wf_partial : nat; ok_sync : bool; ok_close : bool;
  ok_lstat : bool; ok_remove : bool; ok_backup : bool; ok_rename : bool; ok_restore : bool; ok_chmod : bool
}.
Definition no_faults : faults := mkFaults true true true 0 true true true true true true true true.

Definition backup_of (path : string) : string := path +:+ ".bak".
(** [os.Rename], which replaces the target. *)
Definition rename (d : dir) (from to : string) : dir :=
  match d !! from with Some data => <[to := data]> (delete from d) | None => d end.

(** The outcome, the directory after the call, and the directories in between.  The deferred
    [os.Remove(tempPath)] runs at every return after the temporary file was created. *)
Definition writeAtomic (d : dir) (path temp : string) (data : list byte) (f : faults) : result keystore_error unit * dir * list dir :=
  if negb (ok_create f) then (Err KCreate, d, []) else
  let d1 := <[temp := []]> d in
  let stop e d trace := (Err e, delete temp d, trace) in
  if negb (ok_chmod_temp f) then stop KProtectTemp d1 [d1] else
  if negb (ok_write f) then let d2 := <[temp := take (wf_partial f) data]> d in stop KWrite d2 [d1; d2] else
  let d2 := <[temp := data]> d in
  if negb (ok_sync f) then stop KSync d2 [d1; d2] else
  if negb (ok_close f) then stop KClose d2 [d1; d2] else
  if negb (ok_lstat f) then stop KInspect d2 [d1; d2] else
  let hadCurrent := bool_decide (is_Some (d2 !! path)) in
  let backup := backup_of path in
  let activate d3 trace :=
    if negb (ok_rename f) then
      let d5 := if hadCurrent && ok_restore f then rename d3 backup path else d3 in stop KActivate d5 (trace ++ [d5])
    else
      let d4 := rename d3 temp path in
      if negb (ok_chmod f) then stop KProtect d4 (trace ++ [d4]) else (Ok tt, delete temp d4, trace ++ [d4]) in
  if hadCurrent then
    if negb (ok_remove f) then stop KStale d2 [d1; d2] else
    let d2' := delete backup d2 in
    if negb (ok_backup f) then stop KBackup d2' [d1; d2; d2'] else
    let d3 := rename d2' path backup in
    activate d3 [d1; d2; d2'; d3]
  else activate d2 [d1; d2].

Section store.
Context {A : Type} (encode : A → option (list byte)) (decode : list byte → option A).

(** [encode] is [MarshalIndent] and the final line feed. *)
Definition Store_Save (d : dir) (name temp : string) (value : A) (f : faults) : result keystore_error unit * dir * list dir :=
  if negb (fileName name) then (Err KName, d, []) else
  match encode value with
  | None => (Err KEncode, d, [])
  | Some data => writeAtomic d name temp data f
  end.

(** [readable]: whether [ReadFile] succeeds on an existing file.  [Ok None]: not found. *)
Definition Store_Load (d : dir) (name : string) (readable : bool) : result keystore_error (option A) :=
  fail_if negb (fileName name) with KName ;;
  match d !! name with
  | None => Ok None
  | Some data =>
    fail_if negb readable with KRead ;;
    match decode data with None => Err KDecode | Some value => Ok (Some value) end
  end.
End store.

(** ** What a save does *)

(** The names [os.CreateTemp] makes from the pattern of the code. *)
Definition temp_name (s : string) : Prop := ∃ random, s = ".mfh-state-" +:+ random.

(** The state of one file before, during and after a save of [data]. *)
Definition old_or_new (d d' : dir) (path : string) (data : list byte) : Prop := d' !! path = d !! path ∨ d' !! path = Some data.
Definition only_in_backup (d d' : dir) (path : string) : Prop := d' !! path = None ∧ is_Some (d !! path) ∧ d' !! backup_of path = d !! path.

Lemma backup_ne path : backup_of path ≠ path.
Proof. unfold backup_of. intros H. induction path as [|c path IH]; [done|]. injection H as H. by apply IH. Qed.

Lemma fileName_head name c rest : fileName name = true → code name = c :: rest → c ≠ 46.
Proof.
  unfold fileName. intros H E. apply andb_true_iff in H as [_ H]. rewrite E in H. simpl in H.
  destruct (take _ (c :: rest)) as [|c' l] eqn:Et; [done|]. destruct (length rest - 4)%nat; [done|]. simpl in Et. injection Et as -> _.
  apply andb_true_iff in H as [H _]. unfold lower_alnum in H. apply orb_true_iff in H as [H|H]; apply between_spec in H; lia.
Qed.

Lemma fileName_not_temp name temp s : fileName name = true → temp_name temp → temp ≠ name +:+ s.
Proof.
  intros Hn [random ->] H. destruct name as [|a name]; [done|]. simpl in H. injection H as <- _.
  by apply (fileName_head _ _ _ Hn eq_refl).
Qed.

Section save.
Context (d : dir) (path temp : string) (data : list byte) (f : faults).
Hypothesis (Hname : fileName path = true) (Htemp : temp_name temp).

Lemma temp_ne : temp ≠ path ∧ temp ≠ backup_of path.
Proof.
  split; [|by apply fileName_not_temp]. intros E. apply (fileName_not_temp path temp "" Hname Htemp).
  rewrite E. clear. induction path as [|c p IH]; [done|]. exact (f_equal (String.String c) IH).
Qed.

(** What each outcome of a save means for the file, and what a crash can leave. *)
Definition save_outcome (r : result keystore_error unit) (d' : dir) : Prop :=
  match r with
  | Ok _ => d' !! path = Some data
  | Err KProtect => d' !! path = Some data
  | Err KActivate => d' !! path = d !! path ∨ only_in_backup d d' path
  | Err _ => d' !! path = d !! path
  end.

Lemma trace_ok x : x !! path = d !! path ∨ x !! path = Some data ∨ only_in_backup d x path → old_or_new d x path data ∨ only_in_backup d x path.
Proof. unfold old_or_new. tauto. Qed.

Lemma rename_lookup (x : dir) a b k : a ≠ b → is_Some (x !! a) →
  rename x a b !! k = if decide (k = b) then x !! a else if decide (k = a) then None else x !! k.
Proof.
  intros Hab [v Hv]. unfold rename. rewrite Hv. destruct (decide (k = b)) as [->|Hb]; [by rewrite lookup_insert_eq|].
  rewrite lookup_insert_ne by done. destruct (decide (k = a)) as [->|Ha]; [by rewrite lookup_delete_eq|]. by rewrite lookup_delete_ne.
Qed.

Lemma writeAtomic_spec :
  let '(r, d', trace) := writeAtomic d path temp data f in
  save_outcome r d' ∧ Forall (λ x, x !! path = d !! path ∨ x !! path = Some data ∨ only_in_backup d x path) trace.
Proof.
  destruct temp_ne as [Ht Hb]. pose proof (backup_ne path) as Hbp. pose proof (not_eq_sym Hbp) as Hbp'. unfold writeAtomic.
  destruct (ok_create f); simpl; [|by split; [|constructor]].
  assert (∀ l, (<[temp := l]> d : dir) !! path = d !! path) as Hi by (intros l; by apply lookup_insert_ne).
  assert (∀ x : dir, delete temp x !! path = x !! path) as Hd by (intros x; by apply lookup_delete_ne).
  assert (∀ l, (<[temp := l]> d : dir) !! temp = Some l) as Hii by (intros l; by apply lookup_insert_eq).
  destruct (ok_chmod_temp f); simpl; [|by rewrite Hd, Hi; eauto using Forall_cons, Forall_nil].
  destruct (ok_write f); simpl; [|by rewrite Hd, !Hi; eauto 6 using Forall_cons, Forall_nil].
  destruct (ok_sync f); simpl; [|by rewrite Hd, !Hi; eauto 6 using Forall_cons, Forall_nil].
  destruct (ok_close f); simpl; [|by rewrite Hd, !Hi; eauto 6 using Forall_cons, Forall_nil].
  destruct (ok_lstat f); simpl; [|by rewrite Hd, !Hi; eauto 6 using Forall_cons, Forall_nil].
  rewrite Hi. destruct (d !! path) as [old|] eqn:Ep; simpl.
  - set (d2 := <[temp := data]> d : dir). set (d2' := delete (backup_of path) d2).
    assert (d2 !! path = Some old) as E0 by apply Hi.
    assert (d2' !! path = Some old) as E1 by (unfold d2'; rewrite lookup_delete_ne by done; apply Hi).
    assert (d2' !! temp = Some data) as E2 by (unfold d2'; rewrite lookup_delete_ne by done; apply Hii).
    assert (∀ k, rename d2' path (backup_of path) !! k =
      if decide (k = backup_of path) then Some old else if decide (k = path) then None else d2' !! k) as E3.
    { intros k. rewrite rename_lookup, E1 by (done || by eexists). done. }
    set (d3 := rename d2' path (backup_of path)) in *. assert (only_in_backup d d3 path) as E4.
    { split_and!; [by rewrite E3, decide_False, decide_True|by rewrite Ep|by rewrite E3, Ep, decide_True]. }
    assert (rename d3 temp path !! path = Some data) as E5.
    { rewrite rename_lookup, decide_True by (done || (rewrite E3, !decide_False, E2 by done; by eexists)).
      by rewrite E3, !decide_False. }
    assert (rename d3 (backup_of path) path !! path = Some old) as E6.
    { rewrite rename_lookup, decide_True by (done || (rewrite E3, decide_True by done; by eexists)). by rewrite E3, decide_True. }
    destruct (ok_remove f); simpl; [|split; [by rewrite Hd, E0|repeat (constructor; [rewrite ?Hi; auto|]); constructor]].
    destruct (ok_backup f); simpl; [|split; [by rewrite Hd, E1|repeat (constructor; [rewrite ?Hi; auto|]); constructor]].
    assert (∀ x, x !! path = Some old ∨ x !! path = Some data ∨ only_in_backup d x path → Forall (λ x : dir,
      x !! path = Some old ∨ x !! path = Some data ∨ only_in_backup d x path) [<[temp := []]> d; d2; d2'; d3; x]) as Hall.
    { intros x Hx. repeat (constructor; [rewrite ?Hi; auto|]). constructor. }
    destruct (ok_rename f); simpl; [destruct (ok_chmod f); simpl; rewrite Hd; auto|].
    split; [|destruct (ok_restore f); auto]. destruct (ok_restore f); [left; by rewrite Hd, Ep|right].
    destruct E4 as (E4 & E4' & E4''). split_and!; [by rewrite Hd|done|by rewrite lookup_delete_ne].
  - assert (rename (<[temp := data]> d) temp path !! path = Some data) as E5.
    { rewrite rename_lookup, decide_True, Hii by (done || (rewrite Hii; by eexists)). done. }
    destruct (ok_rename f); simpl; [destruct (ok_chmod f); simpl|]; rewrite Hd, ?Hi, ?Ep;
      (split; [auto|repeat (constructor; [rewrite ?Hi; auto|]); constructor]).
Qed.
End save.

Section store_theorems.
Context {A : Type} (encode : A → option (list byte)) (decode : list byte → option A).
Context (roundtrip : ∀ value data, encode value = Some data → decode data = Some value).

Lemma Load_lookup d d' name : d !! name = d' !! name → Store_Load decode d name true = Store_Load decode d' name true.
Proof. unfold Store_Load. by intros ->. Qed.
Lemma Load_data d name data value :
  fileName name = true → encode value = Some data → d !! name = Some data → Store_Load decode d name true = Ok (Some value).
Proof. unfold Store_Load. intros -> He ->. simpl. by rewrite (roundtrip _ _ He). Qed.
Lemma Load_absent (d : dir) name : fileName name = true → d !! name = None → Store_Load decode d name true = Ok None.
Proof. unfold Store_Load. by intros -> ->. Qed.


(** In between, the file of an existing value is gone although no call fails. *)
Lemma save_window (d : dir) name temp value old :
  fileName name = true → temp_name temp → is_Some (encode value) → d !! name = Some old →
  let '(r, _, trace) := Store_Save encode d name temp value no_faults in
  r = Ok tt ∧ ∃ x, x ∈ trace ∧ Store_Load decode x name true = Ok None.
Proof.
  intros Hn Ht [data He] Ho. unfold Store_Save. rewrite Hn, He. simpl. destruct (temp_ne name temp Hn Ht) as [Ht1 Ht2].
  pose proof (backup_ne name) as Hb. unfold writeAtomic. simpl. rewrite lookup_insert_ne, Ho by done. simpl.
  split; [done|]. eexists. split; [do 3 right; left; reflexivity|]. apply Load_absent; [done|].
  assert ((delete (backup_of name) (<[temp := data]> d) : dir) !! name = Some old) as E
    by (rewrite lookup_delete_ne, lookup_insert_ne by done; done).
  rewrite rename_lookup by (done || (rewrite E; by eexists)). by rewrite decide_False, decide_True by done.
Qed.
End store_theorems.

(** A crash while trust.json is rewritten can lose every trusted key: between the two
    renames there is no trust.json, loading reports that there is none, and [LoadTrustStore]
    starts from an empty store; the backup is never read. *)
Theorem crash_forgets_trust (encode : trustState → option (list byte)) (decode : list byte → option trustState)
    (d : dir) (temp : string) (old : list byte) (next : trustState) :
  temp_name temp → is_Some (encode next) → d !! "trust.json" = Some old →
  let '(r, _, trace) := Store_Save encode d "trust.json" temp next no_faults in
  r = Ok tt ∧ ∃ x s, x ∈ trace ∧
    (file ← mapErr (λ _, ALoad) (Store_Load decode x "trust.json" true); LoadTrustStore (Some file) true) = Ok s ∧ t_keys s = ∅.
Proof.
  intros Ht He Ho. pose proof (save_window encode decode d "trust.json" temp next old eq_refl Ht He Ho) as H.
  destruct (Store_Save _ _ _ _ _ _) as [[r d'] trace]. destruct H as [-> (x & Hx & Hl)]. split; [done|].
  exists x. eexists. split; [done|]. rewrite Hl. done.
Qed.

(** ** Witnesses *)

Module Keystore_demo.
Definition encode (t : trustState) : option (list byte) := Some (be_bytes 8 (ts_Generation t)).
Definition number (n : Z) : option (list byte) := if bool_decide (is_u64 n) then Some (be_bytes 8 n) else None.
Definition denumber (l : list byte) : option Z := Some (be_value l).
Lemma number_ok n data : number n = Some data → denumber data = Some n.
Proof.
  unfold number, denumber. case_bool_decide as H; [|done]. intros [= <-]. f_equal. apply (Codec.be_value_small 8 n).
  unfold is_u64, maxUint64 in H. simpl. lia.
Qed.
Definition d0 : dir := {[ "state.json" := be_bytes 8 1 ]}.
End Keystore_demo.


Lemma crash_forgets_trust_witness :
  let '(r, _, _) := Store_Save Keystore_demo.encode {[ "trust.json" := [x7b] ]} "trust.json" ".mfh-state-1"
                      (TrustStore_snapshotLocked (Toy.trust 5)) no_faults in
  r = Ok tt.
Proof.
  pose proof (crash_forgets_trust Keystore_demo.encode (λ _, None) {[ "trust.json" := [x7b] ]} ".mfh-state-1" [x7b]
    (TrustStore_snapshotLocked (Toy.trust 5)) (ex_intro _ "1" eq_refl) ltac:(eexists; reflexivity) ltac:(reflexivity)) as H.
  destruct (Store_Save _ _ _ _ _ _) as [[r d'] trace]. exact (proj1 H).
Defined.
