(* ===== verification/Admission.v ===== *)
(** * Provisioning permits (runtime/auth/admission.go)

    A parent issues permits that let one child with one key join once.  The clock is an
    argument in nanoseconds, the random identifier of a permit is an argument ([None] when
    reading it fails), [saved] is the outcome of writing admission.json ([ad_disk]).  Every
    method holds the lock from its first access to the records to its end and is one step. *)

From S2P Require Import Prelude GoStd GoSort GoEncoding Wire Codec EnrollmentWire Identity.
Open Scope Z_scope.

Definition UnixMilli (ns : Z) : Z := ns / 1000000.
Definition Millisecond : Z := 1000000.
Definition Second : Z := 1000 * Millisecond.
Definition Hour : Z := 3600 * Second.

Inductive admission_error :=
| DIdentity (e : auth_failure) | DLimits | DLoad | DVersion | DPermit (e : enrollment_error) | DStatus | DDuplicate
| DNode (e : wire_error) | DKey | DRole | DTTL | DRandom | DRecordLimit | DGeneration | DPersist
| ErrPermitInvalid | ErrPermitConsumed | ErrPermitRevoked.

Definition PermitActive : string := "active".
Definition PermitConsumed : string := "consumed".
Definition PermitRevoked : string := "revoked".

Record permitRecord := mkPermitRecord {
  ar_Permit : ProvisioningPermitV1; ar_Status : string; ar_ConsumedAt : Z; ar_RevokedAt : Z
}.
Record admissionState := mkAdmissionState { as_Version : Z; as_Generation : Z; as_Records : list permitRecord }.

Section admission.
Context `{Crypto}.

Record Admission := mkAdmission {
  ad_identity : Identity; ad_maxTTL : Z; ad_maxRecords : Z; ad_generation : Z;
  ad_records : gmap string permitRecord; ad_disk : option admissionState
}.

(** The values in the order of the identifiers. *)
Definition sorted_values {A} (m : gmap string A) : list A :=
  omap (λ id, m !! id) (SortStrings (map_to_list m).*1).
Definition admission_file (records : gmap string permitRecord) (generation : Z) : admissionState :=
  mkAdmissionState stateVersion generation (sorted_values records).

(** [commitLocked] with [saveLocked]. *)
Definition Admission_commitLocked (a : Admission) (records : gmap string permitRecord) (saved : bool) : Admission * result admission_error unit :=
  if ad_generation a =? maxUint64 then (a, Err DGeneration) else
  let nextGeneration := ad_generation a + 1 in
  if negb saved then (a, Err DPersist)
  else (mkAdmission (ad_identity a) (ad_maxTTL a) (ad_maxRecords a) nextGeneration records (Some (admission_file records nextGeneration)), Ok tt).

Fixpoint load_permits (records : gmap string permitRecord) (l : list permitRecord) : result admission_error (gmap string permitRecord) :=
  match l with
  | [] => Ok records
  | record :: rest =>
    _ ← mapErr DPermit (ProvisioningPermit_Validate (ar_Permit record));
    fail_if negb (String.eqb (ar_Status record) PermitActive) && negb (String.eqb (ar_Status record) PermitConsumed)
         && negb (String.eqb (ar_Status record) PermitRevoked) with DStatus ;;
    fail_if bool_decide (is_Some (records !! pp_PermitID (ar_Permit record))) with DDuplicate ;;
    load_permits (<[pp_PermitID (ar_Permit record) := record]> records) rest
  end.

(** [loaded]: the contents of admission.json, if there is one; the outer [None] is a load error. *)
Definition LoadAdmission (i : Identity) (maxTTL maxRecords : Z) (loaded : option (option admissionState)) (saved : bool)
    : result admission_error Admission :=
  _ ← mapErr DIdentity (Identity_Validate i);
  let maxTTL := if maxTTL <=? 0 then 24 * Hour else maxTTL in
  let maxRecords := if maxRecords <=? 0 then 4096 else maxRecords in
  fail_if (maxTTL <? Second) || (maxRecords <? 1) with DLimits ;;
  match loaded with
  | None => Err DLoad
  | Some file =>
    let found := bool_decide (is_Some file) in
    let state := default (mkAdmissionState stateVersion 1 []) file in
    fail_if found && (negb (as_Version state =? stateVersion) || (as_Generation state =? 0)) with DVersion ;;
    records ← load_permits ∅ (as_Records state);
    if found then Ok (mkAdmission i maxTTL maxRecords (as_Generation state) records file)
    else fail_if negb saved with DPersist ;;
         Ok (mkAdmission i maxTTL maxRecords (as_Generation state) records (Some (admission_file records (as_Generation state))))
  end.

(** What a permit's signature covers. *)
Definition permit_fields (p : ProvisioningPermitV1) : list (string * json_value) :=
  [("domain", JString "MFH4-PERMIT"); ("version", JInt (pp_Version p)); ("permit_id", JString (pp_PermitID p));
   ("parent_node_id", JString (pp_ParentNodeID p)); ("child_node_id", JString (pp_ChildNodeID p));
   ("child_public_key", JString (pp_ChildPublicKey p)); ("role", JString (pp_Role p));
   ("issued_at_unix_ms", JInt (pp_IssuedAtUnixMS p)); ("expires_at_unix_ms", JInt (pp_ExpiresAtUnixMS p));
   ("max_uses", JInt (pp_MaxUses p))].
Definition permitMessage (p : ProvisioningPermitV1) : list byte := Marshal (permit_fields p).
Definition samePermit (l r : ProvisioningPermitV1) : bool :=
  bool_decide (permitMessage l = permitMessage r) && String.eqb (pp_Signature l) (pp_Signature r).

Definition cleanupExpiredPermits (records : gmap string permitRecord) (now : Z) : gmap string permitRecord :=
  filter (λ '(_, record), ¬ pp_ExpiresAtUnixMS (ar_Permit record) ≤ now) records.

Definition new_permit (i : Identity) (childID : NodeID) (childPublicKey : list byte) (role : string) (ttl : Z) (rawID : list byte) (now : Z)
    : ProvisioningPermitV1 :=
  let unsigned := mkProvisioningPermit 1 (EncodeToString rawID) (FormatUint (i_NodeID i)) (FormatUint childID)
                    (RawStd_EncodeToString childPublicKey) role (UnixMilli now) (UnixMilli (now + ttl)) 1 "" in
  mkProvisioningPermit 1 (pp_PermitID unsigned) (pp_ParentNodeID unsigned) (pp_ChildNodeID unsigned) (pp_ChildPublicKey unsigned) role
    (pp_IssuedAtUnixMS unsigned) (pp_ExpiresAtUnixMS unsigned) 1 (RawStd_EncodeToString (Sign (i_PrivateKey i) (permitMessage unsigned))).

Definition Issue (a : Admission) (childID : NodeID) (childPublicKey : list byte) (role : string) (ttl : Z)
    (rawID : option (list byte)) (now : Z) (saved : bool) : Admission * result admission_error ProvisioningPermitV1 :=
  match NodeID_Validate childID with
  | Err e => (a, Err (DNode e))
  | Ok _ =>
    if negb (blen childPublicKey =? PublicKeySize) then (a, Err DKey) else
    if String.eqb role "" || (MaxIdentifierBytes <? strlen role) then (a, Err DRole) else
    if (ttl <? Millisecond) || (ad_maxTTL a <? ttl) then (a, Err DTTL) else
    match rawID with
    | None => (a, Err DRandom)
    | Some rawID =>
      let permit := new_permit (ad_identity a) childID childPublicKey role ttl rawID now in
      match ProvisioningPermit_Validate permit with
      | Err e => (a, Err (DPermit e))
      | Ok _ =>
        let next := cleanupExpiredPermits (ad_records a) (UnixMilli now) in
        if ad_maxRecords a <=? Z.of_nat (size next) then (a, Err DRecordLimit) else
        let '(a', r) := Admission_commitLocked a (<[pp_PermitID permit := mkPermitRecord permit PermitActive 0 0]> next) saved in
        (a', _ ← r; Ok permit)
      end
    end
  end.

Definition Admission_verify (a : Admission) (childID : NodeID) (childPublicKey : list byte) (permit : ProvisioningPermitV1)
    : result admission_error unit :=
  _ ← mapErr (λ _, ErrPermitInvalid) (ProvisioningPermit_Validate permit);
  fail_if negb (String.eqb (pp_ParentNodeID permit) (FormatUint (i_NodeID (ad_identity a))))
       || negb (String.eqb (pp_ChildNodeID permit) (FormatUint childID)) with ErrPermitInvalid ;;
  fail_if negb (blen childPublicKey =? PublicKeySize)
       || negb (String.eqb (pp_ChildPublicKey permit) (RawStd_EncodeToString childPublicKey)) with ErrPermitInvalid ;;
  match RawStd_DecodeString (pp_Signature permit) with
  | None => Err ErrPermitInvalid
  | Some signature => fail_if negb (Verify (i_PublicKey (ad_identity a)) (permitMessage permit) signature) with ErrPermitInvalid ;; Ok tt
  end.

Definition Consume (a : Admission) (childID : NodeID) (childPublicKey : list byte) (permit : ProvisioningPermitV1) (now : Z) (saved : bool)
    : Admission * result admission_error unit :=
  match Admission_verify a childID childPublicKey permit with
  | Err e => (a, Err e)
  | Ok _ =>
    match ad_records a !! pp_PermitID permit with
    | None => (a, Err ErrPermitInvalid)
    | Some record =>
      if negb (samePermit (ar_Permit record) permit) then (a, Err ErrPermitInvalid) else
      if String.eqb (ar_Status record) PermitConsumed then (a, Err ErrPermitConsumed) else
      if String.eqb (ar_Status record) PermitRevoked then (a, Err ErrPermitRevoked) else
      if negb (String.eqb (ar_Status record) PermitActive) then (a, Err ErrPermitInvalid) else
      if (UnixMilli now <? pp_IssuedAtUnixMS permit) || (pp_ExpiresAtUnixMS permit <=? UnixMilli now) then (a, Err ErrPermitInvalid) else
      Admission_commitLocked a
        (<[pp_PermitID permit := mkPermitRecord (ar_Permit record) PermitConsumed (UnixMilli now) (ar_RevokedAt record)]> (ad_records a)) saved
    end
  end.

Definition Admission_Revoke (a : Admission) (permitID : string) (now : Z) (saved : bool) : Admission * result admission_error unit :=
  match ad_records a !! permitID with
  | None => (a, Err ErrPermitInvalid)
  | Some record =>
    if String.eqb (ar_Status record) PermitConsumed then (a, Err ErrPermitConsumed) else
    if String.eqb (ar_Status record) PermitRevoked then (a, Ok tt) else
    Admission_commitLocked a
      (<[permitID := mkPermitRecord (ar_Permit record) PermitRevoked (ar_ConsumedAt record) (UnixMilli now)]> (ad_records a)) saved
  end.

(** [Active], for one order of the map. *)
Definition Active (a : Admission) (order : list (string * permitRecord)) (now : Z) : list ProvisioningPermitV1 :=
  SortSlice (λ l r, str_ltb (pp_PermitID l) (pp_PermitID r))
    (ar_Permit <$> filter (λ record, ar_Status record = PermitActive ∧ pp_IssuedAtUnixMS (ar_Permit record) ≤ UnixMilli now
                                     ∧ UnixMilli now < pp_ExpiresAtUnixMS (ar_Permit record)) order.*2).
End admission.

(** ** The signed text determines the permit *)

(** The integers of a permit fit their Go types. *)
Definition permit_typed (p : ProvisioningPermitV1) : Prop :=
  is_i64 (pp_Version p) ∧ is_i64 (pp_IssuedAtUnixMS p) ∧ is_i64 (pp_ExpiresAtUnixMS p) ∧ is_i64 (pp_MaxUses p).

Lemma permit_fields_wf p : ProvisioningPermit_Validate p = Ok tt → permit_typed p → Forall (λ f, json_wf f.2) (permit_fields p).
Proof.
  intros Hv (H1 & H2 & H3 & H4). unfold ProvisioningPermit_Validate in Hv. guards Hv.
  assert (ascii (pp_ChildPublicKey p)) by (by eapply RawStd_ascii).
  unfold permit_fields. json_fields_wf.
Qed.

Lemma permitMessage_inj p q :
  ProvisioningPermit_Validate p = Ok tt → ProvisioningPermit_Validate q = Ok tt → permit_typed p → permit_typed q →
  permitMessage p = permitMessage q → pp_Signature p = pp_Signature q → p = q.
Proof.
  intros Hp Hq Tp Tq Hm Hs. apply marshal_inj in Hm; [|repeat constructor|by apply permit_fields_wf..].
  destruct p, q. unfold permit_fields in Hm. simpl in *. by simplify_eq.
Qed.

Lemma samePermit_eq p q :
  ProvisioningPermit_Validate p = Ok tt → ProvisioningPermit_Validate q = Ok tt → permit_typed p → permit_typed q →
  samePermit p q = true → p = q.
Proof.
  unfold samePermit. intros Hp Hq Tp Tq [Hm%bool_decide_eq_true Hs%String.eqb_eq]%andb_true_iff. by apply permitMessage_inj.
Qed.

(** ** The records and the file *)

Definition record_ok (id : string) (r : permitRecord) : Prop :=
  pp_PermitID (ar_Permit r) = id ∧ ProvisioningPermit_Validate (ar_Permit r) = Ok tt ∧ permit_typed (ar_Permit r) ∧
  (ar_Status r = PermitActive ∨ ar_Status r = PermitConsumed ∨ ar_Status r = PermitRevoked).

Section sorted_values.
Context {A : Type}.
Implicit Types m : gmap string A.

Lemma elem_of_sorted_values m x : x ∈ sorted_values m ↔ ∃ id, m !! id = Some x.
Proof.
  unfold sorted_values. rewrite list_elem_of_omap. split; [naive_solver|]. intros [id Hid]. exists id. split; [|done].
  apply elem_of_SortSlice, list_elem_of_fmap. exists (id, x). split; [done|]. by apply elem_of_map_to_list.
Qed.
Lemma sorted_values_ids m (key : A → string) : (∀ id x, m !! id = Some x → key x = id) → key <$> sorted_values m = SortStrings (map_to_list m).*1.
Proof.
  intros Hk. unfold sorted_values. assert (∀ l : list string, (∀ id, id ∈ l → is_Some (m !! id)) → key <$> omap (λ id, m !! id) l = l) as Hl.
  { induction l as [|id l IH]; intros Hm; [done|]. destruct (Hm id) as [x Hx]; [left|]. csimpl. rewrite Hx. csimpl.
    rewrite (Hk _ _ Hx), IH; [done|]. intros id' Hid'. apply Hm. by right. }
  apply Hl. intros id Hid. apply elem_of_SortSlice, list_elem_of_fmap in Hid as ([id' x] & -> & Hx). apply elem_of_map_to_list in Hx. by eexists.
Qed.
Lemma sorted_values_nodup m (key : A → string) : (∀ id x, m !! id = Some x → key x = id) → NoDup (key <$> sorted_values m).
Proof.
  intros Hk. rewrite (sorted_values_ids m key Hk). unfold SortStrings. rewrite (SortSlice_perm str_ltb). apply NoDup_fst_map_to_list.
Qed.
(** Inserting the values under their keys gives the map back. *)
Lemma sorted_values_rebuild m (key : A → string) :
  (∀ id x, m !! id = Some x → key x = id) → list_to_map ((λ x, (key x, x)) <$> sorted_values m) = m.
Proof.
  intros Hk. apply map_eq. intros id. apply option_eq. intros x.
  rewrite <- elem_of_list_to_map.
  - rewrite list_elem_of_fmap. setoid_rewrite elem_of_sorted_values. split; [|naive_solver].
    intros (y & [= -> ->] & id' & Hid). by rewrite (Hk _ _ Hid) in *.
  - rewrite <- list_fmap_compose. simpl. by apply sorted_values_nodup.
Qed.
End sorted_values.

Lemma list_to_map_insert {A} (l : list (string * A)) m : NoDup l.*1 → (∀ k, k ∈ l.*1 → m !! k = None) →
  ∀ k x, k ∉ l.*1 → list_to_map l ∪ <[k := x]> m = <[k := x]> (list_to_map l ∪ m : gmap string A).
Proof.
  intros Hn Hm k x Hk. apply map_eq. intros i. destruct (decide (i = k)) as [->|Hi].
  - rewrite lookup_insert_eq, lookup_union_r; [by rewrite lookup_insert_eq|]. by apply not_elem_of_list_to_map_1.
  - rewrite lookup_insert_ne, !lookup_union by done. by rewrite lookup_insert_ne.
Qed.

(** A loop that inserts records under their keys and refuses duplicates reads a sorted map back. *)
Section load_loop.
Context {A E : Type} (load : gmap string A → list A → result E (gmap string A)) (key : A → string) (ok : A → Prop).
Hypothesis load_nil : ∀ m, load m [] = Ok m.
Hypothesis load_cons : ∀ m x l, ok x → m !! key x = None → load m (x :: l) = load (<[key x := x]> m) l.

Lemma load_list l : ∀ m, NoDup (key <$> l) → (∀ x, x ∈ l → m !! key x = None) → Forall ok l →
  load m l = Ok (list_to_map ((λ x, (key x, x)) <$> l) ∪ m).
Proof.
  induction l as [|x l IH]; intros m Hn Hm Hf; [rewrite load_nil; simpl; by rewrite (left_id_L ∅ (∪))|].
  rewrite fmap_cons in Hn. apply NoDup_cons in Hn as [Hx Hn]. apply Forall_cons in Hf as [Ho Hf].
  rewrite load_cons by (done || (apply Hm; left)). rewrite IH; [|done| |done].
  - f_equal. rewrite fmap_cons. simpl. rewrite <- (insert_union_l _ m). apply list_to_map_insert.
    + by rewrite <- list_fmap_compose.
    + intros k. rewrite <- list_fmap_compose. intros (y & -> & Hy)%list_elem_of_fmap. apply Hm. by right.
    + rewrite <- list_fmap_compose. exact Hx.
  - intros y Hy. rewrite lookup_insert_ne; [apply Hm; by right|]. intros E'. apply Hx. rewrite E'. by apply list_elem_of_fmap_2.
Qed.

Lemma load_sorted m : (∀ id x, m !! id = Some x → key x = id ∧ ok x) → load ∅ (sorted_values m) = Ok m.
Proof.
  intros Hm. assert (∀ id x, m !! id = Some x → key x = id) as Hk by (intros ?? Hx; by apply Hm in Hx as [? _]).
  rewrite load_list.
  - by rewrite (right_id_L ∅ (∪)), (sorted_values_rebuild m key).
  - by apply sorted_values_nodup.
  - intros x _. apply lookup_empty.
  - apply Forall_forall. intros x [id Hx]%elem_of_sorted_values. by apply Hm in Hx as [_ ?].
Qed.
End load_loop.

Lemma load_sorted_permits m : (∀ id r, m !! id = Some r → record_ok id r) → load_permits ∅ (sorted_values m) = Ok m.
Proof.
  intros Hm. apply (load_sorted load_permits (λ r, pp_PermitID (ar_Permit r)) (λ r, record_ok (pp_PermitID (ar_Permit r)) r)); [done| |].
  - intros m' r l (_ & Hv & _ & Hs) Hn. cbn [load_permits]. rewrite Hv. simpl.
    assert (negb (String.eqb (ar_Status r) PermitActive) && negb (String.eqb (ar_Status r) PermitConsumed)
      && negb (String.eqb (ar_Status r) PermitRevoked) = false) as -> by (destruct Hs as [->|[->| ->]]; done).
    by rewrite bool_decide_eq_false_2 by (rewrite Hn; by intros [??]).
  - intros id r Hr. destruct (Hm _ _ Hr) as [E Hok]. split; [done|]. by rewrite E.
Qed.

(** ** Every issued permit is used at most once, across restarts *)

Section machine.
Context `{CryptoLaws}.

Record admission_ok (a : Admission) : Prop := mkAdmissionOk {
  ao_identity : Identity_Validate (ad_identity a) = Ok tt;
  ao_limits : Second ≤ ad_maxTTL a ∧ 1 ≤ ad_maxRecords a;
  ao_records : ∀ id r, ad_records a !! id = Some r → record_ok id r;
  ao_generation : 0 < ad_generation a ≤ maxUint64;
  ao_size : Z.of_nat (size (ad_records a)) ≤ ad_maxRecords a;
  ao_disk : ad_disk a = Some (admission_file (ad_records a) (ad_generation a))
}.

Inductive event :=
| Issued (p : ProvisioningPermitV1)
| Consumed (p : ProvisioningPermitV1) (childID : NodeID) (childPublicKey : list byte) (now : Z).

Inductive admission_op :=
| OpIssue (childID : NodeID) (key : list byte) (role : string) (ttl : Z) (rawID : option (list byte)) (now : Z) (saved : bool)
| OpConsume (childID : NodeID) (key : list byte) (permit : ProvisioningPermitV1) (now : Z) (saved : bool)
| OpRevoke (permitID : string) (now : Z) (saved : bool)
| OpRestart (saved : bool).

(** A restart loads the file with the same configuration; the process ends when that fails. *)
Definition admission_step (a : Admission) (op : admission_op) : option (Admission * list event) :=
  match op with
  | OpIssue childID key role ttl rawID now saved =>
    let '(a', r) := Issue a childID key role ttl rawID now saved in
    Some (a', match r with Ok p => [Issued p] | Err _ => [] end)
  | OpConsume childID key permit now saved =>
    let '(a', r) := Consume a childID key permit now saved in
    Some (a', match r with Ok _ => [Consumed permit childID key now] | Err _ => [] end)
  | OpRevoke permitID now saved => let '(a', _) := Admission_Revoke a permitID now saved in Some (a', [])
  | OpRestart saved =>
    match LoadAdmission (ad_identity a) (ad_maxTTL a) (ad_maxRecords a) (Some (ad_disk a)) saved with
    | Ok a' => Some (a', [])
    | Err _ => None
    end
  end.

(** The times and the permits of calls fit their Go types. *)
Definition op_typed (op : admission_op) : Prop :=
  match op with
  | OpIssue _ _ _ ttl _ now _ => is_i64 (UnixMilli now) ∧ is_i64 (UnixMilli (now + ttl))
  | OpConsume _ _ permit _ _ => permit_typed permit
  | _ => True
  end.

Inductive admission_reachable : Admission → list event → Prop :=
| ar_fresh i maxTTL maxRecords saved a : LoadAdmission i maxTTL maxRecords (Some None) saved = Ok a → admission_reachable a []
| ar_op a log op a' events : admission_reachable a log → op_typed op → admission_step a op = Some (a', events) →
    admission_reachable a' (log ++ events).

Definition issues (p : ProvisioningPermitV1) (e : event) : bool := match e with Issued q => bool_decide (q = p) | Consumed _ _ _ _ => false end.
Definition consumes (p : ProvisioningPermitV1) (e : event) : bool := match e with Issued _ => false | Consumed q _ _ _ => bool_decide (q = p) end.
Definition issued (p : ProvisioningPermitV1) (log : list event) : nat := length (filter (λ e, issues p e = true) log).
Definition consumed (p : ProvisioningPermitV1) (log : list event) : nat := length (filter (λ e, consumes p e = true) log).
(** The permit can still be consumed. *)
Definition usable (a : Admission) (p : ProvisioningPermitV1) : Prop :=
  ∃ r, ad_records a !! pp_PermitID p = Some r ∧ ar_Permit r = p ∧ ar_Status r = PermitActive.

Definition accounted (a : Admission) (log : list event) : Prop :=
  ∀ p, (consumed p log ≤ issued p log)%nat ∧ (usable a p → (consumed p log < issued p log)%nat).

(** What a consumption in the log says. *)
Definition consumption_ok (e : event) : Prop :=
  match e with
  | Issued _ => True
  | Consumed p childID key now =>
    pp_ChildNodeID p = FormatUint childID ∧ pp_ChildPublicKey p = RawStd_EncodeToString key ∧
    pp_IssuedAtUnixMS p ≤ UnixMilli now < pp_ExpiresAtUnixMS p
  end.

Lemma counts_app p log events :
  issued p (log ++ events) = (issued p log + issued p events)%nat ∧ consumed p (log ++ events) = (consumed p log + consumed p events)%nat.
Proof. unfold issued, consumed. by rewrite !filter_app, !length_app. Qed.

(** A commit keeps the invariant of the records. *)
Lemma admission_commit_ok a records saved :
  admission_ok a → (∀ id r, records !! id = Some r → record_ok id r) → Z.of_nat (size records) ≤ ad_maxRecords a →
  admission_ok (Admission_commitLocked a records saved).1.
Proof.
  intros Ha Hr Hs. pose proof Ha as [H1 H2 H3 H4 H5 H6]. unfold Admission_commitLocked.
  destruct (Z.eqb_spec (ad_generation a) maxUint64); [done|]. destruct saved; [|done]. simpl. split; simpl; try done. lia.
Qed.
Lemma commit_records a records saved :
  ad_records (Admission_commitLocked a records saved).1 = records ∧ (Admission_commitLocked a records saved).2 = Ok tt ∨
  (Admission_commitLocked a records saved).1 = a ∧ is_ok (Admission_commitLocked a records saved).2 = false.
Proof. unfold Admission_commitLocked. destruct (_ =? _); [by right|]. destruct saved; [by left|by right]. Qed.

Lemma new_permit_typed i childID key role ttl rawID now :
  is_i64 (UnixMilli now) → is_i64 (UnixMilli (now + ttl)) → permit_typed (new_permit i childID key role ttl rawID now).
Proof. intros H1 H2. unfold permit_typed, new_permit. simpl. split_and!; try done; unfold is_i64; lia. Qed.

Lemma insert_record_ok (m : gmap string permitRecord) id r :
  (∀ id r, m !! id = Some r → record_ok id r) → record_ok id r → ∀ id' r', (<[id := r]> m) !! id' = Some r' → record_ok id' r'.
Proof. intros Hm Hr id' r'. rewrite lookup_insert_Some. intros [[<- <-]|[_ ?]]; [done|by apply Hm]. Qed.

(** The steps keep the accounts. *)
Lemma commit_accounted a records saved log events :
  accounted a log →
  (∀ p, (consumed p (log ++ events) ≤ issued p (log ++ events))%nat ∧
        (∀ r, records !! pp_PermitID p = Some r → ar_Permit r = p → ar_Status r = PermitActive →
              (consumed p (log ++ events) < issued p (log ++ events))%nat)) →
  accounted (Admission_commitLocked a records saved).1 (log ++ if is_ok (Admission_commitLocked a records saved).2 then events else []).
Proof.
  intros Ha Hp. destruct (commit_records a records saved) as [[H1 H2]|[H1 H2]].
  - rewrite H2. intros p. destruct (Hp p) as [Hp1 Hp2]. split; [done|]. intros (r & Hr & Hpr & Hs). rewrite H1 in Hr. by apply (Hp2 r).
  - rewrite H1, H2, app_nil_r. exact Ha.
Qed.

Lemma issue_account a log permit (next : gmap string permitRecord) :
  accounted a log → (∀ id r, next !! id = Some r → ad_records a !! id = Some r) →
  ∀ p, (consumed p (log ++ [Issued permit]) ≤ issued p (log ++ [Issued permit]))%nat ∧
       (∀ r, <[pp_PermitID permit := mkPermitRecord permit PermitActive 0 0]> next !! pp_PermitID p = Some r → ar_Permit r = p →
             ar_Status r = PermitActive → (consumed p (log ++ [Issued permit]) < issued p (log ++ [Issued permit]))%nat).
Proof.
  intros Hc Hsub p. destruct (counts_app p log [Issued permit]) as [-> ->]. destruct (Hc p) as [Hp1 Hp2].
  assert (consumed p [Issued permit] = 0%nat) as -> by done. split; [lia|].
  intros r Hr Hp Hs. apply lookup_insert_Some in Hr as [[_ <-]|[_ Hr]].
  - simpl in Hp. subst p. assert (issued permit [Issued permit] = 1%nat) as -> by (unfold issued; rewrite filter_cons_True; [done|]; by apply bool_decide_eq_true_2).
    lia.
  - assert (consumed p log < issued p log)%nat by (apply Hp2; exists r; auto). lia.
Qed.

Lemma Issue_step a childID key role ttl rawID now saved log :
  admission_ok a → accounted a log → is_i64 (UnixMilli now) → is_i64 (UnixMilli (now + ttl)) →
  let '(a', r) := Issue a childID key role ttl rawID now saved in
  admission_ok a' ∧ accounted a' (log ++ match r with Ok p => [Issued p] | Err _ => [] end).
Proof.
  intros Ha Hc Hn1 Hn2. unfold Issue. assert (accounted a (log ++ [])) as Hc' by (by rewrite app_nil_r).
  destruct (NodeID_Validate childID); [|done]. destruct (negb _); [done|]. do 2 (destruct (_ || _); [done|]). destruct rawID as [rawID|]; [|done].
  set (permit := new_permit _ _ _ _ _ _ _). assert (permit_typed permit) as Ht by (by apply new_permit_typed). clearbody permit.
  destruct (ProvisioningPermit_Validate permit) as [[]|] eqn:Ev; [|done].
  set (next := cleanupExpiredPermits _ _). destruct (Z.leb_spec (ad_maxRecords a) (Z.of_nat (size next))) as [|Hs]; [done|].
  assert (∀ id r, next !! id = Some r → ad_records a !! id = Some r) as Hsub by (intros id r Hr; by apply map_lookup_filter_Some in Hr as [? _]).
  pose proof (issue_account a log permit next Hc Hsub) as Hacc. clearbody next. set (records := <[_ := _]> next) in *.
  pose proof (commit_accounted a records saved log [Issued permit] Hc Hacc) as Hac. assert (admission_ok (Admission_commitLocked a records saved).1) as Hok.
  { apply admission_commit_ok; [done| |].
    - apply insert_record_ok; [intros id r' Hr; by apply Ha, Hsub|]. split; [done|split; [exact Ev|split; [exact Ht|by left]]].
    - unfold records. rewrite map_size_insert. destruct (next !! pp_PermitID permit); unfold id; lia. }
  destruct (Admission_commitLocked a records saved) as [a' r]. destruct r as [[]|e]; by split.
Qed.

Lemma Consume_step a childID key permit now saved log :
  admission_ok a → accounted a log → permit_typed permit →
  let '(a', r) := Consume a childID key permit now saved in
  admission_ok a' ∧ accounted a' (log ++ if is_ok r then [Consumed permit childID key now] else []) ∧
  (r = Ok tt → consumption_ok (Consumed permit childID key now)).
Proof.
  intros Ha Hc Ht. unfold Consume. assert (accounted a (log ++ [])) as Hc' by (by rewrite app_nil_r).
  destruct (Admission_verify a childID key permit) as [[]|] eqn:Ev; [|done].
  destruct (ad_records a !! pp_PermitID permit) as [record|] eqn:Er; [|done]. destruct (samePermit _ _) eqn:Es; simpl; [|done].
  destruct (String.eqb_spec (ar_Status record) PermitConsumed) as [|Hnc]; [done|]. destruct (String.eqb (ar_Status record) PermitRevoked); [done|].
  destruct (String.eqb_spec (ar_Status record) PermitActive) as [Hact|]; simpl; [|done]. destruct (_ || _) eqn:Etime; [done|].
  unfold Admission_verify in Ev. apply bind_ok in Ev as [Hv Ev]. apply mapErr_ok in Hv. apply fail_if_ok in Ev as [E1 Ev]. apply fail_if_ok in Ev as [E2 _].
  destruct (ao_records a Ha _ _ Er) as (Hid & Hrv & Hrt & _). apply samePermit_eq in Es; [|done..].
  set (records := <[_ := _]> (ad_records a)). pose proof (commit_accounted a records saved log [Consumed permit childID key now] Hc) as Hac.
  assert (admission_ok (Admission_commitLocked a records saved).1) as Hok.
  { apply admission_commit_ok; [done| |].
    - apply insert_record_ok; [apply Ha|]. split; [done|split; [done|split; [done|by right; left]]].
    - unfold records. rewrite map_size_insert, Er. apply Ha. }
  assert (consumption_ok (Consumed permit childID key now)) as Hcons.
  { simpl. bool_prop. eqb_prop. split_and!; [done|done|lia|lia]. }
  destruct (Admission_commitLocked a records saved) as [a' r]. split_and!; [done| |done]. apply Hac. intros p.
  destruct (counts_app p log [Consumed permit childID key now]) as [-> ->]. destruct (Hc p) as [Hp1 Hp2].
  assert (issued p [Consumed permit childID key now] = 0%nat) as -> by done. destruct (decide (permit = p)) as [->|Hne].
  - assert (consumed p [Consumed p childID key now] = 1%nat) as -> by (unfold consumed; rewrite filter_cons_True; [done|]; by apply bool_decide_eq_true_2).
    assert (consumed p log < issued p log)%nat by (apply Hp2; exists record; auto). split; [lia|].
    intros x Hx Hxp Hxs. unfold records in Hx. rewrite lookup_insert_eq in Hx. by simplify_eq.
  - assert (consumed p [Consumed permit childID key now] = 0%nat) as -> by (unfold consumed; rewrite filter_cons_False; [done|]; simpl; by rewrite bool_decide_eq_false_2).
    split; [lia|]. intros x Hx Hxp Hxs. enough (consumed p log < issued p log)%nat by lia. apply Hp2. unfold records in Hx.
    apply lookup_insert_Some in Hx as [[Hid' <-]|[_ Hx]]; [by simpl in Hxs|exists x; auto].
Qed.

Lemma Revoke_step a permitID now saved log :
  admission_ok a → accounted a log → let '(a', _) := Admission_Revoke a permitID now saved in admission_ok a' ∧ accounted a' log.
Proof.
  intros Ha Hc. unfold Admission_Revoke. destruct (ad_records a !! permitID) as [record|] eqn:Er; [|done].
  destruct (String.eqb _ PermitConsumed); [done|]. destruct (String.eqb _ PermitRevoked); [done|].
  set (records := <[_ := _]> (ad_records a)). pose proof (commit_accounted a records saved log [] Hc) as Hac.
  destruct (ao_records a Ha _ _ Er) as (Hid & Hrv & Hrt & _). assert (admission_ok (Admission_commitLocked a records saved).1) as Hok.
  { apply admission_commit_ok; [done| |].
    - apply insert_record_ok; [apply Ha|]. split; [done|split; [done|split; [done|by right; right]]].
    - unfold records. rewrite map_size_insert, Er. apply Ha. }
  destruct (Admission_commitLocked a records saved) as [a' r]. split; [done|].
  replace log with (log ++ if is_ok r then [] else []) by (destruct (is_ok r); apply app_nil_r). apply Hac. intros p. rewrite app_nil_r.
  split; [apply Hc|]. intros x Hx Hxp Hxs. apply Hc. unfold records in Hx. apply lookup_insert_Some in Hx as [[_ <-]|[_ Hx]]; [by simpl in Hxs|exists x; auto].
Qed.

(** A restart finds what was there. *)
Lemma restart_same a saved :
  admission_ok a → LoadAdmission (ad_identity a) (ad_maxTTL a) (ad_maxRecords a) (Some (ad_disk a)) saved = Ok a.
Proof.
  intros [H1 [H2 H2'] H3 H4 H5 H6]. unfold LoadAdmission. rewrite H1, H6. simpl. unfold Second, Millisecond in *.
  rewrite (proj2 (Z.leb_gt (ad_maxTTL a) 0)), (proj2 (Z.leb_gt (ad_maxRecords a) 0)) by lia.
  rewrite (proj2 (Z.ltb_ge (ad_maxTTL a) _)), (proj2 (Z.ltb_ge (ad_maxRecords a) _)), (proj2 (Z.eqb_neq (ad_generation a) 0)) by (unfold Second, Millisecond; lia).
  simpl. rewrite load_sorted_permits by done. simpl. rewrite <- H6. by destruct a.
Qed.

Lemma LoadAdmission_fresh i maxTTL maxRecords saved a : LoadAdmission i maxTTL maxRecords (Some None) saved = Ok a → admission_ok a ∧ ad_records a = ∅.
Proof.
  unfold LoadAdmission. intros H1. apply bind_ok in H1 as [Hi H1]. apply mapErr_ok in Hi. apply fail_if_ok in H1 as [Hl H1]. simpl in H1.
  destruct saved; [|done]. simpl in H1. simplify_eq. split; [|done]. apply orb_false_iff in Hl as [Hl1%Z.ltb_ge Hl2%Z.ltb_ge].
  split; simpl; try done. rewrite map_size_empty. lia.
Qed.

Lemma reachable_accounted a log : admission_reachable a log → admission_ok a ∧ accounted a log ∧ Forall consumption_ok log.
Proof.
  induction 1 as [i maxTTL maxRecords saved a Hl|a log op a' events Hr (Ha & Hc & Hf) Ht Hs].
  - destruct (LoadAdmission_fresh _ _ _ _ _ Hl) as [Ha He]. split_and!; [done| |constructor]. intros p. split; [done|].
    intros (r & Hr & _). by rewrite He, lookup_empty in Hr.
  - destruct op as [childID key role ttl rawID now saved|childID key permit now saved|permitID now saved|saved]; simpl in Hs.
    + destruct Ht as [Ht1 Ht2]. pose proof (Issue_step a childID key role ttl rawID now saved log Ha Hc Ht1 Ht2) as Hi.
      destruct (Issue _ _ _ _ _ _ _ _) as [a1 r]. simplify_eq. destruct Hi as [Hi1 Hi2]. split_and!; [done|done|].
      apply Forall_app. split; [done|]. by destruct r; repeat constructor.
    + pose proof (Consume_step a childID key permit now saved log Ha Hc Ht) as Hi.
      destruct (Consume _ _ _ _ _ _) as [a1 r]. destruct Hi as (Hi1 & Hi2 & Hi3). destruct r as [[]|]; simplify_eq; simpl in Hi2; split_and!; try done.
      * apply Forall_app. split; [done|]. constructor; [by apply Hi3|constructor].
      * apply Forall_app. split; [done|constructor].
    + pose proof (Revoke_step a permitID now saved log Ha Hc) as Hi. destruct (Admission_Revoke _ _ _ _) as [a1 r]. simplify_eq. rewrite app_nil_r. by destruct Hi.
    + rewrite restart_same in Hs by done. simplify_eq. by rewrite app_nil_r.
Qed.

End machine.

(** ** Witness *)

Module Admission_demo.
Definition a0 : Admission := mkAdmission (Toy.identity 9) (24 * Hour) 4096 1 ∅ (Some (admission_file ∅ 1)).
Definition key : list byte := be_bytes 32 5.
Definition now : Z := 5 * Second.
Definition issue : admission_op := OpIssue 5 key "leaf" Hour (Some (be_bytes 16 1)) now true.
Definition permit : ProvisioningPermitV1 := new_permit (Toy.identity 9) 5 key "leaf" Hour (be_bytes 16 1) now.
Definition consume : admission_op := OpConsume 5 key permit (6 * Second) true.
Definition run (a : Admission) (op : admission_op) : Admission := match admission_step a op with Some (a', _) => a' | None => a end.
Definition a2 : Admission := run (run a0 issue) consume.
End Admission_demo.

Lemma step_some a op events :
  match admission_step a op with Some (_, ev) => ev = events | None => False end → admission_step a op = Some (Admission_demo.run a op, events).
Proof. unfold Admission_demo.run. by destruct (admission_step a op) as [[]|]; intros; subst. Qed.

