(* ===== verification/EnrollmentAuthority.v ===== *)
(** * The enrollment authority (runtime/auth/enrollment_authority.go)

    The authority issues permits, keeps enrollment requests, and grants node identifiers.
    Every mutation builds the next data, persists it and only then installs it
    ([commitLocked]); every method holds the lock for its whole body and is one step.

    Clock readings are arguments in nanoseconds ([now], and [now'] where a method reads the
    clock twice).  The random source is an argument: the bytes that can still be read from
    it.  [saved] is the outcome of writing enrollment-authority.json, whose contents are
    [au_disk].  Where a method iterates over a map, the order is an argument. *)

From S2P Require Import Prelude GoStd GoSort GoEncoding Wire Codec PolicySchema EnrollmentWire Identity Admission.
Open Scope Z_scope.

Inductive authority_error :=
| UIdentity (e : auth_failure) | ULimits | ULoad | UVersion | UIdentityMismatch
| UHexID | UNode (e : wire_error) | UProfile | UTTL | UReason | UPermitLimit | URequestLimit | UPendingLimit | UParentLimit | UEnrollmentLimit
| URandom | UCollision | UCreatePermit (e : enrollment_error) | UCreateGrant (e : enrollment_error)
| UGeneration | UPersist | UNotFound | UKeySize | UDigest
| UVerifyKey | UVerifyRecord (e : enrollment_error) | UVerifyAuthority | UVerifySignature
| UPermitInvalid | UPermitConsumed | UPermitRevoked
| ErrEnrollmentConflict | ErrEnrollmentPending | ErrEnrollmentRejected | ErrEnrollmentExpired | ErrEnrollmentRevoked
| UNoEnrollment | UStatus | UDuplicate | UUsedNodeID | UPermitState | URequestState | UEnrollmentState | UMismatch
| URemoteBroker | URemotePayload | URemote (message : string) | URemoteReply (code message : string).

(** ** Records *)

Record permitState := mkPermitState {
  ps_Permit : EnrollmentPermitV1; ps_Status : string; ps_IssueRequestID : string; ps_ConsumedByRequestID : string;
  ps_ConsumedAtUnixMS : Z; ps_RevokedAtUnixMS : Z; ps_Reason : string
}.
Record requestState := mkRequestState {
  rq_RequestID : string; rq_DevicePublicKey : list byte; rq_Fingerprint : string; rq_ParentNodeID : NodeID;
  rq_ParentPublicKey : list byte; rq_TranscriptDigest : string; rq_Status : string; rq_AdmissionProfile : string;
  rq_EnrollmentID : string; rq_CreatedAtUnixMS : Z; rq_UpdatedAtUnixMS : Z; rq_ExpiresAtUnixMS : Z; rq_Reason : string
}.
Record enrollmentState := mkEnrollmentState {
  es_Grant : EnrollmentGrantV1; es_Fingerprint : string; es_RequestID : string; es_Status : string;
  es_RevokedAtUnixMS : Z; es_Reason : string
}.

(** What enrollment-authority.json holds. *)
Record authorityState := mkAuthorityState {
  us_Version : Z; us_Generation : Z; us_AuthorityNodeID : NodeID; us_AuthorityPublicKey : list byte;
  us_Permits : list permitState; us_Requests : list requestState; us_Enrollments : list enrollmentState; us_UsedNodeIDs : list NodeID
}.

Record authorityData := mkData {
  d_permits : gmap string permitState; d_requests : gmap string requestState;
  d_enrollments : gmap string enrollmentState; d_usedNodeIDs : gset NodeID
}.
Definition put_permit (d : authorityData) (id : string) (r : permitState) : authorityData :=
  mkData (<[id := r]> (d_permits d)) (d_requests d) (d_enrollments d) (d_usedNodeIDs d).
Definition set_requests (d : authorityData) (requests : gmap string requestState) : authorityData :=
  mkData (d_permits d) requests (d_enrollments d) (d_usedNodeIDs d).
Definition put_request (d : authorityData) (id : string) (r : requestState) : authorityData := set_requests d (<[id := r]> (d_requests d)).
Definition put_enrollment (d : authorityData) (id : string) (r : enrollmentState) : authorityData :=
  mkData (d_permits d) (d_requests d) (<[id := r]> (d_enrollments d)) (d_usedNodeIDs d).
Definition use_node (d : authorityData) (nodeID : NodeID) : authorityData :=
  mkData (d_permits d) (d_requests d) (d_enrollments d) ({[ nodeID ]} ∪ d_usedNodeIDs d).

Record authorityConfig := mkAuthorityConfig {
  cf_MaxPermitTTL : Z; cf_PendingTTL : Z; cf_MaxPermits : Z; cf_MaxRequests : Z; cf_MaxPending : Z;
  cf_MaxPendingPerParent : Z; cf_MaxEnrollments : Z;
  cf_IsTargetDescendant : option (NodeID → NodeID → bool)
}.

Record EnrollmentAuthority := mkAuthority {
  au_identity : Identity; au_config : authorityConfig; au_generation : Z; au_data : authorityData; au_disk : option authorityState
}.

Record EnrollmentSubmission := mkSubmission {
  sb_RequestID : string; sb_DevicePublicKey : list byte; sb_ParentNodeID : NodeID; sb_ParentPublicKey : list byte;
  sb_Permit : option EnrollmentPermitV1; sb_TranscriptDigest : list byte
}.
Record EnrollmentOutcome := mkOutcome { oc_Status : string; oc_RequestID : string; oc_Grant : option EnrollmentGrantV1; oc_Reason : string }.

Definition enrollmentAuthorityStateVersion : Z := 1.

(** ** Helpers *)

Definition validateEnrollmentHexID (value : string) (size : Z) : result authority_error unit :=
  match DecodeString value with
  | None => Err UHexID
  | Some decoded => fail_if negb (blen decoded =? size) || negb (String.eqb value (ToLower value)) with UHexID ;; Ok tt
  end.

Definition parseEnrollmentNodeID (value : string) : option NodeID :=
  let '(parsed, ok) := ParseUint value in if negb ok || (parsed =? 0) then None else Some parsed.

Definition enrollmentPermitFields (p : EnrollmentPermitV1) : list (string * json_value) :=
  [("domain", JString "MFHE-PERMIT"); ("version", JInt (pm_Version p)); ("permit_id", JString (pm_PermitID p));
   ("authority_node_id", JString (pm_AuthorityNodeID p)); ("authority_public_key", JString (pm_AuthorityPublicKey p));
   ("device_public_key_fingerprint", JString (pm_DevicePublicKeyFingerprint p)); ("target_node_id", JString (pm_TargetNodeID p));
   ("allow_descendants", JBool (pm_AllowDescendants p)); ("admission_profile", JString (pm_AdmissionProfile p));
   ("issued_at_unix_ms", JInt (pm_IssuedAtUnixMS p)); ("expires_at_unix_ms", JInt (pm_ExpiresAtUnixMS p));
   ("authority_epoch", JInt (pm_AuthorityEpoch p))].
Definition enrollmentPermitMessage (p : EnrollmentPermitV1) : list byte := Marshal (enrollmentPermitFields p).

Definition enrollmentGrantFields (g : EnrollmentGrantV1) : list (string * json_value) :=
  [("domain", JString "MFHE-GRANT"); ("version", JInt (gr_Version g)); ("enrollment_id", JString (gr_EnrollmentID g));
   ("authority_node_id", JString (gr_AuthorityNodeID g)); ("authority_public_key", JString (gr_AuthorityPublicKey g));
   ("node_id", JString (gr_NodeID g)); ("device_public_key", JString (gr_DevicePublicKey g));
   ("parent_node_id", JString (gr_ParentNodeID g)); ("parent_public_key", JString (gr_ParentPublicKey g));
   ("admission_profile", JString (gr_AdmissionProfile g)); ("authority_epoch", JInt (gr_AuthorityEpoch g));
   ("issued_at_unix_ms", JInt (gr_IssuedAtUnixMS g))].
Definition enrollmentGrantMessage (g : EnrollmentGrantV1) : list byte := Marshal (enrollmentGrantFields g).

Definition sameEnrollmentPermit (l r : EnrollmentPermitV1) : bool :=
  bool_decide (enrollmentPermitMessage l = enrollmentPermitMessage r) && String.eqb (pm_Signature l) (pm_Signature r).

Definition countPendingRequests (records : gmap string requestState) : Z :=
  Z.of_nat (length (filter (λ r, rq_Status r = "pending") (map_to_list records).*2)).
Definition countPendingRequestsForParent (records : gmap string requestState) (parentNodeID : NodeID) : Z :=
  Z.of_nat (length (filter (λ r, rq_Status r = "pending" ∧ rq_ParentNodeID r = parentNodeID) (map_to_list records).*2)).

Definition set_status (r : requestState) (status reason : string) (updated : Z) : requestState :=
  mkRequestState (rq_RequestID r) (rq_DevicePublicKey r) (rq_Fingerprint r) (rq_ParentNodeID r) (rq_ParentPublicKey r)
    (rq_TranscriptDigest r) status (rq_AdmissionProfile r) (rq_EnrollmentID r) (rq_CreatedAtUnixMS r) updated (rq_ExpiresAtUnixMS r) reason.
Definition expirePendingRequest (r : requestState) : requestState := set_status r "expired" "approval window expired" (rq_ExpiresAtUnixMS r).
Definition lapsed (now : Z) (r : requestState) : bool := String.eqb (rq_Status r) "pending" && (rq_ExpiresAtUnixMS r <=? now).
(** The records after the loop, and whether one changed. *)
Definition expirePendingRequests (records : gmap string requestState) (now : Z) : gmap string requestState * bool :=
  ((λ r, if lapsed now r then expirePendingRequest r else r) <$> records, existsb (lapsed now) (map_to_list records).*2).

Section authority.
Context `{Crypto}.

Definition DevicePublicKeyFingerprint (publicKey : list byte) : string := EncodeToString (Sum256 publicKey).

Definition verify_signature (publicKey message : list byte) (signature : string) : bool :=
  Verify publicKey message (default [] (RawStd_DecodeString signature)).

Definition VerifyEnrollmentPermit (publicKey : list byte) (p : EnrollmentPermitV1) : result authority_error unit :=
  fail_if negb (blen publicKey =? PublicKeySize) with UVerifyKey ;;
  _ ← mapErr UVerifyRecord (Permit_Validate p);
  fail_if negb (String.eqb (pm_AuthorityPublicKey p) (RawStd_EncodeToString publicKey)) with UVerifyAuthority ;;
  fail_if negb (verify_signature publicKey (enrollmentPermitMessage p) (pm_Signature p)) with UVerifySignature ;;
  Ok tt.

Definition VerifyEnrollmentGrant (publicKey : list byte) (g : EnrollmentGrantV1) : result authority_error unit :=
  fail_if negb (blen publicKey =? PublicKeySize) with UVerifyKey ;;
  _ ← mapErr UVerifyRecord (Grant_Validate g);
  fail_if negb (String.eqb (gr_AuthorityPublicKey g) (RawStd_EncodeToString publicKey)) with UVerifyAuthority ;;
  fail_if negb (verify_signature publicKey (enrollmentGrantMessage g) (gr_Signature g)) with UVerifySignature ;;
  Ok tt.

(** ** Random identifiers: at most 128 attempts; the rest of the random bytes is returned *)

Fixpoint allocate_loop (attempts : nat) (used : gset NodeID) (random : list byte) : result authority_error (NodeID * list byte) :=
  match attempts with
  | O => Err UCollision
  | S attempts =>
    match ReadFull 8 random with
    | None => Err URandom
    | Some (raw, random) =>
      let candidate := Z.land (be_value raw) (Z.shiftr maxUint64 1) in
      if candidate =? 0 then allocate_loop attempts used random
      else if bool_decide (candidate ∈ used) then allocate_loop attempts used random
      else Ok (candidate, random)
    end
  end.
Definition allocateNodeIDLocked (used : gset NodeID) (random : list byte) : result authority_error (NodeID * list byte) :=
  allocate_loop 128 used random.

Fixpoint unique_loop (attempts : nat) (exists_ : string → bool) (random : list byte) : result authority_error (string * list byte) :=
  match attempts with
  | O => Err UCollision
  | S attempts =>
    match ReadFull 16 random with
    | None => Err URandom
    | Some (raw, random) =>
      let id := EncodeToString raw in
      if negb (String.eqb id (String.string_of_list_byte (replicate (length (bytes_of id)) x30))) && negb (exists_ id) then Ok (id, random)
      else unique_loop attempts exists_ random
    end
  end.
Definition newUniqueIDLocked (exists_ : string → bool) (random : list byte) : result authority_error (string * list byte) :=
  unique_loop 128 exists_ random.

(** ** Persisting *)

Definition authority_file (a : EnrollmentAuthority) (d : authorityData) (generation : Z) : authorityState :=
  mkAuthorityState enrollmentAuthorityStateVersion generation (i_NodeID (au_identity a)) (i_PublicKey (au_identity a))
    (sorted_values (d_permits d)) (sorted_values (d_requests d)) (sorted_values (d_enrollments d))
    (SortSlice Z.ltb (elements (d_usedNodeIDs d))).

(** [commitLocked] with [saveLocked]. *)
Definition Authority_commitLocked (a : EnrollmentAuthority) (next : authorityData) (saved : bool) : EnrollmentAuthority * result authority_error unit :=
  if au_generation a =? maxUint64 then (a, Err UGeneration) else
  let nextGeneration := au_generation a + 1 in
  if negb saved then (a, Err UPersist)
  else (mkAuthority (au_identity a) (au_config a) nextGeneration next (Some (authority_file a next nextGeneration)), Ok tt).

(** ** Permits *)

Definition sign_permit (i : Identity) (p : EnrollmentPermitV1) : EnrollmentPermitV1 :=
  mkPermit (pm_Version p) (pm_PermitID p) (pm_AuthorityNodeID p) (pm_AuthorityPublicKey p) (pm_DevicePublicKeyFingerprint p)
    (pm_TargetNodeID p) (pm_AllowDescendants p) (pm_AdmissionProfile p) (pm_IssuedAtUnixMS p) (pm_ExpiresAtUnixMS p) (pm_AuthorityEpoch p)
    (RawStd_EncodeToString (Sign (i_PrivateKey i) (enrollmentPermitMessage p))).

(** The first permit with the issue request, in the order of the map. *)
Definition find_issue (issueRequestID : string) (order : list (string * permitState)) : option permitState :=
  head (filter (λ r, ps_IssueRequestID r = issueRequestID) order.*2).

Definition IssuePermit (a : EnrollmentAuthority) (issueRequestID deviceFingerprint : string) (targetNodeID : NodeID) (allowDescendants : bool)
    (admissionProfile : string) (ttl : Z) (order : list (string * permitState)) (random : list byte) (now : Z) (saved : bool)
    : EnrollmentAuthority * result authority_error EnrollmentPermitV1 :=
  match (_ ← validateEnrollmentHexID issueRequestID 16;
         _ ← validateEnrollmentHexID deviceFingerprint 32;
         _ ← mapErr UNode (NodeID_Validate targetNodeID);
         fail_if String.eqb admissionProfile "" || (MaxIdentifierBytes <? strlen admissionProfile) with UProfile ;;
         fail_if (ttl <? Second) || (cf_MaxPermitTTL (au_config a) <? ttl) with UTTL ;;
         Ok tt) with
  | Err e => (a, Err e)
  | Ok _ =>
    match find_issue issueRequestID order with
    | Some record =>
      let p := ps_Permit record in
      if negb (String.eqb (pm_DevicePublicKeyFingerprint p) deviceFingerprint) || negb (String.eqb (pm_TargetNodeID p) (FormatUint targetNodeID))
         || negb (Bool.eqb (pm_AllowDescendants p) allowDescendants) || negb (String.eqb (pm_AdmissionProfile p) admissionProfile)
      then (a, Err ErrEnrollmentConflict) else (a, Ok p)
    | None =>
      if cf_MaxPermits (au_config a) <=? Z.of_nat (size (d_permits (au_data a))) then (a, Err UPermitLimit) else
      match newUniqueIDLocked (λ id, bool_decide (is_Some (d_permits (au_data a) !! id))) random with
      | Err e => (a, Err e)
      | Ok (permitID, _) =>
        let permit := sign_permit (au_identity a)
          (mkPermit SchemaVersionV1 permitID (FormatUint (i_NodeID (au_identity a))) (RawStd_EncodeToString (i_PublicKey (au_identity a)))
             deviceFingerprint (FormatUint targetNodeID) allowDescendants admissionProfile (UnixMilli now) (UnixMilli (now + ttl))
             (u64 (au_generation a + 1)) "") in
        match Permit_Validate permit with
        | Err e => (a, Err (UCreatePermit e))
        | Ok _ =>
          let '(a', r) := Authority_commitLocked a
            (put_permit (au_data a) (pm_PermitID permit) (mkPermitState permit "active" issueRequestID "" 0 0 "")) saved in
          (a', _ ← r; Ok permit)
        end
      end
    end
  end.

Definition consumePermitLocked (a : EnrollmentAuthority) (next : authorityData) (permit : EnrollmentPermitV1) (parentNodeID : NodeID)
    (fingerprint : string) (now : Z) : result authority_error permitState :=
  _ ← VerifyEnrollmentPermit (i_PublicKey (au_identity a)) permit;
  match d_permits next !! pm_PermitID permit with
  | None => Err UPermitInvalid
  | Some record =>
    fail_if negb (sameEnrollmentPermit (ps_Permit record) permit) with UPermitInvalid ;;
    fail_if String.eqb (ps_Status record) "consumed" with UPermitConsumed ;;
    fail_if String.eqb (ps_Status record) "revoked" with UPermitRevoked ;;
    fail_if (now <? pm_IssuedAtUnixMS permit) || (pm_ExpiresAtUnixMS permit <=? now) with UPermitInvalid ;;
    fail_if negb (String.eqb (pm_DevicePublicKeyFingerprint permit) fingerprint) with UPermitInvalid ;;
    match parseEnrollmentNodeID (pm_TargetNodeID permit) with
    | None => Err UPermitInvalid
    | Some target =>
      let allowed := (target =? parentNodeID)
        || (pm_AllowDescendants permit && match cf_IsTargetDescendant (au_config a) with Some f => f target parentNodeID | None => false end) in
      fail_if negb allowed with UPermitInvalid ;;
      Ok record
    end
  end.

(** ** Grants *)

Definition sign_grant (i : Identity) (g : EnrollmentGrantV1) : EnrollmentGrantV1 :=
  mkGrant (gr_Version g) (gr_EnrollmentID g) (gr_AuthorityNodeID g) (gr_AuthorityPublicKey g) (gr_NodeID g) (gr_DevicePublicKey g)
    (gr_ParentNodeID g) (gr_ParentPublicKey g) (gr_AdmissionProfile g) (gr_AuthorityEpoch g) (gr_IssuedAtUnixMS g)
    (RawStd_EncodeToString (Sign (i_PrivateKey i) (enrollmentGrantMessage g))).

Definition approve_request (r : requestState) (profile enrollmentID : string) (now : Z) : requestState :=
  mkRequestState (rq_RequestID r) (rq_DevicePublicKey r) (rq_Fingerprint r) (rq_ParentNodeID r) (rq_ParentPublicKey r)
    (rq_TranscriptDigest r) "approved" profile enrollmentID (rq_CreatedAtUnixMS r) now (rq_ExpiresAtUnixMS r) "".

(** The grant and the data with the approved request, the enrollment and the node identifier. *)
Definition grantLocked (a : EnrollmentAuthority) (next : authorityData) (request : requestState) (profile : string) (now : Z) (random : list byte)
    : result authority_error (EnrollmentGrantV1 * authorityData) :=
  fail_if cf_MaxEnrollments (au_config a) <=? Z.of_nat (size (d_enrollments next)) with UEnrollmentLimit ;;
  '(nodeID, random) ← allocateNodeIDLocked (d_usedNodeIDs next) random;
  '(enrollmentID, _) ← newUniqueIDLocked (λ id, bool_decide (is_Some (d_enrollments next !! id))) random;
  let grant := sign_grant (au_identity a)
    (mkGrant SchemaVersionV1 enrollmentID (FormatUint (i_NodeID (au_identity a))) (RawStd_EncodeToString (i_PublicKey (au_identity a)))
       (FormatUint nodeID) (RawStd_EncodeToString (rq_DevicePublicKey request)) (FormatUint (rq_ParentNodeID request))
       (RawStd_EncodeToString (rq_ParentPublicKey request)) profile (u64 (au_generation a + 1)) now "") in
  _ ← mapErr UCreateGrant (Grant_Validate grant);
  let d := put_request next (rq_RequestID request) (approve_request request profile enrollmentID now) in
  let d := put_enrollment d enrollmentID (mkEnrollmentState grant (rq_Fingerprint request) (rq_RequestID request) "active" 0 "") in
  Ok (grant, use_node d nodeID).

Definition set_transcript (r : requestState) (transcript : string) : requestState :=
  mkRequestState (rq_RequestID r) (rq_DevicePublicKey r) (rq_Fingerprint r) (rq_ParentNodeID r) (rq_ParentPublicKey r)
    transcript (rq_Status r) (rq_AdmissionProfile r) (rq_EnrollmentID r) (rq_CreatedAtUnixMS r) (rq_UpdatedAtUnixMS r) (rq_ExpiresAtUnixMS r) (rq_Reason r).

Definition grantSubmissionWithPermitLocked (a : EnrollmentAuthority) (next : authorityData) (permit : EnrollmentPermitV1)
    (submission : EnrollmentSubmission) (request : requestState) (fingerprint transcript : string) (now : Z) (random : list byte)
    : result authority_error (EnrollmentGrantV1 * authorityData) :=
  permitRecord ← consumePermitLocked a next permit (sb_ParentNodeID submission) fingerprint now;
  '(grant, next) ← grantLocked a next (set_transcript request transcript) (pm_AdmissionProfile (ps_Permit permitRecord)) now random;
  let permitRecord := mkPermitState (ps_Permit permitRecord) "consumed" (ps_IssueRequestID permitRecord) (sb_RequestID submission) now
                        (ps_RevokedAtUnixMS permitRecord) (ps_Reason permitRecord) in
  Ok (grant, put_permit next (pm_PermitID (ps_Permit permitRecord)) permitRecord).

(** ** Requests *)

Definition validateEnrollmentSubmission (s : EnrollmentSubmission) : result authority_error unit :=
  _ ← validateEnrollmentHexID (sb_RequestID s) 16;
  fail_if negb (blen (sb_DevicePublicKey s) =? PublicKeySize) with UKeySize ;;
  _ ← mapErr UNode (NodeID_Validate (sb_ParentNodeID s));
  fail_if negb (blen (sb_ParentPublicKey s) =? PublicKeySize) with UKeySize ;;
  fail_if bool_decide (sb_TranscriptDigest s = replicate 32 x00) with UDigest ;;
  Ok tt.

Definition outcomeForRequestLocked (a : EnrollmentAuthority) (request : requestState) : result authority_error EnrollmentOutcome :=
  if String.eqb (rq_Status request) "pending" then Ok (mkOutcome "pending" (rq_RequestID request) None "")
  else if String.eqb (rq_Status request) "rejected" then Ok (mkOutcome "rejected" (rq_RequestID request) None (rq_Reason request))
  else if String.eqb (rq_Status request) "expired" then Ok (mkOutcome "rejected" (rq_RequestID request) None "enrollment request expired")
  else if String.eqb (rq_Status request) "approved" then
    match d_enrollments (au_data a) !! rq_EnrollmentID request with
    | None => Err UNoEnrollment
    | Some record =>
      fail_if String.eqb (es_Status record) "revoked" with ErrEnrollmentRevoked ;;
      Ok (mkOutcome "granted" (rq_RequestID request) (Some (es_Grant record)) "")
    end
  else Err UStatus.

(** The same device behind the same parent. *)
Definition same_origin (fingerprint : string) (submission : EnrollmentSubmission) (r : requestState) : bool :=
  String.eqb (rq_Fingerprint r) fingerprint && (rq_ParentNodeID r =? sb_ParentNodeID submission)
  && bool_decide (rq_ParentPublicKey r = sb_ParentPublicKey submission).

(** Granting with the permit, committing, and the outcome: the end of three branches. *)
Definition submit_granted (a : EnrollmentAuthority) (next : authorityData) (permit : EnrollmentPermitV1) (submission : EnrollmentSubmission)
    (request : requestState) (fingerprint transcript : string) (now : Z) (random : list byte) (saved : bool)
    : EnrollmentAuthority * result authority_error EnrollmentOutcome :=
  match grantSubmissionWithPermitLocked a next permit submission request fingerprint transcript now random with
  | Err e => (a, Err e)
  | Ok (grant, next) =>
    let '(a', r) := Authority_commitLocked a next saved in
    (a', _ ← r; Ok (mkOutcome "granted" (sb_RequestID submission) (Some grant) ""))
  end.

(** Committing expired requests, if there are any, and the outcome of an existing one. *)
Definition submit_existing (a : EnrollmentAuthority) (next : authorityData) (expiredChanged : bool) (existing : requestState) (saved : bool)
    : EnrollmentAuthority * result authority_error EnrollmentOutcome :=
  let '(a', r) := if expiredChanged then Authority_commitLocked a next saved else (a, Ok tt) in
  (a', _ ← r; outcomeForRequestLocked a' existing).

(** The first request of the device that is pending or approved, in the order of the map. *)
Definition find_request (fingerprint : string) (submission : EnrollmentSubmission) (order : list (string * requestState)) : option requestState :=
  head (filter (λ r, same_origin fingerprint submission r && (String.eqb (rq_Status r) "pending" || String.eqb (rq_Status r) "approved") = true) order.*2).

Definition new_request (a : EnrollmentAuthority) (s : EnrollmentSubmission) (fingerprint transcript : string) (now : Z) : requestState :=
  mkRequestState (sb_RequestID s) (sb_DevicePublicKey s) fingerprint (sb_ParentNodeID s) (sb_ParentPublicKey s) transcript "pending" "" ""
    now now (UnixMilli (now * Millisecond + cf_PendingTTL (au_config a))) "".

(** The requests as [Submit] sees them. *)
Definition submit_data (a : EnrollmentAuthority) (now : Z) : authorityData :=
  set_requests (au_data a) (expirePendingRequests (d_requests (au_data a)) (UnixMilli now)).1.

Definition Submit (a : EnrollmentAuthority) (s : EnrollmentSubmission) (order : list (string * requestState)) (random : list byte) (now : Z) (saved : bool)
    : EnrollmentAuthority * result authority_error EnrollmentOutcome :=
  match validateEnrollmentSubmission s with
  | Err e => (a, Err e)
  | Ok _ =>
    let fingerprint := DevicePublicKeyFingerprint (sb_DevicePublicKey s) in
    let transcript := EncodeToString (sb_TranscriptDigest s) in
    let ms := UnixMilli now in
    let next := submit_data a now in
    let expiredChanged := (expirePendingRequests (d_requests (au_data a)) ms).2 in
    match d_requests next !! sb_RequestID s with
    | Some existing =>
      if negb (same_origin fingerprint s existing) then (a, Err ErrEnrollmentConflict) else
      match sb_Permit s with
      | Some permit =>
        if negb (String.eqb (rq_Status existing) "approved") then submit_granted a next permit s existing fingerprint transcript ms random saved
        else submit_existing a next expiredChanged existing saved
      | None => submit_existing a next expiredChanged existing saved
      end
    | None =>
      match find_request fingerprint s order with
      | Some existing =>
        match sb_Permit s with
        | Some permit =>
          if String.eqb (rq_Status existing) "pending" then submit_granted a next permit s existing fingerprint transcript ms random saved
          else let '(a', r) := submit_existing a next expiredChanged existing saved in
               (a', o ← r; Ok (mkOutcome (oc_Status o) (sb_RequestID s) (oc_Grant o) (oc_Reason o)))
        | None => let '(a', r) := submit_existing a next expiredChanged existing saved in
                  (a', o ← r; Ok (mkOutcome (oc_Status o) (sb_RequestID s) (oc_Grant o) (oc_Reason o)))
        end
      | None =>
        let request := new_request a s fingerprint transcript ms in
        if cf_MaxRequests (au_config a) <=? Z.of_nat (size (d_requests next)) then (a, Err URequestLimit) else
        match sb_Permit s with
        | None =>
          if cf_MaxPending (au_config a) <=? countPendingRequests (d_requests next) then (a, Err UPendingLimit) else
          if cf_MaxPendingPerParent (au_config a) <=? countPendingRequestsForParent (d_requests next) (sb_ParentNodeID s) then (a, Err UParentLimit) else
          let '(a', r) := Authority_commitLocked a (put_request next (sb_RequestID s) request) saved in
          (a', _ ← r; Ok (mkOutcome "pending" (sb_RequestID s) None ""))
        | Some permit => submit_granted a next permit s request fingerprint transcript ms random saved
        end
      end
    end
  end.

(** ** Decisions *)

(** The end of [Approve] and [Reject] on a request whose time is over. *)
Definition decide_expired {A} (a : EnrollmentAuthority) (id : string) (request : requestState) (saved : bool) : EnrollmentAuthority * result authority_error A :=
  if String.eqb (rq_Status request) "pending" then
    let '(a', r) := Authority_commitLocked a (put_request (au_data a) id (expirePendingRequest request)) saved in
    (a', _ ← r; Err ErrEnrollmentExpired)
  else (a, Err ErrEnrollmentExpired).
Definition is_expired (now : Z) (request : requestState) : bool := String.eqb (rq_Status request) "expired" || lapsed (UnixMilli now) request.

Definition Approve (a : EnrollmentAuthority) (commandRequestID enrollmentRequestID admissionProfile : string) (random : list byte) (now now' : Z) (saved : bool)
    : EnrollmentAuthority * result authority_error EnrollmentGrantV1 :=
  match (_ ← validateEnrollmentHexID commandRequestID 16;
         _ ← validateEnrollmentHexID enrollmentRequestID 16;
         fail_if String.eqb admissionProfile "" || (MaxIdentifierBytes <? strlen admissionProfile) with UProfile ;;
         Ok tt) with
  | Err e => (a, Err e)
  | Ok _ =>
    match d_requests (au_data a) !! enrollmentRequestID with
    | None => (a, Err UNotFound)
    | Some request =>
      if String.eqb (rq_Status request) "approved" then
        match d_enrollments (au_data a) !! rq_EnrollmentID request with
        | None => (a, Err ErrEnrollmentRevoked)
        | Some record => if negb (String.eqb (es_Status record) "active") then (a, Err ErrEnrollmentRevoked) else (a, Ok (es_Grant record))
        end
      else if String.eqb (rq_Status request) "rejected" then (a, Err ErrEnrollmentRejected)
      else if is_expired now request then decide_expired a enrollmentRequestID request saved
      else if negb (String.eqb (rq_Status request) "pending") then (a, Err ErrEnrollmentConflict)
      else
        match grantLocked a (au_data a) request admissionProfile (UnixMilli now') random with
        | Err e => (a, Err e)
        | Ok (grant, next) => let '(a', r) := Authority_commitLocked a next saved in (a', _ ← r; Ok grant)
        end
    end
  end.

Definition Reject (a : EnrollmentAuthority) (commandRequestID enrollmentRequestID reason : string) (now now' : Z) (saved : bool)
    : EnrollmentAuthority * result authority_error unit :=
  match (_ ← validateEnrollmentHexID commandRequestID 16;
         _ ← validateEnrollmentHexID enrollmentRequestID 16;
         fail_if String.eqb reason "" || (MaxLabelBytes <? strlen reason) with UReason ;;
         Ok tt) with
  | Err e => (a, Err e)
  | Ok _ =>
    match d_requests (au_data a) !! enrollmentRequestID with
    | None => (a, Err UNotFound)
    | Some request =>
      if String.eqb (rq_Status request) "rejected" then (a, Ok tt)
      else if is_expired now request then decide_expired a enrollmentRequestID request saved
      else if negb (String.eqb (rq_Status request) "pending") then (a, Err ErrEnrollmentConflict)
      else Authority_commitLocked a (put_request (au_data a) enrollmentRequestID (set_status request "rejected" reason (UnixMilli now'))) saved
    end
  end.

Definition RevokePermit (a : EnrollmentAuthority) (commandRequestID permitID reason : string) (now : Z) (saved : bool)
    : EnrollmentAuthority * result authority_error unit :=
  match (_ ← validateEnrollmentHexID commandRequestID 16;
         _ ← validateEnrollmentHexID permitID 16;
         fail_if String.eqb reason "" || (MaxLabelBytes <? strlen reason) with UReason ;;
         Ok tt) with
  | Err e => (a, Err e)
  | Ok _ =>
    match d_permits (au_data a) !! permitID with
    | None => (a, Err UNotFound)
    | Some record =>
      if String.eqb (ps_Status record) "revoked" then (a, Ok tt)
      else if String.eqb (ps_Status record) "consumed" then (a, Err UPermitConsumed)
      else Authority_commitLocked a (put_permit (au_data a) permitID
             (mkPermitState (ps_Permit record) "revoked" (ps_IssueRequestID record) (ps_ConsumedByRequestID record)
                (ps_ConsumedAtUnixMS record) (UnixMilli now) reason)) saved
    end
  end.

Definition RevokeEnrollment (a : EnrollmentAuthority) (commandRequestID enrollmentID reason : string) (now : Z) (saved : bool)
    : EnrollmentAuthority * result authority_error NodeID :=
  match (_ ← validateEnrollmentHexID commandRequestID 16;
         _ ← validateEnrollmentHexID enrollmentID 16;
         fail_if String.eqb reason "" || (MaxLabelBytes <? strlen reason) with UReason ;;
         Ok tt) with
  | Err e => (a, Err e)
  | Ok _ =>
    match d_enrollments (au_data a) !! enrollmentID with
    | None => (a, Err UNotFound)
    | Some record =>
      let nodeID := default 0 (parseEnrollmentNodeID (gr_NodeID (es_Grant record))) in
      if String.eqb (es_Status record) "revoked" then (a, Ok nodeID)
      else let '(a', r) := Authority_commitLocked a (put_enrollment (au_data a) enrollmentID
             (mkEnrollmentState (es_Grant record) (es_Fingerprint record) (es_RequestID record) "revoked" (UnixMilli now) reason)) saved in
           (a', _ ← r; Ok nodeID)
    end
  end.

(** ** Queries *)

Definition Permits (a : EnrollmentAuthority) (order : list (string * permitState)) : list permitState :=
  SortSlice (λ l r, str_ltb (pm_PermitID (ps_Permit l)) (pm_PermitID (ps_Permit r))) order.*2.
Definition Requests (a : EnrollmentAuthority) (order : list (string * requestState)) (now : Z) : list requestState :=
  SortSlice (λ l r, str_ltb (rq_RequestID l) (rq_RequestID r))
    ((λ r, if lapsed (UnixMilli now) r then expirePendingRequest r else r) <$> order.*2).
Definition Enrollments (a : EnrollmentAuthority) (order : list (string * enrollmentState)) : list enrollmentState :=
  SortSlice (λ l r, str_ltb (gr_EnrollmentID (es_Grant l)) (gr_EnrollmentID (es_Grant r))) order.*2.

Definition GrantForRequest (a : EnrollmentAuthority) (requestID : string) (now : Z) : result authority_error EnrollmentGrantV1 :=
  match d_requests (au_data a) !! requestID with
  | None => Err UNotFound
  | Some request =>
    fail_if lapsed (UnixMilli now) request with ErrEnrollmentExpired ;;
    outcome ← outcomeForRequestLocked a request;
    match oc_Grant outcome with None => Err ErrEnrollmentPending | Some grant => Ok grant end
  end.

(** ** Loading *)

Fixpoint load_used (used : gset NodeID) (l : list NodeID) : result authority_error (gset NodeID) :=
  match l with
  | [] => Ok used
  | nodeID :: rest =>
    _ ← mapErr UNode (NodeID_Validate nodeID);
    fail_if bool_decide (nodeID ∈ used) with UDuplicate ;;
    load_used ({[ nodeID ]} ∪ used) rest
  end.

(** The checks on one permit of the file. *)
Definition check_permit (publicKey : list byte) (r : permitState) : result authority_error unit :=
  _ ← VerifyEnrollmentPermit publicKey (ps_Permit r);
  _ ← validateEnrollmentHexID (ps_IssueRequestID r) 16;
  if String.eqb (ps_Status r) "active" then
    fail_if negb (String.eqb (ps_ConsumedByRequestID r) "") || negb (ps_ConsumedAtUnixMS r =? 0) || negb (ps_RevokedAtUnixMS r =? 0)
         || negb (String.eqb (ps_Reason r) "") with UPermitState ;; Ok tt
  else if String.eqb (ps_Status r) "consumed" then
    _ ← validateEnrollmentHexID (ps_ConsumedByRequestID r) 16;
    fail_if (ps_ConsumedAtUnixMS r <=? 0) || negb (ps_RevokedAtUnixMS r =? 0) || negb (String.eqb (ps_Reason r) "") with UPermitState ;; Ok tt
  else if String.eqb (ps_Status r) "revoked" then
    fail_if (ps_RevokedAtUnixMS r <=? 0) || String.eqb (ps_Reason r) "" || negb (String.eqb (ps_ConsumedByRequestID r) "")
         || negb (ps_ConsumedAtUnixMS r =? 0) with UPermitState ;; Ok tt
  else Err UStatus.
Fixpoint load_authority_permits (publicKey : list byte) (m : gmap string permitState) (l : list permitState)
    : result authority_error (gmap string permitState) :=
  match l with
  | [] => Ok m
  | r :: rest =>
    _ ← check_permit publicKey r;
    fail_if bool_decide (is_Some (m !! pm_PermitID (ps_Permit r))) with UDuplicate ;;
    load_authority_permits publicKey (<[pm_PermitID (ps_Permit r) := r]> m) rest
  end.

Definition validateEnrollmentRequestState (r : requestState) : result authority_error unit :=
  _ ← validateEnrollmentHexID (rq_RequestID r) 16;
  fail_if negb (blen (rq_DevicePublicKey r) =? PublicKeySize)
       || negb (String.eqb (DevicePublicKeyFingerprint (rq_DevicePublicKey r)) (rq_Fingerprint r)) with UKeySize ;;
  _ ← mapErr UNode (NodeID_Validate (rq_ParentNodeID r));
  fail_if negb (blen (rq_ParentPublicKey r) =? PublicKeySize) with UKeySize ;;
  _ ← validateEnrollmentHexID (rq_TranscriptDigest r) 32;
  fail_if negb (String.eqb (rq_Status r) "pending") && negb (String.eqb (rq_Status r) "approved")
       && negb (String.eqb (rq_Status r) "rejected") && negb (String.eqb (rq_Status r) "expired") with UStatus ;;
  fail_if (rq_CreatedAtUnixMS r <=? 0) || (rq_UpdatedAtUnixMS r <? rq_CreatedAtUnixMS r) || (rq_ExpiresAtUnixMS r <=? rq_CreatedAtUnixMS r)
    with URequestState ;;
  if String.eqb (rq_Status r) "pending" then
    fail_if negb (String.eqb (rq_AdmissionProfile r) "") || negb (String.eqb (rq_EnrollmentID r) "") || negb (String.eqb (rq_Reason r) "")
      with URequestState ;; Ok tt
  else if String.eqb (rq_Status r) "approved" then
    fail_if String.eqb (rq_AdmissionProfile r) "" || (MaxIdentifierBytes <? strlen (rq_AdmissionProfile r)) with URequestState ;;
    _ ← validateEnrollmentHexID (rq_EnrollmentID r) 16;
    fail_if negb (String.eqb (rq_Reason r) "") with URequestState ;; Ok tt
  else
    fail_if negb (String.eqb (rq_AdmissionProfile r) "") || negb (String.eqb (rq_EnrollmentID r) "") || String.eqb (rq_Reason r) ""
      with URequestState ;; Ok tt.
Fixpoint load_requests (m : gmap string requestState) (l : list requestState) : result authority_error (gmap string requestState) :=
  match l with
  | [] => Ok m
  | r :: rest =>
    _ ← validateEnrollmentRequestState r;
    fail_if bool_decide (is_Some (m !! rq_RequestID r)) with UDuplicate ;;
    load_requests (<[rq_RequestID r := r]> m) rest
  end.

(** The checks on one enrollment of the file, the duplicate check apart. *)
Definition check_enrollment (publicKey : list byte) (r : enrollmentState) : result authority_error unit :=
  _ ← VerifyEnrollmentGrant publicKey (es_Grant r);
  fail_if negb (String.eqb (es_Status r) "active") && negb (String.eqb (es_Status r) "revoked") with UStatus ;;
  _ ← validateEnrollmentHexID (es_RequestID r) 16;
  fail_if negb (String.eqb (es_Fingerprint r)
                  (DevicePublicKeyFingerprint (default [] (RawStd_DecodeString (gr_DevicePublicKey (es_Grant r)))))) with UEnrollmentState ;;
  fail_if String.eqb (es_Status r) "active" && (negb (es_RevokedAtUnixMS r =? 0) || negb (String.eqb (es_Reason r) "")) with UEnrollmentState ;;
  fail_if String.eqb (es_Status r) "revoked" && ((es_RevokedAtUnixMS r <=? 0) || String.eqb (es_Reason r) "") with UEnrollmentState ;;
  Ok tt.
Fixpoint load_enrollments (publicKey : list byte) (used : gset NodeID) (m : gmap string enrollmentState) (l : list enrollmentState)
    : result authority_error (gmap string enrollmentState) :=
  match l with
  | [] => Ok m
  | r :: rest =>
    _ ← check_enrollment publicKey r;
    fail_if bool_decide (is_Some (m !! gr_EnrollmentID (es_Grant r))) with UDuplicate ;;
    fail_if negb (bool_decide (default 0 (parseEnrollmentNodeID (gr_NodeID (es_Grant r))) ∈ used)) with UUsedNodeID ;;
    load_enrollments publicKey used (<[gr_EnrollmentID (es_Grant r) := r]> m) rest
  end.

(** An enrollment belongs to an approved request, and the other way round. *)
Definition enrollment_matched (requests : gmap string requestState) (entry : string * enrollmentState) : bool :=
  match requests !! es_RequestID entry.2 with
  | None => false
  | Some request => String.eqb (rq_Status request) "approved" && String.eqb (rq_EnrollmentID request) entry.1
  end.
Definition request_matched (enrollments : gmap string enrollmentState) (entry : string * requestState) : bool :=
  let request := entry.2 in
  negb (String.eqb (rq_Status request) "approved") ||
  match enrollments !! rq_EnrollmentID request with
  | None => false
  | Some e =>
    String.eqb (es_RequestID e) entry.1 && String.eqb (es_Fingerprint e) (rq_Fingerprint request)
    && String.eqb (gr_AdmissionProfile (es_Grant e)) (rq_AdmissionProfile request)
    && String.eqb (gr_ParentNodeID (es_Grant e)) (FormatUint (rq_ParentNodeID request))
    && String.eqb (gr_ParentPublicKey (es_Grant e)) (RawStd_EncodeToString (rq_ParentPublicKey request))
  end.

Definition enrollmentAuthorityDataFromState (state : authorityState) (publicKey : list byte) : result authority_error authorityData :=
  used ← load_used ∅ (us_UsedNodeIDs state);
  fail_if negb (bool_decide (us_AuthorityNodeID state ∈ used)) with UUsedNodeID ;;
  permits ← load_authority_permits publicKey ∅ (us_Permits state);
  requests ← load_requests ∅ (us_Requests state);
  enrollments ← load_enrollments publicKey used ∅ (us_Enrollments state);
  fail_if negb (forallb (enrollment_matched requests) (map_to_list enrollments)) with UMismatch ;;
  fail_if negb (forallb (request_matched enrollments) (map_to_list requests)) with UMismatch ;;
  Ok (mkData permits requests enrollments used).

(** The configuration with its defaults. *)
Definition authority_defaults (c : authorityConfig) : authorityConfig :=
  let orElse v d := if v <=? 0 then d else v in
  let maxRequests := orElse (cf_MaxRequests c) 100000 in
  let maxPending := orElse (cf_MaxPending c) (Z.min 1024 maxRequests) in
  mkAuthorityConfig (orElse (cf_MaxPermitTTL c) (24 * Hour)) (orElse (cf_PendingTTL c) (24 * Hour)) (orElse (cf_MaxPermits c) 10000)
    maxRequests maxPending (orElse (cf_MaxPendingPerParent c) (Z.min 128 maxPending)) (orElse (cf_MaxEnrollments c) 100000)
    (cf_IsTargetDescendant c).

Definition fresh_authority_file (i : Identity) : authorityState :=
  mkAuthorityState enrollmentAuthorityStateVersion 1 (i_NodeID i) (i_PublicKey i) [] [] [] [i_NodeID i].

(** [loaded]: the contents of the file, if there is one; the outer [None] is a load error. *)
Definition LoadEnrollmentAuthority (i : Identity) (config : authorityConfig) (loaded : option (option authorityState)) (saved : bool)
    : result authority_error EnrollmentAuthority :=
  _ ← mapErr UIdentity (Identity_Validate i);
  let c := authority_defaults config in
  fail_if (cf_MaxPermitTTL c <? Second) || (cf_PendingTTL c <? Second) || (cf_MaxPermits c <? 1) || (cf_MaxRequests c <? 1)
       || (cf_MaxPending c <? 1) || (cf_MaxPendingPerParent c <? 1) || (cf_MaxPending c <? cf_MaxPendingPerParent c)
       || (cf_MaxRequests c <? cf_MaxPending c) || (cf_MaxEnrollments c <? 1) with ULimits ;;
  match loaded with
  | None => Err ULoad
  | Some file =>
    let state := default (fresh_authority_file i) file in
    fail_if negb (us_Version state =? enrollmentAuthorityStateVersion) || (us_Generation state =? 0) with UVersion ;;
    fail_if negb (us_AuthorityNodeID state =? i_NodeID i) || negb (bool_decide (us_AuthorityPublicKey state = i_PublicKey i)) with UIdentityMismatch ;;
    data ← enrollmentAuthorityDataFromState state (i_PublicKey i);
    let a := mkAuthority i c (us_Generation state) data file in
    match file with
    | Some _ => Ok a
    | None => fail_if negb saved with UPersist ;; Ok (mkAuthority i c (us_Generation state) data (Some (authority_file a data (us_Generation state))))
    end
  end.
End authority.
