(* ===== verification/EnrollmentTheory.v ===== *)
(** * The enrollment authority: invariants, restarts, single use, findings

    [authority_ok] says that the data passes every check made when the file is loaded, that
    node identifiers are unique, and that the limits hold; every operation keeps it as long
    as the clock does not run backwards. *)

From S2P Require Import Prelude GoStd GoSort GoEncoding Wire Codec PolicySchema EnrollmentWire Identity Admission EnrollmentAuthority.
Open Scope Z_scope.

(** ** Identifiers *)

Lemma hexID_of_bytes l n : blen l = n → validateEnrollmentHexID (EncodeToString l) n = Ok tt.
Proof.
  intros <-. unfold validateEnrollmentHexID, DecodeString, EncodeToString, ToLower. rewrite !bytes_of_string_of, hex_decode_encode, Z.eqb_refl.
  rewrite lower_hex_encode, String.eqb_refl. done.
Qed.

Lemma parse_FormatUint n : 0 < n ≤ maxUint64 → parseEnrollmentNodeID (FormatUint n) = Some n.
Proof.
  intros Hn. unfold parseEnrollmentNodeID. rewrite ParseUint_FormatUint by (unfold is_u64; lia).
  by rewrite (proj2 (Z.eqb_neq n 0)) by lia.
Qed.

Lemma allocate_loop_ok attempts used random n rest :
  allocate_loop attempts used random = Ok (n, rest) → 0 < n ≤ maxInt ∧ n ∉ used.
Proof.
  revert random. induction attempts as [|k IH]; intros random Ha; [done|]. cbn [allocate_loop] in Ha.
  destruct (ReadFull 8 random) as [[raw r]|] eqn:Er; [|done]. apply ReadFull_Some in Er as [-> Hl].
  set (c := Z.land (be_value raw) (Z.shiftr maxUint64 1)) in *. destruct (Z.eqb_spec c 0); [by eapply IH|].
  case_bool_decide as Hu; [by eapply IH|]. injection Ha as <- <-. split; [|done].
  pose proof (be_value_range raw). assert (c = be_value raw `mod` 2 ^ 63) as Hc by (unfold c; apply (Z.land_ones _ 63); lia).
  pose proof (Z.mod_pos_bound (be_value raw) (2 ^ 63)). unfold maxInt. lia.
Qed.

Lemma unique_loop_ok attempts f random id rest :
  unique_loop attempts f random = Ok (id, rest) → f id = false ∧ ∃ raw, id = EncodeToString raw ∧ blen raw = 16.
Proof.
  revert random. induction attempts as [|k IH]; intros random Ha; [done|]. cbn [unique_loop] in Ha.
  destruct (ReadFull 16 random) as [[raw r]|] eqn:Er; [|done]. apply ReadFull_Some in Er as [-> Hl].
  destruct (_ && _) eqn:Eb; [|by eapply IH]. injection Ha as <- <-. apply andb_true_iff in Eb as [_ Eb]. apply negb_true_iff in Eb.
  split; [done|]. exists raw. split; [done|]. unfold blen. lia.
Qed.

Lemma allocate_ok used random n rest : allocateNodeIDLocked used random = Ok (n, rest) → 0 < n ≤ maxInt ∧ n ∉ used.
Proof. unfold allocateNodeIDLocked. generalize 128%nat. intros k. apply allocate_loop_ok. Qed.
Lemma unique_ok f random id rest : newUniqueIDLocked f random = Ok (id, rest) → f id = false ∧ validateEnrollmentHexID id 16 = Ok tt.
Proof.
  unfold newUniqueIDLocked. generalize 128%nat. intros k Hu. apply unique_loop_ok in Hu as [Hf (raw & -> & Hraw)].
  split; [done|by apply hexID_of_bytes].
Qed.

(** ** Signatures over permits and grants *)

Definition permit_ints (p : EnrollmentPermitV1) : Prop :=
  is_i64 (pm_Version p) ∧ is_i64 (pm_IssuedAtUnixMS p) ∧ is_i64 (pm_ExpiresAtUnixMS p) ∧ is_u64 (pm_AuthorityEpoch p).
Definition grant_ints (g : EnrollmentGrantV1) : Prop :=
  is_i64 (gr_Version g) ∧ is_u64 (gr_AuthorityEpoch g) ∧ is_i64 (gr_IssuedAtUnixMS g).

Lemma permit_fields_ok p : Permit_Validate p = Ok tt → permit_ints p → Forall (λ f, json_wf f.2) (enrollmentPermitFields p).
Proof.
  intros Hv (H1 & H2 & H3 & H4). unfold Permit_Validate, validateEd25519PublicKey in Hv.
  repeat (apply bind_ok in Hv as [? Hv]). apply fail_if_ok in Hv as [_ Hv]. apply fail_if_ok in Hv as [_ Hv].
  unfold enrollmentPermitFields. json_fields_wf.
Qed.
Lemma grant_fields_ok g : Grant_Validate g = Ok tt → grant_ints g → Forall (λ f, json_wf f.2) (enrollmentGrantFields g).
Proof.
  intros Hv (H1 & H2 & H3). unfold Grant_Validate, validateEd25519PublicKey in Hv.
  repeat (apply bind_ok in Hv as [? Hv]). apply fail_if_ok in Hv as [_ Hv].
  unfold enrollmentGrantFields. json_fields_wf.
Qed.

Lemma enrollmentPermitMessage_inj p q :
  Permit_Validate p = Ok tt → Permit_Validate q = Ok tt → permit_ints p → permit_ints q →
  enrollmentPermitMessage p = enrollmentPermitMessage q → pm_Signature p = pm_Signature q → p = q.
Proof.
  intros Hp Hq Tp Tq Hm Hs. apply marshal_inj in Hm; [|repeat constructor|by apply permit_fields_ok..].
  destruct p, q. unfold enrollmentPermitFields in Hm. simpl in *. by simplify_eq.
Qed.
Lemma enrollmentGrantMessage_inj p q :
  Grant_Validate p = Ok tt → Grant_Validate q = Ok tt → grant_ints p → grant_ints q →
  enrollmentGrantMessage p = enrollmentGrantMessage q → gr_Signature p = gr_Signature q → p = q.
Proof.
  intros Hp Hq Tp Tq Hm Hs. apply marshal_inj in Hm; [|repeat constructor|by apply grant_fields_ok..].
  destruct p, q. unfold enrollmentGrantFields in Hm. simpl in *. by simplify_eq.
Qed.

(** The first bytes of a signed text name its kind. *)
Lemma permit_grant_messages_differ p g : enrollmentPermitMessage p ≠ enrollmentGrantMessage g.
Proof.
  unfold enrollmentPermitMessage, enrollmentGrantMessage, Marshal. intros E. apply (f_equal (take 18)) in E. by vm_compute in E.
Qed.

Section theory.
Context `{CryptoLaws}.

Lemma VerifyEnrollmentPermit_signed i p :
  Identity_Validate i = Ok tt → Permit_Validate (sign_permit i p) = Ok tt → pm_AuthorityPublicKey p = RawStd_EncodeToString (i_PublicKey i) →
  VerifyEnrollmentPermit (i_PublicKey i) (sign_permit i p) = Ok tt.
Proof.
  intros (_ & H1 & H2 & H3)%Identity_Validate_ok Hv Hk. unfold VerifyEnrollmentPermit. rewrite H1, Hv. simpl. rewrite Hk, String.eqb_refl. simpl.
  unfold verify_signature. simpl. rewrite RawStd_roundtrip. simpl. change (enrollmentPermitMessage (sign_permit i p)) with (enrollmentPermitMessage p).
  by rewrite <- H3, Verify_Sign.
Qed.
Lemma VerifyEnrollmentGrant_signed i g :
  Identity_Validate i = Ok tt → Grant_Validate (sign_grant i g) = Ok tt → gr_AuthorityPublicKey g = RawStd_EncodeToString (i_PublicKey i) →
  VerifyEnrollmentGrant (i_PublicKey i) (sign_grant i g) = Ok tt.
Proof.
  intros (_ & H1 & H2 & H3)%Identity_Validate_ok Hv Hk. unfold VerifyEnrollmentGrant. rewrite H1, Hv. simpl. rewrite Hk, String.eqb_refl. simpl.
  unfold verify_signature. simpl. rewrite RawStd_roundtrip. simpl. change (enrollmentGrantMessage (sign_grant i g)) with (enrollmentGrantMessage g).
  by rewrite <- H3, Verify_Sign.
Qed.

(** ** What the load checks mean *)

Definition status_fields (r : requestState) : Prop :=
  (rq_Status r = "pending" ∧ rq_AdmissionProfile r = "" ∧ rq_EnrollmentID r = "" ∧ rq_Reason r = "") ∨
  (rq_Status r = "approved" ∧ rq_AdmissionProfile r ≠ "" ∧ strlen (rq_AdmissionProfile r) ≤ MaxIdentifierBytes ∧
   validateEnrollmentHexID (rq_EnrollmentID r) 16 = Ok tt ∧ rq_Reason r = "") ∨
  ((rq_Status r = "rejected" ∨ rq_Status r = "expired") ∧ rq_AdmissionProfile r = "" ∧ rq_EnrollmentID r = "" ∧ rq_Reason r ≠ "").

Record request_valid (r : requestState) : Prop := mkRequestValid {
  rv_id : validateEnrollmentHexID (rq_RequestID r) 16 = Ok tt;
  rv_device : blen (rq_DevicePublicKey r) = PublicKeySize;
  rv_fingerprint : rq_Fingerprint r = DevicePublicKeyFingerprint (rq_DevicePublicKey r);
  rv_parent : rq_ParentNodeID r ≠ 0;
  rv_parentKey : blen (rq_ParentPublicKey r) = PublicKeySize;
  rv_transcript : validateEnrollmentHexID (rq_TranscriptDigest r) 32 = Ok tt;
  rv_times : 0 < rq_CreatedAtUnixMS r ≤ rq_UpdatedAtUnixMS r ∧ rq_CreatedAtUnixMS r < rq_ExpiresAtUnixMS r;
  rv_status : status_fields r
}.

Lemma request_valid_checked r : request_valid r → validateEnrollmentRequestState r = Ok tt.
Proof.
  destruct 1 as [H1 H2 H3 H4 H5 H6 [H7 H8] H9]. unfold validateEnrollmentRequestState. rewrite H1, H2, H3, String.eqb_refl. simpl.
  rewrite (proj2 (NodeID_Validate_ok _) H4), H5, H6. simpl.
  rewrite (proj2 (Z.leb_gt _ _)), (proj2 (Z.ltb_ge _ _)), (proj2 (Z.leb_gt _ _)) by lia. simpl.
  destruct H9 as [(-> & -> & -> & ->)|[(-> & Hp & Hs & He & ->)|(Hs & -> & -> & Hr)]]; simpl; [done| |].
  - by rewrite (proj2 (String.eqb_neq _ _) Hp), (proj2 (Z.ltb_ge _ _) Hs), He.
  - apply String.eqb_neq in Hr. destruct Hs as [->| ->]; simpl; by rewrite Hr.
Qed.

(** The permits that can be consumed. *)
Lemma check_permit_active pk r :
  check_permit pk r = Ok tt → ps_Status r ≠ "consumed" → ps_Status r ≠ "revoked" →
  ps_Status r = "active" ∧ ps_ConsumedByRequestID r = "" ∧ ps_ConsumedAtUnixMS r = 0 ∧ ps_RevokedAtUnixMS r = 0 ∧ ps_Reason r = "".
Proof.
  unfold check_permit. intros Hc Hn1 Hn2. apply bind_ok in Hc as [_ Hc]. apply bind_ok in Hc as [_ Hc].
  destruct (String.eqb_spec (ps_Status r) "active") as [->|]; [|repeat case_match; eqb_prop; done].
  apply fail_if_ok in Hc as [Hc _]. bool_prop. by eqb_prop.
Qed.
Lemma check_permit_parts pk r : check_permit pk r = Ok tt →
  VerifyEnrollmentPermit pk (ps_Permit r) = Ok tt ∧ validateEnrollmentHexID (ps_IssueRequestID r) 16 = Ok tt.
Proof. unfold check_permit. intros Hc. apply bind_ok in Hc as [? Hc]. by apply bind_ok in Hc as [? _]. Qed.

(** ** The invariant of the data *)

Definition permit_ok (i : Identity) (id : string) (r : permitState) : Prop :=
  pm_PermitID (ps_Permit r) = id ∧ check_permit (i_PublicKey i) r = Ok tt ∧ permit_ints (ps_Permit r).
Definition request_ok (t : Z) (id : string) (r : requestState) : Prop :=
  rq_RequestID r = id ∧ request_valid r ∧ is_u64 (rq_ParentNodeID r) ∧ rq_CreatedAtUnixMS r ≤ t.
Definition enrollment_ok (i : Identity) (used : gset NodeID) (id : string) (e : enrollmentState) : Prop :=
  gr_EnrollmentID (es_Grant e) = id ∧ check_enrollment (i_PublicKey i) e = Ok tt ∧ grant_ints (es_Grant e) ∧
  ∃ n, gr_NodeID (es_Grant e) = FormatUint n ∧ 0 < n ≤ maxInt ∧ n ∈ used ∧ n ≠ i_NodeID i.

Definition pending (r : requestState) : Prop := rq_Status r = "pending".
#[global] Instance pending_dec r : Decision (pending r) := decide (rq_Status r = "pending").
Definition pending_at (parent : NodeID) (r : requestState) : Prop := rq_Status r = "pending" ∧ rq_ParentNodeID r = parent.
#[global] Instance pending_at_dec parent r : Decision (pending_at parent r) := decide (rq_Status r = "pending" ∧ rq_ParentNodeID r = parent).

Record data_ok (i : Identity) (c : authorityConfig) (t : Z) (d : authorityData) : Prop := mkDataOk {
  do_self : i_NodeID i ∈ d_usedNodeIDs d;
  do_used : ∀ n, n ∈ d_usedNodeIDs d → n ≠ 0;
  do_permits : ∀ id r, d_permits d !! id = Some r → permit_ok i id r;
  do_issues : ∀ id id' r r', d_permits d !! id = Some r → d_permits d !! id' = Some r' → ps_IssueRequestID r = ps_IssueRequestID r' → id = id';
  do_requests : ∀ id r, d_requests d !! id = Some r → request_ok t id r;
  do_enrollments : ∀ id e, d_enrollments d !! id = Some e → enrollment_ok i (d_usedNodeIDs d) id e;
  do_e2r : ∀ id e, d_enrollments d !! id = Some e → enrollment_matched (d_requests d) (id, e) = true;
  do_r2e : ∀ id r, d_requests d !! id = Some r → request_matched (d_enrollments d) (id, r) = true;
  do_nodes : ∀ id id' e e', d_enrollments d !! id = Some e → d_enrollments d !! id' = Some e' →
    gr_NodeID (es_Grant e) = gr_NodeID (es_Grant e') → id = id';
  do_size_permits : Z.of_nat (size (d_permits d)) ≤ cf_MaxPermits c;
  do_size_requests : Z.of_nat (size (d_requests d)) ≤ cf_MaxRequests c;
  do_size_enrollments : Z.of_nat (size (d_enrollments d)) ≤ cf_MaxEnrollments c;
  do_pending : countPendingRequests (d_requests d) ≤ cf_MaxPending c;
  do_pending_parent : ∀ parent, countPendingRequestsForParent (d_requests d) parent ≤ cf_MaxPendingPerParent c
}.

(** The counters count the entries of a filtered map. *)
Lemma length_filter_values (P : requestState → Prop) `{∀ r, Decision (P r)} (m : gmap string requestState) :
  length (filter P (map_to_list m).*2) = size (filter (λ kv, P kv.2) m).
Proof.
  induction m as [|id r m Hid IH] using map_ind; [by rewrite map_to_list_empty, map_filter_empty, map_size_empty|].
  rewrite (map_to_list_insert m id r Hid). csimpl. rewrite filter_cons. assert (filter (λ kv, P kv.2) m !! id = None) as Hf.
  { apply map_lookup_filter_None. by left. }
  destruct (decide (P r)).
  - rewrite map_filter_insert_True by done. rewrite map_size_insert_None by done. simpl. by rewrite IH.
  - rewrite map_filter_insert_False by done. by rewrite delete_id.
Qed.
Definition pendings (P : requestState → Prop) `{∀ r, Decision (P r)} (m : gmap string requestState) : Z := Z.of_nat (size (filter (λ kv, P kv.2) m)).
Lemma countPending_size m : countPendingRequests m = pendings pending m.
Proof. unfold countPendingRequests, pendings. by rewrite <- length_filter_values. Qed.
Lemma countPendingParent_size m parent : countPendingRequestsForParent m parent = pendings (pending_at parent) m.
Proof. unfold countPendingRequestsForParent, pendings. by rewrite <- length_filter_values. Qed.

(** Replacing or adding a request that does not count does not raise a counter. *)
Lemma pendings_insert_not (P : requestState → Prop) `{∀ r, Decision (P r)} m id r : ¬ P r → pendings P (<[id := r]> m) ≤ pendings P m.
Proof.
  intros Hr. unfold pendings. rewrite map_filter_insert_False by done. apply inj_le, map_subseteq_size.
  apply map_filter_subseteq_mono. apply delete_subseteq.
Qed.
Lemma pendings_insert_new (P : requestState → Prop) `{∀ r, Decision (P r)} m id r : pendings P (<[id := r]> m) ≤ pendings P m + 1.
Proof.
  unfold pendings. destruct (decide (P r)) as [Hp|Hp].
  - rewrite map_filter_insert_True by done. rewrite map_size_insert. case_match; unfold Datatypes.id; lia.
  - pose proof (pendings_insert_not P m id r Hp). unfold pendings in *. lia.
Qed.

(** A map over the requests that makes none pending does not raise a counter. *)
Lemma pendings_fmap (P : requestState → Prop) `{∀ r, Decision (P r)} (f : requestState → requestState) m :
  (∀ r, P (f r) → P r) → pendings P (f <$> m) ≤ pendings P m.
Proof.
  intros Hf. unfold pendings. rewrite <- !length_filter_values. rewrite map_to_list_fmap, <- list_fmap_compose. set (l := map_to_list m). clearbody l.
  induction l as [|[k r] l IH]; [done|]. csimpl. rewrite !filter_cons. pose proof (Hf r). repeat case_decide; simpl; naive_solver lia.
Qed.

(** ** Changes of the data that keep the invariant *)

Section changes.
Context (i : Identity) (c : authorityConfig) (t : Z) (d : authorityData) (Hd : data_ok i c t d).

Lemma data_ok_later t' : t ≤ t' → data_ok i c t' d.
Proof. intros Ht. destruct Hd. split; try done. intros id r (?&?&?&?)%do_requests0. split_and!; try done. lia. Qed.

Lemma put_permit_ok id r :
  permit_ok i id r → (∀ id' r', d_permits d !! id' = Some r' → ps_IssueRequestID r' = ps_IssueRequestID r → id' = id) →
  Z.of_nat (size (<[id := r]> (d_permits d))) ≤ cf_MaxPermits c → data_ok i c t (put_permit d id r).
Proof.
  intros Hr Hi Hs. destruct Hd. split; try done; simpl.
  - intros id' r' [[<- <-]|[_ Hl]]%lookup_insert_Some; [done|eauto].
  - intros i1 i2 r1 r2 [[<- <-]|[? Hl1]]%lookup_insert_Some [[<- <-]|[? Hl2]]%lookup_insert_Some E; eauto. symmetry. eauto.
Qed.

(** Replacing the requests, the approved ones being the same. *)
Lemma set_requests_ok m :
  (∀ id r, m !! id = Some r → request_ok t id r) →
  (∀ id r, rq_Status r = "approved" → d_requests d !! id = Some r ↔ m !! id = Some r) →
  Z.of_nat (size m) ≤ cf_MaxRequests c → pendings pending m ≤ cf_MaxPending c →
  (∀ parent, pendings (pending_at parent) m ≤ cf_MaxPendingPerParent c) → data_ok i c t (set_requests d m).
Proof.
  intros Hr Ha Hs Hp Hpp. destruct Hd. split; try done; simpl.
  - intros id e He. pose proof (do_e2r0 id e He) as Hm. unfold enrollment_matched in *. simpl in *.
    destruct (d_requests d !! es_RequestID e) as [r|] eqn:Er; [|done]. apply andb_true_iff in Hm as [Hs1 Hs2].
    apply String.eqb_eq in Hs1. apply Ha in Er as ->; [|done]. by rewrite Hs1, Hs2.
  - intros id r Hm. unfold request_matched. simpl. destruct (String.eqb_spec (rq_Status r) "approved") as [E|]; [|done]. simpl.
    apply Ha in Hm; [|done]. pose proof (do_r2e0 id r Hm) as Hx. unfold request_matched in Hx. simpl in Hx. by rewrite E in Hx.
  - by rewrite countPending_size.
  - intros parent. by rewrite countPendingParent_size.
Qed.

Lemma expire_ok id r : pending r → request_ok t id r → request_ok t id (expirePendingRequest r).
Proof.
  intros Hp (Hid & Hv & Hu & Ht). split_and!; try done. destruct Hv. destruct rv_times0. split; try done; [simpl; lia|].
  right; right. simpl. destruct rv_status0 as [(_ & -> & -> & _)|[(E & _)|[[E|E] _]]]; [by split_and!; auto|..]; by rewrite Hp in E.
Qed.

Lemma lapsed_pending now r : lapsed now r = true → pending r.
Proof. unfold lapsed. intros [E _]%andb_true_iff. by apply String.eqb_eq. Qed.

Lemma expirePendingRequests_ok now : data_ok i c t (set_requests d (expirePendingRequests (d_requests d) now).1).
Proof.
  unfold expirePendingRequests. simpl. set (f := λ r, if lapsed now r then expirePendingRequest r else r).
  assert (∀ r, pending (f r) → pending r) as Hf by (intros r; unfold f, pending; by destruct (lapsed now r)).
  assert (∀ p r, pending_at p (f r) → pending_at p r) as Hfp by (intros p r; unfold f, pending_at; destruct (lapsed now r); simpl; naive_solver).
  apply set_requests_ok.
  - intros id r. rewrite lookup_fmap. intros (r0 & Hr0 & ->)%fmap_Some. unfold f. destruct (lapsed now r0) eqn:El; [|by apply Hd].
    apply expire_ok; [by eapply lapsed_pending|by apply Hd].
  - intros id r Hr. rewrite lookup_fmap, fmap_Some. split.
    + intros E. exists r. split; [done|]. unfold f, lapsed. by rewrite Hr.
    + intros (r0 & E & Er). unfold f in Er. destruct (lapsed now r0); subst; [by simpl in Hr|done].
  - rewrite map_size_fmap. apply Hd.
  - etrans; [apply (pendings_fmap pending f _ Hf)|]. rewrite <- countPending_size. apply Hd.
  - intros parent. etrans; [apply (pendings_fmap (pending_at parent) f _ (Hfp parent))|]. rewrite <- countPendingParent_size. apply Hd.
Qed.

(** Writing one request that is not approved, over none or over one that is not. *)
Lemma put_request_ok id r :
  request_ok t id r → rq_Status r ≠ "approved" → (∀ r0, d_requests d !! id = Some r0 → rq_Status r0 ≠ "approved") →
  Z.of_nat (size (<[id := r]> (d_requests d))) ≤ cf_MaxRequests c →
  (pending r → countPendingRequests (d_requests d) < cf_MaxPending c ∧
               countPendingRequestsForParent (d_requests d) (rq_ParentNodeID r) < cf_MaxPendingPerParent c) →
  data_ok i c t (put_request d id r).
Proof.
  intros Hr Hn Hna Hs Hp. rewrite countPending_size, countPendingParent_size in Hp. apply set_requests_ok; [| |done| |].
  - intros id' r' [[<- <-]|[_ Hl]]%lookup_insert_Some; [done|by apply Hd].
  - intros id' r' Ha. rewrite lookup_insert_Some. split; [|naive_solver]. intros Hl. right. split; [|done]. intros <-. by apply (Hna r').
  - destruct (decide (pending r)) as [Hpr|Hpr].
    + pose proof (pendings_insert_new pending (d_requests d) id r). apply Hp in Hpr. lia.
    + pose proof (pendings_insert_not pending (d_requests d) id r Hpr). pose proof (do_pending i c t d Hd) as Hm. rewrite countPending_size in Hm. lia.
  - intros parent. pose proof (do_pending_parent i c t d Hd parent) as Hm. rewrite countPendingParent_size in Hm. destruct (decide (pending_at parent r)) as [Hpr|Hpr].
    + pose proof (pendings_insert_new (pending_at parent) (d_requests d) id r). destruct Hpr as [Hpr <-]. apply Hp in Hpr. lia.
    + pose proof (pendings_insert_not (pending_at parent) (d_requests d) id r Hpr). lia.
Qed.
End changes.

(** ** Grants *)

Definition grant_for (a : EnrollmentAuthority) (r : requestState) (profile : string) (now : Z) (n : NodeID) (id : string) : EnrollmentGrantV1 :=
  sign_grant (au_identity a)
    (mkGrant SchemaVersionV1 id (FormatUint (i_NodeID (au_identity a))) (RawStd_EncodeToString (i_PublicKey (au_identity a)))
       (FormatUint n) (RawStd_EncodeToString (rq_DevicePublicKey r)) (FormatUint (rq_ParentNodeID r))
       (RawStd_EncodeToString (rq_ParentPublicKey r)) profile (u64 (au_generation a + 1)) now "").
Definition granted_data (d : authorityData) (r : requestState) (profile : string) (now : Z) (n : NodeID) (id : string) (g : EnrollmentGrantV1) : authorityData :=
  use_node (put_enrollment (put_request d (rq_RequestID r) (approve_request r profile id now)) id
    (mkEnrollmentState g (rq_Fingerprint r) (rq_RequestID r) "active" 0 "")) n.

(** What a successful [grantLocked] did. *)
Record fresh_grant (a : EnrollmentAuthority) (d : authorityData) (r : requestState) (profile : string) (now : Z) (g : EnrollmentGrantV1) (d' : authorityData)
    (n : NodeID) (id : string) : Prop := mkFreshGrant {
  fg_grant : g = grant_for a r profile now n id;
  fg_data : d' = granted_data d r profile now n id g;
  fg_valid : Grant_Validate g = Ok tt;
  fg_node : 0 < n ≤ maxInt ∧ n ∉ d_usedNodeIDs d;
  fg_id : d_enrollments d !! id = None;
  fg_hex : validateEnrollmentHexID id 16 = Ok tt;
  fg_limit : Z.of_nat (size (d_enrollments d)) < cf_MaxEnrollments (au_config a)
}.

Lemma grantLocked_fresh a d r profile now random g d' :
  grantLocked a d r profile now random = Ok (g, d') → ∃ n id, fresh_grant a d r profile now g d' n id.
Proof.
  unfold grantLocked. intros Hg. apply fail_if_ok in Hg as [Hl Hg]. apply Z.leb_gt in Hl.
  destruct (allocateNodeIDLocked _ _) as [[n random1]|] eqn:Ea; [|done]. cbn [mbind result_bind] in Hg.
  destruct (newUniqueIDLocked _ _) as [[id random2]|] eqn:Eu; [|done]. cbn [mbind result_bind] in Hg.
  destruct (Grant_Validate _) as [[]|] eqn:Ev; [|done]. cbn [mapErr mbind result_bind] in Hg. injection Hg as <- <-.
  apply allocate_ok in Ea. apply unique_ok in Eu as [Hu Hx]. apply bool_decide_eq_false_1, eq_None_not_Some in Hu.
  exists n, id. split; done.
Qed.

Lemma Grant_Validate_profile g : Grant_Validate g = Ok tt → gr_AdmissionProfile g ≠ "" ∧ strlen (gr_AdmissionProfile g) ≤ MaxIdentifierBytes.
Proof.
  unfold Grant_Validate. intros Hv. do 8 apply bind_ok in Hv as [_ Hv]. apply bind_ok in Hv as [Hv _]. apply mapErr_ok in Hv.
  unfold validateText in Hv. apply fail_if_ok in Hv as [Hv1 Hv]. apply fail_if_ok in Hv as [Hv2 _]. simpl in Hv1. bool_prop. done.
Qed.

Lemma enrollment_ok_mono i used used' id' e : used ⊆ used' → enrollment_ok i used id' e → enrollment_ok i used' id' e.
Proof. intros Hs (? & ? & ? & m & ? & ? & ? & ?). split_and!; try done. exists m. split_and!; try done; try lia. set_solver. Qed.

Section granting.
Context (a : EnrollmentAuthority) (d : authorityData) (r : requestState) (profile : string) (now : Z) (g : EnrollmentGrantV1) (d' : authorityData).
Context (n : NodeID) (id : string) (Hg : fresh_grant a d r profile now g d' n id).
Context (Hi : Identity_Validate (au_identity a) = Ok tt) (Hd : data_ok (au_identity a) (au_config a) now d) (Ht : is_i64 now).
Context (Hr : request_ok now (rq_RequestID r) r) (Hna : ∀ r0, d_requests d !! rq_RequestID r = Some r0 → rq_Status r0 ≠ "approved").

Lemma granted_request_ok : request_ok now (rq_RequestID r) (approve_request r profile id now).
Proof.
  destruct Hr as (_ & [] & Hu & Hc), Hg. split_and!; try done. split; try done; simpl; [lia|]. right; left. simpl.
  apply Grant_Validate_profile in fg_valid0. rewrite fg_grant0 in fg_valid0. simpl in fg_valid0. naive_solver.
Qed.

Lemma granted_enrollment_ok : enrollment_ok (au_identity a) ({[ n ]} ∪ d_usedNodeIDs d) id (mkEnrollmentState g (rq_Fingerprint r) (rq_RequestID r) "active" 0 "").
Proof.
  destruct Hr as (_ & Hv & _), Hg. destruct fg_node0 as [Hn1 Hn2]. split_and!; simpl; [by rewrite fg_grant0| | |].
  - unfold check_enrollment. simpl. rewrite fg_grant0 in fg_valid0 |- *. unfold grant_for in *. rewrite VerifyEnrollmentGrant_signed by done. simpl.
    rewrite (rv_id r Hv), RawStd_roundtrip. simpl. by rewrite (rv_fingerprint r Hv), String.eqb_refl.
  - rewrite fg_grant0. unfold grant_ints. simpl. split; [done|split; [apply u64_range|done]].
  - exists n. rewrite fg_grant0. split_and!; try done; try lia; [set_solver|]. intros ->. apply Hn2, Hd.
Qed.

Lemma granted_e2r id' e' : d_enrollments d' !! id' = Some e' → enrollment_matched (d_requests d') (id', e') = true.
Proof.
  destruct Hg. subst d'. simpl. intros [[<- <-]|[Hne He]]%lookup_insert_Some; unfold enrollment_matched; simpl.
  - by rewrite lookup_insert_eq, !String.eqb_refl.
  - pose proof (do_e2r _ _ _ _ Hd _ _ He) as Hm. unfold enrollment_matched in Hm. simpl in Hm.
    destruct (d_requests d !! es_RequestID e') as [r0|] eqn:Er; [|done].
    rewrite lookup_insert_ne; [by rewrite Er|]. intros E. rewrite <- E in Er. apply Hna in Er. apply andb_true_iff in Hm as [Hm _]. by apply String.eqb_eq in Hm.
Qed.
Lemma granted_r2e id' r' : d_requests d' !! id' = Some r' → request_matched (d_enrollments d') (id', r') = true.
Proof.
  destruct Hg. subst d'. simpl. intros [[<- <-]|[Hne Hl]]%lookup_insert_Some; unfold request_matched; simpl.
  - rewrite lookup_insert_eq. simpl. by rewrite fg_grant0, !String.eqb_refl.
  - pose proof (do_r2e _ _ _ _ Hd _ _ Hl) as Hm. unfold request_matched in Hm. simpl in Hm. destruct (negb _); [done|]. simpl in Hm |- *.
    destruct (d_enrollments d !! rq_EnrollmentID r') as [e|] eqn:Ee; [|done]. rewrite lookup_insert_ne; [by rewrite Ee|]. intros E. by rewrite <- E, fg_id0 in Ee.
Qed.

Lemma granted_nodes id1 id2 e1 e2 :
  d_enrollments d' !! id1 = Some e1 → d_enrollments d' !! id2 = Some e2 → gr_NodeID (es_Grant e1) = gr_NodeID (es_Grant e2) → id1 = id2.
Proof.
  assert (∀ id' e', d_enrollments d !! id' = Some e' → gr_NodeID (es_Grant e') ≠ FormatUint n) as Hfresh.
  { intros id' e' (_ & _ & _ & m & -> & Hm & Hu & _)%(do_enrollments _ _ _ _ Hd) E. destruct Hg as [_ _ _ [Hn1 Hn2]].
    apply FormatUint_inj in E; [by subst|unfold is_u64, maxUint64, maxInt in *; lia..]. }
  destruct Hg. subst d'. simpl. intros [[<- <-]|[Hn1 He1]]%lookup_insert_Some [[<- <-]|[Hn2 He2]]%lookup_insert_Some E; simpl in E.
  - done.
  - rewrite fg_grant0 in E. by destruct (Hfresh _ _ He2).
  - rewrite fg_grant0 in E. by destruct (Hfresh _ _ He1).
  - exact (do_nodes _ _ _ _ Hd _ _ _ _ He1 He2 E).
Qed.

Lemma granted_data_ok :
  Z.of_nat (size (<[rq_RequestID r := r]> (d_requests d))) ≤ cf_MaxRequests (au_config a) → data_ok (au_identity a) (au_config a) now d'.
Proof.
  intros Hs. pose proof granted_request_ok as Hro. pose proof granted_enrollment_ok as Heo. pose proof granted_e2r. pose proof granted_r2e. pose proof granted_nodes.
  destruct Hg, Hd. subst d'. unfold granted_data, put_request, set_requests, put_enrollment, use_node in *.
  split; cbn [d_permits d_requests d_enrollments d_usedNodeIDs] in *; try done.
  - set_solver.
  - intros m [->%elem_of_singleton|Hm]%elem_of_union; [lia|by apply do_used0].
  - intros id' r' [[<- <-]|[_ Hl]]%lookup_insert_Some; [done|by apply do_requests0].
  - intros id' e' [[<- <-]|[_ Hl]]%lookup_insert_Some; [done|]. eapply enrollment_ok_mono; [|by apply do_enrollments0]. set_solver.
  - by rewrite map_size_insert in *.
  - rewrite map_size_insert, fg_id0. lia.
  - rewrite countPending_size in *. etrans; [by apply pendings_insert_not|done].
  - intros parent. pose proof (do_pending_parent0 parent). rewrite countPendingParent_size in *. etrans; [|done]. apply pendings_insert_not. by intros [? _].
Qed.
End granting.

(** ** The abstract transitions of the authority

    What one call can do to the data, and the grant it makes with the permit it used. *)

Definition entry : Type := option EnrollmentPermitV1 * EnrollmentGrantV1.

Definition same_fields (r r0 : requestState) : Prop :=
  rq_RequestID r = rq_RequestID r0 ∧ rq_DevicePublicKey r = rq_DevicePublicKey r0 ∧ rq_Fingerprint r = rq_Fingerprint r0 ∧
  rq_ParentNodeID r = rq_ParentNodeID r0 ∧ rq_ParentPublicKey r = rq_ParentPublicKey r0 ∧
  rq_CreatedAtUnixMS r = rq_CreatedAtUnixMS r0 ∧ rq_ExpiresAtUnixMS r = rq_ExpiresAtUnixMS r0.

(** The request of a new grant: it is recorded, or new. *)
Record grantable (c : authorityConfig) (t : Z) (d : authorityData) (r : requestState) : Prop := mkGrantable {
  gb_ok : request_ok t (rq_RequestID r) r;
  gb_recorded : ∀ r0, d_requests d !! rq_RequestID r = Some r0 →
    rq_Status r0 ≠ "approved" ∧ same_fields r r0;
  gb_size : Z.of_nat (size (<[rq_RequestID r := r]> (d_requests d))) ≤ cf_MaxRequests c
}.

Definition permits_parent (c : authorityConfig) (p : EnrollmentPermitV1) (parent : NodeID) : Prop :=
  ∃ target, parseEnrollmentNodeID (pm_TargetNodeID p) = Some target ∧
  (target = parent ∨ (pm_AllowDescendants p = true ∧ ∃ f, cf_IsTargetDescendant c = Some f ∧ f target parent = true)).

Definition consumed_permit (rec : permitState) (requestID : string) (now : Z) : permitState :=
  mkPermitState (ps_Permit rec) "consumed" (ps_IssueRequestID rec) requestID now (ps_RevokedAtUnixMS rec) (ps_Reason rec).

Inductive change (a : EnrollmentAuthority) (t : Z) (d : authorityData) : authorityData → list entry → Prop :=
| ch_none : change a t d d []
| ch_permit id r :
    d_permits d !! id = None → ps_Status r = "active" → permit_ok (au_identity a) id r →
    (∀ id' r', d_permits d !! id' = Some r' → ps_IssueRequestID r' ≠ ps_IssueRequestID r) →
    Z.of_nat (size (d_permits d)) < cf_MaxPermits (au_config a) → change a t d (put_permit d id r) []
| ch_revoke_permit id r0 r :
    d_permits d !! id = Some r0 → ps_Status r0 = "active" → ps_Permit r = ps_Permit r0 → ps_IssueRequestID r = ps_IssueRequestID r0 →
    ps_Status r = "revoked" → permit_ok (au_identity a) id r → change a t d (put_permit d id r) []
| ch_request id r :
    d_requests d !! id = None → pending r → request_ok t id r → Z.of_nat (size (d_requests d)) < cf_MaxRequests (au_config a) →
    countPendingRequests (d_requests d) < cf_MaxPending (au_config a) →
    countPendingRequestsForParent (d_requests d) (rq_ParentNodeID r) < cf_MaxPendingPerParent (au_config a) → change a t d (put_request d id r) []
| ch_close id r0 status reason updated :
    d_requests d !! id = Some r0 → pending r0 → status = "rejected" ∨ status = "expired" → request_ok t id (set_status r0 status reason updated) →
    change a t d (put_request d id (set_status r0 status reason updated)) []
| ch_revoke_enrollment id e0 e :
    d_enrollments d !! id = Some e0 → es_Status e0 = "active" → es_Grant e = es_Grant e0 → es_Fingerprint e = es_Fingerprint e0 →
    es_RequestID e = es_RequestID e0 → es_Status e = "revoked" → check_enrollment (i_PublicKey (au_identity a)) e = Ok tt →
    change a t d (put_enrollment d id e) []
| ch_approve r profile g d' n id :
    fresh_grant a d r profile t g d' n id → grantable (au_config a) t d r → (∃ r0, d_requests d !! rq_RequestID r = Some r0 ∧ pending r0) →
    change a t d d' [(None, g)]
| ch_admit p rec r g d' n id requestID :
    fresh_grant a d r (pm_AdmissionProfile p) t g d' n id → grantable (au_config a) t d r →
    d_permits d !! pm_PermitID p = Some rec → ps_Permit rec = p → ps_Status rec = "active" →
    validateEnrollmentHexID requestID 16 = Ok tt → pm_IssuedAtUnixMS p ≤ t < pm_ExpiresAtUnixMS p →
    pm_DevicePublicKeyFingerprint p = rq_Fingerprint r → permits_parent (au_config a) p (rq_ParentNodeID r) →
    change a t d (put_permit d' (pm_PermitID p) (consumed_permit rec requestID t)) [(Some p, g)].

(** A call first expires the pending requests, or not. *)
Definition changes (a : EnrollmentAuthority) (t : Z) (d d' : authorityData) (log : list entry) : Prop :=
  ∃ d1, (d1 = d ∨ d1 = set_requests d (expirePendingRequests (d_requests d) t).1) ∧ change a t d1 d' log.

Lemma check_permit_consumed pk r requestID now :
  check_permit pk r = Ok tt → ps_Status r = "active" → validateEnrollmentHexID requestID 16 = Ok tt → 0 < now →
  check_permit pk (consumed_permit r requestID now) = Ok tt.
Proof.
  intros Hc Hs Hx Hn. pose proof (check_permit_parts _ _ Hc) as [Hv Hi]. destruct (check_permit_active pk r Hc) as (_ & _ & _ & Hrv & Hre); [by rewrite Hs..|].
  unfold check_permit. simpl. rewrite Hv, Hi. simpl. rewrite Hx. simpl. rewrite Hrv, Hre. by rewrite (proj2 (Z.leb_gt now 0)).
Qed.

Lemma check_permit_revoked pk r now reason :
  check_permit pk r = Ok tt → ps_Status r = "active" → 0 < now → reason ≠ "" →
  check_permit pk (mkPermitState (ps_Permit r) "revoked" (ps_IssueRequestID r) (ps_ConsumedByRequestID r) (ps_ConsumedAtUnixMS r) now reason) = Ok tt.
Proof.
  intros Hc Hs Hn Hre. pose proof (check_permit_parts _ _ Hc) as [Hv Hi]. destruct (check_permit_active pk r Hc) as (_ & H1' & H2' & _); [by rewrite Hs..|].
  unfold check_permit. simpl. rewrite Hv, Hi. simpl. rewrite H1', H2', (proj2 (String.eqb_neq _ _) Hre). by rewrite (proj2 (Z.leb_gt now 0)).
Qed.

Lemma revoke_enrollment_ok i c t d id e0 e :
  data_ok i c t d → d_enrollments d !! id = Some e0 → es_Grant e = es_Grant e0 → es_Fingerprint e = es_Fingerprint e0 →
  es_RequestID e = es_RequestID e0 → check_enrollment (i_PublicKey i) e = Ok tt → data_ok i c t (put_enrollment d id e).
Proof.
  intros Hd Hl Hg Hf Hq Hok. destruct Hd. split; try done; simpl.
  - intros id' e' [[<- <-]|[_ Hl']]%lookup_insert_Some; [|by apply do_enrollments0]. destruct (do_enrollments0 _ _ Hl) as (E1 & _ & E3 & E4).
    split; [by rewrite Hg|split; [done|by rewrite Hg]].
  - intros id' e' [[<- <-]|[_ Hl']]%lookup_insert_Some; [|by apply do_e2r0]. pose proof (do_e2r0 _ _ Hl) as Hm. unfold enrollment_matched in *. simpl in *. by rewrite Hq.
  - intros id' r' Hl'. pose proof (do_r2e0 _ _ Hl') as Hm. unfold request_matched in *. simpl in *. destruct (negb _); [done|]. simpl in *.
    destruct (decide (rq_EnrollmentID r' = id)) as [E|Hne]; [|by rewrite lookup_insert_ne]. rewrite E in Hm |- *. rewrite lookup_insert_eq. rewrite Hl in Hm. by rewrite Hq, Hf, Hg.
  - intros i1 i2 e1 e2 Hl1 Hl2 E.
    assert (∀ j x, <[id := e]> (d_enrollments d) !! j = Some x → ∃ y, d_enrollments d !! j = Some y ∧ gr_NodeID (es_Grant y) = gr_NodeID (es_Grant x)) as Hj.
    { intros j x [[<- <-]|[_ Hx]]%lookup_insert_Some; [|eauto]. exists e0. by rewrite Hg. }
    destruct (Hj _ _ Hl1) as (y1 & Hy1 & E1), (Hj _ _ Hl2) as (y2 & Hy2 & E2). eapply do_nodes0; [done..|congruence].
  - by rewrite map_size_insert, Hl.
Qed.

(** Every transition keeps the invariant. *)
Lemma change_ok a t d d' log :
  Identity_Validate (au_identity a) = Ok tt → 0 < t → is_i64 t → data_ok (au_identity a) (au_config a) t d → change a t d d' log →
  data_ok (au_identity a) (au_config a) t d'.
Proof.
  intros Hi Ht Ht' Hd Hc. destruct Hc as [|id r Hn Hs Hp Hf Hz|id r0 r Hl Hs0 Hp Hq Hs Hok|id r Hn Hp Hr Hz Hc1 Hc2|id r0 st re up Hl Hp Hs Hr|
    id e0 e Hl Hs0 Hg Hf Hq Hs Hok|r profile g d' n id Hf [Hr Hrec Hz] _|p rec r g d' n id rid Hf [Hr Hrec Hz] Hl Hp Hs Hx Htime Hfp Hpar].
  - done.
  - apply put_permit_ok; [done|done| |by rewrite map_size_insert, Hn; lia]. intros id' r' Hl E. by destruct (Hf _ _ Hl).
  - apply put_permit_ok; [done|done| |rewrite map_size_insert, Hl; apply Hd]. intros id' r' Hl' E. eapply (do_issues _ _ _ _ Hd); [done..|congruence].
  - apply put_request_ok; [done|done|by rewrite Hp|by rewrite Hn|by rewrite map_size_insert, Hn; lia|done].
  - apply put_request_ok; [done|done|simpl; by destruct Hs as [->| ->]| |rewrite map_size_insert, Hl; apply Hd|].
    + intros r' E. rewrite Hl in E. injection E as <-. by rewrite Hp.
    + unfold pending. simpl. by destruct Hs as [->| ->].
  - by eapply revoke_enrollment_ok.
  - eapply granted_data_ok; [done..| |done]. intros r0 Hr0. by apply Hrec in Hr0 as [? _].
  - assert (data_ok (au_identity a) (au_config a) t d') as Hd'.
    { eapply granted_data_ok; [done..| |done]. intros r0 Hr0. by apply Hrec in Hr0 as [? _]. }
    pose proof (do_permits _ _ _ _ Hd _ _ Hl) as (E1 & E2 & E3). assert (d_permits d' = d_permits d) as Hpm by (destruct Hf; by subst d').
    apply put_permit_ok; [done| | |rewrite Hpm, map_size_insert, Hl; apply Hd].
    + split_and!; [by simpl; rewrite Hp|by apply check_permit_consumed|done].
    + rewrite Hpm. intros id' r' Hl' E. by eapply (do_issues _ _ _ _ Hd).
Qed.

Lemma changes_ok a t d d' log :
  Identity_Validate (au_identity a) = Ok tt → 0 < t → is_i64 t → data_ok (au_identity a) (au_config a) t d → changes a t d d' log →
  data_ok (au_identity a) (au_config a) t d'.
Proof.
  intros Hi Ht Ht' Hd (d1 & [->| ->] & Hc); [by eapply change_ok|].
  eapply change_ok; [done|done|done| |done]. by apply expirePendingRequests_ok.
Qed.

(** ** The operations refine the transitions *)

Record config_ok (c : authorityConfig) : Prop := mkConfigOk {
  co_ttl : Second ≤ cf_MaxPermitTTL c ∧ Second ≤ cf_PendingTTL c;
  co_limits : 1 ≤ cf_MaxPermits c ∧ 1 ≤ cf_MaxPending c ∧ 1 ≤ cf_MaxPendingPerParent c ∧ 1 ≤ cf_MaxEnrollments c;
  co_pending : cf_MaxPendingPerParent c ≤ cf_MaxPending c ≤ cf_MaxRequests c
}.

Record authority_ok (a : EnrollmentAuthority) (t : Z) : Prop := mkAuthorityOk {
  uo_identity : Identity_Validate (au_identity a) = Ok tt;
  uo_config : config_ok (au_config a);
  uo_generation : 0 < au_generation a ≤ maxUint64;
  uo_data : data_ok (au_identity a) (au_config a) t (au_data a);
  uo_disk : au_disk a = Some (authority_file a (au_data a) (au_generation a))
}.

Definition committed (a : EnrollmentAuthority) (d : authorityData) : EnrollmentAuthority :=
  mkAuthority (au_identity a) (au_config a) (au_generation a + 1) d (Some (authority_file a d (au_generation a + 1))).

(** A call left the authority alone, or committed the data of a transition. *)
Definition refines (a : EnrollmentAuthority) (t : Z) (a' : EnrollmentAuthority) (log : list entry) : Prop :=
  (a' = a ∧ log = []) ∨ ∃ d', changes a t (au_data a) d' log ∧ au_generation a ≠ maxUint64 ∧ a' = committed a d'.

Lemma commit_cases a d saved :
  (∃ e, Authority_commitLocked a d saved = (a, Err e)) ∨ (au_generation a ≠ maxUint64 ∧ Authority_commitLocked a d saved = (committed a d, Ok tt)).
Proof. unfold Authority_commitLocked. destruct (Z.eqb_spec (au_generation a) maxUint64); [eauto|]. destruct saved; simpl; eauto. Qed.

Lemma refines_ok a t a' log : authority_ok a t → 0 < t → is_i64 t → refines a t a' log → authority_ok a' t.
Proof.
  intros Ha Ht Ht' [[-> _]|(d' & Hc & Hg & ->)]; [done|]. destruct Ha as [H1 H2 H3 H4 H5]. split; try done; [simpl; lia|]. simpl.
  by eapply changes_ok.
Qed.

(** The commit at the end of a call that makes no grant. *)
Lemma commit_refines {A} a t d d' saved (k : result authority_error unit → result authority_error A) :
  (d = au_data a ∨ d = set_requests (au_data a) (expirePendingRequests (d_requests (au_data a)) t).1) → change a t d d' [] →
  refines a t (let '(a', r) := Authority_commitLocked a d' saved in (a', k r)).1 [].
Proof.
  intros Hd Hc. destruct (commit_cases a d' saved) as [[e ->]|[Hg ->]]; [by left|]. right. exists d'. split; [|done]. by exists d.
Qed.

Lemma IssuePermit_refines a t issue fp target allow profile ttl order random now saved :
  authority_ok a t → t ≤ UnixMilli now → is_i64 (UnixMilli now) → is_i64 (UnixMilli (now + ttl)) → order ≡ₚ map_to_list (d_permits (au_data a)) →
  refines a (UnixMilli now) (IssuePermit a issue fp target allow profile ttl order random now saved).1 [].
Proof.
  intros Ha Ht T1 T2 Ho. unfold IssuePermit. destruct (validateEnrollmentHexID issue 16) as [[]|] eqn:Ei; [|by left]. simpl.
  destruct (_ ≫= _) as [[]|]; [|by left]. destruct (find_issue issue order) as [r0|] eqn:Ef; [destruct (_ || _); by left|].
  destruct (Z.leb_spec (cf_MaxPermits (au_config a)) (Z.of_nat (size (d_permits (au_data a))))); [by left|].
  destruct (newUniqueIDLocked _ _) as [[id random']|] eqn:Eu; [|by left]. apply unique_ok in Eu as [Hu Hx].
  apply bool_decide_eq_false_1, eq_None_not_Some in Hu. set (permit := sign_permit _ _). destruct (Permit_Validate permit) as [[]|] eqn:Ev; [|by left].
  apply (commit_refines a _ (au_data a)); [by left|].
  apply (ch_permit a _ _ id); [done|done| | |done].
  - split_and!; [done| |unfold permit_ints; simpl; split_and!; try done; apply u64_range].
    unfold check_permit, permit. cbn [ps_Permit ps_Status ps_IssueRequestID].
    rewrite VerifyEnrollmentPermit_signed by (done || apply Ha). cbn [mbind result_bind]. by rewrite Ei.
  - intros id' r' Hl E. simpl in E. unfold find_issue in Ef. apply head_None in Ef.
    assert (r' ∈ filter (λ r, ps_IssueRequestID r = issue) order.*2) as Hin; [|rewrite Ef in Hin; by apply not_elem_of_nil in Hin].
    apply list_elem_of_filter. split; [done|]. apply list_elem_of_fmap. exists (id', r'). split; [done|]. rewrite Ho. by apply elem_of_map_to_list.
Qed.

Lemma close_ok t id r0 status reason updated :
  request_ok t id r0 → pending r0 → status = "rejected" ∨ status = "expired" → reason ≠ "" → rq_CreatedAtUnixMS r0 ≤ updated →
  request_ok t id (set_status r0 status reason updated).
Proof.
  intros (Hid & [] & Hu & Ht) Hp Hs Hre Hup. split_and!; try done. split; try done; [simpl; lia|]. right; right. simpl.
  destruct rv_status0 as [(_ & -> & -> & _)|[(E & _)|[[E|E] _]]]; [by split_and!|..]; by rewrite Hp in E.
Qed.

Lemma decide_expired_refines {A} a t id request saved :
  authority_ok a t → d_requests (au_data a) !! id = Some request → refines a t (@decide_expired A a id request saved).1 [].
Proof.
  intros Ha Hl. unfold decide_expired. destruct (String.eqb_spec (rq_Status request) "pending") as [Hp|]; [|by left].
  apply (commit_refines a t (au_data a)); [by left|]. destruct (do_requests _ _ _ _ (uo_data a t Ha) _ _ Hl) as (Hid & Hv & Hu & Hc).
  apply ch_close; [done|done|by right|]. apply close_ok; try done; [by right|]. destruct (rv_times _ Hv). lia.
Qed.

Lemma authority_ok_later a t t' : authority_ok a t → t ≤ t' → authority_ok a t'.
Proof. intros [] Ht. split; try done. by eapply data_ok_later. Qed.

Lemma Reject_refines a t cmd id reason now now' saved :
  authority_ok a t → t ≤ UnixMilli now ≤ UnixMilli now' → refines a (UnixMilli now') (Reject a cmd id reason now now' saved).1 [].
Proof.
  intros Ha Ht. apply (authority_ok_later a t (UnixMilli now')) in Ha; [|lia]. unfold Reject.
  destruct (validateEnrollmentHexID cmd 16) as [[]|]; [|by left]. simpl. destruct (validateEnrollmentHexID id 16) as [[]|]; [|by left]. simpl.
  destruct (String.eqb_spec reason "") as [|Hre]; [by left|]. simpl. destruct (_ <? _); [by left|].
  destruct (d_requests (au_data a) !! id) as [r|] eqn:Er; [|by left]. destruct (String.eqb (rq_Status r) "rejected"); [by left|].
  destruct (is_expired now r); [by apply decide_expired_refines|]. destruct (String.eqb_spec (rq_Status r) "pending") as [Hp|]; [|by left]. simpl.
  destruct (do_requests _ _ _ _ (uo_data a _ Ha) _ _ Er) as (Hid & Hv & Hu & Hc).
  pose proof (commit_refines a (UnixMilli now') (au_data a) (put_request (au_data a) id (set_status r "rejected" reason (UnixMilli now'))) saved (λ x, x)) as Hcr.
  destruct (Authority_commitLocked _ _ _) as [a' res]. apply Hcr; [by left|]. apply ch_close; [done|done|by left|]. apply close_ok; try done. by left.
Qed.

Lemma permit_status pk r : check_permit pk r = Ok tt → ps_Status r = "active" ∨ ps_Status r = "consumed" ∨ ps_Status r = "revoked".
Proof.
  unfold check_permit. intros Hc. apply bind_ok in Hc as [_ Hc]. apply bind_ok in Hc as [_ Hc].
  destruct (String.eqb_spec (ps_Status r) "active"); [auto|]. destruct (String.eqb_spec (ps_Status r) "consumed"); [auto|].
  destruct (String.eqb_spec (ps_Status r) "revoked"); [auto|done].
Qed.

Lemma RevokePermit_refines a t cmd id reason now saved :
  authority_ok a t → 0 < t ≤ UnixMilli now → refines a (UnixMilli now) (RevokePermit a cmd id reason now saved).1 [].
Proof.
  intros Ha Ht. unfold RevokePermit.
  destruct (validateEnrollmentHexID cmd 16) as [[]|]; [|by left]. simpl. destruct (validateEnrollmentHexID id 16) as [[]|]; [|by left]. simpl.
  destruct (String.eqb_spec reason "") as [|Hre]; [by left|]. simpl. destruct (_ <? _); [by left|].
  destruct (d_permits (au_data a) !! id) as [r|] eqn:Er; [|by left]. destruct (String.eqb_spec (ps_Status r) "revoked") as [|Hn1]; [by left|].
  destruct (String.eqb_spec (ps_Status r) "consumed") as [|Hn2]; [by left|]. destruct (do_permits _ _ _ _ (uo_data a t Ha) _ _ Er) as (Hid & Hc & Hi).
  assert (ps_Status r = "active") as Hact by (pose proof (permit_status _ _ Hc); naive_solver).
  pose proof (commit_refines a (UnixMilli now) (au_data a) (put_permit (au_data a) id (mkPermitState (ps_Permit r) "revoked" (ps_IssueRequestID r)
    (ps_ConsumedByRequestID r) (ps_ConsumedAtUnixMS r) (UnixMilli now) reason)) saved (λ x, x)) as Hcr.
  destruct (Authority_commitLocked _ _ _) as [a' res]. apply Hcr; [by left|]. eapply ch_revoke_permit; [done..|].
  split_and!; [done| |done]. apply check_permit_revoked; [done|done|lia|done].
Qed.

Lemma RevokeEnrollment_refines a t cmd id reason now saved :
  authority_ok a t → 0 < t ≤ UnixMilli now → refines a (UnixMilli now) (RevokeEnrollment a cmd id reason now saved).1 [].
Proof.
  intros Ha Ht. unfold RevokeEnrollment.
  destruct (validateEnrollmentHexID cmd 16) as [[]|]; [|by left]. simpl. destruct (validateEnrollmentHexID id 16) as [[]|]; [|by left]. simpl.
  destruct (String.eqb_spec reason "") as [|Hre]; [by left|]. simpl. destruct (_ <? _); [by left|].
  destruct (d_enrollments (au_data a) !! id) as [e|] eqn:Ee; [|by left]. destruct (String.eqb_spec (es_Status e) "revoked") as [|Hn]; [by left|].
  destruct (do_enrollments _ _ _ _ (uo_data a t Ha) _ _ Ee) as (Hid & Hc & _). apply (commit_refines a _ (au_data a)); [by left|].
  unfold check_enrollment in Hc. apply bind_ok in Hc as [Hv Hc]. apply fail_if_ok in Hc as [Hs Hc]. apply bind_ok in Hc as [Hx Hc]. apply fail_if_ok in Hc as [Hf _].
  assert (es_Status e = "active") as Hact.
  { destruct (String.eqb_spec (es_Status e) "active"); [done|]. apply String.eqb_neq in Hn. by rewrite Hn in Hs. }
  eapply ch_revoke_enrollment; [done..|]. unfold check_enrollment. simpl. rewrite Hv. simpl. rewrite Hx. simpl. rewrite Hf.
  apply String.eqb_neq in Hre. rewrite Hre. by rewrite (proj2 (Z.leb_gt (UnixMilli now) 0)) by lia.
Qed.

Definition new_entry (a : EnrollmentAuthority) (permit : option EnrollmentPermitV1) (g : EnrollmentGrantV1) : list entry :=
  match d_enrollments (au_data a) !! gr_EnrollmentID g with None => [(permit, g)] | Some _ => [] end.

Lemma Approve_refines a t cmd id profile random now now' saved :
  authority_ok a t → t ≤ UnixMilli now ≤ UnixMilli now' →
  let '(a', r) := Approve a cmd id profile random now now' saved in
  refines a (UnixMilli now') a' (match r with Ok g => new_entry a None g | Err _ => [] end).
Proof.
  intros Ha Ht. apply (authority_ok_later a t (UnixMilli now')) in Ha; [|lia]. unfold Approve. destruct (_ ≫= _) as [[]|]; [|by left].
  destruct (d_requests (au_data a) !! id) as [r|] eqn:Er; [|by left]. destruct (String.eqb_spec (rq_Status r) "approved") as [Happ|Hna].
  - destruct (d_enrollments (au_data a) !! rq_EnrollmentID r) as [e|] eqn:Ee; [|by left]. destruct (negb _); [by left|]. left. split; [done|].
    unfold new_entry. destruct (do_enrollments _ _ _ _ (uo_data a _ Ha) _ _ Ee) as (-> & _). by rewrite Ee.
  - destruct (String.eqb (rq_Status r) "rejected"); [by left|]. destruct (is_expired now r).
    { pose proof (@decide_expired_refines EnrollmentGrantV1 a _ id r saved Ha Er) as Hx. unfold decide_expired in *.
      destruct (String.eqb (rq_Status r) "pending"); [|by left]. destruct (Authority_commitLocked _ _ _) as [a' [[]|]]; done. }
    destruct (String.eqb_spec (rq_Status r) "pending") as [Hp|]; [|by left]. simpl. destruct (grantLocked _ _ _ _ _ _) as [[g d']|] eqn:Eg; [|by left].
    destruct (grantLocked_fresh _ _ _ _ _ _ _ _ Eg) as (n & eid & Hf). destruct (do_requests _ _ _ _ (uo_data a _ Ha) _ _ Er) as (Hid & Hv & Hu & Hc).
    destruct (commit_cases a d' saved) as [[err ->]|[Hg ->]]; [by left|]. right. exists d'. split; [|done]. exists (au_data a). split; [by left|]. simpl.
    unfold new_entry. rewrite (fg_grant _ _ _ _ _ _ _ _ _ Hf) at 1. simpl. rewrite (fg_id _ _ _ _ _ _ _ _ _ Hf).
    eapply ch_approve; [done| |rewrite Hid; eauto]. split; [by rewrite Hid| |rewrite Hid, map_size_insert, Er; apply Ha].
    rewrite Hid, Er. intros r0 [= <-]. unfold same_fields. by rewrite Hp.
Qed.

(** ** Submissions *)

Lemma sameEnrollmentPermit_eq p q :
  Permit_Validate p = Ok tt → Permit_Validate q = Ok tt → permit_ints p → permit_ints q → sameEnrollmentPermit p q = true → p = q.
Proof.
  unfold sameEnrollmentPermit. intros Hp Hq Tp Tq [Hm%bool_decide_eq_true Hs%String.eqb_eq]%andb_true_iff. by apply enrollmentPermitMessage_inj.
Qed.
Lemma VerifyEnrollmentPermit_valid pk p : VerifyEnrollmentPermit pk p = Ok tt → Permit_Validate p = Ok tt.
Proof. unfold VerifyEnrollmentPermit. intros Hv. apply fail_if_ok in Hv as [_ Hv]. apply bind_ok in Hv as [Hv _]. by apply mapErr_ok in Hv. Qed.

Lemma consumePermit_ok a t next permit parent fp rec :
  data_ok (au_identity a) (au_config a) t next → permit_ints permit → consumePermitLocked a next permit parent fp t = Ok rec →
  d_permits next !! pm_PermitID permit = Some rec ∧ ps_Permit rec = permit ∧ ps_Status rec = "active" ∧
  pm_IssuedAtUnixMS permit ≤ t < pm_ExpiresAtUnixMS permit ∧ pm_DevicePublicKeyFingerprint permit = fp ∧ permits_parent (au_config a) permit parent.
Proof.
  intros Hd Hi Hc. unfold consumePermitLocked in Hc. apply bind_ok in Hc as [Hv Hc]. destruct (d_permits next !! pm_PermitID permit) as [r0|] eqn:Er; [|done].
  apply fail_if_ok in Hc as [Hsame Hc]. apply fail_if_ok in Hc as [Hn1 Hc]. apply fail_if_ok in Hc as [Hn2 Hc]. apply fail_if_ok in Hc as [Htime Hc].
  apply fail_if_ok in Hc as [Hfp Hc]. destruct (parseEnrollmentNodeID _) as [target|] eqn:Et; [|done]. apply fail_if_ok in Hc as [Hall Hc]. simplify_eq.
  destruct (do_permits _ _ _ _ Hd _ _ Er) as (Hid & Hck & Hri). bool_prop. eqb_prop. split_and!; try done; try lia.
  - destruct (check_permit_parts _ _ Hck) as [Hv0 _]. apply sameEnrollmentPermit_eq; try done; by eapply VerifyEnrollmentPermit_valid.
  - by destruct (permit_status _ _ Hck) as [?|[?|?]].
  - exists target. split; [done|]. destruct Hall as [->%Z.eqb_eq|[Hd1 Hd2]%andb_true_iff]; [by left|]. right. split; [done|].
    destruct (cf_IsTargetDescendant _) as [f|]; [by exists f|done].
Qed.

Lemma set_transcript_ok t id r transcript :
  validateEnrollmentHexID transcript 32 = Ok tt → request_ok t id r → request_ok t id (set_transcript r transcript).
Proof. intros Hx (Hid & [] & Hu & Ht). by split_and!. Qed.

(** The grant of an outcome, if it is a new one. *)
Definition outcome_entry (a : EnrollmentAuthority) (permit : option EnrollmentPermitV1) (res : result authority_error EnrollmentOutcome) : list entry :=
  match res with Ok o => match oc_Grant o with Some g => new_entry a permit g | None => [] end | Err _ => [] end.

Lemma submit_granted_refines a t next permit s r saved fp transcript random :
  next = set_requests (au_data a) (expirePendingRequests (d_requests (au_data a)) t).1 → data_ok (au_identity a) (au_config a) t next →
  permit_ints permit → validateEnrollmentHexID transcript 32 = Ok tt → validateEnrollmentHexID (sb_RequestID s) 16 = Ok tt →
  grantable (au_config a) t next r → rq_Fingerprint r = fp → rq_ParentNodeID r = sb_ParentNodeID s →
  let '(a', res) := submit_granted a next permit s r fp transcript t random saved in
  refines a t a' (outcome_entry a (Some permit) res).
Proof.
  intros Hnext Hd Hi Hx Hxs [Hg1 Hg2 Hg3] Hf Hp. unfold submit_granted, grantSubmissionWithPermitLocked.
  destruct (consumePermitLocked _ _ _ _ _ _) as [rec|] eqn:Ec; [|by left]. cbn [mbind result_bind].
  destruct (consumePermit_ok _ _ _ _ _ _ _ Hd Hi Ec) as (Hl & Hrec & Hact & Htime & Hfp & Hpar).
  destruct (grantLocked _ _ _ _ _ _) as [[g d']|] eqn:Eg; [|by left]. cbn [mbind result_bind].
  destruct (grantLocked_fresh _ _ _ _ _ _ _ _ Eg) as (n & eid & Hfr). rewrite Hrec in *.
  set (next' := put_permit _ _ _). destruct (commit_cases a next' saved) as [[err ->]|[Hgen ->]]; [by left|]. right. exists next'. split; [|done].
  exists next. split; [by right|]. unfold outcome_entry, new_entry. cbn [mbind result_bind oc_Grant].
  assert (d_enrollments (au_data a) !! gr_EnrollmentID g = None) as ->.
  { pose proof (fg_id _ _ _ _ _ _ _ _ _ Hfr) as Hid. rewrite (fg_grant _ _ _ _ _ _ _ _ _ Hfr). by rewrite Hnext in Hid. }
  assert (next' = put_permit d' (pm_PermitID permit) (consumed_permit rec (sb_RequestID s) t)) as -> by (unfold next', consumed_permit; by rewrite Hrec).
  eapply (ch_admit a t next permit rec (set_transcript r transcript) g d' n eid (sb_RequestID s)); try done.
  - split; [by apply set_transcript_ok|done|]. rewrite map_size_insert in Hg3 |- *. done.
  - simpl. congruence.
  - simpl. by rewrite Hp.
Qed.

(** Answering from an existing request makes no grant. *)
Lemma submit_existing_refines a t next existing saved permit (k : EnrollmentOutcome → EnrollmentOutcome) :
  authority_ok a t → next = set_requests (au_data a) (expirePendingRequests (d_requests (au_data a)) t).1 → (∀ o, oc_Grant (k o) = oc_Grant o) →
  let '(a', r) := submit_existing a next (expirePendingRequests (d_requests (au_data a)) t).2 existing saved in
  refines a t a' (outcome_entry a permit (o ← r; Ok (k o))).
Proof.
  intros Ha Hnext Hk. unfold submit_existing. set (changed := (expirePendingRequests _ _).2). clearbody changed.
  assert (∀ a', d_enrollments (au_data a') = d_enrollments (au_data a) →
    outcome_entry a permit (o ← outcomeForRequestLocked a' existing; Ok (k o)) = []) as Hnone.
  { intros a' He. unfold outcome_entry, outcomeForRequestLocked. repeat (destruct (String.eqb (rq_Status existing) _); [simpl; rewrite ?Hk; try done|]); try done.
    rewrite He. destruct (d_enrollments (au_data a) !! _) as [e|] eqn:Ee; [|done]. destruct (String.eqb (es_Status e) _); [done|]. simpl. rewrite Hk. simpl.
    unfold new_entry. destruct (do_enrollments _ _ _ _ (uo_data a t Ha) _ _ Ee) as (-> & _). by rewrite Ee. }
  destruct changed; [|left; split; [done|]; by apply Hnone].
  destruct (commit_cases a next saved) as [[err ->]|[Hg ->]]; [by left|]. right. exists next. cbn [mbind result_bind].
  rewrite Hnone by (by subst next). split; [|done]. exists next. split; [by right|constructor].
Qed.

Lemma same_origin_parts fp s r : same_origin fp s r = true → rq_Fingerprint r = fp ∧ rq_ParentNodeID r = sb_ParentNodeID s ∧ rq_ParentPublicKey r = sb_ParentPublicKey s.
Proof. unfold same_origin. intros Hs. bool_prop. by eqb_prop. Qed.

Lemma recorded_grantable i c t d id r : data_ok i c t d → d_requests d !! id = Some r → rq_Status r ≠ "approved" → grantable c t d r.
Proof.
  intros Hd Hr Hs. destruct (do_requests _ _ _ _ Hd _ _ Hr) as (Hid & Hv). split; [by rewrite Hid| |rewrite Hid, map_size_insert, Hr; apply Hd].
  rewrite Hid, Hr. intros r0 [= <-]. unfold same_fields. by split.
Qed.

Lemma new_request_ok a s ms :
  config_ok (au_config a) → 0 < ms → is_u64 (sb_ParentNodeID s) → blen (sb_TranscriptDigest s) = 32 → validateEnrollmentSubmission s = Ok tt →
  request_ok ms (sb_RequestID s) (new_request a s (DevicePublicKeyFingerprint (sb_DevicePublicKey s)) (EncodeToString (sb_TranscriptDigest s)) ms).
Proof.
  intros Hc Hms Hu Hdig Hv. unfold validateEnrollmentSubmission in Hv. apply bind_ok in Hv as [H1 Hv]. apply fail_if_ok in Hv as [H2 Hv].
  apply bind_ok in Hv as [H3 Hv]. apply mapErr_ok, NodeID_Validate_ok in H3. apply fail_if_ok in Hv as [H4 _]. bool_prop.
  split_and!; simpl; [done| |done|lia]. split; simpl; try done; [by apply hexID_of_bytes| |by left].
  destruct (co_ttl _ Hc) as [_ Httl]. split; [lia|]. unfold UnixMilli, Second, Millisecond in *.
  rewrite Z.div_add_l by lia. assert (1 ≤ cf_PendingTTL (au_config a) / 1000000) by (apply Z.div_le_lower_bound; lia). lia.
Qed.

Section submitting.
Context (a : EnrollmentAuthority) (s : EnrollmentSubmission) (now : Z) (random : list byte) (saved : bool).
Context (Ha : authority_ok a (UnixMilli now)) (Ht : 0 < UnixMilli now) (Hu : is_u64 (sb_ParentNodeID s)) (Hdig : blen (sb_TranscriptDigest s) = 32).
Context (Hp : ∀ p, sb_Permit s = Some p → permit_ints p) (Hv : validateEnrollmentSubmission s = Ok tt).
Let fp := DevicePublicKeyFingerprint (sb_DevicePublicKey s).
Let transcript := EncodeToString (sb_TranscriptDigest s).
Let next := submit_data a now.

Lemma submit_data_ok : data_ok (au_identity a) (au_config a) (UnixMilli now) next.
Proof. apply expirePendingRequests_ok, Ha. Qed.

Lemma granted_branch r permit :
  sb_Permit s = Some permit → grantable (au_config a) (UnixMilli now) next r → rq_Fingerprint r = fp → rq_ParentNodeID r = sb_ParentNodeID s →
  let '(a', res) := submit_granted a next permit s r fp transcript (UnixMilli now) random saved in refines a (UnixMilli now) a' (outcome_entry a (Some permit) res).
Proof.
  intros Es Hg Hf Hpar. apply submit_granted_refines; try done; [apply submit_data_ok|by apply Hp|by apply hexID_of_bytes|].
  unfold validateEnrollmentSubmission in Hv. by apply bind_ok in Hv as [? _].
Qed.

Lemma existing_branch r permit (k : EnrollmentOutcome → EnrollmentOutcome) :
  (∀ o, oc_Grant (k o) = oc_Grant o) →
  let '(a', res) := (let '(a', r) := submit_existing a next (expirePendingRequests (d_requests (au_data a)) (UnixMilli now)).2 r saved in (a', o ← r; Ok (k o))) in
  refines a (UnixMilli now) a' (outcome_entry a permit res).
Proof.
  intros Hk. pose proof (submit_existing_refines a (UnixMilli now) next r saved permit k Ha eq_refl Hk) as Hex. by destruct (submit_existing _ _ _ _ _) as [a' res].
Qed.
Lemma existing_branch_id r permit :
  let '(a', res) := submit_existing a next (expirePendingRequests (d_requests (au_data a)) (UnixMilli now)).2 r saved in
  refines a (UnixMilli now) a' (outcome_entry a permit res).
Proof.
  pose proof (existing_branch r permit (λ o, o) ltac:(done)) as Hex. destruct (submit_existing _ _ _ _ _) as [a' [o|]]; by simpl in Hex.
Qed.

Lemma find_request_ok order r :
  order ≡ₚ map_to_list (d_requests next) → find_request fp s order = Some r →
  ∃ id, d_requests next !! id = Some r ∧ rq_Fingerprint r = fp ∧ rq_ParentNodeID r = sb_ParentNodeID s.
Proof.
  unfold find_request. intros Ho Hf. apply head_Some_elem_of in Hf. apply list_elem_of_filter in Hf as [Hm Hin].
  apply list_elem_of_fmap in Hin as ([id r'] & -> & Hin). rewrite Ho in Hin. apply elem_of_map_to_list in Hin. exists id.
  apply andb_true_iff in Hm as [Hm _]. apply same_origin_parts in Hm. naive_solver.
Qed.

Lemma Submit_refines order :
  order ≡ₚ map_to_list (d_requests (submit_data a now)) →
  let '(a', res) := Submit a s order random now saved in refines a (UnixMilli now) a' (outcome_entry a (sb_Permit s) res).
Proof.
  intros Ho. unfold Submit. rewrite Hv. fold fp transcript next. destruct (d_requests next !! sb_RequestID s) as [r|] eqn:Er.
  - destruct (same_origin fp s r) eqn:Eo; simpl; [|by left]. apply same_origin_parts in Eo as (E1 & E2 & E3).
    case_eq (sb_Permit s); [intros permit Es|intros Es; apply existing_branch_id]. destruct (String.eqb_spec (rq_Status r) "approved"); simpl; [apply existing_branch_id|].
    apply granted_branch; try done. eapply recorded_grantable; [apply submit_data_ok|done..].
  - destruct (find_request fp s order) as [r|] eqn:Ef.
    + destruct (find_request_ok _ _ Ho Ef) as (id & Hl & E1 & E2). case_eq (sb_Permit s); [intros permit Es|intros Es; by apply existing_branch].
      destruct (String.eqb_spec (rq_Status r) "pending") as [E|]; simpl; [|by apply existing_branch].
      apply granted_branch; try done. eapply recorded_grantable; [apply submit_data_ok|done|by rewrite E].
    + pose proof (new_request_ok a s (UnixMilli now) (uo_config _ _ Ha) Ht Hu Hdig Hv) as Hnew. fold fp transcript in Hnew.
      destruct (Z.leb_spec (cf_MaxRequests (au_config a)) (Z.of_nat (size (d_requests next)))) as [|Hsz]; [by left|].
      case_eq (sb_Permit s); [intros permit Es|intros Es].
      * apply granted_branch; try done. split; cbn [new_request rq_RequestID]; [done|by rewrite Er|rewrite map_size_insert, Er; lia].
      * destruct (Z.leb_spec (cf_MaxPending (au_config a)) (countPendingRequests (d_requests next))); [by left|].
        destruct (Z.leb_spec (cf_MaxPendingPerParent (au_config a)) (countPendingRequestsForParent (d_requests next) (sb_ParentNodeID s))); [by left|].
        destruct (commit_cases a (put_request next (sb_RequestID s) (new_request a s fp transcript (UnixMilli now))) saved) as [[err ->]|[Hg ->]]; [by left|].
        right. eexists. split; [|done]. exists next. split; [by right|]. by apply ch_request.
Qed.
End submitting.
End theory.
