(* ===== verification/EnrollmentHistory.v ===== *)
(** * The enrollment authority: histories of calls

    A history interleaves calls, failed saves, clock readings and restarts; it records every
    new grant with the permit that was used for it.  The theorems are about every history
    whose clock does not run backwards; the last section shows what happens when it does. *)

From S2P Require Import Prelude GoStd GoSort GoEncoding Wire Codec PolicySchema EnrollmentWire Identity Admission EnrollmentAuthority EnrollmentTheory.
Open Scope Z_scope.

Section history.
Context `{CryptoLaws}.

(** ** Restarts *)

Lemma load_used_ok l : ∀ used, NoDup l → (∀ n, n ∈ l → (n ∉ used) ∧ n ≠ 0) → load_used used l = Ok (list_to_set l ∪ used).
Proof.
  induction l as [|n l IH]; intros used Hn Hl; [simpl; by rewrite (left_id_L ∅ (∪))|]. apply NoDup_cons in Hn as [Hx Hn].
  destruct (Hl n) as [Hu Hn0]; [left|]. cbn [load_used]. rewrite (proj2 (NodeID_Validate_ok n)) by done. simpl. rewrite bool_decide_eq_false_2 by done.
  rewrite IH; [f_equal; set_solver|done|]. intros m Hm. destruct (Hl m) as [? ?]; [by right|]. split; [|done]. intros [->%elem_of_singleton|?]%elem_of_union; done.
Qed.
Lemma load_used_sorted (used : gset NodeID) : (∀ n, n ∈ used → n ≠ 0) → load_used ∅ (SortSlice Z.ltb (elements used)) = Ok used.
Proof.
  intros Hu. rewrite load_used_ok.
  - f_equal. rewrite (right_id_L ∅ (∪)). apply set_eq. intros n. rewrite elem_of_list_to_set, elem_of_SortSlice. apply elem_of_elements.
  - rewrite (SortSlice_perm Z.ltb). apply NoDup_elements.
  - intros n Hn. apply elem_of_SortSlice, elem_of_elements in Hn. split; [set_solver|auto].
Qed.

Lemma forallb_map_to_list {A} (f : string * A → bool) (m : gmap string A) : (∀ id x, m !! id = Some x → f (id, x) = true) → forallb f (map_to_list m) = true.
Proof. intros Hf. apply forallb_forall. intros [id x] Hin%list_elem_of_In%elem_of_map_to_list. by apply Hf. Qed.

Lemma data_reload i c t d generation a :
  data_ok i c t d → au_identity a = i → enrollmentAuthorityDataFromState (authority_file a d generation) (i_PublicKey i) = Ok d.
Proof.
  intros Hd Hi. unfold enrollmentAuthorityDataFromState. cbn [authority_file us_UsedNodeIDs us_AuthorityNodeID us_Permits us_Requests us_Enrollments].
  rewrite load_used_sorted by apply Hd. cbn [mbind result_bind]. rewrite Hi, bool_decide_eq_true_2 by apply Hd. cbn [negb].
  rewrite (load_sorted (load_authority_permits (i_PublicKey i)) (λ r, pm_PermitID (ps_Permit r)) (λ r, check_permit (i_PublicKey i) r = Ok tt)).
  2: done. 2: { intros m x l Hx Hm. cbn [load_authority_permits]. rewrite Hx. simpl. by rewrite bool_decide_eq_false_2 by (rewrite Hm; by intros [??]). }
  2: { intros id x Hx. by apply (do_permits _ _ _ _ Hd) in Hx as (? & ? & _). }
  cbn [mbind result_bind]. rewrite (load_sorted load_requests rq_RequestID request_valid).
  2: done. 2: { intros m x l Hx Hm. cbn [load_requests]. rewrite (request_valid_checked x Hx). simpl. by rewrite bool_decide_eq_false_2 by (rewrite Hm; by intros [??]). }
  2: { intros id x Hx. by apply (do_requests _ _ _ _ Hd) in Hx as (? & ? & _). }
  cbn [mbind result_bind]. rewrite (load_sorted (load_enrollments (i_PublicKey i) (d_usedNodeIDs d)) (λ e, gr_EnrollmentID (es_Grant e))
    (λ e, enrollment_ok i (d_usedNodeIDs d) (gr_EnrollmentID (es_Grant e)) e)).
  2: done. 2: { intros m x l (_ & Hx & _ & n & Hn & Hr & Hu & _) Hm. cbn [load_enrollments]. rewrite Hx. simpl. rewrite bool_decide_eq_false_2 by (rewrite Hm; by intros [??]).
    rewrite Hn, parse_FormatUint by (unfold maxInt, maxUint64 in *; lia). simpl. by rewrite bool_decide_eq_true_2. }
  2: { intros id x Hx. apply (do_enrollments _ _ _ _ Hd) in Hx as Ho. destruct Ho as (E & Ho). split; [done|]. by rewrite E. }
  cbn [mbind result_bind].
  rewrite (forallb_map_to_list _ (d_enrollments d)) by apply Hd. rewrite (forallb_map_to_list _ (d_requests d)) by apply Hd.
  by destruct d.
Qed.
Lemma defaults_same c : config_ok c → authority_defaults c = c.
Proof.
  intros [[H1 H2] (H3 & H4 & H5 & H6) H7]. destruct c. unfold authority_defaults, Second, Millisecond in *. simpl in *.
  repeat match goal with |- context [?x <=? 0] => rewrite (proj2 (Z.leb_gt x 0)) by lia end. done.
Qed.

(** A restart with the same identity and limits finds what was there. *)
Lemma restart_authority a t saved :
  authority_ok a t → LoadEnrollmentAuthority (au_identity a) (au_config a) (Some (au_disk a)) saved = Ok a.
Proof.
  intros [H1 H2 H3 H4 H5]. unfold LoadEnrollmentAuthority. rewrite H1. cbn [mapErr mbind result_bind]. rewrite (defaults_same _ H2).
  destruct H2 as [[? ?] (? & ? & ? & ?) ?]. rewrite !(proj2 (Z.ltb_ge _ _)) by lia. cbn [orb]. rewrite H5. cbn [default from_option id].
  cbn [authority_file us_Version us_Generation us_AuthorityNodeID us_AuthorityPublicKey]. rewrite (proj2 (Z.eqb_neq _ 0)), Z.eqb_refl, bool_decide_eq_true_2 by (done || lia).
  cbn [negb orb enrollmentAuthorityStateVersion]. rewrite Z.eqb_refl. cbn [negb orb].
  rewrite (data_reload _ _ _ _ _ _ H4 eq_refl). cbn [mbind result_bind]. rewrite <- H5. by destruct a.
Qed.

Lemma fresh_data i : i_NodeID i ≠ 0 →
  enrollmentAuthorityDataFromState (fresh_authority_file i) (i_PublicKey i) = Ok (mkData ∅ ∅ ∅ {[ i_NodeID i ]}).
Proof.
  intros Hn. unfold enrollmentAuthorityDataFromState, fresh_authority_file. cbn [us_UsedNodeIDs us_AuthorityNodeID us_Permits us_Requests us_Enrollments load_used].
  rewrite (proj2 (NodeID_Validate_ok _) Hn). simpl mapErr. cbn [mbind result_bind]. rewrite bool_decide_eq_false_2 by set_solver. cbn [mbind result_bind].
  rewrite (right_id_L ∅ (∪)), bool_decide_eq_true_2 by set_solver. cbn [negb load_authority_permits load_requests load_enrollments mbind result_bind].
  by rewrite !map_to_list_empty.
Qed.

Lemma fresh_data_ok i c t : config_ok c → i_NodeID i ≠ 0 → data_ok i c t (mkData ∅ ∅ ∅ {[ i_NodeID i ]}).
Proof.
  intros [_ (? & ? & ? & ?) ?] Hn. split; simpl; try (intros *; by rewrite lookup_empty); rewrite ?map_size_empty; try lia; [set_solver|set_solver| |intros parent].
  - unfold countPendingRequests. rewrite map_to_list_empty. simpl. lia.
  - unfold countPendingRequestsForParent. rewrite map_to_list_empty. simpl. lia.
Qed.

Lemma fresh_authority i config saved a :
  LoadEnrollmentAuthority i config (Some None) saved = Ok a → ∀ t, authority_ok a t ∧ au_data a = mkData ∅ ∅ ∅ {[ i_NodeID i ]} ∧ au_identity a = i.
Proof.
  unfold LoadEnrollmentAuthority. intros Hl t. apply bind_ok in Hl as [Hi Hl]. apply mapErr_ok in Hi. pose proof (Identity_Validate_ok _ Hi) as (Hn & _).
  apply fail_if_ok in Hl as [Hc Hl]. cbn [default from_option] in Hl. apply fail_if_ok in Hl as [_ Hl]. apply fail_if_ok in Hl as [_ Hl].
  rewrite fresh_data in Hl by done. cbn [mbind result_bind] in Hl. apply fail_if_ok in Hl as [_ Hl]. injection Hl as <-. bool_prop.
  assert (config_ok (authority_defaults config)) as Hco by (split; [split; lia|split_and!; lia|lia]).
  split; [|done]. split; try done. by apply fresh_data_ok.
Qed.

(** ** Histories *)

Inductive authority_op :=
| OIssue (issueRequestID fingerprint : string) (target : NodeID) (allowDescendants : bool) (profile : string) (ttl : Z)
    (order : list (string * permitState)) (random : list byte) (now : Z) (saved : bool)
| OSubmit (s : EnrollmentSubmission) (order : list (string * requestState)) (random : list byte) (now : Z) (saved : bool)
| OApprove (command requestID profile : string) (random : list byte) (now now' : Z) (saved : bool)
| OReject (command requestID reason : string) (now now' : Z) (saved : bool)
| ORevokePermit (command permitID reason : string) (now : Z) (saved : bool)
| ORevokeEnrollment (command enrollmentID reason : string) (now : Z) (saved : bool)
| ORestart (saved : bool).

(** A restart loads the file with the same identity and configuration; the process ends when that fails. *)
Definition authority_step (a : EnrollmentAuthority) (op : authority_op) : option (EnrollmentAuthority * list entry) :=
  match op with
  | OIssue issue fp target allow profile ttl order random now saved =>
    let '(a', _) := IssuePermit a issue fp target allow profile ttl order random now saved in Some (a', [])
  | OSubmit s order random now saved =>
    let '(a', r) := Submit a s order random now saved in Some (a', outcome_entry a (sb_Permit s) r)
  | OApprove command id profile random now now' saved =>
    let '(a', r) := Approve a command id profile random now now' saved in
    Some (a', match r with Ok g => new_entry a None g | Err _ => [] end)
  | OReject command id reason now now' saved => let '(a', _) := Reject a command id reason now now' saved in Some (a', [])
  | ORevokePermit command id reason now saved => let '(a', _) := RevokePermit a command id reason now saved in Some (a', [])
  | ORevokeEnrollment command id reason now saved => let '(a', _) := RevokeEnrollment a command id reason now saved in Some (a', [])
  | ORestart saved =>
    match LoadEnrollmentAuthority (au_identity a) (au_config a) (Some (au_disk a)) saved with
    | Ok a' => Some (a', [])
    | Err _ => None
    end
  end.

(** The time after a call, in milliseconds. *)
Definition op_end (t : Z) (op : authority_op) : Z :=
  match op with
  | OIssue _ _ _ _ _ _ _ _ now _ | OSubmit _ _ _ now _ | ORevokePermit _ _ _ now _ | ORevokeEnrollment _ _ _ now _ => UnixMilli now
  | OApprove _ _ _ _ _ now' _ | OReject _ _ _ _ now' _ => UnixMilli now'
  | ORestart _ => t
  end.
(** The first clock reading of a call. *)
Definition op_begin (t : Z) (op : authority_op) : Z :=
  match op with
  | OApprove _ _ _ _ now _ _ | OReject _ _ _ now _ _ => UnixMilli now
  | _ => op_end t op
  end.

(** The arguments fit their Go types, and an order lists the map it stands for. *)
Definition op_typed (a : EnrollmentAuthority) (op : authority_op) : Prop :=
  match op with
  | OIssue _ _ _ _ _ ttl order _ now _ => is_i64 (UnixMilli (now + ttl)) ∧ order ≡ₚ map_to_list (d_permits (au_data a))
  | OSubmit s order _ now _ => order ≡ₚ map_to_list (d_requests (submit_data a now)) ∧ is_u64 (sb_ParentNodeID s) ∧
      blen (sb_TranscriptDigest s) = 32 ∧ (∀ p, sb_Permit s = Some p → permit_ints p)
  | _ => True
  end.

(** The calls of a history; the clock never goes back. *)
Inductive history : EnrollmentAuthority → Z → EnrollmentAuthority → Z → list entry → Prop :=
| hi_start a t : history a t a t []
| hi_call a0 t0 a t log op a' ev : history a0 t0 a t log → t ≤ op_begin t op ≤ op_end t op → is_i64 (op_end t op) → op_typed a op →
    authority_step a op = Some (a', ev) → history a0 t0 a' (op_end t op) (log ++ ev).

Lemma step_refines a t op a' ev :
  authority_ok a t → 0 < t → t ≤ op_begin t op ≤ op_end t op → is_i64 (op_end t op) → op_typed a op →
  authority_step a op = Some (a', ev) → refines a (op_end t op) a' ev.
Proof.
  intros Ha H1 Ht Hi Hty Hs. destruct op as [issue fp target allow profile ttl order random now saved|s order random now saved|command id profile random now now' saved|
    command id reason now now' saved|command id reason now saved|command id reason now saved|saved]; simpl in *.
  - destruct Hty as [Hty1 Hty2]. pose proof (IssuePermit_refines a t issue fp target allow profile ttl order random now saved Ha ltac:(lia) Hi Hty1 Hty2) as Hr.
    destruct (IssuePermit _ _ _ _ _ _ _ _ _ _ _) as [a1 r]. by simplify_eq.
  - destruct Hty as (Hty1 & Hty2 & Hty3 & Hty4). destruct (validateEnrollmentSubmission s) as [[]|] eqn:Ev.
    + assert (authority_ok a (UnixMilli now)) as Ha' by (eapply authority_ok_later; [done|lia]).
      pose proof (Submit_refines a s now random saved Ha' ltac:(lia) Hty2 Hty3 Hty4 Ev order Hty1) as Hr.
      destruct (Submit _ _ _ _ _ _) as [a1 r]. by simplify_eq.
    + unfold Submit in Hs. rewrite Ev in Hs. simplify_eq. by left.
  - pose proof (Approve_refines a t command id profile random now now' saved Ha ltac:(lia)) as Hr. destruct (Approve _ _ _ _ _ _ _ _) as [a1 r]. by simplify_eq.
  - pose proof (Reject_refines a t command id reason now now' saved Ha ltac:(lia)) as Hr. destruct (Reject _ _ _ _ _ _ _) as [a1 r]. by simplify_eq.
  - pose proof (RevokePermit_refines a t command id reason now saved Ha ltac:(lia)) as Hr. destruct (RevokePermit _ _ _ _ _ _) as [a1 r]. by simplify_eq.
  - pose proof (RevokeEnrollment_refines a t command id reason now saved Ha ltac:(lia)) as Hr. destruct (RevokeEnrollment _ _ _ _ _ _) as [a1 r]. by simplify_eq.
  - rewrite (restart_authority a t saved Ha) in Hs. simplify_eq. by left.
Qed.

(** Histories preserve what each transition preserves. *)
Lemma history_ind_refines (P : EnrollmentAuthority → list entry → Prop) a0 t0 a t log :
  history a0 t0 a t log → authority_ok a0 t0 → 0 < t0 → P a0 [] →
  (∀ a t a' ev log, authority_ok a t → 0 < t → is_i64 t → refines a t a' ev → P a log → P a' (log ++ ev)) → authority_ok a t ∧ 0 < t ∧ P a log.
Proof.
  intros Hh Ha Ht H1 Hstep. induction Hh as [a t|a0 t0 a t log op a' ev Hh IH Hm Hi Hty Hs]; [done|]. destruct (IH Ha Ht H1) as (IH1 & IH2 & IH3).
  pose proof (step_refines a t op a' ev IH1 IH2 Hm Hi Hty Hs) as Hr.
  assert (authority_ok a (op_end t op)) as Ha' by (eapply authority_ok_later; [done|lia]).
  assert (0 < op_end t op) by lia. split_and!; [by eapply refines_ok|done|]. by eapply Hstep.
Qed.

(** ** How records change *)

Definition permit_next (r r' : permitState) : Prop :=
  ps_Permit r' = ps_Permit r ∧ ps_IssueRequestID r' = ps_IssueRequestID r ∧
  (r' = r ∨ (ps_Status r = "active" ∧ (ps_Status r' = "consumed" ∨ ps_Status r' = "revoked"))).
(** A decided request can still be approved (with a permit); an approved one stays as it is. *)
Definition request_next (r r' : requestState) : Prop :=
  same_fields r' r ∧
  (r' = r ∨ (rq_Status r ≠ "approved" ∧ rq_Status r' ≠ "pending" ∧ (rq_Status r' = "approved" ∨ rq_Status r = "pending"))).
Definition enrollment_next (e e' : enrollmentState) : Prop :=
  es_Grant e' = es_Grant e ∧ es_RequestID e' = es_RequestID e ∧ (e' = e ∨ (es_Status e = "active" ∧ es_Status e' = "revoked")).

(** Nothing is forgotten, and every record has moved forward. *)
Record evolves (d d' : authorityData) : Prop := mkEvolves {
  ev_permits : ∀ id r, d_permits d !! id = Some r → ∃ r', d_permits d' !! id = Some r' ∧ permit_next r r';
  ev_requests : ∀ id r, d_requests d !! id = Some r → ∃ r', d_requests d' !! id = Some r' ∧ request_next r r';
  ev_enrollments : ∀ id e, d_enrollments d !! id = Some e → ∃ e', d_enrollments d' !! id = Some e' ∧ enrollment_next e e';
  ev_used : d_usedNodeIDs d ⊆ d_usedNodeIDs d'
}.

#[global] Instance permit_next_refl : Reflexive permit_next.
Proof. intros r. split_and!; auto. Qed.
#[global] Instance request_next_refl : Reflexive request_next.
Proof. intros r. by split; [split_and!|left]. Qed.
#[global] Instance enrollment_next_refl : Reflexive enrollment_next.
Proof. intros r. split_and!; auto. Qed.
#[global] Instance permit_next_trans : Transitive permit_next.
Proof.
  intros x y z (E1 & E2 & Hxy) (E3 & E4 & Hyz). split_and!; [congruence..|]. destruct Hxy as [->|[Hx Hy]]; [done|].
  destruct Hyz as [->|[Hy' _]]; [by right|]. rewrite Hy' in Hy. by destruct Hy.
Qed.
#[global] Instance request_next_trans : Transitive request_next.
Proof.
  intros x y z [(?&?&?&?&?&?&?) Hxy] [(?&?&?&?&?&?&?) Hyz]. split; [split_and!; congruence|]. destruct Hxy as [->|(Hx & Hy & Hxy)]; [done|].
  destruct Hyz as [->|(Hy' & Hz & Hyz)]; [by right|]. right. split_and!; [done|done|]. left. by destruct Hyz.
Qed.
#[global] Instance enrollment_next_trans : Transitive enrollment_next.
Proof.
  intros x y z (E1 & E2 & Hxy) (E3 & E4 & Hyz). split_and!; [congruence..|]. destruct Hxy as [->|[Hx Hy]]; [done|].
  destruct Hyz as [->|[Hy' _]]; [by right|]. by rewrite Hy in Hy'.
Qed.
#[global] Instance evolves_refl : Reflexive evolves.
Proof. intros d. split; [intros id r Hr; exists r; by split..|done]. Qed.
#[global] Instance evolves_trans : Transitive evolves.
Proof.
  intros d1 d2 d3 [P1 R1 E1 U1] [P2 R2 E2 U2]. split; [..|by etrans].
  - intros id r (r1 & Hr1 & Hn1)%P1. apply P2 in Hr1 as (r2 & ? & ?). exists r2. split; [done|by etrans].
  - intros id r (r1 & Hr1 & Hn1)%R1. apply R2 in Hr1 as (r2 & ? & ?). exists r2. split; [done|by etrans].
  - intros id r (r1 & Hr1 & Hn1)%E1. apply E2 in Hr1 as (r2 & ? & ?). exists r2. split; [done|by etrans].
Qed.

(** Writing one record over one that it may follow, or over none. *)
Lemma insert_next {A} (next : A → A → Prop) `{!Reflexive next} (m : gmap string A) k x :
  (∀ x0, m !! k = Some x0 → next x0 x) → ∀ id y, m !! id = Some y → ∃ y', <[k := x]> m !! id = Some y' ∧ next y y'.
Proof.
  intros Hk id y Hy. destruct (decide (id = k)) as [->|Hne]; [exists x; rewrite lookup_insert_eq; auto|]. exists y. by rewrite lookup_insert_ne.
Qed.

Lemma kept_next {A} (next : A → A → Prop) `{!Reflexive next} (m : gmap string A) id y : m !! id = Some y → ∃ y', m !! id = Some y' ∧ next y y'.
Proof. intros Hy. by exists y. Qed.

Lemma put_permit_evolves d id r : (∀ r0, d_permits d !! id = Some r0 → permit_next r0 r) → evolves d (put_permit d id r).
Proof. intros Hr. split; simpl; [by apply (insert_next permit_next)|apply (kept_next request_next)|apply (kept_next enrollment_next)|done]. Qed.
Lemma put_request_evolves d id r : (∀ r0, d_requests d !! id = Some r0 → request_next r0 r) → evolves d (put_request d id r).
Proof. intros Hr. split; simpl; [apply (kept_next permit_next)|by apply (insert_next request_next)|apply (kept_next enrollment_next)|done]. Qed.
Lemma put_enrollment_evolves d id e : (∀ e0, d_enrollments d !! id = Some e0 → enrollment_next e0 e) → evolves d (put_enrollment d id e).
Proof. intros Hr. split; simpl; [apply (kept_next permit_next)|apply (kept_next request_next)|by apply (insert_next enrollment_next)|done]. Qed.
Lemma use_node_evolves d n : evolves d (use_node d n).
Proof. split; simpl; [apply (kept_next permit_next)|apply (kept_next request_next)|apply (kept_next enrollment_next)|set_solver]. Qed.

Lemma expire_evolves d now : evolves d (set_requests d (expirePendingRequests (d_requests d) now).1).
Proof.
  split; simpl; [apply (kept_next permit_next)| |apply (kept_next enrollment_next)|done]. intros id r Hr. rewrite lookup_fmap, Hr. simpl. eexists. split; [done|].
  destruct (lapsed now r) eqn:El; [|done]. apply lapsed_pending in El. split; [by split_and!|]. right. by rewrite El; split_and!; [| |right].
Qed.

Lemma granted_evolves a t d r profile g d' n id :
  fresh_grant a d r profile t g d' n id → grantable (au_config a) t d r → evolves d d'.
Proof.
  intros [_ -> _ _ Hid _ _] [_ Hrec _]. etrans; [|apply use_node_evolves]. etrans; [|apply put_enrollment_evolves].
  - apply put_request_evolves. intros r0 Hr0. destruct (Hrec _ Hr0) as [Hna Hsf]. split; [done|]. right. by split_and!; [| |left].
  - simpl. by rewrite Hid.
Qed.

Lemma change_evolves a t d d' ev : data_ok (au_identity a) (au_config a) t d → change a t d d' ev → evolves d d'.
Proof.
  intros Hd Hc. destruct Hc as [|id r Hn|id r0 r Hl Hs0 Hp Hq Hs|id r Hn|id r0 st re up Hl Hp Hs|id e0 e Hl Hs0 Hg Hf Hq Hs|r profile g d' n id Hf Hgr _|
    p rec r g d' n id rid Hf Hgr Hl Hp Hs].
  - done.
  - apply put_permit_evolves. by rewrite Hn.
  - apply put_permit_evolves. rewrite Hl. intros ? [= <-]. split_and!; auto.
  - apply put_request_evolves. by rewrite Hn.
  - apply put_request_evolves. rewrite Hl. intros ? [= <-]. split; [by split_and!|]. right. simpl. rewrite Hp. destruct Hs as [->| ->]; by split_and!; [| |right].
  - apply put_enrollment_evolves. rewrite Hl. intros ? [= <-]. split_and!; auto.
  - by eapply granted_evolves.
  - assert (d_permits d' = d_permits d) as Hpm by (destruct Hf; by subst d'). etrans; [by eapply granted_evolves|]. apply put_permit_evolves.
    rewrite Hpm, Hl. intros ? [= <-]. split_and!; auto.
Qed.

Lemma refines_evolves a t a' ev : authority_ok a t → refines a t a' ev → evolves (au_data a) (au_data a').
Proof.
  intros Ha [[-> _]|(d' & (d1 & Hd1 & Hc) & _ & ->)]; [done|]. simpl. destruct Hd1 as [->| ->]; [eapply change_evolves; [apply Ha|done]|].
  etrans; [apply expire_evolves|]. eapply change_evolves; [|done]. apply expirePendingRequests_ok, Ha.
Qed.

(** ** The grants of a history *)

(** What a grant promises, and what its permit allowed. *)
Definition entry_ok (i : Identity) (c : authorityConfig) (e : entry) : Prop :=
  VerifyEnrollmentGrant (i_PublicKey i) e.2 = Ok tt ∧ (∃ n, gr_NodeID e.2 = FormatUint n ∧ 0 < n ≤ maxInt ∧ n ≠ i_NodeID i) ∧
  match e.1 with
  | None => True
  | Some p =>
    VerifyEnrollmentPermit (i_PublicKey i) p = Ok tt ∧
    pm_DevicePublicKeyFingerprint p = DevicePublicKeyFingerprint (default [] (RawStd_DecodeString (gr_DevicePublicKey e.2))) ∧
    pm_AdmissionProfile p = gr_AdmissionProfile e.2 ∧ pm_IssuedAtUnixMS p ≤ gr_IssuedAtUnixMS e.2 < pm_ExpiresAtUnixMS p ∧
    ∃ parent, gr_ParentNodeID e.2 = FormatUint parent ∧ permits_parent c p parent
  end.

(** The permits used in a history. *)
Definition used_permits (log : list entry) : list string := omap (λ e, pm_PermitID <$> e.1) log.

Record log_ok (i : Identity) (c : authorityConfig) (d : authorityData) (log : list entry) : Prop := mkLogOk {
  lo_entries : Forall (entry_ok i c) log;
  lo_permits : ∀ id, id ∈ used_permits log → ∃ r, d_permits d !! id = Some r ∧ ps_Status r = "consumed";
  lo_single : NoDup (used_permits log);
  lo_grants : ∀ x g, (x, g) ∈ log → ∃ e, d_enrollments d !! gr_EnrollmentID g = Some e ∧ es_Grant e = g;
  lo_nodes : NoDup (gr_NodeID <$> log.*2);
  lo_all : ∀ id e, d_enrollments d !! id = Some e → ∃ x, (x, es_Grant e) ∈ log
}.

Lemma log_ok_quiet i c d d' log :
  evolves d d' → (∀ id e', d_enrollments d' !! id = Some e' → ∃ e, d_enrollments d !! id = Some e ∧ es_Grant e = es_Grant e') → log_ok i c d log → log_ok i c d' log.
Proof.
  intros He Hsame []. split; try done.
  - intros id (r & Hr & Hs)%lo_permits0. apply He in Hr as (r' & Hr' & _ & _ & [->|[Ha _]]); [eauto|]. by rewrite Hs in Ha.
  - intros x g (e & Hl & Hg)%lo_grants0. apply He in Hl as (e' & Hl' & Hg' & _). exists e'. split; [done|congruence].
  - intros id e' (e & Hl & Hg)%Hsame. apply lo_all0 in Hl. by rewrite <- Hg.
Qed.

(** A new grant, with a permit that was active or with none. *)
Lemma log_ok_grant i c t d d' log permit g e :
  evolves d d' → data_ok i c t d' → log_ok i c d log → entry_ok i c (permit, g) → d_enrollments d !! gr_EnrollmentID g = None →
  d_enrollments d' = <[gr_EnrollmentID g := e]> (d_enrollments d) → es_Grant e = g →
  (∀ p, permit = Some p → ∃ r r', d_permits d !! pm_PermitID p = Some r ∧ ps_Status r = "active" ∧ d_permits d' !! pm_PermitID p = Some r' ∧ ps_Status r' = "consumed") →
  log_ok i c d' (log ++ [(permit, g)]).
Proof.
  intros He Hd [] Hok Hnone Hd' Heg Hp. split.
  - apply Forall_app. split; [done|by constructor].
  - intros id. unfold used_permits. rewrite omap_app. intros [Hin|Hin]%elem_of_app.
    + destruct (lo_permits0 _ Hin) as (r & Hr & Hs). apply He in Hr as (r' & Hr' & _ & _ & [->|[Ha _]]); [eauto|]. by rewrite Hs in Ha.
    + destruct permit as [p|]; [|by apply not_elem_of_nil in Hin]. apply list_elem_of_singleton in Hin as ->. destruct (Hp p eq_refl) as (r & r' & _ & _ & ? & ?). eauto.
  - unfold used_permits. rewrite omap_app. apply NoDup_app. split_and!; [done| |destruct permit; [apply NoDup_singleton|constructor]].
    intros id Hin Hin'. destruct permit as [p|]; [|by apply not_elem_of_nil in Hin']. apply list_elem_of_singleton in Hin' as ->.
    destruct (Hp p eq_refl) as (r & _ & Hr & Hs & _), (lo_permits0 _ Hin) as (r1 & Hr1 & Hs1). rewrite Hr in Hr1. simplify_eq. by rewrite Hs in Hs1.
  - intros x g' [Hin|Hin]%elem_of_app.
    + destruct (lo_grants0 _ _ Hin) as (e0 & Hl & <-). apply He in Hl as (e' & Hl' & Hg' & _). exists e'. by split.
    + apply list_elem_of_singleton in Hin as [= -> ->]. exists e. by rewrite Hd', lookup_insert_eq.
  - rewrite !fmap_app. apply NoDup_app. split_and!; [done| |apply NoDup_singleton]. intros n Hin Hin'. apply list_elem_of_singleton in Hin' as ->.
    apply list_elem_of_fmap in Hin as (g' & Hn & Hin). apply list_elem_of_fmap in Hin as ([x g''] & -> & Hin). destruct (lo_grants0 _ _ Hin) as (e0 & Hl & Hg0). simpl in *.
    assert (gr_EnrollmentID g'' = gr_EnrollmentID g) as E; [|by rewrite <- E, Hl in Hnone]. assert (gr_EnrollmentID g'' ≠ gr_EnrollmentID g → False) as Hf.
    { intros Hne. apply Hne. apply (do_nodes _ _ _ _ Hd _ _ e0 e); [by rewrite Hd', lookup_insert_ne|by rewrite Hd', lookup_insert_eq|congruence]. }
    by destruct (decide (gr_EnrollmentID g'' = gr_EnrollmentID g)); [|destruct Hf].
  - intros id e'. rewrite Hd'. intros [[<- <-]|[_ Hl]]%lookup_insert_Some.
    + exists permit. rewrite Heg. apply elem_of_app. right. by apply list_elem_of_singleton.
    + destruct (lo_all0 _ _ Hl) as [x Hx]. exists x. apply elem_of_app. by left.
Qed.

Lemma fresh_entry_ok a t d r profile g d' n id :
  Identity_Validate (au_identity a) = Ok tt → data_ok (au_identity a) (au_config a) t d → fresh_grant a d r profile t g d' n id → request_valid r →
  VerifyEnrollmentGrant (i_PublicKey (au_identity a)) g = Ok tt ∧ (∃ n, gr_NodeID g = FormatUint n ∧ 0 < n ≤ maxInt ∧ n ≠ i_NodeID (au_identity a)) ∧
  rq_Fingerprint r = DevicePublicKeyFingerprint (default [] (RawStd_DecodeString (gr_DevicePublicKey g))) ∧
  gr_AdmissionProfile g = profile ∧ gr_IssuedAtUnixMS g = t ∧ gr_ParentNodeID g = FormatUint (rq_ParentNodeID r) ∧ gr_EnrollmentID g = id.
Proof.
  intros Hi Hd [Hg _ Hv [Hn1 Hn2] _ _ _] Hr. rewrite Hg in Hv. subst g. unfold grant_for in *. split_and!; try done.
  - by apply VerifyEnrollmentGrant_signed.
  - exists n. split_and!; try done; try lia. intros ->. apply Hn2, Hd.
  - simpl. rewrite RawStd_roundtrip. apply Hr.
Qed.

Lemma change_log a t d d' ev log :
  Identity_Validate (au_identity a) = Ok tt → 0 < t → is_i64 t → data_ok (au_identity a) (au_config a) t d → change a t d d' ev →
  log_ok (au_identity a) (au_config a) d log → log_ok (au_identity a) (au_config a) d' (log ++ ev).
Proof.
  intros Hi Ht Ht' Hd Hc Hl. pose proof (change_evolves _ _ _ _ _ Hd Hc) as Hev. pose proof (change_ok _ _ _ _ _ Hi Ht Ht' Hd Hc) as Hd'.
  destruct Hc as [|id r Hn|id r0 r Hlk Hs0 Hp Hq Hs|id r Hn|id r0 st re up Hlk Hp Hs|id e0 e Hlk Hs0 Hg Hf Hq Hs|r profile g d' n id Hf Hgr _|
    p rec r g d' n id rid Hf Hgr Hlk Hp Hs Hx Htime Hfp Hpar]; rewrite ?app_nil_r.
  - done.
  - eapply log_ok_quiet; [done| |done]. eauto.
  - eapply log_ok_quiet; [done| |done]. eauto.
  - eapply log_ok_quiet; [done| |done]. eauto.
  - eapply log_ok_quiet; [done| |done]. eauto.
  - eapply log_ok_quiet; [done| |done]. simpl. intros id' e' [[<- <-]|[_ He']]%lookup_insert_Some; eauto.
  - destruct (fresh_entry_ok _ _ _ _ _ _ _ _ _ Hi Hd Hf) as (V & Hnode & _ & _ & _ & _ & Hid); [apply Hgr|]. pose proof (fg_id _ _ _ _ _ _ _ _ _ Hf) as Hnone.
    eapply log_ok_grant; [done|done|done|by split_and!|by rewrite Hid|rewrite Hid; destruct Hf; by subst d'|done|done].
  - destruct (fresh_entry_ok _ _ _ _ _ _ _ _ _ Hi Hd Hf) as (V & Hnode & E1 & E2 & E3 & E4 & Hid); [apply Hgr|]. pose proof (fg_id _ _ _ _ _ _ _ _ _ Hf) as Hnone.
    destruct (do_permits _ _ _ _ Hd _ _ Hlk) as (_ & Hck & _). apply check_permit_parts in Hck as [Hvp _]. rewrite Hp in Hvp.
    eapply log_ok_grant; [done|done|done| |by rewrite Hid|rewrite Hid; destruct Hf; by subst d'|done|].
    + split; [done|split; [done|]]. simpl. split; [done|split; [congruence|split; [done|split; [by rewrite E3|by exists (rq_ParentNodeID r)]]]].
    + intros ? [= <-]. exists rec, (consumed_permit rec rid t). split_and!; try done. simpl. by rewrite lookup_insert_eq.
Qed.

Lemma refines_log a t a' ev log :
  authority_ok a t → 0 < t → is_i64 t → refines a t a' ev → log_ok (au_identity a) (au_config a) (au_data a) log →
  log_ok (au_identity a') (au_config a') (au_data a') (log ++ ev).
Proof.
  intros Ha Ht Ht' [[-> ->]|(d' & (d1 & Hd1 & Hc) & _ & ->)] Hl; [by rewrite app_nil_r|]. simpl. destruct Ha as [Hi _ _ Hd _].
  destruct Hd1 as [->| ->]; [by eapply change_log|]. eapply change_log; [done|done|done|by apply expirePendingRequests_ok|done|].
  eapply log_ok_quiet; [apply expire_evolves| |done]. eauto.
Qed.

(** ** Theorems *)



(** The life cycle of the authority's records: in every history nothing is forgotten. A
    permit, a request and an enrollment keep their identity; a consumed or revoked permit and
    a revoked enrollment stay that way; an approved request never changes again, a pending one
    can be decided, and a rejected or expired one can only become approved; a node identifier
    that was used stays used. *)
Theorem enrollment_lifecycle (i : Identity) (config : authorityConfig) (saved0 : bool) (a0 a1 a2 : EnrollmentAuthority) (t0 t1 t2 : Z) (log log' : list entry) :
  LoadEnrollmentAuthority i config (Some None) saved0 = Ok a0 → 0 < t0 → history a0 t0 a1 t1 log → history a1 t1 a2 t2 log' →
  evolves (au_data a1) (au_data a2).
Proof.
  intros Hl Ht Hh Hh'. destruct (fresh_authority _ _ _ _ Hl t0) as [Ha0 _].
  destruct (history_ind_refines (λ _ _, True) _ _ _ _ _ Hh Ha0 Ht I ltac:(done)) as (Ha1 & Ht1 & _).
  destruct (history_ind_refines (λ a _, evolves (au_data a1) (au_data a)) _ _ _ _ _ Hh' Ha1 Ht1) as (_ & _ & He); [done| |done].
  intros a t a' ev l Ha _ _ Hr He. etrans; [done|]. by eapply refines_evolves.
Qed.

(** ** Retries *)

Lemma find_issue_recorded i c t d order id r :
  data_ok i c t d → order ≡ₚ map_to_list (d_permits d) → d_permits d !! id = Some r → find_issue (ps_IssueRequestID r) order = Some r.
Proof.
  intros Hd Ho Hr. unfold find_issue. destruct (filter _ order.*2) as [|r' l] eqn:Ef.
  - assert (r ∈ filter (λ x, ps_IssueRequestID x = ps_IssueRequestID r) order.*2) as Hin; [|rewrite Ef in Hin; by apply not_elem_of_nil in Hin].
    apply list_elem_of_filter. split; [done|]. apply list_elem_of_fmap. exists (id, r). split; [done|]. rewrite Ho. by apply elem_of_map_to_list.
  - simpl. assert (r' ∈ filter (λ x, ps_IssueRequestID x = ps_IssueRequestID r) order.*2) as Hin by (rewrite Ef; left).
    apply list_elem_of_filter in Hin as [E Hin]. apply list_elem_of_fmap in Hin as ([id' r''] & -> & Hin). rewrite Ho in Hin. apply elem_of_map_to_list in Hin.
    simpl in *. pose proof (do_issues _ _ _ _ Hd _ _ _ _ Hin Hr E) as ->. congruence.
Qed.

(** What a successful [IssuePermit] leaves on record. *)
Lemma IssuePermit_recorded a issue fp target allow profile ttl order random now saved a' p :
  order ≡ₚ map_to_list (d_permits (au_data a)) → IssuePermit a issue fp target allow profile ttl order random now saved = (a', Ok p) →
  ∃ id r, d_permits (au_data a') !! id = Some r ∧ ps_Permit r = p ∧ ps_IssueRequestID r = issue ∧
    pm_DevicePublicKeyFingerprint p = fp ∧ pm_TargetNodeID p = FormatUint target ∧ pm_AllowDescendants p = allow ∧ pm_AdmissionProfile p = profile.
Proof.
  intros Ho. unfold IssuePermit. destruct (_ ≫= _) as [[]|]; [|done]. destruct (find_issue issue order) as [r|] eqn:Ef.
  - destruct (_ || _) eqn:Ec; [done|]. intros [= <- <-]. unfold find_issue in Ef. apply head_Some_elem_of, list_elem_of_filter in Ef as [E Hin].
    apply list_elem_of_fmap in Hin as ([id r'] & -> & Hin). rewrite Ho in Hin. apply elem_of_map_to_list in Hin. exists id, r'. bool_prop. eqb_prop.
    repeat match goal with H : Bool.eqb _ _ = true |- _ => apply Bool.eqb_prop in H end. by split_and!.
  - destruct (_ <=? _); [done|]. destruct (newUniqueIDLocked _ _) as [[id rest]|]; [|done]. set (permit := sign_permit _ _). destruct (Permit_Validate permit) as [[]|]; [|done].
    set (record := mkPermitState _ _ _ _ _ _ _). destruct (commit_cases a (put_permit (au_data a) (pm_PermitID permit) record) saved) as [[e ->]|[_ ->]]; [done|].
    simpl. intros [= <- <-]. exists (pm_PermitID permit), record. split_and!; try done. simpl. by rewrite lookup_insert_eq.
Qed.

(** A request that the authority has approved, with the enrollment in force. *)
Record in_force (a : EnrollmentAuthority) (id : string) (r : requestState) (e : enrollmentState) : Prop := mkInForce {
  if_request : d_requests (au_data a) !! id = Some r;
  if_approved : rq_Status r = "approved";
  if_enrollment : d_enrollments (au_data a) !! rq_EnrollmentID r = Some e;
  if_active : es_Status e = "active"
}.

Lemma Submit_in_force a t s order random now r e :
  authority_ok a t → in_force a (sb_RequestID s) r e → validateEnrollmentSubmission s = Ok tt → au_generation a ≠ maxUint64 →
  rq_DevicePublicKey r = sb_DevicePublicKey s → rq_ParentNodeID r = sb_ParentNodeID s → rq_ParentPublicKey r = sb_ParentPublicKey s →
  ∃ a', Submit a s order random now true = (a', Ok (mkOutcome "granted" (sb_RequestID s) (Some (es_Grant e)) "")) ∧
    d_enrollments (au_data a') = d_enrollments (au_data a) ∧ d_permits (au_data a') = d_permits (au_data a).
Proof.
  intros Ha [Hr Happ He Hact] Hv Hgen Hdev Hpar Hkey. unfold Submit. rewrite Hv. destruct (do_requests _ _ _ _ (uo_data _ _ Ha) _ _ Hr) as (Hid & Hrv & _).
  assert (d_requests (submit_data a now) !! sb_RequestID s = Some r) as -> by (simpl; rewrite lookup_fmap, Hr; simpl; unfold lapsed; by rewrite Happ).
  assert (same_origin (DevicePublicKeyFingerprint (sb_DevicePublicKey s)) s r = true) as ->.
  { unfold same_origin. rewrite (rv_fingerprint _ Hrv), Hdev, Hpar, Hkey, String.eqb_refl, Z.eqb_refl. by rewrite bool_decide_eq_true_2. }
  cbn [negb]. set (next := submit_data a now). set (changed := (expirePendingRequests _ _).2).
  assert (∃ a', submit_existing a next changed r true = (a', Ok (mkOutcome "granted" (sb_RequestID s) (Some (es_Grant e)) "")) ∧
    d_enrollments (au_data a') = d_enrollments (au_data a) ∧ d_permits (au_data a') = d_permits (au_data a)) as Hex.
  { assert (∀ a', d_enrollments (au_data a') = d_enrollments (au_data a) →
      outcomeForRequestLocked a' r = Ok (mkOutcome "granted" (sb_RequestID s) (Some (es_Grant e)) "")) as Hout.
    { intros a' Ea. unfold outcomeForRequestLocked. rewrite Happ, Ea. simpl. rewrite He, Hact. simpl. by rewrite Hid. }
    unfold submit_existing. destruct changed; [|exists a; by rewrite Hout].
    unfold Authority_commitLocked. rewrite (proj2 (Z.eqb_neq _ _) Hgen). cbn [negb mbind result_bind]. eexists. split; [by rewrite Hout|done]. }
  rewrite Happ. cbn [String.eqb Ascii.eqb Bool.eqb negb]. by destruct (sb_Permit s).
Qed.

(** Calls can be repeated: issuing a permit again under its issue request, whatever the
    clock, the random source and the order of the map, returns the same permit and changes
    nothing; a request that was approved answers every later submission of its device through
    its parent, and every later approval, with the same grant, using no permit and granting
    nothing. *)
Theorem enrollment_retries (i : Identity) (config : authorityConfig) (saved0 : bool) (a0 a : EnrollmentAuthority) (t0 t : Z) (log : list entry) :
  LoadEnrollmentAuthority i config (Some None) saved0 = Ok a0 → 0 < t0 → history a0 t0 a t log →
  (∀ issue fp target allow profile ttl order random now saved a' p,
    op_typed a (OIssue issue fp target allow profile ttl order random now saved) → t ≤ UnixMilli now → is_i64 (UnixMilli now) →
    IssuePermit a issue fp target allow profile ttl order random now saved = (a', Ok p) →
    ∀ order' random' now' saved', order' ≡ₚ map_to_list (d_permits (au_data a')) →
    IssuePermit a' issue fp target allow profile ttl order' random' now' saved' = (a', Ok p)) ∧
  (∀ id r e, in_force a id r e →
    (∀ s order random now, sb_RequestID s = id → validateEnrollmentSubmission s = Ok tt → au_generation a ≠ maxUint64 →
      rq_DevicePublicKey r = sb_DevicePublicKey s → rq_ParentNodeID r = sb_ParentNodeID s → rq_ParentPublicKey r = sb_ParentPublicKey s →
      ∃ a', Submit a s order random now true = (a', Ok (mkOutcome "granted" id (Some (es_Grant e)) "")) ∧
        d_enrollments (au_data a') = d_enrollments (au_data a) ∧ d_permits (au_data a') = d_permits (au_data a)) ∧
    (∀ command profile random now now' saved, validateEnrollmentHexID command 16 = Ok tt → profile ≠ "" → strlen profile ≤ MaxIdentifierBytes →
      Approve a command id profile random now now' saved = (a, Ok (es_Grant e)))).
Proof.
  intros Hl Ht Hh. destruct (fresh_authority _ _ _ _ Hl t0) as [Ha0 _].
  destruct (history_ind_refines (λ _ _, True) _ _ _ _ _ Hh Ha0 Ht I ltac:(done)) as (Ha & Ht' & _). split.
  - intros issue fp target allow profile ttl order random now saved a' p [Ty1 Ty2] Hm Hi64 Hp order' random' now' saved' Ho.
    destruct (IssuePermit_recorded _ _ _ _ _ _ _ _ _ _ _ _ _ Ty2 Hp) as (id & r & Hr & <- & Hq & H1 & H2 & H3 & H4).
    pose proof (IssuePermit_refines a t issue fp target allow profile ttl order random now saved Ha Hm Hi64 Ty1 Ty2) as Href. rewrite Hp in Href. simpl in Href.
    assert (au_config a' = au_config a) as Hcf by (by destruct Href as [[-> _]|(? & _ & _ & ->)]).
    apply refines_ok in Href; [|by eapply authority_ok_later|lia|done].
    unfold IssuePermit in Hp |- *. rewrite Hcf. destruct (_ ≫= _) as [[]|]; [|done].
    rewrite <- Hq, (find_issue_recorded _ _ _ _ _ _ _ (uo_data _ _ Href) Ho Hr), H1, H2, H3, H4, !String.eqb_refl, Bool.eqb_reflx. done.
  - intros id r e Hf. split.
    + intros s order random now <- Hv Hg H1 H2 H3. by eapply Submit_in_force.
    + intros command profile random now now' saved Hc Hp Hs. destruct Hf as [H1 H2 H3 H4]. destruct (do_requests _ _ _ _ (uo_data _ _ Ha) _ _ H1) as (Hid & Hrv & _).
      unfold Approve. rewrite Hc. simpl. rewrite <- Hid at 1. rewrite (rv_id _ Hrv). simpl. apply String.eqb_neq in Hp. rewrite Hp, (proj2 (Z.ltb_ge _ _) Hs). simpl.
      by rewrite H1, H2, H3, H4.
Qed.
End history.

(** ** Witnesses *)

Module Enroll_demo.
Definition config : authorityConfig := mkAuthorityConfig 0 0 0 0 0 0 0 None.
Definition hex (n : Z) : string := EncodeToString (be_bytes 16 n).
Definition empty : EnrollmentAuthority := mkAuthority (Toy.identity 9) config 0 (mkData ∅ ∅ ∅ ∅) None.
Definition a0 : EnrollmentAuthority :=
  match LoadEnrollmentAuthority (Toy.identity 9) config (Some None) true with Ok a => a | Err _ => empty end.
Definition key : list byte := be_bytes 32 5.
Definition at_ (s : Z) : Z := s * Second.
Definition issue : authority_op :=
  OIssue (hex 1) (DevicePublicKeyFingerprint key) 7 false "leaf" Hour [] (be_bytes 16 100) (at_ 5) true.
Definition run (a : EnrollmentAuthority) (op : authority_op) : EnrollmentAuthority :=
  match authority_step a op with Some (a', _) => a' | None => a end.
Definition a1 : EnrollmentAuthority := run a0 issue.
Definition permit : option EnrollmentPermitV1 := ps_Permit <$> d_permits (au_data a1) !! hex 100.
Definition submission (requestID : Z) (p : option EnrollmentPermitV1) : EnrollmentSubmission :=
  mkSubmission (hex requestID) key 7 (be_bytes 32 7) p (be_bytes 32 3).
Definition random (node id : Z) : list byte := be_bytes 8 node ++ be_bytes 16 id.
Definition order (a : EnrollmentAuthority) : list (string * requestState) := map_to_list (d_requests (au_data a)).
Definition submit (a : EnrollmentAuthority) (requestID : Z) (p : option EnrollmentPermitV1) (node s : Z) : authority_op :=
  OSubmit (submission requestID p) (order a) (random node (1000 + node)) (at_ s) true.
Definition a2 : EnrollmentAuthority := run a1 (submit a1 2 permit 50 6).
Definition grants (a : EnrollmentAuthority) : list EnrollmentGrantV1 := es_Grant <$> sorted_values (d_enrollments (au_data a)).
End Enroll_demo.

Lemma authority_step_run a op : is_Some (authority_step a op) → ∃ ev, authority_step a op = Some (Enroll_demo.run a op, ev).
Proof. unfold Enroll_demo.run. destruct (authority_step a op) as [[a' ev]|]; [eauto|by intros [??]]. Qed.

Lemma demo_loaded : LoadEnrollmentAuthority (Toy.identity 9) Enroll_demo.config (Some None) true = Ok Enroll_demo.a0.
Proof. vm_compute. reflexivity. Qed.

Lemma demo_call a0 t0 a t log op :
  history a0 t0 a t log → is_Some (authority_step a op) → t ≤ op_begin t op ≤ op_end t op → is_i64 (op_end t op) → op_typed a op →
  ∃ log', history a0 t0 (Enroll_demo.run a op) (op_end t op) log'.
Proof. intros Hh Hs Ht Hi Hty. destruct (authority_step_run a op Hs) as [ev Hev]. exists (log ++ ev). by eapply hi_call. Qed.

Lemma demo_issued : ∃ log, history Enroll_demo.a0 1 Enroll_demo.a1 5000 log.
Proof.
  apply (demo_call _ _ _ 1 [] Enroll_demo.issue (hi_start _ _)); [vm_compute; eauto|vm_compute; split; congruence|vm_compute; split; congruence|].
  split; [vm_compute; split; congruence|]. vm_compute. reflexivity.
Qed.

Lemma order_of_none a now : size (d_requests (au_data a)) = 0%nat → Enroll_demo.order a ≡ₚ map_to_list (d_requests (submit_data a now)).
Proof.
  intros Hz%map_size_empty_inv. unfold Enroll_demo.order, submit_data. simpl. by rewrite Hz, fmap_empty.
Qed.

#[global] Instance permit_ints_dec p : Decision (permit_ints p).
Proof. unfold permit_ints. apply _. Defined.
Lemma permit_ints_check (o : option EnrollmentPermitV1) : from_option (λ p, bool_decide (permit_ints p)) true o = true → ∀ p, o = Some p → permit_ints p.
Proof. intros Hb p ->. by apply bool_decide_eq_true in Hb. Qed.

Lemma demo_submitted a0 t0 log : history a0 t0 Enroll_demo.a1 5000 log → ∃ log', history a0 t0 Enroll_demo.a2 6000 log'.
Proof.
  intros Hh.
  apply (demo_call _ _ _ _ log (Enroll_demo.submit Enroll_demo.a1 2 Enroll_demo.permit 50 6) Hh); [vm_compute; eauto|vm_compute; split; congruence|vm_compute; split; congruence|].
  split; [apply order_of_none; vm_compute; reflexivity|]. split; [vm_compute; split; congruence|]. split; [vm_compute; reflexivity|].
  apply permit_ints_check. vm_compute. reflexivity.
Qed.
Lemma demo_granted : ∃ log, history Enroll_demo.a0 1 Enroll_demo.a2 6000 log.
Proof. destruct demo_issued as [log Hh]. by eapply demo_submitted. Qed.



Lemma enrollment_lifecycle_witness : evolves (au_data Enroll_demo.a1) (au_data Enroll_demo.a2).
Proof.
  destruct demo_issued as [log Hh]. destruct (demo_submitted _ _ _ (hi_start Enroll_demo.a1 5000)) as [log' Hh'].
  exact (enrollment_lifecycle _ _ _ _ _ _ _ _ _ _ _ demo_loaded Z.lt_0_1 Hh Hh').
Defined.

Lemma enrollment_retries_witness :
  let issue a now order := IssuePermit a (Enroll_demo.hex 1) (DevicePublicKeyFingerprint Enroll_demo.key) 7 false "leaf" Hour order (be_bytes 16 100) now true in
  match issue Enroll_demo.a0 (5 * Second) [] with
  | (a', Ok p) => issue a' (99 * Second) (map_to_list (d_permits (au_data a'))) = (a', Ok p)
  | _ => False
  end.
Proof.
  cbv beta zeta. assert (is_ok (IssuePermit Enroll_demo.a0 (Enroll_demo.hex 1) (DevicePublicKeyFingerprint Enroll_demo.key) 7 false "leaf" Hour [] (be_bytes 16 100) (5 * Second) true).2 = true) as Hok
    by (vm_compute; reflexivity).
  destruct (IssuePermit Enroll_demo.a0 _ _ _ _ _ _ _ _ _ _) as [a' [p|]] eqn:E; [|discriminate Hok].
  pose proof (enrollment_retries _ _ _ _ _ _ _ _ demo_loaded Z.lt_0_1 (hi_start Enroll_demo.a0 1)) as [Hr _].
  specialize (Hr (Enroll_demo.hex 1) (DevicePublicKeyFingerprint Enroll_demo.key) 7 false "leaf" Hour [] (be_bytes 16 100) (5 * Second) true a' p).
  apply Hr; [|vm_compute; congruence|vm_compute; split; congruence|exact E|reflexivity].
  split; [vm_compute; split; congruence|]. vm_compute. reflexivity.
Defined.

(** ** Where the authority does not keep its promises *)

Module Enroll_findings.
Import Enroll_demo.
(** A request made at 6 s; the clock is set back, and the request is approved at 3 s. *)
Definition waiting : EnrollmentAuthority := run a1 (submit a1 2 None 50 6).
Definition decided : EnrollmentAuthority := run waiting (OApprove (hex 3) (hex 2) "leaf" (random 51 1051) (at_ 3) (at_ 3) true).

(** One device behind one parent: its first request is rejected, it asks again under a new request,
    presents a permit under the first, and the second is approved. *)
Definition rejected : EnrollmentAuthority := run waiting (OReject (hex 3) (hex 2) "not now" (at_ 7) (at_ 7) true).
Definition again : EnrollmentAuthority := run rejected (submit rejected 4 None 52 8).
Definition admitted : EnrollmentAuthority := run again (submit again 2 permit 53 9).
Definition twice : EnrollmentAuthority := run admitted (OApprove (hex 5) (hex 4) "leaf" (random 54 1054) (at_ 10) (at_ 10) true).
End Enroll_findings.

(** After the wall clock was set back, an approval is recorded with a time of update before its
    time of creation: the approval is granted and saved, and from then on the authority refuses
    to load its own file, on every restart. *)
Theorem clock_set_back_locks_authority :
  length (Enroll_demo.grants Enroll_findings.decided) = 1%nat ∧ is_Some (au_disk Enroll_findings.decided) ∧
  ∀ saved, authority_step Enroll_findings.decided (ORestart saved) = None.
Proof. split_and!; [vm_compute; reflexivity|vm_compute; eauto|]. intros []; vm_compute; reflexivity. Qed.

(** A device can get two node identifiers behind one parent, although requests are meant to be
    one per device and parent: a rejected request still takes a permit while a newer request of
    the same device is pending, and that one can then be approved too. *)
Theorem device_enrolled_twice :
  gr_DevicePublicKey <$> Enroll_demo.grants Enroll_findings.twice = replicate 2 (RawStd_EncodeToString Enroll_demo.key) ∧
  gr_ParentNodeID <$> Enroll_demo.grants Enroll_findings.twice = replicate 2 "7" ∧
  gr_NodeID <$> Enroll_demo.grants Enroll_findings.twice = ["53"; "54"].
Proof. split_and!; vm_compute; reflexivity. Qed.
