(* ===== verification/EnrollmentSession.v ===== *)
(** * The enrollment handshake (runtime/enrollment)

    A device talks to its future parent over a pipe: ClientInit, Challenge, ClientProof,
    Result.  The server ([Handle]) asks the admission authority through a broker, an
    interface; the client ([Enroll]) checks who answers before it proves that it holds its
    key, and checks the grant.

    A side is a function of what the other one answers: [peer] gives the outcome of the next
    [Decode] on the pipe for the frame that was sent last.  Whether a write to the pipe
    succeeds, clock readings (nanoseconds), random bytes and the cancellation of the context
    are arguments.  The text of an error of the authority is a parameter. *)

From S2P Require Import Prelude GoStd GoSort GoEncoding GoJSON GoFloat GoStruct Wire Codec PolicySchema EnrollmentWire Payload EnrollmentPayload Identity Admission EnrollmentAuthority.
Open Scope Z_scope.

(** What a device learns about its parent and the authority. *)
Record TrustObservation := mkObservation {
  ob_ParentNodeID : NodeID; ob_ParentPublicKey : list byte; ob_AuthorityNodeID : NodeID; ob_AuthorityPublicKey : list byte
}.

Inductive session_error :=
| XContext | XDevice (e : auth_failure) | XRandom | XWire (e : wire_error) | XKeySize | XTTL | XParentIdentity (e : auth_failure)
| XPermitKey | XPermit (e : authority_error) | XPermitDevice | XPermitConflict | XPermitAuthority | XPermitTarget
| XPayload (e : payload_error) | XFrame (e : enrollment_error) | XUnexpected | XChallenge | XObservation | XChallengeSignature
| XParent | XParentKey | XAuthorityKey | XAuthority | ErrTrustConfirmationRequired | XConfirm
| XResultID | XOutcome (outcome : EnrollmentResultV1) (ob : TrustObservation) | XNoGrant | XGrant (e : authority_error) | XGrantMismatch | XNodeID | XReply (e : ErrorPayload).

(** ** Frames on the pipe *)

(** [Codec.Encode]: [wrote] is whether the pipe took the bytes. *)
Definition send (codec : EnrollmentCodec) (wrote : bool) (frame : EnrollmentFrame) : result session_error unit :=
  _ ← mapErr XFrame (Frame_Validate frame (enrollmentPayloadLimit codec));
  fail_if maxUint32 <? blen (f_Payload frame) with XFrame NWireLength ;;
  fail_if negb wrote with XFrame (NWriter CBodyEOF) ;;
  Ok tt.
Definition frame_of (type : Z) (payload : list byte) : EnrollmentFrame := mkFrame EnrollmentProtocolVersion type payload.
(** What the next [Decode] returns, for the frame that was sent last. *)
Definition peer : Type := EnrollmentFrame → result enrollment_error EnrollmentFrame.

(** ** wire.go *)

Record unsignedChallenge := mkUnsigned {
  uc_Version : Z; uc_RequestID : string; uc_ParentNodeID : string; uc_ParentPublicKey : string;
  uc_AuthorityNodeID : string; uc_AuthorityPublicKey : string; uc_Nonce : string; uc_ExpiresAtUnixMS : Z
}.
Definition unsigned_fields (c : unsignedChallenge) : list (string * json_value) :=
  [("version", JInt (uc_Version c)); ("request_id", JString (uc_RequestID c)); ("parent_node_id", JString (uc_ParentNodeID c));
   ("parent_public_key", JString (uc_ParentPublicKey c)); ("authority_node_id", JString (uc_AuthorityNodeID c));
   ("authority_public_key", JString (uc_AuthorityPublicKey c)); ("nonce", JString (uc_Nonce c)); ("expires_at_unix_ms", JInt (uc_ExpiresAtUnixMS c))].
Definition challengeMessage (c : unsignedChallenge) : list byte := bytes_of "MFHE-CHALLENGE-V1" ++ [x00] ++ Marshal (unsigned_fields c).
(** The fields of a challenge that are signed. *)
Definition unsigned_of (c : EnrollmentChallengeV1) : unsignedChallenge :=
  mkUnsigned (ch_Version c) (ch_RequestID c) (ch_ParentNodeID c) (ch_ParentPublicKey c) (ch_AuthorityNodeID c) (ch_AuthorityPublicKey c) (ch_Nonce c) (ch_ExpiresAtUnixMS c).

(** The lengths are written as 32-bit integers. *)
Definition transcript (initPayload challengePayload : list byte) : list byte :=
  bytes_of "MFHE-TRANSCRIPT-V1" ++ be_bytes 4 (blen initPayload) ++ initPayload ++ be_bytes 4 (blen challengePayload) ++ challengePayload.

Definition ParseNodeID (value : string) : option NodeID := let '(id, ok) := ParseUint value in if negb ok || (id =? 0) then None else Some id.
Definition key_bytes (value : string) : list byte := default [] (RawStd_DecodeString value).

Section session.
Context `{Crypto}.

Definition transcriptDigest (initPayload challengePayload : list byte) : list byte := Sum256 (transcript initPayload challengePayload).
Definition signChallenge (privateKey : list byte) (c : unsignedChallenge) : list byte := Sign privateKey (challengeMessage c).
Definition verifyChallenge (publicKey : list byte) (c : unsignedChallenge) (signature : list byte) : bool :=
  (blen publicKey =? PublicKeySize) && (blen signature =? SignatureSize) && Verify publicKey (challengeMessage c) signature.

(** ** The server *)

(** The interface to the admission authority. *)
Class Broker (B : Type) := {
  AuthorityIdentity : B → option (NodeID * list byte);
  Broker_Submit : B → EnrollmentSubmission → B * result authority_error EnrollmentOutcome
}.
(** [LocalBroker]: the authority of this node, with the order of its map of requests, the random
    bytes, the time and the outcome of the save that a submission will meet. *)
Record LocalBroker := mkLocalBroker {
  lb_Authority : EnrollmentAuthority; lb_order : list (string * requestState); lb_random : list byte; lb_now : Z; lb_saved : bool
}.
#[global] Instance LocalBroker_broker : Broker LocalBroker := {|
  AuthorityIdentity b := Some (i_NodeID (au_identity (lb_Authority b)), i_PublicKey (au_identity (lb_Authority b)));
  Broker_Submit b s :=
    let '(a, r) := Submit (lb_Authority b) s (lb_order b) (lb_random b) (lb_now b) (lb_saved b) in
    (mkLocalBroker a (lb_order b) (lb_random b) (lb_now b) (lb_saved b), r)
|}.

Record Server := mkServer { sv_parent : Identity; sv_codec : EnrollmentCodec; sv_challengeTTL : Z }.
(** [NewServer]: the trust store and the broker are kept apart. *)
Definition NewServer (parent : Identity) (codec : EnrollmentCodec) (challengeTTL : Z) : result session_error Server :=
  _ ← mapErr XParentIdentity (Identity_Validate parent);
  let challengeTTL := if challengeTTL <=? 0 then 30 * Second else challengeTTL in
  fail_if (challengeTTL <? Second) || (5 * 60 * Second <? challengeTTL) with XTTL ;;
  Ok (mkServer parent codec challengeTTL).

Definition enrollmentErrorCode (e : authority_error) : string :=
  match e with
  | UPermitConsumed | ErrEnrollmentConflict => CodeConflict
  | UPermitRevoked | ErrEnrollmentRevoked => CodeGone
  | UPermitInvalid => CodeForbidden
  | _ => CodeInternal
  end.

(** The frames a call sends, and what it returns. *)
Definition sends : Type := list EnrollmentFrame * result session_error unit.
Definition send_result (server : Server) (r : EnrollmentResultV1) (wrote : bool) (k : result session_error unit) : sends :=
  match EncodeJSONPayload r EnrollmentMaxPayload with
  | Err e => ([], Err (XPayload e))
  | Ok payload =>
    let frame := frame_of EnrollmentMessageResult payload in
    match send (sv_codec server) wrote frame with Err e => ([], Err e) | Ok _ => ([frame], k) end
  end.
Definition sendOutcome (server : Server) (outcome : EnrollmentOutcome) (wrote : bool) : sends :=
  send_result server
    (mkResult SchemaVersionV1 (oc_RequestID outcome) (oc_Status outcome) (oc_Grant outcome)
       (if String.eqb (oc_Status outcome) "rejected" then Some (mkErrorPayload CodeForbidden (oc_Reason outcome) false ∅) else None)
       (if String.eqb (oc_Status outcome) "pending" then 2000 else 0)) wrote (Ok tt).
Definition sendFailure (server : Server) (requestID code message : string) (retryable : bool) (wrote : bool) : sends :=
  let e := mkErrorPayload code message retryable ∅ in
  send_result server (mkResult SchemaVersionV1 requestID "error" None (Some e) 0) wrote (Err (XReply e)).

(** What a call leaves behind. *)
Record handled (B : Type) := mkHandled { h_sent : list EnrollmentFrame; h_broker : B; h_trust : TrustStore; h_result : result session_error unit }.
Arguments mkHandled {B}.
Arguments h_sent {B}.
Arguments h_broker {B}.
Arguments h_trust {B}.
Arguments h_result {B}.

Definition make_challenge (server : Server) (requestID : string) (authority : NodeID * list byte) (nonce : list byte) (now : Z) : unsignedChallenge :=
  mkUnsigned SchemaVersionV1 requestID (FormatUint (i_NodeID (sv_parent server))) (RawStd_EncodeToString (i_PublicKey (sv_parent server)))
    (FormatUint authority.1) (RawStd_EncodeToString authority.2) (RawStd_EncodeToString nonce) (UnixMilli (now + sv_challengeTTL server)).
Definition sign_challenge (server : Server) (u : unsignedChallenge) : EnrollmentChallengeV1 :=
  mkChallenge (uc_Version u) (uc_RequestID u) (uc_ParentNodeID u) (uc_ParentPublicKey u) (uc_AuthorityNodeID u) (uc_AuthorityPublicKey u) (uc_Nonce u)
    (uc_ExpiresAtUnixMS u) (RawStd_EncodeToString (signChallenge (i_PrivateKey (sv_parent server)) u)).

(** The grant is for this session. *)
Definition grant_matches (g : EnrollmentGrantV1) (devicePublicKey : string) (u : unsignedChallenge) : bool :=
  String.eqb (gr_DevicePublicKey g) devicePublicKey && String.eqb (gr_ParentNodeID g) (uc_ParentNodeID u) && String.eqb (gr_ParentPublicKey g) (uc_ParentPublicKey u)
  && String.eqb (gr_AuthorityNodeID g) (uc_AuthorityNodeID u) && String.eqb (gr_AuthorityPublicKey g) (uc_AuthorityPublicKey u).

Section handle.
Context `{Broker B} (error_text : authority_error → string) (server : Server) (trust : TrustStore) (wrote : bool) (saved : bool).

Definition done_with (sent : list EnrollmentFrame) (b : B) (t : TrustStore) (s : sends) : handled B := mkHandled (sent ++ s.1) b t s.2.

(** After the broker answered. *)
Definition handle_outcome (sent : list EnrollmentFrame) (b : B) (init : EnrollmentClientInitV1) (u : unsignedChallenge) (outcome : EnrollmentOutcome) : handled B :=
  let failure code message retryable := sendFailure server (ci_RequestID init) code message retryable wrote in
  if String.eqb (oc_Status outcome) "granted" then
    match oc_Grant outcome with
    | None => done_with sent b trust (failure CodeInternal "admission authority returned a mismatched Grant" false)
    | Some g =>
      if negb (grant_matches g (ci_DevicePublicKey init) u) then
        done_with sent b trust (failure CodeInternal "admission authority returned a mismatched Grant" false)
      else match ParseNodeID (gr_NodeID g) with
      | None => done_with sent b trust (failure CodeInternal "admission authority returned an invalid Node ID" false)
      | Some nodeID =>
        let '(t, r) := TrustStore_Add trust nodeID (key_bytes (ci_DevicePublicKey init)) saved in
        match r with
        | Err _ => done_with sent b t (failure CodeInternal "failed to persist the granted child trust" true)
        | Ok _ => done_with sent b t (sendOutcome server outcome wrote)
        end
      end
    end
  else done_with sent b trust (sendOutcome server outcome wrote).

(** After the proof arrived. *)
Definition handle_proof (sent : list EnrollmentFrame) (b : B) (init : EnrollmentClientInitV1) (initPayload : list byte) (u : unsignedChallenge)
    (challengePayload : list byte) (proofFrame : EnrollmentFrame) (now : Z) : handled B :=
  let failure code message := done_with sent b trust (sendFailure server (ci_RequestID init) code message false wrote) in
  if negb (f_Type proofFrame =? EnrollmentMessageProof) then failure CodeMalformed "expected ClientProof" else
  match DecodeJSONPayload (f_Payload proofFrame) EnrollmentMaxPayload with
  | Err _ => failure CodeMalformed "invalid ClientProof"
  | Ok proof =>
    if negb (String.eqb (pr_RequestID proof) (ci_RequestID init)) || negb (String.eqb (pr_Nonce proof) (uc_Nonce u)) || (uc_ExpiresAtUnixMS u <=? UnixMilli now)
    then failure CodeExpired "enrollment challenge is mismatched or expired" else
    let digest := transcriptDigest initPayload challengePayload in
    if negb (Verify (key_bytes (ci_DevicePublicKey init)) digest (key_bytes (pr_Signature proof)))
    then failure CodeUnauthenticated "device proof signature is invalid" else
    match (if String.eqb (ci_Permit init) "" then Ok None
           else permit ← DecodeJSONPayload (bytes_of (ci_Permit init)) EnrollmentMaxPayload; Ok (Some permit)) with
    | Err _ => failure CodeMalformed "enrollment Permit is invalid"
    | Ok permit =>
      let '(b, r) := Broker_Submit b (mkSubmission (ci_RequestID init) (key_bytes (ci_DevicePublicKey init)) (i_NodeID (sv_parent server))
                                        (i_PublicKey (sv_parent server)) permit digest) in
      match r with
      | Err e => done_with sent b trust (sendFailure server (ci_RequestID init) (enrollmentErrorCode e) (error_text e) false wrote)
      | Ok outcome => handle_outcome sent b init u outcome
      end
    end
  end.

(** [Handle]: [received] is the outcome of the first [Decode], [client] what the device answers to
    the challenge, [wrote'] whether the challenge was written. *)
Definition Handle (b : B) (cancelled : bool) (received : result enrollment_error EnrollmentFrame) (nonce : option (list byte)) (client : peer)
    (now now' : Z) (wrote' : bool) : handled B :=
  let stop e := mkHandled [] b trust (Err e) in
  if cancelled then stop XContext else
  match received with
  | Err e => stop (XFrame e)
  | Ok initFrame =>
    if negb (f_Type initFrame =? EnrollmentMessageClientInit) then stop XUnexpected else
    match DecodeJSONPayload (f_Payload initFrame) EnrollmentMaxPayload with
    | Err e => stop (XPayload e)
    | Ok init =>
      let failure code message retryable := done_with [] b trust (sendFailure server (ci_RequestID init) code message retryable wrote) in
      if negb (String.eqb (ci_ExpectedParentNodeID init) "") && negb (String.eqb (ci_ExpectedParentNodeID init) (FormatUint (i_NodeID (sv_parent server))))
      then failure CodeConflict "connected parent does not match expected parent" false
      else if negb (String.eqb (ci_ExpectedParentPublicKey init) "")
              && negb (String.eqb (ci_ExpectedParentPublicKey init) (RawStd_EncodeToString (i_PublicKey (sv_parent server))))
      then failure CodeConflict "connected parent key does not match expected parent" false
      else match AuthorityIdentity b with
      | None => failure CodeInternal "admission authority is unavailable" true
      | Some authority =>
        if negb (is_ok (NodeID_Validate authority.1)) || negb (blen authority.2 =? PublicKeySize)
        then failure CodeInternal "admission authority identity is invalid" false
        else match nonce with
        | None => stop XRandom
        | Some nonce =>
          let u := make_challenge server (ci_RequestID init) authority nonce now in
          match EncodeJSONPayload (sign_challenge server u) EnrollmentMaxPayload with
          | Err e => stop (XPayload e)
          | Ok challengePayload =>
            let frame := frame_of EnrollmentMessageChallenge challengePayload in
            match send (sv_codec server) wrote' frame with
            | Err e => stop e
            | Ok _ =>
              match client frame with
              | Err e => mkHandled [frame] b trust (Err (XFrame e))
              | Ok proofFrame => handle_proof [frame] b init (f_Payload initFrame) u challengePayload proofFrame now'
              end
            end
          end
        end
      end
    end
  end.
End handle.

(** ** The client *)

(** [ConfirmTOFU] answers [true] when it returns no error. *)
Record ClientOptions := mkOptions {
  op_RequestID : string; op_Permit : option EnrollmentPermitV1; op_ExpectedParentNodeID : NodeID; op_ExpectedParentPublicKey : list byte;
  op_ExpectedAuthorityNodeID : NodeID; op_ExpectedAuthorityPublicKey : list byte; op_AllowTOFU : bool;
  op_ConfirmTOFU : option (TrustObservation → bool); op_Codec : EnrollmentCodec
}.
Record ClientResult := mkClientResult { cr_Outcome : EnrollmentResultV1; cr_Identity : option Identity; cr_Observation : TrustObservation }.

Definition decodeTrustObservation (c : EnrollmentChallengeV1) : result session_error TrustObservation :=
  match ParseNodeID (ch_ParentNodeID c), ParseNodeID (ch_AuthorityNodeID c) with
  | Some parent, Some authority => Ok (mkObservation parent (key_bytes (ch_ParentPublicKey c)) authority (key_bytes (ch_AuthorityPublicKey c)))
  | _, _ => Err XObservation
  end.

(** The permit: its authority key becomes the anchor, and its text is sent along. *)
Definition check_permit_option (device : DeviceIdentity) (anchor : list byte) (permit : option EnrollmentPermitV1) : result session_error (list byte * string) :=
  match permit with
  | None => Ok (anchor, "")
  | Some p =>
    match RawStd_DecodeString (pm_AuthorityPublicKey p) with
    | None => Err XPermitKey
    | Some permitKey =>
      fail_if negb (blen permitKey =? PublicKeySize) with XPermitKey ;;
      _ ← mapErr XPermit (VerifyEnrollmentPermit permitKey p);
      fail_if negb (String.eqb (pm_DevicePublicKeyFingerprint p) (DevicePublicKeyFingerprint (dv_PublicKey device))) with XPermitDevice ;;
      fail_if negb (bool_decide (anchor = [])) && negb (bool_decide (anchor = permitKey)) with XPermitConflict ;;
      payload ← mapErr XPayload (EncodeJSONPayload p EnrollmentMaxPayload);
      Ok (permitKey, String.string_of_list_byte payload)
    end
  end.

(** Up to the first frame: the record, its payload and the anchored authority key. *)
Definition enroll_init (device : DeviceIdentity) (o : ClientOptions) (cancelled : bool) (generated : option MessageID)
    : result session_error (EnrollmentClientInitV1 * list byte * list byte) :=
  _ ← mapErr XDevice (Device_Validate device);
  fail_if cancelled with XContext ;;
  requestID ← (if String.eqb (op_RequestID o) "" then match generated with Some id => Ok (MessageID_String id) | None => Err XRandom end else Ok (op_RequestID o));
  _ ← (if op_ExpectedParentNodeID o =? 0 then Ok tt else mapErr XWire (NodeID_Validate (op_ExpectedParentNodeID o)));
  fail_if negb (bool_decide (op_ExpectedParentPublicKey o = [])) && negb (blen (op_ExpectedParentPublicKey o) =? PublicKeySize) with XKeySize ;;
  _ ← (if op_ExpectedAuthorityNodeID o =? 0 then Ok tt else mapErr XWire (NodeID_Validate (op_ExpectedAuthorityNodeID o)));
  fail_if negb (bool_decide (op_ExpectedAuthorityPublicKey o = [])) && negb (blen (op_ExpectedAuthorityPublicKey o) =? PublicKeySize) with XKeySize ;;
  '(anchor, permit) ← check_permit_option device (op_ExpectedAuthorityPublicKey o) (op_Permit o);
  let init := mkClientInit SchemaVersionV1 requestID (RawStd_EncodeToString (dv_PublicKey device)) permit
    (if op_ExpectedParentNodeID o =? 0 then "" else FormatUint (op_ExpectedParentNodeID o))
    (if bool_decide (op_ExpectedParentPublicKey o = []) then "" else RawStd_EncodeToString (op_ExpectedParentPublicKey o)) in
  payload ← mapErr XPayload (EncodeJSONPayload init EnrollmentMaxPayload);
  Ok (init, payload, anchor).

(** Who answers is who is expected. *)
Definition check_trust (o : ClientOptions) (anchor : list byte) (c : EnrollmentChallengeV1) (ob : TrustObservation) : result session_error unit :=
  fail_if negb (verifyChallenge (ob_ParentPublicKey ob) (unsigned_of c) (key_bytes (ch_Signature c))) with XChallengeSignature ;;
  fail_if negb (op_ExpectedParentNodeID o =? 0) && negb (ob_ParentNodeID ob =? op_ExpectedParentNodeID o) with XParent ;;
  fail_if negb (bool_decide (op_ExpectedParentPublicKey o = [])) && negb (bool_decide (op_ExpectedParentPublicKey o = ob_ParentPublicKey ob)) with XParentKey ;;
  fail_if negb (bool_decide (anchor = [])) && negb (bool_decide (anchor = ob_AuthorityPublicKey ob)) with XAuthorityKey ;;
  fail_if negb (op_ExpectedAuthorityNodeID o =? 0) && negb (op_ExpectedAuthorityNodeID o =? ob_AuthorityNodeID ob) with XAuthority ;;
  _ ← match op_Permit o with
      | None => Ok tt
      | Some p =>
        fail_if negb (String.eqb (pm_AuthorityNodeID p) (ch_AuthorityNodeID c)) with XPermitAuthority ;;
        fail_if negb (pm_AllowDescendants p) && negb (String.eqb (pm_TargetNodeID p) (ch_ParentNodeID c)) with XPermitTarget ;;
        Ok tt
      end;
  if negb (bool_decide (op_ExpectedParentPublicKey o = [])) || bool_decide (is_Some (op_Permit o)) then Ok tt else
  fail_if negb (op_AllowTOFU o) with ErrTrustConfirmationRequired ;;
  match op_ConfirmTOFU o with
  | None => Ok tt
  | Some confirm => fail_if negb (confirm ob) with XConfirm ;; Ok tt
  end.

(** From the frame with the challenge to the one with the proof. *)
Definition enroll_prove (device : DeviceIdentity) (o : ClientOptions) (init : EnrollmentClientInitV1) (initPayload anchor : list byte) (frame : EnrollmentFrame) (now : Z)
    : result session_error (EnrollmentChallengeV1 * TrustObservation * list byte) :=
  fail_if negb (f_Type frame =? EnrollmentMessageChallenge) with XUnexpected ;;
  challenge ← mapErr XPayload (DecodeJSONPayload (f_Payload frame) EnrollmentMaxPayload);
  fail_if negb (String.eqb (ch_RequestID challenge) (ci_RequestID init)) || (ch_ExpiresAtUnixMS challenge <=? UnixMilli now) with XChallenge ;;
  ob ← decodeTrustObservation challenge;
  _ ← check_trust o anchor challenge ob;
  let proof := mkProof SchemaVersionV1 (ci_RequestID init) (ch_Nonce challenge)
    (RawStd_EncodeToString (Sign (dv_PrivateKey device) (transcriptDigest initPayload (f_Payload frame)))) in
  payload ← mapErr XPayload (EncodeJSONPayload proof EnrollmentMaxPayload);
  Ok (challenge, ob, payload).

(** The result; an error that the server reports is returned with the outcome and the observation. *)
Definition enroll_finish (device : DeviceIdentity) (init : EnrollmentClientInitV1) (challenge : EnrollmentChallengeV1) (ob : TrustObservation) (frame : EnrollmentFrame)
    : result session_error ClientResult :=
  fail_if negb (f_Type frame =? EnrollmentMessageResult) with XUnexpected ;;
  res ← mapErr XPayload (DecodeJSONPayload (f_Payload frame) EnrollmentMaxPayload);
  fail_if negb (String.eqb (re_RequestID res) (ci_RequestID init)) with XResultID ;;
  if String.eqb (re_Status res) "error" || String.eqb (re_Status res) "rejected" then
    Err (XOutcome res ob)
  else if String.eqb (re_Status res) "pending" then Ok (mkClientResult res None ob)
  else match re_Grant res with
  | None => Err XNoGrant
  | Some grant =>
    _ ← mapErr XGrant (VerifyEnrollmentGrant (ob_AuthorityPublicKey ob) grant);
    fail_if negb (grant_matches grant (ci_DevicePublicKey init) (unsigned_of challenge)) with XGrantMismatch ;;
    match ParseNodeID (gr_NodeID grant) with
    | None => Err XNodeID
    | Some nodeID => identity ← mapErr XDevice (Device_Enroll device nodeID); Ok (mkClientResult res (Some identity) ob)
    end
  end.

(** A failed read or write gives the error of the context when that was cancelled in the meantime. *)
Definition enrollmentContextError {A} (cancelled : bool) (r : result session_error A) : result session_error A :=
  match r with Ok a => Ok a | Err e => Err (if cancelled then XContext else e) end.

(** [Enroll]: [server] and [server'] are what the other side answers to the two frames. *)
Definition Enroll (device : DeviceIdentity) (o : ClientOptions) (cancelled cancelled' : bool) (generated : option MessageID) (server server' : peer) (now : Z) (wrote wrote' : bool)
    : result session_error ClientResult :=
  '(init, initPayload, anchor) ← enroll_init device o cancelled generated;
  let frame := frame_of EnrollmentMessageClientInit initPayload in
  _ ← enrollmentContextError cancelled' (send (op_Codec o) wrote frame);
  challengeFrame ← enrollmentContextError cancelled' (mapErr XFrame (server frame));
  '(challenge, ob, proofPayload) ← enroll_prove device o init initPayload anchor challengeFrame now;
  let frame' := frame_of EnrollmentMessageProof proofPayload in
  _ ← enrollmentContextError cancelled' (send (op_Codec o) wrote' frame');
  resultFrame ← enrollmentContextError cancelled' (mapErr XFrame (server' frame'));
  enroll_finish device init challenge ob resultFrame.
End session.
Arguments mkHandled {B}.
Arguments h_sent {B}.
Arguments h_broker {B}.
Arguments h_trust {B}.
Arguments h_result {B}.
