(* ===== verification/EnrollmentHandshake.v ===== *)
(** * Theorems about the enrollment handshake (runtime/enrollment)

    What each side knows when its call returns, whatever the other side sends; and that an
    honest device and an honest parent with the authority of this node end with the device
    holding an identity that the parent trusts. *)

From S2P Require Import Prelude GoStd GoSort GoEncoding GoJSON GoFloat GoStruct Wire Codec PolicySchema EnrollmentWire Payload EnrollmentPayload Identity Admission EnrollmentAuthority EnrollmentTheory EnrollmentHistory EnrollmentSession.
Open Scope Z_scope.

Section server.
Context `{Crypto} `{Broker B} (error_text : authority_error → string) (server : Server) (trust : TrustStore) (wrote saved : bool).

Lemma sendFailure_error requestID code message retryable w : (sendFailure server requestID code message retryable w).2 ≠ Ok tt.
Proof. unfold sendFailure, send_result. destruct (EncodeJSONPayload _ _); [|done]. by destruct (send _ _ _). Qed.

(** What [Add] does when the store changes or the call succeeds. *)
Lemma TrustStore_Add_cases t nodeID key s :
  let '(t', r) := TrustStore_Add t nodeID key s in
  (t' = t ∨ (t_keys t !! nodeID = None ∧ t_keys t' = <[nodeID := key]> (t_keys t))) ∧
  (r = Ok tt → t_keys t' !! nodeID = Some key).
Proof.
  unfold TrustStore_Add, trust_commit. destruct (NodeID_Validate nodeID); [|by split; [left|]]. destruct (negb _); [by split; [left|]|].
  destruct (t_keys t !! nodeID) as [current|] eqn:Ek.
  - case_bool_decide; (split; [by left|]); [by intros _; subst|done].
  - destruct (_ =? _); [by split; [left|]|]. destruct (_ && _); [by split; [left|]|]. simpl.
    split; [by right|]. intros _. by rewrite lookup_insert_eq.
Qed.

(** The trust that a granted submission of [s] leaves behind. *)
Definition trust_of (r : result authority_error EnrollmentOutcome) (device : list byte) (h : handled B) : Prop :=
  (h_trust h = trust ∨ ∃ outcome g nodeID, r = Ok outcome ∧ oc_Status outcome = "granted" ∧ oc_Grant outcome = Some g ∧
     ParseNodeID (gr_NodeID g) = Some nodeID ∧ t_keys trust !! nodeID = None ∧ t_keys (h_trust h) = <[nodeID := device]> (t_keys trust)) ∧
  (h_result h = Ok tt → ∃ outcome, r = Ok outcome ∧ (oc_Status outcome = "granted" →
     ∃ g nodeID, oc_Grant outcome = Some g ∧ ParseNodeID (gr_NodeID g) = Some nodeID ∧ t_keys (h_trust h) !! nodeID = Some device)).

Lemma failed_trust_of r device sent b requestID code message retryable :
  trust_of r device (done_with (B := B) sent b trust (sendFailure server requestID code message retryable wrote)).
Proof. split; [by left|]. simpl. intros E. by destruct (sendFailure_error _ _ _ _ _ E). Qed.

Lemma handle_outcome_trust sent b init u outcome :
  trust_of (Ok outcome) (key_bytes (ci_DevicePublicKey init)) (handle_outcome (B := B) server trust wrote saved sent b init u outcome) ∧
  h_broker (handle_outcome (B := B) server trust wrote saved sent b init u outcome) = b.
Proof.
  unfold handle_outcome. destruct (String.eqb_spec (oc_Status outcome) "granted") as [Eg|Eg]; [|by split; [split; [left|intros _; exists outcome]|]].
  destruct (oc_Grant outcome) as [g|] eqn:Eo; [|split; [apply failed_trust_of|done]]. destruct (negb _); [split; [apply failed_trust_of|done]|].
  destruct (ParseNodeID (gr_NodeID g)) as [nodeID|] eqn:En; [|split; [apply failed_trust_of|done]].
  pose proof (TrustStore_Add_cases trust nodeID (key_bytes (ci_DevicePublicKey init)) saved) as Ha. destruct (TrustStore_Add _ _ _ _) as [t r].
  destruct Ha as [Ht Hr].
  assert (∀ h : handled B, h_trust h = t → h_trust h = trust ∨ ∃ o' g' n, Ok (E := authority_error) outcome = Ok o' ∧ oc_Status o' = "granted" ∧ oc_Grant o' = Some g' ∧
     ParseNodeID (gr_NodeID g') = Some n ∧ t_keys trust !! n = None ∧ t_keys (h_trust h) = <[n := key_bytes (ci_DevicePublicKey init)]> (t_keys trust)) as Hchange.
  { intros h ->. destruct Ht as [->|[Hn Hk]]; [by left|right]. by exists outcome, g, nodeID. }
  destruct r as [[]|e]; (split; [|done]); (split; [by apply Hchange|]).
  - intros _. exists outcome. split; [done|]. intros _. exists g, nodeID. simpl. auto.
  - simpl. intros E. by destruct (sendFailure_error _ _ _ _ _ E).
Qed.

(** The proof of possession that lets a submission through: what was received, what was sent
    and what is asked of the authority. *)
Record proved (init : EnrollmentClientInitV1) (initPayload challengePayload : list byte) (u : unsignedChallenge) (proofFrame : EnrollmentFrame) (now : Z)
    (s : EnrollmentSubmission) : Prop := mkProved {
  pv_proof : ∃ proof, DecodeJSONPayload (f_Payload proofFrame) EnrollmentMaxPayload = Ok proof ∧ pr_RequestID proof = ci_RequestID init ∧ pr_Nonce proof = uc_Nonce u ∧
    Verify (sb_DevicePublicKey s) (sb_TranscriptDigest s) (key_bytes (pr_Signature proof)) = true;
  pv_time : UnixMilli now < uc_ExpiresAtUnixMS u;
  pv_digest : sb_TranscriptDigest s = transcriptDigest initPayload challengePayload;
  pv_request : sb_RequestID s = ci_RequestID init ∧ sb_DevicePublicKey s = key_bytes (ci_DevicePublicKey init);
  pv_parent : sb_ParentNodeID s = i_NodeID (sv_parent server) ∧ sb_ParentPublicKey s = i_PublicKey (sv_parent server)
}.
(** Nothing happened. *)
Definition unused (b : B) (h : handled B) : Prop := h_broker h = b ∧ h_trust h = trust ∧ h_result h ≠ Ok tt.

Lemma failed_unused (b : B) sent requestID code message retryable :
  unused b (done_with sent b trust (sendFailure server requestID code message retryable wrote)).
Proof. split_and!; [done..|]. apply sendFailure_error. Qed.
Lemma handle_outcome_sent sent (b : B) init u outcome : ∃ more, h_sent (handle_outcome server trust wrote saved sent b init u outcome) = sent ++ more.
Proof. unfold handle_outcome, done_with. repeat case_match; simpl; eauto. Qed.
Lemma handle_proof_sent sent (b : B) init initPayload u challengePayload proofFrame now :
  ∃ more, h_sent (handle_proof error_text server trust wrote saved sent b init initPayload u challengePayload proofFrame now) = sent ++ more.
Proof. unfold handle_proof, done_with. repeat case_match; simpl; eauto using handle_outcome_sent. Qed.

Lemma handle_proof_sound sent (b : B) init initPayload u challengePayload proofFrame now :
  let h := handle_proof error_text server trust wrote saved sent b init initPayload u challengePayload proofFrame now in
  unused b h ∨ ∃ s, proved init initPayload challengePayload u proofFrame now s ∧ h_broker h = (Broker_Submit b s).1 ∧ trust_of (Broker_Submit b s).2 (sb_DevicePublicKey s) h.
Proof.
  unfold handle_proof. destruct (negb _); [left; apply failed_unused|].
  destruct (DecodeJSONPayload (A := EnrollmentProofV1) _ _) as [proof|] eqn:Ep; [|left; apply failed_unused].
  destruct (_ || _) eqn:Eo; [left; apply failed_unused|]. destruct (Verify _ _ _) eqn:Ev; [|left; apply failed_unused]. simpl.
  match goal with |- context [match ?x with Ok _ => _ | Err _ => _ end] => destruct x as [permit|] end; [|left; apply failed_unused].
  set (s := mkSubmission _ _ _ _ _ _). right. exists s. apply orb_false_iff in Eo as [Eo E3]. apply orb_false_iff in Eo as [E1 E2].
  apply negb_false_iff, String.eqb_eq in E1, E2. apply Z.leb_gt in E3. split.
  { split; try done. exists proof. by split_and!. }
  destruct (Broker_Submit b s) as [b' [outcome|e]]; [|split; [done|apply failed_trust_of]].
  destruct (handle_outcome_trust sent b' init u outcome) as [Ht Hb]. done.
Qed.

(** C26. The parent asks the authority, and trusts a child, only for a device that proved its key.
    Whatever the device sends: either the authority is not asked, the trust store is as it was
    and the call fails; or it is asked once, with the key of the first message, after a
    signature by that key over exactly that message and the challenge that was sent in answer
    was received, with the request and nonce of the challenge, before it expired.  The trust
    store gains at most that key, under the node of a grant, where none was; and when the
    call succeeds on a grant, the key is in the store. *)
Theorem handle_authenticates (b : B) (cancelled : bool) (received : result enrollment_error EnrollmentFrame) (nonce : option (list byte))
    (client : peer) (now now' : Z) (wrote' : bool) :
  let h := Handle error_text server trust wrote saved b cancelled received nonce client now now' wrote' in
  unused b h ∨
  ∃ initFrame init u challenge proofFrame s,
    received = Ok initFrame ∧ DecodeJSONPayload (f_Payload initFrame) EnrollmentMaxPayload = Ok init ∧
    head (h_sent h) = Some challenge ∧ client challenge = Ok proofFrame ∧
    EncodeJSONPayload (sign_challenge server u) EnrollmentMaxPayload = Ok (f_Payload challenge) ∧
    uc_ExpiresAtUnixMS u = UnixMilli (now + sv_challengeTTL server) ∧ nonce = RawStd_DecodeString (uc_Nonce u) ∧
    proved init (f_Payload initFrame) (f_Payload challenge) u proofFrame now' s ∧
    h_broker h = (Broker_Submit b s).1 ∧ trust_of (Broker_Submit b s).2 (sb_DevicePublicKey s) h.
Proof.
  unfold Handle. destruct cancelled; [by left|]. destruct received as [initFrame|]; [|by left]. destruct (negb _); [by left|].
  destruct (DecodeJSONPayload (A := EnrollmentClientInitV1) _ _) as [init|] eqn:Ei; [|by left]. destruct (_ && _); [left; apply failed_unused|]. destruct (_ && _); [left; apply failed_unused|].
  destruct (AuthorityIdentity b) as [authority|]; [|left; apply failed_unused]. destruct (_ || _); [left; apply failed_unused|]. destruct nonce as [nonce|]; [|by left].
  set (u := make_challenge _ _ _ _ _). destruct (EncodeJSONPayload _ _) as [challengePayload|] eqn:Ec; [|by left].
  set (frame := frame_of _ _). destruct (send _ _ _); [|by left]. destruct (client frame) as [proofFrame|] eqn:Ef; [|by left].
  destruct (handle_proof_sound [frame] b init (f_Payload initFrame) u challengePayload proofFrame now') as [Hu|(s & Hs & Hb & Ht)]; [by left|right].
  destruct (handle_proof_sent [frame] b init (f_Payload initFrame) u challengePayload proofFrame now') as [more Hm].
  exists initFrame, init, u, frame, proofFrame, s. rewrite Hm. split_and!; try done. unfold u. simpl. by rewrite RawStd_roundtrip.
Qed.
End server.

(** ** The device *)

(** The options allow to go on with what was observed. *)
Record accepts `{Crypto} (device : DeviceIdentity) (o : ClientOptions) (ob : TrustObservation) : Prop := mkAccepts {
  ac_parent : op_ExpectedParentNodeID o ≠ 0 → ob_ParentNodeID ob = op_ExpectedParentNodeID o;
  ac_parent_key : op_ExpectedParentPublicKey o ≠ [] → ob_ParentPublicKey ob = op_ExpectedParentPublicKey o;
  ac_authority : op_ExpectedAuthorityNodeID o ≠ 0 → ob_AuthorityNodeID ob = op_ExpectedAuthorityNodeID o;
  ac_authority_key : op_ExpectedAuthorityPublicKey o ≠ [] → ob_AuthorityPublicKey ob = op_ExpectedAuthorityPublicKey o;
  ac_permit p : op_Permit o = Some p → VerifyEnrollmentPermit (ob_AuthorityPublicKey ob) p = Ok tt ∧
    ParseNodeID (pm_AuthorityNodeID p) = Some (ob_AuthorityNodeID ob) ∧
    pm_DevicePublicKeyFingerprint p = DevicePublicKeyFingerprint (dv_PublicKey device) ∧
    (pm_AllowDescendants p = false → ParseNodeID (pm_TargetNodeID p) = Some (ob_ParentNodeID ob));
  ac_first_use : op_ExpectedParentPublicKey o = [] → op_Permit o = None →
    op_AllowTOFU o = true ∧ ∀ confirm, op_ConfirmTOFU o = Some confirm → confirm ob = true
}.

Section client.
Context `{Crypto} (device : DeviceIdentity) (o : ClientOptions).

Lemma enroll_init_ok cancelled generated init payload anchor :
  enroll_init device o cancelled generated = Ok (init, payload, anchor) →
  Device_Validate device = Ok tt ∧ EncodeJSONPayload init EnrollmentMaxPayload = Ok payload ∧
  ci_DevicePublicKey init = RawStd_EncodeToString (dv_PublicKey device) ∧
  check_permit_option device (op_ExpectedAuthorityPublicKey o) (op_Permit o) = Ok (anchor, ci_Permit init) ∧
  ci_ExpectedParentNodeID init = (if op_ExpectedParentNodeID o =? 0 then "" else FormatUint (op_ExpectedParentNodeID o)) ∧
  ci_ExpectedParentPublicKey init = (if bool_decide (op_ExpectedParentPublicKey o = []) then "" else RawStd_EncodeToString (op_ExpectedParentPublicKey o)).
Proof.
  unfold enroll_init. intros He. apply bind_ok in He as [Hd He]. apply mapErr_ok in Hd. apply fail_if_ok in He as [_ He].
  apply bind_value in He as (requestID & _ & He). apply bind_ok in He as [_ He]. apply fail_if_ok in He as [_ He]. apply bind_ok in He as [_ He].
  apply fail_if_ok in He as [_ He]. apply bind_value in He as ([a p] & Ep & He). apply bind_value in He as (data & Ed & He). apply mapErr_ok in Ed. by simplify_eq.
Qed.

Lemma check_permit_anchor anchor0 anchor permit p :
  check_permit_option device anchor0 (Some p) = Ok (anchor, permit) →
  anchor ≠ [] ∧ (anchor0 ≠ [] → anchor = anchor0) ∧ VerifyEnrollmentPermit anchor p = Ok tt ∧
  pm_DevicePublicKeyFingerprint p = DevicePublicKeyFingerprint (dv_PublicKey device) ∧ EncodeJSONPayload p EnrollmentMaxPayload = Ok (bytes_of permit).
Proof.
  unfold check_permit_option. destruct (RawStd_DecodeString _) as [key|]; [|done]. intros Hc. apply fail_if_ok in Hc as [Hk Hc]. apply bind_ok in Hc as [Hv Hc].
  apply mapErr_ok in Hv. apply fail_if_ok in Hc as [Hf Hc]. apply fail_if_ok in Hc as [Ha Hc]. apply bind_value in Hc as (data & Ed & Hc). apply mapErr_ok in Ed.
  simplify_eq. bool_prop. eqb_prop. rewrite bytes_of_string_of. split_and!; try done; [by intros ->|]. intros Hne. destruct Ha as [Ha|Ha]; bool_prop; done.
Qed.

Lemma guard_given a b : negb a && negb b = false → a = false → b = true.
Proof. by destruct a, b. Qed.
Lemma check_trust_accepts anchor c ob permit :
  check_permit_option device (op_ExpectedAuthorityPublicKey o) (op_Permit o) = Ok (anchor, permit) →
  decodeTrustObservation c = Ok ob → check_trust o anchor c ob = Ok tt →
  verifyChallenge (ob_ParentPublicKey ob) (unsigned_of c) (key_bytes (ch_Signature c)) = true ∧ accepts device o ob.
Proof.
  intros Hp Hd Hc. unfold check_trust in Hc. apply fail_if_ok in Hc as [H1 Hc]. apply fail_if_ok in Hc as [H2 Hc]. apply fail_if_ok in Hc as [H3 Hc].
  apply fail_if_ok in Hc as [H4 Hc]. apply fail_if_ok in Hc as [H5 Hc]. apply bind_ok in Hc as [H6 Hc].
  unfold decodeTrustObservation in Hd. destruct (ParseNodeID (ch_ParentNodeID c)) as [parent|] eqn:Epar; [|done].
  destruct (ParseNodeID (ch_AuthorityNodeID c)) as [authority|] eqn:Eau; [|done]. injection Hd as <-. simpl in *. split; [by apply negb_false_iff in H1|].
  assert (anchor ≠ [] → key_bytes (ch_AuthorityPublicKey c) = anchor) as Hanchor.
  { intros Hne. symmetry. eapply bool_decide_eq_true_1, (guard_given _ _ H4). by apply bool_decide_eq_false_2. }
  assert (op_ExpectedAuthorityPublicKey o ≠ [] → anchor = op_ExpectedAuthorityPublicKey o) as Hexp.
  { destruct (op_Permit o) as [p|]; [by apply check_permit_anchor in Hp as (_ & ? & _)|]. simpl in Hp. by injection Hp as <- _. }
  split; simpl.
  - intros Hne%Z.eqb_neq. apply Z.eqb_eq, (guard_given _ _ H2 Hne).
  - intros Hne. symmetry. eapply bool_decide_eq_true_1, (guard_given _ _ H3). by apply bool_decide_eq_false_2.
  - intros Hne%Z.eqb_neq. symmetry. apply Z.eqb_eq, (guard_given _ _ H5 Hne).
  - intros Hne. rewrite <- (Hexp Hne). apply Hanchor. by rewrite (Hexp Hne).
  - intros p Ep. rewrite Ep in *. apply check_permit_anchor in Hp as (Ha & _ & Hv & Hf & _). rewrite (Hanchor Ha). apply fail_if_ok in H6 as [G1 H6]. apply fail_if_ok in H6 as [G2 _].
    apply negb_false_iff, String.eqb_eq in G1. rewrite G1. split_and!; try done. intros Ed. rewrite Ed in G2. apply negb_false_iff, String.eqb_eq in G2. by rewrite G2.
  - intros E1 E2. rewrite E1, E2 in Hc. simpl in Hc. apply fail_if_ok in Hc as [G1 Hc]. split; [by apply negb_false_iff in G1|].
    intros confirm Ec. rewrite Ec in Hc. apply fail_if_ok in Hc as [G2 _]. by apply negb_false_iff in G2.
Qed.

Lemma context_ok {A} c (r : result session_error A) a : enrollmentContextError c r = Ok a ↔ r = Ok a.
Proof. destruct r; simpl; naive_solver. Qed.
Lemma enrolled_identity nodeID identity : Device_Enroll device nodeID = Ok identity →
  i_NodeID identity = nodeID ∧ i_PublicKey identity = dv_PublicKey device ∧ i_PrivateKey identity = dv_PrivateKey device ∧ Identity_Validate identity = Ok tt.
Proof.
  unfold Device_Enroll. intros He. apply bind_ok in He as [Hd He]. apply bind_ok in He as [Hn He]. simplify_eq. split_and!; try done.
  unfold Identity_Validate. simpl. rewrite Hn. simpl. by unfold Device_Validate in Hd.
Qed.
Lemma enroll_finish_ok init challenge ob frame res identity :
  enroll_finish device init challenge ob frame = Ok res → cr_Identity res = Some identity →
  ∃ g, re_Grant (cr_Outcome res) = Some g ∧ cr_Observation res = ob ∧ VerifyEnrollmentGrant (ob_AuthorityPublicKey ob) g = Ok tt ∧
    grant_matches g (ci_DevicePublicKey init) (unsigned_of challenge) = true ∧ ParseNodeID (gr_NodeID g) = Some (i_NodeID identity) ∧
    Device_Enroll device (i_NodeID identity) = Ok identity.
Proof.
  unfold enroll_finish. intros He Hid. apply fail_if_ok in He as [_ He]. apply bind_value in He as (r & _ & He). apply fail_if_ok in He as [_ He].
  destruct (_ || _); [done|]. destruct (String.eqb _ _); [by simplify_eq|]. destruct (re_Grant r) as [g|] eqn:Eg; [|done]. apply bind_ok in He as [Hv He]. apply mapErr_ok in Hv.
  apply fail_if_ok in He as [Hm He]. destruct (ParseNodeID (gr_NodeID g)) as [n|] eqn:En; [|done]. apply bind_value in He as (i & Hi & He). apply mapErr_ok in Hi.
  simplify_eq. simpl in *. simplify_eq. pose proof (enrolled_identity _ _ Hi) as (E & _). rewrite E in *. apply negb_false_iff in Hm. exists g. by split_and!.
Qed.

(** What happened before the result arrived. *)
Lemma enroll_observes cancelled cancelled' generated peer1 peer2 now wrote wrote' res :
  Enroll device o cancelled cancelled' generated peer1 peer2 now wrote wrote' = Ok res →
  ∃ init initPayload challengeFrame challenge ob resultFrame,
    EncodeJSONPayload init EnrollmentMaxPayload = Ok initPayload ∧ ci_DevicePublicKey init = RawStd_EncodeToString (dv_PublicKey device) ∧
    peer1 (frame_of EnrollmentMessageClientInit initPayload) = Ok challengeFrame ∧
    DecodeJSONPayload (f_Payload challengeFrame) EnrollmentMaxPayload = Ok challenge ∧ ch_RequestID challenge = ci_RequestID init ∧
    UnixMilli now < ch_ExpiresAtUnixMS challenge ∧ decodeTrustObservation challenge = Ok ob ∧
    verifyChallenge (ob_ParentPublicKey ob) (unsigned_of challenge) (key_bytes (ch_Signature challenge)) = true ∧ accepts device o ob ∧
    enroll_finish device init challenge ob resultFrame = Ok res.
Proof.
  unfold Enroll. intros He. apply bind_value in He as ([[init payload] anchor] & Hi & He). apply enroll_init_ok in Hi as (Hdev & Henc & Hdk & Hp & _).
  apply bind_ok in He as [_ He]. apply bind_value in He as (challengeFrame & Hf & He). apply context_ok, mapErr_ok in Hf.
  apply bind_value in He as ([[challenge ob] proof] & Hpr & He). apply bind_ok in He as [_ He]. apply bind_value in He as (resultFrame & _ & He).
  unfold enroll_prove in Hpr. apply fail_if_ok in Hpr as [_ Hpr]. apply bind_value in Hpr as (c & Hc & Hpr). apply mapErr_ok in Hc.
  apply fail_if_ok in Hpr as [Hr Hpr]. apply orb_false_iff in Hr as [Hr Hexp]. apply negb_false_iff, String.eqb_eq in Hr. apply Z.leb_gt in Hexp.
  apply bind_value in Hpr as (ob' & Hob & Hpr). apply bind_ok in Hpr as [Hct Hpr]. apply bind_value in Hpr as (data & _ & Hpr). simplify_eq.
  destruct (check_trust_accepts _ _ _ _ Hp Hob Hct) as [Hver Hacc]. exists init, payload, challengeFrame, challenge, ob, resultFrame. by split_and!.
Qed.

(** C27. A device that returns with an identity knows who gave it.  Whatever the other side sent:
    the parent of the challenge signed it, for this request and not expired, and is the one
    the options name (by number, by key or through the permit), or else the options allow
    first use and the observation was confirmed; the authority is the one that the options or
    the permit name; its key signed a grant that binds the identity's node number to the key
    of the device, this parent and this authority; and the identity is the device's key with
    that number. *)
Theorem enroll_authenticates (cancelled cancelled' : bool) (generated : option MessageID) (peer1 peer2 : peer) (now : Z) (wrote wrote' : bool)
    (res : ClientResult) (identity : Identity) :
  Enroll device o cancelled cancelled' generated peer1 peer2 now wrote wrote' = Ok res → cr_Identity res = Some identity →
  ∃ init initPayload challengeFrame challenge g,
    EncodeJSONPayload init EnrollmentMaxPayload = Ok initPayload ∧ peer1 (frame_of EnrollmentMessageClientInit initPayload) = Ok challengeFrame ∧
    DecodeJSONPayload (f_Payload challengeFrame) EnrollmentMaxPayload = Ok challenge ∧ ch_RequestID challenge = ci_RequestID init ∧
    UnixMilli now < ch_ExpiresAtUnixMS challenge ∧ decodeTrustObservation challenge = Ok (cr_Observation res) ∧
    verifyChallenge (ob_ParentPublicKey (cr_Observation res)) (unsigned_of challenge) (key_bytes (ch_Signature challenge)) = true ∧
    accepts device o (cr_Observation res) ∧
    re_Grant (cr_Outcome res) = Some g ∧ VerifyEnrollmentGrant (ob_AuthorityPublicKey (cr_Observation res)) g = Ok tt ∧
    gr_DevicePublicKey g = RawStd_EncodeToString (dv_PublicKey device) ∧
    key_bytes (gr_ParentPublicKey g) = ob_ParentPublicKey (cr_Observation res) ∧ ParseNodeID (gr_ParentNodeID g) = Some (ob_ParentNodeID (cr_Observation res)) ∧
    ParseNodeID (gr_AuthorityNodeID g) = Some (ob_AuthorityNodeID (cr_Observation res)) ∧
    ParseNodeID (gr_NodeID g) = Some (i_NodeID identity) ∧ i_PublicKey identity = dv_PublicKey device ∧ i_PrivateKey identity = dv_PrivateKey device ∧
    Identity_Validate identity = Ok tt.
Proof.
  intros He Hid. destruct (enroll_observes _ _ _ _ _ _ _ _ _ He) as (init & payload & challengeFrame & challenge & ob & resultFrame & Henc & Hdk & Hf & Hc & Hr & Hexp & Hob & Hver & Hacc & Hfin).
  destruct (enroll_finish_ok _ _ _ _ _ _ Hfin Hid) as (g & Hg & Hob' & Hvg & Hm & Hn & Hen). rewrite Hob' in *.
  unfold decodeTrustObservation in Hob. destruct (ParseNodeID (ch_ParentNodeID challenge)) as [parent|] eqn:Epar; [|done].
  destruct (ParseNodeID (ch_AuthorityNodeID challenge)) as [authority|] eqn:Eau; [|done]. injection Hob as <-.
  unfold grant_matches in Hm. bool_prop. eqb_prop. simpl in *. apply enrolled_identity in Hen as (I1 & I2 & I3 & I4).
  exists init, payload, challengeFrame, challenge, g. unfold decodeTrustObservation. rewrite Epar, Eau. split_and!; congruence.
Qed.
End client.

(** ** Valid records are kept by JSON and fit their frames *)

Lemma schemaVersion_ok v : schemaVersion v = Ok tt → v = 1.
Proof. unfold schemaVersion. rewrite mapErr_ok. unfold validateVersion. intros Hv. apply fail_if_ok in Hv as [Hv _]. by apply negb_false_iff, Z.eqb_eq in Hv. Qed.
Lemma optional_key_valid s : validateEd25519PublicKey s false = Ok tt → valid s.
Proof.
  unfold validateEd25519PublicKey, validateRawBase64. case_bool_decide as Es; [by subst|]. simpl. intros Hk. apply ascii_valid, (base64_ascii s 32).
  unfold validateRawBase64. by rewrite andb_false_r.
Qed.
Lemma one_i64 : is_i64 1.
Proof. by vm_compute. Qed.
#[local] Hint Resolve one_i64 : mfh.
Ltac valid_fields := repeat (apply Forall_cons_2; [unfold valid; solve [eauto with mfh]|]); apply Forall_nil_2.

Lemma init_valid_ok m : ClientInit_Validate m = Ok tt → init_ok m.
Proof.
  intros Hv. unfold ClientInit_Validate in Hv. repeat (apply bind_ok in Hv as [? Hv]). apply optional_key_valid in Hv.
  split; [by erewrite schemaVersion_ok by done; apply one_i64|]. unfold validateEd25519PublicKey in *.
  assert (valid (ci_ExpectedParentNodeID m)) by (case_bool_decide as Es; [by rewrite Es|unfold valid; eauto with mfh]). valid_fields.
Qed.
Lemma challenge_valid_ok m : Challenge_Validate m = Ok tt → is_i64 (ch_ExpiresAtUnixMS m) → challenge_ok m.
Proof.
  intros Hv Hi. unfold Challenge_Validate, validateEd25519PublicKey in Hv. repeat (apply bind_ok in Hv as [? Hv]). apply fail_if_ok in Hv as [_ Hv].
  split; [by erewrite schemaVersion_ok by done; apply one_i64|]. split; [done|]. valid_fields.
Qed.
Lemma proof_valid_ok m : Proof_Validate m = Ok tt → proof_ok m.
Proof.
  intros Hv. unfold Proof_Validate in Hv. repeat (apply bind_ok in Hv as [? Hv]). split; [by erewrite schemaVersion_ok by done; apply one_i64|]. valid_fields.
Qed.
Lemma permit_valid_ok p : Permit_Validate p = Ok tt → permit_ints p → EnrollmentPayload.permit_ok p.
Proof.
  intros Hv (I1 & I2 & I3 & I4). unfold Permit_Validate, validateEd25519PublicKey in Hv. repeat (apply bind_ok in Hv as [? Hv]). apply fail_if_ok in Hv as [_ Hv]. apply fail_if_ok in Hv as [_ Hv].
  split_and!; try done. valid_fields.
Qed.
Lemma grant_valid_ok g : Grant_Validate g = Ok tt → grant_ints g → grant_ok g.
Proof.
  intros Hv (I1 & I2 & I3). unfold Grant_Validate, validateEd25519PublicKey in Hv. repeat (apply bind_ok in Hv as [? Hv]). apply fail_if_ok in Hv as [_ Hv].
  split_and!; try done. valid_fields.
Qed.

Lemma encode_fits `{JSONStruct A, ValidatedPayload A} (v : A) :
  Validate v = Ok tt → 1 + members_size (js_fields v) ≤ EnrollmentMaxPayload → EncodeJSONPayload v EnrollmentMaxPayload = Ok (json_Marshal v).
Proof. intros Hv Hs. by apply payload_fits. Qed.
Lemma challenge_size c :
  members_size (challenge_fields c) ≤ 2000 + 6 * (strlen (ch_RequestID c) + strlen (ch_ParentNodeID c) + strlen (ch_ParentPublicKey c) + strlen (ch_AuthorityNodeID c) +
    strlen (ch_AuthorityPublicKey c) + strlen (ch_Nonce c) + strlen (ch_Signature c)).
Proof. unfold challenge_fields. sized; assert (0 ≤ strlen (ch_AuthorityPublicKey c)) by (unfold strlen; lia); lia. Qed.
Lemma proof_size p : members_size (proof_fields p) ≤ 1000 + 6 * (strlen (pr_RequestID p) + strlen (pr_Nonce p) + strlen (pr_Signature p)).
Proof. unfold proof_fields. sized. lia. Qed.
Lemma grant_size g :
  members_size (grant_fields g) ≤ 2500 + 6 * (strlen (gr_EnrollmentID g) + strlen (gr_AuthorityNodeID g) + strlen (gr_AuthorityPublicKey g) + strlen (gr_NodeID g) +
    strlen (gr_DevicePublicKey g) + strlen (gr_ParentNodeID g) + strlen (gr_ParentPublicKey g) + strlen (gr_AdmissionProfile g) + strlen (gr_Signature g)).
Proof. unfold grant_fields. sized. lia. Qed.

Lemma result_size id g : members_size (result_fields (mkResult SchemaVersionV1 id "granted" (Some g) None 0)) ≤ 1000 + 6 * strlen id + members_size (grant_fields g).
Proof.
  unfold result_fields, field_opt. cbn [re_Version re_RequestID re_Status re_Grant re_Error re_RetryAfterMS]. change (negb (0 =? 0)) with false.
  pose proof (object_size (grant_fields g)) as Hobj. revert Hobj. generalize (AObject (grant_fields g)) as object. generalize (members_size (grant_fields g)) as m. intros m object Hobj.
  unfold members_size, member_size, member_if, member. cbn [app foldr fst snd]. size_facts.
  literals. lia.
Qed.

(** ** An honest device and an honest parent *)

(** The options fit the parent and the authority. *)
Record expects (o : ClientOptions) (ob : TrustObservation) : Prop := mkExpects {
  ex_parent : op_ExpectedParentNodeID o = 0 ∨ op_ExpectedParentNodeID o = ob_ParentNodeID ob;
  ex_parent_key : op_ExpectedParentPublicKey o = [] ∨ op_ExpectedParentPublicKey o = ob_ParentPublicKey ob;
  ex_authority : op_ExpectedAuthorityNodeID o = 0 ∨ op_ExpectedAuthorityNodeID o = ob_AuthorityNodeID ob;
  ex_authority_key : op_ExpectedAuthorityPublicKey o = [] ∨ op_ExpectedAuthorityPublicKey o = ob_AuthorityPublicKey ob;
  ex_permit : ∀ p, op_Permit o = Some p → permit_ints p ∧ pm_AuthorityPublicKey p = RawStd_EncodeToString (ob_AuthorityPublicKey ob) ∧
    pm_AuthorityNodeID p = FormatUint (ob_AuthorityNodeID ob) ∧ (pm_AllowDescendants p = true ∨ pm_TargetNodeID p = FormatUint (ob_ParentNodeID ob));
  ex_first_use : op_ExpectedParentPublicKey o = [] → op_Permit o = None →
    op_AllowTOFU o = true ∧ from_option (λ confirm, confirm ob) true (op_ConfirmTOFU o) = true
}.

(** The answer of a broker to a submission: a grant for it. *)
Record grants `{Crypto} `{Broker B} (b : B) (authority : NodeID * list byte) (s : EnrollmentSubmission) (outcome : EnrollmentOutcome) (g : EnrollmentGrantV1) (n : NodeID) : Prop := mkGrants {
  gs_answer : (Broker_Submit b s).2 = Ok outcome;
  gs_outcome : oc_Status outcome = "granted" ∧ oc_RequestID outcome = sb_RequestID s ∧ oc_Grant outcome = Some g;
  gs_verified : VerifyEnrollmentGrant authority.2 g = Ok tt ∧ grant_ints g;
  gs_authority : gr_AuthorityNodeID g = FormatUint authority.1;
  gs_device : gr_DevicePublicKey g = RawStd_EncodeToString (sb_DevicePublicKey s);
  gs_parent : gr_ParentNodeID g = FormatUint (sb_ParentNodeID s) ∧ gr_ParentPublicKey g = RawStd_EncodeToString (sb_ParentPublicKey s);
  gs_node : gr_NodeID g = FormatUint n ∧ 0 < n ≤ maxUint64;
  gs_signature : strlen (gr_Signature g) ≤ 128;
  gs_reason : oc_Reason outcome = ""
}.

Lemma hexID_size s n : hexID s n = Ok tt → strlen s = n * 2.
Proof. unfold hexID. rewrite mapErr_ok. unfold validateHexID. intros Hx. apply fail_if_ok in Hx as [Hx _]. by apply negb_false_iff, Z.eqb_eq in Hx. Qed.
Lemma text_size v m r : text v m r = Ok tt → strlen v ≤ m.
Proof. unfold text. rewrite mapErr_ok. unfold validateText. intros Hx. apply fail_if_ok in Hx as [_ Hx]. apply fail_if_ok in Hx as [Hx _]. bool_prop. lia. Qed.
Lemma grants_bounded `{Crypto} `{Broker B} (b : B) authority s outcome g n : grants b authority s outcome g n →
  blen authority.2 = PublicKeySize → blen (sb_DevicePublicKey s) = PublicKeySize → blen (sb_ParentPublicKey s) = PublicKeySize → members_size (grant_fields g) ≤ 10000.
Proof.
  intros [_ _ [Hv _] Ha Hd [Hp Hpk] [Hn _] Hs _] Hak Hdk Hppk. unfold VerifyEnrollmentGrant in Hv. apply fail_if_ok in Hv as [_ Hv]. apply bind_ok in Hv as [Hgv Hv].
  apply mapErr_ok in Hgv. apply fail_if_ok in Hv as [Hk _]. apply negb_false_iff, String.eqb_eq in Hk.
  pose proof (grant_size g) as Hsz. rewrite Hk, Ha, Hd, Hp, Hpk, Hn in Hsz. unfold Grant_Validate in Hgv. do 9 (apply bind_ok in Hgv as [? Hgv]).
  match goal with Hx : hexID (gr_EnrollmentID g) 16 = Ok tt |- _ => apply hexID_size in Hx end.
  match goal with Hx : text (gr_AdmissionProfile g) _ true = Ok tt |- _ => apply text_size in Hx end.
  pose proof (FormatUint_size authority.1). pose proof (base64_size authority.2). pose proof (FormatUint_size n). pose proof (base64_size (sb_DevicePublicKey s)).
  pose proof (FormatUint_size (sb_ParentNodeID s)). pose proof (base64_size (sb_ParentPublicKey s)). unfold blen, PublicKeySize, MaxIdentifierBytes in *. lia.
Qed.

Definition full_frames (codec : EnrollmentCodec) : Prop := EnrollmentMaxPayload ≤ enrollmentPayloadLimit codec.
Lemma send_fits codec t (data : list byte) :
  full_frames codec → 1 ≤ t ≤ 4 → data ≠ [] → blen data ≤ EnrollmentMaxPayload → send codec true (frame_of t data) = Ok tt.
Proof.
  unfold full_frames, send. intros Hc Ht Hd Hs. assert (0 < blen data) by (destruct data; [done|unfold blen; simpl; lia]).
  rewrite (proj2 (Frame_Validate_ok codec (frame_of t data))) by (split; [done|]; cbn [f_Type f_Payload frame_of]; lia). cbn [mbind result_bind mapErr]. simpl f_Payload.
  rewrite (proj2 (Z.ltb_ge _ _)) by (unfold EnrollmentMaxPayload, maxUint32 in *; lia). done.
Qed.
Lemma send_encoded `{JSONStruct A, ValidatedPayload A} codec t (v : A) data :
  full_frames codec → 1 ≤ t ≤ 4 → EncodeJSONPayload v EnrollmentMaxPayload = Ok data → send codec true (frame_of t data) = Ok tt.
Proof. intros Hc Ht He. apply encoded_valid in He as (_ & Hd & Hs). by apply send_fits. Qed.

Lemma ParseNodeID_FormatUint n : is_u64 n → n ≠ 0 → ParseNodeID (FormatUint n) = Some n.
Proof. intros Hu Hn. unfold ParseNodeID. rewrite ParseUint_FormatUint by done. simpl. by rewrite (proj2 (Z.eqb_neq _ _)). Qed.
Lemma key_bytes_encoded l : key_bytes (RawStd_EncodeToString l) = l.
Proof. unfold key_bytes. by rewrite RawStd_roundtrip. Qed.
Lemma guard_fits a b : a = true ∨ b = true → negb a && negb b = false.
Proof. by destruct a, b; intros [|]. Qed.
Lemma nodeIDText_encoded n : is_u64 n → n ≠ 0 → nodeIDText (FormatUint n) = Ok tt.
Proof. intros Hu Hn. unfold nodeIDText. apply mapErr_ok, validateNodeIDText_canonical. exists n. unfold is_u64 in Hu. split; [lia|done]. Qed.

Section together.
Context `{CryptoLaws} `{!Broker B} (error_text : authority_error → string) (server : Server) (trust : TrustStore) (b : B) (device : DeviceIdentity) (o : ClientOptions).
Context (authority : NodeID * list byte) (nonce : list byte) (now now' t : Z) (init : EnrollmentClientInitV1) (payload anchor : list byte).
Context (Hparent : Identity_Validate (sv_parent server) = Ok tt) (Hparent_id : is_u64 (i_NodeID (sv_parent server))).
Context (Hauthority : AuthorityIdentity b = Some authority) (Hauthority_id : is_u64 authority.1 ∧ authority.1 ≠ 0) (Hauthority_key : blen authority.2 = PublicKeySize).
Context (Hnonce : blen nonce = 32) (Htime : 0 < UnixMilli (now + sv_challengeTTL server)) (Htime' : is_i64 (UnixMilli (now + sv_challengeTTL server))).
Context (Hclient : UnixMilli t < UnixMilli (now + sv_challengeTTL server)) (Hserver : UnixMilli now' < UnixMilli (now + sv_challengeTTL server)).
Context (Hframes : full_frames (sv_codec server)) (Hframes' : full_frames (op_Codec o)).
Let ob := mkObservation (i_NodeID (sv_parent server)) (i_PublicKey (sv_parent server)) authority.1 authority.2.
Context (Hinit : ∃ generated, enroll_init device o false generated = Ok (init, payload, anchor)) (Hexpects : expects o ob).
Let u := make_challenge server (ci_RequestID init) authority nonce now.
Let challenge := sign_challenge server u.
Let challengeFrame := frame_of EnrollmentMessageChallenge (json_Marshal challenge).
Let digest := transcriptDigest payload (json_Marshal challenge).
Let proof := mkProof SchemaVersionV1 (ci_RequestID init) (uc_Nonce u) (RawStd_EncodeToString (Sign (dv_PrivateKey device) digest)).
Let proofFrame := frame_of EnrollmentMessageProof (json_Marshal proof).
Let s := mkSubmission (ci_RequestID init) (dv_PublicKey device) (i_NodeID (sv_parent server)) (i_PublicKey (sv_parent server)) (op_Permit o) digest.

Lemma init_facts :
  Device_Validate device = Ok tt ∧ EncodeJSONPayload init EnrollmentMaxPayload = Ok payload ∧ ClientInit_Validate init = Ok tt ∧
  ci_DevicePublicKey init = RawStd_EncodeToString (dv_PublicKey device) ∧
  check_permit_option device (op_ExpectedAuthorityPublicKey o) (op_Permit o) = Ok (anchor, ci_Permit init) ∧
  DecodeJSONPayload payload EnrollmentMaxPayload = Ok init ∧ hexID (ci_RequestID init) 16 = Ok tt.
Proof.
  destruct Hinit as [generated Hi]. apply enroll_init_ok in Hi as (Hd & He & Hk & Hp & _). pose proof (encoded_valid _ _ _ He) as (Hv & _).
  split_and!; try done; [by eapply (payload_roundtrip (A := EnrollmentClientInitV1)), He; apply init_valid_ok|].
  unfold Validate, init_validated, ClientInit_Validate in Hv. apply bind_ok in Hv as [_ Hv]. by apply bind_ok in Hv as [Hv _].
Qed.
Lemma expected_texts :
  (ci_ExpectedParentNodeID init = "" ∨ ci_ExpectedParentNodeID init = FormatUint (i_NodeID (sv_parent server))) ∧
  (ci_ExpectedParentPublicKey init = "" ∨ ci_ExpectedParentPublicKey init = RawStd_EncodeToString (i_PublicKey (sv_parent server))).
Proof.
  destruct Hinit as [generated He]. apply enroll_init_ok in He as (_ & _ & _ & _ & -> & ->).
  destruct (ex_parent _ _ Hexpects) as [->| ->], (ex_parent_key _ _ Hexpects) as [->| ->]; simpl; repeat case_match; eauto.
Qed.

Lemma challenge_encoded : EncodeJSONPayload challenge EnrollmentMaxPayload = Ok (json_Marshal challenge) ∧
  DecodeJSONPayload (json_Marshal challenge) EnrollmentMaxPayload = Ok challenge.
Proof.
  destruct init_facts as (_ & _ & _ & _ & _ & _ & Hid). pose proof (Identity_Validate_ok _ Hparent) as (Hp1 & Hp2 & Hp3 & _).
  assert (Challenge_Validate challenge = Ok tt) as Hv.
  { unfold Challenge_Validate, challenge, validateEd25519PublicKey. simpl. rewrite Hid. simpl. rewrite (nodeIDText_encoded _ Hparent_id Hp1), (base64_encoded _ 32 Hp2). simpl.
    rewrite (nodeIDText_encoded _ (proj1 Hauthority_id) (proj2 Hauthority_id)), (base64_encoded _ 32 Hauthority_key). simpl. rewrite (base64_encoded _ 32 Hnonce). simpl.
    rewrite (proj2 (Z.leb_gt _ _)) by done. apply base64_encoded, Sign_size. }
  assert (EncodeJSONPayload challenge EnrollmentMaxPayload = Ok (json_Marshal challenge)) as He.
  { apply encode_fits; [done|]. change (js_fields challenge) with (challenge_fields challenge). pose proof (challenge_size challenge) as Hs. revert Hs. unfold challenge. simpl.
    pose proof (hexID_size _ _ Hid). pose proof (FormatUint_size (i_NodeID (sv_parent server))). pose proof (FormatUint_size authority.1).
    pose proof (base64_size (i_PublicKey (sv_parent server))). pose proof (base64_size authority.2). pose proof (base64_size nonce).
    pose proof (base64_size (signChallenge (i_PrivateKey (sv_parent server)) u)) as Hsig. pose proof (Sign_size (i_PrivateKey (sv_parent server)) (challengeMessage u)) as Hss.
    unfold blen, PublicKeySize, SignatureSize, EnrollmentMaxPayload, signChallenge in *. lia. }
  split; [done|]. eapply (payload_roundtrip (A := EnrollmentChallengeV1)), He. by apply challenge_valid_ok.
Qed.
Lemma proof_encoded : EncodeJSONPayload proof EnrollmentMaxPayload = Ok (json_Marshal proof) ∧ DecodeJSONPayload (json_Marshal proof) EnrollmentMaxPayload = Ok proof.
Proof.
  destruct init_facts as (_ & _ & _ & _ & _ & _ & Hid).
  assert (Proof_Validate proof = Ok tt) as Hv.
  { unfold Proof_Validate, proof. simpl. rewrite Hid. simpl. rewrite (base64_encoded _ 32 Hnonce). apply base64_encoded, Sign_size. }
  assert (EncodeJSONPayload proof EnrollmentMaxPayload = Ok (json_Marshal proof)) as He.
  { apply encode_fits; [done|]. change (js_fields proof) with (proof_fields proof). pose proof (proof_size proof) as Hs. revert Hs. unfold proof. simpl.
    pose proof (hexID_size _ _ Hid). pose proof (base64_size nonce). pose proof (base64_size (Sign (dv_PrivateKey device) digest)). pose proof (Sign_size (dv_PrivateKey device) digest).
    unfold blen, SignatureSize, EnrollmentMaxPayload in *. lia. }
  split; [done|]. eapply (payload_roundtrip (A := EnrollmentProofV1)), He. by apply proof_valid_ok.
Qed.

(** The parent answers the first frame with the challenge. *)
Lemma handle_init saved client :
  Handle error_text server trust true saved b false (Ok (frame_of EnrollmentMessageClientInit payload)) (Some nonce) client now now' true =
  match client challengeFrame with
  | Err e => mkHandled [challengeFrame] b trust (Err (XFrame e))
  | Ok frame => handle_proof error_text server trust true saved [challengeFrame] b init payload u (json_Marshal challenge) frame now'
  end.
Proof.
  destruct init_facts as (_ & _ & _ & _ & _ & Hdec & _). destruct challenge_encoded as [Hc _]. destruct expected_texts as [He1 He2].
  unfold Handle. simpl f_Type. simpl f_Payload. change (negb (EnrollmentMessageClientInit =? EnrollmentMessageClientInit)) with false. cbn iota. rewrite Hdec.
  rewrite (guard_fits (String.eqb (ci_ExpectedParentNodeID init) "")) by (rewrite !String.eqb_eq; exact He1).
  rewrite (guard_fits (String.eqb (ci_ExpectedParentPublicKey init) "")) by (rewrite !String.eqb_eq; exact He2). cbn iota.
  rewrite Hauthority, (proj2 (NodeID_Validate_ok _) (proj2 Hauthority_id)), Hauthority_key. simpl orb. cbn iota. fold u challenge. rewrite Hc.
  rewrite (send_encoded _ _ challenge) by (done || vm_compute; done). done.
Qed.

(** The device answers the challenge with the proof. *)
Lemma anchor_fits : anchor = [] ∨ anchor = authority.2.
Proof.
  destruct init_facts as (_ & _ & _ & _ & Hp & _). destruct (op_Permit o) as [p|] eqn:Ep.
  - right. unfold check_permit_option in Hp. destruct (ex_permit _ _ Hexpects p Ep) as (_ & Hk & _). rewrite Hk, RawStd_roundtrip in Hp.
    apply fail_if_ok in Hp as [_ Hp]. apply bind_ok in Hp as [_ Hp]. apply fail_if_ok in Hp as [_ Hp]. apply fail_if_ok in Hp as [_ Hp].
    apply bind_value in Hp as (? & _ & Hp). by simplify_eq.
  - simpl in Hp. injection Hp as <- _. exact (ex_authority_key _ _ Hexpects).
Qed.
Lemma check_trust_fits : check_trust o anchor challenge ob = Ok tt.
Proof.
  pose proof (Identity_Validate_ok _ Hparent) as (Hp1 & Hp2 & Hp3 & Hp4). unfold check_trust.
  assert (verifyChallenge (ob_ParentPublicKey ob) (unsigned_of challenge) (key_bytes (ch_Signature challenge)) = true) as ->.
  { unfold verifyChallenge, challenge. simpl. rewrite key_bytes_encoded, Hp2. unfold signChallenge. rewrite Sign_size, <- Hp4. simpl. by rewrite Verify_Sign. }
  cbn [negb]. cbn iota.
  rewrite (guard_fits (op_ExpectedParentNodeID o =? 0)) by (rewrite !Z.eqb_eq; destruct (ex_parent _ _ Hexpects) as [->| ->]; auto).
  rewrite (guard_fits (bool_decide (op_ExpectedParentPublicKey o = []))) by (rewrite !bool_decide_eq_true; exact (ex_parent_key _ _ Hexpects)).
  rewrite (guard_fits (bool_decide (anchor = []))) by (rewrite !bool_decide_eq_true; exact anchor_fits).
  rewrite (guard_fits (op_ExpectedAuthorityNodeID o =? 0)) by (rewrite !Z.eqb_eq; exact (ex_authority _ _ Hexpects)).
  pose proof (ex_permit _ _ Hexpects) as Hpermit. pose proof (ex_first_use _ _ Hexpects) as Hfirst. destruct (op_Permit o) as [p|].
  - destruct (Hpermit p eq_refl) as (_ & _ & -> & Htarget). change (ch_AuthorityNodeID challenge) with (FormatUint authority.1). rewrite String.eqb_refl. cbn [negb]. cbn iota.
    rewrite (guard_fits (pm_AllowDescendants p)) by (rewrite String.eqb_eq; exact Htarget). cbn [mbind result_bind]. by rewrite orb_true_r.
  - cbn [mbind result_bind]. case_bool_decide as Ek; [|done]. destruct (Hfirst Ek eq_refl) as [-> Hconfirm]. cbn. destruct (op_ConfirmTOFU o); [|done]. simpl in Hconfirm. by rewrite Hconfirm.
Qed.
Lemma device_proves : enroll_prove device o init payload anchor challengeFrame t = Ok (challenge, ob, json_Marshal proof).
Proof.
  pose proof (Identity_Validate_ok _ Hparent) as (Hp1 & _). destruct challenge_encoded as [_ Hc]. destruct proof_encoded as [Hp _]. unfold enroll_prove.
  change (f_Type challengeFrame =? EnrollmentMessageChallenge) with true. cbn [negb]. cbn iota. change (f_Payload challengeFrame) with (json_Marshal challenge). rewrite Hc.
  cbn [mbind result_bind mapErr]. change (ch_RequestID challenge) with (ci_RequestID init). change (ch_ExpiresAtUnixMS challenge) with (UnixMilli (now + sv_challengeTTL server)).
  rewrite String.eqb_refl, (proj2 (Z.leb_gt _ _)) by done. cbn [negb orb]. cbn iota.
  assert (decodeTrustObservation challenge = Ok ob) as ->.
  { unfold decodeTrustObservation, challenge. simpl. rewrite (ParseNodeID_FormatUint _ Hparent_id Hp1), (ParseNodeID_FormatUint _ (proj1 Hauthority_id) (proj2 Hauthority_id)).
    by rewrite !key_bytes_encoded. }
  cbn [mbind result_bind]. rewrite check_trust_fits. cbn [mbind result_bind]. fold digest. change (ch_Nonce challenge) with (uc_Nonce u). fold proof. by rewrite Hp.
Qed.

(** The parent accepts the proof and submits. *)
Lemma submitted_permit :
  (if String.eqb (ci_Permit init) "" then Ok None else permit ← DecodeJSONPayload (bytes_of (ci_Permit init)) EnrollmentMaxPayload; Ok (Some permit)) = Ok (op_Permit o).
Proof.
  destruct init_facts as (_ & _ & _ & _ & Hp & _). destruct (op_Permit o) as [p|] eqn:Ep; [|simpl in Hp; injection Hp as _ <-; done].
  apply check_permit_anchor in Hp as (_ & _ & Hv & _ & He). pose proof (encoded_valid _ _ _ He) as (Hval & Hne & _).
  destruct (String.eqb_spec (ci_Permit init) "") as [E|]; [by rewrite E in Hne|].
  assert (DecodeJSONPayload (bytes_of (ci_Permit init)) EnrollmentMaxPayload = Ok p) as ->; [|done].
  eapply (payload_roundtrip (A := EnrollmentPermitV1)), He. apply permit_valid_ok; [done|apply (ex_permit _ _ Hexpects p Ep)].
Qed.
Lemma handle_submits saved :
  handle_proof error_text server trust true saved [challengeFrame] b init payload u (json_Marshal challenge) proofFrame now' =
  let '(b', r) := Broker_Submit b s in
  match r with
  | Err e => done_with [challengeFrame] b' trust (sendFailure server (ci_RequestID init) (enrollmentErrorCode e) (error_text e) false true)
  | Ok outcome => handle_outcome server trust true saved [challengeFrame] b' init u outcome
  end.
Proof.
  destruct init_facts as (Hd & _ & _ & Hk & _). destruct proof_encoded as [_ Hp]. unfold handle_proof.
  change (f_Type proofFrame =? EnrollmentMessageProof) with true. cbn [negb]. cbn iota. change (f_Payload proofFrame) with (json_Marshal proof). rewrite Hp.
  change (pr_RequestID proof) with (ci_RequestID init). change (pr_Nonce proof) with (uc_Nonce u). change (uc_ExpiresAtUnixMS u) with (UnixMilli (now + sv_challengeTTL server)).
  rewrite !String.eqb_refl, (proj2 (Z.leb_gt _ _)) by done. cbn [negb orb]. cbn iota. rewrite Hk, key_bytes_encoded. fold digest.
  assert (Verify (dv_PublicKey device) digest (key_bytes (pr_Signature proof)) = true) as ->.
  { unfold Device_Validate in Hd. apply fail_if_ok in Hd as [Hs Hd]. apply fail_if_ok in Hd as [Hpk _]. bool_prop.
    unfold proof. simpl. rewrite key_bytes_encoded, <- Hpk. by apply Verify_Sign. }
  cbn [negb]. cbn iota. rewrite submitted_permit. by fold s.
Qed.

(** The granted outcome: trust, the result frame and the identity. *)
Context (outcome : EnrollmentOutcome) (g : EnrollmentGrantV1) (n : NodeID) (saved : bool) (t' : TrustStore).
Context (Hgrants : grants b authority s outcome g n) (Hadd : TrustStore_Add trust n (dv_PublicKey device) saved = (t', Ok tt)).
Let res := mkResult SchemaVersionV1 (ci_RequestID init) "granted" (Some g) None 0.

Lemma grant_valid : Grant_Validate g = Ok tt ∧ gr_AuthorityPublicKey g = RawStd_EncodeToString authority.2.
Proof.
  destruct (gs_verified _ _ _ _ _ _ Hgrants) as [Hv _]. unfold VerifyEnrollmentGrant in Hv. apply fail_if_ok in Hv as [_ Hv]. apply bind_ok in Hv as [Hv Hv'].
  apply mapErr_ok in Hv. apply fail_if_ok in Hv' as [Hk _]. by apply negb_false_iff, String.eqb_eq in Hk.
Qed.
Lemma grant_matches_session : grant_matches g (ci_DevicePublicKey init) u = true.
Proof.
  destruct init_facts as (_ & _ & _ & Hk & _). destruct grant_valid as [_ Hak]. destruct Hgrants as [_ _ _ Ha Hd [Hp Hpk] _ _ _]. unfold grant_matches.
  rewrite Hk, Hak, Ha, Hd, Hp, Hpk. unfold u. simpl. by rewrite !String.eqb_refl.
Qed.
Lemma grant_bounded : members_size (grant_fields g) ≤ 10000.
Proof.
  pose proof (Identity_Validate_ok _ Hparent) as (_ & Hpl & _). destruct init_facts as (Hdv & _). unfold Device_Validate in Hdv. apply fail_if_ok in Hdv as [Hdl _]. bool_prop.
  by apply (grants_bounded b authority s outcome g n Hgrants).
Qed.
Lemma result_encoded : EncodeJSONPayload res EnrollmentMaxPayload = Ok (json_Marshal res) ∧ DecodeJSONPayload (json_Marshal res) EnrollmentMaxPayload = Ok res.
Proof.
  destruct init_facts as (_ & _ & _ & _ & _ & _ & Hid). destruct grant_valid as [Hgv Hak].
  assert (Result_Validate res = Ok tt) as Hv by (unfold Result_Validate, res; simpl; by rewrite Hid).
  assert (EncodeJSONPayload res EnrollmentMaxPayload = Ok (json_Marshal res)) as He.
  { apply encode_fits; [done|]. change (js_fields res) with (result_fields res). pose proof (hexID_size _ _ Hid) as Hidl.
    pose proof (result_size (ci_RequestID init) g) as Hrs. pose proof grant_bounded as Hgb. fold res in Hrs. unfold EnrollmentMaxPayload. lia. }
  split; [done|]. eapply (payload_roundtrip (A := EnrollmentResultV1)), He. split_and!; simpl; try done; [apply Forall_cons_2; [unfold valid; eauto with mfh|by apply Forall_singleton]|].
  by apply grant_valid_ok; [|apply (gs_verified _ _ _ _ _ _ Hgrants)].
Qed.

Let resultFrame := frame_of EnrollmentMessageResult (json_Marshal res).
Lemma handle_grants (b' : B) : handle_outcome server trust true saved [challengeFrame] b' init u outcome = mkHandled [challengeFrame; resultFrame] b' t' (Ok tt).
Proof.
  destruct init_facts as (_ & _ & _ & Hk & _). destruct result_encoded as [He _]. destruct (gs_outcome _ _ _ _ _ _ Hgrants) as (Ho1 & Ho2 & Ho3).
  destruct (gs_node _ _ _ _ _ _ Hgrants) as [Hn Hn']. unfold handle_outcome. rewrite Ho1, Ho3, String.eqb_refl, grant_matches_session, Hk, key_bytes_encoded, Hn. cbn [negb]. cbn iota.
  rewrite (ParseNodeID_FormatUint n) by (unfold is_u64; lia). rewrite Hadd. unfold sendOutcome, send_result. rewrite Ho1, Ho2, Ho3.
  change (if String.eqb "granted" "rejected" then _ else _) with (@None ErrorPayload). change (if String.eqb "granted" "pending" then 2000 else 0) with 0. change (sb_RequestID s) with (ci_RequestID init).
  fold res. rewrite He. rewrite (send_encoded _ _ res) by (done || vm_compute; done). done.
Qed.
Lemma device_finishes : enroll_finish device init challenge ob resultFrame = Ok (mkClientResult res (Some (mkIdentity n (dv_PublicKey device) (dv_PrivateKey device))) ob).
Proof.
  destruct init_facts as (Hd & _ & _ & Hk & _). destruct result_encoded as [_ He]. destruct (gs_node _ _ _ _ _ _ Hgrants) as [Hn Hn']. destruct (gs_verified _ _ _ _ _ _ Hgrants) as [Hv _].
  unfold enroll_finish. change (f_Type resultFrame =? EnrollmentMessageResult) with true. cbn [negb]. cbn iota. change (f_Payload resultFrame) with (json_Marshal res). rewrite He.
  cbn [mbind result_bind mapErr]. change (re_RequestID res) with (ci_RequestID init). rewrite String.eqb_refl. cbn [negb]. cbn iota.
  change (re_Status res) with "granted". change (String.eqb "granted" "error" || String.eqb "granted" "rejected") with false. change (String.eqb "granted" "pending") with false. cbn iota.
  change (re_Grant res) with (Some g). cbn iota. change (ob_AuthorityPublicKey ob) with authority.2. rewrite Hv. cbn [mbind result_bind mapErr].
  assert (grant_matches g (ci_DevicePublicKey init) (unsigned_of challenge) = true) as -> by exact grant_matches_session. cbn [negb]. cbn iota.
  rewrite Hn, (ParseNodeID_FormatUint n) by (unfold is_u64; lia). unfold Device_Enroll. rewrite Hd, (proj2 (NodeID_Validate_ok n)) by lia. done.
Qed.
End together.

(** ** With the authority of this node *)

Section local.
Context `{CryptoLaws}.

(** A new device with a permit: an outcome is a grant for it. *)
Lemma local_grants (a : EnrollmentAuthority) (s : EnrollmentSubmission) (order : list (string * requestState)) (random : list byte) (now : Z) (saved : bool) (outcome : EnrollmentOutcome) :
  Identity_Validate (au_identity a) = Ok tt → is_i64 (UnixMilli now) → order ≡ₚ map_to_list (d_requests (submit_data a now)) → is_Some (sb_Permit s) →
  (∀ id r, d_requests (submit_data a now) !! id = Some r → rq_Fingerprint r ≠ DevicePublicKeyFingerprint (sb_DevicePublicKey s)) →
  (Submit a s order random now saved).2 = Ok outcome →
  ∃ g n, grants (mkLocalBroker a order random now saved) (i_NodeID (au_identity a), i_PublicKey (au_identity a)) s outcome g n.
Proof.
  intros Hi Ht Ho [p Ep] Hnew Hout.
  assert (∃ g n id profile r, outcome = mkOutcome "granted" (sb_RequestID s) (Some g) "" ∧ g = grant_for a r profile (UnixMilli now) n id ∧ Grant_Validate g = Ok tt ∧ 0 < n ≤ maxInt ∧
    rq_DevicePublicKey r = sb_DevicePublicKey s ∧ rq_ParentNodeID r = sb_ParentNodeID s ∧ rq_ParentPublicKey r = sb_ParentPublicKey s) as (g & n & id & profile & r & -> & Hg & Hv & Hn & Hr1 & Hr2 & Hr3).
  { unfold Submit in Hout. destruct (validateEnrollmentSubmission s) as [[]|]; [|done]. destruct (d_requests (submit_data a now) !! sb_RequestID s) as [existing|] eqn:Er.
    { destruct (same_origin _ s existing) eqn:Es; [|done]. apply same_origin_parts in Es as (E & _). by apply Hnew in Er. }
    destruct (find_request _ s order) as [existing|] eqn:Ef.
    { unfold find_request in Ef. apply head_Some_elem_of in Ef. apply list_elem_of_filter in Ef as [Hm Hin]. apply list_elem_of_fmap in Hin as ([id r'] & -> & Hin).
      rewrite Ho in Hin. apply elem_of_map_to_list in Hin. apply andb_true_iff in Hm as [Hm _]. apply same_origin_parts in Hm as (E & _). by apply Hnew in Hin. }
    destruct (_ <=? _); [done|]. rewrite Ep in Hout. unfold submit_granted, grantSubmissionWithPermitLocked in Hout.
    destruct (consumePermitLocked _ _ _ _ _ _) as [rec|]; [|done]. cbn [mbind result_bind] in Hout. destruct (grantLocked _ _ _ _ _ _) as [[g d']|] eqn:Eg; [|done].
    cbn [mbind result_bind] in Hout. apply grantLocked_fresh in Eg as (n & eid & [Hg _ Hv [Hn _] _ _ _]).
    destruct (commit_cases a (put_permit d' (pm_PermitID (ps_Permit rec)) (mkPermitState (ps_Permit rec) "consumed" (ps_IssueRequestID rec) (sb_RequestID s) (UnixMilli now) (ps_RevokedAtUnixMS rec) (ps_Reason rec))) saved)
      as [[e Ec]|[_ Ec]]; simpl in Hout, Ec; rewrite Ec in Hout; simpl in Hout; [done|]. simplify_eq.
    do 5 eexists. split; [reflexivity|]. split; [reflexivity|]. split; [exact Hv|]. split; [exact Hn|]. done. }
  exists g, n. subst g. split; simpl; try done.
  - by destruct (Submit _ _ _ _ _ _).
  - split; [by apply VerifyEnrollmentGrant_signed|]. split_and!; [done|apply u64_range|done].
  - by rewrite Hr1.
  - by rewrite Hr2, Hr3.
  - split; [done|]. unfold maxInt, maxUint64 in *. lia.
  - etrans; [apply base64_size|]. pose proof (Sign_size (i_PrivateKey (au_identity a)) (enrollmentGrantMessage
      (mkGrant SchemaVersionV1 id (FormatUint (i_NodeID (au_identity a))) (RawStd_EncodeToString (i_PublicKey (au_identity a))) (FormatUint n) (RawStd_EncodeToString (rq_DevicePublicKey r))
         (FormatUint (rq_ParentNodeID r)) (RawStd_EncodeToString (rq_ParentPublicKey r)) profile (u64 (au_generation a + 1)) (UnixMilli now) ""))) as Hs. unfold blen, SignatureSize in Hs. lia.
Qed.

Context (error_text : authority_error → string) (server : Server) (trust : TrustStore) (device : DeviceIdentity) (o : ClientOptions).
Context (generated : option MessageID) (nonce : list byte) (now now' t : Z) (saved : bool).

(** The two sides over one pipe: the parent answers what it reads, the device hears the frames that
    the parent sends, and closes the pipe when it gives up. *)
Definition serve `{Broker B} (b : B) (first : EnrollmentFrame) (client : peer) : handled B :=
  Handle error_text server trust true saved b false (Ok first) (Some nonce) client now now' true.
Definition frame_at (l : list EnrollmentFrame) (i : nat) : result enrollment_error EnrollmentFrame :=
  match l !! i with Some frame => Ok frame | None => Err NReadHeader end.
Definition run_session `{Broker B} (b : B) : result session_error (ClientResult * handled B) :=
  '(init, payload, anchor) ← enroll_init device o false generated;
  let first := frame_of EnrollmentMessageClientInit payload in
  res ← Enroll device o false false generated (λ f, frame_at (h_sent (serve b f (λ _, Err NReadHeader))) 0)
          (λ f, frame_at (h_sent (serve b first (λ _, Ok f))) 1) t true true;
  Ok (res, serve b first (λ f, match enroll_prove device o init payload anchor f t with
                              | Ok (_, _, proof) => Ok (frame_of EnrollmentMessageProof proof)
                              | Err _ => Err NReadHeader
                              end)).

(** What the session needs of the two sides, the clocks and the frames. *)
Record session_ok (authority : Identity) (init : EnrollmentClientInitV1) (payload anchor : list byte) : Prop := mkSessionOk {
  so_parent : Identity_Validate (sv_parent server) = Ok tt ∧ is_u64 (i_NodeID (sv_parent server));
  so_authority : Identity_Validate authority = Ok tt ∧ is_u64 (i_NodeID authority);
  so_nonce : blen nonce = 32;
  so_expiry : 0 < UnixMilli (now + sv_challengeTTL server) ∧ is_i64 (UnixMilli (now + sv_challengeTTL server));
  so_clocks : UnixMilli t < UnixMilli (now + sv_challengeTTL server) ∧ UnixMilli now' < UnixMilli (now + sv_challengeTTL server);
  so_frames : full_frames (sv_codec server) ∧ full_frames (op_Codec o);
  so_init : enroll_init device o false generated = Ok (init, payload, anchor);
  so_expects : expects o (mkObservation (i_NodeID (sv_parent server)) (i_PublicKey (sv_parent server)) (i_NodeID authority) (i_PublicKey authority))
}.
(** The submission of the session. *)
Definition session_submission (authority : Identity) (init : EnrollmentClientInitV1) (payload : list byte) : EnrollmentSubmission :=
  mkSubmission (ci_RequestID init) (dv_PublicKey device) (i_NodeID (sv_parent server)) (i_PublicKey (sv_parent server)) (op_Permit o)
    (transcriptDigest payload (json_Marshal (sign_challenge server (make_challenge server (ci_RequestID init) (i_NodeID authority, i_PublicKey authority) nonce now)))).

(** The session with any broker that grants the submission. *)
Lemma session_completes `{Broker B} (b b' : B) (authority : Identity) (init : EnrollmentClientInitV1) (payload anchor : list byte) (outcome : EnrollmentOutcome) (g : EnrollmentGrantV1) (n : NodeID) (trust' : TrustStore) :
  let s := session_submission authority init payload in
  let identity := mkIdentity n (dv_PublicKey device) (dv_PrivateKey device) in
  session_ok authority init payload anchor → AuthorityIdentity b = Some (i_NodeID authority, i_PublicKey authority) →
  Broker_Submit b s = (b', Ok outcome) → grants b (i_NodeID authority, i_PublicKey authority) s outcome g n → TrustStore_Add trust n (dv_PublicKey device) saved = (trust', Ok tt) →
  (∃ res h, run_session b = Ok (res, h) ∧ cr_Identity res = Some identity ∧ ob_ParentNodeID (cr_Observation res) = i_NodeID (sv_parent server) ∧
     h_result h = Ok tt ∧ h_trust h = trust' ∧ h_broker h = b') ∧
  ∀ epoch join_nonce, epoch ≠ 0 → ∃ claim, NewJoinClaim identity epoch (Some join_nonce) = Ok claim ∧ VerifyJoin trust' claim = Ok tt.
Proof.
  intros s identity [[Hp1 Hp2] [Ha1 Ha2] Hn [Hx1 Hx2] [Hc1 Hc2] [Hf1 Hf2] Hi He] Hau Hbs Hg Hadd.
  pose proof (Identity_Validate_ok _ Ha1) as (Ha3 & Ha4 & _). set (au := (i_NodeID authority, i_PublicKey authority)) in *.
  assert (∃ generated, enroll_init device o false generated = Ok (init, payload, anchor)) as Hex by eauto.
  pose proof (handle_init error_text server trust b device o au nonce now now' init payload anchor Hp1 Hp2 Hau (conj Ha2 Ha3) Ha4 Hn Hx1 Hx2 Hf1 Hex He saved) as Hinit.
  pose proof (device_proves server device o au nonce now t init payload anchor Hp1 Hp2 (conj Ha2 Ha3) Ha4 Hn Hx1 Hx2 Hc1 Hex He) as Hprove.
  pose proof (handle_submits error_text server trust b device o au nonce now now' init payload anchor Hn Hc2 Hex He saved) as Hsubmit.
  pose proof (handle_grants server trust b device o au nonce now init payload anchor Hp1 Ha4 Hf1 Hex outcome g n saved trust' Hg Hadd) as Hgrant.
  pose proof (device_finishes server b device o au nonce now init payload anchor Hp1 Ha4 Hex outcome g n Hg) as Hfinish.
  pose proof (enroll_init_ok _ _ _ _ _ _ _ Hi) as (Hd & Henc & _).
  pose proof (proof_encoded server device o au nonce now init payload anchor Hn Hex) as [Hpe _].
  set (first := frame_of EnrollmentMessageClientInit payload) in *. set (challenge := sign_challenge server _) in *. set (proof := mkProof _ _ _ _) in *.
  set (res := mkResult _ _ _ _ _ _) in *. set (challengeFrame := frame_of EnrollmentMessageChallenge _) in *. set (proofFrame := frame_of EnrollmentMessageProof _) in *.
  set (resultFrame := frame_of EnrollmentMessageResult _) in *.
  assert (∀ client, client challengeFrame = Ok proofFrame → serve b first client = mkHandled [challengeFrame; resultFrame] b' trust' (Ok tt)) as Hserve.
  { intros client Hcl. unfold serve. rewrite Hinit, Hcl, Hsubmit. change (Broker_Submit b _) with (Broker_Submit b s). rewrite Hbs. apply Hgrant. }
  assert (send (op_Codec o) true first = Ok tt) as Hs1 by (eapply (send_encoded _ _ init); [done|by vm_compute|done]).
  assert (send (op_Codec o) true proofFrame = Ok tt) as Hs2 by (eapply (send_encoded _ _ proof); [done|by vm_compute|done]).
  split.
  - eexists _, _. unfold run_session. rewrite Hi. cbn [mbind result_bind]. unfold Enroll. rewrite Hi. cbn [mbind result_bind]. fold first.
    rewrite Hs1. cbn [mbind result_bind enrollmentContextError].
    assert (h_sent (serve b first (λ _, Err NReadHeader)) = [challengeFrame]) as -> by (unfold serve; by rewrite Hinit). cbn [frame_at lookup list_lookup mapErr mbind result_bind enrollmentContextError].
    rewrite Hprove. cbn [mbind result_bind]. fold proofFrame. rewrite Hs2. cbn [mbind result_bind enrollmentContextError].
    rewrite (Hserve (λ _, Ok proofFrame) eq_refl). cbn [h_sent frame_at lookup list_lookup mapErr mbind result_bind enrollmentContextError]. rewrite Hfinish. cbn [mbind result_bind].
    split; [reflexivity|]. rewrite Hserve by (by rewrite Hprove). done.
  - intros epoch join_nonce Hep. destruct (gs_node _ _ _ _ _ _ Hg) as [_ Hnr]. assert (Device_Enroll device n = Ok identity) as Hid.
    { unfold Device_Enroll. rewrite Hd, (proj2 (NodeID_Validate_ok n)) by lia. done. }
    apply enrolled_identity in Hid as (_ & _ & _ & Hid). eexists. split; [unfold NewJoinClaim, newJoinClaim; by rewrite Hid, (proj2 (Z.eqb_neq _ _) Hep)|].
    eapply (claim_accepted _ identity join_nonce epoch); [|unfold NewJoinClaim, newJoinClaim; by rewrite Hid, (proj2 (Z.eqb_neq _ _) Hep)].
    pose proof (TrustStore_Add_cases trust n (dv_PublicKey device) saved) as Hcases. rewrite Hadd in Hcases. by apply Hcases.
Qed.

(** C25. Enrollment end to end.  A new device with a permit talks to its parent, whose broker is the
    authority of that node.  When the authority grants the submission, which carries the
    device's key and permit and the digest of the messages of the session, and the parent can
    record the granted node: the session succeeds on both sides, the authority is asked
    exactly once, the device holds an identity with its own key and the granted number, and
    the parent accepts every join claim that identity makes. *)
Theorem enrollment_completes (a a' : EnrollmentAuthority) (order : list (string * requestState)) (random : list byte) (tb : Z) (asaved : bool)
    (init : EnrollmentClientInitV1) (payload anchor : list byte) (outcome : EnrollmentOutcome) :
  let s := session_submission (au_identity a) init payload in
  session_ok (au_identity a) init payload anchor → is_Some (op_Permit o) →
  is_i64 (UnixMilli tb) → order ≡ₚ map_to_list (d_requests (submit_data a tb)) →
  (∀ id r, d_requests (submit_data a tb) !! id = Some r → rq_Fingerprint r ≠ DevicePublicKeyFingerprint (dv_PublicKey device)) →
  Submit a s order random tb asaved = (a', Ok outcome) →
  ∃ n, (gr_NodeID <$> oc_Grant outcome) = Some (FormatUint n) ∧ 0 < n ≤ maxUint64 ∧
    ∀ trust', TrustStore_Add trust n (dv_PublicKey device) saved = (trust', Ok tt) →
    let identity := mkIdentity n (dv_PublicKey device) (dv_PrivateKey device) in
    (∃ res h, run_session (mkLocalBroker a order random tb asaved) = Ok (res, h) ∧ cr_Identity res = Some identity ∧ ob_ParentNodeID (cr_Observation res) = i_NodeID (sv_parent server) ∧
       h_result h = Ok tt ∧ h_trust h = trust' ∧ h_broker h = mkLocalBroker a' order random tb asaved) ∧
    ∀ epoch join_nonce, epoch ≠ 0 → ∃ claim, NewJoinClaim identity epoch (Some join_nonce) = Ok claim ∧ VerifyJoin trust' claim = Ok tt.
Proof.
  intros s Hso Hper Htb Hord Hnew Hsub. pose proof (so_authority _ _ _ _ Hso) as [Ha1 _]. set (b := mkLocalBroker a order random tb asaved).
  destruct (local_grants a s order random tb asaved outcome Ha1 Htb Hord Hper Hnew) as (g & n & Hg); [by rewrite Hsub|]. exists n.
  split; [destruct (gs_outcome _ _ _ _ _ _ Hg) as (_ & _ & ->); simpl; by destruct (gs_node _ _ _ _ _ _ Hg) as [-> _]|]. split; [apply (gs_node _ _ _ _ _ _ Hg)|]. intros trust' Hadd identity.
  apply (session_completes b (mkLocalBroker a' order random tb asaved) (au_identity a) init payload anchor outcome g n trust' Hso); [reflexivity|transitivity (let '(x, r) := Submit a s order random tb asaved in (mkLocalBroker x order random tb asaved, r)); [reflexivity|by rewrite Hsub]|exact Hg|exact Hadd].
Qed.
End local.

(** ** Witnesses *)

Module Handshake_demo.
Definition server : Server := mkServer (Toy.identity 7) (mkEnrollmentCodec 0) (30 * Second).
Definition options : ClientOptions := mkOptions (Enroll_demo.hex 2) Enroll_demo.permit 7 [] 9 [] false None (mkEnrollmentCodec 0).
Definition nonce : list byte := be_bytes 32 11.
Definition init : EnrollmentClientInitV1 * list byte * list byte :=
  from_ok (init_zero, [], []) (enroll_init (Toy.device 5) options false None).
Definition broker : LocalBroker := mkLocalBroker Enroll_demo.a1 (Enroll_demo.order Enroll_demo.a1) (Enroll_demo.random 50 60) (Enroll_demo.at_ 6) true.
Definition session : result session_error (ClientResult * handled LocalBroker) :=
  run_session (λ _, "refused") server NewTrustStore (Toy.device 5) options None nonce (Enroll_demo.at_ 6) (Enroll_demo.at_ 7) (Enroll_demo.at_ 6) true broker.
Definition submission : EnrollmentSubmission :=
  session_submission server (Toy.device 5) options nonce (Enroll_demo.at_ 6) (Toy.identity 9) init.1.1 init.1.2.
End Handshake_demo.

(** What the device sees in that session. *)
Definition demo_hears (client : peer) (i : nat) : result enrollment_error EnrollmentFrame :=
  frame_at (h_sent (serve (λ _, "refused") Handshake_demo.server NewTrustStore Handshake_demo.nonce (Enroll_demo.at_ 6) (Enroll_demo.at_ 7) true Handshake_demo.broker
                      (frame_of EnrollmentMessageClientInit Handshake_demo.init.1.2) client)) i.
Definition demo_enroll : result session_error ClientResult :=
  Enroll (Toy.device 5) Handshake_demo.options false false None (λ _, demo_hears (λ _, Err NReadHeader) 0) (λ f, demo_hears (λ _, Ok f) 1) (Enroll_demo.at_ 6) true true.

Lemma demo_identity : match demo_enroll with Ok res => match cr_Identity res with Some _ => true | None => false end | Err _ => false end = true.
Proof. vm_compute. reflexivity. Qed.

Lemma enroll_authenticates_witness :
  match demo_enroll with
  | Ok res => ∃ g, re_Grant (cr_Outcome res) = Some g ∧ VerifyEnrollmentGrant (ob_AuthorityPublicKey (cr_Observation res)) g = Ok tt
  | Err _ => False
  end.
Proof.
  destruct demo_enroll as [res|e] eqn:E.
  - pose proof demo_identity as Hc. rewrite E in Hc. destruct (cr_Identity res) as [identity|] eqn:Ei; [|discriminate Hc].
    destruct (enroll_authenticates _ _ _ _ _ _ _ _ _ _ _ _ E Ei) as (_ & _ & _ & _ & g & _ & _ & _ & _ & _ & _ & _ & _ & Hg & Hv & _). exists g. split; [exact Hg|exact Hv].
  - pose proof demo_identity as Hc. rewrite E in Hc. discriminate Hc.
Defined.

Lemma demo_session_ok : session_ok Handshake_demo.server (Toy.device 5) Handshake_demo.options None Handshake_demo.nonce (Enroll_demo.at_ 6) (Enroll_demo.at_ 7) (Enroll_demo.at_ 6)
  (Toy.identity 9) Handshake_demo.init.1.1 Handshake_demo.init.1.2 Handshake_demo.init.2.
Proof.
  split; try (vm_compute; done).
  split; try (by left); try (by right).
  - intros p Hp. split; [revert p Hp; apply permit_ints_check; vm_compute; reflexivity|].
    assert (from_option (λ p, String.eqb (pm_AuthorityPublicKey p) (RawStd_EncodeToString (be_bytes 32 9)) && String.eqb (pm_AuthorityNodeID p) (FormatUint 9) && String.eqb (pm_TargetNodeID p) (FormatUint 7))
      true (op_Permit Handshake_demo.options) = true) as Hc by (vm_compute; reflexivity).
    rewrite Hp in Hc. cbn [from_option] in Hc. bool_prop. eqb_prop. auto.
  - intros _ Hp. assert (bool_decide (is_Some (op_Permit Handshake_demo.options)) = true) as Hc by (vm_compute; reflexivity). by rewrite Hp in Hc.
Qed.

Lemma demo_granted_node :
  match (Submit Enroll_demo.a1 Handshake_demo.submission (Enroll_demo.order Enroll_demo.a1) (Enroll_demo.random 50 60) (Enroll_demo.at_ 6) true).2 with
  | Ok outcome => gr_NodeID <$> oc_Grant outcome
  | Err _ => None
  end = Some (FormatUint 50).
Proof. vm_compute. reflexivity. Qed.
Lemma no_requests `{Crypto} a now key : size (d_requests (au_data a)) = 0%nat →
  ∀ id r, d_requests (submit_data a now) !! id = Some r → rq_Fingerprint r ≠ DevicePublicKeyFingerprint key.
Proof. intros Hz%map_size_empty_inv id r. unfold submit_data. simpl. rewrite Hz, fmap_empty. by rewrite lookup_empty. Qed.

Lemma enrollment_completes_witness :
  ∃ res h trust', Handshake_demo.session = Ok (res, h) ∧ h_trust h = trust' ∧ cr_Identity res = Some (mkIdentity 50 (be_bytes 32 5) (Toy.private 5)).
Proof.
  assert (size (d_requests (au_data Enroll_demo.a1)) = 0%nat) as Hz by (vm_compute; reflexivity).
  destruct (Submit Enroll_demo.a1 Handshake_demo.submission (Enroll_demo.order Enroll_demo.a1) (Enroll_demo.random 50 60) (Enroll_demo.at_ 6) true) as [a' r] eqn:Es.
  pose proof demo_granted_node as Hg. rewrite Es in Hg. destruct r as [outcome|e]; [|discriminate Hg]. change (gr_NodeID <$> oc_Grant outcome = Some (FormatUint 50)) in Hg.
  pose proof (enrollment_completes (λ _, "refused") Handshake_demo.server NewTrustStore (Toy.device 5) Handshake_demo.options None Handshake_demo.nonce (Enroll_demo.at_ 6) (Enroll_demo.at_ 7)
      (Enroll_demo.at_ 6) true Enroll_demo.a1 a' (Enroll_demo.order Enroll_demo.a1) (Enroll_demo.random 50 60) (Enroll_demo.at_ 6) true _ _ _ outcome demo_session_ok) as Hc.
  specialize (Hc ltac:(vm_compute; eauto) ltac:(vm_compute; split; congruence) (order_of_none _ _ Hz) (no_requests _ _ _ Hz) Es). destruct Hc as (n & Hn & Hr & Hall).
  rewrite Hg in Hn. injection Hn as Hn. apply FormatUint_inj in Hn; [|vm_compute; split; congruence|unfold is_u64; lia]. subst n.
  destruct (Hall (TrustStore_Add NewTrustStore 50 (be_bytes 32 5) true).1 ltac:(vm_compute; reflexivity)) as ((res & h & Hs & Hid & _ & _ & Ht & _) & _).
  exists res, h, (TrustStore_Add NewTrustStore 50 (be_bytes 32 5) true).1. split; [exact Hs|split; [exact Ht|exact Hid]].
Defined.
