(* ===== verification/ClientStore.v ===== *)
(** * The credential of a device (runtime/auth/enrollment_client_store.go)

    A device keeps its key pair, the identifier of its enrollment request, whom it enrolled with
    and its grant in one record, behind the interface [EnrollmentCredentialStore]; and
    [enrollStateTCP] (sdk/bindings/enrollment.go), which runs the handshake from that record and
    records what it learned.

    The state carries what the store holds.  A save succeeds, or fails with the old or with the
    new record in the store.  Copies of slices are the slices themselves; the outcomes of
    loading and of the random source are arguments. *)

From S2P Require Import Prelude GoStd GoSort GoEncoding GoJSON GoFloat GoStruct Wire Codec PolicySchema EnrollmentWire Payload EnrollmentPayload Identity Admission EnrollmentAuthority EnrollmentTheory EnrollmentHistory EnrollmentSession EnrollmentHandshake.
Open Scope Z_scope.

Definition enrollmentClientStateVersion : Z := 1.

Inductive client_error :=
| KLoad | KRandom | KSave | KVersion | KAuthority (e : authority_error) | KDevice (e : auth_failure) | KNode (e : wire_error) | KKeySize
| KDeviceState | KPendingState | KEnrolledState | KGrantState | KStatus | KConflict | KGrantKey | KGrantNode
| ErrEnrollmentCredentialMissing | ErrEnrollmentNotGranted.

Record EnrollmentCredential := mkCredential {
  cd_Version : Z; cd_Status : string; cd_RequestID : string; cd_DevicePublicKey : list byte; cd_DevicePrivateKey : list byte;
  cd_Grant : option EnrollmentGrantV1; cd_ParentNodeID : NodeID; cd_ParentPublicKey : list byte; cd_AuthorityNodeID : NodeID; cd_AuthorityPublicKey : list byte
}.
Record EnrollmentClientSnapshot := mkSnapshot {
  sn_Status : string; sn_RequestID : string; sn_DevicePublicKey : list byte; sn_Grant : option EnrollmentGrantV1;
  sn_ParentNodeID : NodeID; sn_ParentPublicKey : list byte; sn_AuthorityNodeID : NodeID; sn_AuthorityPublicKey : list byte
}.
Record NodeCredential := mkNodeCredential {
  nc_Identity : Identity; nc_ParentNodeID : NodeID; nc_ParentPublicKey : list byte; nc_AuthorityNodeID : NodeID; nc_AuthorityPublicKey : list byte; nc_EnrollmentID : string
}.
(** The record in memory and the one in the store. *)
Record EnrollmentClientState := mkClientState { cs_state : EnrollmentCredential; cs_disk : option EnrollmentCredential }.
Inductive binding_error := BNegative | BKey | BPermit (e : payload_error) | BDial | BEnroll (e : session_error) | BRecord (e : client_error) | BNoGrant.

(** The outcome of a save: no error; or an error, with the new record in the store or not. *)
Inductive save_outcome := Saved | SaveFailed (written : bool).

Definition enrollmentClientSnapshot (c : EnrollmentCredential) : EnrollmentClientSnapshot :=
  mkSnapshot (cd_Status c) (cd_RequestID c) (cd_DevicePublicKey c) (cd_Grant c) (cd_ParentNodeID c) (cd_ParentPublicKey c) (cd_AuthorityNodeID c) (cd_AuthorityPublicKey c).
Definition device_of (c : EnrollmentCredential) : DeviceIdentity := mkDevice (cd_DevicePublicKey c) (cd_DevicePrivateKey c).
Definition DeviceIdentityOf (st : EnrollmentClientState) : DeviceIdentity := device_of (cs_state st).
Definition Snapshot (st : EnrollmentClientState) : EnrollmentClientSnapshot := enrollmentClientSnapshot (cs_state st).

Definition validateEnrollmentObservation (parentNodeID : NodeID) (parentPublicKey : list byte) (authorityNodeID : NodeID) (authorityPublicKey : list byte) : result client_error unit :=
  _ ← mapErr KNode (NodeID_Validate parentNodeID);
  fail_if negb (blen parentPublicKey =? PublicKeySize) with KKeySize ;;
  _ ← mapErr KNode (NodeID_Validate authorityNodeID);
  fail_if negb (blen authorityPublicKey =? PublicKeySize) with KKeySize ;;
  Ok tt.

Section client_store.
Context `{Crypto}.

Definition validateEnrollmentCredential (c : EnrollmentCredential) : result client_error unit :=
  fail_if negb (cd_Version c =? enrollmentClientStateVersion) with KVersion ;;
  _ ← mapErr KAuthority (validateEnrollmentHexID (cd_RequestID c) 16);
  _ ← mapErr KDevice (Device_Validate (device_of c));
  if String.eqb (cd_Status c) "device" then
    fail_if bool_decide (is_Some (cd_Grant c)) || negb (cd_ParentNodeID c =? 0) || negb (cd_AuthorityNodeID c =? 0)
         || negb (blen (cd_ParentPublicKey c) =? 0) || negb (blen (cd_AuthorityPublicKey c) =? 0) with KDeviceState ;;
    Ok tt
  else if String.eqb (cd_Status c) "pending" then
    fail_if bool_decide (is_Some (cd_Grant c)) with KPendingState ;;
    validateEnrollmentObservation (cd_ParentNodeID c) (cd_ParentPublicKey c) (cd_AuthorityNodeID c) (cd_AuthorityPublicKey c)
  else if String.eqb (cd_Status c) "enrolled" then
    match cd_Grant c with
    | None => Err KEnrolledState
    | Some g =>
      _ ← validateEnrollmentObservation (cd_ParentNodeID c) (cd_ParentPublicKey c) (cd_AuthorityNodeID c) (cd_AuthorityPublicKey c);
      _ ← mapErr KAuthority (VerifyEnrollmentGrant (cd_AuthorityPublicKey c) g);
      fail_if negb (String.eqb (gr_DevicePublicKey g) (RawStd_EncodeToString (cd_DevicePublicKey c)))
           || negb (String.eqb (gr_ParentNodeID g) (FormatUint (cd_ParentNodeID c)))
           || negb (String.eqb (gr_ParentPublicKey g) (RawStd_EncodeToString (cd_ParentPublicKey c)))
           || negb (String.eqb (gr_AuthorityNodeID g) (FormatUint (cd_AuthorityNodeID c)))
           || negb (String.eqb (gr_AuthorityPublicKey g) (RawStd_EncodeToString (cd_AuthorityPublicKey c))) with KGrantState ;;
      Ok tt
    end
  else Err KStatus.

Definition save (st : EnrollmentClientState) (next : EnrollmentCredential) (s : save_outcome) : EnrollmentClientState * result client_error unit :=
  match s with
  | Saved => (mkClientState next (Some next), Ok tt)
  | SaveFailed written => (mkClientState (cs_state st) (if written then Some next else cs_disk st), Err KSave)
  end.
Definition Client_commitLocked (st : EnrollmentClientState) (next : EnrollmentCredential) (s : save_outcome) : EnrollmentClientState * result client_error unit :=
  match validateEnrollmentCredential next with
  | Err e => (st, Err e)
  | Ok _ => save st next s
  end.

(** [generated] and [requestID]: a new key pair and a new message identifier. *)
Definition LoadOrCreateEnrollmentClientStateWithStore (loaded : option (option EnrollmentCredential)) (generated : option (list byte * list byte)) (requestID : option MessageID)
    (saved : bool) : result client_error EnrollmentClientState :=
  match loaded with
  | None => Err KLoad
  | Some file =>
    state ← match file with
            | Some c => Ok c
            | None =>
              device ← mapErr KDevice (GenerateDeviceIdentity generated);
              match requestID with
              | None => Err KRandom
              | Some id =>
                fail_if negb saved with KSave ;;
                Ok (mkCredential enrollmentClientStateVersion "device" (MessageID_String id) (dv_PublicKey device) (dv_PrivateKey device) None 0 [] 0 [])
              end
            end;
    _ ← validateEnrollmentCredential state;
    Ok (mkClientState state (Some state))
  end.

(** What is recorded is something else. *)
Definition conflicts (c : EnrollmentCredential) (parentNodeID : NodeID) (parentPublicKey : list byte) (authorityNodeID : NodeID) (authorityPublicKey : list byte) : bool :=
  negb (cd_ParentNodeID c =? parentNodeID) || negb (cd_AuthorityNodeID c =? authorityNodeID)
  || negb (bool_decide (cd_ParentPublicKey c = parentPublicKey)) || negb (bool_decide (cd_AuthorityPublicKey c = authorityPublicKey)).

Definition RecordObservation (st : EnrollmentClientState) (parentNodeID : NodeID) (parentPublicKey : list byte) (authorityNodeID : NodeID) (authorityPublicKey : list byte)
    (s : save_outcome) : EnrollmentClientState * result client_error unit :=
  match validateEnrollmentObservation parentNodeID parentPublicKey authorityNodeID authorityPublicKey with
  | Err e => (st, Err e)
  | Ok _ =>
    let c := cs_state st in
    if String.eqb (cd_Status c) "enrolled" then
      if conflicts c parentNodeID parentPublicKey authorityNodeID authorityPublicKey then (st, Err KConflict) else (st, Ok tt)
    else if negb (cd_ParentNodeID c =? 0) && conflicts c parentNodeID parentPublicKey authorityNodeID authorityPublicKey then (st, Err KConflict)
    else Client_commitLocked st
      (mkCredential (cd_Version c) "pending" (cd_RequestID c) (cd_DevicePublicKey c) (cd_DevicePrivateKey c) (cd_Grant c)
         parentNodeID parentPublicKey authorityNodeID authorityPublicKey) s
  end.

Definition grant_observation (c : EnrollmentCredential) (g : EnrollmentGrantV1) : result client_error (NodeID * list byte * NodeID * list byte) :=
  match RawStd_DecodeString (gr_AuthorityPublicKey g) with
  | None => Err KGrantKey
  | Some authorityKey =>
    fail_if negb (blen authorityKey =? PublicKeySize) with KGrantKey ;;
    _ ← mapErr KAuthority (VerifyEnrollmentGrant authorityKey g);
    fail_if negb (String.eqb (gr_DevicePublicKey g) (RawStd_EncodeToString (cd_DevicePublicKey c))) with KConflict ;;
    match parseEnrollmentNodeID (gr_ParentNodeID g), parseEnrollmentNodeID (gr_AuthorityNodeID g) with
    | Some parentNodeID, Some authorityNodeID =>
      let parentKey := key_bytes (gr_ParentPublicKey g) in
      _ ← validateEnrollmentObservation parentNodeID parentKey authorityNodeID authorityKey;
      fail_if negb (cd_ParentNodeID c =? 0) && conflicts c parentNodeID parentKey authorityNodeID authorityKey with KConflict ;;
      Ok (parentNodeID, parentKey, authorityNodeID, authorityKey)
    | _, _ => Err KGrantNode
    end
  end.
Definition RecordGrant (st : EnrollmentClientState) (g : EnrollmentGrantV1) (s : save_outcome) : EnrollmentClientState * result client_error unit :=
  let c := cs_state st in
  match grant_observation c g with
  | Err e => (st, Err e)
  | Ok (parentNodeID, parentKey, authorityNodeID, authorityKey) =>
    Client_commitLocked st
      (mkCredential (cd_Version c) "enrolled" (cd_RequestID c) (cd_DevicePublicKey c) (cd_DevicePrivateKey c) (Some g) parentNodeID parentKey authorityNodeID authorityKey) s
  end.

Definition ClientIdentity (st : EnrollmentClientState) : result client_error (option Identity) :=
  let c := cs_state st in
  match cd_Grant c with
  | Some g =>
    if negb (String.eqb (cd_Status c) "enrolled") then Ok None else
    match ParseNodeID (gr_NodeID g) with
    | None => Err KGrantNode
    | Some nodeID => identity ← mapErr KDevice (Device_Enroll (device_of c) nodeID); Ok (Some identity)
    end
  | None => Ok None
  end.

(** [EnrollmentCredentialSource]. *)
Definition LoadNodeCredential (loaded : option (option EnrollmentCredential)) : result client_error NodeCredential :=
  match loaded with
  | None => Err KLoad
  | Some None => Err ErrEnrollmentCredentialMissing
  | Some (Some c) =>
    _ ← validateEnrollmentCredential c;
    match cd_Grant c with
    | Some g =>
      fail_if negb (String.eqb (cd_Status c) "enrolled") with ErrEnrollmentNotGranted ;;
      match parseEnrollmentNodeID (gr_NodeID g) with
      | None => Err KGrantNode
      | Some nodeID =>
        identity ← mapErr KDevice (Device_Enroll (device_of c) nodeID);
        Ok (mkNodeCredential identity (cd_ParentNodeID c) (cd_ParentPublicKey c) (cd_AuthorityNodeID c) (cd_AuthorityPublicKey c) (gr_EnrollmentID g))
      end
    | None => Err ErrEnrollmentNotGranted
    end
  end.
Definition InspectEnrollmentClientState (loaded : option (option EnrollmentCredential)) : result client_error (option EnrollmentClientSnapshot) :=
  match loaded with
  | None => Err KLoad
  | Some None => Ok None
  | Some (Some c) => _ ← validateEnrollmentCredential c; Ok (Some (enrollmentClientSnapshot c))
  end.

(** ** sdk/bindings/enrollment.go *)

Definition bindingPublicKey (value : string) : option (list byte) :=
  decoded ← RawStd_DecodeString value; if blen decoded =? PublicKeySize then Some decoded else None.
Definition optional_key (value : string) : result binding_error (list byte) :=
  if String.eqb value "" then Ok [] else match bindingPublicKey value with Some key => Ok key | None => Err BKey end.

(** The options of the handshake: what is recorded, or else what the caller expects. *)
Definition state_options (snapshot : EnrollmentClientSnapshot) (permitJSON : string) (allowTOFU : bool) (expectedParentID : Z) (expectedParentKey expectedAuthorityKey : string)
    : result binding_error ClientOptions :=
  '(parentID, parentKey, authorityID, authorityKey) ←
    (if negb (sn_ParentNodeID snapshot =? 0)
     then Ok (sn_ParentNodeID snapshot, sn_ParentPublicKey snapshot, sn_AuthorityNodeID snapshot, sn_AuthorityPublicKey snapshot)
     else fail_if expectedParentID <? 0 with BNegative ;;
          parentKey ← optional_key expectedParentKey;
          authorityKey ← optional_key expectedAuthorityKey;
          Ok (expectedParentID, parentKey, 0, authorityKey));
  permit ← (if String.eqb permitJSON "" then Ok None
            else p ← mapErr BPermit (DecodeJSONPayload (bytes_of permitJSON) EnrollmentMaxPayload); Ok (Some p));
  Ok (mkOptions (sn_RequestID snapshot) permit parentID parentKey authorityID authorityKey allowTOFU None (mkEnrollmentCodec 0)).

(** After the handshake: the observation and, if there is one, the grant. *)
Definition record_result (st : EnrollmentClientState) (r : ClientResult) (s s' : save_outcome) : EnrollmentClientState * result binding_error (list byte) :=
  let ob := cr_Observation r in
  let '(st, e) := RecordObservation st (ob_ParentNodeID ob) (ob_ParentPublicKey ob) (ob_AuthorityNodeID ob) (ob_AuthorityPublicKey ob) s in
  match e with
  | Err e => (st, Err (BRecord e))
  | Ok _ =>
    if String.eqb (re_Status (cr_Outcome r)) "granted" then
      match re_Grant (cr_Outcome r) with
      | None => (st, Err BNoGrant)
      | Some g =>
        let '(st, e) := RecordGrant st g s' in
        match e with Err e => (st, Err (BRecord e)) | Ok _ => (st, Ok (json_Marshal (cr_Outcome r))) end
      end
    else (st, Ok (json_Marshal (cr_Outcome r)))
  end.
(** [dialed] is whether the parent could be reached; [server] and [server'] are what it answers. *)
Definition enrollStateTCP (st : EnrollmentClientState) (permitJSON : string) (allowTOFU : bool) (expectedParentID : Z) (expectedParentKey expectedAuthorityKey : string)
    (dialed cancelled cancelled' : bool) (generated : option MessageID) (server server' : peer) (now : Z) (wrote wrote' : bool) (s s' : save_outcome) : EnrollmentClientState * result binding_error (list byte) :=
  match state_options (Snapshot st) permitJSON allowTOFU expectedParentID expectedParentKey expectedAuthorityKey with
  | Err e => (st, Err e)
  | Ok options =>
    if negb dialed then (st, Err BDial) else
    match Enroll (DeviceIdentityOf st) options cancelled cancelled' generated server server' now wrote wrote' with
    | Err e => (st, Err (BEnroll e))
    | Ok r => record_result st r s s'
    end
  end.
End client_store.

(** ** The record only moves forward *)

Definition rank (c : EnrollmentCredential) : Z :=
  if String.eqb (cd_Status c) "device" then 0 else if String.eqb (cd_Status c) "pending" then 1 else 2.
Definition observed (c : EnrollmentCredential) : NodeID * list byte * NodeID * list byte :=
  (cd_ParentNodeID c, cd_ParentPublicKey c, cd_AuthorityNodeID c, cd_AuthorityPublicKey c).

(** The key and the request stay, whom the device enrolls with stays once it is known, and the
    status does not go back. *)
Record advances (c c' : EnrollmentCredential) : Prop := mkAdvances {
  av_device : device_of c' = device_of c;
  av_request : cd_RequestID c' = cd_RequestID c ∧ cd_Version c' = cd_Version c;
  av_pinned : cd_ParentNodeID c ≠ 0 → observed c' = observed c;
  av_rank : rank c ≤ rank c'
}.
#[global] Instance advances_preorder : PreOrder advances.
Proof.
  split.
  - intros c. by split.
  - intros c1 c2 c3 [D1 [R1 V1] P1 K1] [D2 [R2 V2] P2 K2]. split; [congruence|split; congruence| |lia].
    intros Hp. specialize (P1 Hp). rewrite P2; [done|]. unfold observed in P1. congruence.
Qed.

Section client_theory.
Context `{Crypto}.

Definition credential_ok (c : EnrollmentCredential) : Prop := validateEnrollmentCredential c = Ok tt.
(** The record is valid, and the store holds a valid one that is not behind it. *)
Record client_ok (st : EnrollmentClientState) : Prop := mkClientOk {
  ck_state : credential_ok (cs_state st);
  ck_disk : ∃ d, cs_disk st = Some d ∧ credential_ok d ∧ advances (cs_state st) d
}.

Lemma conflicts_false c p pk a ak : conflicts c p pk a ak = false ↔ observed c = (p, pk, a, ak).
Proof.
  unfold conflicts, observed. rewrite !orb_false_iff, !negb_false_iff, !Z.eqb_eq, !bool_decide_eq_true. split; [by intros [[[-> ->] ->] ->]|by intros [= -> -> -> ->]].
Qed.
Lemma rank_range c : 0 ≤ rank c ≤ 2.
Proof. unfold rank. repeat case_match; lia. Qed.

Lemma commit_client st next s : client_ok st → advances (cs_state st) next →
  client_ok (Client_commitLocked st next s).1 ∧ advances (cs_state st) (cs_state (Client_commitLocked st next s).1).
Proof.
  intros Hst Ha. unfold Client_commitLocked. destruct (validateEnrollmentCredential next) as [[]|e] eqn:Ev; [|by split].
  destruct Hst as [Hs Hd]. destruct s as [|[]]; simpl; (split; [split; [done|]|done]); simpl; [by exists next|by exists next|done].
Qed.
Lemma RecordObservation_client st p pk a ak s : client_ok st →
  client_ok (RecordObservation st p pk a ak s).1 ∧ advances (cs_state st) (cs_state (RecordObservation st p pk a ak s).1).
Proof.
  intros Hst. unfold RecordObservation. destruct (validateEnrollmentObservation _ _ _ _); [|by split]. destruct (String.eqb_spec (cd_Status (cs_state st)) "enrolled") as [|Ee]; [by destruct (conflicts _ _ _ _ _)|].
  destruct (_ && _) eqn:Ec; [by split|]. apply commit_client; [done|]. split; try done.
  - intros Hp%Z.eqb_neq. rewrite Hp in Ec. simpl in Ec. symmetry. by apply conflicts_false.
  - pose proof (ck_state _ Hst) as Hv. unfold credential_ok, validateEnrollmentCredential in Hv. apply fail_if_ok in Hv as [_ Hv]. repeat (apply bind_ok in Hv as [_ Hv]).
    unfold rank. simpl. destruct (String.eqb _ "device"); [lia|]. destruct (String.eqb _ "pending"); [lia|]. by destruct (String.eqb_spec (cd_Status (cs_state st)) "enrolled").
Qed.
Lemma RecordGrant_client st g s : client_ok st → client_ok (RecordGrant st g s).1 ∧ advances (cs_state st) (cs_state (RecordGrant st g s).1).
Proof.
  intros Hst. unfold RecordGrant. destruct (grant_observation _ _) as [[[[p pk] a] ak]|] eqn:Eo; [|by split]. apply commit_client; [done|]. split; try done; [|apply rank_range].
  intros Hp%Z.eqb_neq. unfold grant_observation in Eo. destruct (RawStd_DecodeString _) as [key|]; [|done]. apply fail_if_ok in Eo as [_ Eo]. apply bind_ok in Eo as [_ Eo].
  apply fail_if_ok in Eo as [_ Eo]. destruct (parseEnrollmentNodeID _); [|done]. destruct (parseEnrollmentNodeID _); [|done]. apply bind_ok in Eo as [_ Eo].
  apply fail_if_ok in Eo as [Ec Eo]. simplify_eq. rewrite Hp in Ec. simpl in Ec. symmetry. by apply conflicts_false.
Qed.
Lemma record_result_client st r s s' : client_ok st → client_ok (record_result st r s s').1 ∧ advances (cs_state st) (cs_state (record_result st r s s').1).
Proof.
  intros Hst. unfold record_result. pose proof (RecordObservation_client st (ob_ParentNodeID (cr_Observation r)) (ob_ParentPublicKey (cr_Observation r)) (ob_AuthorityNodeID (cr_Observation r))
    (ob_AuthorityPublicKey (cr_Observation r)) s Hst) as [H1 A1]. destruct (RecordObservation _ _ _ _ _ _) as [st1 [[]|e]]; [|done].
  destruct (String.eqb _ _); [|done]. destruct (re_Grant _) as [g|]; [|done]. pose proof (RecordGrant_client st1 g s' H1) as [H2 A2].
  destruct (RecordGrant st1 g s') as [st2 [[]|e]]; (split; [done|by etrans]).
Qed.

Lemma load_client file generated requestID saved st : LoadOrCreateEnrollmentClientStateWithStore (Some file) generated requestID saved = Ok st →
  client_ok st ∧ cs_disk st = Some (cs_state st) ∧ (∀ c, file = Some c → cs_state st = c).
Proof.
  unfold LoadOrCreateEnrollmentClientStateWithStore. intros Hl. apply bind_value in Hl as (c & Hc & Hl). apply bind_ok in Hl as [Hv Hl]. simplify_eq.
  split; [|split; [done|]].
  - split; [done|]. by exists c.
  - intros c' ->. by simplify_eq.
Qed.

(** ** Histories *)

Inductive client_op :=
| CObserve (parentNodeID : NodeID) (parentPublicKey : list byte) (authorityNodeID : NodeID) (authorityPublicKey : list byte) (s : save_outcome)
| CGrant (g : EnrollmentGrantV1) (s : save_outcome)
| CEnroll (permitJSON : string) (allowTOFU : bool) (expectedParentID : Z) (expectedParentKey expectedAuthorityKey : string) (dialed cancelled cancelled' : bool)
    (generated : option MessageID) (server server' : peer) (now : Z) (wrote wrote' : bool) (s s' : save_outcome)
| CRestart (generated : option (list byte * list byte)) (requestID : option MessageID) (saved : bool).
Definition client_step (st : EnrollmentClientState) (op : client_op) : EnrollmentClientState :=
  match op with
  | CObserve p pk a ak s => (RecordObservation st p pk a ak s).1
  | CGrant g s => (RecordGrant st g s).1
  | CEnroll permitJSON allowTOFU parentID parentKey authorityKey dialed cancelled cancelled' generated server server' now wrote wrote' s s' =>
    (enrollStateTCP st permitJSON allowTOFU parentID parentKey authorityKey dialed cancelled cancelled' generated server server' now wrote wrote' s s').1
  | CRestart generated requestID saved => from_ok st (LoadOrCreateEnrollmentClientStateWithStore (Some (cs_disk st)) generated requestID saved)
  end.

Lemma client_step_ok st op : client_ok st → client_ok (client_step st op) ∧ advances (cs_state st) (cs_state (client_step st op)).
Proof.
  intros Hst. destruct op; cbn [client_step].
  - by apply RecordObservation_client.
  - by apply RecordGrant_client.
  - unfold enrollStateTCP. destruct (state_options _ _ _ _ _ _); [|by split]. destruct dialed; [|by split]. simpl. destruct (Enroll _ _ _ _ _ _ _ _ _ _); [|by split]. by apply record_result_client.
  - destruct (LoadOrCreateEnrollmentClientStateWithStore _ _ _ _) as [st'|] eqn:El; [|by split]. cbn [from_ok]. apply load_client in El as (Hok & _ & Hs).
    destruct (ck_disk _ Hst) as (d & Hd & _ & Ha). rewrite (Hs d Hd). by split.
Qed.
Lemma client_run_ok ops : ∀ st, client_ok st → client_ok (foldl client_step st ops) ∧ advances (cs_state st) (cs_state (foldl client_step st ops)).
Proof.
  induction ops as [|op ops IH]; intros st Hst; [by split|]. simpl. destruct (client_step_ok st op Hst) as [H1 A1]. destruct (IH _ H1) as [H2 A2]. split; [done|by etrans].
Qed.

Lemma grant_node pk g : VerifyEnrollmentGrant pk g = Ok tt → ∃ n, gr_NodeID g = FormatUint n ∧ 0 < n ≤ maxUint64.
Proof.
  unfold VerifyEnrollmentGrant. intros Hg. apply fail_if_ok in Hg as [_ Hg]. apply bind_ok in Hg as [Hg _]. apply mapErr_ok in Hg. unfold Grant_Validate in Hg.
  do 5 (apply bind_ok in Hg as [? Hg]). match goal with Hx : nodeIDText (gr_NodeID g) = Ok tt |- _ => apply mapErr_ok, validateNodeIDText_canonical in Hx as (n & Hn & Hx) end. by exists n.
Qed.
(** A valid enrolled record gives the identity that its grant names. *)
Lemma enrolled_credential c : credential_ok c → cd_Status c = "enrolled" →
  ∃ g identity, cd_Grant c = Some g ∧ VerifyEnrollmentGrant (cd_AuthorityPublicKey c) g = Ok tt ∧ gr_DevicePublicKey g = RawStd_EncodeToString (cd_DevicePublicKey c) ∧
    gr_ParentNodeID g = FormatUint (cd_ParentNodeID c) ∧ gr_ParentPublicKey g = RawStd_EncodeToString (cd_ParentPublicKey c) ∧
    ParseNodeID (gr_NodeID g) = Some (i_NodeID identity) ∧ Device_Enroll (device_of c) (i_NodeID identity) = Ok identity.
Proof.
  intros Hv Es. unfold credential_ok, validateEnrollmentCredential in Hv. apply fail_if_ok in Hv as [_ Hv]. apply bind_ok in Hv as [_ Hv]. apply bind_ok in Hv as [Hd Hv]. apply mapErr_ok in Hd.
  rewrite Es in Hv. change (String.eqb "enrolled" "device") with false in Hv. change (String.eqb "enrolled" "pending") with false in Hv. change (String.eqb "enrolled" "enrolled") with true in Hv.
  cbn iota in Hv. destruct (cd_Grant c) as [g|]; [|done]. apply bind_ok in Hv as [_ Hv]. apply bind_ok in Hv as [Hg Hv]. apply mapErr_ok in Hg. apply fail_if_ok in Hv as [Hm _].
  bool_prop. eqb_prop. destruct (grant_node _ _ Hg) as (n & Hn & Hr).
  exists g, (mkIdentity n (cd_DevicePublicKey c) (cd_DevicePrivateKey c)). do 5 (split; [first [assumption|reflexivity]|]). split; [rewrite Hn; apply (ParseNodeID_FormatUint n); unfold is_u64; lia|].
  unfold Device_Enroll. rewrite Hd. simpl. rewrite (proj2 (NodeID_Validate_ok n)) by lia. done.
Qed.

(** The same identity from the store. *)
Lemma identity_loads st i : credential_ok (cs_state st) → cs_disk st = Some (cs_state st) → ClientIdentity st = Ok (Some i) →
  ∃ credential, LoadNodeCredential (Some (cs_disk st)) = Ok credential ∧ nc_Identity credential = i ∧
    (nc_ParentNodeID credential, nc_ParentPublicKey credential, nc_AuthorityNodeID credential, nc_AuthorityPublicKey credential) = observed (cs_state st).
Proof.
  intros Hok -> Hi. unfold ClientIdentity in Hi. unfold LoadNodeCredential, credential_ok in *. rewrite Hok. cbn [mbind result_bind]. destruct (cd_Grant (cs_state st)) as [g|]; [|done].
  destruct (String.eqb (cd_Status (cs_state st)) "enrolled"); [|done]. cbn [negb] in *. change (parseEnrollmentNodeID (gr_NodeID g)) with (ParseNodeID (gr_NodeID g)).
  destruct (ParseNodeID (gr_NodeID g)) as [n|]; [|done]. apply bind_value in Hi as (identity & He & Hi). simplify_eq. rewrite He. by eexists.
Qed.

(** C28. The credential of a device is safe.  From a store that held a valid record or none, through
    any sequence of handshakes with any parents, recordings and restarts, with saves that fail
    before or after the record reached the store: the record in memory and the one in the
    store are valid; the device's key pair and request never change, whom it enrolls with
    never changes once it is known, and the status never goes back.  Asking for the identity
    never fails; the identity that it gives has the device's key and the number of a grant that
    the recorded authority signed for this device and parent, and when the store is up to date
    a node that loads its credential gets the same. *)
Theorem client_credential_safe (file : option EnrollmentCredential) (generated : option (list byte * list byte)) (requestID : option MessageID) (saved : bool)
    (st0 : EnrollmentClientState) (ops ops' : list client_op) :
  LoadOrCreateEnrollmentClientStateWithStore (Some file) generated requestID saved = Ok st0 →
  let st := foldl client_step st0 ops in
  let st' := foldl client_step st ops' in
  client_ok st' ∧ advances (cs_state st) (cs_state st') ∧
  ∃ identity, ClientIdentity st' = Ok identity ∧
    (identity = None ↔ cd_Status (cs_state st') ≠ "enrolled") ∧
    ∀ i, identity = Some i →
      i_PublicKey i = cd_DevicePublicKey (cs_state st0) ∧ Identity_Validate i = Ok tt ∧
      (∃ g, cd_Grant (cs_state st') = Some g ∧ VerifyEnrollmentGrant (cd_AuthorityPublicKey (cs_state st')) g = Ok tt ∧ ParseNodeID (gr_NodeID g) = Some (i_NodeID i)) ∧
      (cs_disk st' = Some (cs_state st') → ∃ credential, LoadNodeCredential (Some (cs_disk st')) = Ok credential ∧ nc_Identity credential = i ∧
         (nc_ParentNodeID credential, nc_ParentPublicKey credential, nc_AuthorityNodeID credential, nc_AuthorityPublicKey credential) = observed (cs_state st')).
Proof.
  intros Hl st st'. destruct (load_client _ _ _ _ _ Hl) as (H0 & _). destruct (client_run_ok ops st0 H0) as [H1 A1]. fold st in H1, A1.
  destruct (client_run_ok ops' st H1) as [H2 A2]. fold st' in H2, A2. split; [done|]. split; [done|]. unfold ClientIdentity.
  destruct (decide (cd_Status (cs_state st') = "enrolled")) as [Es|Es].
  - destruct (enrolled_credential _ (ck_state _ H2) Es) as (g & identity & Hg & Hv & Hd & Hp & Hpk & Hn & He). exists (Some identity). rewrite Hg, Es, Hn, He. split; [done|]. split; [naive_solver|].
    intros i [= <-]. pose proof (enrolled_identity _ _ _ He) as (_ & E2 & _ & E4). split; [|split; [done|split; [by exists g|]]].
    + rewrite E2. pose proof (av_device _ _ (transitivity A1 A2)) as E. unfold device_of in E. by injection E.
    + intros Hdisk. apply identity_loads; [apply H2|done|]. unfold ClientIdentity. by rewrite Hg, Es, Hn, He.
  - exists None. split; [|done]. destruct (cd_Grant (cs_state st')) as [g|]; [|done]. apply String.eqb_neq in Es. by rewrite Es.
Qed.

(** ** After a handshake *)

Definition seen (r : ClientResult) : NodeID * list byte * NodeID * list byte :=
  let ob := cr_Observation r in (ob_ParentNodeID ob, ob_ParentPublicKey ob, ob_AuthorityNodeID ob, ob_AuthorityPublicKey ob).
Definition observation_ok (ob : TrustObservation) : Prop :=
  validateEnrollmentObservation (ob_ParentNodeID ob) (ob_ParentPublicKey ob) (ob_AuthorityNodeID ob) (ob_AuthorityPublicKey ob) = Ok tt.

Lemma key_bytes_size s : validateEd25519PublicKey s true = Ok tt → blen (key_bytes s) = PublicKeySize.
Proof.
  unfold validateEd25519PublicKey, validateRawBase64, key_bytes. rewrite andb_false_r. destruct (RawStd_DecodeString s); [|done]. intros Hk. apply fail_if_ok in Hk as [Hk _].
  by apply negb_false_iff, Z.eqb_eq in Hk.
Qed.
Lemma ParseNodeID_text s n : nodeIDText s = Ok tt → ParseNodeID s = Some n → s = FormatUint n ∧ n ≠ 0.
Proof.
  intros Ht Hp. apply mapErr_ok, validateNodeIDText_canonical in Ht as (m & Hm & ->). rewrite (ParseNodeID_FormatUint m) in Hp by (unfold is_u64; lia). simplify_eq. split; [done|lia].
Qed.
Lemma decoded_valid `{JSONStruct A, ValidatedPayload A} data max (v : A) : DecodeJSONPayload data max = Ok v → Validate v = Ok tt.
Proof.
  unfold DecodeJSONPayload. intros Hd. apply bind_ok in Hd as [_ Hd]. destruct (json_Unmarshal data); [|done]. apply bind_ok in Hd as [Hv Hd]. apply mapErr_ok in Hv. by simplify_eq.
Qed.
Lemma observation_valid c ob : Challenge_Validate c = Ok tt → decodeTrustObservation c = Ok ob → observation_ok ob.
Proof.
  intros Hv Hd. unfold Challenge_Validate in Hv. do 6 (apply bind_ok in Hv as [? Hv]). unfold decodeTrustObservation in Hd.
  destruct (ParseNodeID (ch_ParentNodeID c)) as [p|] eqn:Ep; [|done]. destruct (ParseNodeID (ch_AuthorityNodeID c)) as [a|] eqn:Ea; [|done]. simplify_eq.
  apply ParseNodeID_text in Ep as [_ Ep]; [|done]. apply ParseNodeID_text in Ea as [_ Ea]; [|done]. unfold observation_ok, validateEnrollmentObservation. simpl.
  rewrite !(proj2 (NodeID_Validate_ok _)), !key_bytes_size by done. done.
Qed.
Lemma finish_cases device init challenge ob frame r : enroll_finish device init challenge ob frame = Ok r →
  cr_Observation r = ob ∧ Result_Validate (cr_Outcome r) = Ok tt ∧ ((re_Status (cr_Outcome r) = "pending" ∧ cr_Identity r = None) ∨ (re_Status (cr_Outcome r) = "granted" ∧ is_Some (cr_Identity r))).
Proof.
  unfold enroll_finish. intros He. apply fail_if_ok in He as [_ He]. apply bind_value in He as (res & Hr & He). apply mapErr_ok, decoded_valid in Hr. apply fail_if_ok in He as [_ He].
  destruct (_ || _) eqn:E1; [done|]. destruct (String.eqb_spec (re_Status res) "pending") as [E2|E2]; [simplify_eq; auto|]. destruct (re_Grant res) as [g|] eqn:Eg; [|done].
  apply bind_ok in He as [_ He]. apply fail_if_ok in He as [_ He]. destruct (ParseNodeID _); [|done]. apply bind_value in He as (i & _ & He). simplify_eq. simpl.
  split; [done|]. split; [done|]. right. split; [|eauto]. unfold Validate, result_validated, Result_Validate in Hr. apply bind_ok in Hr as [_ Hr]. apply bind_ok in Hr as [_ Hr].
  apply orb_false_iff in E1 as [E1 E3]. rewrite E1, E3 in Hr. destruct (String.eqb_spec (re_Status res) "granted"); [done|]. by destruct (String.eqb_spec (re_Status res) "pending").
Qed.

Section recording.
Context (st : EnrollmentClientState) (Hst : client_ok st).
Let c := cs_state st.

(** Recording an observation that fits succeeds. *)
Lemma observation_recorded ob : observation_ok ob → (cd_ParentNodeID c ≠ 0 → observed c = (ob_ParentNodeID ob, ob_ParentPublicKey ob, ob_AuthorityNodeID ob, ob_AuthorityPublicKey ob)) →
  ∃ st', RecordObservation st (ob_ParentNodeID ob) (ob_ParentPublicKey ob) (ob_AuthorityNodeID ob) (ob_AuthorityPublicKey ob) Saved = (st', Ok tt) ∧
    observed (cs_state st') = (ob_ParentNodeID ob, ob_ParentPublicKey ob, ob_AuthorityNodeID ob, ob_AuthorityPublicKey ob).
Proof.
  intros Hob Hpin. unfold RecordObservation. unfold observation_ok in Hob. rewrite Hob. fold c. pose proof (ck_state _ Hst) as Hv. fold c in Hv. pose proof Hv as Hv'.
  unfold credential_ok, validateEnrollmentCredential in Hv. apply fail_if_ok in Hv as [Hver Hv]. apply bind_ok in Hv as [Hid Hv]. apply bind_ok in Hv as [Hdev Hv].
  destruct (String.eqb_spec (cd_Status c) "enrolled") as [Es|Es].
  - destruct (enrolled_credential c Hv' Es) as (g & i & _). assert (cd_ParentNodeID c ≠ 0) as Hp.
    { rewrite Es in Hv. change (String.eqb "enrolled" "device") with false in Hv. change (String.eqb "enrolled" "pending") with false in Hv. cbn iota in Hv.
      destruct (cd_Grant c); [|done]. apply bind_ok in Hv as [Ho _]. unfold validateEnrollmentObservation in Ho. apply bind_ok in Ho as [Ho _]. by apply mapErr_ok, NodeID_Validate_ok in Ho. }
    rewrite (proj2 (conflicts_false c _ _ _ _) (Hpin Hp)). exists st. split; [done|]. by apply Hpin.
  - assert (negb (cd_ParentNodeID c =? 0) && conflicts c (ob_ParentNodeID ob) (ob_ParentPublicKey ob) (ob_AuthorityNodeID ob) (ob_AuthorityPublicKey ob) = false) as ->.
    { destruct (Z.eqb_spec (cd_ParentNodeID c) 0) as [|Hp]; [done|]. by rewrite (proj2 (conflicts_false c _ _ _ _) (Hpin Hp)). }
    unfold Client_commitLocked. set (next := mkCredential _ _ _ _ _ _ _ _ _ _). assert (validateEnrollmentCredential next = Ok tt) as ->.
    { unfold validateEnrollmentCredential. change (device_of next) with (device_of c). cbn [next cd_Version cd_RequestID cd_Status cd_Grant]. rewrite Hver, Hid, Hdev. cbn [mbind result_bind].
      change (String.eqb "pending" "device") with false. change (String.eqb "pending" "pending") with true. cbn iota.
      assert (cd_Grant c = None) as ->; [|done]. destruct (String.eqb (cd_Status c) "device"); [|destruct (String.eqb (cd_Status c) "pending"); [|done]].
      - apply fail_if_ok in Hv as [Hv _]. rewrite !orb_false_iff in Hv. destruct Hv as [[[[Hv _] _] _] _]. apply bool_decide_eq_false in Hv. by apply eq_None_not_Some.
      - apply fail_if_ok in Hv as [Hv _]. apply bool_decide_eq_false in Hv. by apply eq_None_not_Some. }
    by eexists.
Qed.

(** Recording a grant that the handshake checked succeeds, and gives its identity. *)
Lemma grant_recorded g ob identity :
  observed c = (ob_ParentNodeID ob, ob_ParentPublicKey ob, ob_AuthorityNodeID ob, ob_AuthorityPublicKey ob) → observation_ok ob →
  VerifyEnrollmentGrant (ob_AuthorityPublicKey ob) g = Ok tt → gr_DevicePublicKey g = RawStd_EncodeToString (cd_DevicePublicKey c) →
  ParseNodeID (gr_ParentNodeID g) = Some (ob_ParentNodeID ob) → key_bytes (gr_ParentPublicKey g) = ob_ParentPublicKey ob → gr_ParentPublicKey g = RawStd_EncodeToString (ob_ParentPublicKey ob) →
  ParseNodeID (gr_AuthorityNodeID g) = Some (ob_AuthorityNodeID ob) → ParseNodeID (gr_NodeID g) = Some (i_NodeID identity) → Device_Enroll (device_of c) (i_NodeID identity) = Ok identity →
  ∃ st', RecordGrant st g Saved = (st', Ok tt) ∧ observed (cs_state st') = observed c ∧ ClientIdentity st' = Ok (Some identity) ∧ cs_disk st' = Some (cs_state st').
Proof.
  intros Ho Hob Hg Hd Hp Hpk Hpc Ha Hn He. unfold RecordGrant. fold c. pose proof Hg as Hg'. unfold VerifyEnrollmentGrant in Hg'. apply fail_if_ok in Hg' as [Hsz Hg']. apply bind_ok in Hg' as [Hgv Hg'].
  apply mapErr_ok in Hgv. apply fail_if_ok in Hg' as [Hak _]. apply negb_false_iff, String.eqb_eq in Hak.
  assert (grant_observation c g = Ok (ob_ParentNodeID ob, ob_ParentPublicKey ob, ob_AuthorityNodeID ob, ob_AuthorityPublicKey ob)) as ->.
  { unfold grant_observation. rewrite Hak, RawStd_roundtrip, Hsz, Hg, Hd, String.eqb_refl. cbn [mbind result_bind mapErr negb]. cbn iota.
    change parseEnrollmentNodeID with ParseNodeID. rewrite Hp, Ha, Hpk. unfold observation_ok in Hob. rewrite Hob. cbn [mbind result_bind].
    by rewrite (proj2 (conflicts_false c _ _ _ _) Ho), andb_false_r. }
  unfold Client_commitLocked. set (next := mkCredential _ _ _ _ _ _ _ _ _ _).
  pose proof (ck_state _ Hst) as Hv. fold c in Hv. unfold credential_ok, validateEnrollmentCredential in Hv. apply fail_if_ok in Hv as [Hver Hv]. apply bind_ok in Hv as [Hid Hv]. apply bind_ok in Hv as [Hdev Hv].
  unfold Grant_Validate in Hgv. do 7 (apply bind_ok in Hgv as [? Hgv]).
  assert (gr_ParentNodeID g = FormatUint (ob_ParentNodeID ob)) as Hpt by (by apply ParseNodeID_text). assert (gr_AuthorityNodeID g = FormatUint (ob_AuthorityNodeID ob)) as Hat by (by apply ParseNodeID_text).
  assert (validateEnrollmentCredential next = Ok tt) as ->.
  { unfold validateEnrollmentCredential. change (device_of next) with (device_of c). cbn [next cd_Version cd_RequestID cd_Status cd_Grant]. rewrite Hver, Hid, Hdev. cbn [mbind result_bind].
    change (String.eqb "enrolled" "device") with false. change (String.eqb "enrolled" "pending") with false. change (String.eqb "enrolled" "enrolled") with true. cbn iota.
    cbn [next cd_ParentNodeID cd_ParentPublicKey cd_AuthorityNodeID cd_AuthorityPublicKey cd_DevicePublicKey]. unfold observation_ok in Hob. rewrite Hob, Hg, Hd, Hpt, Hpc, Hat, Hak.
    cbn [mbind result_bind mapErr]. by rewrite !String.eqb_refl. }
  eexists. split; [reflexivity|]. split; [done|]. split; [|done]. unfold ClientIdentity. cbn [cs_state next cd_Grant cd_Status]. change (String.eqb "enrolled" "enrolled") with true. cbn [negb]. cbn iota.
  rewrite Hn. change (device_of next) with (device_of c). by rewrite He.
Qed.

Lemma pinned_valid : cd_ParentNodeID c ≠ 0 →
  blen (cd_ParentPublicKey c) = PublicKeySize ∧ cd_AuthorityNodeID c ≠ 0 ∧ blen (cd_AuthorityPublicKey c) = PublicKeySize.
Proof.
  intros Hp. pose proof (ck_state _ Hst) as Hv. fold c in Hv. unfold credential_ok, validateEnrollmentCredential in Hv. apply fail_if_ok in Hv as [_ Hv]. do 2 (apply bind_ok in Hv as [_ Hv]).
  assert (validateEnrollmentObservation (cd_ParentNodeID c) (cd_ParentPublicKey c) (cd_AuthorityNodeID c) (cd_AuthorityPublicKey c) = Ok tt) as Ho.
  { destruct (String.eqb (cd_Status c) "device").
    - apply fail_if_ok in Hv as [Hv _]. rewrite !orb_false_iff in Hv. destruct Hv as [[[[_ Hv] _] _] _]. by apply negb_false_iff, Z.eqb_eq in Hv.
    - destruct (String.eqb (cd_Status c) "pending"); [by apply fail_if_ok in Hv as [_ Hv]|]. destruct (String.eqb (cd_Status c) "enrolled"); [|done]. destruct (cd_Grant c); [|done]. by apply bind_ok in Hv as [Hv _]. }
  unfold validateEnrollmentObservation in Ho. apply bind_ok in Ho as [_ Ho]. apply fail_if_ok in Ho as [H1 Ho]. apply bind_ok in Ho as [H2 Ho]. apply fail_if_ok in Ho as [H3 _].
  apply mapErr_ok, NodeID_Validate_ok in H2. apply negb_false_iff, Z.eqb_eq in H1, H3. done.
Qed.
Lemma recorded_options permitJSON allowTOFU parentID parentKey authorityKey options ob :
  state_options (Snapshot st) permitJSON allowTOFU parentID parentKey authorityKey = Ok options → accepts (device_of c) options ob → cd_ParentNodeID c ≠ 0 →
  observed c = (ob_ParentNodeID ob, ob_ParentPublicKey ob, ob_AuthorityNodeID ob, ob_AuthorityPublicKey ob).
Proof.
  intros Ho Ha Hp. destruct (pinned_valid Hp) as (H1 & H2 & H3). unfold state_options in Ho. change (sn_ParentNodeID (Snapshot st)) with (cd_ParentNodeID c) in Ho.
  rewrite (proj2 (Z.eqb_neq _ _) Hp) in Ho. cbn [negb mbind result_bind] in Ho. apply bind_value in Ho as (permit & _ & Ho). simplify_eq. destruct Ha as [A1 A2 A3 A4 _ _]. simpl in *. fold c in A1, A2, A3, A4.
  assert (cd_ParentPublicKey c ≠ []) as N1 by (intros E; by rewrite E in H1). assert (cd_AuthorityPublicKey c ≠ []) as N2 by (intros E; by rewrite E in H3).
  unfold observed. by rewrite A1, A2, A3, A4.
Qed.

End recording.

(** What a handshake gave is recorded, and survives.  From any valid record, a handshake that
    succeeds is followed, when the store can be written, by a recording that succeeds: a parent
    and an authority that were recorded before are exactly the ones of the handshake (first use
    is trusted once), they are recorded now, and after a grant the recorded identity is the one
    that the handshake returned, in memory and for a node that loads the store.  The parent's
    key in the grant must be in its standard base64 form, as the authority writes it. *)
Theorem handshake_recorded (st : EnrollmentClientState) (permitJSON : string) (allowTOFU : bool) (parentID : Z) (parentKey authorityKey : string) (options : ClientOptions) (cancelled cancelled' : bool)
    (generated : option MessageID) (server server' : peer) (now : Z) (wrote wrote' : bool) (r : ClientResult) :
  client_ok st →
  state_options (Snapshot st) permitJSON allowTOFU parentID parentKey authorityKey = Ok options →
  Enroll (DeviceIdentityOf st) options cancelled cancelled' generated server server' now wrote wrote' = Ok r →
  (∀ g, re_Grant (cr_Outcome r) = Some g → gr_ParentPublicKey g = RawStd_EncodeToString (key_bytes (gr_ParentPublicKey g))) →
  ∃ st', enrollStateTCP st permitJSON allowTOFU parentID parentKey authorityKey true cancelled cancelled' generated server server' now wrote wrote' Saved Saved = (st', Ok (json_Marshal (cr_Outcome r))) ∧
    (cd_ParentNodeID (cs_state st) ≠ 0 → observed (cs_state st) = seen r) ∧ observed (cs_state st') = seen r ∧
    ∀ identity, cr_Identity r = Some identity →
      ClientIdentity st' = Ok (Some identity) ∧ ∃ credential, LoadNodeCredential (Some (cs_disk st')) = Ok credential ∧ nc_Identity credential = identity.
Proof.
  intros Hst Ho He Hcan. destruct (enroll_observes _ _ _ _ _ _ _ _ _ _ _ He) as (init & payload & frame & challenge & ob & resultFrame & _ & Hdk & _ & Hc & _ & _ & Hob & _ & Hacc & Hfin).
  destruct (finish_cases _ _ _ _ _ _ Hfin) as (Eob & Hrv & Hcase). pose proof (decoded_valid _ _ _ Hc) as Hcv. pose proof (observation_valid _ _ Hcv Hob) as Hobv.
  pose proof (recorded_options st Hst _ _ _ _ _ _ _ Ho Hacc) as Hpin. destruct (observation_recorded st Hst ob Hobv Hpin) as (st1 & Hr1 & Hs1).
  pose proof (RecordObservation_client st (ob_ParentNodeID ob) (ob_ParentPublicKey ob) (ob_AuthorityNodeID ob) (ob_AuthorityPublicKey ob) Saved Hst) as [Hok1 Hadv]. rewrite Hr1 in Hok1, Hadv. simpl in Hok1, Hadv.
  assert (seen r = (ob_ParentNodeID ob, ob_ParentPublicKey ob, ob_AuthorityNodeID ob, ob_AuthorityPublicKey ob)) as Hseen by (unfold seen; by rewrite Eob).
  unfold enrollStateTCP. rewrite Ho. cbn [negb]. cbn iota. rewrite He. unfold record_result. rewrite Eob, Hr1, Hseen. destruct Hcase as [[Hpend Hnone]|[Hgr [identity Hid]]].
  { rewrite Hpend. change (String.eqb "pending" "granted") with false. cbn iota. exists st1. rewrite Hnone. by split_and!. }
  rewrite Hgr. change (String.eqb "granted" "granted") with true. cbn iota. destruct (enroll_finish_ok _ _ _ _ _ _ _ Hfin Hid) as (g & Hg & _ & Hvg & Hm & Hn & Hen). rewrite Hg.
  assert (ParseNodeID (ch_ParentNodeID challenge) = Some (ob_ParentNodeID ob) ∧ key_bytes (ch_ParentPublicKey challenge) = ob_ParentPublicKey ob ∧
    ParseNodeID (ch_AuthorityNodeID challenge) = Some (ob_AuthorityNodeID ob)) as (O1 & O2 & O3).
  { unfold decodeTrustObservation in Hob. destruct (ParseNodeID (ch_ParentNodeID challenge)); [|done]. destruct (ParseNodeID (ch_AuthorityNodeID challenge)); [|done]. injection Hob as <-. done. }
  unfold grant_matches in Hm. rewrite !andb_true_iff, !String.eqb_eq in Hm. destruct Hm as ((((M1 & M2) & M3) & M4) & _). cbn [unsigned_of uc_ParentNodeID uc_ParentPublicKey uc_AuthorityNodeID] in M2, M3, M4.
  pose proof (Hcan g Hg) as Hk. pose proof (av_device _ _ Hadv) as Hdev. assert (cd_DevicePublicKey (cs_state st1) = dv_PublicKey (DeviceIdentityOf st)) as Hdp by (by injection Hdev).
  destruct (grant_recorded st1 Hok1 g ob identity Hs1 Hobv Hvg) as (st2 & Hr2 & Hs2 & Hi2 & Hd2); [congruence|congruence|congruence|congruence|congruence|done|rewrite Hdev; exact Hen|].
  rewrite Hr2. exists st2. split; [done|]. split; [done|]. split; [congruence|]. intros i Hi. rewrite Hid in Hi. injection Hi as <-. split; [done|].
  pose proof (RecordGrant_client st1 g Saved Hok1) as [Hok2 _]. rewrite Hr2 in Hok2. destruct (identity_loads st2 identity (ck_state _ Hok2) Hd2 Hi2) as (credential & Hl & Hnc & _). by exists credential.
Qed.
End client_theory.

(** ** Witnesses *)

Module Store_demo.
Definition credential : EnrollmentCredential := mkCredential 1 "device" (Enroll_demo.hex 2) (be_bytes 32 5) (Toy.private 5) None 0 [] 0 [].
Definition st0 : EnrollmentClientState := mkClientState credential (Some credential).
Definition permitJSON : string :=
  from_option (λ p, String.string_of_list_byte (json_Marshal p)) "" Enroll_demo.permit.
Definition options : ClientOptions := from_ok Handshake_demo.options (state_options (Snapshot st0) permitJSON false 7 "" "").
Definition parent : peer := λ _, demo_hears (λ _, Err NReadHeader) 0.
Definition parent' : peer := λ f, demo_hears (λ _, Ok f) 1.
Definition enrolled : result session_error ClientResult := Enroll (DeviceIdentityOf st0) options false false None parent parent' (Enroll_demo.at_ 6) true true.
Definition none : ClientResult := mkClientResult result_zero None (mkObservation 0 [] 0 []).
Definition result : ClientResult := from_ok none enrolled.
Definition enroll : client_op := CEnroll permitJSON false 7 "" "" true false false None parent parent' (Enroll_demo.at_ 6) true true Saved Saved.
End Store_demo.

Lemma demo_created : LoadOrCreateEnrollmentClientStateWithStore (Some None) (Some (be_bytes 32 5, Toy.private 5)) (Some 2) true = Ok Store_demo.st0.
Proof. vm_compute. reflexivity. Qed.

Lemma client_credential_safe_witness :
  client_ok (foldl client_step (foldl client_step Store_demo.st0 [Store_demo.enroll]) [CRestart None None false]).
Proof.
  exact (proj1 (client_credential_safe None (Some (be_bytes 32 5, Toy.private 5)) (Some 2) true Store_demo.st0 [Store_demo.enroll] [CRestart None None false] demo_created)).
Defined.

Lemma demo_canonical :
  match re_Grant (cr_Outcome Store_demo.result) with
  | Some g => String.eqb (gr_ParentPublicKey g) (RawStd_EncodeToString (key_bytes (gr_ParentPublicKey g))) && bool_decide (is_Some (cr_Identity Store_demo.result))
  | None => false
  end = true.
Proof. vm_compute. reflexivity. Qed.

Lemma handshake_recorded_witness :
  ∃ st' identity, enrollStateTCP Store_demo.st0 Store_demo.permitJSON false 7 "" "" true false false None Store_demo.parent Store_demo.parent' (Enroll_demo.at_ 6) true true Saved Saved
    = (st', Ok (json_Marshal (cr_Outcome Store_demo.result))) ∧ ClientIdentity st' = Ok (Some identity).
Proof.
  pose proof demo_canonical as Hc.
  destruct (handshake_recorded Store_demo.st0 Store_demo.permitJSON false 7 "" "" Store_demo.options false false None Store_demo.parent Store_demo.parent' (Enroll_demo.at_ 6) true true Store_demo.result)
    as (st' & Hs & _ & _ & Hid).
  - exact (proj1 (load_client _ _ _ _ _ demo_created)).
  - apply from_ok_spec. vm_compute. reflexivity.
  - apply from_ok_spec. vm_compute. reflexivity.
  - intros g Hg. rewrite Hg in Hc. apply andb_true_iff in Hc as [Hc _]. by apply String.eqb_eq in Hc.
  - destruct (re_Grant (cr_Outcome Store_demo.result)) as [g|]; [|discriminate Hc]. apply andb_true_iff in Hc as [_ Hc]. apply bool_decide_eq_true in Hc as [identity Hi].
    exists st', identity. split; [exact Hs|]. exact (proj1 (Hid identity Hi)).
Defined.
