(* ===== verification/Policy.v ===== *)
(** * Authorisation requests, policies and inbound checks (runtime/auth/policy.go)

    [Policy] is the interface the dispatcher and the node are written against; [AllowAll] and
    [StaticPolicy] implement it here, [PolicyState] in PolicyStore.  [Authorize] reads the
    clock, so it takes the current time. *)

From S2P Require Import Prelude GoStd Wire Tree.
Open Scope Z_scope.

Inductive auth_error :=
| ErrForbidden
| EAuthWire (e : wire_error)
| EActionMismatch          (* "policy action and capability must match" *)
| ENoResourceAuthorization (* "operation does not require resource authorization" *)
| ENotRequestPhase         (* "only request phase can be adjudicated" *)
| ENotDownward             (* "only request or control can be routed downward" *)
| EChildEpoch              (* "child epoch is required" *)
| EAuthTree (e : tree_error).

Record Request := mkRequest {
  q_Subject : NodeID;
  q_Action : string;
  q_Capability : CapabilityID;
  q_Resource : ResourceID
}.
#[global] Instance Request_eq_dec : EqDecision Request.
Proof. solve_decision. Defined.
#[global] Instance Request_countable : Countable Request.
Proof.
  apply (inj_countable' (λ r, (q_Subject r, q_Action r, q_Capability r, q_Resource r))
           (λ '(s, a, c, r), mkRequest s a c r)).
  by intros [].
Defined.

Definition normalizeRequest (request : Request) : result auth_error Request :=
  _ ← mapErr EAuthWire (NodeID_Validate (q_Subject request));
  let capability := if String.eqb (q_Capability request) "" then q_Action request else q_Capability request in
  let action := if String.eqb (q_Action request) "" then capability else q_Action request in
  _ ← mapErr EAuthWire (CapabilityID_Validate capability);
  fail_if negb (String.eqb action capability) with EActionMismatch ;;
  _ ← mapErr EAuthWire (ResourceID_Validate (q_Resource request));
  Ok (mkRequest (q_Subject request) action capability (q_Resource request)).

(** ** The interface *)

Class Policy (P : Type) := {
  Authorize : P → Z → Request → result auth_error unit;
  (** [Some] when the policy has a [Generation] method. *)
  generation_method : P → option Z
}.

Definition PolicyGeneration `{Policy P} (policy : P) : Z :=
  match generation_method policy with Some generation => generation | None => 1 end.

(** ** [AllowAll] and [StaticPolicy] *)

Inductive AllowAll := allowAll.
#[global] Instance AllowAll_Policy : Policy AllowAll :=
  {| Authorize := λ _ _ _, Ok tt; generation_method := λ _, None |}.

Record StaticPolicy := mkStaticPolicy { sp_allowed : gset Request }.
Definition NewStaticPolicy : StaticPolicy := mkStaticPolicy ∅.

Definition StaticPolicy_Allow (p : StaticPolicy) (request : Request) : StaticPolicy :=
  match normalizeRequest request with
  | Err _ => p
  | Ok request => mkStaticPolicy ({[ request ]} ∪ sp_allowed p)
  end.

Definition StaticPolicy_Authorize (p : StaticPolicy) (request : Request) : result auth_error unit :=
  match normalizeRequest request with
  | Err _ => Err ErrForbidden
  | Ok request => fail_if negb (bool_decide (request ∈ sp_allowed p)) with ErrForbidden ;; Ok tt
  end.
#[global] Instance StaticPolicy_Policy : Policy StaticPolicy :=
  {| Authorize := λ p _ request, StaticPolicy_Authorize p request; generation_method := λ _, None |}.

(** ** Adjudication of an envelope *)

Definition CapabilitySubscribe : CapabilityID := "subscribe".

Definition ActionForCapability (operation : Z) (capability : CapabilityID) : result auth_error string :=
  if op_in operation [OperationSubscribe; OperationUnsubscribe] then
    Ok (if String.eqb capability "" then CapabilitySubscribe else capability)
  else if op_in operation [OperationOperate; OperationSessionOpen; OperationSessionData; OperationSessionClose] then
    _ ← mapErr EAuthWire (CapabilityID_Validate capability);
    Ok capability
  else Err ENoResourceAuthorization.

Definition AuthorizeRequest `{Policy P} (policy : P) (now : Z) (envelope : Envelope) : result auth_error unit :=
  fail_if negb (e_Phase envelope =? PhaseRequest) with ENotRequestPhase ;;
  action ← ActionForCapability (e_Operation envelope) (e_Capability envelope);
  Authorize policy now (mkRequest (Subject envelope) action (e_Capability envelope) (e_Resource envelope)).

Definition with_phase_epoch (e : Envelope) (phase epoch : Z) : Envelope :=
  mkEnvelope (e_Version e) phase (e_Operation e) (e_MessageID e) (e_CorrelationID e) (e_Source e) (e_Principal e)
    (e_Target e) (e_Resource e) epoch (e_DeadlineUnixMS e) (e_ContentType e) (e_Schema e) (e_Capability e) (e_Payload e).

Definition PromoteControl (envelope : Envelope) (childEpoch : Z) : result auth_error Envelope :=
  fail_if negb (e_Phase envelope =? PhaseRequest) && negb (e_Phase envelope =? PhaseControl) with ENotDownward ;;
  fail_if childEpoch =? 0 with EChildEpoch ;;
  Ok (with_phase_epoch envelope PhaseControl childEpoch).

Definition ValidateInboundChild (state : Tree.State) (child : NodeID) (childEpoch : Z) (envelope : Envelope)
    : result auth_error unit :=
  fail_if e_Phase envelope =? PhaseControl with ErrForbidden ;;
  fail_if negb (e_Principal envelope =? 0) with ErrForbidden ;;
  mapErr EAuthTree (ValidateSource state child (e_Source envelope) childEpoch).

Definition ValidateInboundParent (state : Tree.State) (parent : NodeID) (envelope : Envelope) : result auth_error unit :=
  if e_Phase envelope =? PhaseControl then
    mapErr EAuthTree (ValidateParentControl state parent (e_TopologyEpoch envelope))
  else
    fail_if negb (e_Principal envelope =? 0) with ErrForbidden ;;
    fail_if (e_Phase envelope =? PhaseRequest) && negb (e_Source envelope =? parent) with ErrForbidden ;;
    Ok tt.

(** ** Lemmas *)

(** The requests [normalizeRequest] leaves alone. *)
Definition normalized (q : Request) : Prop :=
  q_Subject q ≠ 0 ∧ q_Action q = q_Capability q ∧ CapabilityID_Validate (q_Capability q) = Ok tt ∧
  ResourceID_Validate (q_Resource q) = Ok tt.
#[global] Instance normalized_dec q : Decision (normalized q).
Proof. unfold normalized; apply _. Defined.

Lemma CapabilityID_nonempty c : CapabilityID_Validate c = Ok tt → String.eqb c "" = false.
Proof. intros H. destruct (String.eqb_spec c "") as [->|]; [by vm_compute in H|done]. Qed.

Lemma normalizeRequest_ok q r :
  normalizeRequest q = Ok r → normalized r ∧ q_Subject r = q_Subject q ∧ q_Resource r = q_Resource q.
Proof.
  unfold normalizeRequest, normalized. intros H. guards H. bool_prop. simplify_eq. simpl.
  repeat match goal with H : mapErr _ _ = Ok _ |- _ => apply mapErr_ok in H end.
  rewrite NodeID_Validate_ok in *. split_and!; try done. by apply String.eqb_eq.
Qed.

Lemma normalizeRequest_normalized q : normalized q → normalizeRequest q = Ok q.
Proof.
  intros (Hs & Ha & Hc & Hr). unfold normalizeRequest.
  rewrite (proj2 (NodeID_Validate_ok _) Hs). simpl. rewrite Ha, (CapabilityID_nonempty _ Hc), Hc. simpl.
  rewrite String.eqb_refl, Hr. simpl. rewrite <- Ha at 1. by destruct q.
Qed.
