(* ===== verification/PolicyStore.v ===== *)
(** * The policy store (runtime/auth/policy_store.go)

    [PolicyState] holds exact grants, rule definitions and bindings; every mutation builds the
    next maps, persists them through the key store and only then installs them
    ([commitLocked]).  The clock is an argument ([now], Unix milliseconds).  The outcome of
    [store.Save] is the argument [saved], and [p_disk] changes exactly when the save succeeds:
    that is what Keystore shows of a save that is not interrupted.  Observers are modelled by the log of generations
    each received, and the timer by the time at which it is due.  Cloning a record gives an
    equal value, so the clone helpers do not appear. *)

From Stdlib Require Import Sorting.Sorted.
From S2P Require Import Prelude GoStd GoSort Wire Tree PolicySchema Policy.
Open Scope Z_scope.

Inductive policy_error :=
| ErrPolicyConflict
| ErrPolicyNotFound
| ErrPolicyImmutable
| ErrPolicyScopeUnavailable
| EPolicyAuth (e : auth_error)
| EPolicySchema (e : schema_error)
| EPolicyLimit | EPolicyClosed | EPolicyGeneration | EPolicyRevision | EPolicyPersist | EPolicyExpiry
| EPolicyResolver | EPolicyResolverBound | EPolicyScopeOutside
| EPolicyLoad | EPolicyVersion | EPolicyDuplicate | EPolicySuperadmin | EPolicyUnknownDefinition.

Definition legacyPolicyStateVersion : Z := 1.
Definition policyStateVersion : Z := 2.

(** What policy.json holds. *)
Record policyState := mkPolicyFile {
  ps_Version : Z;
  ps_Generation : Z;
  ps_Grants : list Request;
  ps_Definitions : list PolicyDefinitionV1;
  ps_Bindings : list PolicyBindingV1
}.

(** [MatchOwnerScope]: [None] for an error. *)
Definition OwnerScopeResolver : Type := PolicyOwnerScopeV1 → NodeID → option (bool * Z).

Record PolicyState := mkPolicyState {
  p_generation : Z;
  p_grants : gset Request;
  p_definitions : gmap string PolicyDefinitionV1;
  p_bindings : gmap string PolicyBindingV1;
  p_bySubject : gmap NodeID (list string);
  p_disk : option policyState;
  p_resolver : option OwnerScopeResolver;
  p_nextWatch : Z;
  p_watchers : gmap Z (list Z);
  p_expiryTimer : option Z;
  p_closed : bool
}.

Definition builtinSuperadminDefinition : PolicyDefinitionV1 :=
  mkPolicyDefinition 1 BuiltinPolicySuperadmin "Super administrator" 1 true
    [mkRule (mkResourceSelector PolicySelectorAll "") (mkCapabilitySelector PolicySelectorAll [])].

(** ** Snapshots *)

Definition request_less (l r : Request) : bool :=
  if negb (q_Subject l =? q_Subject r) then q_Subject l <? q_Subject r
  else if negb (String.eqb (q_Action l) (q_Action r)) then str_ltb (q_Action l) (q_Action r)
  else if negb (r_Owner (q_Resource l) =? r_Owner (q_Resource r)) then r_Owner (q_Resource l) <? r_Owner (q_Resource r)
  else str_ltb (r_Name (q_Resource l)) (r_Name (q_Resource r)).
Definition requestsFromGrants (grants : gset Request) : list Request := SortSlice request_less (elements grants).
Definition definitionsFromMap (source : gmap string PolicyDefinitionV1) : list PolicyDefinitionV1 :=
  SortSlice (λ l r, str_ltb (pd_ID l) (pd_ID r)) (map_to_list source).*2.
Definition bindingsFromMap (source : gmap string PolicyBindingV1) : list PolicyBindingV1 :=
  SortSlice (λ l r, str_ltb (b_BindingID l) (b_BindingID r)) (map_to_list source).*2.

Definition snapshotLocked (p : PolicyState) : policyState :=
  mkPolicyFile policyStateVersion (p_generation p) (requestsFromGrants (p_grants p))
    (definitionsFromMap (p_definitions p)) (bindingsFromMap (p_bindings p)).

(** ** The index of bindings by subject *)

Definition binding_subject (b : PolicyBindingV1) : NodeID := (ParseUint (b_Subject b)).1.

(** The identifiers of the bindings of each subject, appended in the order of the map and
    then sorted. *)
Definition index_append (entry : string * PolicyBindingV1) (index : gmap NodeID (list string)) : gmap NodeID (list string) :=
  let subject := binding_subject entry.2 in
  <[subject := default [] (index !! subject) ++ [entry.1]]> index.
Definition rebuildBindingIndex (bindings : gmap string PolicyBindingV1) : gmap NodeID (list string) :=
  SortStrings <$> foldr index_append ∅ (map_to_list bindings).

(** ** The expiry timer *)

Definition earliest_step (now : Z) (earliest : Z) (b : PolicyBindingV1) : Z :=
  if (now <? b_ExpiresAtUnixMS b) && ((earliest =? 0) || (b_ExpiresAtUnixMS b <? earliest))
  then b_ExpiresAtUnixMS b else earliest.
Definition earliest_expiry (now : Z) (bindings : gmap string PolicyBindingV1) : Z :=
  fold_left (earliest_step now) (map_to_list bindings).*2 0.

(** The new value of the timer. *)
Definition scheduleExpiry (closed : bool) (now : Z) (bindings : gmap string PolicyBindingV1) : option Z :=
  if closed then None
  else let earliest := earliest_expiry now bindings in
       if earliest =? 0 then None else Some (Z.max earliest (now + 1)).

Definition set_timer (p : PolicyState) (timer : option Z) : PolicyState :=
  mkPolicyState (p_generation p) (p_grants p) (p_definitions p) (p_bindings p) (p_bySubject p) (p_disk p)
    (p_resolver p) (p_nextWatch p) (p_watchers p) timer (p_closed p).

(** ** Committing *)

Definition commitLocked (p : PolicyState) (now : Z) (saved : bool) (grants : gset Request)
    (definitions : gmap string PolicyDefinitionV1) (bindings : gmap string PolicyBindingV1)
    : PolicyState * result policy_error unit :=
  if p_closed p then (p, Err EPolicyClosed)
  else if MaxCollectionRevision <=? p_generation p then (p, Err EPolicyGeneration)
  else
    let next := mkPolicyFile policyStateVersion (p_generation p + 1) (requestsFromGrants grants)
                  (definitionsFromMap definitions) (bindingsFromMap bindings) in
    if negb saved then (p, Err EPolicyPersist)
    else (mkPolicyState (ps_Generation next) grants definitions bindings (rebuildBindingIndex bindings) (Some next)
            (p_resolver p) (p_nextWatch p) ((λ log, log ++ [ps_Generation next]) <$> p_watchers p)
            (scheduleExpiry (p_closed p) now bindings) (p_closed p), Ok tt).

(** ** Loading *)

Definition Sprint_eq (l r : list CapabilityID) : bool := String.eqb (Sprint l) (Sprint r).
Fixpoint same_rules (ls rs : list PolicyRuleV1) : bool :=
  match ls, rs with
  | l :: ls, r :: rs =>
    bool_decide (rule_Resource l = rule_Resource r)
    && String.eqb (cs_Kind (rule_Capability l)) (cs_Kind (rule_Capability r))
    && Sprint_eq (cs_Values (rule_Capability l)) (cs_Values (rule_Capability r)) && same_rules ls rs
  | _, _ => true
  end.
Definition sameDefinition (l r : PolicyDefinitionV1) : bool :=
  (pd_Version l =? pd_Version r) && String.eqb (pd_ID l) (pd_ID r) && String.eqb (pd_Label l) (pd_Label r)
  && (pd_Revision l =? pd_Revision r) && Bool.eqb (pd_Immutable l) (pd_Immutable r)
  && (length (pd_Rules l) =? length (pd_Rules r))%nat && same_rules (pd_Rules l) (pd_Rules r).

Fixpoint load_grants (grants : gset Request) (list : list Request) : result policy_error (gset Request) :=
  match list with
  | [] => Ok grants
  | grant :: rest =>
    grant ← mapErr EPolicyAuth (normalizeRequest grant);
    fail_if bool_decide (grant ∈ grants) with EPolicyDuplicate ;;
    load_grants ({[ grant ]} ∪ grants) rest
  end.

Fixpoint load_definitions (definitions : gmap string PolicyDefinitionV1) (list : list PolicyDefinitionV1)
    : result policy_error (gmap string PolicyDefinitionV1) :=
  match list with
  | [] => Ok definitions
  | definition :: rest =>
    _ ← mapErr EPolicySchema (Definition_Validate definition);
    fail_if bool_decide (is_Some (definitions !! pd_ID definition)) with EPolicyDuplicate ;;
    load_definitions (<[pd_ID definition := definition]> definitions) rest
  end.

Definition binding_expired (now : Z) (b : PolicyBindingV1) : bool :=
  negb (b_ExpiresAtUnixMS b =? 0) && (b_ExpiresAtUnixMS b <=? now).

Fixpoint load_bindings (now : Z) (definitions : gmap string PolicyDefinitionV1)
    (bindings : gmap string PolicyBindingV1) (pruned : bool) (list : list PolicyBindingV1)
    : result policy_error (gmap string PolicyBindingV1 * bool) :=
  match list with
  | [] => Ok (bindings, pruned)
  | binding :: rest =>
    _ ← mapErr EPolicySchema (Binding_Validate binding);
    fail_if negb (bool_decide (is_Some (definitions !! b_DefinitionID binding))) with EPolicyUnknownDefinition ;;
    fail_if bool_decide (is_Some (bindings !! b_BindingID binding)) with EPolicyDuplicate ;;
    if binding_expired now binding then load_bindings now definitions bindings true rest
    else load_bindings now definitions (<[b_BindingID binding := binding]> bindings) pruned rest
  end.

Definition fresh_policy_file : policyState :=
  mkPolicyFile policyStateVersion 1 [] [builtinSuperadminDefinition] [].

(** The migration of a version 1 file; the flag tells whether there was one. *)
Definition migrate (state : policyState) : result policy_error (policyState * bool) :=
  if ps_Version state =? legacyPolicyStateVersion then
    fail_if MaxCollectionRevision <=? ps_Generation state with EPolicyGeneration ;;
    Ok (mkPolicyFile policyStateVersion (ps_Generation state + 1) (ps_Grants state) [builtinSuperadminDefinition] [], true)
  else if ps_Version state =? policyStateVersion then Ok (state, false)
  else Err EPolicyVersion.

(** [loaded]: the contents of policy.json, if there is one; the outer [None] is a load error. *)
Definition LoadPolicyState (loaded : option (option policyState)) (now : Z) (saved : bool) : result policy_error PolicyState :=
  match loaded with
  | None => Err EPolicyLoad
  | Some file =>
    let found := bool_decide (is_Some file) in
    let state := default fresh_policy_file file in
    fail_if ps_Generation state =? 0 with EPolicyGeneration ;;
    fail_if MaxCollectionRevision <? ps_Generation state with EPolicyGeneration ;;
    fail_if (MaxItems <? Z.of_nat (length (ps_Grants state))) || (MaxItems <? Z.of_nat (length (ps_Definitions state)))
            || (MaxItems <? Z.of_nat (length (ps_Bindings state))) with EPolicyLimit ;;
    '(state, migrated) ← (if found then migrate state else Ok (state, false));
    grants ← load_grants ∅ (ps_Grants state);
    definitions ← load_definitions ∅ (ps_Definitions state);
    fail_if negb (match definitions !! BuiltinPolicySuperadmin with
                  | Some d => sameDefinition d builtinSuperadminDefinition
                  | None => false
                  end) with EPolicySuperadmin ;;
    '(bindings, pruned) ← load_bindings now definitions ∅ false (ps_Bindings state);
    fail_if pruned && (MaxCollectionRevision <=? ps_Generation state) with EPolicyGeneration ;;
    let generation := if pruned then ps_Generation state + 1 else ps_Generation state in
    let result := mkPolicyState generation grants definitions bindings (rebuildBindingIndex bindings) file None 0 ∅
                    (scheduleExpiry false now bindings) false in
    if negb found || migrated || pruned then
      fail_if negb saved with EPolicyPersist ;;
      Ok (mkPolicyState generation grants definitions bindings (rebuildBindingIndex bindings) (Some (snapshotLocked result))
            None 0 ∅ (scheduleExpiry false now bindings) false)
    else Ok result
  end.

(** ** Mutations *)

Definition Grant (p : PolicyState) (now : Z) (saved : bool) (request : Request) : PolicyState * result policy_error unit :=
  match normalizeRequest request with
  | Err e => (p, Err (EPolicyAuth e))
  | Ok request =>
    if bool_decide (request ∈ p_grants p) then (p, Ok tt)
    else if MaxItems <=? Z.of_nat (size (p_grants p)) then (p, Err EPolicyLimit)
    else commitLocked p now saved ({[ request ]} ∪ p_grants p) (p_definitions p) (p_bindings p)
  end.

Definition Revoke (p : PolicyState) (now : Z) (saved : bool) (request : Request) : PolicyState * result policy_error unit :=
  match normalizeRequest request with
  | Err e => (p, Err (EPolicyAuth e))
  | Ok request =>
    if negb (bool_decide (request ∈ p_grants p)) then (p, Ok tt)
    else commitLocked p now saved (p_grants p ∖ {[ request ]}) (p_definitions p) (p_bindings p)
  end.

Definition RevokeSubject (p : PolicyState) (now : Z) (saved : bool) (subject : NodeID) : PolicyState * result policy_error unit :=
  match NodeID_Validate subject with
  | Err e => (p, Err (EPolicyAuth (EAuthWire e)))
  | Ok _ =>
    let grants := filter (λ g, q_Subject g ≠ subject) (p_grants p) in
    let bindings := filter (λ '(_, b), binding_subject b ≠ subject) (p_bindings p) in
    let changed := bool_decide (grants ≠ p_grants p) || bool_decide (bindings ≠ p_bindings p) in
    if negb changed then (p, Ok tt)
    else commitLocked p now saved grants (p_definitions p) bindings
  end.

(** The checks of [PutDefinition] on the definition already there. *)
Definition check_put (p : PolicyState) (request : PolicyDefinitionPutV1) : result policy_error unit :=
  if put_ExpectedRevision request =? 0 then
    fail_if bool_decide (is_Some (p_definitions p !! put_ID request)) with ErrPolicyConflict ;;
    fail_if MaxItems <=? Z.of_nat (size (p_definitions p)) with EPolicyLimit ;;
    Ok tt
  else
    match p_definitions p !! put_ID request with
    | None => Err ErrPolicyNotFound
    | Some existing =>
      fail_if pd_Immutable existing with ErrPolicyImmutable ;;
      fail_if negb (pd_Revision existing =? put_ExpectedRevision request) with ErrPolicyConflict ;;
      fail_if pd_Revision existing =? MaxCollectionRevision with EPolicyRevision ;;
      Ok tt
    end.

Definition put_definition (p : PolicyState) (request : PolicyDefinitionPutV1) : PolicyDefinitionV1 :=
  let revision := match p_definitions p !! put_ID request with Some existing => pd_Revision existing + 1 | None => 1 end in
  mkPolicyDefinition 1 (put_ID request) (put_Label request) revision false (SortPolicyRules (put_Rules request)).

Definition PutDefinition (p : PolicyState) (now : Z) (saved : bool) (request : PolicyDefinitionPutV1)
    : PolicyState * result policy_error PolicyDefinitionV1 :=
  match DefinitionPut_Validate request with
  | Err e => (p, Err (EPolicySchema e))
  | Ok _ =>
    match check_put p request with
    | Err e => (p, Err e)
    | Ok _ =>
      let definition := put_definition p request in
      match Definition_Validate definition with
      | Err e => (p, Err (EPolicySchema e))
      | Ok _ =>
        let '(p', r) := commitLocked p now saved (p_grants p) (<[pd_ID definition := definition]> (p_definitions p)) (p_bindings p) in
        (p', _ ← r; Ok definition)
      end
    end
  end.

Definition DeleteDefinition (p : PolicyState) (now : Z) (saved : bool) (request : PolicyDefinitionDeleteV1)
    : PolicyState * result policy_error unit :=
  match DefinitionDelete_Validate request with
  | Err e => (p, Err (EPolicySchema e))
  | Ok _ =>
    match p_definitions p !! del_ID request with
    | None => (p, Err ErrPolicyNotFound)
    | Some existing =>
      if pd_Immutable existing then (p, Err ErrPolicyImmutable)
      else if negb (pd_Revision existing =? del_ExpectedRevision request) then (p, Err ErrPolicyConflict)
      else if existsb (λ b, String.eqb (b_DefinitionID b) (del_ID request)) (map_to_list (p_bindings p)).*2
      then (p, Err ErrPolicyConflict)
      else commitLocked p now saved (p_grants p) (delete (del_ID request) (p_definitions p)) (p_bindings p)
    end
  end.

Definition bindingMatchesCreate (b : PolicyBindingV1) (request : PolicyBindingCreateV1) : bool :=
  String.eqb (b_BindingID b) (bc_BindingID request) && String.eqb (b_Subject b) (bc_Subject request)
  && String.eqb (b_DefinitionID b) (bc_DefinitionID request) && bool_decide (b_Scope b = bc_Scope request)
  && (b_ExpiresAtUnixMS b =? bc_ExpiresAtUnixMS request).

Definition new_binding (request : PolicyBindingCreateV1) (actor : NodeID) (now : Z) : PolicyBindingV1 :=
  mkBinding 1 (bc_BindingID request) (bc_Subject request) (bc_DefinitionID request) (bc_Scope request)
    (FormatUint actor) now (bc_ExpiresAtUnixMS request).

Definition CreateBinding (p : PolicyState) (now : Z) (saved : bool) (request : PolicyBindingCreateV1) (actor : NodeID)
    : PolicyState * result policy_error PolicyBindingV1 :=
  match (_ ← mapErr EPolicySchema (BindingCreate_Validate request);
         mapErr (λ e, EPolicyAuth (EAuthWire e)) (NodeID_Validate actor)) with
  | Err e => (p, Err e)
  | Ok _ =>
    match p_definitions p !! bc_DefinitionID request with
    | None => (p, Err ErrPolicyNotFound)
    | Some _ =>
      match p_bindings p !! bc_BindingID request with
      | Some existing =>
        if bindingMatchesCreate existing request then (p, Ok existing) else (p, Err ErrPolicyConflict)
      | None =>
        if MaxItems <=? Z.of_nat (size (p_bindings p)) then (p, Err EPolicyLimit)
        else if negb (bc_ExpiresAtUnixMS request =? 0) && (bc_ExpiresAtUnixMS request <=? now) then (p, Err EPolicyExpiry)
        else
          let binding := new_binding request actor now in
          match Binding_Validate binding with
          | Err e => (p, Err (EPolicySchema e))
          | Ok _ =>
            let '(p', r) := commitLocked p now saved (p_grants p) (p_definitions p)
                              (<[b_BindingID binding := binding]> (p_bindings p)) in
            (p', _ ← r; Ok binding)
          end
      end
    end
  end.

Definition RevokeBinding (p : PolicyState) (now : Z) (saved : bool) (bindingID : string) : PolicyState * result policy_error unit :=
  match BindingRevoke_Validate 1 bindingID with
  | Err e => (p, Err (EPolicySchema e))
  | Ok _ =>
    match p_bindings p !! bindingID with
    | None => (p, Ok tt)
    | Some _ => commitLocked p now saved (p_grants p) (p_definitions p) (delete bindingID (p_bindings p))
    end
  end.

(** The timer callback; a failed commit re-arms it one second later. *)
Definition expireBindings (p : PolicyState) (now : Z) (saved : bool) : PolicyState :=
  if p_closed p then p
  else
    let bindings := filter (λ '(_, b), binding_expired now b = false) (p_bindings p) in
    if negb (bool_decide (bindings ≠ p_bindings p)) then set_timer p (scheduleExpiry (p_closed p) now (p_bindings p))
    else let '(p', r) := commitLocked p now saved (p_grants p) (p_definitions p) bindings in
         if is_ok r then p' else set_timer p' (Some (now + 1000)).

Definition BindScopeResolver (p : PolicyState) (resolver : OwnerScopeResolver) : PolicyState * result policy_error unit :=
  if p_closed p then (p, Err EPolicyClosed)
  else match p_resolver p with
       | Some _ => (p, Err EPolicyResolverBound)
       | None => (mkPolicyState (p_generation p) (p_grants p) (p_definitions p) (p_bindings p) (p_bySubject p) (p_disk p)
                    (Some resolver) (p_nextWatch p) (p_watchers p) (p_expiryTimer p) (p_closed p), Ok tt)
       end.

Definition WatchGeneration (p : PolicyState) : PolicyState * result policy_error (Z * Z) :=
  if p_closed p then (p, Err EPolicyClosed)
  else let id := u64 (p_nextWatch p + 1) in
       (mkPolicyState (p_generation p) (p_grants p) (p_definitions p) (p_bindings p) (p_bySubject p) (p_disk p)
          (p_resolver p) id (<[id := []]> (p_watchers p)) (p_expiryTimer p) (p_closed p), Ok (p_generation p, id)).

(** The function [WatchGeneration] returns. *)
Definition cancel_watch (p : PolicyState) (id : Z) : PolicyState :=
  mkPolicyState (p_generation p) (p_grants p) (p_definitions p) (p_bindings p) (p_bySubject p) (p_disk p)
    (p_resolver p) (p_nextWatch p) (delete id (p_watchers p)) (p_expiryTimer p) (p_closed p).

Definition Close (p : PolicyState) : PolicyState :=
  if p_closed p then p
  else mkPolicyState (p_generation p) (p_grants p) (p_definitions p) (p_bindings p) (p_bySubject p) (p_disk p)
         (p_resolver p) (p_nextWatch p) ∅ None true.

(** ** Evaluation *)

Definition matchPolicyRule (rule : PolicyRuleV1) (resourceName : string) (capability : CapabilityID) : bool :=
  let kind := rs_Kind (rule_Resource rule) in
  let value := rs_Value (rule_Resource rule) in
  let resourceMatched :=
    if String.eqb kind PolicySelectorAll then true
    else if String.eqb kind PolicySelectorExact then String.eqb resourceName value
    else if String.eqb kind PolicySelectorPrefix then String.eqb resourceName value || HasPrefix resourceName (value +:+ "/")
    else false in
  if negb resourceMatched then false
  else if String.eqb (cs_Kind (rule_Capability rule)) PolicySelectorAll then true
  else search_string (cs_Values (rule_Capability rule)) capability.

(** The loop over the rules of a definition: the index of the first that matches. *)
Fixpoint match_rules (index : Z) (rules : list PolicyRuleV1) (resourceName : string) (capability : CapabilityID) : option Z :=
  match rules with
  | [] => None
  | rule :: rest =>
    if matchPolicyRule rule resourceName capability then Some index
    else match_rules (index + 1) rest resourceName capability
  end.

Definition zeroBinding : PolicyBindingV1 := mkBinding 0 "" "" "" (mkScope "" "") "" 0 0.
Definition zeroDefinition : PolicyDefinitionV1 := mkPolicyDefinition 0 "" "" 0 false [].

Fixpoint evaluate_bindings (p : PolicyState) (now : Z) (request : Request) (bindings : list PolicyBindingV1)
    : result policy_error PolicyEvaluationV1 :=
  match bindings with
  | [] => Ok (mkEvaluation 1 false PolicyEvaluationNone (p_generation p) 0 "" "" 0 0 None)
  | binding :: rest =>
    if binding_expired now binding then evaluate_bindings p now request rest
    else
      match p_resolver p with
      | None => Err ErrPolicyScopeUnavailable
      | Some resolver =>
        match resolver (b_Scope binding) (r_Owner (q_Resource request)) with
        | None => Err EPolicyResolver
        | Some (matched, epoch) =>
          if negb matched then evaluate_bindings p now request rest
          else
            let definition := default zeroDefinition (p_definitions p !! b_DefinitionID binding) in
            match match_rules 0 (pd_Rules definition) (r_Name (q_Resource request)) (q_Capability request) with
            | Some index =>
              Ok (mkEvaluation 1 true PolicyEvaluationBinding (p_generation p) epoch (b_BindingID binding) (pd_ID definition)
                    (pd_Revision definition) index (Some (b_Scope binding)))
            | None => evaluate_bindings p now request rest
            end
        end
      end
  end.

(** The bindings of a subject, in the order of the index. *)
Definition subject_bindings (p : PolicyState) (subject : NodeID) : list PolicyBindingV1 :=
  (λ id, default zeroBinding (p_bindings p !! id)) <$> default [] (p_bySubject p !! subject).

Definition Evaluate (p : PolicyState) (now : Z) (request : Request) : result policy_error PolicyEvaluationV1 :=
  request ← mapErr EPolicyAuth (normalizeRequest request);
  if bool_decide (request ∈ p_grants p)
  then Ok (mkEvaluation 1 true PolicyEvaluationExactGrant (p_generation p) 0 "" "" 0 0 None)
  else evaluate_bindings p now request (subject_bindings p (q_Subject request)).

Definition PolicyState_Authorize (p : PolicyState) (now : Z) (request : Request) : result auth_error unit :=
  match Evaluate p now request with
  | Err _ => Err ErrForbidden
  | Ok decision => fail_if negb (pe_Allowed decision) with ErrForbidden ;; Ok tt
  end.
#[global] Instance PolicyState_Policy : Policy PolicyState :=
  {| Authorize := PolicyState_Authorize; generation_method := λ p, Some (p_generation p) |}.

Fixpoint superadmin_loop (resolver : OwnerScopeResolver) (now : Z) (authority : NodeID) (bindings : list PolicyBindingV1)
    : result policy_error (bool * Z) :=
  match bindings with
  | [] => Ok (false, 0)
  | binding :: rest =>
    if binding_expired now binding then superadmin_loop resolver now authority rest
    else if negb (String.eqb (sc_Kind (b_Scope binding)) PolicyScopeAuthorityDomain)
            || negb (String.eqb (sc_NodeID (b_Scope binding)) (FormatUint authority))
    then superadmin_loop resolver now authority rest
    else match resolver (b_Scope binding) authority with
         | None => Err EPolicyResolver
         | Some (matched, epoch) => if matched then Ok (true, epoch) else superadmin_loop resolver now authority rest
         end
  end.

Definition HasAuthoritySuperadmin (p : PolicyState) (now : Z) (subject authority : NodeID) : result policy_error (bool * Z) :=
  _ ← mapErr (λ e, EPolicyAuth (EAuthWire e)) (NodeID_Validate subject);
  _ ← mapErr (λ e, EPolicyAuth (EAuthWire e)) (NodeID_Validate authority);
  let bindings := filter (λ b, b_DefinitionID b = BuiltinPolicySuperadmin) (subject_bindings p subject) in
  match bindings, p_resolver p with
  | [], _ => Ok (false, 0)
  | _, None => Err ErrPolicyScopeUnavailable
  | _, Some resolver => superadmin_loop resolver now authority bindings
  end.

Definition ValidateOwnerScope (p : PolicyState) (scope : PolicyOwnerScopeV1) : result policy_error unit :=
  _ ← mapErr EPolicySchema (Scope_Validate scope);
  match p_resolver p with
  | None => Err ErrPolicyScopeUnavailable
  | Some resolver =>
    match resolver scope (ParseUint (sc_NodeID scope)).1 with
    | None => Err EPolicyResolver
    | Some (matched, _) => fail_if negb matched with EPolicyScopeOutside ;; Ok tt
    end
  end.
