(* ===== verification/PolicyTheory.v ===== *)
(** * Correctness of the policy store

    The invariant of the store, decisions against their declarative meaning, commits,
    restarts, revocation and the expiry timer. *)

From Stdlib Require Import Sorting.Sorted.
From stdpp Require Import sorting.
From S2P Require Import Prelude GoStd GoSort Wire Tree PolicySchema Policy PolicyStore.
Open Scope Z_scope.

(** ** The index of bindings *)

Definition subject_ids (m : gmap string PolicyBindingV1) (s : NodeID) : list string :=
  default [] (rebuildBindingIndex m !! s).

Lemma foldr_index l s :
  default [] (foldr index_append ∅ l !! s) ≡ₚ (filter (λ e, binding_subject e.2 = s) l).*1.
Proof.
  induction l as [|e l IH]; [by simpl; rewrite lookup_empty|]. simpl. unfold index_append at 1.
  rewrite lookup_insert, filter_cons. case_decide as E; simpl.
  - subst s. by rewrite IH, Permutation_app_comm.
  - done.
Qed.

Lemma subject_ids_perm m s :
  subject_ids m s ≡ₚ (filter (λ e, binding_subject e.2 = s) (map_to_list m)).*1.
Proof.
  unfold subject_ids, rebuildBindingIndex. rewrite lookup_fmap, <- foldr_index.
  destruct (foldr index_append ∅ (map_to_list m) !! s) as [l|]; simpl; [|done]. apply SortSlice_perm.
Qed.

Lemma elem_of_subject_ids m s id :
  id ∈ subject_ids m s ↔ ∃ b, m !! id = Some b ∧ binding_subject b = s.
Proof.
  rewrite subject_ids_perm, list_elem_of_fmap. split.
  - intros ([id' b] & -> & H). apply list_elem_of_filter in H as [Hs H]. apply elem_of_map_to_list in H. eauto.
  - intros (b & Hb & Hs). exists (id, b). split; [done|]. apply list_elem_of_filter. by rewrite elem_of_map_to_list.
Qed.

Lemma NoDup_subject_ids m s : NoDup (subject_ids m s).
Proof.
  rewrite subject_ids_perm. apply NoDup_fmap_fst; [|apply NoDup_filter, NoDup_map_to_list].
  intros id b b' H H'. apply list_elem_of_filter in H as [_ H]. apply list_elem_of_filter in H' as [_ H'].
  rewrite elem_of_map_to_list in H, H'. congruence.
Qed.

Lemma subject_ids_sorted m s : StronglySorted (λ x y, str_leb x y = true) (subject_ids m s).
Proof.
  unfold subject_ids, rebuildBindingIndex. rewrite lookup_fmap.
  destruct (foldr index_append ∅ (map_to_list m) !! s) as [l|]; simpl; [|constructor].
  eapply StronglySorted_mono; [|apply (SortSlice_ordered str_ltb str_ltb_asym str_ltb_negtrans l)].
  intros x y H. unfold str_leb. simpl in H. by rewrite H.
Qed.

(** ** The invariant *)

Record maps_wf (grants : gset Request) (definitions : gmap string PolicyDefinitionV1) (bindings : gmap string PolicyBindingV1) : Prop := mkMapsWf {
  mw_grants : ∀ g, g ∈ grants → normalized g;
  mw_grants_size : Z.of_nat (size grants) ≤ MaxItems;
  mw_definitions : ∀ id d, definitions !! id = Some d → pd_ID d = id ∧ Definition_Validate d = Ok tt;
  mw_definitions_size : Z.of_nat (size definitions) ≤ MaxItems;
  mw_superadmin : definitions !! BuiltinPolicySuperadmin = Some builtinSuperadminDefinition;
  mw_bindings : ∀ id b, bindings !! id = Some b →
    b_BindingID b = id ∧ Binding_Validate b = Ok tt ∧ is_Some (definitions !! b_DefinitionID b);
  mw_bindings_size : Z.of_nat (size bindings) ≤ MaxItems
}.

Record policy_wf (p : PolicyState) : Prop := mkPolicyWf {
  pw_generation : 1 ≤ p_generation p ≤ MaxCollectionRevision;
  pw_maps : maps_wf (p_grants p) (p_definitions p) (p_bindings p);
  pw_index : p_bySubject p = rebuildBindingIndex (p_bindings p)
}.

(** A definition accepted as the built-in one is the built-in one. *)
Lemma sameDefinition_builtin d :
  Definition_Validate d = Ok tt → sameDefinition d builtinSuperadminDefinition = true → d = builtinSuperadminDefinition.
Proof.
  intros Hv Hs. destruct d as [v id label rev imm rules]. unfold sameDefinition in Hs. simpl in Hs. bool_prop.
  repeat match goal with
  | H : String.eqb _ _ = true |- _ => apply String.eqb_eq in H
  | H : Bool.eqb _ _ = true |- _ => apply Bool.eqb_prop in H
  | H : (_ =? _)%nat = true |- _ => apply Nat.eqb_eq in H
  end. subst. destruct rules as [|[[rk rv] [ck cv]] [|]]; try done. simpl in *. bool_prop.
  repeat match goal with H : String.eqb _ _ = true |- _ => apply String.eqb_eq in H end. simplify_eq.
  unfold Definition_Validate in Hv. simpl in Hv. guards Hv.
  unfold validatePolicyRules in Hv. guards Hv. simpl in Hv. guards Hv.
  match goal with H : Rule_Validate _ = Ok _ |- _ => unfold Rule_Validate in H; guards H end.
  by destruct cv.
Qed.

(** ** Operations *)

Inductive policy_op :=
| OpGrant (request : Request) | OpRevoke (request : Request) | OpRevokeSubject (subject : NodeID)
| OpPutDefinition (request : PolicyDefinitionPutV1) | OpDeleteDefinition (request : PolicyDefinitionDeleteV1)
| OpCreateBinding (request : PolicyBindingCreateV1) (actor : NodeID) | OpRevokeBinding (bindingID : string)
| OpExpire | OpBindResolver (resolver : OwnerScopeResolver) | OpWatch | OpCancelWatch (id : Z) | OpClose.

(** The state after an operation and whether it returned no error. *)
Definition policy_exec (p : PolicyState) (now : Z) (saved : bool) (op : policy_op) : PolicyState * bool :=
  match op with
  | OpGrant r => prod_map id is_ok (Grant p now saved r)
  | OpRevoke r => prod_map id is_ok (Revoke p now saved r)
  | OpRevokeSubject s => prod_map id is_ok (RevokeSubject p now saved s)
  | OpPutDefinition r => prod_map id is_ok (PutDefinition p now saved r)
  | OpDeleteDefinition r => prod_map id is_ok (DeleteDefinition p now saved r)
  | OpCreateBinding r actor => prod_map id is_ok (CreateBinding p now saved r actor)
  | OpRevokeBinding b => prod_map id is_ok (RevokeBinding p now saved b)
  | OpExpire => (expireBindings p now saved, true)
  | OpBindResolver r => prod_map id is_ok (BindScopeResolver p r)
  | OpWatch => prod_map id is_ok (WatchGeneration p)
  | OpCancelWatch id => (cancel_watch p id, true)
  | OpClose => (Close p, true)
  end.

(** The generation in the file is an unsigned number. *)
Definition file_u64 (loaded : option (option policyState)) : Prop :=
  match loaded with Some (Some f) => is_u64 (ps_Generation f) | _ => True end.

Inductive policy_reachable : PolicyState → Prop :=
| pr_load loaded now saved p : file_u64 loaded → LoadPolicyState loaded now saved = Ok p → policy_reachable p
| pr_step p now saved op p' ok : policy_reachable p → policy_exec p now saved op = (p', ok) → policy_reachable p'.

(** *** Commits *)

(** The two outcomes of a commit. *)
Inductive committed (p : PolicyState) (grants : gset Request) (definitions : gmap string PolicyDefinitionV1)
    (bindings : gmap string PolicyBindingV1) : PolicyState → bool → Prop :=
| committed_error : committed p grants definitions bindings p false
| committed_ok p' :
    p_closed p = false → p_generation p < MaxCollectionRevision →
    p_generation p' = p_generation p + 1 → p_grants p' = grants → p_definitions p' = definitions → p_bindings p' = bindings →
    p_bySubject p' = rebuildBindingIndex bindings → p_disk p' = Some (snapshotLocked p') →
    p_resolver p' = p_resolver p → p_watchers p' = (λ log, log ++ [p_generation p']) <$> p_watchers p →
    committed p grants definitions bindings p' true.

Lemma commitLocked_committed p now saved grants definitions bindings :
  committed p grants definitions bindings (commitLocked p now saved grants definitions bindings).1
    (is_ok (commitLocked p now saved grants definitions bindings).2).
Proof.
  unfold commitLocked. destruct (p_closed p) eqn:Ec; [constructor|].
  destruct (MaxCollectionRevision <=? p_generation p) eqn:Eg; [constructor|]. bool_prop.
  destruct saved; [|constructor]. by constructor.
Qed.

(** What an operation can do: fail or do nothing to the policy, or commit new maps that
    satisfy the invariant when the old ones do. *)
Definition policy_same (p p' : PolicyState) : Prop :=
  p_generation p' = p_generation p ∧ p_grants p' = p_grants p ∧ p_definitions p' = p_definitions p ∧
  p_bindings p' = p_bindings p ∧ p_bySubject p' = p_bySubject p ∧ p_disk p' = p_disk p.
Definition policy_commits (p p' : PolicyState) : Prop :=
  ∃ grants definitions bindings,
    committed p grants definitions bindings p' true ∧
    (maps_wf (p_grants p) (p_definitions p) (p_bindings p) → maps_wf grants definitions bindings).

Lemma maps_wf_shrink g d b g' b' : maps_wf g d b → g' ⊆ g → b' ⊆ b → maps_wf g' d b'.
Proof.
  intros [H1 H2 H3 H4 H5 H6 H7] Hg Hb. split; try done.
  - set_solver.
  - apply subseteq_size in Hg. lia.
  - intros id x Hx. apply H6. by eapply lookup_weaken.
  - apply map_subseteq_size in Hb. lia.
Qed.

Lemma maps_wf_grant g d b r : maps_wf g d b → normalized r → r ∉ g → Z.of_nat (size g) < MaxItems → maps_wf ({[r]} ∪ g) d b.
Proof.
  intros [H1 H2 H3 H4 H5 H6 H7] Hr Hn Hs. split; try done.
  - intros x [->%elem_of_singleton|Hx]%elem_of_union; auto.
  - rewrite size_union by set_solver. rewrite size_singleton. lia.
Qed.

Lemma maps_wf_binding g d b x :
  maps_wf g d b → Binding_Validate x = Ok tt → is_Some (d !! b_DefinitionID x) → b !! b_BindingID x = None →
  Z.of_nat (size b) < MaxItems → maps_wf g d (<[b_BindingID x := x]> b).
Proof.
  intros [H1 H2 H3 H4 H5 H6 H7] Hv Hd Hn Hs. split; try done.
  - intros id y. rewrite lookup_insert_Some. intros [[<- <-]|[_ Hy]]; [done|by apply H6].
  - rewrite map_size_insert_None by done. lia.
Qed.

Lemma maps_wf_put p request :
  maps_wf (p_grants p) (p_definitions p) (p_bindings p) → check_put p request = Ok tt →
  Definition_Validate (put_definition p request) = Ok tt →
  maps_wf (p_grants p) (<[put_ID request := put_definition p request]> (p_definitions p)) (p_bindings p).
Proof.
  intros [H1 H2 H3 H4 H5 H6 H7] Hc Hv. unfold check_put in Hc.
  assert (put_ID request ≠ BuiltinPolicySuperadmin ∧
          (is_Some (p_definitions p !! put_ID request) ∨ Z.of_nat (size (p_definitions p)) < MaxItems)) as [Hne Hsz].
  { destruct (put_ExpectedRevision request =? 0).
    - guards Hc. bool_prop. split; [|by right]. intros E. rewrite E, H5 in H. by destruct H.
    - destruct (p_definitions p !! put_ID request) as [d|] eqn:Ed; [|done]. guards Hc. split; [|by left].
      intros E. rewrite E, H5 in Ed. by simplify_eq. }
  split; try done.
  - intros id d. rewrite lookup_insert_Some. intros [[<- <-]|[_ Hd]]; [done|by apply H3].
  - destruct (p_definitions p !! put_ID request) as [d|] eqn:Ed.
    + by erewrite map_size_insert_Some by done.
    + rewrite map_size_insert_None by done. destruct Hsz as [[]|]; [congruence|lia].
  - rewrite lookup_insert_ne by done. done.
  - intros id b Hb. destruct (H6 id b Hb) as (? & ? & ?). split_and!; try done.
    apply lookup_insert_is_Some'. by right.
Qed.

Lemma maps_wf_delete g d b id x :
  maps_wf g d b → d !! id = Some x → pd_Immutable x = false → (∀ k y, b !! k = Some y → b_DefinitionID y ≠ id) →
  maps_wf g (delete id d) b.
Proof.
  intros [H1 H2 H3 H4 H5 H6 H7] Hx Hi Hb. split; try done.
  - intros k y. rewrite lookup_delete_Some. intros [_ Hy]. by apply H3.
  - rewrite map_size_delete_Some by eauto. lia.
  - rewrite lookup_delete_ne; [done|]. intros ->. rewrite H5 in Hx. by simplify_eq.
  - intros k y Hy. destruct (H6 k y Hy) as (? & ? & ?). split_and!; try done.
    rewrite lookup_delete_ne; [done|]. by apply not_eq_sym, (Hb k).
Qed.

Lemma policy_same_refl p : policy_same p p.
Proof. by repeat split. Qed.

(** An operation fails and changes nothing, or succeeds, without changing the policy or by a
    commit. *)
Definition outcome {A} (p : PolicyState) (c : PolicyState * result policy_error A) : Prop :=
  (is_ok c.2 = false ∧ c.1 = p) ∨ (is_ok c.2 = true ∧ (policy_same p c.1 ∨ policy_commits p c.1)).

Lemma outcome_err {A} p e : @outcome A p (p, Err e).
Proof. by left. Qed.
Lemma outcome_same {A} p a : @outcome A p (p, Ok a).
Proof. right. split; [done|]. left. apply policy_same_refl. Qed.
#[local] Hint Resolve outcome_err outcome_same : mfh.

Lemma outcome_commit p now saved g d b :
  (maps_wf (p_grants p) (p_definitions p) (p_bindings p) → maps_wf g d b) → outcome p (commitLocked p now saved g d b).
Proof.
  intros Hw. pose proof (commitLocked_committed p now saved g d b) as H. unfold outcome.
  destruct (commitLocked p now saved g d b) as [p1 r]. simpl in *. destruct (is_ok r).
  - right. split; [done|]. right. by exists g, d, b.
  - left. by inversion H.
Qed.

Lemma outcome_bind {A B} p (c : PolicyState * result policy_error A) (k : A → B) :
  outcome p c → outcome p (c.1, a ← c.2; Ok (k a)).
Proof. unfold outcome. destruct c as [p1 [a|e]]; done. Qed.

Lemma Grant_outcome p now saved request : outcome p (Grant p now saved request).
Proof.
  unfold Grant. destruct (normalizeRequest request) as [r|] eqn:E; [|auto with mfh].
  case_bool_decide; [auto with mfh|]. destruct (MaxItems <=? _) eqn:Es; [auto with mfh|]. bool_prop.
  apply outcome_commit. intros Hw. apply maps_wf_grant; try done. by apply normalizeRequest_ok in E as [? _].
Qed.

Lemma Revoke_outcome p now saved request : outcome p (Revoke p now saved request).
Proof.
  unfold Revoke. destruct (normalizeRequest request) as [r|] eqn:E; [|auto with mfh].
  case_bool_decide; simpl; [|auto with mfh].
  apply outcome_commit. intros Hw. eapply maps_wf_shrink; [done|set_solver|done].
Qed.

Lemma RevokeSubject_outcome p now saved subject : outcome p (RevokeSubject p now saved subject).
Proof.
  unfold RevokeSubject. destruct (NodeID_Validate subject); [|auto with mfh]. destruct (negb _); [auto with mfh|].
  apply outcome_commit. intros Hw. eapply maps_wf_shrink; [done|set_solver|apply map_filter_subseteq].
Qed.

Lemma PutDefinition_outcome p now saved request : outcome p (PutDefinition p now saved request).
Proof.
  unfold PutDefinition. destruct (DefinitionPut_Validate request); [|auto with mfh].
  destruct (check_put p request) as [[]|] eqn:Ec; [|auto with mfh].
  destruct (Definition_Validate _) as [[]|] eqn:Ev; [|auto with mfh].
  pose proof (outcome_commit p now saved (p_grants p)
    (<[pd_ID (put_definition p request) := put_definition p request]> (p_definitions p)) (p_bindings p)
    (λ Hw, maps_wf_put p request Hw Ec Ev)) as H.
  destruct (commitLocked _ _ _ _ _ _) as [p1 r]. apply (outcome_bind _ _ (λ _, put_definition p request) H).
Qed.

Lemma DeleteDefinition_outcome p now saved request : outcome p (DeleteDefinition p now saved request).
Proof.
  unfold DeleteDefinition. destruct (DefinitionDelete_Validate request); [|auto with mfh].
  destruct (p_definitions p !! del_ID request) as [d|] eqn:Ed; [|auto with mfh].
  destruct (pd_Immutable d) eqn:Ei; [auto with mfh|].
  destruct (negb _); [auto with mfh|]. destruct (existsb _ _) eqn:Ex; [auto with mfh|].
  apply outcome_commit. intros Hw. eapply maps_wf_delete; try done.
  intros k y Hy Hk. rewrite existsb_false_Forall, Forall_forall in Ex.
  assert (y ∈ (map_to_list (p_bindings p)).*2) as Hin.
  { apply list_elem_of_fmap. exists (k, y). by rewrite elem_of_map_to_list. }
  apply Ex in Hin. by rewrite Hk, String.eqb_refl in Hin.
Qed.

Lemma CreateBinding_outcome p now saved request actor : outcome p (CreateBinding p now saved request actor).
Proof.
  unfold CreateBinding. destruct (_ ≫= _); [|auto with mfh].
  destruct (p_definitions p !! _) eqn:Ed; [|auto with mfh].
  destruct (p_bindings p !! _) eqn:Eb; [destruct (bindingMatchesCreate _ _); auto with mfh|].
  destruct (MaxItems <=? _) eqn:Es; [auto with mfh|]. destruct (negb _ && _); [auto with mfh|].
  destruct (Binding_Validate _) as [[]|] eqn:Ev; [|auto with mfh]. bool_prop.
  match goal with |- context [commitLocked ?a ?b ?c ?d ?e ?f] => assert (outcome p (commitLocked a b c d e f)) as H end.
  { apply outcome_commit. intros Hw. apply (maps_wf_binding _ _ _ (new_binding request actor now)); eauto. }
  destruct (commitLocked _ _ _ _ _ _) as [p1 r]. apply (outcome_bind _ _ (λ _, new_binding request actor now) H).
Qed.

Lemma RevokeBinding_outcome p now saved id : outcome p (RevokeBinding p now saved id).
Proof.
  unfold RevokeBinding. destruct (BindingRevoke_Validate 1 id); [|auto with mfh].
  destruct (p_bindings p !! id); [|auto with mfh].
  apply outcome_commit. intros Hw. eapply maps_wf_shrink; [done|done|apply delete_subseteq].
Qed.

Lemma expireBindings_outcome p now saved : policy_same p (expireBindings p now saved) ∨ policy_commits p (expireBindings p now saved).
Proof.
  unfold expireBindings. destruct (p_closed p); [left; apply policy_same_refl|]. destruct (negb _); [by left|].
  pose proof (outcome_commit p now saved (p_grants p) (p_definitions p)
    (filter (λ '(_, b), binding_expired now b = false) (p_bindings p))) as H.
  destruct (commitLocked _ _ _ _ _ _) as [p1 r]. unfold outcome in H. simpl in H.
  destruct H as [[-> ->]|[-> H]]; [|by left|done].
  intros Hw. eapply maps_wf_shrink; [done|done|apply map_filter_subseteq].
Qed.

Lemma exec_outcome p now saved op p' ok :
  policy_exec p now saved op = (p', ok) →
  (ok = false ∧ p' = p) ∨ (ok = true ∧ (policy_same p p' ∨ policy_commits p p')).
Proof.
  assert (∀ A (c : PolicyState * result policy_error A), outcome p c → prod_map id is_ok c = (p', ok) →
    (ok = false ∧ p' = p) ∨ (ok = true ∧ (policy_same p p' ∨ policy_commits p p'))) as Hc.
  { by intros A [p1 r] H [= <- <-]. }
  destruct op; simpl.
  - apply Hc, Grant_outcome.
  - apply Hc, Revoke_outcome.
  - apply Hc, RevokeSubject_outcome.
  - apply Hc, PutDefinition_outcome.
  - apply Hc, DeleteDefinition_outcome.
  - apply Hc, CreateBinding_outcome.
  - apply Hc, RevokeBinding_outcome.
  - intros [= <- <-]. right. split; [done|]. apply expireBindings_outcome.
  - apply Hc. unfold BindScopeResolver. destruct (p_closed p); [auto with mfh|].
    destruct (p_resolver p); [auto with mfh|]. right. split; [done|]. by left.
  - apply Hc. unfold WatchGeneration. destruct (p_closed p); [auto with mfh|]. right. split; [done|]. by left.
  - intros [= <- <-]. right. split; [done|]. by left.
  - intros [= <- <-]. right. split; [done|]. left. unfold Close. by destruct (p_closed p).
Qed.

(** ** Loading *)

Lemma load_grants_wf l acc g :
  load_grants acc l = Ok g → (∀ x, x ∈ acc → normalized x) →
  (∀ x, x ∈ g → normalized x) ∧ (size g ≤ size acc + length l)%nat.
Proof.
  revert acc. induction l as [|x l IH]; intros acc H Hn; simpl in *; [simplify_eq; split; [done|lia]|].
  destruct (normalizeRequest x) as [y|] eqn:E; [|done]. simpl in H. guards H. bool_prop.
  apply IH in H as [H1 H2].
  - rewrite size_union in H2 by set_solver. rewrite size_singleton in H2. split; [done|lia].
  - intros z [->%elem_of_singleton|Hz]%elem_of_union; [|auto]. by apply normalizeRequest_ok in E as [? _].
Qed.

Lemma load_grants_list l acc :
  Forall normalized l → NoDup l → (∀ x, x ∈ l → x ∉ acc) → load_grants acc l = Ok (list_to_set l ∪ acc).
Proof.
  revert acc. induction l as [|x l IH]; intros acc Hn Hd Ha; simpl.
  { f_equal. set_solver. }
  apply Forall_cons in Hn as [Hx Hn]. apply NoDup_cons in Hd as [Hxl Hd].
  rewrite (normalizeRequest_normalized x Hx). simpl.
  rewrite bool_decide_eq_false_2 by (apply Ha; left). rewrite IH; [f_equal; set_solver|done|done|].
  intros y Hy. rewrite elem_of_union, elem_of_singleton. intros [->|Hacc]; [done|]. eapply Ha; [by right|done].
Qed.

Definition defs_ok (d : gmap string PolicyDefinitionV1) : Prop :=
  ∀ id x, d !! id = Some x → pd_ID x = id ∧ Definition_Validate x = Ok tt.

Lemma load_definitions_wf l acc d :
  load_definitions acc l = Ok d → defs_ok acc → defs_ok d ∧ (size d ≤ size acc + length l)%nat.
Proof.
  unfold defs_ok. revert acc. induction l as [|x l IH]; intros acc H Hn; simpl in *; [simplify_eq; split; [done|lia]|].
  guards H. bool_prop. rewrite <- eq_None_not_Some in *.
  repeat match goal with H : mapErr _ _ = Ok _ |- _ => apply mapErr_ok in H end.
  apply IH in H as [H1' H2].
  - rewrite map_size_insert_None in H2 by done. split; [done|lia].
  - intros id y. rewrite lookup_insert_Some. intros [[<- <-]|[_ Hy]]; [done|by apply Hn].
Qed.

Lemma load_definitions_list l acc :
  Forall (λ x, Definition_Validate x = Ok tt) l → NoDup (pd_ID <$> l) → (∀ x, x ∈ l → acc !! pd_ID x = None) →
  load_definitions acc l = Ok (list_to_map ((λ x, (pd_ID x, x)) <$> l) ∪ acc).
Proof.
  revert acc. induction l as [|x l IH]; intros acc Hn Hd Ha; simpl.
  { f_equal. by rewrite (left_id_L ∅ (∪)). }
  apply Forall_cons in Hn as [Hx Hn]. apply NoDup_cons in Hd as [Hxl Hd]. rewrite Hx. simpl.
  rewrite bool_decide_eq_false_2 by (rewrite Ha by left; by intros []).
  rewrite IH; [|done|done|].
  - f_equal. simpl. rewrite <- insert_union_l, insert_union_r; [done|]. apply not_elem_of_list_to_map_1.
    by rewrite <- list_fmap_compose.
  - intros y Hy. rewrite lookup_insert_ne; [apply Ha; by right|]. intros Heq. apply Hxl. rewrite Heq. by apply list_elem_of_fmap_2.
Qed.

Definition binds_ok (d : gmap string PolicyDefinitionV1) (b : gmap string PolicyBindingV1) : Prop :=
  ∀ id x, b !! id = Some x → b_BindingID x = id ∧ Binding_Validate x = Ok tt ∧ is_Some (d !! b_DefinitionID x).

Lemma load_bindings_wf now d l acc pruned b pruned' :
  load_bindings now d acc pruned l = Ok (b, pruned') → binds_ok d acc → binds_ok d b ∧ (size b ≤ size acc + length l)%nat.
Proof.
  unfold binds_ok. revert acc pruned. induction l as [|x l IH]; intros acc pruned H Hn; simpl in *; [simplify_eq; split; [done|lia]|].
  guards H. bool_prop. rewrite <- eq_None_not_Some in *.
  repeat match goal with H : mapErr _ _ = Ok _ |- _ => apply mapErr_ok in H end.
  destruct (binding_expired now x).
  - apply IH in H as [H3 H4]; [|done]. split; [done|lia].
  - apply IH in H as [H3 H4].
    + rewrite map_size_insert_None in H4 by done. split; [done|lia].
    + intros id y. rewrite lookup_insert_Some. intros [[<- <-]|[_ Hy]]; [done|by apply Hn].
Qed.

Lemma migrate_wf found state state' migrated :
  (if found : bool then migrate state else Ok (state, false)) = Ok (state', migrated) →
  1 ≤ ps_Generation state ≤ MaxCollectionRevision → Z.of_nat (length (ps_Grants state)) ≤ MaxItems →
  Z.of_nat (length (ps_Definitions state)) ≤ MaxItems → Z.of_nat (length (ps_Bindings state)) ≤ MaxItems →
  1 ≤ ps_Generation state' ≤ MaxCollectionRevision ∧ Z.of_nat (length (ps_Grants state')) ≤ MaxItems ∧
  Z.of_nat (length (ps_Definitions state')) ≤ MaxItems ∧ Z.of_nat (length (ps_Bindings state')) ≤ MaxItems.
Proof.
  intros H Hg H1 H2 H3. destruct found; [|by simplify_eq]. unfold migrate in H.
  destruct (ps_Version state =? legacyPolicyStateVersion).
  - guards H. bool_prop. simplify_eq. simpl. unfold MaxItems in *. lia.
  - destruct (ps_Version state =? policyStateVersion); by simplify_eq.
Qed.

Lemma LoadPolicyState_wf loaded now saved p : file_u64 loaded → LoadPolicyState loaded now saved = Ok p → policy_wf p.
Proof.
  unfold LoadPolicyState, file_u64. destruct loaded as [file|]; [|done]. intros Hu H. guards H. bool_prop.
  assert (1 ≤ ps_Generation (default fresh_policy_file file) ≤ MaxCollectionRevision) as Hg.
  { destruct file as [f|]; [|by vm_compute]. simpl in *. unfold is_u64 in Hu. lia. }
  destruct (if bool_decide (is_Some file) then _ else _) as [[state migrated]|] eqn:Em; [|done]. simpl in H.
  apply migrate_wf in Em as (Hg' & Hs1 & Hs2 & Hs3); [|done..].
  destruct (load_grants ∅ (ps_Grants state)) as [grants|] eqn:Eg; [|done]. simpl in H.
  destruct (load_definitions ∅ (ps_Definitions state)) as [definitions|] eqn:Ed; [|done]. simpl in H. guards H.
  destruct (definitions !! BuiltinPolicySuperadmin) as [sd|] eqn:Esd; [|done]. bool_prop.
  destruct (load_bindings now definitions ∅ false (ps_Bindings state)) as [[bindings pruned]|] eqn:Eb; [|done].
  simpl in H. guards H.
  apply load_grants_wf in Eg as [Hg1 Hg2]; [|set_solver]. rewrite size_empty in Hg2.
  apply load_definitions_wf in Ed as [Hd1 Hd2]; [|intros ? ?; by rewrite lookup_empty]. rewrite map_size_empty in Hd2.
  apply load_bindings_wf in Eb as [Hb1 Hb2]; [|intros ? ?; by rewrite lookup_empty]. rewrite map_size_empty in Hb2.
  assert (maps_wf grants definitions bindings) as Hw.
  { split; try done; try lia. rewrite Esd. f_equal. apply sameDefinition_builtin; [|done]. by apply (Hd1 _ _ Esd). }
  assert (1 ≤ (if pruned then ps_Generation state + 1 else ps_Generation state) ≤ MaxCollectionRevision) as Hgen.
  { destruct pruned; [|done]. simpl in *. bool_prop. lia. }
  destruct (negb _ || _ || _); [guards H|]; simplify_eq; by split.
Qed.

Lemma committed_wf p p' : policy_wf p → policy_commits p p' → policy_wf p'.
Proof.
  intros [Hg Hm Hi] (g & d & b & Hc & Hw). inversion Hc; subst. split; [lia| |done]. by apply Hw.
Qed.

Lemma policy_same_wf p p' : policy_wf p → policy_same p p' → policy_wf p'.
Proof.
  intros [Hg Hm Hi] (E1 & E2 & E3 & E4 & E5 & _). split; by rewrite ?E1, ?E2, ?E3, ?E4, ?E5.
Qed.

Lemma exec_wf p now saved op p' ok : policy_wf p → policy_exec p now saved op = (p', ok) → policy_wf p'.
Proof.
  intros Hw H. apply exec_outcome in H as [[_ ->]|[_ [H|H]]];
    [done|by eapply policy_same_wf|by eapply committed_wf].
Qed.

Lemma policy_reachable_wf p : policy_reachable p → policy_wf p.
Proof. induction 1 as [loaded now saved p Hu H|]; [by eapply LoadPolicyState_wf|by eapply exec_wf]. Qed.

(** Policy invariant: whatever the stored file and the operations, the generation stays in
    range, grants are normalized, definitions and bindings are valid and filed under their
    own identifiers, every binding refers to an existing definition, no collection exceeds
    its limit, the per-subject index is that of the bindings, and the built-in superadmin
    definition is present and unmodified. *)
Theorem policy_invariant p : policy_reachable p → policy_wf p.
Proof. apply policy_reachable_wf. Qed.


(** ** The meaning of decisions *)

Definition resource_matches (s : PolicyResourceSelectorV1) (name : string) : Prop :=
  rs_Kind s = PolicySelectorAll ∨
  (rs_Kind s = PolicySelectorExact ∧ name = rs_Value s) ∨
  (rs_Kind s = PolicySelectorPrefix ∧ (name = rs_Value s ∨ ∃ rest, name = rs_Value s +:+ "/" +:+ rest)).
Definition capability_matches (s : PolicyCapabilitySelectorV1) (capability : CapabilityID) : Prop :=
  cs_Kind s = PolicySelectorAll ∨ capability ∈ cs_Values s.
Definition rule_matches (rule : PolicyRuleV1) (name : string) (capability : CapabilityID) : Prop :=
  resource_matches (rule_Resource rule) name ∧ capability_matches (rule_Capability rule) capability.

Lemma HasPrefix_spec s t : HasPrefix s t = true ↔ ∃ rest, s = t +:+ rest.
Proof.
  unfold HasPrefix. revert s. induction t as [|a t IH]; intros s; simpl.
  - split; [by exists s|by destruct s].
  - destruct s as [|b s]; [split; [done|by intros [? ?]]|].
    simpl. destruct (Ascii.ascii_dec a b) as [->|Hne].
    + rewrite IH. split; intros [rest Hr]; exists rest; [by rewrite Hr|by injection Hr].
    + split; [done|]. intros [rest Hr]. injection Hr as Hx _. by destruct Hne.
Qed.

Lemma append_slash (v r : string) : (v +:+ "/") +:+ r = v +:+ "/" +:+ r.
Proof. induction v as [|a v IH]; [done|]. exact (f_equal (String a) IH). Qed.

Lemma check_capabilities_sorted values prev :
  check_capabilities prev values = Ok tt →
  strictly_sorted values ∧ match prev with Some p => Forall (λ v, str_ltb p v = true) values | None => True end.
Proof.
  revert prev. induction values as [|v values IH]; intros prev H; simpl in H.
  { split; [constructor|by destruct prev]. }
  guards H. apply IH in H as [Hs Hf]. split; [constructor; [done|exact Hf]|].
  destruct prev as [p|]; [|done]. unfold str_leb in *. bool_prop. constructor; [done|].
  eapply Forall_impl; [exact Hf|]. intros w Hw. by eapply str_ltb_trans.
Qed.

Lemma matchPolicyRule_spec rule name capability :
  Rule_Validate rule = Ok tt → matchPolicyRule rule name capability = true ↔ rule_matches rule name capability.
Proof.
  intros Hv. unfold Rule_Validate in Hv. guards Hv.
  unfold ResourceSelector_Validate in *. unfold CapabilitySelector_Validate in Hv.
  unfold matchPolicyRule, rule_matches, resource_matches, capability_matches.
  set (kind := rs_Kind (rule_Resource rule)) in *. set (value := rs_Value (rule_Resource rule)) in *.
  match goal with |- (if negb ?b then _ else _) = true ↔ _ => set (matched := b) end.
  assert (matched = true ↔
          kind = PolicySelectorAll ∨ (kind = PolicySelectorExact ∧ name = value) ∨
          (kind = PolicySelectorPrefix ∧ (name = value ∨ ∃ rest, name = value +:+ "/" +:+ rest))) as Hr.
  { unfold matched. destruct (String.eqb_spec kind PolicySelectorAll) as [->|]; [by split; auto|].
    destruct (String.eqb_spec kind PolicySelectorExact) as [->|].
    - rewrite String.eqb_eq. split; [by auto|]. by intros [?|[[_ ?]|[? _]]].
    - destruct (String.eqb_spec kind PolicySelectorPrefix) as [->|].
      + rewrite orb_true_iff, String.eqb_eq, HasPrefix_spec. setoid_rewrite append_slash.
        split; [by auto|]. by intros [?|[[? _]|[_ ?]]].
      + split; [done|]. by intros [?|[[? _]|[? _]]]. }
  rewrite <- Hr. clear Hr. destruct matched; cbn [negb]; [|by split; [|intros [? _]]].
  destruct (String.eqb_spec (cs_Kind (rule_Capability rule)) PolicySelectorAll) as [E|E]; [by split; auto|].
  destruct (String.eqb (cs_Kind (rule_Capability rule)) PolicySelectorExact); [|done].
  apply fail_if_ok in Hv as [_ Hv]. apply check_capabilities_sorted in Hv as [Hs _].
  rewrite (search_string_correct _ _ Hs). split; [by auto|]. by intros [_ [?|?]].
Qed.

Lemma check_rules_ok rules seen : check_rules seen rules = Ok tt → Forall (λ r, Rule_Validate r = Ok tt) rules.
Proof.
  revert seen. induction rules as [|r rules IH]; intros seen H; simpl in H; [constructor|].
  guards H. constructor; [done|by eapply IH].
Qed.

Lemma Definition_rules d r : Definition_Validate d = Ok tt → r ∈ pd_Rules d → Rule_Validate r = Ok tt.
Proof.
  unfold Definition_Validate, validatePolicyRules. intros H Hr. guards H. apply check_rules_ok in H.
  rewrite Forall_forall in H. by apply H.
Qed.

Lemma match_rules_spec rules name capability i :
  match match_rules i rules name capability with
  | Some k => ∃ n rule, k = i + Z.of_nat n ∧ rules !! n = Some rule ∧ matchPolicyRule rule name capability = true
  | None => ∀ rule, rule ∈ rules → matchPolicyRule rule name capability = false
  end.
Proof.
  revert i. induction rules as [|r rules IH]; intros i; simpl; [set_solver|].
  destruct (matchPolicyRule r name capability) eqn:E.
  - exists 0%nat, r. split_and!; [lia|done|done].
  - specialize (IH (i + 1)). destruct (match_rules (i + 1) rules name capability) as [k|].
    + destruct IH as (n & rule & -> & Hr & Hm). exists (S n), rule. split_and!; [lia|done|done].
    + intros rule [->|Hr]%elem_of_cons; [done|by apply IH].
Qed.

(** A live binding of the subject whose scope contains the owner of the resource and one of
    whose rules matches. *)
Definition binding_permits (p : PolicyState) (now : Z) (request : Request) (b : PolicyBindingV1) (epoch : Z)
    (d : PolicyDefinitionV1) (rule : PolicyRuleV1) : Prop :=
  p_bindings p !! b_BindingID b = Some b ∧ binding_subject b = q_Subject request ∧ binding_expired now b = false ∧
  (∃ resolver, p_resolver p = Some resolver ∧ resolver (b_Scope b) (r_Owner (q_Resource request)) = Some (true, epoch)) ∧
  p_definitions p !! b_DefinitionID b = Some d ∧ rule ∈ pd_Rules d ∧
  rule_matches rule (r_Name (q_Resource request)) (q_Capability request).
Definition permitted (p : PolicyState) (now : Z) (request : Request) : Prop :=
  request ∈ p_grants p ∨ ∃ b epoch d rule, binding_permits p now request b epoch d rule.

(** The resolver answers for every live binding of the subject. *)
Definition scopes_resolve (p : PolicyState) (now : Z) (request : Request) : Prop :=
  ∀ id b, p_bindings p !! id = Some b → binding_subject b = q_Subject request → binding_expired now b = false →
  ∃ resolver, p_resolver p = Some resolver ∧ resolver (b_Scope b) (r_Owner (q_Resource request)) ≠ None.

Lemma elem_of_subject_bindings p s b :
  policy_wf p → b ∈ subject_bindings p s ↔ p_bindings p !! b_BindingID b = Some b ∧ binding_subject b = s.
Proof.
  intros W. unfold subject_bindings. rewrite (pw_index p W). fold (subject_ids (p_bindings p) s).
  rewrite list_elem_of_fmap. split.
  - intros (id & -> & Hid). apply elem_of_subject_ids in Hid as (b' & Hb & Hs). rewrite Hb. simpl.
    destruct (mw_bindings _ _ _ (pw_maps p W) _ _ Hb) as [-> _]. done.
  - intros [Hb Hs]. exists (b_BindingID b). rewrite Hb. split; [done|]. apply elem_of_subject_ids. eauto.
Qed.

(** The evaluation [ev] is right about the bindings [bs] of the subject. *)
Definition decided (p : PolicyState) (now : Z) (request : Request) (bs : list PolicyBindingV1) (ev : PolicyEvaluationV1) : Prop :=
  if pe_Allowed ev
  then ∃ b epoch d n rule, binding_permits p now request b epoch d rule ∧ pd_Rules d !! n = Some rule ∧
       ev = mkEvaluation 1 true PolicyEvaluationBinding (p_generation p) epoch (b_BindingID b) (pd_ID d) (pd_Revision d)
              (Z.of_nat n) (Some (b_Scope b))
  else ev = mkEvaluation 1 false PolicyEvaluationNone (p_generation p) 0 "" "" 0 0 None ∧
       ∀ b epoch d rule, b ∈ bs → ¬ binding_permits p now request b epoch d rule.

Lemma evaluate_bindings_spec p now request bs ev :
  policy_wf p → (∀ b, b ∈ bs → p_bindings p !! b_BindingID b = Some b ∧ binding_subject b = q_Subject request) →
  evaluate_bindings p now request bs = Ok ev → decided p now request bs ev.
Proof.
  intros W. unfold decided. induction bs as [|b bs IH]; intros Hb H; simpl in H; [simplify_eq; simpl; split; [done|set_solver]|].
  fold (decided p now request (b :: bs) ev) in *.
  assert (evaluate_bindings p now request bs = Ok ev → (∀ epoch d rule, ¬ binding_permits p now request b epoch d rule) →
          decided p now request (b :: bs) ev) as Hrest.
  { intros Hev Hno. specialize (IH (λ b' Hb', Hb b' (list_elem_of_further _ _ _ Hb')) Hev).
    unfold decided. destruct (pe_Allowed ev); [done|]. destruct IH as [IH1 IH2]. split; [done|].
    intros b' ep d r [->|Hb']%elem_of_cons; [by apply Hno|by apply IH2]. }
  clear IH. destruct (binding_expired now b) eqn:Ee.
  { apply Hrest; [done|]. intros ep d r (_ & _ & Hx & _). congruence. }
  destruct (p_resolver p) as [resolver|] eqn:Er; [|done].
  destruct (resolver (b_Scope b) (r_Owner (q_Resource request))) as [[matched epoch]|] eqn:Em; [|done].
  destruct matched; simpl in H.
  2:{ apply Hrest; [done|]. intros ep d r (_ & _ & _ & (rs & Hr1 & Hr2) & _). simplify_eq. }
  destruct (Hb b) as [Hb1 Hb2]; [by left|].
  destruct (mw_bindings _ _ _ (pw_maps p W) _ _ Hb1) as (_ & _ & [d Hd]). rewrite Hd in H. simpl in H.
  destruct (mw_definitions _ _ _ (pw_maps p W) _ _ Hd) as [_ Hv].
  pose proof (match_rules_spec (pd_Rules d) (r_Name (q_Resource request)) (q_Capability request) 0) as Hm.
  destruct (match_rules 0 _ _ _) as [k|].
  - destruct Hm as (n & rule & -> & Hn & Hmr). simplify_eq. unfold decided. simpl. exists b, epoch, d, n, rule.
    assert (rule ∈ pd_Rules d) as Hin by (by eapply list_elem_of_lookup_2).
    split_and!; [|done|done]. split_and!; try done; [by exists resolver|].
    apply matchPolicyRule_spec; [by eapply Definition_rules|done].
  - apply Hrest; [done|]. intros ep d' r (_ & _ & _ & _ & Hd' & Hr & Hmr). simplify_eq.
    apply matchPolicyRule_spec in Hmr; [|by eapply Definition_rules]. rewrite Hm in Hmr; done.
Qed.

Lemma evaluate_bindings_total p now request bs :
  (∀ b, b ∈ bs → p_bindings p !! b_BindingID b = Some b ∧ binding_subject b = q_Subject request) →
  scopes_resolve p now request → ∃ ev, evaluate_bindings p now request bs = Ok ev.
Proof.
  intros Hb Hr. induction bs as [|b bs IH]; simpl; [eauto|].
  assert (∃ ev, evaluate_bindings p now request bs = Ok ev) as Hev by (apply IH; intros; apply Hb; by right).
  destruct (binding_expired now b) eqn:Ee; [done|].
  destruct (Hb b) as [Hb1 Hb2]; [by left|]. destruct (Hr _ _ Hb1 Hb2 Ee) as (resolver & -> & Hn).
  destruct (resolver _ _) as [[[] epoch]|]; simpl; [|done|done]. by destruct (match_rules _ _ _ _); eauto.
Qed.

Lemma subject_bindings_own p request : policy_wf p → ∀ b, b ∈ subject_bindings p (q_Subject request) →
  p_bindings p !! b_BindingID b = Some b ∧ binding_subject b = q_Subject request.
Proof. intros W b. by apply elem_of_subject_bindings. Qed.

Lemma Authorize_permitted p now q :
  policy_wf p → PolicyState_Authorize p now q = Ok tt → ∃ r, normalizeRequest q = Ok r ∧ permitted p now r.
Proof.
  intros W. unfold PolicyState_Authorize, Evaluate, permitted.
  destruct (normalizeRequest q) as [r|]; [|done]. simpl. case_bool_decide as Hg; [by eauto|].
  destruct (evaluate_bindings _ _ _ _) as [ev|] eqn:E; [|done]. intros H. guards H. bool_prop.
  apply evaluate_bindings_spec in E; [|done|by apply subject_bindings_own]. unfold decided in E.
  destruct (pe_Allowed ev); [|done]. destruct E as (b & ep & d & n & rule & Hp & _). exists r. split; [done|]. right. eauto.
Qed.

(** C2. Decisions are exactly what the policy grants: a request is authorised only if it has an
    exact grant or a live binding of its subject covers the resource's owner and contains a
    matching rule (a stored rule matches by segment prefix and binary search exactly when it
    should), and it is then always authorised when the scope resolver answers; everything
    else, errors included, is forbidden. *)
Theorem Authorize_correct p now q :
  policy_reachable p →
  (PolicyState_Authorize p now q = Ok tt ∨ PolicyState_Authorize p now q = Err ErrForbidden) ∧
  (PolicyState_Authorize p now q = Ok tt → ∃ r, normalizeRequest q = Ok r ∧ permitted p now r) ∧
  (∀ r, normalizeRequest q = Ok r → scopes_resolve p now r → permitted p now r → PolicyState_Authorize p now q = Ok tt).
Proof.
  intros W%policy_reachable_wf. split_and!.
  - unfold PolicyState_Authorize. destruct (Evaluate p now q) as [ev|]; [|by right]. destruct (pe_Allowed ev); auto.
  - by apply Authorize_permitted.
  - intros r Hr Hs Hp. unfold PolicyState_Authorize, Evaluate. rewrite Hr. simpl. case_bool_decide as Hg; [done|].
    destruct Hp as [|(b & ep & d & rule & Hp)]; [done|].
    destruct (evaluate_bindings_total p now r (subject_bindings p (q_Subject r))) as [ev Hev];
      [by apply subject_bindings_own|done|]. rewrite Hev.
    apply evaluate_bindings_spec in Hev; [|done|by apply subject_bindings_own]. unfold decided in Hev.
    destruct (pe_Allowed ev); [done|]. destruct Hev as [_ Hno]. destruct (Hno b ep d rule); [|done].
    apply elem_of_subject_bindings; [done|]. by destruct Hp as (? & ? & _).
Qed.

(** Revoking a subject is effective at once: after [RevokeSubject] reports success, no
    request of that subject is authorised. *)
Theorem RevokeSubject_effective p now saved subject now' q :
  policy_reachable p → (RevokeSubject p now saved subject).2 = Ok tt → q_Subject q = subject →
  PolicyState_Authorize (RevokeSubject p now saved subject).1 now' q = Err ErrForbidden.
Proof.
  intros W%policy_reachable_wf Hok Hq. set (p' := (RevokeSubject p now saved subject).1).
  assert (policy_wf p' ∧ (∀ g, g ∈ p_grants p' → q_Subject g ≠ subject) ∧
          ∀ id b, p_bindings p' !! id = Some b → binding_subject b ≠ subject) as (W' & Hg & Hb).
  { pose proof (RevokeSubject_outcome p now saved subject) as Ho.
    assert (policy_wf p') as W'.
    { destruct Ho as [[Ho _]|[_ [Ho|Ho]]]; [by rewrite Hok in Ho|by eapply policy_same_wf|by eapply committed_wf]. }
    split; [done|]. clear Ho W'. unfold p', RevokeSubject in *. destruct (NodeID_Validate subject); [|done].
    destruct (bool_decide (filter _ (p_grants p) ≠ _)) eqn:E1, (bool_decide (filter _ (p_bindings p) ≠ _)) eqn:E2; simpl in *.
    1-3: match goal with |- context [commitLocked ?a ?b ?c ?d ?e ?f] =>
           pose proof (commitLocked_committed a b c d e f) as Hc end; rewrite Hok in Hc; inversion Hc as [|? ? ? ? Eg ? Eb];
         rewrite Eg, Eb; split; [set_solver|intros id b]; rewrite map_lookup_filter_Some; tauto.
    apply bool_decide_eq_false_1, dec_stable in E1. apply bool_decide_eq_false_1, dec_stable in E2.
    rewrite <- E1, <- E2. split; [set_solver|]. intros id b. rewrite map_lookup_filter_Some. tauto. }
  destruct (PolicyState_Authorize p' now' q) as [[]|e] eqn:E.
  - apply Authorize_permitted in E as (r & Hr & Hp); [|done]. apply normalizeRequest_ok in Hr as (_ & Hs & _).
    destruct Hp as [Hp|(b & ep & d & rule & Hp)]; [by destruct (Hg _ Hp); congruence|].
    destruct Hp as (Hb1 & Hb2 & _). destruct (Hb _ _ Hb1). congruence.
  - revert E. unfold PolicyState_Authorize. destruct (Evaluate p' now' q) as [ev|]; [|by intros [= <-]].
    destruct (pe_Allowed ev); by intros [= <-].
Qed.

(** ** Restarting *)

Lemma load_bindings_list now d l acc pruned :
  Forall (λ x, Binding_Validate x = Ok tt ∧ is_Some (d !! b_DefinitionID x)) l → NoDup (b_BindingID <$> l) →
  (∀ x, x ∈ l → acc !! b_BindingID x = None) →
  load_bindings now d acc pruned l =
    Ok (list_to_map ((λ x, (b_BindingID x, x)) <$> filter (λ x, binding_expired now x = false) l) ∪ acc,
        pruned || existsb (binding_expired now) l).
Proof.
  revert acc pruned. induction l as [|x l IH]; intros acc pruned Hn Hd Ha; simpl.
  { rewrite orb_false_r. do 2 f_equal. by rewrite (left_id_L ∅ (∪)). }
  apply Forall_cons in Hn as [[Hx Hx'] Hn]. apply NoDup_cons in Hd as [Hxl Hd]. rewrite Hx. simpl.
  rewrite bool_decide_eq_true_2 by done. simpl. rewrite bool_decide_eq_false_2 by (rewrite Ha by left; by intros []).
  rewrite filter_cons. destruct (binding_expired now x) eqn:E.
  - rewrite decide_False by done. rewrite IH; [by rewrite orb_true_r|done|done|]. intros y Hy. apply Ha. by right.
  - rewrite decide_True by done. rewrite IH; [|done|done|].
    + do 2 f_equal. simpl. rewrite <- insert_union_l, insert_union_r; [done|]. apply not_elem_of_list_to_map_1.
      rewrite <- list_fmap_compose. intros (y & Heq & Hy)%list_elem_of_fmap. apply list_elem_of_filter in Hy as [_ Hy].
      apply Hxl. simpl in Heq. rewrite Heq. by apply (list_elem_of_fmap_2 b_BindingID).
    + intros y Hy. rewrite lookup_insert_ne; [apply Ha; by right|]. intros Heq. apply Hxl. rewrite Heq.
      by apply (list_elem_of_fmap_2 b_BindingID).
Qed.

Lemma NoDup_key_filter {A} (key : A → string) (P : A → Prop) `{∀ x, Decision (P x)} l :
  NoDup (key <$> l) → NoDup (key <$> filter P l).
Proof.
  induction l as [|x l IH]; [done|]. intros [Hx Hl]%NoDup_cons. rewrite filter_cons. case_decide; [|by apply IH].
  apply NoDup_cons. split; [|by apply IH]. intros (y & Hy & Hin)%list_elem_of_fmap. apply Hx. rewrite Hy.
  apply list_elem_of_filter in Hin as [_ Hin]. by apply list_elem_of_fmap_2.
Qed.

(** The records of a map filed under their own identifiers, in any order, determine it. *)
Lemma keyed_records {A} (key : A → string) (m : gmap string A) l :
  (∀ id x, m !! id = Some x → key x = id) → l ≡ₚ (map_to_list m).*2 →
  (∀ x, x ∈ l ↔ m !! key x = Some x) ∧ NoDup (key <$> l).
Proof.
  intros H Hl.
  assert (∀ x, x ∈ l ↔ m !! key x = Some x) as Hin.
  { intros x. rewrite Hl, list_elem_of_fmap. split.
    - intros ([id y] & -> & Hy). apply elem_of_map_to_list in Hy. simpl. by rewrite (H _ _ Hy).
    - intros Hx. exists (key x, x). by rewrite elem_of_map_to_list. }
  split; [done|]. rewrite Hl.
  assert (key <$> (map_to_list m).*2 = (map_to_list m).*1) as ->; [|apply NoDup_fst_map_to_list].
  rewrite <- list_fmap_compose. apply list_fmap_ext. intros i [id x] Hi. simpl.
  apply H, elem_of_map_to_list. by eapply list_elem_of_lookup_2.
Qed.

Lemma keyed_to_map {A} (key : A → string) (m : gmap string A) l (P : A → Prop) `{∀ x, Decision (P x)} :
  (∀ id x, m !! id = Some x → key x = id) → l ≡ₚ (map_to_list m).*2 →
  list_to_map ((λ x, (key x, x)) <$> filter P l) = (filter (λ '(_, x), P x) m : gmap string A).
Proof.
  intros Hk Hl. destruct (keyed_records key m l Hk Hl) as [Hin Hnd].
  apply map_eq. intros id. apply option_eq. intros x. rewrite map_lookup_filter_Some, <- elem_of_list_to_map.
  2:{ rewrite <- list_fmap_compose. by apply (NoDup_key_filter key). }
  rewrite list_elem_of_fmap. split.
  - intros (y & [= -> ->] & Hy). apply list_elem_of_filter in Hy as [Hp Hy]. by apply Hin in Hy.
  - intros [Hx Hp]. exists x. rewrite list_elem_of_filter, Hin, (Hk _ _ Hx). done.
Qed.

Lemma keyed_to_map_all {A} (key : A → string) (m : gmap string A) l :
  (∀ id x, m !! id = Some x → key x = id) → l ≡ₚ (map_to_list m).*2 → list_to_map ((λ x, (key x, x)) <$> l) = m.
Proof.
  intros Hk Hl. pose proof (keyed_to_map key m l (λ _, True) Hk Hl) as H.
  assert (filter (λ _ : A, True) l = l) as Hf.
  { clear. induction l as [|x l IH]; [done|]. rewrite filter_cons, decide_True by done. by rewrite IH. }
  rewrite Hf in H. rewrite H. apply map_filter_id. by intros.
Qed.

Definition live_bindings (now : Z) (m : gmap string PolicyBindingV1) : gmap string PolicyBindingV1 :=
  filter (λ '(_, b), binding_expired now b = false) m.

(** A current file whose parts load, loads. *)
Lemma load_current f now g d b pruned :
  ps_Version f = policyStateVersion → 1 ≤ ps_Generation f < MaxCollectionRevision →
  Z.of_nat (length (ps_Grants f)) ≤ MaxItems → Z.of_nat (length (ps_Definitions f)) ≤ MaxItems →
  Z.of_nat (length (ps_Bindings f)) ≤ MaxItems →
  load_grants ∅ (ps_Grants f) = Ok g → load_definitions ∅ (ps_Definitions f) = Ok d →
  d !! BuiltinPolicySuperadmin = Some builtinSuperadminDefinition →
  load_bindings now d ∅ false (ps_Bindings f) = Ok (b, pruned) →
  ∃ p', LoadPolicyState (Some (Some f)) now true = Ok p' ∧ p_grants p' = g ∧ p_definitions p' = d ∧ p_bindings p' = b.
Proof.
  intros Hv Hg L1 L2 L3 Eg Ed Es Eb. unfold LoadPolicyState. cbn [default from_option id].
  rewrite bool_decide_eq_true_2 by eauto.
  destruct (Z.eqb_spec (ps_Generation f) 0); [lia|]. destruct (Z.ltb_spec MaxCollectionRevision (ps_Generation f)); [lia|].
  repeat match goal with |- context [MaxItems <? ?x] => destruct (Z.ltb_spec MaxItems x); [lia|] end.
  unfold migrate. rewrite Hv. change (policyStateVersion =? legacyPolicyStateVersion) with false.
  change (policyStateVersion =? policyStateVersion) with true. cbn. rewrite Eg. cbn. rewrite Ed. cbn. rewrite Es.
  change (sameDefinition builtinSuperadminDefinition builtinSuperadminDefinition) with true. cbn. rewrite Eb. cbn.
  destruct (Z.leb_spec MaxCollectionRevision (ps_Generation f)); [lia|]. rewrite andb_false_r.
  destruct pruned; cbn; eexists; done.
Qed.

Lemma snapshot_loads p now :
  policy_wf p → p_generation p < MaxCollectionRevision →
  ∃ p', LoadPolicyState (Some (Some (snapshotLocked p))) now true = Ok p' ∧
        p_grants p' = p_grants p ∧ p_definitions p' = p_definitions p ∧ p_bindings p' = live_bindings now (p_bindings p).
Proof.
  intros [Hg [G1 G2 D1 D2 D3 B1 B2] Hi] Hlt.
  assert (requestsFromGrants (p_grants p) ≡ₚ elements (p_grants p)) as Pg by apply SortSlice_perm.
  assert (definitionsFromMap (p_definitions p) ≡ₚ (map_to_list (p_definitions p)).*2) as Pd by apply SortSlice_perm.
  assert (bindingsFromMap (p_bindings p) ≡ₚ (map_to_list (p_bindings p)).*2) as Pb by apply SortSlice_perm.
  destruct (keyed_records pd_ID (p_definitions p) _ (λ id x H, proj1 (D1 id x H)) Pd) as [Hd1 Hd2].
  destruct (keyed_records b_BindingID (p_bindings p) _ (λ id x H, proj1 (B1 id x H)) Pb) as [Hb1 Hb2].
  eapply load_current; try done; cbn [snapshotLocked ps_Generation ps_Grants ps_Definitions ps_Bindings].
  - lia.
  - rewrite Pg. done.
  - by rewrite Pd, length_fmap, length_map_to_list.
  - by rewrite Pb, length_fmap, length_map_to_list.
  - rewrite load_grants_list; [|apply Forall_forall; intros x Hx; apply G1; by rewrite Pg, elem_of_elements in Hx
                              |rewrite Pg; apply NoDup_elements|set_solver].
    f_equal. rewrite (right_id_L ∅ (∪)). apply set_eq. intros x. rewrite elem_of_list_to_set, Pg. apply elem_of_elements.
  - rewrite load_definitions_list; [|apply Forall_forall; intros x Hx; apply Hd1 in Hx; by apply (D1 _ _ Hx)|done|done].
    rewrite (right_id_L ∅ (∪)). f_equal. apply keyed_to_map_all; [by intros; apply D1|done].
  - rewrite load_bindings_list; [|apply Forall_forall; intros x Hx; apply Hb1 in Hx; by destruct (B1 _ _ Hx) as (_ & ? & ?)|done|done].
    rewrite (right_id_L ∅ (∪)). do 2 f_equal. apply (keyed_to_map b_BindingID); [by intros; apply B1|done].
Qed.

Definition live_id (now : Z) (m : gmap string PolicyBindingV1) (id : string) : bool :=
  match m !! id with Some b => negb (binding_expired now b) | None => false end.

Lemma subject_ids_live now m s :
  subject_ids (live_bindings now m) s = filter (λ id, live_id now m id = true) (subject_ids m s).
Proof.
  apply (StronglySorted_unique_strong (λ x y, str_leb x y = true)).
  - intros x y _ _ Hxy Hyx. unfold str_leb in *. bool_prop. by apply str_ltb_total.
  - apply subject_ids_sorted.
  - apply StronglySorted_filter, subject_ids_sorted.
  - apply NoDup_Permutation; [apply NoDup_subject_ids|apply NoDup_filter, NoDup_subject_ids|].
    intros id. rewrite list_elem_of_filter, !elem_of_subject_ids. unfold live_bindings.
    setoid_rewrite map_lookup_filter_Some. split.
    + intros (b & [Hb Hl] & Hs). unfold live_id. rewrite Hb, Hl. eauto.
    + intros [Hl (b & Hb & Hs)]. unfold live_id in Hl. rewrite Hb in Hl. bool_prop. eauto.
Qed.

Definition with_resolver (p : PolicyState) (resolver : OwnerScopeResolver) : PolicyState :=
  mkPolicyState (p_generation p) (p_grants p) (p_definitions p) (p_bindings p) (p_bySubject p) (p_disk p)
    (Some resolver) (p_nextWatch p) (p_watchers p) (p_expiryTimer p) (p_closed p).

(** Skipping the expired bindings does not change a decision. *)
Lemma evaluate_bindings_live p p' now request bs :
  p_definitions p' = p_definitions p → p_resolver p' = p_resolver p →
  match evaluate_bindings p' now request (filter (λ b, binding_expired now b = false) bs), evaluate_bindings p now request bs with
  | Ok e', Ok e => pe_Allowed e' = pe_Allowed e
  | Err _, Err _ => True
  | _, _ => False
  end.
Proof.
  intros Hd Hr. induction bs as [|b bs IH]; [done|]. rewrite filter_cons. simpl.
  destruct (binding_expired now b) eqn:E; [by rewrite decide_False by done|].
  rewrite decide_True by done. simpl. rewrite E, Hr, Hd. destruct (p_resolver p); [|done].
  destruct (o _ _) as [[[] epoch]|]; simpl; [|done|done]. by destruct (match_rules _ _ _ _).
Qed.

Lemma restart_decisions p p' now resolver q :
  policy_wf p → policy_wf p' → p_grants p' = p_grants p → p_definitions p' = p_definitions p →
  p_bindings p' = live_bindings now (p_bindings p) →
  PolicyState_Authorize (with_resolver p' resolver) now q = PolicyState_Authorize (with_resolver p resolver) now q.
Proof.
  intros W W' Hg Hd Hb. unfold PolicyState_Authorize, Evaluate. destruct (normalizeRequest q) as [r|]; [|done]. simpl.
  rewrite Hg. case_bool_decide; [done|].
  assert (subject_bindings (with_resolver p' resolver) (q_Subject r) =
          filter (λ b, binding_expired now b = false) (subject_bindings (with_resolver p resolver) (q_Subject r))) as ->.
  { unfold subject_bindings. simpl. rewrite (pw_index p W), (pw_index p' W'), Hb.
    fold (subject_ids (live_bindings now (p_bindings p)) (q_Subject r)). fold (subject_ids (p_bindings p) (q_Subject r)).
    rewrite subject_ids_live.
    assert (∀ id, id ∈ subject_ids (p_bindings p) (q_Subject r) → is_Some (p_bindings p !! id)) as Hin.
    { intros id Hid. apply elem_of_subject_ids in Hid as (b & -> & _). eauto. }
    induction (subject_ids (p_bindings p) (q_Subject r)) as [|id ids IH]; [done|].
    destruct (Hin id) as [b Eb]; [by left|]. rewrite filter_cons, fmap_cons, filter_cons, Eb. simpl.
    assert (live_id now (p_bindings p) id = negb (binding_expired now b)) as Hid by (unfold live_id; by rewrite Eb).
    destruct (binding_expired now b) eqn:El; simpl in *.
    - rewrite !decide_False by congruence. apply IH. set_solver.
    - rewrite !decide_True by congruence. simpl. f_equal; [|apply IH; set_solver].
      unfold live_bindings. by rewrite (proj2 (map_lookup_filter_Some _ _ _ b)). }
  pose proof (evaluate_bindings_live (with_resolver p resolver) (with_resolver p' resolver) now r
    (subject_bindings (with_resolver p resolver) (q_Subject r)) Hd eq_refl) as He.
  destruct (evaluate_bindings (with_resolver p' resolver) _ _ _), (evaluate_bindings (with_resolver p resolver) _ _ _); try done.
  by rewrite He.
Qed.

(** Restarting does not change a decision: the file written by the last commit loads, with
    the same grants and definitions and with the bindings that have not expired, and every
    request is then decided as before the restart. *)
Theorem policy_restart p now :
  policy_reachable p → p_generation p < MaxCollectionRevision →
  ∃ p', LoadPolicyState (Some (Some (snapshotLocked p))) now true = Ok p' ∧
        p_grants p' = p_grants p ∧ p_definitions p' = p_definitions p ∧ p_bindings p' = live_bindings now (p_bindings p) ∧
        ∀ resolver q, PolicyState_Authorize (with_resolver p' resolver) now q = PolicyState_Authorize (with_resolver p resolver) now q.
Proof.
  intros W%policy_reachable_wf Hlt. destruct (snapshot_loads p now W Hlt) as (p' & H1 & H2 & H3 & H4).
  assert (policy_wf p') as W'.
  { eapply LoadPolicyState_wf; [|exact H1]. simpl. pose proof (pw_generation p W). unfold is_u64, maxUint64, MaxCollectionRevision in *. lia. }
  exists p'. split_and!; try done. intros. by apply restart_decisions.
Qed.

(** ** Definitions are replaced by compare-and-set *)

(** No lost update of a definition: a successful [PutDefinition] stored the new rules as
    the successor of exactly the revision its author had seen (or as revision 1 of a new
    definition), never over an immutable one, and a second put with the same expectation is
    then refused as a conflict. *)
Theorem PutDefinition_cas p now saved request p' d :
  PutDefinition p now saved request = (p', Ok d) →
  pd_Revision d = put_ExpectedRevision request + 1 ∧ pd_Immutable d = false ∧
  p_definitions p' = <[put_ID request := d]> (p_definitions p) ∧
  match p_definitions p !! put_ID request with
  | None => put_ExpectedRevision request = 0
  | Some existing => pd_Revision existing = put_ExpectedRevision request ∧ pd_Immutable existing = false
  end ∧
  ∀ now' saved' request', put_ID request' = put_ID request →
    put_ExpectedRevision request' = put_ExpectedRevision request → DefinitionPut_Validate request' = Ok tt →
    (PutDefinition p' now' saved' request').2 = Err ErrPolicyConflict.
Proof.
  intros H. unfold PutDefinition in H. destruct (DefinitionPut_Validate request); [|done].
  destruct (check_put p request) as [[]|] eqn:Ec; [|done]. destruct (Definition_Validate _); [|done].
  pose proof (commitLocked_committed p now saved (p_grants p)
    (<[pd_ID (put_definition p request) := put_definition p request]> (p_definitions p)) (p_bindings p)) as Hc.
  destruct (commitLocked _ _ _ _ _ _) as [p1 r]. simpl in Hc. injection H as <- Hr. destruct r as [[]|]; [|done].
  simpl in Hr. injection Hr as <-. inversion Hc as [|? _ _ _ _ Hd _ _ _ _]. subst. simpl in Hd.
  assert (match p_definitions p !! put_ID request with
          | None => put_ExpectedRevision request = 0
          | Some existing => pd_Revision existing = put_ExpectedRevision request ∧ pd_Immutable existing = false
          end ∧ pd_Revision (put_definition p request) = put_ExpectedRevision request + 1) as [He Hr].
  { unfold check_put in Ec. unfold put_definition. destruct (Z.eqb_spec (put_ExpectedRevision request) 0) as [E0|E0].
    - destruct (p_definitions p !! put_ID request) eqn:Ed; [by rewrite bool_decide_eq_true_2 in Ec by eauto|]. simpl. by rewrite E0.
    - destruct (p_definitions p !! put_ID request) as [x|] eqn:Ed; [|done]. guards Ec. bool_prop. simpl. split; [done|lia]. }
  split_and!; try done. intros now' saved' request' Hid Hexp Hv. unfold PutDefinition. rewrite Hv.
  assert (check_put p1 request' = Err ErrPolicyConflict) as ->; [|done].
  unfold check_put. rewrite Hid, Hexp, Hd, lookup_insert_eq. simpl pd_Immutable. cbv iota. rewrite Hr.
  destruct (Z.eqb_spec (put_ExpectedRevision request) 0); [by rewrite bool_decide_eq_true_2 by eauto|].
  destruct (Z.eqb_spec (put_ExpectedRevision request + 1) (put_ExpectedRevision request)); [lia|done].
Qed.

(** ** The expiry timer *)

Definition demo_scope : PolicyOwnerScopeV1 := mkScope PolicyScopeOwner "7".
Definition demo_create : PolicyBindingCreateV1 :=
  mkBindingCreate 1 "0123456789abcdef0123456789abcdef" "5" BuiltinPolicySuperadmin demo_scope 2000.
Definition demo_grant : Request := mkRequest 6 "read" "read" (mkResourceID 7 "metrics/cpu").
Definition demo_resolver : OwnerScopeResolver := λ scope owner,
  Some (String.eqb (sc_Kind scope) PolicyScopeOwner && ((ParseUint (sc_NodeID scope)).1 =? owner), 1).

Definition demo_fresh : PolicyState :=
  match LoadPolicyState (Some None) 1000 true with
  | Ok p => p
  | Err _ => mkPolicyState 0 ∅ ∅ ∅ ∅ None None 0 ∅ None false
  end.
Definition demo_bound : PolicyState :=
  (policy_exec (policy_exec demo_fresh 1000 true (OpBindResolver demo_resolver)).1 1000 true (OpCreateBinding demo_create 1)).1.
Definition demo_late : PolicyState := (policy_exec demo_bound 2000 true (OpGrant demo_grant)).1.

Lemma policy_demo_reachable : policy_reachable demo_fresh ∧ policy_reachable demo_bound ∧ policy_reachable demo_late.
Proof.
  assert (policy_reachable demo_fresh) as H1.
  { apply (pr_load (Some None) 1000 true); [exact I|]. vm_compute. reflexivity. }
  assert (policy_reachable demo_bound) as H2.
  { eapply pr_step; [eapply pr_step; [exact H1|apply surjective_pairing]|apply surjective_pairing]. }
  split_and!; [done|done|]. eapply pr_step; [exact H2|apply surjective_pairing].
Qed.

(** A commit at the moment a binding expires, before the timer's callback has run, disarms
    the timer: the expired binding stays in the store and no timer is left to remove it and
    notify the observers. *)
Theorem expired_binding_unscheduled :
  policy_reachable demo_bound ∧ p_expiryTimer demo_bound = Some 2000 ∧
  policy_exec demo_bound 2000 true (OpGrant demo_grant) = (demo_late, true) ∧
  (∃ id b, p_bindings demo_late !! id = Some b ∧ binding_expired 2000 b = true) ∧ p_expiryTimer demo_late = None.
Proof.
  split; [apply policy_demo_reachable|]. split; [vm_compute; reflexivity|]. split; [vm_compute; reflexivity|].
  split; [|vm_compute; reflexivity].
  exists (bc_BindingID demo_create), (new_binding demo_create 1 1000). split; vm_compute; reflexivity.
Qed.

(** ** Witnesses *)

Lemma policy_invariant_witness : policy_wf demo_late.
Proof. apply (policy_invariant demo_late). apply policy_demo_reachable. Defined.


(** The superadmin binding covers the resources of node 7 only. *)
Definition demo_request (owner : NodeID) : Request := mkRequest 5 "write" "" (mkResourceID owner "config/x").

Lemma Authorize_correct_witness :
  PolicyState_Authorize demo_bound 1500 (demo_request 7) = Ok tt ∧
  PolicyState_Authorize demo_bound 1500 (demo_request 8) = Err ErrForbidden ∧
  PolicyState_Authorize demo_bound 2000 (demo_request 7) = Err ErrForbidden.
Proof.
  destruct (Authorize_correct demo_bound 1500 (demo_request 7) (proj1 (proj2 policy_demo_reachable))) as (_ & _ & H).
  split; [|split; vm_compute; reflexivity].
  apply (H (mkRequest 5 "write" "write" (mkResourceID 7 "config/x"))); [vm_compute; reflexivity| |].
  - intros id b _ _ _. exists demo_resolver. split; [vm_compute; reflexivity|done].
  - right. exists (new_binding demo_create 1 1000), 1, builtinSuperadminDefinition,
      (mkRule (mkResourceSelector PolicySelectorAll "") (mkCapabilitySelector PolicySelectorAll [])).
    split_and!; try (vm_compute; reflexivity).
    + exists demo_resolver. split; vm_compute; reflexivity.
    + apply list_elem_of_here.
    + split; left; reflexivity.
Defined.

Lemma RevokeSubject_effective_witness :
  PolicyState_Authorize demo_bound 1500 (demo_request 7) = Ok tt ∧
  PolicyState_Authorize (RevokeSubject demo_bound 1600 true 5).1 1700 (demo_request 7) = Err ErrForbidden.
Proof.
  split; [vm_compute; reflexivity|].
  apply (RevokeSubject_effective demo_bound 1600 true 5 1700); [apply policy_demo_reachable|vm_compute; reflexivity|reflexivity].
Defined.

Lemma policy_restart_witness :
  ∃ p', LoadPolicyState (Some (p_disk demo_bound)) 1500 true = Ok p' ∧
        PolicyState_Authorize (with_resolver p' demo_resolver) 1500 (demo_request 7) = Ok tt.
Proof.
  destruct (policy_restart demo_bound 1500) as (p' & H1 & _ & _ & _ & H2);
    [apply policy_demo_reachable|vm_compute; reflexivity|].
  exists p'. split; [rewrite <- H1; vm_compute; reflexivity|]. rewrite H2. vm_compute. reflexivity.
Defined.

Definition demo_put (expected : Z) : PolicyDefinitionPutV1 :=
  mkDefinitionPut 1 "ops" "Operators" expected
    [mkRule (mkResourceSelector PolicySelectorPrefix "metrics") (mkCapabilitySelector PolicySelectorExact ["read"; "subscribe"])].
Definition demo_defined : PolicyState := (PutDefinition demo_bound 1500 true (demo_put 0)).1.

Lemma PutDefinition_cas_witness :
  (PutDefinition demo_defined 1500 true (demo_put 0)).2 = Err ErrPolicyConflict.
Proof.
  destruct (PutDefinition_cas demo_bound 1500 true (demo_put 0) demo_defined
    (mkPolicyDefinition 1 "ops" "Operators" 1 false (put_Rules (demo_put 0)))) as (_ & _ & _ & _ & H).
  - vm_compute. reflexivity.
  - apply H; vm_compute; reflexivity.
Defined.
