(* ===== verification/Delivery.v ===== *)
(** * Bounded delivery to one subscriber (runtime/subscription/delivery.go)

    The [delivery] record is the queue a subscription owns; its methods lock the record for
    their whole body and signal the [wake] channel at the end, so each is one step.  The
    goroutine of [start] is the small machine [loop]: it waits for the wake token, takes the
    next event, and offers it to the reader on the unbuffered channel [out]; a step of the
    machine is one of its channel operations.  Cloned events are equal values, so
    [cloneEvent] is the identity here. *)

From S2P Require Import Prelude GoStd Wire.
Open Scope Z_scope.

Inductive EventKind := EventSnapshot | EventData | EventGap | EventExpired | EventFailure.
#[global] Instance EventKind_eq_dec : EqDecision EventKind.
Proof. solve_decision. Defined.

Record Event := mkEvent {
  ev_Kind : EventKind;
  ev_Resource : ResourceID;
  ev_Capability : CapabilityID;
  ev_Schema : string;
  ev_Revision : Z;
  ev_Sequence : Z;
  ev_Publisher : NodeID;
  ev_PublisherSequence : Z;
  ev_GapFrom : Z;
  ev_GapTo : Z;
  ev_Value : list byte;
  ev_Reason : string;
  ev_Failure : option ErrorPayload
}.
#[global] Instance Event_eq_dec : EqDecision Event.
Proof. solve_decision. Defined.

Definition gapEvent (r : ResourceID) (from to : Z) (reason : string) : Event :=
  mkEvent EventGap r "" "" 0 0 0 0 from to [] reason None.
Definition expiredEvent (r : ResourceID) (reason : string) : Event :=
  mkEvent EventExpired r "" "" 0 0 0 0 0 0 [] reason None.

(** ** The queue *)

Record delivery := mkDelivery {
  d_resource : ResourceID;
  d_capacity : Z;
  d_pending : list Event;
  d_latestVariable : option Event;
  d_gapFrom : Z;
  d_gapTo : Z;
  d_gapReason : string;
  d_lastStream : Z;
  d_deferredStream : option Event;
  d_terminal : option Event;
  d_failed : bool;           (* also: [failureReady] is closed *)
  d_cancelled : bool;        (* [ctx.Err() != nil] *)
  d_wake : bool              (* the token in the [wake] channel *)
}.

Definition newDelivery (resource : ResourceID) (queue : Z) : delivery :=
  mkDelivery resource queue [] None 0 0 "" 0 None None false false false.

Definition set_pending (d : delivery) (pending : list Event) : delivery :=
  mkDelivery (d_resource d) (d_capacity d) pending (d_latestVariable d) (d_gapFrom d) (d_gapTo d)
    (d_gapReason d) (d_lastStream d) (d_deferredStream d) (d_terminal d) (d_failed d) (d_cancelled d) (d_wake d).
Definition set_latest (d : delivery) (latest : option Event) : delivery :=
  mkDelivery (d_resource d) (d_capacity d) (d_pending d) latest (d_gapFrom d) (d_gapTo d)
    (d_gapReason d) (d_lastStream d) (d_deferredStream d) (d_terminal d) (d_failed d) (d_cancelled d) (d_wake d).
Definition set_gap (d : delivery) (from to : Z) (reason : string) : delivery :=
  mkDelivery (d_resource d) (d_capacity d) (d_pending d) (d_latestVariable d) from to
    reason (d_lastStream d) (d_deferredStream d) (d_terminal d) (d_failed d) (d_cancelled d) (d_wake d).
Definition set_last (d : delivery) (last : Z) : delivery :=
  mkDelivery (d_resource d) (d_capacity d) (d_pending d) (d_latestVariable d) (d_gapFrom d) (d_gapTo d)
    (d_gapReason d) last (d_deferredStream d) (d_terminal d) (d_failed d) (d_cancelled d) (d_wake d).
Definition set_deferred (d : delivery) (deferred : option Event) : delivery :=
  mkDelivery (d_resource d) (d_capacity d) (d_pending d) (d_latestVariable d) (d_gapFrom d) (d_gapTo d)
    (d_gapReason d) (d_lastStream d) deferred (d_terminal d) (d_failed d) (d_cancelled d) (d_wake d).
Definition set_terminal (d : delivery) (terminal : option Event) : delivery :=
  mkDelivery (d_resource d) (d_capacity d) (d_pending d) (d_latestVariable d) (d_gapFrom d) (d_gapTo d)
    (d_gapReason d) (d_lastStream d) (d_deferredStream d) terminal (d_failed d) (d_cancelled d) (d_wake d).
Definition set_failed (d : delivery) : delivery :=
  mkDelivery (d_resource d) (d_capacity d) (d_pending d) (d_latestVariable d) (d_gapFrom d) (d_gapTo d)
    (d_gapReason d) (d_lastStream d) (d_deferredStream d) (d_terminal d) true (d_cancelled d) (d_wake d).
Definition set_cancelled (d : delivery) : delivery :=
  mkDelivery (d_resource d) (d_capacity d) (d_pending d) (d_latestVariable d) (d_gapFrom d) (d_gapTo d)
    (d_gapReason d) (d_lastStream d) (d_deferredStream d) (d_terminal d) (d_failed d) true (d_wake d).
Definition set_wake (d : delivery) (wake : bool) : delivery :=
  mkDelivery (d_resource d) (d_capacity d) (d_pending d) (d_latestVariable d) (d_gapFrom d) (d_gapTo d)
    (d_gapReason d) (d_lastStream d) (d_deferredStream d) (d_terminal d) (d_failed d) (d_cancelled d) wake.

(** [signal]: a token if the buffered channel has none. *)
Definition signal (d : delivery) : delivery := set_wake d true.

(** [next]: the event, whether it is terminal, and the queue left.  The branches are tried in
    the order of the source. *)
Definition next (d : delivery) : option (Event * bool * delivery) :=
  match (if d_failed d then d_terminal d else None) with
  | Some event => Some (event, true, set_terminal d None)
  | None =>
    match (if d_gapFrom d =? 0 then d_deferredStream d else None) with
    | Some event => Some (event, false, set_deferred d None)
    | None =>
      match d_pending d with
      | event :: rest => Some (event, false, set_pending d rest)
      | [] =>
        if negb (d_gapFrom d =? 0)
        then Some (gapEvent (d_resource d) (d_gapFrom d) (d_gapTo d) (d_gapReason d), false, set_gap d 0 0 "")
        else match d_latestVariable d with
             | Some event => Some (event, false, set_latest d None)
             | None =>
               match d_terminal d with
               | Some event => Some (event, true, set_terminal d None)
               | None => None
               end
             end
      end
    end
  end.

(** The guard shared by the enqueuing methods. *)
Definition closed_for_input (d : delivery) : bool := d_failed d || d_cancelled d.

Definition enqueueSnapshot (d : delivery) (event : Event) : delivery :=
  if closed_for_input d then d else signal (set_pending d (d_pending d ++ [event])).

Definition enqueueVariable (d : delivery) (event : Event) : delivery :=
  if closed_for_input d then d else signal (set_latest d (Some event)).

Definition enqueueStream (d : delivery) (event : Event) : delivery :=
  if closed_for_input d then d else
  let seq := ev_Sequence event in
  let d :=
    if negb (d_lastStream d =? 0) && (u64 (d_lastStream d + 1) <? seq) && (d_gapFrom d =? 0) then
      set_last (set_deferred (set_gap d (u64 (d_lastStream d + 1)) (u64 (seq - 1)) "source_gap") (Some event)) seq
    else if negb (d_gapFrom d =? 0) then
      set_last (set_deferred (set_gap d (d_gapFrom d) seq (d_gapReason d)) None) seq
    else if d_capacity d <=? Z.of_nat (length (d_pending d)) then
      set_last (set_gap d seq seq "slow_consumer") seq
    else set_last (set_pending d (d_pending d ++ [event])) seq in
  signal d.

Definition expire (d : delivery) (reason : string) : delivery :=
  if closed_for_input d then d else
  signal (match d_terminal d with
          | None => set_terminal d (Some (expiredEvent (d_resource d) reason))
          | Some _ => d
          end).

Definition fail (d : delivery) (event : Event) : delivery :=
  if closed_for_input d then d else
  signal (set_terminal (set_gap (set_deferred (set_latest (set_pending (set_failed d) []) None) None) 0 0 "")
            (Some event)).

Definition stop (d : delivery) : delivery := set_cancelled d.

(** ** The delivering goroutine *)

Inductive loop :=
| Running                                  (* about to call [next] *)
| Waiting                                  (* in the first select: wake or ctx.Done *)
| Holding (event : Event) (terminal : bool) (* in the last select: out, ctx.Done or failureReady *)
| Stopped.                                 (* returned: [d.cancel], [onDone], [close(d.out)] ran *)

Record machine := mkMachine { m_queue : delivery; m_loop : loop; m_out : list Event }.

Definition start (resource : ResourceID) (queue : Z) : machine :=
  mkMachine (newDelivery resource queue) Running [].

Inductive label :=
| LSnapshot (e : Event) | LVariable (e : Event) | LStream (e : Event)
| LExpire (reason : string) | LFail (e : Event) | LStop
| LNext       (* the goroutine calls [next] *)
| LWake       (* it receives the wake token *)
| LSend       (* the reader receives the held event *)
| LInterrupt  (* [failureReady] interrupts a held event *)
| LDone.      (* [ctx.Done] *)

Definition with_queue (m : machine) (d : delivery) : machine := mkMachine d (m_loop m) (m_out m).

(** One step; [None] when the step is not possible in the state. *)
Definition mstep (m : machine) (l : label) : option machine :=
  let d := m_queue m in
  match l with
  | LSnapshot e => Some (with_queue m (enqueueSnapshot d e))
  | LVariable e => Some (with_queue m (enqueueVariable d e))
  | LStream e => Some (with_queue m (enqueueStream d e))
  | LExpire reason => Some (with_queue m (expire d reason))
  | LFail e => Some (with_queue m (fail d e))
  | LStop => Some (with_queue m (stop d))
  | LNext =>
    match m_loop m with
    | Running =>
      match next d with
      | None => Some (mkMachine d Waiting (m_out m))
      | Some (e, terminal, d') =>
        (* a failure that arrived drops a value that is not terminal *)
        if negb terminal && d_failed d' then Some (mkMachine d' Running (m_out m))
        else Some (mkMachine d' (Holding e terminal) (m_out m))
      end
    | _ => None
    end
  | LWake =>
    match m_loop m with
    | Waiting => if d_wake d then Some (mkMachine (set_wake d false) Running (m_out m)) else None
    | _ => None
    end
  | LSend =>
    match m_loop m with
    | Holding e terminal =>
      Some (if terminal then mkMachine (set_cancelled d) Stopped (m_out m ++ [e])
            else mkMachine d Running (m_out m ++ [e]))
    | _ => None
    end
  | LInterrupt =>
    match m_loop m with
    | Holding e terminal => if negb terminal && d_failed d then Some (mkMachine d Running (m_out m)) else None
    | _ => None
    end
  | LDone =>
    if d_cancelled d then
      match m_loop m with
      | Waiting => Some (mkMachine d Stopped (m_out m))
      | Holding _ _ => Some (mkMachine d Stopped (m_out m))
      | _ => None
      end
    else None
  end.

Fixpoint mrun (m : machine) (ls : list label) : option machine :=
  match ls with
  | [] => Some m
  | l :: rest => m' ← mstep m l; mrun m' rest
  end.

(** States reached from [start]. *)
Definition machine_reachable (m : machine) : Prop :=
  ∃ resource queue ls, mrun (start resource queue) ls = Some m.

Lemma mrun_app m ls ls' : mrun m (ls ++ ls') = m' ← mrun m ls; mrun m' ls'.
Proof.
  revert m. induction ls as [|l ls IH]; intros m; [done|]. simpl.
  destruct (mstep m l); simpl; [apply IH|done].
Qed.

(** Induction over the steps of a run. *)
Lemma mrun_ind (P : machine → Prop) (Q : machine → label → Prop) :
  (∀ m l m', P m → Q m l → mstep m l = Some m' → P m') →
  ∀ ls m m', P m → (∀ ls1 l ls2 m1, ls = ls1 ++ l :: ls2 → mrun m ls1 = Some m1 → Q m1 l) →
  mrun m ls = Some m' → P m'.
Proof.
  intros Hstep. induction ls as [|l ls IH]; intros m m' HP HQ Hr; simpl in Hr; [by simplify_eq|].
  destruct (mstep m l) as [m1|] eqn:E; [|done]. simpl in Hr.
  apply (IH m1); [|..|done].
  - eapply Hstep; [done| |done]. by apply (HQ [] l ls m).
  - intros ls1 l' ls2 m2 -> Hm. apply (HQ (l :: ls1) l' ls2 m2); [done|]. simpl. by rewrite E.
Qed.

(** ** Accounting of stream events *)

(** The stream sequence numbers an event reports to the reader, as data or inside a gap. *)
Definition covers (e : Event) : list Z :=
  match ev_Kind e with
  | EventData => if ev_Revision e =? 0 then [ev_Sequence e] else []
  | EventGap => seqZ (ev_GapFrom e) (ev_GapTo e - ev_GapFrom e + 1)
  | _ => []
  end.
Definition cover (es : list Event) : list Z := es ≫= covers.

(** What the manager passes to each method (see [Manager.enqueueObservation]). *)
Definition label_wf (l : label) : Prop :=
  match l with
  | LSnapshot e => ev_Kind e = EventSnapshot
  | LVariable e => ev_Kind e = EventData ∧ ev_Revision e ≠ 0
  | LStream e => ev_Kind e = EventData ∧ ev_Revision e = 0 ∧ 0 < ev_Sequence e ≤ maxUint64
  | LFail e => ev_Kind e = EventFailure
  | _ => True
  end.

(** The sequence numbers published during a run. *)
Definition stream_seqs (ls : list label) : list Z :=
  ls ≫= (λ l, match l with LStream e => [ev_Sequence e] | _ => [] end).

(** The source published consecutive numbers starting at [first]. *)
Definition contiguous (first : Z) (ls : list label) : Prop :=
  stream_seqs ls = seqZ first (Z.of_nat (length (stream_seqs ls))).

Definition held (m : machine) : list Event :=
  match m_loop m with Holding e _ => [e] | _ => [] end.
Definition backlog (d : delivery) : list Event :=
  d_pending d ++ (if d_gapFrom d =? 0 then []
                  else [gapEvent (d_resource d) (d_gapFrom d) (d_gapTo d) (d_gapReason d)]).
(** Delivered, being offered, queued, or summarised in the open gap. *)
Definition accounted (m : machine) : list Z := cover (m_out m ++ held m ++ backlog (m_queue m)).

Lemma cover_app es es' : cover (es ++ es') = cover es ++ cover es'.
Proof. apply bind_app. Qed.

Lemma cover_gap r from to reason : cover [gapEvent r from to reason] = seqZ from (to - from + 1).
Proof. unfold cover. simpl. by rewrite app_nil_r. Qed.

Lemma seqZ_snoc a n : 0 ≤ n → seqZ a (n + 1) = seqZ a n ++ [a + n].
Proof. intros Hn. rewrite seqZ_app by lia. f_equal. Qed.

(** The invariant of a live run with [n] published events, the first being [first]. *)
Record acct (first n : Z) (m : machine) : Prop := mkAcct {
  ac_deferred : d_deferredStream (m_queue m) = None;
  ac_last : d_lastStream (m_queue m) = if n =? 0 then 0 else first + n - 1;
  ac_gap : d_gapFrom (m_queue m) ≠ 0 → 0 < d_gapFrom (m_queue m) ≤ d_gapTo (m_queue m) ∧
           d_gapTo (m_queue m) = d_lastStream (m_queue m);
  ac_latest : ∀ e, d_latestVariable (m_queue m) = Some e → covers e = [];
  ac_terminal : ∀ e, d_terminal (m_queue m) = Some e → covers e = [];
  ac_cover : accounted m = seqZ first n
}.

Definition live (m : machine) : Prop := d_failed (m_queue m) = false ∧ d_cancelled (m_queue m) = false.

(** Failure and cancellation are never undone. *)
Lemma next_flags d e t d' :
  next d = Some (e, t, d') → d_failed d' = d_failed d ∧ d_cancelled d' = d_cancelled d.
Proof. unfold next. intros. repeat case_match; simplify_eq; done. Qed.

Lemma live_mono m l m' : mstep m l = Some m' → live m' → live m.
Proof.
  unfold live. destruct l; simpl; intros H.
  1-6: unfold with_queue in H; simplify_eq; simpl;
    unfold enqueueSnapshot, enqueueVariable, enqueueStream, expire, fail, closed_for_input;
    destruct (d_failed (m_queue m)) eqn:E1, (d_cancelled (m_queue m)) eqn:E2; simpl;
    repeat case_match; simpl; rewrite ?E1, ?E2; tauto.
  - destruct (m_loop m); try done. destruct (next (m_queue m)) as [[[e t] d']|] eqn:E; [|by simplify_eq].
    apply next_flags in E as [<- <-]. repeat case_match; simplify_eq; simpl in *; tauto || congruence.
  - repeat case_match; simplify_eq; simpl; tauto.
  - repeat case_match; simplify_eq; simpl; intros [? ?]; done.
  - repeat case_match; simplify_eq; simpl; tauto.
  - destruct (d_cancelled (m_queue m)) eqn:E; [|done]. destruct (m_loop m); simplify_eq; simpl; rewrite ?E; tauto.
Qed.

(** [next] moves the first accounted event out of the queue. *)
Lemma next_cover first n m e t d' :
  acct first n m → live m → m_loop m = Running → next (m_queue m) = Some (e, t, d') →
  acct first n (mkMachine d' (Holding e t) (m_out m)).
Proof.
  intros [Hd Hl Hg Hv Ht Hc] [Hf _] Hr Hn. unfold accounted, held, backlog in Hc. rewrite Hr in Hc.
  unfold next in Hn. rewrite Hf, Hd in Hn.
  destruct (d_pending (m_queue m)) as [|e0 rest] eqn:Ep.
  - destruct (d_gapFrom (m_queue m) =? 0) eqn:Eg; simpl in *.
    + destruct (d_latestVariable (m_queue m)) as [e1|] eqn:Ev; simplify_eq.
      * split; simpl; rewrite ?Eg; try done. unfold accounted, backlog. simpl. rewrite Ep, Eg. simpl.
        rewrite cover_app in *. rewrite <- Hc. unfold cover at 2 4. simpl. by rewrite (Hv e).
      * destruct (d_terminal (m_queue m)) as [e1|] eqn:Et; simplify_eq.
        split; simpl; rewrite ?Eg, ?Ev; try done. unfold accounted, backlog. simpl. rewrite Ep, Eg. simpl.
        rewrite cover_app in *. rewrite <- Hc. unfold cover at 2 4. simpl. by rewrite (Ht e).
    + simplify_eq. split; simpl; try done. unfold accounted, backlog. simpl. by rewrite Ep.
  - assert (e = e0 ∧ t = false ∧ d' = set_pending (m_queue m) rest) as (-> & -> & ->)
      by (destruct (d_gapFrom (m_queue m) =? 0); by simplify_eq).
    split; simpl; try done.
Qed.

(** An accepted stream event is accounted for. *)
Lemma enqueueStream_acct first n m e :
  0 < first → first + n ≤ maxUint64 → 0 ≤ n → acct first n m → live m →
  covers e = [ev_Sequence e] → ev_Sequence e = first + n →
  acct first (n + 1) (with_queue m (enqueueStream (m_queue m) e)).
Proof.
  intros Hp Hb Hn [Hd Hl Hg Hv Ht Hc] [Hf Hk] He Hs. unfold enqueueStream, closed_for_input.
  rewrite Hf, Hk. simpl orb. cbv iota.
  replace (negb (d_lastStream (m_queue m) =? 0) && (u64 (d_lastStream (m_queue m) + 1) <? ev_Sequence e)
             && (d_gapFrom (m_queue m) =? 0)) with false.
  2:{ symmetry. apply andb_false_iff. left. rewrite Hl, Hs. destruct (Z.eqb_spec n 0); [done|].
      rewrite u64_small by (unfold is_u64; lia). apply andb_false_iff. right. apply Z.ltb_ge. lia. }
  cbv iota. unfold accounted, backlog, held in *.
  rewrite !cover_app in Hc.
  destruct (Z.eqb_spec (d_gapFrom (m_queue m)) 0) as [E|E]; simpl negb; cbv iota.
  - destruct (d_capacity (m_queue m) <=? Z.of_nat (length (d_pending (m_queue m)))); split; simpl; rewrite ?E;
      try done; try (destruct (Z.eqb_spec (n + 1) 0); lia); try lia;
      unfold accounted, backlog, held; simpl; rewrite ?E; simpl;
      rewrite ?cover_app, ?app_nil_r in *; rewrite seqZ_snoc, <- Hc, <- !app_assoc, ?app_nil_r by done;
      do 3 f_equal.
    + destruct (Z.eqb_spec (ev_Sequence e) 0); [lia|]. rewrite cover_gap, Hs. by replace (_ - _ + 1) with 1 by lia.
    + unfold cover. simpl. by rewrite He, Hs.
  - destruct (Hg E) as [[Hg1 Hg2] Hg3]. split; simpl; try done; try (destruct (Z.eqb_spec (n + 1) 0); lia).
    + intros _. rewrite Hs. split; [|done]. split; [done|]. rewrite Hg3, Hl in Hg2. destruct (Z.eqb_spec n 0); lia.
    + assert (n ≠ 0) by (intros ->; simpl in Hl; lia).
      assert (d_gapTo (m_queue m) = first + n - 1) as Hto by (rewrite Hg3, Hl; by destruct (Z.eqb_spec n 0)).
      unfold accounted, backlog, held. simpl. destruct (Z.eqb_spec (d_gapFrom (m_queue m)) 0); [done|].
      rewrite seqZ_snoc, <- Hc, !cover_app, <- !app_assoc by done. do 3 f_equal.
      rewrite !cover_gap, Hs, Hto. replace (first + n - _ + 1) with (first + n - 1 - d_gapFrom (m_queue m) + 1 + 1) by lia.
      rewrite seqZ_snoc by lia. do 2 f_equal. lia.
Qed.

(** Every other step keeps the account. *)
Lemma quiet_acct first n m l m' :
  acct first n m → live m → live m' → label_wf l → (∀ e, l ≠ LStream e) → mstep m l = Some m' →
  acct first n m'.
Proof.
  intros Ha [Hf Hk] [Hf' Hk'] Hw Hq Hs. destruct l; simpl in Hs; simplify_eq; simpl in *.
  - destruct Ha as [Hd Hl Hg Hv Ht Hc]. unfold enqueueSnapshot, closed_for_input. rewrite Hf, Hk. simpl.
    split; try done. simpl. rewrite <- Hc. unfold accounted, backlog, held. simpl.
    rewrite !cover_app, <- !app_assoc. do 3 f_equal. unfold cover at 1. simpl. unfold covers. by rewrite Hw.
  - destruct Ha as [Hd Hl Hg Hv Ht Hc]. unfold enqueueVariable, closed_for_input. rewrite Hf, Hk. simpl.
    split; try done. intros ? [= <-]. unfold covers. destruct Hw as [-> Hr]. by destruct (Z.eqb_spec (ev_Revision e) 0).
  - by destruct (Hq e).
  - destruct Ha as [Hd Hl Hg Hv Ht Hc]. unfold expire, closed_for_input. rewrite Hf, Hk. simpl.
    destruct (d_terminal (m_queue m)) eqn:E; split; try done; simpl.
    + rewrite E. done.
    + by intros ? [= <-].
  - unfold fail, closed_for_input in Hf'. rewrite Hf, Hk in Hf'. done.
  - destruct (m_loop m) eqn:El; try done. destruct (next (m_queue m)) as [[[e t] d']|] eqn:E.
    + destruct (next_flags _ _ _ _ E) as [Hx _]. rewrite Hx, Hf, andb_false_r in Hs. simplify_eq.
      by apply next_cover.
    + simplify_eq. destruct Ha as [Hd Hl Hg Hv Ht Hc]. split; try done.
      by unfold accounted, held in *; rewrite El in *.
  - destruct (m_loop m) eqn:El; try done. destruct (d_wake (m_queue m)); simplify_eq.
    destruct Ha as [Hd Hl Hg Hv Ht Hc]. split; try done.
    by unfold accounted, held in *; rewrite El in *.
  - destruct (m_loop m) eqn:El; try done. destruct terminal; simplify_eq.
    destruct Ha as [Hd Hl Hg Hv Ht Hc]. split; try done.
    unfold accounted, held in *; rewrite El in *. simpl. by rewrite <- !app_assoc.
  - destruct (m_loop m); try done. rewrite Hf, andb_false_r in Hs. done.
  - by rewrite Hk in Hs.
Qed.

Lemma stream_seqs_app ls ls' : stream_seqs (ls ++ ls') = stream_seqs ls ++ stream_seqs ls'.
Proof. apply bind_app. Qed.

Lemma run_acct first resource queue ls m :
  0 < first → first + Z.of_nat (length (stream_seqs ls)) ≤ maxUint64 + 1 →
  Forall label_wf ls → contiguous first ls → mrun (start resource queue) ls = Some m → live m →
  acct first (Z.of_nat (length (stream_seqs ls))) m.
Proof.
  intros Hp. revert m. induction ls as [|l ls IH] using rev_ind; intros m Hb Hw Hc Hr Hl.
  { simpl in Hr. simplify_eq. by split. }
  rewrite mrun_app in Hr. destruct (mrun _ ls) as [m1|] eqn:E; [|done]. simpl in Hr.
  destruct (mstep m1 l) as [m2|] eqn:Es; [|done]. simpl in Hr. simplify_eq.
  apply Forall_app in Hw as [Hw Hwl]. rewrite Forall_singleton in Hwl.
  assert (live m1) as Hl1 by (by eapply live_mono).
  unfold contiguous in *. rewrite stream_seqs_app in *. rewrite length_app in *.
  assert ((∃ e, l = LStream e) ∨ stream_seqs [l] = [] ∧ ∀ e, l ≠ LStream e) as [[e ->]|[H1 H2]].
  { destruct l; eauto; by right. }
  2:{ rewrite H1, ?app_nil_r in *. rewrite ?Nat.add_0_r in *.
      eapply quiet_acct; [by apply IH|done..]. }
  change (length (stream_seqs [LStream e])) with 1%nat in *.
  rewrite Nat2Z.inj_add in *. change (Z.of_nat 1) with 1 in *. rewrite seqZ_snoc in Hc by lia. simpl in Hc. apply app_inj_tail in Hc as [Hc Hs].
  destruct Hwl as (Hk & Hr & Hq). simpl in Es. simplify_eq.
  apply enqueueStream_acct; try done; try lia. 
  - apply IH; try done; lia.
  - unfold covers. by rewrite Hk, Hr.
Qed.


(** ** Progress of the goroutine *)

(** A waiting goroutine with something to deliver has a wake token. *)
Definition awake (m : machine) : Prop :=
  m_loop m = Waiting → next (m_queue m) ≠ None → d_wake (m_queue m) = true.

Lemma awake_step m l m' : awake m → mstep m l = Some m' → awake m'.
Proof.
  unfold awake. intros H Hs. destruct l; simpl in Hs; unfold with_queue in Hs; simplify_eq; simpl.
  1-5: unfold enqueueSnapshot, enqueueVariable, enqueueStream, expire, fail;
       destruct (closed_for_input (m_queue m)); [done|]; by intros; simpl.
  - intros Hl Hn. apply H; [done|]. intros E. apply Hn. unfold next in *. simpl. by repeat case_match.
  - destruct (m_loop m); try done. destruct (next (m_queue m)) as [[[e t] d']|] eqn:E.
    + by destruct (negb t && d_failed d'); simplify_eq.
    + by simplify_eq.
  - destruct (m_loop m); try done. by destruct (d_wake (m_queue m)); simplify_eq.
  - destruct (m_loop m); try done. by destruct terminal; simplify_eq.
  - destruct (m_loop m); try done. by destruct (negb terminal && d_failed (m_queue m)); simplify_eq.
  - destruct (d_cancelled (m_queue m)); [|done]. by destruct (m_loop m); simplify_eq.
Qed.

(** Labels of a subscription that is neither expired, failed nor stopped. *)
Definition ongoing (l : label) : Prop :=
  match l with LExpire _ | LFail _ | LStop => False | _ => True end.
(** The steps of the goroutine with a reader that receives. *)
Definition reading (l : label) : Prop :=
  match l with LNext | LWake | LSend => True | _ => False end.

Definition running (m : machine) : Prop :=
  live m ∧ d_terminal (m_queue m) = None ∧ awake m ∧
  match m_loop m with Stopped => False | Holding _ t => t = false | _ => True end.

Lemma next_terminal d e t d' :
  d_failed d = false → d_terminal d = None → next d = Some (e, t, d') → t = false ∧ d_terminal d' = None.
Proof. unfold next. intros Hf Ht. rewrite Hf, Ht. intros. repeat case_match; by simplify_eq. Qed.

Lemma running_step m l m' : running m → ongoing l → mstep m l = Some m' → running m'.
Proof.
  intros ([Hf Hk] & Ht & Ha & Hl) Ho Hs. pose proof (awake_step _ _ _ Ha Hs) as Ha'. unfold running, live.
  destruct l; simpl in Hs; try done; unfold with_queue in Hs; simplify_eq; simpl in *.
  1-3: unfold enqueueSnapshot, enqueueVariable, enqueueStream, closed_for_input in *;
       rewrite Hf, Hk in *; simpl in *; repeat case_match; simpl; tauto.
  - destruct (m_loop m); try done. destruct (next (m_queue m)) as [[[e t] d']|] eqn:E; [|by simplify_eq].
    destruct (next_flags _ _ _ _ E) as [Hx Hy]. destruct (next_terminal _ _ _ _ Hf Ht E) as [-> Hz].
    rewrite Hx, Hf in Hs. simpl in Hs. simplify_eq. simpl. rewrite Hx, Hy. tauto.
  - destruct (m_loop m); try done. destruct (d_wake (m_queue m)); simplify_eq. simpl. tauto.
  - destruct (m_loop m); try done. subst. simplify_eq. simpl. tauto.
  - destruct (m_loop m); try done. subst. rewrite Hf in Hs. done.
  - by rewrite Hk in Hs.
Qed.

Lemma running_run ls m m' : running m → Forall ongoing ls → mrun m ls = Some m' → running m'.
Proof.
  revert m. induction ls as [|l ls IH]; intros m Hm Ho Hr; simpl in Hr; [by simplify_eq|].
  apply Forall_cons in Ho as [Hl Ho]. destruct (mstep m l) as [m1|] eqn:E; [|done].
  apply (IH m1); [by eapply running_step|done|done].
Qed.

Lemma start_running resource queue : running (start resource queue).
Proof. by repeat split. Qed.

Definition optlen {A} (o : option A) : nat := match o with Some _ => 1 | None => 0 end.
(** Events the goroutine still has to take, with two steps for each. *)
Definition queued (d : delivery) : nat :=
  length (d_pending d) + optlen (d_latestVariable d) + optlen (d_deferredStream d)
  + (if (d_gapFrom d =? 0)%Z then 0 else 1).
Definition todo (m : machine) : nat :=
  2 * queued (m_queue m) + match m_loop m with Holding _ _ => 1 | _ => 0 end.

Lemma next_todo d e d' :
  d_failed d = false → next d = Some (e, false, d') →
  (queued d' < queued d)%nat.
Proof.
  intros Hf. unfold next, queued. rewrite Hf. intros.
  destruct (d_gapFrom d =? 0) eqn:Eg, (d_deferredStream d) eqn:Ed, (d_pending d) eqn:Ep,
    (d_latestVariable d) eqn:El, (d_terminal d) eqn:Et; simplify_eq/=;
    rewrite ?Eg, ?Ed, ?Ep, ?El; simpl; lia.
Qed.


(** A reader that keeps receiving empties the queue. *)
Lemma drain m :
  running m →
  ∃ gs m', Forall reading gs ∧ mrun m gs = Some m' ∧ m_loop m' = Waiting ∧ next (m_queue m') = None.
Proof.
  remember (2 * todo m + match m_loop m with Waiting => 1 | _ => 0 end)%nat as k eqn:Ek.
  revert m Ek. induction (lt_wf k) as [k _ IH]. intros m -> Hm.
  assert (∀ l m1, reading l → mstep m l = Some m1 →
            (2 * todo m1 + match m_loop m1 with Waiting => 1 | _ => 0 end <
             2 * todo m + match m_loop m with Waiting => 1 | _ => 0 end)%nat →
          ∃ gs m', Forall reading gs ∧ mrun m gs = Some m' ∧ m_loop m' = Waiting ∧ next (m_queue m') = None)
    as Hstep.
  { intros l m1 Hl Hs Hlt. destruct (IH _ Hlt m1 eq_refl) as (gs & m' & Hg & Hr & Hw).
    - eapply running_step; [done| |done]. by destruct l.
    - exists (l :: gs), m'. split; [by constructor|]. simpl. by rewrite Hs. }
  pose proof Hm as ([Hf Hk] & Ht & Ha & Hl). destruct (m_loop m) as [| |e t|] eqn:El; try done.
  - destruct (next (m_queue m)) as [[[e t] d']|] eqn:E.
    + destruct (next_flags _ _ _ _ E) as [Hx _]. destruct (next_terminal _ _ _ _ Hf Ht E) as [-> _].
      eapply (Hstep LNext); [done|simpl; rewrite El, E, Hx, Hf; done|].
      apply next_todo in E; [|done]. unfold todo. simpl. rewrite El. lia.
    + exists [LNext], (mkMachine (m_queue m) Waiting (m_out m)). split; [by repeat constructor|].
      simpl. rewrite El, E. done.
  - destruct (next (m_queue m)) as [x|] eqn:E.
    + eapply (Hstep LWake); [done|simpl; rewrite El, Ha by (done || congruence); done|].
      unfold todo. simpl. rewrite El. change (queued (set_wake (m_queue m) false)) with (queued (m_queue m)). lia.
    + exists [], m. by repeat split.
  - subst. eapply (Hstep LSend); [done|simpl; by rewrite El|]. unfold todo. simpl. rewrite El. lia.
Qed.

Lemma reading_quiet gs : Forall reading gs → Forall label_wf gs ∧ Forall ongoing gs ∧ stream_seqs gs = [].
Proof.
  induction 1 as [|l gs Hl _ (H1 & H2 & H3)]; [done|].
  destruct l; try done; repeat split; try (by constructor); done.
Qed.

(** Delivery progress: after any history that has not expired, failed or been stopped,
    a reader that keeps receiving is eventually left with an idle goroutine and has been told
    about every published sequence number, in order: no wake-up is lost. *)
Theorem stream_progress first resource queue ls m :
  0 < first → first + Z.of_nat (length (stream_seqs ls)) ≤ maxUint64 + 1 →
  Forall label_wf ls → Forall ongoing ls → contiguous first ls →
  mrun (start resource queue) ls = Some m →
  ∃ gs m', Forall reading gs ∧ mrun m gs = Some m' ∧ m_loop m' = Waiting ∧
           cover (m_out m') = stream_seqs ls.
Proof.
  intros Hp Hb Hw Ho Hc Hr.
  pose proof (running_run _ _ _ (start_running resource queue) Ho Hr) as Hm.
  destruct (drain m Hm) as (gs & m' & Hg & Hg' & Hl & Hn). exists gs, m'. split_and!; try done.
  destruct (reading_quiet gs Hg) as (Hw' & Ho' & Hs').
  destruct (running_run _ _ _ Hm Ho' Hg') as [Hl' _].
  assert (stream_seqs (ls ++ gs) = stream_seqs ls) as Hss by (by rewrite stream_seqs_app, Hs', app_nil_r).
  assert (acct first (Z.of_nat (length (stream_seqs (ls ++ gs)))) m') as Ha.
  { apply (run_acct first resource queue); [done|by rewrite Hss|by apply Forall_app|
      unfold contiguous; by rewrite Hss|rewrite mrun_app, Hr; done|done]. }
  rewrite Hss in Ha. rewrite Hc, <- (ac_cover _ _ _ Ha). unfold accounted, held, backlog. rewrite Hl.
  unfold next in Hn. rewrite (proj1 Hl'), (ac_deferred _ _ _ Ha) in Hn.
  destruct (d_gapFrom (m_queue m') =? 0), (d_pending (m_queue m')); simpl in Hn; try done.
  by rewrite app_nil_r.
Qed.

(** ** Failure *)

(** After a failure with event [e], raised while [hold] was being offered and [out] had been
    delivered. *)
Definition failed_state (out hold : list Event) (e : Event) (m : machine) : Prop :=
  let d := m_queue m in
  d_failed d = true ∧ d_pending d = [] ∧ d_latestVariable d = None ∧ d_deferredStream d = None ∧ d_gapFrom d = 0 ∧
  match m_loop m with
  | Running | Waiting => d_terminal d = Some e ∧ m_out m `prefix_of` out ++ hold ∧ out `prefix_of` m_out m
  | Holding x t => (x = e ∧ t = true ∧ d_terminal d = None ∧ m_out m `prefix_of` out ++ hold ∧ out `prefix_of` m_out m)
                   ∨ ([x] = hold ∧ m_out m = out ∧ d_terminal d = Some e)
  | Stopped => m_out m `prefix_of` out ++ hold ++ [e] ∨ m_out m = out ++ [e]
  end.

Lemma prefix_between (out : list Event) (hold : Event) l :
  l `prefix_of` out ++ [hold] → out `prefix_of` l → l = out ∨ l = out ++ [hold].
Proof.
  intros [k Hk] [j ->]. rewrite <- app_assoc in Hk. apply app_inv_head in Hk.
  destruct j as [|y j]; [left; by rewrite app_nil_r|]. destruct j; simplify_eq/=. by right.
Qed.

Lemma failed_step out hold e m l m' :
  (length hold ≤ 1)%nat → failed_state out hold e m → mstep m l = Some m' → failed_state out hold e m'.
Proof.
  intros Hh (Hf & Hp & Hv & Hd & Hg & Hl) Hs. unfold failed_state.
  destruct l; simpl in Hs; unfold with_queue in Hs; simplify_eq; simpl in *.
  1-5: unfold enqueueSnapshot, enqueueVariable, enqueueStream, expire, fail, closed_for_input; rewrite Hf; simpl; tauto.
  - by destruct (m_loop m).
  - destruct (m_loop m) eqn:El; try done. destruct Hl as (Ht & Hl). unfold next in Hs. rewrite Hf, Ht in Hs.
    simpl in Hs. simplify_eq. simpl. tauto.
  - destruct (m_loop m) eqn:El; try done. destruct (d_wake (m_queue m)); simplify_eq. simpl. tauto.
  - destruct (m_loop m) as [| |x t|] eqn:El; try done. simplify_eq.
    destruct Hl as [(-> & -> & Ht & H1 & H2)|(<- & -> & Ht)].
    + simpl. split_and!; try done. destruct hold as [|h [|]]; simpl in *; try lia.
      * rewrite app_nil_r in H1. right. f_equal. by apply (anti_symm prefix).
      * destruct (prefix_between _ _ _ H1 H2) as [-> | ->]; [by right|left]. by rewrite <- app_assoc.
    + destruct t; simpl; split_and!; try done.
      * left. exists [e]. by rewrite <- app_assoc.
      * by apply prefix_app_r.
  - destruct (m_loop m) as [| |x t|] eqn:El; try done.
    destruct (negb t && d_failed (m_queue m)) eqn:E; simplify_eq. simpl. split_and!; try done.
    + destruct Hl as [(-> & -> & _)|(_ & _ & Ht)]; done.
    + destruct Hl as [(-> & -> & _)|(_ & -> & Ht)]; [done|]. by apply prefix_app_r.
    + destruct Hl as [(-> & -> & _)|(_ & -> & Ht)]; done.
  - destruct (d_cancelled (m_queue m)); [|done]. destruct (m_loop m) as [| |x t|] eqn:El; simplify_eq; simpl; split_and!; try done.
    + destruct Hl as (_ & H1 & _). left. rewrite app_assoc. by apply prefix_app_r.
    + destruct Hl as [(_ & _ & _ & H1 & _)|(_ & -> & _)]; left; [rewrite app_assoc|]; by apply prefix_app_r.
Qed.

(** Failure is terminal and final: whatever is enqueued after [fail] and however the
    goroutine and the reader are scheduled, the reader gets nothing more than the event that
    was already being offered and then the failure event, and a goroutine that has not
    returned is left holding the failure event or has it as the next one. *)
Theorem fail_terminal m e ls m' :
  live m → m_loop m ≠ Stopped → mrun m (LFail e :: ls) = Some m' →
  failed_state (m_out m) (held m) e m'.
Proof.
  intros [Hf Hk] Hl Hr. simpl in Hr.
  assert (length (held m) ≤ 1)%nat as Hh by (unfold held; destruct (m_loop m); simpl; lia).
  assert (failed_state (m_out m) (held m) e (with_queue m (fail (m_queue m) e))) as H0.
  { unfold fail, closed_for_input. rewrite Hf, Hk. unfold failed_state, held. simpl.
    split_and!; try done. destruct (m_loop m); [..|done].
    1-2: split_and!; [done|by apply prefix_app_r|done]. by right. }
  revert H0 Hr. generalize (with_queue m (fail (m_queue m) e)). revert Hh.
  generalize (m_out m), (held m). induction ls as [|l ls IH]; intros out hold Hh m1 H0 Hr; simpl in Hr; [by simplify_eq|].
  destruct (mstep m1 l) as [m2|] eqn:E; [|done]. eapply IH; [done|by eapply failed_step|done].
Qed.

(** ** The bound of the queue *)

Definition buffered (d : delivery) : list Event := filter (λ e, ev_Kind e ≠ EventSnapshot) (d_pending d).

Lemma buffered_step m l m' :
  label_wf l → Z.of_nat (length (buffered (m_queue m))) ≤ Z.max 0 (d_capacity (m_queue m)) →
  mstep m l = Some m' →
  d_capacity (m_queue m') = d_capacity (m_queue m) ∧
  Z.of_nat (length (buffered (m_queue m'))) ≤ Z.max 0 (d_capacity (m_queue m')).
Proof.
  unfold buffered. intros Hw Hb Hs. destruct l; simpl in Hs; unfold with_queue in Hs; simplify_eq; simpl in *; try done.
  - unfold enqueueSnapshot. destruct (closed_for_input _); [done|]. simpl. rewrite filter_app.
    rewrite (filter_cons_False _ e) by (rewrite Hw; tauto). by rewrite app_nil_r.
  - unfold enqueueVariable. by destruct (closed_for_input _).
  - unfold enqueueStream. destruct (closed_for_input _); [done|]. repeat case_match; simpl; try done.
    split; [done|]. bool_prop. rewrite filter_app, length_app.
    pose proof (length_filter (λ e, ev_Kind e ≠ EventSnapshot) (d_pending (m_queue m))).
    pose proof (length_filter (λ e, ev_Kind e ≠ EventSnapshot) [e]). simpl in *. lia.
  - unfold expire. destruct (closed_for_input _); [done|]. by destruct (d_terminal _).
  - unfold fail. destruct (closed_for_input _); [done|]. simpl. lia.
  - destruct (m_loop m); try done. destruct (next (m_queue m)) as [[[e t] d']|] eqn:E; [|by simplify_eq].
    assert (d_capacity d' = d_capacity (m_queue m) ∧ (d_pending d' = d_pending (m_queue m) ∨
              ∃ x, d_pending (m_queue m) = x :: d_pending d')) as [Hc Hp]
      by (unfold next in E; repeat case_match; simplify_eq; simpl; eauto).
    assert (length (filter (λ e, ev_Kind e ≠ EventSnapshot) (d_pending d')) ≤
            length (filter (λ e, ev_Kind e ≠ EventSnapshot) (d_pending (m_queue m))))%nat as Hle.
    { destruct Hp as [-> |[x ->]]; [done|]. rewrite filter_cons. case_decide; simpl; lia. }
    destruct (negb t && d_failed d'); simplify_eq; simpl; rewrite Hc; lia.
  - repeat case_match; by simplify_eq.
  - repeat case_match; by simplify_eq.
  - repeat case_match; by simplify_eq.
  - repeat case_match; by simplify_eq.
Qed.

(** Bounded queue: a subscription never buffers more data events than its configured
    queue size, whatever the source publishes and however slow the reader is. *)
Theorem queue_bounded resource queue ls m :
  Forall label_wf ls → mrun (start resource queue) ls = Some m →
  Z.of_nat (length (buffered (m_queue m))) ≤ Z.max 0 queue.
Proof.
  intros Hw Hr.
  assert (Z.of_nat (length (buffered (m_queue m))) ≤ Z.max 0 (d_capacity (m_queue m)) ∧ d_capacity (m_queue m) = queue)
    as [H <-]; [|done].
  revert m Hr. induction ls as [|l ls IH] using rev_ind; intros m Hr; simpl in Hr.
  { simplify_eq. unfold buffered. simpl. lia. }
  apply Forall_app in Hw as [Hw Hl]. rewrite Forall_singleton in Hl.
  rewrite mrun_app in Hr. destruct (mrun _ ls) as [m1|]; [|done]. simpl in Hr.
  destruct (mstep m1 l) as [m2|] eqn:E; [|done]. simpl in Hr. simplify_eq.
  destruct (IH Hw m1 eq_refl) as [H <-]. by destruct (buffered_step _ _ _ Hl H E) as [-> ?].
Qed.

(** ** Source gaps *)

Definition sample_resource : ResourceID := mkResourceID 1 "stream".
Definition sample_event (seq : Z) : Event :=
  mkEvent EventData sample_resource "" "" 0 seq 1 seq 0 0 [] "" None.
(** The source jumps from 1 to 3 and from 3 to 5; the reader takes the first gap in between. *)
Definition jumpy_run : list label :=
  [LStream (sample_event 1); LNext; LSend; LStream (sample_event 3); LNext; LSend;
   LStream (sample_event 5); LNext; LSend; LNext; LSend; LNext].

(** A second jump of the source while the reader is at the first gap overwrites the
    deferred event: the reader is left idle having been told about 1, 2, 4 and 5 only,
    although 3 was published; the loss is not announced by any gap. *)
Theorem source_gap_loses_event :
  Forall label_wf jumpy_run ∧ stream_seqs jumpy_run = [1; 3; 5] ∧
  ∃ m, mrun (start sample_resource 8) jumpy_run = Some m ∧ live m ∧ m_loop m = Waiting ∧
       next (m_queue m) = None ∧ cover (m_out m) = [1; 2; 4; 5].
Proof.
  split; [unfold jumpy_run; repeat constructor; vm_compute; done|]. split; [done|].
  eexists. split; [vm_compute; reflexivity|]. by vm_compute.
Qed.

(** ** Witnesses *)

(** A queue of one event, a reader that falls behind and then catches up in part. *)
Definition slow_run : list label :=
  [LStream (sample_event 7); LStream (sample_event 8); LStream (sample_event 9); LNext; LSend;
   LStream (sample_event 10); LNext].
Definition slow_state : machine :=
  default (start sample_resource 1) (mrun (start sample_resource 1) slow_run).

Lemma slow_run_wf : Forall label_wf slow_run.
Proof. unfold slow_run; repeat constructor; vm_compute; done. Qed.


Lemma stream_progress_witness :
  ∃ gs m', Forall reading gs ∧ mrun slow_state gs = Some m' ∧ m_loop m' = Waiting ∧
           cover (m_out m') = [7; 8; 9; 10].
Proof.
  apply (stream_progress 7 sample_resource 1 slow_run slow_state);
    [lia|by vm_compute|apply slow_run_wf|by unfold slow_run; repeat constructor|by vm_compute|by vm_compute].
Defined.

Definition sample_failure : Event :=
  mkEvent EventFailure sample_resource "" "" 0 0 0 0 0 0 [] "" None.

Lemma fail_terminal_witness :
  let m' := default slow_state (mrun slow_state [LFail sample_failure; LStream (sample_event 11); LInterrupt; LNext; LSend]) in
  failed_state (m_out slow_state) (held slow_state) sample_failure m'.
Proof.
  intros m'.
  apply (fail_terminal slow_state sample_failure [LStream (sample_event 11); LInterrupt; LNext; LSend]);
    by vm_compute.
Defined.

Lemma queue_bounded_witness : Z.of_nat (length (buffered (m_queue slow_state))) ≤ 1.
Proof. apply (queue_bounded sample_resource 1 slow_run slow_state); [apply slow_run_wf|by vm_compute]. Defined.
