(* ===== verification/Interest.v ===== *)
(** * The interest table (runtime/subscription/interest.go)

    The table keeps the interests by identifier and, for each resource, the set of identifiers
    interested in it.  The specification is the first map alone: [Interest_refines] shows that
    every operation computes what the specification says, and that the per-resource index is
    never wrong.  Times are nanoseconds; the zero [time.Time] is 0.  Go iterates over a map in
    an unspecified order, so the cleanup operations take the order as an argument. *)

From S2P Require Import Prelude GoStd Wire.
Open Scope Z_scope.

Record Interest := mkInterest {
  i_ID : MessageID;
  i_Subscriber : NodeID;
  i_Resource : ResourceID;
  i_Capability : CapabilityID;
  i_LinkID : string;
  i_NextHop : NodeID;
  i_LeaseUntil : Z;
  i_AuthorizedUntil : Z;
  i_TopologyEpoch : Z;
  i_PolicyGeneration : Z
}.
#[global] Instance Interest_eq_dec : EqDecision Interest.
Proof. solve_decision. Defined.

Inductive interest_error :=
| ErrInterestTableLimit           (* "interest limit must be positive" *)
| ErrInterestID                   (* "interest ID is required" *)
| ErrInterestWire (e : wire_error)
| ErrInterestLink                 (* "interest requires a link and authorization covering its lease" *)
| ErrInterestExists               (* "interest ID already exists" *)
| ErrInterestLimit.

Record InterestTable := mkInterestTable {
  it_max : Z;
  it_byID : gmap MessageID Interest;
  it_byKey : gmap ResourceID (gset MessageID)
}.

Definition NewInterestTable (max : Z) : result interest_error InterestTable :=
  fail_if max <=? 0 with ErrInterestTableLimit ;;
  Ok (mkInterestTable max ∅ ∅).

(** A read of the index: the empty set for an absent resource. *)
Definition group (t : InterestTable) (r : ResourceID) : gset MessageID := default ∅ (it_byKey t !! r).

(** The checks made before the lock is taken. *)
Definition Interest_check (i : Interest) : result interest_error unit :=
  fail_if MessageID_IsZero (i_ID i) with ErrInterestID ;;
  _ ← mapErr ErrInterestWire (NodeID_Validate (i_Subscriber i));
  _ ← mapErr ErrInterestWire (ResourceID_Validate (i_Resource i));
  _ ← mapErr ErrInterestWire (CapabilityID_Validate (i_Capability i));
  fail_if String.eqb (i_LinkID i) "" || (i_LeaseUntil i =? 0) || (i_AuthorizedUntil i <? i_LeaseUntil i)
    with ErrInterestLink ;;
  Ok ().

Definition Add (t : InterestTable) (i : Interest) : result interest_error (bool * InterestTable) :=
  _ ← Interest_check i;
  fail_if bool_decide (is_Some (it_byID t !! i_ID i)) with ErrInterestExists ;;
  fail_if it_max t <=? Z.of_nat (size (it_byID t)) with ErrInterestLimit ;;
  let first := bool_decide (size (group t (i_Resource i)) = 0%nat) in
  Ok (first, mkInterestTable (it_max t) (<[i_ID i := i]> (it_byID t))
               (<[i_Resource i := {[ i_ID i ]} ∪ group t (i_Resource i)]> (it_byKey t))).

(** The removed interest and whether it was the last one of its resource. *)
Definition Remove (t : InterestTable) (id : MessageID) : option (Interest * bool) * InterestTable :=
  match it_byID t !! id with
  | None => (None, t)
  | Some i =>
    let remaining := group t (i_Resource i) ∖ {[ id ]} in
    let last := bool_decide (size remaining = 0%nat) in
    (Some (i, last),
     mkInterestTable (it_max t) (delete id (it_byID t))
       (if last then delete (i_Resource i) (it_byKey t) else <[i_Resource i := remaining]> (it_byKey t)))
  end.

(** The second loop of the cleanup operations. *)
Fixpoint remove_all (t : InterestTable) (ids : list MessageID) : list Interest * InterestTable :=
  match ids with
  | [] => ([], t)
  | id :: rest =>
    let '(r, t) := Remove t id in
    let '(removed, t) := remove_all t rest in
    (match r with Some (i, _) => i :: removed | None => removed end, t)
  end.

(** The first loop, over the map in the given order, and the second one. *)
Definition cleanup (p : Interest → bool) (t : InterestTable) (order : list (MessageID * Interest)) : list Interest * InterestTable :=
  remove_all t (filter (λ '(_, i), p i) order).*1.

Definition CleanupLink (t : InterestTable) (linkID : string) order : list Interest * InterestTable :=
  cleanup (λ i, String.eqb (i_LinkID i) linkID) t order.
Definition CleanupExpired (t : InterestTable) (now : Z) order : list Interest * InterestTable :=
  cleanup (λ i, negb (now <? i_LeaseUntil i) || negb (now <? i_AuthorizedUntil i)) t order.
Definition CleanupPolicyGeneration (t : InterestTable) (generation : Z) order : list Interest * InterestTable :=
  cleanup (λ i, negb (i_PolicyGeneration i =? generation)) t order.

Definition zeroInterest : Interest := mkInterest 0 0 zeroResourceID "" "" 0 0 0 0 0.
(** [Interests], for one order of the identifiers of the group. *)
Definition Interests (t : InterestTable) (ids : list MessageID) : list Interest :=
  (λ id, default zeroInterest (it_byID t !! id)) <$> ids.

(** ** The invariant of the table *)

Record table_ok (t : InterestTable) : Prop := mkTableOk {
  tk_size : Z.of_nat (size (it_byID t)) ≤ Z.max 0 (it_max t);
  tk_id : ∀ id i, it_byID t !! id = Some i → i_ID i = id ∧ Interest_check i = Ok ();
  tk_index : ∀ r id, id ∈ group t r ↔ ∃ i, it_byID t !! id = Some i ∧ i_Resource i = r;
  tk_nonempty : ∀ r g, it_byKey t !! r = Some g → g ≠ ∅
}.

(** The interests of a resource, in the specification. *)
Definition interested (m : gmap MessageID Interest) (r : ResourceID) : gmap MessageID Interest :=
  filter (λ '(_, i), i_Resource i = r) m.

Lemma interested_lookup m r id i : interested m r !! id = Some i ↔ m !! id = Some i ∧ i_Resource i = r.
Proof. unfold interested. by rewrite map_lookup_filter_Some. Qed.

Lemma group_dom t r : table_ok t → group t r = dom (interested (it_byID t) r).
Proof.
  intros H. apply set_eq. intros id. rewrite (tk_index t H), elem_of_dom. unfold is_Some.
  by setoid_rewrite interested_lookup.
Qed.

Lemma group_size t r : table_ok t → size (group t r) = size (interested (it_byID t) r).
Proof. intros H. by rewrite group_dom, size_dom. Qed.

Lemma group_insert t r r' g : group (mkInterestTable (it_max t) (it_byID t) (<[r := g]> (it_byKey t))) r' =
  if decide (r = r') then g else group t r'.
Proof. unfold group. simpl. rewrite lookup_insert. by case_decide. Qed.

(** ** The specification: a bounded map of interests *)

Definition spec_Add (max : Z) (m : gmap MessageID Interest) (i : Interest) : result interest_error (bool * gmap MessageID Interest) :=
  _ ← Interest_check i;
  fail_if bool_decide (is_Some (m !! i_ID i)) with ErrInterestExists ;;
  fail_if max <=? Z.of_nat (size m) with ErrInterestLimit ;;
  Ok (bool_decide (interested m (i_Resource i) = ∅), <[i_ID i := i]> m).

Definition spec_Remove (m : gmap MessageID Interest) (id : MessageID) : option (Interest * bool) * gmap MessageID Interest :=
  match m !! id with
  | None => (None, m)
  | Some i => (Some (i, bool_decide (interested (delete id m) (i_Resource i) = ∅)), delete id m)
  end.

Definition selected (p : Interest → bool) (m : gmap MessageID Interest) : gmap MessageID Interest :=
  filter (λ '(_, i), p i) m.

Lemma New_table_ok max t : NewInterestTable max = Ok t → table_ok t ∧ it_byID t = ∅ ∧ it_max t = max.
Proof.
  unfold NewInterestTable. destruct (max <=? 0) eqn:E; [done|]. intros [= <-]. split; [|done]. bool_prop. split; simpl.
  - rewrite map_size_empty. lia.
  - intros ? ?. by rewrite lookup_empty.
  - intros r id. unfold group. simpl. rewrite lookup_empty. simpl. split; [set_solver|].
    intros (i & H & _). by rewrite lookup_empty in H.
  - intros ? ?. by rewrite lookup_empty.
Qed.

Lemma Add_refines t i :
  table_ok t →
  match Add t i with
  | Ok (first, t') => spec_Add (it_max t) (it_byID t) i = Ok (first, it_byID t') ∧ it_max t' = it_max t ∧ table_ok t'
  | Err e => spec_Add (it_max t) (it_byID t) i = Err e
  end.
Proof.
  intros Ht. unfold Add, spec_Add. destruct (Interest_check i) as [[]|e] eqn:Ec; simpl; [|done].
  destruct (bool_decide (is_Some _)) eqn:Ex; [done|].
  destruct (it_max t <=? Z.of_nat (size (it_byID t))) eqn:El; [done|]. simpl. bool_prop.
  assert (it_byID t !! i_ID i = None) as Hn by (by apply eq_None_not_Some).
  split_and!; [|done|].
  - do 3 f_equal. rewrite (group_size t) by done. apply bool_decide_ext. by rewrite map_size_empty_iff.
  - split; simpl.
    + rewrite map_size_insert_None by done. lia.
    + intros id j. rewrite lookup_insert_Some. intros [[<- <-]|[_ H]]; [done|by apply (tk_id t Ht)].
    + intros r id. unfold group at 1. simpl. rewrite lookup_insert. setoid_rewrite lookup_insert_Some.
      case_decide as Hr.
      * subst r. simpl. rewrite elem_of_union, elem_of_singleton, (tk_index t Ht). split.
        -- intros [-> |(j & Hj & Hr)]; [by exists i; auto|]. exists j. split; [right; split; [|done]|done].
           intros Hx. congruence.
        -- intros (j & [[<- <-]|[Hne Hj]] & Hr); [by left|right; eauto].
      * fold (group t r). rewrite (tk_index t Ht). split.
        -- intros (j & Hj & Hr'). exists j. split; [right; split; [|done]|done]. intros Hx. congruence.
        -- intros (j & [[<- <-]|[Hne Hj]] & Hr'); [done|eauto].
    + intros r g. rewrite lookup_insert_Some. intros [[_ <-]|[_ H]]; [set_solver|by eapply (tk_nonempty t Ht)].
Qed.

Lemma Remove_refines t id :
  table_ok t →
  let '(r, t') := Remove t id in
  spec_Remove (it_byID t) id = (r, it_byID t') ∧ it_max t' = it_max t ∧ table_ok t'.
Proof.
  intros Ht. unfold Remove, spec_Remove. destruct (it_byID t !! id) as [i|] eqn:E; [|done].
  assert (group t (i_Resource i) ∖ {[id]} = dom (interested (delete id (it_byID t)) (i_Resource i))) as Hg.
  { rewrite (group_dom t _ Ht). apply set_eq. intros x.
    rewrite elem_of_difference, elem_of_singleton, !elem_of_dom. unfold is_Some. setoid_rewrite interested_lookup.
    setoid_rewrite lookup_delete_Some. naive_solver. }
  split_and!; [|done|].
  - do 3 f_equal. rewrite Hg, size_dom. apply bool_decide_ext. by rewrite map_size_empty_iff.
  - split; simpl.
    + pose proof (tk_size t Ht). rewrite map_size_delete_Some by eauto. lia.
    + intros j x. rewrite lookup_delete_Some. intros [_ H]. by apply (tk_id t Ht).
    + intros r x. setoid_rewrite lookup_delete_Some.
      assert (group (mkInterestTable (it_max t) (delete id (it_byID t))
        (if bool_decide (size (group t (i_Resource i) ∖ {[id]}) = 0%nat) then delete (i_Resource i) (it_byKey t)
         else <[i_Resource i:=group t (i_Resource i) ∖ {[id]}]> (it_byKey t))) r = group t r ∖ {[id]}) as ->.
      { unfold group at 1. simpl. case_bool_decide as Hs.
        - rewrite lookup_delete. case_decide as Hr; simpl.
          + subst r. apply size_empty_inv in Hs. symmetry. by apply leibniz_equiv.
          + fold (group t r). apply set_eq. intros y. rewrite elem_of_difference, elem_of_singleton.
            rewrite (tk_index t Ht). split; [|tauto]. intros (j & Hj & Hr'). split; [eauto|]. intros ->. congruence.
        - rewrite lookup_insert. case_decide as Hr; simpl; [by subst r|].
          fold (group t r). apply set_eq. intros y. rewrite elem_of_difference, elem_of_singleton.
          rewrite (tk_index t Ht). split; [|tauto]. intros (j & Hj & Hr'). split; [eauto|]. intros ->. congruence. }
      rewrite elem_of_difference, elem_of_singleton, (tk_index t Ht). naive_solver.
    + intros r g. case_bool_decide as Hs.
      * rewrite lookup_delete_Some. intros [_ H]. by eapply (tk_nonempty t Ht).
      * rewrite lookup_insert_Some. intros [[_ <-]|[_ H]]; [|by eapply (tk_nonempty t Ht)].
        intros He. apply Hs. rewrite He. apply size_empty.
Qed.

Lemma remove_all_refines ids t :
  table_ok t → NoDup ids →
  let '(removed, t') := remove_all t ids in
  removed = omap (λ id, it_byID t !! id) ids ∧
  it_byID t' = filter (λ '(id, _), id ∉ ids) (it_byID t) ∧ it_max t' = it_max t ∧ table_ok t'.
Proof.
  revert t. induction ids as [|id ids IH]; intros t Ht Hnd; simpl.
  { split_and!; try done. symmetry. apply map_filter_id. intros. set_solver. }
  apply NoDup_cons in Hnd as [Hid Hnd].
  pose proof (Remove_refines t id Ht) as Hr. destruct (Remove t id) as [r t1] eqn:E.
  destruct Hr as (Hs & Hm & Ht1). specialize (IH t1 Ht1 Hnd).
  destruct (remove_all t1 ids) as [removed t2]. destruct IH as (-> & H2 & H3 & H4).
  assert (it_byID t1 = delete id (it_byID t) ∧ fst <$> r = it_byID t !! id) as [H1 Hr].
  { unfold spec_Remove in Hs. destruct (it_byID t !! id) as [i|] eqn:Ei; simplify_eq; [by rewrite <- H0|].
    by rewrite delete_id. }
  assert (omap (λ x, it_byID t1 !! x) ids = omap (λ x, it_byID t !! x) ids) as ->.
  { rewrite H1. clear -Hid. induction ids as [|x ids IH]; [done|]. simpl.
    rewrite lookup_delete_ne by set_solver.
    destruct (it_byID t !! x); [f_equal|]; apply IH; set_solver. }
  split_and!; [|..|by rewrite H3|done].
  - destruct r as [[i l]|]; simpl in Hr; by rewrite <- Hr.
  - rewrite H2, H1. apply map_eq. intros x. apply option_eq. intros i.
    rewrite !map_lookup_filter_Some, lookup_delete_Some, not_elem_of_cons. naive_solver.
Qed.

Lemma cleanup_refines p t order :
  table_ok t → order ≡ₚ map_to_list (it_byID t) →
  let '(removed, t') := cleanup p t order in
  removed ≡ₚ (map_to_list (selected p (it_byID t))).*2 ∧
  it_byID t' = selected (λ i, negb (p i)) (it_byID t) ∧ it_max t' = it_max t ∧ table_ok t'.
Proof.
  intros Ht Ho. unfold cleanup. set (f := filter _ order).
  assert (∀ x, x ∈ f ↔ p x.2 ∧ it_byID t !! x.1 = Some x.2) as Hf.
  { intros [id i]. unfold f. rewrite list_elem_of_filter, Ho, elem_of_map_to_list. done. }
  assert (NoDup f.*1) as Hnd.
  { apply NoDup_fmap_fst.
    - intros id i j Hi Hj. apply Hf in Hi as [_ Hi]. apply Hf in Hj as [_ Hj]. simpl in *. congruence.
    - apply NoDup_filter. rewrite Ho. apply NoDup_map_to_list. }
  pose proof (remove_all_refines f.*1 t Ht Hnd) as H. destruct (remove_all t f.*1) as [removed t'].
  destruct H as (-> & Hby & Hm & Ht'). split_and!; [|..|done|done].
  - assert (omap (λ id, it_byID t !! id) f.*1 = f.*2) as ->.
    { assert (∀ x, x ∈ f → it_byID t !! x.1 = Some x.2) as Hx by (intros x Hx; apply Hf, Hx).
      clear -Hx. induction f as [|x f IH]; [done|]. simpl. rewrite (Hx x) by left. f_equal.
      apply IH. intros. apply Hx. by right. }
    apply fmap_Permutation. apply NoDup_Permutation.
    + apply NoDup_filter. rewrite Ho. apply NoDup_map_to_list.
    + apply NoDup_map_to_list.
    + intros [id i]. rewrite Hf, elem_of_map_to_list. unfold selected. rewrite map_lookup_filter_Some. simpl. tauto.
  - rewrite Hby. apply map_filter_ext. intros id i Hi. rewrite list_elem_of_fmap. simpl. split.
    + intros Hn. destruct (p i) eqn:E; [|done]. destruct Hn. exists (id, i). split; [done|]. apply Hf. simpl. by rewrite E.
    + intros Hp ([x j] & -> & Hx%Hf). simpl in *. destruct Hx as [Hx1 Hx2]. assert (i = j) as -> by congruence.
      destruct (p j); done.
Qed.

(** ** Operations, results and the refinement theorem *)

Inductive interest_op :=
| OpAdd (i : Interest)
| OpRemove (id : MessageID)
| OpCleanupLink (linkID : string) (order : list (MessageID * Interest))
| OpCleanupExpired (now : Z) (order : list (MessageID * Interest))
| OpCleanupPolicy (generation : Z) (order : list (MessageID * Interest)).

Inductive interest_res :=
| ResAdd (r : result interest_error bool)
| ResRemove (r : option (Interest * bool))
| ResCleanup (removed : list Interest).

Definition interest_exec (t : InterestTable) (op : interest_op) : interest_res * InterestTable :=
  match op with
  | OpAdd i => match Add t i with Ok (first, t') => (ResAdd (Ok first), t') | Err e => (ResAdd (Err e), t) end
  | OpRemove id => let '(r, t') := Remove t id in (ResRemove r, t')
  | OpCleanupLink l order => let '(r, t') := CleanupLink t l order in (ResCleanup r, t')
  | OpCleanupExpired now order => let '(r, t') := CleanupExpired t now order in (ResCleanup r, t')
  | OpCleanupPolicy g order => let '(r, t') := CleanupPolicyGeneration t g order in (ResCleanup r, t')
  end.

(** The specification of an operation: the new map, and the result up to the order of the
    removed interests. *)
Definition spec_cleanup (p : Interest → bool) (m : gmap MessageID Interest) (r : interest_res) (m' : gmap MessageID Interest) : Prop :=
  m' = selected (λ i, negb (p i)) m ∧
  match r with ResCleanup removed => removed ≡ₚ (map_to_list (selected p m)).*2 | _ => False end.
Definition interest_spec (max : Z) (m : gmap MessageID Interest) (op : interest_op) (r : interest_res) (m' : gmap MessageID Interest) : Prop :=
  match op with
  | OpAdd i => match spec_Add max m i with
               | Ok (first, m1) => r = ResAdd (Ok first) ∧ m' = m1
               | Err e => r = ResAdd (Err e) ∧ m' = m
               end
  | OpRemove id => ∃ x, r = ResRemove x ∧ spec_Remove m id = (x, m')
  | OpCleanupLink l _ => spec_cleanup (λ i, String.eqb (i_LinkID i) l) m r m'
  | OpCleanupExpired now _ => spec_cleanup (λ i, (i_LeaseUntil i <=? now) || (i_AuthorizedUntil i <=? now)) m r m'
  | OpCleanupPolicy g _ => spec_cleanup (λ i, negb (i_PolicyGeneration i =? g)) m r m'
  end.

(** The iteration order of a cleanup is one of the orders of the map. *)
Definition op_order (t : InterestTable) (op : interest_op) : Prop :=
  match op with
  | OpCleanupLink _ order | OpCleanupExpired _ order | OpCleanupPolicy _ order => order ≡ₚ map_to_list (it_byID t)
  | _ => True
  end.

Inductive interest_reachable (max : Z) : InterestTable → Prop :=
| ir_new t : NewInterestTable max = Ok t → interest_reachable max t
| ir_step t op r t' :
    interest_reachable max t → op_order t op → interest_exec t op = (r, t') → interest_reachable max t'.

Lemma cleanup_spec p q t order r t' :
  (∀ i, p i = q i) → table_ok t → order ≡ₚ map_to_list (it_byID t) → cleanup p t order = (r, t') →
  spec_cleanup q (it_byID t) (ResCleanup r) (it_byID t') ∧ it_max t' = it_max t ∧ table_ok t'.
Proof.
  intros Hpq Ht Ho E. pose proof (cleanup_refines p t order Ht Ho) as H. rewrite E in H.
  destruct H as (H1 & H2 & H3 & H4). split_and!; [|done|done]. unfold spec_cleanup. split.
  - rewrite H2. unfold selected. apply map_filter_ext. intros. by rewrite Hpq.
  - rewrite H1. unfold selected. apply fmap_Permutation. f_equiv. apply map_filter_ext. intros. by rewrite Hpq.
Qed.

Lemma exec_refines t op r t' :
  table_ok t → op_order t op → interest_exec t op = (r, t') →
  interest_spec (it_max t) (it_byID t) op r (it_byID t') ∧ it_max t' = it_max t ∧ table_ok t'.
Proof.
  intros Ht Ho E. destruct op; simpl in *.
  - pose proof (Add_refines t i Ht) as H. destruct (Add t i) as [[first t1]|e]; simplify_eq.
    + destruct H as (-> & ? & ?). done.
    + by rewrite H.
  - pose proof (Remove_refines t id Ht) as H. destruct (Remove t id) as [x t1]; simplify_eq.
    destruct H as (? & ? & ?). eauto.
  - destruct (CleanupLink t linkID order) as [x t1] eqn:Ex; simplify_eq. by eapply cleanup_spec.
  - destruct (CleanupExpired t now order) as [x t1] eqn:Ex; simplify_eq. eapply cleanup_spec; [|done..].
    intros i. cbn beta. by rewrite <- !Z.leb_antisym.
  - destruct (CleanupPolicyGeneration t generation order) as [x t1] eqn:Ex; simplify_eq. by eapply cleanup_spec.
Qed.

Lemma reachable_table_ok max t : interest_reachable max t → table_ok t ∧ it_max t = max.
Proof.
  induction 1 as [t H|t op r t' _ [IH1 IH2] Ho E].
  - apply New_table_ok in H. tauto.
  - destruct (exec_refines _ _ _ _ IH1 Ho E) as (_ & H2 & H3). by rewrite H2.
Qed.

(** The interest table implements a bounded map of valid interests: in every reachable
    table, each operation returns and stores what the specification on the map alone says
    (the "first" flag of an addition and the "last" flag of a removal included), in every
    iteration order; the table never exceeds its limit, and the per-resource index lists exactly the interests of the
    resource. *)
Theorem Interest_refines max t op r t' :
  interest_reachable max t → op_order t op → interest_exec t op = (r, t') →
  interest_spec max (it_byID t) op r (it_byID t') ∧
  Z.of_nat (size (it_byID t')) ≤ max ∧
  ∀ res, group t' res = dom (interested (it_byID t') res).
Proof.
  intros Hr Ho E. destruct (reachable_table_ok _ _ Hr) as [Ht <-].
  destruct (exec_refines _ _ _ _ Ht Ho E) as (H1 & H2 & H3). split_and!; [done| |by intros; apply group_dom].
  pose proof (tk_size _ H3) as Hs. rewrite H2 in Hs.
  assert (0 < it_max t); [|lia].
  clear -Hr. remember (it_max t) as max eqn:E. clear E. 
  induction Hr as [t H|]; [|done]. unfold NewInterestTable in H. destruct (max <=? 0) eqn:E; [done|]. bool_prop. lia.
Qed.

Definition sample_interest (id : MessageID) (link : string) : Interest :=
  mkInterest id 7 (mkResourceID 3 "metrics/cpu") "data.read" link 9 100 200 1 4.
Definition sample_table : InterestTable :=
  let t := (interest_exec (mkInterestTable 2 ∅ ∅) (OpAdd (sample_interest 1 "a"))).2 in
  (interest_exec t (OpAdd (sample_interest 2 "b"))).2.
Definition sample_cleanup : interest_op := OpCleanupLink "a" (map_to_list (it_byID sample_table)).

Lemma Interest_refines_witness :
  interest_spec 2 (it_byID sample_table) sample_cleanup
    (ResCleanup [sample_interest 1 "a"]) {[ 2 := sample_interest 2 "b" ]} ∧
  Z.of_nat (size (it_byID sample_table)) = 2 ∧
  group (interest_exec sample_table sample_cleanup).2 (mkResourceID 3 "metrics/cpu") = {[ 2 ]}.
Proof.
  assert (interest_reachable 2 sample_table) as Hr.
  { eapply (ir_step _ _ (OpAdd (sample_interest 2 "b"))); [|exact I|by apply surjective_pairing].
    eapply (ir_step _ _ (OpAdd (sample_interest 1 "a"))); [|exact I|by apply surjective_pairing].
    by apply ir_new. }
  destruct (Interest_refines 2 sample_table sample_cleanup (ResCleanup [sample_interest 1 "a"])
              (interest_exec sample_table sample_cleanup).2 Hr) as (H1 & H2 & H3);
    [exact (Permutation_refl _)|vm_compute; reflexivity|].
  split_and!; [exact H1|vm_compute; reflexivity|rewrite H3; vm_compute; reflexivity].
Defined.
