(* ===== verification/Command.v ===== *)
(** * Command dispatch with deduplication (runtime/command/dispatcher.go)

    Calls run concurrently: [Invoke] checks a call, claims its message identifier in [begin],
    takes a slot, starts a worker and waits for the worker or for the deadline.  The mutex
    protects [pending] and the result cache (a map with an LRU list), so [begin],
    [endPending] and [complete] are atomic steps of the machine [dm]; an element of the list
    is represented by its record, whose identifier is unique in the list.  The authorizer is
    configuration, a parameter of the model; times are nanoseconds and the zero time is 0. *)

From S2P Require Import Prelude GoStd Wire.
Open Scope Z_scope.

(** ** Errors of an operation and results *)

(** The sentinels [execute] looks for with [errors.Is]. *)
Inductive sentinel :=
| SNotFound | SUnsupportedCapability | SInvalidSchema | SValueTooLarge | SInvalidPayload | SPayloadTooLarge
| SRevisionConflict | SDeadlineExceeded.
#[global] Instance sentinel_eq_dec : EqDecision sentinel.
Proof. solve_decision. Defined.

(** An error value: the sentinels it wraps, whether it is [Retryable], its text. *)
Record go_error := mkGoError { err_is : list sentinel; err_retryable : bool; err_text : string }.

Inductive operate_outcome :=
| Operated (schema : string) (payload : list byte)
| OperateError (e : go_error)
| OperatePanic (text : string).

Record Result := mkResult { res_Schema : string; res_Output : list byte; res_Failure : option ErrorPayload }.
Definition failed_with (f : ErrorPayload) : Result := mkResult "" [] (Some f).

Definition timeoutResult (message : string) : Result := failed_with (failure CodeTimeout message true).
Definition forbiddenResult (message : string) : Result := failed_with (failure CodeForbidden message false).
Definition duplicateResult : Result := failed_with (failure CodeConflict "duplicate command message" false).

(** [ctx.Err()]: the deadline passed, or the parent was cancelled. *)
Inductive context_error := DeadlineExceeded | Canceled.
Definition resultForContext (e : context_error) : Result :=
  match e with
  | DeadlineExceeded => timeoutResult "context deadline exceeded"
  | Canceled => failed_with (failure CodeExpired "context canceled" true)
  end.

Definition Is (e : go_error) (s : sentinel) : bool := bool_decide (s ∈ err_is e).
(** The code chosen by the sequence of tests in [execute]: the last one that holds. *)
Definition error_code (e : go_error) : string :=
  let code := CodeInternal in
  let code := if Is e SNotFound then CodeNotFound else code in
  let code := if Is e SUnsupportedCapability then CodeUnsupported else code in
  let code := if Is e SInvalidSchema || Is e SValueTooLarge then CodeMalformed else code in
  let code := if Is e SInvalidPayload then CodeMalformed else code in
  let code := if Is e SPayloadTooLarge then CodeOverflow else code in
  let code := if Is e SRevisionConflict then CodeConflict else code in
  if Is e SDeadlineExceeded then CodeTimeout else code.
Definition execute (outcome : operate_outcome) : Result :=
  match outcome with
  | OperatePanic text => failed_with (failure CodeInternal ("command handler panic: " +:+ text) false)
  | OperateError e => failed_with (failure (error_code e) (err_text e) (err_retryable e))
  | Operated schema payload => mkResult schema payload None
  end.

(** ** Configuration and calls *)

Record Config := mkConfig { MaxActive : Z; MaxDedup : Z; DedupTTL : Z }.

Definition Config_normalized (c : Config) : option Config :=
  let active := if MaxActive c <=? 0 then 64 else MaxActive c in
  let dedup := if MaxDedup c <=? 0 then 4096 else MaxDedup c in
  let ttl := if DedupTTL c <=? 0 then 300000000000 else DedupTTL c in
  if dedup <? active then None else Some (mkConfig active dedup ttl).

Definition OriginAdjudicated : Z := 1.
Definition OriginParentControl : Z := 2.

Record Call := mkCall {
  c_MessageID : MessageID;
  c_Source : NodeID;
  c_Resource : ResourceID;
  c_Capability : CapabilityID;
  c_Schema : string;
  c_Input : list byte;
  c_Deadline : Z;
  c_Origin : Z
}.

(** ** The dispatcher *)

Record cacheRecord := mkCacheRecord { cr_id : MessageID; cr_result : Result; cr_expires : Z }.

Record Dispatcher := mkDispatcher {
  d_config : Config;
  d_active : Z;                        (* tokens in the [active] channel *)
  d_pending : gset MessageID;
  d_cache : gmap MessageID cacheRecord;
  d_lru : list cacheRecord             (* front first *)
}.

Definition NewDispatcher (config : Config) : option Dispatcher :=
  c ← Config_normalized config; Some (mkDispatcher c 0 ∅ ∅ []).

Definition set_cache (d : Dispatcher) (cache : gmap MessageID cacheRecord) (lru : list cacheRecord) : Dispatcher :=
  mkDispatcher (d_config d) (d_active d) (d_pending d) cache lru.
Definition set_pending (d : Dispatcher) (pending : gset MessageID) : Dispatcher :=
  mkDispatcher (d_config d) (d_active d) pending (d_cache d) (d_lru d).
Definition set_active (d : Dispatcher) (active : Z) : Dispatcher :=
  mkDispatcher (d_config d) active (d_pending d) (d_cache d) (d_lru d).

(** [list.Remove] of the element of a record. *)
Definition lru_remove (id : MessageID) (lru : list cacheRecord) : list cacheRecord :=
  filter (λ r, cr_id r ≠ id) lru.

(** The loop of [pruneLocked], on the front of the list. *)
Fixpoint prune_loop (now : Z) (cache : gmap MessageID cacheRecord) (lru : list cacheRecord)
    : gmap MessageID cacheRecord * list cacheRecord :=
  match lru with
  | [] => (cache, [])
  | front :: rest =>
    if now <? cr_expires front then (cache, lru) else prune_loop now (delete (cr_id front) cache) rest
  end.
Definition pruneLocked (d : Dispatcher) (now : Z) : Dispatcher :=
  let '(cache, lru) := prune_loop now (d_cache d) (d_lru d) in set_cache d cache lru.

Definition removeOldestLocked (d : Dispatcher) : Dispatcher :=
  match d_lru d with
  | [] => d
  | front :: rest => set_cache d (delete (cr_id front) (d_cache d)) rest
  end.

(** The loop of [complete]; every turn removes a record, so [fuel] is the size of the cache. *)
Fixpoint evict_loop (fuel : nat) (d : Dispatcher) : Dispatcher :=
  match fuel with
  | O => d
  | S fuel => if MaxDedup (d_config d) <? Z.of_nat (size (d_cache d)) then evict_loop fuel (removeOldestLocked d) else d
  end.

Definition begin (d : Dispatcher) (id : MessageID) (now : Z) : Dispatcher * option Result :=
  let d := pruneLocked d now in
  if bool_decide (id ∈ d_pending d) then (d, Some duplicateResult)
  else match d_cache d !! id with
       | Some record =>
         let d := set_cache d (d_cache d) (lru_remove id (d_lru d) ++ [record]) in
         (d, Some (match res_Failure (cr_result record) with
                   | Some f => failed_with (mkErrorPayload CodeConflict "duplicate command message" false
                                              {[ "previous_code" := ep_Code f ]})
                   | None => duplicateResult
                   end))
       | None => (set_pending d ({[ id ]} ∪ d_pending d), None)
       end.

Definition endPending (d : Dispatcher) (id : MessageID) : Dispatcher := set_pending d (d_pending d ∖ {[ id ]}).

Definition complete (d : Dispatcher) (id : MessageID) (result : Result) (now : Z) : Dispatcher :=
  let d := set_pending d (d_pending d ∖ {[ id ]}) in
  let d := pruneLocked d now in
  let d := match d_cache d !! id with
           | Some _ => set_cache d (delete id (d_cache d)) (lru_remove id (d_lru d))
           | None => d
           end in
  let record := mkCacheRecord id result (now + DedupTTL (d_config d)) in
  let d := set_cache d (<[id := record]> (d_cache d)) (d_lru d ++ [record]) in
  evict_loop (size (d_cache d)) d.

(** ** [Invoke] *)

Inductive invoke_error :=
| EMessageID | ECallWire (e : wire_error) | EDeadline | ErrUnauthorizedOrigin | EUnauthorized (text : string)
| ErrDuplicate | ErrPendingLimit | EContext (e : context_error).

Section invoke.
(** [Config.Authorizer]: [Some text] when it returns an error. *)
Context (Authorizer : option (Call → option string)).

(** The checks before the identifier is claimed. *)
Definition check_call (call : Call) (now : Z) : result (Result * invoke_error) unit :=
  fail_if MessageID_IsZero (c_MessageID call) with (mkResult "" [] None, EMessageID) ;;
  _ ← mapErr (λ e, (mkResult "" [] None, ECallWire e)) (NodeID_Validate (c_Source call));
  _ ← mapErr (λ e, (mkResult "" [] None, ECallWire e)) (ResourceID_Validate (c_Resource call));
  _ ← mapErr (λ e, (mkResult "" [] None, ECallWire e)) (CapabilityID_Validate (c_Capability call));
  fail_if (c_Deadline call =? 0) || negb (now <? c_Deadline call)
    with (timeoutResult "command deadline has expired", EDeadline) ;;
  fail_if negb (c_Origin call =? OriginAdjudicated) && negb (c_Origin call =? OriginParentControl)
    with (forbiddenResult "command has no trusted authorization origin", ErrUnauthorizedOrigin) ;;
  if c_Origin call =? OriginAdjudicated then
    match Authorizer with
    | None => Err (forbiddenResult "command authorizer is not configured", ErrUnauthorizedOrigin)
    | Some authorize =>
      match authorize call with
      | Some text => Err (forbiddenResult text, EUnauthorized text)
      | None => Ok tt
      end
    end
  else Ok tt.

(** A goroutine inside [Invoke]: before the slot, or waiting for its worker. *)
Inductive caller := Admitting (call : Call) | Awaiting (call : Call).

Record dm := mkDm {
  dm_d : Dispatcher;
  dm_callers : gmap nat caller;
  dm_workers : gmap nat Call;
  dm_log : list Call                 (* the calls whose execution was started *)
}.
Definition dm_start (d : Dispatcher) : dm := mkDm d ∅ ∅ [].

Inductive dlabel :=
| DInvoke (t : nat) (call : Call) (now : Z)  (* a new goroutine: checks and [begin] *)
| DSpawn (t : nat)                           (* a slot was free: the worker starts *)
| DReject (t : nat)                          (* no slot: [ErrPendingLimit] *)
| DCancel (t : nat)                          (* the parent context is done *)
| DReturn (t : nat) (outcome : operate_outcome) (now : Z) (* the worker hands its result over *)
| DTimeout (t : nat) (e : context_error) (now : Z)        (* the deadline or the parent first *)
| DLate (t : nat).                           (* a worker sees its context done *)

(** One step: the new state and what [Invoke] returned, if it did; [None] when the step is
    not possible. *)
Definition dstep (m : dm) (l : dlabel) : option (dm * option (Result * option invoke_error)) :=
  let d := dm_d m in
  match l with
  | DInvoke t call now =>
    match dm_callers m !! t, dm_workers m !! t with
    | None, None =>
      match check_call call now with
      | Err (r, e) => Some (m, Some (r, Some e))
      | Ok _ =>
        match begin d (c_MessageID call) now with
        | (d, Some cached) => Some (mkDm d (dm_callers m) (dm_workers m) (dm_log m), Some (cached, Some ErrDuplicate))
        | (d, None) => Some (mkDm d (<[t := Admitting call]> (dm_callers m)) (dm_workers m) (dm_log m), None)
        end
      end
    | _, _ => None
    end
  | DSpawn t =>
    match dm_callers m !! t with
    | Some (Admitting call) =>
      if d_active d <? MaxActive (d_config d)
      then Some (mkDm (set_active d (d_active d + 1)) (<[t := Awaiting call]> (dm_callers m))
                   (<[t := call]> (dm_workers m)) (dm_log m ++ [call]), None)
      else None
    | _ => None
    end
  | DReject t =>
    match dm_callers m !! t with
    | Some (Admitting call) =>
      if d_active d <? MaxActive (d_config d) then None
      else Some (mkDm (endPending d (c_MessageID call)) (delete t (dm_callers m)) (dm_workers m) (dm_log m),
                 Some (failed_with (failure CodeOverflow "command concurrency limit reached" true), Some ErrPendingLimit))
    | _ => None
    end
  | DCancel t =>
    match dm_callers m !! t with
    | Some (Admitting call) =>
      Some (mkDm (endPending d (c_MessageID call)) (delete t (dm_callers m)) (dm_workers m) (dm_log m),
            Some (resultForContext Canceled, Some (EContext Canceled)))
    | _ => None
    end
  | DReturn t outcome now =>
    match dm_callers m !! t, dm_workers m !! t with
    | Some (Awaiting call), Some _ =>
      let r := execute outcome in
      let d := complete d (c_MessageID call) r now in
      Some (mkDm (set_active d (d_active d - 1)) (delete t (dm_callers m)) (delete t (dm_workers m)) (dm_log m),
            Some (r, None))
    | _, _ => None
    end
  | DTimeout t e now =>
    match dm_callers m !! t with
    | Some (Awaiting call) =>
      let r := resultForContext e in
      Some (mkDm (complete d (c_MessageID call) r now) (delete t (dm_callers m)) (dm_workers m) (dm_log m),
            Some (r, Some (EContext e)))
    | _ => None
    end
  | DLate t =>
    match dm_workers m !! t with
    | Some _ => Some (mkDm (set_active d (d_active d - 1)) (dm_callers m) (delete t (dm_workers m)) (dm_log m), None)
    | None => None
    end
  end.

Fixpoint drun (m : dm) (ls : list dlabel) : option dm :=
  match ls with
  | [] => Some m
  | l :: rest => '(m', _) ← dstep m l; drun m' rest
  end.
End invoke.

(** ** The cache and its list *)

Definition lru_map (lru : list cacheRecord) : gmap MessageID cacheRecord :=
  list_to_map ((λ r, (cr_id r, r)) <$> lru).
(** The list has one record per identifier and the map is that of the list. *)
Definition lru_ok (cache : gmap MessageID cacheRecord) (lru : list cacheRecord) : Prop :=
  NoDup (cr_id <$> lru) ∧ cache = lru_map lru.

Lemma lru_map_lookup lru id r : NoDup (cr_id <$> lru) → lru_map lru !! id = Some r ↔ r ∈ lru ∧ cr_id r = id.
Proof.
  intros Hn. unfold lru_map. rewrite <- elem_of_list_to_map by (by rewrite <- list_fmap_compose).
  rewrite list_elem_of_fmap. split.
  - intros (r' & [= -> ->] & H). done.
  - intros [H <-]. eauto.
Qed.

Lemma lru_map_None lru id : lru_map lru !! id = None ↔ id ∉ cr_id <$> lru.
Proof.
  unfold lru_map. rewrite <- not_elem_of_list_to_map. by rewrite <- list_fmap_compose.
Qed.

Lemma lru_map_cons r lru : lru_map (r :: lru) = <[cr_id r := r]> (lru_map lru).
Proof. done. Qed.

Lemma lru_map_size lru : NoDup (cr_id <$> lru) → size (lru_map lru) = length lru.
Proof.
  induction lru as [|r lru IH]; intros Hn; [done|]. apply NoDup_cons in Hn as [Hr Hn].
  rewrite lru_map_cons, map_size_insert_None by (by apply lru_map_None). by rewrite IH.
Qed.

Lemma lru_map_cons_delete r lru : NoDup (cr_id <$> r :: lru) → delete (cr_id r) (lru_map (r :: lru)) = lru_map lru.
Proof.
  intros [Hr Hn]%NoDup_cons. rewrite lru_map_cons, delete_insert_id; [done|]. by apply lru_map_None.
Qed.

Lemma lru_ok_filter cache lru id : lru_ok cache lru → lru_ok (delete id cache) (lru_remove id lru).
Proof.
  intros [Hn ->]. unfold lru_ok, lru_remove.
  assert (NoDup (cr_id <$> filter (λ r, cr_id r ≠ id) lru)) as Hn'.
  { clear -Hn. induction lru as [|r lru IH]; [done|]. apply NoDup_cons in Hn as [Hr Hn]. rewrite filter_cons.
    case_decide; [|by apply IH]. apply NoDup_cons. split; [|by apply IH]. intros (y & Hy & Hin)%list_elem_of_fmap.
    apply Hr. rewrite Hy. apply list_elem_of_filter in Hin as [_ Hin]. by apply list_elem_of_fmap_2. }
  split; [done|]. apply map_eq. intros k. apply option_eq. intros r.
  rewrite lookup_delete_Some, !lru_map_lookup, list_elem_of_filter by done. split.
  - intros (Hne & Hin & <-). auto.
  - intros ((Hne & Hin) & <-). auto.
Qed.

Lemma lru_ok_snoc cache lru r : lru_ok cache lru → cache !! cr_id r = None → lru_ok (<[cr_id r := r]> cache) (lru ++ [r]).
Proof.
  intros [Hn ->] Hr. apply lru_map_None in Hr.
  assert (NoDup (cr_id <$> lru ++ [r])) as Hn'.
  { rewrite fmap_app. apply NoDup_app. split_and!; [done| |apply NoDup_singleton]. intros x Hx ->%list_elem_of_singleton. done. }
  split; [done|]. apply map_eq. intros k. apply option_eq. intros x.
  rewrite lookup_insert_Some, !lru_map_lookup, elem_of_app, list_elem_of_singleton by done. split.
  - intros [[<- <-]|(Hne & Hin & <-)]; auto.
  - intros [[Hin| ->] <-]; [|by left]. right. split_and!; try done. intros E. apply Hr. rewrite E. by apply list_elem_of_fmap_2.
Qed.

(** Pruning removes a prefix of expired records. *)
Lemma prune_loop_spec now cache lru :
  lru_ok cache lru →
  let '(cache', lru') := prune_loop now cache lru in
  lru_ok cache' lru' ∧ ∃ gone, lru = gone ++ lru' ∧ Forall (λ r, cr_expires r ≤ now) gone.
Proof.
  revert cache. induction lru as [|r lru IH]; intros cache Hok; simpl; [by split; [|exists []]|].
  destruct (now <? cr_expires r) eqn:E; [by split; [|exists []]|]. bool_prop.
  destruct Hok as [Hn ->]. specialize (IH (delete (cr_id r) (lru_map (r :: lru)))).
  rewrite lru_map_cons_delete in * by done. destruct (prune_loop now (lru_map lru) lru) as [cache' lru'].
  destruct IH as [H1 (gone & -> & H2)]; [split; [by apply NoDup_cons in Hn as [_ ?]|done]|].
  split; [done|]. exists (r :: gone). split; [done|]. by constructor.
Qed.

Lemma pruneLocked_spec d now :
  lru_ok (d_cache d) (d_lru d) →
  let d' := pruneLocked d now in
  lru_ok (d_cache d') (d_lru d') ∧ (∃ gone, d_lru d = gone ++ d_lru d' ∧ Forall (λ r, cr_expires r ≤ now) gone) ∧
  d_config d' = d_config d ∧ d_active d' = d_active d ∧ d_pending d' = d_pending d.
Proof.
  intros H. unfold pruneLocked. pose proof (prune_loop_spec now _ _ H) as Hp.
  destruct (prune_loop now (d_cache d) (d_lru d)) as [cache lru]. destruct Hp as [H1 H2]. done.
Qed.

(** Eviction removes records from the front until the limit holds. *)
Lemma evict_loop_spec fuel d :
  lru_ok (d_cache d) (d_lru d) → 0 ≤ MaxDedup (d_config d) → (length (d_lru d) ≤ fuel)%nat →
  let d' := evict_loop fuel d in
  lru_ok (d_cache d') (d_lru d') ∧
  d_lru d' = drop (length (d_lru d) - Z.to_nat (MaxDedup (d_config d))) (d_lru d) ∧
  d_config d' = d_config d ∧ d_active d' = d_active d ∧ d_pending d' = d_pending d.
Proof.
  revert d. induction fuel as [|fuel IH]; intros d Hok Hm Hf; simpl.
  { destruct (d_lru d) eqn:E; [|simpl in Hf; lia]. split_and!; done. }
  destruct Hok as [Hn Hc]. rewrite Hc, lru_map_size by done.
  destruct (Z.ltb_spec (MaxDedup (d_config d)) (Z.of_nat (length (d_lru d)))).
  - destruct (d_lru d) as [|r lru] eqn:El; [simpl in *; lia|].
    assert (removeOldestLocked d = set_cache d (lru_map lru) lru) as ->.
    { unfold removeOldestLocked. rewrite El, Hc. by rewrite lru_map_cons_delete. }
    destruct (IH (set_cache d (lru_map lru) lru)) as (H1 & H2 & H3).
    + split; [by apply NoDup_cons in Hn as [_ ?]|done].
    + done.
    + simpl in *. lia.
    + split_and!; try done; [|tauto..]. rewrite H2. simpl d_lru. simpl d_config.
      replace (length (r :: lru) - Z.to_nat (MaxDedup (d_config d)))%nat
        with (S (length lru - Z.to_nat (MaxDedup (d_config d)))) by (simpl in *; lia). done.
  - replace (length (d_lru d) - Z.to_nat (MaxDedup (d_config d)))%nat with 0%nat by lia. done.
Qed.

(** What [complete] leaves: the record at the back, older ones evicted only beyond the limit. *)
Lemma complete_spec d id r now :
  lru_ok (d_cache d) (d_lru d) → 0 < MaxDedup (d_config d) →
  let d' := complete d id r now in
  lru_ok (d_cache d') (d_lru d') ∧
  (∃ gone kept, d_lru d = gone ++ kept ∧ Forall (λ r, cr_expires r ≤ now) gone ∧
     let l := lru_remove id kept ++ [mkCacheRecord id r (now + DedupTTL (d_config d))] in
     d_lru d' = drop (length l - Z.to_nat (MaxDedup (d_config d))) l) ∧
  d_config d' = d_config d ∧ d_active d' = d_active d ∧ d_pending d' = d_pending d ∖ {[ id ]}.
Proof.
  intros Hok Hm. unfold complete.
  destruct (pruneLocked_spec (set_pending d (d_pending d ∖ {[ id ]})) now) as (H1 & (gone & H2 & H3) & H4 & H5 & H6); [done|].
  set (d1 := pruneLocked _ now) in *.
  set (d2 := match d_cache d1 !! id with Some _ => _ | None => d1 end).
  assert (lru_ok (d_cache d2) (d_lru d2) ∧ d_cache d2 !! id = None ∧ d_lru d2 = lru_remove id (d_lru d1) ∧
          d_config d2 = d_config d ∧ d_active d2 = d_active d ∧ d_pending d2 = d_pending d ∖ {[ id ]})
    as (K1 & K2 & K3 & K4 & K5 & K6).
  { unfold d2. destruct (d_cache d1 !! id) eqn:E; simpl.
    - split_and!; try done; [by apply lru_ok_filter|by rewrite lookup_delete_eq].
    - split_and!; try done. destruct H1 as [Hn Hc]. rewrite Hc in E. apply lru_map_None in E.
      unfold lru_remove. clear -E. induction (d_lru d1) as [|x l IH]; [done|]. rewrite fmap_cons, not_elem_of_cons in E.
      destruct E as [E1 E2]. rewrite filter_cons, decide_True by congruence. by rewrite <- IH. }
  clearbody d2. rewrite K4.
  assert (lru_ok (<[id := mkCacheRecord id r (now + DedupTTL (d_config d))]> (d_cache d2))
            (d_lru d2 ++ [mkCacheRecord id r (now + DedupTTL (d_config d))])) as L by (by apply (lru_ok_snoc _ _ (mkCacheRecord id r _))).
  match goal with |- context [evict_loop ?n ?x] => destruct (evict_loop_spec n x) as (E1 & E2 & E3 & E4 & E5) end; simpl in *.
  - done.
  - rewrite K4. lia.
  - destruct L as [Ln Lc]. rewrite Lc, lru_map_size by done. done.
  - split_and!; [done| |congruence..]. exists gone, (d_lru d1). split_and!; [done|done|]. by rewrite E2, K3, K4.
Qed.

Lemma lru_remove_ids id l x : x ∈ cr_id <$> lru_remove id l ↔ x ∈ cr_id <$> l ∧ x ≠ id.
Proof.
  unfold lru_remove. rewrite !list_elem_of_fmap. setoid_rewrite list_elem_of_filter. split.
  - intros (r & -> & Hne & Hin). split; eauto.
  - intros [(r & -> & Hin) Hne]. eauto.
Qed.

Lemma lru_remove_length id l : (length (lru_remove id l) ≤ length l)%nat.
Proof. apply length_filter. Qed.
Lemma lru_remove_length_in id l : id ∈ cr_id <$> l → (length (lru_remove id l) < length l)%nat.
Proof.
  intros (r & -> & Hin)%list_elem_of_fmap. unfold lru_remove. induction l as [|x l IH]; [by apply not_elem_of_nil in Hin|].
  rewrite filter_cons. simpl. pose proof (lru_remove_length (cr_id r) l) as Hl. unfold lru_remove in Hl.
  apply elem_of_cons in Hin as [<-|Hin]; [rewrite decide_False by tauto; lia|]. apply IH in Hin.
  case_decide; simpl; lia.
Qed.

(** What [begin] leaves; [Some] is a duplicate. *)
Lemma begin_spec d id now :
  lru_ok (d_cache d) (d_lru d) →
  let '(d', o) := begin d id now in
  lru_ok (d_cache d') (d_lru d') ∧ d_config d' = d_config d ∧ d_active d' = d_active d ∧
  (∃ gone kept, d_lru d = gone ++ kept ∧ Forall (λ r, cr_expires r ≤ now) gone ∧
     (d_lru d' = kept ∨ ∃ r, r ∈ kept ∧ cr_id r = id ∧ d_lru d' = lru_remove id kept ++ [r])) ∧
  match o with
  | Some _ => d_pending d' = d_pending d ∧ (id ∈ d_pending d ∨ id ∈ cr_id <$> d_lru d)
  | None => d_pending d' = {[ id ]} ∪ d_pending d ∧ ¬ (id ∈ d_pending d) ∧ ¬ (id ∈ cr_id <$> d_lru d')
  end.
Proof.
  intros Hok. unfold begin. destruct (pruneLocked_spec d now Hok) as (H1 & (gone & H2 & H3) & H4 & H5 & H6).
  set (d1 := pruneLocked d now) in *. rewrite <- H6.
  case_bool_decide as Hp; [split_and!; eauto 10|].
  destruct (d_cache d1 !! id) as [r|] eqn:E; simpl.
  - destruct H1 as [Hn Hc]. rewrite Hc in E. apply lru_map_lookup in E as [Hr Hid]; [|done].
    split_and!; try done.
    + assert (lru_ok (delete id (d_cache d1)) (lru_remove id (d_lru d1))) as Hf by (by apply lru_ok_filter).
      apply (lru_ok_snoc _ _ r) in Hf; [|rewrite Hid; apply lookup_delete_eq].
      rewrite Hid, insert_delete_eq, insert_id in Hf; [done|]. rewrite Hc. by apply lru_map_lookup.
    + exists gone, (d_lru d1). split_and!; try done. right. eauto.
    + right. rewrite H2, fmap_app, elem_of_app. right. rewrite <- Hid. by apply list_elem_of_fmap_2.
  - split_and!; try done; [by exists gone, (d_lru d1); auto|]. destruct H1 as [Hn Hc]. rewrite Hc in E. by apply lru_map_None in E.
Qed.

(** ** The invariant of the machine *)

Definition call_of (c : caller) : Call := match c with Admitting call | Awaiting call => call end.
Definition config_ok (c : Config) : Prop := 0 < MaxActive c ≤ MaxDedup c ∧ 0 < DedupTTL c.

Section machine.
Context (Authorizer : option (Call → option string)).

(** The call passed the checks of [Invoke] at some moment. *)
Definition vetted (call : Call) : Prop := ∃ now, check_call Authorizer call now = Ok tt.

Record dm_ok (m : dm) : Prop := mkDmOk {
  dk_config : config_ok (d_config (dm_d m));
  dk_active : d_active (dm_d m) = Z.of_nat (size (dm_workers m)) ∧ d_active (dm_d m) ≤ MaxActive (d_config (dm_d m));
  dk_lru : lru_ok (d_cache (dm_d m)) (d_lru (dm_d m));
  dk_size : Z.of_nat (length (d_lru (dm_d m))) ≤ MaxDedup (d_config (dm_d m));
  dk_disjoint : ∀ id, id ∈ d_pending (dm_d m) → id ∉ cr_id <$> d_lru (dm_d m);
  dk_pending : ∀ id, id ∈ d_pending (dm_d m) ↔ ∃ t c, dm_callers m !! t = Some c ∧ c_MessageID (call_of c) = id;
  dk_unique : ∀ t t' c c', dm_callers m !! t = Some c → dm_callers m !! t' = Some c' →
    c_MessageID (call_of c) = c_MessageID (call_of c') → t = t';
  dk_spawned : ∀ t call, dm_callers m !! t = Some (Admitting call) → dm_workers m !! t = None;
  dk_callers : ∀ t c, dm_callers m !! t = Some c → vetted (call_of c);
  dk_log : Forall vetted (dm_log m)
}.

Lemma begin_ids d id now d' o :
  lru_ok (d_cache d) (d_lru d) → begin d id now = (d', o) →
  (∀ x, x ∈ cr_id <$> d_lru d' → x ∈ cr_id <$> d_lru d) ∧ (length (d_lru d') ≤ length (d_lru d))%nat.
Proof.
  intros Hok Hb. pose proof (begin_spec d id now Hok) as H. rewrite Hb in H.
  destruct H as (_ & _ & _ & (gone & kept & E & _ & Hk) & _). rewrite E, fmap_app, length_app.
  destruct Hk as [->|(r & Hr & <- & ->)]; [split; [set_solver|lia]|]. split.
  - intros x. rewrite fmap_app, !elem_of_app, lru_remove_ids. simpl. rewrite list_elem_of_singleton.
    intros [[? _]| ->]; [by right|]. right. by apply list_elem_of_fmap_2.
  - rewrite length_app. simpl. assert (length (lru_remove (cr_id r) kept) < length kept)%nat; [|lia].
    apply lru_remove_length_in. by apply list_elem_of_fmap_2.
Qed.

Lemma complete_ids d id r now :
  lru_ok (d_cache d) (d_lru d) → 0 < MaxDedup (d_config d) →
  (∀ x, x ∈ cr_id <$> d_lru (complete d id r now) → x = id ∨ x ∈ cr_id <$> d_lru d) ∧
  Z.of_nat (length (d_lru (complete d id r now))) ≤ MaxDedup (d_config d).
Proof.
  intros Hok Hm. destruct (complete_spec d id r now Hok Hm) as (_ & (gone & kept & E & _ & Hl) & _). rewrite Hl. split.
  - intros x Hx. rewrite fmap_drop in Hx. set (n := (_ - _)%nat) in Hx. revert Hx. set (l := cr_id <$> _). intros Hx.
    assert (x ∈ l) as Hi by (rewrite <- (take_drop n l), elem_of_app; by right). unfold l in Hi.
    rewrite fmap_app, elem_of_app, lru_remove_ids in Hi. simpl in Hi. rewrite list_elem_of_singleton in Hi.
    rewrite E, fmap_app, elem_of_app. tauto.
  - rewrite length_drop. lia.
Qed.

(** Removing a caller releases exactly its identifier. *)
Lemma remove_caller m t c :
  dm_ok m → dm_callers m !! t = Some c → ∀ id,
  id ∈ d_pending (dm_d m) ∖ {[ c_MessageID (call_of c) ]} ↔
  ∃ t' c', delete t (dm_callers m) !! t' = Some c' ∧ c_MessageID (call_of c') = id.
Proof.
  intros H Hc id. rewrite elem_of_difference, elem_of_singleton, (dk_pending m H). split.
  - intros [(t' & c' & Hc' & <-) Hne]. exists t', c'. split; [|done]. rewrite lookup_delete_Some. split; [|done].
    intros ->. congruence.
  - intros (t' & c' & Hc' & <-). apply lookup_delete_Some in Hc' as [Hne Hc']. split; [eauto|].
    intros E. by apply Hne, (dk_unique m H t t' c c').
Qed.

Lemma DInvoke_ok m t call now m' o :
  dm_ok m → dstep Authorizer m (DInvoke t call now) = Some (m', o) → dm_ok m'.
Proof.
  intros H. simpl. destruct (dm_callers m !! t) eqn:Et; [done|]. destruct (dm_workers m !! t) eqn:Ew; [done|].
  destruct (check_call Authorizer call now) as [[]|[r e]] eqn:Ec; [|by intros [= <- <-]].
  pose proof (begin_spec (dm_d m) (c_MessageID call) now (dk_lru m H)) as Hb.
  pose proof (begin_ids (dm_d m) (c_MessageID call) now) as Hi.
  destruct (begin (dm_d m) (c_MessageID call) now) as [d' o'].
  destruct (Hi d' o' (dk_lru m H) eq_refl) as [Hids Hlen]. clear Hi.
  destruct Hb as (B1 & B2 & B3 & _ & B5). destruct H as [C A L S D P U W V G].
  destruct o' as [res|]; intros [= <- <-]; split; simpl; try rewrite !B2; try rewrite !B3; try done; try lia.
  - destruct B5 as [-> _]. intros id Hid Hx. by apply (D id), Hids.
  - destruct B5 as [-> _]. done.
  - destruct B5 as (-> & Hn & Hn'). intros id [->%elem_of_singleton|Hid]%elem_of_union Hx; [done|]. by apply (D id), Hids.
  - destruct B5 as (-> & Hn & Hn'). intros id. rewrite elem_of_union, elem_of_singleton, P. split.
    + intros [->|(t' & c & Hc & Hid)]; [exists t, (Admitting call); by rewrite lookup_insert_eq|].
      exists t', c. rewrite lookup_insert_ne by congruence. done.
    + intros (t' & c & Hc & Hid). apply lookup_insert_Some in Hc as [[-> <-]|[_ Hc]]; [by left|right; eauto].
  - destruct B5 as (_ & Hn & _). rewrite P in Hn.
    intros t1 t2 c1 c2 H1 H2 E. apply lookup_insert_Some in H1 as [[<- <-]|[Hn1 H1]], H2 as [[<- <-]|[Hn2 H2]]; try done.
    + destruct Hn. eauto.
    + destruct Hn. eauto.
    + by eapply U.
  - intros t' call'. rewrite lookup_insert_Some. intros [[<- _]|[_ Hc]]; [done|by eapply W].
  - intros t' c. rewrite lookup_insert_Some. intros [[_ <-]|[_ Hc]]; [by exists now|by eapply V].
Qed.

Lemma endPending_ok m t c :
  dm_ok m → dm_callers m !! t = Some c →
  dm_ok (mkDm (endPending (dm_d m) (c_MessageID (call_of c))) (delete t (dm_callers m)) (dm_workers m) (dm_log m)).
Proof.
  intros H Hc. pose proof (remove_caller m t c H Hc) as Hr. destruct H as [C A L S D P U W V G]. split; simpl; try done.
  - intros id [Hid _]%elem_of_difference. by apply D.
  - intros t1 t2 c1 c2 [_ H1]%lookup_delete_Some [_ H2]%lookup_delete_Some. by apply U.
  - intros t' call [_ H']%lookup_delete_Some. by eapply W.
  - intros t' c' [_ H']%lookup_delete_Some. by eapply V.
Qed.

(** Completing the call of a waiting caller; [workers] is what is left of the workers. *)
Lemma complete_ok m t call r now n workers :
  dm_ok m → dm_callers m !! t = Some (Awaiting call) →
  n = Z.of_nat (size workers) → n ≤ d_active (dm_d m) →
  (∀ t', dm_workers m !! t' = None → workers !! t' = None) →
  dm_ok (mkDm (set_active (complete (dm_d m) (c_MessageID call) r now) n) (delete t (dm_callers m)) workers (dm_log m)).
Proof.
  intros H Hc Hn Hle Hw. pose proof (remove_caller m t _ H Hc) as Hr. simpl in Hr.
  destruct H as [C A L S D P U W V G].
  destruct (complete_spec (dm_d m) (c_MessageID call) r now L) as (K1 & _ & K3 & K4 & K5); [unfold config_ok in C; lia|].
  destruct (complete_ids (dm_d m) (c_MessageID call) r now L) as (I1 & I2); [unfold config_ok in C; lia|].
  split; simpl; rewrite ?K3, ?K5; try done; try lia.
  - intros id [Hid Hne]%elem_of_difference Hx. apply I1 in Hx as [->|Hx]; [set_solver|]. by apply (D id).
  - intros t1 t2 c1 c2 [_ H1]%lookup_delete_Some [_ H2]%lookup_delete_Some. by apply U.
  - intros t' call' [_ H']%lookup_delete_Some. apply Hw. by eapply W.
  - intros t' c' [_ H']%lookup_delete_Some. by eapply V.
Qed.

Lemma dstep_ok m l m' o : dm_ok m → dstep Authorizer m l = Some (m', o) → dm_ok m'.
Proof.
  intros H Hs. destruct l as [t call now|t|t|t|t outcome now|t e now|t]; [by eapply DInvoke_ok|..]; simpl in Hs.
  - destruct (dm_callers m !! t) as [[call|]|] eqn:Et; try done. destruct (Z.ltb_spec (d_active (dm_d m)) (MaxActive (d_config (dm_d m)))); [|done].
    simplify_eq. destruct H as [C A L S D P U W V G]. split; simpl; try done.
    + rewrite map_size_insert_None by (by eapply W). lia.
    + intros id. rewrite P. split; intros (t' & c & Hc & Hid).
      * destruct (decide (t' = t)) as [->|Hne]; [exists t, (Awaiting call); rewrite lookup_insert_eq; by simplify_eq|].
        exists t', c. by rewrite lookup_insert_ne.
      * apply lookup_insert_Some in Hc as [[<- <-]|[_ Hc]]; eauto.
    + intros t1 t2 c1 c2 H1 H2 E. apply lookup_insert_Some in H1 as [[<- <-]|[Hn1 H1]], H2 as [[<- <-]|[Hn2 H2]]; try done;
        by eapply U.
    + intros t' call'. rewrite !lookup_insert_Some, lookup_insert_None. intros [[_ ?]|[Hne Hc]]; [done|]. split; [by eapply W|done].
    + intros t' c. rewrite lookup_insert_Some. intros [[_ <-]|[_ Hc]]; [by apply (V t (Admitting call))|by eapply V].
    + apply Forall_app. split; [done|]. apply Forall_singleton. by apply (V t (Admitting call)).
  - destruct (dm_callers m !! t) as [[call|]|] eqn:Et; try done. destruct (_ <? _); simplify_eq. by apply (endPending_ok m t (Admitting call)).
  - destruct (dm_callers m !! t) as [[call|]|] eqn:Et; try done. simplify_eq. by apply (endPending_ok m t (Admitting call)).
  - destruct (dm_callers m !! t) as [[|call]|] eqn:Et; try done. destruct (dm_workers m !! t) eqn:Ew; [|done]. simplify_eq.
    destruct (dk_active m H) as [Ha _].
    destruct (complete_spec (dm_d m) (c_MessageID call) (execute outcome) now (dk_lru m H)) as (_ & _ & _ & K4 & _);
      [pose proof (dk_config m H) as C; unfold config_ok in C; lia|]. rewrite K4.
    apply complete_ok; try done.
    + rewrite map_size_delete_Some by eauto. assert (size (dm_workers m) ≠ 0%nat); [|lia].
      intros E%map_size_empty_iff. rewrite E in Ew. done.
    + lia.
    + intros t' Ht'. apply lookup_delete_None. by right.
  - destruct (dm_callers m !! t) as [[|call]|] eqn:Et; try done. simplify_eq. destruct (dk_active m H) as [Ha _].
    destruct (complete_spec (dm_d m) (c_MessageID call) (resultForContext e) now (dk_lru m H)) as (_ & _ & _ & K4 & _);
      [pose proof (dk_config m H) as C; unfold config_ok in C; lia|].
    assert (complete (dm_d m) (c_MessageID call) (resultForContext e) now =
            set_active (complete (dm_d m) (c_MessageID call) (resultForContext e) now) (d_active (dm_d m))) as ->.
    { revert K4. generalize (complete (dm_d m) (c_MessageID call) (resultForContext e) now). intros d' <-. by destruct d'. }
    by apply complete_ok.
  - destruct (dm_workers m !! t) eqn:Ew; [|done]. simplify_eq. destruct H as [C A L S D P U W V G]. split; simpl; try done.
    + assert (size (dm_workers m) ≠ 0%nat) by (intros E%map_size_empty_iff; by rewrite E in Ew).
      rewrite map_size_delete_Some by eauto. lia.
    + intros t' call Hc. apply lookup_delete_None. right. by eapply W.
Qed.

Lemma drun_ok ls m m' : dm_ok m → drun Authorizer m ls = Some m' → dm_ok m'.
Proof.
  revert m. induction ls as [|l ls IH]; intros m H Hr; simpl in Hr; [by simplify_eq|].
  destruct (dstep Authorizer m l) as [[m1 o]|] eqn:E; [|done]. simpl in Hr. eapply IH; [|done]. by eapply dstep_ok.
Qed.

Definition dm_reachable (m : dm) : Prop :=
  ∃ config d ls, NewDispatcher config = Some d ∧ drun Authorizer (dm_start d) ls = Some m.

Lemma dm_reachable_ok m : dm_reachable m → dm_ok m.
Proof.
  intros (config & d & ls & Hd & Hr). eapply drun_ok; [|done].
  unfold NewDispatcher in Hd. destruct (Config_normalized config) as [c|] eqn:Ec; [|done]. simpl in Hd. simplify_eq.
  assert (config_ok c) as Hc.
  { unfold Config_normalized in Ec. unfold config_ok. repeat case_match; simplify_eq; simpl; bool_prop; lia. }
  split; simpl; try done.
  - unfold config_ok in Hc. rewrite map_size_empty. lia.
  - split; [constructor|done].
  - unfold config_ok in Hc. lia.
  - intros id. split; [set_solver|]. intros (t & x & Ht & _). by rewrite lookup_empty in Ht.
Qed.

(** ** Deduplication *)

(** [id] has been executed and cannot be claimed again: its caller is still waiting, or its
    record is in the cache, valid until [until], with at most [k] records behind it. *)
Definition claimed (id : MessageID) (until : Z) (k : nat) (m : dm) : Prop :=
  (∃ t call, dm_callers m !! t = Some (Awaiting call) ∧ c_MessageID call = id) ∨
  (∃ l1 r l2, d_lru (dm_d m) = l1 ++ r :: l2 ∧ cr_id r = id ∧ until ≤ cr_expires r ∧ (length l2 ≤ k)%nat).

Definition label_time (l : dlabel) : option Z :=
  match l with DInvoke _ _ now | DReturn _ _ now | DTimeout _ _ now => Some now | _ => None end.

(** A record that has not expired survives a pruning, with what is behind it. *)
Lemma kept_record gone kept l1 r l2 now :
  gone ++ kept = l1 ++ r :: l2 → Forall (λ x, cr_expires x ≤ now) gone → now < cr_expires r →
  ∃ l1', kept = l1' ++ r :: l2.
Proof.
  revert l1. induction gone as [|g gone IH]; intros l1 E Hg Hr; [by exists l1|].
  apply Forall_cons in Hg as [Hg Hgone]. destruct l1 as [|x l1]; simplify_eq/=; [lia|]. by eapply IH.
Qed.

(** Moving or removing another record keeps it, with no more behind it. *)
Lemma remove_other id' l1 r l2 :
  cr_id r ≠ id' → ∃ l1' l2', lru_remove id' (l1 ++ r :: l2) = l1' ++ r :: l2' ∧ (length l2' ≤ length l2)%nat.
Proof.
  intros Hne. unfold lru_remove. rewrite filter_app, filter_cons, decide_True by done.
  eexists _, _. split; [done|]. apply length_filter.
Qed.

Lemma begin_claimed m id until k call now d' o callers :
  dm_ok m → claimed id until k m → now < until → (S k < Z.to_nat (MaxDedup (d_config (dm_d m))))%nat →
  begin (dm_d m) (c_MessageID call) now = (d', o) →
  (∀ t c, dm_callers m !! t = Some (Awaiting c) → callers !! t = Some (Awaiting c)) →
  claimed id until (S k) (mkDm d' callers (dm_workers m) (dm_log m)).
Proof.
  intros Hok [(t & c & Hc & Hid)|(l1 & r & l2 & El & Hid & Hu & Hk)] Hnow HS Hb Hcallers; [left; eauto|]. right. simpl.
  pose proof (begin_spec (dm_d m) (c_MessageID call) now (dk_lru m Hok)) as H. rewrite Hb in H.
  destruct H as (_ & _ & _ & (gone & kept & E & Hg & Hk') & _). rewrite El in E. symmetry in E.
  destruct (kept_record _ _ _ _ _ _ E Hg) as [l1' ->]; [lia|].
  destruct Hk' as [-> |(r' & Hr' & Hid' & ->)]; [exists l1', r, l2; split_and!; auto; lia|].
  destruct (decide (id = c_MessageID call)) as [Heq|Hne].
  - (* its own record is moved to the back *)
    assert (r' = r) as ->.
    { assert (NoDup (cr_id <$> l1' ++ r :: l2)) as Hn.
      { destruct (dk_lru m Hok) as [Hn _]. rewrite El, <- E, fmap_app in Hn. by apply NoDup_app in Hn as (_ & _ & Hn). }
      assert (lru_map (l1' ++ r :: l2) !! id = Some r') as H1 by (apply lru_map_lookup; [done|]; split; congruence).
      assert (lru_map (l1' ++ r :: l2) !! id = Some r) as H2
        by (apply lru_map_lookup; [done|]; split; [apply elem_of_app; right; left|done]).
      congruence. }
    eexists _, r, []. split_and!; [done|done|done|simpl; lia].
  - destruct (remove_other (c_MessageID call) l1' r l2) as (a & b & -> & Hlen); [congruence|].
    exists a, r, (b ++ [r']). rewrite <- app_assoc. split_and!; [done|done|done|]. rewrite length_app. simpl. lia.
Qed.

Lemma complete_claimed m id until k t call res now n workers :
  dm_ok m → claimed id until k m → until ≤ now + DedupTTL (d_config (dm_d m)) → now < until →
  (S k < Z.to_nat (MaxDedup (d_config (dm_d m))))%nat → dm_callers m !! t = Some (Awaiting call) →
  claimed id until (S k) (mkDm (set_active (complete (dm_d m) (c_MessageID call) res now) n) (delete t (dm_callers m)) workers (dm_log m)).
Proof.
  intros Hok Hcl Hu1 Hu2 HS Ht.
  destruct (complete_spec (dm_d m) (c_MessageID call) res now (dk_lru m Hok)) as (_ & (gone & kept & E & Hg & Hl) & _);
    [pose proof (dk_config m Hok) as C; unfold config_ok in C; lia|].
  destruct (decide (id = c_MessageID call)) as [->|Hne].
  - right. simpl. rewrite Hl. set (l := lru_remove _ _). set (r := mkCacheRecord _ _ _).
    rewrite length_app. simpl. rewrite drop_app_le by lia. exists (drop (length l + 1 - Z.to_nat (MaxDedup (d_config (dm_d m)))) l), r, [].
    split_and!; [done|done|done|simpl; lia].
  - destruct Hcl as [(t' & c & Hc & Hid)|(l1 & r & l2 & El & Hid & Hu & Hk)].
    { left. exists t', c. split; [|done]. simpl. apply lookup_delete_Some. split; [|done]. intros ->. simplify_eq. }
    right. simpl. rewrite Hl. rewrite El in E. symmetry in E. destruct (kept_record _ _ _ _ _ _ E Hg) as [l1' ->]; [lia|].
    destruct (remove_other (c_MessageID call) l1' r l2) as (a & b & -> & Hlen); [congruence|].
    set (x := mkCacheRecord _ _ _). rewrite <- app_assoc, <- app_comm_cons.
    exists (drop (length (a ++ r :: b ++ [x]) - Z.to_nat (MaxDedup (d_config (dm_d m)))) a), r, (b ++ [x]).
    rewrite drop_app_le; [split_and!; [done|done|done|rewrite length_app; simpl; lia]|].
    rewrite !length_app. simpl. rewrite length_app. simpl. lia.
Qed.

Lemma claimed_mono id until k k' m : claimed id until k m → (k ≤ k')%nat → claimed id until k' m.
Proof. intros [H|(l1 & r & l2 & ? & ? & ? & ?)] Hk; [by left|]. right. exists l1, r, l2. split_and!; try done. lia. Qed.

(** A claimed identifier has no other caller on the way to execution. *)
Lemma claimed_not_admitting m id until k t call :
  dm_ok m → claimed id until k m → dm_callers m !! t = Some (Admitting call) → c_MessageID call ≠ id.
Proof.
  intros Hok [(t' & c & Hc & Hid)|(l1 & r & l2 & El & Hid & _)] Ht Heq.
  - assert (t' = t) as -> by (eapply (dk_unique m Hok); [done|done|simpl; congruence]). simplify_eq.
  - apply (dk_disjoint m Hok id).
    + apply (dk_pending m Hok). exists t, (Admitting call). done.
    + rewrite El, fmap_app, elem_of_app. right. rewrite fmap_cons, Hid. left.
Qed.

Lemma claimed_step m id t0 k l m' o :
  dm_ok m → claimed id (t0 + DedupTTL (d_config (dm_d m))) k m →
  (∀ now, label_time l = Some now → t0 ≤ now < t0 + DedupTTL (d_config (dm_d m))) →
  (S k < Z.to_nat (MaxDedup (d_config (dm_d m))))%nat → dstep Authorizer m l = Some (m', o) →
  claimed id (t0 + DedupTTL (d_config (dm_d m))) (S k) m' ∧ d_config (dm_d m') = d_config (dm_d m) ∧
  ∃ new, dm_log m' = dm_log m ++ new ∧ Forall (λ c, c_MessageID c ≠ id) new.
Proof.
  intros Hok Hcl Htime HS Hs.
  assert (0 < MaxDedup (d_config (dm_d m))) as Hmax by (pose proof (dk_config m Hok) as C; unfold config_ok in C; lia).
  assert (∃ new, dm_log m = dm_log m ++ new ∧ Forall (λ c, c_MessageID c ≠ id) new) as Hnil
    by (exists []; by rewrite app_nil_r).
  assert (claimed id (t0 + DedupTTL (d_config (dm_d m))) (S k) m) as Hcl' by (eapply claimed_mono; [done|lia]).
  destruct l as [t call now|t|t|t|t outcome now|t e now|t]; simpl in Hs, Htime.
  - destruct (dm_callers m !! t) eqn:Et; [done|]. destruct (dm_workers m !! t); [done|].
    destruct (check_call Authorizer call now) as [?|[? ?]]; [|by simplify_eq].
    pose proof (begin_spec (dm_d m) (c_MessageID call) now (dk_lru m Hok)) as Hb.
    destruct (begin (dm_d m) (c_MessageID call) now) as [d' [r|]] eqn:Eb; simplify_eq; destruct Hb as (_ & Hcfg & _);
      (split_and!; [eapply begin_claimed; try done; by apply Htime || (intros; by rewrite ?lookup_insert_ne by congruence)|done|done]).
  - destruct (dm_callers m !! t) as [[call|]|] eqn:Et; try done. destruct (_ <? _); simplify_eq. split_and!; [|done|].
    + destruct Hcl' as [(t' & c & Hc & Hid)|H]; [|by right]. left. exists t', c. simpl. split; [|done].
      rewrite lookup_insert_ne by congruence. done.
    + exists [call]. split; [done|]. apply Forall_singleton. by eapply claimed_not_admitting.
  - destruct (dm_callers m !! t) as [[call|]|] eqn:Et; try done. destruct (_ <? _); simplify_eq. split_and!; [|done|done].
    destruct Hcl' as [(t' & c & Hc & Hid)|H]; [|by right]. left. exists t', c. simpl. split; [|done].
    rewrite lookup_delete_ne by congruence. done.
  - destruct (dm_callers m !! t) as [[call|]|] eqn:Et; try done. simplify_eq. split_and!; [|done|done].
    destruct Hcl' as [(t' & c & Hc & Hid)|H]; [|by right]. left. exists t', c. simpl. split; [|done].
    rewrite lookup_delete_ne by congruence. done.
  - destruct (dm_callers m !! t) as [[|call]|] eqn:Et; try done. destruct (dm_workers m !! t); [|done]. simplify_eq.
    destruct (complete_spec (dm_d m) (c_MessageID call) (execute outcome) now (dk_lru m Hok) Hmax) as (_ & _ & Hcfg & _).
    specialize (Htime now eq_refl). split_and!; [eapply complete_claimed; try done; lia|done|done].
  - destruct (dm_callers m !! t) as [[|call]|] eqn:Et; try done. simplify_eq.
    destruct (complete_spec (dm_d m) (c_MessageID call) (resultForContext e) now (dk_lru m Hok) Hmax) as (_ & _ & Hcfg & _).
    specialize (Htime now eq_refl). split_and!; [|done|done].
    pose proof (complete_claimed m id _ k t call (resultForContext e) now 0 (dm_workers m) Hok Hcl) as Hx.
    apply Hx; try done; lia.
  - destruct (dm_workers m !! t); [|done]. by simplify_eq.
Qed.

Lemma claimed_run ls m id t0 k m' :
  dm_ok m → claimed id (t0 + DedupTTL (d_config (dm_d m))) k m →
  Forall (λ l, ∀ now, label_time l = Some now → t0 ≤ now < t0 + DedupTTL (d_config (dm_d m))) ls →
  (k + length ls < Z.to_nat (MaxDedup (d_config (dm_d m))))%nat → drun Authorizer m ls = Some m' →
  ∃ new, dm_log m' = dm_log m ++ new ∧ Forall (λ c, c_MessageID c ≠ id) new.
Proof.
  revert m k. induction ls as [|l ls IH]; intros m k Hok Hcl Ht Hk Hr; simpl in *.
  { simplify_eq. exists []. by rewrite app_nil_r. }
  apply Forall_cons in Ht as [Hl Ht]. destruct (dstep Authorizer m l) as [[m1 o]|] eqn:E; [|done]. simpl in Hr.
  destruct (claimed_step m id t0 k l m1 o) as (H1 & H2 & new & H3 & H4); try done; [lia|].
  rewrite <- H2 in *. destruct (IH m1 (S k)) as (new' & H5 & H6); try done; [by eapply dstep_ok|lia|].
  exists (new ++ new'). rewrite H5, H3, <- app_assoc. split; [done|]. by apply Forall_app.
Qed.


(** Bounded dispatcher: in every reachable state the workers, late ones included, are as
    many as the slots taken and at most [MaxActive]; the result cache holds at most [MaxDedup]
    records, its list and its map agree, a claimed identifier is not in the cache and belongs to
    exactly one running call. *)
Theorem dispatcher_bounded m :
  dm_reachable m →
  (Z.of_nat (size (dm_workers m)) = d_active (dm_d m) ∧ d_active (dm_d m) ≤ MaxActive (d_config (dm_d m))) ∧
  Z.of_nat (size (d_cache (dm_d m))) ≤ MaxDedup (d_config (dm_d m)) ∧
  d_cache (dm_d m) = lru_map (d_lru (dm_d m)) ∧
  ∀ id, id ∈ d_pending (dm_d m) →
    d_cache (dm_d m) !! id = None ∧
    ∃ t c, dm_callers m !! t = Some c ∧ c_MessageID (call_of c) = id ∧
           ∀ t' c', dm_callers m !! t' = Some c' → c_MessageID (call_of c') = id → t' = t.
Proof.
  intros H%dm_reachable_ok. destruct (dk_active m H) as [Ha1 Ha2]. destruct (dk_lru m H) as [Hn Hc]. split_and!; try done.
  - rewrite Hc, lru_map_size by done. apply (dk_size m H).
  - intros id Hid. split; [rewrite Hc; by apply lru_map_None, (dk_disjoint m H)|].
    apply (dk_pending m H) in Hid as (t & c & Ht & Hid). exists t, c. split_and!; try done.
    intros t' c' Ht' Hid'. eapply (dk_unique m H); [done|done|congruence].
Qed.

(** Only authorised calls run: every execution the dispatcher ever started was of a
    well-formed call whose deadline lay in the future, and which either came from the parent's
    control or was accepted by the configured authorizer. *)
Theorem executed_authorized m call :
  dm_reachable m → call ∈ dm_log m →
  c_MessageID call ≠ 0 ∧ c_Source call ≠ 0 ∧ ResourceID_Validate (c_Resource call) = Ok tt ∧
  (∃ now, now < c_Deadline call) ∧
  (c_Origin call = OriginParentControl ∨
   (c_Origin call = OriginAdjudicated ∧ ∃ authorize, Authorizer = Some authorize ∧ authorize call = None)).
Proof.
  intros H%dm_reachable_ok Hin. pose proof (dk_log m H) as Hl. rewrite Forall_forall in Hl.
  destruct (Hl call Hin) as [now Hc]. unfold check_call in Hc. guards Hc. bool_prop.
  repeat match goal with H : mapErr _ _ = Ok _ |- _ => apply mapErr_ok in H end.
  split_and!; try done.
  - unfold MessageID_IsZero in *. by bool_prop.
  - by apply NodeID_Validate_ok.
  - by exists now.
  - destruct (Z.eqb_spec (c_Origin call) OriginAdjudicated) as [E|E].
    + right. split; [done|]. destruct Authorizer as [authorize|]; [|done]. exists authorize. split; [done|].
      by destruct (authorize call).
    + left. destruct (Z.eqb_spec (c_Origin call) OriginParentControl); [done|].
      match goal with H : _ ∨ _ |- _ => by destruct H end.
Qed.
End machine.

(** ** Witnesses *)

Definition demo_call (id : MessageID) : Call :=
  mkCall id 9 (mkResourceID 3 "lamp/set") "invoke" "" [] 5000 OriginParentControl.
Definition demo_dispatcher : Dispatcher := mkDispatcher (mkConfig 2 8 1000) 0 ∅ ∅ [].
Definition demo_before : dm := default (dm_start demo_dispatcher) (drun None (dm_start demo_dispatcher) [DInvoke 0 (demo_call 77) 100]).
Definition demo_spawned : dm := default demo_before (drun None demo_before [DSpawn 0]).
(** A duplicate while the call runs, its result, and a duplicate of the finished call. *)
Definition demo_labels : list dlabel :=
  [DInvoke 1 (demo_call 77) 150; DReturn 0 (Operated "" []) 200; DInvoke 2 (demo_call 77) 900; DInvoke 3 (demo_call 78) 901; DSpawn 3].
Definition demo_after : dm := default demo_spawned (drun None demo_spawned demo_labels).

Lemma demo_dm_reachable : dm_reachable None demo_before ∧ dm_reachable None demo_after.
Proof.
  split.
  - exists (mkConfig 2 8 1000), demo_dispatcher, [DInvoke 0 (demo_call 77) 100]. split; vm_compute; reflexivity.
  - exists (mkConfig 2 8 1000), demo_dispatcher, ([DInvoke 0 (demo_call 77) 100; DSpawn 0] ++ demo_labels).
    split; vm_compute; reflexivity.
Qed.


Lemma dispatcher_bounded_witness :
  Z.of_nat (size (dm_workers demo_after)) ≤ 2 ∧ Z.of_nat (size (d_cache (dm_d demo_after))) ≤ 8.
Proof.
  destruct (dispatcher_bounded None demo_after (proj2 demo_dm_reachable)) as ([H1 H2] & H3 & _).
  rewrite H1. split; [exact H2|exact H3].
Defined.

Lemma executed_authorized_witness :
  c_Origin (demo_call 78) = OriginParentControl ∨
  (c_Origin (demo_call 78) = OriginAdjudicated ∧ ∃ authorize, (None : option (Call → option string)) = Some authorize ∧ authorize (demo_call 78) = None).
Proof.
  apply (executed_authorized None demo_after (demo_call 78) (proj2 demo_dm_reachable)).
  replace (dm_log demo_after) with [demo_call 77; demo_call 78] by (vm_compute; reflexivity).
  right. left.
Defined.
