(* ===== verification/Catalog.v ===== *)
(** * Resource descriptors (protocol/schema_catalog.go, runtime/resource/resource.go)

    What a resource declares: its capabilities with their schemas and limits, and the
    functions that build, normalise and validate declarations.  Map iteration inside a
    validator only decides which of several errors is reported, so one order is modelled. *)

From Stdlib Require Import Sorting.Sorted.
From S2P Require Import Prelude GoStd GoSort Wire PolicySchema.
Open Scope Z_scope.

Definition BuiltinResourceCatalog : string := "system/catalog".
Definition MaxSchemas : Z := 64.
Definition MaxAttributeValueBytes : Z := 1024.
Definition ResourceTypeVariable : string := "mfh.variable".
Definition ResourceTypeStream : string := "mfh.stream".
Definition ResourceTypeTopic : string := "mfh.topic".
Definition ResourceTypeCommand : string := "mfh.command".
Definition CapabilityRead : CapabilityID := "read".
Definition CapabilityWrite : CapabilityID := "write".
Definition CapabilitySubscribe : CapabilityID := "subscribe".
Definition CapabilityPublish : CapabilityID := "publish".
Definition CapabilityInvoke : CapabilityID := "invoke".
Definition CapabilityOpen : CapabilityID := "open".
Definition SchemaVariableValueV1 : string := "mfh.variable-value.v1".
Definition SchemaVariableWriteV3 : string := "mfh.variable-write.v3".

Inductive catalog_error :=
| ECatalogWire (e : wire_error)
| EPayloadBytes | ELimitRange | ETypeVersion | ECapabilityCount | ESchemaCount
| ESchemaDuplicate | ESchemaOrder | ECapabilityDuplicate | ECapabilityOrder | ESchemaUnknown
| ErrInvalidSchema
| ECatalogVersion | ECatalogRevision | ECatalogCount | ECatalogDuplicate | ECatalogOrder | ECatalogMissing.

Record SchemaDescriptorV2 := mkSchema { s_ID : string; s_ContentType : string }.
#[global] Instance SchemaDescriptorV2_eq_dec : EqDecision SchemaDescriptorV2.
Proof. solve_decision. Defined.

Definition Schema_Validate (s : SchemaDescriptorV2) : result catalog_error unit :=
  _ ← mapErr ECatalogWire (validateText (s_ID s) MaxSchemaBytes true);
  mapErr ECatalogWire (validateText (s_ContentType s) MaxContentTypeBytes true).

Record CapabilityDescriptorV2 := mkCapability {
  cap_Name : CapabilityID;
  cap_Permission : string;
  cap_InputSchema : string;
  cap_OutputSchema : string;
  cap_EventSchema : string;
  cap_MaxPayloadBytes : Z
}.
#[global] Instance CapabilityDescriptorV2_eq_dec : EqDecision CapabilityDescriptorV2.
Proof. solve_decision. Defined.

Definition Capability_Validate (c : CapabilityDescriptorV2) : result catalog_error unit :=
  _ ← mapErr ECatalogWire (CapabilityID_Validate (cap_Name c));
  _ ← mapErr ECatalogWire (validateText (cap_Permission c) MaxIdentifierBytes true);
  _ ← mapErr ECatalogWire (validateText (cap_InputSchema c) MaxSchemaBytes false);
  _ ← mapErr ECatalogWire (validateText (cap_OutputSchema c) MaxSchemaBytes false);
  _ ← mapErr ECatalogWire (validateText (cap_EventSchema c) MaxSchemaBytes false);
  fail_if (cap_MaxPayloadBytes c <=? 0) || (DefaultMaxPayload <? cap_MaxPayloadBytes c) with EPayloadBytes ;;
  Ok tt.

Record ResourceLimitsV2 := mkLimits {
  lim_MaxPayloadBytes : Z;
  lim_MaxSubscribers : Z;
  lim_MaxSessions : Z;
  lim_MaxQueue : Z
}.
#[global] Instance ResourceLimitsV2_eq_dec : EqDecision ResourceLimitsV2.
Proof. solve_decision. Defined.

Definition Limits_Validate (l : ResourceLimitsV2) : result catalog_error unit :=
  fail_if (lim_MaxPayloadBytes l <=? 0) || (DefaultMaxPayload <? lim_MaxPayloadBytes l) with EPayloadBytes ;;
  fail_if (lim_MaxSubscribers l <? 0) || (MaxItems <? lim_MaxSubscribers l) with ELimitRange ;;
  fail_if (lim_MaxSessions l <? 0) || (MaxItems <? lim_MaxSessions l) with ELimitRange ;;
  fail_if (lim_MaxQueue l <? 0) || (MaxItems <? lim_MaxQueue l) with ELimitRange ;;
  Ok tt.

Record PresentationHintV2 := mkHint { h_Renderer : string; h_Label : string; h_Description : string; h_Icon : string }.
#[global] Instance PresentationHintV2_eq_dec : EqDecision PresentationHintV2.
Proof. solve_decision. Defined.

Definition Presentation_Validate (p : PresentationHintV2) : result catalog_error unit :=
  _ ← (if negb (String.eqb (h_Renderer p) "")
       then mapErr ECatalogWire (validateExtensibleIdentifier (h_Renderer p)) else Ok tt);
  _ ← mapErr ECatalogWire (validateText (h_Label p) MaxLabelBytes false);
  _ ← mapErr ECatalogWire (validateText (h_Description p) MaxAttributeValueBytes false);
  mapErr ECatalogWire (validateText (h_Icon p) MaxIdentifierBytes false).

Record Descriptor := mkDescriptor {
  ds_ID : ResourceID;
  ds_Type : string;
  ds_TypeVersion : Z;
  ds_Capabilities : list CapabilityDescriptorV2;
  ds_Schemas : list SchemaDescriptorV2;
  ds_Limits : ResourceLimitsV2;
  ds_Presentation : PresentationHintV2
}.
#[global] Instance Descriptor_eq_dec : EqDecision Descriptor.
Proof. solve_decision. Defined.

(** The loop over the schemas: the identifiers seen and the one before. *)
Fixpoint check_schemas (seen : gset string) (prev : option string) (l : list SchemaDescriptorV2)
    : result catalog_error (gset string) :=
  match l with
  | [] => Ok seen
  | s :: rest =>
    _ ← Schema_Validate s;
    fail_if bool_decide (s_ID s ∈ seen) with ESchemaDuplicate ;;
    fail_if match prev with Some p => str_leb (s_ID s) p | None => false end with ESchemaOrder ;;
    check_schemas ({[ s_ID s ]} ∪ seen) (Some (s_ID s)) rest
  end.

Definition known_schema (schemas : gset string) (schema : string) : bool :=
  String.eqb schema "" || bool_decide (schema ∈ schemas).

Fixpoint check_caps (schemas : gset string) (seen : gset string) (prev : option string) (l : list CapabilityDescriptorV2)
    : result catalog_error unit :=
  match l with
  | [] => Ok tt
  | c :: rest =>
    _ ← Capability_Validate c;
    fail_if bool_decide (cap_Name c ∈ seen) with ECapabilityDuplicate ;;
    fail_if match prev with Some p => str_leb (cap_Name c) p | None => false end with ECapabilityOrder ;;
    fail_if negb (known_schema schemas (cap_InputSchema c) && known_schema schemas (cap_OutputSchema c)
                  && known_schema schemas (cap_EventSchema c)) with ESchemaUnknown ;;
    check_caps schemas ({[ cap_Name c ]} ∪ seen) (Some (cap_Name c)) rest
  end.

Definition Descriptor_Validate (d : Descriptor) : result catalog_error unit :=
  _ ← mapErr ECatalogWire (ResourceID_Validate (ds_ID d));
  _ ← mapErr ECatalogWire (validateExtensibleIdentifier (ds_Type d));
  fail_if ds_TypeVersion d =? 0 with ETypeVersion ;;
  fail_if (Z.of_nat (length (ds_Capabilities d)) =? 0) || (MaxCapabilities <? Z.of_nat (length (ds_Capabilities d)))
    with ECapabilityCount ;;
  fail_if MaxSchemas <? Z.of_nat (length (ds_Schemas d)) with ESchemaCount ;;
  _ ← Limits_Validate (ds_Limits d);
  _ ← Presentation_Validate (ds_Presentation d);
  schemas ← check_schemas ∅ None (ds_Schemas d);
  check_caps schemas ∅ None (ds_Capabilities d).

(** [descriptor.Capability(name)] *)
Definition Capability (d : Descriptor) (name : CapabilityID) : option CapabilityDescriptorV2 :=
  list_find (λ c, cap_Name c = name) (ds_Capabilities d) ≫= (λ p, Some p.2).

Definition with_lists (d : Descriptor) capabilities schemas : Descriptor :=
  mkDescriptor (ds_ID d) (ds_Type d) (ds_TypeVersion d) capabilities schemas (ds_Limits d) (ds_Presentation d).
Definition cap_less (l r : CapabilityDescriptorV2) : bool := str_ltb (cap_Name l) (cap_Name r).
Definition schema_less (l r : SchemaDescriptorV2) : bool := str_ltb (s_ID l) (s_ID r).
Definition Descriptor_Sort (d : Descriptor) : Descriptor :=
  with_lists d (SortSlice cap_less (ds_Capabilities d)) (SortSlice schema_less (ds_Schemas d)).

(** ** The catalog *)

Record ResourceCatalogV2 := mkCatalog { cat_Version : Z; cat_Revision : Z; cat_Resources : list Descriptor }.

Definition compareResourceID (l r : ResourceID) : comparison :=
  if r_Owner l <? r_Owner r then Lt else if r_Owner r <? r_Owner l then Gt else String.compare (r_Name l) (r_Name r).

Fixpoint check_resources (seen : gset ResourceID) (prev : option ResourceID) (hasCatalog : bool) (l : list Descriptor)
    : result catalog_error bool :=
  match l with
  | [] => Ok hasCatalog
  | d :: rest =>
    _ ← Descriptor_Validate d;
    fail_if bool_decide (ds_ID d ∈ seen) with ECatalogDuplicate ;;
    fail_if match prev with Some p => match compareResourceID p (ds_ID d) with Lt => false | _ => true end | None => false end
      with ECatalogOrder ;;
    check_resources ({[ ds_ID d ]} ∪ seen) (Some (ds_ID d))
      (hasCatalog || String.eqb (r_Name (ds_ID d)) BuiltinResourceCatalog) rest
  end.

Definition Catalog_Validate (c : ResourceCatalogV2) : result catalog_error unit :=
  fail_if negb (cat_Version c =? 2) with ECatalogVersion ;;
  fail_if cat_Revision c =? 0 with ECatalogRevision ;;
  fail_if (Z.of_nat (length (cat_Resources c)) =? 0) || (MaxItems <? Z.of_nat (length (cat_Resources c))) with ECatalogCount ;;
  hasCatalog ← check_resources ∅ None false (cat_Resources c);
  fail_if negb hasCatalog with ECatalogMissing ;;
  Ok tt.

(** ** Normalisation (runtime/resource) *)

Definition validateVariableDescriptor (d : Descriptor) : result catalog_error unit :=
  fail_if negb (String.eqb (ds_Type d) ResourceTypeVariable) || negb (ds_TypeVersion d =? 2) with ErrInvalidSchema ;;
  fail_if match Capability d CapabilityRead with
          | Some read => negb (String.eqb (cap_InputSchema read) "") || negb (String.eqb (cap_OutputSchema read) SchemaVariableValueV1)
          | None => true
          end with ErrInvalidSchema ;;
  fail_if match Capability d CapabilitySubscribe with
          | Some subscribe => negb (String.eqb (cap_EventSchema subscribe) SchemaVariableValueV1)
          | None => true
          end with ErrInvalidSchema ;;
  fail_if match Capability d CapabilityWrite with
          | Some write => negb (String.eqb (cap_InputSchema write) SchemaVariableWriteV3)
                          || negb (String.eqb (cap_OutputSchema write) SchemaVariableValueV1)
          | None => false
          end with ErrInvalidSchema ;;
  Ok tt.

Definition default_cap_payload (limit : Z) (c : CapabilityDescriptorV2) : CapabilityDescriptorV2 :=
  mkCapability (cap_Name c) (cap_Permission c) (cap_InputSchema c) (cap_OutputSchema c) (cap_EventSchema c)
    (if cap_MaxPayloadBytes c <=? 0 then limit else cap_MaxPayloadBytes c).

Definition normalizeDescriptor (d : Descriptor) : result catalog_error Descriptor :=
  let version := if ds_TypeVersion d =? 0 then 1 else ds_TypeVersion d in
  let payload := if lim_MaxPayloadBytes (ds_Limits d) <=? 0 then DefaultMaxPayload else lim_MaxPayloadBytes (ds_Limits d) in
  let limits := mkLimits payload (lim_MaxSubscribers (ds_Limits d)) (lim_MaxSessions (ds_Limits d)) (lim_MaxQueue (ds_Limits d)) in
  let d := Descriptor_Sort (mkDescriptor (ds_ID d) (ds_Type d) version (default_cap_payload payload <$> ds_Capabilities d)
                              (ds_Schemas d) limits (ds_Presentation d)) in
  _ ← Descriptor_Validate d;
  _ ← (if String.eqb (ds_Type d) ResourceTypeVariable then validateVariableDescriptor d else Ok tt);
  Ok d.

(** ** Builders *)

Definition or_default (s d : string) : string := if String.eqb s "" then d else s.

(** The loop of [descriptorFor] over the capabilities. *)
Definition fill_capability (permission schema : string) (maxPayload : Z) (c : CapabilityDescriptorV2) : CapabilityDescriptorV2 :=
  mkCapability (cap_Name c) (or_default (cap_Permission c) permission)
    (if String.eqb (cap_InputSchema c) "" && String.eqb (cap_Name c) CapabilityPublish then schema else cap_InputSchema c)
    (cap_OutputSchema c) (cap_EventSchema c)
    (if cap_MaxPayloadBytes c <=? 0 then maxPayload else cap_MaxPayloadBytes c).

Definition descriptorFor (id : ResourceID) (typeID contentType schema permission : string) (maxPayload : Z)
    (capabilities : list CapabilityDescriptorV2) : Descriptor :=
  let contentType := or_default contentType "application/octet-stream" in
  let schema := or_default schema "mfh.raw.v1" in
  let permission := or_default permission "resource.access" in
  let maxPayload := if maxPayload <=? 0 then DefaultMaxPayload else maxPayload in
  Descriptor_Sort (mkDescriptor id typeID 1 (fill_capability permission schema maxPayload <$> capabilities)
    [mkSchema schema contentType] (mkLimits maxPayload 1024 64 256) (mkHint typeID "" "" "")).

Definition VariableDescriptor (id : ResourceID) (permission : string) (maxPayload : Z) : Descriptor :=
  let d := descriptorFor id ResourceTypeVariable "application/json" SchemaVariableValueV1 permission maxPayload
             [mkCapability CapabilityRead "" "" SchemaVariableValueV1 "" 0;
              mkCapability CapabilitySubscribe "" "" "" SchemaVariableValueV1 0] in
  mkDescriptor (ds_ID d) (ds_Type d) 2 (ds_Capabilities d) (ds_Schemas d) (ds_Limits d) (ds_Presentation d).

Definition WritableVariableDescriptor (id : ResourceID) (readPermission writePermission : string) (maxPayload : Z) : Descriptor :=
  let d := VariableDescriptor id readPermission maxPayload in
  Descriptor_Sort (with_lists d
    (ds_Capabilities d ++ [mkCapability CapabilityWrite writePermission SchemaVariableWriteV3 SchemaVariableValueV1 ""
                             (lim_MaxPayloadBytes (ds_Limits d))])
    (ds_Schemas d ++ [mkSchema SchemaVariableWriteV3 "application/json"])).

Definition StreamDescriptor (id : ResourceID) (contentType schema permission : string) (maxPayload : Z) : Descriptor :=
  descriptorFor id ResourceTypeStream contentType schema permission maxPayload
    [mkCapability CapabilitySubscribe "" "" "" schema 0].

Definition CommandDescriptorSchemas (id : ResourceID) (contentType inputSchema outputSchema permission : string) (maxPayload : Z) : Descriptor :=
  let outputSchema := or_default outputSchema inputSchema in
  let d := descriptorFor id ResourceTypeCommand contentType inputSchema permission maxPayload
             [mkCapability CapabilityInvoke "" inputSchema outputSchema "" 0] in
  if negb (String.eqb outputSchema inputSchema)
  then Descriptor_Sort (with_lists d (ds_Capabilities d)
         (ds_Schemas d ++ [mkSchema outputSchema (match ds_Schemas d with s :: _ => s_ContentType s | [] => "" end)]))
  else d.

Definition TopicDescriptor (id : ResourceID) (contentType schema publishPermission subscribePermission : string) (maxPayload : Z) : Descriptor :=
  let publishPermission := or_default publishPermission "resource.publish" in
  let subscribePermission := or_default subscribePermission "resource.subscribe" in
  descriptorFor id ResourceTypeTopic contentType schema subscribePermission maxPayload
    [mkCapability CapabilityPublish publishPermission schema "" "" 0;
     mkCapability CapabilitySubscribe subscribePermission "" "" schema 0].

(** [SessionDescriptor]; the same schema for both directions is listed once. *)
Definition SessionDescriptor (id : ResourceID) (typeID contentType inputSchema outputSchema permission : string) (maxPayload : Z) : Descriptor :=
  let outputSchema := or_default outputSchema inputSchema in
  let contentType := or_default contentType "application/octet-stream" in
  let permission := or_default permission "resource.open" in
  let maxPayload := if maxPayload <=? 0 then DefaultMaxPayload else maxPayload in
  let schemas := [mkSchema inputSchema contentType; mkSchema outputSchema contentType] in
  Descriptor_Sort (mkDescriptor id typeID 1 [mkCapability CapabilityOpen permission inputSchema outputSchema "" maxPayload]
    (if String.eqb inputSchema outputSchema then take 1 schemas else schemas)
    (mkLimits maxPayload 0 64 256) (mkHint typeID "" "" "")).

(** ** Lemmas *)

Lemma check_schemas_sorted l seen prev schemas :
  check_schemas seen prev l = Ok schemas →
  StronglySorted (λ x y, schema_less x y = true) l ∧
  match prev with Some p => Forall (λ s, str_ltb p (s_ID s) = true) l | None => True end.
Proof.
  revert seen prev. induction l as [|s l IH]; intros seen prev H; simpl in H; [by split; [constructor|destruct prev]|].
  guards H. apply IH in H as [Hs Hf]. split; [by constructor|].
  destruct prev as [p|]; [|done]. unfold str_leb in *. bool_prop. constructor; [done|].
  eapply Forall_impl; [exact Hf|]. intros x Hx. by eapply str_ltb_trans.
Qed.

Lemma check_caps_sorted l schemas seen prev :
  check_caps schemas seen prev l = Ok tt →
  StronglySorted (λ x y, cap_less x y = true) l ∧ Forall (λ c, Capability_Validate c = Ok tt) l ∧
  match prev with Some p => Forall (λ c, str_ltb p (cap_Name c) = true) l | None => True end.
Proof.
  revert seen prev. induction l as [|c l IH]; intros seen prev H; simpl in H; [by split_and!; [constructor|constructor|destruct prev]|].
  guards H. apply IH in H as (Hs & Hv & Hf). split_and!; [by constructor|by constructor|].
  destruct prev as [p|]; [|done]. unfold str_leb in *. bool_prop. constructor; [done|].
  eapply Forall_impl; [exact Hf|]. intros x Hx. by eapply str_ltb_trans.
Qed.

(** The capabilities of a valid descriptor are sorted and have positive limits. *)
Lemma Descriptor_Validate_sorted d :
  Descriptor_Validate d = Ok tt →
  SortSlice cap_less (ds_Capabilities d) = ds_Capabilities d ∧ SortSlice schema_less (ds_Schemas d) = ds_Schemas d ∧
  Forall (λ c, 0 < cap_MaxPayloadBytes c ≤ DefaultMaxPayload) (ds_Capabilities d) ∧
  0 < lim_MaxPayloadBytes (ds_Limits d) ∧ ds_TypeVersion d ≠ 0.
Proof.
  unfold Descriptor_Validate. intros H. guards H.
  destruct (check_schemas ∅ None (ds_Schemas d)) as [schemas|] eqn:Es; [|done]. simpl in H.
  apply check_schemas_sorted in Es as [Ss _]. apply check_caps_sorted in H as (Sc & Hv & _). bool_prop. split_and!; try done.
  - apply SortSlice_id; [|done]. intros x y. apply str_ltb_asym.
  - apply SortSlice_id; [|done]. intros x y. apply str_ltb_asym.
  - eapply Forall_impl; [exact Hv|]. intros c Hc. unfold Capability_Validate in Hc. guards Hc. bool_prop. lia.
  - match goal with H : Limits_Validate _ = Ok _ |- _ => unfold Limits_Validate in H; guards H end. bool_prop. lia.
Qed.

Lemma normalizeDescriptor_valid d d' :
  normalizeDescriptor d = Ok d' →
  Descriptor_Validate d' = Ok tt ∧ ds_ID d' = ds_ID d ∧ ds_Type d' = ds_Type d ∧
  (ds_Type d' = ResourceTypeVariable → validateVariableDescriptor d' = Ok tt).
Proof.
  unfold normalizeDescriptor. intros H. guards H. simplify_eq. split_and!; try done. simpl. intros E.
  match goal with H : (if String.eqb ?x ?y then _ else _) = Ok _ |- _ => destruct (String.eqb_spec x y) as [_|Hne]; [exact H|by destruct Hne] end.
Qed.

Lemma default_cap_payload_id limit l :
  Forall (λ c, 0 < cap_MaxPayloadBytes c ≤ DefaultMaxPayload) l → default_cap_payload limit <$> l = l.
Proof.
  induction 1 as [|c l Hc _ IH]; [done|]. rewrite fmap_cons, IH. f_equal. unfold default_cap_payload.
  destruct (Z.leb_spec (cap_MaxPayloadBytes c) 0); [lia|]. by destruct c.
Qed.

Lemma normalizeDescriptor_idemp d d' : normalizeDescriptor d = Ok d' → normalizeDescriptor d' = Ok d'.
Proof.
  intros H. pose proof (normalizeDescriptor_valid d d' H) as (Hv & _ & _ & Hvar).
  destruct (Descriptor_Validate_sorted d' Hv) as (S1 & S2 & Hc & Hp & Hver).
  unfold normalizeDescriptor. destruct (Z.eqb_spec (ds_TypeVersion d') 0); [done|].
  destruct (Z.leb_spec (lim_MaxPayloadBytes (ds_Limits d')) 0); [lia|]. rewrite default_cap_payload_id by done.
  replace (Descriptor_Sort _) with d'.
  2:{ unfold Descriptor_Sort, with_lists. simpl. rewrite S1, S2. by destruct d' as [? ? ? ? ? [] ?]. }
  rewrite Hv. simpl. destruct (String.eqb_spec (ds_Type d') ResourceTypeVariable) as [E|]; [|done]. by rewrite (Hvar E).
Qed.

(** A stream built with the default schema is accepted, but its subscribe capability keeps an
    empty event schema, so it can never be subscribed to. *)
Theorem StreamDescriptor_default_unsubscribable :
  let d := StreamDescriptor (mkResourceID 1 "events") "" "" "events.read" 64 in
  normalizeDescriptor d = Ok d ∧ ds_Schemas d = [mkSchema "mfh.raw.v1" "application/octet-stream"] ∧
  (cap_EventSchema <$> Capability d CapabilitySubscribe) = Some "".
Proof. vm_compute. done. Qed.
