(* ===== verification/VariableModel.v ===== *)
(** * Variables: revisions, compare-and-set and notification (runtime/resource/variable.go)

    Mutations of a variable hold its [gate]; readers, observers, retirement and the draining
    of notifications only take the mutex, so they interleave with a mutation that is waiting
    for its write handler.  The machine [vm] has a step for each section under the mutex.
    The shape of the state (its schema, under protocol/) and its JSON encoding are parameters
    of the model: the results hold for every validator and every encoder. *)

From S2P Require Import Prelude GoStd GoSort Wire Catalog.
Open Scope Z_scope.

Inductive variable_error :=
| VErrNotFound | ErrRevisionConflict | ErrRevisionRegression | VErrExhausted | ErrValueTooLarge | VErrInvalidPayload
| VErrQueueFull | VErrNotReady | VErrHandler | VErrSubscriberLimit | VErrUnsupported | VErrRevision | VErrInvalidSchema
| VErrWriteCapability | VErrDefinition | VErrDescriptor (e : catalog_error).

Record VariableState := mkVariableState {
  vs_Value : list byte;
  vs_Status : string;
  vs_SourceTimeUnixMS : option Z;
  vs_Error : option (string * string)
}.

(** The envelope of protocol/schema_variable.go; the definition is kept as its encoding. *)
Record VariableValueV1 := mkVariableValue {
  vv_Version : Z;
  vv_InstanceID : string;
  vv_Revision : string;
  vv_Value : list byte;
  vv_Status : string;
  vv_SourceTimeUnixMS : option Z;
  vv_ObservedAtUnixMS : Z;
  vv_Error : option (string * string);
  vv_Definition : option (list byte)
}.

Record VariableUpdate := mkVariableUpdate {
  vu_Revision : Z;
  vu_State : VariableValueV1;
  vu_Failure : option ErrorPayload;
  vu_eventPayload : list byte
}.
Record preparedVariable := mkPrepared { pv_update : VariableUpdate; pv_payload : list byte }.

Record Var := mkVariable {
  v_definitionJSON : list byte;
  v_descriptor : Descriptor;
  v_instanceID : string;
  v_current : preparedVariable;
  v_retired : bool;
  v_nextWatch : Z;
  v_watchers : gset Z;                       (* the registered observers *)
  v_cancelled : gset Z;                      (* observers whose [cancelled] flag is set *)
  v_pending : list (VariableUpdate * list Z);
  v_draining : bool
}.

Definition set_current (v : Var) (current : preparedVariable) : Var :=
  mkVariable (v_definitionJSON v) (v_descriptor v) (v_instanceID v) current (v_retired v) (v_nextWatch v)
    (v_watchers v) (v_cancelled v) (v_pending v) (v_draining v).
Definition set_queue (v : Var) (pending : list (VariableUpdate * list Z)) (draining : bool) : Var :=
  mkVariable (v_definitionJSON v) (v_descriptor v) (v_instanceID v) (v_current v) (v_retired v) (v_nextWatch v)
    (v_watchers v) (v_cancelled v) pending draining.
Definition set_watchers (v : Var) (next : Z) (watchers cancelled : gset Z) : Var :=
  mkVariable (v_definitionJSON v) (v_descriptor v) (v_instanceID v) (v_current v) (v_retired v) next
    watchers cancelled (v_pending v) (v_draining v).
Definition set_retired (v : Var) : Var :=
  mkVariable (v_definitionJSON v) (v_descriptor v) (v_instanceID v) (v_current v) true (v_nextWatch v)
    (v_watchers v) (v_cancelled v) (v_pending v) (v_draining v).

Definition current_revision (v : Var) : Z := vu_Revision (pv_update (v_current v)).

(** The key under which the definition is appended to the envelope. *)
Definition definition_key : list byte := [x2c; x22] ++ bytes_of "definition" ++ [x22; x3a].

Definition blen (l : list byte) : Z := Z.of_nat (length l).

(** [validatePayload] of resource.go. *)
Definition validatePayload (d : Descriptor) (value : list byte) : result variable_error unit :=
  fail_if lim_MaxPayloadBytes (ds_Limits d) <? blen value with ErrValueTooLarge ;; Ok tt.

(** The loop of [payloadLimit]. *)
Definition payloadLimit (v : Var) : Z :=
  fold_left (λ limit c,
    if (String.eqb (cap_Name c) CapabilityRead || String.eqb (cap_Name c) CapabilitySubscribe || String.eqb (cap_Name c) CapabilityWrite)
       && (cap_MaxPayloadBytes c <? limit) then cap_MaxPayloadBytes c else limit)
    (ds_Capabilities (v_descriptor v)) (lim_MaxPayloadBytes (ds_Limits (v_descriptor v))).

(** [protocol.ParseVariableRevision] *)
Definition ParseVariableRevision (value : string) : result variable_error Z :=
  fail_if match code value with [] => true | c :: _ => (c <? 49) || (57 <? c) end || (20 <? strlen value) with VErrRevision ;;
  fail_if negb (forallb (between 48 57) (code value)) with VErrRevision ;;
  let '(revision, ok) := ParseUint value in
  fail_if negb ok with VErrRevision ;;
  Ok revision.

Section variable.
(** [protocol.ValidateVariableState] for a definition and an envelope, and [json.Marshal] of an
    envelope. *)
Context (ValidateVariableState : list byte → VariableValueV1 → bool).
Context (Marshal : VariableValueV1 → list byte).

Definition envelope_of (v : Var) (revision : Z) (state : VariableState) (now : Z) (definition : option (list byte)) : VariableValueV1 :=
  mkVariableValue 1 (v_instanceID v) (FormatUint revision) (vs_Value state) (vs_Status state) (vs_SourceTimeUnixMS state) now
    (vs_Error state) definition.

Definition prepare (v : Var) (revision : Z) (state : VariableState) (now : Z) : result variable_error preparedVariable :=
  _ ← validatePayload (v_descriptor v) (vs_Value state);
  let envelope := envelope_of v revision state now None in
  fail_if negb (ValidateVariableState (v_definitionJSON v) envelope) with VErrInvalidPayload ;;
  let data := Marshal envelope in
  let payload := removelast data ++ definition_key ++ v_definitionJSON v ++ bytes_of "}" in
  fail_if payloadLimit v <? blen payload with ErrValueTooLarge ;;
  Ok (mkPrepared (mkVariableUpdate revision (envelope_of v revision state now (Some (v_definitionJSON v))) None data) payload).

Definition canCommit (v : Var) : result variable_error unit :=
  fail_if v_retired v with VErrNotFound ;;
  fail_if lim_MaxQueue (ds_Limits (v_descriptor v)) <=? Z.of_nat (length (v_pending v)) with VErrQueueFull ;;
  Ok tt.

(** The second result is the [drain] flag; [order] is the order of the watcher map. *)
Definition enqueueLocked (v : Var) (update : VariableUpdate) (order : list Z) : Var * bool :=
  if Z.of_nat (size (v_watchers v)) =? 0 then (v, false)
  else let v' := set_queue v (v_pending v ++ [(update, order)]) true in
       if v_draining v then (v', false) else (v', true).

Definition commit (v : Var) (prepared : preparedVariable) (order : list Z)
    : result variable_error (VariableUpdate * bool * Var) :=
  fail_if v_retired v with VErrNotFound ;;
  fail_if lim_MaxQueue (ds_Limits (v_descriptor v)) <=? Z.of_nat (length (v_pending v)) with VErrQueueFull ;;
  let '(v', drain) := enqueueLocked (set_current v prepared) (pv_update prepared) order in
  Ok (pv_update prepared, drain, v').

Definition prepareNext (v : Var) (revision : Z) (state : VariableState) (now : Z) : result variable_error preparedVariable :=
  let current := current_revision v in
  fail_if v_retired v with VErrNotFound ;;
  fail_if current =? maxUint64 with VErrExhausted ;;
  let revision := if revision =? 0 then u64 (current + 1) else revision in
  fail_if revision <=? current with ErrRevisionRegression ;;
  _ ← canCommit v;
  prepare v revision state now.

(** [compareAndSet] up to the call of the write handler. *)
Definition compareAndSet_prepare (v : Var) (instance : string) (revision : Z) (value : list byte) (now : Z)
    : result variable_error preparedVariable :=
  let current := current_revision v in
  fail_if v_retired v with VErrNotFound ;;
  fail_if (revision =? 0) || negb (String.eqb instance (v_instanceID v)) || negb (revision =? current)
    with ErrRevisionConflict ;;
  fail_if current =? maxUint64 with VErrExhausted ;;
  prepared ← prepare v (u64 (current + 1)) (mkVariableState value "ready" None None) now;
  _ ← canCommit v;
  Ok prepared.

(** What the write handler did: there is none, it failed (or the context ended, or it
    panicked), or it confirmed a state. *)
Inductive handler_outcome := NoHandler | HandlerError | HandlerState (state : VariableState).

(** [compareAndSet] from the handler to the commit; [revision] is the revision prepared. *)
Definition confirm (v : Var) (prepared : preparedVariable) (outcome : handler_outcome) (now : Z)
    : result variable_error preparedVariable :=
  match outcome with
  | NoHandler => Ok prepared
  | HandlerError => Err VErrHandler
  | HandlerState state =>
    fail_if negb (String.eqb (vs_Status state) "ready") with VErrNotReady ;;
    prepare v (vu_Revision (pv_update prepared)) state now
  end.

Definition Watch (v : Var) : result variable_error (VariableUpdate * Z * Var) :=
  fail_if v_retired v with VErrNotFound ;;
  fail_if lim_MaxSubscribers (ds_Limits (v_descriptor v)) <=? Z.of_nat (size (v_watchers v)) with VErrSubscriberLimit ;;
  let id := u64 (v_nextWatch v + 1) in
  Ok (pv_update (v_current v), id, set_watchers v id ({[ id ]} ∪ v_watchers v) (v_cancelled v)).

(** The function [Watch] returns; also what a panicking observer causes. *)
Definition cancelWatch (v : Var) (id : Z) : Var :=
  set_watchers v (v_nextWatch v) (v_watchers v ∖ {[ id ]}) ({[ id ]} ∪ v_cancelled v).

Definition zeroValue : VariableValueV1 := mkVariableValue 0 "" "" [] "" None 0 None None.
Definition goneUpdate : VariableUpdate :=
  mkVariableUpdate 0 zeroValue (Some (failure CodeGone "variable instance was removed" false)) [].

(** The [drain] flag, and the variable. *)
Definition PrepareRetire (v : Var) (order : list Z) : Var * bool :=
  if v_retired v then (v, false)
  else let '(v', drain) := enqueueLocked (set_retired v) goneUpdate order in
       (set_watchers v' (v_nextWatch v') ∅ (v_cancelled v'), drain).

(** [NewVariable] for an accepted definition with encoding [definitionJSON] and a random
    [identity]; [handler] says whether a write handler is given. *)
Definition NewVariable (descriptor : Descriptor) (definition_ok : bool) (definitionJSON : list byte) (identity : list byte)
    (initial : VariableState) (handler : bool) (now : Z) : result variable_error Var :=
  descriptor ← mapErr VErrDescriptor (normalizeDescriptor descriptor);
  _ ← mapErr VErrDescriptor (validateVariableDescriptor descriptor);
  fail_if handler && negb (bool_decide (is_Some (Capability descriptor CapabilityWrite))) with VErrWriteCapability ;;
  fail_if negb definition_ok with VErrDefinition ;;
  let blank := mkPrepared (mkVariableUpdate 0 zeroValue None []) [] in
  let v := mkVariable definitionJSON descriptor (EncodeToString identity) blank false 0 ∅ ∅ [] false in
  current ← prepare v 1 initial now;
  Ok (set_current v current).

(** [Operate] for the read capability. *)
Definition Operate_read (v : Var) (schema : string) (payload : list byte) : result variable_error (string * list byte) :=
  fail_if negb (blen payload =? 0) || negb (String.eqb schema "") with VErrInvalidSchema ;;
  fail_if v_retired v with VErrNotFound ;;
  Ok (SchemaVariableValueV1, pv_payload (v_current v)).

(** [Operate] for the write capability up to [CompareAndSet]: the instance, the revision and the
    value that are compared and set.  [decoded] is what [DecodeJSONPayload] makes of the payload. *)
Definition Operate_write (v : Var) (schema : string) (decoded : result variable_error (string * string * list byte))
    : result variable_error (string * Z * list byte) :=
  fail_if negb (bool_decide (is_Some (Capability (v_descriptor v) CapabilityWrite))) with VErrUnsupported ;;
  fail_if negb (String.eqb schema "") && negb (String.eqb schema SchemaVariableWriteV3) with VErrInvalidSchema ;;
  '(instance, expected, value) ← decoded;
  revision ← ParseVariableRevision expected;
  Ok (instance, revision, value).

(** ** The machine *)

(** The goroutine that delivers notifications: none; one that will start when the retirement
    gets the gate; at the head of the loop of [drain]; calling the observers of an update. *)
Inductive drainer := DIdle | DDeferred | DLoop | DCalling (update : VariableUpdate) (watchers : list Z).

Record vm := mkVm {
  vm_v : Var;
  vm_gate : option (option Z * preparedVariable); (* the mutation in progress; a compare-and-set has its expectation *)
  vm_drainer : drainer;
  vm_history : list (option Z * VariableUpdate);  (* what was published, oldest first *)
  vm_joined : gmap Z nat;                         (* how much had been published when an observer joined *)
  vm_seen : gmap Z (list VariableUpdate)          (* what each observer was called with *)
}.

Inductive vlabel :=
| VCas (instance : string) (revision : Z) (value : list byte) (now : Z)
| VSet (state : VariableState) (now : Z)
| VApply (revision : Z) (state : VariableState) (now : Z)
| VCommit (outcome : handler_outcome) (now : Z) (order : list Z)
| VWatch
| VCancel (id : Z)
| VRetire (order : list Z)
| VFinishRetire
| VPop
| VCall.

Definition with_gate (m : vm) (gate : option (option Z * preparedVariable)) : vm :=
  mkVm (vm_v m) gate (vm_drainer m) (vm_history m) (vm_joined m) (vm_seen m).

(** Entering the gate with a prepared mutation; a refused one leaves it again. *)
Definition enter (m : vm) (expected : option Z) (r : result variable_error preparedVariable) : option vm :=
  match vm_gate m with
  | Some _ => None
  | None => Some (match r with Ok prepared => with_gate m (Some (expected, prepared)) | Err _ => m end)
  end.

Definition vstep (m : vm) (l : vlabel) : option vm :=
  let v := vm_v m in
  match l with
  | VCas instance revision value now => enter m (Some revision) (compareAndSet_prepare v instance revision value now)
  | VSet state now => enter m None (prepareNext v 0 state now)
  | VApply revision state now => enter m None (if revision =? 0 then Err ErrRevisionRegression else prepareNext v revision state now)
  | VCommit outcome now order =>
    match vm_gate m with
    | None => None
    | Some (expected, prepared) =>
      match (p ← confirm v prepared outcome now; commit v p order) with
      | Err _ => Some (with_gate m None)
      | Ok (update, drain, v') =>
        Some (mkVm v' None (if drain : bool then DLoop else vm_drainer m) (vm_history m ++ [(expected, update)]) (vm_joined m) (vm_seen m))
      end
    end
  | VWatch =>
    match Watch v with
    | Err _ => Some m
    | Ok (_, id, v') =>
      Some (mkVm v' (vm_gate m) (vm_drainer m) (vm_history m) (<[id := length (vm_history m)]> (vm_joined m)) (<[id := []]> (vm_seen m)))
    end
  | VCancel id => Some (mkVm (cancelWatch v id) (vm_gate m) (vm_drainer m) (vm_history m) (vm_joined m) (vm_seen m))
  | VRetire order =>
    if v_retired v then Some m
    else let '(v', drain) := PrepareRetire v order in
         Some (mkVm v' (vm_gate m) (if drain : bool then DDeferred else vm_drainer m) (vm_history m ++ [(None, goneUpdate)])
                 (vm_joined m) (vm_seen m))
  | VFinishRetire =>
    match vm_gate m, vm_drainer m with
    | None, DDeferred => Some (mkVm v (vm_gate m) DLoop (vm_history m) (vm_joined m) (vm_seen m))
    | _, _ => None
    end
  | VPop =>
    match vm_drainer m with
    | DLoop =>
      match v_pending v with
      | [] => Some (mkVm (set_queue v [] false) (vm_gate m) DIdle (vm_history m) (vm_joined m) (vm_seen m))
      | (update, watchers) :: rest =>
        Some (mkVm (set_queue v rest (v_draining v)) (vm_gate m) (DCalling update watchers) (vm_history m) (vm_joined m) (vm_seen m))
      end
    | _ => None
    end
  | VCall =>
    match vm_drainer m with
    | DCalling update [] => Some (mkVm v (vm_gate m) DLoop (vm_history m) (vm_joined m) (vm_seen m))
    | DCalling update (w :: ws) =>
      let seen := if bool_decide (w ∈ v_cancelled v) then vm_seen m
                  else <[w := default [] (vm_seen m !! w) ++ [update]]> (vm_seen m) in
      Some (mkVm v (vm_gate m) (DCalling update ws) (vm_history m) (vm_joined m) seen)
    | _ => None
    end
  end.

(** Observers are iterated over in some order of the watcher map; revisions are 64-bit; only a
    registered observer can be cancelled. *)
Definition vlabel_ok (m : vm) (l : vlabel) : Prop :=
  match l with
  | VCommit _ _ order | VRetire order => order ≡ₚ elements (v_watchers (vm_v m))
  | VApply revision _ _ => is_u64 revision
  | VCancel id => is_Some (vm_joined m !! id)
  | _ => True
  end.

(** A fresh variable at revision [revision] (1 after [NewVariable]). *)
Definition fresh (v : Var) : Prop :=
  v_retired v = false ∧ v_nextWatch v = 0 ∧ v_watchers v = ∅ ∧ v_cancelled v = ∅ ∧ v_pending v = [] ∧ v_draining v = false ∧
  0 < current_revision v ≤ maxUint64.
Definition vm_start (v : Var) : vm := mkVm v None DIdle [] ∅ ∅.

(** States reached from a fresh variable in [n] steps. *)
Inductive vm_reachable (v0 : Var) : nat → vm → Prop :=
| vr_start : fresh v0 → vm_reachable v0 0 (vm_start v0)
| vr_step n m l m' : vm_reachable v0 n m → vlabel_ok m l → vstep m l = Some m' → vm_reachable v0 (S n) m'.

(** ** The published history *)

(** Revisions increase; a compare-and-set is applied to exactly the revision it expected; a
    retirement is the last entry. *)
Fixpoint chain (prev : Z) (h : list (option Z * VariableUpdate)) : Prop :=
  match h with
  | [] => True
  | (expected, u) :: rest =>
    match vu_Failure u with
    | Some _ => rest = []
    | None => prev < vu_Revision u ∧ (∀ e, expected = Some e → prev = e ∧ vu_Revision u = e + 1) ∧ chain (vu_Revision u) rest
    end
  end.

Fixpoint last_revision (prev : Z) (h : list (option Z * VariableUpdate)) : Z :=
  match h with [] => prev | (_, u) :: rest => last_revision (vu_Revision u) rest end.
Definition no_failure (h : list (option Z * VariableUpdate)) : Prop := Forall (λ x, vu_Failure x.2 = None) h.

Lemma chain_snoc prev h x :
  chain prev h → no_failure h → chain (last_revision prev h) [x] → chain prev (h ++ [x]).
Proof.
  revert prev. induction h as [|[e u] h IH]; intros prev Hc Hn Hx; [done|]. apply Forall_cons in Hn as [Hu Hn].
  simpl in *. rewrite Hu in *. destruct Hc as (H1 & H2 & H3). split_and!; [done|done|]. by apply IH.
Qed.
Lemma last_revision_snoc prev h e u : last_revision prev (h ++ [(e, u)]) = vu_Revision u.
Proof. revert prev. induction h as [|[e' u'] h IH]; intros prev; [done|]. apply IH. Qed.

(** ** The invariant *)

Definition notifies (w : Z) (n : VariableUpdate * list Z) : list VariableUpdate :=
  if bool_decide (w ∈ n.2) then [n.1] else [].
Definition inflight (w : Z) (d : drainer) : list VariableUpdate :=
  match d with DCalling u ws => notifies w (u, ws) | _ => [] end.
Definition queued (w : Z) (v : Var) : list VariableUpdate := v_pending v ≫= notifies w.
(** What an observer has been, is being, and will be called with. *)
Definition told (m : vm) (w : Z) : list VariableUpdate :=
  default [] (vm_seen m !! w) ++ inflight w (vm_drainer m) ++ queued w (vm_v m).

Definition mentioned (m : vm) (w : Z) : Prop :=
  w ∈ v_watchers (vm_v m) ∨ (∃ n, n ∈ v_pending (vm_v m) ∧ w ∈ n.2) ∨
  (∃ u ws, vm_drainer m = DCalling u ws ∧ w ∈ ws).

Record vm_ok (r0 : Z) (n : nat) (m : vm) : Prop := mkVmOk {
  vk_chain : chain r0 (vm_history m);
  vk_last : v_retired (vm_v m) = false → no_failure (vm_history m) ∧ last_revision r0 (vm_history m) = current_revision (vm_v m);
  vk_current : 0 < current_revision (vm_v m) ≤ maxUint64;
  vk_gate : ∀ e p, vm_gate m = Some (e, p) →
    vu_Failure (pv_update p) = None ∧ current_revision (vm_v m) < vu_Revision (pv_update p) ≤ maxUint64 ∧
    ∀ x, e = Some x → current_revision (vm_v m) = x ∧ vu_Revision (pv_update p) = x + 1;
  vk_drain : (vm_drainer m = DIdle ↔ v_draining (vm_v m) = false) ∧ (vm_drainer m = DIdle → v_pending (vm_v m) = []);
  vk_next : 0 ≤ v_nextWatch (vm_v m) ≤ Z.of_nat n;
  vk_ids : ∀ w, is_Some (vm_joined m !! w) → w ≤ v_nextWatch (vm_v m);
  vk_mentioned : ∀ w, mentioned m w → is_Some (vm_joined m !! w);
  vk_nodup : Forall (λ x, NoDup x.2) (v_pending (vm_v m)) ∧ (∀ u ws, vm_drainer m = DCalling u ws → NoDup ws);
  vk_told : ∀ w k, vm_joined m !! w = Some k → w ∉ v_cancelled (vm_v m) →
    (v_retired (vm_v m) = false → w ∈ v_watchers (vm_v m)) ∧ (k ≤ length (vm_history m))%nat ∧
    told m w = (drop k (vm_history m)).*2
}.

Lemma fresh_ok v0 : fresh v0 → vm_ok (current_revision v0) 0 (vm_start v0).
Proof.
  intros (H1 & H2 & H3 & H4 & H5 & H6 & H7). split; simpl; try done.
  - intros _. split; [constructor|done].
  - lia.
  - intros w [? H]. by rewrite lookup_empty in H.
  - intros w [H|[(n & H & _)|(u & ws & H & _)]]; simpl in *; [rewrite H3 in H; set_solver|rewrite H5 in H; by apply not_elem_of_nil in H|done].
  - rewrite H5. split; [constructor|done].
Qed.

Lemma prepare_update v revision state now p :
  prepare v revision state now = Ok p → vu_Failure (pv_update p) = None ∧ vu_Revision (pv_update p) = revision.
Proof. unfold prepare. intros H. guards H. by simplify_eq. Qed.

(** A new variable is fresh, at revision 1. *)
Lemma NewVariable_fresh descriptor ok json identity initial handler now v :
  NewVariable descriptor ok json identity initial handler now = Ok v → fresh v ∧ current_revision v = 1.
Proof.
  unfold NewVariable. intros H. destruct (normalizeDescriptor descriptor) as [d|]; [|done]. simpl in H. guards H.
  destruct (prepare _ 1 initial now) as [p|] eqn:E; simpl in H; simplify_eq. apply prepare_update in E as [_ E].
  unfold fresh, current_revision. simpl. rewrite E. split_and!; try done; unfold maxUint64; lia.
Qed.

Lemma NewVariable_spec descriptor ok json identity initial handler now v :
  NewVariable descriptor ok json identity initial handler now = Ok v →
  normalizeDescriptor descriptor = Ok (v_descriptor v) ∧ v_retired v = false ∧ current_revision v = 1 ∧
  v_instanceID v = EncodeToString identity ∧ vu_State (pv_update (v_current v)) = envelope_of v 1 initial now (Some json).
Proof.
  unfold NewVariable. intros H. destruct (normalizeDescriptor descriptor) as [d|]; [|done]. simpl in H. guards H.
  destruct (prepare _ 1 initial now) as [p|] eqn:E; simpl in H; simplify_eq.
  pose proof (prepare_update _ _ _ _ _ E) as [_ Hr]. unfold prepare in E. guards E. by simplify_eq.
Qed.

Lemma prepareNext_update v revision state now p :
  0 < current_revision v ≤ maxUint64 → is_u64 revision → prepareNext v revision state now = Ok p →
  vu_Failure (pv_update p) = None ∧ current_revision v < vu_Revision (pv_update p) ≤ maxUint64.
Proof.
  intros Hc Hu. unfold prepareNext. intros H. guards H. apply prepare_update in H as [Hf Hr']. rewrite Hr'. bool_prop.
  split; [done|]. split; [lia|]. destruct (revision =? 0); [|unfold is_u64 in Hu; lia].
  pose proof (u64_range (current_revision v + 1)) as Hr. unfold is_u64 in Hr. lia.
Qed.

Lemma compareAndSet_update v instance revision value now p :
  0 < current_revision v ≤ maxUint64 → compareAndSet_prepare v instance revision value now = Ok p →
  vu_Failure (pv_update p) = None ∧ current_revision v < vu_Revision (pv_update p) ≤ maxUint64 ∧
  current_revision v = revision ∧ vu_Revision (pv_update p) = revision + 1.
Proof.
  intros Hc. unfold compareAndSet_prepare. intros H. guards H. bool_prop.
  destruct (prepare v _ _ now) as [q|] eqn:E; [|done]. simpl in H. guards H. simplify_eq.
  apply prepare_update in E as [E1 E2]. rewrite u64_small in E2 by (unfold is_u64; lia). split_and!; try done; lia.
Qed.

Lemma confirm_update v p outcome now q :
  vu_Failure (pv_update p) = None → confirm v p outcome now = Ok q →
  vu_Failure (pv_update q) = None ∧ vu_Revision (pv_update q) = vu_Revision (pv_update p).
Proof.
  intros Hp. unfold confirm. destruct outcome; [by intros [= <-]|done|]. intros H. guards H. by apply prepare_update in H.
Qed.

(** What [enqueueLocked] does to the queue. *)
Lemma enqueueLocked_spec v u order v' drain :
  order ≡ₚ elements (v_watchers v) → enqueueLocked v u order = (v', drain) →
  ∃ added, v' = set_queue v (v_pending v ++ added) (v_draining v || bool_decide (added ≠ [])) ∧
    drain = (negb (v_draining v) && bool_decide (added ≠ [])) ∧
    ((added = [] ∧ v_watchers v = ∅) ∨ (added = [(u, order)] ∧ v_watchers v ≠ ∅)).
Proof.
  intros Ho. unfold enqueueLocked. destruct (Z.eqb_spec (Z.of_nat (size (v_watchers v))) 0) as [E|E].
  - intros [= <- <-]. exists []. rewrite app_nil_r, orb_false_r, andb_false_r. split_and!; [by destruct v|done|].
    left. split; [done|]. apply leibniz_equiv, size_empty_inv. lia.
  - intros H. exists [(u, order)]. rewrite bool_decide_eq_true_2 by done. rewrite orb_true_r, andb_true_r.
    assert (v_watchers v ≠ ∅) by (intros Hx; rewrite Hx, size_empty in E; done).
    destruct (v_draining v); simplify_eq; auto.
Qed.

Lemma enter_ok r0 n m e r m' :
  vm_ok r0 n m → enter m e r = Some m' →
  (∀ p, r = Ok p → vu_Failure (pv_update p) = None ∧ current_revision (vm_v m) < vu_Revision (pv_update p) ≤ maxUint64 ∧
     ∀ x, e = Some x → current_revision (vm_v m) = x ∧ vu_Revision (pv_update p) = x + 1) →
  vm_ok r0 n m'.
Proof.
  intros Hok H Hr. unfold enter in H. destruct (vm_gate m); [done|]. destruct r as [p|]; simplify_eq; [|done].
  destruct Hok. split; simpl; try done. intros e' p' [= <- <-]. by apply Hr.
Qed.

Lemma queued_snoc w v pending added draining :
  queued w (set_queue v (pending ++ added) draining) = (pending ≫= notifies w) ++ (added ≫= notifies w).
Proof. unfold queued. simpl. by rewrite bind_app. Qed.

(** Publishing [u]: commits and retirements. *)
Lemma publish_told r0 n m w k added u e v' :
  vm_ok r0 n m → vm_joined m !! w = Some k → w ∉ v_cancelled (vm_v m) → v_retired (vm_v m) = false →
  queued w v' = queued w (vm_v m) ++ (added ≫= notifies w) →
  ((added = [] ∧ v_watchers (vm_v m) = ∅) ∨ (∃ order, added = [(u, order)] ∧ order ≡ₚ elements (v_watchers (vm_v m)))) →
  default [] (vm_seen m !! w) ++ inflight w (vm_drainer m) ++ queued w v' = (drop k (vm_history m ++ [(e, u)])).*2 ∧
  (k ≤ length (vm_history m ++ [(e, u)]))%nat.
Proof.
  intros H Hw Hc Hr Hq Ha. destruct (vk_told _ _ _ H w k Hw Hc) as (Hin & Hk & Ht). specialize (Hin Hr). split.
  - rewrite drop_app_le by done. rewrite fmap_app. rewrite <- Ht. unfold told. rewrite Hq, <- !app_assoc. do 3 f_equal.
    destruct Ha as [[_ E]|(order & -> & Ho)]; [rewrite E in Hin; set_solver|]. simpl. unfold notifies. simpl.
    rewrite bool_decide_eq_true_2; [done|]. by rewrite Ho, elem_of_elements.
  - rewrite length_app. lia.
Qed.

(** The drainer after a publication: unchanged, or newly started. *)
Lemma publish_drain r0 n m added (d : drainer) :
  vm_ok r0 n m → d ≠ DIdle →
  let draining := v_draining (vm_v m) || bool_decide (added ≠ []) in
  let d' := if negb (v_draining (vm_v m)) && bool_decide ((added : list (VariableUpdate * list Z)) ≠ []) then d else vm_drainer m in
  (d' = DIdle ↔ draining = false) ∧ (d' = DIdle → v_pending (vm_v m) ++ added = []).
Proof.
  intros H Hd. destruct (vk_drain _ _ _ H) as [H1 H2]. cbv zeta.
  destruct (v_draining (vm_v m)) eqn:E; simpl.
  - assert (vm_drainer m ≠ DIdle) by (intros Hx; apply H1 in Hx; congruence). split; [split; congruence|congruence].
  - assert (vm_drainer m = DIdle) as Hx by (by apply H1). case_bool_decide as Ha.
    + split; [split; congruence|congruence].
    + assert (added = []) as -> by (by destruct added). rewrite app_nil_r. auto.
Qed.

Lemma told_same m m' w :
  vm_seen m' = vm_seen m → vm_drainer m' = vm_drainer m → v_pending (vm_v m') = v_pending (vm_v m) → told m' w = told m w.
Proof. unfold told, queued. by intros -> -> ->. Qed.

Lemma vm_ok_mono r0 n n' m : vm_ok r0 n m → (n ≤ n')%nat → vm_ok r0 n' m.
Proof. intros [] Hn. split; try done. lia. Qed.

Lemma commit_ok r0 n m e p q order u drain v' outcome now :
  vm_ok r0 n m → order ≡ₚ elements (v_watchers (vm_v m)) → vm_gate m = Some (e, p) →
  confirm (vm_v m) p outcome now = Ok q → commit (vm_v m) q order = Ok (u, drain, v') →
  vm_ok r0 n (mkVm v' None (if drain then DLoop else vm_drainer m) (vm_history m ++ [(e, u)]) (vm_joined m) (vm_seen m)).
Proof.
  intros H Ho Hg Hc Hcm. destruct (vk_gate _ _ _ H e p Hg) as (G1 & G2 & G3).
  apply confirm_update in Hc as [C1 C2]; [|done]. unfold commit in Hcm. guards Hcm.
  destruct (enqueueLocked _ _ _) as [v1 dr] eqn:Ee. simplify_eq.
  apply enqueueLocked_spec in Ee as (added & -> & -> & Ha); [|done]. simpl in *.
  pose proof (publish_drain r0 n m added DLoop H) as Hd. cbv zeta in Hd.
  destruct (vk_last _ _ _ H) as [Hnf Hlast]; [done|].
  assert ((added = [] ∧ v_watchers (vm_v m) = ∅) ∨ (∃ order, added = [(pv_update q, order)] ∧ order ≡ₚ elements (v_watchers (vm_v m)))) as Ha'
    by (destruct Ha as [?|[-> _]]; [by left|right; eauto]).
  pose proof (publish_told r0 n m) as Hpub.
  assert (∀ w k, vm_joined m !! w = Some k → w ∉ v_cancelled (vm_v m) → _) as Htold
    by (intros w k Hw Hcw; exact (Hpub w k added (pv_update q) e _ H Hw Hcw ltac:(done)
          (queued_snoc w (set_current (vm_v m) q) (v_pending (vm_v m)) added (v_draining (vm_v m) || bool_decide (added ≠ []))) Ha')).
  assert (∀ w, inflight w (if negb (v_draining (vm_v m)) && bool_decide (added ≠ []) then DLoop else vm_drainer m) = inflight w (vm_drainer m)) as Hin.
  { intros w. destruct (negb _ && _) eqn:Ex; [|done]. bool_prop.
    destruct (vk_drain _ _ _ H) as [[_ Hx] _]. by rewrite Hx. }
  split; simpl.
  - apply chain_snoc; [apply (vk_chain _ _ _ H)|done|]. simpl. rewrite C1, C2, Hlast. split_and!; [lia|done|done].
  - intros _. split; [apply Forall_app; split; [done|]; by apply Forall_singleton|]. by rewrite last_revision_snoc.
  - unfold current_revision. simpl. rewrite C2. pose proof (vk_current _ _ _ H). lia.
  - done.
  - by apply Hd.
  - apply (vk_next _ _ _ H).
  - apply (vk_ids _ _ _ H).
  - intros w Hm. apply (vk_mentioned _ _ _ H). destruct Hm as [Hm|[(x & Hx & Hw)|(u & ws & Hu & Hw)]]; simpl in *.
    + by left.
    + apply elem_of_app in Hx as [Hx|Hx]; [right; left; eauto|].
      destruct Ha as [[-> _]|[-> _]]; [by apply not_elem_of_nil in Hx|]. apply list_elem_of_singleton in Hx as ->. simpl in Hw.
      left. by rewrite Ho, elem_of_elements in Hw.
    + right. right. destruct (negb _ && _); [done|]. eauto.
  - destruct (vk_nodup _ _ _ H) as [N1 N2]. split.
    + apply Forall_app. split; [done|]. destruct Ha as [[-> _]|[-> _]]; constructor; [|constructor]. simpl. rewrite Ho. apply NoDup_elements.
    + intros u ws. destruct (negb _ && _); [done|]. apply N2.
  - intros w k Hw Hcw. destruct (Htold w k Hw Hcw) as [T1 T2]. destruct (vk_told _ _ _ H w k Hw Hcw) as (T3 & _).
    split_and!; [done|done|]. unfold told. simpl. rewrite Hin. apply T1.
Qed.

Lemma retire_ok r0 n m order v' drain :
  vm_ok r0 n m → order ≡ₚ elements (v_watchers (vm_v m)) → v_retired (vm_v m) = false → PrepareRetire (vm_v m) order = (v', drain) →
  vm_ok r0 n (mkVm v' (vm_gate m) (if drain then DDeferred else vm_drainer m) (vm_history m ++ [(None, goneUpdate)]) (vm_joined m) (vm_seen m)).
Proof.
  intros H Ho Hr Hp. unfold PrepareRetire in Hp. rewrite Hr in Hp.
  destruct (enqueueLocked _ _ _) as [v1 dr] eqn:Ee. simplify_eq.
  apply enqueueLocked_spec in Ee as (added & -> & -> & Ha); [|done]. simpl in *.
  pose proof (publish_drain r0 n m added DDeferred H) as Hd. cbv zeta in Hd.
  destruct (vk_last _ _ _ H) as [Hnf Hlast]; [done|].
  assert ((added = [] ∧ v_watchers (vm_v m) = ∅) ∨ (∃ order, added = [(goneUpdate, order)] ∧ order ≡ₚ elements (v_watchers (vm_v m)))) as Ha'
    by (destruct Ha as [?|[-> _]]; [by left|right; eauto]).
  assert (∀ w, inflight w (if negb (v_draining (vm_v m)) && bool_decide (added ≠ []) then DDeferred else vm_drainer m) = inflight w (vm_drainer m)) as Hin.
  { intros w. destruct (negb _ && _) eqn:Ex; [|done]. bool_prop.
    destruct (vk_drain _ _ _ H) as [[_ Hx] _]. by rewrite Hx. }
  split; simpl.
  - apply chain_snoc; [apply (vk_chain _ _ _ H)|done|]. done.
  - done.
  - apply (vk_current _ _ _ H).
  - apply (vk_gate _ _ _ H).
  - by apply Hd.
  - apply (vk_next _ _ _ H).
  - apply (vk_ids _ _ _ H).
  - intros w Hm. apply (vk_mentioned _ _ _ H). destruct Hm as [Hm|[(x & Hx & Hw)|(u & ws & Hu & Hw)]]; simpl in *.
    + set_solver.
    + apply elem_of_app in Hx as [Hx|Hx]; [right; left; eauto|].
      destruct Ha as [[-> _]|[-> _]]; [by apply not_elem_of_nil in Hx|]. apply list_elem_of_singleton in Hx as ->. simpl in Hw.
      left. by rewrite Ho, elem_of_elements in Hw.
    + right. right. destruct (negb _ && _); [done|]. eauto.
  - destruct (vk_nodup _ _ _ H) as [N1 N2]. split.
    + apply Forall_app. split; [done|]. destruct Ha as [[-> _]|[-> _]]; constructor; [|constructor]. simpl. rewrite Ho. apply NoDup_elements.
    + intros u ws. destruct (negb _ && _); [done|]. apply N2.
  - intros w k Hw Hcw.
    destruct (publish_told r0 n m w k added goneUpdate None (set_queue (set_retired (vm_v m)) (v_pending (vm_v m) ++ added) (v_draining (vm_v m) || bool_decide (added ≠ [])))
      H Hw Hcw Hr (queued_snoc w (set_retired (vm_v m)) _ _ _) Ha') as [T1 T2].
    split_and!; [done|done|]. unfold told. simpl. rewrite Hin. apply T1.
Qed.

Lemma watch_ok r0 n m u id v' :
  vm_ok r0 n m → Z.of_nat n < maxUint64 → Watch (vm_v m) = Ok (u, id, v') →
  vm_ok r0 (S n) (mkVm v' (vm_gate m) (vm_drainer m) (vm_history m) (<[id := length (vm_history m)]> (vm_joined m)) (<[id := []]> (vm_seen m))).
Proof.
  intros H Hn Hw. unfold Watch in Hw. guards Hw. simplify_eq. pose proof (vk_next _ _ _ H) as Hnext.
  rewrite u64_small by (unfold is_u64; lia). set (id := v_nextWatch (vm_v m) + 1).
  assert (vm_joined m !! id = None) as Hnone.
  { apply eq_None_not_Some. intros Hs. apply (vk_ids _ _ _ H) in Hs. lia. }
  assert (¬ mentioned m id) as Hnm by (intros Hx; apply (vk_mentioned _ _ _ H) in Hx; rewrite Hnone in Hx; by destruct Hx).
  assert (inflight id (vm_drainer m) = [] ∧ queued id (vm_v m) = []) as [Hi Hq].
  { split.
    - unfold inflight. destruct (vm_drainer m) as [| | |u ws] eqn:Ed; try done. unfold notifies. simpl.
      rewrite bool_decide_eq_false_2; [done|]. intros Hx. apply Hnm. right. right. eauto.
    - unfold queued. assert (∀ x, x ∈ v_pending (vm_v m) → id ∉ x.2) as Hp by (intros x Hx Hw; apply Hnm; right; left; eauto).
      clear -Hp. induction (v_pending (vm_v m)) as [|x l IH]; [done|]. simpl. unfold notifies at 1.
      rewrite bool_decide_eq_false_2 by (apply Hp; left). apply IH. intros y Hy. apply Hp. by right. }
  destruct H as [K1 K2 K3 K4 K5 K6 K7 K8 K9 K10]. split; simpl; try done.
  - lia.
  - intros w. rewrite lookup_insert_is_Some'. intros [<-|Hs]; [done|]. apply K7 in Hs. lia.
  - intros w Hm. rewrite lookup_insert_is_Some'. destruct (decide (id = w)) as [|Hne]; [by left|]. right. apply K8.
    destruct Hm as [Hm|Hm]; [left|by right]. simpl in Hm. set_solver.
  - intros w k. rewrite lookup_insert_Some. intros [[<- <-]|[Hne Hk]] Hc.
    + split_and!; [set_solver|lia|]. unfold told. simpl. rewrite lookup_insert_eq, Hi. unfold queued in *. simpl. rewrite Hq, drop_all. done.
    + destruct (K10 w k Hk Hc) as (T1 & T2 & T3). split_and!; [set_solver|done|]. rewrite <- T3. unfold told. simpl.
      by rewrite lookup_insert_ne.
Qed.

Lemma pop_ok r0 n m m' : vm_ok r0 n m → vstep m VPop = Some m' → vm_ok r0 n m'.
Proof.
  intros [K1 K2 K3 K4 K5 K6 K7 K8 K9 K10] Hs. simpl in Hs. destruct (vm_drainer m) as [| | |] eqn:Ed; try done.
  destruct (v_pending (vm_v m)) as [|[u ws] rest] eqn:Ep; simplify_eq; split; simpl; try done.
  - intros w [Hm|[(x & Hx & _)|(u & ws & Hu & _)]]; simpl in *; [by apply K8; left|by apply not_elem_of_nil in Hx|done].
  - intros w k Hw Hc. destruct (K10 w k Hw Hc) as (T1 & T2 & T3). split_and!; try done. rewrite <- T3. unfold told, queued.
    simpl. by rewrite Ed, Ep.
  - destruct K5 as [[K5 K5'] _]. split; [|done]. split; [done|]. intros Hx. by apply K5' in Hx.
  - intros w [Hm|[(x & Hx & Hw)|(u' & ws' & [= <- <-] & Hw)]]; simpl in *; apply K8; [by left|right; left|right; left].
    + exists x. rewrite Ep. split; [by right|done].
    + exists (u, ws). rewrite Ep. split; [left|done].
  - destruct K9 as [K9 _]. apply Forall_cons in K9 as [Hn K9]. split; [done|]. by intros ? ? [= <- <-].
  - intros w k Hw Hc. destruct (K10 w k Hw Hc) as (T1 & T2 & T3). split_and!; try done. rewrite <- T3. unfold told, queued.
    simpl. by rewrite Ed, Ep.
Qed.

Lemma call_ok r0 n m m' : vm_ok r0 n m → vstep m VCall = Some m' → vm_ok r0 n m'.
Proof.
  intros [K1 K2 K3 K4 K5 K6 K7 K8 K9 K10] Hs. simpl in Hs. destruct (vm_drainer m) as [| | |u [|w ws]] eqn:Ed; try done;
    simplify_eq; split; simpl; try done; try (destruct K5 as [[K5 K5'] _]; split; [|done]; split; [done|]; intros Hx; by apply K5' in Hx).
  - intros w [Hm|[Hm|(u' & ws' & [=] & _)]]; apply K8; [by left|by right; left].
  - split; [by destruct K9|done].
  - intros x k Hx Hc. destruct (K10 x k Hx Hc) as (T1 & T2 & T3). split_and!; try done. rewrite <- T3. unfold told. simpl. rewrite Ed. simpl.
    done.
  - intros x [Hm|[Hm|(u' & ws' & [= <- <-] & Hw)]]; apply K8; [by left|by right; left|]. right. right. eexists u, (w :: ws). split; [done|by right].
  - destruct K9 as [K9 K9']. split; [done|]. intros ? ? [= <- <-]. by apply NoDup_cons_1_2 with w, (K9' u).
  - intros x k Hx Hc. destruct (K10 x k Hx Hc) as (T1 & T2 & T3). split_and!; try done. rewrite <- T3. unfold told. simpl. rewrite Ed. simpl.
    unfold notifies. simpl. assert (w ∉ ws) as Hnw by (destruct K9 as [_ K9']; by apply NoDup_cons_1_1, (K9' u)).
    destruct (decide (x = w)) as [->|Hne].
    + rewrite (bool_decide_eq_false_2 (w ∈ v_cancelled _)) by done. rewrite lookup_insert_eq. simpl.
      rewrite (bool_decide_eq_false_2 (w ∈ ws)), (bool_decide_eq_true_2 (w ∈ w :: ws)) by (done || by left). simpl. by rewrite <- app_assoc.
    + assert ((if bool_decide (w ∈ v_cancelled (vm_v m)) then vm_seen m else <[w:=default [] (vm_seen m !! w) ++ [u]]> (vm_seen m)) !! x = vm_seen m !! x) as ->
        by (case_bool_decide; [done|by rewrite lookup_insert_ne]).
      do 2 f_equal. assert (bool_decide (x ∈ w :: ws) = bool_decide (x ∈ ws)) as ->; [|done].
      apply bool_decide_ext. rewrite elem_of_cons. tauto.
Qed.

Lemma vstep_ok r0 n m l m' :
  vm_ok r0 n m → Z.of_nat n < maxUint64 → vlabel_ok m l → vstep m l = Some m' → vm_ok r0 (S n) m'.
Proof.
  intros H Hn Hl Hs. pose proof (vk_current _ _ _ H) as Hcur.
  destruct l as [instance revision value now|state now|revision state now|outcome now order| |id|order| | |]; simpl in Hs, Hl.
  - eapply vm_ok_mono; [eapply enter_ok; [done|done|]|lia]. intros p Hp. apply compareAndSet_update in Hp as (A1 & A2 & A3 & A4); [|done].
    split; [done|]. split; [done|]. by intros x [= <-].
  - eapply vm_ok_mono; [eapply enter_ok; [done|done|]|lia]. intros p Hp.
    apply prepareNext_update in Hp as (A1 & A2); [|done|by vm_compute]. done.
  - eapply vm_ok_mono; [eapply enter_ok; [done|done|]|lia]. intros p Hp. destruct (revision =? 0); [done|].
    apply prepareNext_update in Hp as (A1 & A2); [|done|done]. done.
  - destruct (vm_gate m) as [[e p]|] eqn:Eg; [|done].
    destruct (confirm (vm_v m) p outcome now) as [q|] eqn:Ec; simpl in Hs.
    + destruct (commit (vm_v m) q order) as [[[u drain] v']|] eqn:Em; simplify_eq.
      * eapply vm_ok_mono; [by eapply commit_ok|lia].
      * apply (vm_ok_mono _ n); [|lia]. destruct H. by split.
    + simplify_eq. apply (vm_ok_mono _ n); [|lia]. destruct H. by split.
  - destruct (Watch (vm_v m)) as [[[u id] v']|] eqn:Ew; simplify_eq; [by eapply watch_ok|]. eapply vm_ok_mono; [done|lia].
  - simplify_eq. apply (vm_ok_mono _ n); [|lia]. destruct H as [K1 K2 K3 K4 K5 K6 K7 K8 K9 K10]. split; simpl; try done.
    + intros w [Hm|Hm]; apply K8; [left; simpl in Hm; set_solver|by right].
    + intros w k Hw Hc. destruct (K10 w k Hw) as (T1 & T2 & T3); [set_solver|]. split_and!; try done. intros Hr. specialize (T1 Hr). set_solver.
  - destruct (v_retired (vm_v m)) eqn:Er; [simplify_eq; eapply vm_ok_mono; [done|lia]|].
    destruct (PrepareRetire (vm_v m) order) as [v' drain] eqn:Ep. simplify_eq. eapply vm_ok_mono; [by eapply retire_ok|lia].
  - destruct (vm_gate m) eqn:Eg; [done|]. destruct (vm_drainer m) eqn:Ed; try done. simplify_eq. apply (vm_ok_mono _ n); [|lia].
    destruct H as [K1 K2 K3 K4 K5 K6 K7 K8 K9 K10]. split; simpl; try done.
    + destruct K5 as [[K5 K5'] _]. split; [|done]. split; [done|]. intros Hx. apply K5' in Hx. congruence.
    + intros w [Hm|[Hm|(? & ? & [=] & _)]]; apply K8; [by left|by right; left].
    + split; [by destruct K9|done].
    + intros w k Hw Hc. destruct (K10 w k Hw Hc) as (T1 & T2 & T3). split_and!; try done. rewrite <- T3. unfold told. simpl. by rewrite Ed.
  - eapply vm_ok_mono; [by eapply pop_ok|lia].
  - eapply vm_ok_mono; [by eapply call_ok|lia].
Qed.

Lemma vm_reachable_ok v0 n m : vm_reachable v0 n m → Z.of_nat n ≤ maxUint64 → vm_ok (current_revision v0) n m.
Proof.
  induction 1 as [Hf|n m l m' Hr IH Hl Hs]; intros Hn; [by apply fresh_ok|].
  eapply vstep_ok; [apply IH; lia|lia|done|done].
Qed.

(** C7. Serialised mutations: the published history of a variable is a chain: every revision
    is larger than the one before, a compare-and-set is published only as the direct
    successor of exactly the revision its author expected (so of two with the same
    expectation at most one is), and nothing follows a retirement, whatever reads, observers,
    retirements and drains run while a write handler is busy. *)
Theorem variable_history_chain v0 n m :
  vm_reachable v0 n m → Z.of_nat n ≤ maxUint64 →
  chain (current_revision v0) (vm_history m) ∧
  (v_retired (vm_v m) = false → current_revision (vm_v m) = last_revision (current_revision v0) (vm_history m)).
Proof.
  intros Hr Hn. pose proof (vm_reachable_ok v0 n m Hr Hn) as H. split; [apply (vk_chain _ _ _ H)|].
  intros Hx. by destruct (vk_last _ _ _ H Hx).
Qed.

(** Exact observation: an observer that has not been cancelled has been called with, is
    being called with, or has queued exactly the updates published since it joined, each
    once and in the order of publication, the retirement included; and a queued update always
    has a goroutine in charge of delivering it. *)
Theorem variable_observers_exact v0 n m w k :
  vm_reachable v0 n m → Z.of_nat n ≤ maxUint64 →
  vm_joined m !! w = Some k → w ∉ v_cancelled (vm_v m) →
  told m w = (drop k (vm_history m)).*2 ∧ (v_pending (vm_v m) ≠ [] → vm_drainer m ≠ DIdle).
Proof.
  intros Hr Hn Hw Hc. pose proof (vm_reachable_ok v0 n m Hr Hn) as H.
  destruct (vk_told _ _ _ H w k Hw Hc) as (_ & _ & T). split; [done|].
  intros Hp Hd. by apply Hp, (vk_drain _ _ _ H).
Qed.
End variable.

(** A revision sent back by a client means the revision that was published: the parser
    accepts exactly the decimal forms of the non-zero 64-bit revisions that [prepare] writes
    into the envelope, and inverts them. *)
Theorem ParseVariableRevision_canonical (s : string) (n : Z) :
  ParseVariableRevision s = Ok n ↔ 0 < n ≤ maxUint64 ∧ s = FormatUint n.
Proof.
  unfold ParseVariableRevision. rewrite <- length_code. unfold ParseUint. split.
  - intros H. destruct (code s) as [|c cs] eqn:Es; [done|]. destruct (parse_digits 0 (c :: cs)) as [n' ok] eqn:Ep.
    guards H. simplify_eq. bool_prop. destruct ok; [|done].
    assert (head (c :: cs) ≠ Some 48) as Hh by (simpl; intros [=]; lia).
    destruct (parse_digits_unique (c :: cs) n) as (_ & Hn & Hpos); [done|by left|done..|]. specialize (Hpos Hh).
    split; [lia|]. apply code_inj. rewrite Es, code_FormatUint by lia.
    symmetry. by apply parse_digits_canonical.
  - intros [Hn ->]. pose proof (ParseUint_FormatUint n ltac:(unfold is_u64; lia)) as Hp. unfold ParseUint in Hp.
    assert (head (code (FormatUint n)) ≠ Some 48) as Hh.
    { rewrite code_FormatUint by lia. rewrite rev_alt. fold (reverse (digits_rev 20 n)).
      rewrite head_reverse. apply digits_rev_last. unfold maxUint64 in Hn. simpl. lia. }
    assert (Forall (λ d, 48 ≤ d < 58) (code (FormatUint n))) as Hr.
    { rewrite code_FormatUint by lia. apply Forall_rev, digits_rev_range. lia. }
    assert (length (code (FormatUint n)) ≤ 20)%nat as Hl.
    { rewrite code_FormatUint by lia. rewrite length_rev. apply length_digits_rev. }
    destruct (code (FormatUint n)) as [|c cs] eqn:Ec; [done|]. rewrite Hp.
    assert (forallb (between 48 57) (c :: cs) = true) as ->.
    { apply forallb_forall. intros d Hd. rewrite Forall_forall in Hr. apply between_spec.
      apply list_elem_of_In, Hr in Hd. lia. }
    inversion Hr; subst. assert (c ≠ 48) by (intros ->; done).
    destruct (Z.ltb_spec c 49); [lia|]. destruct (Z.ltb_spec 57 c); [lia|].
    destruct (Z.ltb_spec 20 (Z.of_nat (length (c :: cs)))); [lia|]. done.
Qed.

(** A variable with a permissive definition whose envelope is encoded as two bytes. *)
Module Variable_demo.
Definition accept (_ : list byte) (_ : VariableValueV1) : bool := true.
Definition encode (_ : VariableValueV1) : list byte := [x7b; x7d].
Definition ready (b : byte) : VariableState := mkVariableState [b] "ready" None None.
Definition light : result variable_error Var :=
  NewVariable accept encode (WritableVariableDescriptor (mkResourceID 1 "light") "light.read" "light.write" 64) true [x30]
    (be_bytes 16 7) (ready x30) false 0.
Definition v0 : Var :=
  match light with
  | Ok v => v
  | Err _ => mkVariable [] (VariableDescriptor (mkResourceID 1 "light") "" 0) "" (mkPrepared goneUpdate []) true 0 ∅ ∅ [] false
  end.
Definition labels : list vlabel :=
  [VWatch; VCas (v_instanceID v0) 1 [x31] 5; VCommit (HandlerState (ready x32)) 6 [1]; VWatch;
   VCas (v_instanceID v0) 1 [x33] 7; VSet (ready x34) 8; VCommit NoHandler 8 [1; 2]; VPop; VCall; VCall; VRetire [1; 2]].
(** Runs labels whose side conditions hold. *)
Definition vlabel_okb (m : vm) (l : vlabel) : bool :=
  match l with
  | VCommit _ _ order | VRetire order => bool_decide (order ≡ₚ elements (v_watchers (vm_v m)))
  | VApply revision _ _ => (0 <=? revision) && (revision <=? maxUint64)
  | VCancel id => bool_decide (is_Some (vm_joined m !! id))
  | _ => true
  end.
Fixpoint vrun (m : vm) (ls : list vlabel) : option vm :=
  match ls with
  | [] => Some m
  | l :: rest => if vlabel_okb m l then vstep accept encode m l ≫= λ m', vrun m' rest else None
  end.
Definition m0 : vm := default (vm_start v0) (vrun (vm_start v0) labels).

Lemma vrun_reachable n m ls m' :
  vm_reachable accept encode v0 n m → vrun m ls = Some m' → vm_reachable accept encode v0 (n + length ls) m'.
Proof.
  revert n m. induction ls as [|l ls IH]; intros n m Hr H; simpl in H; [simplify_eq; by rewrite Nat.add_0_r|].
  destruct (vlabel_okb m l) eqn:El; [|done]. destruct (vstep accept encode m l) as [m1|] eqn:E; [|done].
  change (length (l :: ls)) with (S (length ls)). rewrite <- Nat.add_succ_comm. eapply IH; [|done]. eapply vr_step; [done| |done].
  unfold vlabel_okb in El. destruct l; simpl; bool_prop; done.
Qed.
Lemma v0_fresh : fresh v0.
Proof.
  assert (is_ok light = true) as H by (vm_compute; reflexivity). unfold v0.
  destruct light as [v|] eqn:E; [|discriminate H]. unfold light in E. exact (proj1 (NewVariable_fresh _ _ _ _ _ _ _ _ _ _ E)).
Qed.
Lemma m0_reachable : vm_reachable accept encode v0 11 m0.
Proof.
  assert (is_Some (vrun (vm_start v0) labels)) as [m H] by (vm_compute; eexists; reflexivity).
  unfold m0. rewrite H. exact (vrun_reachable 0 _ labels m (vr_start _ _ _ v0_fresh) H).
Qed.
End Variable_demo.

Lemma variable_history_chain_witness :
  let m := Variable_demo.m0 in
  (map (λ x, (x.1, vu_Revision x.2)) (vm_history m) = [(Some 1, 2); (None, 3); (None, 0)]) ∧
  chain (current_revision Variable_demo.v0) (vm_history m).
Proof.
  split; [vm_compute; reflexivity|].
  exact (proj1 (variable_history_chain _ _ _ 11 _ Variable_demo.m0_reachable ltac:(vm_compute; discriminate))).
Defined.

Lemma variable_observers_exact_witness :
  let m := Variable_demo.m0 in
  (vu_Revision <$> told m 2) = [3; 0] ∧ told m 2 = (drop 1 (vm_history m)).*2.
Proof.
  split; [vm_compute; reflexivity|].
  exact (proj1 (variable_observers_exact _ _ _ 11 _ 2 1 Variable_demo.m0_reachable ltac:(vm_compute; discriminate)
    ltac:(vm_compute; reflexivity) ltac:(apply (bool_decide_eq_true_1 (2 ∉ _)); vm_compute; reflexivity))).
Defined.
