(* ===== verification/VariableSchema.v ===== *)
(** * Variable definitions and values (protocol/data_schema.go, data_schema_variable.go,
      schema_variable.go, schema_variable_json.go, variable_definition_clone.go)

    A definition is a type; a value is JSON text.  The definition is checked once
    ([ValidateVariableDefinition]), the text is read by a strict parser
    ([parseVariableJSON]) and the value is checked against the definition
    ([validateVariableValueNode]).

    Where the code dereferences a pointer or indexes a slice, the model has an outcome
    [SPanic] for the failure of that access.  Definitions are finite trees: a cyclic one,
    which Go pointers can form, is refused at the depth limit before anything else is done
    with it.  [regexp.Compile] is a parameter. *)

From S2P Require Import Prelude GoStd GoSort GoEncoding GoJSON GoFloat GoStruct Wire Catalog VariableModel.
From Stdlib Require Import QArith Qabs.
Open Scope Z_scope.

Definition MaxDataSchemaDepth : Z := 12.
Definition MaxDataSchemaProperties : Z := 128.
Definition MaxDataSchemaEnumValues : Z := 64.
Definition MaxVariableDefinitionBytes : Z := 64 * 1024.
Definition MaxVariableSafeInteger : Z := 2 ^ 53 - 1.
Definition MaxVariableErrorMessageBytes : Z := 1024.

Inductive schema_error :=
| SDepth | SType | SText (e : wire_error) | SPrecision | SMinMax | SMultiple | SBounds | SPattern | SEnum | SSensitive
| SItems | SProperties | SPropertySchema | SDuplicate | SStructure | SNumeric | SSafe | SReadWrite | SFormat | SContentType | SEncode | SSize
| SNull | SKind | SLength | SRequired | SUnknown | SRange | SExponent | SInteger | SUnderflow | SStep | SDigits
| SEncoding | SLowSurrogate | SHighSurrogate | SKey
| SVersion | SRevision | STime | SStatus | SValue | SErrorField
| SPanic.

(** ** Definitions *)

#[local] Unset Elimination Schemes.
Inductive DataSchemaDefinition := mkSchema {
  sd_ID : string; sd_Type : string; sd_Nullable : bool; sd_Title : string; sd_Description : string; sd_Format : string; sd_ContentType : string;
  sd_Unit : string; sd_Precision : option Z; sd_Minimum : option float64; sd_Maximum : option float64; sd_MultipleOf : option float64;
  sd_MinLength : option Z; sd_MaxLength : option Z; sd_Pattern : string; sd_MinItems : option Z; sd_MaxItems : option Z;
  sd_Enum : option (list string); sd_ReadOnly : bool; sd_WriteOnly : bool; sd_Sensitive : bool;
  sd_Properties : option (list (string * bool * option DataSchemaDefinition));
  sd_Items : option DataSchemaDefinition; sd_AdditionalProperties : option DataSchemaDefinition
}.
#[local] Set Elimination Schemes.
(** [DataSchemaProperty]: name, required, schema; the schema is a pointer that may be nil. *)
Definition DataSchemaProperty : Type := string * bool * option DataSchemaDefinition.

(** A nil slice has no elements; [Enum] and [Properties] are also compared with nil. *)
Definition properties (s : DataSchemaDefinition) : list DataSchemaProperty := default [] (sd_Properties s).
Definition enum (s : DataSchemaDefinition) : list string := default [] (sd_Enum s).

Section schema_ind.
Context (P : DataSchemaDefinition → Prop).
Definition opt_P (o : option DataSchemaDefinition) : Prop := match o with Some s => P s | None => True end.
Context (step : ∀ s, Forall (λ p : DataSchemaProperty, opt_P p.2) (properties s) → opt_P (sd_Items s) → opt_P (sd_AdditionalProperties s) → P s).
Fixpoint schema_ind (s : DataSchemaDefinition) : P s :=
  let opt (o : option DataSchemaDefinition) : opt_P o := match o with Some s => schema_ind s | None => I end in
  match s as s return P s with
  | mkSchema f1 f2 f3 f4 f5 f6 f7 f8 f9 f10 f11 f12 f13 f14 f15 f16 f17 f18 f19 f20 f21 ps items additional =>
    step (mkSchema f1 f2 f3 f4 f5 f6 f7 f8 f9 f10 f11 f12 f13 f14 f15 f16 f17 f18 f19 f20 f21 ps items additional)
      (match ps as o return Forall (λ p : DataSchemaProperty, opt_P p.2) (default [] o) with
       | None => List.Forall_nil _
       | Some l => (fix go l : Forall (λ p : DataSchemaProperty, opt_P p.2) l :=
           match l with [] => List.Forall_nil _ | p :: l => List.Forall_cons _ p l (opt p.2) (go l) end) l
       end)
      (opt items) (opt additional)
  end.
End schema_ind.

Definition validateOptionalBounds (minimum maximum : option Z) : result schema_error unit :=
  fail_if match minimum with Some m => m <? 0 | None => false end || match maximum with Some m => m <? 0 | None => false end with SBounds ;;
  fail_if match minimum, maximum with Some a, Some b => b <? a | _, _ => false end with SBounds ;;
  Ok tt.

Definition text (value : string) (maxBytes : Z) (required : bool) : result schema_error unit := mapErr SText (validateText value maxBytes required).

(** The loop over the enumeration: texts, sorted and unique. *)
Fixpoint check_enum (variable : bool) (previous : option string) (values : list string) : result schema_error unit :=
  match values with
  | [] => Ok tt
  | value :: rest =>
    _ ← text value MaxAttributeValueBytes (negb variable);
    fail_if match previous with Some p => negb (str_ltb p value) | None => false end with SEnum ;;
    check_enum variable (Some value) rest
  end.

Definition scalar_types : list string := ["null"; "boolean"; "integer"; "number"; "string"].
Definition known_types : list string := scalar_types ++ ["object"; "array"].

(** The loop over the properties of an object; [child] checks a schema. *)
Section check_properties.
Context (child : Z → option DataSchemaDefinition → result schema_error Z).
Fixpoint check_properties (count : Z) (seen : list string) (ps : list DataSchemaProperty) {struct ps} : result schema_error Z :=
  match ps with
  | [] => Ok count
  | (name, _, schema) :: rest =>
    _ ← text name MaxIdentifierBytes true;
    fail_if bool_decide (schema = None) with SPropertySchema ;;
    fail_if bool_decide (name ∈ seen) with SDuplicate ;;
    let count := count + 1 in
    fail_if MaxDataSchemaProperties <? count with SProperties ;;
    count ← child count schema;
    check_properties count (name :: seen) rest
  end.
End check_properties.

(** ** Encoding: the fields in order, the empty ones left out *)

(** A literal is written as it is. *)
Definition literal_any (l : list Z) : any := ANumber (string_of l).
(** The three floats of a definition, or an encoding error. *)
Definition float_field (name : string) (o : option float64) : option (list (string * any)) :=
  match o with None => Some [] | Some x => l ← json_float x; Some [(name, literal_any l)] end.

Fixpoint definition_any (s : DataSchemaDefinition) : option any :=
  let child (name : string) (o : option DataSchemaDefinition) : option (list (string * any)) :=
    match o with None => Some [] | Some c => v ← definition_any c; Some [(name, v)] end in
  minimum ← float_field "minimum" (sd_Minimum s);
  maximum ← float_field "maximum" (sd_Maximum s);
  multipleOf ← float_field "multiple_of" (sd_MultipleOf s);
  ps ← match sd_Properties s with
       | None => Some []
       | Some ps => (fix loop (ps : list DataSchemaProperty) : option (list any) :=
           match ps with
           | [] => Some []
           | (name, required, schema) :: rest =>
             v ← match schema with Some c => definition_any c | None => Some ANull end;
             rest ← loop rest;
             Some (AObject (member "name" (AString name) ++ flag_field "required" required ++ member "schema" v) :: rest)
           end) ps
       end;
  items ← child "items" (sd_Items s);
  additional ← child "additional_properties" (sd_AdditionalProperties s);
  Some (AObject (
    text_field "id" (sd_ID s) ++ member "type" (AString (sd_Type s)) ++ flag_field "nullable" (sd_Nullable s) ++ text_field "title" (sd_Title s) ++
    text_field "description" (sd_Description s) ++ text_field "format" (sd_Format s) ++ text_field "content_type" (sd_ContentType s) ++
    text_field "unit" (sd_Unit s) ++ field_opt "precision" int_any (sd_Precision s) ++ minimum ++ maximum ++ multipleOf ++
    field_opt "min_length" int_any (sd_MinLength s) ++ field_opt "max_length" int_any (sd_MaxLength s) ++ text_field "pattern" (sd_Pattern s) ++
    field_opt "min_items" int_any (sd_MinItems s) ++ field_opt "max_items" int_any (sd_MaxItems s) ++
    member_if (negb (bool_decide (enum s = []))) "enum" (AArray (AString <$> enum s)) ++ flag_field "read_only" (sd_ReadOnly s) ++
    flag_field "write_only" (sd_WriteOnly s) ++ flag_field "sensitive" (sd_Sensitive s) ++
    member_if (match ps with [] => false | _ => true end) "properties" (AArray ps) ++ items ++ additional)).
Definition marshal_definition (s : DataSchemaDefinition) : option (list Z) := print <$> definition_any s.

Record VariableEnvelope := mkEnvelopeV1 {
  ve_Version : Z; ve_InstanceID : string; ve_Revision : string; ve_Definition : option DataSchemaDefinition; ve_Value : list Z;
  ve_Status : string; ve_SourceTimeUnixMS : option Z; ve_ObservedAtUnixMS : Z; ve_Error : option (string * string)
}.
Record VariableWriteV3 := mkVariableWrite { vw_Version : Z; vw_ExpectedInstanceID : string; vw_ExpectedRevision : string; vw_Value : list Z }.


(** A [json.RawMessage] is written without white space outside of strings, with the characters
    escaped that HTML gives a meaning. *)
Fixpoint compact (inside escaped : bool) (l : list Z) : list Z :=
  match l with
  | [] => []
  | c :: t =>
    if (c =? 60) || (c =? 62) || (c =? 38) then escape_ascii c ++ compact inside false t
    else
    match c =? 0xE2, t with
    | true, b1 :: b2 :: t2 =>
      if (b1 =? 0x80) && ((b2 =? 0xA8) || (b2 =? 0xA9)) then escape3 c b1 b2 ++ compact inside false t2
      else c :: compact inside false t
    | _, _ =>
      if negb inside then if is_ws c then compact false false t else c :: compact (c =? 34) false t
      else if escaped then c :: compact true false t
      else c :: compact (negb (c =? 34)) (c =? 92) t
    end
  end.
(** An empty message has no encoding here: where this is used it is left out or was refused. *)
Definition raw_any (l : list Z) : option any := if json_Valid l then Some (literal_any (compact false false l)) else None.

Definition marshal_envelope (v : VariableEnvelope) : option (list Z) :=
  definition ← match ve_Definition v with None => Some [] | Some d => x ← definition_any d; Some [("definition", x)] end;
  value ← match ve_Value v with [] => Some [] | l => x ← raw_any l; Some [("value", x)] end;
  Some (print (AObject (
    member "version" (int_any (ve_Version v)) ++ member "instance_id" (AString (ve_InstanceID v)) ++ member "revision" (AString (ve_Revision v)) ++
    definition ++ value ++ member "status" (AString (ve_Status v)) ++ field_opt "source_time_unix_ms" int_any (ve_SourceTimeUnixMS v) ++
    member "observed_at_unix_ms" (int_any (ve_ObservedAtUnixMS v)) ++
    field_opt "error" (λ e, AObject [("code", AString e.1); ("message", AString e.2)]) (ve_Error v)))).
Definition marshal_write (w : VariableWriteV3) : option (list Z) :=
  value ← raw_any (vw_Value w);
  Some (print (AObject (
    member "version" (int_any (vw_Version w)) ++ member "expected_instance_id" (AString (vw_ExpectedInstanceID w)) ++
    member "expected_revision" (AString (vw_ExpectedRevision w)) ++ member "value" value))).

Section validation.
Context (regexp_Compile : string → bool).

(** The checks of [validateNode] on one node, its children apart. *)
Definition check_node (s : DataSchemaDefinition) (variable : bool) : result schema_error unit :=
  fail_if negb (bool_decide (sd_Type s ∈ known_types)) with SType ;;
  _ ← text (sd_Title s) MaxAttributeValueBytes false;
  _ ← text (sd_Description s) MaxAttributeValueBytes false;
  _ ← text (sd_Format s) MaxAttributeValueBytes false;
  _ ← text (sd_Unit s) MaxAttributeValueBytes false;
  _ ← text (sd_Pattern s) MaxAttributeValueBytes false;
  fail_if match sd_Precision s with Some p => (p <? 0) || (12 <? p) | None => false end with SPrecision ;;
  fail_if match sd_Minimum s, sd_Maximum s with Some a, Some b => float_gt a b | _, _ => false end with SMinMax ;;
  fail_if match sd_MultipleOf s with Some m => match m with FNaN => false | _ => negb (float_gt m (FFin 0)) end | None => false end with SMultiple ;;
  _ ← validateOptionalBounds (sd_MinLength s) (sd_MaxLength s);
  fail_if negb (String.eqb (sd_Pattern s) "") && (negb (String.eqb (sd_Type s) "string") || negb (regexp_Compile (sd_Pattern s))) with SPattern ;;
  _ ← validateOptionalBounds (sd_MinItems s) (sd_MaxItems s);
  fail_if MaxDataSchemaEnumValues <? Z.of_nat (length (enum s)) with SEnum ;;
  _ ← check_enum variable None (enum s);
  fail_if sd_Sensitive s && negb (sd_WriteOnly s) with SSensitive ;;
  Ok tt.

(** [validateNode]; the count of properties is passed through. *)
Fixpoint validateNode (depth count : Z) (variable : bool) (s : DataSchemaDefinition) {struct s} : result schema_error Z :=
  fail_if MaxDataSchemaDepth <? depth with SDepth ;;
  _ ← check_node s variable;
  let child (count : Z) (o : option DataSchemaDefinition) : result schema_error Z :=
    match o with Some c => validateNode (depth + 1) count variable c | None => Ok count end in
  if String.eqb (sd_Type s) "object" then
    fail_if bool_decide (is_Some (sd_Items s)) with SItems ;;
    count ← match sd_Properties s with None => Ok count | Some ps => check_properties child count [] ps end;
    child count (sd_AdditionalProperties s)
  else if String.eqb (sd_Type s) "array" then
    fail_if bool_decide (sd_Items s = None) with SItems ;;
    fail_if negb (bool_decide (properties s = [])) || bool_decide (is_Some (sd_AdditionalProperties s)) with SStructure ;;
    child count (sd_Items s)
  else
    fail_if negb (bool_decide (properties s = [])) || bool_decide (is_Some (sd_Items s)) || bool_decide (is_Some (sd_AdditionalProperties s)) with SStructure ;;
    Ok count.

(** [DataSchemaDefinition.Validate] *)
Definition DataSchema_Validate (s : DataSchemaDefinition) : result schema_error unit :=
  _ ← text (sd_ID s) MaxSchemaBytes true;
  match validateNode 1 0 false s with Ok _ => Ok tt | Err e => Err e end.

(** ** Strings *)

Definition ascii_digit (c : Z) : bool := between 48 57 c.

Definition validateVariableString (s : DataSchemaDefinition) (value : string) (checkEnum : bool) : result schema_error unit :=
  fail_if negb (ValidString value) with SEncoding ;;
  fail_if match sd_MinLength s with Some m => strlen value <? m | None => false end
       || match sd_MaxLength s with Some m => m <? strlen value | None => false end with SLength ;;
  fail_if checkEnum && negb (bool_decide (enum s = [])) && negb (bool_decide (value ∈ enum s)) with SEnum ;;
  fail_if
    if String.eqb (sd_Format s) "int64" then
      match ParseInt 64 value with Some number => negb (String.eqb (FormatInt number) value) | None => true end
    else if String.eqb (sd_Format s) "uint64" then
      let '(number, ok) := ParseUint value in negb ok || negb (String.eqb (FormatUint number) value)
    else if String.eqb (sd_Format s) "node-id" then negb (is_ok (ParseVariableRevision value))
    else if String.eqb (sd_Format s) "base64" then
      match Std_DecodeString value with Some decoded => negb (String.eqb (Std_EncodeToString decoded) value) | None => true end
    else false
  with SFormat ;;
  fail_if
    if String.eqb (sd_Pattern s) "^[0-9a-f]{32}$" then negb (is_ok (validateHexID value 16))
    else if String.eqb (sd_Pattern s) "^[1-9][0-9]*$" then
      (* a byte outside of ASCII belongs to a rune that is no digit *)
      match code value with [] => true | c :: _ => (c <? 49) || (57 <? c) || negb (forallb ascii_digit (code value)) end
    else false
  with SPattern ;;
  Ok tt.

(** ** Numbers *)

Definition variableDecimal (value : float64) : option Q := shortest_decimal <$> float_value value.

(** A bound of the loop: nothing to check, or the comparison; a bound that is not finite has no
    decimal, and the comparison dereferences a nil pointer. *)
Definition check_bound (bound : option float64) (bad : Q → bool) (e : schema_error) : result schema_error unit :=
  match bound with
  | None => Ok tt
  | Some value => match variableDecimal value with None => Err SPanic | Some limit => fail_if bad limit with e ;; Ok tt end
  end.
(** The step: the division by it panics when it is zero. *)
Definition check_step (rational : Q) (multipleOf : option float64) : result schema_error unit :=
  match multipleOf with
  | None => Ok tt
  | Some value =>
    match variableDecimal value with
    | None => Err SPanic
    | Some step => fail_if Qeq_bool step 0 with SPanic ;; fail_if negb (IsInt (rational / step)) with SStep ;; Ok tt
    end
  end.

Definition validateVariableNumber (s : DataSchemaDefinition) (number : string) : result schema_error unit :=
  match decimal (code number) with
  | None => Err SRange
  | Some rational =>
    fail_if match round64 rational with FFin f => Qltb (inject_Z MaxVariableSafeInteger) (Qabs f) | _ => true end with SRange ;;
    fail_if match after_e (code number) with
            | None => false
            | Some e => match ParseInt 32 (string_of e) with None => true | Some exponent => (exponent <? -324) || (308 <? exponent) end
            end with SExponent ;;
    fail_if String.eqb (sd_Type s) "integer" && negb (IsInt rational) with SInteger ;;
    fail_if Qltb (inject_Z MaxVariableSafeInteger) (Qabs rational) with SSafe ;;
    fail_if match round64 rational with FFin f => Qeq_bool f 0 | _ => false end && negb (Qeq_bool rational 0) with SUnderflow ;;
    _ ← check_bound (sd_Minimum s) (λ limit, Qltb rational limit) SRange;
    _ ← check_bound (sd_Maximum s) (λ limit, Qltb limit rational) SRange;
    _ ← check_step rational (sd_MultipleOf s);
    fail_if match sd_Precision s with Some p => negb (IsInt (rational * inject_Z (10 ^ p))) | None => false end with SDigits ;;
    Ok tt
  end.

(** ** Definitions of variables *)

(** The fixed pattern of content types: [token/token] and parameters. *)
Definition token_char (c : Z) : bool :=
  ascii_digit c || between 65 90 c || between 97 122 c || bool_decide (c ∈ code "!#$%&'*+.^_`|~-").
Fixpoint span_chars (f : Z → bool) (l : list Z) : list Z * list Z :=
  match l with c :: t => if f c then let '(a, b) := span_chars f t in (c :: a, b) else ([], l) | [] => ([], []) end.
Definition token (l : list Z) : option (list Z) := let '(t, rest) := span_chars token_char l in if bool_decide (t = []) then None else Some rest.
Definition blank (c : Z) : bool := (c =? 32) || (c =? 9).
Definition skip_blank (l : list Z) : list Z := (span_chars blank l).2.
Definition literal (x : Z) (l : list Z) : option (list Z) := match l with c :: t => if c =? x then Some t else None | [] => None end.
Definition quoted_char (c : Z) : bool := negb ((c =? 34) || (c =? 13) || (c =? 10)).
(** One parameter: blanks, a semicolon, blanks, and a token with a value. *)
Definition parameter (l : list Z) : option (list Z) :=
  l ← literal 59 (skip_blank l);
  l ← token (skip_blank l);
  l ← literal 61 l;
  match literal 34 l with
  | Some l => literal 34 (span_chars quoted_char l).2
  | None => token l
  end.
Fixpoint parameters (fuel : nat) (l : list Z) : bool :=
  match l, fuel with
  | [], _ => true
  | _, O => false
  | _, S fuel => match parameter l with Some rest => parameters fuel rest | None => false end
  end.
Definition content_type_match (value : string) : bool :=
  match (l ← token (code value); l ← literal 47 l; token l) with
  | Some rest => parameters (length rest) rest
  | None => false
  end.

Definition float_unsafe (b : float64) : bool :=
  match float_value b with None => true | Some q => Qltb (inject_Z MaxVariableSafeInteger) (Qabs q) end.
Definition bound_set {A} (o : option A) : bool := match o with Some _ => true | None => false end.

(** The checks of [validateVariableDefinitionNode] on one node, its children apart. *)
Definition check_variable_node (s : DataSchemaDefinition) : result schema_error unit :=
  _ ← text (sd_ID s) MaxSchemaBytes false;
  let numeric := String.eqb (sd_Type s) "integer" || String.eqb (sd_Type s) "number" in
  fail_if negb numeric && (bound_set (sd_Minimum s) || bound_set (sd_Maximum s) || bound_set (sd_MultipleOf s) || bound_set (sd_Precision s)
                           || negb (String.eqb (sd_Unit s) "")) with SNumeric ;;
  fail_if existsb (λ b, match b with Some b => float_unsafe b | None => false end) [sd_Minimum s; sd_Maximum s; sd_MultipleOf s] with SSafe ;;
  fail_if negb (String.eqb (sd_Type s) "string") && (bound_set (sd_MinLength s) || bound_set (sd_MaxLength s) || bound_set (sd_Enum s)) with SLength ;;
  fail_if negb (String.eqb (sd_Type s) "array") && (bound_set (sd_MinItems s) || bound_set (sd_MaxItems s)) with SItems ;;
  fail_if negb (String.eqb (sd_Type s) "object") && bound_set (sd_Properties s) with SProperties ;;
  fail_if existsb (λ b, match b with Some b => MaxVariableSafeInteger <? u64 b | None => false end)
            [sd_MinLength s; sd_MaxLength s; sd_MinItems s; sd_MaxItems s] with SSafe ;;
  fail_if sd_ReadOnly s && sd_WriteOnly s with SReadWrite ;;
  fail_if
    if String.eqb (sd_Format s) "" then false
    else if String.eqb (sd_Format s) "unix-ms" then negb (String.eqb (sd_Type s) "integer")
    else if bool_decide (sd_Format s ∈ ["int64"; "uint64"; "node-id"; "base64"]) then negb (String.eqb (sd_Type s) "string")
    else true
  with SFormat ;;
  fail_if negb (bool_decide (sd_Pattern s ∈ [""; "^[0-9a-f]{32}$"; "^[1-9][0-9]*$"])) with SPattern ;;
  _ ← (if String.eqb (sd_ContentType s) "" then Ok tt else
       fail_if negb (String.eqb (sd_Format s) "base64") with SContentType ;;
       _ ← text (sd_ContentType s) MaxContentTypeBytes false;
       fail_if negb (content_type_match (sd_ContentType s)) with SContentType ;; Ok tt);
  (fix loop (values : list string) : result schema_error unit :=
    match values with [] => Ok tt | value :: rest => _ ← validateVariableString s value false; loop rest end) (enum s).

Fixpoint validateVariableDefinitionNode (s : DataSchemaDefinition) : result schema_error unit :=
  _ ← check_variable_node s;
  let child (o : option DataSchemaDefinition) : result schema_error unit :=
    match o with Some c => validateVariableDefinitionNode c | None => Ok tt end in
  _ ← match sd_Properties s with
      | None => Ok tt
      | Some ps => (fix loop (ps : list DataSchemaProperty) : result schema_error unit :=
          match ps with
          | [] => Ok tt
          | (_, _, schema) :: rest => _ ← match schema with Some c => validateVariableDefinitionNode c | None => Err SPanic end; loop rest
          end) ps
      end;
  _ ← child (sd_Items s);
  child (sd_AdditionalProperties s).

Definition ValidateVariableDefinition (d : DataSchemaDefinition) : result schema_error unit :=
  _ ← validateNode 1 0 true d;
  _ ← validateVariableDefinitionNode d;
  match marshal_definition d with
  | None => Err SEncode
  | Some data => fail_if MaxVariableDefinitionBytes <? Z.of_nat (length data) with SSize ;; Ok tt
  end.

(** ** Values *)

(** The first loop: the map of the declared properties, and that the required ones are there. *)
Fixpoint declared (object : list (string * any)) (known : gmap string (option DataSchemaDefinition)) (ps : list DataSchemaProperty)
    : result schema_error (gmap string (option DataSchemaDefinition)) :=
  match ps with
  | [] => Ok known
  | (name, required, schema) :: rest =>
    fail_if required && negb (bool_decide (name ∈ object.*1)) with SRequired ;;
    declared object (<[name := schema]> known) rest
  end.

Fixpoint validateVariableValueNode (s : DataSchemaDefinition) (value : any) {struct value} : result schema_error unit :=
  match value with
  | ANull => fail_if negb (sd_Nullable s || String.eqb (sd_Type s) "null") with SNull ;; Ok tt
  | ABool _ => fail_if negb (String.eqb (sd_Type s) "boolean") with SKind ;; Ok tt
  | ANumber number => fail_if negb (String.eqb (sd_Type s) "integer" || String.eqb (sd_Type s) "number") with SKind ;; validateVariableNumber s number
  | AString value => fail_if negb (String.eqb (sd_Type s) "string") with SKind ;; validateVariableString s value true
  | AArray items =>
    fail_if negb (String.eqb (sd_Type s) "array") with SKind ;;
    fail_if match sd_MinItems s with Some m => Z.of_nat (length items) <? m | None => false end
         || match sd_MaxItems s with Some m => m <? Z.of_nat (length items) | None => false end with SLength ;;
    (fix loop (items : list any) : result schema_error unit :=
      match items with
      | [] => Ok tt
      | item :: rest => match sd_Items s with None => Err SPanic | Some c => _ ← validateVariableValueNode c item; loop rest end
      end) items
  | AObject object =>
    fail_if negb (String.eqb (sd_Type s) "object") with SKind ;;
    known ← declared object ∅ (properties s);
    (fix loop (object : list (string * any)) : result schema_error unit :=
      match object with
      | [] => Ok tt
      | (key, item) :: rest =>
        _ ← text key MaxIdentifierBytes true;
        match match known !! key with Some child => child | None => sd_AdditionalProperties s end with
        | None => Err SUnknown
        | Some child => _ ← validateVariableValueNode child item; loop rest
        end
      end) object
  end.

(** ** The strict parser *)

(** The scan for unpaired surrogates.  [l] is the text from the current index; an access past
    the end is [SPanic]. *)
Definition hex16 (l : list Z) : option Z :=
  match l with [h1; h2; h3; h4] => hex_value4 h1 h2 h3 h4 | _ => None end.
Fixpoint scan_surrogates (fuel : nat) (inside : bool) (l : list Z) : result schema_error unit :=
  match l, fuel with
  | [], _ => Ok tt
  | _, O => Err SPanic
  | b :: t, S fuel =>
    if b =? 34 then scan_surrogates fuel (negb inside) t
    else if negb inside || negb (b =? 92) then scan_surrogates fuel inside t
    else match t with
    | [] => Err SPanic
    | c :: t =>
      if negb (c =? 117) then scan_surrogates fuel inside t
      else if (length t <? 4)%nat then Err SPanic
      else
        let code := default 0 (hex16 (take 4 t)) in
        let t := drop 4 t in
        if is_low code then Err SLowSurrogate
        else if negb (is_high code) then scan_surrogates fuel inside t
        else match t with
        | b1 :: b2 :: h1 :: h2 :: h3 :: h4 :: rest =>
          if negb ((b1 =? 92) && (b2 =? 117)) then Err SHighSurrogate
          else match hex_value4 h1 h2 h3 h4 with
          | Some low => if is_low low then scan_surrogates fuel inside rest else Err SHighSurrogate
          | None => Err SHighSurrogate
          end
        | _ => Err SHighSurrogate
        end
    end
  end.

Definition validateVariableJSONEncoding (data : list Z) : result schema_error unit :=
  fail_if negb (bool_decide (is_Some (utf8_runes data))) || negb (json_Valid data) with SEncoding ;;
  scan_surrogates (length data) false data.

(** [readVariableJSONValue] on the tokens of a valid text: the tokens of a value are its syntax
    tree, in which a key may still be repeated. *)
Section read_members.
Context (read : any → result schema_error any).
Fixpoint read_items (l : list any) : result schema_error (list any) :=
  match l with [] => Ok [] | v :: rest => v ← read v; rest ← read_items rest; Ok (v :: rest) end.
Fixpoint read_members (seen : list string) (l : list (string * any)) : result schema_error (list (string * any)) :=
  match l with
  | [] => Ok []
  | (name, v) :: rest =>
    fail_if bool_decide (name ∈ seen) with SKey ;;
    v ← read v; rest ← read_members (name :: seen) rest; Ok ((name, v) :: rest)
  end.
End read_members.
Fixpoint readVariableJSONValue (maxDepth depth : Z) (v : any) {struct v} : result schema_error any :=
  fail_if maxDepth <? depth with SDepth ;;
  match v with
  | AArray l => l ← read_items (readVariableJSONValue maxDepth (depth + 1)) l; Ok (AArray l)
  | AObject l => l ← read_members (readVariableJSONValue maxDepth (depth + 1)) [] l; Ok (AObject l)
  | _ => Ok v
  end.

Definition parseVariableJSONDepth (data : list Z) (maxDepth : Z) : result schema_error any :=
  _ ← mapErr SText (validatePayloadSize (Z.of_nat (length data)) DefaultMaxPayload);
  _ ← validateVariableJSONEncoding data;
  match parse_text data with
  | None => Err SEncoding
  | Some v => readVariableJSONValue maxDepth 1 v
  end.
Definition parseVariableJSON (data : list Z) : result schema_error any := parseVariableJSONDepth data MaxDataSchemaDepth.

Definition ValidateVariableValue (d : DataSchemaDefinition) (value : list Z) : result schema_error unit :=
  _ ← ValidateVariableDefinition d;
  parsed ← parseVariableJSON value;
  validateVariableValueNode d parsed.

(** ** Envelopes *)

Definition time_safe (t : Z) : bool := (- MaxVariableSafeInteger <=? t) && (t <=? MaxVariableSafeInteger).

Definition validateVariableState (v : VariableEnvelope) (definition : option DataSchemaDefinition) : result schema_error unit :=
  fail_if negb (ve_Version v =? 1) with SVersion ;;
  _ ← mapErr SText (validateHexID (ve_InstanceID v) 16);
  fail_if negb (is_ok (ParseVariableRevision (ve_Revision v))) with SRevision ;;
  fail_if negb (time_safe (ve_ObservedAtUnixMS v)) with STime ;;
  fail_if match ve_SourceTimeUnixMS v with Some t => negb (time_safe t) | None => false end with STime ;;
  _ ← (if String.eqb (ve_Status v) "ready" || String.eqb (ve_Status v) "stale" then
         fail_if bool_decide (ve_Value v = []) with SValue ;; Ok tt
       else if String.eqb (ve_Status v) "unavailable" then
         fail_if negb (bool_decide (ve_Value v = [])) with SValue ;; Ok tt
       else Err SStatus);
  _ ← match ve_Error v with
      | None => Ok tt
      | Some (c, message) =>
        fail_if String.eqb (ve_Status v) "ready" with SErrorField ;;
        _ ← text c MaxIdentifierBytes true;
        text message MaxVariableErrorMessageBytes false
      end;
  if bool_decide (ve_Value v = []) then Ok tt else
  parsed ← parseVariableJSON (ve_Value v);
  match definition with None => Ok tt | Some d => validateVariableValueNode d parsed end.

Definition ValidateVariableState (d : DataSchemaDefinition) (v : VariableEnvelope) : result schema_error unit := validateVariableState v (Some d).

Definition validateVariableEncodedSize (data : option (list Z)) : result schema_error unit :=
  match data with None => Err SEncode | Some data => mapErr SText (validatePayloadSize (Z.of_nat (length data)) DefaultMaxPayload) end.

Definition VariableEnvelope_Validate (v : VariableEnvelope) : result schema_error unit :=
  _ ← match ve_Definition v with Some d => ValidateVariableDefinition d | None => Ok tt end;
  _ ← validateVariableState v (ve_Definition v);
  validateVariableEncodedSize (marshal_envelope v).

Definition VariableWrite_Validate (w : VariableWriteV3) : result schema_error unit :=
  fail_if negb (vw_Version w =? 3) with SVersion ;;
  _ ← mapErr SText (validateHexID (vw_ExpectedInstanceID w) 16);
  fail_if negb (is_ok (ParseVariableRevision (vw_ExpectedRevision w))) with SRevision ;;
  _ ← parseVariableJSON (vw_Value w);
  validateVariableEncodedSize (marshal_write w).
End validation.

(** [CloneVariableDefinition]: pointers are copied, so that only the empty slices change: a copy of
    an empty slice is nil. *)
Definition clone_slice {A} (l : option (list A)) : option (list A) := match l with Some (_ :: _) => l | _ => None end.
Fixpoint CloneVariableDefinition (s : DataSchemaDefinition) : DataSchemaDefinition :=
  let child (o : option DataSchemaDefinition) : option DataSchemaDefinition := match o with Some c => Some (CloneVariableDefinition c) | None => None end in
  mkSchema (sd_ID s) (sd_Type s) (sd_Nullable s) (sd_Title s) (sd_Description s) (sd_Format s) (sd_ContentType s) (sd_Unit s) (sd_Precision s)
    (sd_Minimum s) (sd_Maximum s) (sd_MultipleOf s) (sd_MinLength s) (sd_MaxLength s) (sd_Pattern s) (sd_MinItems s) (sd_MaxItems s)
    (clone_slice (sd_Enum s)) (sd_ReadOnly s) (sd_WriteOnly s) (sd_Sensitive s)
    match sd_Properties s with
    | Some (p :: ps) => Some ((λ q : DataSchemaProperty, (q.1, child q.2)) <$> p :: ps)
    | _ => None
    end
    (child (sd_Items s)) (child (sd_AdditionalProperties s)).
