(* ===== verification/VariableTheory.v ===== *)
(** * Variable definitions and values: what validation guarantees

    Reading never goes past the end of a text and never follows a nil pointer; a text that was
    written reads back; a value is accepted exactly when it has the type that the definition
    denotes; a copied definition accepts the same values. *)

From S2P Require Import Prelude GoStd GoSort GoEncoding GoJSON GoFloat GoStruct Wire Catalog VariableModel VariableSchema.
From Stdlib Require Import QArith Qabs.
Open Scope Z_scope.

(** ** The scan for surrogates never leaves the text *)

Definition no_panic {A} (r : result schema_error A) : Prop := r ≠ Err SPanic.

(** The scan succeeds or reports an error on a text, whatever fuel beyond its length it has. *)
Definition safe (inside : bool) (l : list Z) : Prop := ∀ fuel, (length l ≤ fuel)%nat → no_panic (scan_surrogates fuel inside l).

Lemma safe_nil inside : safe inside [].
Proof. by intros []. Qed.
Lemma safe_outside c l : c ≠ 34 → safe false l → safe false (c :: l).
Proof. intros Hc Hl [|f] Hf; simpl in Hf; [lia|]. cbn [scan_surrogates]. rewrite (proj2 (Z.eqb_neq c 34)) by done. simpl. apply Hl. lia. Qed.
Lemma safe_outside_app c l : Forall (λ x, x ≠ 34) c → safe false l → safe false (c ++ l).
Proof. intros Hc Hl. induction Hc; simpl; [done|]. by apply safe_outside. Qed.
Lemma safe_quote inside l : safe (negb inside) l → safe inside (34 :: l).
Proof. intros Hl [|f] Hf; simpl in Hf; [lia|]. cbn [scan_surrogates]. apply Hl. lia. Qed.
Lemma safe_inside c l : c ≠ 92 → c ≠ 34 → safe true l → safe true (c :: l).
Proof.
  intros Hc Hc' Hl [|f] Hf; simpl in Hf; [lia|]. cbn [scan_surrogates]. rewrite (proj2 (Z.eqb_neq c 34)), (proj2 (Z.eqb_neq c 92)) by done. simpl.
  apply Hl. lia.
Qed.
Lemma safe_escape c l : c ≠ 117 → safe true l → safe true (92 :: c :: l).
Proof.
  intros Hc Hl [|f] Hf; simpl in Hf; [lia|]. cbn [scan_surrogates]. simpl. rewrite (proj2 (Z.eqb_neq c 117)) by done. simpl. apply Hl. lia.
Qed.
Lemma safe_unicode h1 h2 h3 h4 v l :
  hex_value4 h1 h2 h3 h4 = Some v → (is_high v = false → safe true l) →
  (is_high v = true → ∀ low rest, l = [92; 117] ++ rest → low_escape l = Some low → safe true (drop 4 rest)) →
  safe true (92 :: 117 :: h1 :: h2 :: h3 :: h4 :: l).
Proof.
  intros Hv H1 H2 [|f] Hf; simpl in Hf; [lia|]. cbn [scan_surrogates]. change (92 =? 34) with false. change (92 =? 92) with true.
  change (117 =? 117) with true. cbn [negb orb length take drop Nat.ltb Nat.leb hex16]. rewrite Hv, take_0, drop_0. cbn [default from_option id].
  destruct (is_low v); [done|].
  destruct (is_high v) eqn:Eh; cbn [negb]; [|apply H1; [done|lia]].
  destruct l as [|b1 [|b2 [|g1 [|g2 [|g3 [|g4 rest]]]]]]; try done. destruct (Z.eqb_spec b1 92) as [->|]; [|by simpl]. destruct (Z.eqb_spec b2 117) as [->|]; [|by simpl]. simpl.
  destruct (hex_value4 g1 g2 g3 g4) as [low|] eqn:El; [|done]. destruct (is_low low) eqn:Elow; [|done].
  apply (H2 eq_refl low (g1 :: g2 :: g3 :: g4 :: rest)); [done|simpl; by rewrite El, Elow|]. change (drop 4 (g1 :: g2 :: g3 :: g4 :: rest)) with rest in *. cbn [length] in *. lia.
Qed.

(** After a string the scan goes on with what follows it. *)
Lemma safe_string l : ∀ s r, read_string 0 l = Some (s, r) → safe false r → safe true l.
Proof.
  remember (length l) as n eqn:Hn. revert l Hn. induction (lt_wf n) as [n _ IH]. intros l -> s r Hr Hs. destruct l as [|b t]; [done|]. cbn [read_string] in Hr.
  assert (∀ u, (length u < length (b :: t))%nat → ∀ s r, read_string 0 u = Some (s, r) → safe false r → safe true u) as IH'.
  { intros u Hu s' r'. apply (IH (length u)); done. }
  clear IH. destruct (Z.eqb_spec b 34) as [->|Hb]; [simplify_eq; by apply safe_quote|]. destruct (Z.eqb_spec b 92) as [->|Hb'].
  - destruct t as [|c t1]; [done|]. destruct (Z.eqb_spec c 117) as [->|Hc].
    + destruct t1 as [|h1 [|h2 [|h3 [|h4 t4]]]]; try done. destruct (hex_value4 h1 h2 h3 h4) as [v|] eqn:Ev; [|done]. cbn [mbind option_bind] in Hr.
      apply (safe_unicode _ _ _ _ v); [done| |].
      * intros Eh. rewrite Eh in Hr. assert (∃ w, read_string 0 t4 = Some (w, r)) as [w Hw].
        { destruct (is_low v); destruct (read_string 0 t4) as [[w r']|]; simplify_eq/=; eauto. }
        eapply IH'; [simpl; lia|done..].
      * intros Eh low rest -> El. rewrite Eh, El in Hr. destruct rest as [|g1 [|g2 [|g3 [|g4 rest]]]]; try done. cbn [drop app] in *. cbn [read_string] in Hr.
        destruct (read_string 0 rest) as [[w r']|] eqn:Ew; simplify_eq/=. apply (IH' rest) in Ew; [done|cbn [length app]; lia|done].
    + destruct (unquote_char c); [|done]. cbn [mbind option_bind] in Hr. destruct (read_string 0 t1) as [[w r']|] eqn:Ew; simplify_eq/=.
      apply safe_escape; [done|]. eapply IH'; [simpl; lia|done..].
  - destruct (b <? 32); [done|]. destruct (read_string 0 t) as [[w r']|] eqn:Ew; simplify_eq/=. apply safe_inside; [done|done|]. eapply IH'; [simpl; lia|done..].
Qed.

Lemma skip_ws_safe l : safe false (skip_ws l) → safe false l.
Proof.
  induction l as [|c l IH]; simpl; [done|]. destruct (is_ws c) eqn:Ec; [|done]. intros Hl. apply safe_outside; [|auto]. intros ->. done.
Qed.
Lemma expect_safe x l r : x ≠ 34 → expect x l = Some r → safe false r → safe false l.
Proof.
  unfold expect. intros Hx He Hr. apply skip_ws_safe. destruct (skip_ws l) as [|c t]; [done|]. destruct (Z.eqb_spec c x) as [->|]; [|done].
  simplify_eq. by apply safe_outside.
Qed.
Lemma expect_quote_safe l r : expect 34 l = Some r → safe true r → safe false l.
Proof.
  unfold expect. intros He Hr. apply skip_ws_safe. destruct (skip_ws l) as [|c t]; [done|]. destruct (Z.eqb_spec c 34) as [->|]; [|done].
  simplify_eq. by apply (safe_quote false).
Qed.
Lemma strip_split p l r : strip p l = Some r → l = p ++ r.
Proof. revert l. induction p as [|x p IH]; intros [|y l] Hs; simplify_eq/=; try done. destruct (Z.eqb_spec x y) as [->|]; [|done]. by rewrite (IH l). Qed.

Lemma strip_safe c p t r : c ≠ 34 → strip p t = Some r → forallb (λ x, negb (x =? 34)) p = true → safe false r → safe false (c :: t).
Proof.
  intros Hc ->%strip_split Hp Hr. apply safe_outside; [done|]. apply safe_outside_app; [|done]. rewrite Forall_forall. intros x Hx ->.
  rewrite forallb_forall in Hp. apply list_elem_of_In in Hx. by apply Hp in Hx.
Qed.

Lemma parse_safe f : ∀ d l,
  (∀ v r, parse_value f d l = Some (v, r) → safe false r → safe false l) ∧
  (∀ v r, parse_members f d l = Some (v, r) → safe false r → safe false l) ∧
  (∀ v r, parse_items f d l = Some (v, r) → safe false r → safe false l).
Proof.
  induction f as [|f IH]; intros d l; [done|].
  assert (∀ d l v r, parse_value f d l = Some (v, r) → safe false r → safe false l) as IHv by (intros d' l'; apply IH).
  assert (∀ d l v r, parse_members f d l = Some (v, r) → safe false r → safe false l) as IHm by (intros d' l'; apply IH).
  assert (∀ d l v r, parse_items f d l = Some (v, r) → safe false r → safe false l) as IHi by (intros d' l'; apply IH). clear IH. split_and!.
  - intros v r Hp Hr. cbn [parse_value] in Hp. apply skip_ws_safe. destruct (skip_ws l) as [|c t]; [done|].
    destruct (Z.eqb_spec c 123) as [->|]; [|destruct (Z.eqb_spec c 91) as [->|]; [|destruct (Z.eqb_spec c 34) as [->|]; [|
      destruct (Z.eqb_spec c 116) as [->|]; [|destruct (Z.eqb_spec c 102) as [->|]; [|destruct (Z.eqb_spec c 110) as [->|]]]]]].
    + apply safe_outside; [done|]. destruct (d <=? 0); [done|]. destruct (expect 125 t) as [u|] eqn:Ee; [simplify_eq; by apply (expect_safe 125 t r)|].
      destruct (parse_members f (d - 1) t) as [[m u]|] eqn:Em; simplify_eq/=. by eapply IHm.
    + apply safe_outside; [done|]. destruct (d <=? 0); [done|]. destruct (expect 93 t) as [u|] eqn:Ee; [simplify_eq; by apply (expect_safe 93 t r)|].
      destruct (parse_items f (d - 1) t) as [[m u]|] eqn:Em; simplify_eq/=. by eapply IHi.
    + apply (safe_quote false). destruct (read_string 0 t) as [[s u]|] eqn:Es; simplify_eq/=. by eapply safe_string.
    + destruct (strip (code "rue") t) as [u|] eqn:Es; [|done]. injection Hp as <- <-. eapply strip_safe; [|exact Es|done|done]; done.
    + destruct (strip (code "alse") t) as [u|] eqn:Es; [|done]. injection Hp as <- <-. eapply strip_safe; [|exact Es|done|done]; done.
    + destruct (strip (code "ull") t) as [u|] eqn:Es; [|done]. injection Hp as <- <-. eapply strip_safe; [|exact Es|done|done]; done.
    + destruct (read_number (c :: t)) as [[x u]|] eqn:En; simplify_eq/=. pose proof (read_number_chars _ _ _ En) as Hn. apply read_number_split in En as [-> _]. apply safe_outside_app; [|done].
      eapply Forall_impl; [exact Hn|]. unfold number_char. simpl. lia.
  - intros v r Hp Hr. cbn [parse_members] in Hp. destruct (expect 34 l) as [t|] eqn:E1; [|done]. cbn [mbind option_bind] in Hp.
    destruct (read_string 0 t) as [[k u]|] eqn:E2; [|done]. cbn [mbind option_bind] in Hp. destruct (expect 58 u) as [w|] eqn:E3; [|done]. cbn [mbind option_bind] in Hp.
    destruct (parse_value f d w) as [[x y]|] eqn:E4; [|done]. cbn [mbind option_bind] in Hp. eapply expect_quote_safe; [done|]. eapply safe_string; [done|].
    eapply expect_safe; [|done|]; [done|]. eapply IHv; [done|]. destruct (expect 44 y) as [z|] eqn:E5.
    + eapply expect_safe; [|done|]; [done|]. destruct (parse_members f d z) as [[m u']|] eqn:Em; simplify_eq/=. by eapply IHm.
    + destruct (expect 125 y) as [z|] eqn:E6; simplify_eq/=. by apply (expect_safe 125 y r).
  - intros v r Hp Hr. cbn [parse_items] in Hp. destruct (parse_value f d l) as [[x y]|] eqn:E4; [|done]. cbn [mbind option_bind] in Hp. eapply IHv; [done|].
    destruct (expect 44 y) as [z|] eqn:E5.
    + eapply expect_safe; [|done|]; [done|]. destruct (parse_items f d z) as [[m u']|] eqn:Em; simplify_eq/=. by eapply IHi.
    + destruct (expect 93 y) as [z|] eqn:E6; simplify_eq/=. by apply (expect_safe 93 y r).
Qed.

Lemma encoding_no_panic data : no_panic (validateVariableJSONEncoding data).
Proof.
  unfold validateVariableJSONEncoding, json_Valid, parse_text. destruct (negb _); [done|]. simpl.
  destruct (parse_value _ _ data) as [[v r]|] eqn:Ep; [|done]. pose proof (proj1 (parse_safe _ _ _) _ _ Ep) as Hs.
  destruct (skip_ws r) as [|c t] eqn:Er; simpl; [|done]. apply Hs; [|done]. apply skip_ws_safe. rewrite Er. apply safe_nil.
Qed.

(** ** A definition that was validated is followed without nil pointers *)

Lemma bind_no_panic {A B} (r : result schema_error A) (k : A → result schema_error B) : no_panic r → (∀ a, r = Ok a → no_panic (k a)) → no_panic (r ≫= k).
Proof. unfold no_panic. destruct r as [a|e]; simpl; intros H1 H2; [by apply H2|]. intros E. apply H1. congruence. Qed.
Lemma fail_no_panic {A} (b : bool) e (k : result schema_error A) : e ≠ SPanic → no_panic k → no_panic (if b then Err e else k).
Proof. unfold no_panic. destruct b; [congruence|done]. Qed.
Lemma text_no_panic v n b : no_panic (text v n b).
Proof. unfold text, no_panic. by destruct (validateText v n b). Qed.
#[local] Hint Resolve text_no_panic : mfh.

Ltac no_panic_step :=
  match goal with
  | |- no_panic (Ok _) => done
  | |- no_panic (Err _) => done
  | |- no_panic (_ ≫= _) => apply bind_no_panic; [|intros ? ?]
  | |- no_panic (if _ then Err _ else _) => apply fail_no_panic; [done|]
  | |- no_panic (text _ _ _) => apply text_no_panic
  | |- no_panic (match ?x with _ => _ end) => destruct x eqn:?
  end.
Ltac no_panic := repeat no_panic_step.

Section definitions.
Context (regexp_Compile : string → bool).
#[local] Abbreviation validateNode := (validateNode regexp_Compile).
#[local] Abbreviation check_node := (check_node regexp_Compile).

Lemma bounds_no_panic a b : no_panic (validateOptionalBounds a b).
Proof. unfold validateOptionalBounds. no_panic. Qed.
Lemma check_enum_no_panic variable l : ∀ previous, no_panic (check_enum variable previous l).
Proof. induction l as [|x l IH]; intros previous; simpl; no_panic. apply IH. Qed.
Lemma check_node_no_panic s variable : no_panic (check_node s variable).
Proof.
  unfold VariableSchema.check_node. repeat (no_panic_step || apply bounds_no_panic || apply check_enum_no_panic).
Qed.
Lemma check_properties_no_panic child ps : ∀ count seen,
  Forall (λ p : DataSchemaProperty, ∀ n, no_panic (child n p.2)) ps → no_panic (check_properties child count seen ps).
Proof.
  induction ps as [|[[name required] schema] ps IH]; intros count seen Hps; simpl; [done|]. apply Forall_cons in Hps as [Hp Hps]. no_panic; [apply Hp|].
  by apply IH.
Qed.

(** A child that may be absent. *)
Definition node_child (depth : Z) (variable : bool) (count : Z) (o : option DataSchemaDefinition) : result schema_error Z :=
  match o with Some c => validateNode (depth + 1) count variable c | None => Ok count end.
Lemma validateNode_eq depth count variable s :
  validateNode depth count variable s =
    (fail_if MaxDataSchemaDepth <? depth with SDepth ;;
     _ ← check_node s variable;
     if String.eqb (sd_Type s) "object" then
       fail_if bool_decide (is_Some (sd_Items s)) with SItems ;;
       count ← check_properties (node_child depth variable) count [] (properties s);
       node_child depth variable count (sd_AdditionalProperties s)
     else if String.eqb (sd_Type s) "array" then
       fail_if bool_decide (sd_Items s = None) with SItems ;;
       fail_if negb (bool_decide (properties s = [])) || bool_decide (is_Some (sd_AdditionalProperties s)) with SStructure ;;
       node_child depth variable count (sd_Items s)
     else
       fail_if negb (bool_decide (properties s = [])) || bool_decide (is_Some (sd_Items s)) || bool_decide (is_Some (sd_AdditionalProperties s)) with SStructure ;;
       Ok count).
Proof. destruct s as [????????????????????? [ps|] ??]; reflexivity. Qed.

Lemma validateNode_no_panic variable s : ∀ depth count, no_panic (validateNode depth count variable s).
Proof.
  induction s as [s IHp IHi IHa] using schema_ind. intros depth count. rewrite validateNode_eq.
  assert (∀ o n, opt_P (λ s, ∀ depth count, no_panic (validateNode depth count variable s)) o → no_panic (node_child depth variable n o)) as Hc
    by (intros [c|] n Ho; [apply Ho|done]).
  apply fail_no_panic; [done|]. apply bind_no_panic; [apply check_node_no_panic|]. intros _ _.
  destruct (String.eqb _ "object"); [|destruct (String.eqb _ "array")].
  - apply fail_no_panic; [done|]. apply bind_no_panic; [|intros n _; by apply Hc].
    apply check_properties_no_panic. eapply Forall_impl; [exact IHp|]. intros p Hp n. by apply Hc.
  - do 2 (apply fail_no_panic; [done|]). by apply Hc.
  - by apply fail_no_panic.
Qed.

(** What a successful check of the properties says. *)
Lemma check_properties_ok child ps : ∀ count seen n,
  check_properties child count seen ps = Ok n →
  Forall (λ p : DataSchemaProperty, ∃ c k k', p.2 = Some c ∧ child k (Some c) = Ok k') ps ∧ NoDup (ps.*1.*1) ∧ (∀ x, x ∈ ps.*1.*1 → x ∉ seen).
Proof.
  induction ps as [|[[name required] schema] ps IH]; intros count seen n Hp; csimpl.
  - split_and!; [constructor|constructor|]. intros x Hx. by apply elem_of_nil in Hx.
  - cbn [check_properties] in Hp. apply bind_ok in Hp as [_ Hp]. apply fail_if_ok in Hp as [Hsome Hp]. apply fail_if_ok in Hp as [Hseen Hp].
    apply fail_if_ok in Hp as [_ Hp]. bool_prop. destruct schema as [c|]; [|done]. destruct (child (count + 1) (Some c)) as [k|] eqn:Ec; [|done]. simpl in Hp.
    apply IH in Hp as (H1 & H2 & H3). split_and!.
    + constructor; [|done]. eauto.
    + constructor; [|done]. intros Hx. apply H3 in Hx. set_solver.
    + intros x [->|Hx]%elem_of_cons; [done|]. apply H3 in Hx. set_solver.
Qed.
Lemma validateNode_ok depth count variable s n :
  validateNode depth count variable s = Ok n →
  check_node s variable = Ok tt ∧ (sd_Type s = "array" → is_Some (sd_Items s)) ∧ NoDup ((properties s).*1.*1) ∧
  Forall (λ p : DataSchemaProperty, ∃ c k k', p.2 = Some c ∧ validateNode (depth + 1) k variable c = Ok k') (properties s) ∧
  (∀ c, sd_Items s = Some c → ∃ k k', validateNode (depth + 1) k variable c = Ok k') ∧
  (∀ c, sd_AdditionalProperties s = Some c → ∃ k k', validateNode (depth + 1) k variable c = Ok k').
Proof.
  rewrite validateNode_eq. intros Hn. apply fail_if_ok in Hn as [_ Hn]. apply bind_ok in Hn as [Hcheck Hn]. split; [done|].
  assert (properties s = [] → NoDup ((properties s).*1.*1) ∧ Forall (λ p : DataSchemaProperty, ∃ c k k', p.2 = Some c ∧ validateNode (depth + 1) k variable c = Ok k') (properties s)) as Hnil.
  { intros ->. split; constructor. }
  destruct (String.eqb_spec (sd_Type s) "object") as [Ho|Ho]; [|destruct (String.eqb_spec (sd_Type s) "array") as [Ha|Ha]].
  - apply fail_if_ok in Hn as [Hi Hn]. bool_prop. destruct (check_properties _ _ _ _) as [k|] eqn:Ek; [|done]. simpl in Hn. apply check_properties_ok in Ek as (H1 & H2 & _).
    split_and!; [by rewrite Ho|done|done| |].
    + intros c Hc. rewrite Hc in Hi. by destruct Hi.
    + intros c Hc. rewrite Hc in Hn. simpl in Hn. eauto.
  - apply fail_if_ok in Hn as [Hi Hn]. apply fail_if_ok in Hn as [Hp Hn]. bool_prop. destruct (sd_Items s) as [c|] eqn:Ec; [|done]. simpl in Hn.
    split_and!; [eauto|by apply Hnil|by apply Hnil| |].
    + intros c' [= <-]. eauto.
    + intros c' Hc'. match goal with H : ¬ is_Some (sd_AdditionalProperties s) |- _ => rewrite Hc' in H; by destruct H end.
  - apply fail_if_ok in Hn as [Hp Hn]. bool_prop. split_and!; [done|by apply Hnil|by apply Hnil| |].
    + intros c' Hc'. match goal with H : ¬ is_Some (sd_Items s) |- _ => rewrite Hc' in H; by destruct H end.
    + intros c' Hc'. match goal with H : ¬ is_Some (sd_AdditionalProperties s) |- _ => rewrite Hc' in H; by destruct H end.
Qed.

(** *** The second pass *)

Definition definition_child (o : option DataSchemaDefinition) : result schema_error unit :=
  match o with Some c => validateVariableDefinitionNode c | None => Ok tt end.
Fixpoint check_children (ps : list DataSchemaProperty) : result schema_error unit :=
  match ps with
  | [] => Ok tt
  | p :: rest => _ ← match p.2 with Some c => validateVariableDefinitionNode c | None => Err SPanic end; check_children rest
  end.
Lemma validateVariableDefinitionNode_eq s :
  validateVariableDefinitionNode s =
    (_ ← check_variable_node s; _ ← check_children (properties s); _ ← definition_child (sd_Items s); definition_child (sd_AdditionalProperties s)).
Proof.
  assert (∀ ps, (fix loop (ps : list DataSchemaProperty) : result schema_error unit :=
          match ps with
          | [] => Ok tt
          | (_, _, schema) :: rest => _ ← match schema with Some c => validateVariableDefinitionNode c | None => Err SPanic end; loop rest
          end) ps = check_children ps) as Hloop.
  { intros ps. induction ps as [|[[n r] o] ps IH]; [done|]. by rewrite IH. }
  rewrite <- (Hloop (properties s)). destruct s as [????????????????????? [ps|] ??]; reflexivity.
Qed.

Lemma variable_string_no_panic s value b : no_panic (validateVariableString s value b).
Proof. unfold validateVariableString. no_panic. Qed.
Lemma check_variable_node_no_panic s : no_panic (check_variable_node s).
Proof.
  unfold check_variable_node. cbv zeta. no_panic. generalize (enum s). intros l. induction l as [|x l IH]; [done|]. apply bind_no_panic; [apply variable_string_no_panic|]. intros. apply IH.
Qed.
(** The second pass follows no nil pointer where the first one succeeded. *)
Lemma definition_node_no_panic s : ∀ depth count variable n,
  validateNode depth count variable s = Ok n → no_panic (validateVariableDefinitionNode s).
Proof.
  induction s as [s IHp IHi IHa] using schema_ind. intros depth count variable n (_ & _ & _ & Hp & Hi & Ha)%validateNode_ok. rewrite validateVariableDefinitionNode_eq.
  apply bind_no_panic; [apply check_variable_node_no_panic|]. intros _ _. apply bind_no_panic; [|intros _ _; apply bind_no_panic; [|intros _ _]].
  - clear Hi Ha IHi IHa. induction (properties s) as [|p ps IH]; [done|]. apply Forall_cons in Hp as [(c & k & k' & Hc & Hv) Hp]. apply Forall_cons in IHp as [Hq IHp].
    simpl. rewrite Hc in *. apply bind_no_panic; [by eapply Hq|]. intros _ _. by apply IH.
  - destruct (sd_Items s) as [c|]; [|done]. destruct (Hi c eq_refl) as (k & k' & Hv). by eapply IHi.
  - destruct (sd_AdditionalProperties s) as [c|]; [|done]. destruct (Ha c eq_refl) as (k & k' & Hv). by eapply IHa.
Qed.

(** What the two passes guarantee at every node. *)
Definition finite (b : option float64) : Prop := ∀ x, b = Some x → is_Some (float_value x).
Inductive well_formed : DataSchemaDefinition → Prop :=
| well_formed_node s :
  (sd_Type s = "array" → is_Some (sd_Items s)) → NoDup ((properties s).*1.*1) →
  finite (sd_Minimum s) → finite (sd_Maximum s) → (∀ x, sd_MultipleOf s = Some x → ∃ q, float_value x = Some q ∧ (0 < q)%Q) →
  (∀ p : DataSchemaProperty, p ∈ properties s → is_Some p.2) →
  (∀ (p : DataSchemaProperty) c, p ∈ properties s → p.2 = Some c → well_formed c) →
  (∀ c, sd_Items s = Some c → well_formed c) → (∀ c, sd_AdditionalProperties s = Some c → well_formed c) →
  well_formed s.

Lemma check_children_ok ps : check_children ps = Ok tt → ∀ p c, p ∈ ps → p.2 = Some c → validateVariableDefinitionNode c = Ok tt.
Proof.
  induction ps as [|p ps IH]; intros Hp q c Hq Hc; [by apply elem_of_nil in Hq|]. simpl in Hp. apply bind_ok in Hp as [H1 H2].
  apply elem_of_cons in Hq as [->|Hq]; [by rewrite Hc in H1|by eapply IH].
Qed.
Lemma float_unsafe_false x : float_unsafe x = false → is_Some (float_value x).
Proof. unfold float_unsafe. destruct (float_value x); [eauto|done]. Qed.
Lemma check_variable_node_bounds s : check_variable_node s = Ok tt → finite (sd_Minimum s) ∧ finite (sd_Maximum s) ∧ finite (sd_MultipleOf s).
Proof.
  unfold check_variable_node. intros H. apply bind_ok in H as [_ H]. cbv zeta in H. apply fail_if_ok in H as [_ H]. apply fail_if_ok in H as [H _].
  simpl in H. apply orb_false_iff in H as [H1 H]. apply orb_false_iff in H as [H2 H]. apply orb_false_iff in H as [H3 _].
  split_and!; intros x Hx; rewrite Hx in *; by apply float_unsafe_false.
Qed.
Lemma check_node_multiple s variable x : check_node s variable = Ok tt → sd_MultipleOf s = Some x → is_Some (float_value x) → ∃ q, float_value x = Some q ∧ (0 < q)%Q.
Proof.
  unfold VariableSchema.check_node. intros H Hx [q Hq]. apply fail_if_ok in H as [_ H]. do 5 apply bind_ok in H as [_ H].
  do 2 apply fail_if_ok in H as [_ H]. apply fail_if_ok in H as [H _]. rewrite Hx in H. exists q. split; [done|].
  destruct x as [| |  |p]; try done. simpl in Hq, H. apply negb_false_iff in H. simplify_eq. by apply Qltb_spec in H.
Qed.
Lemma validated_well_formed s : ∀ depth count variable n,
  validateNode depth count variable s = Ok n → validateVariableDefinitionNode s = Ok tt → well_formed s.
Proof.
  induction s as [s IHp IHi IHa] using schema_ind. intros depth count variable n (Hcheck & Harr & Hnd & Hp & Hi & Ha)%validateNode_ok. rewrite validateVariableDefinitionNode_eq.
  intros H. apply bind_ok in H as [Hv H]. apply bind_ok in H as [Hc H]. apply bind_ok in H as [H1 H2].
  destruct (check_variable_node_bounds s Hv) as (B1 & B2 & B3). rewrite Forall_forall in Hp, IHp. constructor; [done..| | | | |].
  - intros x Hx. eapply check_node_multiple; [done..|]. by apply B3.
  - intros p Hpin. destruct (Hp p Hpin) as (c & _ & _ & E & _). eauto.
  - intros p c Hpin E. destruct (Hp p Hpin) as (c' & k & k' & E' & Hk). rewrite E in E'. simplify_eq. pose proof (IHp p Hpin) as IH. rewrite E in IH. eapply IH; [done|]. by eapply check_children_ok.
  - intros c E. rewrite E in *. destruct (Hi c eq_refl) as (k & k' & Hk). by eapply IHi.
  - intros c E. rewrite E in *. destruct (Ha c eq_refl) as (k & k' & Hk). by eapply IHa.
Qed.

Lemma ValidateVariableDefinition_ok d : ValidateVariableDefinition regexp_Compile d = Ok tt → well_formed d.
Proof.
  unfold ValidateVariableDefinition. intros H. destruct (VariableSchema.validateNode _ _ _ _ _) as [n|] eqn:En; [|done]. simpl in H.
  apply bind_ok in H as [H _]. by eapply validated_well_formed.
Qed.
Lemma ValidateVariableDefinition_no_panic d : no_panic (ValidateVariableDefinition regexp_Compile d).
Proof.
  unfold ValidateVariableDefinition. apply bind_no_panic; [apply validateNode_no_panic|]. intros n Hn. apply bind_no_panic; [by eapply definition_node_no_panic|]. intros _ _. no_panic.
Qed.
End definitions.

(** ** Values *)

Definition value_items (s : DataSchemaDefinition) : list any → result schema_error unit :=
  fix loop (items : list any) : result schema_error unit :=
    match items with
    | [] => Ok tt
    | item :: rest => match sd_Items s with None => Err SPanic | Some c => _ ← validateVariableValueNode c item; loop rest end
    end.
Definition value_members (s : DataSchemaDefinition) (known : gmap string (option DataSchemaDefinition)) : list (string * any) → result schema_error unit :=
  fix loop (object : list (string * any)) : result schema_error unit :=
    match object with
    | [] => Ok tt
    | (key, item) :: rest =>
      _ ← text key MaxIdentifierBytes true;
      match match known !! key with Some child => child | None => sd_AdditionalProperties s end with
      | None => Err SUnknown
      | Some child => _ ← validateVariableValueNode child item; loop rest
      end
    end.
Lemma validateVariableValueNode_array s items :
  validateVariableValueNode s (AArray items) =
    (fail_if negb (String.eqb (sd_Type s) "array") with SKind ;;
     fail_if match sd_MinItems s with Some m => Z.of_nat (length items) <? m | None => false end
          || match sd_MaxItems s with Some m => m <? Z.of_nat (length items) | None => false end with SLength ;;
     value_items s items).
Proof. reflexivity. Qed.
Lemma validateVariableValueNode_object s object :
  validateVariableValueNode s (AObject object) =
    (fail_if negb (String.eqb (sd_Type s) "object") with SKind ;; known ← declared object ∅ (properties s); value_members s known object).
Proof. reflexivity. Qed.

Lemma check_bound_no_panic o bad e : finite o → e ≠ SPanic → no_panic (check_bound o bad e).
Proof.
  intros Ho He. unfold check_bound, variableDecimal. destruct o as [x|]; [|done]. destruct (Ho x eq_refl) as [q ->]. simpl. by apply fail_no_panic.
Qed.
Lemma check_step_no_panic r o : (∀ x, o = Some x → ∃ q, float_value x = Some q ∧ (0 < q)%Q) → no_panic (check_step r o).
Proof.
  intros Ho. unfold check_step, variableDecimal. destruct o as [x|]; [|done]. destruct (Ho x eq_refl) as (q & -> & Hq). simpl.
  destruct (Qeq_bool _ 0) eqn:E; [|by apply fail_no_panic]. apply Qeq_bool_iff, shortest_decimal_zero in E. rewrite E in Hq. by apply Qlt_irrefl in Hq.
Qed.
Lemma number_no_panic s number : well_formed s → no_panic (validateVariableNumber s number).
Proof.
  intros [s' ? ? H1 H2 H3 _ _ _ _]. unfold validateVariableNumber. destruct (decimal _) as [r|]; [|done]. do 5 (apply fail_no_panic; [done|]).
  apply bind_no_panic; [by apply check_bound_no_panic|intros _ _]. apply bind_no_panic; [by apply check_bound_no_panic|intros _ _].
  apply bind_no_panic; [by apply check_step_no_panic|intros _ _]. by apply fail_no_panic.
Qed.
Lemma declared_no_panic object ps : ∀ known, no_panic (declared object known ps).
Proof. induction ps as [|[[n r] o] ps IH]; intros known; simpl; [done|]. apply fail_no_panic; [done|]. apply IH. Qed.
(** The map that the loop builds: the last property of each name. *)
Lemma declared_ok object ps : ∀ known known', NoDup (ps.*1.*1) → declared object known ps = Ok known' →
  (∀ name schema, (name, true, schema) ∈ ps → name ∈ object.*1) ∧
  (∀ name, known' !! name = match List.find (λ p : DataSchemaProperty, String.eqb p.1.1 name) ps with Some p => Some p.2 | None => known !! name end).
Proof.
  induction ps as [|[[n r] o] ps IH]; intros known known' Hnd Hd; simpl in Hd.
  - simplify_eq. split; [|done]. intros name schema Hin. by apply elem_of_nil in Hin.
  - apply fail_if_ok in Hd as [Hr Hd]. csimpl in Hnd. apply NoDup_cons in Hnd as [Hn Hnd]. apply IH in Hd as [H1 H2]; [|done]. split.
    + intros name schema [Heq|Hin]%elem_of_cons; [|by eapply H1]. simplify_eq/=. by bool_prop.
    + intros name. simpl. destruct (String.eqb_spec n name) as [->|Hne].
      * rewrite H2. destruct (List.find (λ p : DataSchemaProperty, (p.1.1 =? name)%string) ps) as [p|] eqn:Ef; [|by rewrite lookup_insert_eq]. apply find_some in Ef as [Hin Heq]. apply String.eqb_eq in Heq.
        destruct Hn. rewrite <- Heq. by apply list_elem_of_fmap_2, list_elem_of_fmap_2, list_elem_of_In.
      * rewrite H2. by rewrite lookup_insert_ne.
Qed.
Lemma declared_complete object ps : ∀ known,
  (∀ name schema, (name, true, schema) ∈ ps → name ∈ object.*1) → is_Some (match declared object known ps with Ok k => Some k | Err _ => None end).
Proof.
  induction ps as [|[[n r] o] ps IH]; intros known Hr; [eauto|]. simpl. assert (r && negb (bool_decide (n ∈ object.*1)) = false) as ->.
  { destruct r; [|done]. rewrite bool_decide_eq_true_2; [done|]. eapply Hr. by left. }
  apply IH. intros name schema Hin. eapply Hr. by right.
Qed.

(** The schema of a member: the property of that name, or the schema of the additional ones. *)
Definition schema_of (s : DataSchemaDefinition) (key : string) : option DataSchemaDefinition :=
  match List.find (λ p : DataSchemaProperty, String.eqb p.1.1 key) (properties s) with Some p => p.2 | None => sd_AdditionalProperties s end.
Definition admits (s : DataSchemaDefinition) (key : string) (c : DataSchemaDefinition) : Prop :=
  (∃ required, (key, required, Some c) ∈ properties s) ∨ (¬ (key ∈ (properties s).*1.*1) ∧ sd_AdditionalProperties s = Some c).
Lemma find_name ps (name : string) (r : bool) (o : option DataSchemaDefinition) :
  NoDup (ps.*1.*1) → (name, r, o) ∈ ps → List.find (λ p : DataSchemaProperty, String.eqb p.1.1 name) ps = Some (name, r, o).
Proof.
  induction ps as [|[[n r'] o'] ps IH]; intros Hnd Hin; [by apply elem_of_nil in Hin|]. csimpl in Hnd. apply NoDup_cons in Hnd as [Hn Hnd]. simpl.
  apply elem_of_cons in Hin as [Heq|Hin]; [simplify_eq; by rewrite String.eqb_refl|]. destruct (String.eqb_spec n name) as [->|]; [|by apply IH].
  destruct Hn. apply (list_elem_of_fmap_2 (λ p, p.1.1)) in Hin. by rewrite <- list_fmap_compose.
Qed.
Lemma schema_of_spec s key c : NoDup ((properties s).*1.*1) → (schema_of s key = Some c ↔ admits s key c).
Proof.
  intros Hnd. unfold schema_of, admits. split.
  - destruct (List.find _ _) as [[[n r] o]|] eqn:Ef; intros Hc.
    + apply find_some in Ef as [Hin Hn]. simpl in *. apply String.eqb_eq in Hn as ->. subst o. left. exists r. by apply list_elem_of_In.
    + right. split; [|done]. intros Hin. rewrite <- list_fmap_compose in Hin. apply list_elem_of_fmap in Hin as (p & -> & Hin%list_elem_of_In).
      apply (find_none _ _ Ef) in Hin. simpl in Hin. by rewrite String.eqb_refl in Hin.
  - intros [[r Hin]|[Hn Hc]]; [by rewrite (find_name _ _ _ _ Hnd Hin)|]. destruct (List.find _ _) as [[[n r] o]|] eqn:Ef; [|done].
    apply find_some in Ef as [Hin%list_elem_of_In E]. simpl in E. apply String.eqb_eq in E as ->. destruct Hn. apply (list_elem_of_fmap_2 (λ p, p.1.1)) in Hin. by rewrite <- list_fmap_compose.
Qed.
(** Every member that has a schema leads to a well-formed one. *)
Lemma schema_of_well_formed s key c : well_formed s → schema_of s key = Some c → well_formed c.
Proof.
  intros Hs Hc. assert (NoDup ((properties s).*1.*1)) as Hnd by (by destruct Hs). apply schema_of_spec in Hc; [|done]. destruct Hs as [s _ _ _ _ _ _ Hp _ Ha].
  destruct Hc as [[r Hin]|[_ Hc]]; [by eapply (Hp _ c Hin)|by apply Ha].
Qed.

Lemma value_members_eq s known object :
  (∀ name, known !! name = match List.find (λ p : DataSchemaProperty, String.eqb p.1.1 name) (properties s) with Some p => Some p.2 | None => (∅ : gmap string (option DataSchemaDefinition)) !! name end) →
  value_members s known object =
    (fix loop (object : list (string * any)) : result schema_error unit :=
      match object with
      | [] => Ok tt
      | (key, item) :: rest =>
        _ ← text key MaxIdentifierBytes true;
        match schema_of s key with None => Err SUnknown | Some child => _ ← validateVariableValueNode child item; loop rest end
      end) object.
Proof.
  intros Hk. induction object as [|[key item] object IH]; [done|]. simpl. rewrite Hk. unfold schema_of. destruct (text key _ _) as [[]|]; [|done]. simpl.
  rewrite lookup_empty. assert (match match List.find (λ p : DataSchemaProperty, (p.1.1 =? key)%string) (properties s) with Some p => Some p.2 | None => None end with
    Some child => child | None => sd_AdditionalProperties s end = schema_of s key) as -> by (unfold schema_of; by destruct (List.find _ _)).
  fold (schema_of s key). destruct (schema_of s key) as [c|]; [|done]. by rewrite IH.
Qed.

Lemma value_no_panic v : ∀ s, well_formed s → no_panic (validateVariableValueNode s v).
Proof.
  induction v as [|b|n|x|l IH|l IH] using any_ind; intros s Hs.
  - simpl. no_panic.
  - simpl. no_panic.
  - simpl. no_panic. by apply number_no_panic.
  - simpl. no_panic. apply variable_string_no_panic.
  - rewrite validateVariableValueNode_array. destruct (String.eqb_spec (sd_Type s) "array") as [Ht|]; [|done]. simpl. apply fail_no_panic; [done|].
    destruct Hs as [s Harr _ _ _ _ _ _ Hi _]. destruct (Harr Ht) as [c Hc]. specialize (Hi c Hc). induction IH as [|v l Hv _ IHl]; [done|]. simpl. rewrite Hc in *.
    apply bind_no_panic; [by apply Hv|]. intros _ _. apply IHl.
  - rewrite validateVariableValueNode_object. apply fail_no_panic; [done|]. apply bind_no_panic; [apply declared_no_panic|]. intros known Hk.
    assert (NoDup ((properties s).*1.*1)) as Hnd by (by destruct Hs). apply declared_ok in Hk as [_ Hk]; [|done]. rewrite value_members_eq by done. clear known Hk.
    induction IH as [|[key v] l Hv _ IHl]; [done|]. apply bind_no_panic; [apply text_no_panic|]. intros _ _. destruct (schema_of s key) as [c|] eqn:Ec; [|done].
    apply bind_no_panic; [apply Hv; by eapply schema_of_well_formed|]. intros _ _. apply IHl.
Qed.

(** ** Reading *)

(** The nesting of a value, counted as the reader counts it, and that no key is repeated. *)
Fixpoint any_depth (v : any) : Z :=
  1 + match v with
      | AArray l => foldr (λ v, Z.max (any_depth v)) 0 l
      | AObject l => foldr (λ kv, Z.max (any_depth kv.2)) 0 l
      | _ => 0
      end.
Fixpoint unique_keys (v : any) : Prop :=
  match v with
  | AArray l => foldr (λ v P, unique_keys v ∧ P) True l
  | AObject l => NoDup (l.*1) ∧ foldr (λ kv P, unique_keys kv.2 ∧ P) True l
  | _ => True
  end.

Section read_ok.
Context (read : any → result schema_error any) (good : any → Prop).
Lemma read_items_ok l : Forall (λ v, ∀ w, read v = Ok w ↔ w = v ∧ good v) l → ∀ l', read_items read l = Ok l' ↔ l' = l ∧ Forall good l.
Proof.
  induction 1 as [|v l Hv _ IH]; intros l'; simpl.
  - split; [intros [= <-]; split; [done|constructor]|intros [-> _]; done].
  - destruct (read v) as [w|e] eqn:Er; simpl.
    + destruct (proj1 (Hv w) eq_refl) as [-> Hg]. destruct (read_items read l) as [l2|e] eqn:El; simpl.
      * destruct (proj1 (IH l2) eq_refl) as [-> Hgl]. split; [intros [= <-]; split; [done|by constructor]|intros [-> _]; done].
      * split; [done|]. intros [-> Hgl]. apply Forall_cons in Hgl as [_ Hgl]. pose proof (proj2 (IH l) (conj eq_refl Hgl)). congruence.
    + split; [done|]. intros [-> Hgl]. apply Forall_cons in Hgl as [Hg _]. pose proof (proj2 (Hv v) (conj eq_refl Hg)). congruence.
Qed.
Lemma read_members_ok l : Forall (λ kv : string * any, ∀ w, read kv.2 = Ok w ↔ w = kv.2 ∧ good kv.2) l →
  ∀ seen l', read_members read seen l = Ok l' ↔ l' = l ∧ Forall (λ kv, good kv.2) l ∧ NoDup (l.*1) ∧ (∀ k, k ∈ l.*1 → k ∉ seen).
Proof.
  induction 1 as [|[k v] l Hv _ IH]; intros seen l'; simpl.
  - split; [intros [= <-]; split_and!; [done|constructor|constructor|]|by intros [-> _]]. intros k Hk. by apply elem_of_nil in Hk.
  - simpl in Hv. case_bool_decide as Hk; [split; [done|]; intros (_ & _ & _ & Hn); destruct (Hn k); [by left|done]|].
    destruct (read v) as [w|e] eqn:Er; simpl.
    + destruct (proj1 (Hv w) eq_refl) as [-> Hg]. destruct (read_members read (k :: seen) l) as [l2|e] eqn:El; simpl.
      * destruct (proj1 (IH _ l2) El) as (-> & Hgl & Hnd & Hd). split; [|by intros [-> _]]. intros [= <-]. split_and!; [done|by constructor| |].
        -- constructor; [|done]. intros Hin. apply Hd in Hin. set_solver.
        -- intros x [->|Hx]%elem_of_cons; [done|]. apply Hd in Hx. set_solver.
      * split; [done|]. intros (-> & Hgl & Hnd & Hd). apply Forall_cons in Hgl as [_ Hgl]. csimpl in Hnd. apply NoDup_cons in Hnd as [Hn Hnd].
        assert (read_members read (k :: seen) l = Ok l); [|congruence]. apply IH. split_and!; [done..|]. intros x Hx [->|Hs]%elem_of_cons; [done|].
        apply (Hd x); [by right|done].
    + split; [done|]. intros (-> & Hgl & _). apply Forall_cons in Hgl as [Hg _]. pose proof (proj2 (Hv v) (conj eq_refl Hg)). congruence.
Qed.
End read_ok.

Lemma foldr_Forall {A} (P : A → Prop) l : foldr (λ v Q, P v ∧ Q) True l ↔ Forall P l.
Proof. induction l as [|v l IH]; simpl; [split; [constructor|done]|]. by rewrite IH, Forall_cons. Qed.
Lemma foldr_max {A} (f : A → Z) l n : 0 ≤ n → foldr (λ v, Z.max (f v)) 0 l ≤ n ↔ Forall (λ v, f v ≤ n) l.
Proof. intros Hn. induction l as [|v l IH]; simpl; [split; [constructor|done]|]. by rewrite Forall_cons, <- IH, Z.max_lub_iff. Qed.
Lemma children_max_nonneg {A} (f : A → Z) l : 0 ≤ foldr (λ v, Z.max (f v)) 0 l.
Proof. induction l; simpl; lia. Qed.
(** The children of a value, one level further down. *)
Lemma children_good {A} (get : A → any) l depth maxDepth :
  depth ≤ maxDepth →
  Forall (λ x, depth + 1 + any_depth (get x) - 1 ≤ maxDepth ∧ unique_keys (get x)) l ↔
  depth + (1 + foldr (λ x, Z.max (any_depth (get x))) 0 l) - 1 ≤ maxDepth ∧ foldr (λ x P, unique_keys (get x) ∧ P) True l.
Proof.
  intros Hd. rewrite (foldr_Forall (λ x, unique_keys (get x))). pose proof (foldr_max (λ x, any_depth (get x)) l (maxDepth - depth) ltac:(lia)) as Hm.
  assert (depth + (1 + foldr (λ x, Z.max (any_depth (get x))) 0 l) - 1 ≤ maxDepth ↔ foldr (λ x, Z.max (any_depth (get x))) 0 l ≤ maxDepth - depth) as -> by lia.
  rewrite Hm, <- Forall_and. apply Forall_iff. intros x. split; intros [? ?]; split; first [done|lia].
Qed.
Lemma bind_exact {A B} (r : result schema_error A) (C : A → B) a (P : Prop) w :
  (∀ a', r = Ok a' ↔ a' = a ∧ P) → (r ≫= λ x, Ok (C x)) = Ok w ↔ w = C a ∧ P.
Proof.
  intros Hr. destruct r as [a'|e]; simpl.
  - destruct (proj1 (Hr a') eq_refl) as [-> HP]. split; [by intros [= <-]|by intros [-> _]].
  - split; [done|]. intros [_ HP]. pose proof (proj2 (Hr a) (conj eq_refl HP)). congruence.
Qed.

(** The reader gives the value of the text back, unless it is too deep or repeats a key. *)
Lemma readVariableJSONValue_spec v : ∀ maxDepth depth w,
  readVariableJSONValue maxDepth depth v = Ok w ↔ w = v ∧ depth + any_depth v - 1 ≤ maxDepth ∧ unique_keys v.
Proof.
  induction v as [|b|n|x|l IH|l IH] using any_ind; intros maxDepth depth w; cbn [readVariableJSONValue any_depth unique_keys]; rewrite fail_if_ok, Z.ltb_ge.
  1-4: split; [intros [? [= <-]]; split_and!; [done|lia|done]|intros (-> & ? & _); split; [lia|done]].
  - rewrite (bind_exact _ _ l (Forall (λ v, depth + 1 + any_depth v - 1 ≤ maxDepth ∧ unique_keys v) l)).
    2:{ apply read_items_ok. eapply Forall_impl; [exact IH|]. intros v Hv u. apply Hv. }
    pose proof (children_max_nonneg any_depth l). split.
    + intros (Hd & -> & Hg). split; [done|]. by apply (children_good id) in Hg.
    + intros (-> & Hg). assert (depth ≤ maxDepth) by lia. split_and!; [done..|]. by apply (children_good id).
  - rewrite (bind_exact _ _ l (Forall (λ kv, depth + 1 + any_depth kv.2 - 1 ≤ maxDepth ∧ unique_keys kv.2) l ∧ NoDup (l.*1))).
    2:{ intros l'. rewrite (read_members_ok _ (λ v, depth + 1 + any_depth v - 1 ≤ maxDepth ∧ unique_keys v)); [|eapply Forall_impl; [exact IH|]; intros v Hv u; apply Hv].
        split; [tauto|]. intros (? & ? & ?). split_and!; [done..|]. intros k _ Hk. by apply elem_of_nil in Hk. }
    pose proof (children_max_nonneg (λ kv : string * any, any_depth kv.2) l). split.
    + intros (Hd & -> & Hg & Hnd). apply (children_good snd) in Hg as [Hg1 Hg2]; done.
    + intros (-> & Hg1 & Hnd & Hg2). assert (depth ≤ maxDepth) by lia. split_and!; [done..| |done]. by apply (children_good snd).
Qed.

(** ** The type that a definition denotes *)

Definition length_in (n : Z) (minimum maximum : option Z) : Prop := (∀ m, minimum = Some m → m ≤ n) ∧ (∀ m, maximum = Some m → n ≤ m).
Definition format_ok (format value : string) : Prop :=
  (format = "int64" → ∃ z, is_i64 z ∧ value = FormatInt z) ∧
  (format = "uint64" → ∃ n, is_u64 n ∧ value = FormatUint n) ∧
  (format = "node-id" → ∃ n, 0 < n ≤ maxUint64 ∧ value = FormatUint n) ∧
  (format = "base64" → ∃ l, value = Std_EncodeToString l).
Definition pattern_ok (pattern value : string) : Prop :=
  (pattern = "^[0-9a-f]{32}$" → ∃ l, length l = 16%nat ∧ value = EncodeToString l) ∧
  (pattern = "^[1-9][0-9]*$" → ∃ c t, code value = c :: t ∧ 49 ≤ c ≤ 57 ∧ Forall (λ d, 48 ≤ d ≤ 57) t).
Definition string_ok (s : DataSchemaDefinition) (value : string) : Prop :=
  ValidString value = true ∧ length_in (strlen value) (sd_MinLength s) (sd_MaxLength s) ∧ (enum s ≠ [] → value ∈ enum s) ∧
  format_ok (sd_Format s) value ∧ pattern_ok (sd_Pattern s) value.

Lemma length_in_spec n a b :
  match a with Some m => n <? m | None => false end || match b with Some m => m <? n | None => false end = false ↔ length_in n a b.
Proof.
  unfold length_in. rewrite orb_false_iff. destruct a as [x|], b as [y|]; rewrite ?Z.ltb_ge; naive_solver.
Qed.
Lemma validateHexID_spec value n : validateHexID value (Z.of_nat n) = Ok tt ↔ ∃ l, length l = n ∧ value = EncodeToString l.
Proof.
  split.
  - unfold validateHexID, DecodeString. intros H. apply fail_if_ok in H as [_ H]. destruct (hex_decode (bytes_of value)) as [d|] eqn:Ed; [|done].
    apply fail_if_ok in H as [H _]. bool_prop. exists d. split; [lia|]. apply bytes_of_inj. unfold EncodeToString. rewrite bytes_of_string_of. symmetry.
    apply hex_encode_decode; [done|]. match goal with E : value = ToLower value |- _ => rename E into Elow end.
    unfold ToLower in Elow. apply (f_equal bytes_of) in Elow. by rewrite bytes_of_string_of in Elow.
  - intros (l & <- & ->). apply validateHexID_EncodeToString.
Qed.
Lemma int64_spec value :
  match ParseInt 64 value with Some number => negb (String.eqb (FormatInt number) value) | None => true end = false ↔ ∃ z, is_i64 z ∧ value = FormatInt z.
Proof.
  split.
  - destruct (ParseInt 64 value) as [z|] eqn:Ez; [|done]. rewrite negb_false_iff, String.eqb_eq. intros <-. exists z. split; [|done]. by apply (ParseInt_range 64) in Ez.
  - intros (z & Hz & ->). rewrite ParseInt_FormatInt by done. by rewrite String.eqb_refl.
Qed.
Lemma parse_digits_range cs : ∀ n, 0 ≤ n ≤ maxUint64 → 0 ≤ (parse_digits n cs).1 ≤ maxUint64.
Proof.
  induction cs as [|c cs IH]; intros n Hn; [done|]. cbn [parse_digits]. destruct (between 48 57 c) eqn:Ec; [|done]. cbn [negb]. apply between_spec in Ec.
  destruct (_ <=? n); [done|]. cbv zeta. destruct (Z.ltb_spec maxUint64 (n * 10 + (c - 48))); [done|]. apply IH. lia.
Qed.
Lemma uint64_spec value :
  (let '(number, ok) := ParseUint value in negb ok || negb (String.eqb (FormatUint number) value)) = false ↔ ∃ n, is_u64 n ∧ value = FormatUint n.
Proof.
  split.
  - assert (is_u64 (ParseUint value).1) as Hr by (unfold ParseUint; destruct (code value); [done|]; by apply parse_digits_range).
    destruct (ParseUint value) as [n ok]. intros H. bool_prop. eqb_prop. eauto.
  - intros (n & Hn & ->). rewrite ParseUint_FormatUint by done. by rewrite String.eqb_refl.
Qed.
Lemma node_id_spec value : negb (is_ok (ParseVariableRevision value)) = false ↔ ∃ n, 0 < n ≤ maxUint64 ∧ value = FormatUint n.
Proof.
  rewrite negb_false_iff. split.
  - destruct (ParseVariableRevision value) as [n|] eqn:E; [|done]. intros _. exists n. by apply ParseVariableRevision_canonical.
  - intros (n & Hn & ->). by rewrite (proj2 (ParseVariableRevision_canonical _ n) (conj Hn eq_refl)).
Qed.
Lemma base64_spec value :
  match Std_DecodeString value with Some decoded => negb (String.eqb (Std_EncodeToString decoded) value) | None => true end = false ↔ ∃ l, value = Std_EncodeToString l.
Proof.
  split.
  - destruct (Std_DecodeString value) as [l|]; [|done]. rewrite negb_false_iff, String.eqb_eq. eauto.
  - intros [l ->]. by rewrite Std_roundtrip, String.eqb_refl.
Qed.
Lemma decimal_pattern_spec value :
  match code value with [] => true | c :: _ => (c <? 49) || (57 <? c) || negb (forallb ascii_digit (code value)) end = false ↔
  ∃ c t, code value = c :: t ∧ 49 ≤ c ≤ 57 ∧ Forall (λ d, 48 ≤ d ≤ 57) t.
Proof.
  destruct (code value) as [|c t]; [split; [done|by intros (? & ? & ? & _)]|]. split.
  - intros H. bool_prop. exists c, t. split_and!; [done|lia..|]. simpl in *. bool_prop. rewrite Forall_forall. intros x Hx. apply list_elem_of_In in Hx.
    match goal with H : forallb _ t = true |- _ => rewrite forallb_forall in H; apply H in Hx end. by apply between_spec in Hx.
  - intros (c' & t' & [= <- <-] & Hc & Ht). rewrite (proj2 (Z.ltb_ge _ _)), (proj2 (Z.ltb_ge 57 c)) by lia. simpl. rewrite negb_false_iff, andb_true_iff, forallb_forall.
    split; [by apply between_spec; lia|]. intros x Hx. rewrite Forall_forall in Ht. apply between_spec, Ht. by apply list_elem_of_In.
Qed.

Lemma enum_spec (l : list string) value : true && negb (bool_decide (l = [])) && negb (bool_decide (value ∈ l)) = false ↔ (l ≠ [] → value ∈ l).
Proof. simpl. rewrite andb_false_iff, !negb_false_iff, !bool_decide_eq_true. destruct l; naive_solver. Qed.
Lemma format_spec format value :
  (if String.eqb format "int64" then
     match ParseInt 64 value with Some number => negb (String.eqb (FormatInt number) value) | None => true end
   else if String.eqb format "uint64" then
     let '(number, ok) := ParseUint value in negb ok || negb (String.eqb (FormatUint number) value)
   else if String.eqb format "node-id" then negb (is_ok (ParseVariableRevision value))
   else if String.eqb format "base64" then
     match Std_DecodeString value with Some decoded => negb (String.eqb (Std_EncodeToString decoded) value) | None => true end
   else false) = false ↔ format_ok format value.
Proof.
  unfold format_ok. rewrite <- int64_spec, <- uint64_spec, <- node_id_spec, <- base64_spec.
  repeat match goal with |- context [String.eqb format ?x] => destruct (String.eqb_spec format x) as [->|] end; naive_solver.
Qed.
Lemma pattern_spec pattern value :
  (if String.eqb pattern "^[0-9a-f]{32}$" then negb (is_ok (validateHexID value 16))
   else if String.eqb pattern "^[1-9][0-9]*$" then
     match code value with [] => true | c :: _ => (c <? 49) || (57 <? c) || negb (forallb ascii_digit (code value)) end
   else false) = false ↔ pattern_ok pattern value.
Proof.
  unfold pattern_ok. rewrite <- decimal_pattern_spec, <- (validateHexID_spec value 16). change (Z.of_nat 16) with 16.
  repeat match goal with |- context [String.eqb pattern ?x] => destruct (String.eqb_spec pattern x) as [->|] end;
    [destruct (validateHexID value 16) as [[]|]|..]; naive_solver.
Qed.
Lemma string_spec s value : validateVariableString s value true = Ok tt ↔ string_ok s value.
Proof.
  unfold validateVariableString, string_ok. rewrite !fail_if_ok, length_in_spec, negb_false_iff, enum_spec, format_spec, pattern_spec. naive_solver.
Qed.

(** A bound of a definition as the decimal it was written as. *)
Definition bound_is (o : option float64) (limit : Q) : Prop := ∃ x f, o = Some x ∧ float_value x = Some f ∧ limit = shortest_decimal f.
Definition number_ok (s : DataSchemaDefinition) (number : string) : Prop :=
  ∃ q, decimal (code number) = Some q ∧ (Qabs q <= inject_Z MaxVariableSafeInteger)%Q ∧ (q == 0 ∨ (Q_pow2 (-1074) < 2 * Qabs q)%Q) ∧
    (∀ e, after_e (code number) = Some e → ∃ k, ParseInt 32 (string_of e) = Some k ∧ -324 ≤ k ≤ 308) ∧
    (sd_Type s = "integer" → ∃ z, q == inject_Z z) ∧
    (∀ limit, bound_is (sd_Minimum s) limit → (limit <= q)%Q) ∧ (∀ limit, bound_is (sd_Maximum s) limit → (q <= limit)%Q) ∧
    (∀ step, bound_is (sd_MultipleOf s) step → ∃ z, q == inject_Z z * step) ∧
    (∀ p, sd_Precision s = Some p → ∃ z, q * inject_Z (10 ^ p) == inject_Z z).

Lemma Qltb_false x y : Qltb x y = false ↔ (y <= x)%Q.
Proof. unfold Qltb. by rewrite negb_false_iff, Qle_bool_iff. Qed.
Lemma check_bound_spec o bad e : finite o → check_bound o bad e = Ok tt ↔ ∀ limit, bound_is o limit → bad limit = false.
Proof.
  intros Ho. unfold check_bound, bound_is, variableDecimal. destruct o as [x|]; [|naive_solver]. destruct (Ho x eq_refl) as [f Hf]. rewrite Hf. simpl.
  rewrite fail_if_ok. naive_solver.
Qed.
Lemma multiple_spec q step : ¬ step == 0 → IsInt (q / step) = true ↔ ∃ z, q == inject_Z z * step.
Proof.
  intros Hs. rewrite IsInt_spec. split; intros [z Hz]; exists z; [rewrite <- Hz; field; done|rewrite Hz; field; done].
Qed.
Lemma check_step_spec q o : (∀ x, o = Some x → ∃ f, float_value x = Some f ∧ (0 < f)%Q) →
  check_step q o = Ok tt ↔ ∀ step, bound_is o step → ∃ z, q == inject_Z z * step.
Proof.
  intros Ho. unfold check_step, bound_is, variableDecimal. destruct o as [x|]; [|naive_solver]. destruct (Ho x eq_refl) as (f & Hf & Hpos). rewrite Hf. simpl.
  assert (¬ shortest_decimal f == 0) as Hn by (intros E%shortest_decimal_zero; rewrite E in Hpos; by apply Qlt_irrefl in Hpos).
  rewrite !fail_if_ok, negb_false_iff, multiple_spec by done. assert (Qeq_bool (shortest_decimal f) 0 = false) as ->; [|naive_solver].
  apply not_true_iff_false. by rewrite Qeq_bool_iff.
Qed.
(** Within the safe range a number is not lost by rounding, and the first test says no more than the
    later one. *)
Lemma safe_range_spec q : (Qabs q <= inject_Z MaxVariableSafeInteger)%Q →
  ∃ f, round64 q = FFin f ∧ Qltb (inject_Z MaxVariableSafeInteger) (Qabs f) = false ∧ (f == 0 ↔ (2 * Qabs q <= Q_pow2 (-1074))%Q).
Proof.
  intros Hq. destruct (round64_safe q MaxVariableSafeInteger Hq ltac:(done)) as (f & Hf & Hb). exists f. split_and!; [done|by apply Qltb_false|]. by apply round64_zero.
Qed.
Lemma number_spec s number : well_formed s → validateVariableNumber s number = Ok tt ↔ number_ok s number.
Proof.
  intros [s' _ _ Hmin Hmax Hmult _ _ _ _]. unfold validateVariableNumber, number_ok. destruct (decimal (code number)) as [q|]; [|naive_solver].
  rewrite !fail_if_ok, !bind_ok, !fail_if_ok, !check_bound_spec, check_step_spec, Qltb_false by done.
  destruct (Qle_bool (Qabs q) (inject_Z MaxVariableSafeInteger)) eqn:Eq; rewrite ?Qle_bool_iff in Eq.
  2:{ apply not_true_iff_false in Eq. rewrite Qle_bool_iff in Eq. naive_solver. }
  destruct (safe_range_spec q Eq) as (f & -> & Hf & Hz). rewrite Hf.
  assert (Qeq_bool f 0 && negb (Qeq_bool q 0) = false ↔ q == 0 ∨ (Q_pow2 (-1074) < 2 * Qabs q)%Q) as ->.
  { rewrite andb_false_iff, negb_false_iff, Qeq_bool_iff, <- not_true_iff_false, Qeq_bool_iff, Hz. split; intros [?|?]; [right; by apply Qnot_le_lt|by left|by right|left; by apply Qlt_not_le]. }
  assert (String.eqb (sd_Type s') "integer" && negb (IsInt q) = false ↔ (sd_Type s' = "integer" → ∃ z, q == inject_Z z)) as ->.
  { rewrite andb_false_iff, negb_false_iff, IsInt_spec, String.eqb_neq. destruct (decide (sd_Type s' = "integer")); naive_solver. }
  assert (match after_e (code number) with
          | None => false
          | Some e => match ParseInt 32 (string_of e) with None => true | Some exponent => (exponent <? -324) || (308 <? exponent) end
          end = false ↔ ∀ e, after_e (code number) = Some e → ∃ k, ParseInt 32 (string_of e) = Some k ∧ -324 ≤ k ≤ 308) as ->.
  { destruct (after_e (code number)) as [e|]; [|naive_solver]. destruct (ParseInt 32 (string_of e)) as [k|] eqn:Ek.
    2:{ split; [done|]. intros H. by destruct (H e eq_refl) as (k & Hk & _); rewrite Ek in Hk. }
    rewrite orb_false_iff, !Z.ltb_ge. naive_solver. }
  assert (match sd_Precision s' with Some p => negb (IsInt (q * inject_Z (10 ^ p))) | None => false end = false ↔
          ∀ p, sd_Precision s' = Some p → ∃ z, q * inject_Z (10 ^ p) == inject_Z z) as ->.
  { destruct (sd_Precision s') as [p|]; [|naive_solver]. rewrite negb_false_iff, IsInt_spec. naive_solver. }
  setoid_rewrite Qltb_false. naive_solver.
Qed.

(** The value has the type. *)
Inductive has_type : DataSchemaDefinition → any → Prop :=
| type_null s : sd_Nullable s = true ∨ sd_Type s = "null" → has_type s ANull
| type_boolean s b : sd_Type s = "boolean" → has_type s (ABool b)
| type_number s n : sd_Type s = "integer" ∨ sd_Type s = "number" → number_ok s n → has_type s (ANumber n)
| type_string s x : sd_Type s = "string" → string_ok s x → has_type s (AString x)
| type_array s c items : sd_Type s = "array" → sd_Items s = Some c → length_in (Z.of_nat (length items)) (sd_MinItems s) (sd_MaxItems s) →
    (∀ v, v ∈ items → has_type c v) → has_type s (AArray items)
| type_object s object : sd_Type s = "object" →
    (∀ name schema, (name, true, schema) ∈ properties s → name ∈ object.*1) →
    (∀ key v, (key, v) ∈ object → validateText key MaxIdentifierBytes true = Ok tt) →
    (∀ key v, (key, v) ∈ object → ∃ c, admits s key c) →
    (∀ key v c, (key, v) ∈ object → admits s key c → has_type c v) → has_type s (AObject object).

Lemma value_items_spec s c l : sd_Items s = Some c → value_items s l = Ok tt ↔ ∀ v, v ∈ l → validateVariableValueNode c v = Ok tt.
Proof.
  intros Hc. induction l as [|v l IH]; simpl; [split; [intros _ v Hv; by apply elem_of_nil in Hv|done]|]. rewrite Hc, bind_ok, IH. split.
  - intros [H1 H2] w [->|Hw]%elem_of_cons; [done|by apply H2].
  - intros H. split; [apply H; by left|]. intros w Hw. apply H. by right.
Qed.
Lemma value_members_spec s known l :
  (∀ name, known !! name = match List.find (λ p : DataSchemaProperty, String.eqb p.1.1 name) (properties s) with Some p => Some p.2 | None => (∅ : gmap string (option DataSchemaDefinition)) !! name end) →
  value_members s known l = Ok tt ↔
  ∀ key v, (key, v) ∈ l → validateText key MaxIdentifierBytes true = Ok tt ∧ ∃ c, schema_of s key = Some c ∧ validateVariableValueNode c v = Ok tt.
Proof.
  intros Hk. rewrite value_members_eq by done. clear known Hk. induction l as [|[key v] l IH]; [split; [intros _ k v Hv; by apply elem_of_nil in Hv|done]|].
  rewrite bind_ok. unfold text at 1. rewrite mapErr_ok. destruct (schema_of s key) as [c|] eqn:Ec.
  - rewrite bind_ok, IH. split.
    + intros (H1 & H2 & H3) k w [Heq|Hin]%elem_of_cons; [simplify_eq; eauto|by apply H3].
    + intros H. destruct (H key v) as (H1 & c' & H2 & H3); [by left|]. split_and!; [done|congruence|]. intros k w Hin. apply H. by right.
  - split; [by intros [_ ?]|]. intros H. destruct (H key v) as (_ & c' & H2 & _); [by left|]. congruence.
Qed.

Lemma value_spec v : ∀ s, well_formed s → validateVariableValueNode s v = Ok tt ↔ has_type s v.
Proof.
  induction v as [|b|n|x|l IH|l IH] using any_ind; intros s Hs; [cbn [validateVariableValueNode]; rewrite fail_if_ok, negb_false_iff ..|rewrite validateVariableValueNode_array|rewrite validateVariableValueNode_object].
  - rewrite orb_true_iff, String.eqb_eq. split; [intros [? _]; by constructor|inversion 1; by subst].
  - rewrite String.eqb_eq. split; [intros [? _]; by constructor|inversion 1; by subst].
  - rewrite orb_true_iff, !String.eqb_eq, number_spec by done. split; [intros [? ?]; by constructor|inversion 1; by subst].
  - rewrite String.eqb_eq, string_spec. split; [intros [? ?]; by constructor|inversion 1; by subst].
  - rewrite !fail_if_ok, negb_false_iff, String.eqb_eq, length_in_spec. rewrite Forall_forall in IH. split.
    + intros (Ht & Hl & Hv). destruct Hs as [s Harr _ _ _ _ _ _ Hi _]. destruct (Harr Ht) as [c Hc]. apply (type_array s c); [done..|].
      rewrite (value_items_spec s c) in Hv by done. intros v Hin. apply IH; [done|by apply Hi|by apply Hv].
    + inversion 1 as [| | | |s' c items Ht Hc Hlen Hv|]; subst. split_and!; [done..|]. rewrite (value_items_spec s c) by done. intros v Hin.
      apply IH; [done| |by apply Hv]. destruct Hs as [s _ _ _ _ _ _ _ Hi _]. by apply Hi.
  - rewrite fail_if_ok, negb_false_iff, String.eqb_eq. assert (NoDup ((properties s).*1.*1)) as Hnd by (by destruct Hs). rewrite Forall_forall in IH. split.
    + intros [Ht H]. destruct (declared l ∅ (properties s)) as [known|] eqn:Ed; [|done]. simpl in H. apply declared_ok in Ed as [Hreq Hk]; [|done].
      rewrite value_members_spec in H by done. constructor; [done..| | |].
      * intros key v Hin. by apply (H key v Hin).
      * intros key v Hin. destruct (H key v Hin) as (_ & c & Hc & _). exists c. by apply schema_of_spec.
      * intros key v c Hin Hc%schema_of_spec; [|done]. destruct (H key v Hin) as (_ & c' & Hc' & Hv). rewrite Hc in Hc'. simplify_eq.
        apply (IH (key, v) Hin); [by eapply schema_of_well_formed|done].
    + inversion 1 as [| | | | |s' object Ht Hreq Hkey Hadm Hv]; subst. split; [done|]. pose proof (declared_complete l (properties s) ∅ Hreq) as Hd.
      destruct (declared l ∅ (properties s)) as [known|] eqn:Ed; [|by destruct Hd]. simpl. apply declared_ok in Ed as [_ Hk]; [|done].
      rewrite value_members_spec by done. intros key v Hin. split; [by eapply Hkey|]. destruct (Hadm key v Hin) as [c Hc]. exists c. split; [by apply schema_of_spec|].
      apply (IH (key, v) Hin); [eapply schema_of_well_formed; [done|by apply schema_of_spec]|by eapply Hv].
Qed.

(** A text is well formed with a value. *)
Definition variable_text (data : list Z) (v : any) : Prop :=
  data ≠ [] ∧ Z.of_nat (length data) ≤ DefaultMaxPayload ∧ is_Some (utf8_runes data) ∧ parse_text data = Some v ∧
  scan_surrogates (length data) false data = Ok tt ∧ any_depth v ≤ MaxDataSchemaDepth ∧ unique_keys v.
Lemma parseVariableJSON_spec data v : parseVariableJSON data = Ok v ↔ variable_text data v.
Proof.
  unfold parseVariableJSON, parseVariableJSONDepth, validatePayloadSize, validateVariableJSONEncoding, variable_text, json_Valid.
  rewrite !bind_ok, mapErr_ok, !fail_if_ok. change (DefaultMaxPayload <=? 0) with false. cbv iota.
  assert ((Z.of_nat (length data) =? 0) = false ↔ data ≠ []) as -> by (rewrite Z.eqb_neq; destruct data; simpl; split; done || lia). rewrite Z.ltb_ge, orb_false_iff, !negb_false_iff, !bool_decide_eq_true.
  destruct (parse_text data) as [w|].
  - rewrite readVariableJSONValue_spec. replace (1 + any_depth w - 1) with (any_depth w) by lia. split.
    + intros ((? & ? & _) & ((? & _) & ?) & -> & ? & ?). done.
    + intros (? & ? & ? & [= <-] & ? & ? & ?). split_and!; eauto.
  - split; [by intros (_ & ((_ & [? ?]) & _) & _)|]. by intros (_ & _ & _ & ? & _).
Qed.
Lemma payload_size_no_panic n m : no_panic (mapErr SText (validatePayloadSize n m)).
Proof. unfold no_panic. by destruct (validatePayloadSize n m). Qed.
Lemma parseVariableJSON_no_panic data : no_panic (parseVariableJSON data).
Proof.
  unfold parseVariableJSON, parseVariableJSONDepth. apply bind_no_panic; [apply payload_size_no_panic|]. intros _ _.
  apply bind_no_panic; [apply encoding_no_panic|]. intros _ _. destruct (parse_text data) as [v|]; [|done]. generalize MaxDataSchemaDepth, 1.
  induction v as [|b|n|x|l IH|l IH] using any_ind; intros m d; cbn [readVariableJSONValue]; apply fail_no_panic; try done.
  - apply bind_no_panic; [|done]. generalize (d + 1). intros d'. induction IH as [|v l Hv _ IHl]; simpl; [done|]. apply bind_no_panic; [apply Hv|]. intros w _. by apply bind_no_panic.
  - apply bind_no_panic; [|done]. generalize (d + 1), ([] : list string). intros d'. induction IH as [|[k v] l Hv _ IHl]; simpl; intros seen; [done|].
    apply fail_no_panic; [done|]. apply bind_no_panic; [apply Hv|]. intros w _. by apply bind_no_panic.
Qed.
Lemma validateVariableState_no_panic v d : (∀ s, d = Some s → well_formed s) → no_panic (validateVariableState v d).
Proof.
  intros Hd. unfold validateVariableState, time_safe. no_panic_step. apply bind_no_panic; [unfold no_panic; by destruct (validateHexID _ _)|]. intros _ _.
  do 3 no_panic_step. apply bind_no_panic; [no_panic|]. intros _ _. apply bind_no_panic; [no_panic|]. intros _ _. destruct (bool_decide _); [done|].
  apply bind_no_panic; [apply parseVariableJSON_no_panic|]. intros a _. destruct d as [s|]; [|done]. apply value_no_panic. by apply Hd.
Qed.
Lemma encoded_size_no_panic o : no_panic (validateVariableEncodedSize o).
Proof. destruct o; [apply payload_size_no_panic|done]. Qed.

(** ** The claims *)

(** C38. A validated definition is a type: a text is accepted exactly when it is a UTF-8 JSON text
    of one value within the size limit, without unpaired surrogates, at most twelve levels deep
    and without repeated keys, and that value has the type that the definition denotes (its kind,
    the bounds, step and precision of numbers as exact decimals, the length, enumeration, format
    and pattern of strings, the items of arrays, and the required, declared and additional
    properties of objects). *)
Theorem variable_value_typed (regexp_Compile : string → bool) (d : DataSchemaDefinition) (data : list Z)
    (Hd : ValidateVariableDefinition regexp_Compile d = Ok tt) :
  ValidateVariableValue regexp_Compile d data = Ok tt ↔ ∃ v, variable_text data v ∧ has_type d v.
Proof.
  unfold ValidateVariableValue. rewrite Hd. simpl. apply ValidateVariableDefinition_ok in Hd. split.
  - intros H. destruct (parseVariableJSON data) as [v|] eqn:Ev; [|done]. simpl in H. exists v. split; [by apply parseVariableJSON_spec|by apply value_spec].
  - intros (v & Hv & Ht). apply parseVariableJSON_spec in Hv. rewrite Hv. simpl. by apply value_spec.
Qed.

(** Validation never follows a nil pointer, never divides by zero and never reads past the end
    of a slice, whatever definition, value, envelope or write it is given. *)
Theorem variable_validation_total (regexp_Compile : string → bool) (d : DataSchemaDefinition) (data : list Z) (envelope : VariableEnvelope) (write : VariableWriteV3) :
  DataSchema_Validate regexp_Compile d ≠ Err SPanic ∧ ValidateVariableDefinition regexp_Compile d ≠ Err SPanic ∧ ValidateVariableValue regexp_Compile d data ≠ Err SPanic ∧
  VariableEnvelope_Validate regexp_Compile envelope ≠ Err SPanic ∧ VariableWrite_Validate write ≠ Err SPanic.
Proof.
  split_and!; match goal with |- ?r ≠ _ => change (no_panic r) end.
  - apply bind_no_panic; [apply text_no_panic|]. intros _ _. pose proof (validateNode_no_panic regexp_Compile false d 1 0) as H.
    unfold no_panic in *. destruct (validateNode _ _ _ _ _); congruence.
  - apply ValidateVariableDefinition_no_panic.
  - apply bind_no_panic; [apply ValidateVariableDefinition_no_panic|]. intros [] Hd. apply bind_no_panic; [apply parseVariableJSON_no_panic|]. intros v _.
    apply value_no_panic. by eapply ValidateVariableDefinition_ok.
  - unfold VariableEnvelope_Validate. apply bind_no_panic; [destruct (ve_Definition envelope); [apply ValidateVariableDefinition_no_panic|done]|]. intros [] Hd.
    apply bind_no_panic; [|intros _ _; apply encoded_size_no_panic]. apply validateVariableState_no_panic. intros s Hs. rewrite Hs in Hd. by eapply ValidateVariableDefinition_ok.
  - unfold VariableWrite_Validate. no_panic_step. apply bind_no_panic; [unfold no_panic; by destruct (validateHexID _ _)|]. intros _ _. no_panic_step.
    apply bind_no_panic; [apply parseVariableJSON_no_panic|]. intros _ _. apply encoded_size_no_panic.
Qed.

(** ** Copies *)

Lemma clone_properties s : properties (CloneVariableDefinition s) = (λ q : DataSchemaProperty, (q.1, CloneVariableDefinition <$> q.2)) <$> properties s.
Proof. destruct s as [????????????????????? [[|p ps]|] ??]; done. Qed.
Lemma clone_enum s : enum (CloneVariableDefinition s) = enum s.
Proof. destruct s as [????????????????? [[|x l]|] ??????]; done. Qed.
Lemma clone_names s : (properties (CloneVariableDefinition s)).*1.*1 = (properties s).*1.*1.
Proof. rewrite clone_properties. f_equal. rewrite <- list_fmap_compose. by apply list_fmap_ext. Qed.

Section clone.
Context (regexp_Compile : string → bool).

Lemma clone_check_node s variable : check_node regexp_Compile (CloneVariableDefinition s) variable = check_node regexp_Compile s variable.
Proof. unfold check_node. rewrite clone_enum. by destruct s. Qed.
Lemma check_properties_map (f : DataSchemaDefinition → DataSchemaDefinition) child child' ps : ∀ count seen,
  Forall (λ p : DataSchemaProperty, ∀ n, child' n (f <$> p.2) = child n p.2) ps →
  check_properties child' count seen ((λ q : DataSchemaProperty, (q.1, f <$> q.2)) <$> ps) = check_properties child count seen ps.
Proof.
  induction ps as [|[[name required] schema] ps IH]; intros count seen Hps; [done|]. apply Forall_cons in Hps as [Hp Hps]. simpl in Hp. csimpl.
  destruct (text name _ _); [|done]. simpl. assert (bool_decide (f <$> schema = None) = bool_decide (schema = None)) as -> by (by destruct schema).
  destruct (bool_decide (schema = None)); [done|]. destruct (bool_decide (name ∈ seen)); [done|]. destruct (_ <? count + 1); [done|]. rewrite Hp.
  destruct (child _ schema); [|done]. simpl. by apply IH.
Qed.
Lemma clone_validateNode s : ∀ depth count variable,
  validateNode regexp_Compile depth count variable (CloneVariableDefinition s) = validateNode regexp_Compile depth count variable s.
Proof.
  induction s as [s IHp IHi IHa] using schema_ind. intros depth count variable. rewrite !validateNode_eq, clone_check_node, clone_properties.
  assert (∀ o n, opt_P (λ s, ∀ depth count variable, validateNode regexp_Compile depth count variable (CloneVariableDefinition s) = validateNode regexp_Compile depth count variable s) o →
    node_child regexp_Compile depth variable n (CloneVariableDefinition <$> o) = node_child regexp_Compile depth variable n o) as Hc.
  { intros [c|] n Ho; [|done]. apply Ho. }
  assert (sd_Type (CloneVariableDefinition s) = sd_Type s) as -> by (by destruct s).
  assert (sd_Items (CloneVariableDefinition s) = CloneVariableDefinition <$> sd_Items s) as -> by (by destruct s).
  assert (sd_AdditionalProperties (CloneVariableDefinition s) = CloneVariableDefinition <$> sd_AdditionalProperties s) as -> by (by destruct s).
  rewrite (check_properties_map _ (node_child regexp_Compile depth variable)) by (eapply Forall_impl; [exact IHp|]; intros p Hp n; by apply Hc).
  rewrite (Hc (sd_Items s)) by done.
  assert (∀ o : option DataSchemaDefinition, bool_decide (is_Some (CloneVariableDefinition <$> o)) = bool_decide (is_Some o)) as Hb.
  { intros o. apply bool_decide_ext. by rewrite fmap_is_Some. }
  rewrite !Hb. assert (bool_decide (CloneVariableDefinition <$> sd_Items s = None) = bool_decide (sd_Items s = None)) as -> by (by destruct (sd_Items s)).
  erewrite (bool_decide_ext (_ <$> properties s = []) (properties s = [])) by (destruct (properties s); split; done).
  destruct (check_properties _ _ _ _) as [n|e]; [|done]. simpl. by rewrite (Hc (sd_AdditionalProperties s)).
Qed.

Lemma clone_variable_string s value b : validateVariableString (CloneVariableDefinition s) value b = validateVariableString s value b.
Proof. unfold validateVariableString. rewrite clone_enum. by destruct s. Qed.
Lemma clone_variable_number s n : validateVariableNumber (CloneVariableDefinition s) n = validateVariableNumber s n.
Proof. by destruct s. Qed.
Lemma clone_check_variable_node s : check_variable_node s = Ok tt → check_variable_node (CloneVariableDefinition s) = Ok tt.
Proof.
  unfold check_variable_node. rewrite clone_enum.
  assert (∀ l, (fix loop (values : list string) : result schema_error unit :=
    match values with [] => Ok tt | value :: rest => _ ← validateVariableString (CloneVariableDefinition s) value false; loop rest end) l =
    (fix loop (values : list string) : result schema_error unit :=
    match values with [] => Ok tt | value :: rest => _ ← validateVariableString s value false; loop rest end) l) as ->.
  { intros l. induction l as [|x l IH]; [done|]. by rewrite clone_variable_string, IH. }
  generalize (enum s). intros l. cbv zeta. rewrite !bind_ok, !fail_if_ok.
  assert (∀ {A} (c b : bool) (o : option (list A)), c && (b || bound_set o) = false → c && (b || bound_set (clone_slice o)) = false) as Hslice.
  { intros A [] [] [[|x o]|]; done. }
  assert (bound_set (sd_Properties s) = false → bound_set (sd_Properties (CloneVariableDefinition s)) = false) as Hps by (destruct s as [????????????????????? [[|p ps]|] ??]; done).
  assert (∀ c, c && bound_set (sd_Properties s) = false → c && bound_set (sd_Properties (CloneVariableDefinition s)) = false) as Hps' by (intros []; [done|done]).
  intros (H1 & H2 & H3 & H4 & H5 & H6 & H7). apply Hslice in H4. apply Hps' in H6. clear -H1 H2 H3 H4 H5 H6 H7. split_and!; destruct s; (assumption || apply H7).
Qed.
Lemma clone_definition_node s : validateVariableDefinitionNode s = Ok tt → validateVariableDefinitionNode (CloneVariableDefinition s) = Ok tt.
Proof.
  induction s as [s IHp IHi IHa] using schema_ind. rewrite !validateVariableDefinitionNode_eq, clone_properties, !bind_ok. intros (H1 & H2 & H3 & H4). split_and!.
  - by apply clone_check_variable_node.
  - clear H3 H4 IHi IHa. induction (properties s) as [|p ps IH]; [done|]. apply Forall_cons in IHp as [Hp IHp]. csimpl in *. apply bind_ok in H2 as [H2 H3].
    apply bind_ok. split; [|by apply IH]. destruct p.2 as [c|]; [|done]. simpl in *. by apply Hp.
  - assert (sd_Items (CloneVariableDefinition s) = CloneVariableDefinition <$> sd_Items s) as -> by (by destruct s). destruct (sd_Items s) as [c|]; [|done]. by apply IHi.
  - assert (sd_AdditionalProperties (CloneVariableDefinition s) = CloneVariableDefinition <$> sd_AdditionalProperties s) as -> by (by destruct s).
    destruct (sd_AdditionalProperties s) as [c|]; [|done]. by apply IHa.
Qed.

(** The copies of the schemas in a map. *)
Definition map_schemas (f : DataSchemaDefinition → DataSchemaDefinition) (m : gmap string (option DataSchemaDefinition)) : gmap string (option DataSchemaDefinition) :=
  (λ o : option DataSchemaDefinition, f <$> o) <$> m.
Lemma declared_map (f : DataSchemaDefinition → DataSchemaDefinition) object ps : ∀ known known' e,
  (declared object known ps = Ok known' → declared object (map_schemas f known) ((λ q : DataSchemaProperty, (q.1, f <$> q.2)) <$> ps) = Ok (map_schemas f known')) ∧
  (declared object known ps = Err e → declared object (map_schemas f known) ((λ q : DataSchemaProperty, (q.1, f <$> q.2)) <$> ps) = Err e).
Proof.
  induction ps as [|[[name required] schema] ps IH]; intros known known' e; [split; [by intros [= ->]|done]|]. csimpl. destruct (_ && _); [done|].
  assert (<[name := f <$> schema]> (map_schemas f known) = map_schemas f (<[name := schema]> known)) as -> by (unfold map_schemas; by rewrite fmap_insert). apply IH.
Qed.
(** A copy accepts the same values, with the same errors. *)
Lemma clone_value v : ∀ s, validateVariableValueNode (CloneVariableDefinition s) v = validateVariableValueNode s v.
Proof.
  induction v as [|b|n|x|l IH|l IH] using any_ind; intros s.
  - by destruct s.
  - by destruct s.
  - cbn [validateVariableValueNode]. rewrite clone_variable_number. by destruct s.
  - cbn [validateVariableValueNode]. rewrite clone_variable_string. by destruct s.
  - rewrite !validateVariableValueNode_array. assert (value_items (CloneVariableDefinition s) l = value_items s l) as ->; [|by destruct s].
    induction IH as [|v l Hv _ IHl]; [done|]. simpl. rewrite IHl. assert (sd_Items (CloneVariableDefinition s) = CloneVariableDefinition <$> sd_Items s) as -> by (by destruct s).
    destruct (sd_Items s) as [c|]; [|done]. simpl. by rewrite Hv.
  - rewrite !validateVariableValueNode_object, clone_properties. assert (sd_Type (CloneVariableDefinition s) = sd_Type s) as -> by (by destruct s).
    destruct (declared l ∅ (properties s)) as [known|e] eqn:Ed; apply (declared_map CloneVariableDefinition) in Ed; try exact SPanic; try exact ∅;
      unfold map_schemas at 1 in Ed; rewrite fmap_empty in Ed; rewrite Ed; [simpl|done].
    assert (value_members (CloneVariableDefinition s) (map_schemas CloneVariableDefinition known) l = value_members s known l) as ->; [|done].
    clear Ed. induction IH as [|[k v] l Hv _ IHl]; [done|]. simpl. simpl in Hv. destruct (text k _ _); [|done]. simpl. unfold map_schemas at 1. rewrite lookup_fmap.
    assert (sd_AdditionalProperties (CloneVariableDefinition s) = CloneVariableDefinition <$> sd_AdditionalProperties s) as -> by (by destruct s). rewrite IHl.
    destruct (known !! k) as [[c|]|]; simpl; [by rewrite Hv|done|]. destruct (sd_AdditionalProperties s) as [c|]; simpl; [by rewrite Hv|done].
Qed.

(** A copy has the same encoding. *)
Definition child_field (name : string) (o : option DataSchemaDefinition) : option (list (string * any)) :=
  match o with None => Some [] | Some c => v ← definition_any c; Some [(name, v)] end.
Fixpoint property_values (ps : list DataSchemaProperty) : option (list any) :=
  match ps with
  | [] => Some []
  | (name, required, schema) :: rest =>
    v ← match schema with Some c => definition_any c | None => Some ANull end;
    rest ← property_values rest;
    Some (AObject (member "name" (AString name) ++ flag_field "required" required ++ member "schema" v) :: rest)
  end.
Lemma clone_encoding s : definition_any (CloneVariableDefinition s) = definition_any s.
Proof.
  induction s as [s IHp IHi IHa] using schema_ind.
  assert (∀ name o, opt_P (λ s, definition_any (CloneVariableDefinition s) = definition_any s) o → child_field name (CloneVariableDefinition <$> o) = child_field name o) as Hc.
  { intros name [c|] Ho; [|done]. simpl in *. by rewrite Ho. }
  assert (property_values ((λ q : DataSchemaProperty, (q.1, CloneVariableDefinition <$> q.2)) <$> properties s) = property_values (properties s)) as Hp.
  { induction IHp as [|[[n r] [c|]] ps Hq _ IH]; [done|..]; csimpl; rewrite IH; [simpl in Hq; by rewrite Hq|done]. }
  rewrite <- clone_properties in Hp. pose proof (Hc "items" _ IHi) as Hi. pose proof (Hc "additional_properties" _ IHa) as Ha. clear IHp IHi IHa Hc.
  assert (∀ s, definition_any s = (minimum ← float_field "minimum" (sd_Minimum s); maximum ← float_field "maximum" (sd_Maximum s);
    multipleOf ← float_field "multiple_of" (sd_MultipleOf s); ps ← property_values (properties s); items ← child_field "items" (sd_Items s);
    additional ← child_field "additional_properties" (sd_AdditionalProperties s);
    Some (AObject (
    text_field "id" (sd_ID s) ++ member "type" (AString (sd_Type s)) ++ flag_field "nullable" (sd_Nullable s) ++ text_field "title" (sd_Title s) ++
    text_field "description" (sd_Description s) ++ text_field "format" (sd_Format s) ++ text_field "content_type" (sd_ContentType s) ++
    text_field "unit" (sd_Unit s) ++ field_opt "precision" int_any (sd_Precision s) ++ minimum ++ maximum ++ multipleOf ++
    field_opt "min_length" int_any (sd_MinLength s) ++ field_opt "max_length" int_any (sd_MaxLength s) ++ text_field "pattern" (sd_Pattern s) ++
    field_opt "min_items" int_any (sd_MinItems s) ++ field_opt "max_items" int_any (sd_MaxItems s) ++
    member_if (negb (bool_decide (enum s = []))) "enum" (AArray (AString <$> enum s)) ++ flag_field "read_only" (sd_ReadOnly s) ++
    flag_field "write_only" (sd_WriteOnly s) ++ flag_field "sensitive" (sd_Sensitive s) ++
    member_if (match ps with [] => false | _ => true end) "properties" (AArray ps) ++ items ++ additional)))) as Heq.
  { clear. intros s. destruct s as [????????????????????? [ps|] ??]; [|reflexivity]. reflexivity. }
  rewrite !Heq, Hp, clone_enum. clear Heq Hp.
  assert (sd_Items (CloneVariableDefinition s) = CloneVariableDefinition <$> sd_Items s) as -> by (by destruct s).
  assert (sd_AdditionalProperties (CloneVariableDefinition s) = CloneVariableDefinition <$> sd_AdditionalProperties s) as -> by (by destruct s).
  rewrite Hi, Ha. clear Hi Ha. generalize (enum s), (property_values (properties s)), (child_field "items" (sd_Items s)), (child_field "additional_properties" (sd_AdditionalProperties s)).
  by destruct s.
Qed.
End clone.

(** The copy of a definition that was validated is the same type: it is valid, has the same
    encoding, and gives the same answer, error included, for every value and every state. *)
Theorem clone_equivalent (regexp_Compile : string → bool) (d : DataSchemaDefinition) (Hd : ValidateVariableDefinition regexp_Compile d = Ok tt) :
  ValidateVariableDefinition regexp_Compile (CloneVariableDefinition d) = Ok tt ∧
  marshal_definition (CloneVariableDefinition d) = marshal_definition d ∧
  (∀ data, ValidateVariableValue regexp_Compile (CloneVariableDefinition d) data = ValidateVariableValue regexp_Compile d data) ∧
  (∀ v, ValidateVariableState (CloneVariableDefinition d) v = ValidateVariableState d v).
Proof.
  assert (ValidateVariableDefinition regexp_Compile (CloneVariableDefinition d) = Ok tt) as Hc.
  { unfold ValidateVariableDefinition, marshal_definition in *. rewrite clone_validateNode, clone_encoding. destruct (validateNode _ _ _ _ _); [|done]. simpl in *.
    apply bind_ok in Hd as [H1 H2]. apply bind_ok. split; [by apply clone_definition_node|done]. }
  split_and!; [done|unfold marshal_definition; by rewrite clone_encoding| |].
  - intros data. unfold ValidateVariableValue. rewrite Hc, Hd. simpl. destruct (parseVariableJSON data); [|done]. apply clone_value.
  - intros v. unfold ValidateVariableState, validateVariableState. destruct (parseVariableJSON (ve_Value v)); [|done]. simpl. by rewrite clone_value.
Qed.

(** A thermostat: a mode, a set point in steps of a half, and the hours it is on. *)
Module Definition_demo.
Definition plain (type : string) : DataSchemaDefinition :=
  mkSchema "" type false "" "" "" "" "" None None None None None None "" None None None false false false None None None.
Definition note : DataSchemaDefinition :=
  mkSchema "" "string" false "" "" "" "" "" None None None None None None "" None None (Some []) false false false None None None.
Definition mode : DataSchemaDefinition :=
  mkSchema "" "string" false "" "" "" "" "" None None None None None (Some 8) "" None None (Some ["auto"; "off"]) false false false None None None.
Definition set_point : DataSchemaDefinition :=
  mkSchema "" "number" true "" "" "" "" "C" (Some 1) (Some (FFin 5)) (Some (FFin (61 # 2))) (Some (FFin (1 # 2))) None None "" None None None false false false None None None.
Definition hours : DataSchemaDefinition :=
  mkSchema "" "array" false "" "" "" "" "" None None None None None None "" (Some 1) (Some 24) None false false false None (Some (plain "integer")) None.
Definition thermostat : DataSchemaDefinition :=
  mkSchema "home.thermostat.v1" "object" false "Thermostat" "" "" "" "" None None None None None None "" None None None false false false
    (Some [("mode", true, Some mode); ("set_point", false, Some set_point); ("note", false, Some note)]) None (Some hours).
Definition any_regexp (_ : string) : bool := true.
Definition value : list Z := print (AObject [("mode", AString "auto"); ("set_point", ANumber "2.15e1"); ("monday", AArray [ANumber "6"; ANumber "18"])]).
Definition bad_value : list Z := print (AObject [("mode", AString "auto"); ("set_point", ANumber "21.3")]).
End Definition_demo.

Example bad_value_rejected : ValidateVariableValue Definition_demo.any_regexp Definition_demo.thermostat Definition_demo.bad_value = Err SStep.
Proof. vm_compute. reflexivity. Qed.

Lemma variable_value_typed_witness : ∃ v, variable_text Definition_demo.value v ∧ has_type Definition_demo.thermostat v.
Proof.
  assert (ValidateVariableDefinition Definition_demo.any_regexp Definition_demo.thermostat = Ok tt) as Hd by (vm_compute; reflexivity).
  assert (ValidateVariableValue Definition_demo.any_regexp Definition_demo.thermostat Definition_demo.value = Ok tt) as Hv by (vm_compute; reflexivity).
  exact (proj1 (variable_value_typed Definition_demo.any_regexp Definition_demo.thermostat Definition_demo.value Hd) Hv).
Defined.

Lemma clone_equivalent_witness :
  ValidateVariableValue Definition_demo.any_regexp (CloneVariableDefinition Definition_demo.thermostat) Definition_demo.bad_value = Err SStep ∧
  CloneVariableDefinition Definition_demo.thermostat ≠ Definition_demo.thermostat.
Proof.
  assert (ValidateVariableDefinition Definition_demo.any_regexp Definition_demo.thermostat = Ok tt) as Hd by (vm_compute; reflexivity).
  destruct (clone_equivalent Definition_demo.any_regexp Definition_demo.thermostat Hd) as (_ & _ & Hv & _). split; [|done].
  rewrite Hv. exact bad_value_rejected.
Defined.
