(* ===== verification/Streams.v ===== *)
(** * Streams and topics (runtime/resource/stream.go, topic.go)

    Both assign consecutive sequence numbers under their mutex, copy the observers, and call
    them after the mutex is released, so the calls made for two publications can interleave.
    The machine [tm] has a step per locked section and a step per observer call; the order in
    which a map of observers is iterated over is an argument.  Times are nanoseconds. *)

From Stdlib Require Import Sorting.Sorted.
From stdpp Require Import sorting.
From S2P Require Import Prelude GoStd GoSort Wire Catalog VariableModel Delivery.
Open Scope Z_scope.

Inductive stream_error :=
| SErrDescriptor (e : catalog_error) | SErrType | SErrCapability | SErrPayload (e : variable_error) | SErrExhausted
| SErrRegression | SErrPublisher (e : wire_error) | SErrPublisherLimit | ErrPublishRate | SErrSubscriberLimit
| SErrTopicLimits | SErrUnsupported.

Definition has_capability (d : Descriptor) (name : CapabilityID) : bool := bool_decide (is_Some (Capability d name)).
(** [eventSchema] of streams and topics: the zero value where the capability is missing. *)
Definition eventSchema (d : Descriptor) : string := match Capability d CapabilitySubscribe with Some c => cap_EventSchema c | None => "" end.

(** ** Streams *)

Record StreamEvent := mkStreamEvent { se_Sequence : Z; se_Value : list byte }.
Record Stream := mkStream {
  st_descriptor : Descriptor;
  st_sequence : Z;
  st_nextWatch : Z;
  st_watchers : gset Z
}.

Definition NewStream (descriptor : Descriptor) : result stream_error Stream :=
  d ← mapErr SErrDescriptor (normalizeDescriptor descriptor);
  fail_if negb (String.eqb (ds_Type d) ResourceTypeStream) with SErrType ;;
  fail_if negb (has_capability d CapabilitySubscribe) with SErrCapability ;;
  Ok (mkStream d 0 0 ∅).

(** Both return the event; the observers it is then sent to are those registered. *)
Definition Stream_Publish (s : Stream) (value : list byte) : result stream_error (StreamEvent * Stream) :=
  _ ← mapErr SErrPayload (validatePayload (st_descriptor s) value);
  fail_if st_sequence s =? maxUint64 with SErrExhausted ;;
  let sequence := u64 (st_sequence s + 1) in
  Ok (mkStreamEvent sequence value, mkStream (st_descriptor s) sequence (st_nextWatch s) (st_watchers s)).

Definition Stream_Apply (s : Stream) (sequence : Z) (value : list byte) : result stream_error (StreamEvent * Stream) :=
  _ ← mapErr SErrPayload (validatePayload (st_descriptor s) value);
  fail_if sequence <=? st_sequence s with SErrRegression ;;
  Ok (mkStreamEvent sequence value, mkStream (st_descriptor s) sequence (st_nextWatch s) (st_watchers s)).

Definition Stream_Operate (s : Stream) (capability : CapabilityID) (schema : string) (payload : list byte)
    : result stream_error ((string * list byte) * Stream) :=
  fail_if negb (String.eqb capability CapabilityPublish) with SErrUnsupported ;;
  fail_if negb (has_capability (st_descriptor s) CapabilityPublish) with SErrUnsupported ;;
  '(event, s) ← Stream_Publish s payload;
  Ok ((schema, se_Value event), s).

Definition Stream_Watch (s : Stream) : Z * Stream :=
  let id := u64 (st_nextWatch s + 1) in
  (id, mkStream (st_descriptor s) (st_sequence s) id ({[ id ]} ∪ st_watchers s)).
Definition Stream_cancel (s : Stream) (id : Z) : Stream :=
  mkStream (st_descriptor s) (st_sequence s) (st_nextWatch s) (st_watchers s ∖ {[ id ]}).

(** ** Topics *)

Record TopicConfig := mkTopicConfig { MaxPublishers : Z; MaxSubscribers : Z; MaxEventsPerSecond : Z }.

Definition positive_or (x d : Z) : Z := if x <=? 0 then d else x.
Definition TopicConfig_normalized (c : TopicConfig) (d : Descriptor) : result stream_error TopicConfig :=
  let publishers := positive_or (MaxPublishers c) 1024 in
  let subscribers := positive_or (positive_or (MaxSubscribers c) (lim_MaxSubscribers (ds_Limits d))) 1024 in
  let events := positive_or (MaxEventsPerSecond c) 256 in
  fail_if (MaxItems <? publishers) || (MaxItems <? subscribers) || (MaxItems <? events) with SErrTopicLimits ;;
  Ok (mkTopicConfig publishers subscribers events).

Record TopicEvent := mkTopicEvent {
  te_Sequence : Z;
  te_Publisher : NodeID;
  te_PublisherSequence : Z;
  te_PublishedAt : Z;
  te_Value : list byte
}.
#[global] Instance TopicEvent_eq_dec : EqDecision TopicEvent.
Proof. solve_decision. Defined.

(** [ps_windowStart] is [None] for the zero time. *)
Record publisherState := mkPublisherState { ps_sequence : Z; ps_windowStart : option Z; ps_windowCount : Z }.
Definition zeroPublisher : publisherState := mkPublisherState 0 None 0.

Record Topic := mkTopic {
  t_descriptor : Descriptor;
  t_config : TopicConfig;
  t_sequence : Z;
  t_publishers : gmap NodeID publisherState;
  t_nextWatch : Z;
  t_watchers : gset Z
}.

Definition NewTopic (descriptor : Descriptor) (config : TopicConfig) : result stream_error Topic :=
  d ← mapErr SErrDescriptor (normalizeDescriptor descriptor);
  fail_if negb (String.eqb (ds_Type d) ResourceTypeTopic) with SErrType ;;
  fail_if negb (has_capability d CapabilityPublish) with SErrCapability ;;
  fail_if negb (has_capability d CapabilitySubscribe) with SErrCapability ;;
  c ← TopicConfig_normalized config d;
  Ok (mkTopic d c 0 ∅ 0 ∅).

Definition second : Z := 10 ^ 9.

(** The window of a publisher, restarted when it is over. *)
Definition window (state : publisherState) (now : Z) : publisherState :=
  match ps_windowStart state with
  | Some start => if second <=? now - start then mkPublisherState (ps_sequence state) (Some now) 0 else state
  | None => mkPublisherState (ps_sequence state) (Some now) 0
  end.

Definition Topic_Publish (t : Topic) (publisher : NodeID) (value : list byte) (now : Z) : result stream_error (TopicEvent * Topic) :=
  _ ← mapErr SErrPublisher (NodeID_Validate publisher);
  _ ← mapErr SErrPayload (validatePayload (t_descriptor t) value);
  let known := t_publishers t !! publisher in
  fail_if negb (bool_decide (is_Some known)) && (MaxPublishers (t_config t) <=? Z.of_nat (size (t_publishers t)))
    with SErrPublisherLimit ;;
  let state := window (default zeroPublisher known) now in
  fail_if MaxEventsPerSecond (t_config t) <=? ps_windowCount state with ErrPublishRate ;;
  fail_if (t_sequence t =? maxUint64) || (ps_sequence state =? maxUint64) with SErrExhausted ;;
  let sequence := u64 (t_sequence t + 1) in
  let state := mkPublisherState (u64 (ps_sequence state + 1)) (ps_windowStart state) (ps_windowCount state + 1) in
  Ok (mkTopicEvent sequence publisher (ps_sequence state) now value,
      mkTopic (t_descriptor t) (t_config t) sequence (<[publisher := state]> (t_publishers t)) (t_nextWatch t) (t_watchers t)).

Definition Topic_Operate (t : Topic) (capability : CapabilityID) (subject : NodeID) (payload : list byte) (now : Z)
    : result stream_error ((string * list byte) * Topic) :=
  fail_if negb (String.eqb capability CapabilityPublish) with SErrUnsupported ;;
  '(_, t) ← Topic_Publish t subject payload now;
  Ok (("", []), t).

Definition Topic_Watch (t : Topic) : result stream_error (Z * Topic) :=
  fail_if MaxSubscribers (t_config t) <=? Z.of_nat (size (t_watchers t)) with SErrSubscriberLimit ;;
  let id := u64 (t_nextWatch t + 1) in
  Ok (id, mkTopic (t_descriptor t) (t_config t) (t_sequence t) (t_publishers t) id ({[ id ]} ∪ t_watchers t)).
Definition Topic_cancel (t : Topic) (id : Z) : Topic :=
  mkTopic (t_descriptor t) (t_config t) (t_sequence t) (t_publishers t) (t_nextWatch t) (t_watchers t ∖ {[ id ]}).

(** ** The machine of a topic *)

Record tm := mkTm {
  tm_topic : Topic;
  tm_flight : list (TopicEvent * list Z);   (* the publications whose observers are being called *)
  tm_seen : gmap Z (list TopicEvent);       (* what each observer was called with *)
  tm_history : list TopicEvent;             (* what was published, oldest first *)
  tm_joined : gmap Z nat;                   (* how much had been published when an observer joined *)
  tm_left : gmap Z nat                      (* and when it was cancelled *)
}.
Definition tm_start (t : Topic) : tm := mkTm t [] ∅ [] ∅ ∅.

Inductive tlabel :=
| TPublish (publisher : NodeID) (value : list byte) (now : Z) (order : list Z)
| TCall (i : nat)
| TWatch
| TCancel (id : Z).

Definition tstep (m : tm) (l : tlabel) : option tm :=
  match l with
  | TPublish publisher value now order =>
    match Topic_Publish (tm_topic m) publisher value now with
    | Err _ => Some m
    | Ok (event, t) =>
      Some (mkTm t (tm_flight m ++ [(event, order)]) (tm_seen m) (tm_history m ++ [event]) (tm_joined m) (tm_left m))
    end
  | TCall i =>
    match tm_flight m !! i with
    | None => None
    | Some (event, []) =>
      Some (mkTm (tm_topic m) (take i (tm_flight m) ++ drop (S i) (tm_flight m)) (tm_seen m) (tm_history m) (tm_joined m) (tm_left m))
    | Some (event, w :: ws) =>
      Some (mkTm (tm_topic m) (take i (tm_flight m) ++ (event, ws) :: drop (S i) (tm_flight m))
              (<[w := default [] (tm_seen m !! w) ++ [event]]> (tm_seen m)) (tm_history m) (tm_joined m) (tm_left m))
    end
  | TWatch =>
    match Topic_Watch (tm_topic m) with
    | Err _ => Some m
    | Ok (id, t) =>
      Some (mkTm t (tm_flight m) (<[id := []]> (tm_seen m)) (tm_history m) (<[id := length (tm_history m)]> (tm_joined m)) (tm_left m))
    end
  | TCancel id =>
    Some (mkTm (Topic_cancel (tm_topic m) id) (tm_flight m) (tm_seen m) (tm_history m) (tm_joined m)
            (match tm_left m !! id with Some _ => tm_left m | None => <[id := length (tm_history m)]> (tm_left m) end))
  end.

(** Observers are called in some order of their map; only an observer that joined is
    cancelled; in a serial run a publication returns before the next one starts. *)
Definition tlabel_ok (serial : bool) (m : tm) (l : tlabel) : Prop :=
  match l with
  | TPublish _ _ _ order => order ≡ₚ elements (t_watchers (tm_topic m)) ∧ (serial = true → tm_flight m = [])
  | TCancel id => is_Some (tm_joined m !! id)
  | _ => True
  end.

Definition new_topic (t : Topic) : Prop :=
  t_sequence t = 0 ∧ t_publishers t = ∅ ∧ t_nextWatch t = 0 ∧ t_watchers t = ∅ ∧ 0 < MaxEventsPerSecond (t_config t).

Inductive tm_reachable (serial : bool) (t0 : Topic) : nat → tm → Prop :=
| tr_start : new_topic t0 → tm_reachable serial t0 0 (tm_start t0)
| tr_step n m l m' : tm_reachable serial t0 n m → tlabel_ok serial m l → tstep m l = Some m' → tm_reachable serial t0 (S n) m'.

Lemma NewTopic_new d c t : NewTopic d c = Ok t → new_topic t.
Proof.
  unfold NewTopic. intros H. destruct (normalizeDescriptor d) as [d'|]; [|done]. simpl in H. guards H.
  destruct (TopicConfig_normalized c d') as [c'|] eqn:E; simpl in H; simplify_eq. unfold TopicConfig_normalized in E. guards E.
  simplify_eq. split_and!; try done. simpl. unfold positive_or. destruct (Z.leb_spec (MaxEventsPerSecond c) 0); lia.
Qed.

Definition addressed (w : Z) (n : TopicEvent * list Z) : list TopicEvent := if bool_decide (w ∈ n.2) then [n.1] else [].
(** What an observer has been and will be called with. *)
Definition heard (m : tm) (w : Z) : list TopicEvent := default [] (tm_seen m !! w) ++ (tm_flight m ≫= addressed w).
(** What was published between joining and leaving. *)
Definition due (m : tm) (w : Z) (k : nat) : list TopicEvent := drop k (take (default (length (tm_history m)) (tm_left m !! w)) (tm_history m)).

Record tm_ok (serial : bool) (n : nat) (m : tm) : Prop := mkTmOk {
  to_sequence : t_sequence (tm_topic m) = Z.of_nat (length (tm_history m)) ∧ Z.of_nat (length (tm_history m)) ≤ maxUint64 ∧
    te_Sequence <$> tm_history m = seqZ 1 (Z.of_nat (length (tm_history m)));
  to_serial : serial = true → (length (tm_flight m) ≤ 1)%nat;
  to_next : 0 ≤ t_nextWatch (tm_topic m) ≤ Z.of_nat n;
  to_ids : ∀ w, is_Some (tm_joined m !! w) → w ≤ t_nextWatch (tm_topic m);
  to_watchers : ∀ w, w ∈ t_watchers (tm_topic m) → is_Some (tm_joined m !! w) ∧ tm_left m !! w = None;
  to_joined : ∀ w, is_Some (tm_joined m !! w) → tm_left m !! w = None → w ∈ t_watchers (tm_topic m);
  to_left : ∀ w l, tm_left m !! w = Some l → is_Some (tm_joined m !! w) ∧ (l ≤ length (tm_history m))%nat;
  to_flight : ∀ e ws w, (e, ws) ∈ tm_flight m → w ∈ ws → is_Some (tm_joined m !! w);
  to_nodup : Forall (λ x, NoDup x.2) (tm_flight m);
  to_heard : ∀ w k, tm_joined m !! w = Some k →
    (k ≤ length (tm_history m))%nat ∧ heard m w ≡ₚ due m w k ∧ (serial = true → heard m w = due m w k)
}.

Lemma tm_start_ok serial t0 : new_topic t0 → tm_ok serial 0 (tm_start t0).
Proof.
  intros (H1 & H2 & H3 & H4 & _). split; simpl; try done.
  - lia.
  - rewrite H3. lia.
  - intros w [? H]. by rewrite lookup_empty in H.
  - intros w. rewrite H4. set_solver.
  - intros w [? H]. by rewrite lookup_empty in H.
  - intros e ws w H. by apply not_elem_of_nil in H.
Qed.

Lemma tm_ok_mono serial n n' m : tm_ok serial n m → (n ≤ n')%nat → tm_ok serial n' m.
Proof. intros [] Hn. split; try done. lia. Qed.

Lemma Topic_Publish_spec t publisher value now e t' :
  0 ≤ t_sequence t ≤ maxUint64 → Topic_Publish t publisher value now = Ok (e, t') →
  te_Sequence e = t_sequence t + 1 ∧ t_sequence t' = t_sequence t + 1 ∧ t_sequence t < maxUint64 ∧
  t_watchers t' = t_watchers t ∧ t_nextWatch t' = t_nextWatch t ∧ t_config t' = t_config t.
Proof.
  intros Hs. unfold Topic_Publish. intros H. guards H. simplify_eq. bool_prop. simpl.
  rewrite u64_small by (unfold is_u64; lia). split_and!; try done. lia.
Qed.

Lemma tm_publish_ok serial n m publisher value now order e t :
  tm_ok serial n m → tlabel_ok serial m (TPublish publisher value now order) →
  Topic_Publish (tm_topic m) publisher value now = Ok (e, t) →
  tm_ok serial n (mkTm t (tm_flight m ++ [(e, order)]) (tm_seen m) (tm_history m ++ [e]) (tm_joined m) (tm_left m)).
Proof.
  intros [K1 K2 K3 K4 K5 K6 K7 K8 K9 K10] [Ho Hser] H. destruct K1 as (Q1 & Q2 & Q3).
  apply Topic_Publish_spec in H as (P1 & P2 & P3 & P4 & P5 & _); [|lia]. split; simpl; rewrite ?P4, ?P5; try done.
  - rewrite length_app, P2, Nat2Z.inj_add. simpl. split_and!; [lia|lia|].
    rewrite fmap_app, Q3, seqZ_app by lia. cbn [fmap list_fmap]. rewrite P1, Q1. f_equal.
    unfold seqZ. simpl. f_equal. lia.
  - intros Hs. by rewrite (Hser Hs).
  - intros w l Hl. apply K7 in Hl as [? ?]. rewrite length_app. split; [done|lia].
  - intros e' ws w Hin Hw. apply elem_of_app in Hin as [Hin|Hin]; [by eapply K8|].
    apply list_elem_of_singleton in Hin as [= -> ->]. rewrite Ho, elem_of_elements in Hw. by apply K5.
  - apply Forall_app. split; [done|]. constructor; [|constructor]. simpl. rewrite Ho. apply NoDup_elements.
  - intros w k Hk. destruct (K10 w k Hk) as (L1 & L2 & L3). split; [rewrite length_app; lia|].
    assert (heard (mkTm t (tm_flight m ++ [(e, order)]) (tm_seen m) (tm_history m ++ [e]) (tm_joined m) (tm_left m)) w
            = heard m w ++ addressed w (e, order)) as ->.
    { unfold heard. simpl. rewrite bind_app. simpl. by rewrite app_nil_r, app_assoc. }
    assert (due (mkTm t (tm_flight m ++ [(e, order)]) (tm_seen m) (tm_history m ++ [e]) (tm_joined m) (tm_left m)) w k
            = due m w k ++ addressed w (e, order)) as ->.
    { unfold due, addressed. simpl. destruct (tm_left m !! w) as [l|] eqn:El; simpl.
      - destruct (K7 w l El) as [_ Hl]. rewrite take_app_le by done. rewrite bool_decide_eq_false_2; [by rewrite app_nil_r|].
        rewrite Ho, elem_of_elements. intros Hw. apply K5 in Hw as [_ Hw]. congruence.
      - rewrite bool_decide_eq_true_2 by (rewrite Ho, elem_of_elements; eauto).
        by rewrite !firstn_all, drop_app_le. }
    split; [by rewrite L2|]. intros Hs. by rewrite (L3 Hs).
Qed.

Lemma tm_watch_ok serial n m id t :
  tm_ok serial n m → Z.of_nat n < maxUint64 → Topic_Watch (tm_topic m) = Ok (id, t) →
  tm_ok serial (S n) (mkTm t (tm_flight m) (<[id := []]> (tm_seen m)) (tm_history m) (<[id := length (tm_history m)]> (tm_joined m)) (tm_left m)).
Proof.
  intros [K1 K2 K3 K4 K5 K6 K7 K8 K9 K10] Hn H. unfold Topic_Watch in H. guards H. simplify_eq.
  rewrite u64_small by (unfold is_u64; lia). set (id := t_nextWatch (tm_topic m) + 1).
  assert (tm_joined m !! id = None) as Hnone by (apply eq_None_not_Some; intros Hs; apply K4 in Hs; lia).
  assert (tm_left m !! id = None) as Hl by (apply eq_None_not_Some; intros [l Hs]; apply K7 in Hs as [[? Hs] _]; congruence).
  assert (tm_flight m ≫= addressed id = []) as Hf.
  { assert (∀ e ws, (e, ws) ∈ tm_flight m → id ∉ ws) as Hx by (intros e ws Hin Hw; eapply K8 in Hin as [? Hin]; [|done]; congruence).
    clear -Hx. induction (tm_flight m) as [|[e ws] l IH]; [done|]. simpl. unfold addressed at 1. simpl.
    rewrite bool_decide_eq_false_2 by (eapply Hx; left). apply IH. intros e' ws' Hin. eapply Hx. by right. }
  split; simpl; try done.
  - lia.
  - intros w. rewrite lookup_insert_is_Some'. intros [<-|Hs]; [done|]. apply K4 in Hs. lia.
  - intros w Hw. rewrite lookup_insert_is_Some'. apply elem_of_union in Hw as [->%elem_of_singleton|Hw]; [by split; [left|]|].
    apply K5 in Hw as [? ?]. by split; [right|].
  - intros w Hw Hlw. rewrite lookup_insert_is_Some' in Hw. destruct Hw as [<-|Hw]; [set_solver|]. specialize (K6 w Hw Hlw). set_solver.
  - intros w l Hw. apply K7 in Hw as [? ?]. rewrite lookup_insert_is_Some'. eauto.
  - intros e ws w Hin Hw. rewrite lookup_insert_is_Some'. right. by eapply K8.
  - intros w k. rewrite lookup_insert_Some. intros [[<- <-]|[Hne Hk]].
    + assert (heard (mkTm (mkTopic (t_descriptor (tm_topic m)) (t_config (tm_topic m)) (t_sequence (tm_topic m)) (t_publishers (tm_topic m)) id ({[id]} ∪ t_watchers (tm_topic m)))
        (tm_flight m) (<[id := []]> (tm_seen m)) (tm_history m) (<[id := length (tm_history m)]> (tm_joined m)) (tm_left m)) id = []) as ->.
      { unfold heard. simpl. by rewrite lookup_insert_eq, Hf. }
      unfold due. simpl. rewrite Hl. simpl. rewrite firstn_all, drop_all. split; [lia|done].
    + destruct (K10 w k Hk) as (L1 & L2 & L3). unfold heard, due in *. simpl. by rewrite lookup_insert_ne.
Qed.

Lemma tm_cancel_ok serial n m id :
  tm_ok serial n m → is_Some (tm_joined m !! id) →
  tm_ok serial n (mkTm (Topic_cancel (tm_topic m) id) (tm_flight m) (tm_seen m) (tm_history m) (tm_joined m)
            (match tm_left m !! id with Some _ => tm_left m | None => <[id := length (tm_history m)]> (tm_left m) end)).
Proof.
  intros [K1 K2 K3 K4 K5 K6 K7 K8 K9 K10] Hid. split; simpl; try done.
  - intros w Hw. apply elem_of_difference in Hw as [Hw Hne]. apply K5 in Hw as [? Hl]. split; [done|].
    destruct (tm_left m !! id); [done|]. rewrite lookup_insert_ne; [done|set_solver].
  - intros w Hw Hl. destruct (tm_left m !! id) as [l|] eqn:El.
    + specialize (K6 w Hw Hl). apply elem_of_difference. split; [done|]. intros ->%elem_of_singleton. congruence.
    + apply lookup_insert_None in Hl as [Hl Hne]. specialize (K6 w Hw Hl). set_solver.
  - intros w l. destruct (tm_left m !! id) as [l'|] eqn:El; [by apply K7|]. rewrite lookup_insert_Some.
    intros [[<- <-]|[_ Hl]]; [by split|by apply K7].
  - intros w k Hk. destruct (K10 w k Hk) as (L1 & L2 & L3). split; [done|].
    assert (due (mkTm (Topic_cancel (tm_topic m) id) (tm_flight m) (tm_seen m) (tm_history m) (tm_joined m)
            (match tm_left m !! id with Some _ => tm_left m | None => <[id := length (tm_history m)]> (tm_left m) end)) w k = due m w k) as ->; [|done].
    unfold due. simpl. destruct (tm_left m !! id) as [l|] eqn:El; [done|].
    destruct (decide (id = w)) as [<-|Hne]; [by rewrite lookup_insert_eq, El|by rewrite lookup_insert_ne].
Qed.

Lemma addressed_notin w e ws : w ∉ ws → addressed w (e, ws) = [].
Proof. intros H. unfold addressed. simpl. by rewrite bool_decide_eq_false_2. Qed.
Lemma addressed_in w e ws : w ∈ ws → addressed w (e, ws) = [e].
Proof. intros H. unfold addressed. simpl. by rewrite bool_decide_eq_true_2. Qed.
Lemma addressed_cons_ne w w' e ws : w ≠ w' → addressed w (e, w' :: ws) = addressed w (e, ws).
Proof. intros H. unfold addressed. simpl. rewrite (bool_decide_ext _ (w ∈ ws)); [done|]. rewrite elem_of_cons. naive_solver. Qed.

Lemma tm_call_ok serial n m i m' : tm_ok serial n m → tstep m (TCall i) = Some m' → tm_ok serial n m'.
Proof.
  intros [K1 K2 K3 K4 K5 K6 K7 K8 K9 K10] H. simpl in H.
  destruct (tm_flight m !! i) as [[e ws0]|] eqn:Ei; [|done].
  pose proof (take_drop_middle _ _ _ Ei) as Hf. set (l1 := take i (tm_flight m)) in *. set (l2 := drop (S i) (tm_flight m)) in *.
  clearbody l1 l2. rewrite <- Hf in K2, K8, K9. setoid_rewrite elem_of_app in K8.
  assert (∀ w, heard m w = default [] (tm_seen m !! w) ++ (l1 ≫= addressed w) ++ addressed w (e, ws0) ++ (l2 ≫= addressed w)) as Hh
    by (intros w; unfold heard; rewrite <- Hf, bind_app; done).
  assert (serial = true → l1 = [] ∧ l2 = []) as Hser.
  { intros Hs. specialize (K2 Hs). rewrite length_app in K2. simpl in K2. destruct l1, l2; simpl in K2; auto; lia. }
  apply Forall_app in K9 as [N1 N2]. apply Forall_cons in N2 as [N2 N3]. simpl in N2.
  destruct ws0 as [|w0 ws]; simplify_eq; split; simpl; try done.
  - intros Hs. by destruct (Hser Hs) as [-> ->]; simpl; lia.
  - intros e' ws' w Hin Hw. apply (K8 e' ws' w); [|done]. rewrite elem_of_cons. apply elem_of_app in Hin. tauto.
  - by apply Forall_app.
  - intros w k Hk. destruct (K10 w k Hk) as (L1 & L2 & L3). split; [done|]. fold (due m w k) in *. rewrite Hh in L2, L3.
    unfold heard, due in *. simpl in *. rewrite bind_app. done.
  - intros Hs. by destruct (Hser Hs) as [-> ->]; simpl; lia.
  - intros e' ws' w Hin Hw. apply elem_of_app in Hin as [Hin|Hin]; [by eapply K8; [left|]|].
    apply elem_of_cons in Hin as [[= -> ->]|Hin]; [eapply K8; [right; left|by right]|eapply K8; [right; right|]; done].
  - apply NoDup_cons in N2 as [_ N2]. apply Forall_app. split; [done|]. by constructor.
  - intros w k Hk. destruct (K10 w k Hk) as (L1 & L2 & L3). split; [done|]. rewrite Hh in L2, L3.
    unfold heard, due in *. simpl in *. rewrite bind_app. simpl. apply NoDup_cons in N2 as [Hw0 _].
    destruct (decide (w = w0)) as [->|Hne].
    + rewrite lookup_insert_eq. simpl. rewrite addressed_in in L2, L3 by left. rewrite addressed_notin by done. simpl.
      split; [by rewrite <- L2; solve_Permutation|]. intros Hs. rewrite <- (L3 Hs). destruct (Hser Hs) as [-> ->]. simpl. by rewrite !app_nil_r.
    + rewrite lookup_insert_ne by done. rewrite addressed_cons_ne in L2, L3 by done. done.
Qed.

Lemma tstep_ok serial n m l m' :
  tm_ok serial n m → Z.of_nat n < maxUint64 → tlabel_ok serial m l → tstep m l = Some m' → tm_ok serial (S n) m'.
Proof.
  intros H Hn Hl Hs. destruct l as [publisher value now order|i| |id].
  - simpl in Hs. destruct (Topic_Publish _ publisher value now) as [[e t]|] eqn:E; simplify_eq; apply (tm_ok_mono _ n); try lia; [|done].
    by eapply tm_publish_ok.
  - eapply tm_ok_mono; [by eapply tm_call_ok|lia].
  - simpl in Hs. destruct (Topic_Watch (tm_topic m)) as [[id t]|] eqn:E; simplify_eq; [by eapply tm_watch_ok|].
    eapply tm_ok_mono; [done|lia].
  - simpl in Hs. simplify_eq. eapply tm_ok_mono; [by apply tm_cancel_ok|lia].
Qed.

Lemma tm_reachable_ok serial t0 n m : tm_reachable serial t0 n m → Z.of_nat n ≤ maxUint64 → tm_ok serial n m.
Proof.
  induction 1 as [Hf|n m l m' Hr IH Hl Hs]; intros Hn; [by apply tm_start_ok|].
  eapply tstep_ok; [apply IH; lia|lia|done|done].
Qed.

(** Exact fan-out of a topic: published events are numbered 1, 2, 3, and so on; every
    observer is called once with each event published between its joining and its leaving and
    with no other, however publications overlap; and when publications do not overlap it is
    called in the order of publication. *)
Theorem topic_fanout serial t0 n m w k :
  tm_reachable serial t0 n m → Z.of_nat n ≤ maxUint64 → tm_joined m !! w = Some k →
  te_Sequence <$> tm_history m = seqZ 1 (Z.of_nat (length (tm_history m))) ∧
  heard m w ≡ₚ due m w k ∧ (serial = true → heard m w = due m w k).
Proof.
  intros Hr Hn Hk. pose proof (tm_reachable_ok serial t0 n m Hr Hn) as H.
  destruct (to_sequence _ _ _ H) as (_ & _ & Hs). destruct (to_heard _ _ _ H w k Hk) as (_ & H1 & H2). done.
Qed.

(** ** The rate limit *)

Definition count (f : TopicEvent → bool) (h : list TopicEvent) : Z := Z.of_nat (length (List.filter f h)).

Lemma count_app f h h' : count f (h ++ h') = count f h + count f h'.
Proof. unfold count. rewrite List.filter_app, length_app. lia. Qed.
Lemma count_one f e : count f [e] = if f e then 1 else 0.
Proof. unfold count. simpl. by destruct (f e). Qed.
Lemma count_mono f g h : (∀ e, e ∈ h → f e = true → g e = true) → count f h ≤ count g h.
Proof.
  unfold count. induction h as [|e h IH]; intros H; [done|]. simpl.
  assert (Z.of_nat (length (List.filter f h)) ≤ Z.of_nat (length (List.filter g h))) by (apply IH; intros; apply H; [by right|done]).
  pose proof (H e ltac:(left)) as He. destruct (f e); [rewrite He by done; simpl; lia|]. destruct (g e); simpl; lia.
Qed.
Lemma count_none f h : (∀ e, e ∈ h → f e = false) → count f h = 0.
Proof.
  intros H. enough (count f h ≤ count (λ _, false) h).
  { unfold count in *. assert (List.filter (λ _ : TopicEvent, false) h = []) as E by (clear; by induction h). rewrite E in *. simpl in *. lia. }
  apply count_mono. intros e He. by rewrite H.
Qed.
Lemma count_split f g h : count f h = count (λ e, f e && g e) h + count (λ e, f e && negb (g e)) h.
Proof. unfold count. induction h as [|e h IH]; [done|]. simpl. destruct (f e), (g e); simpl; lia. Qed.

Definition by_publisher (p : NodeID) (lo hi : Z) (e : TopicEvent) : bool :=
  (te_Publisher e =? p) && (lo <=? te_PublishedAt e) && (te_PublishedAt e <? hi).

(** What the state of a publisher says about what it published: [hi] is past all times. *)
Definition rate_ok (max : Z) (s : publisherState) (p : NodeID) (h : list TopicEvent) : Prop :=
  match ps_windowStart s with
  | None => ∀ e, e ∈ h → te_Publisher e ≠ p
  | Some start =>
    0 ≤ ps_windowCount s ≤ max ∧
    (∀ e, e ∈ h → te_Publisher e = p → te_PublishedAt e < start + second) ∧
    count (by_publisher p start (start + second)) h = ps_windowCount s ∧
    count (by_publisher p (start - second + 1) start) h ≤ max ∧
    (∀ a, count (by_publisher p a (a + second)) h ≤ 2 * max)
  end.

(** Restarting the window keeps the bounds. *)
Lemma window_ok max s p h now :
  0 < max → rate_ok max s p h → rate_ok max (window s now) p h ∧
  ∃ start, ps_windowStart (window s now) = Some start ∧ now < start + second ∧ (ps_windowStart s = Some start ∨ start = now).
Proof.
  intros Hmax H. unfold window. destruct (ps_windowStart s) as [start|] eqn:Es.
  - destruct (Z.leb_spec second (now - start)) as [Hl|Hl].
    2:{ split; [done|]. exists start. split_and!; [done|lia|by left]. }
    unfold rate_ok in H. rewrite Es in H. destruct H as (H1 & H2 & H3 & H4 & H5). split.
    + unfold rate_ok. cbn. assert (0 < second) by done. split_and!; try lia; try done.
      * intros e He Hp. specialize (H2 e He Hp). lia.
      * apply count_none. intros e He. unfold by_publisher. destruct (Z.eqb_spec (te_Publisher e) p) as [Hp|]; [|done].
        specialize (H2 e He Hp). destruct (Z.leb_spec now (te_PublishedAt e)); [lia|done].
      * etrans; [|apply H1]. rewrite <- H3. apply count_mono. intros e He. unfold by_publisher. intros Hx. bool_prop.
        specialize (H2 e He ltac:(done)). repeat (apply andb_true_intro; split); (apply Z.eqb_eq || apply Z.leb_le || apply Z.ltb_lt); lia.
    + exists now. split_and!; [done|unfold second; lia|by right].
  - unfold rate_ok in *. rewrite Es in H. cbn. split; [|exists now; split_and!; [done|unfold second; lia|by right]].
    assert (∀ lo hi, count (by_publisher p lo hi) h = 0) as Hz.
    { intros lo hi. apply count_none. intros e He. unfold by_publisher. specialize (H e He).
      destruct (Z.eqb_spec (te_Publisher e) p); [done|done]. }
    split_and!; try lia; rewrite ?Hz; try lia.
    + intros e He Hp. by destruct (H e He).
    + intros a. rewrite Hz. lia.
Qed.

(** Adding an event of the publisher to its window. *)
Lemma rate_publish max s p h start now e seq :
  rate_ok max s p h → ps_windowStart s = Some start → start ≤ now < start + second → ps_windowCount s < max →
  te_Publisher e = p → te_PublishedAt e = now →
  rate_ok max (mkPublisherState seq (Some start) (ps_windowCount s + 1)) p (h ++ [e]).
Proof.
  intros H Es Hnow Hc Hp He. unfold rate_ok in *. rewrite Es in H. cbn. destruct H as (H1 & H2 & H3 & H4 & H5).
  assert (∀ x, x ∈ h ++ [e] → te_Publisher x = p → te_PublishedAt x < start + second) as H2'.
  { intros x [Hx| ->%list_elem_of_singleton]%elem_of_app Hxp; [by apply H2|lia]. }
  assert (∀ lo hi, by_publisher p lo hi e = (lo <=? now) && (now <? hi)) as Hb
    by (intros; unfold by_publisher; rewrite Hp, He, Z.eqb_refl; done).
  assert (count (by_publisher p start (start + second)) (h ++ [e]) = ps_windowCount s + 1) as H3'.
  { rewrite count_app, count_one, H3, Hb. destruct (Z.leb_spec start now), (Z.ltb_spec now (start + second)); simpl; lia. }
  assert (count (by_publisher p (start - second + 1) start) (h ++ [e]) ≤ max) as H4'.
  { rewrite count_app, count_one, Hb. destruct (Z.ltb_spec now start); [lia|]. rewrite andb_false_r. lia. }
  split_and!; [lia|lia|done|done|done|].
  intros a. destruct ((a <=? now) && (now <? a + second)) eqn:Ea.
  2:{ rewrite count_app, count_one, Hb, Ea. specialize (H5 a). lia. }
  bool_prop. rewrite (count_split _ (λ x, start <=? te_PublishedAt x)).
  assert (count (λ x, by_publisher p a (a + second) x && (start <=? te_PublishedAt x)) (h ++ [e]) ≤ max).
  { etrans; [apply (count_mono _ (by_publisher p start (start + second)))|lia]. intros x Hx Hf. unfold by_publisher in *. bool_prop.
    specialize (H2' x Hx ltac:(done)). repeat (apply andb_true_intro; split); (apply Z.eqb_eq || apply Z.leb_le || apply Z.ltb_lt); lia. }
  assert (count (λ x, by_publisher p a (a + second) x && negb (start <=? te_PublishedAt x)) (h ++ [e]) ≤ max); [|lia].
  etrans; [apply (count_mono _ (by_publisher p (start - second + 1) start))|done]. intros x Hx Hf. unfold by_publisher in *. bool_prop.
  repeat (apply andb_true_intro; split); (apply Z.eqb_eq || apply Z.leb_le || apply Z.ltb_lt); lia.
Qed.

Lemma rate_other max s p h e : te_Publisher e ≠ p → rate_ok max s p h → rate_ok max s p (h ++ [e]).
Proof.
  intros Hne H. assert (∀ lo hi, count (by_publisher p lo hi) (h ++ [e]) = count (by_publisher p lo hi) h) as Hc.
  { intros lo hi. rewrite count_app, count_one. unfold by_publisher at 2. destruct (Z.eqb_spec (te_Publisher e) p); [done|]. simpl. lia. }
  unfold rate_ok in *. destruct (ps_windowStart s) as [start|].
  - destruct H as (H1 & H2 & H3 & H4 & H5). rewrite !Hc. split_and!; try done; try lia.
    + intros x [Hx| ->%list_elem_of_singleton]%elem_of_app Hxp; [by apply H2|done].
    + intros a. by rewrite Hc.
  - intros x [Hx| ->%list_elem_of_singleton]%elem_of_app; [by apply H|done].
Qed.

Definition rate_inv (t : Topic) (h : list TopicEvent) : Prop :=
  ∀ p, rate_ok (MaxEventsPerSecond (t_config t)) (default zeroPublisher (t_publishers t !! p)) p h ∧
    ∀ s start, t_publishers t !! p = Some s → ps_windowStart s = Some start → ∃ e, e ∈ h ∧ te_PublishedAt e = start.

Lemma Topic_Publish_rate t h publisher value now e t' :
  0 < MaxEventsPerSecond (t_config t) → rate_inv t h → (∀ x, x ∈ h → te_PublishedAt x ≤ now) →
  Topic_Publish t publisher value now = Ok (e, t') → te_PublishedAt e = now ∧ rate_inv t' (h ++ [e]).
Proof.
  intros Hmax Hinv Hmono H. unfold Topic_Publish in H. guards H. simplify_eq. bool_prop. split; [done|].
  set (s := default zeroPublisher (t_publishers t !! publisher)) in *.
  destruct (window_ok _ s publisher h now Hmax) as (Hw & start & Hs & Hlt & Hor); [apply Hinv|].
  assert (start ≤ now) as Hle.
  { destruct Hor as [Ho| ->]; [|lia]. unfold s in Ho. destruct (t_publishers t !! publisher) as [s'|] eqn:El; [|done].
    destruct (Hinv publisher) as [_ Hi]. destruct (Hi s' start El Ho) as (x & Hx & <-). by apply Hmono. }
  intros p. cbn [t_config t_publishers]. destruct (decide (publisher = p)) as [<-|Hne].
  - rewrite lookup_insert_eq. simpl. split.
    + rewrite Hs. eapply rate_publish; try done.
    + intros s' start' [= <-]. simpl. rewrite Hs. intros [= <-]. destruct Hor as [Ho| ->].
      * unfold s in Ho. destruct (t_publishers t !! publisher) as [s'|] eqn:El; [|done].
        destruct (Hinv publisher) as [_ Hi]. destruct (Hi s' start El Ho) as (x & Hx & Hxs). exists x. split; [apply elem_of_app; by left|done].
      * eexists. split; [apply elem_of_app; right; by left|done].
  - rewrite lookup_insert_ne by done. destruct (Hinv p) as [Hp Hi]. split; [by apply rate_other|].
    intros s' start' Hl Hst. destruct (Hi s' start' Hl Hst) as (x & Hx & Hxs). exists x. split; [apply elem_of_app; by left|done].
Qed.

Lemma tm_reachable_rate serial t0 n m :
  tm_reachable serial t0 n m → StronglySorted Z.le (te_PublishedAt <$> tm_history m) →
  t_config (tm_topic m) = t_config t0 ∧ 0 < MaxEventsPerSecond (t_config t0) ∧ rate_inv (tm_topic m) (tm_history m).
Proof.
  induction 1 as [Hf|n m l m' Hr IH Hl Hs]; intros Hsort.
  - destruct Hf as (H1 & H2 & H3 & H4 & H5). simpl. split_and!; [done|done|]. intros p. rewrite H2, lookup_empty. split; [|done].
    intros e He. by apply not_elem_of_nil in He.
  - destruct l as [publisher value now order|i| |id]; simpl in Hs.
    + destruct (Topic_Publish _ publisher value now) as [[e t]|] eqn:E; simplify_eq; [|by apply IH]. simpl in *.
      rewrite fmap_app in Hsort. apply StronglySorted_app in Hsort as (Hx & Hsort & _).
      destruct (IH Hsort) as (I1 & I2 & I3). rewrite <- I1 in I2. pose proof E as E'.
      assert (te_PublishedAt e = now ∧ t_config t = t_config (tm_topic m)) as [Hat Hcfg]
        by (clear -E'; unfold Topic_Publish in E'; guards E'; by simplify_eq).
      eapply Topic_Publish_rate in E as [_ E]; [|done|exact I3|].
      * rewrite Hcfg. by rewrite I1 in *.
      * intros x Hin. rewrite <- Hat. apply Hx; [by apply list_elem_of_fmap_2|left].
    + destruct (tm_flight m !! i) as [[e [|w ws]]|]; simplify_eq; by apply IH.
    + destruct (Topic_Watch (tm_topic m)) as [[id t]|] eqn:E; simplify_eq; [|by apply IH].
      unfold Topic_Watch in E. guards E. simplify_eq. by apply IH.
    + simplify_eq. by apply IH.
Qed.

(** Rate limit: on a clock that does not go back, no publisher has more than twice
    [MaxEventsPerSecond] events accepted in any one-second interval, wherever the interval
    starts and whatever the other publishers do. *)
Theorem topic_rate serial t0 n m p a :
  tm_reachable serial t0 n m → StronglySorted Z.le (te_PublishedAt <$> tm_history m) →
  count (by_publisher p a (a + second)) (tm_history m) ≤ 2 * MaxEventsPerSecond (t_config t0).
Proof.
  intros Hr Hs. destruct (tm_reachable_rate serial t0 n m Hr Hs) as (H1 & H2 & H3). destruct (H3 p) as [H4 _]. rewrite H1 in H4.
  unfold rate_ok in H4. destruct (ps_windowStart _) as [start|]; [by destruct H4 as (_ & _ & _ & _ & H5)|].
  rewrite count_none; [lia|]. intros e He. unfold by_publisher. specialize (H4 e He). by destruct (Z.eqb_spec (te_Publisher e) p).
Qed.

(** ** Witnesses *)

(** Two nodes publish to a topic with one observer; the second and third publication overlap. *)
Module Topic_demo.
Definition board : result stream_error Topic :=
  NewTopic (TopicDescriptor (mkResourceID 1 "board") "" "board.v1" "board.publish" "board.subscribe" 64) (mkTopicConfig 4 4 2).
Definition t0 : Topic := match board with Ok t => t | Err _ => mkTopic (VariableDescriptor zeroResourceID "" 0) (mkTopicConfig 0 0 0) 0 ∅ 0 ∅ end.
Definition labels : list tlabel :=
  [TWatch; TPublish 2 [x31] 10 [1]; TCall 0; TCall 0; TPublish 2 [x32] 20 [1]; TPublish 2 [x33] 21 [1]; TPublish 3 [x33] 30 [1];
   TCall 1; TCall 0].
Definition tlabel_okb (serial : bool) (m : tm) (l : tlabel) : bool :=
  match l with
  | TPublish _ _ _ order => bool_decide (order ≡ₚ elements (t_watchers (tm_topic m))) && (negb serial || bool_decide (length (tm_flight m) = 0%nat))
  | TCancel id => bool_decide (is_Some (tm_joined m !! id))
  | _ => true
  end.
Fixpoint trun (serial : bool) (m : tm) (ls : list tlabel) : option tm :=
  match ls with
  | [] => Some m
  | l :: rest => if tlabel_okb serial m l then tstep m l ≫= λ m', trun serial m' rest else None
  end.
Definition m0 : tm := default (tm_start t0) (trun false (tm_start t0) labels).

Lemma trun_reachable serial n m ls m' :
  tm_reachable serial t0 n m → trun serial m ls = Some m' → tm_reachable serial t0 (n + length ls) m'.
Proof.
  revert n m. induction ls as [|l ls IH]; intros n m Hr H; simpl in H; [simplify_eq; by rewrite Nat.add_0_r|].
  destruct (tlabel_okb serial m l) eqn:El; [|done]. destruct (tstep m l) as [m1|] eqn:E; [|done].
  change (length (l :: ls)) with (S (length ls)). rewrite <- Nat.add_succ_comm. eapply IH; [|done]. eapply tr_step; [done| |done].
  unfold tlabel_okb in El. destruct l as [? ? ? order|?| |?]; simpl; try done; [|by bool_prop].
  apply andb_prop in El as [E1 E2]. split; [by bool_prop|]. intros ->. simpl in E2.
  apply bool_decide_eq_true in E2. by apply nil_length_inv.
Qed.
Lemma t0_new : new_topic t0.
Proof.
  assert (is_ok board = true) as H by (vm_compute; reflexivity). unfold t0.
  destruct board as [t|] eqn:E; [|discriminate H]. exact (NewTopic_new _ _ _ E).
Qed.
Lemma m0_reached : tm_reachable false t0 9 m0.
Proof.
  assert (is_Some (trun false (tm_start t0) labels)) as [m H] by (vm_compute; eexists; reflexivity).
  unfold m0. rewrite H. exact (trun_reachable false 0 _ labels m (tr_start _ _ t0_new) H).
Qed.
End Topic_demo.

Lemma topic_fanout_witness :
  let m := Topic_demo.m0 in te_Sequence <$> heard m 1 = [1; 3; 2] ∧ heard m 1 ≡ₚ tm_history m.
Proof.
  split; [vm_compute; reflexivity|].
  exact (proj1 (proj2 (topic_fanout false Topic_demo.t0 9 _ 1 0 Topic_demo.m0_reached ltac:(vm_compute; discriminate) ltac:(vm_compute; reflexivity)))).
Defined.

(** The third publication of node 2 within the second is refused. *)
Lemma topic_rate_witness :
  let m := Topic_demo.m0 in
  te_Publisher <$> tm_history m = [2; 2; 3] ∧ count (by_publisher 2 5 (5 + second)) (tm_history m) ≤ 4.
Proof.
  split; [vm_compute; reflexivity|].
  exact (topic_rate false Topic_demo.t0 9 Topic_demo.m0 2 5 Topic_demo.m0_reached ltac:(vm_compute; repeat constructor; discriminate)).
Defined.
