(* ===== verification/FileTransfer.v ===== *)
(** * Uploads (feature/file/file.go)

    A controller receives files in chunks: an offer opens a temporary file, chunks are
    appended to it, completion checks the whole file against the checksum of the offer and
    renames it to its destination.

    The file system is a tree of names, where a path is the list of its segments, and a table
    of file contents; an open file is the number of its content.  A system call fails where the
    argument [faults] says so.  Names below the storage root are only changed by the
    controller.  A transfer is a pointer in the code: here the table holds the record, and
    operations take its identifier.  Clock readings (nanoseconds) and the order in which Go
    visits the table are arguments.  The published list of transfers is a field; whether the
    variable takes it, and the conversion of its JSON text to the variable's representation,
    are arguments. *)

From S2P Require Import Prelude GoStd GoSort GoEncoding GoJSON GoFloat GoStruct Wire PolicySchema FileSchema Payload EnrollmentWire Identity Admission Catalog VariableModel Streams Codec.
Open Scope Z_scope.

(** ** The file system *)

Abbreviation path := (list string) (only parsing).
Inductive entry := EDir | ESymlink | EFile (inode : nat).
#[global] Instance entry_eq_dec : EqDecision entry.
Proof. solve_decision. Defined.
Record filesystem := mkFS { fs_tree : gmap (list string) entry; fs_data : gmap nat (list byte); fs_next : nat }.

(** Which system calls succeed.  [f_write]: a failing write leaves so many bytes.
    [f_text]: the text of the errors.  [f_set]: whether the variable takes the new list. *)
Record faults := mkFaults {
  f_lstat : list string → bool; f_mkdir : list string → bool; f_remove : list string → bool; f_open : bool; f_write : option nat;
  f_read : bool; f_sync : bool; f_seek : bool; f_copy : bool; f_close : bool; f_rename : bool; f_text : string; f_set : bool; f_chmod : list string → bool
}.
Definition no_faults : faults := mkFaults (λ _, true) (λ _, true) (λ _, true) true None true true true true true true "" true (λ _, true).

Inductive os_error := OSNotExist | OSFailed.
Definition Lstat (f : faults) (fs : filesystem) (p : list string) : result os_error entry :=
  fail_if negb (f_lstat f p) with OSFailed ;;
  match fs_tree fs !! p with Some e => Ok e | None => Err OSNotExist end.
Definition parent_exists (fs : filesystem) (p : list string) : bool := bool_decide (fs_tree fs !! removelast p = Some EDir).
Definition Mkdir (f : faults) (fs : filesystem) (p : list string) : option filesystem :=
  if negb (f_mkdir f p) || negb (parent_exists fs p) || bool_decide (is_Some (fs_tree fs !! p)) then None
  else Some (mkFS (<[p := EDir]> (fs_tree fs)) (fs_data fs) (fs_next fs)).
(** [OpenFile] with [O_CREATE|O_EXCL|O_RDWR]. *)
Definition OpenExclusive (f : faults) (fs : filesystem) (p : list string) : option (nat * filesystem) :=
  if negb (f_open f) || negb (parent_exists fs p) || bool_decide (is_Some (fs_tree fs !! p)) then None
  else Some (fs_next fs, mkFS (<[p := EFile (fs_next fs)]> (fs_tree fs)) (<[fs_next fs := []]> (fs_data fs)) (S (fs_next fs))).
(** A directory is removed only when it is empty. *)
Definition is_child (p q : list string) : bool := bool_decide (removelast q = p) && bool_decide (q ≠ p).
Definition removable (fs : filesystem) (p : list string) : bool :=
  match fs_tree fs !! p with
  | Some EDir => forallb (λ q, negb (is_child p q)) (map_to_list (fs_tree fs)).*1
  | Some _ => true
  | None => false
  end.
Definition Remove (f : faults) (fs : filesystem) (p : list string) : filesystem :=
  if f_remove f p && removable fs p then mkFS (delete p (fs_tree fs)) (fs_data fs) (fs_next fs) else fs.
(** [Rename] replaces a file at the target. *)
Definition Rename (f : faults) (fs : filesystem) (p q : list string) : option filesystem :=
  match fs_tree fs !! p with
  | None => None
  | Some e =>
    if negb (f_rename f) || negb (parent_exists fs q) || bool_decide (fs_tree fs !! q = Some EDir) then None
    else Some (mkFS (<[q := e]> (delete p (fs_tree fs))) (fs_data fs) (fs_next fs))
  end.

Definition content (fs : filesystem) (inode : nat) : list byte := default [] (fs_data fs !! inode).
(** Bytes between the end of the file and the offset are zero. *)
Definition write_at (old data : list byte) (offset : nat) : list byte :=
  take offset old ++ replicate (offset - length old) x00 ++ data ++ drop (offset + length data) old.
Definition set_content (fs : filesystem) (inode : nat) (data : list byte) : filesystem := mkFS (fs_tree fs) (<[inode := data]> (fs_data fs)) (fs_next fs).
Definition WriteAt (f : faults) (fs : filesystem) (inode : nat) (data : list byte) (offset : Z) : bool * filesystem :=
  match f_write f with
  | None => (true, set_content fs inode (write_at (content fs inode) data (Z.to_nat offset)))
  | Some n => (false, set_content fs inode (write_at (content fs inode) (take n data) (Z.to_nat offset)))
  end.
(** [None] also when the file is shorter. *)
Definition ReadAt (f : faults) (fs : filesystem) (inode : nat) (n : nat) (offset : Z) : option (list byte) :=
  let data := take n (drop (Z.to_nat offset) (content fs inode)) in
  if f_read f && (length data =? n)%nat then Some data else None.

(** ** Paths *)

(** [filepath.Join] of an absolute path and one segment. *)
Definition Join (p : list string) (segment : string) : list string :=
  if String.eqb segment "" || String.eqb segment "." then p
  else if String.eqb segment ".." then removelast p
  else p ++ [segment].
(** [filepath.Rel] of two absolute paths. *)
Fixpoint Rel (base target : list string) : list string :=
  match base, target with
  | b :: base', t :: target' => if String.eqb b t then Rel base' target' else replicate (length base) ".." ++ target
  | _, _ => replicate (length base) ".." ++ target
  end.
(** [relative == "."], and a relative path that starts with [..]. *)
Definition escapes (relative : list string) : bool := match relative with [] => true | segment :: _ => String.eqb segment ".." end.

(** ** State *)

Inductive transfer_state := Offered | Receiving | Completed | Cancelled | Failed.
#[global] Instance transfer_state_eq_dec : EqDecision transfer_state.
Proof. solve_decision. Defined.
Definition state_text (s : transfer_state) : string :=
  match s with Offered => "offered" | Receiving => "receiving" | Completed => "completed" | Cancelled => "cancelled" | Failed => "failed" end.

Record transfer := mkTransfer {
  t_offer : FileOfferV1; t_owner : NodeID; t_tempPath : list string; t_finalPath : list string; t_file : option nat;
  t_received : Z; t_state : transfer_state; t_err : string
}.
Definition active (t : transfer) : bool := match t_state t with Offered | Receiving => true | _ => false end.

Record Config := mkConfig {
  g_Root : list string; g_MaxFileBytes : Z; g_MaxTotalBytes : Z; g_MaxActive : Z; g_MaxHistory : Z; g_MaxLifetime : Z; g_SweepInterval : Z
}.
Record Controller := mkController {
  c_root : list string; c_tempRoot : list string; c_maxFileBytes : Z; c_maxTotalBytes : Z; c_maxActive : Z; c_maxHistory : Z; c_maxLifetime : Z;
  c_transfers : gmap string transfer; c_activeBytes : Z; c_revision : Z; c_summaries : FileTransfersV1; c_progress : Stream; c_fs : filesystem
}.

Inductive transfer_error :=
| TRequest (e : file_error) | TLimits | TExists | TActiveLimit | TDestination | TCreate | TChecksum | TNotFound | TTerminal | TChunkSize
| TOverlap | TConflict | TGap (expected : Z) | TWrite | TMismatch | TSystem | TFileChecksum | TDestinationExists | TActivate | TNotCancellable
| TPayload (e : payload_error) | TProgress (e : stream_error) | TRevision | TSummaries | TSubject (e : wire_error) | TClosed | TUnsupported
| TConfig | TRegister.

Section controller.
Context `{Crypto} (convert : list byte → option (list byte)).

Definition set_table (c : Controller) (m : gmap string transfer) (bytes : Z) : Controller :=
  mkController (c_root c) (c_tempRoot c) (c_maxFileBytes c) (c_maxTotalBytes c) (c_maxActive c) (c_maxHistory c) (c_maxLifetime c)
    m bytes (c_revision c) (c_summaries c) (c_progress c) (c_fs c).
Definition set_fs (c : Controller) (fs : filesystem) : Controller :=
  mkController (c_root c) (c_tempRoot c) (c_maxFileBytes c) (c_maxTotalBytes c) (c_maxActive c) (c_maxHistory c) (c_maxLifetime c)
    (c_transfers c) (c_activeBytes c) (c_revision c) (c_summaries c) (c_progress c) fs.
Definition set_progress (c : Controller) (s : Stream) : Controller :=
  mkController (c_root c) (c_tempRoot c) (c_maxFileBytes c) (c_maxTotalBytes c) (c_maxActive c) (c_maxHistory c) (c_maxLifetime c)
    (c_transfers c) (c_activeBytes c) (c_revision c) (c_summaries c) s (c_fs c).
Definition set_summaries (c : Controller) (revision : Z) (s : FileTransfersV1) : Controller :=
  mkController (c_root c) (c_tempRoot c) (c_maxFileBytes c) (c_maxTotalBytes c) (c_maxActive c) (c_maxHistory c) (c_maxLifetime c)
    (c_transfers c) (c_activeBytes c) revision s (c_progress c) (c_fs c).
(** A change of the fields behind the pointer. *)
Definition set_transfer (c : Controller) (id : string) (t : transfer) : Controller := set_table c (<[id := t]> (c_transfers c)) (c_activeBytes c).

(** ** Publishing *)

Definition progressPayloadLocked (t : transfer) : result transfer_error (list byte) :=
  mapErr TPayload (EncodeJSONPayload
    (mkProgress 1 (fo_TransferID (t_offer t)) (t_received t) (fo_Size (t_offer t)) (state_text (t_state t)) (t_err t)) DefaultMaxPayload).

Definition summary_of (id : string) (t : transfer) : FileTransferSummaryV1 :=
  mkSummary id (FormatUint (t_owner t)) (fo_Path (t_offer t)) (t_received t) (fo_Size (t_offer t)) (state_text (t_state t))
    (fo_ExpiresAtUnixMS (t_offer t)) (t_err t).
(** [json.Marshal] of the list. *)
Definition summary_any (s : FileTransferSummaryV1) : any :=
  AObject (member "transfer_id" (AString (fs_TransferID s)) ++ member "owner_node_id" (AString (fs_OwnerNodeID s)) ++ member "path" (AString (fs_Path s)) ++
    member "received_bytes" (int_any (fs_ReceivedBytes s)) ++ member "total_bytes" (int_any (fs_TotalBytes s)) ++ member "state" (AString (fs_State s)) ++
    member "expires_at_unix_ms" (int_any (fs_ExpiresAtUnixMS s)) ++ text_field "error" (fs_Error s)).
Definition transfers_json (t : FileTransfersV1) : list byte :=
  byte_of <$> print (AObject (member "version" (int_any (ft_Version t)) ++ member "revision" (int_any (ft_Revision t)) ++
    member "transfers" (AArray (summary_any <$> ft_Transfers t)))).
(** [EncodeVariablePayload] succeeds: valid, not too large, and representable ([convert]). *)
Definition encodable (t : FileTransfersV1) : bool :=
  is_ok (Transfers_Validate t) && is_ok (validatePayloadSize (blen (transfers_json t)) DefaultMaxPayload) &&
  match convert (transfers_json t) with Some data => is_ok (validatePayloadSize (blen data) DefaultMaxPayload) | None => false end.
Definition summaries (m : gmap string transfer) : list FileTransferSummaryV1 :=
  omap (λ id, summary_of id <$> m !! id) (SortStrings (map_to_list m).*1).
Definition updateSummariesLocked (f : faults) (c : Controller) : result transfer_error unit * Controller :=
  if c_revision c =? maxUint64 then (Err TRevision, c) else
  let revision := u64 (c_revision c + 1) in
  let list := mkTransfers 1 revision (summaries (c_transfers c)) in
  if negb (encodable list && f_set f) then (Err TSummaries, c) else (Ok tt, set_summaries c revision list).

(** [progress.Publish] *)
Definition publish_progress (c : Controller) (payload : list byte) : result transfer_error unit * Controller :=
  match Stream_Publish (c_progress c) payload with
  | Err e => (Err (TProgress e), c)
  | Ok (_, s) => (Ok tt, set_progress c s)
  end.
Definition publishLocked (f : faults) (c : Controller) (t : transfer) : result transfer_error unit * Controller :=
  match progressPayloadLocked t with
  | Err e => (Err e, c)
  | Ok payload => match publish_progress c payload with (Err e, c) => (Err e, c) | (Ok _, c) => updateSummariesLocked f c end
  end.
(** [if err := publishLocked(current); err != nil { return nil, err }; return progressPayloadLocked(current)] *)
Definition publish_result (f : faults) (c : Controller) (t : transfer) : result transfer_error (list byte) * Controller :=
  match publishLocked f c t with (Err e, c) => (Err e, c) | (Ok _, c) => (progressPayloadLocked t, c) end.

(** ** Ends of transfers *)

Definition finish (t : transfer) (state : transfer_state) (err : string) : transfer :=
  mkTransfer (t_offer t) (t_owner t) (t_tempPath t) (t_finalPath t) None (t_received t) state err.
Definition failLocked (f : faults) (c : Controller) (id : string) (t : transfer) (failure : string) : Controller :=
  let bytes := if active t then c_activeBytes c - fo_Size (t_offer t) else c_activeBytes c in
  let c := set_fs (set_table c (c_transfers c) bytes) (Remove f (c_fs c) (t_tempPath t)) in
  let t := finish t Failed failure in
  (publishLocked f (set_transfer c id t) t).2.

(** One iteration of the loop, and whether it changed something. *)
Definition expire_one (f : faults) (now : Z) (s : Controller * bool) (id : string) : Controller * bool :=
  let '(c, changed) := s in
  match c_transfers c !! id with
  | Some t =>
    if active t && (fo_ExpiresAtUnixMS (t_offer t) <=? UnixMilli now) then
      let c := set_fs (set_table c (c_transfers c) (c_activeBytes c - fo_Size (t_offer t))) (Remove f (c_fs c) (t_tempPath t)) in
      let t := finish t Failed "transfer expired" in
      let c := set_transfer c id t in
      (match progressPayloadLocked t with Ok payload => (publish_progress c payload).2 | Err _ => (publish_progress c []).2 end, true)
    else s
  | None => s
  end.
Definition expireLocked (f : faults) (c : Controller) (now : Z) (order : list string) : Controller :=
  let '(c, changed) := fold_left (expire_one f now) order (c, false) in
  if changed then (updateSummariesLocked f c).2 else c.
Definition Sweep (f : faults) (c : Controller) (now : Z) (order : list string) : Controller := expireLocked f c now order.

Definition activeCountLocked (m : gmap string transfer) : Z := Z.of_nat (size (filter (λ kt, active kt.2 = true) m)).
Fixpoint trim_loop (maxHistory : Z) (ids : list string) (m : gmap string transfer) : gmap string transfer :=
  match ids with
  | [] => m
  | id :: ids => if maxHistory <? Z.of_nat (size m) then trim_loop maxHistory ids (delete id m) else m
  end.
Definition trimLocked (c : Controller) : Controller :=
  if Z.of_nat (size (c_transfers c)) <=? c_maxHistory c then c else
  set_table c (trim_loop (c_maxHistory c) (SortStrings (map_to_list (filter (λ kt, active kt.2 = false) (c_transfers c))).*1) (c_transfers c)) (c_activeBytes c).

(** ** Where a file goes *)

(** The loop over all segments but the last; directories made before a failure stay. *)
Fixpoint make_directories (f : faults) (fs : filesystem) (current : list string) (segments : list string) : result transfer_error (list string) * filesystem :=
  match segments with
  | [] => (Ok current, fs)
  | segment :: segments =>
    let current := Join current segment in
    let '(info, fs) :=
      match Lstat f fs current with
      | Err OSNotExist => match Mkdir f fs current with None => (Err OSFailed, fs) | Some fs => (Lstat f fs current, fs) end
      | info => (info, fs)
      end in
    match info with Ok EDir => make_directories f fs current segments | _ => (Err TDestination, fs) end
  end.
Definition safeDestination (f : faults) (fs : filesystem) (root : list string) (slashPath : string) : result transfer_error (list string) * filesystem :=
  let segments := Split slashPath slash in
  match make_directories f fs root (removelast segments) with
  | (Err e, fs) => (Err e, fs)
  | (Ok current, fs) =>
    let destination := Join current (List.last segments "") in
    if escapes (Rel root destination) then (Err TDestination, fs) else
    match Lstat f fs destination with
    | Ok ESymlink | Err OSFailed => (Err TDestination, fs)
    | _ => (Ok destination, fs)
    end
  end.

(** ** Operations *)

Definition offerFor (f : faults) (c : Controller) (owner : NodeID) (request : FileOfferV1) (now : Z) (order : list string)
    : result transfer_error (list byte) * Controller :=
  match Offer_Validate request with Err e => (Err (TRequest e), c) | Ok _ =>
  if (c_maxFileBytes c <? fo_Size request) || (fo_ExpiresAtUnixMS request <=? UnixMilli now)
     || (UnixMilli (now + c_maxLifetime c) <? fo_ExpiresAtUnixMS request) then (Err TLimits, c) else
  let c := expireLocked f c now order in
  let id := fo_TransferID request in
  match c_transfers c !! id with
  | Some t => if (t_owner t =? owner) && bool_decide (t_offer t = request) then (progressPayloadLocked t, c) else (Err TExists, c)
  | None =>
    if (c_maxActive c <=? activeCountLocked (c_transfers c)) || (c_maxTotalBytes c - c_activeBytes c <? fo_Size request) then (Err TActiveLimit, c) else
    match safeDestination f (c_fs c) (c_root c) (fo_Path request) with
    | (Err e, fs) => (Err e, set_fs c fs)
    | (Ok finalPath, fs) =>
      let tempPath := Join (c_tempRoot c) (id +:+ ".part") in
      match OpenExclusive f fs tempPath with
      | None => (Err TCreate, set_fs c fs)
      | Some (file, fs) =>
        let t := mkTransfer request owner tempPath finalPath (Some file) 0 Offered "" in
        let c := trimLocked (set_table (set_fs c fs) (<[id := t]> (c_transfers c)) (c_activeBytes c + fo_Size request)) in
        match publishLocked f c t with
        | (Err e, c) => (Err e, set_fs (set_table c (delete id (c_transfers c)) (c_activeBytes c - fo_Size request)) (Remove f (c_fs c) tempPath))
        | (Ok _, c) => (progressPayloadLocked t, c)
        end
      end
    end
  end
  end.

Definition activeOwnedLocked (c : Controller) (id : string) (owner : NodeID) : result transfer_error transfer :=
  match c_transfers c !! id with
  | None => Err TNotFound
  | Some t => fail_if negb (t_owner t =? owner) with TNotFound ;; fail_if negb (active t) with TTerminal ;; Ok t
  end.

(** The sum of the offset and the length is a 64-bit integer; the open file is there as long
    as the transfer is active. *)
Definition i64 (x : Z) : Z := (x + 2 ^ 63) `mod` 2 ^ 64 - 2 ^ 63.
Definition chunkFor (f : faults) (c : Controller) (owner : NodeID) (request : FileChunkV1) (now : Z) (order : list string)
    : result transfer_error (list byte) * Controller :=
  match Chunk_Validate request with Err e => (Err (TRequest e), c) | Ok _ =>
  if negb (String.eqb (EncodeToString (Sum256 (fk_Data request))) (fk_SHA256 request)) then (Err TChecksum, c) else
  let c := expireLocked f c now order in
  let id := fk_TransferID request in
  match activeOwnedLocked c id owner with Err e => (Err e, c) | Ok t =>
  let inode := default 0%nat (t_file t) in
  let last := i64 (fk_Offset request + blen (fk_Data request)) in
  if (fo_ChunkSize (t_offer t) <? blen (fk_Data request)) || (fo_Size (t_offer t) <? last) then (Err TChunkSize, c) else
  if fk_Offset request <? t_received t then
    if t_received t <? last then (Err TOverlap, c) else
    match ReadAt f (c_fs c) inode (length (fk_Data request)) (fk_Offset request) with
    | Some existing => if bool_decide (existing = fk_Data request) then (progressPayloadLocked t, c) else (Err TConflict, c)
    | None => (Err TConflict, c)
    end
  else if negb (fk_Offset request =? t_received t) then (Err (TGap (t_received t)), c) else
  let '(written, fs) := WriteAt f (c_fs c) inode (fk_Data request) (fk_Offset request) in
  let c := set_fs c fs in
  if negb written then (Err TWrite, failLocked f c id t (f_text f)) else
  let t := mkTransfer (t_offer t) (t_owner t) (t_tempPath t) (t_finalPath t) (t_file t) (t_received t + blen (fk_Data request)) Receiving (t_err t) in
  publish_result f (set_transfer c id t) t
  end end.

Definition completeFor (f : faults) (c : Controller) (owner : NodeID) (request : FileCompleteV1) (now : Z) (order : list string)
    : result transfer_error (list byte) * Controller :=
  match Complete_Validate request with Err e => (Err (TRequest e), c) | Ok _ =>
  let c := expireLocked f c now order in
  let id := fc_TransferID request in
  match activeOwnedLocked c id owner with Err e => (Err e, c) | Ok t =>
  let offer := t_offer t in
  if negb (fc_Size request =? fo_Size offer) || negb (String.eqb (fc_SHA256 request) (fo_SHA256 offer)) || negb (t_received t =? fo_Size offer)
  then (Err TMismatch, c) else
  let stop e text := (Err e, failLocked f c id t text) in
  if negb (f_sync f) then stop TSystem (f_text f) else
  if negb (f_seek f) then stop TSystem (f_text f) else
  if negb (f_copy f) then stop TSystem (f_text f) else
  let copied := take (Z.to_nat (fo_Size offer + 1)) (content (c_fs c) (default 0%nat (t_file t))) in
  if negb (String.eqb (EncodeToString (Sum256 copied)) (fo_SHA256 offer)) then stop TFileChecksum "completed file checksum mismatch" else
  if negb (f_close f) then stop TSystem (f_text f) else
  match Lstat f (c_fs c) (t_finalPath t) with
  | Ok _ => stop TDestinationExists "destination already exists"
  | Err OSFailed => stop TSystem (f_text f)
  | Err OSNotExist =>
    match Rename f (c_fs c) (t_tempPath t) (t_finalPath t) with
    | None => stop TActivate (f_text f)
    | Some fs =>
      let t := finish t Completed (t_err t) in
      let c := set_table (set_fs c fs) (<[id := t]> (c_transfers c)) (c_activeBytes c - fo_Size offer) in
      publish_result f c t
    end
  end
  end end.

Definition cancelFor (f : faults) (c : Controller) (owner : NodeID) (request : FileCancelV1) : result transfer_error (list byte) * Controller :=
  match Cancel_Validate request with Err e => (Err (TRequest e), c) | Ok _ =>
  let id := fx_TransferID request in
  match c_transfers c !! id with
  | None => (Err TNotFound, c)
  | Some t =>
    if negb (t_owner t =? owner) then (Err TNotFound, c) else
    match t_state t with
    | Cancelled => (progressPayloadLocked t, c)
    | Completed | Failed => (Err TNotCancellable, c)
    | Offered | Receiving =>
      let c := set_fs c (Remove f (c_fs c) (t_tempPath t)) in
      let t := finish t Cancelled (fx_Reason request) in
      publish_result f (set_table c (<[id := t]> (c_transfers c)) (c_activeBytes c - fo_Size (t_offer t))) t
    end
  end end.

(** [reason]: the text of the error, if there is one. *)
Definition abortFor (f : faults) (c : Controller) (owner : NodeID) (id : string) (reason : option string) : Controller :=
  match c_transfers c !! id with
  | None => c
  | Some t =>
    if negb (t_owner t =? owner) || negb (active t) then c
    else failLocked f c id t (default "upload session aborted" reason)
  end.

(** [Close]: what it leaves on the disk.  [order]: the order of the loop. *)
Definition close_one (f : faults) (c : Controller) (id : string) : Controller :=
  match c_transfers c !! id with
  | None => c
  | Some t =>
    let fs := if active t then Remove f (c_fs c) (t_tempPath t) else c_fs c in
    set_fs (set_transfer c id (mkTransfer (t_offer t) (t_owner t) (t_tempPath t) (t_finalPath t) None (t_received t) (t_state t) (t_err t))) fs
  end.
Definition Close (f : faults) (c : Controller) (order : list string) : Controller := fold_left (close_one f) order c.
End controller.

(** ** Start *)

Definition Minute : Z := 60 * Second.
Definition Config_normalized (g : Config) : option Config :=
  let or x d := if x <=? 0 then d else x in
  let g := mkConfig (g_Root g) (or (g_MaxFileBytes g) (2 ^ 30)) (or (g_MaxTotalBytes g) (4 * 2 ^ 30)) (or (g_MaxActive g) 64) (or (g_MaxHistory g) 256)
             (or (g_MaxLifetime g) (24 * Hour)) (or (g_SweepInterval g) Minute) in
  if (g_MaxTotalBytes g <? g_MaxFileBytes g) || (g_MaxActive g <? 1) || (g_MaxHistory g <? g_MaxActive g) || (MaxItems <? g_MaxHistory g)
     || (g_MaxLifetime g <? Second) || (g_SweepInterval g <? 10 * Millisecond) then None else Some g.

(** The directories above the storage root are taken to be real ones.
    [MkdirAll]: all missing directories on the way, nothing under what is not a directory. *)
Fixpoint mkdir_all (f : faults) (fs : filesystem) (current segments : list string) : option filesystem :=
  match segments with
  | [] => Some fs
  | segment :: segments =>
    let current := current ++ [segment] in
    match fs_tree fs !! current with
    | Some EDir => mkdir_all f fs current segments
    | Some _ => None
    | None => fs ← Mkdir f fs current; mkdir_all f fs current segments
    end
  end.
Definition ensureDirectory (f : faults) (fs : filesystem) (p : list string) : option filesystem :=
  fs ← mkdir_all f fs [] p;
  match Lstat f fs p with Ok EDir => if f_chmod f p then Some fs else None | _ => None end.

Definition ReadDir (fs : filesystem) (p : list string) : list string :=
  SortStrings (omap (λ q, if is_child p q then last q else None) (map_to_list (fs_tree fs)).*1).
Definition HasSuffix (s suffix : string) : bool :=
  let l := bytes_of s in bool_decide (drop (length l - length (bytes_of suffix)) l = bytes_of suffix).
Definition TrimSuffix (s suffix : string) : string :=
  if HasSuffix s suffix then String.string_of_list_byte (take (length (bytes_of s) - length (bytes_of suffix)) (bytes_of s)) else s.
Definition stale (name : string) : bool :=
  (strlen name =? 37) && HasSuffix name ".part" &&
  let id := TrimSuffix name ".part" in
  match DecodeString id with Some decoded => (blen decoded =? 16) && String.eqb id (ToLower id) | None => false end.
(** [None]: a file could not be removed. *)
Fixpoint cleanup_loop (f : faults) (fs : filesystem) (root : list string) (names : list string) : option filesystem :=
  match names with
  | [] => Some fs
  | name :: names =>
    if negb (stale name) then cleanup_loop f fs root names else
    let p := Join root name in
    if f_remove f p && removable fs p then cleanup_loop f (Remove f fs p) root names else None
  end.
Definition cleanupTemp (f : faults) (fs : filesystem) (root : list string) : option filesystem :=
  if f_read f then cleanup_loop f fs root (ReadDir fs root) else None.

(** [Register]; whether the registry takes the resources is [registered]. *)
Definition Register (f : faults) (fs : filesystem) (g : Config) (node : NodeID) (registered : bool) : result transfer_error Controller :=
  match Config_normalized g with None => Err TConfig | Some g =>
  let root := g_Root g in
  match ensureDirectory f fs root with None => Err TSystem | Some fs =>
  let tempRoot := Join root ".mfh-tmp" in
  match ensureDirectory f fs tempRoot with None => Err TSystem | Some fs =>
  match cleanupTemp f fs tempRoot with None => Err TSystem | Some fs =>
  progress ← mapErr TProgress (NewStream (StreamDescriptor (mkResourceID node "file/progress") "application/json" SchemaFileProgressV1 "file.read" DefaultMaxPayload));
  fail_if negb registered with TRegister ;;
  Ok (mkController root tempRoot (g_MaxFileBytes g) (g_MaxTotalBytes g) (g_MaxActive g) (g_MaxHistory g) (g_MaxLifetime g)
        ∅ 0 1 (mkTransfers 1 1 []) progress fs)
  end end end end.

(** ** Upload sessions (feature/file/resource.go) *)

Section session.
Context `{Crypto} (convert : list byte → option (list byte)).

Record uploadSession := mkUploadSession { us_owner : NodeID; us_offer : FileOfferV1; us_closed : bool }.
(** [resource.SessionGrant] and [resource.SessionData]. *)
Record SessionGrant := mkGrantOf { gr_Capability : CapabilityID; gr_MaxChunkBytes : Z; gr_MaxTotalBytes : Z; gr_ExpiresAtUnixMS : Z }.
Record SessionData := mkData { da_Offset : Z; da_Payload : list byte; da_Checksum : string }.
Record OperationResult := mkOpResult { or_Schema : string; or_Payload : list byte }.

Definition OpenSession (f : faults) (c : Controller) (subject : NodeID) (capability : CapabilityID) (payload : list byte) (now : Z) (order : list string)
    : result transfer_error uploadSession * Controller :=
  if negb (String.eqb capability CapabilityOpen) then (Err TUnsupported, c) else
  match NodeID_Validate subject with Err e => (Err (TSubject e), c) | Ok _ =>
  match DecodeJSONPayload payload DefaultMaxPayload with Err e => (Err (TPayload e), c) | Ok offer =>
  match offerFor convert f c subject offer now order with (Err e, c) => (Err e, c) | (Ok _, c) => (Ok (mkUploadSession subject offer false), c) end
  end end.

Definition Grant (s : uploadSession) : SessionGrant :=
  mkGrantOf CapabilityOpen (fo_ChunkSize (us_offer s)) (fo_Size (us_offer s)) (fo_ExpiresAtUnixMS (us_offer s)).

Definition progress_result (r : result transfer_error (list byte) * Controller) : result transfer_error OperationResult * Controller :=
  match r with (Ok payload, c) => (Ok (mkOpResult SchemaFileProgressV1 payload), c) | (Err e, c) => (Err e, c) end.
Definition Session_Write (f : faults) (c : Controller) (s : uploadSession) (data : SessionData) (now : Z) (order : list string)
    : result transfer_error OperationResult * Controller :=
  if us_closed s then (Err TClosed, c) else
  progress_result (chunkFor convert f c (us_owner s)
    (mkChunk 1 (fo_TransferID (us_offer s)) (da_Offset data) (da_Payload data) (da_Checksum data)) now order).

Definition closed (s : uploadSession) : uploadSession := mkUploadSession (us_owner s) (us_offer s) true.
Definition Session_Close (f : faults) (c : Controller) (s : uploadSession) (commit : bool) (payload : list byte) (now : Z) (order : list string)
    : result transfer_error OperationResult * Controller * uploadSession :=
  if us_closed s then (Err TClosed, c, s) else
  let offer := us_offer s in
  let answer :=
    if commit then completeFor convert f c (us_owner s) (mkComplete 1 (fo_TransferID offer) (fo_Size offer) (fo_SHA256 offer)) now order
    else cancelFor convert f c (us_owner s)
           (mkCancel 1 (fo_TransferID offer) (match payload with [] => "upload session closed without commit" | _ => String.string_of_list_byte payload end)) in
  (progress_result answer, closed s).
Definition Session_Abort (f : faults) (c : Controller) (s : uploadSession) (reason : option string) : Controller * uploadSession :=
  if us_closed s then (c, s) else (abortFor convert f c (us_owner s) (fo_TransferID (us_offer s)) reason, closed s).
End session.
