(* ===== verification/FileTransferTheory.v ===== *)
(** * What uploads guarantee

    The invariant of the upload controller, kept by every operation whatever fails: limits,
    temporary files, and completed files that match their offer; the files it does not own
    are never touched; a file that is sent in order arrives. *)

From S2P Require Import Prelude GoStd GoSort GoEncoding GoJSON GoFloat GoStruct Wire PolicySchema FileSchema Payload EnrollmentWire Identity Admission Catalog VariableModel Streams FileTransfer Codec.
Open Scope Z_scope.

(** ** Sums over the table *)

Definition msum (w : transfer → Z) (m : gmap string transfer) : Z := map_fold (λ _ t n, w t + n) 0 m.
Section msum.
Context (w : transfer → Z).
Lemma msum_new m id t : m !! id = None → msum w (<[id := t]> m) = w t + msum w m.
Proof. intros Hn. unfold msum. apply (map_fold_insert_L (λ _ t n, w t + n)); [|done]. intros; lia. Qed.
Lemma msum_delete m id t : m !! id = Some t → msum w (delete id m) = msum w m - w t.
Proof. intros Ht. rewrite <- (insert_id m id t Ht) at 2. rewrite <- insert_delete_eq, msum_new by apply lookup_delete_eq. lia. Qed.
Lemma msum_insert m id t t' : m !! id = Some t → msum w (<[id := t']> m) = msum w m - w t + w t'.
Proof. intros Ht. rewrite <- insert_delete_eq, msum_new, (msum_delete m id t) by (done || apply lookup_delete_eq). lia. Qed.
Lemma msum_nonneg m : (∀ id t, m !! id = Some t → 0 ≤ w t) → 0 ≤ msum w m.
Proof.
  induction m as [|id t m Hn IH] using map_ind; intros Hw; [done|]. rewrite msum_new by done.
  pose proof (Hw id t (lookup_insert_eq _ _ _)). assert (0 ≤ msum w m); [|lia]. apply IH. intros id' t' Ht.
  apply (Hw id'). rewrite lookup_insert_ne; [done|]. intros ->. by rewrite Hn in Ht.
Qed.
End msum.
Definition bytes_of_active (t : transfer) : Z := if active t then fo_Size (t_offer t) else 0.
Definition one_if_active (t : transfer) : Z := if active t then 1 else 0.

Lemma active_count m : activeCountLocked m = msum one_if_active m.
Proof.
  unfold activeCountLocked. induction m as [|id t m Hn IH] using map_ind; [done|]. rewrite msum_new, <- IH by done. unfold one_if_active.
  destruct (active t) eqn:E.
  - rewrite map_filter_insert_True, map_size_insert_None by (done || (apply map_lookup_filter_None; by left)). lia.
  - rewrite map_filter_insert_not' by (simpl; congruence || (intros ? ?; congruence)). lia.
Qed.

(** ** The invariant *)

(** Every file has a content, and one name. *)
Record fs_ok (fs : filesystem) : Prop := mkFsOk {
  fo_data p i : fs_tree fs !! p = Some (EFile i) → (i < fs_next fs)%nat ∧ is_Some (fs_data fs !! i);
  fo_inj p q i : fs_tree fs !! p = Some (EFile i) → fs_tree fs !! q = Some (EFile i) → p = q
}.
(** The file at a path, and an open temporary file. *)
Definition file_at (fs : filesystem) (p : list string) (data : list byte) : Prop := ∃ i, fs_tree fs !! p = Some (EFile i) ∧ fs_data fs !! i = Some data.
Definition open_at (fs : filesystem) (t : transfer) (data : list byte) : Prop :=
  ∃ i, t_file t = Some i ∧ fs_tree fs !! t_tempPath t = Some (EFile i) ∧ fs_data fs !! i = Some data.

Section theory.
Context `{Crypto} (convert : list byte → option (list byte)).

(** An active transfer has its bytes in its temporary file; the file of a completed one is at
    its destination and has the checksum of the offer. *)
Definition state_ok (fs : filesystem) (t : transfer) : Prop :=
  match t_state t with
  | Offered | Receiving => ∃ data, open_at fs t data ∧ blen data = t_received t
  | Completed =>
    t_file t = None ∧
    ∃ data, file_at fs (t_finalPath t) data ∧ blen data = fo_Size (t_offer t) ∧ EncodeToString (Sum256 data) = fo_SHA256 (t_offer t)
  | Cancelled | Failed => t_file t = None
  end.
Record transfer_ok (c : Controller) (id : string) (t : transfer) : Prop := mkTransferOk {
  to_offer : Offer_Validate (t_offer t) = Ok tt;
  to_id : fo_TransferID (t_offer t) = id;
  to_size : fo_Size (t_offer t) ≤ c_maxFileBytes c;
  to_temp : t_tempPath t = c_tempRoot c ++ [id +:+ ".part"];
  to_final : t_finalPath t = c_root c ++ Split (fo_Path (t_offer t)) slash;
  to_received : 0 ≤ t_received t ≤ fo_Size (t_offer t);
  to_state : state_ok (c_fs c) t
}.
(** [history]: how long the table may be. *)
Record ctl_inv (history : Z) (c : Controller) : Prop := mkCtlInv {
  ok_limits : 1 ≤ c_maxActive c ≤ c_maxHistory c ∧ c_maxFileBytes c ≤ 2 ^ 62;
  ok_tempRoot : c_tempRoot c = c_root c ++ [".mfh-tmp"];
  ok_dir : fs_tree (c_fs c) !! c_tempRoot c = Some EDir;
  ok_fs : fs_ok (c_fs c);
  ok_transfers id t : c_transfers c !! id = Some t → transfer_ok c id t;
  ok_apart id t id' t' : c_transfers c !! id = Some t → active t = true → c_transfers c !! id' = Some t' → t_state t' = Completed → t_tempPath t ≠ t_finalPath t';
  ok_bytes : c_activeBytes c = msum bytes_of_active (c_transfers c);
  ok_total : c_activeBytes c ≤ c_maxTotalBytes c;
  ok_active : msum one_if_active (c_transfers c) ≤ c_maxActive c;
  ok_history : Z.of_nat (size (c_transfers c)) ≤ history
}.
Definition ctl_ok (c : Controller) : Prop := ctl_inv (c_maxHistory c) c.

(** What is not a temporary file of an active transfer. *)
Definition foreign (c : Controller) (p : list string) : Prop := ∀ id t, c_transfers c !! id = Some t → active t = true → t_tempPath t ≠ p.
(** Foreign entries of the file system stay what they are. *)
Definition keeps (c c' : Controller) : Prop :=
  ∀ p e, fs_tree (c_fs c) !! p = Some e → foreign c p →
    fs_tree (c_fs c') !! p = Some e ∧ foreign c' p ∧ ∀ i, e = EFile i → fs_data (c_fs c') !! i = fs_data (c_fs c) !! i.
Definition same_config (c c' : Controller) : Prop :=
  c_root c' = c_root c ∧ c_tempRoot c' = c_tempRoot c ∧ c_maxFileBytes c' = c_maxFileBytes c ∧ c_maxTotalBytes c' = c_maxTotalBytes c ∧
  c_maxActive c' = c_maxActive c ∧ c_maxHistory c' = c_maxHistory c ∧ c_maxLifetime c' = c_maxLifetime c.
Record evolves (history : Z) (c c' : Controller) : Prop := mkEvolves { ev_config : same_config c c'; ev_inv : ctl_inv history c'; ev_keeps : keeps c c' }.

Lemma keeps_refl c : keeps c c.
Proof. by intros p e Hp Hf. Qed.
Lemma keeps_same c c' : c_transfers c' = c_transfers c → c_fs c' = c_fs c → keeps c c'.
Proof. intros Hm Hfs p e Hp Hf. unfold foreign. rewrite Hm, Hfs. done. Qed.
Lemma keeps_trans c1 c2 c3 : keeps c1 c2 → keeps c2 c3 → keeps c1 c3.
Proof.
  intros H12 H23 p e Hp Hf. destruct (H12 p e Hp Hf) as (Hp2 & Hf2 & Hd2). destruct (H23 p e Hp2 Hf2) as (Hp3 & Hf3 & Hd3).
  split_and!; [done|done|]. intros i Hi. by rewrite Hd3, Hd2.
Qed.
Lemma same_config_trans c1 c2 c3 : same_config c1 c2 → same_config c2 c3 → same_config c1 c3.
Proof. unfold same_config. intuition congruence. Qed.
Lemma evolves_trans h h' c1 c2 c3 : evolves h c1 c2 → evolves h' c2 c3 → evolves h' c1 c3.
Proof. intros [] []. split; [by eapply same_config_trans|done|by eapply keeps_trans]. Qed.
Lemma evolves_refl h c : ctl_inv h c → evolves h c c.
Proof. intros Hc. split; [done|done|apply keeps_refl]. Qed.

(** *** Publishing changes nothing that matters here *)

Definition same_core (c c' : Controller) : Prop :=
  same_config c c' ∧ c_transfers c' = c_transfers c ∧ c_activeBytes c' = c_activeBytes c ∧ c_fs c' = c_fs c.
Lemma same_core_evolves h c c' : ctl_inv h c → same_core c c' → evolves h c c'.
Proof.
  intros Hc (Hg & Hm & Hab & Hfs). split; [done| |by apply keeps_same]. destruct Hg as (Hr & Ht & Hf & Hb & Ha & Hh & Hl).
  destruct c, c'; simpl in *; subst.
  destruct Hc as [H1 H2 H3 H4 H5 H6 H7 H8 H9 H10]. simpl in *. constructor; simpl; try done. intros id t Hid. by destruct (H5 id t Hid).
Qed.
Lemma evolves_core h c c1 c2 : evolves h c c1 → same_core c1 c2 → evolves h c c2.
Proof. intros He Hs. eapply evolves_trans; [exact He|]. apply same_core_evolves; [by eapply ev_inv|done]. Qed.
Lemma same_core_refl c : same_core c c.
Proof. done. Qed.
Lemma same_core_trans c1 c2 c3 : same_core c1 c2 → same_core c2 c3 → same_core c1 c3.
Proof. unfold same_core, same_config. intuition congruence. Qed.
Lemma update_core f c : same_core c (updateSummariesLocked convert f c).2.
Proof. unfold updateSummariesLocked. cbv zeta. repeat case_match; done. Qed.
Lemma progress_core c payload : same_core c (publish_progress c payload).2.
Proof. unfold publish_progress. by destruct (Stream_Publish _ _) as [[]|]. Qed.
Lemma publish_core f c t : same_core c (publishLocked convert f c t).2.
Proof.
  unfold publishLocked. destruct (progressPayloadLocked t) as [payload|]; [|done].
  pose proof (progress_core c payload) as Hp. destruct (publish_progress c payload) as [[] c']; [|done].
  eapply same_core_trans; [exact Hp|apply update_core].
Qed.
Lemma publish_result_core f c t : same_core c (publish_result convert f c t).2.
Proof. unfold publish_result. pose proof (publish_core f c t) as Hp. by destruct (publishLocked convert f c t) as [[] c']. Qed.

(** *** Names *)

Lemma string_length_app s t : String.length (s +:+ t) = (String.length s + String.length t)%nat.
Proof. induction s as [|a s IH]; [done|]. simpl. by rewrite IH. Qed.
Lemma part_ne id id' : id +:+ ".part" = id' +:+ ".part" → id = id'.
Proof.
  revert id'. induction id as [|a id IH]; intros [|b id'] E; [done| | |].
  - apply (f_equal String.length) in E. simpl in E. rewrite string_length_app in E. simpl in E. lia.
  - apply (f_equal String.length) in E. simpl in E. rewrite string_length_app in E. simpl in E. lia.
  - simpl in E. injection E as -> E. f_equal. by apply IH.
Qed.
Lemma tempPath_inj h c id t id' t' : ctl_inv h c → c_transfers c !! id = Some t → c_transfers c !! id' = Some t' → t_tempPath t = t_tempPath t' → id = id'.
Proof.
  intros Hc Ht Ht' E. rewrite (to_temp _ _ _ (ok_transfers _ _ Hc _ _ Ht)), (to_temp _ _ _ (ok_transfers _ _ Hc _ _ Ht')) in E.
  apply app_inj_2 in E as [_ E]; [|done]. injection E as E. by apply part_ne.
Qed.
Lemma temp_ne_root h c id t : ctl_inv h c → c_transfers c !! id = Some t → t_tempPath t ≠ c_tempRoot c.
Proof.
  intros Hc Ht E. rewrite (to_temp _ _ _ (ok_transfers _ _ Hc _ _ Ht)) in E. apply (f_equal length) in E. rewrite length_app in E. simpl in E. lia.
Qed.

(** *** Removing the temporary file of a transfer *)

(** The name [p] may be gone, and its content may have changed. *)
Record removed (fs : filesystem) (p : list string) (fs' : filesystem) : Prop := mkRemoved {
  rm_data i : fs_tree fs !! p ≠ Some (EFile i) → fs_data fs' !! i = fs_data fs !! i;
  rm_some i : is_Some (fs_data fs !! i) → is_Some (fs_data fs' !! i);
  rm_next : fs_next fs' = fs_next fs;
  rm_tree q : q ≠ p → fs_tree fs' !! q = fs_tree fs !! q;
  rm_sub q e : fs_tree fs' !! q = Some e → fs_tree fs !! q = Some e
}.
Lemma removed_trans fs p fs1 fs2 : fs_tree fs1 = fs_tree fs → removed fs p fs1 → removed fs1 p fs2 → removed fs p fs2.
Proof.
  intros Et [H1 H2 H3 H4 H5] [K1 K2 K3 K4 K5]. rewrite Et in *. split.
  - intros i Hi. by rewrite K1, H1.
  - auto.
  - congruence.
  - intros q Hq. by rewrite K4.
  - auto.
Qed.
Lemma Remove_removed f fs p : removed fs p (Remove f fs p).
Proof.
  unfold Remove. destruct (_ && _); [|done]. split; try done; simpl; [intros q Hq; by apply lookup_delete_ne|].
  intros q e Hq. by apply lookup_delete_Some in Hq as [_ Hq].
Qed.
Lemma written_removed fs p i data : fs_tree fs !! p = Some (EFile i) → removed fs p (set_content fs i data).
Proof.
  intros Hp. split; try done; simpl; intros j Hj.
  - apply lookup_insert_ne. congruence.
  - destruct (decide (j = i)) as [->|]; [by rewrite lookup_insert_eq|by rewrite lookup_insert_ne].
Qed.
Lemma removed_ok fs p fs' : fs_ok fs → removed fs p fs' → fs_ok fs'.
Proof.
  intros [Hd Hi] [_ Hs En _ Hsub]. split.
  - intros q i Hq%Hsub. rewrite En. destruct (Hd q i Hq). auto.
  - intros q r i Hq%Hsub Hr%Hsub. by eapply Hi.
Qed.
(** A file with another name stays. *)
Lemma removed_same fs p fs' q i : fs_ok fs → removed fs p fs' → q ≠ p → fs_tree fs !! q = Some (EFile i) →
  fs_tree fs' !! q = Some (EFile i) ∧ fs_data fs' !! i = fs_data fs !! i.
Proof.
  intros Hok Hr Hne Hq. rewrite (rm_tree _ _ _ Hr) by done. split; [done|]. apply (rm_data _ _ _ Hr). intros Hp. apply Hne. by eapply fo_inj.
Qed.
Definition same_file (fs fs' : filesystem) (p : list string) : Prop :=
  ∀ i, fs_tree fs !! p = Some (EFile i) → fs_tree fs' !! p = Some (EFile i) ∧ fs_data fs' !! i = fs_data fs !! i.
Lemma state_ok_frame fs fs' t : state_ok fs t → (active t = true → same_file fs fs' (t_tempPath t)) →
  (t_state t = Completed → same_file fs fs' (t_finalPath t)) → state_ok fs' t.
Proof.
  unfold state_ok, active. intros Hs Ha Hc. destruct (t_state t); try done.
  1,2: destruct Hs as (data & (i & Hi & Ht & Hd) & Hl); destruct (Ha eq_refl i Ht) as [Ht' Hd']; exists data; split; [exists i|done]; by rewrite Hd'.
  destruct Hs as (Hf & data & (i & Ht & Hd) & Hl). destruct (Hc eq_refl i Ht) as [Ht' Hd']. split; [done|]. exists data. split; [exists i|done]. by rewrite Hd'.
Qed.
Lemma transfer_ok_frame c c' id t : same_config c c' → transfer_ok c id t → state_ok (c_fs c') t → transfer_ok c' id t.
Proof. intros (Hr & Ht & Hf & _) [] Hs. split; try done; congruence. Qed.
Lemma active_not_completed t : active t = true → t_state t ≠ Completed.
Proof. unfold active. by destruct (t_state t). Qed.
Lemma active_size h c id t : ctl_inv h c → c_transfers c !! id = Some t → 0 ≤ fo_Size (t_offer t).
Proof. intros Hc Ht. pose proof (to_received _ _ _ (ok_transfers _ _ Hc _ _ Ht)). lia. Qed.

(** The transfers other than one whose temporary file is removed. *)
Lemma others_ok h c id t fs' id' t' : ctl_inv h c → c_transfers c !! id = Some t → active t = true → removed (c_fs c) (t_tempPath t) fs' →
  id' ≠ id → c_transfers c !! id' = Some t' → state_ok fs' t'.
Proof.
  intros Hc Ht Ha Hr Hne Ht'. pose proof (ok_fs _ _ Hc) as Hfs. apply (state_ok_frame (c_fs c)); [by eapply to_state, ok_transfers| |].
  - intros _ i Hi. eapply removed_same; [done|done| |done]. intros E. apply Hne. by eapply tempPath_inj.
  - intros Hs i Hi. eapply removed_same; [done|done| |done]. intros E. by eapply (ok_apart _ _ Hc _ _ _ _ Ht Ha Ht' Hs).
Qed.
Lemma removed_keeps h c c' id t : ctl_inv h c → c_transfers c !! id = Some t → active t = true → removed (c_fs c) (t_tempPath t) (c_fs c') →
  (∀ id' t', c_transfers c' !! id' = Some t' → active t' = true → c_transfers c !! id' = Some t') → keeps c c'.
Proof.
  intros Hc Ht Ha Hr Hact p e Hp Hf. assert (p ≠ t_tempPath t) as Hne by (intros ->; by eapply Hf).
  split_and!; [by rewrite (rm_tree _ _ _ Hr)| |].
  - intros id' t' Ht' Ha'. eapply Hf; [by apply Hact|done].
  - intros i ->. by eapply removed_same; [by eapply ok_fs|..].
Qed.
Lemma msum_active_le h c id t : ctl_inv h c → c_transfers c !! id = Some t → 0 ≤ bytes_of_active t.
Proof. intros Hc Ht. unfold bytes_of_active. destruct (active t); [by eapply active_size|done]. Qed.

(** A transfer ends without a file, or is forgotten. *)
Definition ended (c : Controller) (id : string) (t : transfer) (o : option transfer) (fs : filesystem) : Controller :=
  set_fs (set_table c (match o with Some t' => <[id := t']> (c_transfers c) | None => delete id (c_transfers c) end) (c_activeBytes c - fo_Size (t_offer t))) fs.
Lemma ended_evolves h c id t o fs' : ctl_inv h c → c_transfers c !! id = Some t → active t = true →
  (∀ t', o = Some t' → ∃ s err, t' = finish t s err ∧ (s = Cancelled ∨ s = Failed)) →
  removed (c_fs c) (t_tempPath t) fs' → evolves h c (ended c id t o fs').
Proof.
  intros Hc Ht Ha Ho Hr.
  assert (∀ t', o = Some t' → active t' = false ∧ t_state t' ≠ Completed) as Hend.
  { intros t' E. destruct (Ho t' E) as (s & err & -> & [-> | ->]); done. }
  assert (∀ id' t', c_transfers (ended c id t o fs') !! id' = Some t' →
    (id' = id ∧ o = Some t') ∨ (id' ≠ id ∧ c_transfers c !! id' = Some t')) as Hcase.
  { intros id' t' E. unfold ended in E. simpl in E. destruct o as [t''|]; simpl in E.
    - apply lookup_insert_Some in E as [[<- <-]|[? ?]]; auto.
    - apply lookup_delete_Some in E as [? ?]; auto. }
  assert (∀ id' t', c_transfers (ended c id t o fs') !! id' = Some t' → active t' = true → c_transfers c !! id' = Some t') as Hact.
  { intros id' t' E Ha'. destruct (Hcase id' t' E) as [[-> Eo]|[_ ?]]; [|done]. destruct (Hend t' Eo). congruence. }
  assert (∀ id' t', c_transfers (ended c id t o fs') !! id' = Some t' → t_state t' = Completed → c_transfers c !! id' = Some t') as Hcomp.
  { intros id' t' E Hs. destruct (Hcase id' t' E) as [[-> Eo]|[_ ?]]; [|done]. by destruct (Hend t' Eo). }
  assert (∀ w, (∀ t', o = Some t' → w t' = 0) → msum w (c_transfers (ended c id t o fs')) = msum w (c_transfers c) - w t) as Hsum.
  { intros w Hw. simpl. destruct o as [t'|]; [|by apply msum_delete]. rewrite (msum_insert _ _ _ t) by done. rewrite (Hw t') by done. lia. }
  split; [done| |by eapply removed_keeps]. pose proof Hc as Hc'. destruct Hc' as [H1 H2 H3 H4 H5 H6 H7 H8 H9 H10]. split; try done.
  - simpl. rewrite (rm_tree _ _ _ Hr); [done|]. intros E. by eapply (temp_ne_root _ _ _ _ Hc Ht).
  - by eapply removed_ok.
  - intros id' t' E. destruct (Hcase id' t' E) as [[-> Eo]|[Hne E']].
    + destruct (Ho t' Eo) as (s & err & -> & Hs). destruct (H5 id t Ht). split; try done. unfold state_ok. simpl. by destruct Hs as [-> | ->].
    + apply (transfer_ok_frame c); [done|by apply H5|]. by apply (others_ok h c id t fs' id' t').
  - intros i1 t1 i2 t2 E1 A1 E2 S2. apply (H6 i1 t1 i2 t2); auto.
  - rewrite Hsum; [|intros t' E; unfold bytes_of_active; by rewrite (proj1 (Hend t' E))]. assert (bytes_of_active t = fo_Size (t_offer t)) as -> by (unfold bytes_of_active; by rewrite Ha). simpl. lia.
  - simpl. pose proof (active_size _ _ _ _ Hc Ht). lia.
  - rewrite Hsum; [|intros t' E; unfold one_if_active; by rewrite (proj1 (Hend t' E))]. assert (one_if_active t = 1) as -> by (unfold one_if_active; by rewrite Ha). simpl. lia.
  - simpl. etrans; [|exact H10]. destruct o as [t'|]; [by rewrite map_size_insert_Some by eauto|]. rewrite map_size_delete, Ht. lia.
Qed.

(** *** Failing, cancelling, expiring *)

Lemma fail_evolves h f c id t failure fs1 : ctl_inv h c → c_transfers c !! id = Some t → active t = true →
  fs_tree fs1 = fs_tree (c_fs c) → removed (c_fs c) (t_tempPath t) fs1 → evolves h c (failLocked convert f (set_fs c fs1) id t failure).
Proof.
  intros Hc Ht Ha Et Hr. unfold failLocked. rewrite Ha.
  assert (evolves h c (ended c id t (Some (finish t Failed failure)) (Remove f fs1 (t_tempPath t)))) as He.
  { apply ended_evolves; [done..| |]; [|by eapply removed_trans; [done|done|apply Remove_removed]]. intros t' [= <-]. eauto 6. }
  eapply evolves_core; [exact He|apply publish_core].
Qed.
Lemma fail_evolves' h f c id t failure : ctl_inv h c → c_transfers c !! id = Some t → active t = true → evolves h c (failLocked convert f c id t failure).
Proof. intros Hc Ht Ha. assert (set_fs c (c_fs c) = c) as E by (by destruct c). rewrite <- E at 2. by apply fail_evolves. Qed.

Lemma expire_one_evolves h f now c b id : ctl_inv h c → evolves h c (expire_one f now (c, b) id).1.
Proof.
  intros Hc. unfold expire_one. destruct (c_transfers c !! id) as [t|] eqn:Ht; [|by apply evolves_refl].
  destruct (active t) eqn:Ha; [|by apply evolves_refl]. simpl. destruct (_ <=? _); [|by apply evolves_refl]. cbv zeta.
  assert (evolves h c (ended c id t (Some (finish t Failed "transfer expired")) (Remove f (c_fs c) (t_tempPath t)))) as He.
  { apply ended_evolves; [done..| |]; [|apply Remove_removed]. intros t' [= <-]. eauto 6. }
  simpl. case_match; (eapply evolves_core; [exact He|apply progress_core]).
Qed.
Lemma expireLocked_evolves h f now order c : ctl_inv h c → evolves h c (expireLocked convert f c now order).
Proof.
  intros Hc. unfold expireLocked. destruct (fold_left (expire_one f now) order (c, false)) as [c' changed] eqn:E.
  assert (evolves h c c') as He.
  { revert E. generalize false. revert c Hc. induction order as [|id order IH]; intros c Hc b E; [injection E as <- _; by apply evolves_refl|].
    cbn [fold_left] in E. pose proof (expire_one_evolves h f now c b id Hc) as He. destruct (expire_one f now (c, b) id) as [c1 b1].
    eapply evolves_trans; [exact He|]. eapply IH; [by eapply ev_inv|done]. }
  destruct changed; [|done]. eapply evolves_core; [exact He|apply update_core].
Qed.

Lemma cancel_evolves h f c owner request : ctl_inv h c → evolves h c (cancelFor convert f c owner request).2.
Proof.
  intros Hc. unfold cancelFor. destruct (Cancel_Validate request); [|by apply evolves_refl]. cbv zeta.
  destruct (c_transfers c !! _) as [t|] eqn:Ht; [|by apply evolves_refl]. destruct (negb _); [by apply evolves_refl|].
  destruct (t_state t) eqn:Es; try by apply evolves_refl.
  all: assert (active t = true) as Ha by (unfold active; by rewrite Es).
  all: eapply evolves_core; [|apply publish_result_core].
  all: apply (ended_evolves h c (fx_TransferID request) t (Some (finish t Cancelled (fx_Reason request))) (Remove f (c_fs c) (t_tempPath t)) Hc Ht Ha); [|apply Remove_removed].
  all: intros t' [= <-]; eauto 6.
Qed.
Lemma abort_evolves h f c owner id reason : ctl_inv h c → evolves h c (abortFor convert f c owner id reason).
Proof.
  intros Hc. unfold abortFor. destruct (c_transfers c !! id) as [t|] eqn:Ht; [|by apply evolves_refl].
  destruct (negb (t_owner t =? owner)); [by apply evolves_refl|]. destruct (active t) eqn:Ha; [|by apply evolves_refl]. by apply fail_evolves'.
Qed.

(** *** Chunks *)

Lemma active_open h c id t : ctl_inv h c → c_transfers c !! id = Some t → active t = true →
  ∃ i data, t_file t = Some i ∧ fs_tree (c_fs c) !! t_tempPath t = Some (EFile i) ∧ fs_data (c_fs c) !! i = Some data ∧ blen data = t_received t.
Proof.
  intros Hc Ht Ha. pose proof (to_state _ _ _ (ok_transfers _ _ Hc _ _ Ht)) as Hs. unfold state_ok in Hs. unfold active in Ha.
  destruct (t_state t); try done; destruct Hs as (data & (i & ? & ? & ?) & ?); by exists i, data.
Qed.
Definition with_received (t : transfer) (received : Z) : transfer :=
  mkTransfer (t_offer t) (t_owner t) (t_tempPath t) (t_finalPath t) (t_file t) received Receiving (t_err t).
Lemma received_evolves h c id t i data : ctl_inv h c → c_transfers c !! id = Some t → active t = true → t_file t = Some i →
  fs_tree (c_fs c) !! t_tempPath t = Some (EFile i) → blen data ≤ fo_Size (t_offer t) →
  evolves h c (set_transfer (set_fs c (set_content (c_fs c) i data)) id (with_received t (blen data))).
Proof.
  intros Hc Ht Ha Hf Hp Hl. set (t' := with_received t (blen data)). pose proof (written_removed _ _ _ data Hp) as Hr.
  assert (∀ w, w t' = w t → msum w (<[id := t']> (c_transfers c)) = msum w (c_transfers c)) as Hsum.
  { intros w Hw. rewrite (msum_insert _ _ _ t) by done. lia. }
  pose proof Hc as Hc'. destruct Hc' as [H1 H2 H3 H4 H5 H6 H7 H8 H9 H10]. split; [done| |].
  - split; try done.
    + by eapply removed_ok.
    + intros id' u Hu. simpl in Hu. apply lookup_insert_Some in Hu as [[<- <-]|[Hne Hu]].
      * destruct (H5 id t Ht). split; try done; [unfold blen in *; simpl; lia|]. exists data. split; [|done]. exists i. split_and!; [done|done|]. simpl. apply lookup_insert_eq.
      * apply (transfer_ok_frame c); [done|by apply H5|]. by apply (others_ok h c id t _ id' u).
    + intros i1 t1 i2 t2 E1 A1 E2 S2. simpl in E1, E2. apply lookup_insert_Some in E2 as [[<- <-]|[_ E2]]; [done|].
      apply lookup_insert_Some in E1 as [[<- <-]|[_ E1]]; [by apply (H6 id t i2 t2)|by apply (H6 i1 t1 i2 t2)].
    + simpl. rewrite H7. symmetry. apply Hsum. unfold bytes_of_active. by rewrite Ha.
    + simpl. rewrite Hsum; [done|]. unfold one_if_active. by rewrite Ha.
    + simpl. by rewrite map_size_insert_Some by eauto.
  - intros p e Hpe Hfo. assert (p ≠ t_tempPath t) as Hne by (intros ->; by eapply Hfo). split_and!; [done| |].
    + intros id' u Hu Hau. simpl in Hu. apply lookup_insert_Some in Hu as [[<- <-]|[_ Hu]]; [by apply (Hfo id t)|by apply (Hfo id' u)].
    + intros j ->. by eapply removed_same.
Qed.
Lemma write_at_end old data : write_at old data (length old) = old ++ data.
Proof. unfold write_at. rewrite firstn_all, Nat.sub_diag. simpl. by rewrite drop_ge, app_nil_r by lia. Qed.
Lemma activeOwned_ok c id owner t : activeOwnedLocked c id owner = Ok t → c_transfers c !! id = Some t ∧ t_owner t = owner ∧ active t = true.
Proof.
  unfold activeOwnedLocked. destruct (c_transfers c !! id) as [t'|]; [|done]. intros Hg. apply fail_if_ok in Hg as [Ho Hg]. apply fail_if_ok in Hg as [Ha Hg].
  simplify_eq. apply negb_false_iff in Ho, Ha. apply Z.eqb_eq in Ho. done.
Qed.
Lemma i64_small x : - 2 ^ 63 ≤ x < 2 ^ 63 → i64 x = x.
Proof. intros Hx. unfold i64. rewrite Z.mod_small; lia. Qed.
Lemma chunk_bounds request : Chunk_Validate request = Ok tt → 0 ≤ fk_Offset request ∧ 0 < blen (fk_Data request) ≤ MaxFileChunkBytes.
Proof.
  unfold Chunk_Validate. intros Hv. apply bind_ok in Hv as [_ Hv]. apply bind_ok in Hv as [_ Hv]. apply fail_if_ok in Hv as [Hb _]. unfold blen in *. bool_prop. lia.
Qed.

Lemma chunk_evolves h f c owner request now order : ctl_inv h c → evolves h c (chunkFor convert f c owner request now order).2.
Proof.
  intros Hc. unfold chunkFor. destruct (Chunk_Validate request) as [[]|] eqn:Ev; [|by apply evolves_refl]. apply chunk_bounds in Ev as [Ho Hlen].
  destruct (negb _); [by apply evolves_refl|]. cbv zeta. pose proof (expireLocked_evolves h f now order c Hc) as He.
  set (c1 := expireLocked convert f c now order) in *. eapply evolves_trans; [exact He|]. pose proof (ev_inv _ _ _ He) as Hc1. clearbody c1. clear c Hc He. rename c1 into c, Hc1 into Hc.
  destruct (activeOwnedLocked c _ owner) as [t|] eqn:Eo; [|by apply evolves_refl]. apply activeOwned_ok in Eo as (Ht & _ & Ha).
  destruct (_ || _) eqn:Eb; [by apply evolves_refl|]. destruct (fk_Offset request <? t_received t) eqn:Eoff.
  { repeat case_match; by apply evolves_refl. }
  destruct (fk_Offset request =? t_received t) eqn:Eq; [|by apply evolves_refl]. apply Z.eqb_eq in Eq. cbn [negb].
  destruct (active_open _ _ _ _ Hc Ht Ha) as (i & data & Hf & Hp & Hd & Hl). rewrite Hf. change (default 0%nat (Some i)) with i.
  pose proof (to_received _ _ _ (ok_transfers _ _ Hc _ _ Ht)) as Hr. pose proof (to_size _ _ _ (ok_transfers _ _ Hc _ _ Ht)) as Hsz.
  pose proof (proj2 (ok_limits _ _ Hc)) as Hmax. unfold WriteAt. destruct (f_write f) as [n|]; cbn [negb].
  - apply fail_evolves; [done..|]. by apply written_removed.
  - unfold content. rewrite Hd. change (default [] (Some data)) with data. rewrite Eq, <- Hl. unfold blen at 1. rewrite Nat2Z.id, write_at_end.
    apply orb_false_iff in Eb as [_ Eb]. apply Z.ltb_ge in Eb. unfold MaxFileChunkBytes in Hlen. rewrite i64_small in Eb by lia.
    assert (blen data + blen (fk_Data request) = blen (data ++ fk_Data request)) as El by (unfold blen; rewrite length_app; lia).
    eapply evolves_core; [|apply publish_result_core]. rewrite El, <- Hf. apply (received_evolves h c _ t i (data ++ fk_Data request)); [done..|]. lia.
Qed.

(** *** Completion *)

Lemma Rename_lookup fs p q e r : p ≠ q → fs_tree fs !! p = Some e →
  (<[q := e]> (delete p (fs_tree fs)) : gmap (list string) entry) !! r = if decide (r = q) then Some e else if decide (r = p) then None else fs_tree fs !! r.
Proof.
  intros Hpq Hp. destruct (decide (r = q)) as [->|Hq]; [by rewrite lookup_insert_eq|]. rewrite lookup_insert_ne by done.
  destruct (decide (r = p)) as [->|Hr]; [apply lookup_delete_eq|by rewrite lookup_delete_ne].
Qed.
Definition activated (c : Controller) (id : string) (t : transfer) (i : nat) : Controller :=
  set_table (set_fs c (mkFS (<[t_finalPath t := EFile i]> (delete (t_tempPath t) (fs_tree (c_fs c)))) (fs_data (c_fs c)) (fs_next (c_fs c))))
    (<[id := finish t Completed (t_err t)]> (c_transfers c)) (c_activeBytes c - fo_Size (t_offer t)).
Lemma activated_evolves h c id t i data : ctl_inv h c → c_transfers c !! id = Some t → active t = true →
  fs_tree (c_fs c) !! t_tempPath t = Some (EFile i) → fs_data (c_fs c) !! i = Some data → blen data = t_received t → t_received t = fo_Size (t_offer t) →
  EncodeToString (Sum256 data) = fo_SHA256 (t_offer t) → fs_tree (c_fs c) !! t_finalPath t = None → evolves h c (activated c id t i).
Proof.
  intros Hc Ht Ha Hp Hd Hl Hrec Hsum256 Hnone.
  assert (t_tempPath t ≠ t_finalPath t) as Hpq by congruence.
  assert (∀ r, fs_tree (c_fs (activated c id t i)) !! r = if decide (r = t_finalPath t) then Some (EFile i) else if decide (r = t_tempPath t) then None else fs_tree (c_fs c) !! r) as Hl'
    by (intros r; by apply Rename_lookup).
  assert (∀ q j, q ≠ t_tempPath t → fs_tree (c_fs c) !! q = Some (EFile j) → fs_tree (c_fs (activated c id t i)) !! q = Some (EFile j)) as Hsame.
  { intros q j Hq Hj. rewrite Hl', decide_False, decide_False by (done || congruence). done. }
  assert (∀ id' t', c_transfers (activated c id t i) !! id' = Some t' → (id' = id ∧ t' = finish t Completed (t_err t)) ∨ (id' ≠ id ∧ c_transfers c !! id' = Some t')) as Hcase.
  { intros id' t' E. simpl in E. apply lookup_insert_Some in E as [[<- <-]|[? ?]]; auto. }
  assert (∀ id' t', c_transfers (activated c id t i) !! id' = Some t' → active t' = true → id' ≠ id ∧ c_transfers c !! id' = Some t') as Hact.
  { intros id' t' E Ha'. destruct (Hcase id' t' E) as [[-> ->]|?]; [done|done]. }
  assert (∀ w, w (finish t Completed (t_err t)) = 0 → msum w (c_transfers (activated c id t i)) = msum w (c_transfers c) - w t) as Hsum.
  { intros w Hw. simpl. rewrite (msum_insert _ _ _ t) by done. rewrite Hw. lia. }
  pose proof Hc as Hc'. destruct Hc' as [H1 H2 H3 H4 H5 H6 H7 H8 H9 H10]. split; [done| |].
  - split; try done.
    + rewrite Hl'. rewrite decide_False, decide_False; [done| |]; intros E; [by eapply (temp_ne_root _ _ _ _ Hc Ht)|]. simpl in E. by rewrite <- E, H3 in Hnone.
    + split.
      * intros p j Hj. simpl. rewrite Hl' in Hj. case_decide; [simplify_eq; by eapply fo_data|]. case_decide; [done|]. by eapply fo_data.
      * intros p q j Hj Hk. rewrite Hl' in Hj, Hk.
        destruct (decide (p = t_finalPath t)) as [->|Hpf], (decide (q = t_finalPath t)) as [->|Hqf]; [done|..].
        -- destruct (decide (q = t_tempPath t)) as [->|Hqt]; [done|]. simplify_eq. by destruct Hqt; eapply fo_inj.
        -- destruct (decide (p = t_tempPath t)) as [->|Hpt]; [done|]. simplify_eq. by destruct Hpt; eapply fo_inj.
        -- repeat case_decide; try done. by eapply fo_inj.
    + intros id' t' E. destruct (Hcase id' t' E) as [[-> ->]|[Hne E']].
      * destruct (H5 id t Ht). split; try done. split; [done|]. exists data. split_and!; [|simpl; lia|done]. exists i. split; [|done]. rewrite Hl'. by rewrite decide_True.
      * apply (transfer_ok_frame c); [done|by apply H5|]. apply (state_ok_frame (c_fs c)); [by eapply to_state, H5|..].
        -- intros _ j Hj. split; [|done]. apply Hsame; [|done]. intros Eq. apply Hne. by eapply tempPath_inj.
        -- intros Hs j Hj. split; [|done]. apply Hsame; [|done]. intros Eq. by eapply (H6 _ _ _ _ Ht Ha E' Hs).
    + intros i1 t1 i2 t2 E1 A1 E2 S2. destruct (Hact i1 t1 E1 A1) as [_ E1']. destruct (Hcase i2 t2 E2) as [[-> ->]|[_ E2']]; [|by apply (H6 i1 t1 i2 t2)].
      simpl. intros Eq. destruct (active_open _ _ _ _ Hc E1' A1) as (j & ? & _ & Hj & _). congruence.
    + rewrite Hsum by done. assert (bytes_of_active t = fo_Size (t_offer t)) as -> by (unfold bytes_of_active; by rewrite Ha). simpl. lia.
    + simpl. pose proof (active_size _ _ _ _ Hc Ht). lia.
    + rewrite Hsum by done. assert (one_if_active t = 1) as -> by (unfold one_if_active; by rewrite Ha). simpl. lia.
    + simpl. by rewrite map_size_insert_Some by eauto.
  - intros p e Hpe Hfo. assert (p ≠ t_tempPath t) as Hne by (intros ->; by eapply Hfo). split_and!; [|intros id' u Hu Hau|done].
    + rewrite Hl', decide_False, decide_False by (done || congruence). done.
    + destruct (Hact id' u Hu Hau). by apply (Hfo id' u).
Qed.

Lemma complete_evolves h f c owner request now order : ctl_inv h c → evolves h c (completeFor convert f c owner request now order).2.
Proof.
  intros Hc. unfold completeFor. destruct (Complete_Validate request) as [[]|]; [|by apply evolves_refl]. cbv zeta.
  pose proof (expireLocked_evolves h f now order c Hc) as He. set (c1 := expireLocked convert f c now order) in *. eapply evolves_trans; [exact He|].
  pose proof (ev_inv _ _ _ He) as Hc1. clearbody c1. clear c Hc He. rename c1 into c, Hc1 into Hc.
  destruct (activeOwnedLocked c _ owner) as [t|] eqn:Eo; [|by apply evolves_refl]. apply activeOwned_ok in Eo as (Ht & _ & Ha).
  destruct (_ || _) eqn:Eb; [by apply evolves_refl|]. apply orb_false_iff in Eb as [_ Eb]. apply negb_false_iff, Z.eqb_eq in Eb.
  assert (∀ text, evolves h c (failLocked convert f c (fc_TransferID request) t text)) as Hfail by (intros; by apply fail_evolves').
  destruct (f_sync f); [|apply Hfail]. destruct (f_seek f); [|apply Hfail]. destruct (f_copy f); [|apply Hfail]. cbn [negb].
  destruct (active_open _ _ _ _ Hc Ht Ha) as (i & data & Hf & Hp & Hd & Hl). rewrite Hf. change (default 0%nat (Some i)) with i.
  unfold content. rewrite Hd. change (default [] (Some data)) with data. rewrite take_ge by (unfold blen in Hl; lia).
  destruct (String.eqb_spec (EncodeToString (Sum256 data)) (fo_SHA256 (t_offer t))) as [Hs|]; [|apply Hfail]. cbn [negb].
  destruct (f_close f); [|apply Hfail]. cbn [negb]. unfold Lstat. destruct (f_lstat f _); [|apply Hfail]. cbn [negb].
  destruct (fs_tree (c_fs c) !! t_finalPath t) as [e|] eqn:En; [apply Hfail|]. unfold Rename. rewrite Hp.
  destruct (_ || _); [apply Hfail|]. eapply evolves_core; [|apply publish_result_core]. apply (activated_evolves h c _ t i data); auto.
Qed.

(** *** Offers: directories, the temporary file, the table *)

(** Only directories were added. *)
Record grown (fs fs' : filesystem) : Prop := mkGrown {
  gw_data : fs_data fs' = fs_data fs;
  gw_next : fs_next fs' = fs_next fs;
  gw_old p e : fs_tree fs !! p = Some e → fs_tree fs' !! p = Some e;
  gw_new p e : fs_tree fs' !! p = Some e → fs_tree fs !! p = Some e ∨ e = EDir
}.
Lemma grown_refl fs : grown fs fs.
Proof. split; auto. Qed.
Lemma grown_trans fs1 fs2 fs3 : grown fs1 fs2 → grown fs2 fs3 → grown fs1 fs3.
Proof.
  intros [D1 N1 O1 W1] [D2 N2 O2 W2]. split; [congruence|congruence|auto|]. intros p e Hp. destruct (W2 p e Hp) as [Hp2|]; auto.
Qed.
Lemma Mkdir_grown f fs p fs' : Mkdir f fs p = Some fs' → grown fs fs' ∧ fs_tree fs' !! p = Some EDir.
Proof.
  unfold Mkdir. destruct (_ || _) eqn:E; [done|]. intros [= <-]. apply orb_false_iff in E as [_ E]. apply bool_decide_eq_false in E.
  split; [|apply lookup_insert_eq]. split; try done; simpl; intros q e Hq.
  - rewrite lookup_insert_ne; [done|]. intros <-. apply E. eauto.
  - apply lookup_insert_Some in Hq as [[<- <-]|[_ Hq]]; auto.
Qed.
Definition plain (segment : string) : Prop := segment ≠ "" ∧ segment ≠ "." ∧ segment ≠ "..".
Lemma Join_plain p segment : plain segment → Join p segment = p ++ [segment].
Proof.
  intros (H1 & H2 & H3). unfold Join. destruct (String.eqb_spec segment ""); [done|]. destruct (String.eqb_spec segment "."); [done|].
  by destruct (String.eqb_spec segment "..").
Qed.
Lemma part_plain id : plain (id +:+ ".part").
Proof. assert (∀ s, (String.length s ≤ 2)%nat → id +:+ ".part" ≠ s) as Hl by (intros s Hs <-; rewrite string_length_app in Hs; simpl in Hs; lia). split_and!; apply Hl; simpl; lia. Qed.
Lemma check_segments_plain segs : check_segments segs = Ok tt → Forall plain segs.
Proof.
  induction segs as [|s segs IH]; [constructor|]. cbn [check_segments]. intros Hg. apply fail_if_ok in Hg as [Hg1 Hg]. apply fail_if_ok in Hg as [_ Hg].
  bool_prop. constructor; [|by apply IH]. repeat match goal with Hx : bool_decide _ = false |- _ => apply bool_decide_eq_false in Hx end. by split_and!.
Qed.
Lemma offer_plain o : Offer_Validate o = Ok tt → Forall plain (Split (fo_Path o) slash).
Proof.
  unfold Offer_Validate. intros Hg. do 2 apply bind_ok in Hg as [_ Hg]. apply bind_ok in Hg as [Hp _]. apply mapErr_ok in Hp.
  unfold validateRelativePath in Hp. apply bind_ok in Hp as [_ Hp]. apply fail_if_ok in Hp as [_ Hp]. by apply check_segments_plain.
Qed.
Lemma make_directories_grown f segs : Forall plain segs → ∀ fs current, let '(r, fs') := make_directories f fs current segs in
  grown fs fs' ∧ ∀ p, r = Ok p → p = current ++ segs.
Proof.
  induction 1 as [|s segs Hs _ IH]; intros fs current; cbn [make_directories]; [split; [apply grown_refl|]; intros p [= <-]; by rewrite app_nil_r|].
  rewrite Join_plain by done.
  assert (∀ fs1, grown fs fs1 → let '(r, fs') := make_directories f fs1 (current ++ [s]) segs in grown fs fs' ∧ ∀ p, r = Ok p → p = current ++ s :: segs) as Hgo.
  { intros fs1 Hg. specialize (IH fs1 (current ++ [s])). destruct (make_directories f fs1 (current ++ [s]) segs) as [r fs']. destruct IH as [IH1 IH2].
    split; [by eapply grown_trans|]. intros p Hp. rewrite (IH2 p Hp). by rewrite <- app_assoc. }
  destruct (Lstat f fs (current ++ [s])) as [[]|[]]; try (split; [apply grown_refl|done]); [apply Hgo, grown_refl|].
  destruct (Mkdir f fs (current ++ [s])) as [fs1|] eqn:Em; [|split; [apply grown_refl|done]]. apply Mkdir_grown in Em as [Em _].
  destruct (Lstat f fs1 (current ++ [s])) as [[]|[]]; try (by split). by apply Hgo.
Qed.
Lemma split_nonempty s x : Split s x ≠ [].
Proof. unfold Split. intros E. apply fmap_nil_inv in E. by apply (split_bytes_nonempty x (bytes_of s)). Qed.
Lemma safeDestination_grown f fs root o : Offer_Validate o = Ok tt → let '(r, fs') := safeDestination f fs root (fo_Path o) in
  grown fs fs' ∧ ∀ p, r = Ok p → p = root ++ Split (fo_Path o) slash.
Proof.
  intros Ho. pose proof (offer_plain o Ho) as Hp. unfold safeDestination. set (segs := Split (fo_Path o) slash) in *.
  assert (segs = removelast segs ++ [List.last segs ""]) as Es by (apply app_removelast_last, split_nonempty).
  assert (Forall plain (removelast segs) ∧ plain (List.last segs "")) as [Hr Hl].
  { rewrite Es in Hp. apply Forall_app in Hp as [? Hp]. split; [done|]. by apply Forall_cons in Hp as [? _]. }
  pose proof (make_directories_grown f _ Hr fs root) as Hm. destruct (make_directories f fs root (removelast segs)) as [[current|] fs']; destruct Hm as [Hg Hc]; [|done].
  rewrite (Hc current eq_refl), Join_plain by done. destruct (escapes _); [done|]. rewrite <- app_assoc, <- Es.
  destruct (Lstat f fs' _) as [[]|[]]; (split; [done|]); intros p [= <-]; done.
Qed.
Lemma grown_ok fs fs' : fs_ok fs → grown fs fs' → fs_ok fs'.
Proof.
  intros [Hd Hi] [D N O W]. split.
  - intros p i Hp. rewrite D, N. destruct (W p _ Hp); [by eapply Hd|done].
  - intros p q i Hp Hq. destruct (W p _ Hp), (W q _ Hq); try done. by eapply Hi.
Qed.
Lemma grown_evolves h c fs' : ctl_inv h c → grown (c_fs c) fs' → evolves h c (set_fs c fs').
Proof.
  intros Hc Hg. pose proof Hc as [H1 H2 H3 H4 H5 H6 H7 H8 H9 H10]. pose proof Hg as [D N O W]. split; [done| |].
  - split; try done; [simpl; auto|by eapply grown_ok|]. intros id t Ht. apply (transfer_ok_frame c); [done|by apply H5|].
    apply (state_ok_frame (c_fs c)); [by eapply to_state, H5|..]; intros _ i Hi; simpl; rewrite D; auto.
  - intros p e Hp Hf. simpl. rewrite D. auto.
Qed.

(** A new transfer with its empty file. *)
Definition opened (c : Controller) (owner : NodeID) (o : FileOfferV1) : transfer :=
  mkTransfer o owner (c_tempRoot c ++ [fo_TransferID o +:+ ".part"]) (c_root c ++ Split (fo_Path o) slash) (Some (fs_next (c_fs c))) 0 Offered "".
Definition with_opened (c : Controller) (owner : NodeID) (o : FileOfferV1) : Controller :=
  let fs := c_fs c in
  let p := t_tempPath (opened c owner o) in
  set_table (set_fs c (mkFS (<[p := EFile (fs_next fs)]> (fs_tree fs)) (<[fs_next fs := []]> (fs_data fs)) (S (fs_next fs))))
    (<[fo_TransferID o := opened c owner o]> (c_transfers c)) (c_activeBytes c + fo_Size o).
Lemma opened_fs_ok fs p : fs_ok fs → fs_tree fs !! p = None → fs_ok (mkFS (<[p := EFile (fs_next fs)]> (fs_tree fs)) (<[fs_next fs := []]> (fs_data fs)) (S (fs_next fs))).
Proof.
  intros [Hd Hi] Hn. split; simpl.
  - intros q i Hq. apply lookup_insert_Some in Hq as [[<- [= <-]]|[_ Hq]]; [split; [lia|by rewrite lookup_insert_eq]|].
    destruct (Hd q i Hq) as [Hlt Hs]. split; [lia|]. by rewrite lookup_insert_ne by lia.
  - intros q r i Hq Hr. apply lookup_insert_Some in Hq as [[<- [= <-]]|[Hq0 Hq]]; apply lookup_insert_Some in Hr as [[<- Hr]|[Hr0 Hr]]; simplify_eq; try done.
    + destruct (Hd r _ Hr). lia.
    + destruct (Hd q _ Hq). lia.
    + by eapply Hi.
Qed.
Lemma opened_evolves h c owner o : ctl_inv h c → Offer_Validate o = Ok tt → fo_Size o ≤ c_maxFileBytes c → c_transfers c !! fo_TransferID o = None →
  fo_Size o ≤ c_maxTotalBytes c - c_activeBytes c → msum one_if_active (c_transfers c) < c_maxActive c →
  fs_tree (c_fs c) !! t_tempPath (opened c owner o) = None → evolves (h + 1) c (with_opened c owner o).
Proof.
  intros Hc Ho Hmax Hnew Htot Hact Hn. set (t := opened c owner o) in *. set (id := fo_TransferID o) in *.
  assert (0 ≤ fo_Size o) as Hpos.
  { unfold Offer_Validate in Ho. do 3 apply bind_ok in Ho as [_ Ho]. apply fail_if_ok in Ho as [Ho _]. bool_prop. lia. }
  assert (∀ q e, fs_tree (c_fs c) !! q = Some e → t_tempPath t ≠ q) as Hfree by (intros q e Hq E; by rewrite E, Hq in Hn).
  assert (∀ q i, fs_tree (c_fs c) !! q = Some (EFile i) → fs_tree (c_fs (with_opened c owner o)) !! q = Some (EFile i) ∧
    fs_data (c_fs (with_opened c owner o)) !! i = fs_data (c_fs c) !! i) as Hsame.
  { intros q i Hq. simpl. destruct (fo_data _ (ok_fs _ _ Hc) q i Hq). rewrite !lookup_insert_ne; [done|lia|]. by eapply Hfree. }
  pose proof Hc as [H1 H2 H3 H4 H5 H6 H7 H8 H9 H10]. split; [done| |].
  - split; try done.
    + simpl. rewrite lookup_insert_ne; [done|]. intros E. apply (f_equal length) in E. rewrite length_app in E. simpl in E. lia.
    + by apply opened_fs_ok.
    + intros id' u Hu. simpl in Hu. apply lookup_insert_Some in Hu as [[<- <-]|[Hne Hu]].
      * split; try done. exists []. split; [|done]. exists (fs_next (c_fs c)). split_and!; [done|apply lookup_insert_eq|apply lookup_insert_eq].
      * apply (transfer_ok_frame c); [done|by apply H5|]. apply (state_ok_frame (c_fs c)); [by eapply to_state, H5|..]; intros _ i Hi; by apply Hsame.
    + intros i1 t1 i2 t2 E1 A1 E2 S2. simpl in E1, E2. apply lookup_insert_Some in E2 as [[<- <-]|[_ E2]]; [done|].
      apply lookup_insert_Some in E1 as [[<- <-]|[_ E1]]; [|by apply (H6 i1 t1 i2 t2)]. 
      pose proof (to_state _ _ _ (H5 _ _ E2)) as Hs. unfold state_ok in Hs. rewrite S2 in Hs. destruct Hs as (_ & data & (i & Hi & _) & _). by eapply Hfree.
    + simpl. rewrite msum_new by done. change (bytes_of_active (opened c owner o)) with (fo_Size o). lia.
    + simpl. lia.
    + simpl. rewrite msum_new by done. change (one_if_active (opened c owner o)) with 1. lia.
    + simpl. rewrite map_size_insert_None by done. lia.
  - intros p e Hp Hf. split_and!.
    + simpl. rewrite lookup_insert_ne; [done|]. by eapply Hfree.
    + intros id' u Hu Hau. simpl in Hu. apply lookup_insert_Some in Hu as [[<- <-]|[_ Hu]]; [|by apply (Hf id' u)]. by eapply Hfree.
    + intros i ->. by apply (Hsame p).
Qed.

(** *** Trimming the history *)

Lemma trim_loop_spec max ids m : NoDup ids → (∀ id, id ∈ ids → ∃ t, m !! id = Some t ∧ active t = false) →
  let m' := trim_loop max ids m in
  m' ⊆ m ∧ (∀ id t, m !! id = Some t → active t = true → m' !! id = Some t) ∧
  (∀ w, (∀ t, active t = false → w t = 0) → msum w m' = msum w m) ∧
  (Z.of_nat (size m') ≤ max ∨ ∀ id, id ∈ ids → m' !! id = None).
Proof.
  revert m. induction ids as [|id ids IH]; intros m Hnd Hm; cbn [trim_loop].
  { split_and!; [done|done|done|]. right. intros id Hid. by apply elem_of_nil in Hid. }
  apply NoDup_cons in Hnd as [Hni Hnd]. destruct (Z.ltb_spec max (Z.of_nat (size m))) as [Hlt|Hge]; [|split_and!; auto].
  destruct (Hm id ltac:(left)) as (t & Ht & Ha). destruct (IH (delete id m) Hnd) as (Hsub & Hact & Hsum & Hend).
  { intros id' Hid. destruct (Hm id' ltac:(by right)) as (t' & Ht' & Ha'). exists t'. rewrite lookup_delete_ne; [done|]. by intros ->. }
  split_and!.
  - etrans; [exact Hsub|]. apply delete_subseteq.
  - intros id' t' Ht' Ha'. apply Hact; [|done]. rewrite lookup_delete_ne; [done|]. intros ->. congruence.
  - intros w Hw. rewrite Hsum by done. rewrite (msum_delete w m id t) by done. rewrite (Hw t) by done. lia.
  - destruct Hend as [|Hend]; [by left|right]. intros id' [->|Hid]%elem_of_cons; [|by apply Hend].
    destruct (trim_loop max ids (delete id m) !! id) as [u|] eqn:E; [|done]. pose proof (lookup_weaken _ _ _ _ E Hsub) as Hx. by rewrite lookup_delete_eq in Hx.
Qed.
Lemma all_active_size m : (∀ id t, m !! id = Some t → active t = true) → Z.of_nat (size m) = msum one_if_active m.
Proof. intros Hm. rewrite <- active_count. unfold activeCountLocked. do 2 f_equal. symmetry. apply map_filter_id. intros id t Ht. simpl. by eapply Hm. Qed.
Lemma trim_evolves c h : ctl_inv h c → evolves (c_maxHistory c) c (trimLocked c).
Proof.
  intros Hc. unfold trimLocked. destruct (Z.leb_spec (Z.of_nat (size (c_transfers c))) (c_maxHistory c)) as [Hle|Hgt].
  { apply evolves_refl. by destruct Hc. }
  set (ids := SortStrings (map_to_list (filter (λ kt, active kt.2 = false) (c_transfers c))).*1).
  assert (∀ id, id ∈ ids ↔ ∃ t, c_transfers c !! id = Some t ∧ active t = false) as Hids.
  { intros id. unfold ids, SortStrings. rewrite elem_of_SortSlice, list_elem_of_fmap. split.
    - intros ((id' & t) & -> & Ht%elem_of_map_to_list). apply map_lookup_filter_Some in Ht as [Ht Ha]. eauto.
    - intros (t & Ht & Ha). exists (id, t). split; [done|]. apply elem_of_map_to_list, map_lookup_filter_Some. done. }
  assert (NoDup ids) as Hnd by (unfold ids, SortStrings; rewrite SortSlice_perm; apply NoDup_fst_map_to_list).
  destruct (trim_loop_spec (c_maxHistory c) ids (c_transfers c) Hnd) as (Hsub & Hact & Hsum & Hend); [by intros id; apply Hids|].
  set (m' := trim_loop _ _ _) in *. pose proof Hc as [H1 H2 H3 H4 H5 H6 H7 H8 H9 H10].
  assert (∀ id t, m' !! id = Some t → c_transfers c !! id = Some t) as Hin by (intros id t Ht; by eapply lookup_weaken).
  assert (msum one_if_active m' = msum one_if_active (c_transfers c)) as Hone by (apply Hsum; unfold one_if_active; by intros t ->).
  split; [done| |].
  - split; try done; simpl.
    + intros id t Ht. apply (transfer_ok_frame c); [done|by apply H5, Hin|]. exact (to_state _ _ _ (H5 _ _ (Hin _ _ Ht))).
    + intros i1 t1 i2 t2 E1 A1 E2 S2. apply (H6 i1 t1 i2 t2); auto.
    + rewrite H7. symmetry. apply Hsum. unfold bytes_of_active. by intros t ->.
    + lia.
    + destruct Hend as [Hend|Hend]; [done|]. rewrite all_active_size; [lia|]. intros id t Ht. destruct (active t) eqn:Ha; [done|].
      assert (id ∈ ids) as Hid by (apply Hids; eauto). rewrite (Hend id Hid) in Ht. done.
  - intros p e Hp Hf. split_and!; [done| |done]. intros id t Ht Ha. by apply (Hf id t); [apply Hin|].
Qed.

Lemma trim_spec c : c_transfers (trimLocked c) ⊆ c_transfers c ∧ (∀ id t, c_transfers c !! id = Some t → active t = true → c_transfers (trimLocked c) !! id = Some t) ∧
  ∀ w, (∀ t, active t = false → w t = 0) → msum w (c_transfers (trimLocked c)) = msum w (c_transfers c).
Proof.
  unfold trimLocked. destruct (_ <=? _); [done|]. simpl. edestruct trim_loop_spec as (H1 & H2 & H3 & _); [| |exact (conj H1 (conj H2 H3))].
  - unfold SortStrings. rewrite SortSlice_perm. apply NoDup_fst_map_to_list.
  - intros id' Hid. unfold SortStrings in Hid. rewrite elem_of_SortSlice, list_elem_of_fmap in Hid. destruct Hid as ((k & u) & -> & Hu%elem_of_map_to_list).
    apply map_lookup_filter_Some in Hu as [Hu Hau]. eauto.
Qed.
Lemma OpenExclusive_some f fs p i fs' : OpenExclusive f fs p = Some (i, fs') → fs_tree fs !! p = None ∧ i = fs_next fs ∧
  fs' = mkFS (<[p := EFile (fs_next fs)]> (fs_tree fs)) (<[fs_next fs := []]> (fs_data fs)) (S (fs_next fs)).
Proof.
  unfold OpenExclusive. destruct (_ || _) eqn:E; [done|]. intros [= <- <-]. apply orb_false_iff in E as [_ E]. apply bool_decide_eq_false in E.
  split_and!; [|done|done]. destruct (fs_tree fs !! p); [|done]. by destruct E.
Qed.
Lemma offer_evolves f c owner request now order : ctl_ok c → evolves (c_maxHistory c) c (offerFor convert f c owner request now order).2.
Proof.
  intros Hc. unfold ctl_ok in Hc. unfold offerFor. destruct (Offer_Validate request) as [[]|] eqn:Ev; [|by apply evolves_refl].
  destruct (_ || _) eqn:El; [by apply evolves_refl|]. cbv zeta. apply orb_false_iff in El as [El _]. apply orb_false_iff in El as [El _]. apply Z.ltb_ge in El.
  pose proof (expireLocked_evolves _ f now order c Hc) as He. set (c1 := expireLocked convert f c now order) in *. eapply evolves_trans; [exact He|].
  assert (c_maxFileBytes c1 = c_maxFileBytes c ∧ c_maxHistory c1 = c_maxHistory c) as [Emax Eh] by (destruct (ev_config _ _ _ He) as (_ & _ & ? & _ & _ & ? & _); done).
  pose proof (ev_inv _ _ _ He) as Hc1. rewrite <- Eh, <- Emax in *. clearbody c1. clear c Hc He Eh Emax. rename c1 into c, Hc1 into Hc.
  destruct (c_transfers c !! fo_TransferID request) as [t|] eqn:Et; [case_match; by apply evolves_refl|].
  destruct (_ || _) eqn:Ea; [by apply evolves_refl|]. apply orb_false_iff in Ea as [Ea Eb]. apply Z.leb_gt in Ea. apply Z.ltb_ge in Eb. rewrite active_count in Ea.
  pose proof (safeDestination_grown f (c_fs c) (c_root c) request Ev) as Hs. destruct (safeDestination f (c_fs c) (c_root c) (fo_Path request)) as [[final|e] fs];
    destruct Hs as [Hg Hfinal]; [|by apply grown_evolves]. rewrite (Hfinal final eq_refl), Join_plain by apply part_plain.
  pose proof (grown_evolves _ c fs Hc Hg) as He. eapply evolves_trans; [exact He|]. apply ev_inv in He. set (c1 := set_fs c fs) in *.
  destruct (OpenExclusive f fs _) as [[i fs']|] eqn:Eopen; [|by apply evolves_refl]. apply OpenExclusive_some in Eopen as (Hn & -> & ->).
  match goal with |- context [trimLocked ?x] => change x with (with_opened c1 owner request) end.
  assert (evolves (c_maxHistory c + 1) c1 (with_opened c1 owner request)) as Ho by by apply opened_evolves.
  assert (evolves (c_maxHistory c) c1 (trimLocked (with_opened c1 owner request))) as Htr by (eapply evolves_trans; [exact Ho|apply (trim_evolves _ _ (ev_inv _ _ _ Ho))]).
  set (c2 := trimLocked (with_opened c1 owner request)) in *. set (t := opened c1 owner request) in *.
  assert (c_transfers c2 !! fo_TransferID request = Some t) as Ht2 by (apply trim_spec; [apply lookup_insert_eq|done]).
  change (mkTransfer _ _ _ _ _ _ _ _) with t. pose proof (publish_core f c2 t) as Hp. destruct (publishLocked convert f c2 t) as [[[]|e] c3]; simpl in Hp.
  - by eapply evolves_core.
  - pose proof (evolves_core _ _ _ _ Htr Hp) as H3. eapply evolves_trans; [exact H3|]. cbn [snd].
    apply (ended_evolves _ c3 (fo_TransferID request) t None); [by eapply ev_inv| |done|done|apply Remove_removed]. destruct Hp as (_ & -> & _). done.
Qed.
End theory.

(** ** Starting a controller *)

Lemma config_limits g g' : Config_normalized g = Some g' → 1 ≤ g_MaxActive g' ≤ g_MaxHistory g' ∧ g_MaxHistory g' ≤ MaxItems ∧ g_MaxFileBytes g' ≤ g_MaxTotalBytes g' ∧ 0 < g_MaxFileBytes g'.
Proof.
  unfold Config_normalized. cbv zeta. destruct (_ || _) eqn:E; [done|]. intros [= <-]. simpl in *. bool_prop.
  split_and!; try lia. destruct (Z.leb_spec (g_MaxFileBytes g) 0); lia.
Qed.
Lemma config_file g g' : Config_normalized g = Some g' → g_MaxFileBytes g ≤ 2 ^ 62 → g_MaxFileBytes g' ≤ 2 ^ 62 ∧ g_Root g' = g_Root g.
Proof. unfold Config_normalized. cbv zeta. destruct (_ || _); [done|]. intros [= <-] Hm. simpl. destruct (_ <=? _); split; (done || lia). Qed.
Lemma mkdir_all_grown f segs : ∀ fs current fs', mkdir_all f fs current segs = Some fs' → grown fs fs'.
Proof.
  induction segs as [|s segs IH]; intros fs current fs'; cbn [mkdir_all]; [intros [= <-]; apply grown_refl|].
  destruct (fs_tree fs !! (current ++ [s])) as [[]|]; [apply IH|done|done|].
  destruct (Mkdir f fs (current ++ [s])) as [fs1|] eqn:Em; [|done]. cbn [mbind option_bind]. intros Hm. apply Mkdir_grown in Em as [Em _].
  eapply grown_trans; [exact Em|by eapply IH].
Qed.
Lemma ensureDirectory_ok f fs p fs' : ensureDirectory f fs p = Some fs' → grown fs fs' ∧ fs_tree fs' !! p = Some EDir.
Proof.
  unfold ensureDirectory. destruct (mkdir_all f fs [] p) as [fs1|] eqn:E; [|done]. cbn [mbind option_bind]. apply mkdir_all_grown in E.
  unfold Lstat. destruct (f_lstat f p); [|done]. simpl. destruct (fs_tree fs1 !! p) as [[]|] eqn:Ep; try done. destruct (f_chmod f p); [|done]. by intros [= <-].
Qed.
Lemma stale_plain name : stale name = true → plain name.
Proof.
  unfold stale. intros Hs. apply andb_true_iff in Hs as [Hs _]. apply andb_true_iff in Hs as [Hs _]. apply Z.eqb_eq in Hs.
  split_and!; intros ->; done.
Qed.
(** A file that stays: not a stale name directly in the temporary directory. *)
Definition is_stale (root p : list string) : Prop := ∃ name, stale name = true ∧ p = root ++ [name].
Lemma cleanup_loop_spec f root names : ∀ fs fs', cleanup_loop f fs root names = Some fs' →
  fs_data fs' = fs_data fs ∧ fs_next fs' = fs_next fs ∧ (∀ p e, fs_tree fs' !! p = Some e → fs_tree fs !! p = Some e) ∧
  (∀ p, ¬ is_stale root p → fs_tree fs' !! p = fs_tree fs !! p) ∧ (∀ name, name ∈ names → stale name = true → fs_tree fs' !! (root ++ [name]) = None).
Proof.
  induction names as [|name names IH]; intros fs fs'; cbn [cleanup_loop]; [intros [= <-]; split_and!; [done..|]; intros n Hn; by apply elem_of_nil in Hn|].
  destruct (stale name) eqn:Es; cbn [negb]; intros Hc.
  - rewrite Join_plain in Hc by by apply stale_plain. destruct (_ && _) eqn:Er; [|done]. unfold Remove in Hc. rewrite Er in Hc.
    destruct (IH _ _ Hc) as (Hd & Hn & Hsub & Hsame & Hgone). simpl in *. split_and!; [done|done|..].
    + intros p e Hp. apply Hsub, lookup_delete_Some in Hp. tauto.
    + intros p Hp. rewrite Hsame by done. apply lookup_delete_ne. intros <-. apply Hp. by exists name.
    + intros n [->|Hn']%elem_of_cons Hst; [|by apply Hgone]. destruct (fs_tree fs' !! (root ++ [name])) as [e|] eqn:E; [|done].
      apply Hsub in E. by rewrite lookup_delete_eq in E.
  - destruct (IH _ _ Hc) as (Hd & Hn & Hsub & Hsame & Hgone). split_and!; [done..|]. intros n [->|Hn']%elem_of_cons Hst; [congruence|by apply Hgone].
Qed.
Lemma cleanupTemp_ok f fs root fs' : cleanupTemp f fs root = Some fs' → fs_ok fs → fs_ok fs' ∧ fs_tree fs' !! root = fs_tree fs !! root.
Proof.
  unfold cleanupTemp. destruct (f_read f); [|done]. intros Hc [Hd Hi]. destruct (cleanup_loop_spec _ _ _ _ _ Hc) as (Ed & En & Hsub & Hsame & _). split.
  - split; [intros p i Hp; rewrite Ed, En; eauto|eauto].
  - apply Hsame. intros (name & _ & E). apply (f_equal length) in E. rewrite length_app in E. simpl in E. lia.
Qed.

Section claims.
Context `{Crypto} (convert : list byte → option (list byte)).

Lemma Register_ok f fs g node registered c : fs_ok fs → g_MaxFileBytes g ≤ 2 ^ 62 → Register f fs g node registered = Ok c → ctl_ok c ∧ c_transfers c = ∅.
Proof.
  intros Hfs Hmax. unfold Register. destruct (Config_normalized g) as [g'|] eqn:Eg; [|done]. destruct (config_limits _ _ Eg) as (Hl & _ & Hft & Hpos).
  destruct (config_file _ _ Eg Hmax) as [Hmax' _].
  destruct (ensureDirectory f fs (g_Root g')) as [fs1|] eqn:E1; [|done]. apply ensureDirectory_ok in E1 as [G1 _].
  destruct (ensureDirectory f fs1 _) as [fs2|] eqn:E2; [|done]. apply ensureDirectory_ok in E2 as [G2 D2].
  destruct (cleanupTemp f fs2 _) as [fs3|] eqn:E3; [|done]. intros Hr. apply bind_value in Hr as (progress & _ & Hr). apply fail_if_ok in Hr as [_ Hr]. simplify_eq.
  destruct (cleanupTemp_ok _ _ _ _ E3) as [Hfs3 D3]; [by eapply grown_ok; [eapply grown_ok|]|]. split; [|done]. split; simpl; try done.
  1: by rewrite D3.
  all: rewrite ?map_size_empty; try change (msum one_if_active ∅) with 0; lia.
Qed.

(** ** Histories *)

Inductive op :=
| OpOffer (owner : NodeID) (request : FileOfferV1) (now : Z) (order : list string)
| OpChunk (owner : NodeID) (request : FileChunkV1) (now : Z) (order : list string)
| OpComplete (owner : NodeID) (request : FileCompleteV1) (now : Z) (order : list string)
| OpCancel (owner : NodeID) (request : FileCancelV1)
| OpAbort (owner : NodeID) (id : string) (reason : option string)
| OpSweep (now : Z) (order : list string).
(** One call, with the faults that happen in it. *)
Definition run_op (c : Controller) (o : faults * op) : Controller :=
  let '(f, o) := o in
  match o with
  | OpOffer owner request now order => (offerFor convert f c owner request now order).2
  | OpChunk owner request now order => (chunkFor convert f c owner request now order).2
  | OpComplete owner request now order => (completeFor convert f c owner request now order).2
  | OpCancel owner request => (cancelFor convert f c owner request).2
  | OpAbort owner id reason => abortFor convert f c owner id reason
  | OpSweep now order => Sweep convert f c now order
  end.
Definition run_ops (c : Controller) (ops : list (faults * op)) : Controller := fold_left run_op ops c.

Lemma run_op_evolves c o : ctl_ok c → evolves (c_maxHistory c) c (run_op c o).
Proof.
  destruct o as [f []]; simpl; intros Hc; [by apply offer_evolves|by apply chunk_evolves|by apply complete_evolves|by apply cancel_evolves|by apply abort_evolves|by apply expireLocked_evolves].
Qed.
Lemma run_ops_evolves ops : ∀ c, ctl_ok c → ctl_ok (run_ops c ops) ∧ keeps c (run_ops c ops).
Proof.
  induction ops as [|o ops IH]; intros c Hc; [split; [done|apply keeps_refl]|]. cbn [run_ops fold_left]. pose proof (run_op_evolves c o Hc) as He.
  destruct (IH (run_op c o)) as [H1 H2].
  { unfold ctl_ok. destruct (ev_config _ _ _ He) as (_ & _ & _ & _ & _ & -> & _). by eapply ev_inv. }
  split; [exact H1|]. eapply keeps_trans; [by eapply ev_keeps|exact H2].
Qed.


(** C31. Uploads never touch what is not theirs: in every history, an entry of the file system
    that is not the temporary file of an active transfer stays where it is, and a file keeps
    its content, through all later operations and whatever fails.  In particular a completed
    upload is never overwritten by another one. *)
Theorem upload_keeps_files fs g node f registered c ops ops' p e :
  fs_ok fs → g_MaxFileBytes g ≤ 2 ^ 62 → Register f fs g node registered = Ok c →
  fs_tree (c_fs (run_ops c ops)) !! p = Some e → foreign (run_ops c ops) p →
  fs_tree (c_fs (run_ops c (ops ++ ops'))) !! p = Some e ∧
  ∀ i, e = EFile i → fs_data (c_fs (run_ops c (ops ++ ops'))) !! i = fs_data (c_fs (run_ops c ops)) !! i.
Proof.
  intros Hfs Hg Hr Hp Hf. unfold run_ops in *. rewrite fold_left_app. destruct (run_ops_evolves ops c) as [Hc _]; [by eapply Register_ok|].
  destruct (run_ops_evolves ops' _ Hc) as [_ Hk]. destruct (Hk p e Hp Hf) as (? & _ & ?). done.
Qed.
End claims.
