(* ===== verification/FileUpload.v ===== *)
(** * A file that is sent arrives

    When no system call fails, the list of transfers is short and the sequence numbers last,
    every operation of an upload succeeds: the list of transfers is valid and can be
    published, and the file that arrives is the one that was sent. *)

From S2P Require Import Prelude GoStd GoSort GoEncoding GoJSON GoFloat GoStruct Wire PolicySchema FileSchema Payload EnrollmentWire Identity Admission Catalog VariableModel Streams FileTransfer FileTransferTheory Codec.
Open Scope Z_scope.

(** ** The list of transfers *)

Lemma strictly_sorted_keys l : NoDup l → strictly_sorted (SortStrings l).
Proof.
  intros Hnd. assert (NoDup (SortStrings l)) as Hs by (unfold SortStrings; by rewrite SortSlice_perm). revert Hs.
  pose proof (SortSlice_ordered str_ltb str_ltb_asym str_ltb_negtrans l) as Ho. change (SortSlice str_ltb l) with (SortStrings l) in Ho.
  induction Ho as [|x r _ IH Hx]; intros Hd; [constructor|]. apply NoDup_cons in Hd as [Hni Hd]. constructor; [by apply IH|].
  rewrite Forall_forall in *. intros y Hy. destruct (str_ltb x y) eqn:E; [done|]. specialize (Hx y Hy). simpl in Hx.
  rewrite (str_ltb_total x y E Hx) in Hni. done.
Qed.
Definition text_ok (t : transfer) : Prop := ValidString (t_err t) = true ∧ strlen (t_err t) ≤ 2048 ∧ 0 < t_owner t ≤ maxUint64.
Definition texts (c : Controller) : Prop := ∀ id t, c_transfers c !! id = Some t → text_ok t.

Lemma elem_of_summaries m s : s ∈ summaries m → ∃ id t, m !! id = Some t ∧ s = summary_of id t.
Proof.
  unfold summaries. rewrite list_elem_of_omap. intros (id & _ & Hs). destruct (m !! id) as [t|] eqn:E; [|done]. simpl in Hs. simplify_eq. eauto.
Qed.
Lemma summaries_ids m : fs_TransferID <$> summaries m = SortStrings (map_to_list m).*1.
Proof.
  unfold summaries. assert (∀ id, id ∈ SortStrings (map_to_list m).*1 → is_Some (m !! id)) as Hk.
  { intros id Hid. unfold SortStrings in Hid. rewrite elem_of_SortSlice, list_elem_of_fmap in Hid. destruct Hid as ((k & t) & -> & Ht%elem_of_map_to_list). eauto. }
  induction (SortStrings (map_to_list m).*1) as [|id l IH]; [done|]. cbn [omap list_omap]. destruct (Hk id ltac:(left)) as [t ->]. simpl. f_equal.
  apply IH. intros id' Hid. apply Hk. by right.
Qed.
Lemma summaries_length m : length (summaries m) = size m.
Proof. rewrite <- (length_fmap fs_TransferID), summaries_ids. unfold SortStrings. rewrite SortSlice_perm, length_fmap. apply length_map_to_list. Qed.

Lemma check_transfers_ok l : Forall (λ s, Summary_Validate s = Ok tt) l → strictly_sorted (fs_TransferID <$> l) → ∀ index seen previous,
  (∀ x s, x ∈ seen → s ∈ l → str_ltb x (fs_TransferID s) = true) → (∀ p s, previous = Some p → s ∈ l → str_ltb p (fs_TransferID s) = true) →
  check_transfers index seen previous l = Ok tt.
Proof.
  induction 1 as [|s l Hs _ IH]; intros Hsort index seen previous Hseen Hprev; [done|]. cbn [check_transfers]. rewrite Hs. cbn [mapErr mbind result_bind].
  rewrite fmap_cons in Hsort. inversion Hsort as [|x r Hsort' Hlt]; subst. clear Hsort. rename Hsort' into Hsort. rewrite Forall_forall in Hlt.
  rewrite bool_decide_eq_false_2 by (intros Hin; specialize (Hseen _ s Hin ltac:(left)); by rewrite str_ltb_irrefl in Hseen).
  assert (match previous with Some p => negb (str_ltb p (fs_TransferID s)) | None => false end = false) as ->.
  { destruct previous as [p|]; [|done]. by rewrite (Hprev p s eq_refl ltac:(left)). }
  apply IH; [done| |].
  - intros x u Hx Hu. apply elem_of_union in Hx as [->%elem_of_singleton|Hx]; [by apply Hlt, list_elem_of_fmap_2|]. apply Hseen; [done|by right].
  - intros p u [= <-] Hu. by apply Hlt, list_elem_of_fmap_2.
Qed.

Lemma known_states s : known_state (state_text s) = true ∧ ValidString (state_text s) = true ∧ strlen (state_text s) ≤ 9.
Proof. by destruct s. Qed.
Lemma text_bounds_ok s n : ValidString s = true → strlen s ≤ n → text_bounds s n false = Ok tt.
Proof. intros Hv Hl. unfold text_bounds, validateText. rewrite Hv. simpl. rewrite (proj2 (Z.ltb_ge _ _)) by lia. done. Qed.
Lemma offer_facts o : Offer_Validate o = Ok tt → hex_field (fo_TransferID o) 16 = Ok tt ∧ mapErr FWire (validateRelativePath (fo_Path o)) = Ok tt ∧
  0 < fo_ExpiresAtUnixMS o ∧ 0 ≤ fo_Size o ∧ 0 < fo_ChunkSize o ≤ MaxFileChunkBytes ∧ hex_field (fo_SHA256 o) 32 = Ok tt.
Proof.
  unfold Offer_Validate. intros Hv. apply bind_ok in Hv as [_ Hv]. apply bind_ok in Hv as [H1 Hv]. apply bind_ok in Hv as [H2 Hv]. apply fail_if_ok in Hv as [Hb Hv].
  apply bind_ok in Hv as [H3 _]. bool_prop. split_and!; try done; lia.
Qed.
Lemma hex_length s n : hex_field s n = Ok tt → strlen s = n * 2.
Proof. unfold hex_field. rewrite mapErr_ok. unfold validateHexID. intros Hx. apply fail_if_ok in Hx as [Hx _]. by apply negb_false_iff, Z.eqb_eq in Hx. Qed.

Section upload.
Context `{Crypto} (convert : list byte → option (list byte)).
(** The conversion to the representation of the variable takes valid lists, and at most
    doubles their text. *)
Hypothesis convert_ok : ∀ t, Transfers_Validate t = Ok tt → blen (transfers_json t) ≤ 2 ^ 19 →
  ∃ out, convert (transfers_json t) = Some out ∧ 0 < blen out ≤ DefaultMaxPayload.

Lemma summary_valid c id t : transfer_ok c id t → text_ok t → Summary_Validate (summary_of id t) = Ok tt.
Proof.
  intros [Ho Hid Hsz _ _ Hr _] (Hv & Hl & Hown). destruct (offer_facts _ Ho) as (H1 & H2 & H3 & H4 & H5 & _). unfold Summary_Validate. cbn [summary_of fs_TransferID fs_OwnerNodeID fs_Path fs_ReceivedBytes fs_TotalBytes fs_State fs_ExpiresAtUnixMS fs_Error].
  rewrite <- Hid, H1. cbn [mbind result_bind]. rewrite (proj2 (validateNodeIDText_canonical _)) by (exists (t_owner t); done). cbn [mapErr mbind result_bind]. rewrite H2. cbn [mbind result_bind].
  rewrite (proj2 (Z.ltb_ge (t_received t) 0)), (proj2 (Z.ltb_ge (fo_Size (t_offer t)) 0)), (proj2 (Z.ltb_ge (fo_Size (t_offer t)) (t_received t))), (proj2 (Z.leb_gt _ _)) by lia. cbn [orb].
  rewrite (proj1 (known_states _)). cbn [negb]. by apply text_bounds_ok.
Qed.
Lemma list_valid c revision : ctl_ok c → texts c → c_maxHistory c ≤ MaxItems → 0 < revision → Transfers_Validate (mkTransfers 1 revision (summaries (c_transfers c))) = Ok tt.
Proof.
  intros Hc Ht Hm Hr. unfold Transfers_Validate. cbn [ft_Version ft_Revision ft_Transfers]. change (version1 1) with (Ok tt : result file_error unit). cbn [mbind result_bind].
  rewrite summaries_length. pose proof (ok_history _ _ Hc). rewrite (proj2 (Z.eqb_neq _ _)), (proj2 (Z.ltb_ge _ _)) by lia. cbn [orb].
  apply check_transfers_ok.
  - rewrite Forall_forall. intros s (id & t & Hid & ->)%elem_of_summaries. eapply summary_valid; [by eapply ok_transfers|by eapply Ht].
  - rewrite summaries_ids. apply strictly_sorted_keys, NoDup_fst_map_to_list.
  - intros x s Hx. by apply elem_of_empty in Hx.
  - done.
Qed.

(** *** Sizes *)

Lemma path_length p : mapErr FWire (validateRelativePath p) = Ok tt → strlen p ≤ 1024.
Proof.
  rewrite mapErr_ok. unfold validateRelativePath. intros Hp. apply bind_ok in Hp as [Hp _]. unfold validateText in Hp. apply fail_if_ok in Hp as [_ Hp]. apply fail_if_ok in Hp as [Hp _].
  bool_prop. unfold MaxPathBytes in *. lia.
Qed.
Lemma summary_size c id t : transfer_ok c id t → text_ok t → Z.of_nat (length (print (summary_any (summary_of id t)))) ≤ 20000.
Proof.
  intros [Ho Hid Hsz _ _ Hr _] (Hv & Hl & Hown). destruct (offer_facts _ Ho) as (H1%hex_length & H2%path_length & _). rewrite Hid in H1.
  pose proof (FormatUint_size (t_owner t)) as Hn. destruct (known_states (t_state t)) as (_ & _ & Hst).
  etrans; [apply object_size|]. cbn [summary_of fs_TransferID fs_OwnerNodeID fs_Path fs_ReceivedBytes fs_TotalBytes fs_State fs_ExpiresAtUnixMS fs_Error].
  sized; lia.
Qed.
Lemma list_size c revision : ctl_ok c → texts c → Z.of_nat (size (c_transfers c)) ≤ 26 → 0 < blen (transfers_json (mkTransfers 1 revision (summaries (c_transfers c)))) ≤ 2 ^ 19.
Proof.
  intros Hc Ht Hn. unfold transfers_json, blen. rewrite length_fmap. split; [simpl; lia|].
  etrans; [apply object_size|]. cbn [ft_Version ft_Revision ft_Transfers].
  assert (Z.of_nat (length (print (AArray (summary_any <$> summaries (c_transfers c))))) ≤ 2 + 26 * 20001) as Ha.
  { etrans; [apply (array_size _ 20000); [|done]|rewrite length_fmap, summaries_length; lia].
    intros v (s & -> & Hs)%list_elem_of_fmap. apply elem_of_summaries in Hs as (id & t & Hid & ->). eapply summary_size; [by eapply ok_transfers|by eapply Ht]. }
  revert Ha. generalize (AArray (summary_any <$> summaries (c_transfers c))). intros v Ha. sized. lia.
Qed.
Lemma progress_valid c id t : transfer_ok c id t → text_ok t →
  ∃ payload, progressPayloadLocked t = Ok payload ∧ blen payload ≤ 20000.
Proof.
  intros [Ho Hid Hsz _ _ Hr _] (Hv & Hl & Hown). destruct (offer_facts _ Ho) as (H1 & _ & _ & Hs & _). destruct (known_states (t_state t)) as (Hk & _ & Hst).
  set (p := mkProgress 1 (fo_TransferID (t_offer t)) (t_received t) (fo_Size (t_offer t)) (state_text (t_state t)) (t_err t)).
  assert (members_size (js_fields p) ≤ 19000) as Hm.
  { change (js_fields p) with (progress_fields p). unfold progress_fields, p. cbn [fp_Version fp_TransferID fp_ReceivedBytes fp_TotalBytes fp_State fp_Error]. apply hex_length in H1. sized; lia. }
  exists (json_Marshal p). unfold progressPayloadLocked. fold p. rewrite payload_fits; [split; [done|]|..].
  - pose proof (json_Marshal_size p). unfold blen. lia.
  - change (Validate p) with (Progress_Validate p). unfold Progress_Validate, p. cbn [fp_Version fp_TransferID fp_ReceivedBytes fp_TotalBytes fp_State fp_Error].
    change (version1 1) with (Ok tt : result file_error unit). cbn [mbind result_bind]. rewrite H1. cbn [mbind result_bind].
    rewrite (proj2 (Z.ltb_ge (t_received t) 0)), (proj2 (Z.ltb_ge (fo_Size (t_offer t)) 0)), (proj2 (Z.ltb_ge (fo_Size (t_offer t)) (t_received t))) by lia. cbn [orb].
    rewrite Hk. cbn [negb]. by apply text_bounds_ok.
  - change DefaultMaxPayload with (2 ^ 20). lia.
Qed.

(** *** Publishing succeeds *)

Definition sequence (c : Controller) : Z := st_sequence (c_progress c).
(** Numbers for [r] more lists and [q] more events. *)
Definition room (r q : Z) (c : Controller) : Prop :=
  1 ≤ c_revision c ∧ c_revision c + r ≤ maxUint64 ∧ 0 ≤ sequence c ∧ sequence c + msum one_if_active (c_transfers c) + q ≤ maxUint64 ∧
  lim_MaxPayloadBytes (ds_Limits (st_descriptor (c_progress c))) = DefaultMaxPayload.
(** Short enough to be published. *)
Definition short (c : Controller) : Prop := Z.of_nat (size (c_transfers c)) ≤ 26 ∧ c_maxHistory c ≤ MaxItems.
Lemma one_nonneg m : 0 ≤ msum one_if_active m.
Proof. apply msum_nonneg. intros id t _. unfold one_if_active. by destruct (active t). Qed.

Lemma publish_ok c id t r q : ctl_ok c → texts c → short c → c_transfers c !! id = Some t → room (r + 1) (q + 1) c → 0 ≤ r → 0 ≤ q →
  ∃ payload c', progressPayloadLocked t = Ok payload ∧ publishLocked convert no_faults c t = (Ok tt, c') ∧ same_core c c' ∧ room r q c'.
Proof.
  intros Hc Ht [Hs Hm] Hid (R1 & R2 & R3 & R4 & R5) Hr Hq. pose proof (ok_transfers _ _ Hc _ _ Hid) as Hok.
  destruct (progress_valid c id t Hok (Ht _ _ Hid)) as (payload & Hp & Hl). pose proof (one_nonneg (c_transfers c)) as Hone.
  unfold publishLocked. rewrite Hp. unfold publish_progress, Stream_Publish, validatePayload. rewrite R5. change (VariableModel.blen payload) with (blen payload).
  assert (20000 ≤ DefaultMaxPayload) as Hmax by done. rewrite (proj2 (Z.ltb_ge _ _)) by lia. cbn [mapErr mbind result_bind]. fold (sequence c).
  rewrite (proj2 (Z.eqb_neq _ _)) by lia. rewrite u64_small by (unfold is_u64; lia). cbn [mbind result_bind].
  set (s := mkStream _ _ _ _). unfold updateSummariesLocked. change (c_revision (set_progress c s)) with (c_revision c). rewrite (proj2 (Z.eqb_neq _ _)) by lia.
  rewrite u64_small by (unfold is_u64; lia). change (c_transfers (set_progress c s)) with (c_transfers c). cbv zeta.
  pose proof (list_valid c (c_revision c + 1) Hc Ht Hm ltac:(lia)) as Hv. destruct (list_size c (c_revision c + 1) Hc Ht Hs) as [Hz1 Hz2].
  destruct (convert_ok _ Hv Hz2) as (out & Hout & Ho1). unfold encodable. rewrite Hv, Hout. cbn [is_ok andb f_set no_faults].
  assert (∀ n, 0 < n ≤ DefaultMaxPayload → validatePayloadSize n DefaultMaxPayload = Ok tt) as Hsize.
  { intros n Hn. unfold validatePayloadSize. change (DefaultMaxPayload <=? 0) with false. cbn iota. rewrite (proj2 (Z.eqb_neq _ _)), (proj2 (Z.ltb_ge _ _)) by lia. done. }
  rewrite !Hsize by (change DefaultMaxPayload with (2 ^ 20) in *; lia). cbn [is_ok andb negb]. eexists _, _. split_and!; [done|done|done|].
  unfold room, sequence. cbn. fold (sequence c). split_and!; try done; lia.
Qed.

(** *** Expiry *)

(** What a sweep leaves. *)
Record aged (now : Z) (c c' : Controller) : Prop := mkAged {
  ag_texts : texts c → texts c';
  ag_size : size (c_transfers c') = size (c_transfers c);
  ag_none id : c_transfers c !! id = None → c_transfers c' !! id = None;
  ag_kept id t : c_transfers c !! id = Some t → UnixMilli now < fo_ExpiresAtUnixMS (t_offer t) → c_transfers c' !! id = Some t;
  ag_tree p e : fs_tree (c_fs c') !! p = Some e → fs_tree (c_fs c) !! p = Some e;
  ag_active : msum one_if_active (c_transfers c') ≤ msum one_if_active (c_transfers c);
  ag_bytes : (∀ id t, c_transfers c !! id = Some t → 0 ≤ fo_Size (t_offer t)) → c_activeBytes c' ≤ c_activeBytes c ∧ ∀ id t, c_transfers c' !! id = Some t → 0 ≤ fo_Size (t_offer t);
  ag_sequence : 0 ≤ sequence c → sequence c + msum one_if_active (c_transfers c) ≤ maxUint64 →
    0 ≤ sequence c' ∧ sequence c' + msum one_if_active (c_transfers c') ≤ sequence c + msum one_if_active (c_transfers c);
  ag_descriptor : st_descriptor (c_progress c') = st_descriptor (c_progress c);
  ag_revision : c_revision c' = c_revision c;
  ag_data : fs_data (c_fs c') = fs_data (c_fs c)
}.
Lemma aged_refl now c : aged now c c.
Proof. split; try done; lia. Qed.
Lemma aged_trans now c1 c2 c3 : aged now c1 c2 → aged now c2 c3 → aged now c1 c3.
Proof.
  intros [A1 A2 A3 A4 A5 A6 A7 A8 A9 A10 A11] [B1 B2 B3 B4 B5 B6 B7 B8 B9 B10 B11]. split; auto; try congruence; [lia|..].
  - intros Hs. destruct (A7 Hs) as [? Hs2]. destruct (B7 Hs2). split; [lia|done].
  - intros Hs Hm. destruct (A8 Hs Hm). destruct B8; [done|lia|]. split; [done|lia].
Qed.
Lemma expire_one_aged f now c b id : aged now c (expire_one f now (c, b) id).1.
Proof.
  unfold expire_one. destruct (c_transfers c !! id) as [t|] eqn:Ht; [|apply aged_refl]. destruct (active t) eqn:Ha; [|apply aged_refl].
  destruct (Z.leb_spec (fo_ExpiresAtUnixMS (t_offer t)) (UnixMilli now)) as [Hle|]; [|apply aged_refl]. cbv zeta. cbn [andb fst].
  set (t' := finish t Failed "transfer expired"). set (c1 := set_transfer _ id t').
  assert (∀ w, msum w (c_transfers c1) = msum w (c_transfers c) - w t + w t') as Hsum by (intros w; simpl; by apply msum_insert).
  assert (one_if_active t = 1) as Hone by (unfold one_if_active; by rewrite Ha).
  assert (∀ payload, aged now c (publish_progress c1 payload).2) as Hp; [|case_match; apply Hp].
  intros payload. assert (c_transfers (publish_progress c1 payload).2 = c_transfers c1 ∧ c_fs (publish_progress c1 payload).2 = c_fs c1 ∧ c_activeBytes (publish_progress c1 payload).2 = c_activeBytes c1) as (Em & Ef & Eb)
    by (destruct (progress_core c1 payload) as (_ & ? & ? & ?); done).
  pose proof (Hsum one_if_active) as Hs1. change (one_if_active t') with 0 in Hs1. pose proof (one_nonneg (c_transfers c)) as Hnn. pose proof (one_nonneg (c_transfers c1)) as Hnn1.
  split; rewrite ?Em, ?Ef, ?Eb.
  - intros Htx id' u Hu. rewrite Em in Hu. simpl in Hu. apply lookup_insert_Some in Hu as [[<- <-]|[_ Hu]]; [|by eapply Htx].
    destruct (Htx id t Ht) as (_ & _ & ?). split; [done|split; [done|assumption]].
  - simpl. by rewrite map_size_insert_Some by eauto.
  - intros id' Hn. simpl. rewrite lookup_insert_ne; [done|]. by intros ->; congruence.
  - intros id' u Hu Hlt. simpl. rewrite lookup_insert_ne; [done|]. intros ->. simplify_eq. lia.
  - intros p e. simpl. apply (rm_sub _ _ _ (Remove_removed f (c_fs c) (t_tempPath t))).
  - lia.
  - intros Hs. pose proof (Hs id t Ht). split; [simpl; lia|]. intros id' u Hu. simpl in Hu. apply lookup_insert_Some in Hu as [[<- <-]|[_ Hu]]; [done|by eapply Hs].
  - unfold publish_progress, Stream_Publish, sequence. change (c_progress c1) with (c_progress c). intros Hs Hm.
    destruct (validatePayload _ payload) as [[]|]; cbn [mapErr mbind result_bind]; [|cbn [snd]; change (c_progress c1) with (c_progress c); lia].
    destruct (st_sequence (c_progress c) =? maxUint64) eqn:Eseq; [cbn [snd]; change (c_progress c1) with (c_progress c); lia|]. cbn [snd set_progress c_progress st_sequence]. apply Z.eqb_neq in Eseq. rewrite u64_small by (unfold is_u64; lia). lia.
  - unfold publish_progress, Stream_Publish. change (c_progress c1) with (c_progress c). destruct (validatePayload _ payload) as [[]|]; cbn [mapErr mbind result_bind]; [|done]. by destruct (_ =? maxUint64).
  - unfold publish_progress. by destruct (Stream_Publish _ _) as [[]|].
  - simpl. unfold Remove. by destruct (_ && _).
Qed.
Lemma expire_aged f now order c : ∃ c', aged now c c' ∧ (expireLocked convert f c now order = c' ∨ expireLocked convert f c now order = (updateSummariesLocked convert f c').2).
Proof.
  unfold expireLocked. destruct (fold_left (expire_one f now) order (c, false)) as [c' changed] eqn:E. exists c'. split; [|destruct changed; auto].
  revert E. generalize false. revert c. induction order as [|id order IH]; intros c b E; [injection E as <- _; apply aged_refl|].
  cbn [fold_left] in E. pose proof (expire_one_aged f now c b id) as Ha. destruct (expire_one f now (c, b) id) as [c1 b1].
  eapply aged_trans; [exact Ha|by eapply IH].
Qed.

Definition sound (r q : Z) (c : Controller) : Prop := ctl_ok c ∧ texts c ∧ short c ∧ room r q c.
Lemma sound_core r q r' q' c c' : sound r q c → same_core c c' → room r' q' c' → sound r' q' c'.
Proof.
  intros (Hc & Ht & [Hs1 Hs2] & _) Hcore Hr. pose proof (same_core_evolves _ _ _ Hc Hcore) as He. destruct Hcore as ((_ & _ & _ & _ & _ & Hh & _) & Hm & _).
  split_and!; [|intros id t; rewrite Hm; apply Ht|split; congruence|done]. unfold ctl_ok. rewrite Hh. by eapply ev_inv.
Qed.
Lemma ctl_ok_evolves c c' : evolves (c_maxHistory c) c c' → ctl_ok c'.
Proof. intros He. unfold ctl_ok. destruct (ev_config _ _ _ He) as (_ & _ & _ & _ & _ & -> & _). by eapply ev_inv. Qed.
Lemma update_counters f c : let c' := (updateSummariesLocked convert f c).2 in
  c_progress c' = c_progress c ∧ (c_revision c' = c_revision c ∨ (c_revision c' = u64 (c_revision c + 1) ∧ c_revision c ≠ maxUint64)).
Proof. unfold updateSummariesLocked. destruct (Z.eqb_spec (c_revision c) maxUint64); [auto|]. cbv zeta. case_match; cbn; auto. Qed.

(** The state after the sweep that starts an operation. *)
Lemma swept r q c now order : sound (r + 1) q c → 0 ≤ r → 0 ≤ q → let c1 := expireLocked convert no_faults c now order in
  sound r q c1 ∧ same_config c c1 ∧ keeps c c1 ∧
  (∀ id, c_transfers c !! id = None → c_transfers c1 !! id = None) ∧
  (∀ id t, c_transfers c !! id = Some t → UnixMilli now < fo_ExpiresAtUnixMS (t_offer t) → c_transfers c1 !! id = Some t) ∧
  (∀ p e, fs_tree (c_fs c1) !! p = Some e → fs_tree (c_fs c) !! p = Some e) ∧
  msum one_if_active (c_transfers c1) ≤ msum one_if_active (c_transfers c) ∧ c_activeBytes c1 ≤ c_activeBytes c ∧ size (c_transfers c1) = size (c_transfers c) ∧
  fs_data (c_fs c1) = fs_data (c_fs c).
Proof.
  intros (Hc & Ht & [Hs1 Hs2] & (R1 & R2 & R3 & R4 & R5)) Hr Hq c1. pose proof (expireLocked_evolves convert _ no_faults now order c Hc) as He. fold c1 in He.
  destruct (expire_aged no_faults now order c) as (c' & Ha & Hx). fold c1 in Hx.
  assert (c_transfers c1 = c_transfers c' ∧ c_activeBytes c1 = c_activeBytes c' ∧ c_fs c1 = c_fs c' ∧ c_progress c1 = c_progress c' ∧
    (c_revision c1 = c_revision c' ∨ (c_revision c1 = u64 (c_revision c' + 1) ∧ c_revision c' ≠ maxUint64))) as (Em & Eb & Ef & Ep & Er).
  { destruct Hx as [-> | ->]; [by auto 6|]. destruct (update_core convert no_faults c') as (_ & -> & -> & ->). destruct (update_counters no_faults c') as [-> Hrev]. auto. }
  destruct Ha as [A1 A2 A3 A4 A5 A6 A7 A8 A9 A10 A11]. destruct A7 as [A7 _]; [intros id t Hid; by eapply active_size|]. destruct A8 as [A8 A8']; [done|lia|].
  rewrite ?Em, ?Eb, ?Ef. unfold sound. split_and!; try done.
  - by apply ctl_ok_evolves in He.
  - intros id t. rewrite Em. by apply A1.
  - split; [rewrite Em, A2; done|]. destruct (ev_config _ _ _ He) as (_ & _ & _ & _ & _ & -> & _). done.
  - unfold room, sequence. rewrite Ep, Em. fold (sequence c'). rewrite A9. destruct Er as [-> | [-> Hne]]; [split_and!; try done; lia|].
    rewrite u64_small by (unfold is_u64; lia). split_and!; try done; lia.
  - by eapply ev_config.
  - by eapply ev_keeps.
Qed.

(** An upload in progress. *)
Definition uploading (r q : Z) (c : Controller) (owner : NodeID) (o : FileOfferV1) (data : list byte) : Prop :=
  sound r q c ∧ ∃ t, c_transfers c !! fo_TransferID o = Some t ∧ active t = true ∧ t_offer t = o ∧ t_owner t = owner ∧ t_received t = blen data ∧
    open_at (c_fs c) t data ∧ fs_tree (c_fs c) !! (c_root c ++ Split (fo_Path o) slash) = None ∧
    parent_exists (c_fs c) (c_root c ++ Split (fo_Path o) slash) = true.
(** It survives the sweep. *)
Lemma uploading_swept r q c owner o data now order : uploading (r + 1) q c owner o data → 0 ≤ r → 0 ≤ q → UnixMilli now < fo_ExpiresAtUnixMS o →
  uploading r q (expireLocked convert no_faults c now order) owner o data ∧ c_root (expireLocked convert no_faults c now order) = c_root c.
Proof.
  intros (Hs & t & Ht & Ha & Ho & Hown & Hr & (i & Hf & Hp & Hd) & Hn & Hpar) Hr0 Hq0 Hexp. pose proof Hs as (Hc & _).
  destruct (swept r q c now order Hs Hr0 Hq0) as (Hs1 & (Hroot & Htemp & _) & Hk & _ & Hkept & Htree & _ & _ & _ & Hdata). set (c1 := expireLocked convert no_faults c now order) in *.
  assert (c_transfers c1 !! fo_TransferID o = Some t) as Ht1 by (apply Hkept; [done|by rewrite Ho]).
  split; [|done]. split; [done|]. exists t. rewrite Hroot. split_and!; try done.
  - destruct (active_open _ _ _ _ (proj1 Hs1) Ht1 Ha) as (j & data' & Hj & Hpj & Hdj & Hlj). rewrite Hf in Hj. injection Hj as <-. exists i. split_and!; [done|done|].
    by rewrite Hdata.
  - destruct (fs_tree (c_fs c1) !! _) as [e|] eqn:E; [|done]. apply Htree in E. congruence.
  - unfold parent_exists in *. apply bool_decide_eq_true in Hpar. apply bool_decide_eq_true.
    assert (foreign c (removelast (c_root c ++ Split (fo_Path o) slash))) as Hfo.
    { intros id u Hu Hau E. destruct (active_open _ _ _ _ Hc Hu Hau) as (j & ? & _ & Hj & _). rewrite E in Hj. congruence. }
    by destruct (Hk _ _ Hpar Hfo) as (? & _).
Qed.

(** *** One operation each *)

Context `{!CryptoLaws}.
Definition checksum (data : list byte) : string := EncodeToString (Sum256 data).
Lemma checksum_hex data : hex_field (checksum data) 32 = Ok tt.
Proof. unfold hex_field. apply mapErr_ok. pose proof (Sum256_size data) as Hs. unfold blen in Hs. rewrite <- Hs. apply validateHexID_EncodeToString. Qed.
Lemma publish_result_ok c id t r q : sound (r + 1) (q + 1) c → c_transfers c !! id = Some t → 0 ≤ r → 0 ≤ q →
  ∃ payload c', publish_result convert no_faults c t = (Ok payload, c') ∧ same_core c c' ∧ sound r q c'.
Proof.
  intros Hs Hid Hr Hq. pose proof Hs as (Hc & Ht & Hsh & Hroom). destruct (publish_ok c id t r q Hc Ht Hsh Hid Hroom Hr Hq) as (payload & c' & Hp & Hpub & Hcore & Hroom').
  exists payload, c'. unfold publish_result. rewrite Hpub. split_and!; [by rewrite Hp|done|by eapply sound_core].
Qed.
Lemma active_owned c id t owner : c_transfers c !! id = Some t → t_owner t = owner → active t = true → activeOwnedLocked c id owner = Ok t.
Proof. intros Ht Ho Ha. unfold activeOwnedLocked. by rewrite Ht, Ho, Z.eqb_refl, Ha. Qed.

Lemma chunk_step r q c owner o data d now order : uploading (r + 2) (q + 1) c owner o data → 0 ≤ r → 0 ≤ q → Offer_Validate o = Ok tt →
  UnixMilli now < fo_ExpiresAtUnixMS o → 0 < blen d ≤ fo_ChunkSize o → blen data + blen d ≤ fo_Size o →
  ∃ payload c', chunkFor convert no_faults c owner (mkChunk 1 (fo_TransferID o) (blen data) d (checksum d)) now order = (Ok payload, c') ∧
    uploading r q c' owner o (data ++ d) ∧ c_root c' = c_root c.
Proof.
  intros Hu Hr Hq Ho Hexp Hd Hsz. destruct (offer_facts o Ho) as (Hid & _ & _ & _ & Hch & _). unfold chunkFor, Chunk_Validate.
  cbn [fk_Version fk_TransferID fk_Offset fk_Data fk_SHA256]. change (version1 1) with (Ok tt : result file_error unit). rewrite Hid, checksum_hex. cbn [mbind result_bind].
  assert (0 ≤ blen data) as Hpos by (unfold blen; lia).
  rewrite (proj2 (Z.ltb_ge (blen data) 0)), (proj2 (Z.eqb_neq (blen d) 0)), (proj2 (Z.ltb_ge MaxFileChunkBytes (blen d))) by lia. cbn [orb].
  change (EncodeToString (Sum256 d)) with (checksum d). rewrite String.eqb_refl. cbn [negb]. cbv zeta.
  replace (r + 2) with (r + 1 + 1) in Hu by lia. destruct (uploading_swept (r + 1) (q + 1) c owner o data now order Hu ltac:(lia) ltac:(lia) Hexp) as [Hu1 Hroot].
  set (c1 := expireLocked convert no_faults c now order) in *. rewrite <- Hroot. clearbody c1. clear Hroot Hu c. rename c1 into c.
  destruct Hu1 as (Hs & t & Ht & Ha & Hto & Hown & Hrec & (i & Hf & Hp & Hda) & Hn & Hpar). rewrite (active_owned c _ t owner) by done. rewrite Hto, Hrec, Hf.
  pose proof Hs as (Hc & Htx & [Hsh1 Hsh2] & Hroom). pose proof (ok_transfers _ _ Hc _ _ Ht) as [_ _ Tsz _ Tfin _ _]. pose proof (proj2 (ok_limits _ _ Hc)) as Hmax. rewrite Hto in *.
  unfold MaxFileChunkBytes in Hch. rewrite i64_small by lia. rewrite (proj2 (Z.ltb_ge (fo_ChunkSize o) (blen d))), (proj2 (Z.ltb_ge (fo_Size o) _)), Z.ltb_irrefl, Z.eqb_refl by lia. cbn [orb negb].
  change (default 0%nat (Some i)) with i. unfold WriteAt, content. rewrite Hda. change (default [] (Some data)) with data. cbn [f_write no_faults negb].
  unfold blen at 1. rewrite Nat2Z.id, write_at_end.
  assert (blen data + blen d = blen (data ++ d)) as El by (unfold blen; rewrite length_app; lia). rewrite El, <- Hf, <- Hto. change (mkTransfer _ _ _ _ _ _ _ _) with (with_received t (blen (data ++ d))).
  assert (blen (data ++ d) ≤ fo_Size (t_offer t)) as Hle by (rewrite <- El, Hto; lia).
  pose proof (received_evolves _ c _ t i (data ++ d) Hc Ht Ha Hf Hp Hle) as He. rewrite Hto in *. set (t' := with_received t (blen (data ++ d))) in *.
  set (c2 := set_transfer _ (fo_TransferID o) t') in *.
  assert (sound (r + 1) (q + 1) c2) as Hs2.
  { split_and!; [by apply ctl_ok_evolves in He| |split; [simpl; by rewrite map_size_insert_Some by eauto|done]|].
    - intros id u Hu. simpl in Hu. apply lookup_insert_Some in Hu as [[<- <-]|[_ Hu]]; [exact (Htx _ _ Ht)|by eapply Htx].
    - destruct Hroom as (R1 & R2 & R3 & R4 & R5). split_and!; [done|done|done| |done]. change (sequence c2) with (sequence c).
      assert (msum one_if_active (c_transfers c2) = msum one_if_active (c_transfers c)) as ->; [|done]. simpl. rewrite (msum_insert _ _ _ t) by done.
      unfold one_if_active at 2 3. rewrite Ha. simpl. lia. }
  assert (c_transfers c2 !! fo_TransferID o = Some t') as Ht2 by apply lookup_insert_eq.
  destruct (publish_result_ok c2 (fo_TransferID o) t' r q Hs2 Ht2 Hr Hq) as (payload & c3 & Hpub & Hcore & Hs3). exists payload, c3. rewrite Hpub.
  destruct Hcore as ((Er & _) & Em & _ & Ef). split_and!; [done| |done]. split; [done|]. exists t'. rewrite Em, Ef, Er. split_and!; try done.
  exists i. split_and!; [done|done|]. simpl. apply lookup_insert_eq.
Qed.

Lemma complete_step r q c owner o data now order : uploading (r + 2) (q + 1) c owner o data → 0 ≤ r → 0 ≤ q → Offer_Validate o = Ok tt →
  UnixMilli now < fo_ExpiresAtUnixMS o → fo_Size o = blen data → fo_SHA256 o = checksum data →
  ∃ payload c', completeFor convert no_faults c owner (mkComplete 1 (fo_TransferID o) (fo_Size o) (fo_SHA256 o)) now order = (Ok payload, c') ∧
    sound r q c' ∧ file_at (c_fs c') (c_root c ++ Split (fo_Path o) slash) data ∧ ∃ t, c_transfers c' !! fo_TransferID o = Some t ∧ t_state t = Completed.
Proof.
  intros Hu Hr Hq Ho Hexp Hsz Hsum. destruct (offer_facts o Ho) as (Hid & _ & _ & Hpos & _ & Hsha). unfold completeFor, Complete_Validate.
  cbn [fc_Version fc_TransferID fc_Size fc_SHA256]. change (version1 1) with (Ok tt : result file_error unit). rewrite Hid, Hsha. cbn [mbind result_bind].
  rewrite (proj2 (Z.ltb_ge _ _)) by lia. cbv zeta.
  replace (r + 2) with (r + 1 + 1) in Hu by lia. destruct (uploading_swept (r + 1) (q + 1) c owner o data now order Hu ltac:(lia) ltac:(lia) Hexp) as [Hu1 Hroot].
  set (c1 := expireLocked convert no_faults c now order) in *. rewrite <- Hroot. clearbody c1. clear Hroot Hu c. rename c1 into c.
  destruct Hu1 as (Hs & t & Ht & Ha & Hto & Hown & Hrec & (i & Hf & Hp & Hda) & Hn & Hpar). rewrite (active_owned c _ t owner) by done.
  pose proof Hs as (Hc & Htx & [Hsh1 Hsh2] & Hroom). pose proof (ok_transfers _ _ Hc _ _ Ht) as [_ _ _ _ Tfin _ _]. rewrite Hto, Hrec, Hf in *.
  rewrite Z.eqb_refl, String.eqb_refl, <- Hsz, Z.eqb_refl. cbn [orb negb f_sync f_seek f_copy f_close no_faults].
  change (default 0%nat (Some i)) with i. unfold content. rewrite Hda. change (default [] (Some data)) with data. rewrite take_ge by (unfold blen in Hsz; lia).
  change (EncodeToString (Sum256 data)) with (checksum data). rewrite <- Hsum, String.eqb_refl. cbn [negb].
  unfold Lstat. cbn [f_lstat no_faults negb]. rewrite Tfin, Hn. unfold Rename. rewrite Hp. cbn [f_rename no_faults negb]. rewrite Hpar, Hn. rewrite bool_decide_eq_false_2 by done. cbn [orb negb].
  assert (evolves (c_maxHistory c) c (activated c (fo_TransferID o) t i)) as He.
  { apply (activated_evolves _ c _ t i data); try done; [by rewrite Hto, Hrec|by rewrite Hto|by rewrite Tfin]. }
  match goal with |- context [publish_result _ _ ?x _] => assert (x = activated c (fo_TransferID o) t i) as -> by (unfold activated; by rewrite Tfin, Hto) end.
  set (t' := finish t Completed (t_err t)). set (c2 := activated c (fo_TransferID o) t i) in *.
  assert (c_transfers c2 !! fo_TransferID o = Some t') as Ht2 by apply lookup_insert_eq.
  assert (sound (r + 1) (q + 1) c2) as Hs2.
  { split_and!; [by apply ctl_ok_evolves in He| |split; [simpl; by rewrite map_size_insert_Some by eauto|done]|].
    - intros id u Hu. simpl in Hu. apply lookup_insert_Some in Hu as [[<- <-]|[_ Hu]]; [exact (Htx _ _ Ht)|by eapply Htx].
    - destruct Hroom as (R1 & R2 & R3 & R4 & R5). split_and!; [done|done|done| |done]. change (sequence c2) with (sequence c).
      assert (msum one_if_active (c_transfers c2) ≤ msum one_if_active (c_transfers c)); [|lia]. simpl. rewrite (msum_insert _ _ _ t) by done.
      unfold one_if_active at 2 3. rewrite Ha. simpl. lia. }
  destruct (publish_result_ok c2 (fo_TransferID o) t' r q Hs2 Ht2 Hr Hq) as (payload & c3 & Hpub & Hcore & Hs3). exists payload, c3. rewrite Hpub.
  destruct Hcore as (_ & Em & _ & Ef). split_and!; [done|done| |exists t'; by rewrite Em]. rewrite Ef. exists i. split; [|done]. simpl. rewrite Tfin. apply lookup_insert_eq.
Qed.

Lemma make_directories_ok segs : Forall plain segs → ∀ fs current, fs_tree fs !! current = Some EDir →
  (∀ k, (0 < k ≤ length segs)%nat → fs_tree fs !! (current ++ take k segs) = None ∨ fs_tree fs !! (current ++ take k segs) = Some EDir) →
  ∃ fs', make_directories no_faults fs current segs = (Ok (current ++ segs), fs') ∧ grown fs fs' ∧ fs_tree fs' !! (current ++ segs) = Some EDir ∧
    ∀ p e, fs_tree fs' !! p = Some e → fs_tree fs !! p = Some e ∨ ∃ k, (0 < k ≤ length segs)%nat ∧ p = current ++ take k segs.
Proof.
  induction 1 as [|s segs Hs _ IH]; intros fs current Hcur Hfree; cbn [make_directories].
  { exists fs. rewrite app_nil_r. split_and!; [done|apply grown_refl|done|auto]. }
  rewrite Join_plain by done. pose proof (Hfree 1%nat ltac:(simpl; lia)) as H1. change (take 1 (s :: segs)) with [s] in H1.
  assert (∃ fs1, grown fs fs1 ∧ fs_tree fs1 !! (current ++ [s]) = Some EDir ∧ (∀ p e, fs_tree fs1 !! p = Some e → fs_tree fs !! p = Some e ∨ p = current ++ [s]) ∧
    (let '(info, fs2) := match Lstat no_faults fs (current ++ [s]) with
       | Err OSNotExist => match Mkdir no_faults fs (current ++ [s]) with None => (Err OSFailed, fs) | Some fs2 => (Lstat no_faults fs2 (current ++ [s]), fs2) end
       | info => (info, fs) end in (info, fs2) = (Ok EDir, fs1))) as (fs1 & Hg & Hd & Hnew & Hstep).
  { unfold Lstat. cbn [f_lstat no_faults negb]. destruct H1 as [H1|H1]; rewrite H1; [|exists fs; split_and!; [apply grown_refl|done|auto|done]].
    unfold Mkdir, parent_exists. cbn [f_mkdir no_faults negb]. rewrite removelast_last, Hcur, H1. rewrite bool_decide_eq_true_2 by done. rewrite bool_decide_eq_false_2 by (by intros [? ?]). cbn [orb negb].
    cbn [fs_tree]. rewrite lookup_insert_eq. exists (mkFS (<[current ++ [s] := EDir]> (fs_tree fs)) (fs_data fs) (fs_next fs)). split_and!; [|apply lookup_insert_eq| |done].
    - split; try done; simpl; intros p e Hp; [|apply lookup_insert_Some in Hp as [[<- <-]|[_ Hp]]; auto]. rewrite lookup_insert_ne; [done|]. intros <-. congruence.
    - simpl. intros p e Hp. apply lookup_insert_Some in Hp as [[<- <-]|[_ Hp]]; auto. }
  destruct (match Lstat _ _ _ with Ok _ => _ | Err _ => _ end) as [info fs2]. injection Hstep as -> ->.
  destruct (IH fs1 (current ++ [s]) Hd) as (fs' & Hm & Hg' & Hd' & Hnew').
  { intros k Hk. rewrite <- app_assoc. simpl. specialize (Hfree (S k) ltac:(simpl; lia)). cbn [take] in Hfree.
    destruct (fs_tree fs1 !! (current ++ s :: take k segs)) as [e|] eqn:E; [|by left]. right. destruct (Hnew _ _ E) as [E'|E'].
    - destruct Hfree as [Hf|Hf]; congruence.
    - apply (f_equal length) in E'. rewrite !length_app in E'. simpl in E'. rewrite length_take in E'. lia. }
  exists fs'. rewrite Hm. rewrite <- app_assoc in *. simpl in *. split_and!; [done|by eapply grown_trans|done|].
  intros p e Hp. destruct (Hnew' p e Hp) as [Hp1|(k & Hk & ->)].
  - destruct (Hnew p e Hp1) as [Hp2| ->]; [by left|]. right. exists 1%nat. split; [lia|done].
  - right. exists (S k). rewrite <- app_assoc. split; [lia|done].
Qed.
Lemma Rel_app p l : Rel p (p ++ l) = l.
Proof. induction p as [|x p IH]; [done|]. simpl. by rewrite String.eqb_refl. Qed.

(** The destination is free, and the way to it open. *)
Record free (c : Controller) (o : FileOfferV1) : Prop := mkFree {
  fr_root : fs_tree (c_fs c) !! c_root c = Some EDir;
  fr_way k : (0 < k < length (Split (fo_Path o) slash))%nat →
    fs_tree (c_fs c) !! (c_root c ++ take k (Split (fo_Path o) slash)) = None ∨ fs_tree (c_fs c) !! (c_root c ++ take k (Split (fo_Path o) slash)) = Some EDir;
  fr_destination : fs_tree (c_fs c) !! (c_root c ++ Split (fo_Path o) slash) = None;
  fr_temp : fs_tree (c_fs c) !! (c_tempRoot c ++ [fo_TransferID o +:+ ".part"]) = None;
  fr_outside : head (Split (fo_Path o) slash) ≠ Some ".mfh-tmp"
}.
Lemma destination_ok c o : ctl_ok c → free c o → Offer_Validate o = Ok tt →
  ∃ fs', safeDestination no_faults (c_fs c) (c_root c) (fo_Path o) = (Ok (c_root c ++ Split (fo_Path o) slash), fs') ∧ grown (c_fs c) fs' ∧
    fs_tree fs' !! (c_root c ++ Split (fo_Path o) slash) = None ∧ fs_tree fs' !! (c_tempRoot c ++ [fo_TransferID o +:+ ".part"]) = None ∧
    parent_exists fs' (c_root c ++ Split (fo_Path o) slash) = true.
Proof.
  intros Hc [F1 F2 F3 F4 F5] Ho. pose proof (offer_plain o Ho) as Hp. unfold safeDestination. pose proof (split_nonempty (fo_Path o) slash) as Hne.
  set (segs := Split (fo_Path o) slash) in *. assert (segs = removelast segs ++ [List.last segs ""]) as Es by (by apply app_removelast_last).
  set (dirs := removelast segs) in *. set (name := List.last segs "") in *. clearbody dirs name.
  assert (Forall plain dirs ∧ plain name) as [Hr Hl] by (rewrite Es in Hp; apply Forall_app in Hp as [? Hp]; split; [done|]; by apply Forall_cons in Hp as [? _]).
  assert (length segs = S (length dirs)) as Elen by (rewrite Es, length_app; simpl; lia).
  assert (∀ k, (k ≤ length dirs)%nat → take k dirs = take k segs) as Etake by (intros k Hk; rewrite Es, take_app_le by lia; done).
  destruct (make_directories_ok dirs Hr (c_fs c) (c_root c) F1) as (fs' & Hm & Hg & Hd & Hnew).
  { intros k Hk. rewrite Etake by lia. apply F2. lia. }
  rewrite Hm. rewrite Join_plain by done. rewrite <- app_assoc, <- Es, Rel_app.
  assert (escapes segs = false) as ->.
  { destruct segs as [|x l]; [done|]. apply Forall_cons in Hp as [(_ & _ & Hx) _]. unfold escapes. by apply String.eqb_neq. }
  assert (fs_tree fs' !! (c_root c ++ segs) = None) as Hdest.
  { destruct (fs_tree fs' !! (c_root c ++ segs)) as [e|] eqn:E; [|done]. destruct (Hnew _ _ E) as [E'|(k & Hk & E')]; [congruence|].
    apply app_inv_head in E'. apply (f_equal length) in E'. rewrite length_take, Elen in E'. lia. }
  unfold Lstat. cbn [f_lstat no_faults negb]. rewrite Hdest. exists fs'. split_and!; [done|done|done| |].
  - destruct (fs_tree fs' !! (c_tempRoot c ++ _)) as [e|] eqn:E; [|done]. destruct (Hnew _ _ E) as [E'|(k & Hk & E')]; [congruence|].
    rewrite (ok_tempRoot _ _ Hc), <- app_assoc in E'. apply app_inv_head in E'. rewrite Etake in E' by lia. exfalso. apply F5.
    destruct segs as [|x l]; [done|]. destruct k; [lia|]. simpl in E'. by injection E' as <- _.
  - unfold parent_exists. rewrite Es, app_assoc, removelast_last, Hd. by apply bool_decide_eq_true_2.
Qed.

(** The limits leave room for the offer. *)
Definition admits (c : Controller) (o : FileOfferV1) (now : Z) : Prop :=
  c_transfers c !! fo_TransferID o = None ∧ fo_Size o ≤ c_maxFileBytes c ∧ UnixMilli now < fo_ExpiresAtUnixMS o ≤ UnixMilli (now + c_maxLifetime c) ∧
  msum one_if_active (c_transfers c) < c_maxActive c ∧ c_activeBytes c + fo_Size o ≤ c_maxTotalBytes c ∧ Z.of_nat (size (c_transfers c)) ≤ 25.
Lemma free_swept c c1 o : ctl_ok c → free c o → same_config c c1 → keeps c c1 → (∀ p e, fs_tree (c_fs c1) !! p = Some e → fs_tree (c_fs c) !! p = Some e) → free c1 o.
Proof.
  intros Hc [F1 F2 F3 F4 F5] (Er & Et & _) Hk Htree.
  assert (∀ p, fs_tree (c_fs c) !! p = Some EDir → fs_tree (c_fs c1) !! p = Some EDir) as Hdir.
  { intros p Hp. assert (foreign c p) as Hfo; [|by destruct (Hk p _ Hp Hfo)].
    intros id u Hu Hau E. destruct (active_open _ _ _ _ Hc Hu Hau) as (j & ? & _ & Hj & _). rewrite E in Hj. congruence. }
  assert (∀ p, fs_tree (c_fs c) !! p = None → fs_tree (c_fs c1) !! p = None) as Hnone.
  { intros p Hp. destruct (fs_tree (c_fs c1) !! p) as [e|] eqn:E; [|done]. apply Htree in E. congruence. }
  split; rewrite ?Er, ?Et; auto. intros k Hk'. destruct (F2 k Hk'); auto.
Qed.
Lemma offer_step r q c owner o now order : sound (r + 2) (q + 2) c → 0 ≤ r → 0 ≤ q → Offer_Validate o = Ok tt → 0 < owner ≤ maxUint64 → admits c o now → free c o →
  ∃ payload c', offerFor convert no_faults c owner o now order = (Ok payload, c') ∧ uploading r q c' owner o [] ∧ c_root c' = c_root c.
Proof.
  intros Hs Hr Hq Ho Hown (A1 & A2 & [A3 A3'] & A4 & A5 & A6) Hfree. unfold offerFor. rewrite Ho.
  rewrite (proj2 (Z.ltb_ge (c_maxFileBytes c) _)), (proj2 (Z.leb_gt (fo_ExpiresAtUnixMS o) _)), (proj2 (Z.ltb_ge (UnixMilli (now + c_maxLifetime c)) _)) by lia. cbn [orb]. cbv zeta.
  replace (r + 2) with (r + 1 + 1) in Hs by lia. pose proof Hs as (Hc & _).
  destruct (swept (r + 1) (q + 2) c now order Hs ltac:(lia) ltac:(lia)) as (Hs1 & Hg & Hk & Hnone & _ & Htree & Hact & Hbytes & Hsize & _).
  set (c1 := expireLocked convert no_faults c now order) in *. pose proof (free_swept c c1 o Hc Hfree Hg Hk Htree) as Hf1. destruct Hg as (Er & Et & Em & Etot & Ea & _).
  assert (c_transfers c1 !! fo_TransferID o = None) as B1 by auto. assert (fo_Size o ≤ c_maxFileBytes c1) as B2 by lia.
  assert (msum one_if_active (c_transfers c1) < c_maxActive c1) as B4 by lia. assert (fo_Size o ≤ c_maxTotalBytes c1 - c_activeBytes c1) as B5 by lia.
  rewrite <- Er. clearbody c1. clear A1 A2 A3 A3' A4 A5 Hs Hc Hfree Hk Hnone Htree Hact Hbytes Er Et Em Etot Ea. rewrite <- Hsize in A6. clear Hsize c. rename c1 into c, Hs1 into Hs.
  pose proof Hs as (Hc & Htx & [Hsh1 Hsh2] & Hroom). rewrite B1, active_count, (proj2 (Z.leb_gt _ _)), (proj2 (Z.ltb_ge _ _)) by lia. cbn [orb].
  destruct (destination_ok c o Hc Hf1 Ho) as (fs & Hsafe & Hgrown & Hdest & Htemp & Hpar). rewrite Hsafe, Join_plain by apply part_plain.
  pose proof (grown_evolves _ c fs Hc Hgrown) as Heg. pose proof (ctl_ok_evolves _ _ Heg) as Hcg.
  unfold OpenExclusive. cbn [f_open no_faults negb]. assert (parent_exists fs (c_tempRoot c ++ [fo_TransferID o +:+ ".part"]) = true) as ->.
  { unfold parent_exists. rewrite removelast_last. apply bool_decide_eq_true_2. apply (ok_dir _ _ Hcg). }
  rewrite Htemp, bool_decide_eq_false_2 by (by intros [? ?]). cbn [orb negb].
  match goal with |- context [trimLocked ?x] => change x with (with_opened (set_fs c fs) owner o) end. set (cg := set_fs c fs) in *.
  assert (evolves (c_maxHistory c + 1) cg (with_opened cg owner o)) as Hev by by apply opened_evolves.
  pose proof (trim_evolves _ _ (ev_inv _ _ _ Hev)) as Htr. destruct (trim_spec (with_opened cg owner o)) as (Hsub & Hkept & Hsums).
  set (t := opened cg owner o) in *. change (mkTransfer o _ _ _ _ _ _ _) with t. set (c2 := trimLocked (with_opened cg owner o)) in *.
  assert (c_transfers c2 !! fo_TransferID o = Some t) as Ht2 by (apply Hkept; [apply lookup_insert_eq|done]).
  assert (sequence c2 = sequence c ∧ c_revision c2 = c_revision c ∧ c_progress c2 = c_progress c ∧ c_maxHistory c2 = c_maxHistory c ∧ c_root c2 = c_root c ∧ c_fs c2 = c_fs (with_opened cg owner o))
    as (Eseq & Erev & Eprog & Ehist & Eroot & Efs) by (unfold c2, trimLocked; by destruct (_ <=? _)).
  assert (sound (r + 1) (q + 1) c2) as Hs2.
  { split_and!; [unfold ctl_ok; rewrite Ehist; by eapply ev_inv| |split; [|by rewrite Ehist]|].
    - intros id u Hu. pose proof (lookup_weaken _ _ _ _ Hu Hsub) as Hu'. simpl in Hu'. apply lookup_insert_Some in Hu' as [[<- <-]|[_ Hu']]; [|by eapply Htx].
      split; [done|split; [done|assumption]].
    - etrans; [apply inj_le, map_subseteq_size, Hsub|]. simpl. rewrite map_size_insert_None by done. lia.
    - destruct Hroom as (R1 & R2 & R3 & R4 & R5). unfold room. rewrite Eseq, Erev, Eprog. rewrite Hsums by (unfold one_if_active; by intros u ->).
      assert (msum one_if_active (c_transfers (with_opened cg owner o)) = 1 + msum one_if_active (c_transfers c)) as -> by (apply (msum_new one_if_active _ _ t); done). split_and!; try done; lia. }
  destruct Hs2 as (Hc2 & Htx2 & Hsh & Hroom2). destruct (publish_ok c2 (fo_TransferID o) t r q Hc2 Htx2 Hsh Ht2 Hroom2 Hr Hq) as (payload & c3 & Hp & Hpub & Hcore & Hroom3).
  rewrite Hpub. exists payload, c3. pose proof Hcore as ((Er3 & _) & Em3 & _ & Ef3). rewrite Er3, Eroot. split_and!; [by rewrite Hp| |done].
  split; [by eapply (sound_core (r + 1) (q + 1)); [split_and!|..]|]. exists t. rewrite Em3, Ef3, Er3, Eroot, Efs.
  assert (c_root c ++ Split (fo_Path o) slash ≠ t_tempPath t) as Hne.
  { intros E. change (t_tempPath t) with (c_tempRoot c ++ [fo_TransferID o +:+ ".part"]) in E. rewrite (ok_tempRoot _ _ Hc), <- app_assoc in E. apply app_inv_head in E. by apply (fr_outside _ _ Hf1); rewrite E. }
  split_and!; try done.
  - exists (fs_next fs). split_and!; [done|apply lookup_insert_eq|apply lookup_insert_eq].
  - simpl. rewrite lookup_insert_ne; [done|]. by apply not_eq_sym.
  - unfold parent_exists in *. simpl. apply bool_decide_eq_true in Hpar. apply bool_decide_eq_true. rewrite lookup_insert_ne; [done|].
    intros E. change (c_tempRoot c ++ [fo_TransferID o +:+ ".part"] = removelast (c_root c ++ Split (fo_Path o) slash)) in E. rewrite <- E in Hpar. by rewrite Htemp in Hpar.
Qed.
End upload.

(** ** A whole upload *)

Section delivery.
Context `{Crypto, !CryptoLaws} (convert : list byte → option (list byte)).
Hypothesis convert_ok : ∀ t, Transfers_Validate t = Ok tt → blen (transfers_json t) ≤ 2 ^ 19 →
  ∃ out, convert (transfers_json t) = Some out ∧ 0 < blen out ≤ DefaultMaxPayload.

(** Pieces sent in order, each at some time. *)
Definition chunk_at : Type := Z * list string * list byte.
Fixpoint write_all (c : Controller) (s : uploadSession) (offset : Z) (chunks : list chunk_at) : option Controller :=
  match chunks with
  | [] => Some c
  | (now, order, data) :: rest =>
    match Session_Write convert no_faults c s (mkData offset data (checksum data)) now order with
    | (Ok _, c) => write_all c s (offset + blen data) rest
    | (Err _, _) => None
    end
  end.
(** Open, write, close with a commit: the controller, if everything was answered. *)
Definition upload (c : Controller) (owner : NodeID) (payload : list byte) (opened closed : Z * list string) (chunks : list chunk_at) : option Controller :=
  match OpenSession convert no_faults c owner CapabilityOpen payload opened.1 opened.2 with
  | (Err _, _) => None
  | (Ok s, c) =>
    c ← write_all c s 0 chunks;
    match Session_Close convert no_faults c s true [] closed.1 closed.2 with (Ok _, c, _) => Some c | (Err _, _, _) => None end
  end.
Definition contents (chunks : list chunk_at) : list byte := mjoin (snd <$> chunks).

Lemma write_all_ok owner o chunks : Offer_Validate o = Ok tt →
  Forall (λ k : chunk_at, UnixMilli k.1.1 < fo_ExpiresAtUnixMS o ∧ 0 < blen k.2 ≤ fo_ChunkSize o) chunks → ∀ r q c data, 0 ≤ r → 0 ≤ q →
  uploading (r + 2 * Z.of_nat (length chunks)) (q + Z.of_nat (length chunks)) c owner o data → blen data + blen (contents chunks) ≤ fo_Size o →
  ∃ c', write_all c (mkUploadSession owner o false) (blen data) chunks = Some c' ∧ uploading r q c' owner o (data ++ contents chunks) ∧ c_root c' = c_root c.
Proof.
  intros Ho. induction 1 as [|[[now order] d] chunks [Hnow Hd] _ IH]; intros r q c data Hr Hq Hu Hsz.
  { exists c. rewrite app_nil_r. simpl in Hu. rewrite !Z.add_0_r in Hu. done. }
  change (contents ((now, order, d) :: chunks)) with (d ++ contents chunks) in *. cbn [fst snd length] in *.
  assert (∀ a b, blen (a ++ b) = blen a + blen b) as Happ by (intros a b; unfold blen; rewrite length_app; lia). rewrite Happ in Hsz.
  assert (0 ≤ blen (contents chunks)) by (unfold blen; lia).
  replace (r + 2 * Z.of_nat (S (length chunks))) with (r + 2 * Z.of_nat (length chunks) + 2) in Hu by lia.
  replace (q + Z.of_nat (S (length chunks))) with (q + Z.of_nat (length chunks) + 1) in Hu by lia.
  destruct (chunk_step convert convert_ok _ _ c owner o data d now order Hu ltac:(lia) ltac:(lia) Ho Hnow Hd ltac:(lia)) as (payload & c1 & Hch & Hu1 & Hroot).
  cbn [write_all]. unfold Session_Write. cbn [us_closed us_owner us_offer da_Offset da_Payload da_Checksum]. rewrite Hch. cbn [progress_result].
  destruct (IH r q c1 (data ++ d) Hr Hq Hu1 ltac:(rewrite Happ; lia)) as (c' & Hw & Hu' & Hroot'). exists c'. rewrite <- Happ, Hw. rewrite <- app_assoc in Hu'.
  split_and!; [done|done|congruence].
Qed.

End delivery.

(** ** A concrete upload *)

Module Upload_demo.
Definition convert (data : list byte) : option (list byte) := Some data.
Lemma convert_ok t : Transfers_Validate t = Ok tt → blen (transfers_json t) ≤ 2 ^ 19 → ∃ out, convert (transfers_json t) = Some out ∧ 0 < blen out ≤ DefaultMaxPayload.
Proof.
  intros _ Hl. exists (transfers_json t). split; [done|]. change DefaultMaxPayload with (2 ^ 20). split; [|lia]. unfold transfers_json, blen. rewrite length_fmap. simpl. lia.
Qed.
Definition disk : filesystem := mkFS {[ [] := EDir; ["srv"] := EDir; ["srv"; "notes"] := EFile 0 ]} {[ 0%nat := [x01] ]} 1.
Definition config : Config := mkConfig ["srv"] 1024 2048 0 0 0 0.
Definition empty_stream : Stream := mkStream (VariableDescriptor zeroResourceID "" 0) 0 0 ∅.
Definition none : Controller := mkController [] [] 0 0 0 0 0 ∅ 0 0 (mkTransfers 0 0 []) empty_stream disk.
Definition start : Controller := from_ok none (Register no_faults disk config 1 true).
Definition data : list byte := [x61; x62; x63; x64; x65].
Definition id : string := EncodeToString (be_bytes 16 77).
Definition now : Z := 1000 * Second.
Definition offer : FileOfferV1 := mkOffer 1 id "inbox/a.txt" 5 (checksum (H := Toy.toy_crypto) data) 3 "" 2000000.
Definition payload : list byte := json_Marshal offer.
Definition chunks : list chunk_at := [(now, [id], [x61; x62; x63]); (now, [id], [x64; x65])].
Definition sent : Controller := default none (upload (H := Toy.toy_crypto) convert start 7 payload (now, []) (now, [id]) chunks).

Lemma disk_ok : fs_ok disk.
Proof.
  assert (∀ p e, fs_tree disk !! p = Some e → (e = EDir ∧ p ≠ ["srv"; "notes"]) ∨ (e = EFile 0 ∧ p = ["srv"; "notes"])) as Hcase.
  { intros p e Hp. unfold disk in Hp. simpl in Hp. repeat (apply lookup_insert_Some in Hp as [[<- <-]|[_ Hp]]; [by auto|]). apply lookup_singleton_Some in Hp as [<- <-]. auto. }
  split.
  - intros p i Hp. destruct (Hcase p _ Hp) as [[? _]|[[= ->] _]]; [done|]. split; [simpl; lia|]. by exists [x01].
  - intros p q i Hp Hq. destruct (Hcase p _ Hp) as [[? _]|[_ ->]], (Hcase q _ Hq) as [[? _]|[_ ->]]; done.
Qed.
Lemma started : Register no_faults disk config 1 true = Ok start.
Proof. apply from_ok_spec. vm_compute. reflexivity. Qed.
Lemma config_small : g_MaxFileBytes config ≤ 2 ^ 62.
Proof. vm_compute. discriminate. Qed.
Lemma start_ok : ctl_ok (H := Toy.toy_crypto) start ∧ c_transfers start = ∅.
Proof. exact (Register_ok (H := Toy.toy_crypto) no_faults disk config 1 true start disk_ok config_small started). Qed.
Lemma start_foreign p : foreign start p.
Proof. intros i t Ht. rewrite (proj2 start_ok) in Ht. by rewrite lookup_empty in Ht. Qed.
Lemma start_sound : sound (H := Toy.toy_crypto) (2 * Z.of_nat (length chunks) + 4) (Z.of_nat (length chunks) + 3) start.
Proof.
  split; [exact (proj1 start_ok)|]. split; [intros i t Ht; rewrite (proj2 start_ok) in Ht; by rewrite lookup_empty in Ht|].
  split; [split; [rewrite (proj2 start_ok); vm_compute; discriminate|vm_compute; discriminate]|].
  unfold room. rewrite (proj2 start_ok). split; [vm_compute; discriminate|]. split; [vm_compute; discriminate|]. split; [vm_compute; discriminate|].
  split; [vm_compute; discriminate|vm_compute; reflexivity].
Qed.
Lemma start_admits : admits start offer now.
Proof.
  unfold admits. rewrite (proj2 start_ok). split; [reflexivity|]. split; [vm_compute; discriminate|]. split; [split; [vm_compute; reflexivity|vm_compute; discriminate]|].
  split; [vm_compute; reflexivity|]. split; [vm_compute; discriminate|vm_compute; discriminate].
Qed.
Lemma start_free : free start offer.
Proof.
  assert (Split (fo_Path offer) slash = ["inbox"; "a.txt"]) as E by (vm_compute; reflexivity). split; rewrite ?E.
  - vm_compute. reflexivity.
  - intros k Hk. assert (k = 1%nat) as -> by (simpl in Hk; lia). left. vm_compute. reflexivity.
  - vm_compute. reflexivity.
  - vm_compute. reflexivity.
  - done.
Qed.
End Upload_demo.

Lemma upload_keeps_files_witness :
  fs_tree (c_fs (run_ops (H := Toy.toy_crypto) Upload_demo.convert Upload_demo.start ([] ++ [(no_faults, OpOffer 7 Upload_demo.offer Upload_demo.now [])]))) !! ["srv"; "notes"] = Some (EFile 0) ∧
  ∀ i, EFile 0 = EFile i →
    fs_data (c_fs (run_ops (H := Toy.toy_crypto) Upload_demo.convert Upload_demo.start ([] ++ [(no_faults, OpOffer 7 Upload_demo.offer Upload_demo.now [])]))) !! i =
    fs_data (c_fs (run_ops (H := Toy.toy_crypto) Upload_demo.convert Upload_demo.start [])) !! i.
Proof.
  apply (upload_keeps_files Upload_demo.convert Upload_demo.disk Upload_demo.config 1 no_faults true).
  - exact Upload_demo.disk_ok.
  - exact Upload_demo.config_small.
  - exact Upload_demo.started.
  - vm_compute. reflexivity.
  - exact (Upload_demo.start_foreign _).
Defined.


(** ** What the code does not guarantee *)

Module Upload_findings.
#[local] Existing Instance Toy.toy_crypto.
Definition opened : result transfer_error uploadSession * Controller :=
  OpenSession Upload_demo.convert no_faults Upload_demo.start 7 CapabilityOpen Upload_demo.payload Upload_demo.now [].
Definition session : uploadSession := from_ok (mkUploadSession 0 offer_zero true) opened.1.
(** The node closes the session with a commit that fails, and aborts it, as
    [handleSessionClose] does. *)
Definition committed : result transfer_error OperationResult * Controller * uploadSession :=
  Session_Close Upload_demo.convert no_faults opened.2 session true [] Upload_demo.now [].
Definition aborted : Controller := (Session_Abort Upload_demo.convert no_faults committed.1.2 committed.2 (Some "failed")).1.
(** The commit was refused, and the transfer still holds its bytes of the total. *)
Lemma refused_commit_keeps_bytes :
  match committed.1.1 with Err TMismatch => true | _ => false end = true ∧ activeCountLocked (c_transfers aborted) = 1 ∧ c_activeBytes aborted = 5.
Proof. split; [vm_compute; reflexivity|]. split; vm_compute; reflexivity. Qed.

(** A destination in the temporary directory, with the name of a temporary file. *)
Definition name : string := EncodeToString (be_bytes 16 88) +:+ ".part".
Definition offer : FileOfferV1 := mkOffer 1 Upload_demo.id (".mfh-tmp/" +:+ name) 5 (checksum Upload_demo.data) 5 "" 2000000.
Definition sent : Controller :=
  default Upload_demo.none (upload Upload_demo.convert Upload_demo.start 7 (json_Marshal offer) (Upload_demo.now, []) (Upload_demo.now, []) [(Upload_demo.now, [], Upload_demo.data)]).
Definition restarted : Controller := from_ok Upload_demo.none (Register no_faults (c_fs sent) Upload_demo.config 1 true).
Definition at_destination (c : Controller) : bool := bool_decide (is_Some (fs_tree (c_fs c) !! ["srv"; ".mfh-tmp"; name])).
(** The upload is completed, and the next start removes the file. *)
Lemma completed_in_temp_is_lost :
  bool_decide (t_state <$> c_transfers sent !! Upload_demo.id = Some Completed) = true ∧ at_destination sent = true ∧ at_destination restarted = false.
Proof. split; [vm_compute; reflexivity|]. split; vm_compute; reflexivity. Qed.
End Upload_findings.
