(* ===== verification/Registry.v ===== *)
(** * The resource registry (runtime/resource/resource.go, catalog.go)

    The registry owns the resources of a node and publishes their descriptors as a variable,
    the catalog.  Registration and removal hold the registry's locks and the catalog's gate,
    so each is one step; a refused one undoes its changes, which is written out.  Resources
    are an interface in the source and a type class here.  The JSON encoding of the catalog
    and the schema validator of its variable are parameters. *)

From Stdlib Require Import Sorting.Sorted.
From stdpp Require Import sorting.
From S2P Require Import Prelude GoStd GoSort Wire PolicySchema Catalog VariableModel Streams.
Open Scope Z_scope.

(** What the registry relies on: [Descriptor], and the optional [Retired] and [PrepareRetire]. *)
Class Resource (R : Type) := mkResource {
  res_Descriptor : R → Descriptor;
  res_Retired : R → bool;
  res_PrepareRetire : R → R
}.

#[global] Instance Var_Resource : Resource Var :=
  mkResource _ v_descriptor v_retired (λ v, (PrepareRetire v (elements (v_watchers v))).1).
#[global] Instance Stream_Resource : Resource Stream := mkResource _ st_descriptor (λ _, false) (λ s, s).
#[global] Instance Topic_Resource : Resource Topic := mkResource _ t_descriptor (λ _, false) (λ t, t).

Definition CapabilityList : CapabilityID := "list".
Definition SchemaCatalogListV1 : string := "mfh.catalog-list.v1".
Definition SchemaCatalogPageV1 : string := "mfh.catalog-page.v1".
Definition MaxCatalogPageBytes : Z := 512 * 1024.

Definition catalogDescriptor (owner : NodeID) : Descriptor :=
  let d := VariableDescriptor (mkResourceID owner BuiltinResourceCatalog) "resource.catalog.read" DefaultMaxPayload in
  Descriptor_Sort (with_lists d
    (ds_Capabilities d ++ [mkCapability CapabilityList "resource.catalog.list" SchemaCatalogListV1 SchemaCatalogPageV1 "" MaxCatalogPageBytes])
    (ds_Schemas d ++ [mkSchema SchemaCatalogListV1 "application/json"; mkSchema SchemaCatalogPageV1 "application/json"])).

Inductive registry_error :=
| RErrLimit | RErrDescriptor (e : catalog_error) | RErrWire (e : wire_error) | RErrOwner | ErrReservedResource | ErrDuplicate | RErrRetired
| RErrNotFound | RErrExhausted | RErrVariable (e : variable_error) | RErrEncode (tooLarge : bool)
| RErrUnsupported | RErrValueTooLarge | RErrInvalidSchema | RErrOperation.

Section registry.
Context {R : Type} {HR : Resource R}.
(** [protocol.EncodeVariablePayload] of a catalog; the error says whether it was too large. *)
Context (EncodeCatalog : ResourceCatalogV2 → result bool (list byte)).
Context (ValidateVariableState : list byte → VariableValueV1 → bool).
Context (Marshal : VariableValueV1 → list byte).

(** The catalog itself is registered under its reserved name. *)
Inductive entry := Builtin | Registered (value : R).

Record Registry := mkRegistry {
  rg_owner : NodeID;
  rg_resources : gmap string entry;
  rg_catalog : Var;
  rg_catalogRevision : Z;
  rg_catalogDescriptors : list Descriptor
}.

Definition entry_Descriptor (catalog : Var) (e : entry) : Descriptor :=
  match e with Builtin => v_descriptor catalog | Registered value => res_Descriptor value end.

Definition set_resources (r : Registry) (resources : gmap string entry) : Registry :=
  mkRegistry (rg_owner r) resources (rg_catalog r) (rg_catalogRevision r) (rg_catalogDescriptors r).

Definition NewRegistry (owner : NodeID) (definitionJSON identity : list byte) (now : Z) : result registry_error Registry :=
  _ ← mapErr RErrWire (NodeID_Validate owner);
  let d := catalogDescriptor owner in
  payload ← mapErr RErrEncode (EncodeCatalog (mkCatalog 2 1 [d]));
  catalog ← mapErr RErrVariable (NewVariable ValidateVariableState Marshal d true definitionJSON identity
                                   (mkVariableState payload "ready" None None) false now);
  Ok (mkRegistry owner {[ BuiltinResourceCatalog := Builtin ]} catalog 1 [d]).

Fixpoint normalize_all (l : list Descriptor) : result catalog_error (list Descriptor) :=
  match l with
  | [] => Ok []
  | d :: rest => d ← normalizeDescriptor d; ds ← normalize_all rest; Ok (d :: ds)
  end.

Definition name_less (l r : Descriptor) : bool := str_ltb (r_Name (ds_ID l)) (r_Name (ds_ID r)).

Definition unavailable : VariableState :=
  mkVariableState [] "unavailable" None
    (Some ("overflow", "Complete catalog exceeds one frame; use the authorized catalog list capability")).

Definition too_large (e : registry_error) : bool :=
  match e with RErrEncode true => true | RErrVariable ErrValueTooLarge => true | _ => false end.

(** [r.catalog.prepareNext(0, state)] *)
Definition next_catalog (r : Registry) (now : Z) (state : VariableState) : result registry_error preparedVariable :=
  mapErr RErrVariable (prepareNext ValidateVariableState Marshal (rg_catalog r) 0 state now).

(** [order] is the order in which the map of resources is iterated over. *)
Definition prepareCatalogLocked (r : Registry) (order : list (string * entry)) (now : Z)
    : result registry_error (preparedVariable * Z * list Descriptor) :=
  fail_if rg_catalogRevision r =? maxUint64 with RErrExhausted ;;
  ds ← mapErr RErrDescriptor (normalize_all (entry_Descriptor (rg_catalog r) <$> order.*2));
  let descriptors := SortSlice name_less ds in
  let revision := u64 (rg_catalogRevision r + 1) in
  prepared ←
    match (payload ← mapErr RErrEncode (EncodeCatalog (mkCatalog 2 revision descriptors));
           next_catalog r now (mkVariableState payload "ready" None None)) with
    | Ok prepared => Ok prepared
    | Err e =>
      if (payloadLimit (rg_catalog r) =? DefaultMaxPayload) && too_large e then next_catalog r now unavailable else Err e
    end;
  Ok (prepared, revision, descriptors).

(** Committing the prepared catalog: the registry and whether the caller drains. *)
Definition commitCatalog (r : Registry) (p : preparedVariable * Z * list Descriptor) (watchers : list Z) : result registry_error (bool * Registry) :=
  let '(prepared, revision, members) := p in
  '(_, drain, catalog) ← mapErr RErrVariable (commit (rg_catalog r) prepared watchers);
  Ok (drain, mkRegistry (rg_owner r) (rg_resources r) catalog revision members).

(** The checks made before the locks are taken. *)
Fixpoint check_values (owner : NodeID) (seen : gset string) (values : list R) : result registry_error (list Descriptor) :=
  match values with
  | [] => Ok []
  | value :: rest =>
    d ← mapErr RErrDescriptor (normalizeDescriptor (res_Descriptor value));
    fail_if negb (r_Owner (ds_ID d) =? owner) with RErrOwner ;;
    fail_if String.eqb (r_Name (ds_ID d)) BuiltinResourceCatalog with ErrReservedResource ;;
    fail_if bool_decide (r_Name (ds_ID d) ∈ seen) with ErrDuplicate ;;
    ds ← check_values owner ({[ r_Name (ds_ID d) ]} ∪ seen) rest;
    Ok (d :: ds)
  end.

(** The checks made under the locks. *)
Fixpoint check_absent (resources : gmap string entry) (l : list (R * Descriptor)) : result registry_error unit :=
  match l with
  | [] => Ok tt
  | (value, d) :: rest =>
    fail_if res_Retired value with RErrRetired ;;
    fail_if bool_decide (is_Some (resources !! r_Name (ds_ID d))) with ErrDuplicate ;;
    check_absent resources rest
  end.

Definition insert_all (resources : gmap string entry) (l : list (R * Descriptor)) : gmap string entry :=
  fold_left (λ m '(value, d), <[r_Name (ds_ID d) := Registered value]> m) l resources.
Definition delete_all (resources : gmap string entry) (ds : list Descriptor) : gmap string entry :=
  fold_left (λ m d, delete (r_Name (ds_ID d)) m) ds resources.

(** The registry after the call, and the error or the [drain] flag. *)
Definition RegisterBatch (r : Registry) (values : list R) (order : list (string * entry)) (watchers : list Z) (now : Z)
    : result registry_error bool * Registry :=
  if (Z.of_nat (length values) =? 0) || (MaxItems <=? Z.of_nat (length values)) then (Err RErrLimit, r) else
  match check_values (rg_owner r) ∅ values with
  | Err e => (Err e, r)
  | Ok descriptors =>
    if MaxItems - Z.of_nat (size (rg_resources r)) <? Z.of_nat (length values) then (Err RErrLimit, r) else
    match check_absent (rg_resources r) (zip values descriptors) with
    | Err e => (Err e, r)
    | Ok _ =>
      let r1 := set_resources r (insert_all (rg_resources r) (zip values descriptors)) in
      let rollback e := (Err e, set_resources r1 (delete_all (rg_resources r1) descriptors)) in
      match prepareCatalogLocked r1 order now with
      | Err e => rollback e
      | Ok p => match commitCatalog r1 p watchers with Err e => rollback e | Ok (drain, r2) => (Ok drain, r2) end
      end
    end
  end.

(** The removed resource is retired in the same step. *)
Definition Remove (r : Registry) (id : ResourceID) (order : list (string * entry)) (watchers : list Z) (now : Z)
    : result registry_error (bool * option R) * Registry :=
  if negb (r_Owner id =? rg_owner r) then (Err RErrNotFound, r) else
  if String.eqb (r_Name id) BuiltinResourceCatalog then (Err ErrReservedResource, r) else
  match rg_resources r !! r_Name id with
  | None => (Err RErrNotFound, r)
  | Some removed =>
    let r1 := set_resources r (delete (r_Name id) (rg_resources r)) in
    let rollback e := (Err e, set_resources r1 (<[r_Name id := removed]> (rg_resources r1))) in
    match prepareCatalogLocked r1 order now with
    | Err e => rollback e
    | Ok p =>
      match commitCatalog r1 p watchers with
      | Err e => rollback e
      | Ok (drain, r2) => (Ok (drain, match removed with Registered value => Some (res_PrepareRetire value) | Builtin => None end), r2)
      end
    end
  end.

Definition Resolve (r : Registry) (id : ResourceID) : option entry :=
  if negb (r_Owner id =? rg_owner r) then None else rg_resources r !! r_Name id.

(** [List], for one order of the map. *)
Definition List (r : Registry) (order : list (string * entry)) : list Descriptor :=
  SortSlice name_less (entry_Descriptor (rg_catalog r) <$> order.*2).

(** *** Operations *)

Record OperationRequest := mkOperationRequest { or_Subject : NodeID; or_Capability : CapabilityID; or_Schema : string; or_Payload : list byte }.
Record OperationResult := mkOperationResult { op_Schema : string; op_Payload : list byte }.

(** [validateOperationInput] and [validateOperationResult] of handler.go, which [Operate] repeats. *)
Definition validateOperationInput (d : Descriptor) (c : CapabilityDescriptorV2) (q : OperationRequest) : result registry_error OperationRequest :=
  fail_if (cap_MaxPayloadBytes c <? blen (or_Payload q)) || (lim_MaxPayloadBytes (ds_Limits d) <? blen (or_Payload q)) with RErrValueTooLarge ;;
  if String.eqb (or_Schema q) "" then Ok (mkOperationRequest (or_Subject q) (or_Capability q) (cap_InputSchema c) (or_Payload q))
  else fail_if negb (String.eqb (cap_InputSchema c) "") && negb (String.eqb (or_Schema q) (cap_InputSchema c)) with RErrInvalidSchema ;; Ok q.

Definition validateOperationResult (d : Descriptor) (c : CapabilityDescriptorV2) (q : OperationResult) : result registry_error OperationResult :=
  fail_if (cap_MaxPayloadBytes c <? blen (op_Payload q)) || (lim_MaxPayloadBytes (ds_Limits d) <? blen (op_Payload q)) with RErrValueTooLarge ;;
  if String.eqb (op_Schema q) "" then Ok (mkOperationResult (cap_OutputSchema c) (op_Payload q))
  else fail_if negb (String.eqb (cap_OutputSchema c) "") && negb (String.eqb (op_Schema q) (cap_OutputSchema c)) with RErrInvalidSchema ;; Ok q.

(** [Registry.Operate]; [operate] is what the resource does with the request. *)
Definition Registry_Operate (r : Registry) (id : ResourceID) (q : OperationRequest)
    (operate : entry → OperationRequest → result registry_error OperationResult) : result registry_error OperationResult :=
  match Resolve r id with
  | None => Err RErrNotFound
  | Some e =>
    let d := entry_Descriptor (rg_catalog r) e in
    match Capability d (or_Capability q) with
    | None => Err RErrUnsupported
    | Some c =>
      q ← validateOperationInput d c q;
      result ← operate e q;
      validateOperationResult d c result
    end
  end.

(** ** The invariant *)

(** The catalog variable shows these members at this revision, or that they do not fit. *)
Definition published_as (revision : Z) (members : list Descriptor) (state : VariableValueV1) : Prop :=
  vv_Revision state = FormatUint revision ∧
  ((EncodeCatalog (mkCatalog 2 revision members) = Ok (vv_Value state) ∧ vv_Status state = "ready") ∨
   (vv_Value state = [] ∧ vv_Status state = vs_Status unavailable ∧ vv_Error state = vs_Error unavailable)).

Record registry_ok (r : Registry) : Prop := mkRegistryOk {
  ro_owner : rg_owner r ≠ 0;
  ro_builtin : rg_resources r !! BuiltinResourceCatalog = Some Builtin;
  ro_reserved : ∀ name, rg_resources r !! name = Some Builtin → name = BuiltinResourceCatalog;
  ro_descriptor : ∀ name e, rg_resources r !! name = Some e →
    ∃ d, normalizeDescriptor (entry_Descriptor (rg_catalog r) e) = Ok d ∧ ds_ID d = mkResourceID (rg_owner r) name;
  ro_size : Z.of_nat (size (rg_resources r)) ≤ MaxItems;
  ro_revision : rg_catalogRevision r = current_revision (rg_catalog r) ∧ 0 < rg_catalogRevision r ≤ maxUint64;
  ro_catalog : v_descriptor (rg_catalog r) = catalogDescriptor (rg_owner r) ∧ v_retired (rg_catalog r) = false ∧
    validateHexID (v_instanceID (rg_catalog r)) 16 = Ok tt;
  ro_sorted : StronglySorted (λ x y, name_less x y = true) (rg_catalogDescriptors r);
  ro_members : ∀ d, d ∈ rg_catalogDescriptors r ↔
    ∃ name e, rg_resources r !! name = Some e ∧ normalizeDescriptor (entry_Descriptor (rg_catalog r) e) = Ok d;
  ro_published :
    published_as (rg_catalogRevision r) (rg_catalogDescriptors r) (vu_State (pv_update (v_current (rg_catalog r))))
}.

Lemma catalogDescriptor_normal owner : owner ≠ 0 → normalizeDescriptor (catalogDescriptor owner) = Ok (catalogDescriptor owner).
Proof.
  intros H. destruct owner as [|p|p]; [done| |]; vm_compute; reflexivity.
Qed.

(** ** Preservation *)

Lemma normalize_all_spec l ds : normalize_all l = Ok ds → Forall2 (λ d d', normalizeDescriptor d = Ok d') l ds.
Proof.
  revert ds. induction l as [|d l IH]; intros ds H; simpl in H; [by simplify_eq|].
  destruct (normalizeDescriptor d) as [d'|] eqn:E; [|done]. simpl in H. destruct (normalize_all l) as [ds'|]; [|done].
  simpl in H. simplify_eq. constructor; [done|]. by apply IH.
Qed.

Lemma elem_of_normalize_all l ds d : normalize_all l = Ok ds → d ∈ ds ↔ ∃ x, x ∈ l ∧ normalizeDescriptor x = Ok d.
Proof.
  intros H. apply normalize_all_spec in H. induction H as [|x d' l ds Hx H IH].
  - split; [by intros ?%not_elem_of_nil|]. intros (? & H & _). by apply not_elem_of_nil in H.
  - rewrite elem_of_cons, IH. setoid_rewrite elem_of_cons. split; [intros [->|(y & Hy & Hn)]; eauto|].
    intros (y & [->|Hy] & Hn); [left; congruence|eauto].
Qed.

Lemma prepareNext_state v revision state now p :
  prepareNext ValidateVariableState Marshal v revision state now = Ok p →
  vu_State (pv_update p) = envelope_of v (vu_Revision (pv_update p)) state now (Some (v_definitionJSON v)).
Proof. unfold prepareNext, prepare. intros H. guards H. by simplify_eq. Qed.

(** Descriptors with distinct names are sorted strictly. *)
Lemma sort_strict ds :
  NoDup ((λ d, r_Name (ds_ID d)) <$> ds) → StronglySorted (λ x y, name_less x y = true) (SortSlice name_less ds).
Proof.
  intros Hn. rewrite <- (SortSlice_perm name_less ds) in Hn.
  assert (ordered name_less (SortSlice name_less ds)) as Ho.
  { apply SortSlice_ordered; unfold name_less; [intros x y; apply str_ltb_asym|intros x y z; apply str_ltb_negtrans]. }
  unfold ordered in Ho. induction Ho as [|x l Hl IH Hx]; [constructor|]. rewrite fmap_cons in Hn. apply NoDup_cons in Hn as [Hx' Hn].
  constructor; [by apply IH|]. rewrite Forall_forall in *. intros y Hy. specialize (Hx y Hy). unfold name_less in *.
  destruct (str_ltb (r_Name (ds_ID x)) (r_Name (ds_ID y))) eqn:E; [done|]. destruct Hx'.
  rewrite (str_ltb_total _ _ E Hx). apply list_elem_of_fmap. eauto.
Qed.

(** The entries of a registry describe themselves under their names. *)
Definition described (owner : NodeID) (catalog : Var) (resources : gmap string entry) : Prop :=
  ∀ name e, resources !! name = Some e →
    ∃ d, normalizeDescriptor (entry_Descriptor catalog e) = Ok d ∧ ds_ID d = mkResourceID owner name.

Lemma normalize_all_names owner catalog (order : list (string * entry)) ds :
  (∀ name e, (name, e) ∈ order → ∃ d, normalizeDescriptor (entry_Descriptor catalog e) = Ok d ∧ ds_ID d = mkResourceID owner name) →
  normalize_all (entry_Descriptor catalog <$> order.*2) = Ok ds → (λ d, r_Name (ds_ID d)) <$> ds = order.*1.
Proof.
  revert ds. induction order as [|[name e] l IH]; intros ds Hd H; simpl in H; [by simplify_eq|].
  destruct (Hd name e) as (d & Hn & Hid); [left|]. rewrite Hn in H. simpl in H.
  destruct (normalize_all _) as [ds'|] eqn:E; [|done]. simpl in H. simplify_eq.
  rewrite !fmap_cons, Hid. simpl. f_equal. apply IH; [|done]. intros name' e' Hin. apply Hd. by right.
Qed.

Lemma prepareCatalogLocked_spec r order now p revision members :
  described (rg_owner r) (rg_catalog r) (rg_resources r) → order ≡ₚ map_to_list (rg_resources r) →
  rg_catalogRevision r = current_revision (rg_catalog r) → 0 < rg_catalogRevision r ≤ maxUint64 →
  prepareCatalogLocked r order now = Ok (p, revision, members) →
  revision = rg_catalogRevision r + 1 ∧ revision ≤ maxUint64 ∧ vu_Revision (pv_update p) = revision ∧
  published_as revision members (vu_State (pv_update p)) ∧
  StronglySorted (λ x y, name_less x y = true) members ∧
  (∀ d, d ∈ members ↔ ∃ name e, rg_resources r !! name = Some e ∧ normalizeDescriptor (entry_Descriptor (rg_catalog r) e) = Ok d).
Proof.
  intros Hd Ho Hr Hu H. unfold prepareCatalogLocked in H. destruct (Z.eqb_spec (rg_catalogRevision r) maxUint64) as [|Hmax]; [done|].
  destruct (normalize_all _) as [ds|] eqn:Ed; [|done]. simpl in H. rewrite u64_small in H by (unfold is_u64; lia).
  set (members' := SortSlice name_less ds) in *.
  assert (∀ state q, next_catalog r now state = Ok q → vu_Revision (pv_update q) = rg_catalogRevision r + 1 ∧
    vu_State (pv_update q) = envelope_of (rg_catalog r) (rg_catalogRevision r + 1) state now (Some (v_definitionJSON (rg_catalog r)))) as Hnext.
  { intros state q Hq. apply mapErr_ok in Hq. enough (vu_Revision (pv_update q) = rg_catalogRevision r + 1) as Hrv
      by (split; [done|]; apply prepareNext_state in Hq; by rewrite Hrv in Hq).
    unfold prepareNext in Hq. guards Hq. apply prepare_update in Hq as [_ Hq]. rewrite Hq, <- Hr.
    rewrite u64_small; [done|]. unfold is_u64. lia. }
  assert (members = members' ∧ revision = rg_catalogRevision r + 1 ∧ vu_Revision (pv_update p) = rg_catalogRevision r + 1 ∧
          published_as (rg_catalogRevision r + 1) members' (vu_State (pv_update p))) as (-> & -> & Hrev & Hpub).
  { destruct (EncodeCatalog _) as [payload|big] eqn:Ee; simpl in H.
    - destruct (next_catalog r now (mkVariableState payload "ready" None None)) as [q|e] eqn:Eq; simpl in H.
      + simplify_eq. destruct (Hnext _ _ Eq) as [H1 H2]. split_and!; try done. unfold published_as. rewrite H2. split; [done|by left].
      + destruct (_ && _); [|done]. destruct (next_catalog r now unavailable) as [q|] eqn:Eu; simpl in H; [|done].
        simplify_eq. destruct (Hnext _ _ Eu) as [H1 H2]. split_and!; try done. unfold published_as. rewrite H2. split; [done|by right].
    - destruct (_ && _); [|done]. destruct (next_catalog r now unavailable) as [q|] eqn:Eu; simpl in H; [|done].
      simplify_eq. destruct (Hnext _ _ Eu) as [H1 H2]. split_and!; try done. unfold published_as. rewrite H2. split; [done|by right]. }
  assert (∀ name e, (name, e) ∈ order ↔ rg_resources r !! name = Some e) as Hin by (intros; by rewrite Ho, elem_of_map_to_list).
  split_and!; try done; [lia| |].
  - apply sort_strict. rewrite (normalize_all_names (rg_owner r) (rg_catalog r) order); [| |done].
    + rewrite Ho. apply NoDup_fst_map_to_list.
    + intros name e Hx. apply Hd. by apply Hin.
  - intros d. unfold members'. rewrite elem_of_SortSlice, (elem_of_normalize_all _ _ _ Ed). split.
    + intros (x & Hx & Hn). apply list_elem_of_fmap in Hx as (e & -> & Hx). apply list_elem_of_fmap in Hx as ([name e'] & -> & Hx).
      exists name, e'. by rewrite <- Hin.
    + intros (name & e & Hl & Hn). eexists. split; [|done]. apply list_elem_of_fmap_2. apply Hin in Hl.
      by apply (list_elem_of_fmap_2 snd) in Hl.
Qed.

Definition dname (d : Descriptor) : string := r_Name (ds_ID d).

Lemma check_values_spec owner seen values ds :
  check_values owner seen values = Ok ds →
  Forall2 (λ v d, normalizeDescriptor (res_Descriptor v) = Ok d ∧ ds_ID d = mkResourceID owner (dname d) ∧ dname d ≠ BuiltinResourceCatalog) values ds ∧
  NoDup (dname <$> ds) ∧ (∀ n, n ∈ dname <$> ds → n ∉ seen).
Proof.
  revert seen ds. induction values as [|v values IH]; intros seen ds H; simpl in H.
  { simplify_eq. split_and!; [constructor|constructor|]. by intros n ?%not_elem_of_nil. }
  destruct (normalizeDescriptor (res_Descriptor v)) as [d|] eqn:Ed; [|done]. simpl in H. guards H. bool_prop.
  destruct (check_values owner _ values) as [ds'|] eqn:Ev; [|done]. simpl in H. simplify_eq. apply IH in Ev as (V1 & V2 & V3).
  assert (dname d ∉ dname <$> ds') as Hn by (intros Hx; apply V3 in Hx; unfold dname in Hx; set_solver).
  split_and!.
  - constructor; [|done]. unfold dname. split_and!; [done| |by apply String.eqb_neq]. destruct (ds_ID d) as [o n]. simpl in *. by f_equal.
  - rewrite fmap_cons. by constructor.
  - intros n Hin. rewrite fmap_cons in Hin. apply elem_of_cons in Hin as [->|Hin]; [done|]. apply V3 in Hin. set_solver.
Qed.

Lemma check_absent_spec resources l :
  check_absent resources l = Ok tt → ∀ v d, (v, d) ∈ l → resources !! dname d = None ∧ res_Retired v = false.
Proof.
  induction l as [|[v d] l IH]; intros H v' d' Hin; [by apply not_elem_of_nil in Hin|]. simpl in H. guards H. bool_prop.
  apply elem_of_cons in Hin as [[= -> ->]|Hin]; [|by apply IH]. split; [by apply eq_None_not_Some|by destruct (res_Retired v)].
Qed.

Lemma insert_all_other resources l n :
  n ∉ (λ x : R * Descriptor, dname x.2) <$> l → insert_all resources l !! n = resources !! n.
Proof.
  revert resources. induction l as [|[v d] l IH]; intros resources Hn; [done|]. rewrite fmap_cons in Hn. apply not_elem_of_cons in Hn as [Hne Hn].
  change (insert_all (<[dname d := Registered v]> resources) l !! n = resources !! n). rewrite IH by done. by rewrite lookup_insert_ne.
Qed.

Lemma insert_all_in resources l v d :
  NoDup ((λ x : R * Descriptor, dname x.2) <$> l) → (v, d) ∈ l → insert_all resources l !! dname d = Some (Registered v).
Proof.
  revert resources. induction l as [|[v' d'] l IH]; intros resources Hn Hin; [by apply not_elem_of_nil in Hin|].
  rewrite fmap_cons in Hn. apply NoDup_cons in Hn as [Hx Hn]. simpl in Hx. apply elem_of_cons in Hin as [[= -> ->]|Hin].
  - change (insert_all (<[dname d' := Registered v']> resources) l !! dname d' = Some (Registered v')).
    rewrite insert_all_other by done. by rewrite lookup_insert_eq.
  - by apply IH.
Qed.

Lemma delete_all_lookup resources ds n :
  delete_all resources ds !! n = if decide (n ∈ dname <$> ds) then None else resources !! n.
Proof.
  revert resources. induction ds as [|d ds IH]; intros resources; [done|].
  change (delete_all resources (d :: ds)) with (delete_all (delete (dname d) resources) ds). rewrite IH, fmap_cons.
  destruct (decide (n ∈ dname <$> ds)) as [H1|H1]; destruct (decide (n ∈ dname d :: (dname <$> ds))) as [H2|H2]; try done.
  - destruct H2. by right.
  - apply elem_of_cons in H2 as [->|]; [|done]. by rewrite lookup_delete_eq.
  - apply not_elem_of_cons in H2 as [H2 _]. by rewrite lookup_delete_ne.
Qed.

Lemma insert_all_size resources l :
  NoDup ((λ x : R * Descriptor, dname x.2) <$> l) → (∀ v d, (v, d) ∈ l → resources !! dname d = None) →
  size (insert_all resources l) = (size resources + length l)%nat.
Proof.
  revert resources. induction l as [|[v d] l IH]; intros resources Hn Ha; [simpl; lia|].
  rewrite fmap_cons in Hn. apply NoDup_cons in Hn as [Hx Hn]. simpl in Hx.
  change (size (insert_all (<[dname d := Registered v]> resources) l) = (size resources + S (length l))%nat). rewrite IH; [|done|].
  - rewrite map_size_insert_None; [lia|]. apply (Ha v). left.
  - intros v' d' Hin. rewrite lookup_insert_ne; [apply (Ha v'); by right|]. intros Hd. apply Hx. rewrite Hd.
    by apply (list_elem_of_fmap_2 (λ x : R * Descriptor, dname x.2)) in Hin.
Qed.

Lemma commitCatalog_spec r p revision members watchers drain r' :
  commitCatalog r (p, revision, members) watchers = Ok (drain, r') →
  rg_owner r' = rg_owner r ∧ rg_resources r' = rg_resources r ∧ rg_catalogRevision r' = revision ∧ rg_catalogDescriptors r' = members ∧
  v_current (rg_catalog r') = p ∧ v_descriptor (rg_catalog r') = v_descriptor (rg_catalog r) ∧ v_retired (rg_catalog r') = v_retired (rg_catalog r) ∧
  v_instanceID (rg_catalog r') = v_instanceID (rg_catalog r).
Proof.
  unfold commitCatalog, commit. intros H. destruct (v_retired (rg_catalog r)) eqn:E1; [done|].
  destruct (_ <=? _); [done|]. destruct (enqueueLocked _ _ _) as [v' dr] eqn:Ee. simpl in H. simplify_eq. simpl.
  unfold enqueueLocked in Ee. destruct (_ =? 0); [by simplify_eq|]. cbn [v_draining set_current] in Ee.
  destruct (v_draining (rg_catalog r)); by simplify_eq.
Qed.

(** Changing the set of resources to a described one and committing its catalog. *)
Lemma recatalog_ok r resources order watchers now p drain r' :
  registry_ok r → described (rg_owner r) (rg_catalog r) resources → order ≡ₚ map_to_list resources →
  resources !! BuiltinResourceCatalog = Some Builtin → (∀ name, resources !! name = Some Builtin → name = BuiltinResourceCatalog) →
  Z.of_nat (size resources) ≤ MaxItems →
  prepareCatalogLocked (set_resources r resources) order now = Ok p → commitCatalog (set_resources r resources) p watchers = Ok (drain, r') →
  registry_ok r' ∧ rg_owner r' = rg_owner r ∧ rg_resources r' = resources ∧ rg_catalogRevision r' = rg_catalogRevision r + 1.
Proof.
  intros H Hd Ho Hb Hres Hsize Hp Hc. destruct p as [[p revision] members].
  destruct (ro_revision _ H) as [Hrev Hu]. destruct (ro_catalog _ H) as (Hcat & Hret & Hinst).
  apply prepareCatalogLocked_spec in Hp as (P1 & P2 & P3 & P4 & P5 & P6); try done.
  apply commitCatalog_spec in Hc as (C1 & C2 & C3 & C4 & C5 & C6 & C7 & C8). simpl in *.
  assert (∀ e, entry_Descriptor (rg_catalog r') e = entry_Descriptor (rg_catalog r) e) as He by (intros []; simpl; [done|done]).
  split; [|by rewrite C3, P1]. split; rewrite ?C1, ?C2, ?C3, ?C4, ?C6, ?C7, ?C8; try done.
  - apply (ro_owner _ H).
  - intros name e Hl. rewrite He. by apply Hd.
  - unfold current_revision. rewrite C5. lia.
  - intros d. rewrite P6. by setoid_rewrite He.
  - cbv zeta. rewrite C5. exact P4.
Qed.

Lemma set_resources_same r resources : resources = rg_resources r → set_resources r resources = r.
Proof. intros ->. by destruct r. Qed.

Lemma zip_names (values : list R) ds : length values = length ds → (λ x : R * Descriptor, dname x.2) <$> zip values ds = dname <$> ds.
Proof. intros H. rewrite <- (snd_zip values ds) at 2 by lia. by rewrite <- list_fmap_compose. Qed.

(** What [RegisterBatch] does: everything or nothing. *)
Lemma RegisterBatch_spec r values order watchers now :
  registry_ok r →
  (∀ ds, check_values (rg_owner r) ∅ values = Ok ds → order ≡ₚ map_to_list (insert_all (rg_resources r) (zip values ds))) →
  match RegisterBatch r values order watchers now with
  | (Err _, r') => r' = r
  | (Ok _, r') => ∃ ds, check_values (rg_owner r) ∅ values = Ok ds ∧ (∀ v d, (v, d) ∈ zip values ds → rg_resources r !! dname d = None) ∧
      registry_ok r' ∧ rg_owner r' = rg_owner r ∧ rg_resources r' = insert_all (rg_resources r) (zip values ds) ∧ rg_catalogRevision r' = rg_catalogRevision r + 1
  end.
Proof.
  intros H Ho. unfold RegisterBatch. destruct (_ || _); [done|].
  destruct (check_values (rg_owner r) ∅ values) as [ds|] eqn:Ev; [|done]. specialize (Ho ds eq_refl).
  destruct (MaxItems - _ <? _) eqn:El; [done|]. destruct (check_absent _ _) as [[]|] eqn:Ea; [|done]. bool_prop.
  destruct (check_values_spec _ _ _ _ Ev) as (V1 & V2 & _). pose proof (check_absent_spec _ _ Ea) as Habs.
  pose proof (Forall2_length _ _ _ V1) as Hlen. pose proof (zip_names values ds Hlen) as Hz.
  set (resources := insert_all (rg_resources r) (zip values ds)) in *.
  assert (set_resources (set_resources r resources) (delete_all (rg_resources (set_resources r resources)) ds) = r) as Hroll.
  { change (set_resources r (delete_all resources ds) = r). apply set_resources_same, map_eq. intros n. rewrite delete_all_lookup. case_decide as Hn.
    - rewrite <- Hz in Hn. apply list_elem_of_fmap in Hn as ([v d] & -> & Hin). symmetry. by apply (Habs v d).
    - unfold resources. rewrite insert_all_other; [done|]. by rewrite Hz. }
  destruct (prepareCatalogLocked _ _ _) as [p|e] eqn:Ep; [|done].
  destruct (commitCatalog _ _ _) as [[drain r2]|e] eqn:Ec; [|done].
  exists ds. split; [done|]. split; [intros v d Hin; by apply (Habs v d)|].
  eapply recatalog_ok; try done.
  - intros n e Hn. destruct (decide (n ∈ dname <$> ds)) as [Hin|Hin].
    + rewrite <- Hz in Hin. apply list_elem_of_fmap in Hin as ([v d] & -> & Hin). unfold resources in Hn.
      rewrite (insert_all_in _ _ v d) in Hn by (rewrite ?Hz; done). simplify_eq. exists d. simpl.
      apply elem_of_lookup_zip_with in Hin as (i & v' & d' & [= -> ->] & L1 & L2).
      eapply Forall2_lookup_lr in V1; [|done|done]. destruct V1 as (X1 & X2 & _). done.
    + unfold resources in Hn. rewrite insert_all_other in Hn by (by rewrite Hz). by apply (ro_descriptor _ H).
  - unfold resources. rewrite insert_all_other; [apply (ro_builtin _ H)|]. rewrite Hz. intros Hin.
    apply list_elem_of_fmap in Hin as (d & Hd & Hin). apply list_elem_of_lookup in Hin as [i Hi].
    eapply Forall2_lookup_r in V1 as (v & _ & _ & _ & Hne); [|done]. by rewrite <- Hd in Hne.
  - intros n Hn. destruct (decide (n ∈ dname <$> ds)) as [Hin|Hin].
    + rewrite <- Hz in Hin. apply list_elem_of_fmap in Hin as ([v d] & -> & Hin). unfold resources in Hn.
      rewrite (insert_all_in _ _ v d) in Hn by (rewrite ?Hz; done). done.
    + unfold resources in Hn. rewrite insert_all_other in Hn by (by rewrite Hz). by apply (ro_reserved _ H).
  - unfold resources. rewrite insert_all_size; [|by rewrite Hz|intros v d Hin; by apply (Habs v d)]. rewrite length_zip_with. lia.
Qed.

Lemma Remove_spec r id order watchers now :
  registry_ok r → order ≡ₚ map_to_list (delete (r_Name id) (rg_resources r)) →
  match Remove r id order watchers now with
  | (Err _, r') => r' = r
  | (Ok _, r') => r_Owner id = rg_owner r ∧ r_Name id ≠ BuiltinResourceCatalog ∧ is_Some (rg_resources r !! r_Name id) ∧
      registry_ok r' ∧ rg_owner r' = rg_owner r ∧ rg_resources r' = delete (r_Name id) (rg_resources r) ∧ rg_catalogRevision r' = rg_catalogRevision r + 1
  end.
Proof.
  intros H Ho. unfold Remove. destruct (Z.eqb_spec (r_Owner id) (rg_owner r)) as [E1|]; [|done]. simpl.
  destruct (String.eqb_spec (r_Name id) BuiltinResourceCatalog) as [|E2]; [done|].
  destruct (rg_resources r !! r_Name id) as [removed|] eqn:El; [|done].
  assert (set_resources (set_resources r (delete (r_Name id) (rg_resources r)))
            (<[r_Name id := removed]> (rg_resources (set_resources r (delete (r_Name id) (rg_resources r))))) = r) as Hroll.
  { change (set_resources r (<[r_Name id := removed]> (delete (r_Name id) (rg_resources r))) = r). apply set_resources_same.
    rewrite insert_delete_eq. by apply insert_id. }
  destruct (prepareCatalogLocked _ _ _) as [p|e] eqn:Ep; [|done].
  destruct (commitCatalog _ _ _) as [[drain r2]|e] eqn:Ec; [|done].
  split; [done|]. split; [done|]. split; [by eauto|]. eapply recatalog_ok; try done.
  - intros n e Hn. apply lookup_delete_Some in Hn as [_ Hn]. by apply (ro_descriptor _ H).
  - rewrite lookup_delete_ne by done. apply (ro_builtin _ H).
  - intros n Hn. apply lookup_delete_Some in Hn as [_ Hn]. by apply (ro_reserved _ H).
  - pose proof (ro_size _ H). rewrite map_size_delete_Some by done. lia.
Qed.

(** *** The published catalog is valid *)

Lemma check_resources_ok owner ds seen prev has :
  StronglySorted (λ x y, name_less x y = true) ds →
  Forall (λ d, Descriptor_Validate d = Ok tt ∧ r_Owner (ds_ID d) = owner) ds →
  (∀ d, d ∈ ds → ds_ID d ∉ seen) →
  match prev with Some p => r_Owner p = owner ∧ Forall (λ d, str_ltb (r_Name p) (dname d) = true) ds | None => True end →
  check_resources seen prev has ds = Ok (has || existsb (λ d, String.eqb (dname d) BuiltinResourceCatalog) ds).
Proof.
  intros Hs. revert seen prev has. induction Hs as [|d ds Hs IH Hx]; intros seen prev has Hv Hseen Hprev; simpl; [by rewrite orb_false_r|].
  apply Forall_cons in Hv as [[Hd Hod] Hv]. rewrite Hd. simpl. rewrite bool_decide_eq_false_2 by (apply Hseen; left).
  assert (match prev with Some p => match compareResourceID p (ds_ID d) with Lt => false | _ => true end | None => false end = false) as ->.
  { destruct prev as [p|]; [|done]. destruct Hprev as [Hp Hf]. apply Forall_cons in Hf as [Hf _]. unfold compareResourceID.
    rewrite Hp, Hod, Z.ltb_irrefl. unfold str_ltb, dname in Hf. by destruct (String.compare (r_Name p) (r_Name (ds_ID d))). }
  rewrite IH; [by rewrite orb_assoc|done| |].
  - intros y Hy. specialize (Hseen y ltac:(by right)). rewrite Forall_forall in Hx. specialize (Hx y Hy).
    apply not_elem_of_union. split; [|done]. intros Heq%elem_of_singleton. unfold name_less in Hx. by rewrite Heq, str_ltb_irrefl in Hx.
  - split; [done|]. eapply Forall_impl; [exact Hx|]. done.
Qed.

Lemma registry_catalog_valid r :
  registry_ok r → Catalog_Validate (mkCatalog 2 (rg_catalogRevision r) (rg_catalogDescriptors r)) = Ok tt.
Proof.
  intros H. destruct (ro_revision _ H) as [_ Hu].
  assert (∀ d, d ∈ rg_catalogDescriptors r → Descriptor_Validate d = Ok tt ∧ ds_ID d = mkResourceID (rg_owner r) (dname d) ∧ is_Some (rg_resources r !! dname d)) as Hd.
  { intros d Hd. apply (ro_members _ H) in Hd as (n & e & Hl & Hn). destruct (ro_descriptor _ H n e Hl) as (d' & Hn' & Hid).
    rewrite Hn in Hn'. simplify_eq. split; [by eapply normalizeDescriptor_valid|]. unfold dname. rewrite Hid. simpl. eauto. }
  assert (catalogDescriptor (rg_owner r) ∈ rg_catalogDescriptors r) as Hcat.
  { apply (ro_members _ H). exists BuiltinResourceCatalog, Builtin. split; [apply (ro_builtin _ H)|]. simpl.
    destruct (ro_catalog _ H) as (-> & _). apply catalogDescriptor_normal, (ro_owner _ H). }
  assert (length (rg_catalogDescriptors r) ≤ size (rg_resources r))%nat as Hlen.
  { rewrite <- size_dom, <- (length_fmap dname). rewrite <- (size_list_to_set (C := gset string)).
    - apply subseteq_size. intros n Hn. apply elem_of_list_to_set in Hn. apply list_elem_of_fmap in Hn as (d & -> & Hn).
      apply elem_of_dom. by apply Hd.
    - assert (StronglySorted (λ x y, name_less x y = true) (rg_catalogDescriptors r)) as Hs by apply (ro_sorted _ H).
      clear -Hs. induction Hs as [|d ds Hs IH Hx]; [constructor|]. rewrite fmap_cons. constructor; [|done]. intros Hin.
      apply list_elem_of_fmap in Hin as (y & Hy & Hin). rewrite Forall_forall in Hx. specialize (Hx y Hin). unfold name_less in Hx.
      unfold dname in Hy. by rewrite Hy, str_ltb_irrefl in Hx. }
  pose proof (ro_size _ H) as Hsize. unfold Catalog_Validate. cbn [cat_Version cat_Revision cat_Resources].
  destruct (Z.eqb_spec (rg_catalogRevision r) 0); [lia|]. simpl.
  destruct (rg_catalogDescriptors r) as [|d0 ds0] eqn:El; [by apply not_elem_of_nil in Hcat|]. rewrite <- El in *.
  destruct (Z.eqb_spec (Z.of_nat (length (rg_catalogDescriptors r))) 0) as [E|]; [rewrite El in E; simpl in E; lia|].
  destruct (Z.ltb_spec MaxItems (Z.of_nat (length (rg_catalogDescriptors r)))); [lia|]. simpl.
  rewrite (check_resources_ok (rg_owner r)).
  - simpl. assert (existsb (λ d, String.eqb (dname d) BuiltinResourceCatalog) (rg_catalogDescriptors r) = true) as ->; [|done].
    apply existsb_exists. exists (catalogDescriptor (rg_owner r)). split; [by apply list_elem_of_In|done].
  - apply (ro_sorted _ H).
  - apply Forall_forall. intros d Hin. destruct (Hd d Hin) as (X1 & X2 & _). by rewrite X2.
  - set_solver.
  - done.
Qed.

(** ** Reachable registries *)

(** Registrations, removals, and what observers of the catalog do meanwhile. *)
Inductive rlabel :=
| RRegister (values : list R) (order : list (string * entry)) (watchers : list Z) (now : Z)
| RRemove (id : ResourceID) (order : list (string * entry)) (watchers : list Z) (now : Z)
| RWatch
| RCancel (id : Z)
| RPop.

Definition set_catalog (r : Registry) (catalog : Var) : Registry :=
  mkRegistry (rg_owner r) (rg_resources r) catalog (rg_catalogRevision r) (rg_catalogDescriptors r).

Definition rstep (r : Registry) (l : rlabel) : Registry :=
  match l with
  | RRegister values order watchers now => (RegisterBatch r values order watchers now).2
  | RRemove id order watchers now => (Remove r id order watchers now).2
  | RWatch => match Watch (rg_catalog r) with Ok (_, _, v) => set_catalog r v | Err _ => r end
  | RCancel id => set_catalog r (cancelWatch (rg_catalog r) id)
  | RPop => set_catalog r (match v_pending (rg_catalog r) with
                           | [] => set_queue (rg_catalog r) [] false
                           | _ :: rest => set_queue (rg_catalog r) rest (v_draining (rg_catalog r))
                           end)
  end.

(** Maps are iterated over in some order of their entries. *)
Definition rlabel_ok (r : Registry) (l : rlabel) : Prop :=
  match l with
  | RRegister values order _ _ =>
    ∀ ds, check_values (rg_owner r) ∅ values = Ok ds → order ≡ₚ map_to_list (insert_all (rg_resources r) (zip values ds))
  | RRemove id order _ _ => order ≡ₚ map_to_list (delete (r_Name id) (rg_resources r))
  | _ => True
  end.

Inductive reg_reachable : Registry → Prop :=
(** the identity is an array of 16 bytes *)
| rr_new owner definitionJSON identity now r : length identity = 16%nat → NewRegistry owner definitionJSON identity now = Ok r → reg_reachable r
| rr_step r l : reg_reachable r → rlabel_ok r l → reg_reachable (rstep r l).

Lemma catalogDescriptor_id owner : ds_ID (catalogDescriptor owner) = mkResourceID owner BuiltinResourceCatalog.
Proof. reflexivity. Qed.
#[local] Opaque catalogDescriptor.

Lemma new_registry_ok owner d catalog payload :
  owner ≠ 0 → normalizeDescriptor d = Ok d → ds_ID d = mkResourceID owner BuiltinResourceCatalog → d = catalogDescriptor owner →
  EncodeCatalog (mkCatalog 2 1 [d]) = Ok payload →
  v_descriptor catalog = d → v_retired catalog = false → current_revision catalog = 1 →
  validateHexID (v_instanceID catalog) 16 = Ok tt → published_as 1 [d] (vu_State (pv_update (v_current catalog))) →
  registry_ok (mkRegistry owner {[ BuiltinResourceCatalog := Builtin ]} catalog 1 [d]).
Proof.
  intros Ho Hn Hid Hd He V1 V2 V3 Vi V4. split; cbn [rg_owner rg_resources rg_catalog rg_catalogRevision rg_catalogDescriptors].
  - exact Ho.
  - apply lookup_singleton_eq.
  - intros name Hx. by apply lookup_singleton_Some in Hx as [<- _].
  - intros name e Hx. apply lookup_singleton_Some in Hx as [<- <-]. exists d. cbn. by rewrite V1.
  - rewrite map_size_singleton. unfold MaxItems. lia.
  - split; [by rewrite V3|unfold maxUint64; lia].
  - split; [by rewrite V1|by split].
  - repeat constructor.
  - intros x. rewrite list_elem_of_singleton. split.
    + intros ->. exists BuiltinResourceCatalog, Builtin. split; [apply lookup_singleton_eq|]. cbn. by rewrite V1.
    + intros (n & e & Hx & Hy). apply lookup_singleton_Some in Hx as [<- <-]. cbn in Hy. rewrite V1, Hn in Hy. congruence.
  - exact V4.
Qed.

Lemma NewRegistry_ok owner json identity now r :
  length identity = 16%nat → NewRegistry owner json identity now = Ok r → registry_ok r ∧ rg_owner r = owner.
Proof.
  intros Hlen H. unfold NewRegistry in H. destruct (NodeID_Validate owner) as [[]|] eqn:Eo; [|done]. apply NodeID_Validate_ok in Eo. simpl in H.
  pose proof (catalogDescriptor_normal owner Eo) as Hn. pose proof (catalogDescriptor_id owner) as Hid.
  remember (catalogDescriptor owner) as d eqn:Ed.
  destruct (EncodeCatalog _) as [payload|] eqn:Ee; [|done]. simpl in H.
  destruct (NewVariable _ _ _ _ _ _ _ _ _) as [catalog|] eqn:Ev; [|done]. simpl in H. simplify_eq. split; [|done].
  apply NewVariable_spec in Ev as (V1 & V2 & V3 & Vi & V4). eapply new_registry_ok; try done; [congruence| |].
  { rewrite Vi. pose proof (validateHexID_EncodeToString identity) as Hh. by rewrite Hlen in Hh. } rewrite V4. split; [done|by left].
Qed.

(** The catalog's observers and its queue do not matter. *)
Lemma set_catalog_ok r v :
  registry_ok r → v_current v = v_current (rg_catalog r) → v_descriptor v = v_descriptor (rg_catalog r) → v_retired v = v_retired (rg_catalog r) →
  v_instanceID v = v_instanceID (rg_catalog r) → registry_ok (set_catalog r v).
Proof.
  intros [K1 K2 K3 K4 K5 K6 K7 K8 K9 K10] E1 E2 E3 E4.
  assert (∀ e, entry_Descriptor v e = entry_Descriptor (rg_catalog r) e) as He by (intros []; simpl; [done|done]).
  split; simpl; try done.
  - intros name e. rewrite He. apply K4.
  - unfold current_revision in *. by rewrite E1.
  - by rewrite E2, E3, E4.
  - intros d. rewrite K9. by setoid_rewrite He.
  - cbv zeta in *. by rewrite E1.
Qed.

Lemma reg_reachable_ok r : reg_reachable r → registry_ok r.
Proof.
  induction 1 as [owner json identity now r Hlen H|r l Hr IH Hl]; [by apply NewRegistry_ok in H as [? _]|].
  destruct l as [values order watchers now|id order watchers now| |id|]; simpl.
  - pose proof (RegisterBatch_spec r values order watchers now IH Hl) as H.
    destruct (RegisterBatch r values order watchers now) as [[?|?] r']; simpl; [by destruct H as (? & _ & _ & ? & _)|by subst].
  - pose proof (Remove_spec r id order watchers now IH Hl) as H.
    destruct (Remove r id order watchers now) as [[?|?] r']; simpl; [by destruct H as (_ & _ & _ & ? & _)|by subst].
  - destruct (Watch (rg_catalog r)) as [[[u id] v]|] eqn:E; [|done]. unfold Watch in E. guards E. simplify_eq. by apply set_catalog_ok.
  - by apply set_catalog_ok.
  - apply set_catalog_ok; [done|..]; by destruct (v_pending (rg_catalog r)).
Qed.

(** C8. The catalog never lies: in every reachable registry the catalog is valid and lists, in
    order of their names, exactly the normalised descriptors of the registered resources; the
    variable that publishes it is at the same revision and holds the encoding of that list,
    or says that it does not fit in one frame. *)
Theorem registry_catalog_exact r :
  reg_reachable r →
  (∀ d, d ∈ rg_catalogDescriptors r ↔
     ∃ name e, rg_resources r !! name = Some e ∧ normalizeDescriptor (entry_Descriptor (rg_catalog r) e) = Ok d) ∧
  Catalog_Validate (mkCatalog 2 (rg_catalogRevision r) (rg_catalogDescriptors r)) = Ok tt ∧
  rg_catalogRevision r = current_revision (rg_catalog r) ∧
  published_as (rg_catalogRevision r) (rg_catalogDescriptors r) (vu_State (pv_update (v_current (rg_catalog r)))).
Proof.
  intros Hr. apply reg_reachable_ok in Hr as H. split_and!.
  - apply (ro_members _ H).
  - by apply registry_catalog_valid.
  - apply (ro_revision _ H).
  - apply (ro_published _ H).
Qed.

(** Transactions: a batch is registered as a whole, none of its names having been taken,
    with one new catalog revision, or the registry is left exactly as it was, the catalog
    variable and its queued notifications included; likewise for a removal. *)
Theorem registry_atomic r values order id order' watchers now :
  reg_reachable r → rlabel_ok r (RRegister values order watchers now) → rlabel_ok r (RRemove id order' watchers now) →
  match RegisterBatch r values order watchers now with
  | (Err _, r') => r' = r
  | (Ok _, r') => ∃ ds, check_values (rg_owner r) ∅ values = Ok ds ∧ (∀ v d, (v, d) ∈ zip values ds → rg_resources r !! dname d = None) ∧
      rg_resources r' = insert_all (rg_resources r) (zip values ds) ∧ rg_catalogRevision r' = rg_catalogRevision r + 1
  end ∧
  match Remove r id order' watchers now with
  | (Err _, r') => r' = r
  | (Ok _, r') => r_Owner id = rg_owner r ∧ r_Name id ≠ BuiltinResourceCatalog ∧ is_Some (rg_resources r !! r_Name id) ∧
      rg_resources r' = delete (r_Name id) (rg_resources r) ∧ rg_catalogRevision r' = rg_catalogRevision r + 1
  end.
Proof.
  intros Hr Hl Hl'. apply reg_reachable_ok in Hr. split.
  - pose proof (RegisterBatch_spec r values order watchers now Hr Hl) as H.
    destruct (RegisterBatch r values order watchers now) as [[?|?] r']; [|done]. destruct H as (ds & H1 & H2 & _ & _ & H3 & H4). by exists ds.
  - pose proof (Remove_spec r id order' watchers now Hr Hl') as H.
    destruct (Remove r id order' watchers now) as [[?|?] r']; [|done]. destruct H as (H1 & H2 & H3 & _ & _ & H4 & H5). done.
Qed.
End registry.

(** ** Witnesses *)

(** A registry of topics with one topic, then a second one registered. *)
Module Registry_demo.
Definition encode (_ : ResourceCatalogV2) : result bool (list byte) := Ok [x30].
Definition accept (_ : list byte) (_ : VariableValueV1) : bool := true.
Definition marshal (_ : VariableValueV1) : list byte := [x7b; x7d].
Definition topic (name : string) : Topic :=
  mkTopic (TopicDescriptor (mkResourceID 1 name) "" "board.v1" "" "" 64) (mkTopicConfig 4 4 2) 0 ∅ 0 ∅.
Definition new : result registry_error (@Registry Topic) := NewRegistry encode accept marshal 1 [x30] (be_bytes 16 9) 0.
Definition r0 : @Registry Topic :=
  match new with Ok r => r | Err _ => mkRegistry 0 ∅ (Variable_demo.v0) 0 [] end.
(** The order in which a registration of [values] iterates over the resources. *)
Definition register_order (r : @Registry Topic) (values : list Topic) : list (string * @entry Topic) :=
  match check_values (rg_owner r) ∅ values with Ok ds => map_to_list (insert_all (rg_resources r) (zip values ds)) | Err _ => [] end.
Definition add (r : @Registry Topic) (name : string) : rlabel := RRegister [topic name] (register_order r [topic name]) [] 5.
Definition r1 : @Registry Topic := rstep encode accept marshal r0 (add r0 "board").

Lemma add_ok r name : rlabel_ok r (add r name).
Proof. intros ds H. unfold register_order. by rewrite H. Qed.
Lemma r1_reachable : reg_reachable encode accept marshal r1.
Proof.
  apply rr_step; [|apply add_ok]. assert (is_ok new = true) as H by (vm_compute; reflexivity). unfold r0.
  destruct new as [r|] eqn:E; [|discriminate H]. exact (rr_new encode accept marshal 1 [x30] (be_bytes 16 9) 0 r eq_refl E).
Qed.
End Registry_demo.

Lemma registry_catalog_exact_witness :
  let r := Registry_demo.r1 in
  dname <$> rg_catalogDescriptors r = ["board"; "system/catalog"] ∧
  Catalog_Validate (mkCatalog 2 (rg_catalogRevision r) (rg_catalogDescriptors r)) = Ok tt.
Proof.
  split; [vm_compute; reflexivity|].
  exact (proj1 (proj2 (registry_catalog_exact _ _ _ Registry_demo.r1 Registry_demo.r1_reachable))).
Defined.

(** A second topic is registered; a removal of a topic that is not there changes nothing. *)
Lemma registry_atomic_witness :
  let r := Registry_demo.r1 in let values := [Registry_demo.topic "alarm"] in
  let id := mkResourceID 1 "missing" in
  is_ok (RegisterBatch Registry_demo.encode Registry_demo.accept Registry_demo.marshal r values (Registry_demo.register_order r values) [] 5).1 = true ∧
  (∃ r', (Remove Registry_demo.encode Registry_demo.accept Registry_demo.marshal r id (map_to_list (delete "missing" (rg_resources r))) [] 5) = (Err RErrNotFound, r') ∧ r' = r).
Proof.
  intros r values id.
  pose proof (registry_atomic _ _ _ r values (Registry_demo.register_order r values) id (map_to_list (delete "missing" (rg_resources r))) [] 5
    Registry_demo.r1_reachable (Registry_demo.add_ok r "alarm") ltac:(simpl; reflexivity)) as [_ H].
  split; [vm_compute; reflexivity|].
  assert ((Remove Registry_demo.encode Registry_demo.accept Registry_demo.marshal r id (map_to_list (delete "missing" (rg_resources r))) [] 5).1 = Err RErrNotFound) as E
    by (vm_compute; reflexivity).
  destruct (Remove _ _ _ r id _ [] 5) as [x r']. simpl in E. subst x. exists r'. split; [reflexivity|exact H].
Defined.
