(* ===== verification/Manager.v ===== *)
(** * The subscription manager (runtime/subscription/manager.go)

    The manager keeps, per subscription, an entry (with its delivery queue and its observer)
    and an interest.  The two tables have their own locks, so a subscription that is being
    set up, one that is being removed and a cleanup can interleave between them: the machine
    [mm] has one step per locked section, and the calls in progress are its threads.  An
    observer is known by the tag of the call that registered it. *)

From S2P Require Import Prelude GoStd Wire Catalog Delivery Interest Streams.
Open Scope Z_scope.

Record Config := mkConfig { MaxSubscriptions : Z; DefaultQueue : Z; MaxQueue : Z; MinLease : Z; MaxLease : Z }.
Definition Config_normalized (c : Config) : option Config :=
  let subscriptions := positive_or (MaxSubscriptions c) 1024 in
  let queue := positive_or (DefaultQueue c) 16 in
  let maxQueue := positive_or (MaxQueue c) 256 in
  let minLease := positive_or (MinLease c) second in
  let maxLease := positive_or (MaxLease c) (24 * 3600 * second) in
  if (maxQueue <? queue) || (maxLease <? minLease) then None
  else Some (mkConfig subscriptions queue maxQueue minLease maxLease).

Record Request := mkRequest {
  rq_ID : MessageID;
  rq_Subscriber : NodeID;
  rq_Resource : ResourceID;
  rq_Capability : CapabilityID;
  rq_LinkID : string;
  rq_NextHop : NodeID;
  rq_Lease : Z;
  rq_AuthorizedUntil : Z;
  rq_TopologyEpoch : Z;
  rq_PolicyGeneration : Z;
  rq_PolicyIndependent : bool;
  rq_Queue : Z
}.

Inductive subscribe_error :=
| SubErrWire (e : wire_error) | SubErrLink | ErrInvalidLease | SubErrQueue | SubErrAuthorization | SubErrNotFound | ErrNotSubscribable
| SubErrObserve | SubErrInterest (e : interest_error) | SubErrClosed | SubErrExists | ErrSubscriptionLimit.

Definition with_times (q : Request) (id : MessageID) (authorized : Z) : Request :=
  mkRequest id (rq_Subscriber q) (rq_Resource q) (rq_Capability q) (rq_LinkID q) (rq_NextHop q) (rq_Lease q) authorized
    (rq_TopologyEpoch q) (rq_PolicyGeneration q) (rq_PolicyIndependent q) (rq_Queue q).

(** [Subscribe] up to the observation: the request with its defaults, the end of the lease and
    the queue.  [id] is the identifier drawn for a request without one; [value] is what the
    registry resolves: a descriptor, whether the resource is observable, and whether observing
    it succeeded. *)
Definition Subscribe_check (c : Config) (q : Request) (id : MessageID) (now : Z) (value : option (Descriptor * bool * bool))
    : result subscribe_error (Request * Z * Z) :=
  let id := if MessageID_IsZero (rq_ID q) then id else rq_ID q in
  _ ← mapErr SubErrWire (NodeID_Validate (rq_Subscriber q));
  _ ← mapErr SubErrWire (ResourceID_Validate (rq_Resource q));
  _ ← mapErr SubErrWire (CapabilityID_Validate (rq_Capability q));
  fail_if String.eqb (rq_LinkID q) "" with SubErrLink ;;
  fail_if (rq_Lease q <? MinLease c) || (MaxLease c <? rq_Lease q) with ErrInvalidLease ;;
  let queue := if rq_Queue q =? 0 then DefaultQueue c else rq_Queue q in
  fail_if (queue <? 1) || (MaxQueue c <? queue) with SubErrQueue ;;
  let leaseUntil := now + rq_Lease q in
  let authorized := if rq_AuthorizedUntil q =? 0 then leaseUntil else rq_AuthorizedUntil q in
  fail_if authorized <? leaseUntil with SubErrAuthorization ;;
  match value with
  | None => Err SubErrNotFound
  | Some (descriptor, observable, observed) =>
    match Capability descriptor (rq_Capability q) with
    | None => Err ErrNotSubscribable
    | Some capability =>
      fail_if String.eqb (cap_EventSchema capability) "" with ErrNotSubscribable ;;
      fail_if negb observable with ErrNotSubscribable ;;
      fail_if negb observed with SubErrObserve ;;
      Ok (with_times q id authorized, leaseUntil, queue)
    end
  end.

Definition ValidateRequest (q : Request) : result subscribe_error unit :=
  fail_if MessageID_IsZero (rq_ID q) || String.eqb (rq_LinkID q) "" with SubErrLink ;;
  _ ← mapErr SubErrWire (ResourceID_Validate (rq_Resource q));
  mapErr SubErrWire (CapabilityID_Validate (rq_Capability q)).

Record entry := mkEntry { en_request : Request; en_leaseUntil : Z; en_tag : nat }.

Definition interest_of (e : entry) : Interest :=
  let q := en_request e in
  mkInterest (rq_ID q) (rq_Subscriber q) (rq_Resource q) (rq_Capability q) (rq_LinkID q) (rq_NextHop q) (en_leaseUntil e)
    (rq_AuthorizedUntil q) (rq_TopologyEpoch q) (rq_PolicyGeneration q).

(** [enqueueObservation]: the operation of the delivery queue an observation leads to. *)
Record Observation := mkObservation {
  ob_Snapshot : bool;
  ob_Revision : Z;
  ob_Sequence : Z;
  ob_Publisher : NodeID;
  ob_PublisherSequence : Z;
  ob_Schema : string;
  ob_Value : list byte;
  ob_Failure : option ErrorPayload
}.
Definition observed_event (q : Request) (kind : EventKind) (o : Observation) : Event :=
  mkEvent kind (rq_Resource q) (rq_Capability q) (ob_Schema o) (ob_Revision o) (ob_Sequence o) (ob_Publisher o) (ob_PublisherSequence o)
    0 0 (ob_Value o) "" None.
Definition enqueueObservation (q : Request) (o : Observation) : label :=
  match ob_Failure o with
  | Some f => LFail (mkEvent EventFailure (rq_Resource q) (rq_Capability q) "" 0 0 0 0 0 0 [] "" (Some f))
  | None =>
    if ob_Snapshot o then LSnapshot (observed_event q EventSnapshot o)
    else if negb (ob_Revision o =? 0) then LVariable (observed_event q EventData o)
    else LStream (observed_event q EventData o)
  end.

(** The observation a topic makes of an event ([Topic.Observe]). *)
Definition topic_observation (t : Topic) (e : TopicEvent) : Observation :=
  mkObservation false 0 (te_Sequence e) (te_Publisher e) (te_PublisherSequence e) (eventSchema (t_descriptor t)) (te_Value e) None.

(** ** The machine *)

Inductive thread :=
| TObserved (e : entry)                   (* [Subscribe]: the resource is being observed *)
| TAdded (e : entry)                      (* the interest was added *)
| TUndo (id : MessageID) (tag : nat)      (* the entry was refused: the interest is to be removed *)
| TRemove (id : MessageID)                (* [remove] was called *)
| TInterest (id : MessageID) (tag : nat)  (* the entry is gone, the interest not yet *)
| TUnwatch (tag : nat).                   (* the observer is to be cancelled *)

Record mm := mkMm {
  m_config : Config;
  m_interest : InterestTable;
  m_entries : gmap MessageID entry;
  m_closed : bool;
  m_watching : gset nat;
  m_next : nat;
  m_threads : list thread
}.

Definition NewManager (config : Config) : option mm :=
  c ← Config_normalized config;
  match NewInterestTable (MaxSubscriptions c) with Ok t => Some (mkMm c t ∅ false ∅ 0 []) | Err _ => None end.

Definition with_threads (m : mm) (threads : list thread) : mm :=
  mkMm (m_config m) (m_interest m) (m_entries m) (m_closed m) (m_watching m) (m_next m) threads.
Definition with_interest (m : mm) (t : InterestTable) (threads : list thread) : mm :=
  mkMm (m_config m) t (m_entries m) (m_closed m) (m_watching m) (m_next m) threads.
Definition with_entries (m : mm) (entries : gmap MessageID entry) (threads : list thread) : mm :=
  mkMm (m_config m) (m_interest m) entries (m_closed m) (m_watching m) (m_next m) threads.

Inductive mlabel :=
| MSubscribe (q : Request) (id : MessageID) (now : Z) (value : option (Descriptor * bool * bool))
| MStep (i : nat)                                                  (* a call in progress makes its next step *)
| MUnsubscribe (id : MessageID)                                    (* also: the delivery of the subscription has ended *)
| MUnsubscribeFor (id : MessageID) (subscriber : NodeID)
| MCleanupLink (link : string) (order : list (MessageID * Interest))
| MCleanupPolicy (generation : Z) (order : list (MessageID * Interest))
| MClose (order : list MessageID).

(** The next step of a thread; the threads before and after it are [l1] and [l2].  [remove] also
    stops the timer of the lease and the delivery, which concern the delivery alone. *)
Definition thread_step (m : mm) (l1 l2 : list thread) (th : thread) : mm :=
  match th with
  | TObserved e =>
    match Add (m_interest m) (interest_of e) with
    | Ok (_, t) => with_interest m t (l1 ++ TAdded e :: l2)
    | Err _ => with_threads m (l1 ++ TUnwatch (en_tag e) :: l2)
    end
  | TAdded e =>
    let id := rq_ID (en_request e) in
    if m_closed m || bool_decide (is_Some (m_entries m !! id)) || (MaxSubscriptions (m_config m) <=? Z.of_nat (size (m_entries m)))
    then with_threads m (l1 ++ TUndo id (en_tag e) :: l2)
    else with_entries m (<[id := e]> (m_entries m)) (l1 ++ l2)
  | TUndo id tag => with_interest m (Remove (m_interest m) id).2 (l1 ++ TUnwatch tag :: l2)
  | TRemove id =>
    match m_entries m !! id with
    | None => with_threads m (l1 ++ l2)
    | Some e => with_entries m (delete id (m_entries m)) (l1 ++ TInterest id (en_tag e) :: l2)
    end
  | TInterest id tag => with_interest m (Remove (m_interest m) id).2 (l1 ++ TUnwatch tag :: l2)
  | TUnwatch tag => mkMm (m_config m) (m_interest m) (m_entries m) (m_closed m) (m_watching m ∖ {[ tag ]}) (m_next m) (l1 ++ l2)
  end.

Definition manager_step (m : mm) (l : mlabel) : option mm :=
  match l with
  | MSubscribe q id now value =>
    match Subscribe_check (m_config m) q id now value with
    | Err _ => Some m
    | Ok (q, leaseUntil, _) =>
      Some (mkMm (m_config m) (m_interest m) (m_entries m) (m_closed m) ({[ m_next m ]} ∪ m_watching m) (S (m_next m))
              (m_threads m ++ [TObserved (mkEntry q leaseUntil (m_next m))]))
    end
  | MStep i =>
    th ← m_threads m !! i;
    Some (thread_step m (take i (m_threads m)) (drop (S i) (m_threads m)) th)
  | MUnsubscribe id => Some (with_threads m (m_threads m ++ [TRemove id]))
  | MUnsubscribeFor id subscriber =>
    match m_entries m !! id with
    | Some e => if negb (rq_Subscriber (en_request e) =? subscriber) then Some m else Some (with_threads m (m_threads m ++ [TRemove id]))
    | None => Some m
    end
  | MCleanupLink link order =>
    let '(removed, t) := CleanupLink (m_interest m) link order in
    Some (with_interest m t (m_threads m ++ ((λ i, TRemove (i_ID i)) <$> removed)))
  | MCleanupPolicy generation order =>
    let '(_, t) := CleanupPolicyGeneration (m_interest m) generation order in Some (with_interest m t (m_threads m))
  | MClose order =>
    if m_closed m then Some m
    else Some (mkMm (m_config m) (m_interest m) (m_entries m) true (m_watching m) (m_next m) (m_threads m ++ (TRemove <$> order)))
  end.

(** Tables are iterated over in some order of their entries. *)
Definition mlabel_ok (m : mm) (l : mlabel) : Prop :=
  match l with
  | MCleanupLink _ order | MCleanupPolicy _ order => order ≡ₚ map_to_list (it_byID (m_interest m))
  | MClose order => order ≡ₚ (map_to_list (m_entries m)).*1
  | _ => True
  end.

Inductive mm_reachable : mm → Prop :=
| mr_new config m : NewManager config = Some m → mm_reachable m
| mr_step m l m' : mm_reachable m → mlabel_ok m l → manager_step m l = Some m' → mm_reachable m'.

(** ** The invariant *)

Definition thread_tags (th : thread) : list nat :=
  match th with TObserved e | TAdded e => [en_tag e] | TUndo _ tag | TInterest _ tag | TUnwatch tag => [tag] | TRemove _ => [] end.
(** The observers that somebody will cancel. *)
Definition owned (m : mm) : list nat := (en_tag <$> (map_to_list (m_entries m)).*2) ++ (m_threads m ≫= thread_tags).
(** The interest a thread will turn into an entry or remove. *)
Definition thread_interest (th : thread) : list MessageID :=
  match th with TAdded e => [rq_ID (en_request e)] | TUndo id _ | TInterest id _ => [id] | _ => [] end.

Record mm_ok (m : mm) : Prop := mkMmOk {
  mo_table : table_ok (m_interest m) ∧ it_max (m_interest m) = MaxSubscriptions (m_config m) ∧ 0 < MaxSubscriptions (m_config m);
  mo_size : Z.of_nat (size (m_entries m)) ≤ MaxSubscriptions (m_config m);
  mo_id : ∀ id e, m_entries m !! id = Some e → rq_ID (en_request e) = id;
  mo_interest : ∀ id, is_Some (it_byID (m_interest m) !! id) → is_Some (m_entries m !! id) ∨ id ∈ m_threads m ≫= thread_interest;
  mo_owned : NoDup (owned m) ∧ (∀ tag, tag ∈ owned m → (tag < m_next m)%nat) ∧ m_watching m = list_to_set (owned m);
  mo_closed : m_closed m = true → ∀ id, is_Some (m_entries m !! id) → TRemove id ∈ m_threads m
}.

Lemma NewManager_ok config m : NewManager config = Some m → mm_ok m.
Proof.
  unfold NewManager. intros H. destruct (Config_normalized config) as [c|] eqn:Ec; [|done]. simpl in H.
  destruct (NewInterestTable (MaxSubscriptions c)) as [t|] eqn:Et; [|done]. simplify_eq.
  assert (0 < MaxSubscriptions c) as Hc.
  { unfold NewInterestTable in Et. destruct (Z.leb_spec (MaxSubscriptions c) 0); [done|lia]. }
  apply New_table_ok in Et as (T1 & T2 & T3). split; simpl; try done.
  - rewrite map_size_empty. lia.
  - intros id [i Hi]. by rewrite T2 in Hi.
  - unfold owned. simpl. split_and!; [constructor|by intros ? ?%not_elem_of_nil|done].
Qed.

(** A step that keeps the owned observers up to their order. *)
Lemma owned_perm m m' :
  NoDup (owned m) ∧ (∀ tag, tag ∈ owned m → (tag < m_next m)%nat) ∧ m_watching m = list_to_set (owned m) →
  owned m' ≡ₚ owned m → m_next m' = m_next m → m_watching m' = m_watching m →
  NoDup (owned m') ∧ (∀ tag, tag ∈ owned m' → (tag < m_next m')%nat) ∧ m_watching m' = list_to_set (owned m').
Proof.
  intros (H1 & H2 & H3) Hp Hn Hw. rewrite Hw, Hn, H3. split_and!.
  - by rewrite Hp.
  - intros tag Ht. apply H2. by rewrite <- Hp.
  - apply leibniz_equiv. by rewrite Hp.
Qed.

Lemma owned_threads m l1 th l2 :
  m_threads m = l1 ++ th :: l2 →
  owned m = (en_tag <$> (map_to_list (m_entries m)).*2) ++ (l1 ≫= thread_tags) ++ thread_tags th ++ (l2 ≫= thread_tags).
Proof. intros H. unfold owned. rewrite H, bind_app. done. Qed.

Lemma Remove_interest t id :
  table_ok t → table_ok (Remove t id).2 ∧ it_max (Remove t id).2 = it_max t ∧ it_byID (Remove t id).2 = delete id (it_byID t).
Proof.
  intros H. pose proof (Remove_refines t id H) as Hr. destruct (Remove t id) as [r t']. destruct Hr as (H1 & H2 & H3). split_and!; try done.
  simpl. unfold spec_Remove in H1. destruct (it_byID t !! id) eqn:E; simplify_eq; [done|]. by rewrite delete_id.
Qed.

(** Threads appended without tags or interests. *)
Lemma remove_threads m ids : mm_ok m → mm_ok (with_threads m (m_threads m ++ (TRemove <$> ids))).
Proof.
  intros [K1 K2 K3 K4 K5 K6]. assert ((TRemove <$> ids) ≫= thread_tags = [] ∧ (TRemove <$> ids) ≫= thread_interest = []) as [H1 H2]
    by (clear; induction ids as [|id ids [IH1 IH2]]; simpl; done).
  split; simpl; try done.
  - intros id Hi. rewrite bind_app, H2, app_nil_r. by apply K4.
  - refine (owned_perm m (with_threads m _) K5 _ eq_refl eq_refl). unfold owned. simpl. by rewrite bind_app, H1, app_nil_r.
  - intros Hc id Hi. apply elem_of_app. left. by apply K6.
Qed.

Lemma elem_of_bind_threads {A} (f : thread → list A) l1 th l2 x :
  x ∈ (l1 ++ th :: l2) ≫= f ↔ x ∈ l1 ≫= f ∨ x ∈ f th ∨ x ∈ l2 ≫= f.
Proof. rewrite bind_app, elem_of_app. simpl. by rewrite elem_of_app. Qed.

Lemma thread_step_ok m l1 th l2 : mm_ok m → m_threads m = l1 ++ th :: l2 → mm_ok (thread_step m l1 l2 th).
Proof.
  intros [K1 K2 K3 K4 K5 K6] Ht. destruct K1 as (T1 & T2 & T3).
  pose proof (owned_threads m l1 th l2 Ht) as Hown.
  setoid_rewrite Ht in K4. setoid_rewrite elem_of_bind_threads in K4.
  assert (∀ id, TRemove id ∈ m_threads m → TRemove id ≠ th → ∀ th', TRemove id ∈ l1 ++ th' :: l2) as Hkeep.
  { intros id Hin Hne th'. rewrite Ht in Hin. apply elem_of_app in Hin as [?|[?|?]%elem_of_cons]; [apply elem_of_app; by left|by destruct Hne|].
    apply elem_of_app. right. by right. }
  assert (∀ id, TRemove id ∈ m_threads m → TRemove id ≠ th → TRemove id ∈ l1 ++ l2) as Hkeep'.
  { intros id Hin Hne. rewrite Ht in Hin. apply elem_of_app in Hin as [?|[?|?]%elem_of_cons]; apply elem_of_app; [by left|by destruct Hne|by right]. }
  destruct th as [e|e|id tag|id|id tag|tag]; simpl in *.
  - pose proof (Add_refines (m_interest m) (interest_of e) T1) as Ha. destruct (Add (m_interest m) (interest_of e)) as [[first t]|err].
    + destruct Ha as (A1 & A2 & A3). unfold spec_Add in A1. guards A1. injection A1 as _ A1.
      split; simpl; try done; [by rewrite A2| | |].
      * intros id Hi. rewrite elem_of_bind_threads. simpl. rewrite <- A1 in Hi. apply lookup_insert_is_Some' in Hi as [<-|Hi].
        -- right. right. left. simpl. left.
        -- apply K4 in Hi as [?|[?|[?%not_elem_of_nil|?]]]; tauto.
      * refine (owned_perm m (with_interest m t _) K5 _ eq_refl eq_refl). rewrite Hown. unfold owned. simpl. by rewrite bind_app.
      * intros Hc id Hi. by apply Hkeep; [apply K6|].
    + split; simpl; try done.
      * intros id Hi. rewrite elem_of_bind_threads. simpl. apply K4 in Hi. tauto.
      * refine (owned_perm m (with_threads m _) K5 _ eq_refl eq_refl). rewrite Hown. unfold owned. simpl. by rewrite bind_app.
      * intros Hc id Hi. by apply Hkeep; [apply K6|].
  - destruct (m_closed m || bool_decide (is_Some (m_entries m !! rq_ID (en_request e))) || _) eqn:Ec.
    + split; simpl; try done.
      * intros id Hi. rewrite elem_of_bind_threads. simpl. apply K4 in Hi. done.
      * refine (owned_perm m (with_threads m _) K5 _ eq_refl eq_refl). rewrite Hown. unfold owned. simpl. by rewrite bind_app.
      * intros Hc id Hi. by apply Hkeep; [apply K6|].
    + apply orb_false_iff in Ec as [[Ec1 Ec2]%orb_false_iff Ec3]. bool_prop.
      assert (m_entries m !! rq_ID (en_request e) = None) as Hnone by (by apply eq_None_not_Some).
      split; simpl; try done.
      * rewrite map_size_insert_None by done. lia.
      * intros id e'. rewrite lookup_insert_Some. intros [[<- <-]|[_ ?]]; [done|by apply K3].
      * intros id Hi. rewrite lookup_insert_is_Some'. rewrite bind_app, elem_of_app. apply K4 in Hi as [?|[?|[Hx|?]]]; try tauto.
        apply list_elem_of_singleton in Hx as ->. by left; left.
      * refine (owned_perm m (with_entries m _ _) K5 _ eq_refl eq_refl). rewrite Hown. unfold owned. simpl.
        rewrite map_to_list_insert by done. simpl. rewrite bind_app. solve_Permutation.
      * intros Hc. congruence.
  - destruct (Remove_interest (m_interest m) id T1) as (R1 & R2 & R3). split; simpl; try done; [by rewrite R2| | |].
    + intros id' Hi. rewrite R3 in Hi. apply lookup_delete_is_Some in Hi as [Hne Hi]. rewrite elem_of_bind_threads. simpl.
      apply K4 in Hi as [?|[?|[Hx|?]]]; try tauto. by apply list_elem_of_singleton in Hx.
    + refine (owned_perm m (with_interest m _ _) K5 _ eq_refl eq_refl). rewrite Hown. unfold owned. simpl. by rewrite bind_app.
    + intros Hc id' Hi. by apply Hkeep; [apply K6|].
  - destruct (m_entries m !! id) as [e|] eqn:Ee.
    + split; simpl; try done.
      * rewrite map_size_delete_Some by eauto. lia.
      * intros id' e' [_ H]%lookup_delete_Some. by apply K3.
      * intros id' Hi. rewrite elem_of_bind_threads. simpl. destruct (decide (id' = id)) as [->|Hne]; [right; right; left; left|].
        apply K4 in Hi as [?|[?|[?%not_elem_of_nil|?]]]; try tauto. left. apply lookup_delete_is_Some. done.
      * refine (owned_perm m (with_entries m _ _) K5 _ eq_refl eq_refl). rewrite Hown. unfold owned. simpl.
        rewrite <- (map_to_list_delete (m_entries m) id e) by done. simpl. rewrite bind_app. simpl. solve_Permutation.
      * intros Hc id' [Hne Hi]%lookup_delete_is_Some. apply Hkeep; [by apply K6|congruence].
    + split; simpl; try done.
      * intros id' Hi. rewrite bind_app, elem_of_app. apply K4 in Hi as [?|[?|[?%not_elem_of_nil|?]]]; tauto.
      * refine (owned_perm m (with_threads m _) K5 _ eq_refl eq_refl). rewrite Hown. unfold owned. simpl. by rewrite bind_app.
      * intros Hc id' Hi. apply Hkeep'; [by apply K6|]. intros [= ->]. rewrite Ee in Hi. by destruct Hi.
  - destruct (Remove_interest (m_interest m) id T1) as (R1 & R2 & R3). split; simpl; try done; [by rewrite R2| | |].
    + intros id' Hi. rewrite R3 in Hi. apply lookup_delete_is_Some in Hi as [Hne Hi]. rewrite elem_of_bind_threads. simpl.
      apply K4 in Hi as [?|[?|[Hx|?]]]; try tauto. by apply list_elem_of_singleton in Hx.
    + refine (owned_perm m (with_interest m _ _) K5 _ eq_refl eq_refl). rewrite Hown. unfold owned. simpl. by rewrite bind_app.
    + intros Hc id' Hi. by apply Hkeep; [apply K6|].
  - split; simpl; try done.
    + intros id' Hi. rewrite bind_app, elem_of_app. apply K4 in Hi as [?|[?|[?%not_elem_of_nil|?]]]; tauto.
    + destruct K5 as (N1 & N2 & N3). rewrite Hown in *. simpl in *. unfold owned. simpl. rewrite bind_app.
      set (a := en_tag <$> (map_to_list (m_entries m)).*2) in *. set (b := l1 ≫= thread_tags) in *. set (c := l2 ≫= thread_tags) in *.
      assert (a ++ b ++ tag :: c ≡ₚ tag :: (a ++ b ++ c)) as Hp by solve_Permutation.
      rewrite Hp in N1. apply NoDup_cons in N1 as [N1 N1']. split_and!; [done| |].
      * intros x Hx. apply N2. rewrite Hp. by right.
      * rewrite N3. apply leibniz_equiv. rewrite Hp. simpl. assert (tag ∉@{gset nat} list_to_set (a ++ b ++ c)) by (by rewrite elem_of_list_to_set).
        set_solver.
    + intros Hc id' Hi. apply Hkeep'; [by apply K6|done].
Qed.

Lemma selected_subset p m id : is_Some (selected p m !! id) → is_Some (m !! id).
Proof. intros [i Hi]. unfold selected in Hi. apply map_lookup_filter_Some in Hi as [? _]. eauto. Qed.

(** Dropping interests and calling [remove] for some identifiers. *)
Lemma cleanup_ok p m order removed t ids :
  mm_ok m → order ≡ₚ map_to_list (it_byID (m_interest m)) → cleanup p (m_interest m) order = (removed, t) →
  mm_ok (with_interest m t (m_threads m ++ (TRemove <$> ids))).
Proof.
  intros H Ho Hc. destruct (mo_table _ H) as (T1 & T2 & T3).
  pose proof (cleanup_refines p _ _ T1 Ho) as Hr. rewrite Hc in Hr. destruct Hr as (_ & R1 & R2 & R3).
  apply (remove_threads _ ids) in H. destruct H as [K1 K2 K3 K4 K5 K6]. split; simpl; try done; [by rewrite R2|].
  intros id Hi. rewrite R1 in Hi. apply selected_subset in Hi. by apply K4.
Qed.

Lemma manager_step_ok m l m' : mm_ok m → mlabel_ok m l → manager_step m l = Some m' → mm_ok m'.
Proof.
  intros H Hl Hs. destruct l as [q id now value|i|id|id subscriber|link order|generation order|order]; simpl in *.
  - destruct (Subscribe_check (m_config m) q id now value) as [[[q' lease] queue]|]; simplify_eq; [|done].
    destruct H as [K1 K2 K3 K4 K5 K6]. split; simpl; try done.
    + intros id' Hi. rewrite bind_app, elem_of_app. apply K4 in Hi as [?|?]; tauto.
    + destruct K5 as (N1 & N2 & N3). unfold owned. simpl. rewrite bind_app. simpl. rewrite app_assoc. fold (owned m).
      assert (owned m ++ [m_next m] ≡ₚ m_next m :: owned m) as Hp by solve_Permutation. split_and!.
      * rewrite Hp. constructor; [|done]. intros Hx. apply N2 in Hx. lia.
      * intros tag Ht. rewrite Hp in Ht. apply elem_of_cons in Ht as [->|Ht]; [lia|]. apply N2 in Ht. lia.
      * rewrite N3. apply leibniz_equiv. by rewrite Hp.
    + intros Hc id' Hi. apply elem_of_app. left. by apply K6.
  - destruct (m_threads m !! i) as [th|] eqn:Ei; [|done]. simpl in Hs. simplify_eq. apply thread_step_ok; [done|].
    symmetry. by apply take_drop_middle.
  - simplify_eq. by apply (remove_threads m [id]).
  - destruct (m_entries m !! id) as [e|]; [|by simplify_eq]. destruct (negb _); simplify_eq; [done|]. by apply (remove_threads m [id]).
  - destruct (CleanupLink (m_interest m) link order) as [removed t] eqn:Ec. simplify_eq.
    assert ((λ i, TRemove (i_ID i)) <$> removed = TRemove <$> (i_ID <$> removed)) as -> by (by rewrite <- list_fmap_compose).
    by eapply cleanup_ok.
  - destruct (CleanupPolicyGeneration (m_interest m) generation order) as [removed t] eqn:Ec. simplify_eq.
    rewrite <- (app_nil_r (m_threads m)). by eapply (cleanup_ok _ _ _ _ _ []).
  - destruct (m_closed m) eqn:Ec; simplify_eq; [done|]. apply (remove_threads _ order) in H. destruct H as [K1 K2 K3 K4 K5 K6].
    split; simpl; try done. intros _ id Hi. apply elem_of_app. right. apply list_elem_of_fmap_2. rewrite Hl.
    destruct Hi as [e He]. apply elem_of_map_to_list in He. by apply (list_elem_of_fmap_2 fst) in He.
Qed.

Lemma mm_reachable_ok m : mm_reachable m → mm_ok m.
Proof. induction 1 as [config m H|m l m' _ IH Hl Hs]; [by eapply NewManager_ok|by eapply manager_step_ok]. Qed.

(** C9. No leaks: however subscriptions, removals, cleanups and the closing of the manager
    interleave, both tables stay within the configured limit; when no call is in progress
    every interest belongs to a subscription and exactly the observers of the subscriptions
    are registered, one for each; and once the manager is closed nothing is left of any of
    the three. *)
Theorem manager_no_leak m :
  mm_reachable m →
  Z.of_nat (size (m_entries m)) ≤ MaxSubscriptions (m_config m) ∧
  Z.of_nat (size (it_byID (m_interest m))) ≤ MaxSubscriptions (m_config m) ∧
  (m_threads m = [] →
    (∀ id, is_Some (it_byID (m_interest m) !! id) → is_Some (m_entries m !! id)) ∧
    NoDup (en_tag <$> (map_to_list (m_entries m)).*2) ∧ m_watching m = list_to_set (en_tag <$> (map_to_list (m_entries m)).*2) ∧
    (m_closed m = true → m_entries m = ∅ ∧ it_byID (m_interest m) = ∅ ∧ m_watching m = ∅)).
Proof.
  intros Hr. apply mm_reachable_ok in Hr as [(T1 & T2 & T3) K2 K3 K4 (N1 & N2 & N3) K6]. split; [done|].
  split; [pose proof (tk_size _ T1); lia|]. intros Ht. unfold owned in *. rewrite Ht in *. simpl in *. rewrite app_nil_r in *.
  assert (∀ id, is_Some (it_byID (m_interest m) !! id) → is_Some (m_entries m !! id)) as Hi
    by (intros id Hid; by apply K4 in Hid as [?|?%not_elem_of_nil]).
  split_and!; [done|done|done|]. intros Hc.
  assert (m_entries m = ∅) as He.
  { apply map_empty. intros id. apply eq_None_not_Some. intros Hid. by apply (K6 Hc), not_elem_of_nil in Hid. }
  split_and!; [done| |by rewrite N3, He].
  apply map_empty. intros id. apply eq_None_not_Some. intros Hid. apply Hi in Hid. rewrite He, lookup_empty in Hid. by destruct Hid.
Qed.

(** ** Overlapping publications *)

(** The delivery of a subscription to the topic that the observer calls feed. *)
Definition sample_request : Request := mkRequest 9 5 (mkResourceID 1 "board") "subscribe" "link" 5 (60 * second) 0 1 1 false 0.
Definition delivered (events : list TopicEvent) : list label := (λ e, enqueueObservation sample_request (topic_observation Topic_demo.t0 e)) <$> events.
(** Whenever there is something to read, the reader takes it. *)
Definition reading_run : list label :=
  match delivered (heard Topic_demo.m0 1) with
  | [e1; e3; e2] => [e1; LNext; LSend; e3; e2; LNext; LSend; LNext]
  | _ => []
  end.

(** Two publications of a topic that overlap can be observed in the wrong order, and the
    delivery queue then drops an event without a gap: the three events were accepted and the
    observer was called with all of them, but a reader that takes everything it is offered
    is left idle having been told about 1 and 2 only. *)
Theorem overlapping_publish_loses_event :
  te_Sequence <$> tm_history Topic_demo.m0 = [1; 2; 3] ∧ te_Sequence <$> heard Topic_demo.m0 1 = [1; 3; 2] ∧
  ∃ m, mrun (start (mkResourceID 1 "board") 8) reading_run = Some m ∧ live m ∧ m_loop m = Waiting ∧
       next (m_queue m) = None ∧ cover (m_out m) = [1; 2].
Proof.
  split; [vm_compute; reflexivity|]. split; [vm_compute; reflexivity|].
  eexists. split; [vm_compute; reflexivity|]. by vm_compute.
Qed.

(** ** Witness *)

(** Two subscriptions are set up, one of them is removed with its link, the manager is closed. *)
Module Manager_demo.
Definition descriptor : Descriptor := StreamDescriptor (mkResourceID 1 "board") "" "board.v1" "board.read" 64.
Definition request (id : MessageID) (link : string) : Request :=
  mkRequest id 5 (mkResourceID 1 "board") "subscribe" link 5 (60 * second) 0 1 1 false 0.
Definition start : mm := default (mkMm (mkConfig 0 0 0 0 0) (mkInterestTable 0 ∅ ∅) ∅ false ∅ 0 []) (NewManager (mkConfig 2 0 0 0 0)).
Definition subscribe (id : MessageID) (link : string) : mlabel := MSubscribe (request id link) 0 100 (Some (descriptor, true, true)).
(** The order of the interests of [m]. *)
Definition order (m : mm) : list (MessageID * Interest) := map_to_list (it_byID (m_interest m)).
Definition run1 (m : mm) (l : mlabel) : mm := default m (manager_step m l).
Definition m1 : mm := fold_left run1 [subscribe 1 "a"; subscribe 2 "b"; MStep 1; MStep 0; MStep 0; MStep 0] start.
Definition m2 : mm := fold_left run1 [MStep 0; MStep 0; MStep 0] (run1 m1 (MCleanupLink "a" (order m1))).
Definition m3 : mm := fold_left run1 [MStep 0; MStep 0; MStep 0] (run1 m2 (MClose [2])).

Lemma run1_reachable m l : mm_reachable m → mlabel_ok m l → mm_reachable (run1 m l).
Proof. intros Hr Hl. unfold run1. destruct (manager_step m l) as [m'|] eqn:E; [|done]. by eapply mr_step. Qed.
Lemma run_steps m ls : mm_reachable m → Forall (λ l, ∀ m, mlabel_ok m l) ls → mm_reachable (fold_left run1 ls m).
Proof. intros Hr Hf. revert m Hr. induction Hf as [|l ls Hl _ IH]; intros m Hr; [done|]. simpl. apply IH. by apply run1_reachable. Qed.
Lemma start_reachable : mm_reachable start.
Proof.
  assert (is_Some (NewManager (mkConfig 2 0 0 0 0))) as [m H] by (vm_compute; eexists; reflexivity).
  unfold start. rewrite H. exact (mr_new _ _ H).
Qed.
Lemma m1_reachable : mm_reachable m1.
Proof. apply run_steps; [apply start_reachable|]. by repeat constructor. Qed.
Lemma m2_reachable : mm_reachable m2.
Proof. apply run_steps; [apply run1_reachable; [exact m1_reachable|exact (Permutation_refl _)]|]. by repeat constructor. Qed.
Lemma m3_reachable : mm_reachable m3.
Proof.
  apply run_steps; [apply run1_reachable; [apply m2_reachable|]|by repeat constructor].
  assert ((map_to_list (m_entries m2)).*1 = [2]) as H by (vm_compute; reflexivity). unfold mlabel_ok. by rewrite H.
Qed.
End Manager_demo.

Lemma manager_no_leak_witness :
  (map_to_list (m_entries Manager_demo.m2)).*1 = [2] ∧ m_watching Manager_demo.m2 = {[ 1%nat ]} ∧ m_watching Manager_demo.m3 = ∅.
Proof.
  split; [vm_compute; reflexivity|]. split; [vm_compute; reflexivity|].
  destruct (manager_no_leak Manager_demo.m3 Manager_demo.m3_reachable) as (_ & _ & H).
  destruct H as (_ & _ & _ & H); [vm_compute; reflexivity|]. destruct H as (_ & _ & H); [vm_compute; reflexivity|]. exact H.
Defined.
