(* ===== verification/Node.v ===== *)
(** * The node: routing, adjudication and forwarded subscriptions (runtime/node)

    A node relays frames along its tree.  [routeEnvelope] is the function every frame goes
    through; what it does is returned as a list of effects.  The policy is any instance of
    [Policy]; what a link's send queue answers is an argument, as are the identifiers drawn
    for the frames the node itself creates. *)

From S2P Require Import Prelude GoStd Wire Tree Policy.
Open Scope Z_scope.

Inductive Role := RoleParent | RoleChild.
#[global] Instance Role_eq_dec : EqDecision Role.
Proof. solve_decision. Defined.

Record peerSession := mkPeerSession { pr_peer : NodeID; pr_role : Role; pr_epoch : Z; pr_linkID : string; pr_active : bool }.

Record forwardedSubscription := mkForwarded {
  fs_id : MessageID;
  fs_source : NodeID;
  fs_principal : NodeID;
  fs_target : NodeID;
  fs_resource : ResourceID;
  fs_capability : CapabilityID;
  fs_generation : Z;
  fs_sourceLink : string;
  fs_targetLink : string
}.

Inductive node_error :=
| NErrTree (e : tree_error) | NErrAuth (e : auth_error) | NErrLoop | NErrControlUp | NErrNoSession | NErrSend | NErrClosed
| NErrGeneration | ErrForwardedSubscriptionLimit | NErrForwardedExists | NErrNotChild | NErrDecode | NErrPendingLimit | NErrPendingExists
| NErrMalformed | NErrNoHandler.

Section node.
Context {P : Type} {HP : Policy P}.

Record Node := mkNode {
  n_tree : Tree.State;
  n_policy : P;
  n_sessions : gmap NodeID peerSession;
  n_forwarded : gmap MessageID forwardedSubscription;
  n_pending : gset MessageID;
  n_maxPending : Z;
  n_closed : bool
}.
Definition ID (n : Node) : NodeID := s_local (n_tree n).

Definition set_forwarded (n : Node) (f : gmap MessageID forwardedSubscription) : Node :=
  mkNode (n_tree n) (n_policy n) (n_sessions n) f (n_pending n) (n_maxPending n) (n_closed n).
Definition set_tree (n : Node) (t : Tree.State) : Node :=
  mkNode t (n_policy n) (n_sessions n) (n_forwarded n) (n_pending n) (n_maxPending n) (n_closed n).
Definition set_pending (n : Node) (pending : gset MessageID) : Node :=
  mkNode (n_tree n) (n_policy n) (n_sessions n) (n_forwarded n) pending (n_maxPending n) (n_closed n).

(** ** Forwarded subscriptions (forwarded_subscription.go) *)

Definition link_of (n : Node) (peer : NodeID) : string := match n_sessions n !! peer with Some s => pr_linkID s | None => "" end.

Definition trackForwardedSubscription (n : Node) (request : Envelope) (generation : Z) : result node_error Node :=
  fail_if generation =? 0 with NErrGeneration ;;
  source ← mapErr NErrTree (RouteTo (n_tree n) (e_Source request));
  target ← mapErr NErrTree (RouteTo (n_tree n) (e_Target request));
  fail_if n_closed n with NErrClosed ;;
  fail_if n_maxPending n <=? Z.of_nat (size (n_forwarded n)) with ErrForwardedSubscriptionLimit ;;
  fail_if bool_decide (is_Some (n_forwarded n !! e_MessageID request)) with NErrForwardedExists ;;
  let current := mkForwarded (e_MessageID request) (e_Source request) (e_Principal request) (e_Target request) (e_Resource request)
                   (e_Capability request) generation (link_of n (rt_NextHop source)) (link_of n (rt_NextHop target)) in
  Ok (set_forwarded n (<[e_MessageID request := current]> (n_forwarded n))).

Definition untrackForwardedSubscription (n : Node) (id : MessageID) (source target : NodeID) : Node * bool :=
  match n_forwarded n !! id with
  | None => (n, false)
  | Some current =>
    if negb (fs_source current =? source) || negb (fs_target current =? target) then (n, false)
    else (set_forwarded n (delete id (n_forwarded n)), true)
  end.

Definition authorizeForwardedSubscription (n : Node) (now : Z) (current : forwardedSubscription) : result auth_error unit :=
  let subject := if fs_principal current =? 0 then fs_source current else fs_principal current in
  Authorize (n_policy n) now (mkRequest subject (fs_capability current) (fs_capability current) (fs_resource current)).

(** ** Frames the node creates *)

Definition errorEnvelope (n : Node) (request : Envelope) (id : MessageID) (payload : list byte) : Envelope :=
  mkEnvelope CurrentVersion PhaseResponse OperationError id (e_MessageID request) (ID n) 0 (e_Source request) zeroResourceID 0 0
    "application/json" "error.v1" "" payload.

(** ** Routing (routing.go) *)

Inductive effect :=
| ESend (peer : NodeID) (frame : Envelope)
| ELocal (frame : Envelope) (inbound : option peerSession).

(** What routing a frame does: the node afterwards, the effects, the error returned, and the
    error code reported to the sender of the frame. *)
Record routed := mkRouted { ro_node : Node; ro_effects : list effect; ro_error : option node_error; ro_report : option string }.
Definition refuse (n : Node) (e : node_error) (report : option string) : routed := mkRouted n [] (Some e) report.

(** The check on an event that goes from one child to another. *)
Definition event_allowed (n : Node) (now : Z) (envelope : Envelope) : bool :=
  match n_forwarded n !! e_CorrelationID envelope with
  | None => false
  | Some interest =>
    (fs_source interest =? e_Target envelope) && (fs_target interest =? e_Source envelope) &&
    is_ok (authorizeForwardedSubscription n now interest)
  end.

(** Handing a frame to the link of the next hop; [sent] is what the link answers. *)
Definition dispatch (n : Node) (next : NodeID) (envelope : Envelope) (sent : bool) : list effect * option node_error :=
  match n_sessions n !! next with
  | Some s => if negb (pr_active s) then ([], Some NErrNoSession)
              else if sent then ([ESend next envelope], None) else ([], Some NErrSend)
  | None => ([], Some NErrNoSession)
  end.

Definition untrack_if (b : bool) (n : Node) (id : MessageID) (source target : NodeID) : Node :=
  if b then (untrackForwardedSubscription n id source target).1 else n.

(** From the lookup of the session to the end of [routeEnvelope]. *)
Definition forward (n : Node) (inbound : option peerSession) (next : NodeID) (envelope : Envelope) (tracked untrackAfterSend sent : bool) : routed :=
  match dispatch n next envelope sent with
  | (effects, Some e) =>
    mkRouted (untrack_if tracked n (e_MessageID envelope) (e_Source envelope) (e_Target envelope)) effects (Some e)
      (if bool_decide (is_Some inbound) && ((e_Phase envelope =? PhaseRequest) || (e_Phase envelope =? PhaseControl))
       then Some CodeStaleEpoch else None)
  | (effects, None) =>
    mkRouted (untrack_if untrackAfterSend n (e_CorrelationID envelope) (e_Source envelope) (e_Target envelope)) effects None None
  end.

(** The adjudication of a request that goes down: the node, whether the subscription is now
    tracked, and whether it is to be forgotten after the frame was sent. *)
Definition adjudicate (n : Node) (now : Z) (envelope : Envelope) : result (node_error * string) (Node * bool * bool) :=
  if Subject envelope =? ID n then Ok (n, false, false)
  else
    _ ← mapErr (λ e, (NErrAuth e, CodeForbidden)) (AuthorizeRequest (n_policy n) now envelope);
    if e_Operation envelope =? OperationSubscribe then
      n ← mapErr (λ e, (e, CodeOverflow)) (trackForwardedSubscription n envelope (PolicyGeneration (n_policy n)));
      Ok (n, true, false)
    else Ok (n, false, e_Operation envelope =? OperationUnsubscribe).

Definition route_down (n : Node) (now : Z) (inbound : option peerSession) (route : Route) (envelope : Envelope) (sent : bool) : routed :=
  if e_Phase envelope =? PhaseRequest then
    match adjudicate n now envelope with
    | Err (e, code) => refuse n e (Some code)
    | Ok (n', tracked, untrackAfterSend) =>
      match PromoteControl envelope (rt_Epoch route) with
      | Err e => refuse (untrack_if tracked n' 0 0 0) (NErrAuth e) None (* the failed promotion returns the zero envelope *)
      | Ok envelope => forward n' inbound (rt_NextHop route) envelope tracked untrackAfterSend sent
      end
    end
  else if e_Phase envelope =? PhaseControl then
    match PromoteControl envelope (rt_Epoch route) with
    | Err e => refuse n (NErrAuth e) None
    | Ok envelope => forward n inbound (rt_NextHop route) envelope false false sent
    end
  else forward n inbound (rt_NextHop route) envelope false false sent.

(** [routeEnvelope] up to the call of [sendError]. *)
Definition route_frame (n : Node) (now : Z) (envelope : Envelope) (inbound : option peerSession) (sent : bool) : routed :=
  if e_Target envelope =? ID n then mkRouted n [ELocal envelope inbound] None None else
  let n := untrack_if ((e_Phase envelope =? PhaseResponse) && (e_Operation envelope =? OperationError))
             n (e_CorrelationID envelope) (e_Target envelope) (e_Source envelope) in
  match RouteTo (n_tree n) (e_Target envelope) with
  | Err e =>
    refuse n (NErrTree e)
      (if e_Phase envelope =? PhaseRequest
       then Some (if bool_decide (e = ErrNotReachable) || bool_decide (e = ErrStaleEpoch) then CodeStaleEpoch else CodeNotFound)
       else None)
  | Ok route =>
    if bool_decide (rt_Kind route = DirectionLocal) then mkRouted n [ELocal envelope inbound] None None else
    if match inbound with Some s => rt_NextHop route =? pr_peer s | None => false end then refuse n NErrLoop None else
    if match inbound with Some s => bool_decide (pr_role s = RoleChild) | None => false end
       && bool_decide (rt_Kind route = DirectionDown)
       && ((e_Operation envelope =? OperationResourceEvent) || (e_Operation envelope =? OperationResourceGap))
       && negb (event_allowed n now envelope)
    then mkRouted n [] None None
    else if bool_decide (rt_Kind route = DirectionDown) then route_down n now inbound route envelope sent
    else if e_Phase envelope =? PhaseControl then refuse n NErrControlUp None
    else forward n inbound (rt_NextHop route) envelope false false sent
  end.

(** [sendFailure]: the report goes back through [routeEnvelope] as a response of the node. *)
Definition sendError (n : Node) (now : Z) (request : Envelope) (id : MessageID) (payload : list byte) (sent : bool) : routed :=
  route_frame n now (errorEnvelope n request id payload) None sent.

(** [routeEnvelope]; [id] and [payload] are those of the error frame, if one is sent. *)
Definition routeEnvelope (n : Node) (now : Z) (envelope : Envelope) (inbound : option peerSession) (sent sent' : bool)
    (id : MessageID) (payload : list byte) : routed :=
  let r := route_frame n now envelope inbound sent in
  match ro_report r with
  | None => r
  | Some code =>
    let r' := sendError (ro_node r) now envelope id payload sent' in
    mkRouted (ro_node r') (ro_effects r ++ ro_effects r') (ro_error r) (Some code)
  end.

(** ** Local handling (operations.go) *)

Definition deliverPending (n : Node) (envelope : Envelope) : bool :=
  negb (MessageID_IsZero (e_CorrelationID envelope)) && bool_decide (e_CorrelationID envelope ∈ n_pending n).

Definition authorizeLocal (n : Node) (now : Z) (envelope : Envelope) : result auth_error unit :=
  if (e_Phase envelope =? PhaseControl) || (Subject envelope =? ID n) then Ok tt
  else AuthorizeRequest (n_policy n) now envelope.

(** What is done with a frame for this node: the response is given to the waiting request, a
    subscription is opened for a subject or closed, an operation is invoked with the origin
    the dispatcher decides on, a session frame is handled, or nothing. *)
Inductive local_action :=
| LResponse | LSubscribe (subject : NodeID) (lease : Z) (independent : bool) | LUnsubscribe (id : MessageID) (subject : NodeID)
| LOperate (subject : NodeID) (origin : bool) | LSession | LIgnored.

(** [handleSubscribe] up to the call of the subscription manager; [decoded] is the version and
    the lease in the payload; an error comes with the code that is reported. *)
Definition handleSubscribe (n : Node) (now : Z) (envelope : Envelope) (decoded : option (Z * Z)) : result (node_error * string) local_action :=
  _ ← mapErr (λ e, (NErrAuth e, CodeForbidden)) (authorizeLocal n now envelope);
  match decoded with
  | None => Err (NErrDecode, CodeMalformed)
  | Some (version, lease) =>
    fail_if negb (version =? 2) || (lease <=? 0) with (NErrMalformed, CodeMalformed) ;;
    Ok (LSubscribe (Subject envelope) lease ((e_Phase envelope =? PhaseControl) || (Subject envelope =? ID n)))
  end.

(** [handleUnsubscribe] up to the call of the manager. *)
Definition handleUnsubscribe (n : Node) (now : Z) (envelope : Envelope) : result (node_error * string) local_action :=
  fail_if MessageID_IsZero (e_CorrelationID envelope) with (NErrMalformed, CodeMalformed) ;;
  _ ← mapErr (λ e, (NErrAuth e, CodeForbidden)) (authorizeLocal n now envelope);
  Ok (LUnsubscribe (e_CorrelationID envelope) (Subject envelope)).

(** [handleOperate] up to the call of the dispatcher: whether the call has control origin, which
    the dispatcher does not submit to the authorizer. *)
Definition handleOperate (n : Node) (envelope : Envelope) : result (node_error * string) local_action :=
  fail_if e_DeadlineUnixMS envelope =? 0 with (NErrMalformed, CodeMalformed) ;;
  Ok (LOperate (Subject envelope) ((e_Phase envelope =? PhaseControl) || (Subject envelope =? ID n))).

Definition handleLocal (n : Node) (now : Z) (envelope : Envelope) (decoded : option (Z * Z)) : result (node_error * string) local_action :=
  if ((e_Phase envelope =? PhaseResponse) || (e_Phase envelope =? PhaseEvent)) && deliverPending n envelope then Ok LResponse
  else if e_Operation envelope =? OperationSubscribe then handleSubscribe n now envelope decoded
  else if e_Operation envelope =? OperationUnsubscribe then handleUnsubscribe n now envelope
  else if e_Operation envelope =? OperationOperate then handleOperate n envelope
  else if op_in (e_Operation envelope) [OperationSessionOpen; OperationSessionData; OperationSessionClose] then Ok LSession
  else if op_in (e_Operation envelope) [OperationError; OperationSubscribeAck; OperationResourceEvent; OperationResourceGap;
                                        OperationOperateResult; OperationSessionOpenResult] then Ok LIgnored
  else Err (NErrNoHandler, "").

(** ** What a child can make the node do *)

Inductive permitted (n : Node) (now : Z) (s : peerSession) (env : Envelope) : effect → Prop :=
| perm_local : e_Target env = ID n → permitted n now s env (ELocal env (Some s))
| perm_request peer epoch :
    s_children (n_tree n) !! peer = Some (mkEdge peer epoch) → peer ≠ pr_peer s → e_Phase env = PhaseRequest →
    AuthorizeRequest (n_policy n) now env = Ok tt → permitted n now s env (ESend peer (with_phase_epoch env PhaseControl epoch))
| perm_event peer interest :
    is_Some (s_children (n_tree n) !! peer) → peer ≠ pr_peer s → e_Operation env = OperationResourceEvent ∨ e_Operation env = OperationResourceGap →
    n_forwarded n !! e_CorrelationID env = Some interest → fs_source interest = e_Target env → fs_target interest = e_Source env →
    authorizeForwardedSubscription n now interest = Ok tt → permitted n now s env (ESend peer env)
| perm_response peer :
    is_Some (s_children (n_tree n) !! peer) → peer ≠ pr_peer s → e_Phase env ≠ PhaseRequest →
    e_Operation env ≠ OperationResourceEvent → e_Operation env ≠ OperationResourceGap → permitted n now s env (ESend peer env)
| perm_up peer epoch : s_parent (n_tree n) = Some (mkEdge peer epoch) → peer ≠ pr_peer s → permitted n now s env (ESend peer env)
| perm_error id payload : permitted n now s env (ESend (pr_peer s) (errorEnvelope n env id payload)).

Lemma dispatch_effects n next env sent e : e ∈ (dispatch n next env sent).1 → e = ESend next env.
Proof.
  unfold dispatch. destruct (n_sessions n !! next) as [x|]; [|by intros ?%not_elem_of_nil].
  destruct (pr_active x), sent; simpl; try (by intros ?%not_elem_of_nil). by intros ?%list_elem_of_singleton.
Qed.
Lemma forward_effects n inbound next env t u sent e :
  e ∈ ro_effects (forward n inbound next env t u sent) → e = ESend next env.
Proof.
  unfold forward. pose proof (dispatch_effects n next env sent e) as H. by destruct (dispatch n next env sent) as [effects [?|]].
Qed.

Lemma untrack_frame b n id source target :
  n_tree (untrack_if b n id source target) = n_tree n ∧ n_policy (untrack_if b n id source target) = n_policy n.
Proof.
  unfold untrack_if. destruct b; [|done]. unfold untrackForwardedSubscription. destruct (n_forwarded n !! id); [|done].
  by destruct (_ || _).
Qed.
Lemma track_frame n env g n' : trackForwardedSubscription n env g = Ok n' → n_tree n' = n_tree n ∧ n_policy n' = n_policy n.
Proof.
  unfold trackForwardedSubscription. intros H. destruct (g =? 0); [done|].
  destruct (RouteTo (n_tree n) (e_Source env)); [|done]. destruct (RouteTo (n_tree n) (e_Target env)); [|done]. simpl in H.
  guards H. by simplify_eq.
Qed.

Lemma adjudicate_ok n now env n' t u :
  adjudicate n now env = Ok (n', t, u) → n_tree n' = n_tree n ∧ (Subject env = ID n ∨ AuthorizeRequest (n_policy n) now env = Ok tt).
Proof.
  unfold adjudicate. destruct (Z.eqb_spec (Subject env) (ID n)) as [E|]; [intros [= <- <- <-]; by split; [|left]|].
  destruct (AuthorizeRequest _ now env) as [[]|]; [|done]. simpl. intros H. split; [|by right].
  destruct (e_Operation env =? OperationSubscribe); [|by simplify_eq].
  destruct (trackForwardedSubscription _ _ _) as [n1|] eqn:E; [|done]. simpl in H. simplify_eq. by apply track_frame in E as [? _].
Qed.

Lemma route_down_effects n now inbound route env sent e :
  e ∈ ro_effects (route_down n now inbound route env sent) →
  (e_Phase env = PhaseRequest ∧ (Subject env = ID n ∨ AuthorizeRequest (n_policy n) now env = Ok tt) ∧
     e = ESend (rt_NextHop route) (with_phase_epoch env PhaseControl (rt_Epoch route))) ∨
  (e_Phase env = PhaseControl ∧ e = ESend (rt_NextHop route) (with_phase_epoch env PhaseControl (rt_Epoch route))) ∨
  (e_Phase env ≠ PhaseRequest ∧ e_Phase env ≠ PhaseControl ∧ e = ESend (rt_NextHop route) env).
Proof.
  unfold route_down. destruct (Z.eqb_spec (e_Phase env) PhaseRequest) as [E|E].
  - destruct (adjudicate n now env) as [[[n' t] u]|[err code]] eqn:Ea; [|by intros ?%not_elem_of_nil].
    apply adjudicate_ok in Ea as [_ Ha]. destruct (PromoteControl env (rt_Epoch route)) as [env'|] eqn:Ep; [|by intros ?%not_elem_of_nil].
    unfold PromoteControl in Ep. guards Ep. simplify_eq. intros ->%forward_effects. left. done.
  - destruct (Z.eqb_spec (e_Phase env) PhaseControl) as [E'|E'].
    + destruct (PromoteControl env (rt_Epoch route)) as [env'|] eqn:Ep; [|by intros ?%not_elem_of_nil].
      unfold PromoteControl in Ep. guards Ep. simplify_eq. intros ->%forward_effects. right. left. done.
    + intros ->%forward_effects. right. right. done.
Qed.

Lemma event_allowed_spec n now env :
  event_allowed n now env = true →
  ∃ interest, n_forwarded n !! e_CorrelationID env = Some interest ∧ fs_source interest = e_Target env ∧ fs_target interest = e_Source env ∧
    authorizeForwardedSubscription n now interest = Ok tt.
Proof.
  unfold event_allowed. destruct (n_forwarded n !! e_CorrelationID env) as [interest|]; [|done]. intros H. bool_prop.
  exists interest. split_and!; try done. by apply ok_unit.
Qed.

(** The route of a well-formed tree, by its direction. *)
Lemma route_cases t target route :
  tree_wf t → RouteTo t target = Ok route → rt_Kind route ≠ DirectionLocal →
  target ≠ s_local t ∧
  ((rt_Kind route = DirectionDown ∧ s_children t !! rt_NextHop route = Some (mkEdge (rt_NextHop route) (rt_Epoch route))) ∨
   (rt_Kind route = DirectionUp ∧ s_parent t = Some (mkEdge (rt_NextHop route) (rt_Epoch route)))).
Proof.
  intros W. unfold RouteTo. destruct (Z.eqb_spec target (s_local t)) as [|Hne]; [intros [= <-]; done|].
  destruct (mget (s_routes t) target =? 0) eqn:E; simpl.
  - destruct (s_parent t) as [[node epoch]|]; [|done]. intros [= <-] _. split; [done|]. by right.
  - intros [= <-] _. split; [done|]. left. simpl. split; [done|]. bool_prop. apply mget_nonzero in E.
    destruct (wf_routes _ W _ _ E) as ([[node epoch] He] & _). rewrite He. simpl.
    destruct (wf_children _ W _ _ He) as (Hn & _). simpl in Hn. by subst.
Qed.

Lemma route_frame_tree n now env inbound sent : n_tree (ro_node (route_frame n now env inbound sent)) = n_tree n.
Proof.
  unfold route_frame. destruct (e_Target env =? ID n); [done|].
  set (n0 := untrack_if _ n _ _ _). assert (n_tree n0 = n_tree n) as <- by apply untrack_frame. clearbody n0. clear n. rename n0 into n.
  assert (∀ n inbound next env t u sent, n_tree (ro_node (forward n inbound next env t u sent)) = n_tree n) as Hf.
  { intros. unfold forward. destruct (dispatch _ _ _ _) as [? [?|]]; simpl; apply untrack_frame. }
  destruct (RouteTo (n_tree n) (e_Target env)) as [route|]; [|done]. case_bool_decide; [done|].
  destruct (match inbound with Some _ => _ | None => false end); [done|]. destruct (_ && negb _); [done|].
  case_bool_decide; [|destruct (e_Phase env =? PhaseControl); [done|apply Hf]].
  unfold route_down. destruct (e_Phase env =? PhaseRequest).
  - destruct (adjudicate n now env) as [[[n' t] u]|[err code]] eqn:Ea; [|done]. apply adjudicate_ok in Ea as [<- _].
    destruct (PromoteControl _ _); [apply Hf|]. simpl. apply untrack_frame.
  - destruct (e_Phase env =? PhaseControl); [|apply Hf]. by destruct (PromoteControl _ _); [apply Hf|].
Qed.

Lemma route_frame_child n now env s sent e :
  tree_wf (n_tree n) → pr_role s = RoleChild → ValidateInboundChild (n_tree n) (pr_peer s) (pr_epoch s) env = Ok tt →
  e ∈ ro_effects (route_frame n now env (Some s) sent) → permitted n now s env e.
Proof.
  intros W Hrole Hv. unfold ValidateInboundChild in Hv. guards Hv. bool_prop. apply mapErr_ok, ValidateSource_edge in Hv as [Hr Hc]; [|done].
  assert (Subject env ≠ ID n) as Hsub.
  { unfold Subject. destruct (e_Principal env =? 0) eqn:Ep; [simpl|bool_prop; lia]. intros Hx. rewrite Hx in Hr. unfold ID in Hr.
    by rewrite (wf_local_route _ W) in Hr. }
  unfold route_frame. destruct (Z.eqb_spec (e_Target env) (ID n)) as [Et|Et].
  { intros ->%list_elem_of_singleton. by constructor. }
  set (b := (e_Phase env =? PhaseResponse) && (e_Operation env =? OperationError)).
  destruct (untrack_frame b n (e_CorrelationID env) (e_Target env) (e_Source env)) as [Htree Hpol]. rewrite Htree.
  destruct (RouteTo (n_tree n) (e_Target env)) as [route|] eqn:Er; [|by intros ?%not_elem_of_nil].
  case_bool_decide as Hk; [unfold RouteTo in Er; unfold ID in Et; destruct (Z.eqb_spec (e_Target env) (s_local (n_tree n))); [done|];
    destruct (mget _ _ =? 0); simpl in Er; [destruct (s_parent (n_tree n)); simplify_eq|simplify_eq]; by destruct Hk|].
  destruct (route_cases _ _ _ W Er Hk) as (_ & Hcases).
  destruct (Z.eqb_spec (rt_NextHop route) (pr_peer s)) as [|Hback]; [by intros ?%not_elem_of_nil|].
  rewrite bool_decide_eq_true_2 by done. simpl.
  destruct Hcases as [[Hdown Hch]|[Hup Hpar]].
  - rewrite bool_decide_eq_true_2 by done. simpl.
    destruct (((e_Operation env =? OperationResourceEvent) || (e_Operation env =? OperationResourceGap)) && negb (event_allowed _ now env)) eqn:Eev;
      [by intros ?%not_elem_of_nil|].
    intros He. apply route_down_effects in He as [(Hp & Ha & ->)|[(Hp & _)|(Hp1 & Hp2 & ->)]].
    + eapply perm_request; try done. destruct Ha as [Ha|Ha]; [unfold ID in Ha; rewrite Htree in Ha; done|]. by rewrite Hpol in Ha.
    + done.
    + destruct ((e_Operation env =? OperationResourceEvent) || (e_Operation env =? OperationResourceGap)) eqn:Eop.
      * simpl in Eev. apply negb_false_iff, event_allowed_spec in Eev as (interest & F1 & F2 & F3 & F4).
        assert (untrack_if b n (e_CorrelationID env) (e_Target env) (e_Source env) = n) as Hsame.
        { unfold b. destruct (Z.eqb_spec (e_Operation env) OperationError) as [Eo|]; [rewrite Eo in Eop; done|]. by rewrite andb_false_r. }
        rewrite Hsame in F1, F4. eapply perm_event; try done. apply orb_true_iff in Eop. rewrite !Z.eqb_eq in Eop. done.
      * bool_prop. apply perm_response; try done.
  - rewrite bool_decide_eq_false_2 by congruence. simpl. destruct (Z.eqb_spec (e_Phase env) PhaseControl); [done|].
    intros ->%forward_effects. by eapply perm_up.
Qed.

(** An error reported to a descendant goes to the child it is routed through, and nowhere else. *)
Lemma sendError_effects n now request id payload sent child edge e :
  tree_wf (n_tree n) → s_routes (n_tree n) !! e_Source request = Some child → s_children (n_tree n) !! child = Some edge →
  e ∈ ro_effects (sendError n now request id payload sent) → e = ESend child (errorEnvelope n request id payload).
Proof.
  intros W Hr Hc. unfold sendError, route_frame. cbn [errorEnvelope e_Target e_Phase e_Operation e_CorrelationID e_Source].
  destruct (wf_routes _ W _ _ Hr) as (_ & _ & Hcz).
  destruct (Z.eqb_spec (e_Source request) (ID n)) as [E|E].
  { rewrite E in Hr. unfold ID in Hr. by rewrite (wf_local_route _ W) in Hr. }
  set (n0 := untrack_if _ n _ _ _). assert (n_tree n0 = n_tree n) as -> by apply untrack_frame.
  unfold RouteTo. unfold ID in E. rewrite (proj2 (Z.eqb_neq _ _) E).
  assert (mget (s_routes (n_tree n)) (e_Source request) = child) as -> by (unfold mget; by rewrite Hr).
  rewrite (proj2 (Z.eqb_neq _ _) Hcz). simpl. intros He. apply route_down_effects in He as [(Hp & _)|[(Hp & _)|(_ & _ & ->)]]; done.
Qed.

(** C1. A child link cannot exceed its rights: a frame accepted from a child link speaks for a
    node behind that link and for nobody else, and whatever it makes the node do is one of:
    handling it here; passing a request to another child as an authorised control frame of
    that child's current epoch, only if the policy allows the request; passing an event of a
    tracked subscription that is still authorised; passing a response; sending it to the
    parent, never as control; or returning an error to the link it came from. *)
Theorem child_confined n now env s sent sent' id payload e :
  tree_reachable (n_tree n) → pr_role s = RoleChild →
  ValidateInboundChild (n_tree n) (pr_peer s) (pr_epoch s) env = Ok tt →
  e ∈ ro_effects (routeEnvelope n now env (Some s) sent sent' id payload) →
  Subject env = e_Source env ∧ s_routes (n_tree n) !! e_Source env = Some (pr_peer s) ∧
  s_children (n_tree n) !! pr_peer s = Some (mkEdge (pr_peer s) (pr_epoch s)) ∧ e_Phase env ≠ PhaseControl ∧
  permitted n now s env e.
Proof.
  intros W%tree_reachable_wf Hrole Hv He. pose proof Hv as Hv'. unfold ValidateInboundChild in Hv'. guards Hv'. bool_prop.
  apply mapErr_ok, ValidateSource_edge in Hv' as [Hr Hc]; [|done].
  split_and!; try done; [unfold Subject; by match goal with H : e_Principal env = 0 |- _ => rewrite H end|].
  unfold routeEnvelope in He. destruct (ro_report (route_frame n now env (Some s) sent)) as [code|]; [|by eapply route_frame_child].
  simpl in He. apply elem_of_app in He as [He|He]; [by eapply route_frame_child|].
  assert (n_tree (ro_node (route_frame n now env (Some s) sent)) = n_tree n) as Ht by apply route_frame_tree.
  eapply sendError_effects in He; [|by rewrite Ht|by rewrite Ht|by rewrite Ht].
  assert (errorEnvelope (ro_node (route_frame n now env (Some s) sent)) env id payload = errorEnvelope n env id payload) as Hee
    by (unfold errorEnvelope, ID; by rewrite Ht).
  rewrite Hee in He. subst e. apply perm_error.
Qed.

(** Reporting an error never asks for another report: [sendError] does not recurse. *)
Lemma sendError_no_report n now request id payload sent : ro_report (sendError n now request id payload sent) = None.
Proof.
  unfold sendError, route_frame. cbn [errorEnvelope e_Target e_Phase e_Operation e_CorrelationID e_Source].
  destruct (_ =? _); [done|]. destruct (RouteTo _ _) as [route|]; [|done]. case_bool_decide; [done|]. simpl.
  assert (∀ n next env t u, e_Phase env = PhaseResponse → ro_report (forward n None next env t u sent) = None) as Hf.
  { intros n' next env t u Hp. unfold forward. by destruct (dispatch _ _ _ _) as [? [?|]]. }
  case_bool_decide; [unfold route_down; simpl|]; by apply Hf.
Qed.

(** What reaches the local resources from a child link is authorised by the policy. *)
Lemma handleLocal_child n now env s decoded action :
  tree_reachable (n_tree n) → ValidateInboundChild (n_tree n) (pr_peer s) (pr_epoch s) env = Ok tt →
  handleLocal n now env decoded = Ok action →
  match action with
  | LSubscribe subject _ independent => subject = e_Source env ∧ independent = false ∧ AuthorizeRequest (n_policy n) now env = Ok tt
  | LUnsubscribe _ subject => subject = e_Source env ∧ AuthorizeRequest (n_policy n) now env = Ok tt
  | LOperate subject trusted => subject = e_Source env ∧ trusted = false
  | _ => True
  end.
Proof.
  intros W%tree_reachable_wf Hv H. unfold ValidateInboundChild in Hv. guards Hv. bool_prop.
  apply mapErr_ok, ValidateSource_edge in Hv as [Hr _]; [|done].
  assert (Subject env = e_Source env) as Hs by (unfold Subject; by match goal with H : e_Principal env = 0 |- _ => rewrite H end).
  assert ((e_Phase env =? PhaseControl) || (Subject env =? ID n) = false) as Ht.
  { apply orb_false_iff. split; apply Z.eqb_neq; [done|]. rewrite Hs. intros Hx. rewrite Hx in Hr. unfold ID in Hr.
    by rewrite (wf_local_route _ W) in Hr. }
  unfold handleLocal, handleSubscribe, handleUnsubscribe, handleOperate, authorizeLocal in H. rewrite Ht in H. destruct (_ && deliverPending n env); [by simplify_eq|].
  destruct (_ =? OperationSubscribe).
  { destruct (AuthorizeRequest _ now env) as [[]|] eqn:Ea; [|done]. simpl in H. destruct decoded as [[version lease]|]; [|done].
    guards H. by simplify_eq. }
  destruct (_ =? OperationUnsubscribe).
  { guards H. destruct (AuthorizeRequest _ now env) as [[]|] eqn:Ea; [|done]. simpl in H. by simplify_eq. }
  destruct (_ =? OperationOperate); [guards H; by simplify_eq|]. destruct (op_in _ _); [by simplify_eq|]. destruct (op_in _ _); by simplify_eq.
Qed.
End node.

(** ** A network of nodes *)

Section network.
Context (net : gmap NodeID Tree.State).

(** [a] is the parent that [b] is attached to. *)
Definition parent_of (b : NodeID) : option NodeID := net !! b ≫= λ s, ed_Node <$> s_parent s.
Definition attached (a b : NodeID) : Prop := parent_of b = Some a.

(** The trees of the nodes agree: one root above every node, and every node routes to exactly
    the nodes below its children. *)
Record network_ok : Prop := mkNetworkOk {
  nw_node : ∀ x s, net !! x = Some s → s_local s = x ∧ tree_wf s;
  nw_routes : ∀ x s t c, net !! x = Some s → s_routes s !! t = Some c ↔ attached x c ∧ rtc attached c t;
  nw_closed : ∀ a b, attached a b → is_Some (net !! a);
  nw_root : ∃ root, ∀ x, is_Some (net !! x) → rtc attached root x
}.

(** A frame for [t] followed from node to node; a node refuses to send it back where it came
    from, as [routeEnvelope] does. *)
Fixpoint walk (fuel : nat) (prev : option NodeID) (x t : NodeID) : option (list NodeID) :=
  match fuel with
  | O => None
  | S fuel =>
    s ← net !! x;
    match RouteTo s t with
    | Err _ => None
    | Ok route =>
      if bool_decide (rt_Kind route = DirectionLocal) then Some [x]
      else if bool_decide (prev = Some (rt_NextHop route)) then None
      else cons x <$> walk fuel (Some x) (rt_NextHop route) t
    end
  end.

Context (Hok : network_ok).

Lemma attached_inj a b c : attached a c → attached b c → a = b.
Proof. unfold attached. congruence. Qed.

(** No node is below itself. *)
Lemma attached_acyclic x c : attached x c → ¬ rtc attached c x.
Proof.
  intros Hx Hc. destruct (nw_closed Hok _ _ Hx) as [s Hs]. destruct (nw_node Hok _ _ Hs) as [Hl W].
  assert (s_routes s !! x = Some c) as Hr by (by apply (nw_routes Hok x s x c Hs)).
  rewrite <- Hl in Hr. by rewrite (wf_local_route _ W) in Hr.
Qed.

Lemma route_local x s : net !! x = Some s → ∃ route, RouteTo s x = Ok route ∧ rt_Kind route = DirectionLocal.
Proof. intros Hs. destruct (nw_node Hok _ _ Hs) as [<- _]. unfold RouteTo. rewrite Z.eqb_refl. eauto. Qed.

Lemma route_below x s c t :
  net !! x = Some s → attached x c → rtc attached c t → ∃ route, RouteTo s t = Ok route ∧ rt_Kind route = DirectionDown ∧ rt_NextHop route = c.
Proof.
  intros Hs Hx Hc. destruct (nw_node Hok _ _ Hs) as [Hl W].
  assert (s_routes s !! t = Some c) as Hr by (by apply (nw_routes Hok x s t c Hs)).
  assert (t ≠ s_local s) as Hne by (intros ->; by rewrite (wf_local_route _ W) in Hr).
  unfold RouteTo. rewrite (proj2 (Z.eqb_neq _ _) Hne). assert (mget (s_routes s) t = c) as -> by (unfold mget; by rewrite Hr).
  destruct (wf_routes _ W _ _ Hr) as (_ & _ & Hz). rewrite (proj2 (Z.eqb_neq _ _) Hz). simpl. eauto.
Qed.

Lemma route_above x s p t :
  net !! x = Some s → attached p x → ¬ rtc attached x t → ∃ route, RouteTo s t = Ok route ∧ rt_Kind route = DirectionUp ∧ rt_NextHop route = p.
Proof.
  intros Hs Hp Ht. destruct (nw_node Hok _ _ Hs) as [Hl W].
  assert (s_routes s !! t = None) as Hr.
  { apply eq_None_not_Some. intros [c Hc]. apply (nw_routes Hok x s t c Hs) in Hc as [H1 H2]. apply Ht. by eapply rtc_l. }
  assert (t ≠ s_local s) as Hne by (rewrite Hl; intros ->; apply Ht; constructor).
  unfold attached, parent_of in Hp. rewrite Hs in Hp. simpl in Hp. destruct (s_parent s) as [[node epoch]|] eqn:Ep; [|done].
  simpl in Hp. simplify_eq. unfold RouteTo. rewrite (proj2 (Z.eqb_neq _ _) Hne). unfold mget. rewrite Hr. simpl. rewrite Ep. eauto.
Qed.

(** Downwards: a frame above its target reaches it. *)
Lemma walk_down x t : rtc attached x t → ∀ prev, is_Some (net !! x) → is_Some (net !! t) →
  (∀ q, prev = Some q → ¬ attached x q ∨ ¬ rtc attached q t) → ∃ fuel path, walk fuel prev x t = Some (path ++ [t]).
Proof.
  induction 1 as [x|x c t Hxc Hct IH]; intros prev [s Hs] Ht Hprev.
  - destruct (route_local x s Hs) as (route & Hr & Hk). exists 1%nat, []. simpl. rewrite Hs. simpl. rewrite Hr.
    by rewrite bool_decide_eq_true_2.
  - destruct (route_below x s c t Hs Hxc Hct) as (route & Hr & Hk & Hn).
    assert (is_Some (net !! c)) as Hc.
    { unfold attached, parent_of in Hxc. destruct (net !! c); [eauto|done]. }
    destruct (IH (Some x) Hc Ht) as (fuel & path & Hw).
    { intros q [= <-]. left. intros Hcx. apply (attached_acyclic x c Hxc). by apply rtc_once. }
    exists (S fuel), (x :: path). simpl. rewrite Hs. simpl. rewrite Hr. rewrite bool_decide_eq_false_2 by congruence.
    rewrite Hn. rewrite bool_decide_eq_false_2; [by rewrite Hw|]. intros Hq. destruct (Hprev c Hq) as [?|?]; done.
Qed.

Lemma below_routes x s t : net !! x = Some s → rtc attached x t ↔ x = t ∨ is_Some (s_routes s !! t).
Proof.
  intros Hs. split.
  - inversion 1 as [|? c ? H1 H2]; subst; [by left|]. right. exists c. by apply (nw_routes Hok x s t c Hs).
  - intros [->|[c Hc]]; [constructor|]. apply (nw_routes Hok x s t c Hs) in Hc as [H1 H2]. by eapply rtc_l.
Qed.

(** Upwards: a frame climbs until it is above its target. *)
Lemma walk_up root t :
  (∀ y, is_Some (net !! y) → rtc attached root y) → is_Some (net !! t) → ∀ x, rtc attached root x → is_Some (net !! x) →
  ∀ prev, (∀ q, prev = Some q → attached x q ∧ ¬ rtc attached q t) → ∃ fuel path, walk fuel prev x t = Some (path ++ [t]).
Proof.
  intros Hroot Ht. refine (rtc_ind_r _ root _ _).
  - intros Hx prev Hprev. apply walk_down; [by apply Hroot|done|done|]. intros q Hq. right. by apply Hprev.
  - intros p x Hrp Hpx IH [s Hs] prev Hprev.
    destruct (decide (x = t ∨ is_Some (s_routes s !! t))) as [Hd|Hd].
    { apply (below_routes x s t Hs) in Hd. apply walk_down; [done|by eauto|done|]. intros q Hq. right. by apply Hprev. }
    assert (¬ rtc attached x t) as Hnot by (intros Hb; apply Hd; by apply (below_routes x s t Hs)).
    destruct (route_above x s p t Hs Hpx Hnot) as (route & Hr & Hk & Hn).
    destruct (IH (nw_closed Hok _ _ Hpx) (Some x)) as (fuel & path & Hw); [intros q [= <-]; done|].
    exists (S fuel), (x :: path). simpl. rewrite Hs. simpl. rewrite Hr. rewrite bool_decide_eq_false_2 by congruence.
    rewrite Hn. rewrite bool_decide_eq_false_2; [by rewrite Hw|]. intros Hq. destruct (Hprev p Hq) as [Hxp _].
    apply (attached_acyclic p x Hpx). by apply rtc_once.
Qed.
End network.


(** ** Witnesses *)

(** Node 1 is the root of 2 and 3, and 4 is below 2. *)
Module Network_demo.
Definition blank : Tree.State := mkState 0 None ∅ ∅ ∅ 0 0.
Definition tree_of (local : NodeID) (ops : list tree_op) : Tree.State := default blank (run_from local ops).
Definition s1 := tree_of 1 [OpAttachChild 2 7; OpAttachChild 3 7; OpAnnounce 2 4 2 7].
Definition s2 := tree_of 2 [OpActivateParent 1 7; OpAttachChild 4 9].
Definition s3 := tree_of 3 [OpActivateParent 1 7].
Definition s4 := tree_of 4 [OpActivateParent 2 9].
Definition net : gmap NodeID Tree.State := list_to_map [(1, s1); (2, s2); (3, s3); (4, s4)].

Lemma tree_of_reachable local ops : is_Some (run_from local ops) → tree_reachable (tree_of local ops).
Proof. intros [s H]. unfold tree_of. rewrite H. by eapply run_from_reachable. Qed.

Lemma net_cases x s : net !! x = Some s → (x = 1 ∧ s = s1) ∨ (x = 2 ∧ s = s2) ∨ (x = 3 ∧ s = s3) ∨ (x = 4 ∧ s = s4).
Proof. intros H. apply elem_of_list_to_map_2 in H. rewrite !elem_of_cons, elem_of_nil in H. naive_solver. Qed.

Lemma attached_iff a b : attached net a b ↔ (a = 1 ∧ b = 2) ∨ (a = 1 ∧ b = 3) ∨ (a = 2 ∧ b = 4).
Proof.
  unfold attached, parent_of. split.
  - destruct (net !! b) as [s|] eqn:E; [|done]. apply net_cases in E. intros H. simpl in H.
    destruct E as [[-> ->]|[[-> ->]|[[-> ->]|[-> ->]]]]; vm_compute in H; try discriminate H; injection H as <-; tauto.
  - intros [[-> ->]|[[-> ->]|[-> ->]]]; vm_compute; reflexivity.
Qed.

Lemma below_iff a b : rtc (attached net) a b ↔ a = b ∨ (a = 1 ∧ b = 2) ∨ (a = 1 ∧ b = 3) ∨ (a = 1 ∧ b = 4) ∨ (a = 2 ∧ b = 4).
Proof.
  split.
  - induction 1 as [|x y z Hxy _ IH]; [by left|]. apply attached_iff in Hxy. lia.
  - assert (∀ a b, (a = 1 ∧ b = 2) ∨ (a = 1 ∧ b = 3) ∨ (a = 2 ∧ b = 4) → rtc (attached net) a b) as H1
      by (intros; by apply rtc_once, attached_iff).
    intros [->|[H|[H|[[-> ->]|H]]]]; [constructor|apply H1; tauto|apply H1; tauto| |apply H1; tauto].
    transitivity 2; apply H1; tauto.
Qed.

Lemma routes_iff x s t c :
  net !! x = Some s → s_routes s !! t = Some c ↔
  (x = 1 ∧ (t = 2 ∧ c = 2 ∨ t = 3 ∧ c = 3 ∨ t = 4 ∧ c = 2)) ∨ (x = 2 ∧ t = 4 ∧ c = 4).
Proof.
  assert (∀ m l, m = list_to_map (M := gmap NodeID NodeID) l → NoDup l.*1 → m !! t = Some c ↔ (t, c) ∈ l) as Hm
    by (intros m l -> Hn; symmetry; by apply elem_of_list_to_map).
  intros [[-> ->]|[[-> ->]|[[-> ->]|[-> ->]]]]%net_cases.
  - rewrite (Hm _ [(2, 2); (3, 3); (4, 2)]); [rewrite !elem_of_cons, elem_of_nil; naive_solver|vm_compute; reflexivity|].
    apply (bool_decide_unpack (NoDup _)). vm_compute. exact I.
  - rewrite (Hm _ [(4, 4)]); [rewrite !elem_of_cons, elem_of_nil; naive_solver|vm_compute; reflexivity|apply NoDup_singleton].
  - rewrite (Hm _ []); [rewrite elem_of_nil; naive_solver|vm_compute; reflexivity|constructor].
  - rewrite (Hm _ []); [rewrite elem_of_nil; naive_solver|vm_compute; reflexivity|constructor].
Qed.

Lemma net_ok : network_ok net.
Proof.
  split.
  - intros x s Hs. apply net_cases in Hs. split; [destruct Hs as [[-> ->]|[[-> ->]|[[-> ->]|[-> ->]]]]; vm_compute; reflexivity|].
    apply tree_reachable_wf. destruct Hs as [[_ ->]|[[_ ->]|[[_ ->]|[_ ->]]]]; apply tree_of_reachable; vm_compute; eexists; reflexivity.
  - intros x s t c Hs. rewrite (routes_iff x s t c Hs), attached_iff, below_iff. lia.
  - intros a b H. apply attached_iff in H as [[-> _]|[[-> _]|[-> _]]]; vm_compute; eexists; reflexivity.
  - exists 1. intros x [s Hs]. apply net_cases in Hs. apply below_iff. lia.
Qed.
End Network_demo.


(** Node 4 asks for a resource of 3: the root passes it on because the policy allows it. *)
Module Relay_demo.
Definition request : Envelope :=
  mkEnvelope CurrentVersion PhaseRequest OperationOperate 77 0 4 0 3 (mkResourceID 3 "light") 0 100 "" "" "write" [].
Definition policy : StaticPolicy := StaticPolicy_Allow NewStaticPolicy (mkRequest 4 "write" "write" (mkResourceID 3 "light")).
Definition session (peer epoch : Z) : peerSession := mkPeerSession peer RoleChild epoch "link" true.
Definition root : Node :=
  mkNode Network_demo.s1 policy {[ 2 := session 2 7; 3 := session 3 7 ]} ∅ ∅ 16 false.
Definition passed : effect := ESend 3 (with_phase_epoch request PhaseControl 7).
End Relay_demo.

Lemma child_confined_witness :
  ro_effects (routeEnvelope Relay_demo.root 0 Relay_demo.request (Some (Relay_demo.session 2 7)) true true 1 []) = [Relay_demo.passed] ∧
  permitted Relay_demo.root 0 (Relay_demo.session 2 7) Relay_demo.request Relay_demo.passed.
Proof.
  split; [vm_compute; reflexivity|].
  refine (proj2 (proj2 (proj2 (proj2 (child_confined Relay_demo.root 0 Relay_demo.request (Relay_demo.session 2 7) true true 1 [] Relay_demo.passed
    _ _ _ _))))); [|reflexivity|vm_compute; reflexivity|].
  - apply Network_demo.tree_of_reachable. vm_compute. eexists. reflexivity.
  - assert (ro_effects (routeEnvelope Relay_demo.root 0 Relay_demo.request (Some (Relay_demo.session 2 7)) true true 1 []) = [Relay_demo.passed]) as ->
      by (vm_compute; reflexivity). left.
Defined.
