(* ===== verification/AdmissionService.v ===== *)
(** * The management of admission (feature/management, runtime/enrollment/remote_broker.go, host/config)

    The commands by which an enrollment authority is administered and by which parents submit
    enrollments to an authority on another node, and the broker that sends them.  A command
    handler is a function of the controller, of what it meets outside ([Env]: clocks, random
    bytes, the outcome of saves, orders of maps) and of its input; the subject is the one that
    the dispatcher authenticated.  [Refresh] publishes variables about the node and changes
    nothing that is modelled here; its outcome is [en_refreshed]. *)

From S2P Require Import Prelude GoStd GoSort GoEncoding GoJSON GoFloat GoStruct Wire Codec PolicySchema EnrollmentWire Payload EnrollmentPayload AdmissionSchema Identity Admission EnrollmentAuthority EnrollmentSession Policy PolicyStore Catalog Streams.
Open Scope Z_scope.

(** ** The audit log (audit.go) *)

(** [ag_published] are the payloads that the stream took. *)
Record AuditLog := mkAudit { ag_limit : Z; ag_pending : list (list byte); ag_stream : option Stream; ag_published : list (list byte) }.
Definition NewAuditLog (pendingLimit : Z) : AuditLog := mkAudit (if pendingLimit <=? 0 then 256 else pendingLimit) [] None [].
Definition audit_record (a : AuditLog) (event : ManagementAuditV1) : AuditLog :=
  match EncodeJSONPayload event DefaultMaxPayload with
  | Err _ => a
  | Ok payload =>
    match ag_stream a with
    | Some stream =>
      match Stream_Publish stream payload with
      | Ok (_, stream) => mkAudit (ag_limit a) (ag_pending a) (Some stream) (ag_published a ++ [payload])
      | Err _ => a
      end
    | None =>
      let pending := if Z.of_nat (length (ag_pending a)) =? ag_limit a then tail (ag_pending a) else ag_pending a in
      mkAudit (ag_limit a) (pending ++ [payload]) None (ag_published a)
    end
  end.
Inductive bind_error := BBound | BPublish (e : stream_error).
Fixpoint bind_loop (a : AuditLog) (stream : Stream) (pending : list (list byte)) : AuditLog * result bind_error unit :=
  match pending with
  | [] => (mkAudit (ag_limit a) [] (Some stream) (ag_published a), Ok tt)
  | payload :: rest =>
    match Stream_Publish stream payload with
    | Err e => (mkAudit (ag_limit a) [] (Some stream) (ag_published a), Err (BPublish e))
    | Ok (_, stream) => bind_loop (mkAudit (ag_limit a) [] None (ag_published a ++ [payload])) stream rest
    end
  end.
Definition Bind (a : AuditLog) (stream : Stream) : AuditLog * result bind_error unit :=
  match ag_stream a with Some _ => (a, Err BBound) | None => bind_loop a stream (ag_pending a) end.
Definition RecordOutcome (a : AuditLog) (now : Z) (subject : NodeID) (action : string) (resource : ResourceID) (target status : string) : AuditLog :=
  audit_record a (mkManagementAudit 1 (UnixMilli now) (FormatUint subject) action (FormatUint (r_Owner resource)) (r_Name resource) "allow" target status "").

Section service.
Context `{Crypto}.

(** ** The controller (controller.go) *)

Inductive revoke_error := VLocal | VTrust (e : auth_failure) | VPolicy (e : policy_error).
Inductive service_error :=
| MPayload (e : payload_error) | MNoAuthority | MAuthority (e : authority_error) | MAdmission (e : admission_error) | MProfile | MReason | MTTL | MSource | MParentKey
| MNotFound | MRevoke (e : revoke_error) | MParentInvalidation (message : string) | MRefresh.

Record Controller := mkController {
  mc_id : NodeID; mc_admission : Admission; mc_authority : option EnrollmentAuthority; mc_authorityNodeID : NodeID; mc_trust : TrustStore; mc_policy : PolicyState;
  mc_audit : AuditLog; mc_disconnected : list NodeID
}.
Definition with_admission (c : Controller) x := mkController (mc_id c) x (mc_authority c) (mc_authorityNodeID c) (mc_trust c) (mc_policy c) (mc_audit c) (mc_disconnected c).
Definition with_authority (c : Controller) x := mkController (mc_id c) (mc_admission c) (Some x) (mc_authorityNodeID c) (mc_trust c) (mc_policy c) (mc_audit c) (mc_disconnected c).
Definition with_trust (c : Controller) x := mkController (mc_id c) (mc_admission c) (mc_authority c) (mc_authorityNodeID c) x (mc_policy c) (mc_audit c) (mc_disconnected c).
Definition with_policy (c : Controller) x := mkController (mc_id c) (mc_admission c) (mc_authority c) (mc_authorityNodeID c) (mc_trust c) x (mc_audit c) (mc_disconnected c).
Definition with_audit (c : Controller) x := mkController (mc_id c) (mc_admission c) (mc_authority c) (mc_authorityNodeID c) (mc_trust c) (mc_policy c) x (mc_disconnected c).
Definition DisconnectPeer (c : Controller) (nodeID : NodeID) := mkController (mc_id c) (mc_admission c) (mc_authority c) (mc_authorityNodeID c) (mc_trust c) (mc_policy c) (mc_audit c) (mc_disconnected c ++ [nodeID]).

Record Env := mkEnv {
  en_subject : option NodeID; en_clock : Z; en_now : Z; en_now' : Z; en_random : list byte; en_permitID : option (list byte);
  en_permits : list (string * permitState); en_requests : list (string * requestState); en_enrollments : list (string * enrollmentState);
  en_saved : bool; en_trust_saved : bool; en_policy_saved : bool; en_refreshed : bool
}.

(** The part of [Register] that decides which authority the controller serves. *)
Definition Register_authority (authority : option EnrollmentAuthority) (authorityNodeID : NodeID) : option NodeID :=
  match authority with
  | None => Some authorityNodeID
  | Some a =>
    let id := i_NodeID (au_identity a) in
    if negb (authorityNodeID =? 0) && negb (authorityNodeID =? id) then None else Some id
  end.

Definition answer : Type := result service_error (list byte).
Definition handler : Type := Controller → Env → list byte → Controller * answer.
Definition with_request {A} `{JSONStruct A, ValidatedPayload A} (c : Controller) (input : list byte) (k : A → Controller * answer) : Controller * answer :=
  match DecodeJSONPayload input DefaultMaxPayload with Err e => (c, Err (MPayload e)) | Ok request => k request end.
Definition on_authority (c : Controller) (k : EnrollmentAuthority → Controller * answer) : Controller * answer :=
  match mc_authority c with None => (c, Err MNoAuthority) | Some a => k a end.
Definition encoded {A} `{JSONStruct A, ValidatedPayload A} (value : A) : answer := mapErr MPayload (EncodeJSONPayload value DefaultMaxPayload).
Definition managementOK : answer := encoded (mkManagementResult 1 "ok").
(** [Refresh], then the answer. *)
Definition refreshed (e : Env) (a : answer) : answer := fail_if negb (en_refreshed e) with MRefresh ;; a.

Definition auditAdmissionOutcome (c : Controller) (e : Env) (action resourceName target status : string) : Controller :=
  match en_subject e with
  | None => c
  | Some subject => with_audit c (RecordOutcome (mc_audit c) (en_clock e) subject action (mkResourceID (mc_id c) resourceName) target status)
  end.

Definition maxTTLMS : Z := maxInt / Millisecond.
Definition issue_parent (c : Controller) (e : Env) (input : list byte) : Controller * answer :=
  with_request c input (λ request : ManagementIssuePermitV1,
    if maxTTLMS <? mi_TTLMS request then (c, Err MTTL) else
    let '(admission, r) := Issue (mc_admission c) (ParseUint (mi_ChildNodeID request)).1 (default [] (RawStd_DecodeString (mi_ChildPublicKey request))) (mi_Role request)
                             (mi_TTLMS request * Millisecond) (en_permitID e) (en_now e) (en_saved e) in
    (with_admission c admission, permit ← mapErr MAdmission r; encoded permit)).
Definition issuePermit : handler := λ c e input,
  match mc_authority c, DecodeJSONPayload (A := AdmissionIssuePermitV1) input DefaultMaxPayload with
  | Some a, Ok request =>
    if maxTTLMS <? ai_TTLMS request then (c, Err MTTL) else
    let '(a, r) := IssuePermit a (ai_RequestID request) (ai_DevicePublicKeyFingerprint request) (ParseUint (ai_TargetNodeID request)).1 (ai_AllowDescendants request)
                     (ai_AdmissionProfile request) (ai_TTLMS request * Millisecond) (en_permits e) (en_random e) (en_now e) (en_saved e) in
    let c := with_authority c a in
    match r with
    | Err err => (c, Err (MAuthority err))
    | Ok permit => (auditAdmissionOutcome c e "management.admission.issue" BuiltinAdmissionIssuePermit (pm_PermitID permit) "active", refreshed e (encoded permit))
    end
  | _, _ => issue_parent c e input
  end.

Definition revokePermit : handler := λ c e input,
  with_request c input (λ request : ManagementRevokePermitV1,
    let '(admission, r) := Admission_Revoke (mc_admission c) (mp_PermitID request) (en_now e) (en_saved e) in
    (with_admission c admission, _ ← mapErr MAdmission r; managementOK)).

(** host/config/config.go: a node is no longer trusted, and loses its policy. *)
Definition RevokeNode (c : Controller) (e : Env) (nodeID : NodeID) : Controller * result revoke_error unit :=
  if nodeID =? mc_id c then (c, Err VLocal) else
  let '(trust, r) := TrustStore_Revoke (mc_trust c) nodeID (en_trust_saved e) in
  let c := with_trust c trust in
  match r with
  | Err err => (c, Err (VTrust err))
  | Ok _ => let '(policy, r) := RevokeSubject (mc_policy c) (en_now e) (en_policy_saved e) nodeID in (with_policy c policy, mapErr VPolicy r)
  end.
(** [errors.Is(err, auth.ErrUntrustedIdentity)] *)
Definition untrusted (e : revoke_error) : bool := match e with VTrust ErrUntrustedIdentity => true | _ => false end.

Definition revokeNode : handler := λ c e input,
  with_request c input (λ request : ManagementRevokeV1,
    let nodeID := (ParseUint (mr_NodeID request)).1 in
    let '(c, r) := RevokeNode c e nodeID in
    match r with Err err => (c, Err (MRevoke err)) | Ok _ => (DisconnectPeer c nodeID, refreshed e managementOK) end).

(** ** Queries (admission_authority.go) *)

Definition decodeAdmissionListQuery (input : list byte) : result payload_error AdmissionListV1 :=
  query ← DecodeJSONPayload input DefaultMaxPayload;
  Ok (if aq_Limit query =? 0 then mkAdmissionList (aq_Version query) (aq_Cursor query) 100 (aq_Status query) else query).

(** The loop of the three lists: [record_id] and [record_status] are those of a record, [item_id] of an item. *)
Section page.
Context {R I : Type} (record_id record_status : R → string) (item : R → I) (item_id : I → string) (query : AdmissionListV1).
Fixpoint page_loop (records : list R) (items : list I) : list I * string :=
  match records with
  | [] => (items, "")
  | record :: rest =>
    if negb (str_ltb (aq_Cursor query) (record_id record)) then page_loop rest items
    else if negb (String.eqb (aq_Status query) "") && negb (String.eqb (aq_Status query) (record_status record)) then page_loop rest items
    else if Z.of_nat (length items) =? aq_Limit query then (items, default "" (item_id <$> last items))
    else page_loop rest (items ++ [item record])
  end.
End page.

Definition permit_status (now : Z) (r : permitState) : string :=
  if String.eqb (ps_Status r) "active" && (pm_ExpiresAtUnixMS (ps_Permit r) <=? now) then "expired" else ps_Status r.
Definition permit_item (now : Z) (r : permitState) : AdmissionPermitRecordV1 :=
  let p := ps_Permit r in
  mkAdmissionPermit SchemaVersionV1 (pm_PermitID p) (pm_DevicePublicKeyFingerprint p) (pm_TargetNodeID p) (pm_AllowDescendants p) (pm_AdmissionProfile p)
    (pm_IssuedAtUnixMS p) (pm_ExpiresAtUnixMS p) (permit_status now r).
Definition permit_page (now : Z) : AdmissionListV1 → list permitState → list AdmissionPermitRecordV1 → list AdmissionPermitRecordV1 * string :=
  page_loop (λ r, pm_PermitID (ps_Permit r)) (permit_status now) (permit_item now) apr_PermitID.
Definition listEnrollmentPermits : handler := λ c e input,
  (c, query ← mapErr MPayload (decodeAdmissionListQuery input);
      match mc_authority c with
      | None => Err MNoAuthority
      | Some a =>
        let '(items, next) := permit_page (UnixMilli (en_clock e)) query (Permits a (en_permits e)) [] in
        encoded (mkAdmissionPermits SchemaVersionV1 (au_generation a) items next)
      end).

Definition request_item (r : requestState) : AdmissionRequestRecordV1 :=
  mkAdmissionRequest SchemaVersionV1 (rq_RequestID r) (rq_Fingerprint r) (FormatUint (rq_ParentNodeID r)) (rq_CreatedAtUnixMS r) (rq_UpdatedAtUnixMS r)
    (rq_ExpiresAtUnixMS r) (rq_Status r) (rq_Reason r).
Definition request_page : AdmissionListV1 → list requestState → list AdmissionRequestRecordV1 → list AdmissionRequestRecordV1 * string :=
  page_loop rq_RequestID rq_Status request_item arr_RequestID.
Definition listEnrollmentRequests : handler := λ c e input,
  (c, query ← mapErr MPayload (decodeAdmissionListQuery input);
      match mc_authority c with
      | None => Err MNoAuthority
      | Some a =>
        let '(items, next) := request_page query (Requests a (en_requests e) (en_now e)) [] in
        encoded (mkAdmissionRequests SchemaVersionV1 (au_generation a) items next)
      end).

Definition enrollment_item (r : enrollmentState) : AdmissionEnrollmentRecordV1 :=
  let g := es_Grant r in
  mkAdmissionEnrollment SchemaVersionV1 (gr_EnrollmentID g) (gr_NodeID g) (es_Fingerprint r) (gr_ParentNodeID g) (gr_AdmissionProfile g) (gr_IssuedAtUnixMS g)
    (es_Status r) (es_RevokedAtUnixMS r) (es_Reason r).
Definition enrollment_page : AdmissionListV1 → list enrollmentState → list AdmissionEnrollmentRecordV1 → list AdmissionEnrollmentRecordV1 * string :=
  page_loop (λ r, gr_EnrollmentID (es_Grant r)) es_Status enrollment_item aer_EnrollmentID.
Definition listEnrollments : handler := λ c e input,
  (c, query ← mapErr MPayload (decodeAdmissionListQuery input);
      match mc_authority c with
      | None => Err MNoAuthority
      | Some a =>
        let '(items, next) := enrollment_page query (Enrollments a (en_enrollments e)) [] in
        encoded (mkAdmissionEnrollments SchemaVersionV1 (au_generation a) items next)
      end).

Definition count {A} (f : A → bool) (l : list A) : Z := Z.of_nat (length (filter (λ x, f x = true) l)).
Definition admissionStatusSnapshot (a : EnrollmentAuthority) (e : Env) : AdmissionStatusV1 :=
  mkAdmissionStatus SchemaVersionV1 (FormatUint (i_NodeID (au_identity a))) (au_generation a)
    (count (λ r, String.eqb (ps_Status r) "active" && (UnixMilli (en_clock e) <? pm_ExpiresAtUnixMS (ps_Permit r))) (Permits a (en_permits e)))
    (count (λ r, String.eqb (rq_Status r) "pending") (Requests a (en_requests e) (en_now e)))
    (count (λ r, String.eqb (es_Status r) "active") (Enrollments a (en_enrollments e)))
    (count (λ r, negb (String.eqb (es_Status r) "active") && String.eqb (es_Status r) "revoked") (Enrollments a (en_enrollments e))).

(** ** Decisions *)

Definition revokeEnrollmentPermit : handler := λ c e input,
  with_request c input (λ request : AdmissionRevokePermitV1, on_authority c (λ a,
    let '(a, r) := RevokePermit a (av_RequestID request) (av_PermitID request) (av_Reason request) (en_now e) (en_saved e) in
    let c := with_authority c a in
    match r with
    | Err err => (c, Err (MAuthority err))
    | Ok _ => (auditAdmissionOutcome c e "management.admission.revoke-permit" BuiltinAdmissionRevokePermit (av_PermitID request) "revoked", refreshed e managementOK)
    end)).
Definition approveEnrollment : handler := λ c e input,
  with_request c input (λ request : AdmissionDecisionV1,
    if String.eqb (xd_AdmissionProfile request) "" then (c, Err MProfile) else on_authority c (λ a,
    let '(a, r) := Approve a (xd_RequestID request) (xd_EnrollmentRequestID request) (xd_AdmissionProfile request) (en_random e) (en_now e) (en_now' e) (en_saved e) in
    let c := with_authority c a in
    match r with
    | Err err => (c, Err (MAuthority err))
    | Ok grant => (auditAdmissionOutcome c e "management.admission.approve" BuiltinAdmissionApprove (xd_EnrollmentRequestID request) "approved", refreshed e (encoded grant))
    end)).
Definition rejectEnrollment : handler := λ c e input,
  with_request c input (λ request : AdmissionDecisionV1,
    if String.eqb (xd_Reason request) "" then (c, Err MReason) else on_authority c (λ a,
    let '(a, r) := Reject a (xd_RequestID request) (xd_EnrollmentRequestID request) (xd_Reason request) (en_now e) (en_now' e) (en_saved e) in
    let c := with_authority c a in
    match r with
    | Err err => (c, Err (MAuthority err))
    | Ok _ => (auditAdmissionOutcome c e "management.admission.reject" BuiltinAdmissionReject (xd_EnrollmentRequestID request) "rejected", refreshed e managementOK)
    end)).

(** ** Submissions of other parents *)

Definition outcome_result (o : EnrollmentOutcome) : EnrollmentResultV1 :=
  mkResult SchemaVersionV1 (oc_RequestID o) (oc_Status o) (oc_Grant o)
    (if String.eqb (oc_Status o) "rejected" then Some (mkErrorPayload CodeForbidden (oc_Reason o) false ∅) else None)
    (if String.eqb (oc_Status o) "pending" then 2000 else 0).
Definition submit_permit (request : AdmissionSubmitV1) : result payload_error (option EnrollmentPermitV1) :=
  if String.eqb (sm_Permit request) "" then Ok None else Some <$> DecodeJSONPayload (bytes_of (sm_Permit request)) EnrollmentMaxPayload.
Definition submitEnrollment : handler := λ c e input,
  with_request c input (λ request : AdmissionSubmitV1,
    let parentID := (ParseUint (sm_ParentNodeID request)).1 in
    if negb (bool_decide (en_subject e = Some parentID)) then (c, Err MSource) else
    let deviceKey := default [] (RawStd_DecodeString (sm_DevicePublicKey request)) in
    let parentKey := default [] (RawStd_DecodeString (sm_ParentPublicKey request)) in
    if negb (bool_decide (TrustStore_PublicKey (mc_trust c) parentID = Some parentKey)) then (c, Err MParentKey) else
    let digest := default [] (DecodeString (sm_TranscriptDigest request)) in
    match submit_permit request with
    | Err err => (c, Err (MPayload err))
    | Ok permit => on_authority c (λ a,
      let '(a, r) := Submit a (mkSubmission (sm_RequestID request) deviceKey parentID parentKey permit digest) (en_requests e) (en_random e) (en_now e) (en_saved e) in
      let c := with_authority c a in
      match r with
      | Err err => (c, Err (MAuthority err))
      | Ok outcome =>
        (auditAdmissionOutcome c e "management.admission.submit" BuiltinAdmissionSubmitEnrollment (oc_RequestID outcome) (oc_Status outcome),
         refreshed e (encoded (outcome_result outcome)))
      end)
    end).

(** ** Revocation *)

Definition applyEnrollmentRevocation : handler := λ c e input,
  if negb (bool_decide (en_subject e = Some (mc_authorityNodeID c))) then (c, Err MSource) else
  with_request c input (λ request : ManagementRevokeV1,
    let nodeID := (ParseUint (mr_NodeID request)).1 in
    let '(c, r) := RevokeNode c e nodeID in
    match r with
    | Err err => if untrusted err then (DisconnectPeer c nodeID, managementOK) else (c, Err (MRevoke err))
    | Ok _ => (DisconnectPeer c nodeID, managementOK)
    end).

(** What a node can invoke on others; an error is told by its text. *)
Class CommandInvoker (Net : Type) := { Invoke : Net → ResourceID → list byte → Net * result string (list byte) }.

Definition revokeEnrollment `{CommandInvoker Net} (net : Net) (c : Controller) (e : Env) (input : list byte) : Net * (Controller * answer) :=
  match DecodeJSONPayload (A := AdmissionRevokeEnrollmentV1) input DefaultMaxPayload with
  | Err err => (net, (c, Err (MPayload err)))
  | Ok request =>
    match mc_authority c with
    | None => (net, (c, Err MNoAuthority))
    | Some a =>
      match head (filter (λ r, gr_EnrollmentID (es_Grant r) = ae_EnrollmentID request) (Enrollments a (en_enrollments e))) with
      | None => (net, (c, Err MNotFound))
      | Some record =>
        let parentID := (ParseUint (gr_ParentNodeID (es_Grant record))).1 in
        let '(a, r) := RevokeEnrollment a (ae_RequestID request) (ae_EnrollmentID request) (ae_Reason request) (en_now e) (en_saved e) in
        let c := with_authority c a in
        match r with
        | Err err => (net, (c, Err (MAuthority err)))
        | Ok nodeID =>
          let c := auditAdmissionOutcome c e "management.admission.revoke-enrollment" BuiltinAdmissionRevokeEnrollment (ae_EnrollmentID request) "revoked" in
          if parentID =? mc_id c then
            let '(c, r) := RevokeNode c e nodeID in
            match r with
            | Err err => if untrusted err then (net, (DisconnectPeer c nodeID, refreshed e managementOK)) else (net, (c, Err (MRevoke err)))
            | Ok _ => (net, (DisconnectPeer c nodeID, refreshed e managementOK))
            end
          else
            match EncodeJSONPayload (mkManagementRevoke SchemaVersionV1 (FormatUint nodeID) (ae_Reason request)) DefaultMaxPayload with
            | Err err => (net, (c, Err (MPayload err)))
            | Ok payload =>
              let '(net, r) := Invoke net (mkResourceID parentID BuiltinAdmissionApplyRevocation) payload in
              match r with Err message => (net, (c, Err (MParentInvalidation message))) | Ok _ => (net, (c, refreshed e managementOK)) end
            end
        end
      end
    end
  end.

(** The commands that invoke nothing, by name, as [buildEnrollmentAuthorityResources] registers them. *)
Definition admission_handlers (c : Controller) : list (string * handler) :=
  (if mc_authorityNodeID c =? 0 then [] else [(BuiltinAdmissionApplyRevocation, applyEnrollmentRevocation)]) ++
  match mc_authority c with
  | None => []
  | Some _ =>
    [(BuiltinAdmissionListPermits, listEnrollmentPermits); (BuiltinAdmissionRevokePermit, revokeEnrollmentPermit); (BuiltinAdmissionListRequests, listEnrollmentRequests);
     (BuiltinAdmissionApprove, approveEnrollment); (BuiltinAdmissionReject, rejectEnrollment); (BuiltinAdmissionListEnrollments, listEnrollments);
     (BuiltinAdmissionSubmitEnrollment, submitEnrollment)]
  end.

(** ** The broker of a parent (runtime/enrollment/remote_broker.go) *)

Record RemoteBroker (Net : Type) := mkRemoteBroker { rb_Node : option Net; rb_AuthorityNodeID : NodeID; rb_AuthorityPublicKey : list byte }.
Arguments mkRemoteBroker {Net}.
Arguments rb_Node {Net}.
Arguments rb_AuthorityNodeID {Net}.
Arguments rb_AuthorityPublicKey {Net}.
Definition RemoteBroker_AuthorityIdentity {Net} (b : RemoteBroker Net) : option (NodeID * list byte) :=
  match rb_Node b with
  | None => None
  | Some _ =>
    if negb (is_ok (NodeID_Validate (rb_AuthorityNodeID b))) then None
    else if negb (blen (rb_AuthorityPublicKey b) =? PublicKeySize) then None
    else Some (rb_AuthorityNodeID b, rb_AuthorityPublicKey b)
  end.
(** The request of a submission, as a payload. *)
Definition submission_payload (s : EnrollmentSubmission) : result payload_error (list byte) :=
  permit ← match sb_Permit s with None => Ok "" | Some p => String.string_of_list_byte <$> EncodeJSONPayload p EnrollmentMaxPayload end;
  EncodeJSONPayload (mkAdmissionSubmit SchemaVersionV1 (sb_RequestID s) (RawStd_EncodeToString (sb_DevicePublicKey s)) (FormatUint (sb_ParentNodeID s))
    (RawStd_EncodeToString (sb_ParentPublicKey s)) permit (EncodeToString (sb_TranscriptDigest s))) EnrollmentMaxPayload.
Definition result_outcome (r : EnrollmentResultV1) : result authority_error EnrollmentOutcome :=
  match re_Error r with
  | None => Ok (mkOutcome (re_Status r) (re_RequestID r) (re_Grant r) "")
  | Some e => if String.eqb (re_Status r) "error" then Err (URemoteReply (ep_Code e) (ep_Message e))
              else Ok (mkOutcome (re_Status r) (re_RequestID r) (re_Grant r) (ep_Message e))
  end.
Definition RemoteBroker_Submit `{CommandInvoker Net} (b : RemoteBroker Net) (s : EnrollmentSubmission) : RemoteBroker Net * result authority_error EnrollmentOutcome :=
  match RemoteBroker_AuthorityIdentity b, rb_Node b with
  | Some _, Some node =>
    match submission_payload s with
    | Err _ => (b, Err URemotePayload)
    | Ok payload =>
      let '(node, r) := Invoke node (mkResourceID (rb_AuthorityNodeID b) BuiltinAdmissionSubmitEnrollment) payload in
      let b := mkRemoteBroker (Some node) (rb_AuthorityNodeID b) (rb_AuthorityPublicKey b) in
      match r with
      | Err message => (b, Err (URemote message))
      | Ok output =>
        match DecodeJSONPayload output EnrollmentMaxPayload with
        | Err _ => (b, Err URemotePayload)
        | Ok result => (b, result_outcome result)
        end
      end
    end
  | _, _ => (b, Err URemoteBroker)
  end.
#[global] Instance RemoteBroker_broker `{CommandInvoker Net} : Broker (RemoteBroker Net) := {|
  AuthorityIdentity := RemoteBroker_AuthorityIdentity;
  Broker_Submit := RemoteBroker_Submit
|}.

(** ** A network of two nodes *)

(** A node reaches the controller of another one, which runs the handler of the command for the
    authenticated caller; [text] makes the message of an error. *)
Record ServiceLink := mkServiceLink { sl_controller : Controller; sl_env : Env }.
Definition called_by (e : Env) (caller : NodeID) : Env :=
  mkEnv (Some caller) (en_clock e) (en_now e) (en_now' e) (en_random e) (en_permitID e) (en_permits e) (en_requests e) (en_enrollments e) (en_saved e) (en_trust_saved e)
    (en_policy_saved e) (en_refreshed e).
Definition ServiceLink_Invoke (text : service_error → string) (caller : NodeID) (l : ServiceLink) (id : ResourceID) (payload : list byte) : ServiceLink * result string (list byte) :=
  match List.find (λ h, String.eqb h.1 (r_Name id)) (admission_handlers (sl_controller l)) with
  | Some (_, h) =>
    if negb (r_Owner id =? mc_id (sl_controller l)) then (l, Err "no route") else
    let '(c, r) := h (sl_controller l) (called_by (sl_env l) caller) payload in
    (mkServiceLink c (sl_env l), mapErr text r)
  | None => (l, Err "resource not found")
  end.
End service.
Arguments mkRemoteBroker {Net} rb_Node rb_AuthorityNodeID rb_AuthorityPublicKey.
Arguments rb_Node {Net} r.
Arguments rb_AuthorityNodeID {Net} r.
Arguments rb_AuthorityPublicKey {Net} r.
