(* ===== verification/AdmissionListing.v ===== *)
(** * Listing the records of an authority

    A client lists records page by page, passing on the cursor of the last page, while the
    authority may change between the calls. *)

From stdpp Require Import sorting.
From S2P Require Import Prelude GoStd GoSort GoEncoding GoJSON GoFloat GoStruct Wire Codec PolicySchema EnrollmentWire Payload EnrollmentPayload AdmissionSchema Identity Admission EnrollmentAuthority EnrollmentTheory EnrollmentHistory EnrollmentSession EnrollmentHandshake Policy PolicyStore AdmissionService.
Open Scope Z_scope.

(** ** Pages of sorted records *)

Section paging.
(** [V] is what a page depends on besides the records: the time, for permits. *)
Context {V R I : Type} (record_id : R → string) (record_status : V → R → string) (item : V → R → I) (item_id : I → string).
Context (Hid : ∀ v r, item_id (item v r) = record_id r).

Definition wanted (v : V) (status : string) (r : R) : bool := String.eqb status "" || String.eqb status (record_status v r).
Definition matching (v : V) (q : AdmissionListV1) (records : list R) : list R :=
  filter (λ r, str_ltb (aq_Cursor q) (record_id r) && wanted v (aq_Status q) r = true) records.
Definition page (v : V) (q : AdmissionListV1) (records : list R) : list I * string := page_loop record_id (record_status v) (item v) item_id q records [].

Lemma page_loop_spec v q records items : Z.of_nat (length items) ≤ aq_Limit q →
  let k := (Z.to_nat (aq_Limit q) - length items)%nat in
  let all := items ++ (item v <$> take k (matching v q records)) in
  page_loop record_id (record_status v) (item v) item_id q records items =
    (all, if bool_decide (length (matching v q records) ≤ k)%nat then "" else default "" (item_id <$> last all)).
Proof.
  revert items. induction records as [|r records IH]; intros items Hl; cbn [page_loop].
  { cbn zeta. rewrite bool_decide_eq_true_2 by (simpl; lia). unfold matching. rewrite filter_nil, firstn_nil. simpl. by rewrite app_nil_r. }
  unfold matching. rewrite filter_cons. fold (matching v q records). unfold wanted. destruct (str_ltb (aq_Cursor q) (record_id r)); cbn [negb andb]; [|rewrite decide_False by done; by apply IH].
  destruct (String.eqb_spec (aq_Status q) ""); cbn [negb orb andb]; [|destruct (String.eqb (aq_Status q) (record_status v r)); cbn [negb]; [|rewrite decide_False by done; by apply IH]];
    rewrite decide_True by done; (destruct (Z.eqb_spec (Z.of_nat (length items)) (aq_Limit q)) as [E|E];
    [replace (Z.to_nat (aq_Limit q) - length items)%nat with 0%nat by lia; rewrite take_0, app_nil_r, bool_decide_eq_false_2 by (simpl; lia); done|]);
    (rewrite IH by (rewrite length_app; simpl; lia); rewrite length_app; cbn [length];
     replace (Z.to_nat (aq_Limit q) - length items)%nat with (S (Z.to_nat (aq_Limit q) - (length items + 1)))%nat by lia;
     cbn [take fmap list_fmap]; rewrite <- app_assoc; cbn [app length]; f_equal; by rewrite (bool_decide_ext _ _ (Nat.succ_le_mono _ _))).
Qed.
Lemma page_spec v q records : 0 ≤ aq_Limit q →
  let k := Z.to_nat (aq_Limit q) in
  let items := item v <$> take k (matching v q records) in
  page v q records = (items, if bool_decide (length (matching v q records) ≤ k)%nat then "" else default "" (item_id <$> last items)).
Proof. intros Hl. unfold page. rewrite page_loop_spec by done. by rewrite Nat.sub_0_r. Qed.

(** The pages of a client, from a cursor on, and whether the last one was reached. *)
Fixpoint list_pages (limit : Z) (status cursor : string) (views : list (V * list R)) : list I * bool :=
  match views with
  | [] => ([], false)
  | (v, records) :: rest =>
    let '(items, next) := page v (mkAdmissionList SchemaVersionV1 cursor limit status) records in
    if String.eqb next "" then (items, true) else let '(more, ended) := list_pages limit status next rest in (items ++ more, ended)
  end.

Definition by_id (x y : string) : Prop := str_ltb x y = true.
#[local] Instance by_id_trans : Transitive by_id.
Proof. intros x y z. apply str_ltb_trans. Qed.
Definition view_ok (view : V * list R) : Prop := StronglySorted by_id (record_id <$> view.2) ∧ Forall (λ r, record_id r ≠ "") view.2.
(** A record of that name is there and wanted. *)
Definition listed (status id : string) (view : V * list R) : Prop := ∃ r, r ∈ view.2 ∧ record_id r = id ∧ wanted view.1 status r = true.

Lemma sorted_fmap_filter (P : R → Prop) `{∀ r, Decision (P r)} l : StronglySorted by_id (record_id <$> l) → StronglySorted by_id (record_id <$> filter P l).
Proof.
  induction l as [|r l IH]; [done|]. rewrite fmap_cons, StronglySorted_cons. intros [Hf Hs]. rewrite filter_cons. case_decide; [|by apply IH].
  rewrite fmap_cons, StronglySorted_cons. split; [|by apply IH]. rewrite Forall_forall in Hf |- *. intros x (y & -> & [_ Hy]%list_elem_of_filter)%list_elem_of_fmap.
  apply Hf. by apply list_elem_of_fmap_2.
Qed.
Lemma sorted_take l n : StronglySorted by_id l → StronglySorted by_id (take n l).
Proof. intros Hs. rewrite <- (take_drop n l) in Hs. by apply StronglySorted_app_1_l in Hs. Qed.
Lemma sorted_split l n x y : StronglySorted by_id l → x ∈ take n l → y ∈ drop n l → by_id x y.
Proof. intros Hs Hx Hy. rewrite <- (take_drop n l) in Hs. rewrite StronglySorted_app in Hs. destruct Hs as (Hs & _). by apply Hs. Qed.

Section one_page.
Context (limit : Z) (status cursor : string) (v : V) (records : list R) (items : list I) (next : string).
Context (Hlimit : 1 ≤ limit) (Hview : view_ok (v, records)) (Hpage : page v (mkAdmissionList SchemaVersionV1 cursor limit status) records = (items, next)).
Let q := mkAdmissionList SchemaVersionV1 cursor limit status.
Let m := matching v q records.

Lemma page_items : items = item v <$> take (Z.to_nat limit) m.
Proof. rewrite page_spec in Hpage by (simpl; lia). by injection Hpage. Qed.
Lemma page_ids : item_id <$> items = record_id <$> take (Z.to_nat limit) m.
Proof. rewrite page_items, <- list_fmap_compose. apply list_fmap_ext. intros ? r _. apply Hid. Qed.
Lemma page_in r : r ∈ m ↔ r ∈ records ∧ by_id cursor (record_id r) ∧ wanted v status r = true.
Proof. unfold m, matching. rewrite list_elem_of_filter. simpl. rewrite andb_true_iff. unfold by_id. tauto. Qed.
Lemma page_sorted : StronglySorted by_id (item_id <$> items) ∧ Forall (by_id cursor) (item_id <$> items).
Proof.
  rewrite page_ids. split.
  - rewrite fmap_take. apply sorted_take, sorted_fmap_filter, Hview.
  - rewrite Forall_forall. intros ? (r & -> & Hr)%list_elem_of_fmap. apply (page_in r). rewrite <- (take_drop (Z.to_nat limit) m). apply elem_of_app. by left.
Qed.
Lemma page_listed i : i ∈ items → ∃ r, i = item v r ∧ r ∈ records ∧ wanted v status r = true.
Proof.
  rewrite page_items. intros (r & -> & Hr)%list_elem_of_fmap. exists r. split; [done|]. assert (r ∈ m) as Hm; [|by apply page_in in Hm as (? & _ & ?)].
  rewrite <- (take_drop (Z.to_nat limit) m). apply elem_of_app. by left.
Qed.
(** The page is the last one, or it is full and ends at the cursor. *)
Lemma page_next :
  (next = "" ∧ items = item v <$> m) ∨
  (next ≠ "" ∧ Z.of_nat (length items) = limit ∧ last (item_id <$> items) = Some next ∧ ∀ x, x ∈ m → x ∈ drop (Z.to_nat limit) m → by_id next (record_id x)).
Proof.
  pose proof page_items as Hitems. pose proof page_ids as Hids. pose proof Hpage as Hp. rewrite page_spec in Hp by (simpl; lia). injection Hp as Hi Hn. cbn [aq_Limit q] in Hi, Hn. fold q m in Hi, Hn. case_bool_decide as Hl.
  - left. split; [done|]. rewrite Hitems. by rewrite take_ge.
  - right. assert (is_Some (last (item_id <$> items))) as [x Hx].
    { apply last_is_Some. rewrite Hids. intros He%(f_equal length). rewrite length_fmap, length_take in He. simpl in He. lia. }
    assert (x = next) as ->. { rewrite <- Hn, Hi, <- fmap_last, Hx. done. }
    rewrite Hids, fmap_last, fmap_Some in Hx. destruct Hx as (r & Hr & ->). apply last_Some_elem_of in Hr as Hr'.
    split_and!.
    + destruct Hview as [_ Hne]. rewrite Forall_forall in Hne. apply Hne. apply (page_in r). rewrite <- (take_drop (Z.to_nat limit) m). apply elem_of_app. by left.
    + rewrite Hitems, length_fmap, length_take. lia.
    + by rewrite Hids, fmap_last, Hr.
    + intros x _ Hx. assert (StronglySorted by_id (record_id <$> m)) as Hs by apply sorted_fmap_filter, Hview.
      apply (sorted_split _ (Z.to_nat limit) _ _ Hs); [rewrite <- fmap_take|rewrite <- fmap_drop]; by apply list_elem_of_fmap_2.
Qed.
End one_page.

Lemma sorted_join (l l' : list string) x : StronglySorted by_id l → StronglySorted by_id l' → last l = Some x → Forall (by_id x) l' → StronglySorted by_id (l ++ l').
Proof.
  intros Hl Hl' Hx Hf. rewrite StronglySorted_app. split_and!; [|done|done]. intros y z Hy Hz. rewrite Forall_forall in Hf. specialize (Hf z Hz).
  apply last_Some in Hx as (k & ->). apply elem_of_app in Hy as [Hy| ->%list_elem_of_singleton]; [|done]. rewrite StronglySorted_app in Hl. destruct Hl as (Hl & _).
  etrans; [apply Hl; [done|by apply list_elem_of_singleton]|done].
Qed.
Lemma list_pages_spec limit status cursor views items ended :
  1 ≤ limit → Forall view_ok views → list_pages limit status cursor views = (items, ended) →
  StronglySorted by_id (item_id <$> items) ∧ Forall (by_id cursor) (item_id <$> items) ∧
  (∀ i, i ∈ items → ∃ view r, view ∈ views ∧ r ∈ view.2 ∧ wanted view.1 status r = true ∧ i = item view.1 r) ∧
  (ended = true → ∀ id, by_id cursor id → Forall (listed status id) views → id ∈ item_id <$> items) ∧
  (ended = false → Z.of_nat (length items) = limit * Z.of_nat (length views)).
Proof.
  intros Hlimit. revert cursor items ended. induction views as [|[v records] views IH]; intros cursor items ended Hv Hl; cbn [list_pages] in Hl.
  { injection Hl as <- <-. split_and!; [constructor|constructor| |done|simpl; lia]. intros i Hi. by apply elem_of_nil in Hi. }
  apply Forall_cons in Hv as [Hv Hvs]. destruct (page v _ records) as [first next] eqn:Hp.
  pose proof (page_sorted limit status cursor v records first next Hlimit Hv Hp) as [Hs Hc].
  pose proof (page_listed limit status cursor v records first next Hlimit Hp) as Hi.
  pose proof (page_next limit status cursor v records first next Hlimit Hv Hp) as Hn. set (m := matching v _ records) in *.
  assert (∀ id, by_id cursor id → listed status id (v, records) → ∃ r, r ∈ m ∧ record_id r = id) as Hm.
  { intros id Hid' (r & Hr & <- & Hw). exists r. split; [|done]. by apply page_in. }
  destruct Hn as [[-> Hall]|(Hne & Hlen & Hlast & Hafter)].
  - simpl in Hl. injection Hl as <- <-. split_and!; [done|done| | |done].
    + intros i (r & -> & Hr & Hw)%Hi. exists (v, records), r. split_and!; [by left|done..].
    + intros _ id Hid' [Hx _]%Forall_cons. destruct (Hm id Hid' Hx) as (r & Hr & <-). rewrite Hall, <- list_fmap_compose.
      apply list_elem_of_fmap. exists r. split; [symmetry; apply Hid|done].
  - rewrite (proj2 (String.eqb_neq _ _) Hne) in Hl. destruct (list_pages limit status next views) as [more fin] eqn:Hr. injection Hl as <- <-.
    destruct (IH _ _ _ Hvs Hr) as (Js & Jc & Ji & Jall & Jlen). rewrite fmap_app. split_and!.
    + by eapply sorted_join.
    + apply Forall_app. split; [done|]. rewrite Forall_forall in Hc. assert (by_id cursor next) as Hcn by (apply Hc; by apply last_Some_elem_of).
      eapply Forall_impl; [exact Jc|]. intros x Hx. by etrans.
    + intros i [Hx|Hx]%elem_of_app; [destruct (Hi _ Hx) as (r & -> & ? & ?); exists (v, records), r; split_and!; [by left|done..]|].
      destruct (Ji _ Hx) as (view & r & ? & ? & ? & ->). exists view, r. split_and!; [by right|done..].
    + intros -> id Hid' [Hx Hxs]%Forall_cons. apply elem_of_app. destruct (Hm id Hid' Hx) as (r & Hr' & <-).
      rewrite <- (take_drop (Z.to_nat limit) m) in Hr'. apply elem_of_app in Hr' as [Hr'|Hr'].
      * left. rewrite (page_ids limit status cursor v records first next Hlimit Hp). by apply list_elem_of_fmap_2.
      * right. apply Jall; [done| |done]. apply Hafter; [|done]. rewrite <- (take_drop (Z.to_nat limit) m). apply elem_of_app. by right.
    + intros Hf. rewrite length_app. specialize (Jlen Hf). simpl. lia.
Qed.
End paging.

(** ** Listing permits *)

Section permits.
Context `{CryptoLaws}.

(** A client that lists permits with the command of an authority, one call after the other. *)
Fixpoint list_permits (limit : Z) (status cursor : string) (calls : list (Controller * Env)) : result service_error (list AdmissionPermitRecordV1 * bool) :=
  match calls with
  | [] => Ok ([], false)
  | (c, e) :: rest =>
    payload ← mapErr MPayload (EncodeJSONPayload (mkAdmissionList SchemaVersionV1 cursor limit status) DefaultMaxPayload);
    output ← (listEnrollmentPermits c e payload).2;
    list ← mapErr MPayload (DecodeJSONPayload output DefaultMaxPayload);
    if String.eqb (apl_NextCursor list) "" then Ok (apl_Items list, true)
    else '(more, ended) ← list_permits limit status (apl_NextCursor list) rest; Ok (apl_Items list ++ more, ended)
  end.

(** The controller serves an authority whose state is valid; the order is one of its map. *)
Definition call_ok (call : Controller * Env) : Prop :=
  ∃ a t, mc_authority call.1 = Some a ∧ authority_ok a t ∧ en_permits call.2 ≡ₚ map_to_list (d_permits (au_data a)).
Definition permits_at (call : Controller * Env) : list permitState := match mc_authority call.1 with Some a => Permits a (en_permits call.2) | None => [] end.
Definition permit_view (call : Controller * Env) : Z * list permitState := (UnixMilli (en_clock call.2), permits_at call).
#[local] Abbreviation permit_id := (λ r, pm_PermitID (ps_Permit r)).

Lemma permits_in a t order r : authority_ok a t → order ≡ₚ map_to_list (d_permits (au_data a)) →
  r ∈ Permits a order ↔ d_permits (au_data a) !! permit_id r = Some r.
Proof.
  intros Ha Ho. unfold Permits. rewrite elem_of_SortSlice, list_elem_of_fmap. split.
  - intros ([id r'] & -> & Hin). rewrite Ho in Hin. apply elem_of_map_to_list in Hin. simpl. by destruct (do_permits _ _ _ _ (uo_data a t Ha) _ _ Hin) as (-> & _).
  - intros Hr. exists (permit_id r, r). split; [done|]. rewrite Ho. by apply elem_of_map_to_list.
Qed.
Lemma permits_checked a t order r : authority_ok a t → order ≡ₚ map_to_list (d_permits (au_data a)) → r ∈ Permits a order →
  Permit_Validate (ps_Permit r) = Ok tt ∧ permit_ints (ps_Permit r) ∧ (ps_Status r = "active" ∨ ps_Status r = "consumed" ∨ ps_Status r = "revoked").
Proof.
  intros Ha Ho Hr. apply (permits_in a t) in Hr; [|done..]. destruct (do_permits _ _ _ _ (uo_data a t Ha) _ _ Hr) as (_ & Hc & Hi).
  split_and!; [|done|by eapply EnrollmentTheory.permit_status]. apply check_permit_parts in Hc as [Hv _]. by eapply VerifyEnrollmentPermit_valid.
Qed.
Lemma permit_view_ok call : call_ok call → view_ok permit_id (permit_view call).
Proof.
  intros (a & t & Hc & Ha & Ho). unfold permit_view, permits_at, view_ok. rewrite Hc. simpl. split.
  - assert (NoDup (permit_id <$> Permits a (en_permits call.2))) as Hnd.
    { unfold Permits. rewrite SortSlice_perm, Ho. apply NoDup_fmap_2_strong; [|apply NoDup_fmap_2_strong; [|apply NoDup_map_to_list]].
      - intros x y ([i x'] & -> & Hx%elem_of_map_to_list)%list_elem_of_fmap ([j y'] & -> & Hy%elem_of_map_to_list)%list_elem_of_fmap E. simpl in *.
        destruct (do_permits _ _ _ _ (uo_data a t Ha) _ _ Hx) as (E1 & _), (do_permits _ _ _ _ (uo_data a t Ha) _ _ Hy) as (E2 & _). congruence.
      - intros [i x] [j y] Hx%elem_of_map_to_list Hy%elem_of_map_to_list E. simpl in *. subst y.
        destruct (do_permits _ _ _ _ (uo_data a t Ha) _ _ Hx) as (<- & _), (do_permits _ _ _ _ (uo_data a t Ha) _ _ Hy) as (<- & _). done. }
    assert (ordered (λ l r, str_ltb (permit_id l) (permit_id r)) (Permits a (en_permits call.2))) as Hs.
    { apply SortSlice_ordered; [intros ? ?; apply str_ltb_asym|intros ? ? ?; apply str_ltb_negtrans]. }
    revert Hnd Hs. generalize (Permits a (en_permits call.2)) as l. induction l as [|r l IH]; [constructor|]. rewrite fmap_cons. intros [Hn Hnd]%NoDup_cons.
    unfold ordered. intros [Hf Hs]%StronglySorted_cons. rewrite StronglySorted_cons. split; [|by apply IH]. rewrite Forall_forall in Hf. rewrite Forall_forall. intros id (x & -> & Hx)%list_elem_of_fmap.
    specialize (Hf x Hx). unfold by_id. destruct (str_ltb (permit_id r) (permit_id x)) eqn:E; [done|]. destruct Hn. apply list_elem_of_fmap. exists x. split; [by apply str_ltb_total|done].
  - rewrite Forall_forall. intros r Hr E. destruct (permits_checked a t _ r Ha Ho Hr) as (Hv & _). unfold Permit_Validate in Hv. apply bind_ok in Hv as [_ Hv]. apply bind_ok in Hv as [Hv _].
    rewrite E in Hv. by vm_compute in Hv.
Qed.

(** *** What a call answers *)

Lemma submitted_hex s n : hexID s n = Ok tt → ValidString s = true ∧ strlen s = n * 2.
Proof. intros Hx. split; [eauto with mfh|by apply hexID_size]. Qed.
Lemma node_text_size s : nodeIDText s = Ok tt → strlen s ≤ 20.
Proof. unfold nodeIDText. rewrite mapErr_ok. intros (n & _ & ->)%validateNodeIDText_canonical. apply FormatUint_size. Qed.
Lemma permit_record_size r : members_size (permit_record_fields r) ≤ 1200 + 6 * (strlen (apr_PermitID r) + strlen (apr_DevicePublicKeyFingerprint r) + strlen (apr_TargetNodeID r) +
  strlen (apr_AdmissionProfile r) + strlen (apr_Status r)).
Proof. unfold permit_record_fields, flag_field. sized; try change (length (print (ABool true))) with 4%nat; lia. Qed.
(** An item is valid, kept by JSON, and small. *)
Definition small_record (r : AdmissionPermitRecordV1) : Prop := AdmissionPermitRecord_Validate r = Ok tt ∧ js_ok r ∧ members_size (js_fields r) ≤ 3000.
Lemma permit_item_small now r :
  Permit_Validate (ps_Permit r) = Ok tt → permit_ints (ps_Permit r) → ps_Status r = "active" ∨ ps_Status r = "consumed" ∨ ps_Status r = "revoked" → small_record (permit_item now r).
Proof.
  intros Hv (I1 & I2 & I3 & _) Hs. assert (permit_status now r ∈ ["active"; "consumed"; "revoked"; "expired"]) as Hst.
  { unfold permit_status. destruct (_ && _); [set_solver|]. destruct Hs as [-> |[-> | ->]]; set_solver. }
  unfold Permit_Validate in Hv. apply bind_ok in Hv as [_ Hv]. apply bind_ok in Hv as [H1 Hv]. apply bind_ok in Hv as [_ Hv]. apply bind_ok in Hv as [_ Hv].
  apply bind_ok in Hv as [H2 Hv]. apply bind_ok in Hv as [H3 Hv]. apply bind_ok in Hv as [H4 Hv]. apply fail_if_ok in Hv as [H5 _].
  assert (valid (permit_status now r) ∧ strlen (permit_status now r) ≤ 8 ∧ validateAdmissionRecordStatus (permit_status now r) ["active"; "consumed"; "revoked"; "expired"] = Ok tt) as (Hst1 & Hst2 & Hst3).
  { set_unfold in Hst. destruct Hst as [-> |[-> |[-> |[-> |[]]]]]; vm_compute; repeat split; congruence. }
  split_and!.
  - unfold AdmissionPermitRecord_Validate, permit_item. cbn [apr_Version apr_PermitID apr_DevicePublicKeyFingerprint apr_TargetNodeID apr_AdmissionProfile apr_IssuedAtUnixMS apr_ExpiresAtUnixMS apr_Status].
    rewrite H1, H2, H3, H4, H5, Hst3. done.
  - refine (conj one_i64 (conj I2 (conj I3 _))). repeat (apply Forall_cons_2; [unfold valid; simpl; solve [done|eauto with mfh]|]). by apply Forall_nil_2.
  - pose proof (permit_record_size (permit_item now r)) as Hz. change (js_fields (permit_item now r)) with (permit_record_fields (permit_item now r)).
    pose proof (hexID_size _ _ H1). pose proof (hexID_size _ _ H2). pose proof (text_size _ _ _ H4). pose proof (node_text_size _ H3).
    unfold permit_item in Hz at 2 3 4 5 6. cbn [apr_PermitID apr_DevicePublicKeyFingerprint apr_TargetNodeID apr_AdmissionProfile apr_Status] in Hz. unfold MaxIdentifierBytes in *. lia.
Qed.
Lemma items_size (items : list AdmissionPermitRecordV1) : Forall small_record items → Z.of_nat (length (print (slice_any permit_record_fields items))) ≤ 2 + Z.of_nat (length items) * 3002.
Proof.
  intros Hi. etrans; [apply (array_size _ 3001)|rewrite length_fmap; lia]; [|lia]. intros v (r & -> & Hr)%list_elem_of_fmap. rewrite Forall_forall in Hi. destruct (Hi r Hr) as (_ & _ & Hz).
  pose proof (object_size (permit_record_fields r)). change (js_fields r) with (permit_record_fields r) in Hz. lia.
Qed.
Lemma check_items_all {I} (f : I → result record_error unit) items : Forall (λ i, f i = Ok tt) items → ∀ n, check_items f n items = Ok tt.
Proof. induction 1 as [|i items Hi _ IH]; intros n; [done|]. simpl. by rewrite Hi, IH. Qed.
Lemma permit_page_encodes generation items next :
  0 < generation ≤ maxUint64 → Forall small_record items → Z.of_nat (length items) ≤ 256 → next = "" ∨ hexID next 16 = Ok tt →
  let list := mkAdmissionPermits SchemaVersionV1 generation items next in
  ∃ output, encoded list = Ok output ∧ DecodeJSONPayload output DefaultMaxPayload = Ok list.
Proof.
  intros Hg Hi Hl Hn list. assert (valid next ∧ strlen next ≤ 32) as [Hn1 Hn2] by (destruct Hn as [-> |Hn]; [split; vm_compute; congruence|split; [apply (submitted_hex _ _ Hn)|by rewrite (hexID_size _ _ Hn)]]).
  assert (Validate list = Ok tt) as Hv.
  { change (Validate list) with (AdmissionPermitList_Validate list). unfold AdmissionPermitList_Validate, validateAdmissionListHeader, list. cbn [apl_Version apl_AuthorityEpoch apl_Items apl_NextCursor].
    change (schemaVersion SchemaVersionV1) with (Ok (E := enrollment_error) tt). cbn [mapErr mbind result_bind]. rewrite (proj2 (Z.eqb_neq _ _)), (proj2 (Z.ltb_ge _ _)) by (unfold MaxItems; lia). cbn [mbind result_bind].
    rewrite check_items_all by (eapply Forall_impl; [exact Hi|by intros r (? & _)]). cbn [mbind result_bind]. destruct Hn as [-> | ->]; [done|]. by case_match. }
  assert (js_ok list) as Hj.
  { split; [exact one_i64|]. split; [unfold is_u64; simpl; lia|]. split; [eapply Forall_impl; [exact Hi|by intros r (_ & ? & _)]|by apply Forall_singleton]. }
  assert (EncodeJSONPayload list DefaultMaxPayload = Ok (json_Marshal list)) as He.
  { apply payload_fits; [done|]. change (js_fields list) with (permit_list_fields list). pose proof (items_size items Hi) as Hz. unfold permit_list_fields, list, DefaultMaxPayload.
    cbn [apl_Version apl_AuthorityEpoch apl_Items apl_NextCursor]. revert Hz. generalize (slice_any permit_record_fields items) as v. intros v Hz.
    sized; lia. }
  exists (json_Marshal list). split; [unfold encoded; by rewrite He|]. eapply payload_roundtrip; [exact Hj|exact He].
Qed.

Lemma query_encodes limit status cursor : 1 ≤ limit ≤ 256 → text status MaxIdentifierBytes false = Ok tt → cursor = "" ∨ hexID cursor 16 = Ok tt →
  let q := mkAdmissionList SchemaVersionV1 cursor limit status in
  ∃ payload, EncodeJSONPayload q DefaultMaxPayload = Ok payload ∧ decodeAdmissionListQuery payload = Ok q.
Proof.
  intros Hl Hs Hc q. assert (valid cursor ∧ strlen cursor ≤ 32) as [Hc1 Hc2] by (destruct Hc as [-> |Hc]; [split; vm_compute; congruence|split; [apply (submitted_hex _ _ Hc)|by rewrite (hexID_size _ _ Hc)]]).
  assert (Validate q = Ok tt) as Hv.
  { change (Validate q) with (AdmissionList_Validate q). unfold AdmissionList_Validate, q. cbn [aq_Version aq_Cursor aq_Limit aq_Status].
    change (schemaVersion SchemaVersionV1) with (Ok (E := enrollment_error) tt). cbn [mapErr mbind result_bind].
    assert ((if negb (String.eqb cursor "") then mapErr AField (hexID cursor 16) else Ok tt) = Ok tt) as -> by (destruct Hc as [-> | ->]; [done|by case_match]).
    cbn [mbind result_bind]. rewrite (proj2 (Z.ltb_ge _ _)), (proj2 (Z.ltb_ge _ _)) by (unfold MaxItems; lia). cbn [mbind result_bind orb]. by rewrite Hs. }
  assert (js_ok q) as Hj.
  { split; [exact one_i64|]. split; [unfold is_i64; simpl; lia|]. apply Forall_cons_2; [done|]. apply Forall_singleton. unfold valid. simpl. eauto with mfh. }
  pose proof (text_size _ _ _ Hs).
  assert (EncodeJSONPayload q DefaultMaxPayload = Ok (json_Marshal q)) as He.
  { apply payload_fits; [done|]. change (js_fields q) with (list_query_fields q). unfold list_query_fields, q, DefaultMaxPayload, MaxIdentifierBytes in *. cbn [aq_Version aq_Cursor aq_Limit aq_Status].
    sized; lia. }
  exists (json_Marshal q). split; [done|]. unfold decodeAdmissionListQuery. rewrite (payload_roundtrip q _ _ Hj He). cbn [mbind result_bind]. simpl. by rewrite (proj2 (Z.eqb_neq limit 0)) by lia.
Qed.

Definition permit_pages := list_pages permit_id permit_status permit_item apr_PermitID.
Definition permit_next := page permit_id permit_status permit_item apr_PermitID.
Lemma permit_page_ok call limit status cursor items next : call_ok call → 1 ≤ limit →
  permit_next (permit_view call).1 (mkAdmissionList SchemaVersionV1 cursor limit status) (permit_view call).2 = (items, next) →
  Forall small_record items ∧ Z.of_nat (length items) ≤ limit ∧ (next = "" ∨ hexID next 16 = Ok tt).
Proof.
  intros Hcall Hlimit Hp. pose proof (permit_view_ok call Hcall) as Hv. destruct Hcall as (a & t & Hc & Ha & Ho).
  pose proof (page_listed permit_id permit_status permit_item apr_PermitID limit status cursor _ _ items next Hlimit Hp) as Hi.
  assert (Forall small_record items) as Hs.
  { rewrite Forall_forall. intros i (r & -> & Hr & _)%Hi. unfold permit_view, permits_at in Hr. rewrite Hc in Hr. destruct (permits_checked a t _ r Ha Ho Hr) as (? & ? & ?). by apply permit_item_small. }
  split; [exact Hs|]. split.
  - pose proof (page_items permit_id permit_status permit_item apr_PermitID limit status cursor _ _ items next Hlimit Hp) as ->. rewrite length_fmap, length_take. lia.
  - destruct (page_next permit_id permit_status permit_item apr_PermitID (λ _ _, eq_refl) limit status cursor _ _ items next Hlimit Hv Hp) as [[-> _]|(_ & _ & Hl & _)]; [by left|right].
    apply last_Some_elem_of in Hl. apply list_elem_of_fmap in Hl as (i & -> & Hin). rewrite Forall_forall in Hs. destruct (Hs i Hin) as (Hval & _).
    change (AdmissionPermitRecord_Validate i = Ok tt) in Hval. unfold AdmissionPermitRecord_Validate in Hval. apply bind_ok in Hval as [_ Hval]. apply bind_ok in Hval as [Hval _]. by apply mapErr_ok in Hval.
Qed.
Lemma list_permits_pages limit status cursor calls :
  1 ≤ limit ≤ 256 → text status MaxIdentifierBytes false = Ok tt → cursor = "" ∨ hexID cursor 16 = Ok tt → Forall call_ok calls →
  list_permits limit status cursor calls = Ok (permit_pages limit status cursor (permit_view <$> calls)).
Proof.
  intros Hl Hs. revert cursor. induction calls as [|[c e] calls IH]; intros cursor Hc Hcalls; [done|]. apply Forall_cons in Hcalls as [Hcall Hcalls]. cbn [list_permits].
  destruct (query_encodes limit status cursor Hl Hs Hc) as (payload & -> & Hq). cbn [mapErr mbind result_bind].
  destruct (permit_next (permit_view (c, e)).1 (mkAdmissionList SchemaVersionV1 cursor limit status) (permit_view (c, e)).2) as [items next] eqn:Hp.
  destruct (permit_page_ok _ limit status cursor items next Hcall ltac:(lia) Hp) as (Hi & Hlen & Hn). pose proof Hcall as (a & t & Ha & Hok & Ho). cbn [fst snd] in *.
  assert (0 < au_generation a ≤ maxUint64) as Hg by (apply (uo_generation a t Hok)).
  destruct (permit_page_encodes (au_generation a) items next Hg Hi ltac:(lia) Hn) as (output & Hout & Hdec).
  assert ((listEnrollmentPermits c e payload).2 = Ok output) as ->.
  { unfold listEnrollmentPermits. cbn [snd]. rewrite Hq. cbn [mapErr mbind result_bind]. rewrite Ha.
    assert (permit_page (UnixMilli (en_clock e)) (mkAdmissionList SchemaVersionV1 cursor limit status) (Permits a (en_permits e)) [] = (items, next)) as ->; [|exact Hout].
    rewrite <- Hp. unfold permit_view, permits_at. cbn [fst snd]. by rewrite Ha. }
  cbn [mbind result_bind]. rewrite Hdec. cbn [mapErr mbind result_bind apl_NextCursor apl_Items]. unfold permit_pages. rewrite fmap_cons. cbn [list_pages].
  change (permit_view (c, e)) with ((permit_view (c, e)).1, (permit_view (c, e)).2). cbn iota. unfold permit_next in Hp. rewrite Hp.
  destruct (String.eqb_spec next "") as [|Hne]; [done|]. rewrite IH by (done || by destruct Hn). cbn [mbind result_bind]. unfold permit_pages. by destruct (list_pages _ _ _ _ _ _ next _).
Qed.

End permits.

(** ** An authority with one permit *)

Module Listing_demo.
Definition policy : PolicyState := mkPolicyState 1 ∅ ∅ ∅ ∅ None None 0 ∅ None false.
Definition controller : Controller :=
  mkController 9 (mkAdmission (Toy.identity 9) Hour 10 1 ∅ None) (Some Enroll_demo.a1) 9 NewTrustStore policy (NewAuditLog 0) [].
Definition env : Env :=
  mkEnv (Some 3) (Enroll_demo.at_ 6) (Enroll_demo.at_ 6) (Enroll_demo.at_ 6) [] None (map_to_list (d_permits (au_data Enroll_demo.a1))) [] [] true true true true.
Definition items : list AdmissionPermitRecordV1 * bool := from_ok ([], false) (list_permits 10 "active" "" [(controller, env)]).
End Listing_demo.
Lemma demo_a1_ok : authority_ok Enroll_demo.a1 5000.
Proof.
  destruct demo_issued as [log Hh]. refine (proj1 (history_ind_refines (λ _ _, True) _ _ _ _ _ Hh _ Z.lt_0_1 I (λ _ _ _ _ _ _ _ _ _ _, I))).
  exact (proj1 (fresh_authority _ _ _ _ demo_loaded 1)).
Qed.
Lemma demo_call_ok : call_ok (Listing_demo.controller, Listing_demo.env).
Proof. exists Enroll_demo.a1, 5000. split; [reflexivity|]. split; [exact demo_a1_ok|reflexivity]. Qed.
