(* ===== verification/RemoteEnrollment.v ===== *)
(** * Enrollment with an authority on another node

    A parent whose broker is a [RemoteBroker] submits to the command of the authority's node.
    The answer is what the authority answers, only submissions of trusted parents reach it,
    a device enrolls through such a parent as it does through a local authority, and a
    revocation at the authority reaches the parent. *)

From S2P Require Import Prelude GoStd GoSort GoEncoding GoJSON GoFloat GoStruct Wire Codec PolicySchema EnrollmentWire Payload EnrollmentPayload AdmissionSchema Identity Admission EnrollmentAuthority EnrollmentTheory EnrollmentHistory EnrollmentSession EnrollmentHandshake Policy PolicyStore AdmissionService AdmissionListing.
Open Scope Z_scope.

Section remote.
Context `{CryptoLaws}.

(** ** What the authority answers *)

Lemma hex_decode_length l : ∀ r, hex_decode l = Some r → length l = (2 * length r)%nat.
Proof.
  induction l as [l IH] using (well_founded_induction (well_founded_ltof _ length)). intros r Hr. destruct l as [|a [|b l]]; [by injection Hr as <-|done|].
  cbn [hex_decode] in Hr. destruct (from_hex (bval a)), (from_hex (bval b)), (hex_decode l) as [r'|] eqn:E; try done. injection Hr as <-.
  apply IH in E; [simpl; lia|unfold ltof; simpl; lia].
Qed.
Lemma enrollment_hexID s n : validateEnrollmentHexID s n = Ok tt → hexID s n = Ok tt.
Proof.
  unfold validateEnrollmentHexID, hexID, validateHexID. destruct (DecodeString s) as [d|] eqn:E; [|done]. intros Hf. apply fail_if_ok in Hf as [Hf _]. bool_prop.
  apply hex_decode_length in E. unfold blen in *. rewrite mapErr_ok. unfold strlen. rewrite E.
  match goal with Hx : Z.of_nat (length d) = n |- _ => rewrite Hx end.
  rewrite (proj2 (Z.eqb_eq (Z.of_nat (2 * length d)) (n * 2))) by lia. rewrite Z.eqb_refl. cbn [negb orb]. eqb_prop.
  match goal with Hx : s = ToLower s |- _ => rewrite <- Hx end. by rewrite bool_decide_eq_true_2.
Qed.

(** The shape of an outcome. *)
Inductive outcome_shape (o : EnrollmentOutcome) : Prop :=
| shape_granted g : oc_Status o = "granted" → oc_Grant o = Some g → oc_Reason o = "" → Grant_Validate g = Ok tt → grant_ints g → outcome_shape o
| shape_pending : oc_Status o = "pending" → oc_Grant o = None → oc_Reason o = "" → outcome_shape o
| shape_rejected : oc_Status o = "rejected" → oc_Grant o = None → oc_Reason o ≠ "" → outcome_shape o.

Section submitted.
Context (a : EnrollmentAuthority) (s : EnrollmentSubmission) (order : list (string * requestState)) (random : list byte) (now : Z) (saved : bool).
Context (Ha : authority_ok a (UnixMilli now)) (Hi : is_i64 (UnixMilli now)) (Ho : order ≡ₚ map_to_list (d_requests (submit_data a now))).
Let next := submit_data a now.

Lemma existing_shape a' id r o : d_requests next !! id = Some r → d_enrollments (au_data a') = d_enrollments (au_data a) →
  outcomeForRequestLocked a' r = Ok o → outcome_shape o ∧ oc_RequestID o = id.
Proof.
  intros Hr He Hout. destruct (do_requests _ _ _ _ (submit_data_ok a now Ha) _ _ Hr) as (Hid & Hv & _). unfold outcomeForRequestLocked in Hout.
  assert (status_fields r) as Hst by apply Hv.
  destruct (String.eqb_spec (rq_Status r) "pending"); [injection Hout as <-; split; [by apply shape_pending|done]|].
  destruct (String.eqb_spec (rq_Status r) "rejected").
  { injection Hout as <-. split; [|done]. apply shape_rejected; [done|done|]. simpl. destruct Hst as [(? & _)|[(? & _)|(_ & _ & _ & ?)]]; congruence. }
  destruct (String.eqb_spec (rq_Status r) "expired"); [injection Hout as <-; split; [by apply shape_rejected|done]|].
  destruct (String.eqb_spec (rq_Status r) "approved"); [|done]. rewrite He in Hout. destruct (d_enrollments (au_data a) !! rq_EnrollmentID r) as [en|] eqn:Ee; [|done].
  apply fail_if_ok in Hout as [_ Hout]. injection Hout as <-. split; [|done]. destruct (do_enrollments _ _ _ _ (uo_data a _ Ha) _ _ Ee) as (_ & Hc & Hg & _).
  apply (shape_granted _ (es_Grant en)); try done. unfold check_enrollment in Hc. apply bind_ok in Hc as [Hc _]. unfold VerifyEnrollmentGrant in Hc.
  apply fail_if_ok in Hc as [_ Hc]. apply bind_ok in Hc as [Hc _]. by apply mapErr_ok in Hc.
Qed.
Lemma submit_existing_shape id r o : d_requests next !! id = Some r →
  (submit_existing a next (expirePendingRequests (d_requests (au_data a)) (UnixMilli now)).2 r saved).2 = Ok o → outcome_shape o ∧ oc_RequestID o = id.
Proof.
  intros Hr. unfold submit_existing. destruct (expirePendingRequests _ _).2; [|simpl; by apply existing_shape].
  destruct (commit_cases a next saved) as [[err ->]|[_ ->]]; [done|]. simpl. by apply existing_shape.
Qed.
Lemma submit_granted_shape permit r fp transcript o :
  (submit_granted a next permit s r fp transcript (UnixMilli now) random saved).2 = Ok o → outcome_shape o ∧ oc_RequestID o = sb_RequestID s.
Proof.
  unfold submit_granted, grantSubmissionWithPermitLocked. destruct (consumePermitLocked _ _ _ _ _ _) as [rec|]; [|done]. cbn [mbind result_bind].
  destruct (grantLocked _ _ _ _ _ _) as [[g d']|] eqn:Eg; [|done]. cbn [mbind result_bind].
  destruct (grantLocked_fresh _ _ _ _ _ _ _ _ Eg) as (n & eid & Hfr). set (next' := put_permit _ _ _).
  destruct (commit_cases a next' saved) as [[err ->]|[_ ->]]; [done|]. simpl. intros [= <-]. split; [|done].
  apply (shape_granted _ g); try done; [apply Hfr|]. rewrite (fg_grant _ _ _ _ _ _ _ _ _ Hfr). unfold grant_ints. simpl. split; [done|split; [apply u64_range|done]].
Qed.
Lemma Submit_shape o : (Submit a s order random now saved).2 = Ok o → outcome_shape o ∧ oc_RequestID o = sb_RequestID s.
Proof.
  unfold Submit. destruct (validateEnrollmentSubmission s); [|done]. fold next. set (fp := DevicePublicKeyFingerprint _). set (transcript := EncodeToString _).
  assert (∀ r id, d_requests next !! id = Some r →
    (let '(a', x) := submit_existing a next (expirePendingRequests (d_requests (au_data a)) (UnixMilli now)).2 r saved in
     (a', o ← x; Ok (mkOutcome (oc_Status o) (sb_RequestID s) (oc_Grant o) (oc_Reason o)))).2 = Ok o → outcome_shape o ∧ oc_RequestID o = sb_RequestID s) as Hex.
  { intros r id Hr Hx. pose proof (submit_existing_shape id r) as Hsh. destruct (submit_existing _ _ _ _ _) as [a' [o'|]]; simpl in Hx; [|done]. injection Hx as <-.
    destruct (Hsh o' Hr eq_refl) as [[g H1 H2 H3 H4 H5|H1 H2 H3|H1 H2 H3] _]; (split; [|done]); [by apply (shape_granted _ g)|by apply shape_pending|by apply shape_rejected]. }
  destruct (d_requests next !! sb_RequestID s) as [r|] eqn:Er.
  - destruct (same_origin fp s r); [|done]. cbn [negb]. destruct (sb_Permit s) as [permit|]; [|by apply submit_existing_shape].
    destruct (String.eqb (rq_Status r) "approved"); [by apply submit_existing_shape|apply submit_granted_shape].
  - destruct (find_request fp s order) as [r|] eqn:Ef.
    + destruct (find_request_ok a s now order r Ho Ef) as (id & Hr & _). destruct (sb_Permit s) as [permit|]; [|by eapply Hex].
      destruct (String.eqb (rq_Status r) "pending"); [apply submit_granted_shape|by eapply Hex].
    + destruct (_ <=? _); [done|]. destruct (sb_Permit s) as [permit|]; [apply submit_granted_shape|]. destruct (_ <=? _); [done|]. destruct (_ <=? _); [done|].
      destruct (commit_cases a (put_request next (sb_RequestID s) (new_request a s fp transcript (UnixMilli now))) saved) as [[err ->]|[_ ->]]; [done|]. simpl.
      intros [= <-]. split; [by apply shape_pending|done].
Qed.
End submitted.

(** ** Messages *)

Lemma encode_larger {A} `{JSONStruct A, ValidatedPayload A} (v : A) m m' data : EncodeJSONPayload v m = Ok data → 0 < m ≤ m' → EncodeJSONPayload v m' = Ok data.
Proof.
  intros He Hm. pose proof (encoded_valid _ _ _ He) as (Hv & Hne & Hs). unfold EncodeJSONPayload in He |- *. rewrite Hv in He |- *. cbn [mapErr mbind result_bind] in He |- *.
  apply bind_ok in He as [Hp He]. injection He as Hd. rewrite Hd in Hp |- *. apply mapErr_ok in Hp. unfold validatePayloadSize in Hp |- *. apply fail_if_ok in Hp as [Hz _].
  rewrite (proj2 (Z.leb_gt m 0)) in Hs by lia. rewrite (proj2 (Z.leb_gt m' 0)) by lia. rewrite Hz, (proj2 (Z.ltb_ge _ _)) by lia. done.
Qed.
Lemma submit_valid_ok r : AdmissionSubmit_Validate r = Ok tt → js_ok r.
Proof.
  unfold AdmissionSubmit_Validate. intros Hv. repeat (apply bind_ok in Hv as [? Hv]). repeat match goal with Hx : mapErr AField _ = Ok _ |- _ => apply mapErr_ok in Hx end.
  split; [by erewrite schemaVersion_ok by done; apply one_i64|]. unfold validateEd25519PublicKey in *. repeat (apply Forall_cons_2; [unfold valid; solve [eauto with mfh]|]). by apply Forall_nil_2.
Qed.

Section message.
Context (s : EnrollmentSubmission) (payload : list byte).
Context (Hu : is_u64 (sb_ParentNodeID s)) (Hp : ∀ p, sb_Permit s = Some p → permit_ints p) (He : submission_payload s = Ok payload).

(** The request of the payload. *)
Lemma submission_request : ∃ request, DecodeJSONPayload payload DefaultMaxPayload = Ok request ∧ sm_RequestID request = sb_RequestID s ∧
  ParseUint (sm_ParentNodeID request) = (sb_ParentNodeID s, true) ∧ RawStd_DecodeString (sm_DevicePublicKey request) = Some (sb_DevicePublicKey s) ∧
  RawStd_DecodeString (sm_ParentPublicKey request) = Some (sb_ParentPublicKey s) ∧ DecodeString (sm_TranscriptDigest request) = Some (sb_TranscriptDigest s) ∧
  submit_permit request = Ok (sb_Permit s).
Proof.
  unfold submission_payload in He. destruct (match sb_Permit s with None => Ok "" | Some p => _ end) as [permit|] eqn:Ep; [|done]. cbn [mbind result_bind] in He.
  set (request := mkAdmissionSubmit _ _ _ _ _ _ _) in He. exists request. split.
  - apply (payload_roundtrip request DefaultMaxPayload); [apply submit_valid_ok, (encoded_valid _ _ _ He)|]. eapply encode_larger; [exact He|]. by vm_compute.
  - split; [done|]. unfold request. cbn [sm_ParentNodeID sm_DevicePublicKey sm_ParentPublicKey sm_TranscriptDigest]. rewrite ParseUint_FormatUint, !RawStd_roundtrip by done.
    split_and!; try done.
    + unfold DecodeString, EncodeToString. by rewrite bytes_of_string_of, hex_decode_encode.
    + unfold submit_permit. cbn [sm_Permit]. destruct (sb_Permit s) as [p|] eqn:Es; [|by injection Ep as <-]. destruct (EncodeJSONPayload p EnrollmentMaxPayload) as [data|] eqn:Ed; [|done].
      injection Ep as <-. pose proof (encoded_valid _ _ _ Ed) as (Hv & Hne & _).
      destruct (String.eqb_spec (String.string_of_list_byte data) "") as [E|]; [apply (f_equal bytes_of) in E; rewrite bytes_of_string_of in E; done|].
      rewrite bytes_of_string_of. assert (DecodeJSONPayload data EnrollmentMaxPayload = Ok p) as ->; [|done].
      eapply (payload_roundtrip (A := EnrollmentPermitV1)), Ed. apply permit_valid_ok; [done|by apply Hp].
Qed.
End message.

(** An outcome that can be told: its text is valid, and it fits. *)
Definition tellable (o : EnrollmentOutcome) : Prop := valid (oc_Reason o) ∧ blen (json_Marshal (outcome_result o)) ≤ EnrollmentMaxPayload.
Lemma outcome_told o : outcome_shape o → hexID (oc_RequestID o) 16 = Ok tt → tellable o →
  ∃ output, encoded (outcome_result o) = Ok output ∧ DecodeJSONPayload output EnrollmentMaxPayload = Ok (outcome_result o) ∧ result_outcome (outcome_result o) = Ok o.
Proof.
  intros Ho Hid [Hr Hs]. set (r := outcome_result o) in *.
  assert (Result_Validate r = Ok tt ∧ js_ok r ∧ result_outcome r = Ok o) as (Hv & Hj & Hback).
  { unfold r, outcome_result. destruct o as [status id grant reason]. cbn [oc_Status oc_RequestID oc_Grant oc_Reason] in *.
    assert (valid id) as Hvid by (unfold valid; eauto with mfh).
    destruct Ho as [g H1 H2 H3 H4 H5|H1 H2 H3|H1 H2 H3]; cbn [oc_Status oc_Grant oc_Reason] in *; subst; cbn [String.eqb Ascii.eqb Bool.eqb].
    - split; [unfold Result_Validate; simpl; by rewrite Hid|]. split; [|done]. split_and!; try done; [by vm_compute..|repeat apply Forall_cons_2; done|by apply grant_valid_ok].
    - split; [unfold Result_Validate; simpl; by rewrite Hid|]. split; [|done]. split_and!; try done; [by vm_compute..|repeat apply Forall_cons_2; done].
    - split; [|split; [|done]]; [|split_and!; try done; [by vm_compute..|repeat apply Forall_cons_2; done|split; [repeat apply Forall_cons_2; done|done]]].
      unfold Result_Validate. simpl. rewrite Hid. cbn [mbind result_bind]. by rewrite (proj2 (String.eqb_neq _ _) H3). }
  assert (EncodeJSONPayload r EnrollmentMaxPayload = Ok (json_Marshal r)) as He.
  { unfold EncodeJSONPayload. change (Validate r) with (Result_Validate r). rewrite Hv. cbn [mapErr mbind result_bind]. unfold validatePayloadSize.
    assert (0 < blen (json_Marshal r)) by (unfold json_Marshal, blen; simpl; lia). rewrite (proj2 (Z.leb_gt EnrollmentMaxPayload 0)) by done.
    rewrite (proj2 (Z.eqb_neq _ _)), (proj2 (Z.ltb_ge _ _)) by lia. done. }
  exists (json_Marshal r). split; [|split; [by eapply payload_roundtrip|done]]. unfold encoded. by rewrite (encode_larger r _ DefaultMaxPayload _ He) by by vm_compute.
Qed.

(** ** The broker and the authority's controller *)

(** The authority's state is all that a submission changes, the audit log apart. *)
Definition only_authority (c c' : Controller) (a' : EnrollmentAuthority) : Prop :=
  mc_id c' = mc_id c ∧ mc_admission c' = mc_admission c ∧ mc_authority c' = Some a' ∧ mc_authorityNodeID c' = mc_authorityNodeID c ∧ mc_trust c' = mc_trust c ∧
  mc_policy c' = mc_policy c ∧ mc_disconnected c' = mc_disconnected c.
Lemma audited_authority c e a' action name target status : only_authority c (auditAdmissionOutcome (with_authority c a') e action name target status) a'.
Proof. unfold auditAdmissionOutcome. by destruct (en_subject e). Qed.

Context (text : service_error → string).
Definition parent_link (parent : NodeID) : CommandInvoker ServiceLink := {| Invoke := ServiceLink_Invoke text parent |}.
(** The broker of [parent], for an authority that [c] serves. *)
Definition parent_broker (c : Controller) (e : Env) (key : list byte) : RemoteBroker ServiceLink := mkRemoteBroker (Some (mkServiceLink c e)) (mc_id c) key.
Definition parent_submit (parent : NodeID) (b : RemoteBroker ServiceLink) (s : EnrollmentSubmission) : RemoteBroker ServiceLink * result authority_error EnrollmentOutcome :=
  RemoteBroker_Submit (H0 := parent_link parent) b s.

Lemma submit_command c a : mc_authority c = Some a →
  List.find (λ h : string * handler, String.eqb h.1 BuiltinAdmissionSubmitEnrollment) (admission_handlers c) = Some (BuiltinAdmissionSubmitEnrollment, submitEnrollment).
Proof. intros Hc. unfold admission_handlers. rewrite Hc. by destruct (_ =? 0). Qed.

Section submission.
Context (c : Controller) (e : Env) (a : EnrollmentAuthority) (s : EnrollmentSubmission) (payload : list byte).
Context (Hc : mc_authority c = Some a) (Hid : mc_id c ≠ 0) (Hkey : blen (i_PublicKey (au_identity a)) = PublicKeySize).
Context (Hu : is_u64 (sb_ParentNodeID s)) (Hp : ∀ p, sb_Permit s = Some p → permit_ints p) (He : submission_payload s = Ok payload).
Context (Htrust : TrustStore_PublicKey (mc_trust c) (sb_ParentNodeID s) = Some (sb_ParentPublicKey s)).
Let b := parent_broker c e (i_PublicKey (au_identity a)).
Let submitted := Submit a s (en_requests e) (en_random e) (en_now e) (en_saved e).

Lemma submit_handled :
  submitEnrollment c (called_by e (sb_ParentNodeID s)) payload =
    let '(a', r) := submitted in
    match r with
    | Err err => (with_authority c a', Err (MAuthority err))
    | Ok o => (auditAdmissionOutcome (with_authority c a') (called_by e (sb_ParentNodeID s)) "management.admission.submit" BuiltinAdmissionSubmitEnrollment (oc_RequestID o) (oc_Status o),
               refreshed e (encoded (outcome_result o)))
    end.
Proof.
  destruct (submission_request s payload Hu Hp He) as (request & Hd & Hr & Hpar & Hdev & Hpk & Hdig & Hperm).
  unfold submitEnrollment, with_request. rewrite Hd, Hpar, Hdev, Hpk, Hdig. cbn [fst default from_option id en_subject called_by]. rewrite bool_decide_eq_true_2 by done. cbn [negb]. cbn iota.
  rewrite Htrust, bool_decide_eq_true_2 by done. cbn [negb]. cbn iota. rewrite Hperm. unfold on_authority. rewrite Hc, Hr. destruct s. reflexivity.
Qed.
Lemma remote_submits :
  let '(a', r) := submitted in
  ∃ c', only_authority c c' a' ∧
  (∀ err, r = Err err → parent_submit (sb_ParentNodeID s) b s = (parent_broker c' e (i_PublicKey (au_identity a)), Err (URemote (text (MAuthority err))))) ∧
  (∀ o, r = Ok o → outcome_shape o → hexID (oc_RequestID o) 16 = Ok tt → tellable o →
     parent_submit (sb_ParentNodeID s) b s = (parent_broker c' e (i_PublicKey (au_identity a)), if en_refreshed e then Ok o else Err (URemote (text MRefresh)))).
Proof.
  pose proof submit_handled as Hh. unfold parent_submit, RemoteBroker_Submit, RemoteBroker_AuthorityIdentity, b, parent_broker. cbn [rb_Node rb_AuthorityNodeID rb_AuthorityPublicKey].
  rewrite (proj2 (NodeID_Validate_ok _) Hid), Hkey, Z.eqb_refl. cbn [is_ok negb]. cbn iota. rewrite He. unfold parent_link, Invoke, ServiceLink_Invoke. cbn [sl_controller sl_env r_Name r_Owner].
  rewrite (submit_command c a Hc), Z.eqb_refl. cbn [negb]. cbn iota. rewrite Hh. destruct submitted as [a' [o|err]].
  - eexists. split; [apply audited_authority|]. split; [by intros ? [=]|]. intros ? [= <-] Hsh Hx Ht. destruct (outcome_told o Hsh Hx Ht) as (output & Henc & Hdec & Hback).
    assert (mc_id (auditAdmissionOutcome (with_authority c a') (called_by e (sb_ParentNodeID s)) "management.admission.submit" BuiltinAdmissionSubmitEnrollment (oc_RequestID o) (oc_Status o)) = mc_id c) as -> by done.
    unfold refreshed. destruct (en_refreshed e); cbn [negb mbind result_bind]; [|reflexivity]. rewrite Henc. cbn [mapErr]. rewrite Hdec, Hback. reflexivity.
  - exists (with_authority c a'). split; [done|]. split; [by intros ? [= <-]|by intros ? [=]].
Qed.
End submission.

(** C21. Submitting through another node is submitting to the authority.  When the parent is a node
    whose key the authority trusts, the command at the authority's node makes the same
    transition and the parent's broker returns the same outcome as a local call of [Submit];
    an error is told by its text; nothing else of the authority's node changes. *)
Theorem remote_submission (c : Controller) (e : Env) (a : EnrollmentAuthority) (s : EnrollmentSubmission) (payload : list byte) :
  mc_authority c = Some a → mc_id c = i_NodeID (au_identity a) → authority_ok a (UnixMilli (en_now e)) → is_i64 (UnixMilli (en_now e)) →
  en_requests e ≡ₚ map_to_list (d_requests (submit_data a (en_now e))) → is_u64 (sb_ParentNodeID s) → (∀ p, sb_Permit s = Some p → permit_ints p) →
  submission_payload s = Ok payload → TrustStore_PublicKey (mc_trust c) (sb_ParentNodeID s) = Some (sb_ParentPublicKey s) →
  let b := parent_broker c e (i_PublicKey (au_identity a)) in
  let '(a', r) := Submit a s (en_requests e) (en_random e) (en_now e) (en_saved e) in
  ∃ c', only_authority c c' a' ∧ let b' := parent_broker c' e (i_PublicKey (au_identity a)) in
    (∀ err, r = Err err → parent_submit (sb_ParentNodeID s) b s = (b', Err (URemote (text (MAuthority err))))) ∧
    (∀ o, r = Ok o → tellable o → parent_submit (sb_ParentNodeID s) b s = (b', if en_refreshed e then Ok o else Err (URemote (text MRefresh)))).
Proof.
  intros Hc Hid Ha Hi Ho Hu Hp He Ht b. pose proof (Identity_Validate_ok _ (uo_identity _ _ Ha)) as (Hn & Hk & _).
  pose proof (remote_submits c e a s payload Hc ltac:(by rewrite Hid) Hk Hu Hp He Ht) as Hr. pose proof (Submit_shape a s (en_requests e) (en_random e) (en_now e) (en_saved e) Ha Hi Ho) as Hsh.
  assert (hexID (sb_RequestID s) 16 = Ok tt) as Hx.
  { unfold submission_payload in He. apply bind_value in He as (permit & _ & He). apply encoded_valid in He as (Hv & _).
    change (AdmissionSubmit_Validate (mkAdmissionSubmit SchemaVersionV1 (sb_RequestID s) (RawStd_EncodeToString (sb_DevicePublicKey s)) (FormatUint (sb_ParentNodeID s))
      (RawStd_EncodeToString (sb_ParentPublicKey s)) permit (EncodeToString (sb_TranscriptDigest s))) = Ok tt) in Hv.
    unfold AdmissionSubmit_Validate in Hv. apply bind_ok in Hv as [_ Hv]. apply bind_ok in Hv as [Hv _]. by apply mapErr_ok in Hv. }
  destruct (Submit a s _ _ _ _) as [a' r]. destruct Hr as (c' & H1 & H2 & H3). exists c'. split; [done|]. split; [done|]. intros o -> Htell.
  destruct (Hsh o eq_refl) as [Hshape Hrid]. apply H3; [done|done|by rewrite Hrid|done].
Qed.

(** C24. Only the parent itself submits.  A call of the command changes the authority's state only for
    an authenticated caller that is the parent of the submission and whose trusted key is the
    parent key of the submission, and then the change is that of [Submit]. *)
Theorem submission_authenticated (c : Controller) (e : Env) (input : list byte) :
  let '(c', r) := submitEnrollment c e input in
  c' = c ∨ ∃ a s a', mc_authority c = Some a ∧ en_subject e = Some (sb_ParentNodeID s) ∧ TrustStore_PublicKey (mc_trust c) (sb_ParentNodeID s) = Some (sb_ParentPublicKey s) ∧
    only_authority c c' a' ∧ (Submit a s (en_requests e) (en_random e) (en_now e) (en_saved e)).1 = a' ∧
    (is_ok r = true → is_ok (Submit a s (en_requests e) (en_random e) (en_now e) (en_saved e)).2 = true).
Proof.
  unfold submitEnrollment, with_request, on_authority. destruct (DecodeJSONPayload input DefaultMaxPayload) as [request|]; [|by left].
  case_bool_decide as Hs; cbn [negb]; [|by left]. case_bool_decide as Ht; cbn [negb]; [|by left]. destruct (submit_permit request) as [permit|]; [|by left].
  destruct (mc_authority c) as [a|]; [|by left]. set (s := mkSubmission _ _ _ _ _ _). destruct (Submit a s _ _ _ _) as [a' [o|err]] eqn:E; right; exists a, s, a'.
  - split_and!; try done; [apply audited_authority|by rewrite E|by rewrite E].
  - split_and!; try done; by rewrite E.
Qed.

(** ** A device enrolls through a parent that is not the authority *)

Definition remote_broker (parent : NodeID) : Broker (RemoteBroker ServiceLink) := RemoteBroker_broker (H0 := parent_link parent).

(** What one broker grants, another one that answers the same grants too. *)
Lemma grants_same {B B'} `{Broker B} `{Broker B'} (b : B) (b' : B') authority s outcome g n :
  grants b authority s outcome g n → (Broker_Submit b' s).2 = Ok outcome → grants b' authority s outcome g n.
Proof. by intros [] ?. Qed.
Lemma granted_tellable {B} `{Broker B} (b : B) authority s outcome g n : grants b authority s outcome g n → strlen (sb_RequestID s) = 32 → oc_Reason outcome = "" →
  blen authority.2 = PublicKeySize → blen (sb_DevicePublicKey s) = PublicKeySize → blen (sb_ParentPublicKey s) = PublicKeySize → tellable outcome.
Proof.
  intros Hg Hid Hr K1 K2 K3. pose proof (grants_bounded b authority s outcome g n Hg K1 K2 K3) as Hz. destruct (gs_outcome _ _ _ _ _ _ Hg) as (Ho1 & Ho2 & Ho3).
  split; [by rewrite Hr|]. unfold outcome_result. rewrite Ho1, Ho2, Ho3. change (String.eqb "granted" "rejected") with false. change (String.eqb "granted" "pending") with false. cbn iota.
  pose proof (json_Marshal_size (mkResult SchemaVersionV1 (sb_RequestID s) "granted" (Some g) None 0)) as Hm. pose proof (result_size (sb_RequestID s) g) as Hrs.
  change (js_fields (mkResult SchemaVersionV1 (sb_RequestID s) "granted" (Some g) None 0)) with (result_fields (mkResult SchemaVersionV1 (sb_RequestID s) "granted" (Some g) None 0)) in Hm.
  unfold blen, EnrollmentMaxPayload in *. lia.
Qed.

Section session.
Context (error_text : authority_error → string) (server : Server) (trust : TrustStore) (device : DeviceIdentity) (o : ClientOptions).
Context (generated : option MessageID) (nonce : list byte) (now now' t : Z) (saved : bool).
Let parent := i_NodeID (sv_parent server).

(** C20. Enrollment through another parent, end to end.  A new device with a permit talks to a parent
    whose broker is the authority of another node, which trusts the parent's key.  When the
    authority grants the submission and the parent can record the granted node: the session
    succeeds on both sides, the device holds an identity with its own key and the granted
    number, and the parent accepts every join claim that identity makes. *)
Theorem remote_enrollment_completes (c : Controller) (e : Env) (a a' : EnrollmentAuthority) (init : EnrollmentClientInitV1) (payload anchor request : list byte) (outcome : EnrollmentOutcome) :
  let s := session_submission server device o nonce now (au_identity a) init payload in
  mc_authority c = Some a → mc_id c = i_NodeID (au_identity a) → en_refreshed e = true →
  TrustStore_PublicKey (mc_trust c) parent = Some (i_PublicKey (sv_parent server)) → submission_payload s = Ok request →
  session_ok server device o generated nonce now now' t (au_identity a) init payload anchor → is_Some (op_Permit o) →
  is_i64 (UnixMilli (en_now e)) → en_requests e ≡ₚ map_to_list (d_requests (submit_data a (en_now e))) →
  (∀ id r, d_requests (submit_data a (en_now e)) !! id = Some r → rq_Fingerprint r ≠ DevicePublicKeyFingerprint (dv_PublicKey device)) →
  Submit a s (en_requests e) (en_random e) (en_now e) (en_saved e) = (a', Ok outcome) →
  ∃ n, (gr_NodeID <$> oc_Grant outcome) = Some (FormatUint n) ∧ 0 < n ≤ maxUint64 ∧
    ∀ trust', TrustStore_Add trust n (dv_PublicKey device) saved = (trust', Ok tt) →
    let identity := mkIdentity n (dv_PublicKey device) (dv_PrivateKey device) in
    let _ := remote_broker parent in
    (∃ res h c', run_session error_text server trust device o generated nonce now now' t saved (parent_broker c e (i_PublicKey (au_identity a))) = Ok (res, h) ∧
       cr_Identity res = Some identity ∧ ob_ParentNodeID (cr_Observation res) = parent ∧
       h_result h = Ok tt ∧ h_trust h = trust' ∧ h_broker h = parent_broker c' e (i_PublicKey (au_identity a)) ∧ only_authority c c' a') ∧
    ∀ epoch join_nonce, epoch ≠ 0 → ∃ claim, NewJoinClaim identity epoch (Some join_nonce) = Ok claim ∧ VerifyJoin trust' claim = Ok tt.
Proof.
  intros s Hc Hid Href Htrust Hreq Hso Hper Hi Ho Hnew Hsub. pose proof Hso as [[Hp1 Hp2] [Ha1 Ha2] _ _ _ _ Hinit Hex]. pose proof (Identity_Validate_ok _ Ha1) as (Hn0 & Hkey & _).
  destruct (local_grants a s (en_requests e) (en_random e) (en_now e) (en_saved e) outcome Ha1 Hi Ho Hper Hnew) as (g & n & Hg); [by rewrite Hsub|]. exists n.
  destruct (gs_outcome _ _ _ _ _ _ Hg) as (Ho1 & Ho2 & Ho3).
  split; [rewrite Ho3; simpl; by destruct (gs_node _ _ _ _ _ _ Hg) as [-> _]|]. split; [apply (gs_node _ _ _ _ _ _ Hg)|]. intros trust' Hadd identity B.
  pose proof (enroll_init_ok _ _ _ _ _ _ _ Hinit) as (Hd & Henc & _). pose proof (encoded_valid _ _ _ Henc) as (Hval & _).
  assert (hexID (sb_RequestID s) 16 = Ok tt) as Hx.
  { change (ClientInit_Validate init = Ok tt) in Hval. unfold ClientInit_Validate in Hval. apply bind_ok in Hval as [_ Hval]. by apply bind_ok in Hval as [Hval _]. }
  assert (blen (sb_DevicePublicKey s) = PublicKeySize) as Hdk.
  { unfold Device_Validate in Hd. apply fail_if_ok in Hd as [Hdl _]. bool_prop. done. }
  pose proof (Identity_Validate_ok _ Hp1) as (Hpar0 & Hpk & _).
  assert (outcome_shape outcome ∧ oc_Reason outcome = "") as [Hsh Hreason].
  { destruct (gs_verified _ _ _ _ _ _ Hg) as [Hv Hgi]. unfold VerifyEnrollmentGrant in Hv. apply fail_if_ok in Hv as [_ Hv]. apply bind_ok in Hv as [Hgv _]. apply mapErr_ok in Hgv.
    pose proof (gs_reason _ _ _ _ _ _ Hg) as Hr. split; [by apply (shape_granted _ g)|done]. }
  pose proof (granted_tellable _ _ _ _ _ _ Hg (hexID_size _ _ Hx) Hreason Hkey Hdk Hpk) as Htell.
  pose proof (remote_submits c e a s request Hc ltac:(by rewrite Hid) Hkey Hp2 (λ p Hp, proj1 (ex_permit _ _ Hex p Hp)) Hreq Htrust) as Hr. rewrite Hsub in Hr.
  destruct Hr as (c' & Hoa & _ & Hr). specialize (Hr outcome eq_refl Hsh ltac:(by rewrite Ho2) Htell). rewrite Href in Hr.
  assert (Broker_Submit (parent_broker c e (i_PublicKey (au_identity a))) s = (parent_broker c' e (i_PublicKey (au_identity a)), Ok outcome)) as Hbs by exact Hr.
  assert (AuthorityIdentity (parent_broker c e (i_PublicKey (au_identity a))) = Some (i_NodeID (au_identity a), i_PublicKey (au_identity a))) as Hau.
  { simpl. unfold RemoteBroker_AuthorityIdentity, parent_broker. cbn [rb_Node rb_AuthorityNodeID rb_AuthorityPublicKey]. rewrite Hid, (proj2 (NodeID_Validate_ok _) Hn0), Hkey, Z.eqb_refl. done. }
  destruct (session_completes error_text server trust device o generated nonce now now' t saved (parent_broker c e (i_PublicKey (au_identity a))) _ (au_identity a) init payload anchor outcome g n trust' Hso Hau Hbs)
    as [(res & h & R1 & R2 & R3 & R4 & R5 & R6) Hj]; [refine (grants_same _ _ _ _ _ _ _ Hg _); by rewrite Hbs|exact Hadd|].
  split; [|exact Hj]. exists res, h, c'. done.
Qed.
End session.

(** ** A revocation at the authority *)

(** No join claim of [n] is accepted. *)
Definition barred (c : Controller) (n : NodeID) : Prop := ∀ claim, jc_NodeID claim = n → VerifyJoin (mc_trust c) claim = Err ErrUntrustedIdentity.
Lemma RevokeNode_bars c e n : let '(c', r) := RevokeNode c e n in mc_id c' = mc_id c ∧ mc_authority c' = mc_authority c ∧
  (is_ok r = true ∨ (∃ err, r = Err err ∧ untrusted err = true) → barred c' n).
Proof.
  unfold RevokeNode, TrustStore_Revoke, trust_commit. destruct (n =? mc_id c); [split_and!; try done; intros [?|(? & [= <-] & ?)]; done|].
  destruct (NodeID_Validate n) as [[]|]; [|split_and!; try done; intros [?|(? & [= <-] & ?)]; done].
  destruct (t_keys (mc_trust c) !! n) as [key|] eqn:Ek.
  2: { split_and!; try done. intros _ claim Hn. unfold VerifyJoin, TrustStore_PublicKey. simpl. by rewrite Hn, Ek. }
  destruct (_ =? maxUint64); [split_and!; try done; intros [?|(? & [= <-] & ?)]; done|]. destruct (t_persist _ && _); [split_and!; try done; intros [?|(? & [= <-] & ?)]; done|].
  destruct (RevokeSubject _ _ _ n) as [policy r]. split_and!; try done. intros _ claim Hn. unfold VerifyJoin, TrustStore_PublicKey. simpl. by rewrite Hn, lookup_delete_eq.
Qed.
Lemma revoke_valid_ok r : ManagementRevoke_Validate r = Ok tt → js_ok r.
Proof.
  unfold ManagementRevoke_Validate. intros Hv. repeat (apply bind_ok in Hv as [? Hv]). repeat match goal with Hx : mapErr AField _ = Ok _ |- _ => apply mapErr_ok in Hx end.
  split; [by erewrite schemaVersion_ok by done; apply one_i64|]. repeat (apply Forall_cons_2; [unfold valid; solve [eauto with mfh]|]). by apply Forall_nil_2.
Qed.

(** The node that applies a revocation: only for its authority, and when it answers, the node is barred. *)
Lemma applied_bars p pe caller request payload p' r :
  EncodeJSONPayload (A := ManagementRevokeV1) request DefaultMaxPayload = Ok payload → applyEnrollmentRevocation p (called_by pe caller) payload = (p', r) → is_ok r = true →
  let n := (ParseUint (mr_NodeID request)).1 in caller = mc_authorityNodeID p ∧ mc_id p' = mc_id p ∧ n ∈ mc_disconnected p' ∧ barred p' n.
Proof.
  intros He Ha Hr n. pose proof (encoded_valid _ _ _ He) as (Hv & _). unfold applyEnrollmentRevocation, with_request in Ha. rewrite (payload_roundtrip _ _ _ (revoke_valid_ok _ Hv) He) in Ha.
  case_bool_decide as Hc; cbn [negb] in Ha; [|by injection Ha as <- <-]. injection Hc as Hc. split; [done|]. fold n in Ha.
  pose proof (RevokeNode_bars p (called_by pe caller) n) as Hb. destruct (RevokeNode p (called_by pe caller) n) as [q [u|err]].
  - injection Ha as <- <-. destruct Hb as (Hi & _ & Hb). split_and!; [done|apply elem_of_app; right; by apply list_elem_of_singleton|]. intros claim Hn. apply Hb; [by left|done].
  - destruct (untrusted err) eqn:Hu; injection Ha as <- <-; [|done]. destruct Hb as (Hi & _ & Hb).
    split_and!; [done|apply elem_of_app; right; by apply list_elem_of_singleton|]. intros claim Hn. apply Hb; [right; eauto|done].
Qed.

Section revocation.
Context (c : Controller) (e : Env) (a : EnrollmentAuthority) (t : Z).
Context (Hc : mc_authority c = Some a) (Ha : authority_ok a t) (Ho : en_enrollments e ≡ₚ map_to_list (d_enrollments (au_data a))).

(** The record that the command finds is that of the enrollment. *)
Lemma found_enrollment id record :
  head (filter (λ r, gr_EnrollmentID (es_Grant r) = id) (Enrollments a (en_enrollments e))) = Some record →
  d_enrollments (au_data a) !! id = Some record ∧ ∃ n, gr_NodeID (es_Grant record) = FormatUint n ∧ 0 < n ≤ maxUint64.
Proof.
  intros Hh. assert (record ∈ filter (λ r, gr_EnrollmentID (es_Grant r) = id) (Enrollments a (en_enrollments e))) as Hin.
  { destruct (filter _ _); [done|]. injection Hh as ->. by left. }
  apply list_elem_of_filter in Hin as [Hid Hin]. unfold Enrollments in Hin. rewrite elem_of_SortSlice, Ho in Hin. apply list_elem_of_fmap in Hin as ([k r] & -> & Hin%elem_of_map_to_list).
  cbn [snd] in *. destruct (do_enrollments _ _ _ _ (uo_data a t Ha) k r Hin) as (Hk & _ & _ & n & Hn & Hr & _). split; [by rewrite <- Hid, Hk|]. exists n. split; [done|]. unfold maxInt, maxUint64 in *. lia.
Qed.
Lemma RevokeEnrollment_done command id reason now saved a' n : RevokeEnrollment a command id reason now saved = (a', Ok n) →
  ∃ record record', d_enrollments (au_data a) !! id = Some record ∧ n = default 0 (parseEnrollmentNodeID (gr_NodeID (es_Grant record))) ∧
    d_enrollments (au_data a') !! id = Some record' ∧ es_Grant record' = es_Grant record ∧ es_Status record' = "revoked".
Proof.
  unfold RevokeEnrollment. match goal with |- context [match ?x with Ok _ => _ | Err e => (a, Err e) end] => destruct x as [[]|]; [|done] end. destruct (d_enrollments (au_data a) !! id) as [record|] eqn:Er; [|done].
  destruct (String.eqb_spec (es_Status record) "revoked").
  - intros [= <- <-]. by exists record, record.
  - match goal with |- context [Authority_commitLocked a ?d saved] => destruct (commit_cases a d saved) as [[err ->]|[_ ->]] end; [done|]. intros [= <- <-].
    exists record. eexists. split; [done|]. split; [done|]. split; [simpl; by rewrite lookup_insert_eq|done].
Qed.

(** C22. A revocation reaches the parent.  When the command that revokes an enrollment answers, the
    enrollment is revoked at the authority, with the grant it had, and the node that the
    grant names as the parent, be it the authority's node or another one that is reached,
    has been told by its own authority, dropped the connection and accepts no join claim of
    the revoked node any more. *)
Theorem revocation_reaches_parent (p : Controller) (pe : Env) (input output : list byte) (net' : ServiceLink) (c' : Controller) :
  revokeEnrollment (H0 := parent_link (mc_id c)) (mkServiceLink p pe) c e input = (net', (c', Ok output)) →
  ∃ request record n, DecodeJSONPayload input DefaultMaxPayload = Ok request ∧ d_enrollments (au_data a) !! ae_EnrollmentID request = Some record ∧
    gr_NodeID (es_Grant record) = FormatUint n ∧
    (∃ a' record', mc_authority c' = Some a' ∧ d_enrollments (au_data a') !! ae_EnrollmentID request = Some record' ∧ es_Status record' = "revoked" ∧
       es_Grant record' = es_Grant record) ∧
    let parent := (ParseUint (gr_ParentNodeID (es_Grant record))).1 in
    (parent ≠ mc_id c → mc_authorityNodeID p = mc_id c) ∧
    let q := if parent =? mc_id c then c' else sl_controller net' in
    mc_id q = parent ∧ n ∈ mc_disconnected q ∧ barred q n.
Proof.
  unfold revokeEnrollment. destruct (DecodeJSONPayload input DefaultMaxPayload) as [request|] eqn:Ed; [|done]. rewrite Hc.
  destruct (head _) as [record|] eqn:Eh; [|done]. apply found_enrollment in Eh as (Hr & n & Hn & Hn'). set (parent := (ParseUint _).1).
  destruct (RevokeEnrollment a _ _ _ _ _) as [a' r] eqn:Er. destruct r as [n'|]; [|done].
  apply RevokeEnrollment_done in Er as (r0 & record' & Hr0 & -> & Hr' & Hg & Hs). rewrite Hr in Hr0. injection Hr0 as <-. rewrite Hn, parse_FormatUint by done. cbn [default from_option id].
  match goal with |- context [auditAdmissionOutcome (with_authority c a') e ?x ?y ?z ?w] => pose proof (audited_authority c e a' x y z w) as Hau; set (c1 := auditAdmissionOutcome _ _ x y z w) in * end.
  destruct Hau as (Hi & _ & Hau & _). rewrite Hi. intros Hrev. exists request, record, n. split; [done|]. split; [done|]. split; [done|]. cbv zeta. fold parent.
  destruct (Z.eqb_spec parent (mc_id c)) as [Hp|Hp].
  - pose proof (RevokeNode_bars c1 e n) as Hb. destruct (RevokeNode c1 e n) as [q [u|err]].
    + injection Hrev as <- <- _. destruct Hb as (Hq & Hqa & Hb). split; [exists a', record'; simpl; by rewrite Hqa|]. split; [done|].
      split; [simpl; congruence|]. split; [apply elem_of_app; right; by apply list_elem_of_singleton|]. intros claim Hcl. apply Hb; [by left|done].
    + destruct (untrusted err) eqn:Hu; [|done]. injection Hrev as <- <- _. destruct Hb as (Hq & Hqa & Hb). split; [exists a', record'; simpl; by rewrite Hqa|]. split; [done|].
      split; [simpl; congruence|]. split; [apply elem_of_app; right; by apply list_elem_of_singleton|]. intros claim Hcl. apply Hb; [right; eauto|done].
  - destruct (EncodeJSONPayload _ DefaultMaxPayload) as [payload|] eqn:He; [|done]. unfold parent_link, Invoke, ServiceLink_Invoke in Hrev. cbn [sl_controller sl_env r_Name r_Owner] in Hrev.
    unfold admission_handlers in Hrev. destruct (mc_authorityNodeID p =? 0) eqn:Ez.
    { destruct (mc_authority p); simpl in Hrev; done. }
    simpl in Hrev. destruct (Z.eqb_spec parent (mc_id p)) as [Hpp|]; [|done]. cbn [negb] in Hrev. cbn iota in Hrev.
    destruct (applyEnrollmentRevocation p (called_by pe (mc_id c)) payload) as [p' x] eqn:Ea. destruct x as [out|]; [|done]. cbn [mapErr] in Hrev. injection Hrev as <- <- _.
    apply (applied_bars p pe (mc_id c) _ payload p' (Ok out) He) in Ea; [|done]. cbn [mr_NodeID] in Ea. rewrite ParseUint_FormatUint in Ea by (unfold is_u64; lia). cbn [fst] in Ea. destruct Ea as (E1 & E2 & E3 & E4).
    split; [by exists a', record'|]. split; [done|]. simpl. split_and!; [congruence|done|done].
Qed.
End revocation.

(** A revocation whose policy could not be saved: the trust is gone, so repeating the call is
    answered, and the policy of the node stays as it is. *)
Lemma retried_revocation p pe caller request payload :
  EncodeJSONPayload (A := ManagementRevokeV1) request DefaultMaxPayload = Ok payload → caller = mc_authorityNodeID p →
  let n := (ParseUint (mr_NodeID request)).1 in n ≠ mc_id p → NodeID_Validate n = Ok tt → TrustStore_PublicKey (mc_trust p) n = None →
  applyEnrollmentRevocation p (called_by pe caller) payload = (DisconnectPeer p n, managementOK).
Proof.
  intros He Hc n Hn Hv Ht. pose proof (encoded_valid _ _ _ He) as (Hval & _). unfold applyEnrollmentRevocation, with_request. rewrite (payload_roundtrip _ _ _ (revoke_valid_ok _ Hval) He).
  rewrite bool_decide_eq_true_2 by (simpl; by rewrite Hc). cbn [negb]. fold n. unfold RevokeNode. rewrite (proj2 (Z.eqb_neq _ _)) by done. unfold TrustStore_Revoke. rewrite Hv.
  unfold TrustStore_PublicKey in Ht. rewrite Ht. cbn [untrusted]. by destruct p.
Qed.
End remote.

(** ** A parent 7 with the authority 9 *)

Module Remote_demo.
Definition text (e : service_error) : string := "refused".
Definition controller (a : EnrollmentAuthority) (trust : TrustStore) : Controller :=
  mkController 9 (mkAdmission (Toy.identity 9) Hour 10 1 ∅ None) (Some a) 9 trust Listing_demo.policy (NewAuditLog 0) [].
Definition authority : Controller := controller Enroll_demo.a1 (Toy.trust 7).
Definition env (a : EnrollmentAuthority) : Env :=
  mkEnv None (Enroll_demo.at_ 6) (Enroll_demo.at_ 6) (Enroll_demo.at_ 6) (Enroll_demo.random 50 60) None [] (Enroll_demo.order a)
    (map_to_list (d_enrollments (au_data a))) true true true true.
Definition broker : RemoteBroker ServiceLink := parent_broker authority (env Enroll_demo.a1) (i_PublicKey (au_identity Enroll_demo.a1)).
Definition submitted : EnrollmentAuthority * result authority_error EnrollmentOutcome :=
  Submit Enroll_demo.a1 Handshake_demo.submission (Enroll_demo.order Enroll_demo.a1) (Enroll_demo.random 50 60) (Enroll_demo.at_ 6) true.
Definition request : list byte := from_ok [] (submission_payload Handshake_demo.submission).
End Remote_demo.

Lemma demo_remote_request : submission_payload Handshake_demo.submission = Ok Remote_demo.request.
Proof. vm_compute. reflexivity. Qed.
Lemma demo_remote_outcome : match Remote_demo.submitted.2 with
  | Ok o => String.eqb (oc_Reason o) "" && (blen (json_Marshal (outcome_result o)) <=? EnrollmentMaxPayload)
  | Err _ => false
  end = true.
Proof. vm_compute. reflexivity. Qed.
Lemma demo_remote_permit : ∀ p, sb_Permit Handshake_demo.submission = Some p → permit_ints p.
Proof. apply permit_ints_check. vm_compute. reflexivity. Qed.
Lemma demo_env_i64 a : is_i64 (UnixMilli (en_now (Remote_demo.env a))).
Proof. change (is_i64 (UnixMilli (Enroll_demo.at_ 6))). vm_compute. split; congruence. Qed.
Lemma demo_authority_id : mc_id Remote_demo.authority = i_NodeID (au_identity Enroll_demo.a1).
Proof. vm_compute. reflexivity. Qed.
Lemma demo_with_permit : is_Some (op_Permit Handshake_demo.options).
Proof. vm_compute. eauto. Qed.
Lemma demo_env_order : en_requests (Remote_demo.env Enroll_demo.a1) ≡ₚ map_to_list (d_requests (submit_data Enroll_demo.a1 (en_now (Remote_demo.env Enroll_demo.a1)))).
Proof.
  cbn [en_requests en_now Remote_demo.env]. apply order_of_none. vm_compute. reflexivity.
Qed.
Lemma demo_parent_u64 : is_u64 (sb_ParentNodeID Handshake_demo.submission).
Proof. vm_compute. split; congruence. Qed.
Lemma demo_parent_trusted : TrustStore_PublicKey (mc_trust Remote_demo.authority) (sb_ParentNodeID Handshake_demo.submission) = Some (sb_ParentPublicKey Handshake_demo.submission).
Proof. vm_compute. reflexivity. Qed.
Lemma demo_a1_later : authority_ok Enroll_demo.a1 (UnixMilli (Enroll_demo.at_ 6)).
Proof. apply (authority_ok_later _ 5000 _ demo_a1_ok). vm_compute. congruence. Qed.

Lemma remote_submission_witness :
  ∃ b o, parent_submit Remote_demo.text (sb_ParentNodeID Handshake_demo.submission) Remote_demo.broker Handshake_demo.submission = (b, Ok o) ∧
    Remote_demo.submitted.2 = Ok o.
Proof.
  pose proof (remote_submission Remote_demo.text Remote_demo.authority (Remote_demo.env Enroll_demo.a1) Enroll_demo.a1 Handshake_demo.submission Remote_demo.request eq_refl
    demo_authority_id) as Hr.
  specialize (Hr demo_a1_later (demo_env_i64 _) demo_env_order demo_parent_u64 demo_remote_permit demo_remote_request demo_parent_trusted).
  cbv zeta in Hr. pose proof demo_remote_outcome as Ho. change (Submit Enroll_demo.a1 _ _ _ _ _) with Remote_demo.submitted in Hr. destruct Remote_demo.submitted as [a' r].
  destruct Hr as (c' & _ & _ & Hr). cbn [snd] in *. destruct r as [o|]; [|discriminate Ho]. apply andb_true_iff in Ho as [Ho1 Ho2]. apply String.eqb_eq in Ho1. apply Z.leb_le in Ho2.
  eexists _, o. split; [|reflexivity]. refine (Hr o eq_refl _). split; [rewrite Ho1; vm_compute; reflexivity|exact Ho2].
Defined.

Lemma remote_enrollment_completes_witness :
  let _ := remote_broker Remote_demo.text 7 in
  ∃ res h, run_session (λ _, "refused") Handshake_demo.server NewTrustStore (Toy.device 5) Handshake_demo.options None Handshake_demo.nonce (Enroll_demo.at_ 6) (Enroll_demo.at_ 7)
             (Enroll_demo.at_ 6) true Remote_demo.broker = Ok (res, h) ∧
    cr_Identity res = Some (mkIdentity 50 (be_bytes 32 5) (Toy.private 5)).
Proof.
  assert (size (d_requests (au_data Enroll_demo.a1)) = 0%nat) as Hz by (vm_compute; reflexivity).
  destruct (Submit Enroll_demo.a1 Handshake_demo.submission (Enroll_demo.order Enroll_demo.a1) (Enroll_demo.random 50 60) (Enroll_demo.at_ 6) true) as [a' r] eqn:Es.
  pose proof demo_granted_node as Hg. rewrite Es in Hg. destruct r as [outcome|e]; [|discriminate Hg]. change (gr_NodeID <$> oc_Grant outcome = Some (FormatUint 50)) in Hg.
  pose proof (remote_enrollment_completes Remote_demo.text (λ _, "refused") Handshake_demo.server NewTrustStore (Toy.device 5) Handshake_demo.options None Handshake_demo.nonce (Enroll_demo.at_ 6)
      (Enroll_demo.at_ 7) (Enroll_demo.at_ 6) true Remote_demo.authority (Remote_demo.env Enroll_demo.a1) Enroll_demo.a1 a' _ _ _ Remote_demo.request outcome eq_refl demo_authority_id eq_refl
      demo_parent_trusted demo_remote_request demo_session_ok) as Hc.
  specialize (Hc demo_with_permit (demo_env_i64 _) demo_env_order (no_requests _ _ _ Hz) Es). destruct Hc as (n & Hn & Hr & Hall).
  rewrite Hg in Hn. injection Hn as Hn. apply FormatUint_inj in Hn; [|vm_compute; split; congruence|unfold is_u64; lia]. subst n.
  destruct (Hall (TrustStore_Add NewTrustStore 50 (be_bytes 32 5) true).1 ltac:(vm_compute; reflexivity)) as ((res & h & c' & Hs & Hid & _) & _).
  exists res, h. split; [exact Hs|exact Hid].
Defined.

(** The enrollment of [Enroll_demo.a2] is revoked. *)
Module Revocation_demo.
Definition authority : Controller := Remote_demo.controller Enroll_demo.a2 (Toy.trust 7).
(** The parent trusts the enrolled node 50, and 9 is its authority. *)
Definition parent : Controller :=
  mkController 7 (mkAdmission (Toy.identity 7) Hour 10 1 ∅ None) None 9 (TrustStore_Add NewTrustStore 50 (be_bytes 32 5) true).1 Listing_demo.policy (NewAuditLog 0) [].
Definition env : Env := Remote_demo.env Enroll_demo.a2.
Definition input : list byte :=
  from_ok [] (EncodeJSONPayload (mkAdmissionRevokeEnrollment SchemaVersionV1 (Enroll_demo.hex 3) (Enroll_demo.hex 1050) "lost") DefaultMaxPayload).
Definition answered : ServiceLink * (Controller * result service_error (list byte)) :=
  revokeEnrollment (H0 := parent_link Remote_demo.text 9) (mkServiceLink parent env) authority env input.
End Revocation_demo.
Lemma demo_a2_ok : authority_ok Enroll_demo.a2 6000.
Proof.
  destruct demo_granted as [log Hh]. refine (proj1 (history_ind_refines (λ _ _, True) _ _ _ _ _ Hh _ Z.lt_0_1 I (λ _ _ _ _ _ _ _ _ _ _, I))).
  exact (proj1 (fresh_authority _ _ _ _ demo_loaded 1)).
Qed.
Lemma demo_revoked : is_ok Revocation_demo.answered.2.2 = true.
Proof. vm_compute. reflexivity. Qed.
Lemma forallb_lookup {A} (f : A → bool) (m : gmap string A) id r : forallb (λ kv, f kv.2) (map_to_list m) = true → m !! id = Some r → f r = true.
Proof. intros Hp Hr. rewrite forallb_forall in Hp. apply (Hp (id, r)), list_elem_of_In. by apply elem_of_map_to_list. Qed.
Lemma demo_parents : forallb (λ kv, (ParseUint (gr_ParentNodeID (es_Grant kv.2))).1 =? 7) (map_to_list (d_enrollments (au_data Enroll_demo.a2))) = true.
Proof. vm_compute. reflexivity. Qed.
Lemma demo_parent_of id record : d_enrollments (au_data Enroll_demo.a2) !! id = Some record → (ParseUint (gr_ParentNodeID (es_Grant record))).1 = 7.
Proof. intros Hr. apply Z.eqb_eq. exact (forallb_lookup (λ e, (ParseUint (gr_ParentNodeID (es_Grant e))).1 =? 7) _ id record demo_parents Hr). Qed.
Lemma revocation_reaches_parent_witness :
  ∃ n, mc_id (sl_controller Revocation_demo.answered.1) = 7 ∧ n ∈ mc_disconnected (sl_controller Revocation_demo.answered.1) ∧ barred (sl_controller Revocation_demo.answered.1) n.
Proof.
  pose proof demo_revoked as Hok. destruct Revocation_demo.answered as [net' [c' [output|]]] eqn:E; [|discriminate Hok].
  destruct (revocation_reaches_parent Remote_demo.text Revocation_demo.authority Revocation_demo.env Enroll_demo.a2 6000 eq_refl demo_a2_ok (reflexivity _) Revocation_demo.parent
    Revocation_demo.env Revocation_demo.input output net' c' E) as (request & record & n & _ & Hr & _ & _ & _ & Hq).
  rewrite (demo_parent_of _ _ Hr) in Hq. exists n. exact Hq.
Defined.
