(* ===== verification/Join.v ===== *)
(** * Joining a parent (runtime/node/connection.go and wire.go)

    The JSON of join claims and acknowledgements, and the decisions of both ends of a join as
    functions of the frame that the other one sent. *)

From S2P Require Import Prelude GoStd GoSort GoEncoding GoJSON GoFloat GoStruct Wire Codec EnrollmentWire Payload EnrollmentPayload AdmissionSchema Identity Admission Tree.
Open Scope Z_scope.

(** ** JSON of byte arrays *)

(** A [32]byte: elements beyond the array are skipped, missing ones become zero. *)
Definition array_any (l : list byte) : any := AArray (int_any ∘ bval <$> l).
Definition assign_array {A} (n : nat) (get : A → list byte) (set : A → list byte → A) : assignment A :=
  λ a v, match v with
         | ANull => Some a
         | AArray l => set a <$> ((λ bs, bs ++ replicate (n - length bs) x00) <$> decode_bytes (get a) (take n l))
         | _ => None
         end.
Lemma decode_bytes_any l : ∀ old, decode_bytes old (int_any ∘ bval <$> l) = Some l.
Proof.
  induction l as [|b l IH]; intros old; [done|]. rewrite fmap_cons. change ((int_any ∘ bval) b) with (ANumber (string_of (json_int (bval b)))). cbn [decode_bytes]. pose proof (bval_range b) as Hb.
  unfold json_int at 1. rewrite (proj2 (Z.ltb_ge (bval b) 0)) by lia. rewrite string_of_code, ParseUint_FormatUint by (unfold is_u64, maxUint64; lia). rewrite (proj2 (Z.leb_le _ _)) by lia.
  cbn [andb mbind option_bind]. by rewrite byte_of_bval, IH.
Qed.
Lemma assign_array_any {A} n get (set : A → list byte → A) a l : length l = n → assign_array n get set a (array_any l) = Some (set a l).
Proof.
  intros <-. unfold assign_array, array_any. rewrite take_ge by (by rewrite length_fmap). rewrite decode_bytes_any. cbn [fmap option_fmap option_map]. by rewrite Nat.sub_diag, app_nil_r.
Qed.
Lemma array_text l : json_ok (array_any l) = true ∧ nesting (array_any l) ≤ 1.
Proof.
  split; cbn [array_any json_ok nesting].
  - apply forallb_forall. intros v Hv%list_elem_of_In. apply list_elem_of_fmap in Hv as (b & -> & _). pose proof (bval_range b). apply int_any_ok. right. unfold is_u64, maxUint64. lia.
  - induction l as [|b l IH]; cbn [fmap list_fmap foldr]; [done|]. unfold compose at 1, int_any at 1. cbn [nesting]. lia.
Qed.
Lemma Std_ascii l : ascii (Std_EncodeToString l).
Proof.
  unfold ascii, code, Std_EncodeToString. rewrite bytes_of_string_of, fmap_app. apply Forall_app. split.
  - pose proof (RawStd_roundtrip l) as Hr. unfold RawStd_EncodeToString in Hr. apply RawStd_ascii in Hr. unfold ascii, code in Hr. by rewrite bytes_of_string_of in Hr.
  - unfold padding. apply Forall_fmap, Forall_replicate. by vm_compute.
Qed.
Lemma bytes_text l : json_ok (bytes_any l) = true ∧ nesting (bytes_any l) ≤ 0.
Proof. destruct l as [|b l]; [done|]. split; [|done]. apply ascii_valid, Std_ascii. Qed.

(** ** Claims and acknowledgements *)

Definition claim_zero : JoinClaim := mkJoinClaim 0 [] (replicate 32 x00) 0 None [].
Definition claim_spec : list (string * assignment JoinClaim) :=
  [("node_id", assign_uint (λ c x, mkJoinClaim x (jc_PublicKey c) (jc_Nonce c) (jc_TopologyEpoch c) (jc_Permit c) (jc_Signature c)));
   ("public_key", assign_bytes jc_PublicKey (λ c x, mkJoinClaim (jc_NodeID c) x (jc_Nonce c) (jc_TopologyEpoch c) (jc_Permit c) (jc_Signature c)));
   ("nonce", assign_array 32 jc_Nonce (λ c x, mkJoinClaim (jc_NodeID c) (jc_PublicKey c) x (jc_TopologyEpoch c) (jc_Permit c) (jc_Signature c)));
   ("topology_epoch", assign_uint (λ c x, mkJoinClaim (jc_NodeID c) (jc_PublicKey c) (jc_Nonce c) x (jc_Permit c) (jc_Signature c)));
   ("permit", assign_pointer provisioning_permit_spec provisioning_permit_zero jc_Permit (λ c x, mkJoinClaim (jc_NodeID c) (jc_PublicKey c) (jc_Nonce c) (jc_TopologyEpoch c) x (jc_Signature c)));
   ("signature", assign_bytes jc_Signature (λ c x, mkJoinClaim (jc_NodeID c) (jc_PublicKey c) (jc_Nonce c) (jc_TopologyEpoch c) (jc_Permit c) x))].
Definition claim_fields (c : JoinClaim) : list (string * any) :=
  member "node_id" (int_any (jc_NodeID c)) ++ member "public_key" (bytes_any (jc_PublicKey c)) ++ member "nonce" (array_any (jc_Nonce c)) ++
  member "topology_epoch" (int_any (jc_TopologyEpoch c)) ++ field_opt "permit" (λ p, AObject (provisioning_permit_fields p)) (jc_Permit c) ++
  member "signature" (bytes_any (jc_Signature c)).
#[global] Instance claim_json : JSONStruct JoinClaim := {| js_zero := claim_zero; js_spec := claim_spec; js_fields := claim_fields |}.

Definition ack_zero : JoinAck := mkJoinAck 0 0 (replicate 32 x00) 0 [].
Definition ack_spec : list (string * assignment JoinAck) :=
  [("node_id", assign_uint (λ a x, mkJoinAck x (ja_ChildID a) (ja_ChildNonce a) (ja_TopologyEpoch a) (ja_Signature a)));
   ("child_id", assign_uint (λ a x, mkJoinAck (ja_NodeID a) x (ja_ChildNonce a) (ja_TopologyEpoch a) (ja_Signature a)));
   ("child_nonce", assign_array 32 ja_ChildNonce (λ a x, mkJoinAck (ja_NodeID a) (ja_ChildID a) x (ja_TopologyEpoch a) (ja_Signature a)));
   ("topology_epoch", assign_uint (λ a x, mkJoinAck (ja_NodeID a) (ja_ChildID a) (ja_ChildNonce a) x (ja_Signature a)));
   ("signature", assign_bytes ja_Signature (λ a x, mkJoinAck (ja_NodeID a) (ja_ChildID a) (ja_ChildNonce a) (ja_TopologyEpoch a) x))].
Definition ack_fields (a : JoinAck) : list (string * any) :=
  member "node_id" (int_any (ja_NodeID a)) ++ member "child_id" (int_any (ja_ChildID a)) ++ member "child_nonce" (array_any (ja_ChildNonce a)) ++
  member "topology_epoch" (int_any (ja_TopologyEpoch a)) ++ member "signature" (bytes_any (ja_Signature a)).
#[global] Instance ack_json : JSONStruct JoinAck := {| js_zero := ack_zero; js_spec := ack_spec; js_fields := ack_fields |}.

(** wire.go: [decodeJSON] is strict, and [encodeJSON] of these structs cannot fail. *)
Definition encodeJSON `{JSONStruct A} (value : A) : list byte := json_Marshal value.
Definition decodeJSON `{JSONStruct A} (data : list byte) : option A := match data with [] => None | _ => json_Unmarshal data end.

(** The claims and acknowledgements that JSON keeps. *)
Definition claim_ok (c : JoinClaim) : Prop :=
  is_u64 (jc_NodeID c) ∧ length (jc_Nonce c) = 32%nat ∧ is_u64 (jc_TopologyEpoch c) ∧ (∀ p, jc_Permit c = Some p → js_ok p).
Definition ack_ok (a : JoinAck) : Prop := is_u64 (ja_NodeID a) ∧ is_u64 (ja_ChildID a) ∧ length (ja_ChildNonce a) = 32%nat ∧ is_u64 (ja_TopologyEpoch a).

Ltac find_bytes := lazy -[assign_int assign_uint assign_string assign_bool assign_pointer assign_bytes assign_array replicate]; reflexivity.
Lemma assign_permit {A} get (set : A → option ProvisioningPermitV1 → A) a p :
  get a = None → js_ok p → assign_pointer provisioning_permit_spec provisioning_permit_zero get set a (AObject (provisioning_permit_fields p)) = Some (set a (Some p)).
Proof. exact (assign_pointer_any (B := ProvisioningPermitV1) get set a p). Qed.
Ltac assign_any :=
  first [by apply assign_uint_any | apply assign_bytes_any | by apply assign_array_any | apply assign_permit; [reflexivity|by auto]].
Lemma text_one name v : json_ok v = true → ValidString name = true → Forall (λ kv : string * any, ValidString kv.1 = true ∧ json_ok kv.2 = true) (member name v).
Proof. intros Hv Hn. by apply Forall_singleton. Qed.
#[global] Program Instance claim_value : JSONValue JoinClaim := {| js_ok := claim_ok |}.
Next Obligation.
  intros c (H1 & H2 & H3 & H4). change (js_fields c) with (claim_fields c). unfold claim_fields. split.
  - apply members_ok. rewrite !Forall_app. split_and!; try (apply text_one; [|done]); [by apply int_any_ok; right|apply bytes_text|apply array_text|by apply int_any_ok; right| |apply bytes_text].
    destruct (jc_Permit c) as [p|]; [|done]. apply Forall_singleton. split; [done|]. exact (proj1 (js_text p (H4 p eq_refl))).
  - pose proof (proj2 (bytes_text (jc_PublicKey c))). pose proof (proj2 (bytes_text (jc_Signature c))). pose proof (proj2 (array_text (jc_Nonce c))). unfold member, maxNestingDepth.
    destruct (jc_Permit c) as [p|]; cbn [field_opt app nesting foldr snd int_any]; [|lia]. 
    assert (nesting (AObject (provisioning_permit_fields p)) = 1) as Hp by reflexivity. cbn [nesting] in Hp. lia.
Qed.
Next Obligation.
  intros c (H1 & H2 & H3 & H4). change (decode_members claim_spec claim_zero (claim_fields c) = Some c). unfold claim_fields, member. destruct (jc_Permit c) as [p|] eqn:Ep.
  all: cbn [field_opt app]; repeat (erewrite decode_step; [|find_bytes|assign_any]); cbn [decode_members]; destruct c; simpl in *; by subst.
Qed.
#[global] Program Instance ack_value : JSONValue JoinAck := {| js_ok := ack_ok |}.
Next Obligation.
  intros a (H1 & H2 & H3 & H4). change (js_fields a) with (ack_fields a). unfold ack_fields. split.
  - apply members_ok. rewrite !Forall_app. split_and!; apply text_one; try done; first [by apply int_any_ok; right|apply bytes_text|apply array_text].
  - pose proof (proj2 (bytes_text (ja_Signature a))). pose proof (proj2 (array_text (ja_ChildNonce a))). unfold member, maxNestingDepth. cbn [app nesting foldr snd int_any]. lia.
Qed.
Next Obligation.
  intros a (H1 & H2 & H3 & H4). change (decode_members ack_spec ack_zero (ack_fields a) = Some a). unfold ack_fields, member.
  cbn [app]; repeat (erewrite decode_step; [|find_bytes|assign_any]); cbn [decode_members]; destruct a; simpl in *; by subst.
Qed.
Lemma decode_encodeJSON `{JSONValue A} (a : A) : js_ok a → decodeJSON (encodeJSON a) = Some a.
Proof.
  intros Ha. destruct (js_text a Ha) as [Ht Hn]. pose proof (json_roundtrip a Ht Hn (js_members a Ha)) as Hr. unfold decodeJSON, encodeJSON.
  destruct (json_Marshal a) eqn:E; [unfold json_Marshal in E; by simpl in E|exact Hr].
Qed.

(** The payload of route events. *)
Record routePayload := mkRoute { rp_Node : NodeID; rp_Parent : NodeID }.
Definition route_spec : list (string * assignment routePayload) :=
  [("node", assign_uint (λ r x, mkRoute x (rp_Parent r))); ("parent", assign_uint (λ r x, mkRoute (rp_Node r) x))].
Definition route_fields (r : routePayload) : list (string * any) := member "node" (int_any (rp_Node r)) ++ member "parent" (int_any (rp_Parent r)).
#[global] Instance route_json : JSONStruct routePayload := {| js_zero := mkRoute 0 0; js_spec := route_spec; js_fields := route_fields |}.
Definition route_ok (r : routePayload) : Prop := is_u64 (rp_Node r) ∧ is_u64 (rp_Parent r).
#[global] Program Instance route_value : JSONValue routePayload := {| js_ok := route_ok |}.
Next Obligation.
  intros r (H1 & H2). change (js_fields r) with (route_fields r). unfold route_fields. split; [|by vm_compute].
  apply members_ok. rewrite !Forall_app. split; apply text_one; try done; by apply int_any_ok; right.
Qed.
Next Obligation.
  intros r (H1 & H2). change (decode_members route_spec (mkRoute 0 0) (route_fields r) = Some r). unfold route_fields, member.
  cbn [app]; repeat (erewrite decode_step; [|find_bytes|assign_any]); cbn [decode_members]; destruct r; simpl in *; by subst.
Qed.

(** ** The frames and the decisions *)

Inductive join_error := JFrame | JPayload | JSource | JMismatch | JAuth (e : auth_failure) | JEpoch.

Section join.
Context `{Crypto}.

(** The claim of [ConnectParent] at a state of the tree. *)
Definition make_claim (i : Identity) (permit : option ProvisioningPermitV1) (t : Tree.State) (nonce : option (list byte)) : result auth_failure JoinClaim :=
  match permit with None => NewJoinClaim i (NextEpoch t) nonce | Some p => NewJoinClaimWithPermit i (NextEpoch t) p nonce end.
Definition join_frame (self expectedParent : NodeID) (id : MessageID) (claim : JoinClaim) : Envelope :=
  mkEnvelope CurrentVersion PhaseRequest OperationJoin id 0 self 0 expectedParent zeroResourceID 0 0 "application/json" "join.v1" "" (encodeJSON claim).

(** [acceptChild] up to the check of the trust store. *)
Definition check_join (self : NodeID) (request : Envelope) : result join_error JoinClaim :=
  fail_if negb (e_Operation request =? OperationJoin) || negb (e_Phase request =? PhaseRequest) || negb (e_Target request =? self) with JFrame ;;
  match decodeJSON request.(e_Payload) with
  | None => Err JPayload
  | Some claim => fail_if negb (jc_NodeID claim =? e_Source request) with JSource ;; Ok claim
  end.
(** Whether a claim that the trust store refused goes to the admission. *)
Definition by_permit (e : auth_failure) (admission : bool) (claim : JoinClaim) : bool :=
  match e with ErrUntrustedIdentity => admission && bool_decide (is_Some (jc_Permit claim)) && is_ok (VerifyJoinClaim claim) | _ => false end.
Definition ack_frame (self : NodeID) (request : Envelope) (child : NodeID) (id : MessageID) (ack : JoinAck) : Envelope :=
  mkEnvelope CurrentVersion PhaseResponse OperationJoinAck id (e_MessageID request) self 0 child zeroResourceID 0 0 "application/json" "join-ack.v1" "" (encodeJSON ack).

(** [ConnectParent] on the answer: the epoch of the new edge. *)
Definition check_ack (trust : TrustStore) (self expectedParent : NodeID) (id : MessageID) (claim : JoinClaim) (response : Envelope) : result join_error Z :=
  fail_if negb (e_Operation response =? OperationJoinAck) || negb (e_CorrelationID response =? id) || negb (e_Source response =? expectedParent)
       || negb (e_Target response =? self) with JMismatch ;;
  match decodeJSON response.(e_Payload) with
  | None => Err JPayload
  | Some ack =>
    _ ← mapErr JAuth (VerifyJoinAck trust ack expectedParent self (jc_Nonce claim));
    fail_if negb (ja_TopologyEpoch ack =? jc_TopologyEpoch claim) with JEpoch ;;
    Ok (ja_TopologyEpoch ack)
  end.
End join.
