(* ===== verification/Connection.v ===== *)
(** * Connections of a node (runtime/node/connection.go, node.go, routing.go)

    A node accepts children, connects to a parent and runs a goroutine for every session; all of
    them share the tree, the table of sessions, the trust store and the admission.  One step
    is one section under a mutex or one frame.  Link sessions are what the node sees of them:
    new, active or closed; which frames arrive, and whether a frame is accepted for sending,
    is chosen by the environment, so that peers need not be honest. *)

From S2P Require Import Prelude GoStd GoStruct Payload Wire EnrollmentWire Identity Admission Tree Policy Node Join.
Open Scope Z_scope.

Inductive LinkState := LinkNew | LinkActive | LinkClosed.
#[global] Instance LinkState_eq_dec : EqDecision LinkState.
Proof. solve_decision. Defined.

(** A peerSession object; [cn_link] is its link session. *)
Record connection := mkConnection { cn_peer : NodeID; cn_role : Role; cn_epoch : Z; cn_link : Z }.
#[global] Instance connection_eq_dec : EqDecision connection.
Proof. solve_decision. Defined.
Definition linkID (c : connection) : string :=
  match cn_role c with RoleParent => "parent:" | RoleChild => "child:" end +:+ FormatUint (cn_peer c) +:+ ":" +:+ FormatUint (cn_epoch c).

(** An event that was sent to the parent: an announcement of a node below another one, or a withdrawal. *)
Inductive route_event := Announced (node parent : NodeID) | Withdrawn (node : NodeID).

(** Where a goroutine is. *)
Inductive thread :=
(* acceptChild *)
| TAccept (l : Z)
| TVerify (l : Z) (request : Envelope) (claim : JoinClaim)
| TConsume (l : Z) (request : Envelope) (claim : JoinClaim)
| TAdd (l : Z) (request : Envelope) (claim : JoinClaim)
| TAttach (l : Z) (request : Envelope) (claim : JoinClaim)
| TReattach (l : Z) (request : Envelope) (claim : JoinClaim)
| TActivate (l : Z) (request : Envelope) (claim : JoinClaim) (reattached : bool)
| TRegister (l : Z) (request : Envelope) (claim : JoinClaim) (reattached : bool) (ack : JoinAck)
| TUndo (l : Z) (child : NodeID) (epoch : Z) (reattached : bool)
| TUndoClose (l : Z) (child : NodeID) (removed : list NodeID)
(* route events, and then the end, or the loop of a session *)
| TSend (events : list route_event) (next : option connection)
(* runSession *)
| TRun (c : connection)
| TEnded (c : connection)
| TRemove (c : connection)
(* ConnectParent *)
| TJoin (l : Z) (parent : NodeID) (id : MessageID) (claim : JoinClaim)
| TParent (l : Z) (parent : NodeID) (epoch : Z)
| TParentActivate (l : Z) (parent : NodeID) (epoch : Z)
| TParentRegister (l : Z) (parent : NodeID) (epoch : Z)
| TParentStart (l : Z) (parent : NodeID) (epoch : Z) (replaced : list Z)
| THeartbeat (c : connection)
| TDetach (c : connection)
| TCloseParents (l : Z)
| TSignal
(* go session.Close() *)
| TClose (l : Z).

(** [k_up] are the route events that the parent was sent, [k_sent] the frames of joins by link. *)
Record conns := mkConns {
  k_tree : Tree.State; k_trust : TrustStore; k_admission : option Admission;
  k_sessions : gmap NodeID connection; k_links : gmap Z LinkState; k_parentGeneration : Z; k_closed : bool;
  k_threads : gmap nat thread; k_up : list route_event; k_sent : list (Z * Envelope)
}.
Definition set_tree (k : conns) x := mkConns x (k_trust k) (k_admission k) (k_sessions k) (k_links k) (k_parentGeneration k) (k_closed k) (k_threads k) (k_up k) (k_sent k).
Definition set_trust (k : conns) x := mkConns (k_tree k) x (k_admission k) (k_sessions k) (k_links k) (k_parentGeneration k) (k_closed k) (k_threads k) (k_up k) (k_sent k).
Definition set_admission (k : conns) x := mkConns (k_tree k) (k_trust k) x (k_sessions k) (k_links k) (k_parentGeneration k) (k_closed k) (k_threads k) (k_up k) (k_sent k).
Definition set_sessions (k : conns) x := mkConns (k_tree k) (k_trust k) (k_admission k) x (k_links k) (k_parentGeneration k) (k_closed k) (k_threads k) (k_up k) (k_sent k).
Definition set_links (k : conns) x := mkConns (k_tree k) (k_trust k) (k_admission k) (k_sessions k) x (k_parentGeneration k) (k_closed k) (k_threads k) (k_up k) (k_sent k).
Definition set_threads (k : conns) x := mkConns (k_tree k) (k_trust k) (k_admission k) (k_sessions k) (k_links k) (k_parentGeneration k) (k_closed k) x (k_up k) (k_sent k).
Definition set_up (k : conns) x := mkConns (k_tree k) (k_trust k) (k_admission k) (k_sessions k) (k_links k) (k_parentGeneration k) (k_closed k) (k_threads k) x (k_sent k).
Definition send (l : Z) (e : Envelope) (k : conns) := mkConns (k_tree k) (k_trust k) (k_admission k) (k_sessions k) (k_links k) (k_parentGeneration k) (k_closed k) (k_threads k) (k_up k) (k_sent k ++ [(l, e)]).
Definition set_generation (k : conns) x := mkConns (k_tree k) (k_trust k) (k_admission k) (k_sessions k) (k_links k) x (k_closed k) (k_threads k) (k_up k) (k_sent k).
Definition set_closed (k : conns) := mkConns (k_tree k) (k_trust k) (k_admission k) (k_sessions k) (k_links k) (k_parentGeneration k) true (k_threads k) (k_up k) (k_sent k).

(** What the rest of the node sees of a session, and the table for [Node.routeEnvelope]. *)
Definition peer_session (k : conns) (c : connection) : peerSession :=
  mkPeerSession (cn_peer c) (cn_role c) (cn_epoch c) (linkID c) (bool_decide (k_links k !! cn_link c = Some LinkActive)).
Definition node_sessions (k : conns) : gmap NodeID peerSession := peer_session k <$> k_sessions k.

Definition spawn (t : thread) (m : gmap nat thread) : gmap nat thread := <[fresh (dom m) := t]> m.
Definition goto (tid : nat) (t : thread) (k : conns) : conns := set_threads k (<[tid := t]> (k_threads k)).
Definition finish (tid : nat) (k : conns) : conns := set_threads k (delete tid (k_threads k)).
Definition start (t : thread) (k : conns) : conns := set_threads k (spawn t (k_threads k)).
Definition close_link (l : Z) (k : conns) : conns := set_links k (<[l := LinkClosed]> (k_links k)).
(** [session.Close()], and the end of the goroutine. *)
Definition drop (tid : nat) (l : Z) (k : conns) : option conns := Some (finish tid (close_link l k)).
Definition is_role (r : Role) (c : connection) : bool := bool_decide (cn_role c = r).
Definition close_all (cs : list connection) (k : conns) : conns := foldr (λ c, close_link (cn_link c)) k cs.
(** [closeSessions]: [peer] is 0 for all peers. *)
Definition closeSessions (role : Role) (peer : NodeID) (k : conns) : conns :=
  close_all (filter (λ c, is_role role c && ((peer =? 0) || (cn_peer c =? peer)) = true) (map_to_list (k_sessions k)).*2) k.

(** The link session is activated when it is new ([Session.Activate]). *)
Definition activate (l : Z) (k : conns) : option conns :=
  if bool_decide (k_links k !! l = Some LinkNew) then Some (set_links k (<[l := LinkActive]> (k_links k))) else None.

(** [registerSession] under the mutex, without its callback: the table, the sessions that are
    replaced, and whether the topology changed. *)
Definition registered (c : connection) (m : gmap NodeID connection) : gmap NodeID connection * list connection * bool :=
  let old := m !! cn_peer c in
  let others := if is_role RoleParent c then filter (λ kv : NodeID * connection, is_role RoleParent kv.2 && negb (bool_decide (Some kv.2 = old)) = true) m else ∅ in
  let m' := filter (λ kv : NodeID * connection, others !! kv.1 = None) m in
  (<[cn_peer c := c]> m', (map_to_list others).*2 ++ option_list old,
   is_role RoleParent c && (negb (bool_decide (others = ∅)) || bool_decide (is_Some old))).

(** Route events to the parent ([sendRouteEvent]): [ok] is the answer of the send queue. *)
Definition sendRouteEvent (ok : bool) (e : route_event) (k : conns) : conns :=
  match Parent (k_tree k) with
  | Some p => if bool_decide (is_Some (k_sessions k !! ed_Node p)) && ok then set_up k (k_up k ++ [e]) else k
  | None => k
  end.

Section machine.
Context `{Crypto} (identity : Identity).
Let self := i_NodeID identity.

(** What [runSession] does with a frame: a route event changes the tree and is passed up. *)
Definition handleInbound (k : conns) (c : connection) (e : Envelope) : option (Tree.State * route_event) :=
  if (e_Operation e =? OperationRouteAnnounce) || (e_Operation e =? OperationRouteWithdraw) then
    if negb (is_role RoleChild c) || negb (e_Target e =? self) then None else
    match decodeJSON (A := routePayload) (e_Payload e) with
    | None => None
    | Some p =>
      if e_Operation e =? OperationRouteAnnounce then
        match AnnounceWithParent (k_tree k) (cn_peer c) (rp_Node p) (rp_Parent p) (cn_epoch c) with Ok t => Some (t, Announced (rp_Node p) (rp_Parent p)) | Err _ => None end
      else match WithdrawRoute (k_tree k) (cn_peer c) (rp_Node p) (cn_epoch c) with Ok t => Some (t, Withdrawn (rp_Node p)) | Err _ => None end
    end
  else None.
Definition validate_inbound (k : conns) (c : connection) (e : Envelope) : result auth_error unit :=
  match cn_role c with
  | RoleChild => ValidateInboundChild (k_tree k) (cn_peer c) (cn_epoch c) e
  | RoleParent => ValidateInboundParent (k_tree k) (cn_peer c) e
  end.

(** What a step meets: a frame, the end of the frames (or of the time), or the outcome of a
    call: of a save or a send, with the clock or the identifier that it draws. *)
Inductive input := Frame (e : Envelope) | Ended | Go (ok : bool) (drawn : Z).

Definition accept_step (k : conns) (tid : nat) (t : thread) (i : input) : option conns :=
  match t, i with
  | TAccept l, Frame e => match check_join self e with Ok claim => Some (goto tid (TVerify l e claim) k) | Err _ => drop tid l k end
  | TAccept l, Ended => drop tid l k
  | TVerify l e claim, Go _ _ =>
    match VerifyJoin (k_trust k) claim with
    | Ok _ => Some (goto tid (TAttach l e claim) k)
    | Err err => if by_permit err (bool_decide (is_Some (k_admission k))) claim then Some (goto tid (TConsume l e claim) k) else drop tid l k
    end
  | TConsume l e claim, Go saved now =>
    match k_admission k, jc_Permit claim with
    | Some a, Some permit =>
      let '(a', r) := Consume a (jc_NodeID claim) (jc_PublicKey claim) permit now saved in
      let k := set_admission k (Some a') in
      match r with Ok _ => Some (goto tid (TAdd l e claim) k) | Err _ => drop tid l k end
    | _, _ => None
    end
  | TAdd l e claim, Go saved _ =>
    let '(trust, r) := TrustStore_Add (k_trust k) (jc_NodeID claim) (jc_PublicKey claim) saved in
    let k := set_trust k trust in
    match r with Ok _ => Some (goto tid (TAttach l e claim) k) | Err _ => drop tid l k end
  | TAttach l e claim, Go _ _ =>
    match AttachChild (k_tree k) (jc_NodeID claim) (jc_TopologyEpoch claim) with
    | Ok tree => Some (goto tid (TActivate l e claim false) (set_tree k tree))
    | Err ErrChildExists => Some (goto tid (TReattach l e claim) k)
    | Err _ => drop tid l k
    end
  | TReattach l e claim, Go _ _ =>
    match ReattachChild (k_tree k) (jc_NodeID claim) (jc_TopologyEpoch claim) with
    | Ok tree => Some (goto tid (TActivate l e claim true) (set_tree k tree))
    | Err _ => drop tid l k
    end
  | TActivate l e claim re, Go _ _ =>
    match SignJoinAck identity (jc_NodeID claim) (jc_Nonce claim) (jc_TopologyEpoch claim), activate l k with
    | Ok ack, Some k => Some (goto tid (TRegister l e claim re ack) k)
    | _, _ => Some (goto tid (TUndo l (jc_NodeID claim) (jc_TopologyEpoch claim) re) k)
    end
  | TRegister l e claim re ack, Go sent id =>
    let c := mkConnection (jc_NodeID claim) RoleChild (jc_TopologyEpoch claim) l in
    if k_closed k || bool_decide (k_links k !! l = Some LinkClosed) || negb sent
    then Some (goto tid (TUndo l (jc_NodeID claim) (jc_TopologyEpoch claim) re) k)
    else let '(sessions, old, _) := registered c (k_sessions k) in
         Some (foldr (λ o, start (TClose (cn_link o))) (start (TRun c) (goto tid (TSend [Announced (jc_NodeID claim) self] None)
                 (send l (ack_frame self e (jc_NodeID claim) id ack) (set_sessions k sessions)))) old)
  | TUndo l child epoch re, Go _ _ =>
    let '(tree, removed) := WithdrawChildEpoch (k_tree k) child epoch in
    let k := set_tree k tree in
    if re then Some (goto tid (TUndoClose l child removed) k) else drop tid l k
  | TUndoClose l child removed, Go _ _ => Some (goto tid (TSend (Withdrawn <$> removed) None) (close_link l (closeSessions RoleChild child k)))
  | _, _ => None
  end.

Definition run_step (k : conns) (tid : nat) (t : thread) (i : input) : option conns :=
  match t, i with
  | TSend [] None, Go _ _ => Some (finish tid k)
  | TSend [] (Some c), Go _ _ => Some (goto tid (TRun c) k)
  | TSend (e :: es) next, Go ok _ => Some (goto tid (TSend es next) (sendRouteEvent ok e k))
  | TRun c, Frame e =>
    match validate_inbound k c e with
    | Err _ => Some (goto tid (TEnded c) (close_link (cn_link c) k))
    | Ok _ => match handleInbound k c e with Some (tree, event) => Some (goto tid (TSend [event] (Some c)) (set_tree k tree)) | None => Some k end
    end
  | TRun c, Ended => if bool_decide (k_links k !! cn_link c = Some LinkClosed) then Some (goto tid (TEnded c) k) else None
  | TEnded c, Go _ _ =>
    if bool_decide (k_sessions k !! cn_peer c = Some c) then Some (goto tid (TRemove c) (set_sessions k (delete (cn_peer c) (k_sessions k)))) else Some (finish tid k)
  | TRemove c, Go _ _ =>
    match cn_role c with
    | RoleChild => let '(tree, removed) := WithdrawChildEpoch (k_tree k) (cn_peer c) (cn_epoch c) in Some (goto tid (TSend (Withdrawn <$> removed) None) (set_tree k tree))
    | RoleParent => Some (goto tid TSignal (set_tree k (DetachParentEpoch (k_tree k) (cn_peer c) (cn_epoch c)).1))
    end
  | TSignal, Go _ _ => Some (finish tid (set_generation k (u64 (k_parentGeneration k + 1))))
  | TClose l, Go _ _ => drop tid l k
  | _, _ => None
  end.

Definition connect_step (k : conns) (tid : nat) (t : thread) (i : input) : option conns :=
  match t, i with
  | TJoin l parent id claim, Frame e => match check_ack (k_trust k) self parent id claim e with Ok epoch => Some (goto tid (TParent l parent epoch) k) | Err _ => drop tid l k end
  | TJoin l _ _ _, Ended => drop tid l k
  | TParent l parent epoch, Go _ _ =>
    match ActivateParent (k_tree k) parent epoch with Ok tree => Some (goto tid (TParentActivate l parent epoch) (set_tree k tree)) | Err _ => drop tid l k end
  | TParentActivate l parent epoch, Go _ _ =>
    match activate l k with
    | Some k => Some (goto tid (TParentRegister l parent epoch) k)
    | None => Some (goto tid (TDetach (mkConnection parent RoleParent epoch l)) k)
    end
  | TParentRegister l parent epoch, Go _ _ =>
    let c := mkConnection parent RoleParent epoch l in
    if k_closed k then Some (goto tid (TDetach c) k)
    else let '(sessions, old, _) := registered c (k_sessions k) in Some (goto tid (TParentStart l parent epoch (cn_link <$> old)) (set_sessions k sessions))
  | TParentStart l parent epoch old, Go _ _ =>
    let c := mkConnection parent RoleParent epoch l in
    Some (foldr (λ l, start (TClose l)) (start (TRun c) (goto tid (THeartbeat c) (set_generation k (u64 (k_parentGeneration k + 1))))) old)
  | THeartbeat c, Go ok _ =>
    if negb ok || bool_decide (k_links k !! cn_link c = Some LinkClosed) then Some (goto tid (TDetach c) k)
    else Some (goto tid (TSend ((λ r, Announced r.1 r.2) <$> Relations (k_tree k)) None) k)
  | TDetach c, Go _ _ => Some (goto tid (TCloseParents (cn_link c)) (set_tree k (DetachParentEpoch (k_tree k) (cn_peer c) (cn_epoch c)).1))
  | TCloseParents l, Go _ _ => drop tid l (closeSessions RoleParent 0 k)
  | _, _ => None
  end.

Definition thread_step (k : conns) (tid : nat) (i : input) : option conns :=
  t ← k_threads k !! tid;
  match accept_step k tid t i with Some k' => Some k' | None => match run_step k tid t i with Some k' => Some k' | None => connect_step k tid t i end end.

(** What happens around the goroutines: links arrive, are dialled and end; identities are
    trusted and revoked; the node closes. *)
Inductive event :=
| Arrive (l : Z)
| Dial (l : Z) (parent : NodeID) (id : MessageID) (permit : option ProvisioningPermitV1) (nonce : list byte)
| Lost (l : Z)
| TrustAdd (id : NodeID) (key : list byte) (saved : bool)
| TrustRevoke (id : NodeID) (saved : bool)
| Close
| Step (tid : nat) (i : input).
Definition kstep (k : conns) (ev : event) : option conns :=
  match ev with
  | Arrive l => if k_closed k || bool_decide (is_Some (k_links k !! l)) then None else Some (start (TAccept l) (set_links k (<[l := LinkNew]> (k_links k))))
  | Dial l parent id permit nonce =>
    if bool_decide (is_Some (k_links k !! l)) || negb (is_ok (NodeID_Validate parent)) then None else
    match make_claim identity permit (k_tree k) (Some nonce) with
    | Ok claim => Some (start (TJoin l parent id claim) (send l (join_frame self parent id claim) (set_links k (<[l := LinkNew]> (k_links k)))))
    | Err _ => None
    end
  | Lost l => if bool_decide (is_Some (k_links k !! l)) then Some (close_link l k) else None
  | TrustAdd id key saved => Some (set_trust k (TrustStore_Add (k_trust k) id key saved).1)
  | TrustRevoke id saved => Some (set_trust k (TrustStore_Revoke (k_trust k) id saved).1)
  | Close => Some (close_all (map_to_list (k_sessions k)).*2 (set_closed k))
  | Step tid i => thread_step k tid i
  end.
End machine.

(** ** What a step does to the edges, the table and the goroutines *)

(** The child edge that a goroutine is responsible for, and the session that it runs. *)
Definition owned (t : thread) : option (NodeID * Z) :=
  match t with
  | TActivate _ _ claim _ | TRegister _ _ claim _ _ => Some (jc_NodeID claim, jc_TopologyEpoch claim)
  | TUndo _ child epoch _ => Some (child, epoch)
  | TRun c | TEnded c | TRemove c | TSend _ (Some c) => if is_role RoleChild c then Some (cn_peer c, cn_epoch c) else None
  | _ => None
  end.
Definition runs (t : thread) : option connection :=
  match t with TRun c | TEnded c | TSend _ (Some c) => Some c | TParentStart l parent epoch _ => Some (mkConnection parent RoleParent epoch l) | _ => None end.

Record view := mkView { v_edges : gmap NodeID Edge; v_table : gmap NodeID connection; v_owners : gmap nat (NodeID * Z); v_runners : gmap nat connection }.
Definition view_of (k : conns) : view := mkView (s_children (k_tree k)) (k_sessions k) (omap owned (k_threads k)) (omap runs (k_threads k)).

(** One change of the view.  [i] is the goroutine, [j] one that it starts. *)
Inductive change :=
| Quiet
| AddEdge (i : nat) (child : NodeID) (epoch : Z)
| DropEdge (i : nat) (child : NodeID) (epoch : Z)
| Enter (i j : nat) (c : connection)
| Leave (i : nat) (c : connection)
| Skip (i : nat) (c : connection)
| EnterParent (i : nat) (c : connection)
| StartParent (i j : nat) (c : connection).
Inductive changes (v : view) : change → view → Prop :=
| ch_quiet : changes v Quiet v
| ch_add i child epoch :
    v_owners v !! i = None → v_runners v !! i = None → (∀ e, v_edges v !! child = Some e → ed_Epoch e < epoch) →
    changes v (AddEdge i child epoch) (mkView (<[child := mkEdge child epoch]> (v_edges v)) (v_table v) (<[i := (child, epoch)]> (v_owners v)) (v_runners v))
| ch_drop i child epoch :
    v_owners v !! i = Some (child, epoch) → v_runners v !! i = None →
    changes v (DropEdge i child epoch)
      (mkView (if bool_decide (ed_Epoch <$> v_edges v !! child = Some epoch) then delete child (v_edges v) else v_edges v) (v_table v) (delete i (v_owners v)) (v_runners v))
| ch_enter i j c :
    cn_role c = RoleChild → v_owners v !! i = Some (cn_peer c, cn_epoch c) → v_runners v !! i = None → v_owners v !! j = None → v_runners v !! j = None → i ≠ j →
    changes v (Enter i j c)
      (mkView (v_edges v) (<[cn_peer c := c]> (v_table v)) (<[j := (cn_peer c, cn_epoch c)]> (delete i (v_owners v))) (<[j := c]> (v_runners v)))
| ch_leave i c :
    v_runners v !! i = Some c → v_table v !! cn_peer c = Some c →
    changes v (Leave i c) (mkView (v_edges v) (delete (cn_peer c) (v_table v)) (v_owners v) (delete i (v_runners v)))
| ch_skip i c :
    v_runners v !! i = Some c → v_table v !! cn_peer c ≠ Some c → (cn_role c = RoleParent → v_owners v !! i = None) →
    changes v (Skip i c) (mkView (v_edges v) (v_table v) (delete i (v_owners v)) (delete i (v_runners v)))
| ch_enter_parent i c table :
    cn_role c = RoleParent → v_owners v !! i = None → v_runners v !! i = None → table !! cn_peer c = Some c →
    (∀ peer s, peer ≠ cn_peer c → table !! peer = Some s → v_table v !! peer = Some s) →
    (∀ peer s, peer ≠ cn_peer c → v_table v !! peer = Some s → cn_role s = RoleChild → table !! peer = Some s) →
    ((∀ peer s, v_table v !! peer = Some s → cn_peer s = peer) → ∀ peer s, peer ≠ cn_peer c → table !! peer = Some s → cn_role s = RoleChild) →
    changes v (EnterParent i c) (mkView (v_edges v) table (v_owners v) (<[i := c]> (v_runners v)))
| ch_start_parent i j c :
    cn_role c = RoleParent → v_runners v !! i = Some c → v_owners v !! i = None → v_owners v !! j = None → v_runners v !! j = None → i ≠ j →
    changes v (StartParent i j c) (mkView (v_edges v) (v_table v) (v_owners v) (<[j := c]> (delete i (v_runners v)))).

(** ** Every step is a change *)

Lemma omap_same {A} (f : thread → option A) (m : gmap nat thread) i t t' : m !! i = Some t → f t' = f t → omap f (<[i := t']> m) = omap f m.
Proof.
  intros Hi Hf. apply map_eq. intros j. rewrite !lookup_omap. destruct (decide (i = j)) as [<-|]; [rewrite lookup_insert_eq, Hi; simpl; done|by rewrite lookup_insert_ne].
Qed.
Lemma omap_gone {A} (f : thread → option A) (m : gmap nat thread) i t : m !! i = Some t → f t = None → omap f (delete i m) = omap f m.
Proof.
  intros Hi Hf. apply map_eq. intros j. rewrite !lookup_omap. destruct (decide (i = j)) as [<-|]; [by rewrite lookup_delete_eq, Hi; simpl|by rewrite lookup_delete_ne].
Qed.
Lemma fresh_thread (m : gmap nat thread) : m !! fresh (dom m) = None.
Proof. apply not_elem_of_dom, is_fresh. Qed.
Lemma omap_spawn {A} (f : thread → option A) (m : gmap nat thread) t : f t = None → omap f (spawn t m) = omap f m.
Proof.
  intros Hf. unfold spawn. apply map_eq. intros j. rewrite !lookup_omap. destruct (decide (fresh (dom m) = j)) as [<-|]; [by rewrite lookup_insert_eq, fresh_thread; simpl|by rewrite lookup_insert_ne].
Qed.

(** The parts of a state that the view depends on. *)
Definition same_parts (k k' : conns) : Prop := s_children (k_tree k') = s_children (k_tree k) ∧ k_sessions k' = k_sessions k ∧ k_threads k' = k_threads k.
Lemma view_goto k k' tid t t' :
  k_threads k !! tid = Some t → owned t' = owned t → runs t' = runs t → same_parts k k' → view_of (goto tid t' k') = view_of k.
Proof. intros Ht Ho Hr (H1 & H2 & H3). unfold view_of, goto. simpl. by rewrite H1, H2, H3, (omap_same owned _ _ _ _ Ht Ho), (omap_same runs _ _ _ _ Ht Hr). Qed.
Definition put {A} (i : nat) (o : option A) (m : gmap nat A) : gmap nat A := match o with Some x => <[i := x]> m | None => delete i m end.
Lemma omap_put {A} (f : thread → option A) (m : gmap nat thread) i t : omap f (<[i := t]> m) = put i (f t) (omap f m).
Proof.
  apply map_eq. intros j. rewrite lookup_omap. unfold put. destruct (decide (i = j)) as [<-|].
  - rewrite lookup_insert_eq. simpl. destruct (f t); [by rewrite lookup_insert_eq|by rewrite lookup_delete_eq].
  - rewrite lookup_insert_ne by done. destruct (f t); [rewrite lookup_insert_ne by done|rewrite lookup_delete_ne by done]; by rewrite lookup_omap.
Qed.
Lemma put_none {A} i (m : gmap nat A) : m !! i = None → put i None m = m.
Proof. apply delete_id. Qed.
Lemma put_same {A} i (o : option A) (m : gmap nat A) : m !! i = o → put i o m = m.
Proof. destruct o; [apply insert_id|apply delete_id]. Qed.
Lemma view_put k k' tid t' : k_threads k' = k_threads k →
  view_of (goto tid t' k') = mkView (s_children (k_tree k')) (k_sessions k') (put tid (owned t') (v_owners (view_of k))) (put tid (runs t') (v_runners (view_of k))).
Proof. intros Ht. unfold view_of, goto. simpl. by rewrite !omap_put, Ht. Qed.
Lemma view_finish k k' tid t : k_threads k !! tid = Some t → owned t = None → runs t = None → same_parts k k' → view_of (finish tid k') = view_of k.
Proof. intros Ht Ho Hr (H1 & H2 & H3). unfold view_of, finish. simpl. by rewrite H1, H2, H3, (omap_gone owned _ _ _ Ht Ho), (omap_gone runs _ _ _ Ht Hr). Qed.
Lemma view_start k k' t : owned t = None → runs t = None → view_of k' = view_of k → view_of (start t k') = view_of k.
Proof. intros Ho Hr <-. unfold view_of, start. simpl. by rewrite !omap_spawn. Qed.
Lemma view_starts {A} k k' (f : A → thread) l : (∀ x, owned (f x) = None ∧ runs (f x) = None) → view_of k' = view_of k → view_of (foldr (λ x, start (f x)) k' l) = view_of k.
Proof. intros Hf Hk. induction l as [|x l IH]; [done|]. simpl. destruct (Hf x). by apply view_start. Qed.
Lemma close_all_parts cs k : same_parts k (close_all cs k).
Proof. induction cs as [|c cs IH]; [done|]. simpl. exact IH. Qed.
Lemma ch_same k k' : view_of k' = view_of k → changes (view_of k) Quiet (view_of k').
Proof. intros ->. constructor. Qed.
Lemma view_drop k k0 tid l t k' : k_threads k !! tid = Some t → owned t = None → runs t = None → same_parts k k0 → drop tid l k0 = Some k' → view_of k' = view_of k.
Proof. intros Ht Ho Hr Hs [= <-]. by apply (view_finish k (close_link l k0) tid t). Qed.
Lemma owner_at k tid t : k_threads k !! tid = Some t → v_owners (view_of k) !! tid = owned t.
Proof. intros Ht. simpl. by rewrite lookup_omap, Ht. Qed.
Lemma runner_at k tid t : k_threads k !! tid = Some t → v_runners (view_of k) !! tid = runs t.
Proof. intros Ht. simpl. by rewrite lookup_omap, Ht. Qed.
Lemma runner_gone k tid t : k_threads k !! tid = Some t → runs t = None → delete tid (omap runs (k_threads k)) = omap runs (k_threads k).
Proof. intros Ht Hr. apply delete_id. by rewrite lookup_omap, Ht. Qed.
Lemma owner_gone k tid t : k_threads k !! tid = Some t → owned t = None → delete tid (omap owned (k_threads k)) = omap owned (k_threads k).
Proof. intros Ht Hr. apply delete_id. by rewrite lookup_omap, Ht. Qed.
Lemma view_erase k k' tid : k_threads k' = k_threads k →
  view_of (finish tid k') = mkView (s_children (k_tree k')) (k_sessions k') (delete tid (v_owners (view_of k))) (delete tid (v_runners (view_of k))).
Proof. intros Ht. unfold view_of, finish. simpl. by rewrite !omap_delete, Ht. Qed.
Lemma view_spawn k t : let j := fresh (dom (k_threads k)) in
  view_of (start t k) = mkView (s_children (k_tree k)) (k_sessions k) (put j (owned t) (v_owners (view_of k))) (put j (runs t) (v_runners (view_of k))).
Proof. intros j. unfold view_of, start, spawn. simpl. by rewrite !omap_put. Qed.
Lemma fresh_view (m : gmap nat thread) tid t t' : m !! tid = Some t →
  let j := fresh (dom (<[tid := t']> m)) in tid ≠ j ∧ omap owned m !! j = None ∧ omap runs m !! j = None.
Proof.
  intros Ht j. pose proof (is_fresh (dom (<[tid := t']> m))) as Hf. fold j in Hf. rewrite dom_insert in Hf. assert (m !! j = None) as Hn by (apply not_elem_of_dom; set_solver).
  split; [set_solver|]. by rewrite !lookup_omap, Hn.
Qed.

Section effects.
Context `{Crypto} (identity : Identity).

(** The thread that makes a change to the edges or enters the table. *)
Definition cause (k : conns) (ev : event) (ch : change) : Prop :=
  match ch with
  | AddEdge i child epoch =>
    ∃ inp l e claim, ev = Step i inp ∧ (k_threads k !! i = Some (TAttach l e claim) ∨ k_threads k !! i = Some (TReattach l e claim)) ∧ child = jc_NodeID claim ∧ epoch = jc_TopologyEpoch claim
  | DropEdge i child epoch =>
    ∃ inp t, ev = Step i inp ∧ k_threads k !! i = Some t ∧ ((∃ l re, t = TUndo l child epoch re) ∨ ∃ c, t = TRemove c ∧ is_role RoleChild c = true ∧ cn_peer c = child ∧ cn_epoch c = epoch)
  | Enter i _ c => ∃ inp l e claim re ack, ev = Step i inp ∧ k_threads k !! i = Some (TRegister l e claim re ack) ∧ c = mkConnection (jc_NodeID claim) RoleChild (jc_TopologyEpoch claim) l
  | EnterParent i c => ∃ inp l parent epoch, ev = Step i inp ∧ k_threads k !! i = Some (TParentRegister l parent epoch) ∧ c = mkConnection parent RoleParent epoch l
  | _ => True
  end.
Definition explained (k : conns) (ev : event) (k' : conns) : Prop := ∃ ch, changes (view_of k) ch (view_of k') ∧ cause k ev ch.
Lemma explained_same k ev k' : view_of k' = view_of k → explained k ev k'.
Proof. intros Hv. exists Quiet. split; [by apply ch_same|done]. Qed.
Lemma explained_starts {A} k ev k' (f : A → thread) l : (∀ x, owned (f x) = None ∧ runs (f x) = None) → explained k ev k' → explained k ev (foldr (λ x, start (f x)) k' l).
Proof. intros Hf (ch & Hc & Hx). exists ch. split; [|done]. by rewrite (view_starts k'). Qed.

Lemma attach_edges s c e t : AttachChild s c e = Ok t → s_children t = <[c := mkEdge c e]> (s_children s) ∧ s_children s !! c = None.
Proof. unfold AttachChild. intros Ha. apply bind_ok in Ha as [_ Ha]. guards Ha. injection Ha as <-. split; [done|]. bool_prop. match goal with Hx : ¬ is_Some (s_children s !! c) |- _ => by apply eq_None_not_Some in Hx end. Qed.
Lemma reattach_edges s c e t : ReattachChild s c e = Ok t → s_children t = <[c := mkEdge c e]> (s_children s) ∧ ∃ ed, s_children s !! c = Some ed ∧ ed_Epoch ed < e.
Proof.
  unfold ReattachChild. intros Ha. apply fail_if_ok in Ha as [_ Ha]. destruct (s_children s !! c) as [ed|]; [|done]. apply fail_if_ok in Ha as [He Ha]. apply Z.leb_gt in He.
  injection Ha as <-. split; [done|]. by exists ed.
Qed.
Lemma withdraw_edges s c e : s_children (WithdrawChildEpoch s c e).1 = if bool_decide (ed_Epoch <$> s_children s !! c = Some e) then delete c (s_children s) else s_children s.
Proof.
  unfold WithdrawChildEpoch, withdrawChildLocked. destruct (s_children s !! c) as [ed|] eqn:Ec; [|by case_bool_decide].
  destruct (Z.eqb_spec (ed_Epoch ed) e) as [He|He]; cbn [negb fst]; case_bool_decide as Hb; cbn [fmap option_fmap option_map] in Hb; try congruence. done.
Qed.
Lemma detach_edges s p e : s_children (DetachParentEpoch s p e).1 = s_children s.
Proof. unfold DetachParentEpoch. by repeat case_match. Qed.
Lemma activate_edges s p e t : ActivateParent s p e = Ok t → s_children t = s_children s.
Proof. unfold ActivateParent. intros Ha. apply bind_ok in Ha as [_ Ha]. guards Ha. by injection Ha as <-. Qed.
Lemma inbound_edges k c e t ev : handleInbound identity k c e = Some (t, ev) → s_children t = s_children (k_tree k).
Proof.
  unfold handleInbound. intros Hh. destruct (_ || _); [|done]. destruct (_ || _); [done|]. destruct (decodeJSON _) as [p|]; [|done].
  destruct (_ =? _).
  - destruct (AnnounceWithParent _ _ _ _ _) as [t'|] eqn:Ea; [|done]. injection Hh as <- _. unfold AnnounceWithParent in Ea. apply bind_ok in Ea as [_ Ea]. apply bind_ok in Ea as [_ Ea].
    destruct (s_children (k_tree k) !! cn_peer c); [|done]. guards Ea. by injection Ea as <-.
  - destruct (WithdrawRoute _ _ _ _) as [t'|] eqn:Ea; [|done]. injection Hh as <- _. unfold WithdrawRoute in Ea.
    destruct (s_children (k_tree k) !! cn_peer c); [|done]. guards Ea. by injection Ea as <-.
Qed.

(** Steps of [acceptChild]. *)
Ltac same Ht := first [apply explained_same; by apply (view_goto _ _ _ _ _ Ht) | apply explained_same; by eapply (view_drop _ _ _ _ _ _ Ht); [..|eassumption]].
Lemma accept_explained k tid t i k' : k_threads k !! tid = Some t → accept_step identity k tid t i = Some k' → explained k (Step tid i) k'.
Proof.
  intros Ht. unfold accept_step.
  destruct t as [l|l e claim|l e claim|l e claim|l e claim|l e claim|l e claim re|l e claim re ack|l c ep re|l c removed|es next|c|c|c|l p id claim|l p ep|l p ep|l p ep|l p ep r|c|c|l| |l]; try done;
    destruct i as [fr| |ok now]; try done; intros Hs.
  - destruct (check_join _ fr); [injection Hs as <-|]; same Ht.
  - same Ht.
  - destruct (VerifyJoin _ _); [injection Hs as <-; same Ht|]. destruct (by_permit _ _ _); [injection Hs as <-|]; same Ht.
  - destruct (k_admission k); [|done]. destruct (jc_Permit claim); [|done]. destruct (Consume _ _ _ _ _ _) as [a' [[]|]]; [injection Hs as <-|]; same Ht.
  - destruct (TrustStore_Add _ _ _ _) as [a' [[]|]]; [injection Hs as <-|]; same Ht.
  - destruct (AttachChild _ _ _) as [tree|err] eqn:Ea; [|destruct err; first [injection Hs as <-; same Ht|same Ht]]. injection Hs as <-.
    apply attach_edges in Ea as [Ea Hn]. exists (AddEdge tid (jc_NodeID claim) (jc_TopologyEpoch claim)). split; [|by exists (Go ok now), l, e, claim; auto].
    rewrite (view_put k) by done. simpl. rewrite Ea, (runner_gone _ _ _ Ht) by done.
    apply (ch_add (view_of k)); [exact (owner_at _ _ _ Ht)|exact (runner_at _ _ _ Ht)|]. simpl. intros ed. by rewrite Hn.
  - destruct (ReattachChild _ _ _) as [tree|err] eqn:Ea; [|same Ht]. injection Hs as <-.
    apply reattach_edges in Ea as [Ea (ed & Hn & He)]. exists (AddEdge tid (jc_NodeID claim) (jc_TopologyEpoch claim)). split; [|by exists (Go ok now), l, e, claim; auto].
    rewrite (view_put k) by done. simpl. rewrite Ea, (runner_gone _ _ _ Ht) by done.
    apply (ch_add (view_of k)); [exact (owner_at _ _ _ Ht)|exact (runner_at _ _ _ Ht)|]. simpl. intros ed'. rewrite Hn. by intros [= <-].
  - destruct (SignJoinAck _ _ _ _); [|injection Hs as <-; same Ht]. unfold activate in Hs. case_bool_decide; injection Hs as <-; same Ht.
  - destruct (_ || _); [injection Hs as <-; same Ht|]. unfold registered in Hs. cbn [cn_role is_role cn_peer] in Hs. injection Hs as <-.
    set (s := mkConnection (jc_NodeID claim) RoleChild (jc_TopologyEpoch claim) l). apply explained_starts; [done|].
    set (t' := TSend _ None). set (k1 := goto tid t' _). destruct (fresh_view (k_threads k) tid _ t' Ht) as (Hj & Hj1 & Hj2).
    exists (Enter tid (fresh (dom (k_threads k1))) s). split; [|exists (Go ok now), l, e, claim, re, ack; auto]. rewrite view_spawn. subst k1. rewrite (view_put k) by done.
    simpl. rewrite (runner_gone _ _ _ Ht) by done.
    match goal with |- changes _ _ (mkView _ (<[_ := _]> ?m) _ _) => assert (m = k_sessions k) as -> by (apply map_filter_id; intros; by rewrite lookup_empty) end.
    apply (ch_enter (view_of k)); [done|exact (owner_at _ _ _ Ht)|exact (runner_at _ _ _ Ht)|exact Hj1|exact Hj2|exact Hj].
  - destruct (WithdrawChildEpoch _ _ _) as [tree removed] eqn:Ew. pose proof (withdraw_edges (k_tree k) c ep) as Hw. rewrite Ew in Hw. cbn [fst] in Hw.
    exists (DropEdge tid c ep). split; [|exists (Go ok now); eexists; split; [done|]; split; [exact Ht|left; eauto]].
    destruct re; injection Hs as <-; [rewrite (view_put k) by done|rewrite (view_erase k) by done]; simpl; rewrite Hw, (runner_gone _ _ _ Ht) by done;
      (apply (ch_drop (view_of k)); [exact (owner_at _ _ _ Ht)|exact (runner_at _ _ _ Ht)]).
  - injection Hs as <-. apply explained_same. apply (view_goto _ _ _ _ _ Ht); [done|done|]. apply close_all_parts.
Qed.
Lemma sendRouteEvent_parts ok e k : same_parts k (sendRouteEvent ok e k).
Proof. unfold sendRouteEvent. by repeat case_match. Qed.
Lemma run_explained k tid t i k' : k_threads k !! tid = Some t → run_step identity k tid t i = Some k' → explained k (Step tid i) k'.
Proof.
  intros Ht. unfold run_step.
  destruct t as [l|l e claim|l e claim|l e claim|l e claim|l e claim|l e claim re|l e claim re ack|l c ep re|l c removed|es next|c|c|c|l p id claim|l p ep|l p ep|l p ep|l p ep r|c|c|l| |l]; try done.
  - destruct es as [|e es], next as [c|], i as [fr| |ok now]; try done; intros [= <-];
      [same Ht|apply explained_same; by apply (view_finish _ _ _ _ Ht)|apply explained_same; apply (view_goto _ _ _ _ _ Ht); [done|done|apply sendRouteEvent_parts]..].
  - destruct i as [fr| |ok now]; try done; intros Hs; [|by case_bool_decide; [injection Hs as <-; same Ht|]]. destruct (validate_inbound k c fr); [|injection Hs as <-; same Ht].
    destruct (handleInbound identity k c fr) as [[tree ev]|] eqn:Eh; injection Hs as <-; [|by apply explained_same]. apply explained_same, (view_goto _ _ _ _ _ Ht); [done|done|].
    split; [|done]. by apply inbound_edges in Eh.
  - destruct i as [fr| |ok now]; try done. case_bool_decide as Hc; intros [= <-].
    + exists (Leave tid c). split; [|done]. rewrite (view_put k) by done. rewrite (put_same tid (owned (TRemove c))) by exact (owner_at _ _ _ Ht).
      apply (ch_leave (view_of k)); [exact (runner_at _ _ _ Ht)|exact Hc].
    + exists (Skip tid c). split; [|done]. rewrite (view_erase k) by done. apply (ch_skip (view_of k)); [exact (runner_at _ _ _ Ht)|exact Hc|].
      intros Hr. etrans; [exact (owner_at _ _ _ Ht)|]. simpl. unfold is_role. by rewrite Hr.
  - destruct i as [fr| |ok now]; try done. destruct (cn_role c) eqn:Er.
    + intros [= <-]. apply explained_same, (view_goto _ _ _ _ _ Ht); [simpl; unfold is_role; by rewrite Er|done|]. split; [apply detach_edges|done].
    + destruct (WithdrawChildEpoch _ _ _) as [tree removed] eqn:Ew. intros [= <-]. pose proof (withdraw_edges (k_tree k) (cn_peer c) (cn_epoch c)) as Hw. rewrite Ew in Hw. cbn [fst] in Hw.
      assert (is_role RoleChild c = true) as Hr by (unfold is_role; by rewrite Er). exists (DropEdge tid (cn_peer c) (cn_epoch c)). split; [|exists (Go ok now); eexists; split; [done|]; split; [exact Ht|right; eauto]].
      rewrite (view_put k) by done. simpl. rewrite Hw, (runner_gone _ _ _ Ht) by done. apply (ch_drop (view_of k)); [|exact (runner_at _ _ _ Ht)].
      etrans; [exact (owner_at _ _ _ Ht)|]. simpl. by rewrite Hr.
  - destruct i as [fr| |ok now]; try done. intros [= <-]. apply explained_same. by apply (view_finish _ _ _ _ Ht).
  - destruct i as [fr| |ok now]; try done. intros Hs. same Ht.
Qed.
Lemma registered_parent c m : cn_role c = RoleParent → let '(m', _, _) := registered c m in
  m' !! cn_peer c = Some c ∧ (∀ peer s, peer ≠ cn_peer c → m' !! peer = Some s → m !! peer = Some s) ∧
  (∀ peer s, peer ≠ cn_peer c → m !! peer = Some s → cn_role s = RoleChild → m' !! peer = Some s) ∧
  ((∀ peer s, m !! peer = Some s → cn_peer s = peer) → ∀ peer s, peer ≠ cn_peer c → m' !! peer = Some s → cn_role s = RoleChild).
Proof.
  intros Hr. unfold registered. assert (is_role RoleParent c = true) as -> by (unfold is_role; by rewrite Hr). split_and!.
  - apply lookup_insert_eq.
  - intros peer s Hp. rewrite lookup_insert_ne by done. intros Hm. by apply map_lookup_filter_Some in Hm as [Hm _].
  - intros peer s Hp Hm Hrs. rewrite lookup_insert_ne by done. apply map_lookup_filter_Some. split; [done|]. simpl. apply map_lookup_filter_None. right. intros s' Hs'. rewrite Hm in Hs'. injection Hs' as <-.
    simpl. unfold is_role. by rewrite Hrs.
  - intros Hm peer s Hp. rewrite lookup_insert_ne by done. intros [Hl Hf]%map_lookup_filter_Some. simpl in Hf. destruct (cn_role s) eqn:Er; [|done]. exfalso.
    apply map_lookup_filter_None in Hf as [Hf|Hf]; [congruence|]. specialize (Hf s Hl). simpl in Hf. apply Hf. unfold is_role. rewrite Er. simpl. apply negb_true_iff, bool_decide_eq_false_2. intros Hs.
    symmetry in Hs. apply Hm in Hs. apply Hm in Hl. congruence.
Qed.
Lemma connect_explained k tid t i k' : k_threads k !! tid = Some t → connect_step identity k tid t i = Some k' → explained k (Step tid i) k'.
Proof.
  intros Ht. unfold connect_step.
  destruct t as [l|l e claim|l e claim|l e claim|l e claim|l e claim|l e claim re|l e claim re ack|l c ep re|l c removed|es next|c|c|c|l p id claim|l p ep|l p ep|l p ep|l p ep r|c|c|l| |l]; try done;
    destruct i as [fr| |ok now]; try done; intros Hs.
  - destruct (check_ack _ _ _ _ _ _); [injection Hs as <-|]; same Ht.
  - same Ht.
  - destruct (ActivateParent _ _ _) as [tree|] eqn:Ea; [|same Ht]. injection Hs as <-. apply explained_same, (view_goto _ _ _ _ _ Ht); [done|done|]. split; [|done]. by apply activate_edges in Ea.
  - unfold activate in Hs. case_bool_decide; injection Hs as <-; same Ht.
  - destruct (k_closed k); [injection Hs as <-; same Ht|]. set (c := mkConnection p RoleParent ep l) in *. pose proof (registered_parent c (k_sessions k) eq_refl) as Hreg.
    destruct (registered c (k_sessions k)) as [[sessions old] changed]. injection Hs as <-. destruct Hreg as (H1 & H2 & H3 & H4). exists (EnterParent tid c). split; [|exists (Go ok now), l, p, ep; auto].
    rewrite (view_put k) by done. simpl. rewrite (owner_gone _ _ _ Ht) by done. apply (ch_enter_parent (view_of k)); [done|exact (owner_at _ _ _ Ht)|exact (runner_at _ _ _ Ht)|done..].
  - injection Hs as <-. apply explained_starts; [done|]. set (c := mkConnection p RoleParent ep l). set (k1 := goto tid (THeartbeat c) _).
    destruct (fresh_view (k_threads k) tid _ (THeartbeat c) Ht) as (Hj & Hj1 & Hj2). exists (StartParent tid (fresh (dom (k_threads k1))) c). split; [|done].
    rewrite view_spawn. subst k1. rewrite (view_put k) by done. simpl. rewrite (owner_gone _ _ _ Ht), (delete_id (omap owned _)) by done.
    apply (ch_start_parent (view_of k)); [done|exact (runner_at _ _ _ Ht)|exact (owner_at _ _ _ Ht)|exact Hj1|exact Hj2|exact Hj].
  - destruct (_ || _); injection Hs as <-; same Ht.
  - injection Hs as <-. apply explained_same, (view_goto _ _ _ _ _ Ht); [done|done|]. split; [apply detach_edges|done].
  - eapply explained_same, (view_drop _ (closeSessions RoleParent 0 k) _ _ _ _ Ht); [done|done|apply close_all_parts|exact Hs].
Qed.

(** Every step of the machine is such a change. *)
Lemma kstep_explained k ev k' : kstep identity k ev = Some k' → explained k ev k'.
Proof.
  destruct ev as [l|l p id permit nonce|l|id key saved|id saved| |tid i]; simpl; intros Hs.
  - destruct (_ || _); [done|]. injection Hs as <-. apply explained_same, view_start; done.
  - destruct (_ || _); [done|]. destruct (make_claim _ _ _ _); [|done]. injection Hs as <-. apply explained_same, view_start; done.
  - case_bool_decide; [|done]. injection Hs as <-. by apply explained_same.
  - injection Hs as <-. by apply explained_same.
  - injection Hs as <-. by apply explained_same.
  - injection Hs as <-. apply explained_same. unfold view_of. destruct (close_all_parts (map_to_list (k_sessions k)).*2 (set_closed k)) as (H1 & H2 & H3). by rewrite H1, H2, H3.
  - unfold thread_step in Hs. destruct (k_threads k !! tid) as [t|] eqn:Ht; [|done]. cbn [mbind option_bind] in Hs.
    destruct (accept_step identity k tid t i) as [k1|] eqn:E1; [injection Hs as <-; by apply (accept_explained _ _ t)|].
    destruct (run_step identity k tid t i) as [k1|] eqn:E2; [injection Hs as <-; by apply (run_explained _ _ t)|by apply (connect_explained _ _ t)].
Qed.
End effects.
