(* ===== verification/ConnectionRuns.v ===== *)
(** * Connections: generations, authentication and the join of two nodes

    The invariants of the machine of Connection: which goroutine a child edge belongs to, what
    had to be verified for a session to be there, and that an honest join connects. *)

From S2P Require Import Prelude GoStd GoStruct Payload Wire Codec EnrollmentWire Identity Admission Tree Policy Node Join Connection.
Open Scope Z_scope.

(** ** Generations *)

(** Every edge has the goroutine that is responsible for it, and only that one; the session
    that runs at the generation of an edge is the one in the table. *)
Record scoped (v : view) : Prop := mkScoped {
  sc_edge child e : v_edges v !! child = Some e → ∃ i, v_owners v !! i = Some (child, ed_Epoch e);
  sc_unique i j p : v_owners v !! i = Some p → v_owners v !! j = Some p → i = j;
  sc_newest i child epoch e : v_owners v !! i = Some (child, epoch) → v_edges v !! child = Some e → epoch ≤ ed_Epoch e;
  sc_table peer c : v_table v !! peer = Some c → cn_peer c = peer ∧ ∃ i, v_runners v !! i = Some c;
  sc_runner i c : v_runners v !! i = Some c → cn_role c = RoleChild → v_owners v !! i = Some (cn_peer c, cn_epoch c);
  sc_current i c e : v_runners v !! i = Some c → cn_role c = RoleChild → v_edges v !! cn_peer c = Some e → ed_Epoch e = cn_epoch c → v_table v !! cn_peer c = Some c
}.
(** Generations of one child are used in order: a join is attached with a larger epoch than
    those of the goroutines that are still there for the child, and enters the table after
    the sessions of smaller epochs; a parent is not also registered as a child. *)
Definition in_order (v : view) (ch : change) : Prop :=
  match ch with
  | AddEdge _ child epoch => ∀ j epoch', v_owners v !! j = Some (child, epoch') → epoch' < epoch
  | Enter _ _ c => ∀ old, v_table v !! cn_peer c = Some old → cn_role old = RoleChild ∧ cn_epoch old < cn_epoch c
  | EnterParent _ c => ∀ old, v_table v !! cn_peer c = Some old → cn_role old = RoleParent
  | _ => True
  end.

Lemma insert_cases {A} (m : gmap nat A) i j x y : <[i := x]> m !! j = Some y → (i = j ∧ x = y) ∨ (i ≠ j ∧ m !! j = Some y).
Proof. rewrite lookup_insert_Some. tauto. Qed.
Lemma scoped_add v i child epoch :
  scoped v → v_owners v !! i = None → v_runners v !! i = None → (∀ e, v_edges v !! child = Some e → ed_Epoch e < epoch) → (∀ j epoch', v_owners v !! j = Some (child, epoch') → epoch' < epoch) →
  scoped (mkView (<[child := mkEdge child epoch]> (v_edges v)) (v_table v) (<[i := (child, epoch)]> (v_owners v)) (v_runners v)).
Proof.
  intros [S1 S2 S3 S4 S5 S6] Hi Hr He Ho. split; simpl.
  - intros c e. rewrite lookup_insert_Some. intros [[<- <-]|[Hc Hl]]; [exists i; by rewrite lookup_insert_eq|]. destruct (S1 c e Hl) as [j Hj]. exists j. rewrite lookup_insert_ne; [done|]. congruence.
  - intros j j' p [[<- <-]|[H1 H2]]%insert_cases [[<- Hp]|[H1' H2']]%insert_cases; try done; [|subst|by eapply S2].
    + apply Ho in H2'. lia.
    + apply Ho in H2. lia.
  - intros j c ep e [[<- [= <- <-]]|[H1 H2]]%insert_cases.
    + rewrite lookup_insert_eq. intros [= <-]. simpl. lia.
    + destruct (decide (child = c)) as [<-|]; [rewrite lookup_insert_eq; intros [= <-]; simpl; apply Ho in H2; lia|]. rewrite lookup_insert_ne by done. by eapply S3.
  - done.
  - intros j c Hj Hc. rewrite lookup_insert_ne by congruence. by apply S5.
  - intros j c e Hj Hc. destruct (decide (child = cn_peer c)) as [->|]; [|rewrite lookup_insert_ne by done; by eapply S6]. rewrite lookup_insert_eq. intros [= <-]. simpl. intros ->.
    apply (S5 j) in Hj; [|done]. apply Ho in Hj. lia.
Qed.
Lemma scoped_drop v i child epoch :
  scoped v → v_owners v !! i = Some (child, epoch) → v_runners v !! i = None →
  scoped (mkView (if bool_decide (ed_Epoch <$> v_edges v !! child = Some epoch) then delete child (v_edges v) else v_edges v) (v_table v) (delete i (v_owners v)) (v_runners v)).
Proof.
  intros [S1 S2 S3 S4 S5 S6] Hi Hr. match goal with |- scoped (mkView ?m _ _ _) => set (edges := m) end.
  assert (∀ c e, edges !! c = Some e → v_edges v !! c = Some e ∧ (c, ed_Epoch e) ≠ (child, epoch)) as Hin.
  { intros c e. unfold edges. case_bool_decide as Hb.
    - rewrite lookup_delete_Some. intros [Hc Hl]. split; [done|]. congruence.
    - intros Hl. split; [done|]. intros [= -> <-]. by rewrite Hl in Hb. }
  split; simpl.
  - intros c e [Hl Hne]%Hin. destruct (S1 c e Hl) as [j Hj]. exists j. rewrite lookup_delete_ne; [done|]. congruence.
  - intros j j' p [_ H1]%lookup_delete_Some [_ H2]%lookup_delete_Some. by eapply S2.
  - intros j c ep e [_ H1]%lookup_delete_Some [Hl _]%Hin. by eapply S3.
  - done.
  - intros j c Hj Hc. rewrite lookup_delete_ne by congruence. by apply S5.
  - intros j c e Hj Hc [Hl _]%Hin. by eapply S6.
Qed.
Lemma scoped_enter v i j c :
  scoped v → cn_role c = RoleChild → v_owners v !! i = Some (cn_peer c, cn_epoch c) → v_runners v !! i = None → v_owners v !! j = None → v_runners v !! j = None → i ≠ j →
  (∀ old, v_table v !! cn_peer c = Some old → cn_role old = RoleChild ∧ cn_epoch old < cn_epoch c) →
  scoped (mkView (v_edges v) (<[cn_peer c := c]> (v_table v)) (<[j := (cn_peer c, cn_epoch c)]> (delete i (v_owners v))) (<[j := c]> (v_runners v))).
Proof.
  intros [S1 S2 S3 S4 S5 S6] Hc Hi Hr Hj Hj' Hij Hold. split; simpl.
  - intros d e Hl. destruct (S1 d e Hl) as [i' Hi']. destruct (decide (i' = i)) as [->|]; [exists j; rewrite lookup_insert_eq; congruence|].
    exists i'. rewrite lookup_insert_ne, lookup_delete_ne by congruence. done.
  - intros a b p [[<- <-]|[H1 [H1' H2]%lookup_delete_Some]]%insert_cases [[<- Hp]|[H3 [H3' H4]%lookup_delete_Some]]%insert_cases; try done; [| |by eapply S2].
    + pose proof (S2 _ _ _ Hi H4). congruence.
    + subst p. pose proof (S2 _ _ _ Hi H2). congruence.
  - intros a d ep e [[<- [= <- <-]]|[H1 [H1' H2]%lookup_delete_Some]]%insert_cases; by eapply S3.
  - intros peer s. rewrite lookup_insert_Some. intros [[<- <-]|[Hp Hl]]; [split; [done|]; exists j; by rewrite lookup_insert_eq|].
    destruct (S4 _ _ Hl) as [H1 [i' H2]]. split; [done|]. exists i'. rewrite lookup_insert_ne; congruence.
  - intros a s [[<- <-]|[H1 H2]]%insert_cases Hs; [by rewrite lookup_insert_eq|]. rewrite lookup_insert_ne, lookup_delete_ne by congruence. by apply S5.
  - intros a s e [[<- <-]|[H1 H2]]%insert_cases Hs Hl He; [by rewrite lookup_insert_eq|]. destruct (decide (cn_peer c = cn_peer s)) as [Hp|Hp]; [|rewrite lookup_insert_ne by done; by eapply S6].
    exfalso. pose proof (S6 _ _ _ H2 Hs Hl He) as Ht. rewrite <- Hp in Ht. apply Hold in Ht as [_ Ht]. rewrite <- Hp in Hl. pose proof (S3 _ _ _ _ Hi Hl). lia.
Qed.
Lemma scoped_leave v i c : scoped v → v_runners v !! i = Some c → v_table v !! cn_peer c = Some c →
  scoped (mkView (v_edges v) (delete (cn_peer c) (v_table v)) (v_owners v) (delete i (v_runners v))).
Proof.
  intros [S1 S2 S3 S4 S5 S6] Hi Ht. split; simpl; try done.
  - intros peer s [Hp Hl]%lookup_delete_Some. destruct (S4 _ _ Hl) as [H1 [i' H2]]. split; [done|]. exists i'. rewrite lookup_delete_ne; [done|]. intros ->. rewrite Hi in H2. congruence.
  - intros j s [_ Hj]%lookup_delete_Some. by apply S5.
  - intros j s e [Hij Hj]%lookup_delete_Some Hs Hl He. pose proof (S6 _ _ _ Hj Hs Hl He) as Hts. rewrite lookup_delete_ne; [done|]. intros Hp. rewrite Hp in Ht. rewrite Ht in Hts. injection Hts as <-.
    pose proof (S5 _ _ Hi Hs). pose proof (S5 _ _ Hj Hs). destruct Hij. by eapply S2.
Qed.
Lemma scoped_skip v i c : scoped v → v_runners v !! i = Some c → v_table v !! cn_peer c ≠ Some c → (cn_role c = RoleParent → v_owners v !! i = None) →
  scoped (mkView (v_edges v) (v_table v) (delete i (v_owners v)) (delete i (v_runners v))).
Proof.
  intros [S1 S2 S3 S4 S5 S6] Hi Ht Hpar. split; simpl.
  - intros d e Hl. destruct (S1 d e Hl) as [j Hj]. exists j. rewrite lookup_delete_ne; [done|]. intros <-. destruct (cn_role c) eqn:Er; [rewrite Hpar in Hj; done|].
    pose proof (S5 _ _ Hi Er) as Ho. rewrite Hj in Ho. injection Ho as -> He. destruct Ht. by apply (S6 i c e).
  - intros a b p [_ H1]%lookup_delete_Some [_ H2]%lookup_delete_Some. by eapply S2.
  - intros a d ep e [_ H1]%lookup_delete_Some. by eapply S3.
  - intros peer s Hl. destruct (S4 _ _ Hl) as [H1 [j H2]]. split; [done|]. exists j. rewrite lookup_delete_ne; [done|]. intros <-. rewrite Hi in H2. injection H2 as <-. by rewrite H1 in Ht.
  - intros j s [Hij Hj]%lookup_delete_Some Hs. rewrite lookup_delete_ne by done. by apply S5.
  - intros j s e [Hij Hj]%lookup_delete_Some. by eapply S6.
Qed.
Lemma scoped_enter_parent v i c table :
  scoped v → cn_role c = RoleParent → v_runners v !! i = None → table !! cn_peer c = Some c →
  (∀ peer s, peer ≠ cn_peer c → table !! peer = Some s → v_table v !! peer = Some s) →
  (∀ peer s, peer ≠ cn_peer c → v_table v !! peer = Some s → cn_role s = RoleChild → table !! peer = Some s) →
  (∀ old, v_table v !! cn_peer c = Some old → cn_role old = RoleParent) →
  scoped (mkView (v_edges v) table (v_owners v) (<[i := c]> (v_runners v))).
Proof.
  intros [S1 S2 S3 S4 S5 S6] Hc Hi Ht Ht1 Ht2 Hold. split; simpl; try done.
  - intros peer s Hl. destruct (decide (peer = cn_peer c)) as [->|Hp]; [rewrite Ht in Hl; injection Hl as <-; split; [done|]; exists i; by rewrite lookup_insert_eq|].
    apply Ht1 in Hl; [|done]. destruct (S4 _ _ Hl) as [H1 [j H2]]. split; [done|]. exists j. rewrite lookup_insert_ne; congruence.
  - intros j s [[<- <-]|[H1 H2]]%insert_cases Hs; [congruence|by apply S5].
  - intros j s e [[<- <-]|[H1 H2]]%insert_cases Hs Hl He; [congruence|]. pose proof (S6 _ _ _ H2 Hs Hl He) as Hts. apply Ht2; [|done|done]. intros Hp. rewrite Hp in Hts. apply Hold in Hts. congruence.
Qed.
Lemma scoped_start_parent v i j c :
  scoped v → cn_role c = RoleParent → v_runners v !! i = Some c → v_runners v !! j = None → i ≠ j → scoped (mkView (v_edges v) (v_table v) (v_owners v) (<[j := c]> (delete i (v_runners v)))).
Proof.
  intros [S1 S2 S3 S4 S5 S6] Hc Hi Hj Hij. split; simpl; try done.
  - intros peer s Hl. destruct (S4 _ _ Hl) as [H1 [a H2]]. split; [done|]. destruct (decide (a = i)) as [->|]; [exists j; rewrite lookup_insert_eq; congruence|].
    exists a. rewrite lookup_insert_ne, lookup_delete_ne by congruence. done.
  - intros a s [[<- <-]|[H1 [_ H2]%lookup_delete_Some]]%insert_cases Hs; [congruence|by apply S5].
  - intros a s e [[<- <-]|[H1 [_ H2]%lookup_delete_Some]]%insert_cases Hs; [congruence|by eapply S6].
Qed.
Lemma changes_scoped v ch v' : scoped v → changes v ch v' → in_order v ch → scoped v'.
Proof.
  intros Hs Hc Ho. destruct Hc.
  - done.
  - by apply scoped_add.
  - by apply scoped_drop.
  - by apply (scoped_enter _ i).
  - by apply scoped_leave.
  - by apply (scoped_skip _ i c).
  - by apply (scoped_enter_parent v i c).
  - by apply scoped_start_parent.
Qed.

(** Whatever the order: every session in the table has its goroutine, and one is of the parent. *)
Definition table_ok (v : view) : Prop :=
  (∀ peer c, v_table v !! peer = Some c → cn_peer c = peer ∧ ∃ i, v_runners v !! i = Some c) ∧
  ∀ p q c d, v_table v !! p = Some c → v_table v !! q = Some d → cn_role c = RoleParent → cn_role d = RoleParent → p = q.
Lemma changes_table v ch v' : table_ok v → changes v ch v' → table_ok v'.
Proof.
  intros [T1 T2] Hc. destruct Hc as [|i c ep Ho Hr Hn|i c ep Ho Hr|i j c Hrole Ho Hr Hj Hj' Hij|i c Hr Ht|i c Hr Ht Hp|i c table Hrole Ho Hr Ht H1 H2 H3|i j c Hrole Hr Ho Hj Hj' Hij]; split; simpl; try done.
  - intros peer s. rewrite lookup_insert_Some. intros [[<- <-]|[Hp Hl]]; [split; [done|]; exists j; by rewrite lookup_insert_eq|].
    destruct (T1 _ _ Hl) as [E1 [a E2]]. split; [done|]. exists a. rewrite lookup_insert_ne; congruence.
  - intros p q a b. rewrite !lookup_insert_Some. intros [[<- <-]|[Hp Hl]] [[<- <-]|[Hq Hl']]; try congruence. by eapply T2.
  - intros peer s [Hp Hl]%lookup_delete_Some. destruct (T1 _ _ Hl) as [E1 [a E2]]. split; [done|]. exists a. rewrite lookup_delete_ne; [done|]. intros ->. congruence.
  - intros p q a b [_ Hl]%lookup_delete_Some [_ Hl']%lookup_delete_Some. by eapply T2.
  - intros peer s Hl. destruct (T1 _ _ Hl) as [E1 [a E2]]. split; [done|]. exists a. rewrite lookup_delete_ne; [done|]. intros ->. rewrite Hr in E2. injection E2 as <-. by rewrite E1 in Ht.
  - intros peer s Hl. destruct (decide (peer = cn_peer c)) as [->|Hp]; [rewrite Ht in Hl; injection Hl as <-; split; [done|]; exists i; by rewrite lookup_insert_eq|].
    destruct (T1 _ _ (H1 _ _ Hp Hl)) as [E1 [a E2]]. split; [done|]. exists a. rewrite lookup_insert_ne; congruence.
  - assert (∀ p s, table !! p = Some s → cn_role s = RoleParent → p = cn_peer c) as Hone.
    { intros p s Hl Hs. destruct (decide (p = cn_peer c)) as [|Hp]; [done|]. rewrite (H3 (λ peer x Hx, proj1 (T1 peer x Hx)) p s Hp Hl) in Hs. done. }
    intros p q a b Ha Hb Hra Hrb. rewrite (Hone p a Ha Hra). by rewrite (Hone q b Hb Hrb).
  - intros peer s Hl. destruct (T1 _ _ Hl) as [E1 [a E2]]. split; [done|]. destruct (decide (a = i)) as [->|]; [exists j; rewrite lookup_insert_eq; congruence|].
    exists a. rewrite lookup_insert_ne, lookup_delete_ne by congruence. done.
Qed.
Lemma changes_edge v ch v' child e : changes v ch v' → v_edges v !! child = Some e →
  (∃ e', v_edges v' !! child = Some e' ∧ (e' = e ∨ ed_Epoch e < ed_Epoch e')) ∨
  (v_edges v' !! child = None ∧ ∃ i, ch = DropEdge i child (ed_Epoch e) ∧ v_owners v !! i = Some (child, ed_Epoch e)).
Proof.
  intros Hc He. destruct Hc as [|i c ep Ho Hr Hn|i c ep Ho Hr| | | | |]; simpl; try (by left; eauto).
  - left. destruct (decide (c = child)) as [->|]; [|rewrite lookup_insert_ne by done; eauto]. rewrite lookup_insert_eq. eexists. split; [done|]. right. simpl. by apply Hn.
  - case_bool_decide as Hb; [|by left; eauto]. destruct (decide (c = child)) as [->|]; [|left; rewrite lookup_delete_ne by done; eauto]. right. rewrite lookup_delete_eq. split; [done|].
    rewrite He in Hb. cbn [fmap option_fmap option_map] in Hb. injection Hb as <-. eauto.
Qed.

(** ** Runs of the machine *)

Section runs.
Context `{Crypto} (identity : Identity).

(** The same, of a state and a step: which goroutine is about to attach or to enter the table. *)
Definition ordered_step (k : conns) (ev : event) : bool :=
  match ev with
  | Step i _ =>
    match k_threads k !! i with
    | Some (TAttach _ _ claim) | Some (TReattach _ _ claim) =>
      forallb (λ o : nat * (NodeID * Z), negb (o.2.1 =? jc_NodeID claim) || (o.2.2 <? jc_TopologyEpoch claim)) (map_to_list (v_owners (view_of k)))
    | Some (TRegister _ _ claim _ _) =>
      match k_sessions k !! jc_NodeID claim with Some old => is_role RoleChild old && (cn_epoch old <? jc_TopologyEpoch claim) | None => true end
    | Some (TParentRegister _ parent _) => match k_sessions k !! parent with Some old => is_role RoleParent old | None => true end
    | _ => true
    end
  | _ => true
  end.
Inductive run (k0 : conns) : conns → Prop :=
| run_start : run k0 k0
| run_next k ev k' : run k0 k → kstep identity k ev = Some k' → run k0 k'.
Inductive ordered_run (k0 : conns) : conns → Prop :=
| ordered_start : ordered_run k0 k0
| ordered_next k ev k' : ordered_run k0 k → ordered_step k ev = true → kstep identity k ev = Some k' → ordered_run k0 k'.
(** Runs of given events. *)
Fixpoint ksteps (k : conns) (evs : list event) : option conns := match evs with [] => Some k | ev :: evs => k' ← kstep identity k ev; ksteps k' evs end.
Fixpoint steps_ordered (k : conns) (evs : list event) : bool :=
  match evs with [] => true | ev :: evs => ordered_step k ev && match kstep identity k ev with Some k' => steps_ordered k' evs | None => true end end.
Definition fresh_node (k : conns) : Prop := s_children (k_tree k) = ∅ ∧ k_sessions k = ∅ ∧ k_threads k = ∅.

Lemma ksteps_run k0 k evs k' : run k0 k → ksteps k evs = Some k' → run k0 k'.
Proof. revert k. induction evs as [|ev evs IH]; intros k Hr Hs; simpl in Hs; [by injection Hs as <-|]. destruct (kstep identity k ev) as [k1|] eqn:E; [|done]. apply (IH k1); [by eapply run_next|done]. Qed.
Lemma ksteps_ordered k0 k evs k' : ordered_run k0 k → steps_ordered k evs = true → ksteps k evs = Some k' → ordered_run k0 k'.
Proof.
  revert k. induction evs as [|ev evs IH]; intros k Hr Ho Hs; simpl in Ho, Hs; [by injection Hs as <-|]. apply andb_true_iff in Ho as [Ho1 Ho2].
  destruct (kstep identity k ev) as [k1|] eqn:E; [|done]. apply (IH k1); [by eapply ordered_next|done|done].
Qed.
Lemma fresh_scoped k : fresh_node k → scoped (view_of k).
Proof. intros (H1 & H2 & H3). unfold view_of. rewrite H1, H2, H3, !omap_empty. split; simpl; intros *; by rewrite ?lookup_empty. Qed.
Lemma ordered_in_order k ev k' ch : ordered_step k ev = true → cause k ev ch → changes (view_of k) ch (view_of k') → in_order (view_of k) ch.
Proof.
  intros Ho Hc Hch. destruct ch as [|i child epoch| |i j c| | |i c|]; try done.
  - destruct Hc as (inp & l & e & claim & -> & Hi & -> & ->). intros j epoch' Hj.
    assert (forallb (λ o : nat * (NodeID * Z), negb (o.2.1 =? jc_NodeID claim) || (o.2.2 <? jc_TopologyEpoch claim)) (map_to_list (v_owners (view_of k))) = true) as Hf
      by (unfold ordered_step in Ho; by destruct Hi as [Hi|Hi]; rewrite Hi in Ho).
    rewrite forallb_forall in Hf. specialize (Hf (j, (jc_NodeID claim, epoch'))). rewrite <- list_elem_of_In, elem_of_map_to_list in Hf. apply Hf in Hj. simpl in Hj. rewrite Z.eqb_refl in Hj. by apply Z.ltb_lt.
  - destruct Hc as (inp & l & e & claim & re & ack & -> & Hi & ->). unfold ordered_step in Ho. rewrite Hi in Ho. intros old Hold. simpl in Hold. rewrite Hold in Ho.
    apply andb_true_iff in Ho as [H1 H2]. split; [by apply bool_decide_eq_true in H1|by apply Z.ltb_lt].
  - destruct Hc as (inp & l & parent & epoch & -> & Hi & ->). unfold ordered_step in Ho. rewrite Hi in Ho. intros old Hold. simpl in Hold. rewrite Hold in Ho. by apply bool_decide_eq_true in Ho.
Qed.
Lemma ordered_scoped k0 k : fresh_node k0 → ordered_run k0 k → scoped (view_of k).
Proof.
  intros H0. induction 1 as [|k ev k' _ IH Ho Hs]; [by apply fresh_scoped|]. destruct (kstep_explained _ _ _ _ Hs) as (ch & Hch & Hc). eapply changes_scoped; [exact IH|exact Hch|].
  by eapply ordered_in_order.
Qed.

(** An edge is replaced by a newer one, or dropped by its own goroutine after its session. *)
Lemma edge_step k ev k' child e : kstep identity k ev = Some k' → s_children (k_tree k) !! child = Some e →
  (∃ e', s_children (k_tree k') !! child = Some e' ∧ (e' = e ∨ ed_Epoch e < ed_Epoch e')) ∨
  (s_children (k_tree k') !! child = None ∧ ∃ i inp t, ev = Step i inp ∧ k_threads k !! i = Some t ∧ owned t = Some (child, ed_Epoch e) ∧
     ((∃ l re, t = TUndo l child (ed_Epoch e) re) ∨ ∃ c, t = TRemove c)).
Proof.
  intros Hs He. destruct (kstep_explained _ _ _ _ Hs) as (ch & Hch & Hc). destruct (changes_edge _ _ _ child e Hch He) as [?|(Hn & i & -> & Ho)]; [by left|right]. split; [done|].
  destruct Hc as (inp & t & -> & Ht & Hcase). exists i, inp, t. split; [done|]. split; [done|]. split; [by rewrite <- (owner_at _ _ _ Ht)|]. destruct Hcase as [?|(s & -> & _)]; [by left|right; eauto].
Qed.

(** C16. Connections are cleaned up by generation.  As long as the generations of each child are used in
    order, under every interleaving of joins, losses, failures and route events: every child
    edge belongs to exactly one goroutine; the session of the generation of an edge is the
    one in the table, and every session in the table has its goroutine; an edge disappears
    only by a newer one or by its own goroutine, after its session has ended or its join has
    failed; and when no goroutine is left neither an edge nor a session is left. *)
Theorem connections_scoped (k0 k : conns) : fresh_node k0 → ordered_run k0 k →
  (∀ child e, s_children (k_tree k) !! child = Some e →
     (∃ i t, k_threads k !! i = Some t ∧ owned t = Some (child, ed_Epoch e)) ∧
     ∀ i j t u, k_threads k !! i = Some t → k_threads k !! j = Some u → owned t = Some (child, ed_Epoch e) → owned u = Some (child, ed_Epoch e) → i = j) ∧
  (∀ peer c, k_sessions k !! peer = Some c → cn_peer c = peer ∧ ∃ i t, k_threads k !! i = Some t ∧ runs t = Some c) ∧
  (∀ i t c, k_threads k !! i = Some t → runs t = Some c → cn_role c = RoleChild → ed_Epoch <$> s_children (k_tree k) !! cn_peer c = Some (cn_epoch c) → k_sessions k !! cn_peer c = Some c) ∧
  (∀ ev k' child e, kstep identity k ev = Some k' → s_children (k_tree k) !! child = Some e → s_children (k_tree k') !! child ≠ Some e →
     (∃ e', s_children (k_tree k') !! child = Some e' ∧ ed_Epoch e < ed_Epoch e') ∨
     ∃ i inp t, ev = Step i inp ∧ k_threads k !! i = Some t ∧ owned t = Some (child, ed_Epoch e) ∧ ((∃ l re, t = TUndo l child (ed_Epoch e) re) ∨ ∃ c, t = TRemove c)) ∧
  (k_threads k = ∅ → s_children (k_tree k) = ∅ ∧ k_sessions k = ∅).
Proof.
  intros H0 Hr. destruct (ordered_scoped k0 k H0 Hr) as [S1 S2 S3 S4 S5 S6]. simpl in *. split_and!.
  - intros child e He. split.
    + destruct (S1 child e He) as [i Hi]. rewrite lookup_omap in Hi. destruct (k_threads k !! i) as [t|] eqn:Et; [|done]. eauto.
    + intros i j t u Ht Hu Hot Hou. eapply S2; rewrite lookup_omap; [by rewrite Ht; simpl; exact Hot|by rewrite Hu; simpl; exact Hou].
  - intros peer c Hc. destruct (S4 _ _ Hc) as [Hp [i Hi]]. split; [done|]. rewrite lookup_omap in Hi. destruct (k_threads k !! i) as [t|] eqn:Et; [|done]. eauto.
  - intros i t c Ht Hrun Hrole He. destruct (s_children (k_tree k) !! cn_peer c) as [e|] eqn:Ee; [|done]. injection He as He. eapply (S6 i); [|done|done|done]. by rewrite lookup_omap, Ht.
  - intros ev k' child e Hs He Hne. destruct (edge_step k ev k' child e Hs He) as [(e' & He' & [->|Hlt])|(_ & Hx)]; [done|left; eauto|right; done].
  - intros Ht. rewrite Ht, !omap_empty in *. split; apply map_empty; intros x.
    + destruct (s_children (k_tree k) !! x) as [e|] eqn:Ee; [|done]. destruct (S1 _ _ Ee) as [i Hi]. by rewrite lookup_empty in Hi.
    + destruct (k_sessions k !! x) as [c|] eqn:Ec; [|done]. destruct (S4 _ _ Ec) as [_ [i Hi]]. by rewrite lookup_empty in Hi.
Qed.
End runs.

(** ** What was verified *)

Section authentic.
Context `{Crypto} (identity : Identity).
Let self := i_NodeID identity.

Lemma run_trans k0 k1 k2 : run identity k0 k1 → run identity k1 k2 → run identity k0 k2.
Proof. intros H0. induction 1; [done|by eapply run_next]. Qed.

Lemma close_all_world cs k : k_trust (close_all cs k) = k_trust k ∧ k_sent (close_all cs k) = k_sent k.
Proof. induction cs as [|c cs IH]; [done|exact IH]. Qed.
Lemma starts_world {A} (f : A → thread) l k : k_trust (foldr (λ x, start (f x)) k l) = k_trust k ∧ k_sent (foldr (λ x, start (f x)) k l) = k_sent k.
Proof. induction l as [|x l IH]; [done|exact IH]. Qed.
Lemma sendRouteEvent_world ok e k : k_trust (sendRouteEvent ok e k) = k_trust k ∧ k_sent (sendRouteEvent ok e k) = k_sent k.
Proof. unfold sendRouteEvent. by repeat case_match. Qed.
(** Frames of joins are only added. *)
Definition sends (k k' : conns) : Prop := k_sent k `prefix_of` k_sent k'.
Ltac sent := intros [= <-]; unfold sends; simpl;
  rewrite ?(proj2 (starts_world (λ o, TClose (cn_link o)) _ _)), ?(proj2 (starts_world TClose _ _)), ?(proj2 (sendRouteEvent_world _ _ _)); unfold closeSessions; rewrite ?(proj2 (close_all_world _ _));
  first [done|by match goal with Hc : Some _ = Some _ |- _ => injection Hc as <- end|by apply prefix_app_r].
Lemma kstep_sent k ev k' : kstep identity k ev = Some k' → sends k k'.
Proof.
  destruct ev as [l|l p id permit nonce|l|id key saved|id saved| |tid i]; simpl; unfold thread_step; try (repeat case_match; try done; sent).
  destruct (k_threads k !! tid) as [t|]; [|done]. cbn [mbind option_bind]. intros Hs.
  destruct (accept_step identity k tid t i) as [k1|] eqn:E1; [injection Hs as ->; clear -E1; revert E1|].
  2: destruct (run_step identity k tid t i) as [k1|] eqn:E2; [injection Hs as ->; clear -E2; revert E2|clear -Hs; revert Hs].
  - unfold accept_step, drop, activate. destruct t; try done; destruct i as [fr| |ok now]; try done; repeat case_match; try done; sent.
  - unfold run_step, drop. destruct t; try done; repeat case_match; try done; sent.
  - unfold connect_step, drop, activate. destruct t; try done; repeat case_match; try done; sent.
Qed.
Lemma run_sent k k' : run identity k k' → sends k k'.
Proof. unfold sends. induction 1 as [|k1 ev k2 _ IH Hs]; [reflexivity|]. etrans; [exact IH|]. by eapply kstep_sent. Qed.

Section from.
Context (k0 : conns).
(** Earlier in the run, the trust store accepted the claim; or the acknowledgement of a claim
    that the node had sent. *)
Definition accepted (k : conns) (claim : JoinClaim) : Prop := ∃ k1, run identity k0 k1 ∧ run identity k1 k ∧ VerifyJoin (k_trust k1) claim = Ok tt.
Definition acknowledged (k : conns) (parent : NodeID) (epoch : Z) : Prop :=
  ∃ k1 ack l id claim, run identity k0 k1 ∧ run identity k1 k ∧ (l, join_frame self parent id claim) ∈ k_sent k1 ∧ VerifyJoinAck (k_trust k1) ack parent self (jc_Nonce claim) = Ok tt ∧ ja_TopologyEpoch ack = epoch ∧ jc_TopologyEpoch claim = epoch.
Definition session_verified (k : conns) (c : connection) : Prop :=
  match cn_role c with
  | RoleChild => ∃ claim, accepted k claim ∧ jc_NodeID claim = cn_peer c ∧ jc_TopologyEpoch claim = cn_epoch c
  | RoleParent => acknowledged k (cn_peer c) (cn_epoch c)
  end.
(** Earlier in the run, the admission consumed a permit of the claim, for its node and key. *)
Definition permitted (k : conns) (claim : JoinClaim) : Prop :=
  VerifyJoinClaim claim = Ok tt ∧
  ∃ k1 a a' permit now saved, run identity k0 k1 ∧ run identity k1 k ∧ k_admission k1 = Some a ∧ jc_Permit claim = Some permit ∧
    Consume a (jc_NodeID claim) (jc_PublicKey claim) permit now saved = (a', Ok tt).
Definition evidence (k : conns) (t : thread) : Prop :=
  match t with
  | TConsume _ _ claim => VerifyJoinClaim claim = Ok tt
  | TAdd _ _ claim => permitted k claim
  | TJoin l parent id claim => (l, join_frame self parent id claim) ∈ k_sent k
  | TAttach _ _ claim | TReattach _ _ claim | TActivate _ _ claim _ | TRegister _ _ claim _ _ => accepted k claim
  | TRun c | TEnded c | TRemove c | TSend _ (Some c) => session_verified k c
  | TParent _ parent epoch | TParentActivate _ parent epoch | TParentRegister _ parent epoch | TParentStart _ parent epoch _ => acknowledged k parent epoch
  | _ => True
  end.
Definition threads_verified (k : conns) : Prop := map_Forall (λ _ t, evidence k t) (k_threads k).

Lemma accepted_later k k' claim : run identity k k' → accepted k claim → accepted k' claim.
Proof. intros Hr (k1 & H1 & H2 & H3). exists k1. split_and!; [done|by eapply run_trans|done]. Qed.
Lemma acknowledged_later k k' p e : run identity k k' → acknowledged k p e → acknowledged k' p e.
Proof. intros Hr (k1 & a & l & id & c & H1 & H2 & H3). exists k1, a, l, id, c. split_and!; [done|by eapply run_trans|apply H3..]. Qed.
Lemma session_later k k' c : run identity k k' → session_verified k c → session_verified k' c.
Proof.
  intros Hr. unfold session_verified. destruct (cn_role c); [by apply acknowledged_later|]. intros (claim & Ha & Hc). exists claim. split; [by eapply accepted_later|done].
Qed.
Lemma permitted_later k k' claim : run identity k k' → permitted k claim → permitted k' claim.
Proof. intros Hr (Hv & k1 & a & a' & p & now & saved & H1 & H2 & H3). split; [done|]. exists k1, a, a', p, now, saved. split_and!; [done|by eapply run_trans|apply H3..]. Qed.
Lemma evidence_later k k' t : run identity k k' → evidence k t → evidence k' t.
Proof.
  intros Hr. destruct t as [| | | | | | | | | |es next| | | | | | | | | | | | |]; try done; simpl; try first [by apply accepted_later|by apply permitted_later|by apply acknowledged_later|by apply session_later].
  - destruct next; [by apply session_later|done].
  - intros Hj. eapply elem_of_prefix; [exact Hj|by apply run_sent].
Qed.

(** A step changes the threads by these means only. *)
Inductive builds (P : thread → Prop) (m : gmap nat thread) : gmap nat thread → Prop :=
| bd_same : builds P m m
| bd_insert i t m' : builds P m m' → P t → builds P m (<[i := t]> m')
| bd_delete i m' : builds P m m' → builds P m (delete i m').
Lemma builds_all P m m' : map_Forall (λ _, P) m → builds P m m' → map_Forall (λ _, P) m'.
Proof. intros Hm. induction 1; [done|by apply map_Forall_insert_2|by apply map_Forall_delete]. Qed.
Lemma builds_starts {A} P m k (f : A → thread) l : (∀ x, P (f x)) → builds P m (k_threads k) → builds P m (k_threads (foldr (λ x, start (f x)) k l)).
Proof. intros Hf Hk. induction l as [|x l IH]; [done|]. simpl. by apply bd_insert. Qed.
Lemma trust_added s id key saved s' : TrustStore_Add s id key saved = (s', Ok tt) → t_keys s' !! id = Some key.
Proof.
  unfold TrustStore_Add, trust_commit. destruct (NodeID_Validate id); [|done]. destruct (_ =? _); [|done]. cbn [negb]. destruct (t_keys s !! id) as [c|] eqn:Ec.
  - case_bool_decide as Hb; [|done]. intros [= <-]. congruence.
  - destruct (_ =? _); [done|]. destruct (_ && _); [done|]. intros [= <-]. simpl. apply lookup_insert_eq.
Qed.
Lemma closeSessions_threads r p k : k_threads (closeSessions r p k) = k_threads k.
Proof. apply close_all_parts. Qed.
Ltac built := simpl; repeat first [apply bd_delete|apply bd_insert|apply bd_same]; try done.
Lemma accept_builds k tid t i k' : run identity k0 k → k_threads k !! tid = Some t → evidence k t → kstep identity k (Step tid i) = Some k' → accept_step identity k tid t i = Some k' →
  builds (evidence k') (k_threads k) (k_threads k').
Proof.
  intros Hrun Ht He Hk Hs. assert (run identity k k') as Hkk by (eapply run_next; [constructor|exact Hk]). apply (evidence_later _ _ _ Hkk) in He.
  unfold accept_step in Hs. revert Hs.
  destruct t as [l|l e claim|l e claim|l e claim|l e claim|l e claim|l e claim re|l e claim re ack|l c ep re|l c removed|es next|c|c|c|l p id claim|l p ep|l p ep|l p ep|l p ep r|c|c|l| |l]; try done;
    destruct i as [fr| |ok now]; try done; intros Hs.
  - destruct (check_join _ fr); injection Hs as <-; built.
  - injection Hs as <-. built.
  - destruct (VerifyJoin (k_trust k) claim) as [[]|err] eqn:Ev.
    + injection Hs as <-. built. exists k. split; [done|]. split; [exact Hkk|exact Ev].
    + destruct (by_permit _ _ _) eqn:Eb; injection Hs as <-; built. unfold by_permit in Eb. destruct err; try done. apply andb_true_iff in Eb as [_ Eb]. simpl. by destruct (VerifyJoinClaim claim) as [[]|].
  - destruct (k_admission k) as [a|] eqn:Ea; [|done]. destruct (jc_Permit claim) as [p|] eqn:Ep; [|done]. destruct (Consume _ _ _ _ _ _) as [a' [[]|]] eqn:Ec; injection Hs as <-; built.
    split; [exact He|]. by exists k, a, a', p, now, ok.
  - destruct (TrustStore_Add _ _ _ _) as [trust [[]|]] eqn:Et; injection Hs as <-; built. apply trust_added in Et. eexists. split; [by eapply run_trans|]. split; [constructor|].
    unfold VerifyJoin, TrustStore_PublicKey. simpl. rewrite Et, bool_decide_eq_true_2 by done. exact (proj1 He).
  - destruct (AttachChild _ _ _) as [tree|err]; [injection Hs as <-; built|]. destruct err; injection Hs as <-; built.
  - destruct (ReattachChild _ _ _); injection Hs as <-; built.
  - destruct (SignJoinAck _ _ _ _); [|injection Hs as <-; built]. unfold activate in Hs. case_bool_decide; injection Hs as <-; built.
  - destruct (_ || _); [injection Hs as <-; built|]. unfold registered in Hs. injection Hs as <-. apply builds_starts; [done|]. simpl. built. simpl. by exists claim.
  - destruct (WithdrawChildEpoch _ _ _) as [tree removed]. destruct re; injection Hs as <-; built.
  - injection Hs as <-. simpl. rewrite closeSessions_threads. built.
Qed.
Lemma run_builds k tid t i k' : k_threads k !! tid = Some t → evidence k' t → run_step identity k tid t i = Some k' → builds (evidence k') (k_threads k) (k_threads k').
Proof.
  intros Ht He Hs. unfold run_step in Hs. revert Hs.
  destruct t as [l|l e claim|l e claim|l e claim|l e claim|l e claim|l e claim re|l e claim re ack|l c ep re|l c removed|es next|c|c|c|l p id claim|l p ep|l p ep|l p ep|l p ep r|c|c|l| |l]; try done.
  - destruct es as [|e es], next as [c|], i as [fr| |ok now]; try done; intros [= <-]; simpl; rewrite ?(proj2 (proj2 (sendRouteEvent_parts _ _ _))); built.
  - destruct i as [fr| |ok now]; try done; intros Hs; [|case_bool_decide; [injection Hs as <-; built|done]]. destruct (validate_inbound k c fr); [|injection Hs as <-; built].
    destruct (handleInbound identity k c fr) as [[tree ev]|]; injection Hs as <-; built.
  - destruct i as [fr| |ok now]; try done. case_bool_decide; intros [= <-]; built.
  - destruct i as [fr| |ok now]; try done. destruct (cn_role c); [intros [= <-]; built|]. destruct (WithdrawChildEpoch _ _ _). intros [= <-]. built.
  - destruct i as [fr| |ok now]; try done. intros [= <-]. built.
  - destruct i as [fr| |ok now]; try done. intros [= <-]. built.
Qed.
Lemma connect_builds k tid t i k' : run identity k0 k → run identity k k' → k_threads k !! tid = Some t → evidence k t → connect_step identity k tid t i = Some k' →
  builds (evidence k') (k_threads k) (k_threads k').
Proof.
  intros Hrun Hkk Ht Hj Hs. pose proof (evidence_later _ _ _ Hkk Hj) as He. unfold connect_step in Hs. revert Hs.
  destruct t as [l|l e claim|l e claim|l e claim|l e claim|l e claim|l e claim re|l e claim re ack|l c ep re|l c removed|es next|c|c|c|l p id claim|l p ep|l p ep|l p ep|l p ep r|c|c|l| |l]; try done;
    destruct i as [fr| |ok now]; try done; intros Hs.
  - destruct (check_ack _ _ _ _ _ _) as [ep|] eqn:Ec; injection Hs as <-; built. unfold check_ack in Ec. apply fail_if_ok in Ec as [_ Ec]. destruct (decodeJSON (e_Payload fr)) as [ack|]; [|done].
    apply bind_ok in Ec as [Ev Ec]. apply mapErr_ok in Ev. apply fail_if_ok in Ec as [Ee Ec]. injection Ec as <-. bool_prop. exists k, ack, l, id, claim. split_and!; [done|done|exact Hj|done|done|eqb_prop; congruence].
  - injection Hs as <-. built.
  - destruct (ActivateParent _ _ _); injection Hs as <-; built.
  - unfold activate in Hs. case_bool_decide; injection Hs as <-; built.
  - destruct (k_closed k); [injection Hs as <-; built|]. destruct (registered _ _) as [[sessions old] changed]. injection Hs as <-. built.
  - injection Hs as <-. apply builds_starts; [done|]. simpl. built.
  - destruct (_ || _); injection Hs as <-; built.
  - injection Hs as <-. built.
  - injection Hs as <-. simpl. rewrite closeSessions_threads. built.
Qed.
Lemma run_verified k : k_threads k0 = ∅ → run identity k0 k → threads_verified k.
Proof.
  intros H0. induction 1 as [|k ev k' Hr IH Hs]; [unfold threads_verified; rewrite H0; apply map_Forall_empty|].
  assert (run identity k k') as Hkk by (eapply run_next; [constructor|exact Hs]).
  assert (map_Forall (λ _, evidence k') (k_threads k)) as Hm by (eapply map_Forall_impl; [exact IH|]; intros i t; by apply evidence_later).
  eapply builds_all; [exact Hm|]. destruct ev as [l|l p id permit nonce|l|id key saved|id saved| |tid i]; simpl in Hs.
  - destruct (_ || _); [done|]. injection Hs as <-. built.
  - destruct (_ || _); [done|]. destruct (make_claim _ _ _ _); [|done]. injection Hs as <-. built. simpl. apply elem_of_app. right. by apply list_elem_of_singleton.
  - case_bool_decide; [|done]. injection Hs as <-. built.
  - injection Hs as <-. built.
  - injection Hs as <-. built.
  - injection Hs as <-. rewrite (proj2 (proj2 (close_all_parts _ _))). built.
  - pose proof Hs as Hstep. unfold thread_step in Hs. destruct (k_threads k !! tid) as [t|] eqn:Ht; [|done]. cbn [mbind option_bind] in Hs. pose proof (IH tid t Ht) as He.
    destruct (accept_step identity k tid t i) as [k1|] eqn:E1; [injection Hs as ->; by eapply accept_builds|].
    pose proof (evidence_later _ _ _ Hkk He) as He'. destruct (run_step identity k tid t i) as [k1|] eqn:E2; [injection Hs as ->; by eapply run_builds|exact (connect_builds k tid t i k' Hr Hkk Ht He Hs)].
Qed.
End from.

(** What the steps do to the trust store, and frames to the tree. *)
Definition trusts (k : conns) (tid : nat) (i : input) (k' : conns) : Prop :=
  k_trust k' = k_trust k ∨
  ∃ l e claim saved now, i = Go saved now ∧ k_threads k !! tid = Some (TAdd l e claim) ∧ k_trust k' = (TrustStore_Add (k_trust k) (jc_NodeID claim) (jc_PublicKey claim) saved).1.
Ltac leaf := intros [= <-]; left; simpl; rewrite ?(proj1 (starts_world (λ o, TClose (cn_link o)) _ _)), ?(proj1 (starts_world TClose _ _)), ?(proj1 (sendRouteEvent_world _ _ _)); first [done|apply close_all_world|by match goal with Hc : Some _ = Some _ |- _ => injection Hc as <- end].
Lemma thread_trust k tid i k' : thread_step identity k tid i = Some k' → trusts k tid i k'.
Proof.
  unfold thread_step. destruct (k_threads k !! tid) as [t|] eqn:Ht; [|done]. cbn [mbind option_bind]. intros Hs.
  destruct (accept_step identity k tid t i) as [k1|] eqn:E1; [injection Hs as ->; clear -Ht E1; revert E1|].
  2: destruct (run_step identity k tid t i) as [k1|] eqn:E2; [injection Hs as ->; clear -Ht E2; revert E2|clear -Ht Hs; revert Hs].
  - unfold accept_step, drop, activate. destruct t; try done; destruct i as [fr| |ok now]; try done.
    5: { destruct (TrustStore_Add _ _ _ _) as [trust r] eqn:Et. intros Hr. right. exists l, request, claim, ok, now. split; [done|]. split; [done|]. rewrite Et.
         by destruct r; injection Hr as <-. }
    all: repeat case_match; try done; leaf.
  - unfold run_step, drop. destruct t; try done; repeat case_match; try done; leaf.
  - unfold connect_step, drop, activate. destruct t; try done; repeat case_match; try done; leaf.
Qed.
Lemma trust_Add_keys s id key saved id' key' : t_keys (TrustStore_Add s id key saved).1 !! id' = Some key' → t_keys s !! id' = Some key' ∨ (id' = id ∧ key' = key).
Proof.
  unfold TrustStore_Add, trust_commit. repeat case_match; simpl; auto; rewrite lookup_insert_Some; intros [[-> ->]|[_ Hk]]; auto.
Qed.
Lemma trust_Revoke_keys s id saved id' key' : t_keys (TrustStore_Revoke s id saved).1 !! id' = Some key' → t_keys s !! id' = Some key'.
Proof. unfold TrustStore_Revoke, trust_commit. repeat case_match; simpl; auto; by intros [_ Hk]%lookup_delete_Some. Qed.

Lemma frame_tree k tid e k' : thread_step identity k tid (Frame e) = Some k' → k_tree k' ≠ k_tree k →
  ∃ c event, k_threads k !! tid = Some (TRun c) ∧ validate_inbound k c e = Ok tt ∧ handleInbound identity k c e = Some (k_tree k', event).
Proof.
  unfold thread_step. destruct (k_threads k !! tid) as [t|] eqn:Ht; [|done]. cbn [mbind option_bind]. intros Hs Hne.
  destruct t as [| | | | | | | | | |es next| | | | | | | | | | | | |]; try done; try (destruct es, next; done); unfold accept_step, run_step, connect_step, drop in Hs; cbv beta iota in Hs.
  - destruct (check_join _ e); injection Hs as <-; by destruct Hne.
  - destruct (validate_inbound k c e) as [[]|] eqn:Ev; [|injection Hs as <-; by destruct Hne]. destruct (handleInbound identity k c e) as [[tree event]|] eqn:Eh; injection Hs as <-; [|by destruct Hne].
    exists c, event. split; [done|]. split; [done|exact Eh].
  - destruct (check_ack _ _ _ _ _ _); injection Hs as <-; by destruct Hne.
Qed.
(** A route event of a child at its current edge moves only nodes below that child. *)
Lemma inbound_routes k c e t event : handleInbound identity k c e = Some (t, event) →
  cn_role c = RoleChild ∧ e_Target e = self ∧ ed_Epoch <$> s_children (k_tree k) !! cn_peer c = Some (cn_epoch c) ∧ s_parent t = s_parent (k_tree k) ∧ s_children t = s_children (k_tree k) ∧
  ∀ target via, via ≠ cn_peer c → via ≠ 0 → s_routes t !! target = Some via ↔ s_routes (k_tree k) !! target = Some via.
Proof.
  unfold handleInbound. intros Hh. destruct (_ || _); [|done]. destruct (_ || _) eqn:Eo; [done|]. apply orb_false_iff in Eo as [Er Et].
  unfold is_role in Er. apply negb_false_iff, bool_decide_eq_true in Er. apply negb_false_iff, Z.eqb_eq in Et. split; [done|]. split; [done|].
  destruct (decodeJSON _) as [p|]; [|done].
  destruct (_ =? _).
  - destruct (AnnounceWithParent _ _ _ _ _) as [t'|] eqn:Ea; [|done]. injection Hh as <- _. unfold AnnounceWithParent in Ea. apply bind_ok in Ea as [_ Ea]. apply bind_ok in Ea as [_ Ea].
    destruct (s_children (k_tree k) !! cn_peer c) as [ed|]; [|done]. guards Ea. injection Ea as <-. bool_prop. eqb_prop. cbn [fmap option_fmap option_map]. split; [congruence|]. split; [done|]. split; [done|].
    intros target via Hv Hz. simpl. destruct (decide (target = rp_Node p)) as [->|]; [|by rewrite lookup_insert_ne]. rewrite lookup_insert_eq. split; [congruence|]. intros Hr.
    unfold mget in *. rewrite Hr in *. simpl in *. lia.
  - destruct (WithdrawRoute _ _ _ _) as [t'|] eqn:Ea; [|done]. injection Hh as <- _. unfold WithdrawRoute in Ea.
    destruct (s_children (k_tree k) !! cn_peer c) as [ed|]; [|done]. guards Ea. injection Ea as <-. bool_prop. eqb_prop. cbn [fmap option_fmap option_map]. split; [congruence|]. split; [done|]. split; [done|].
    intros target via Hv Hz. simpl. destruct (decide (target = rp_Node p)) as [->|]; [|by rewrite lookup_delete_ne]. rewrite lookup_delete_eq. split; [done|]. intros Hr.
    unfold mget in *. rewrite Hr in *. simpl in *. lia.
Qed.

End authentic.

(** ** Concrete runs *)

Module Connection_demo.
Definition tree0 : Tree.State := mkState 7 None ∅ ∅ ∅ 0 1.
(** The node 7 trusts 5 and 9. *)
Definition self : Identity := Toy.identity 7.
Definition k0 : conns := mkConns tree0 (TrustStore_Add (Toy.trust 5) 9 (be_bytes 32 9) true).1 None ∅ ∅ 0 false ∅ [] [].
Definition claim (epoch : Z) : JoinClaim := match NewJoinClaim (Toy.identity 5) epoch (Some (be_bytes 32 epoch)) with Ok c => c | Err _ => claim_zero end.
Definition go (tid : nat) : event := Step tid (Go true 99).
(** A join of 5 on a link, by a goroutine, up to its registration. *)
Definition attaches (l epoch : Z) (tid : nat) (again : bool) : list event :=
  [Arrive l; Step tid (Frame (join_frame 5 7 l (claim epoch)))] ++ replicate (if again then 4 else 3) (go tid).
(** The join of 9, with the acknowledgement that 9 signs. *)
Definition ack : JoinAck := match SignJoinAck (Toy.identity 9) 7 (be_bytes 32 70) 1 with Ok a => a | Err _ => ack_zero end.
Definition request : Envelope := join_frame 7 9 20 claim_zero.
Definition connects (l : Z) (tid : nat) : list event :=
  [Dial l 9 20 None (be_bytes 32 70); Step tid (Frame (ack_frame 9 request 7 21 ack))] ++ replicate 6 (go tid).
(** The child joins, joins again, and both sessions end. *)
Definition replaced : list event :=
  attaches 1 1 0 false ++ [go 0] ++ attaches 2 2 2 true ++ [go 2; go 4; Step 1 Ended; go 1; go 0; go 0; go 2; go 2; Lost 2; Step 3 Ended] ++ replicate 4 (go 3).
(** The registration of the older join comes last. *)
Definition overtaken : list event :=
  attaches 1 1 0 false ++ attaches 2 2 1 true ++ [go 1; go 0] ++ [go 4; Step 2 Ended; go 2; Lost 1; Step 3 Ended; go 3; go 3; go 3] ++ [go 0; go 0; go 1; go 1].
(** The withdrawal of an ended session is sent after the announcement of the next one. *)
Definition raced : list event :=
  connects 10 0 ++ attaches 1 1 2 false ++ [go 2; go 2; go 2] ++ [Lost 1; Step 3 Ended; go 3; go 3] ++ attaches 2 2 4 false ++ [go 4; go 4; go 3].
Definition state (evs : list event) : conns := default k0 (ksteps self k0 evs).
End Connection_demo.

Lemma connection_fresh : fresh_node Connection_demo.k0.
Proof. done. Qed.
Lemma connection_run evs : is_Some (ksteps Connection_demo.self Connection_demo.k0 evs) → run Connection_demo.self Connection_demo.k0 (Connection_demo.state evs).
Proof. intros [k Hk]. unfold Connection_demo.state. rewrite Hk. eapply ksteps_run; [constructor|exact Hk]. Qed.
Lemma connection_ordered evs : is_Some (ksteps Connection_demo.self Connection_demo.k0 evs) → steps_ordered Connection_demo.self Connection_demo.k0 evs = true →
  ordered_run Connection_demo.self Connection_demo.k0 (Connection_demo.state evs).
Proof. intros [k Hk] Ho. unfold Connection_demo.state. rewrite Hk. eapply ksteps_ordered; [constructor|exact Ho|exact Hk]. Qed.
Lemma some_by {A} (o : option A) : bool_decide (is_Some o) = true → is_Some o.
Proof. apply bool_decide_eq_true. Qed.
Lemma no_threads (m : gmap nat thread) : map_size m = 0%nat → m = ∅.
Proof. apply map_size_empty_inv. Qed.
Lemma replaced_runs : is_Some (ksteps Connection_demo.self Connection_demo.k0 Connection_demo.replaced) ∧ steps_ordered Connection_demo.self Connection_demo.k0 Connection_demo.replaced = true ∧
  k_threads (Connection_demo.state Connection_demo.replaced) = ∅.
Proof. split; [apply some_by; by vm_compute|split; [by vm_compute|apply no_threads; by vm_compute]]. Qed.
(** Both generations of a child come and go, and nothing is left. *)
Lemma connections_scoped_witness :
  let k := Connection_demo.state Connection_demo.replaced in ordered_run Connection_demo.self Connection_demo.k0 k ∧ s_children (k_tree k) = ∅ ∧ k_sessions k = ∅.
Proof.
  destruct replaced_runs as (H1 & H2 & H3). pose proof (connection_ordered _ H1 H2) as Hr. split; [exact Hr|].
  apply (proj2 (proj2 (proj2 (proj2 (connections_scoped Connection_demo.self Connection_demo.k0 _ connection_fresh Hr)))) H3).
Defined.
(** Out of order, they are not: the edge of the newer join stays without a session. *)
Lemma overtaken_registration :
  let k := Connection_demo.state Connection_demo.overtaken in
  run Connection_demo.self Connection_demo.k0 k ∧ k_threads k = ∅ ∧ k_sessions k = ∅ ∧ ed_Epoch <$> s_children (k_tree k) !! 5 = Some 2.
Proof.
  split; [apply connection_run, some_by; by vm_compute|]. split; [apply no_threads; by vm_compute|]. split; [apply map_size_empty_inv; by vm_compute|by vm_compute].
Qed.
(** A withdrawal that is sent late: the parent loses a child that is attached and running. *)
Lemma late_withdrawal :
  let k := Connection_demo.state Connection_demo.raced in
  ordered_run Connection_demo.self Connection_demo.k0 k ∧ k_up k = [Announced 5 7; Announced 5 7; Withdrawn 5] ∧
  ed_Epoch <$> s_children (k_tree k) !! 5 = Some 2 ∧ k_sessions k !! 5 = Some (mkConnection 5 RoleChild 2 2) ∧ k_threads k !! 5%nat = Some (TRun (mkConnection 5 RoleChild 2 2)).
Proof.
  split; [apply connection_ordered; [apply some_by; by vm_compute|by vm_compute]|]. split_and!; by vm_compute.
Qed.
Lemma raced_runs : is_Some (ksteps Connection_demo.self Connection_demo.k0 Connection_demo.raced).
Proof. apply some_by. by vm_compute. Qed.
Lemma raced_session : k_sessions (Connection_demo.state Connection_demo.raced) !! 5 = Some (mkConnection 5 RoleChild 2 2) ∧
  k_sessions (Connection_demo.state Connection_demo.raced) !! 9 = Some (mkConnection 9 RoleParent 1 10).
Proof. split; by vm_compute. Qed.
