(* ===== verification/JoinRuns.v ===== *)
(** * A join connects (runtime/node/connection.go)

    Two machines of Connection, a node that dials and the node that it dials: the frames of
    each are what the other one has sent. *)

From S2P Require Import Prelude GoStd GoStruct Payload Wire Codec EnrollmentWire Identity Admission Tree Policy Node Join Connection ConnectionRuns.
Open Scope Z_scope.

(** Starting goroutines changes nothing else. *)
Record kept (k k' : conns) : Prop := mkKept {
  kp_tree : k_tree k' = k_tree k; kp_sessions : k_sessions k' = k_sessions k; kp_links : k_links k' = k_links k; kp_sent : k_sent k' = k_sent k; kp_up : k_up k' = k_up k;
  kp_threads i t : k_threads k !! i = Some t → k_threads k' !! i = Some t
}.
Lemma start_kept t k : kept k (start t k).
Proof. split; try done. intros i u Hi. simpl. unfold spawn. rewrite lookup_insert_ne; [done|]. intros <-. by rewrite fresh_thread in Hi. Qed.
Lemma kept_trans k k1 k2 : kept k k1 → kept k1 k2 → kept k k2.
Proof. intros [] []. split; eauto; congruence. Qed.
Lemma starts_kept {A} (f : A → thread) l k : kept k (foldr (λ x, start (f x)) k l).
Proof. induction l as [|x l IH]; [by split|]. eapply kept_trans; [exact IH|apply start_kept]. Qed.
Lemma start_runs t k : k_threads (start t k) !! fresh (dom (k_threads k)) = Some t.
Proof. apply lookup_insert_eq. Qed.

Lemma registered_lookup c m : (registered c m).1.1 !! cn_peer c = Some c.
Proof. apply lookup_insert_eq. Qed.

Section steps.
Context `{Crypto} (identity : Identity).

Lemma step_accept k tid t i k' : k_threads k !! tid = Some t → accept_step identity k tid t i = Some k' → kstep identity k (Step tid i) = Some k'.
Proof. intros Ht Hs. simpl. unfold thread_step. rewrite Ht. cbn [mbind option_bind]. by rewrite Hs. Qed.
Lemma step_run k tid t i k' : k_threads k !! tid = Some t → accept_step identity k tid t i = None → run_step identity k tid t i = Some k' → kstep identity k (Step tid i) = Some k'.
Proof. intros Ht Ha Hs. simpl. unfold thread_step. rewrite Ht. cbn [mbind option_bind]. by rewrite Ha, Hs. Qed.
Lemma step_connect k tid t i k' :
  k_threads k !! tid = Some t → accept_step identity k tid t i = None → run_step identity k tid t i = None → connect_step identity k tid t i = Some k' → kstep identity k (Step tid i) = Some k'.
Proof. intros Ht Ha Hr Hs. simpl. unfold thread_step. rewrite Ht. cbn [mbind option_bind]. by rewrite Ha, Hr. Qed.
Lemma ksteps_app k evs evs' k1 k2 : ksteps identity k evs = Some k1 → ksteps identity k1 evs' = Some k2 → ksteps identity k (evs ++ evs') = Some k2.
Proof. revert k. induction evs as [|ev evs IH]; intros k Hs Hs'; simpl in *; [by injection Hs as ->|]. destruct (kstep identity k ev); [|done]. by apply IH. Qed.
Lemma ksteps_cons k ev evs k1 k2 : kstep identity k ev = Some k1 → ksteps identity k1 evs = Some k2 → ksteps identity k (ev :: evs) = Some k2.
Proof. intros H1 H2. simpl. by rewrite H1. Qed.

(** What is true of a node whose goroutine [tid] has sent its route events and ended. *)
Lemma send_all es tid k p c : k_threads k !! tid = Some (TSend es None) → Parent (k_tree k) = Some p → k_sessions k !! ed_Node p = Some c →
  ∃ k', ksteps identity k (replicate (S (length es)) (Step tid (Go true 0))) = Some k' ∧ k_threads k' = delete tid (k_threads k) ∧ k_up k' = k_up k ++ es ∧
    k_tree k' = k_tree k ∧ k_sessions k' = k_sessions k ∧ k_links k' = k_links k ∧ k_sent k' = k_sent k.
Proof.
  revert k. induction es as [|e es IH]; intros k Ht Hp Hc.
  - exists (finish tid k). split; [|by rewrite app_nil_r]. eapply ksteps_cons; [by eapply step_run|done].
  - set (k1 := goto tid (TSend es None) (set_up k (k_up k ++ [e]))). assert (kstep identity k (Step tid (Go true 0)) = Some k1) as H1.
    { eapply step_run; [exact Ht|done|]. simpl. unfold sendRouteEvent. rewrite Hp. cbn [andb]. rewrite Hc. done. }
    destruct (IH k1) as (k' & H2 & H3 & H4 & H5 & H6 & H7 & H8); [apply lookup_insert_eq|done|exact Hc|]. exists k'. split; [by eapply ksteps_cons|].
    split; [rewrite H3; apply delete_insert_eq|]. split; [rewrite H4; simpl; by rewrite <- app_assoc|]. done.
Qed.
End steps.

Section joins.
Context `{CryptoLaws} (child parent : Identity).
Let c := i_NodeID child.
Let p := i_NodeID parent.

(** The claim and the acknowledgement arrive as they were sent. *)
Lemma join_accepted id claim : claim_ok claim → jc_NodeID claim = c → check_join p (join_frame c p id claim) = Ok claim.
Proof. intros Hok Hn. unfold check_join, join_frame. cbn [e_Operation e_Phase e_Target e_Payload e_Source]. rewrite !Z.eqb_refl. cbn [negb orb]. rewrite (decode_encodeJSON claim) by exact Hok. rewrite Hn, Z.eqb_refl. done. Qed.
Lemma ack_accepted trust id ackid claim ack request :
  ack_ok ack → e_MessageID request = id → VerifyJoinAck trust ack p c (jc_Nonce claim) = Ok tt → ja_TopologyEpoch ack = jc_TopologyEpoch claim →
  check_ack trust c p id claim (ack_frame p request c ackid ack) = Ok (ja_TopologyEpoch ack).
Proof.
  intros Hok Hid Hv He. unfold check_ack, ack_frame. cbn [e_Operation e_CorrelationID e_Target e_Payload e_Source]. rewrite Hid, !Z.eqb_refl. cbn [negb orb]. rewrite (decode_encodeJSON ack) by exact Hok. rewrite Hv. simpl. by rewrite He, Z.eqb_refl.
Qed.

(** The parent admits a claim that it trusts: the edge is new, or replaces an older one. *)
Definition attaches (t : Tree.State) (epoch : Z) (again : bool) (t' : Tree.State) : Prop :=
  if again then AttachChild t c epoch = Err ErrChildExists ∧ ReattachChild t c epoch = Ok t' else AttachChild t c epoch = Ok t'.
Definition parent_events (m : Z) (i : nat) (request : Envelope) (again : bool) (ackid : Z) : list event :=
  [Arrive m; Step i (Frame request); Step i (Go true 0); Step i (Go true 0)] ++ (if again then [Step i (Go true 0)] else []) ++ [Step i (Go true 0); Step i (Go true ackid)].
Definition child_events (j : nat) (response : Envelope) (events : nat) : list event := Step j (Frame response) :: replicate 5 (Step j (Go true 0)) ++ replicate (S events) (Step j (Go true 0)).

Lemma parent_admits kp m id claim ack ackid again t' :
  k_closed kp = false → k_links kp !! m = None → claim_ok claim → jc_NodeID claim = c → VerifyJoin (k_trust kp) claim = Ok tt →
  SignJoinAck parent c (jc_Nonce claim) (jc_TopologyEpoch claim) = Ok ack → attaches (k_tree kp) (jc_TopologyEpoch claim) again t' →
  let i := fresh (dom (k_threads kp)) in
  let request := join_frame c p id claim in
  let s := mkConnection c RoleChild (jc_TopologyEpoch claim) m in
  ∃ kp', ksteps parent kp (parent_events m i request again ackid) = Some kp' ∧ k_sent kp' = k_sent kp ++ [(m, ack_frame p request c ackid ack)] ∧
    k_tree kp' = t' ∧ k_sessions kp' !! c = Some s ∧ k_links kp' !! m = Some LinkActive ∧ k_threads kp' !! i = Some (TSend [Announced c p] None) ∧ ∃ r, k_threads kp' !! r = Some (TRun s).
Proof.
  intros Hcl Hl Hok Hn Hv Hack Hat i request s. pose proof (join_accepted id claim Hok Hn) as Hj. unfold parent_events, activate in *.
  set (k1 := start (TAccept m) (set_links kp (<[m := LinkNew]> (k_links kp)))).
  assert (kstep parent kp (Arrive m) = Some k1) as H1 by (simpl; by rewrite Hcl, Hl).
  set (k2 := goto i (TVerify m request claim) k1).
  assert (kstep parent k1 (Step i (Frame request)) = Some k2) as H2.
  { eapply step_accept; [apply lookup_insert_eq|]. simpl. fold p. unfold request in *. by rewrite Hj. }
  set (k3 := goto i (TAttach m request claim) k2).
  assert (kstep parent k2 (Step i (Go true 0)) = Some k3) as H3 by (eapply step_accept; [apply lookup_insert_eq|]; simpl; by rewrite Hv).
  set (k4 := goto i (TActivate m request claim again) (set_tree (if again then goto i (TReattach m request claim) k3 else k3) t')).
  assert (ksteps parent k3 (Step i (Go true 0) :: (if again then [Step i (Go true 0)] else [])) = Some k4) as H4.
  { destruct again; [destruct Hat as [Ha Hr]|].
    - eapply ksteps_cons; [eapply step_accept; [apply lookup_insert_eq|]; simpl; rewrite Hn, Ha; reflexivity|].
      eapply ksteps_cons; [eapply step_accept; [apply lookup_insert_eq|]; simpl; rewrite Hn, Hr; reflexivity|done].
    - eapply ksteps_cons; [eapply step_accept; [apply lookup_insert_eq|]; simpl; rewrite Hn, Hat; reflexivity|done]. }
  assert (k_links k4 !! m = Some LinkNew ∧ k_closed k4 = false ∧ k_sent k4 = k_sent kp ∧ k_tree k4 = t' ∧ k_sessions k4 = k_sessions kp ∧ k_threads k4 !! i = Some (TActivate m request claim again)) as (L1 & L2 & L3 & L4 & L6 & L5).
  { destruct again; (split_and!; [apply lookup_insert_eq|exact Hcl|done|done|done|apply lookup_insert_eq]). }
  clearbody k4.
  set (k5 := goto i (TRegister m request claim again ack) (set_links k4 (<[m := LinkActive]> (k_links k4)))).
  assert (kstep parent k4 (Step i (Go true 0)) = Some k5) as H5.
  { eapply step_accept; [exact L5|]. cbn [accept_step]. rewrite Hn, Hack. unfold activate. by rewrite L1. }
  assert (∃ kp', kstep parent k5 (Step i (Go true ackid)) = Some kp' ∧ k_sent kp' = k_sent kp ++ [(m, ack_frame p request c ackid ack)] ∧
    k_tree kp' = t' ∧ k_sessions kp' !! c = Some s ∧ k_links kp' !! m = Some LinkActive ∧ k_threads kp' !! i = Some (TSend [Announced c p] None) ∧ ∃ r, k_threads kp' !! r = Some (TRun s)) as (kp' & H6 & Hrest).
  { pose proof (registered_lookup s (k_sessions kp)) as Hreg. destruct (registered s (k_sessions kp)) as [[ss old] ch] eqn:Er. simpl in Hreg.
    set (kg := goto i (TSend [Announced c p] None) (send m (ack_frame p request c ackid ack) (set_sessions k5 ss))). exists (foldr (λ o, start (TClose (cn_link o))) (start (TRun s) kg) old). split.
    { eapply step_accept; [apply lookup_insert_eq|]. cbn [accept_step]. change (k_closed k5) with (k_closed k4). change (k_links k5 !! m) with (<[m := LinkActive]> (k_links k4) !! m).
      rewrite L2, lookup_insert_eq, Hn. fold s. change (k_sessions k5) with (k_sessions k4). by rewrite L6, Er. }
    pose proof (start_runs (TRun s) kg) as Hr. pose proof (kept_trans _ _ _ (start_kept (TRun s) kg) (starts_kept (λ o, TClose (cn_link o)) old _)) as [K1 K2 K3 K4 K5 K6].
    split_and!; [etrans; [exact K4|]; simpl; by rewrite L3|etrans; [exact K1|exact L4]|rewrite K2; exact Hreg|rewrite K3; apply lookup_insert_eq|apply K6, lookup_insert_eq|].
    eexists. apply (kp_threads _ _ (starts_kept (λ o, TClose (cn_link o)) old _)). exact Hr. }
  exists kp'. split; [|exact Hrest]. unfold parent_events. eapply ksteps_cons; [exact H1|]. eapply ksteps_cons; [exact H2|]. eapply ksteps_cons; [exact H3|]. eapply (ksteps_app parent _ (_ :: _)); [exact H4|].
  eapply ksteps_cons; [exact H5|]. eapply ksteps_cons; [exact H6|done].
Qed.

(** The child takes the acknowledgement, and announces the nodes below it. *)
Lemma activated t epoch t' : ActivateParent t p epoch = Ok t' → Parent t' = Some (mkEdge p epoch).
Proof. unfold ActivateParent. intros Ha. apply bind_ok in Ha as [_ Ha]. guards Ha. by injection Ha as <-. Qed.
Definition announcements (t : Tree.State) : list route_event := (λ r, Announced r.1 r.2) <$> Relations t.
Lemma child_connects kc j l id claim ack ackid request t' :
  k_closed kc = false → k_threads kc !! j = Some (TJoin l p id claim) → k_links kc !! l = Some LinkNew → e_MessageID request = id → ack_ok ack →
  VerifyJoinAck (k_trust kc) ack p c (jc_Nonce claim) = Ok tt → ja_TopologyEpoch ack = jc_TopologyEpoch claim → ActivateParent (k_tree kc) p (ja_TopologyEpoch ack) = Ok t' →
  let d := mkConnection p RoleParent (ja_TopologyEpoch ack) l in
  ∃ kc', ksteps child kc (child_events j (ack_frame p request c ackid ack) (length (announcements t'))) = Some kc' ∧ k_tree kc' = t' ∧ k_sessions kc' !! p = Some d ∧
    k_links kc' !! l = Some LinkActive ∧ k_up kc' = k_up kc ++ announcements t' ∧ k_threads kc' !! j = None ∧ ∃ r, k_threads kc' !! r = Some (TRun d).
Proof.
  intros Hcl Ht Hl Hid Hok Hv He Ha d. pose proof (ack_accepted (k_trust kc) id ackid claim ack request Hok Hid Hv He) as Hc. set (epoch := ja_TopologyEpoch ack) in *.
  assert (∃ k1, ksteps child kc [Step j (Frame (ack_frame p request c ackid ack)); Step j (Go true 0); Step j (Go true 0)] = Some k1 ∧
    k_threads k1 !! j = Some (TParentRegister l p epoch) ∧ k_tree k1 = t' ∧ k_links k1 !! l = Some LinkActive ∧ k_closed k1 = false ∧ k_up k1 = k_up kc) as (k1 & H1 & T1 & R1 & L1 & C1 & U1).
  { eexists. split; [eapply ksteps_cons; [eapply step_connect; [exact Ht|done|done|]; cbn [connect_step]; fold c; rewrite Hc; reflexivity|]|].
    - eapply ksteps_cons; [eapply step_connect; [apply lookup_insert_eq|done|done|]; cbn [connect_step]; change (k_tree (goto _ _ kc)) with (k_tree kc); rewrite Ha; reflexivity|].
      eapply ksteps_cons; [eapply step_connect; [apply lookup_insert_eq|done|done|]; cbn [connect_step]; unfold activate; simpl k_links; rewrite Hl; reflexivity|reflexivity].
    - split_and!; [apply lookup_insert_eq|done|apply lookup_insert_eq|exact Hcl|done]. }
  assert (∃ k2, ksteps child k1 [Step j (Go true 0); Step j (Go true 0)] = Some k2 ∧
    k_threads k2 !! j = Some (THeartbeat d) ∧ k_tree k2 = t' ∧ k_links k2 !! l = Some LinkActive ∧ k_sessions k2 !! p = Some d ∧ k_up k2 = k_up kc ∧ ∃ r, k_threads k2 !! r = Some (TRun d)) as (k2 & H2 & T2 & R2 & L2 & S2 & U2 & r & Hr).
  { pose proof (registered_lookup d (k_sessions k1)) as Hreg. destruct (registered d (k_sessions k1)) as [[ss old] ch] eqn:Er. simpl in Hreg.
    set (kg := goto j (THeartbeat d) (set_generation (goto j (TParentStart l p epoch (cn_link <$> old)) (set_sessions k1 ss)) (u64 (k_parentGeneration k1 + 1)))).
    exists (foldr (λ l, start (TClose l)) (start (TRun d) kg) (cn_link <$> old)). split.
    { eapply ksteps_cons; [eapply step_connect; [exact T1|done|done|]; cbn [connect_step]; fold d; rewrite C1, Er; reflexivity|].
      eapply ksteps_cons; [eapply step_connect; [apply lookup_insert_eq|done|done|reflexivity]|reflexivity]. }
    pose proof (start_runs (TRun d) kg) as Hr. pose proof (kept_trans _ _ _ (start_kept (TRun d) kg) (starts_kept TClose (cn_link <$> old) _)) as [K1 K2 K3 K4 K5 K6].
    split_and!; [apply K6, lookup_insert_eq|etrans; [exact K1|exact R1]|rewrite K3; exact L1|rewrite K2; exact Hreg|etrans; [exact K5|exact U1]|].
    eexists. apply (kp_threads _ _ (starts_kept TClose (cn_link <$> old) _)). exact Hr. }
  set (k3 := goto j (TSend (announcements t') None) k2).
  assert (kstep child k2 (Step j (Go true 0)) = Some k3) as H3.
  { eapply step_connect; [exact T2|done|done|]. cbn [connect_step]. change (cn_link d) with l. rewrite L2. simpl. by rewrite R2. }
  destruct (send_all child (announcements t') j k3 (mkEdge p epoch) d) as (kc' & H4 & T4 & U4 & R4 & S4 & L4 & _); [apply lookup_insert_eq|simpl; rewrite R2; by eapply activated|exact S2|].
  exists kc'. split.
  { unfold child_events. change (Step j (Frame (ack_frame p request c ackid ack)) :: replicate 5 (Step j (Go true 0)))
      with ([Step j (Frame (ack_frame p request c ackid ack)); Step j (Go true 0); Step j (Go true 0)] ++ [Step j (Go true 0); Step j (Go true 0)] ++ [Step j (Go true 0)]).
    rewrite app_comm_cons. eapply ksteps_app; [|exact H4]. eapply (ksteps_app child _ [_; _; _] [_; _; _]); [exact H1|]. eapply (ksteps_app child _ [_; _]); [exact H2|]. eapply ksteps_cons; [exact H3|done]. }
  split_and!; [by rewrite R4|by rewrite S4|by rewrite L4|by rewrite U4; simpl; rewrite U2|rewrite T4; apply lookup_delete_eq|]. exists r. rewrite T4, lookup_delete_ne; [simpl; rewrite lookup_insert_ne; [exact Hr|]|].
  - intros <-. congruence.
  - intros <-. congruence.
Qed.

Lemma attached t epoch again t' : attaches t epoch again t' → s_children t' !! c = Some (mkEdge c epoch).
Proof.
  intros Ha. destruct again; simpl in Ha; [destruct Ha as [_ Ha]; apply reattach_edges in Ha as [-> _]|apply attach_edges in Ha as [-> _]]; apply lookup_insert_eq.
Qed.
Lemma next_parent t : 0 ≤ s_epoch t < maxUint64 → p ≠ 0 → wouldCycle t p = false → ∃ t', ActivateParent t p (NextEpoch t) = Ok t' ∧ NextEpoch t = s_epoch t + 1.
Proof.
  intros He Hp Hc. assert (NextEpoch t = s_epoch t + 1) as Hn by (unfold NextEpoch, u64; apply Z.mod_small; unfold maxUint64 in He; lia). rewrite Hn. unfold ActivateParent, checkNode. rewrite (proj2 (NodeID_Validate_ok p)) by done. cbn [mapErr mbind result_bind].
  rewrite (proj2 (Z.eqb_neq _ _)), Hc, (proj2 (Z.ltb_ge _ _)), (proj2 (Z.eqb_neq (s_epoch t + 1) (s_epoch t))) by lia. simpl. eauto.
Qed.
Lemma trusted_ack trust nonce epoch :
  Identity_Validate parent = Ok tt → is_u64 p → is_u64 c → c ≠ 0 → is_u64 epoch → epoch ≠ 0 → length nonce = 32%nat → t_keys trust !! p = Some (i_PublicKey parent) →
  ∃ ack, SignJoinAck parent c nonce epoch = Ok ack ∧ ack_ok ack ∧ ja_TopologyEpoch ack = epoch ∧ VerifyJoinAck trust ack p c nonce = Ok tt.
Proof.
  intros Hp Hpu Hcu Hc0 Heu He Hn Ht. pose proof (Identity_Validate_ok parent Hp) as (Hp0 & Hp1 & Hp2 & Hp3).
  unfold SignJoinAck. rewrite Hp, (proj2 (NodeID_Validate_ok _)), (proj2 (Z.eqb_neq epoch 0)) by done. simpl. eexists. split; [done|]. split; [done|]. split; [done|].
  unfold VerifyJoinAck, TrustStore_PublicKey. simpl. fold p. rewrite !Z.eqb_refl, bool_decide_eq_true_2, (proj2 (Z.eqb_neq _ _)) by done. simpl.
  rewrite Ht, Sign_size, Z.eqb_refl. simpl. unfold ackMessage. simpl. rewrite <- Hp3, Verify_Sign by done. done.
Qed.
Lemma claim_parts nonce epoch claim : NewJoinClaim child epoch (Some nonce) = Ok claim → is_u64 c → is_u64 epoch → length nonce = 32%nat →
  claim_ok claim ∧ jc_NodeID claim = c ∧ jc_Nonce claim = nonce ∧ jc_TopologyEpoch claim = epoch.
Proof. unfold NewJoinClaim, newJoinClaim. intros Hc ? ? ?. guards Hc. injection Hc as <-. simpl. split_and!; try done. Qed.

(** C17. A join connects.  A node that trusts a parent and is trusted by it dials: the parent's
    machine takes the frame that the child's machine has sent, and the child's the one that
    the parent's has sent; when the sends succeed, both have registered the session at the
    next generation of the child, active and running, with the edges of both trees; the
    parent is about to announce the child, and the child has announced every node below it,
    whatever else the two nodes were doing and whether the child was attached before. *)
Theorem join_connects (kc kp : conns) (l m : Z) (id ackid : MessageID) (nonce : list byte) (again : bool) (t' : Tree.State) :
  Identity_Validate child = Ok tt → Identity_Validate parent = Ok tt → is_u64 c → is_u64 p → length nonce = 32%nat →
  k_closed kc = false → k_links kc !! l = None → t_keys (k_trust kc) !! p = Some (i_PublicKey parent) → 0 ≤ s_epoch (k_tree kc) < maxUint64 → wouldCycle (k_tree kc) p = false →
  k_closed kp = false → k_links kp !! m = None → t_keys (k_trust kp) !! c = Some (i_PublicKey child) → attaches (k_tree kp) (NextEpoch (k_tree kc)) again t' →
  let epoch := NextEpoch (k_tree kc) in
  let s := mkConnection c RoleChild epoch m in
  let d := mkConnection p RoleParent epoch l in
  ∃ claim ack kc1 kp' kc' i j n,
    kstep child kc (Dial l p id None nonce) = Some kc1 ∧ k_sent kc1 = k_sent kc ++ [(l, join_frame c p id claim)] ∧
    ksteps parent kp (parent_events m i (join_frame c p id claim) again ackid) = Some kp' ∧ k_sent kp' = k_sent kp ++ [(m, ack_frame p (join_frame c p id claim) c ackid ack)] ∧
    ksteps child kc1 (child_events j (ack_frame p (join_frame c p id claim) c ackid ack) n) = Some kc' ∧
    (s_children (k_tree kp') !! c = Some (mkEdge c epoch) ∧ k_sessions kp' !! c = Some s ∧ k_links kp' !! m = Some LinkActive ∧ (∃ r, k_threads kp' !! r = Some (TRun s)) ∧
     k_threads kp' !! i = Some (TSend [Announced c p] None)) ∧
    Parent (k_tree kc') = Some (mkEdge p epoch) ∧ k_sessions kc' !! p = Some d ∧ k_links kc' !! l = Some LinkActive ∧ (∃ r, k_threads kc' !! r = Some (TRun d)) ∧
    k_up kc' = k_up kc ++ announcements (k_tree kc').
Proof.
  intros Hvc Hvp Hcu Hpu Hn C1 L1 T1 E1 W1 C2 L2 T2 A2 epoch s d. pose proof (Identity_Validate_ok child Hvc) as (Hc0 & _). pose proof (Identity_Validate_ok parent Hvp) as (Hp0 & _).
  destruct (next_parent (k_tree kc) E1 Hp0 W1) as (tc & Hact & Hep). assert (is_u64 epoch ∧ epoch ≠ 0) as [Heu He0] by (unfold epoch; rewrite Hep; unfold is_u64; lia).
  assert (∃ claim, NewJoinClaim child epoch (Some nonce) = Ok claim) as [claim Hcl] by (unfold NewJoinClaim, newJoinClaim; rewrite Hvc, (proj2 (Z.eqb_neq _ _) He0); simpl; eauto).
  destruct (claim_parts _ _ _ Hcl Hcu Heu Hn) as (Hok & Hcn & Hcnn & Hce). destruct (trusted_ack (k_trust kc) nonce epoch Hvp Hpu Hcu Hc0 Heu He0 Hn T1) as (ack & Hack & Haok & Hae & Hav).
  pose proof (claim_accepted _ _ _ _ _ T2 Hcl) as Hver. subst nonce.
  set (kc1 := start (TJoin l p id claim) (send l (join_frame c p id claim) (set_links kc (<[l := LinkNew]> (k_links kc))))).
  assert (kstep child kc (Dial l p id None (jc_Nonce claim)) = Some kc1) as H1.
  { simpl. rewrite L1, (proj2 (NodeID_Validate_ok p) Hp0). simpl. unfold make_claim. fold epoch. by rewrite Hcl. }
  assert (Hat : attaches (k_tree kp) (jc_TopologyEpoch claim) again t') by (rewrite Hce; exact A2). assert (Hack' : SignJoinAck parent c (jc_Nonce claim) (jc_TopologyEpoch claim) = Ok ack) by (rewrite Hce; exact Hack).
  destruct (parent_admits kp m id claim ack ackid again t' C2 L2 Hok Hcn Hver Hack' Hat) as (kp' & P1 & P2 & P3 & P4 & P5 & P6 & P7).
  rewrite Hce in P4, P7. assert (Hact' : ActivateParent (k_tree kc1) p (ja_TopologyEpoch ack) = Ok tc) by (rewrite Hae; exact Hact).
  destruct (child_connects kc1 (fresh (dom (k_threads kc))) l id claim ack ackid (join_frame c p id claim) tc) as (kc' & Q1 & Q2 & Q3 & Q4 & Q5 & _ & Q7);
    [exact C1|apply lookup_insert_eq|apply lookup_insert_eq|done|done|exact Hav|congruence|exact Hact'|]. rewrite Hae in Q3, Q7.
  exists claim, ack, kc1, kp', kc', (fresh (dom (k_threads kp))), (fresh (dom (k_threads kc))), (length (announcements tc)). split; [exact H1|]. split; [done|]. split; [exact P1|]. split; [exact P2|]. split; [exact Q1|].
  split; [split_and!; [rewrite P3; by eapply attached|exact P4|exact P5|exact P7|exact P6]|]. split_and!; [rewrite Q2; by eapply activated|exact Q3|exact Q4|exact Q7|by rewrite Q5, Q2].
Qed.
End joins.

(** ** A concrete join *)

Module Join_demo.
(** The node 5 has the child 3 and was a child of 7 before. *)
Definition kc : conns := mkConns (mkState 5 None {[3 := mkEdge 3 1]} {[3 := 3]} {[3 := 5]} 4 2) (Toy.trust 7) None ∅ ∅ 0 false ∅ [] [].
Definition kp_tree : Tree.State := mkState 7 None {[5 := mkEdge 5 1]} {[5 := 5]} {[5 := 7]} 0 2.
Definition kp : conns := mkConns kp_tree (Toy.trust 5) None ∅ ∅ 0 false ∅ [] [].
Definition kp_next : Tree.State := with_members kp_tree (<[5 := mkEdge 5 5]> (s_children kp_tree)) (s_routes kp_tree) (s_parents kp_tree).
End Join_demo.
Lemma demo_reattaches : attaches (Toy.identity 5) Join_demo.kp_tree (NextEpoch (k_tree Join_demo.kc)) true Join_demo.kp_next.
Proof. split; reflexivity. Qed.
Lemma join_connects_witness : ∃ kc1 kc' evs,
  kstep (Toy.identity 5) Join_demo.kc (Dial 1 7 20 None (be_bytes 32 70)) = Some kc1 ∧ ksteps (Toy.identity 5) kc1 evs = Some kc' ∧ Parent (k_tree kc') = Some (mkEdge 7 5) ∧
  k_up kc' = announcements (k_tree kc').
Proof.
  destruct (join_connects (Toy.identity 5) (Toy.identity 7) Join_demo.kc Join_demo.kp 1 2 20 21 (be_bytes 32 70) true Join_demo.kp_next)
    as (claim & ack & kc1 & kp' & kc' & i & j & n & H1 & _ & _ & _ & H5 & _ & H6 & _ & _ & _ & H7);
    [vm_compute; reflexivity|vm_compute; reflexivity|split; vm_compute; congruence|split; vm_compute; congruence|reflexivity|reflexivity|reflexivity|vm_compute; reflexivity|split; vm_compute; congruence|
     vm_compute; reflexivity|reflexivity|reflexivity|vm_compute; reflexivity|exact demo_reattaches|].
  exists kc1, kc'. eexists. split; [exact H1|]. split; [exact H5|]. split; [exact H6|exact H7].
Defined.
