(* ===== verification/Supervisor.v ===== *)
(** * The supervisor of a parent link (runtime/node/supervisor.go)

    The goroutine that keeps a node connected to one parent, beside the machine of Connection:
    one step is one read of a context or of the node, one update of the snapshot, or the
    return of a call.  The errors of ConnectParent come with their class and text; Sleep is any
    function that returns. *)

From Stdlib Require Import QArith.
From S2P Require Import Prelude GoStd GoFloat Payload Wire EnrollmentWire Identity Tree Node Join Connection ConnectionRuns JoinRuns.
Open Scope Z_scope.

(** ** Backoff *)

(** The product of two float64, and the conversion to int64, which Go leaves open ([undef])
    for values out of range. *)
Definition float_sign (x : float64) : bool := match x with FNaN => false | FInf n => n | FNegZero => true | FFin q => Qnum q <? 0 end.
Definition float_mul (x y : float64) : float64 :=
  let negative := xorb (float_sign x) (float_sign y) in
  match x, y with
  | FNaN, _ | _, FNaN => FNaN
  | FInf _, FInf _ => FInf negative
  | FInf _, z | z, FInf _ => match float_value z with Some q => if Qnum q =? 0 then FNaN else FInf negative | None => FNaN end
  | _, _ =>
    match round64 (default 0%Q (float_value x) * default 0%Q (float_value y)) with
    | FFin q => if (Qnum q =? 0) && negative then FNegZero else FFin q
    | f => f
    end
  end.
Definition float_int64 (undef : Z) (x : float64) : Z :=
  match float_value x with
  | Some q => let z := Z.quot (Qnum q) (QDen q) in if (- 2 ^ 63 <=? z) && (z <? 2 ^ 63) then z else undef
  | None => undef
  end.
Definition nextBackoff (undef current maximum : Z) (multiplier : float64) : Z :=
  if maximum <=? current then maximum else
  let next := float_int64 undef (float_mul (round64 (inject_Z current)) multiplier) in
  if (next <=? current) || (maximum <? next) then maximum else next.

Record SupervisorConfig := mkSupervisorConfig { MinBackoff : Z; MaxBackoff : Z; Multiplier : float64 }.
Definition is_zero (x : float64) : bool := match x with FNegZero => true | FFin q => Qnum q =? 0 | _ => false end.
Definition finite (x : float64) : bool := match float_value x with Some _ => true | None => false end.
(** [None]: the backoff is invalid. *)
Definition normalized (c : SupervisorConfig) : option SupervisorConfig :=
  let minimum := if MinBackoff c <=? 0 then 100 * 1000000 else MinBackoff c in
  let maximum := if MaxBackoff c <=? 0 then 30 * 1000000000 else MaxBackoff c in
  let multiplier := if is_zero (Multiplier c) then FFin 2 else Multiplier c in
  if (maximum <? minimum) || float_gt (FFin 1) multiplier || negb (finite multiplier) then None else Some (mkSupervisorConfig minimum maximum multiplier).

(** ** The status of the parent link *)

Record parent_status := mkStatus { ps_Parent : NodeID; ps_Epoch : Z; ps_LinkGeneration : Z }.
(** [ParentStatus] gives the zero status when no session of a parent is active. *)
Definition parent_active (k : conns) (c : connection) : bool := is_role RoleParent c && bool_decide (k_links k !! cn_link c = Some LinkActive).
Definition ParentStatus (k : conns) : option parent_status * Z :=
  ((λ c, mkStatus (cn_peer c) (cn_epoch c) (k_parentGeneration k)) <$> head (filter (λ c, parent_active k c = true) (map_to_list (k_sessions k)).*2), k_parentGeneration k).

(** ** The goroutine *)

Inductive ConnectionState := ConnectionDisconnected | ConnectionConnecting | ConnectionConnected | ConnectionFailed | ConnectionStopped.
#[global] Instance ConnectionState_eq_dec : EqDecision ConnectionState.
Proof. solve_decision. Defined.
Record ConnectionSnapshot := mkSnapshot {
  sn_State : ConnectionState; sn_Parent : NodeID; sn_Endpoint : string; sn_Attempt : Z; sn_LinkGeneration : Z; sn_LastError : string; sn_NextRetry : Z; sn_Generation : Z
}.
Definition ErrReparented : string := "parent supervisor stopped after reparent".

(** Where it is: [backoff] and [attempt] are the variables of [run]; [SUpdate] is a call of
    [update]; [SBlocked] waits for the channel that was current at a generation. *)
Inductive place :=
| SHead (backoff attempt : Z)
| SUpdate (next : ConnectionSnapshot) (after : place)
| SDial (backoff attempt : Z)
| SConnect (backoff attempt : Z) (tid : nat)
| SCheck (backoff attempt : Z) (permanent : bool) (text : string)
| SSleep (backoff attempt : Z)
| SStatus (backoff attempt : Z)
| SWait (backoff attempt after : Z)
| SBlocked (backoff attempt generation : Z)
| SCurrent (backoff attempt : Z)
| SDone.
#[global] Instance ConnectionSnapshot_eq_dec : EqDecision ConnectionSnapshot.
Proof. solve_decision. Defined.
#[global] Instance place_eq_dec : EqDecision place.
Proof. solve_decision. Defined.
Record supervisor := mkSupervisor { v_parent : NodeID; v_endpoint : string; v_config : SupervisorConfig; v_place : place; v_current : ConnectionSnapshot }.
Definition at_place (s : supervisor) (p : place) : supervisor := mkSupervisor (v_parent s) (v_endpoint s) (v_config s) p (v_current s).
(** [SuperviseParent], when its arguments are valid. *)
Definition SuperviseParent (endpoint : string) (parent : NodeID) (config : SupervisorConfig) : option supervisor :=
  if negb (is_ok (NodeID_Validate parent)) then None else
  c ← normalized config;
  Some (mkSupervisor parent endpoint c (SHead (MinBackoff c) 0) (mkSnapshot ConnectionDisconnected parent endpoint 0 0 "" 0 1)).
Definition update (s : supervisor) (next : ConnectionSnapshot) : ConnectionSnapshot :=
  mkSnapshot (sn_State next) (sn_Parent next) (sn_Endpoint next) (sn_Attempt next) (sn_LinkGeneration next) (sn_LastError next) (sn_NextRetry next) (u64 (sn_Generation (v_current s) + 1)).

(** What it meets: nothing; a failure of the dial; the last step of [ConnectParent] (an error
    has a class and a text); the end of a sleep. *)
Inductive met :=
| Plain (now : Z)
| Dialled (l : Z) (id : MessageID) (permit : option ProvisioningPermitV1) (nonce : list byte)
| Refused (permanent : bool) (text : string)
| Returned (i : input) (permanent : bool) (text : string)
| Slept (ok : bool) (undef : Z)
| Woken
| Interrupted.

Record world := mkWorld { w_node : conns; w_sup : supervisor; w_cancelled : bool; w_nodeDone : bool }.
Definition stopping (w : world) : bool := w_cancelled w || w_nodeDone w.
Definition put_place (w : world) (p : place) : world := mkWorld (w_node w) (at_place (w_sup w) p) (w_cancelled w) (w_nodeDone w).
Definition put_node (w : world) (k : conns) : world := mkWorld k (w_sup w) (w_cancelled w) (w_nodeDone w).

Section machine.
Context `{Crypto} (identity : Identity).

Definition snapshot (s : supervisor) (state : ConnectionState) (attempt generation : Z) (text : string) (retry : Z) : ConnectionSnapshot :=
  mkSnapshot state (v_parent s) (v_endpoint s) attempt generation text retry 0.
Definition reparented (s : supervisor) (attempt : Z) : place := SUpdate (snapshot s ConnectionFailed attempt 0 ErrReparented 0) SDone.
(** The status of the node is of the parent of the supervisor. *)
Definition ours (s : supervisor) (status : option parent_status) : bool := match status with Some x => ps_Parent x =? v_parent s | None => false end.
Definition sup_step (w : world) (m : met) : option world :=
  let s := w_sup w in
  let k := w_node w in
  match v_place s, m with
  | SHead b a, Plain _ =>
    if stopping w then Some (put_place w (SUpdate (snapshot s ConnectionStopped a 0 "" 0) SDone))
    else let a := u64 (a + 1) in Some (put_place w (SUpdate (snapshot s ConnectionConnecting a 0 "" 0) (SDial b a)))
  | SUpdate next p, Plain _ => Some (mkWorld k (mkSupervisor (v_parent s) (v_endpoint s) (v_config s) p (update s next)) (w_cancelled w) (w_nodeDone w))
  | SDial b a, Dialled l id permit nonce =>
    k' ← kstep identity k (Dial l (v_parent s) id permit nonce);
    Some (put_place (put_node w k') (SConnect b a (fresh (dom (k_threads k)))))
  | SDial b a, Refused permanent text => Some (put_place w (SCheck b a permanent text))
  | SConnect b a tid, Returned i permanent text =>
    k' ← kstep identity k (Step tid i);
    if bool_decide (is_Some (k_threads k' !! tid)) then None else
    Some (put_place (put_node w k') match k_threads k !! tid with Some (TSend [] None) => SStatus b a | _ => SCheck b a permanent text end)
  | SCheck b a permanent text, Plain now =>
    Some (put_place w (if stopping w then SHead b a else
                       if permanent then SUpdate (snapshot s ConnectionFailed a 0 text 0) SDone else
                       SUpdate (snapshot s ConnectionDisconnected a 0 text (now + b)) (SSleep b a)))
  | SSleep b a, Slept ok undef => Some (put_place w (SHead (if ok then nextBackoff undef b (MaxBackoff (v_config s)) (Multiplier (v_config s)) else b) a))
  | SStatus b a, Plain _ =>
    let '(status, generation) := ParentStatus k in
    Some (put_place w (if ours s status then SUpdate (snapshot s ConnectionConnected a (default 0 (ps_LinkGeneration <$> status)) "" 0) (SWait (MinBackoff (v_config s)) a generation)
                       else reparented s a))
  | SWait b a after, Plain _ => Some (put_place w (if after <? k_parentGeneration k then SCurrent b a else SBlocked b a (k_parentGeneration k)))
  | SBlocked b a generation, Woken => if k_parentGeneration k =? generation then None else Some (put_place w (SCurrent b a))
  | SBlocked b a _, Interrupted => if stopping w then Some (put_place w (SHead b a)) else None
  | SCurrent b a, Plain _ =>
    let status := (ParentStatus k).1 in
    Some (put_place w (if bool_decide (is_Some status) && negb (ours s status) then reparented s a
                       else SUpdate (snapshot s ConnectionDisconnected a 0 "parent link disconnected" 0) (SHead b a)))
  | _, _ => None
  end.

(** The rest of the node, and the contexts of the supervisor and of the node. *)
Inductive act := ANode (ev : event) | ACancel | ANodeDone | ASup (m : met).
Definition own_thread (w : world) : option nat := match v_place (w_sup w) with SConnect _ _ tid => Some tid | _ => None end.
Definition wstep (w : world) (a : act) : option world :=
  match a with
  | ANode ev =>
    k ← kstep identity (w_node w) ev;
    (* the last step of ConnectParent is [Returned] *)
    if match own_thread w with Some tid => bool_decide (is_Some (k_threads k !! tid)) | None => true end then Some (put_node w k) else None
  | ACancel => Some (mkWorld (w_node w) (w_sup w) true (w_nodeDone w))
  | ANodeDone => if k_closed (w_node w) then Some (mkWorld (w_node w) (w_sup w) (w_cancelled w) true) else None
  | ASup m => sup_step w m
  end.
Inductive wrun (w0 : world) : world → Prop :=
| wrun_start : wrun w0 w0
| wrun_next w a w' : wrun w0 w → wstep w a = Some w' → wrun w0 w'.
End machine.

(** ** Backoff is bounded and grows *)

Lemma nextBackoff_bounds undef current maximum multiplier : current ≤ maximum →
  current ≤ nextBackoff undef current maximum multiplier ≤ maximum ∧ (current < maximum → current < nextBackoff undef current maximum multiplier).
Proof.
  intros Hm. unfold nextBackoff. destruct (Z.leb_spec maximum current); [lia|]. destruct (Z.leb_spec (float_int64 undef (float_mul (round64 (inject_Z current)) multiplier)) current) as [|Hc]; [simpl; lia|].
  destruct (Z.ltb_spec maximum (float_int64 undef (float_mul (round64 (inject_Z current)) multiplier))); simpl; lia.
Qed.
Lemma normalized_bounds c c' : normalized c = Some c' → 0 < MinBackoff c' ≤ MaxBackoff c'.
Proof.
  unfold normalized. set (mn := if MinBackoff c <=? 0 then _ else _). set (mx := if MaxBackoff c <=? 0 then _ else _). assert (0 < mn) by (unfold mn; destruct (Z.leb_spec (MinBackoff c) 0); lia).
  destruct (_ || _) eqn:E; [done|]. intros [= <-]. simpl. apply orb_false_iff in E as [E _]. apply orb_false_iff in E as [E _]. apply Z.ltb_ge in E. lia.
Qed.
Example backoff_grows : let step b := nextBackoff 0 b (30 * 1000000000) (FFin 2) in
  (step 100000000, step 3200000000, step 25600000000) = (200000000, 6400000000, 30000000000).
Proof. vm_compute. reflexivity. Qed.
