(* ===== verification/SupervisorRuns.v ===== *)
(** * The supervisor: its states, its wake-ups and its end *)

From S2P Require Import Prelude GoStd GoFloat Payload Wire EnrollmentWire Identity Tree Node Join Connection ConnectionRuns JoinRuns Supervisor.
Open Scope Z_scope.

Section runs.
Context `{Crypto} (identity : Identity).

Lemma wrun_trans w0 w1 w2 : wrun identity w0 w1 → wrun identity w1 w2 → wrun identity w0 w2.
Proof. intros H0. induction 1; [done|by eapply wrun_next]. Qed.
Lemma wrun_one w a w' : wstep identity w a = Some w' → wrun identity w w'.
Proof. intros Hs. eapply wrun_next; [constructor|exact Hs]. Qed.

(** ** States *)

(** The state that the snapshot shows at a place, and the backoffs. *)
Fixpoint shows (p : place) (state : ConnectionState) : Prop :=
  match p with
  | SHead _ _ => state = ConnectionDisconnected ∨ state = ConnectionConnecting ∨ state = ConnectionConnected
  | SUpdate next p => shows p (sn_State next)
  | SDial _ _ | SConnect _ _ _ | SCheck _ _ _ _ | SStatus _ _ => state = ConnectionConnecting
  | SSleep _ _ => state = ConnectionDisconnected
  | SWait _ _ _ | SBlocked _ _ _ | SCurrent _ _ => state = ConnectionConnected
  | SDone => state = ConnectionFailed ∨ state = ConnectionStopped
  end.
Fixpoint backoff_of (p : place) : option Z :=
  match p with
  | SHead b _ | SDial b _ | SConnect b _ _ | SCheck b _ _ _ | SSleep b _ | SStatus b _ | SWait b _ _ | SBlocked b _ _ | SCurrent b _ => Some b
  | SUpdate _ p => backoff_of p
  | SDone => None
  end.
Definition in_bounds (c : SupervisorConfig) (p : place) : Prop := ∀ b, backoff_of p = Some b → MinBackoff c ≤ b ≤ MaxBackoff c.
(** The update of a place is still to come; all others show their state. *)
Definition shown_at (p : place) (state : ConnectionState) : Prop :=
  match p with SUpdate next q => shows q (sn_State next) ∧ (∀ next' p', q ≠ SUpdate next' p') | _ => shows p state end.
Definition shown (w : world) : Prop := shown_at (v_place (w_sup w)) (sn_State (v_current (w_sup w))).

(** ** Why it ended *)

Section from.
Context (w0 : world).
Definition reason (w : world) (state : ConnectionState) (text : string) : Prop :=
  ∃ w1, wrun identity w0 w1 ∧ wrun identity w1 w ∧
    ((state = ConnectionStopped ∧ text = "" ∧ stopping w1 = true) ∨
     (state = ConnectionFailed ∧ stopping w1 = false ∧ ∃ b a, v_place (w_sup w1) = SCheck b a true text) ∨
     (state = ConnectionFailed ∧ text = ErrReparented ∧ (∃ b a, v_place (w_sup w1) = SStatus b a) ∧ ours (w_sup w1) (ParentStatus (w_node w1)).1 = false) ∨
     (state = ConnectionFailed ∧ text = ErrReparented ∧ (∃ b a, v_place (w_sup w1) = SCurrent b a) ∧ ∃ s, (ParentStatus (w_node w1)).1 = Some s ∧ ps_Parent s ≠ v_parent (w_sup w1))).
Definition ends_at (w : world) (p : place) (current : ConnectionSnapshot) : Prop :=
  match p with
  | SUpdate next SDone => reason w (sn_State next) (sn_LastError next)
  | SDone => reason w (sn_State current) (sn_LastError current)
  | _ => True
  end.
Definition ends_for (w : world) : Prop := ends_at w (v_place (w_sup w)) (v_current (w_sup w)).
Lemma reason_later w w' state text : wrun identity w w' → reason w state text → reason w' state text.
Proof. intros Hr (w1 & H1 & H2 & H3). exists w1. split; [done|]. split; [by eapply wrun_trans|done]. Qed.

Record sup_ok (w : world) : Prop := mkSupOk {
  so_config : v_config (w_sup w) = v_config (w_sup w0);
  so_parent : v_parent (w_sup w) = v_parent (w_sup w0);
  so_bounds : in_bounds (v_config (w_sup w)) (v_place (w_sup w));
  so_shown : shown w;
  so_ends : ends_for w
}.
Lemma other_acts w a w' : wstep identity w a = Some w' → w_sup w' = w_sup w ∨ ∃ m, a = ASup m.
Proof.
  intros Hs. destruct a as [ev| | |m]; [left|left|left|right; eauto]; simpl in Hs; [|by injection Hs as <-|by case_match; [injection Hs as <-|]].
  destruct (kstep identity (w_node w) ev); [|done]. cbn [mbind option_bind] in Hs. destruct (match own_thread w with Some _ => _ | None => _ end); [|done]. by injection Hs as <-.
Qed.
(** What a step of the supervisor leaves alone. *)
Lemma sup_same w m w' : sup_step identity w m = Some w' → v_config (w_sup w') = v_config (w_sup w) ∧ v_parent (w_sup w') = v_parent (w_sup w) ∧ stopping w' = stopping w.
Proof.
  unfold sup_step. intros Hs. destruct (v_place (w_sup w)), m; try done; try (apply bind_Some in Hs as (k1 & Hk & Hs)); repeat case_match; try done; by injection Hs as <-.
Qed.
Context (Hbounds : 0 < MinBackoff (v_config (w_sup w0)) ≤ MaxBackoff (v_config (w_sup w0))).
Lemma ends_later w w' p current : wrun identity w w' → ends_at w p current → ends_at w' p current.
Proof. intros Hr. destruct p as [ |next q| | | | | | | | |]; try done; [destruct q; try done|]; by apply reason_later. Qed.
Lemma place_ok w w' p : sup_ok w → wrun identity w w' → w_sup w' = at_place (w_sup w) p →
  in_bounds (v_config (w_sup w)) p → shown_at p (sn_State (v_current (w_sup w))) → ends_at w p (v_current (w_sup w)) → sup_ok w'.
Proof.
  intros [O1 O2 O3 O4 O5] Hr Hw Hb Hs He. split; unfold shown, ends_for; rewrite ?Hw; [exact O1|exact O2|exact Hb|exact Hs|by eapply ends_later].
Qed.
Ltac here w := exists w; split; [assumption|split; [constructor|]].
Lemma sup_ok_step w a w' : wrun identity w0 w → sup_ok w → wstep identity w a = Some w' → sup_ok w'.
Proof.
  intros Hrun Hok Hs. pose proof (wrun_one _ _ _ Hs) as Hone. destruct (other_acts w a w' Hs) as [Hw|[m ->]].
  { destruct Hok as [O1 O2 O3 O4 O5]. split; unfold shown, ends_for in *; rewrite Hw; try done. by eapply ends_later. }
  simpl in Hs. unfold sup_step in Hs. pose proof Hok as [O1 O2 O3 O4 O5]. unfold shown, ends_for in O4, O5. pose proof (so_bounds _ Hok) as Hb. unfold in_bounds in Hb.
  destruct (v_place (w_sup w)) as [b a|next q|b a|b a tid|b a permanent text|b a|b a|b a g|b a g|b a|] eqn:Hp; destruct m as [now|l id permit nonce|permanent' text'|i permanent' text'|ok undef| |]; try done; simpl in O4, O5.
  - destruct (stopping w) eqn:Es; injection Hs as <-; (eapply (place_ok w); [done..| | |]).
    + by intros b'.
    + split; [by right|done].
    + here w. by left.
    + by intros b' [= <-]; apply Hb.
    + by split.
    + done.
  - injection Hs as <-. destruct O4 as [Hq Hn]. split; simpl; [done|done|exact Hb| |].
    + unfold shown. simpl. destruct q; try done. by destruct (Hn next0 q).
    + unfold ends_for. simpl. destruct q; try done; [by destruct (Hn next0 q)|by eapply reason_later].
  - apply bind_Some in Hs as (k & Hk & [= <-]). eapply (place_ok w); [done|done|done|exact Hb|exact O4|done].
  - injection Hs as <-. eapply (place_ok w); [done|done|done|exact Hb|exact O4|done].
  - apply bind_Some in Hs as (k & Hk & Hs). case_bool_decide; [done|]. injection Hs as <-. eapply (place_ok w); [done|done|done|..]; repeat case_match; first [exact Hb|exact O4|done].
  - injection Hs as <-. destruct (stopping w) eqn:Es; [|destruct permanent]; (eapply (place_ok w); [done..| | |]); try done; try (by split).
    + simpl. auto.
    + split; [by left|done].
    + here w. right. left. eauto.
  - injection Hs as <-. eapply (place_ok w); [done|done|done| |simpl; auto|done]. intros b' [= <-]. destruct (Hb b eq_refl) as [H1 H2]. destruct ok; [|done].
    pose proof (nextBackoff_bounds undef b (MaxBackoff (v_config (w_sup w))) (Multiplier (v_config (w_sup w))) H2). lia.
  - destruct (ParentStatus (w_node w)) as [status g] eqn:Eg. injection Hs as <-. destruct (ours (w_sup w) status) eqn:Eo; (eapply (place_ok w); [done..| | |]); try done.
    + intros b' [= <-]. rewrite O1. lia.
    + split; [by left|done].
    + here w. right. right. left. split; [done|]. split; [done|]. split; [eauto|by rewrite Eg].
  - injection Hs as <-. eapply (place_ok w); [done|done|done|..]; case_match; first [exact Hb|exact O4|done].
  - destruct (_ =? _); [done|]. injection Hs as <-. eapply (place_ok w); [done|done|done|exact Hb|exact O4|done].
  - destruct (stopping w); [|done]. injection Hs as <-. eapply (place_ok w); [done|done|done|exact Hb|simpl; auto|done].
  - injection Hs as <-. destruct (bool_decide _ && _) eqn:Ec; (eapply (place_ok w); [done..| | |]); try done; try (split; [simpl; auto|done]).
    here w. right. right. right. split; [done|]. split; [done|]. split; [eauto|]. apply andb_true_iff in Ec as [Ec Eo]. apply bool_decide_eq_true in Ec as [st Hst]. exists st. split; [done|].
    rewrite Hst in Eo. simpl in Eo. by apply negb_true_iff, Z.eqb_neq in Eo.
Qed.
End from.

Definition started (w : world) : Prop := ∃ endpoint parent config, SuperviseParent endpoint parent config = Some (w_sup w).
Lemma started_ok w0 : started w0 → sup_ok w0 w0 ∧ 0 < MinBackoff (v_config (w_sup w0)) ≤ MaxBackoff (v_config (w_sup w0)).
Proof.
  intros (endpoint & parent & config & Hs). unfold SuperviseParent in Hs. destruct (negb _); [done|]. apply bind_Some in Hs as (c & Hc & [= Hs]). apply normalized_bounds in Hc. rewrite <- Hs. simpl. split; [|done].
  split; try (rewrite <- Hs; simpl); try done; unfold shown, ends_for; rewrite <- ?Hs; simpl; auto. intros b [= <-]. lia.
Qed.
Lemma supervisor_run_ok w0 w : started w0 → wrun identity w0 w → sup_ok w0 w.
Proof. intros H0. destruct (started_ok w0 H0) as [H1 H2]. induction 1 as [|w a w' Hr IH Hs]; [done|]. by eapply sup_ok_step. Qed.

(** ** Wake-ups *)

(** The table has a session of that parent; or a goroutine is about to signal a change. *)
Definition parent_seen (k : conns) (p : NodeID) : Prop := ∃ c, k_sessions k !! p = Some c ∧ cn_role c = RoleParent.
Definition signals (t : thread) : bool := match t with TRemove c => is_role RoleParent c | TSignal | TParentStart _ _ _ _ => true | _ => false end.
Definition will_signal (k : conns) : Prop := ∃ i t, k_threads k !! i = Some t ∧ signals t = true.

(** A step moves its own goroutine, and may start others. *)
Lemma close_all_sessions cs k : k_sessions (close_all cs k) = k_sessions k ∧ k_threads (close_all cs k) = k_threads k ∧ k_parentGeneration (close_all cs k) = k_parentGeneration k.
Proof. induction cs as [|c cs IH]; [done|exact IH]. Qed.
Lemma sendRouteEvent_sessions ok e k : k_sessions (sendRouteEvent ok e k) = k_sessions k ∧ k_threads (sendRouteEvent ok e k) = k_threads k ∧ k_parentGeneration (sendRouteEvent ok e k) = k_parentGeneration k.
Proof. unfold sendRouteEvent. by repeat case_match. Qed.
Lemma starts_generation {A} (f : A → thread) l k : k_parentGeneration (foldr (λ x, start (f x)) k l) = k_parentGeneration k ∧ k_sessions (foldr (λ x, start (f x)) k l) = k_sessions k.
Proof. induction l as [|x l IH]; [done|exact IH]. Qed.
Lemma thread_cases k tid i k' : thread_step identity k tid i = Some k' →
  ∃ t, k_threads k !! tid = Some t ∧ (accept_step identity k tid t i = Some k' ∨ run_step identity k tid t i = Some k' ∨ connect_step identity k tid t i = Some k').
Proof.
  intros Hs. apply bind_Some in Hs as (t & Ht & Hs). exists t. split; [done|].
  destruct (accept_step identity k tid t i) as [k1|]; [injection Hs as ->; auto|]. destruct (run_step identity k tid t i) as [k1|]; [injection Hs as ->; auto|auto].
Qed.
Ltac opened Hs := revert Hs; unfold accept_step, run_step, connect_step, drop, activate; repeat case_match; try done.
Lemma others_stay k tid i k' j t : thread_step identity k tid i = Some k' → j ≠ tid → k_threads k !! j = Some t → k_threads k' !! j = Some t.
Proof.
  intros Hs Hj Ht. apply thread_cases in Hs as (u & Hu & Hs). assert (tid ≠ j) as Hj' by done.
  destruct Hs as [Hs|[Hs|Hs]]; opened Hs; intros [= <-]; try (match goal with Hc : Some _ = Some _ |- _ => injection Hc as <- end);
    cbn [goto finish set_threads k_threads close_link set_links set_tree set_admission set_trust set_sessions set_generation send];
    rewrite ?lookup_insert_ne, ?lookup_delete_ne, ?(proj1 (proj2 (sendRouteEvent_sessions _ _ _))) by done; first [exact Ht|unfold closeSessions; rewrite (proj1 (proj2 (close_all_sessions _ _))); exact Ht|idtac].
  - apply (kp_threads _ _ (kept_trans _ _ _ (start_kept _ _) (starts_kept (λ o, TClose (cn_link o)) _ _))). simpl. by rewrite lookup_insert_ne.
  - apply (kp_threads _ _ (kept_trans _ _ _ (start_kept _ _) (starts_kept TClose _ _))). simpl. by rewrite lookup_insert_ne.
Qed.
(** The generation moves only where it is signalled. *)
Lemma generation_step k tid i k' : thread_step identity k tid i = Some k' →
  k_parentGeneration k' = k_parentGeneration k ∨ (k_parentGeneration k' = u64 (k_parentGeneration k + 1) ∧ ∃ t, k_threads k !! tid = Some t ∧ signals t = true).
Proof.
  intros Hs. apply thread_cases in Hs as (t & Ht & Hs).
  destruct Hs as [Hs|[Hs|Hs]]; opened Hs; intros [= <-]; try (match goal with Hc : Some _ = Some _ |- _ => injection Hc as <- end);
    rewrite ?(proj1 (starts_generation (λ o, TClose (cn_link o)) _ _)), ?(proj1 (starts_generation TClose _ _)); simpl; rewrite ?(proj2 (proj2 (sendRouteEvent_sessions _ _ _)));
    try (unfold closeSessions; rewrite ?(proj2 (proj2 (close_all_sessions _ _)))); try (by left); right; (split; [done|by eexists]).
Qed.
(** A goroutine that is about to signal does. *)
Lemma signal_step k tid i k' t : thread_step identity k tid i = Some k' → k_threads k !! tid = Some t → signals t = true →
  k_parentGeneration k' = u64 (k_parentGeneration k + 1) ∨ will_signal k'.
Proof.
  intros Hs Ht Hsig. unfold thread_step in Hs. rewrite Ht in Hs. cbn [mbind option_bind] in Hs. destruct t; try done; destruct i; try done; simpl in Hs, Hsig.
  - destruct (cn_role c) eqn:Er; [|unfold is_role in Hsig; by rewrite Er in Hsig]. injection Hs as <-. right. exists tid, TSignal. split; [apply lookup_insert_eq|done].
  - injection Hs as <-. left. by rewrite (proj1 (starts_generation TClose _ _)).
  - injection Hs as <-. by left.
Qed.
Lemma registered_child c m : cn_role c = RoleChild → (registered c m).1.1 = <[cn_peer c := c]> m.
Proof. intros Hr. unfold registered. cbn [fst]. unfold is_role. rewrite Hr. simpl. f_equal. apply map_filter_id. intros i x _. by rewrite lookup_empty. Qed.
(** The session of a parent leaves the table only for a signal. *)
Lemma seen_step k tid i k' p : table_ok (view_of k) → thread_step identity k tid i = Some k' → ordered_step k (Step tid i) = true → parent_seen k p → parent_seen k' p ∨ will_signal k'.
Proof.
  intros [Hok _] Hs Ho (c & Hc & Hr). unfold ordered_step in Ho. apply thread_cases in Hs as (t & Ht & Hs). rewrite Ht in Ho.
  assert (∀ k'', k_sessions k'' = k_sessions k → parent_seen k'' p) as Hsame by (intros k'' Hk; exists c; by rewrite Hk).
  destruct Hs as [Hs|[Hs|Hs]]; opened Hs; intros [= <-]; try (match goal with Hc : Some _ = Some _ |- _ => injection Hc as <- end);
    try (by left; apply Hsame; rewrite ?(proj2 (starts_generation (λ o, TClose (cn_link o)) _ _)), ?(proj2 (starts_generation TClose _ _)); simpl; rewrite ?(proj1 (sendRouteEvent_sessions _ _ _)); unfold closeSessions; rewrite ?(proj1 (close_all_sessions _ _))).
  1,2: match goal with Hg : registered ?s ?m = (?g, _, _) |- _ => pose proof (registered_child s m eq_refl) as Hg'; rewrite Hg in Hg'; cbn [fst] in Hg'; subst g end;
    left; exists c; rewrite (proj2 (starts_generation (λ o, TClose (cn_link o)) _ _)); simpl; (split; [|done]); (rewrite lookup_insert_ne; [done|]); intros Heq; simplify_eq.
  - apply andb_true_iff in Ho as [Hch _]. apply bool_decide_eq_true in Hch. congruence.
  - match goal with Hb : bool_decide (_ = Some ?d) = true |- _ => apply bool_decide_eq_true in Hb; destruct (decide (cn_peer d = p)) as [Hp|Hp]; [right; exists tid, (TRemove d)|left; exists c] end.
    + split; [apply lookup_insert_eq|]. simpl. unfold is_role. rewrite Hp in *. simplify_eq. by rewrite Hr.
    + simpl. by rewrite lookup_delete_ne.
  - right. eexists tid, _. split; [apply lookup_insert_eq|done].
  - right. eexists tid, _. split; [apply lookup_insert_eq|done].
Qed.
Lemma node_step k ev k' p : table_ok (view_of k) → kstep identity k ev = Some k' → ordered_step k ev = true → parent_seen k p ∨ will_signal k →
  (k_parentGeneration k' = k_parentGeneration k ∧ (parent_seen k' p ∨ will_signal k')) ∨ k_parentGeneration k' = u64 (k_parentGeneration k + 1).
Proof.
  intros Hok Hs Ho Hw.
  assert (∀ k'', k_sessions k'' = k_sessions k → k_parentGeneration k'' = k_parentGeneration k → (∀ i t, k_threads k !! i = Some t → k_threads k'' !! i = Some t) →
    (k_parentGeneration k'' = k_parentGeneration k ∧ (parent_seen k'' p ∨ will_signal k'')) ∨ k_parentGeneration k'' = u64 (k_parentGeneration k + 1)) as Hkept.
  { intros k'' K2 Hg K6. left. split; [done|]. destruct Hw as [(c & Hc & Hr)|(i & t & Ht & Hsig)]; [left; exists c; by rewrite K2|right; exists i, t; auto]. }
  destruct ev as [l|l q id permit nonce|l|id key saved|id saved| |tid i]; simpl in Hs.
  - destruct (_ || _); [done|]. injection Hs as <-. apply Hkept; [done|done|apply (kp_threads _ _ (start_kept _ (set_links k _)))].
  - destruct (_ || _); [done|]. destruct (make_claim _ _ _ _); [|done]. injection Hs as <-. apply Hkept; [done|done|apply (kp_threads _ _ (start_kept _ (send _ _ (set_links k _))))].
  - case_bool_decide; [|done]. injection Hs as <-. by apply Hkept.
  - injection Hs as <-. by apply Hkept.
  - injection Hs as <-. by apply Hkept.
  - injection Hs as <-. destruct (close_all_sessions (map_to_list (k_sessions k)).*2 (set_closed k)) as (H1 & H2 & H3). apply Hkept; [by rewrite H1|by rewrite H3|by rewrite H2].
  - destruct (generation_step k tid i k' Hs) as [Hg|[Hg _]]; [|by right]. destruct Hw as [Hseen|(j & t & Ht & Hsig)]; [left; split; [done|]; by eapply seen_step|].
    destruct (decide (j = tid)) as [->|Hj]; [destruct (signal_step k tid i k' t Hs Ht Hsig) as [|]; auto|]. left. split; [done|]. right. exists j, t. split; [by eapply others_stay|done].
Qed.

(** ** Runs in order *)

(** What the node does in a step of the world. *)
Definition node_event (w : world) (a : act) : option event :=
  match a with
  | ANode ev => Some ev
  | ASup m =>
    match v_place (w_sup w), m with
    | SDial _ _, Dialled l id permit nonce => Some (Dial l (v_parent (w_sup w)) id permit nonce)
    | SConnect _ _ tid, Returned i _ _ => Some (Step tid i)
    | _, _ => None
    end
  | _ => None
  end.
Lemma node_event_step w a w' : wstep identity w a = Some w' →
  match node_event w a with Some ev => kstep identity (w_node w) ev = Some (w_node w') | None => w_node w' = w_node w end.
Proof.
  intros Hs. destruct a as [ev| | |m]; cbn [wstep] in Hs; [|by injection Hs as <-|by case_match; [injection Hs as <-|]|].
  - apply bind_Some in Hs as (k & Hk & Hs). simpl. rewrite Hk. destruct (match own_thread w with Some _ => _ | None => _ end); [|done]. by injection Hs as <-.
  - unfold sup_step in Hs. unfold node_event. destruct (v_place (w_sup w)) as [b a|next q|b a|b a tid|b a permanent text|b a|b a|b a g|b a g|b a|], m; try done; try (apply bind_Some in Hs as (k & Hk & Hs)).
    3: rewrite Hk; by injection Hs as <-.
    4: rewrite Hk; case_bool_decide; [done|]; by injection Hs as <-.
    all: repeat case_match; try done; by injection Hs as <-.
Qed.
(** The generations of children are used in order (see [ordered_step]), and the counter of
    changes, of 64 bits, does not wrap. *)
Definition steady (w : world) (a : act) : bool := match node_event w a with Some ev => ordered_step (w_node w) ev | None => true end && (k_parentGeneration (w_node w) <? maxUint64).
Inductive steady_run (w0 : world) : world → Prop :=
| steady_start : steady_run w0 w0
| steady_next w a w' : steady_run w0 w → steady w a = true → wstep identity w a = Some w' → steady_run w0 w'.
Lemma steady_wrun w0 w : steady_run w0 w → wrun identity w0 w.
Proof. induction 1; [constructor|by eapply wrun_next]. Qed.

(** What a supervisor that waits has seen is still there, or is about to be signalled. *)
Fixpoint waits (p : place) : option Z := match p with SUpdate _ p => waits p | SWait _ _ g | SBlocked _ _ g => Some g | _ => None end.
Definition watch (w : world) : Prop :=
  ∀ g, waits (v_place (w_sup w)) = Some g → g ≤ k_parentGeneration (w_node w) ∧
    (k_parentGeneration (w_node w) = g → parent_seen (w_node w) (v_parent (w_sup w)) ∨ will_signal (w_node w)).
Lemma status_seen k p status : table_ok (view_of k) → (ParentStatus k).1 = Some status → ps_Parent status = p → parent_seen k p.
Proof.
  intros [Hok _] Hs Hp. unfold ParentStatus in Hs. cbn [fst] in Hs. destruct (head _) as [c|] eqn:Eh; [|done]. injection Hs as <-. simpl in Hp.
  apply head_Some_elem_of in Eh. apply list_elem_of_filter in Eh as [Ha Hin]. apply list_elem_of_fmap in Hin as ([q c'] & -> & Hin). apply elem_of_map_to_list in Hin. simpl in *.
  destruct (Hok q c' Hin) as [Hq _]. exists c'. split; [congruence|]. apply andb_true_iff in Ha as [Ha _]. by apply bool_decide_eq_true in Ha.
Qed.
Lemma watch_node w w' : watch w → w_sup w' = w_sup w → 0 ≤ k_parentGeneration (w_node w) < maxUint64 → table_ok (view_of (w_node w)) →
  (∃ ev, kstep identity (w_node w) ev = Some (w_node w') ∧ ordered_step (w_node w) ev = true) → watch w'.
Proof.
  intros Hw Hsup Hg Hok (ev & Hs & Ho) g Hwait. rewrite Hsup in *. destruct (Hw g Hwait) as [Hle Hseen].
  assert (u64 (k_parentGeneration (w_node w) + 1) = k_parentGeneration (w_node w) + 1) as Hu by (unfold u64; apply Z.mod_small; unfold maxUint64 in Hg; lia).
  destruct (decide (k_parentGeneration (w_node w) = g)) as [Heq|Hne].
  - destruct (node_step _ _ _ (v_parent (w_sup w)) Hok Hs Ho (Hseen Heq)) as [[Hg' H']|Hg']; rewrite Hg'; (split; [lia|]); [done|lia].
  - assert (k_parentGeneration (w_node w) ≤ k_parentGeneration (w_node w')); [|split; [lia|lia]].
    destruct ev as [l|l q id permit nonce|l|id key saved|id saved| |tid i]; simpl in Hs; try (repeat case_match; try done; injection Hs as <-; simpl; lia).
    + injection Hs as <-. by rewrite (proj2 (proj2 (close_all_sessions _ _))).
    + destruct (generation_step _ _ _ _ Hs) as [->|[-> _]]; lia.
Qed.
Lemma generation_range w a w' : 0 ≤ k_parentGeneration (w_node w) ≤ maxUint64 → wstep identity w a = Some w' → 0 ≤ k_parentGeneration (w_node w') ≤ maxUint64.
Proof.
  intros Hg Hs. apply node_event_step in Hs. destruct (node_event w a) as [ev|]; [|by rewrite Hs].
  destruct ev as [l|l q id permit nonce|l|id key saved|id saved| |tid i]; simpl in Hs; try (repeat case_match; try done; injection Hs as <-; simpl; lia).
  - injection Hs as <-. by rewrite (proj2 (proj2 (close_all_sessions _ _))).
  - destruct (generation_step _ _ _ _ Hs) as [->|[-> _]]; [done|]. pose proof (Z.mod_pos_bound (k_parentGeneration (w_node w) + 1) (2 ^ 64)). unfold u64, maxUint64. lia.
Qed.
Record steady_ok (w : world) : Prop := mkSteadyOk {
  st_table : table_ok (view_of (w_node w)); st_generation : 0 ≤ k_parentGeneration (w_node w) ≤ maxUint64; st_watch : watch w
}.
Lemma steady_step w a w' : steady_ok w → steady w a = true → wstep identity w a = Some w' → steady_ok w'.
Proof.
  intros [Hok Hg Hw] Ho Hs. apply andb_true_iff in Ho as [Ho Hlt]. apply Z.ltb_lt in Hlt. pose proof (node_event_step _ _ _ Hs) as Hn. split.
  - destruct (node_event w a) as [ev|]; [|by rewrite Hn]. destruct (kstep_explained _ _ _ _ Hn) as (ch & Hch & _). by eapply changes_table.
  - by eapply generation_range.
  - destruct (other_acts w a w' Hs) as [Hsup|[m ->]].
    { destruct (node_event w a) as [ev|]; [eapply watch_node; [done|done|lia|done|by exists ev]|]. intros g Hwait. rewrite Hn, Hsup in *. by apply Hw. }
    destruct (sup_same _ _ _ Hs) as (_ & Hp & _). simpl in Hs. unfold watch in *. intros g Hwait. rewrite Hp. unfold sup_step in Hs.
    destruct (v_place (w_sup w)) as [b at_|next q|b at_|b at_ tid|b at_ permanent text|b at_|b at_|b at_ g0|b at_ g0|b at_|] eqn:Hpl; destruct m; try done; try (apply bind_Some in Hs as (k & Hk & Hs)).
    2: injection Hs as <-; by apply Hw.
    7: { destruct (ParentStatus (w_node w)) as [status g'] eqn:Eg. assert (g' = k_parentGeneration (w_node w)) as -> by (unfold ParentStatus in Eg; by injection Eg). injection Hs as <-.
         destruct (ours (w_sup w) status) eqn:Eo; [|done]. simpl in Hwait. injection Hwait as <-. simpl. split; [lia|]. intros _. left. destruct status as [st|]; [|done]. simpl in Eo. apply Z.eqb_eq in Eo.
         eapply status_seen; [done|by rewrite Eg|done]. }
    7: { injection Hs as <-. simpl in Hwait. destruct (Z.ltb_spec g0 (k_parentGeneration (w_node w))); [done|]. injection Hwait as <-. simpl. destruct (Hw g0 eq_refl) as [H1 H2].
         split; [lia|]. intros _. apply H2. lia. }
    all: repeat case_match; try done; injection Hs as <-; done.
Qed.
Lemma steady_run_ok w0 w : fresh_node (w_node w0) → 0 ≤ k_parentGeneration (w_node w0) ≤ maxUint64 → waits (v_place (w_sup w0)) = None → steady_run w0 w → steady_ok w.
Proof.
  intros (F1 & F2 & F3) Hg Hw. induction 1 as [|w a w' Hr IH Ho Hs]; [|by eapply steady_step].
  split; [split; simpl; rewrite F2; intros *; by rewrite lookup_empty|done|]. intros g Hwait. congruence.
Qed.

(** A goroutine that is about to signal needs at most two steps of its own. *)
Lemma signal_soon k i t : 0 ≤ k_parentGeneration k < maxUint64 → k_threads k !! i = Some t → signals t = true →
  ∃ n k', (n ≤ 2)%nat ∧ ksteps identity k (replicate n (Step i (Go true 0))) = Some k' ∧ k_parentGeneration k' ≠ k_parentGeneration k.
Proof.
  intros Hg Ht Hsig. assert (u64 (k_parentGeneration k + 1) = k_parentGeneration k + 1) as Hu by (unfold u64; apply Z.mod_small; unfold maxUint64 in Hg; lia).
  destruct t; try done; simpl in Hsig.
  - destruct (cn_role c) eqn:Er; [|unfold is_role in Hsig; by rewrite Er in Hsig]. exists 2%nat. eexists. split; [lia|]. split.
    + eapply ksteps_cons; [eapply step_run; [exact Ht|done|]; simpl; rewrite Er; reflexivity|]. eapply ksteps_cons; [eapply step_run; [apply lookup_insert_eq|done|reflexivity]|reflexivity].
    + simpl. rewrite Hu. lia.
  - exists 1%nat. eexists. split; [lia|]. split; [eapply ksteps_cons; [eapply step_connect; [exact Ht|done|done|reflexivity]|reflexivity]|].
    rewrite (proj1 (starts_generation TClose _ _)). simpl. rewrite Hu. lia.
  - exists 1%nat. eexists. split; [lia|]. split; [eapply ksteps_cons; [eapply step_run; [exact Ht|done|reflexivity]|reflexivity]|]. simpl. rewrite Hu. lia.
Qed.

(** C18. No change of the parent link is missed.  A supervisor that waits shows the connected state
    and either it can go on, or the session of its parent is still in the table, or some
    goroutine has to signal a change and needs at most two steps of its own to do so, after
    which the supervisor can go on. *)
Theorem supervisor_wakes (w0 w : world) (b a g : Z) :
  started w0 → fresh_node (w_node w0) → 0 ≤ k_parentGeneration (w_node w0) ≤ maxUint64 → steady_run w0 w → k_parentGeneration (w_node w) < maxUint64 → v_place (w_sup w) = SBlocked b a g →
  sn_State (v_current (w_sup w)) = ConnectionConnected ∧
  (wstep identity w (ASup Woken) = Some (put_place w (SCurrent b a)) ∨
   (∃ c, k_sessions (w_node w) !! v_parent (w_sup w) = Some c ∧ cn_role c = RoleParent) ∨
   ∃ i t n k', k_threads (w_node w) !! i = Some t ∧ (n ≤ 2)%nat ∧ ksteps identity (w_node w) (replicate n (Step i (Go true 0))) = Some k' ∧
     wstep identity (put_node w k') (ASup Woken) = Some (put_place (put_node w k') (SCurrent b a))).
Proof.
  intros H0 Hf Hg Hr Hlt Hp. destruct (supervisor_run_ok w0 w H0 (steady_wrun _ _ Hr)) as [_ _ _ Hshown _]. unfold shown in Hshown. rewrite Hp in Hshown. split; [exact Hshown|].
  assert (waits (v_place (w_sup w0)) = None) as Hw0.
  { destruct H0 as (endpoint & parent & config & Hs). unfold SuperviseParent in Hs. destruct (negb _); [done|]. apply bind_Some in Hs as (c & Hc & [= Hs]). by rewrite <- Hs. }
  destruct (steady_run_ok w0 w Hf Hg Hw0 Hr) as [_ Hrange Hwatch]. destruct (Hwatch g) as [Hle Hseen]; [by rewrite Hp|].
  destruct (decide (k_parentGeneration (w_node w) = g)) as [Heq|Hne].
  - right. destruct (Hseen Heq) as [Hs|(i & t & Ht & Hsig)]; [by left|right]. destruct (signal_soon (w_node w) i t) as (n & k' & Hn & Hk & Hch); [lia|done|done|]. exists i, t, n, k'. split_and!; [done|done|done|].
    simpl. unfold sup_step. simpl. rewrite Hp. by rewrite (proj2 (Z.eqb_neq _ _)) by congruence.
  - left. simpl. unfold sup_step. rewrite Hp. by rewrite (proj2 (Z.eqb_neq _ _)).
Qed.

(** ** States and reasons *)

(** What a supervisor shows.  In every run the backoff stays within the configured bounds; the
    snapshot shows the state of where the goroutine is; it changes only by updates, each of
    which counts one generation; and a supervisor that has ended never moves again and ended
    because it was cancelled, because the connection failed for good with the error that the
    snapshot shows, or as reparented: when the status of the node, read after a successful
    connection, was not of its parent, or later was of another parent. *)
Theorem supervisor_states (w0 w : world) : started w0 → wrun identity w0 w →
  in_bounds (v_config (w_sup w0)) (v_place (w_sup w)) ∧ shown w ∧
  (∀ a w', wstep identity w a = Some w' → v_current (w_sup w') = v_current (w_sup w) ∨
     ∃ next p, v_place (w_sup w) = SUpdate next p ∧ v_place (w_sup w') = p ∧ sn_State (v_current (w_sup w')) = sn_State next ∧ sn_LastError (v_current (w_sup w')) = sn_LastError next ∧
       sn_Generation (v_current (w_sup w')) = u64 (sn_Generation (v_current (w_sup w)) + 1)) ∧
  (v_place (w_sup w) = SDone →
     (∀ a w', wstep identity w a = Some w' → w_sup w' = w_sup w) ∧ reason w0 w (sn_State (v_current (w_sup w))) (sn_LastError (v_current (w_sup w)))).
Proof.
  intros H0 Hr. destruct (supervisor_run_ok w0 w H0 Hr) as [O1 O2 O3 O4 O5]. rewrite O1 in O3. split; [done|]. split; [done|]. split.
  - intros a w' Hs. destruct (other_acts w a w' Hs) as [->|[m ->]]; [by left|]. simpl in Hs. unfold sup_step in Hs.
    destruct (v_place (w_sup w)) as [b at_|next q|b at_|b at_ tid|b at_ permanent text|b at_|b at_|b at_ g0|b at_ g0|b at_|] eqn:Hpl; destruct m; try done; try (apply bind_Some in Hs as (k & Hk & Hs)).
    2: injection Hs as <-; right; exists next, q; done.
    all: left; repeat case_match; try done; by injection Hs as <-.
  - intros Hd. split; [|unfold ends_for in O5; by rewrite Hd in O5]. intros a w' Hs. destruct (other_acts w a w' Hs) as [->|[m ->]]; [done|]. simpl in Hs. unfold sup_step in Hs. by rewrite Hd in Hs.
Qed.

(** ** The end *)

(** The goroutine of ConnectParent, and how far it is from its return. *)
Definition connecting (t : thread) : option nat :=
  match t with
  | TJoin _ _ _ _ => Some 9 | TParent _ _ _ => Some 8 | TParentActivate _ _ _ => Some 7 | TParentRegister _ _ _ => Some 6 | TParentStart _ _ _ _ => Some 5
  | THeartbeat _ => Some 4 | TDetach _ => Some 3 | TCloseParents _ => Some 2 | TSend es None => Some (S (length es))
  | _ => None
  end%nat.
Definition plain (p : place) : bool := match p with SUpdate _ (SUpdate _ _) | SUpdate _ (SConnect _ _ _) => false | _ => true end.
Definition own_ok (w : world) : Prop :=
  (∀ tid, own_thread w = Some tid → ∃ t n, k_threads (w_node w) !! tid = Some t ∧ connecting t = Some n) ∧ plain (v_place (w_sup w)) = true.
Definition remains (k' : conns) (tid : nat) : Prop := ∀ t, k_threads k' !! tid = Some t → is_Some (connecting t).
Lemma connecting_keeps k tid i k' t n : thread_step identity k tid i = Some k' → k_threads k !! tid = Some t → connecting t = Some n → remains k' tid.
Proof.
  intros Hs Ht Hn u Hu. apply thread_cases in Hs as (t' & Ht' & Hs). rewrite Ht in Ht'. injection Ht' as <-.
  destruct Hs as [Hs|[Hs|Hs]]; destruct t; try done; try (destruct next; [done|]); opened Hs; intros [= <-]; try (match goal with Hc : Some _ = Some _ |- _ => injection Hc as <- end);
    revert Hu; simpl; try (rewrite lookup_delete_eq; done); try (rewrite lookup_insert_eq; intros [= <-]; by eexists).
  intros Hu. match type of Hu with k_threads (foldr _ (start ?r ?kg) ?l) !! _ = _ => pose proof (kp_threads _ _ (kept_trans _ _ _ (start_kept r kg) (starts_kept TClose l _)) tid _ (lookup_insert_eq _ _ _)) as Hk end.
  rewrite Hk in Hu. injection Hu as <-. by eexists.
Qed.
(** It can always move, and then it is nearer to its return. *)
Definition nearer (k' : conns) (tid n : nat) : Prop := k_threads k' !! tid = None ∨ ∃ t' n', k_threads k' !! tid = Some t' ∧ connecting t' = Some n' ∧ (n' < n)%nat.
Lemma connecting_moves k tid t n : k_threads k !! tid = Some t → connecting t = Some n → ∃ i k', kstep identity k (Step tid i) = Some k' ∧ nearer k' tid n.
Proof.
  intros Ht Hn. destruct t; try done; try (destruct next; [done|]); simpl in Hn; injection Hn as <-.
  - destruct events as [|e es].
    + exists (Go true 0). eexists. split; [by eapply step_run|]. left. apply lookup_delete_eq.
    + exists (Go true 0). eexists. split; [by eapply step_run|]. right. eexists _, _. split; [apply lookup_insert_eq|]. split; [done|simpl; lia].
  - exists Ended. eexists. split; [by eapply step_connect|]. left. apply lookup_delete_eq.
  - exists (Go true 0). destruct (ActivateParent (k_tree k) parent epoch) as [tree|] eqn:Ea.
    + eexists. split; [eapply step_connect; [exact Ht|done|done|]; simpl; rewrite Ea; reflexivity|]. right. eexists _, _. split; [apply lookup_insert_eq|]. split; [done|lia].
    + eexists. split; [eapply step_connect; [exact Ht|done|done|]; simpl; rewrite Ea; reflexivity|]. left. apply lookup_delete_eq.
  - exists (Go true 0). destruct (activate l k) as [k1|] eqn:Ea.
    + eexists. split; [eapply step_connect; [exact Ht|done|done|]; simpl; rewrite Ea; reflexivity|]. right. eexists _, _. split; [apply lookup_insert_eq|]. split; [done|lia].
    + eexists. split; [eapply step_connect; [exact Ht|done|done|]; simpl; rewrite Ea; reflexivity|]. right. eexists _, _. split; [apply lookup_insert_eq|]. split; [done|lia].
  - exists (Go true 0). destruct (k_closed k) eqn:Ec.
    + eexists. split; [eapply step_connect; [exact Ht|done|done|]; cbn [connect_step]; rewrite Ec; reflexivity|]. right. eexists _, _. split; [apply lookup_insert_eq|]. split; [done|lia].
    + eexists. split; [eapply step_connect; [exact Ht|done|done|]; cbn [connect_step]; rewrite Ec; reflexivity|]. right. eexists _, _. split; [apply lookup_insert_eq|]. split; [done|lia].
  - exists (Go true 0). eexists. split; [eapply step_connect; [exact Ht|done|done|reflexivity]|]. right. eexists _, _. split; [apply (kp_threads _ _ (kept_trans _ _ _ (start_kept _ _) (starts_kept TClose _ _))), lookup_insert_eq|].
    split; [done|lia].
  - exists (Go false 0). eexists. split; [eapply step_connect; [exact Ht|done|done|reflexivity]|]. right. eexists _, _. split; [apply lookup_insert_eq|]. split; [done|lia].
  - exists (Go true 0). eexists. split; [eapply step_connect; [exact Ht|done|done|reflexivity]|]. right. eexists _, _. split; [apply lookup_insert_eq|]. split; [done|lia].
  - exists (Go true 0). eexists. split; [eapply step_connect; [exact Ht|done|done|reflexivity]|]. left. apply lookup_delete_eq.
Qed.
Lemma node_threads k ev k' tid t : kstep identity k ev = Some k' → (∀ i, ev ≠ Step tid i) → k_threads k !! tid = Some t → k_threads k' !! tid = Some t.
Proof.
  intros Hs Hev Ht. destruct ev as [l|l q id permit nonce|l|id key saved|id saved| |j i]; simpl in Hs.
  - destruct (_ || _); [done|]. injection Hs as <-. by apply (kp_threads _ _ (start_kept _ (set_links k _))).
  - destruct (_ || _); [done|]. destruct (make_claim _ _ _ _); [|done]. injection Hs as <-. by apply (kp_threads _ _ (start_kept _ (send _ _ (set_links k _)))).
  - case_bool_decide; [|done]. by injection Hs as <-.
  - by injection Hs as <-.
  - by injection Hs as <-.
  - injection Hs as <-. by rewrite (proj1 (proj2 (close_all_sessions _ _))).
  - eapply others_stay; [exact Hs| |done]. intros ->. by destruct (Hev i).
Qed.
Lemma own_ok_step w a w' : own_ok w → wstep identity w a = Some w' → own_ok w'.
Proof.
  intros [Hok Hup] Hs. destruct a as [ev| | |m]; simpl in Hs.
  - apply bind_Some in Hs as (k & Hk & Hs). destruct (match own_thread w with Some _ => _ | None => _ end) eqn:Ek; [|done]. injection Hs as <-. split; [|exact Hup]. intros tid Htid. change (own_thread (put_node w k)) with (own_thread w) in Htid.
    rewrite Htid in Ek. apply bool_decide_eq_true in Ek as [u Hu]. destruct (Hok tid Htid) as (t & n & Ht & Hn). simpl.
    destruct ev as [l|l q id permit nonce|l|id key saved|id saved| |j i]; try (exists t, n; split; [by eapply node_threads|done]).
    destruct (decide (j = tid)) as [->|Hj]; [|exists t, n; split; [eapply node_threads; [exact Hk|congruence|done]|done]].
    destruct (connecting_keeps _ _ _ _ _ _ Hk Ht Hn u Hu) as [n' Hn']. eauto.
  - by injection Hs as <-.
  - destruct (k_closed (w_node w)); [|done]. by injection Hs as <-.
  - unfold sup_step in Hs. unfold own_ok, own_thread in *.
    destruct (v_place (w_sup w)) as [b at_|next q|b at_|b at_ tid'|b at_ permanent text|b at_|b at_|b at_ g0|b at_ g0|b at_|] eqn:Hpl; destruct m; try done; try (apply bind_Some in Hs as (k & Hk & Hs)).
    3: { injection Hs as <-. split; [|done]. intros tid Htid. simpl in Htid. injection Htid as <-. simpl in Hk. destruct (_ || _); [done|]. destruct (make_claim _ _ _ _) as [claim|]; [|done]. injection Hk as <-.
         eexists _, _. split; [apply lookup_insert_eq|done]. }
    2: { injection Hs as <-. by destruct q. }
    all: repeat match type of Hs with context [match ?x with _ => _ end] => destruct x end; try done; by injection Hs as <-.
Qed.
Fixpoint rank (p : place) : nat :=
  match p with
  | SDone => 0 | SUpdate _ p => S (rank p) | SHead _ _ => 2 | SSleep _ _ => 3 | SCurrent _ _ => 4 | SBlocked _ _ _ => 5 | SCheck _ _ _ _ => 5 | SWait _ _ _ => 6 | SStatus _ _ => 8
  | SConnect _ _ _ => 9 | SDial _ _ => 10
  end.
Lemma stopping_ranks w m w' : stopping w = true → sup_step identity w m = Some w' → (rank (v_place (w_sup w')) < rank (v_place (w_sup w)))%nat.
Proof.
  intros Hst Hs. unfold sup_step in Hs.
  destruct (v_place (w_sup w)) as [b at_|next q|b at_|b at_ tid|b at_ permanent text|b at_|b at_|b at_ g0|b at_ g0|b at_|] eqn:Hpl; destruct m; try done; try (apply bind_Some in Hs as (k & Hk & Hs));
    rewrite ?Hst in Hs; repeat case_match; try done; injection Hs as <-; simpl; lia.
Qed.
Fixpoint wsteps (w : world) (acts : list act) : option world := match acts with [] => Some w | a :: acts => w' ← wstep identity w a; wsteps w' acts end.
Lemma wsteps_app w acts acts' w1 w2 : wsteps w acts = Some w1 → wsteps w1 acts' = Some w2 → wsteps w (acts ++ acts') = Some w2.
Proof. revert w. induction acts as [|a acts IH]; intros w Hs Hs'; simpl in *; [by injection Hs as ->|]. destruct (wstep identity w a); [|done]. by apply IH. Qed.
Lemma wsteps_cons w a w1 acts w2 : wstep identity w a = Some w1 → wsteps w1 acts = Some w2 → wsteps w (a :: acts) = Some w2.
Proof. intros H1 H2. cbn [wsteps]. by rewrite H1. Qed.
Lemma wsteps_one w a w' : wstep identity w a = Some w' → wsteps w [a] = Some w'.
Proof. intros Hs. simpl. by rewrite Hs. Qed.
Lemma wsteps_run w0 w acts w' : wrun identity w0 w → wsteps w acts = Some w' → wrun identity w0 w'.
Proof.
  revert w. induction acts as [|a acts IH]; intros w Hr Hs; simpl in Hs; [by injection Hs as <-|]. apply bind_Some in Hs as (w1 & H1 & Hs). apply (IH w1); [by eapply wrun_next|done].
Qed.
(** ConnectParent returns: its goroutine moves until its last step. *)
Lemma returns n : ∀ w b a tid t, v_place (w_sup w) = SConnect b a tid → k_threads (w_node w) !! tid = Some t → (∃ m, connecting t = Some m ∧ (m ≤ n)%nat) →
  ∃ acts w', wsteps w acts = Some w' ∧ stopping w' = stopping w ∧ own_thread w' = None ∧ plain (v_place (w_sup w')) = true ∧ (rank (v_place (w_sup w')) < 9)%nat.
Proof.
  induction n as [|n IH]; intros w b a tid t Hp Ht (m & Hm & Hle).
  { destruct t; try done; simpl in Hm; try (injection Hm as <-; lia). destruct next; [done|]. injection Hm as <-. lia. }
  destruct (connecting_moves _ _ _ _ Ht Hm) as (i & k' & Hk & [Hgone|(t' & m' & Ht' & Hm' & Hlt)]).
  - exists [ASup (Returned i false "")]. eexists. split; [apply wsteps_one; simpl; unfold sup_step; rewrite Hp, Hk; simpl; rewrite Hgone; reflexivity|]. split; [done|].
    repeat case_match; repeat split; simpl; lia.
  - assert (wstep identity w (ANode (Step tid i)) = Some (put_node w k')) as H1.
    { cbn [wstep]. rewrite Hk. cbn [mbind option_bind]. unfold own_thread. rewrite Hp. by rewrite Ht'. }
    destruct (IH (put_node w k') b a tid t' Hp Ht') as (acts & w' & Hs & Hrest); [exists m'; split; [done|lia]|]. exists (ANode (Step tid i) :: acts), w'. split; [|exact Hrest].
    by eapply wsteps_cons.
Qed.
(** Every place but the last can be left towards the end. *)
Lemma stop_moves w : stopping w = true → own_ok w → v_place (w_sup w) ≠ SDone →
  ∃ acts w', wsteps w acts = Some w' ∧ stopping w' = true ∧ own_ok w' ∧ (rank (v_place (w_sup w')) < rank (v_place (w_sup w)))%nat.
Proof.
  intros Hst Hok Hd.
  assert (∀ m w', sup_step identity w m = Some w' → ∃ acts w', wsteps w acts = Some w' ∧ stopping w' = true ∧ own_ok w' ∧ (rank (v_place (w_sup w')) < rank (v_place (w_sup w)))%nat) as Hone.
  { intros m w' Hs. exists [ASup m], w'. split; [by apply wsteps_one|]. destruct (sup_same _ _ _ Hs) as (_ & _ & Hst'). split; [congruence|]. split; [by eapply (own_ok_step w (ASup m))|by eapply stopping_ranks]. }
  destruct (v_place (w_sup w)) as [b a|next q|b a|b a tid|b a permanent text|b a|b a|b a g|b a g|b a|] eqn:Hp; try done.
  4: { destruct Hok as [Hok _]. destruct (Hok tid) as (t & n & Ht & Hn); [unfold own_thread; by rewrite Hp|]. destruct (returns n w b a tid t Hp Ht) as (acts & w' & Hs & Hst' & Ho & Hpl & Hr); [by exists n|].
       exists acts, w'. split; [done|]. split; [congruence|]. split; [|exact Hr]. split; [by rewrite Ho|done]. }
  all: destruct (ParentStatus (w_node w)) as [status g'] eqn:Eg.
  1, 2, 4, 6, 7, 9: eapply (Hone (Plain 0)); unfold sup_step; rewrite Hp, ?Eg, ?Hst; reflexivity.
  - eapply (Hone (Refused false "")). unfold sup_step. by rewrite Hp.
  - eapply (Hone (Slept false 0)). unfold sup_step. by rewrite Hp.
  - eapply (Hone Interrupted). unfold sup_step. by rewrite Hp, Hst.
Qed.


Fixpoint steps_steady (w : world) (acts : list act) : bool :=
  match acts with [] => true | a :: acts => steady w a && match wstep identity w a with Some w' => steps_steady w' acts | None => true end end.
Lemma wsteps_steady w0 w acts w' : steady_run w0 w → steps_steady w acts = true → wsteps w acts = Some w' → steady_run w0 w'.
Proof.
  revert w. induction acts as [|a acts IH]; intros w Hr Ho Hs; simpl in Ho, Hs; [by injection Hs as <-|]. apply andb_true_iff in Ho as [Ho1 Ho2].
  destruct (wstep identity w a) as [w1|] eqn:E; [|done]. apply (IH w1); [by eapply steady_next|done|done].
Qed.
End runs.

(** ** Concrete runs *)

Module Supervisor_demo.
Import Connection_demo.
Definition config : SupervisorConfig := mkSupervisorConfig 0 0 FNegZero.
Definition s0 : supervisor := default (mkSupervisor 0 "" config SDone (mkSnapshot ConnectionFailed 0 "" 0 0 "" 0 0)) (SuperviseParent "tcp" 9 config).
Definition w0 : world := mkWorld k0 s0 false false.
(** The node 7 connects to its parent 9; then it waits. *)
Definition dials : list act := [ASup (Plain 0); ASup (Plain 0); ASup (Dialled 10 20 None (be_bytes 32 70)); ANode (Step 0 (Frame (ack_frame 9 request 7 21 ack)))] ++ replicate 5 (ANode (go 0)).
Definition connected : list act := dials ++ [ASup (Returned (Go true 99) false "")].
Definition waiting : list act := connected ++ replicate 3 (ASup (Plain 0)).
(** The link is lost after ConnectParent has returned, but before its status is read. *)
Definition flapped : list act := connected ++ [ANode (Lost 10); ASup (Plain 0); ASup (Plain 0)].
(** The link is lost while the supervisor waits. *)
Definition losing : list act := waiting ++ [ANode (Lost 10); ANode (Step 1 Ended); ANode (go 1)].
Definition state (acts : list act) : world := default w0 (wsteps self w0 acts).
End Supervisor_demo.

Lemma supervisor_started : started Supervisor_demo.w0.
Proof. exists "tcp", 9, Supervisor_demo.config. vm_compute. reflexivity. Qed.
Lemma supervisor_run acts : is_Some (wsteps Connection_demo.self Supervisor_demo.w0 acts) → wrun Connection_demo.self Supervisor_demo.w0 (Supervisor_demo.state acts).
Proof. intros [w Hw]. unfold Supervisor_demo.state. rewrite Hw. eapply wsteps_run; [constructor|exact Hw]. Qed.
Lemma supervisor_steady acts : is_Some (wsteps Connection_demo.self Supervisor_demo.w0 acts) → steps_steady Connection_demo.self Supervisor_demo.w0 acts = true →
  steady_run Connection_demo.self Supervisor_demo.w0 (Supervisor_demo.state acts).
Proof. intros [w Hw] Ho. unfold Supervisor_demo.state. rewrite Hw. eapply wsteps_steady; [constructor|exact Ho|exact Hw]. Qed.
(** A parent whose link is lost at once is taken for another parent: the supervisor gives up,
    though it was not stopped and the node has no parent. *)
Lemma flapping_parent : let w := Supervisor_demo.state Supervisor_demo.flapped in
  wrun Connection_demo.self Supervisor_demo.w0 w ∧ stopping w = false ∧ v_place (w_sup w) = SDone ∧ sn_State (v_current (w_sup w)) = ConnectionFailed ∧
  sn_LastError (v_current (w_sup w)) = ErrReparented ∧ (ParentStatus (w_node w)).1 = None.
Proof. split; [apply supervisor_run, some_by; by vm_compute|]. split_and!; by vm_compute. Qed.
Lemma flapped_done : is_Some (wsteps Connection_demo.self Supervisor_demo.w0 Supervisor_demo.flapped) ∧ v_place (w_sup (Supervisor_demo.state Supervisor_demo.flapped)) = SDone.
Proof. split; [apply some_by; by vm_compute|by vm_compute]. Qed.
Lemma supervisor_states_witness : let w := Supervisor_demo.state Supervisor_demo.flapped in
  wrun Connection_demo.self Supervisor_demo.w0 w ∧ reason Connection_demo.self Supervisor_demo.w0 w (sn_State (v_current (w_sup w))) (sn_LastError (v_current (w_sup w))).
Proof.
  destruct flapped_done as [H1 H2]. pose proof (supervisor_run _ H1) as Hr. split; [exact Hr|].
  exact (proj2 (proj2 (proj2 (proj2 (supervisor_states Connection_demo.self _ _ supervisor_started Hr))) H2)).
Defined.
Lemma losing_blocked : is_Some (wsteps Connection_demo.self Supervisor_demo.w0 Supervisor_demo.losing) ∧ steps_steady Connection_demo.self Supervisor_demo.w0 Supervisor_demo.losing = true ∧
  v_place (w_sup (Supervisor_demo.state Supervisor_demo.losing)) = SBlocked 100000000 1 1 ∧ k_parentGeneration (w_node (Supervisor_demo.state Supervisor_demo.losing)) = 1.
Proof. split_and!; [apply some_by; by vm_compute|by vm_compute..]. Qed.
(** The session has left the table, and a goroutine is about to signal. *)
Lemma supervisor_wakes_witness : let w := Supervisor_demo.state Supervisor_demo.losing in
  v_place (w_sup w) = SBlocked 100000000 1 1 ∧ sn_State (v_current (w_sup w)) = ConnectionConnected.
Proof.
  destruct losing_blocked as (H1 & H2 & H3 & H4). split; [exact H3|].
  refine (proj1 (supervisor_wakes Connection_demo.self _ _ _ _ _ supervisor_started connection_fresh _ (supervisor_steady _ H1 H2) _ H3)); [split; vm_compute; congruence|rewrite H4; reflexivity].
Defined.
Definition cancelled_wait : list act := Supervisor_demo.waiting ++ [ACancel].
Lemma cancelled_runs : is_Some (wsteps Connection_demo.self Supervisor_demo.w0 cancelled_wait) ∧ stopping (Supervisor_demo.state cancelled_wait) = true.
Proof. split; [apply some_by; by vm_compute|by vm_compute]. Qed.
