(* ===== verification/Link.v ===== *)
(** * Links (runtime/link/queue.go, session.go)

    A session sends and receives frames over a byte pipe.  It has four goroutines: one reads
    frames, one hands them to the receiver, one writes queued frames and heartbeats, and one
    watches for silence; any number of goroutines send.  The model is a machine with one step
    per access to shared state (a section under the mutex, an atomic operation, a channel
    operation, a read or a write of the pipe), and the goroutines' steps interleave freely.

    A [select] with several ready cases takes any of them.  The frames that were accepted,
    written, read and delivered are recorded. *)

From S2P Require Import Prelude GoStd Wire Node Codec.
Open Scope Z_scope.

(** ** Bounded queues (queue.go) *)

Record envelopeQueue := mkQueue { q_frames : list Envelope; q_count : Z; q_bytes : Z; q_maxBytes : Z }.
Definition newEnvelopeQueue (count maxBytes : Z) : envelopeQueue := mkQueue [] count 0 maxBytes.
Definition envelopeBytes (e : Envelope) : Z :=
  512 + blen (e_Payload e) + strlen (e_ContentType e) + strlen (e_Schema e) + strlen (e_Capability e) + strlen (r_Name (e_Resource e)).
(** [push] is two atomic operations: the bytes are reserved by a compare-and-swap that is
    repeated until it succeeds or there is no room, then the frame enters the channel or the
    bytes are given back. *)
Definition reserve (q : envelopeQueue) (e : Envelope) : option envelopeQueue :=
  if (0 <? q_maxBytes q) && (q_maxBytes q - q_bytes q <? envelopeBytes e) then None
  else Some (mkQueue (q_frames q) (q_count q) (q_bytes q + envelopeBytes e) (q_maxBytes q)).
Definition release (q : envelopeQueue) (e : Envelope) : envelopeQueue :=
  mkQueue (q_frames q) (q_count q) (q_bytes q - envelopeBytes e) (q_maxBytes q).
Definition enqueue (q : envelopeQueue) (e : Envelope) : option envelopeQueue :=
  if Z.of_nat (length (q_frames q)) <? q_count q then Some (mkQueue (q_frames q ++ [e]) (q_count q) (q_bytes q) (q_maxBytes q)) else None.
Definition dequeue (q : envelopeQueue) : option (Envelope * envelopeQueue) :=
  match q_frames q with [] => None | e :: rest => Some (e, mkQueue rest (q_count q) (q_bytes q) (q_maxBytes q)) end.

(** ** Sessions *)

Inductive SessionState := StateUnauthenticated | StateActive | StateClosing | StateClosed.
#[global] Instance SessionState_eq_dec : EqDecision SessionState.
Proof. solve_decision. Defined.
Inductive link_error :=
| LEnvelope (e : wire_error) | LJoinOnly | LClosed | LQueueFull | LIdle | LRead | LBeforeAuthentication | LHeartbeatReply | LWrite | LMessageID
| LLocalNode (e : wire_error) | LBudgets | LDurations | LIdleTooShort | LPeer (e : wire_error) | LRole | LState.

Record SessionConfig := mkSessionConfig {
  sc_LocalNode : NodeID; sc_Codec : Codec; sc_ControlQueue : Z; sc_DataQueue : Z; sc_InboundQueue : Z; sc_ControlQueueBytes : Z; sc_DataQueueBytes : Z;
  sc_InboundQueueBytes : Z; sc_HeartbeatInterval : Z; sc_IdleTimeout : Z; sc_IdleAfterPeerHeartbeat : bool
}.
Definition SessionConfig_normalized (c : SessionConfig) : result link_error SessionConfig :=
  _ ← mapErr LLocalNode (NodeID_Validate (sc_LocalNode c));
  let or_size (n d : Z) := if n <=? 0 then d else n in
  fail_if (sc_ControlQueueBytes c <? 0) || (sc_DataQueueBytes c <? 0) || (sc_InboundQueueBytes c <? 0) with LBudgets ;;
  fail_if (sc_HeartbeatInterval c <? 0) || (sc_IdleTimeout c <? 0) with LDurations ;;
  fail_if (0 <? sc_HeartbeatInterval c) && (0 <? sc_IdleTimeout c) && (sc_IdleTimeout c <=? sc_HeartbeatInterval c) with LIdleTooShort ;;
  Ok (mkSessionConfig (sc_LocalNode c) (sc_Codec c) (or_size (sc_ControlQueue c) 32) (or_size (sc_DataQueue c) 128) (or_size (sc_InboundQueue c) 128)
        (sc_ControlQueueBytes c) (sc_DataQueueBytes c) (sc_InboundQueueBytes c) (sc_HeartbeatInterval c) (sc_IdleTimeout c) (sc_IdleAfterPeerHeartbeat c)).

(** What the mutex protects; a role that is [None] is [RoleUnknown]. *)
Record status := mkStatus { st_state : SessionState; st_peer : NodeID; st_role : option Role; st_epoch : Z; st_err : option link_error }.
(** [closeWithError] after its section under the mutex: it cancels the context, then closes the
    pipe; other callers wait until it is done. *)
Inductive closer := CIdle | CCancel | CPipe | CDone.
(** A call of [Send] after its checks. *)
Inductive sending := SReserve (e : Envelope) | SInsert (e : Envelope).
Inductive reader :=
| RRead | RCheck (e : Envelope) | RBeat (e : Envelope) | RReply (e : Envelope) | RReserve (reply e : Envelope) | RInsert (reply e : Envelope)
| RPush (e : Envelope) | RStore (e : Envelope) | RClosing | RDone.
Inductive dispatcher := DWait | DHold (e : Envelope) | DDone.
Inductive source := FromControl | FromData | FromTicker.
(** The writer at the top of its loop, before its two [select]s, with a frame to write, and
    after a write that failed; [budget] is [controlBudget]. *)
Inductive writer :=
| WTop (budget : nat) | WControl (budget : nat) | WAny (budget : nat) | WHold (from : source) (e : Envelope) (budget : nat)
| WFailed (from : source) (e : Envelope) | WClosing | WDone.
Inductive watcher := VRun | VClosing | VDone.
#[global] Instance watcher_eq_dec : EqDecision watcher.
Proof. solve_decision. Defined.
Record log := mkLog {
  g_control : list Envelope; g_data : list Envelope; g_written : list (source * Envelope); g_read : list Envelope; g_delivered : list Envelope
}.
Record Session := mkSession {
  l_config : SessionConfig; l_status : status; l_cancelled : bool; l_closer : closer; l_pipeClosed : bool;
  l_control : envelopeQueue; l_data : envelopeQueue; l_input : envelopeQueue; l_senders : list sending;
  l_reader : reader; l_dispatcher : dispatcher; l_writer : writer; l_watchdog : watcher;
  l_lastRead : Z; l_peerHeartbeat : bool; l_in : list byte; l_out : list byte; l_log : log; l_done : bool
}.

Definition set_status (s : Session) x := mkSession (l_config s) x (l_cancelled s) (l_closer s) (l_pipeClosed s) (l_control s) (l_data s) (l_input s) (l_senders s) (l_reader s) (l_dispatcher s) (l_writer s) (l_watchdog s) (l_lastRead s) (l_peerHeartbeat s) (l_in s) (l_out s) (l_log s) (l_done s).
Definition set_close (s : Session) cancelled closer pipeClosed := mkSession (l_config s) (l_status s) cancelled closer pipeClosed (l_control s) (l_data s) (l_input s) (l_senders s) (l_reader s) (l_dispatcher s) (l_writer s) (l_watchdog s) (l_lastRead s) (l_peerHeartbeat s) (l_in s) (l_out s) (l_log s) (l_done s).
Definition set_control (s : Session) x := mkSession (l_config s) (l_status s) (l_cancelled s) (l_closer s) (l_pipeClosed s) x (l_data s) (l_input s) (l_senders s) (l_reader s) (l_dispatcher s) (l_writer s) (l_watchdog s) (l_lastRead s) (l_peerHeartbeat s) (l_in s) (l_out s) (l_log s) (l_done s).
Definition set_data (s : Session) x := mkSession (l_config s) (l_status s) (l_cancelled s) (l_closer s) (l_pipeClosed s) (l_control s) x (l_input s) (l_senders s) (l_reader s) (l_dispatcher s) (l_writer s) (l_watchdog s) (l_lastRead s) (l_peerHeartbeat s) (l_in s) (l_out s) (l_log s) (l_done s).
Definition set_input (s : Session) x := mkSession (l_config s) (l_status s) (l_cancelled s) (l_closer s) (l_pipeClosed s) (l_control s) (l_data s) x (l_senders s) (l_reader s) (l_dispatcher s) (l_writer s) (l_watchdog s) (l_lastRead s) (l_peerHeartbeat s) (l_in s) (l_out s) (l_log s) (l_done s).
Definition set_senders (s : Session) x := mkSession (l_config s) (l_status s) (l_cancelled s) (l_closer s) (l_pipeClosed s) (l_control s) (l_data s) (l_input s) x (l_reader s) (l_dispatcher s) (l_writer s) (l_watchdog s) (l_lastRead s) (l_peerHeartbeat s) (l_in s) (l_out s) (l_log s) (l_done s).
Definition set_reader (s : Session) x := mkSession (l_config s) (l_status s) (l_cancelled s) (l_closer s) (l_pipeClosed s) (l_control s) (l_data s) (l_input s) (l_senders s) x (l_dispatcher s) (l_writer s) (l_watchdog s) (l_lastRead s) (l_peerHeartbeat s) (l_in s) (l_out s) (l_log s) (l_done s).
Definition set_dispatcher (s : Session) x := mkSession (l_config s) (l_status s) (l_cancelled s) (l_closer s) (l_pipeClosed s) (l_control s) (l_data s) (l_input s) (l_senders s) (l_reader s) x (l_writer s) (l_watchdog s) (l_lastRead s) (l_peerHeartbeat s) (l_in s) (l_out s) (l_log s) (l_done s).
Definition set_writer (s : Session) x := mkSession (l_config s) (l_status s) (l_cancelled s) (l_closer s) (l_pipeClosed s) (l_control s) (l_data s) (l_input s) (l_senders s) (l_reader s) (l_dispatcher s) x (l_watchdog s) (l_lastRead s) (l_peerHeartbeat s) (l_in s) (l_out s) (l_log s) (l_done s).
Definition set_watchdog (s : Session) x := mkSession (l_config s) (l_status s) (l_cancelled s) (l_closer s) (l_pipeClosed s) (l_control s) (l_data s) (l_input s) (l_senders s) (l_reader s) (l_dispatcher s) (l_writer s) x (l_lastRead s) (l_peerHeartbeat s) (l_in s) (l_out s) (l_log s) (l_done s).
Definition set_heard (s : Session) lastRead heartbeat := mkSession (l_config s) (l_status s) (l_cancelled s) (l_closer s) (l_pipeClosed s) (l_control s) (l_data s) (l_input s) (l_senders s) (l_reader s) (l_dispatcher s) (l_writer s) (l_watchdog s) lastRead heartbeat (l_in s) (l_out s) (l_log s) (l_done s).
Definition set_pipe (s : Session) inp out := mkSession (l_config s) (l_status s) (l_cancelled s) (l_closer s) (l_pipeClosed s) (l_control s) (l_data s) (l_input s) (l_senders s) (l_reader s) (l_dispatcher s) (l_writer s) (l_watchdog s) (l_lastRead s) (l_peerHeartbeat s) inp out (l_log s) (l_done s).
Definition set_log (s : Session) x := mkSession (l_config s) (l_status s) (l_cancelled s) (l_closer s) (l_pipeClosed s) (l_control s) (l_data s) (l_input s) (l_senders s) (l_reader s) (l_dispatcher s) (l_writer s) (l_watchdog s) (l_lastRead s) (l_peerHeartbeat s) (l_in s) (l_out s) x (l_done s).

Definition set_done (s : Session) := mkSession (l_config s) (l_status s) (l_cancelled s) (l_closer s) (l_pipeClosed s) (l_control s) (l_data s) (l_input s) (l_senders s) (l_reader s) (l_dispatcher s) (l_writer s) (l_watchdog s) (l_lastRead s) (l_peerHeartbeat s) (l_in s) (l_out s) (l_log s) true.

Definition NewSession (config : SessionConfig) (now : Z) : result link_error Session :=
  c ← SessionConfig_normalized config;
  Ok (mkSession c (mkStatus StateUnauthenticated 0 None 0 None) false CIdle false
        (newEnvelopeQueue (sc_ControlQueue c) (sc_ControlQueueBytes c)) (newEnvelopeQueue (sc_DataQueue c) (sc_DataQueueBytes c))
        (newEnvelopeQueue (sc_InboundQueue c) (sc_InboundQueueBytes c)) [] RRead DWait (WTop 8) VRun now false [] [] (mkLog [] [] [] [] []) false).

Definition is_join (e : Envelope) : bool := (e_Operation e =? OperationJoin) || (e_Operation e =? OperationJoinAck).
Definition isData (e : Envelope) : bool :=
  (e_Operation e =? OperationResourceEvent) || (e_Operation e =? OperationResourceGap) || (e_Operation e =? OperationSessionData).
Definition state (s : Session) : SessionState := st_state (l_status s).
Definition unauthenticated (s : Session) : bool := bool_decide (state s = StateUnauthenticated).
Definition active (s : Session) : bool := bool_decide (state s = StateActive).
Definition IdleMonitoringActive (s : Session) : bool :=
  (0 <? sc_IdleTimeout (l_config s)) && (negb (sc_IdleAfterPeerHeartbeat (l_config s)) || l_peerHeartbeat s).

Definition Activate (s : Session) (peer : NodeID) (role : option Role) (epoch : Z) : result link_error Session :=
  _ ← mapErr LPeer (NodeID_Validate peer);
  fail_if bool_decide (role = None) with LRole ;;
  fail_if negb (unauthenticated s) with LState ;;
  Ok (set_status s (mkStatus StateActive peer role epoch (st_err (l_status s)))).

(** The first caller of [closeWithError] leaves the error and the state [StateClosing]. *)
Definition closeWithError (s : Session) (err : option link_error) : Session :=
  match l_closer s with
  | CIdle =>
    let st := l_status s in
    set_close (set_status s (mkStatus StateClosing (st_peer st) (st_role st) (st_epoch st) (match err with Some _ => err | None => st_err st end)))
      (l_cancelled s) CCancel (l_pipeClosed s)
  | _ => s
  end.

(** The checks of [Send].  The state is read before the context: [cancelled] is false at the
    first read if it is at the second. *)
Definition Send_check (s : Session) (e : Envelope) : result link_error unit :=
  _ ← mapErr LEnvelope (Envelope_Validate e (c_MaxPayload (sc_Codec (l_config s))));
  fail_if unauthenticated s && negb (is_join e) with LJoinOnly ;;
  fail_if match state s with StateClosing | StateClosed => true | _ => false end with LClosed ;;
  fail_if l_cancelled s with LClosed ;;
  Ok tt.
Definition queue_of (s : Session) (e : Envelope) : envelopeQueue := if isData e then l_data s else l_control s.
Definition set_queue (s : Session) (e : Envelope) (q : envelopeQueue) : Session := if isData e then set_data s q else set_control s q.
(** A frame has entered the queue for writing. *)
Definition accepted (s : Session) (e : Envelope) : Session :=
  let g := l_log s in
  set_log s (if isData e then mkLog (g_control g) (g_data g ++ [e]) (g_written g) (g_read g) (g_delivered g)
             else mkLog (g_control g ++ [e]) (g_data g) (g_written g) (g_read g) (g_delivered g)).

Definition heartbeat (s : Session) (id : MessageID) : Envelope :=
  mkEnvelope CurrentVersion PhaseEvent OperationHeartbeat id 0 (sc_LocalNode (l_config s)) 0 (st_peer (l_status s)) zeroResourceID
    (st_epoch (l_status s)) 0 "" "" "" [].
Definition is_peer_heartbeat (s : Session) (e : Envelope) : bool :=
  (e_Operation e =? OperationHeartbeat) && active s && (e_Source e =? st_peer (l_status s)) &&
  (e_Target e =? sc_LocalNode (l_config s)) && (e_TopologyEpoch e =? st_epoch (l_status s)).

(** What a call of [Send] answers. *)
Inductive outcome := ONothing | OSent (e : Envelope) | ORefused (e : link_error).
Definition fail_reader (s : Session) (err : link_error) : option (Session * outcome) := Some (set_reader (closeWithError s (Some err)) RClosing, ONothing).

(** [readLoop]; [None]: it is blocked.  [now] and [id] are the clock and the identifier drawn. *)
Definition readLoop (s : Session) (now : Z) (id : option MessageID) : option (Session * outcome) :=
  match l_reader s with
  | RRead =>
    let failed := if l_cancelled s then Some (set_reader s RDone, ONothing) else fail_reader s LRead in
    if l_pipeClosed s then failed else
    match Decode (sc_Codec (l_config s)) (l_in s) with
    | Ok (e, rest) =>
      let g := l_log s in
      Some (set_reader (set_log (set_pipe (set_heard s now (l_peerHeartbeat s)) rest (l_out s))
              (mkLog (g_control g) (g_data g) (g_written g) (g_read g ++ [e]) (g_delivered g))) (RCheck e), ONothing)
    | Err CHeaderEOF | Err CBodyEOF => None
    | Err _ => failed
    end
  | RCheck e => if unauthenticated s && negb (is_join e) then fail_reader s LBeforeAuthentication else Some (set_reader s (RBeat e), ONothing)
  | RBeat e =>
    if is_peer_heartbeat s e then
      Some (set_reader (set_heard s (l_lastRead s) true) (if l_peerHeartbeat s then RPush e else RReply e), ONothing)
    else Some (set_reader s (RPush e), ONothing)
  | RReply e =>
    if sc_HeartbeatInterval (l_config s) =? 0 then Some (set_reader s (RPush e), ONothing) else
    match id with
    | None => fail_reader s LHeartbeatReply
    | Some id => match Send_check s (heartbeat s id) with Err _ => fail_reader s LHeartbeatReply | Ok _ => Some (set_reader s (RReserve (heartbeat s id) e), ONothing) end
    end
  | RReserve reply e =>
    match reserve (queue_of s reply) reply with
    | None => fail_reader s LHeartbeatReply
    | Some q => Some (set_reader (set_queue s reply q) (RInsert reply e), ONothing)
    end
  | RInsert reply e =>
    match enqueue (queue_of s reply) reply with
    | None => fail_reader (set_queue s reply (release (queue_of s reply) reply)) LHeartbeatReply
    | Some q => Some (set_reader (accepted (set_queue s reply q) reply) (RPush e), ONothing)
    end
  | RPush e => match reserve (l_input s) e with None => fail_reader s LQueueFull | Some q => Some (set_reader (set_input s q) (RStore e), ONothing) end
  | RStore e =>
    match enqueue (l_input s) e with
    | None => fail_reader (set_input s (release (l_input s) e)) LQueueFull
    | Some q => Some (set_reader (set_input s q) RRead, ONothing)
    end
  | RClosing => match l_closer s with CDone => Some (set_reader s RDone, ONothing) | _ => None end
  | RDone => None
  end.

(** A call of [Send] that passed its checks. *)
Definition send_step (s : Session) (k : nat) : option (Session * outcome) :=
  match l_senders s !! k with
  | None => None
  | Some (SReserve e) =>
    match reserve (queue_of s e) e with
    | None => Some (set_senders s (delete k (l_senders s)), ORefused LQueueFull)
    | Some q => Some (set_senders (set_queue s e q) (delete k (l_senders s) ++ [SInsert e]), ONothing)
    end
  | Some (SInsert e) =>
    let s := set_senders s (delete k (l_senders s)) in
    match enqueue (queue_of s e) e with
    | None => Some (set_queue s e (release (queue_of s e) e), ORefused LQueueFull)
    | Some q => Some (accepted (set_queue s e q) e, OSent e)
    end
  end.

Inductive dispatch_case := TakeInput | Deliver | StopDispatch.
Definition dispatchLoop (s : Session) (c : dispatch_case) : option (Session * outcome) :=
  match l_dispatcher s, c with
  | DWait, TakeInput => match dequeue (l_input s) with None => None | Some (e, q) => Some (set_dispatcher (set_input s q) (DHold e), ONothing) end
  | DWait, StopDispatch => if l_cancelled s then Some (set_dispatcher s DDone, ONothing) else None
  | DHold e, Deliver =>
    let g := l_log s in
    Some (set_dispatcher (set_log (set_input s (release (l_input s) e)) (mkLog (g_control g) (g_data g) (g_written g) (g_read g) (g_delivered g ++ [e]))) DWait, ONothing)
  | DHold e, StopDispatch => if l_cancelled s then Some (set_dispatcher (set_input s (release (l_input s) e)) DDone, ONothing) else None
  | _, _ => None
  end.

Inductive write_case := Loop | TakeControl | TakeData | Tick (id : option MessageID) | StopWriter | WriteOk | WriteFails (taken : nat).
Definition frame_of (s : Session) (e : Envelope) : option (list byte) := match encode_frame (sc_Codec (l_config s)) e with Ok frame => Some frame | Err _ => None end.
Definition release_from (s : Session) (from : source) (e : Envelope) : Session :=
  match from with FromControl => set_control s (release (l_control s) e) | FromData => set_data s (release (l_data s) e) | FromTicker => s end.
(** [write] did not succeed: [writeQueued] gives the bytes back when it returns. *)
Definition write_failed (s : Session) (from : source) (e : Envelope) : Session :=
  if l_cancelled s then set_writer (release_from s from e) WDone else set_writer (closeWithError s (Some LWrite)) (WFailed from e).
Definition writeLoop (s : Session) (c : write_case) : option (Session * outcome) :=
  match l_writer s, c with
  | WTop O, Loop =>
    match dequeue (l_data s) with
    | Some (e, q) => Some (set_writer (set_data s q) (WHold FromData e 8), ONothing)
    | None => Some (set_writer s (WControl 8), ONothing)
    end
  | WTop budget, Loop => Some (set_writer s (WControl budget), ONothing)
  | WControl budget, Loop =>
    match dequeue (l_control s) with
    | Some (e, q) => Some (set_writer (set_control s q) (WHold FromControl e (Nat.pred budget)), ONothing)
    | None => Some (set_writer s (WAny budget), ONothing)
    end
  | WAny budget, TakeControl =>
    match dequeue (l_control s) with None => None | Some (e, q) => Some (set_writer (set_control s q) (WHold FromControl e (Nat.pred budget)), ONothing) end
  | WAny budget, TakeData =>
    match dequeue (l_data s) with None => None | Some (e, q) => Some (set_writer (set_data s q) (WHold FromData e 8), ONothing) end
  | WAny budget, Tick id =>
    if sc_HeartbeatInterval (l_config s) <=? 0 then None
    else if negb (active s) then Some (set_writer s (WTop budget), ONothing)
    else match id with
         | None => Some (set_writer (closeWithError s (Some LMessageID)) WClosing, ONothing)
         | Some id => Some (set_writer s (WHold FromTicker (heartbeat s id) budget), ONothing)
         end
  | WAny budget, StopWriter => if l_cancelled s then Some (set_writer s WDone, ONothing) else None
  | WHold from e budget, WriteOk =>
    if l_pipeClosed s then None else
    match frame_of s e with
    | None => None
    | Some frame =>
      let g := l_log s in
      Some (set_writer (release_from (set_log (set_pipe s (l_in s) (l_out s ++ frame)) (mkLog (g_control g) (g_data g) (g_written g ++ [(from, e)]) (g_read g) (g_delivered g))) from e)
              (WTop budget), ONothing)
    end
  | WHold from e budget, WriteFails taken =>
    match frame_of s e with
    | None => Some (write_failed s from e, ONothing)
    | Some frame => Some (write_failed (set_pipe s (l_in s) (l_out s ++ take (Nat.min taken (Nat.pred (length frame))) frame)) from e, ONothing)
    end
  | WFailed from e, Loop => match l_closer s with CDone => Some (set_writer (release_from s from e) WDone, ONothing) | _ => None end
  | WClosing, Loop => match l_closer s with CDone => Some (set_writer s WDone, ONothing) | _ => None end
  | _, _ => None
  end.

Inductive watch_case := WatchTick (now : Z) | WatchStop | WatchWait.
Definition watchdog (s : Session) (c : watch_case) : option (Session * outcome) :=
  match l_watchdog s, c with
  | VRun, WatchTick now =>
    if sc_IdleTimeout (l_config s) =? 0 then None
    else if negb (IdleMonitoringActive s) then Some (s, ONothing)
    else if sc_IdleTimeout (l_config s) <? now - l_lastRead s then Some (set_watchdog (closeWithError s (Some LIdle)) VClosing, ONothing)
    else Some (s, ONothing)
  | VRun, WatchStop => if l_cancelled s then Some (set_watchdog (set_close s true (l_closer s) true) VDone, ONothing) else None
  | VClosing, WatchWait => match l_closer s with CDone => Some (set_watchdog s VDone, ONothing) | _ => None end
  | _, _ => None
  end.

(** The rest of [closeWithError]. *)
Definition close_step (s : Session) : option (Session * outcome) :=
  match l_closer s with
  | CCancel => Some (set_close s true CPipe (l_pipeClosed s), ONothing)
  | CPipe => Some (set_close s (l_cancelled s) CDone true, ONothing)
  | _ => None
  end.
(** The goroutine that waits for the others. *)
Definition finish (s : Session) : option (Session * outcome) :=
  match l_done s, l_reader s, l_dispatcher s, l_writer s, l_watchdog s with
  | false, RDone, DDone, WDone, VDone =>
    let st := l_status s in Some (set_done (set_status s (mkStatus StateClosed (st_peer st) (st_role st) (st_epoch st) (st_err st))), ONothing)
  | _, _, _, _, _ => None
  end.

Inductive label :=
| LSend (e : Envelope) | LSending (k : nat) | LReader (now : Z) (id : option MessageID) | LReadFails | LDispatch (c : dispatch_case) | LWriter (c : write_case)
| LWatch (c : watch_case) | LCloser | LFinish | LActivate (peer : NodeID) (role : option Role) (epoch : Z) | LClose | LCancel | LArrive (data : list byte).
Definition lstep (s : Session) (l : label) : option (Session * outcome) :=
  match l with
  | LSend e =>
    if negb (bool_decide (wf_envelope e)) then None
    else match Send_check s e with Err err => Some (s, ORefused err) | Ok _ => Some (set_senders s (l_senders s ++ [SReserve e]), ONothing) end
  | LSending k => send_step s k
  | LReader now id => if match id with Some id => bool_decide (0 < id < 2 ^ 128) | None => true end then readLoop s now id else None
  | LReadFails =>
    match l_reader s with
    | RRead => if l_cancelled s then Some (set_reader s RDone, ONothing) else fail_reader s LRead
    | _ => None
    end
  | LDispatch c => dispatchLoop s c
  | LWriter c => if match c with Tick (Some id) => bool_decide (0 < id < 2 ^ 128) | _ => true end then writeLoop s c else None
  | LWatch c => watchdog s c
  | LCloser => close_step s
  | LFinish => finish s
  | LActivate peer role epoch =>
    if bool_decide (is_u64 peer ∧ is_u64 epoch) then match Activate s peer role epoch with Err err => Some (s, ORefused err) | Ok s => Some (s, ONothing) end else None
  | LClose => Some (closeWithError s None, ONothing)
  | LCancel => Some (set_close s true (l_closer s) (l_pipeClosed s), ONothing)
  | LArrive data => if l_pipeClosed s then None else Some (set_pipe s (l_in s ++ data) (l_out s), ONothing)
  end.
Inductive reachable (s0 : Session) : Session → Prop :=
| reach_start : reachable s0 s0
| reach_step s l s' o : reachable s0 s → lstep s l = Some (s', o) → reachable s0 s'.
