(* ===== verification/LinkTheory.v ===== *)
(** * The invariant of a link session

    Every step of the machine of Link preserves it: what the queues count, in which order
    frames move, what is on the pipe, what passes before authentication, what waits for the
    end of a session, and what the peer's heartbeat stands for. *)

From S2P Require Import Prelude GoStd Wire Node Codec Link.
Open Scope Z_scope.

(** ** Case analysis on a step *)

Lemma Activate_ok s peer role epoch s' : Activate s peer role epoch = Ok s' →
  peer ≠ 0 ∧ state s = StateUnauthenticated ∧ s' = set_status s (mkStatus StateActive peer role epoch (st_err (l_status s))).
Proof.
  unfold Activate. destruct (NodeID_Validate peer) as [[]|] eqn:E; [|done]. apply NodeID_Validate_ok in E. simpl. case_bool_decide; [done|]. simpl.
  destruct (unauthenticated s) eqn:Eu; [|done]. apply bool_decide_eq_true in Eu. simpl. by intros [= <-].
Qed.
Ltac step_cases H :=
  unfold lstep, send_step, readLoop, dispatchLoop, writeLoop, watchdog, close_step, finish, fail_reader, write_failed, closeWithError, accepted, set_queue, queue_of, release_from in H;
  repeat case_match; simplify_eq;
  try match goal with Ha : Activate _ _ _ _ = Ok _ |- _ => apply Activate_ok in Ha as (? & ? & ->) end.
Lemma step_config s l s' o : lstep s l = Some (s', o) → l_config s' = l_config s.
Proof. destruct l; intros H; step_cases H; done. Qed.

(** ** The queues *)

Definition sizes (l : list Envelope) : Z := foldr (λ e n, envelopeBytes e + n) 0 l.
Lemma sizes_app l l' : sizes (l ++ l') = sizes l + sizes l'.
Proof. induction l as [|e l IH]; simpl; [done|]. unfold sizes in *. lia. Qed.
#[global] Instance sizes_perm : Proper ((≡ₚ) ==> (=)) sizes.
Proof. intros l l' Hp. unfold sizes. induction Hp; simpl; lia. Qed.
Lemma envelopeBytes_pos e : 0 < envelopeBytes e.
Proof. unfold envelopeBytes, blen, strlen. lia. Qed.
Lemma sizes_nonneg l : 0 ≤ sizes l.
Proof. unfold sizes. induction l as [|e l IH]; simpl; [lia|]. pose proof (envelopeBytes_pos e). lia. Qed.

(** Frames whose bytes a queue counts although they are not in its channel: those of calls
    between the two operations of [push], and the one that is being written or delivered. *)
Definition reserved (d : bool) (x : sending) : option Envelope := match x with SInsert e => if Bool.eqb (isData e) d then Some e else None | SReserve _ => None end.
Definition replying (d : bool) (r : reader) : list Envelope := match r with RInsert reply _ => if Bool.eqb (isData reply) d then [reply] else [] | _ => [] end.
Definition from_queue (d : bool) (from : source) : bool := match from with FromControl => negb d | FromData => d | FromTicker => false end.
Definition writing (d : bool) (w : writer) : list Envelope :=
  match w with WHold from e _ | WFailed from e => if from_queue d from then [e] else [] | _ => [] end.
Definition storing (r : reader) : list Envelope := match r with RStore e => [e] | _ => [] end.
Definition delivering (x : dispatcher) : list Envelope := match x with DHold e => [e] | _ => [] end.
Definition out_queue (s : Session) (d : bool) : envelopeQueue := if d then l_data s else l_control s.
Definition out_counted (s : Session) (d : bool) : Z :=
  sizes (q_frames (out_queue s d)) + sizes (omap (reserved d) (l_senders s)) + sizes (replying d (l_reader s)) + sizes (writing d (l_writer s)).
Definition in_counted (s : Session) : Z := sizes (q_frames (l_input s)) + sizes (storing (l_reader s)) + sizes (delivering (l_dispatcher s)).

Record queue_ok (q : envelopeQueue) (counted : Z) : Prop := mkQueueOk {
  qo_bytes : q_bytes q = counted;
  qo_max : 0 < q_maxBytes q → q_bytes q ≤ q_maxBytes q;
  qo_count : Z.of_nat (length (q_frames q)) ≤ q_count q
}.
Lemma queue_counted q n n' : queue_ok q n → n = n' → queue_ok q n'.
Proof. by intros ? <-. Qed.
Lemma reserve_ok q e q' n : reserve q e = Some q' → queue_ok q n → queue_ok q' (envelopeBytes e + n) ∧ q_frames q' = q_frames q.
Proof.
  unfold reserve. destruct (_ && _) eqn:E; [done|]. intros [= <-] [H1 H2 H3]. split; [|done]. split; simpl; [lia| |done].
  intros Hm. apply andb_false_iff in E as [E|E]; lia.
Qed.
Lemma release_ok q e n : queue_ok q n → queue_ok (release q e) (n - envelopeBytes e).
Proof. intros [H1 H2 H3]. split; simpl; [lia| |done]. intros Hm. specialize (H2 Hm). pose proof (envelopeBytes_pos e). lia. Qed.
Lemma enqueue_ok q e q' n : enqueue q e = Some q' → queue_ok q n → queue_ok q' n ∧ q_frames q' = q_frames q ++ [e].
Proof.
  unfold enqueue. destruct (_ <? _) eqn:E; [|done]. intros [= <-] [H1 H2 H3]. split; [|done]. split; simpl; [done|done|]. rewrite length_app. simpl. lia.
Qed.
Lemma dequeue_ok q e q' n : dequeue q = Some (e, q') → queue_ok q n → queue_ok q' n ∧ q_frames q = e :: q_frames q'.
Proof. unfold dequeue. destruct (q_frames q) as [|e' r] eqn:E; [done|]. intros [= <- <-] [H1 H2 H3]. split; [|done]. split; simpl; [done|done|]. rewrite E in H3. simpl in H3. lia. Qed.
Definition queues_ok (s : Session) : Prop :=
  queue_ok (l_control s) (out_counted s false) ∧ queue_ok (l_data s) (out_counted s true) ∧ queue_ok (l_input s) (in_counted s).

(** The operation that a step did on a queue. *)
Ltac by_queue :=
  repeat match goal with
  | H : reserve ?q ?e = Some ?q', Hq : queue_ok ?q ?l |- _ => destruct (reserve_ok q e q' l H Hq) as [? ?]; clear H
  | H : enqueue ?q ?e = Some ?q', Hq : queue_ok ?q ?l |- _ => destruct (enqueue_ok q e q' l H Hq) as [? ?]; clear H
  | H : dequeue ?q = Some (?e, ?q'), Hq : queue_ok ?q ?l |- _ => destruct (dequeue_ok q e q' l H Hq) as [? ?]; clear H
  end.
Lemma sizes_senders d l k x : l !! k = Some x → sizes (omap (reserved d) l) = match reserved d x with Some e => envelopeBytes e | None => 0 end + sizes (omap (reserved d) (delete k l)).
Proof. intros Hk%delete_Permutation. rewrite Hk at 1. simpl. by destruct (reserved d x). Qed.
Lemma sizes_new d l x : sizes (omap (reserved d) (l ++ [x])) = sizes (omap (reserved d) l) + match reserved d x with Some e => envelopeBytes e | None => 0 end.
Proof. rewrite omap_app, sizes_app. simpl. destruct (reserved d x); simpl; lia. Qed.
Ltac count :=
  unfold out_counted, in_counted, out_queue in *; simpl in *;
  repeat match goal with H : l_senders ?s !! ?k = Some ?x |- _ => rewrite (sizes_senders false _ _ _ H), (sizes_senders true _ _ _ H) in *; clear H end;
  repeat match goal with H : l_reader ?s = _ |- _ => rewrite H in *; clear H | H : l_writer ?s = _ |- _ => rewrite H in *; clear H | H : l_dispatcher ?s = _ |- _ => rewrite H in *; clear H end;
  repeat match goal with H : q_frames _ = _ |- _ => rewrite H in *; clear H end;
  rewrite ?sizes_new, ?sizes_app in *; simpl in *;
  repeat match goal with H : isData ?e = _ |- _ => rewrite H in *; clear H end; simpl in *; try lia.
Ltac settle := first [eassumption | eapply queue_counted; [first [eassumption | apply release_ok; eassumption]|]; count].
Lemma step_queues s l s' o : queues_ok s → lstep s l = Some (s', o) → queues_ok s'.
Proof.
  intros Hq H. destruct l; step_cases H; try done; destruct Hq as (Hc & Hd & Hi); by_queue.
  all: split_and!; settle.
Qed.

(** ** What is written is what was accepted, in order *)

Definition wrote (d : bool) (l : list (source * Envelope)) : list Envelope := omap (λ x : source * Envelope, if from_queue d x.1 then Some x.2 else None) l.
Definition taken (d : bool) (g : log) : list Envelope := if d then g_data g else g_control g.
Definition writer_done (w : writer) : Prop := match w with WDone => True | _ => False end.
(** [lost]: the frame whose write failed. *)
Definition sent_ok (s : Session) (d : bool) : Prop :=
  ∃ lost, taken d (l_log s) = wrote d (g_written (l_log s)) ++ lost ++ q_frames (out_queue s d) ∧ (¬ writer_done (l_writer s) → lost = writing d (l_writer s)).
Lemma wrote_snoc d l x : wrote d (l ++ [x]) = wrote d l ++ if from_queue d x.1 then [x.2] else [].
Proof. unfold wrote. rewrite omap_app. simpl. by destruct (from_queue d x.1). Qed.
Lemma enqueue_frames q e q' : enqueue q e = Some q' → q_frames q' = q_frames q ++ [e].
Proof. unfold enqueue. case_match; [|done]. by intros [= <-]. Qed.
Lemma reserve_frames q e q' : reserve q e = Some q' → q_frames q' = q_frames q.
Proof. unfold reserve. case_match; [done|]. by intros [= <-]. Qed.
Lemma dequeue_frames q e q' : dequeue q = Some (e, q') → q_frames q = e :: q_frames q'.
Proof. unfold dequeue. destruct (q_frames q) eqn:E; [done|]. by intros [= <- <-]. Qed.
Ltac frames :=
  repeat match goal with
  | H : reserve _ _ = Some _ |- _ => apply reserve_frames in H
  | H : enqueue _ _ = Some _ |- _ => apply enqueue_frames in H
  | H : dequeue _ = Some _ |- _ => apply dequeue_frames in H
  end.
Ltac known := repeat match goal with H : l_reader ?s = _ |- _ => rewrite H in *; clear H | H : l_writer ?s = _ |- _ => rewrite H in *; clear H | H : l_dispatcher ?s = _ |- _ => rewrite H in *; clear H | H : isData ?e = _ |- _ => rewrite H in *; clear H end.
Lemma step_sent s l s' o d : sent_ok s d → lstep s l = Some (s', o) → sent_ok s' d.
Proof.
  intros Hq H. destruct l; step_cases H; try done; frames; destruct Hq as (lost & Hg & Hl); unfold sent_ok, out_queue in *; destruct d; simpl in *; known; simpl in *.
  all: try (specialize (Hl (λ x, x)); subst lost).
  all: try (eexists; split; [|done]; simpl; repeat match goal with H : q_frames _ = _ |- _ => rewrite H in *; clear H end; rewrite ?Hg, ?wrote_snoc; simpl; rewrite <- ?(assoc_L (++)); simpl; done).
  all: exists [e]; split; [exact Hg|intros Hn; by destruct (Hn Logic.I)].
Qed.

(** What is delivered is what was read, in order. *)
Definition in_hand (r : reader) : list Envelope :=
  match r with RCheck e | RBeat e | RReply e | RReserve _ e | RInsert _ e | RPush e | RStore e => [e] | _ => [] end.
Definition reader_done (r : reader) : Prop := match r with RClosing | RDone => True | _ => False end.
Definition dispatcher_done (x : dispatcher) : Prop := match x with DDone => True | _ => False end.
Definition received_ok (s : Session) : Prop :=
  ∃ lost rest, g_read (l_log s) = g_delivered (l_log s) ++ lost ++ q_frames (l_input s) ++ rest ∧
    (¬ dispatcher_done (l_dispatcher s) → lost = delivering (l_dispatcher s)) ∧ (¬ reader_done (l_reader s) → rest = in_hand (l_reader s)).
Ltac stops := split; first [assumption | intros Hn; first [done | by destruct (Hn Logic.I)]].
Lemma step_received s l s' o : received_ok s → lstep s l = Some (s', o) → received_ok s'.
Proof.
  intros Hq H. destruct (match l with LDispatch _ => true | _ => false end) eqn:El.
  - destruct l as [| | | |c| | | | | | | |]; try done. step_cases H; frames; destruct Hq as (lost & rest & Hg & Hl & Hr); unfold received_ok; simpl in *; known; simpl in *.
    + rewrite (Hl (λ x, x)) in Hg. simpl in Hg. exists [e], rest. split; [rewrite Hg; by match goal with H : q_frames _ = _ |- _ => rewrite H end|stops].
    + exists lost, rest. split; [done|stops].
    + rewrite (Hl (λ x, x)) in Hg. exists [], rest. split; [rewrite Hg; by rewrite <- (assoc_L (++))|stops].
    + exists lost, rest. split; [done|stops].
  - destruct l; try done; step_cases H; try done; frames; destruct Hq as (lost & rest & Hg & Hl & Hr); unfold received_ok; simpl in *; known; simpl in *.
    all: try (rewrite (Hr (λ x, x)) in Hg); exists lost; eexists; (split; [|]).
    all: try (rewrite ?Hg; repeat match goal with H : q_frames _ = _ |- _ => rewrite H in *; clear H end; rewrite <- ?(assoc_L (++)); reflexivity).
    all: try stops.

Qed.

(** ** The bytes on the pipe *)

Definition envelope_of (x : sending) : Envelope := match x with SReserve e | SInsert e => e end.
(** Every frame on its way out has fields in range. *)
Record outgoing_wf (s : Session) : Prop := mkOutgoing {
  ow_local : is_u64 (sc_LocalNode (l_config s));
  ow_peer : is_u64 (st_peer (l_status s)) ∧ is_u64 (st_epoch (l_status s));
  ow_senders : Forall wf_envelope (envelope_of <$> l_senders s);
  ow_reply : match l_reader s with RReserve r _ | RInsert r _ => wf_envelope r | _ => True end;
  ow_control : Forall wf_envelope (q_frames (l_control s));
  ow_data : Forall wf_envelope (q_frames (l_data s));
  ow_hold : match l_writer s with WHold _ e _ => wf_envelope e | _ => True end
}.
Lemma heartbeat_wf s id : is_u64 (sc_LocalNode (l_config s)) → is_u64 (st_peer (l_status s)) ∧ is_u64 (st_epoch (l_status s)) → 0 < id < 2 ^ 128 → wf_envelope (heartbeat s id).
Proof. intros ? [? ?] ?. unfold wf_envelope, heartbeat. simpl. unfold is_u64, is_i64, maxUint64, CurrentVersion, PhaseEvent, OperationHeartbeat in *. simpl. split_and!; lia. Qed.
Lemma senders_wf l k x : l !! k = Some x → Forall wf_envelope (envelope_of <$> l) → wf_envelope (envelope_of x) ∧ Forall wf_envelope (envelope_of <$> delete k l).
Proof. intros Hk%delete_Permutation. rewrite Hk at 1. simpl. by rewrite Forall_cons. Qed.
Lemma step_outgoing s l s' o : outgoing_wf s → lstep s l = Some (s', o) → outgoing_wf s'.
Proof.
  intros Hw H. destruct l; step_cases H; try done; frames; destruct Hw as [K1 K2 K3 K4 K5 K6 K7];
    try (match goal with Hk : l_senders s !! _ = Some _ |- _ => destruct (senders_wf _ _ _ Hk K3); clear Hk end);
    split; simpl in *; try assumption; known; try done.
  all: rewrite ?fmap_app; repeat match goal with Hf : q_frames _ = _ |- _ => rewrite Hf in *; clear Hf end; rewrite ?Forall_app, ?Forall_cons in *; simpl; try done.
  all: repeat match goal with Hb : negb _ = false |- _ => apply negb_false_iff, bool_decide_eq_true in Hb | Hb : bool_decide _ = true |- _ => apply bool_decide_eq_true in Hb end.
  all: try (split_and!; first [done | by apply Forall_nil]; fail).
  all: try (apply heartbeat_wf; done).
  all: try (destruct K5; done). all: try (destruct K6; done).
  all: split; [done|by apply Forall_singleton].
Qed.

Definition frame_bytes (e : Envelope) : list byte := frame_header e ++ frame_body e.
Definition encodable (c : Codec) (e : Envelope) : Prop := wf_envelope e ∧ encode_frame c e = Ok (frame_bytes e).
Lemma frame_of_encodable s e frame : wf_envelope e → frame_of s e = Some frame → encodable (sc_Codec (l_config s)) e ∧ frame = frame_bytes e.
Proof.
  unfold frame_of. destruct (encode_frame _ e) as [f|] eqn:E; [|done]. intros Hw [= <-]. destruct (proj1 (encode_frame_ok _ _ _) E) as (_ & _ & _ & ->). by split.
Qed.
(** A cut frame can only be the last one, after which nothing is written. *)
Definition cut (c : Codec) (partial : list byte) : Prop := partial = [] ∨ ∃ e rest, encodable c e ∧ frame_bytes e = partial ++ rest ∧ rest ≠ [].
Definition stopped (w : writer) : Prop := match w with WFailed _ _ | WDone => True | _ => False end.
Definition written_ok (s : Session) : Prop :=
  let c := sc_Codec (l_config s) in
  ∃ partial, l_out s = concat (frame_bytes <$> (g_written (l_log s)).*2) ++ partial ∧ Forall (encodable c) (g_written (l_log s)).*2 ∧ cut c partial ∧ (¬ stopped (l_writer s) → partial = []).
Lemma taken_cut c e n : encodable c e → cut c (take (Nat.min n (Nat.pred (length (frame_bytes e)))) (frame_bytes e)).
Proof.
  intros He. right. exists e, (drop (Nat.min n (Nat.pred (length (frame_bytes e)))) (frame_bytes e)). split_and!; [done|by rewrite take_drop|].
  intros Hd%(f_equal length). rewrite length_drop in Hd. simpl in Hd. assert (98 ≤ length (frame_bytes e))%nat; [|lia]. unfold frame_bytes. rewrite length_app, length_frame_header. lia.
Qed.
Lemma step_written s l s' o : outgoing_wf s → written_ok s → lstep s l = Some (s', o) → written_ok s'.
Proof.
  intros Hw Hq H. destruct l; step_cases H; try done; destruct Hq as (partial & Ho & Hf & Hc & Hp); pose proof (ow_hold _ Hw) as He; unfold written_ok; simpl in *; known; simpl in *.
  all: try (exists partial; split_and!; [exact Ho|exact Hf|exact Hc|first [done | intros Hn; by destruct (Hn Logic.I)]]; fail).
  all: rewrite (Hp (λ x, x)), app_nil_r in Ho; match goal with Hx : frame_of _ _ = Some _ |- _ => destruct (frame_of_encodable _ _ _ He Hx) as [Hen ->] end.
  all: try (exists []; split_and!; [rewrite !fmap_app, concat_app; simpl; by rewrite Ho, !app_nil_r|rewrite fmap_app; apply Forall_app; split; [done|by apply Forall_singleton]|by left|done]; fail).
  all: eexists; split_and!; [by rewrite Ho|done|by apply taken_cut|intros Hn; by destruct (Hn Logic.I)].
Qed.

(** ** Nothing but join frames before authentication *)

Definition join_frame (e : Envelope) : Prop := is_join e = true.
Definition quiet (s : Session) : Prop :=
  Forall join_frame (g_control (l_log s) ++ g_data (l_log s)) ∧ Forall join_frame (g_written (l_log s)).*2 ∧ Forall join_frame (g_delivered (l_log s)) ∧
  Forall join_frame (envelope_of <$> l_senders s) ∧ Forall join_frame (q_frames (l_control s)) ∧ Forall join_frame (q_frames (l_data s)) ∧
  Forall join_frame (q_frames (l_input s)) ∧ Forall join_frame (delivering (l_dispatcher s)) ∧
  match l_reader s with RBeat e | RPush e | RStore e => join_frame e | RReply _ | RReserve _ _ | RInsert _ _ => False | _ => True end ∧
  match l_writer s with WHold _ e _ => join_frame e | _ => True end.
Definition auth_ok (s : Session) : Prop := state s = StateUnauthenticated → quiet s.
Lemma Send_check_join s e : Send_check s e = Ok tt → state s = StateUnauthenticated → join_frame e.
Proof.
  unfold Send_check, unauthenticated, join_frame. intros Hs Hu. rewrite Hu in Hs. destruct (Envelope_Validate _ _); [|done]. simpl in Hs. by destruct (is_join e).
Qed.
Lemma senders_join l k x : l !! k = Some x → Forall join_frame (envelope_of <$> l) → join_frame (envelope_of x) ∧ Forall join_frame (envelope_of <$> delete k l).
Proof. intros Hk%delete_Permutation. rewrite Hk at 1. simpl. by rewrite Forall_cons. Qed.
Lemma step_auth s l s' o : auth_ok s → lstep s l = Some (s', o) → auth_ok s'.
Proof.
  intros Ha H. destruct l; step_cases H; try done; frames; intros Hu; unfold state in Hu; simpl in Hu; try discriminate Hu.
  all: specialize (Ha Hu); destruct Ha as (K1 & K2 & K3 & K4 & K5 & K6 & K7 & K8 & K9 & K10).
  all: try (match goal with Hk : l_senders _ !! _ = Some _ |- _ => destruct (senders_join _ _ _ Hk K4); clear Hk end).
  all: try match goal with Hx : Send_check _ _ = Ok ?a |- _ => destruct a; apply Send_check_join in Hx; [|done] end.
  all: unfold quiet; simpl in *; known; simpl in *; try done.
  all: repeat match goal with Hf : q_frames _ = _ |- _ => rewrite Hf in *; clear Hf end.
  all: try match goal with Hx : _ && _ = false |- _ => unfold unauthenticated, state in Hx; rewrite Hu in Hx; simpl in Hx; apply negb_false_iff in Hx end.
  all: try match goal with Hx : is_peer_heartbeat _ _ = true |- _ => unfold is_peer_heartbeat, active, state in Hx; rewrite Hu in Hx; simpl in Hx; rewrite andb_false_r in Hx; discriminate Hx end.
  all: try match goal with Hx : negb (active _) = false |- _ => unfold active, state in Hx; rewrite Hu in Hx; discriminate Hx end.
  all: rewrite ?fmap_app, ?Forall_app in *; simpl; rewrite ?Forall_cons in *; destruct_and?; split_and?; first [done | by apply Forall_nil].
Qed.

(** ** Closing *)

Definition writer_waits (w : writer) : bool := match w with WFailed _ _ | WClosing => true | _ => false end.
Definition cancels (c : closer) : bool := match c with CPipe | CDone => true | _ => false end.
(** The first error is kept; what waits for [closeWithError] waits for one that has begun. *)
Record closing_ok (s : Session) : Prop := mkClosing {
  co_idle : l_closer s = CIdle → st_err (l_status s) = None;
  co_cancel : cancels (l_closer s) = true → l_cancelled s = true;
  co_pipe : l_closer s = CDone → l_pipeClosed s = true;
  co_reader : l_reader s = RClosing → l_closer s ≠ CIdle;
  co_writer : writer_waits (l_writer s) = true → l_closer s ≠ CIdle;
  co_watchdog : l_watchdog s = VClosing → l_closer s ≠ CIdle;
  co_finished : l_done s = true → l_reader s = RDone ∧ l_dispatcher s = DDone ∧ l_writer s = WDone ∧ l_watchdog s = VDone
}.
Lemma step_closing s l s' o : closing_ok s → lstep s l = Some (s', o) → closing_ok s'.
Proof.
  intros Hc H. destruct l; step_cases H; try done; destruct Hc as [K1 K2 K3 K4 K5 K6 K7]; split; simpl in *; try assumption; known; simpl in *.
  all: repeat match goal with Hx : l_closer _ = _ |- _ => rewrite Hx in *; clear Hx end; simpl in *; intros; try done; try (by auto); try (destruct K7 as (? & ? & ? & ?); [done|congruence]).
Qed.
Lemma step_error s l s' o : closing_ok s → lstep s l = Some (s', o) → ∀ e, st_err (l_status s) = Some e → st_err (l_status s') = Some e.
Proof.
  intros Hc H e He. assert (l_closer s ≠ CIdle) as Hn by (intros Hi; by rewrite (co_idle _ Hc Hi) in He). destruct l; step_cases H; try done.
Qed.

(** ** Silence *)

(** The peer's heartbeat is one that was read from it. *)
Definition beat_of (s : Session) (e : Envelope) : Prop :=
  e_Operation e = OperationHeartbeat ∧ e_Source e = st_peer (l_status s) ∧ e_Target e = sc_LocalNode (l_config s) ∧ e_TopologyEpoch e = st_epoch (l_status s).
Definition heard (s : Session) : Prop :=
  (state s = StateUnauthenticated → l_peerHeartbeat s = false) ∧ (l_peerHeartbeat s = true → Exists (beat_of s) (g_read (l_log s))).
Lemma peer_heartbeat_spec s e : is_peer_heartbeat s e = true → state s = StateActive ∧ beat_of s e.
Proof. unfold is_peer_heartbeat, active, beat_of. rewrite !andb_true_iff, !Z.eqb_eq, bool_decide_eq_true. naive_solver. Qed.
Lemma hand_read s e : received_ok s → in_hand (l_reader s) = [e] → e ∈ g_read (l_log s).
Proof.
  intros (lost & rest & -> & _ & Hr) He. rewrite Hr, He; [rewrite !elem_of_app, list_elem_of_singleton; auto|]. revert He. destruct (l_reader s); simpl; (done || (intros ? ?; done)).
Qed.
Lemma step_heard s l s' o : received_ok s → heard s → lstep s l = Some (s', o) → heard s'.
Proof.
  intros Hrec Hc H. pose proof (hand_read s) as Hhand. destruct l; step_cases H; try exact Hc; destruct Hc as (K1 & K2); unfold heard, state in *; simpl in *; try (by split).
  all: try (split; [by intros Hx; first [discriminate Hx|auto]|by auto]; fail).
  all: try (split; [done|intros Hb; apply Exists_app; left; exact (K2 Hb)]; fail).
  all: try match goal with Hx : is_peer_heartbeat _ ?e = true |- _ =>
      apply peer_heartbeat_spec in Hx as [Ha Hb]; (split; [intros Hu; unfold state in Ha; congruence|intros _; apply Exists_exists; exists e; split; [by apply (Hhand e Hrec)|exact Hb]]) end.
  split; [done|]. intros Hb. rewrite K1 in Hb by done. discriminate Hb.
Qed.

(** ** The invariant *)

Record link_ok (s : Session) : Prop := mkLinkOk {
  lk_queues : queues_ok s;
  lk_sent d : sent_ok s d;
  lk_received : received_ok s;
  lk_outgoing : outgoing_wf s;
  lk_written : written_ok s;
  lk_auth : auth_ok s;
  lk_closing : closing_ok s;
  lk_heard : heard s
}.
Lemma step_link_ok s l s' o : link_ok s → lstep s l = Some (s', o) → link_ok s'.
Proof.
  intros [K1 K2 K3 K4 K5 K6 K7 K8] H. split; [by eapply step_queues|intros d; by eapply step_sent|by eapply step_received|by eapply step_outgoing|by eapply step_written|by eapply step_auth|
    by eapply step_closing|by eapply step_heard].
Qed.
Lemma NewSession_ok config now s : is_u64 (sc_LocalNode config) → NewSession config now = Ok s → link_ok s.
Proof.
  intros Hl. unfold NewSession. destruct (SessionConfig_normalized config) as [c|] eqn:E; [|done]. intros [= <-].
  assert (sc_LocalNode c = sc_LocalNode config ∧ 0 < sc_ControlQueue c ∧ 0 < sc_DataQueue c ∧ 0 < sc_InboundQueue c ∧ 0 ≤ sc_ControlQueueBytes c ∧ 0 ≤ sc_DataQueueBytes c ∧ 0 ≤ sc_InboundQueueBytes c) as (E1 & ? & ? & ? & ? & ? & ?).
  { unfold SessionConfig_normalized in E. destruct (NodeID_Validate _); [|done]. simpl in E. guards E. simplify_eq. simpl. bool_prop.
    split_and!; try done; repeat case_match; lia. }
  split; simpl.
  - split_and!; split; unfold out_counted, in_counted, sizes; simpl; lia.
  - intros d. exists []. by destruct d.
  - by exists [], [].
  - split; simpl; try done. by rewrite E1.
  - exists []. split_and!; try done. by left.
  - intros _. unfold quiet. simpl. split_and!; done.
  - split; simpl; done.
  - split; done.
Qed.
Lemma reachable_link_ok s0 s : link_ok s0 → reachable s0 s → link_ok s.
Proof. intros H0. induction 1; [done|by eapply step_link_ok]. Qed.
