(* ===== verification/LinkRuns.v ===== *)
(** * Runs of link sessions

    Two sessions over one pipe, with the bytes that are under way between them; runs in which
    data is waiting; and the steps that end a session. *)

From S2P Require Import Prelude GoStd Wire Node Codec Link LinkTheory.
Open Scope Z_scope.

(** ** Frames on the wire *)

Lemma encodable_mono c c' e : encodable c e → payloadLimit c ≤ payloadLimit c' → encodable c' e.
Proof.
  intros [Hw He] Hc. split; [done|]. apply encode_frame_ok in He as (Hv & H1 & H2 & _). apply encode_frame_ok. split_and!; try done.
  unfold valid_envelope in *. rewrite effective_payloadLimit in *. destruct_and!. split_and!; try done. lia.
Qed.
Lemma payloadLimit_of n : 0 < n → payloadLimit (mkCodec n) = n.
Proof. intros Hn. unfold payloadLimit. cbn [c_MaxPayload]. destruct (n <=? 0) eqn:E; [|done]. apply Z.leb_le in E. lia. Qed.
(** The codec has no state: frames of different codecs can be told apart too. *)
Lemma frame_unique c1 c2 e1 e2 r1 r2 : encodable c1 e1 → encodable c2 e2 → frame_bytes e1 ++ r1 = frame_bytes e2 ++ r2 → e1 = e2 ∧ r1 = r2.
Proof.
  intros H1 H2 Heq. set (c := mkCodec (payloadLimit c1 `max` payloadLimit c2)).
  assert (payloadLimit c = payloadLimit c1 `max` payloadLimit c2) as Ec.
  { apply payloadLimit_of. pose proof (payloadLimit_pos c1). lia. }
  assert (∀ e r, encodable c e → Decode c (frame_bytes e ++ r) = Ok (e, r)) as Hd.
  { intros e r [Hw He]. apply encode_frame_ok in He as (Hv & Hp & _ & _). unfold frame_bytes. rewrite <- (assoc_L (++)). by apply Decode_frame. }
  pose proof (Hd e1 r1 ltac:(apply (encodable_mono c1); [done|lia])) as D1. pose proof (Hd e2 r2 ltac:(apply (encodable_mono c2); [done|lia])) as D2.
  rewrite Heq, D2 in D1. by simplify_eq.
Qed.
Definition bytes_on (l : list Envelope) : list byte := concat (frame_bytes <$> l).
Lemma bytes_on_cons e l : bytes_on (e :: l) = frame_bytes e ++ bytes_on l.
Proof. done. Qed.
Lemma bytes_on_snoc l e : bytes_on (l ++ [e]) = bytes_on l ++ frame_bytes e.
Proof. unfold bytes_on. rewrite fmap_app, concat_app. simpl. by rewrite app_nil_r. Qed.
Lemma frame_nonempty e r : frame_bytes e ++ r ≠ [].
Proof. unfold frame_bytes. intros Hx%(f_equal length). rewrite !length_app, length_frame_header in Hx. simpl in Hx. lia. Qed.
(** What can be decoded from the beginning of the bytes of [l] is the beginning of [l]. *)
Lemma decoded_prefix c1 c2 l : Forall (encodable c2) l → ∀ r tail, Forall (encodable c1) r → bytes_on r ++ tail = bytes_on l → ∃ l', l = r ++ l' ∧ tail = bytes_on l'.
Proof.
  induction 1 as [|e l He Hl IH]; intros r tail Hr Heq.
  - destruct r as [|e' r]; [by exists []|]. exfalso. rewrite bytes_on_cons, <- (assoc_L (++)) in Heq. by apply frame_nonempty in Heq.
  - destruct r as [|e' r]; [by exists (e :: l)|]. apply Forall_cons in Hr as [He' Hr]. rewrite !bytes_on_cons, <- (assoc_L (++)) in Heq.
    destruct (frame_unique _ _ _ _ _ _ He' He Heq) as [-> Heq']. destruct (IH r tail Hr Heq') as (l' & -> & ?). by exists l'.
Qed.

(** ** Reading *)

Definition stream_ok (s : Session) (arrived : list byte) : Prop :=
  arrived = bytes_on (g_read (l_log s)) ++ l_in s ∧ Forall (encodable (sc_Codec (l_config s))) (g_read (l_log s)).
Definition arrives (l : label) : list byte := match l with LArrive data => data | _ => [] end.
Lemma Decode_encodable c stream e rest : Decode c stream = Ok (e, rest) → encodable c e ∧ stream = frame_bytes e ++ rest.
Proof.
  intros (-> & Hw & Hv & Hp)%Decode_inv. split; [|done]. split; [done|]. apply encode_frame_ok. split_and!; try done.
  pose proof (valid_name_len _ _ Hv). destruct Hv as (_&_&_&_&_&_&_&_&_&_&?&?&?&_).
  unfold metadataSize, maxInt, fixedHeaderSize, maxUint32, MaxContentTypeBytes, MaxSchemaBytes, MaxCapabilityBytes, MaxResourceNameBytes in *. lia.
Qed.
Lemma step_stream s l s' o arrived : stream_ok s arrived → lstep s l = Some (s', o) → stream_ok s' (arrived ++ arrives l).
Proof.
  intros Hq H. destruct l; step_cases H; destruct Hq as [Hb Hf]; unfold stream_ok; simpl; rewrite ?app_nil_r; try done.
  1,2: match goal with Hd : Decode _ _ = Ok _ |- _ => apply Decode_encodable in Hd as [He Hin] end; (split; [|apply Forall_app; split; [done|by apply Forall_singleton]]);
    unfold bytes_on in *; rewrite Hb, Hin, fmap_app, concat_app; simpl; by rewrite app_nil_r, <- (assoc_L (++)).
  split; [|done]. by rewrite Hb, (assoc_L (++)).
Qed.
Lemma step_out s l s' o : lstep s l = Some (s', o) → ∃ more, l_out s' = l_out s ++ more.
Proof. intros H. destruct l; step_cases H; simpl; try (exists []; by rewrite app_nil_r); by eexists. Qed.

(** ** Two ends *)

(** [p_ab]: the bytes that went from [a] to [b] so far. *)
Record pipes := mkPipes { p_a : Session; p_b : Session; p_ab : list byte; p_ba : list byte }.
Inductive pair_step : pipes → pipes → Prop :=
| step_a p l s o : arrives l = [] → lstep (p_a p) l = Some (s, o) → pair_step p (mkPipes s (p_b p) (p_ab p) (p_ba p))
| step_b p l s o : arrives l = [] → lstep (p_b p) l = Some (s, o) → pair_step p (mkPipes (p_a p) s (p_ab p) (p_ba p))
| move_ab p data s o rest : l_out (p_a p) = p_ab p ++ data ++ rest → lstep (p_b p) (LArrive data) = Some (s, o) → pair_step p (mkPipes (p_a p) s (p_ab p ++ data) (p_ba p))
| move_ba p data s o rest : l_out (p_b p) = p_ba p ++ data ++ rest → lstep (p_a p) (LArrive data) = Some (s, o) → pair_step p (mkPipes s (p_b p) (p_ab p) (p_ba p ++ data)).

(** What [b] delivered so far came from [a]: the frames in the order in which they were
    written; those of one queue in the order in which they were accepted; and the rest are
    heartbeats. *)
Definition ordered (a b : Session) : Prop :=
  ∃ w more, g_delivered (l_log b) = w.*2 ∧ g_written (l_log a) = w ++ more ∧
    (∀ d, ∃ later, taken d (l_log a) = wrote d w ++ later) ∧ Forall (λ x, x.1 = FromTicker → e_Operation x.2 = OperationHeartbeat) w.
Definition one_way (a b : Session) (moved : list byte) : Prop := (∃ rest, l_out a = moved ++ rest) ∧ stream_ok b moved.

Definition ticks (s : Session) : Prop :=
  Forall (λ x, x.1 = FromTicker → e_Operation x.2 = OperationHeartbeat) (g_written (l_log s)) ∧
  match l_writer s with WHold FromTicker e _ => e_Operation e = OperationHeartbeat | _ => True end.
Lemma step_ticks s l s' o : ticks s → lstep s l = Some (s', o) → ticks s'.
Proof.
  intros Hq H. destruct l; step_cases H; try done; destruct Hq as [K1 K2]; unfold ticks; simpl in *; known; try done.
  all: split; [|done]; apply Forall_app; split; [done|]; by apply Forall_singleton.
Qed.
Lemma delivered_ordered a b moved : link_ok a → link_ok b → ticks a → one_way a b moved → ordered a b.
Proof.
  intros Ha Hb [Ht _] [[rest Hout] [Hin Hen]]. destruct (lk_written _ Ha) as (partial & Ho & Hf & Hcut & _).
  assert (∃ more, (g_written (l_log a)).*2 = g_read (l_log b) ++ more) as [more Hmore].
  { fold (bytes_on (g_written (l_log a)).*2) in Ho. rewrite Hout, Hin in Ho. destruct Hcut as [->|(e & tail & He & Hfe & Hne)].
    - rewrite app_nil_r, <- (assoc_L (++)) in Ho. destruct (decoded_prefix _ _ _ Hf _ _ Hen Ho) as (l' & -> & _). by exists l'.
    - assert (bytes_on (g_read (l_log b)) ++ (l_in b ++ rest ++ tail) = bytes_on ((g_written (l_log a)).*2 ++ [e])) as Heq.
      { rewrite bytes_on_snoc, Hfe, (assoc_L (++) _ partial), <- Ho. by rewrite <- !(assoc_L (++)). }
      destruct (decoded_prefix _ _ _ ltac:(apply Forall_app; split; [exact Hf|apply Forall_singleton; exact He]) _ _ Hen Heq) as (l' & Hl & Htail).
      destruct l' as [|x l' _] using rev_ind; [exfalso|].
      + change (bytes_on []) with (@nil byte) in Htail. apply app_eq_nil in Htail as [_ Htail]. apply app_eq_nil in Htail as [_ Htail]. done.
      + rewrite (assoc_L (++)) in Hl. apply app_inj_tail in Hl as [Hl _]. by exists l'. }
  destruct (lk_received _ Hb) as (lost & rest' & Hr & _ & _). rewrite Hr, <- (assoc_L (++)) in Hmore.
  apply fmap_app_inv in Hmore as (w & more' & Hw & Hm & Hg). exists w, more'. split_and!; [done|done| |].
  - intros d. destruct (lk_sent _ Ha d) as (lost' & Hs & _). rewrite Hg in Hs. unfold wrote in *. rewrite omap_app, <- (assoc_L (++)) in Hs. by eexists.
  - rewrite Hg in Ht. by apply Forall_app in Ht as [? _].
Qed.
Record pair_ok (p : pipes) : Prop := mkPairOk {
  po_a : link_ok (p_a p); po_b : link_ok (p_b p); po_ta : ticks (p_a p); po_tb : ticks (p_b p);
  po_ab : one_way (p_a p) (p_b p) (p_ab p); po_ba : one_way (p_b p) (p_a p) (p_ba p)
}.
Lemma one_way_sender a b moved l a' o : one_way a b moved → lstep a l = Some (a', o) → one_way a' b moved.
Proof. intros [[rest Hr] Hs] H. split; [|done]. destruct (step_out _ _ _ _ H) as [more ->]. exists (rest ++ more). by rewrite Hr, (assoc_L (++)). Qed.
Lemma one_way_receiver a b moved l b' o : arrives l = [] → one_way a b moved → lstep b l = Some (b', o) → one_way a b' moved.
Proof. intros Hl [Hr Hs] H. split; [done|]. pose proof (step_stream _ _ _ _ _ Hs H) as Hs'. by rewrite Hl, app_nil_r in Hs'. Qed.
Lemma one_way_move a b moved data rest b' o : l_out a = moved ++ data ++ rest → one_way a b moved → lstep b (LArrive data) = Some (b', o) → one_way a b' (moved ++ data).
Proof. intros Ho [_ Hs] H. split; [exists rest; by rewrite <- (assoc_L (++))|]. exact (step_stream _ _ _ _ _ Hs H). Qed.
Lemma pair_step_ok p p' : pair_ok p → pair_step p p' → pair_ok p'.
Proof.
  intros [K1 K2 K3 K4 K5 K6] H. destruct H as [p l s o Hl H|p l s o Hl H|p data s o rest Ho H|p data s o rest Ho H]; split; simpl; try assumption;
    try (exact (step_link_ok _ _ _ _ K1 H)); try (exact (step_link_ok _ _ _ _ K2 H)); try (exact (step_ticks _ _ _ _ K3 H)); try (exact (step_ticks _ _ _ _ K4 H)).
  - by eapply one_way_sender.
  - by eapply one_way_receiver.
  - by eapply one_way_receiver.
  - by eapply one_way_sender.
  - by eapply one_way_move.
  - by eapply one_way_sender.
  - by eapply one_way_sender.
  - by eapply one_way_move.
Qed.

(** ** Fairness *)

(** How many control frames the writer can still write before it takes a data frame that is
    waiting. *)
Definition burst (w : writer) : nat :=
  match w with WTop b | WControl b | WAny b | WHold FromTicker _ b => b | WHold FromControl _ b => S b | _ => 0%nat end.
Definition budget_ok (s : Session) : Prop :=
  match l_writer s with WTop b | WHold FromTicker _ b => (b ≤ 8)%nat | WControl b | WAny b => (1 ≤ b ≤ 8)%nat | WHold FromControl _ b => (b ≤ 7)%nat | WHold FromData _ b => b = 8%nat | _ => True end.
Lemma step_budget s l s' o : budget_ok s → lstep s l = Some (s', o) → budget_ok s'.
Proof. intros Hb H. destruct l; step_cases H; try exact Hb; unfold budget_ok in *; simpl in *; known; first [exact Hb | done | lia]. Qed.
(** Runs during which a data frame is waiting all the time. *)
Inductive waiting : Session → Session → Prop :=
| waiting_now s : q_frames (l_data s) ≠ [] → waiting s s
| waiting_step s l s' o s'' : q_frames (l_data s) ≠ [] → lstep s l = Some (s', o) → waiting s' s'' → waiting s s''.
Definition writes (d : bool) (s : Session) : nat := length (wrote d (g_written (l_log s))).
Lemma step_writes d s l s' o : lstep s l = Some (s', o) → (writes d s ≤ writes d s')%nat.
Proof. intros H. unfold writes. destruct l; step_cases H; simpl; try lia; rewrite wrote_snoc, length_app; lia. Qed.
Lemma waiting_writes d s s' : waiting s s' → (writes d s ≤ writes d s')%nat.
Proof. induction 1 as [|s l s' o s'' _ Hs _ IH]; [done|]. pose proof (step_writes d _ _ _ _ Hs). lia. Qed.
Lemma step_burst s l s' o : budget_ok s → q_frames (l_data s) ≠ [] → lstep s l = Some (s', o) → writes true s' = writes true s →
  (writes false s' + burst (l_writer s') ≤ writes false s + burst (l_writer s))%nat.
Proof.
  intros Hb Hd H. destruct l; step_cases H; try done; intros He; unfold budget_ok, writes in *; simpl in *; known; simpl in *; rewrite ?wrote_snoc, ?length_app in *; simpl in *; try lia.
  exfalso. match goal with Hx : dequeue _ = None |- _ => unfold dequeue in Hx; by destruct (q_frames (l_data s)) end.
Qed.
Lemma waiting_burst s s' : budget_ok s → waiting s s' → writes true s' = writes true s → (writes false s' + burst (l_writer s') ≤ writes false s + burst (l_writer s))%nat.
Proof.
  intros Hb Hw. induction Hw as [|s l s' o s'' Hd Hs Hw IH]; [done|]. intros He. pose proof (step_writes true _ _ _ _ Hs). pose proof (waiting_writes true _ _ Hw).
  pose proof (step_burst _ _ _ _ Hb Hd Hs ltac:(lia)). specialize (IH (step_budget _ _ _ _ Hb Hs) ltac:(lia)). lia.
Qed.
Lemma burst_bound s : budget_ok s → (burst (l_writer s) ≤ 8)%nat.
Proof. unfold budget_ok, burst. repeat case_match; lia. Qed.

(** ** Shutdown *)

Definition internal (l : label) : bool :=
  match l with LSending _ | LReader _ _ | LDispatch _ | LWriter _ | LWatch _ | LCloser | LFinish => true | _ => false end.
Definition runs (s s' : Session) : Prop := ∃ l o, internal l = true ∧ lstep s l = Some (s', o).
Lemma runs_of s l s' o : lstep s l = Some (s', o) → internal l = true → runs s s'.
Proof. intros ? ?. by exists l, o. Qed.
Lemma step_cancelled s l s' o : lstep s l = Some (s', o) → l_cancelled s = true → l_cancelled s' = true.
Proof. intros H Hc. destruct l; step_cases H; simpl in *; first [done | congruence]. Qed.
Lemma step_pipe s l s' o : lstep s l = Some (s', o) → l_pipeClosed s = true → l_pipeClosed s' = true.
Proof. intros H Hc. destruct l; step_cases H; simpl in *; first [done | congruence]. Qed.
Definition pcs (s : Session) := (l_reader s, l_dispatcher s, l_writer s, l_watchdog s, l_done s).
Definition ending (s : Session) : Prop := closing_ok s ∧ l_cancelled s = true.
Lemma ending_step s l s' o : ending s → lstep s l = Some (s', o) → ending s'.
Proof. intros [Hc Hx] H. split; [by eapply step_closing|by eapply step_cancelled]. Qed.
(** The body of [closeWithError] runs to its end. *)
Lemma settle s : closing_ok s → l_cancelled s = true ∨ l_closer s ≠ CIdle →
  ∃ s', rtc runs s s' ∧ ending s' ∧ (l_closer s ≠ CIdle → l_closer s' = CDone) ∧ pcs s' = pcs s ∧ (l_pipeClosed s = true → l_pipeClosed s' = true).
Proof.
  intros Hc Hx. destruct (l_closer s) eqn:E.
  - exists s. split_and!; [constructor|split; [done|by destruct Hx]|done|done|done].
  - exists (set_close (set_close s true CPipe (l_pipeClosed s)) true CDone true).
    assert (lstep s LCloser = Some (set_close s true CPipe (l_pipeClosed s), ONothing)) as H1 by (simpl; unfold close_step; by rewrite E).
    assert (lstep (set_close s true CPipe (l_pipeClosed s)) LCloser = Some (set_close (set_close s true CPipe (l_pipeClosed s)) true CDone true, ONothing)) as H2 by done.
    split_and!; [eapply rtc_l; [by exists LCloser, ONothing|]; eapply rtc_l; [by exists LCloser, ONothing|constructor]| |done|done|done].
    split; [|done]. eapply step_closing; [|exact H2]. by eapply step_closing.
  - exists (set_close s (l_cancelled s) CDone true).
    assert (lstep s LCloser = Some (set_close s (l_cancelled s) CDone true, ONothing)) as H1 by (simpl; unfold close_step; by rewrite E).
    split_and!; [eapply rtc_l; [by exists LCloser, ONothing|constructor]| |done|done|done].
    split; [by eapply step_closing|]. simpl. apply (co_cancel _ Hc). by rewrite E.
  - exists s. split_and!; [constructor| |done|done|done]. split; [done|]. apply (co_cancel _ Hc). by rewrite E.
Qed.

Lemma step_reader_frame s now id s' o : lstep s (LReader now id) = Some (s', o) → (l_dispatcher s', l_writer s', l_watchdog s', l_done s') = (l_dispatcher s, l_writer s, l_watchdog s, l_done s).
Proof. intros H. step_cases H; done. Qed.
Definition reader_rank (r : reader) : nat :=
  match r with RDone => 0 | RClosing => 1 | RRead => 2 | RStore _ => 3 | RPush _ => 4 | RInsert _ _ => 5 | RReserve _ _ => 6 | RReply _ => 7 | RBeat _ => 8 | RCheck _ => 9 end%nat.
Lemma reader_steps s : l_cancelled s = true → l_pipeClosed s = true → l_reader s ≠ RDone → (l_reader s = RClosing → l_closer s = CDone) →
  ∃ s', lstep s (LReader 0 (Some 1)) = Some (s', ONothing) ∧ (reader_rank (l_reader s') < reader_rank (l_reader s))%nat.
Proof.
  intros Hx Hp Hn Hc. destruct (lstep s (LReader 0 (Some 1))) as [[s' o]|] eqn:E.
  - exists s'. assert (o = ONothing) as -> by (step_cases E; done). split; [done|]. step_cases E; simpl; lia.
  - exfalso. step_cases E; naive_solver.
Qed.
Lemma reader_ends n : ∀ s, ending s → l_pipeClosed s = true → (reader_rank (l_reader s) ≤ n)%nat →
  ∃ s', rtc runs s s' ∧ ending s' ∧ l_pipeClosed s' = true ∧ pcs s' = (RDone, l_dispatcher s, l_writer s, l_watchdog s, l_done s).
Proof.
  induction n as [|n IH]; intros s He Hp Hr.
  - exists s. split_and!; [constructor|done|done|]. unfold pcs. revert Hr. by destruct (l_reader s); simpl; try lia.
  - destruct (settle s (proj1 He) ltac:(left; apply He)) as (s1 & R1 & He1 & Hd1 & Hpc & Hp1). assert (l_reader s1 = l_reader s ∧ l_dispatcher s1 = l_dispatcher s ∧ l_writer s1 = l_writer s ∧ l_watchdog s1 = l_watchdog s ∧ l_done s1 = l_done s) as (Q1 & Q2 & Q3 & Q4 & Q5) by (unfold pcs in Hpc; by simplify_eq).
    destruct (decide (reader_rank (l_reader s1) = 0%nat)) as [Hz|Hz].
    { exists s1. split_and!; [done|done|by auto|]. unfold pcs. rewrite Q2, Q3, Q4, Q5. revert Hz. by destruct (l_reader s1). }
    destruct (reader_steps s1) as (s2 & H2 & Hlt); [apply He1|by auto|intros Hq; by rewrite Hq in Hz|intros Hcl; apply Hd1; apply (co_reader _ (proj1 He)); by rewrite <- Q1|].
    pose proof (step_reader_frame _ _ _ _ _ H2) as Hf. destruct (IH s2) as (s3 & R3 & He3 & Hp3 & Hpc3); [by eapply ending_step|eapply step_pipe; [exact H2|by auto]|rewrite Q1 in Hlt; lia|].
    exists s3. split_and!; [|done|done|rewrite Hpc3; injection Hf as ? ? ? ?; congruence]. etrans; [exact R1|]. eapply rtc_l; [exact (runs_of _ _ _ _ H2 eq_refl)|exact R3].
Qed.

Lemma step_writer_frame s c s' o : lstep s (LWriter c) = Some (s', o) → (l_reader s', l_dispatcher s', l_watchdog s', l_done s') = (l_reader s, l_dispatcher s, l_watchdog s, l_done s).
Proof. intros H. step_cases H; done. Qed.
Definition writer_rank (w : writer) : nat := match w with WDone => 0 | WFailed _ _ | WClosing => 1 | WHold _ _ _ => 2 | WAny _ => 3 | WControl _ => 4 | WTop _ => 5 end%nat.
Definition last_case (w : writer) : write_case := match w with WHold _ _ _ => WriteFails 0 | WAny _ => StopWriter | _ => Loop end.
Lemma writer_steps s : l_cancelled s = true → l_writer s ≠ WDone → (writer_waits (l_writer s) = true → l_closer s = CDone) →
  ∃ s', lstep s (LWriter (last_case (l_writer s))) = Some (s', ONothing) ∧ (writer_rank (l_writer s') < writer_rank (l_writer s))%nat.
Proof.
  intros Hx Hn Hc. destruct (lstep s (LWriter (last_case (l_writer s)))) as [[s' o]|] eqn:E.
  - exists s'. assert (o = ONothing) as -> by (unfold last_case in E; step_cases E; done). split; [done|]. unfold last_case in E. step_cases E; simpl; lia.
  - exfalso. unfold last_case in E. step_cases E; naive_solver.
Qed.
Lemma writer_ends n : ∀ s, ending s → (writer_rank (l_writer s) ≤ n)%nat →
  ∃ s', rtc runs s s' ∧ ending s' ∧ (l_pipeClosed s = true → l_pipeClosed s' = true) ∧ pcs s' = (l_reader s, l_dispatcher s, WDone, l_watchdog s, l_done s).
Proof.
  induction n as [|n IH]; intros s He Hr.
  - exists s. split_and!; [constructor|done|done|]. unfold pcs. revert Hr. by destruct (l_writer s); simpl; try lia.
  - destruct (settle s (proj1 He) ltac:(left; apply He)) as (s1 & R1 & He1 & Hd1 & Hpc & Hp1). assert (l_reader s1 = l_reader s ∧ l_dispatcher s1 = l_dispatcher s ∧ l_writer s1 = l_writer s ∧ l_watchdog s1 = l_watchdog s ∧ l_done s1 = l_done s) as (Q1 & Q2 & Q3 & Q4 & Q5) by (unfold pcs in Hpc; by simplify_eq).
    destruct (decide (writer_rank (l_writer s1) = 0%nat)) as [Hz|Hz].
    { exists s1. split_and!; [done|done|by auto|]. unfold pcs. rewrite Q1, Q2, Q4, Q5. revert Hz. by destruct (l_writer s1). }
    destruct (writer_steps s1) as (s2 & H2 & Hlt); [apply He1|intros Hq; by rewrite Hq in Hz|intros Hcl; apply Hd1; apply (co_writer _ (proj1 He)); by rewrite <- Q3|].
    pose proof (step_writer_frame _ _ _ _ H2) as Hf. destruct (IH s2) as (s3 & R3 & He3 & Hp3 & Hpc3); [by eapply ending_step|rewrite Q3 in Hlt; lia|].
    exists s3. split_and!; [|done| |rewrite Hpc3; injection Hf as ? ? ? ?; congruence]; [etrans; [exact R1|]; eapply rtc_l; [exact (runs_of _ _ _ _ H2 eq_refl)|exact R3]|].
    intros Hp. apply Hp3. eapply step_pipe; [exact H2|by auto].
Qed.

Lemma dispatcher_ends s : ending s → ∃ s', rtc runs s s' ∧ ending s' ∧ l_pipeClosed s' = l_pipeClosed s ∧ pcs s' = (l_reader s, DDone, l_writer s, l_watchdog s, l_done s).
Proof.
  intros He. destruct (lstep s (LDispatch StopDispatch)) as [[s' o]|] eqn:E.
  - exists s'. split_and!; [apply rtc_once; exact (runs_of _ _ _ _ E eq_refl)|by eapply ending_step|step_cases E; done|step_cases E; done].
  - exists s. split_and!; [constructor|done|done|]. destruct He as [_ Hx]. unfold pcs. step_cases E; congruence.
Qed.
Lemma watchdog_ends s : ending s → l_watchdog s ≠ VDone → ∃ s', rtc runs s s' ∧ ending s' ∧ l_pipeClosed s' = true ∧ pcs s' = (l_reader s, l_dispatcher s, l_writer s, VDone, l_done s).
Proof.
  intros He Hn. destruct (l_watchdog s) eqn:Ew; [| |done].
  - assert (lstep s (LWatch WatchStop) = Some (set_watchdog (set_close s true (l_closer s) true) VDone, ONothing)) as H by (simpl; unfold watchdog; by rewrite Ew, (proj2 He)).
    eexists. split_and!; [apply rtc_once; exact (runs_of _ _ _ _ H eq_refl)|by eapply ending_step|done|done].
  - destruct (settle s (proj1 He) ltac:(left; apply He)) as (s1 & R1 & He1 & Hd1 & Hpc & Hp1). injection Hpc as Q1 Q2 Q3 Q4 Q5.
    assert (l_closer s1 = CDone) as Hd by (apply Hd1, (co_watchdog _ (proj1 He)); done).
    assert (lstep s1 (LWatch WatchWait) = Some (set_watchdog s1 VDone, ONothing)) as H by (simpl; unfold watchdog; by rewrite Q4, Ew, Hd).
    exists (set_watchdog s1 VDone). split_and!; [etrans; [exact R1|]; apply rtc_once; exact (runs_of _ _ _ _ H eq_refl)|by eapply ending_step|exact (co_pipe _ (proj1 He1) Hd)|unfold pcs; simpl; by rewrite Q1, Q2, Q3, Q5].
Qed.
(** The watchdog leaves the pipe closed. *)
Definition watched (s : Session) : Prop := l_watchdog s = VDone → l_pipeClosed s = true.
Lemma step_watched s l s' o : closing_ok s → watched s → lstep s l = Some (s', o) → watched s'.
Proof. intros Hc Hw H. destruct l; step_cases H; try exact Hw; unfold watched; simpl in *; intros Hv; first [done | pose proof (Hw Hv); congruence | by apply (co_pipe _ Hc)]. Qed.
Lemma link_ends s : closing_ok s → watched s → l_cancelled s = true ∨ l_closer s ≠ CIdle → ∃ s', rtc runs s s' ∧ l_done s' = true.
Proof.
  intros Hc Hw Hx. destruct (l_done s) eqn:Ed; [exists s; by split; [constructor|]|].
  destruct (settle s Hc Hx) as (s0 & R0 & He0 & _ & Hpc0 & Hp0). injection Hpc0 as Q1 Q2 Q3 Q4 Q5.
  assert (∃ s1, rtc runs s s1 ∧ ending s1 ∧ l_pipeClosed s1 = true ∧ l_watchdog s1 = VDone ∧ l_done s1 = false) as (s1 & R1 & He1 & Hp1 & Hv1 & Hd1).
  { destruct (decide (l_watchdog s0 = VDone)) as [Hv|Hv].
    - exists s0. split_and!; [done|done| |done|congruence]. apply Hp0, Hw. congruence.
    - destruct (watchdog_ends s0 He0 Hv) as (s1 & R1 & He1 & Hp1 & Hpc). injection Hpc as ? ? ? ? ?. exists s1. split_and!; [by etrans|done|done|done|congruence]. }
  destruct (reader_ends _ s1 He1 Hp1 (le_n _)) as (s2 & R2 & He2 & _ & Hpc2). injection Hpc2 as A1 A2 A3 A4 A5.
  destruct (writer_ends _ s2 He2 (le_n _)) as (s3 & R3 & He3 & _ & Hpc3). injection Hpc3 as B1 B2 B3 B4 B5.
  destruct (dispatcher_ends s3 He3) as (s4 & R4 & He4 & _ & Hpc4). injection Hpc4 as C1 C2 C3 C4 C5.
  assert (∃ s5, lstep s4 LFinish = Some (s5, ONothing) ∧ l_done s5 = true) as (s5 & H5 & Hd5).
  { simpl. unfold finish. rewrite C1, C2, C3, C4, C5, B1, B3, B4, B5, A1, A4, A5, Hv1, Hd1. eauto. }
  exists s5. split; [|done]. etrans; [exact R1|]. etrans; [exact R2|]. etrans; [exact R3|]. etrans; [exact R4|]. apply rtc_once. exact (runs_of _ _ _ _ H5 eq_refl).
Qed.
