(* ===== verification/LinkSession.v ===== *)
(** * What a link guarantees

    Order, bounds, authentication, fairness and shutdown of link sessions, with a join frame
    that travels from one node to another. *)

From S2P Require Import Prelude GoStd Wire Node Codec Link LinkTheory LinkRuns.
Open Scope Z_scope.

(** Only the watchdog ends a session for silence. *)
Lemma step_idle s l s' o : lstep s l = Some (s', o) → st_err (l_status s') = Some LIdle → st_err (l_status s) ≠ Some LIdle →
  ∃ now, l = LWatch (WatchTick now) ∧ IdleMonitoringActive s = true ∧ sc_IdleTimeout (l_config s) < now - l_lastRead s.
Proof.
  intros H. destruct l; step_cases H; simpl in *; try done; intros Hi Hn; try (discriminate Hi).
  eexists. split; [done|]. split; [by apply negb_false_iff|by apply Z.ltb_lt].
Qed.
Lemma IdleMonitoring_spec s : IdleMonitoringActive s = true → 0 < sc_IdleTimeout (l_config s) ∧ (sc_IdleAfterPeerHeartbeat (l_config s) = true → l_peerHeartbeat s = true).
Proof. unfold IdleMonitoringActive. rewrite andb_true_iff, orb_true_iff, negb_true_iff, Z.ltb_lt. intros [? [Hx|Hx]]; split; congruence || done. Qed.

Lemma NewSession_start config now s : NewSession config now = Ok s → l_writer s = WTop 8 ∧ l_watchdog s = VRun ∧ l_in s = [] ∧ l_out s = [] ∧ l_log s = mkLog [] [] [] [] [].
Proof. unfold NewSession. destruct (SessionConfig_normalized config); [|done]. by intros [= <-]. Qed.
Lemma NewSession_ticks config now s : NewSession config now = Ok s → ticks s.
Proof. intros (Hw & _ & _ & _ & Hl)%NewSession_start. unfold ticks. rewrite Hw, Hl. done. Qed.
Lemma NewSession_one_way config config' now now' a b : NewSession config now = Ok a → NewSession config' now' = Ok b → one_way a b [].
Proof. intros (_ & _ & _ & Ha & _)%NewSession_start (_ & _ & Hi & _ & Hl)%NewSession_start. unfold one_way, stream_ok. rewrite Ha, Hi, Hl. split; [by exists []|done]. Qed.
Lemma reachable_budget config now s0 s : NewSession config now = Ok s0 → reachable s0 s → budget_ok s.
Proof. intros (Hw & _)%NewSession_start. induction 1 as [|s l s1 o Hr IH H]; [unfold budget_ok; rewrite Hw; lia|by eapply step_budget]. Qed.
Lemma reachable_watched config now s0 s : is_u64 (sc_LocalNode config) → NewSession config now = Ok s0 → reachable s0 s → watched s.
Proof.
  intros Hu Hn. pose proof (NewSession_ok _ _ _ Hu Hn) as H0. apply NewSession_start in Hn as (_ & Hw & _). induction 1 as [|s l s1 o Hr IH H]; [intros Hx; congruence|].
  eapply step_watched; [exact (lk_closing _ (reachable_link_ok _ _ H0 Hr))|exact IH|exact H].
Qed.

(** C11. A link delivers in order: whatever the goroutines of both ends do, whatever is lost
    and wherever a write is cut, what one end has delivered is what the other end has written
    first, each frame once and unchanged; the frames of each queue are written in the order
    in which they were accepted; and everything else is heartbeats. *)
Theorem link_ordered config_a config_b now_a now_b a b p :
  is_u64 (sc_LocalNode config_a) → is_u64 (sc_LocalNode config_b) → NewSession config_a now_a = Ok a → NewSession config_b now_b = Ok b →
  rtc pair_step (mkPipes a b [] []) p → ordered (p_a p) (p_b p) ∧ ordered (p_b p) (p_a p).
Proof.
  intros Hua Hub Ha Hb Hr. assert (pair_ok p) as [K1 K2 K3 K4 K5 K6]; [|split; by eapply delivered_ordered].
  assert (pair_ok (mkPipes a b [] [])) as H0.
  { split; simpl; [exact (NewSession_ok _ _ _ Hua Ha)|exact (NewSession_ok _ _ _ Hub Hb)|exact (NewSession_ticks _ _ _ Ha)|exact (NewSession_ticks _ _ _ Hb)|
      exact (NewSession_one_way _ _ _ _ _ _ Ha Hb)|exact (NewSession_one_way _ _ _ _ _ _ Hb Ha)]. }
  clear Ha Hb. induction Hr as [|p q r Hpq _ IH]; [done|]. apply IH. by eapply pair_step_ok.
Qed.

(** C37. Memory for frames is bounded: in every interleaving, each queue of a session holds at
    most its number of frames, and the frames in it and those that are being sent or
    delivered have together at most its number of bytes. *)
Theorem link_bounded config now s0 s :
  is_u64 (sc_LocalNode config) → NewSession config now = Ok s0 → reachable s0 s →
  (∀ d, Z.of_nat (length (q_frames (out_queue s d))) ≤ q_count (out_queue s d) ∧ (0 < q_maxBytes (out_queue s d) → out_counted s d ≤ q_maxBytes (out_queue s d))) ∧
  Z.of_nat (length (q_frames (l_input s))) ≤ q_count (l_input s) ∧ (0 < q_maxBytes (l_input s) → in_counted s ≤ q_maxBytes (l_input s)).
Proof.
  intros Hu Hn Hr. destruct (lk_queues _ (reachable_link_ok _ _ (NewSession_ok _ _ _ Hu Hn) Hr)) as ([B1 B2 B3] & [D1 D2 D3] & [I1 I2 I3]).
  split; [intros []; simpl; split; [done|by rewrite <- D1|done|by rewrite <- B1]|split; [done|by rewrite <- I1]].
Qed.


(** Control frames cannot starve data: as long as a data frame is waiting and none is
    written, at most eight control frames are written, however many are sent. *)
Theorem link_fair config now s0 s s' :
  NewSession config now = Ok s0 → reachable s0 s → waiting s s' → writes true s' = writes true s → (writes false s' ≤ writes false s + 8)%nat.
Proof.
  intros Hn Hr Hw He. pose proof (reachable_budget _ _ _ _ Hn Hr) as Hb. pose proof (waiting_burst _ _ Hb Hw He). pose proof (burst_bound _ Hb). lia.
Qed.


(** ** A link between two nodes *)

Module Link_demo.
Definition config (local : NodeID) : SessionConfig := mkSessionConfig local (mkCodec 0) 0 0 0 4096 4096 4096 10 30 true.
Definition none : Session :=
  mkSession (config 1) (mkStatus StateClosed 0 None 0 None) true CDone true (newEnvelopeQueue 0 0) (newEnvelopeQueue 0 0) (newEnvelopeQueue 0 0) [] RDone DDone WDone VDone 0 false [] [] (mkLog [] [] [] [] []) true.
Definition start (local : NodeID) : Session := from_ok none (NewSession (config local) 0).
Definition join : Envelope := mkEnvelope CurrentVersion PhaseRequest OperationJoin 77 0 1 0 2 zeroResourceID 0 0 "application/json" "" "" [x61].
Fixpoint run (s : Session) (labels : list label) : option Session :=
  match labels with [] => Some s | l :: labels => match lstep s l with Some (s, _) => run s labels | None => None end end.
Definition after (local : NodeID) (labels : list label) : Session := default none (run (start local) labels).
Lemma run_reachable s0 labels : ∀ s s', reachable s0 s → run s labels = Some s' → reachable s0 s'.
Proof.
  induction labels as [|l labels IH]; intros s s' Hr H; simpl in H; [by simplify_eq|]. destruct (lstep s l) as [[s1 o]|] eqn:E; [|done]. eapply IH; [|done]. by eapply reach_step.
Qed.
Lemma link_after_reachable local labels : bool_decide (is_Some (run (start local) labels)) = true → reachable (start local) (after local labels).
Proof.
  intros [s Hs]%bool_decide_eq_true. unfold after. rewrite Hs. eapply run_reachable; [constructor|exact Hs].
Qed.
Lemma link_started local : is_ok (NewSession (config local) 0) = true → NewSession (config local) 0 = Ok (start local).
Proof. apply from_ok_spec. Qed.

(** Node 1 sends a join frame to node 2, which delivers it. *)
Definition sending : list label := [LSend join; LSending 0; LSending 0; LWriter Loop; LWriter Loop; LWriter WriteOk].
Definition bytes : list byte := l_out (after 1 sending).
Definition receiving : list label := LArrive bytes :: replicate 5 (LReader 5 None) ++ [LDispatch TakeInput; LDispatch Deliver].
Definition both : pipes := mkPipes (after 1 sending) (after 2 receiving) bytes [].
Lemma pair_runs_a labels : ∀ s s' b ab ba, forallb (λ l, bool_decide (arrives l = [])) labels = true → run s labels = Some s' → rtc pair_step (mkPipes s b ab ba) (mkPipes s' b ab ba).
Proof.
  induction labels as [|l labels IH]; intros s s' b ab ba Hl H; simpl in *; [by simplify_eq|]. apply andb_true_iff in Hl as [Hl%bool_decide_eq_true Hls].
  destruct (lstep s l) as [[s1 o]|] eqn:E; [|done]. eapply rtc_l; [|by eapply IH]. exact (step_a (mkPipes s b ab ba) l s1 o Hl E).
Qed.
Lemma pair_runs_b labels : ∀ s s' a ab ba, forallb (λ l, bool_decide (arrives l = [])) labels = true → run s labels = Some s' → rtc pair_step (mkPipes a s ab ba) (mkPipes a s' ab ba).
Proof.
  induction labels as [|l labels IH]; intros s s' a ab ba Hl H; simpl in *; [by simplify_eq|]. apply andb_true_iff in Hl as [Hl%bool_decide_eq_true Hls].
  destruct (lstep s l) as [[s1 o]|] eqn:E; [|done]. eapply rtc_l; [|by eapply IH]. exact (step_b (mkPipes a s ab ba) l s1 o Hl E).
Qed.
Lemma run_some s labels : bool_decide (is_Some (run s labels)) = true → run s labels = Some (default none (run s labels)).
Proof. intros [s' Hs]%bool_decide_eq_true. by rewrite Hs. Qed.
Lemma exchange la lb a0 b0 a b sent : forallb (λ l, bool_decide (arrives l = [])) la = true → forallb (λ l, bool_decide (arrives l = [])) lb = true →
  run a0 la = Some a → l_out a = sent → run b0 (LArrive sent :: lb) = Some b → rtc pair_step (mkPipes a0 b0 [] []) (mkPipes a b sent []).
Proof.
  intros Ha Hb Hra Hout Hrb. etrans; [exact (pair_runs_a la a0 a b0 [] [] Ha Hra)|]. simpl in Hrb. destruct (l_pipeClosed b0) eqn:Hp; [done|]. eapply rtc_l; [|exact (pair_runs_b lb _ b a sent [] Hb Hrb)].
  apply (move_ab (mkPipes a b0 [] []) sent (set_pipe b0 (l_in b0 ++ sent) (l_out b0)) ONothing []); simpl; [by rewrite app_nil_r|by rewrite Hp].
Qed.
Lemma both_reached : rtc pair_step (mkPipes (start 1) (start 2) [] []) both.
Proof.
  refine (exchange sending (replicate 5 (LReader 5 None) ++ [LDispatch TakeInput; LDispatch Deliver]) _ _ _ _ _ _ _ _ eq_refl _); [vm_compute; reflexivity|vm_compute; reflexivity| |];
    apply run_some; vm_compute; reflexivity.
Qed.
Lemma both_delivered : g_delivered (l_log (p_b both)) = [join].
Proof. vm_compute. reflexivity. Qed.
Lemma start_1 : NewSession (config 1) 0 = Ok (start 1).
Proof. apply link_started. vm_compute. reflexivity. Qed.
Lemma start_2 : NewSession (config 2) 0 = Ok (start 2).
Proof. apply link_started. vm_compute. reflexivity. Qed.
Lemma node_u64 n : 0 ≤ n < 10 → is_u64 (sc_LocalNode (config n)).
Proof. intros ?. unfold is_u64, maxUint64. simpl. lia. Qed.

(** An activated session with one data frame and a control frame waiting. *)
Definition event : Envelope := mkEnvelope CurrentVersion PhaseEvent OperationResourceEvent 78 79 1 0 2 (mkResourceID 1 "board") 3 0 "application/json" "" "subscribe" [].
Definition busy : list label := [LActivate 2 (Some RoleParent) 3; LSend event; LSending 0; LSending 0; LSend join; LSending 0; LSending 0].
Definition writing_control : list label := [LWriter Loop; LWriter Loop; LWriter WriteOk].
Lemma busy_reached : reachable (start 1) (after 1 busy).
Proof. apply link_after_reachable. vm_compute. reflexivity. Qed.
Fixpoint all_waiting (s : Session) (labels : list label) : bool :=
  match q_frames (l_data s) with [] => false | _ => match labels with [] => true | l :: labels => match lstep s l with Some (s, _) => all_waiting s labels | None => false end end end.
Lemma waiting_run labels : ∀ s s', run s labels = Some s' → all_waiting s labels = true → waiting s s'.
Proof.
  induction labels as [|l labels IH]; intros s s' H Hd; simpl in *; destruct (q_frames (l_data s)) eqn:Eq; try done; [simplify_eq; constructor; by rewrite Eq|].
  destruct (lstep s l) as [[s1 o]|] eqn:E; [|done]. eapply waiting_step; [by rewrite Eq|exact E|]. by apply IH.
Qed.
Lemma run_app l1 l2 : ∀ s, run s (l1 ++ l2) = match run s l1 with Some s => run s l2 | None => None end.
Proof. induction l1 as [|l l1 IH]; intros s; simpl; [done|]. destruct (lstep s l) as [[s1 o]|]; [apply IH|done]. Qed.
Lemma run_after local l1 l2 : bool_decide (is_Some (run (start local) (l1 ++ l2))) = true → run (after local l1) l2 = Some (after local (l1 ++ l2)).
Proof. unfold after. intros Hs%run_some. rewrite run_app in *. destruct (run (start local) l1); [exact Hs|done]. Qed.
Lemma busy_waiting : waiting (after 1 busy) (after 1 (busy ++ writing_control)).
Proof. apply (waiting_run writing_control); [apply run_after|]; vm_compute; reflexivity. Qed.
Lemma cancelled_reached : reachable (start 1) (after 1 (busy ++ [LCancel])).
Proof. apply link_after_reachable. vm_compute. reflexivity. Qed.
Lemma cancelled : l_cancelled (after 1 (busy ++ [LCancel])) = true.
Proof. vm_compute. reflexivity. Qed.
End Link_demo.

Lemma link_ordered_witness : g_delivered (l_log (p_b Link_demo.both)) = [Link_demo.join] ∧ ordered (p_a Link_demo.both) (p_b Link_demo.both).
Proof.
  split; [exact Link_demo.both_delivered|].
  exact (proj1 (link_ordered (Link_demo.config 1) (Link_demo.config 2) 0 0 (Link_demo.start 1) (Link_demo.start 2) Link_demo.both (Link_demo.node_u64 1 ltac:(lia)) (Link_demo.node_u64 2 ltac:(lia))
    Link_demo.start_1 Link_demo.start_2 Link_demo.both_reached)).
Defined.
Lemma link_bounded_witness : 0 < q_maxBytes (l_input (Link_demo.after 1 Link_demo.busy)) ∧ in_counted (Link_demo.after 1 Link_demo.busy) ≤ q_maxBytes (l_input (Link_demo.after 1 Link_demo.busy)).
Proof.
  split; [vm_compute; reflexivity|].
  refine (proj2 (proj2 (link_bounded (Link_demo.config 1) 0 (Link_demo.start 1) (Link_demo.after 1 Link_demo.busy) (Link_demo.node_u64 1 ltac:(lia)) Link_demo.start_1 Link_demo.busy_reached)) _).
  vm_compute. reflexivity.
Defined.
Lemma link_fair_witness : writes false (Link_demo.after 1 (Link_demo.busy ++ Link_demo.writing_control)) = 1%nat ∧
  (writes false (Link_demo.after 1 (Link_demo.busy ++ Link_demo.writing_control)) ≤ writes false (Link_demo.after 1 Link_demo.busy) + 8)%nat.
Proof.
  split; [vm_compute; reflexivity|].
  exact (link_fair (Link_demo.config 1) 0 (Link_demo.start 1) _ _ Link_demo.start_1 Link_demo.busy_reached Link_demo.busy_waiting ltac:(vm_compute; reflexivity)).
Defined.

(** A session whose context was cancelled reports that it is closed, and after a call of
    [Close] that it is closing. *)
Lemma closed_reports_closing :
  ∃ s', Link_demo.run (Link_demo.start 1) [LCancel; LWatch WatchStop; LReader 0 None; LDispatch StopDispatch; LWriter Loop; LWriter Loop; LWriter StopWriter; LFinish; LClose] = Some s' ∧
    l_done s' = true ∧ state s' = StateClosing.
Proof. eexists. split; [vm_compute; reflexivity|]. split; vm_compute; reflexivity. Qed.
