(* ===== verification/NodeSessions.v ===== *)
(** * Resource sessions of a node (runtime/node/sessions.go)

    A frame opens a session on a resource, further frames write to it and close it.  The node
    keeps the live sessions in a table; the session objects belong to the resource, which is
    any instance of [SessionResource] (runtime/resource/resource.go).

    Handlers run concurrently, so the model is a machine with one step per section under the
    node's lock and one per call of a session object: what a goroutine does next is a job, and
    jobs run in any order.  Objects stay known after they left the table, as goroutines hold
    pointers to them. *)

From S2P Require Import Prelude GoStd GoSort GoEncoding GoJSON GoFloat GoStruct Wire Tree Policy PolicySchema FileSchema Payload EnrollmentWire Identity Admission Catalog VariableModel Streams FileTransfer Node Codec.
Open Scope Z_scope.

(** ** Session objects *)

(** [W]: what the resource keeps; [I]: the inputs of a call that the caller does not choose
    (clock, outcomes of system calls); [S]: a session object; [R]: a resource. *)
Inductive open_error := ONotFound | OUnsupported | OInvalidSchema | OValueTooLarge | OOther.
Class SessionResource (W I S R : Type) := {
  res_OpenSession : I → W → R → NodeID → CapabilityID → list byte → result open_error S * W;
  sess_Grant : S → SessionGrant;
  sess_Write : I → W → S → SessionData → option OperationResult * W * S;
  sess_Close : I → W → S → bool → list byte → option OperationResult * W * S;
  sess_Abort : I → W → S → string → W * S;
  (** The object was closed or aborted. *)
  sess_done : S → bool
}.
(** What the node relies on. *)
Class SessionLaws (W I S R : Type) `{SessionResource W I S R} : Prop := {
  Open_fresh i w r subject capability payload s w' : res_OpenSession i w r subject capability payload = (Ok s, w') → sess_done s = false;
  Write_keeps i w s d : sess_done (sess_Write i w s d).2 = sess_done s;
  Close_ends i w s commit payload : sess_done (sess_Close i w s commit payload).2 = true;
  Abort_ends i w s reason : sess_done (sess_Abort i w s reason).2 = true;
  Ended_idle i w s reason : sess_done s = true → sess_Abort i w s reason = (w, s);
  Ended_write i w s d : sess_done s = true → (sess_Write i w s d).1 = (None, w);
  Ended_close i w s commit payload : sess_done s = true → (sess_Close i w s commit payload).1 = (None, w)
}.

Record ownedResourceSession := mkOwned {
  ow_subject : NodeID; ow_resource : ResourceID; ow_capability : CapabilityID; ow_linkID : string;
  ow_topologyEpoch : Z; ow_policyGeneration : Z; ow_expiresAt : Z
}.

(** What is left to do after a step. *)
Inductive job :=
| JInsert (id : MessageID) (request : Envelope) | JRespond (id : MessageID) (request : Envelope)
| JWrite (id : MessageID) (request : Envelope) (link : string) (data : SessionData)
| JClose (id : MessageID) (request : Envelope) (link : string) (commit : bool) (payload : list byte)
| JAbort (id : MessageID) (reason : string) | JRemove (id : MessageID) (reason : string).

(** What the sender of a frame is told. *)
Inductive reply := RNothing | RError (code : string) | RGranted (id : MessageID) (grant : SessionGrant) | RAnswer (result : OperationResult).

Section sessions.
Context {P : Type} {HP : Policy P} {W I S R : Type} {HS : SessionResource W I S R}.
(** The resources of the registry; [None]: not a session resource. *)
Context (resolve : ResourceID → option (Descriptor * option R)).

Record machine := mkMachine {
  m_node : Node (P := P); m_max : Z; m_live : gmap MessageID ownedResourceSession; m_objects : gmap MessageID (ownedResourceSession * S);
  m_world : W; m_jobs : list job; m_timers : list (MessageID * Z)
}.
Definition set_live (m : machine) (live : gmap MessageID ownedResourceSession) (jobs : list job) : machine :=
  mkMachine (m_node m) (m_max m) live (m_objects m) (m_world m) jobs (m_timers m).
Definition add_jobs (m : machine) (jobs : list job) : machine := set_live m (m_live m) (m_jobs m ++ jobs).
Definition set_object (m : machine) (id : MessageID) (o : ownedResourceSession) (s : S) (w : W) : machine :=
  mkMachine (m_node m) (m_max m) (m_live m) (<[id := (o, s)]> (m_objects m)) w (m_jobs m) (m_timers m).

Definition link_id (inbound : option peerSession) : string := match inbound with Some s => pr_linkID s | None => "local" end.

(** [Registry.OpenSession] (runtime/resource/resource.go) *)
Definition Registry_OpenSession (i : I) (w : W) (request : Envelope) : result open_error S * W :=
  match resolve (e_Resource request) with
  | None => (Err ONotFound, w)
  | Some (descriptor, resource) =>
    match Capability descriptor (e_Capability request) with
    | None => (Err OUnsupported, w)
    | Some capability =>
      if (cap_MaxPayloadBytes capability <? blen (e_Payload request)) || (lim_MaxPayloadBytes (ds_Limits descriptor) <? blen (e_Payload request))
      then (Err OValueTooLarge, w) else
      if negb (String.eqb (e_Schema request) "") && negb (String.eqb (cap_InputSchema capability) "") && negb (String.eqb (e_Schema request) (cap_InputSchema capability))
      then (Err OInvalidSchema, w) else
      match resource with
      | None => (Err OUnsupported, w)
      | Some r => res_OpenSession i w r (Subject request) (e_Capability request) (e_Payload request)
      end
    end
  end.
Definition open_code (e : open_error) : string :=
  match e with ONotFound => CodeNotFound | OUnsupported => CodeUnsupported | OInvalidSchema | OValueTooLarge => CodeMalformed | OOther => CodeConflict end.

(** [handleSessionOpen] up to the lock; [id] is the identifier drawn, if there is one, and
    [key] names the object. *)
Definition handleSessionOpen (m : machine) (i : I) (now : Z) (request : Envelope) (inbound : option peerSession) (key : MessageID) (drawn : bool) : machine * reply :=
  match authorizeLocal (m_node m) now request with Err _ => (m, RError CodeForbidden) | Ok _ =>
  match Registry_OpenSession i (m_world m) request with
  | (Err e, w) => (mkMachine (m_node m) (m_max m) (m_live m) (m_objects m) w (m_jobs m) (m_timers m), RError (open_code e))
  | (Ok s, w) =>
    let grant := sess_Grant s in
    let epoch := match inbound with Some p => pr_epoch p | None => s_epoch (n_tree (m_node m)) end in
    let o := mkOwned (Subject request) (e_Resource request) (e_Capability request) (link_id inbound) epoch (PolicyGeneration (n_policy (m_node m))) (gr_ExpiresAtUnixMS grant) in
    let m := set_object m key o s w in
    if (gr_MaxChunkBytes grant <=? 0) || (MaxSessionChunkBytes <? gr_MaxChunkBytes grant) || (gr_MaxTotalBytes grant <? 0) || (gr_ExpiresAtUnixMS grant <=? UnixMilli now)
    then (add_jobs m [JAbort key "resource returned an invalid session grant"], RError CodeInternal) else
    if negb drawn then (add_jobs m [JAbort key "message ID"], RNothing) else (add_jobs m [JInsert key request], RNothing)
  end end.

(** [removeResourceSession] *)
Definition removeResourceSession (m : machine) (id : MessageID) (reason : string) : machine :=
  match m_live m !! id with
  | None => m
  | Some _ => set_live m (delete id (m_live m)) (m_jobs m ++ [JAbort id reason])
  end.

(** [validateResourceSession]: the session the frame belongs to. *)
Definition validateResourceSession (m : machine) (now : Z) (request : Envelope) (inbound : option peerSession) : machine * option ownedResourceSession :=
  match authorizeLocal (m_node m) now request with Err _ => (m, None) | Ok _ =>
  match m_live m !! e_CorrelationID request with
  | None => (m, None)
  | Some o =>
    if negb (ow_subject o =? Subject request) || negb (bool_decide (ow_resource o = e_Resource request)) || negb (String.eqb (ow_capability o) (e_Capability request))
       || negb (String.eqb (ow_linkID o) (link_id inbound)) then (m, None)
    else if (ow_expiresAt o * 1000000 <=? now) || negb (ow_policyGeneration o =? PolicyGeneration (n_policy (m_node m)))
    then (removeResourceSession m (e_CorrelationID request) "resource session authorization expired", None)
    else (m, Some o)
  end end.

Definition handleSessionData (m : machine) (now : Z) (request : Envelope) (inbound : option peerSession) : machine * reply :=
  match validateResourceSession m now request inbound with
  | (m, None) => (m, RError CodeExpired)
  | (m, Some _) =>
    match DecodeJSONPayload (e_Payload request) DefaultMaxPayload with
    | Err _ => (m, RError CodeMalformed)
    | Ok payload => (add_jobs m [JWrite (e_CorrelationID request) request (link_id inbound) (mkData (sd_Offset payload) (sd_Data payload) (sd_Checksum payload))], RNothing)
    end
  end.
(** The session leaves the table before the object is closed. *)
Definition handleSessionClose (m : machine) (now : Z) (request : Envelope) (inbound : option peerSession) : machine * reply :=
  match validateResourceSession m now request inbound with
  | (m, None) => (m, RError CodeExpired)
  | (m, Some _) =>
    match DecodeJSONPayload (e_Payload request) DefaultMaxPayload with
    | Err _ => (m, RError CodeMalformed)
    | Ok payload =>
      let id := e_CorrelationID request in
      (set_live m (delete id (m_live m)) (m_jobs m ++ [JClose id request (link_id inbound) (sc_Commit payload) (sc_Payload payload)]), RNothing)
    end
  end.

(** The rest of the handlers.  [sent]: the response was encoded and routed. *)
Definition run_job (m : machine) (i : I) (sent : bool) (j : job) : machine * reply :=
  match j with
  | JInsert id request =>
    if n_closed (m_node m) || (m_max m <=? Z.of_nat (size (m_live m)))
    then (add_jobs m [JAbort id "resource session limit reached"], RError CodeOverflow)
    else match m_objects m !! id with
         | None => (m, RNothing)
         | Some (o, _) => (set_live m (<[id := o]> (m_live m)) (m_jobs m ++ [JRespond id request]), RNothing)
         end
  | JRespond id request =>
    match m_objects m !! id with
    | None => (m, RNothing)
    | Some (o, s) =>
      if negb sent then (removeResourceSession m id "response", RNothing)
      else (mkMachine (m_node m) (m_max m) (m_live m) (m_objects m) (m_world m) (m_jobs m) (m_timers m ++ [(id, ow_expiresAt o)]), RGranted id (sess_Grant s))
    end
  | JWrite id request link data =>
    match m_objects m !! id with
    | None => (m, RNothing)
    | Some (o, s) =>
      let '(answer, w, s) := sess_Write i (m_world m) s data in
      (set_object m id o s w, match answer with Some r => RAnswer r | None => RError CodeConflict end)
    end
  | JClose id request link commit payload =>
    match m_objects m !! id with
    | None => (m, RNothing)
    | Some (o, s) =>
      let '(answer, w, s) := sess_Close i (m_world m) s commit payload in
      let m := set_object m id o s w in
      match answer with Some r => (m, RAnswer r) | None => (add_jobs m [JAbort id "close"], RError CodeConflict) end
    end
  | JAbort id reason =>
    match m_objects m !! id with
    | None => (m, RNothing)
    | Some (o, s) => let '(w, s) := sess_Abort i (m_world m) s reason in (set_object m id o s w, RNothing)
    end
  | JRemove id reason => (removeResourceSession m id reason, RNothing)
  end.

(** [cleanupResourceSessionsLink] and [cleanupResourceSessionsPolicy] collect, then remove. *)
Definition cleanup (m : machine) (stale : ownedResourceSession → bool) (reason : string) : machine :=
  add_jobs m ((λ id, JRemove id reason) <$> (map_to_list (filter (λ ko, stale ko.2 = true) (m_live m))).*1).
Definition cleanupResourceSessionsLink (m : machine) (linkID reason : string) : machine := cleanup m (λ o, String.eqb (ow_linkID o) linkID) reason.
Definition cleanupResourceSessionsPolicy (m : machine) (generation : Z) : machine :=
  cleanup m (λ o, negb (ow_policyGeneration o =? generation)) "resource session policy generation changed".

(** The sessions in [Node.Close]. *)
Definition set_node (m : machine) (n : Node (P := P)) : machine := mkMachine n (m_max m) (m_live m) (m_objects m) (m_world m) (m_jobs m) (m_timers m).
Definition shutdown (m : machine) : machine :=
  let n := m_node m in
  let m := set_node m (mkNode (n_tree n) (n_policy n) (n_sessions n) (n_forwarded n) (n_pending n) (n_maxPending n) true) in
  set_live m ∅ (m_jobs m ++ ((λ id, JAbort id "node closed") <$> (map_to_list (m_live m)).*1)).

(** ** Steps *)

Inductive label :=
| SOpen (i : I) (now : Z) (request : Envelope) (inbound : option peerSession) (key : MessageID) (drawn : bool)
| SData (now : Z) (request : Envelope) (inbound : option peerSession)
| SClose (now : Z) (request : Envelope) (inbound : option peerSession)
| SRun (k : nat) (i : I) (sent : bool)
| STimer (k : nat) (now : Z)
| SLink (linkID reason : string) | SPolicy (generation : Z) | SNode (n : Node (P := P)) | SShutdown.

(** [None]: the step is not possible: a name that is not new, a job that is not there, a timer
    that has not expired, a node that was closed and opens again. *)
Definition step (m : machine) (l : label) : option (machine * reply) :=
  match l with
  | SOpen i now request inbound key drawn =>
    if bool_decide (is_Some (m_objects m !! key)) then None else Some (handleSessionOpen m i now request inbound key drawn)
  | SData now request inbound => Some (handleSessionData m now request inbound)
  | SClose now request inbound => Some (handleSessionClose m now request inbound)
  | SRun k i sent =>
    match m_jobs m !! k with
    | None => None
    | Some j => Some (run_job (set_live m (m_live m) (delete k (m_jobs m))) i sent j)
    end
  | STimer k now =>
    match m_timers m !! k with
    | Some (id, expires) =>
      if now <? expires * 1000000 then None
      else Some (removeResourceSession (mkMachine (m_node m) (m_max m) (m_live m) (m_objects m) (m_world m) (m_jobs m) (delete k (m_timers m))) id "resource session expired", RNothing)
    | None => None
    end
  | SLink linkID reason => Some (cleanupResourceSessionsLink m linkID reason, RNothing)
  | SPolicy generation => Some (cleanupResourceSessionsPolicy m generation, RNothing)
  | SNode n => if n_closed (m_node m) && negb (n_closed n) then None else Some (set_node m n, RNothing)
  | SShutdown => Some (shutdown m, RNothing)
  end.
Inductive reachable (m0 : machine) : machine → Prop :=
| reach_start : reachable m0 m0
| reach_step m l m' r : reachable m0 m → step m l = Some (m', r) → reachable m0 m'.
(** The replies along a sequence of steps. *)
Fixpoint run_labels (m : machine) (labels : list label) : option (machine * list reply) :=
  match labels with
  | [] => Some (m, [])
  | l :: labels =>
    match step m l with
    | None => None
    | Some (m, r) => match run_labels m labels with None => None | Some (m, rs) => Some (m, r :: rs) end
    end
  end.
Lemma run_labels_from m0 labels : ∀ m m' rs, reachable m0 m → run_labels m labels = Some (m', rs) → reachable m0 m'.
Proof.
  induction labels as [|l labels IH]; intros m m' rs Hm H; simpl in H; [by simplify_eq|].
  destruct (step m l) as [[m1 r]|] eqn:Es; [|done]. destruct (run_labels m1 labels) as [[m2 rs2]|] eqn:Er; [|done]. simplify_eq.
  eapply IH; [|done]. by eapply reach_step.
Qed.
Definition fresh_machine (n : Node (P := P)) (max : Z) (w : W) : machine := mkMachine n max ∅ ∅ w [] [].
End sessions.

(** ** No session is lost *)

Section theory.
Context {P : Type} {HP : Policy P} {W I S R : Type} {HS : SessionResource W I S R} {HL : SessionLaws W I S R}.
Context (resolve : ResourceID → option (Descriptor * option R)).
#[local] Abbreviation machine := (machine (P := P) (W := W) (S := S)).
#[local] Abbreviation objects := (gmap MessageID (ownedResourceSession * S)).

(** The sessions a job ends, and those it puts into the table. *)
Definition ends (j : job) : option MessageID := match j with JAbort id _ | JClose id _ _ _ _ => Some id | _ => None end.
Definition inserts (j : job) : option MessageID := match j with JInsert id _ => Some id | _ => None end.

(** [E]: sessions that jobs will end; [N]: sessions that jobs will insert. *)
Record core (max : Z) (live : gmap MessageID ownedResourceSession) (obj : objects) (E N : list MessageID) : Prop := mkCore {
  k_size : Z.of_nat (size live) ≤ max;
  k_live id o : live !! id = Some o → ∃ s, obj !! id = Some (o, s) ∧ sess_done s = false;
  k_ends id : id ∈ E → live !! id = None ∧ is_Some (obj !! id);
  k_new id : id ∈ N → live !! id = None ∧ (id ∉ E) ∧ (∃ o s, obj !! id = Some (o, s) ∧ sess_done s = false);
  k_once : NoDup N;
  k_open id o s : obj !! id = Some (o, s) → sess_done s = false → is_Some (live !! id) ∨ id ∈ N ∨ id ∈ E
}.
Lemma core_perm max live obj E E' N N' : E ≡ₚ E' → N ≡ₚ N' → core max live obj E N → core max live obj E' N'.
Proof.
  intros HE HN [K1 K2 K3 K4 K5 K6]. split; [done|done|..].
  - intros id. rewrite <- HE. apply K3.
  - intros id. rewrite <- HE, <- HN. apply K4.
  - by rewrite <- HN.
  - intros id o s Ho Hd. rewrite <- HE, <- HN. by eapply K6.
Qed.
Lemma core_remove max live obj E N id o : core max live obj E N → live !! id = Some o → core max (delete id live) obj (id :: E) N.
Proof.
  intros [K1 K2 K3 K4 K5 K6] Hl. split.
  - rewrite map_size_delete, Hl. lia.
  - intros id' o' Hl'. apply lookup_delete_Some in Hl' as [_ Hl']. by apply K2.
  - intros id' [->|Hid]%elem_of_cons; [split; [apply lookup_delete_eq|]; destruct (K2 _ _ Hl) as (s & -> & _); eauto|].
    destruct (K3 id' Hid) as [Hn ?]. split; [by apply lookup_delete_None; right|done].
  - intros id' Hid. destruct (K4 id' Hid) as (Hn & He & Ho). split_and!; [by apply lookup_delete_None; right| |done].
    intros [->|?]%elem_of_cons; [congruence|done].
  - done.
  - intros id' o' s Ho Hd. rewrite elem_of_cons. destruct (decide (id' = id)) as [->|Hne]; [by auto|]. rewrite lookup_delete_ne by done.
    destruct (K6 _ _ _ Ho Hd) as [?|[?|?]]; auto.
Qed.
(** A session object was written to, or ended by the job in hand. *)
Lemma core_write max live obj E N id o s s' : core max live obj E N → obj !! id = Some (o, s) → sess_done s' = sess_done s → core max live (<[id := (o, s')]> obj) E N.
Proof.
  intros [K1 K2 K3 K4 K5 K6] Ho Hd.
  assert (∀ id' o' s0, obj !! id' = Some (o', s0) → ∃ s1, (<[id := (o, s')]> obj : objects) !! id' = Some (o', s1) ∧ sess_done s1 = sess_done s0) as Hup.
  { intros id' o' s0 Ho'. destruct (decide (id' = id)) as [->|Hne]; [simplify_eq; exists s'; by rewrite lookup_insert_eq|]. exists s0. by rewrite lookup_insert_ne. }
  split; try done.
  - intros id' o' Hl. destruct (K2 _ _ Hl) as (s0 & Ho' & Hd'). destruct (Hup _ _ _ Ho') as (s1 & ? & E1). exists s1. by rewrite E1.
  - intros id' Hid. destruct (K3 _ Hid) as (? & [[o' s0] Ho']). destruct (Hup _ _ _ Ho') as (s1 & -> & _). eauto.
  - intros id' Hid. destruct (K4 _ Hid) as (? & ? & o' & s0 & Ho' & Hd'). destruct (Hup _ _ _ Ho') as (s1 & ? & E1). split_and!; [done|done|]. exists o', s1. by rewrite E1.
  - intros id' o' s0 Ho' Hd'. apply lookup_insert_Some in Ho' as [[<- [= <- <-]]|[_ Ho']]; [|by eapply K6]. rewrite Hd in Hd'. by eapply K6.
Qed.
Lemma core_end max live obj E N id o s s' : core max live obj (id :: E) N → obj !! id = Some (o, s) → sess_done s' = true → core max live (<[id := (o, s')]> obj) E N.
Proof.
  intros [K1 K2 K3 K4 K5 K6] Ho Hd. destruct (K3 id ltac:(left)) as [Hn _]. split; try done.
  - intros id' o' Hl. destruct (K2 _ _ Hl) as (s0 & Ho' & Hd'). exists s0. rewrite lookup_insert_ne; [done|]. congruence.
  - intros id' Hid. destruct (K3 id' ltac:(by right)) as (? & ?). split; [done|]. destruct (decide (id' = id)) as [->|]; [rewrite lookup_insert_eq; eauto|by rewrite lookup_insert_ne].
  - intros id' Hid. destruct (K4 _ Hid) as (? & He & o' & s0 & Ho' & Hd'). apply not_elem_of_cons in He as [Hne He]. split_and!; [done|done|].
    exists o', s0. by rewrite lookup_insert_ne.
  - intros id' o' s0 Ho' Hd'. apply lookup_insert_Some in Ho' as [[<- [= <- <-]]|[Hne Ho']]; [congruence|]. destruct (K6 _ _ _ Ho' Hd') as [?|[?|He]]; auto.
    apply elem_of_cons in He as [->|?]; [done|auto].
Qed.
Lemma core_open max live obj E N id o s b : core max live obj E N → obj !! id = None → sess_done s = false →
  core max live (<[id := (o, s)]> obj) (if b : bool then E else id :: E) (if b then id :: N else N).
Proof.
  intros [K1 K2 K3 K4 K5 K6] Hn Hd.
  assert (live !! id = None) as Hl.
  { destruct (live !! id) as [o'|] eqn:El; [|done]. destruct (K2 _ _ El) as (? & ? & _). congruence. }
  assert (id ∉ E) as HE by (intros Hid; destruct (K3 _ Hid) as (_ & [? ?]); congruence).
  assert (id ∉ N) as HN by (intros Hid; destruct (K4 _ Hid) as (_ & _ & ? & ? & ? & _); congruence).
  assert (∀ id' x, obj !! id' = Some x → (<[id := (o, s)]> obj : objects) !! id' = Some x) as Hup by (intros id' x Hx; rewrite lookup_insert_ne; [done|congruence]).
  split; try done.
  - intros id' o' Hl'. destruct (K2 _ _ Hl') as (s0 & ? & ?). eauto.
  - intros id' Hid. destruct (decide (id' = id)) as [->|Hne]; [rewrite lookup_insert_eq; eauto|]. rewrite lookup_insert_ne by done. apply K3.
    destruct b; [done|]. by apply elem_of_cons in Hid as [?|?].
  - intros id' Hid. destruct (decide (id' = id)) as [->|Hne].
    + destruct b; [|done]. split_and!; [done|done|]. exists o, s. by rewrite lookup_insert_eq.
    + assert (id' ∈ N) as Hid' by (destruct b; [by apply elem_of_cons in Hid as [?|?]|done]). destruct (K4 _ Hid') as (? & He & o' & s0 & ? & ?).
      split_and!; [done| |exists o', s0; by rewrite lookup_insert_ne]. destruct b; [done|]. by apply not_elem_of_cons.
  - destruct b; [by apply NoDup_cons|done].
  - intros id' o' s0 Ho' Hd'. apply lookup_insert_Some in Ho' as [[<- _]|[Hne Ho']]; [destruct b; rewrite elem_of_cons; auto|].
    destruct (K6 _ _ _ Ho' Hd') as [?|[?|?]]; destruct b; rewrite elem_of_cons; auto.
Qed.
Lemma core_insert max live obj E N id o s : core max live obj E (id :: N) → obj !! id = Some (o, s) → Z.of_nat (size live) < max → core max (<[id := o]> live) obj E N.
Proof.
  intros [K1 K2 K3 K4 K5 K6] Ho Hs. destruct (K4 id ltac:(left)) as (Hn & He & o' & s0 & Ho' & Hd). simplify_eq. apply NoDup_cons in K5 as [HN K5]. split; try done.
  - rewrite map_size_insert_None by done. lia.
  - intros id' o' Hl. apply lookup_insert_Some in Hl as [[<- <-]|[_ Hl]]; [eauto|by apply K2].
  - intros id' Hid. destruct (K3 _ Hid). split; [|done]. rewrite lookup_insert_ne; [done|]. by intros ->.
  - intros id' Hid. destruct (K4 id' ltac:(by right)) as (? & ? & ?). split_and!; [|done|done]. rewrite lookup_insert_ne; [done|]. by intros ->.
  - intros id' o' s1 Ho' Hd'. destruct (K6 _ _ _ Ho' Hd') as [Hl|[HN'|?]]; [left|apply elem_of_cons in HN' as [->|?]; [left; by rewrite lookup_insert_eq|auto]|auto].
    destruct (decide (id' = id)) as [->|]; [by rewrite lookup_insert_eq|by rewrite lookup_insert_ne].
Qed.
Lemma core_refuse max live obj E N id : core max live obj E (id :: N) → core max live obj (id :: E) N.
Proof.
  intros [K1 K2 K3 K4 K5 K6]. destruct (K4 id ltac:(left)) as (Hn & He & o & s & Ho & Hd). apply NoDup_cons in K5 as [HN K5]. split; try done.
  - intros id' [->|Hid]%elem_of_cons; [eauto|by apply K3].
  - intros id' Hid. destruct (K4 id' ltac:(by right)) as (? & ? & ?). split_and!; [done| |done]. apply not_elem_of_cons. split; [by intros ->|done].
  - intros id' o' s' Ho' Hd'. rewrite elem_of_cons. destruct (K6 _ _ _ Ho' Hd') as [?|[HN'|?]]; auto. apply elem_of_cons in HN' as [->|?]; auto.
Qed.
Lemma core_again max live obj E N id o s : core max live obj E N → obj !! id = Some (o, s) → sess_done s = true → core max live obj (id :: E) N.
Proof.
  intros [K1 K2 K3 K4 K5 K6] Ho Hd. split; try done.
  - intros id' [->|Hid]%elem_of_cons; [|by apply K3]. split; [|eauto]. destruct (live !! id) as [o'|] eqn:El; [|done]. destruct (K2 _ _ El) as (? & ? & ?). congruence.
  - intros id' Hid. destruct (K4 _ Hid) as (? & ? & o' & s' & ? & ?). split_and!; [done| |eauto]. apply not_elem_of_cons. split; [intros ->; congruence|done].
  - intros id' o' s' Ho' Hd'. rewrite elem_of_cons. destruct (K6 _ _ _ Ho' Hd') as [?|[?|?]]; auto.
Qed.
Lemma core_shutdown max live obj E N : core max live obj E N → core max ∅ obj ((map_to_list live).*1 ++ E) N.
Proof.
  assert (∀ id, id ∈ (map_to_list live).*1 ↔ is_Some (live !! id)) as Hk.
  { intros id. rewrite list_elem_of_fmap. split.
    - intros ((k & o) & -> & Ho%elem_of_map_to_list). eauto.
    - intros [o Ho]. exists (id, o). split; [done|]. by apply elem_of_map_to_list. }
  intros [K1 K2 K3 K4 K5 K6]. split; try done.
  - rewrite map_size_empty. lia.
  - intros id Hid. split; [done|]. apply elem_of_app in Hid as [[o Ho]%Hk|Hid]; [|by apply K3]. destruct (K2 _ _ Ho) as (s & -> & _). eauto.
  - intros id Hid. destruct (K4 _ Hid) as (Hn & ? & ?). split_and!; [done| |done]. rewrite elem_of_app, Hk, Hn. by intros [[? ?]|?].
  - intros id o s Ho Hd. rewrite elem_of_app, Hk. destruct (K6 _ _ _ Ho Hd) as [?|[?|?]]; auto.
Qed.

(** The frame is from the subject, link and capability that opened the session. *)
Definition bound (o : ownedResourceSession) (request : Envelope) (link : string) : Prop :=
  ow_subject o = Subject request ∧ ow_resource o = e_Resource request ∧ ow_capability o = e_Capability request ∧ ow_linkID o = link.
Definition job_bound (obj : objects) (j : job) : Prop :=
  match j with
  | JWrite id request link _ | JClose id request link _ _ => id = e_CorrelationID request ∧ ∃ o s, obj !! id = Some (o, s) ∧ bound o request link
  | _ => True
  end.
Record machine_ok (m : machine) : Prop := mkMachineOk {
  mo_core : core (m_max m) (m_live m) (m_objects m) (omap ends (m_jobs m)) (omap inserts (m_jobs m));
  mo_bound j : j ∈ m_jobs m → job_bound (m_objects m) j
}.

Lemma omap_snoc {A} (f : job → option A) jobs j : omap f (jobs ++ [j]) ≡ₚ match f j with Some x => x :: omap f jobs | None => omap f jobs end.
Proof. rewrite omap_app. simpl. destruct (f j); [by rewrite Permutation_app_comm|by rewrite app_nil_r]. Qed.
Lemma job_bound_mono (obj obj' : objects) j : (∀ id o s, obj !! id = Some (o, s) → ∃ s', obj' !! id = Some (o, s')) → job_bound obj j → job_bound obj' j.
Proof. intros Hup. destruct j; simpl; try done; intros (? & o & s & Ho & Hb); (split; [done|]); destruct (Hup _ _ _ Ho) as [s' ?]; eauto. Qed.
Lemma object_update (obj : objects) id o s s' : obj !! id = Some (o, s) → ∀ id' o' s0, obj !! id' = Some (o', s0) → ∃ s1, (<[id := (o, s')]> obj : objects) !! id' = Some (o', s1).
Proof. intros Ho id' o' s0 Ho'. destruct (decide (id' = id)) as [->|]; [rewrite lookup_insert_eq; simplify_eq; eauto|rewrite lookup_insert_ne by done; eauto]. Qed.
Lemma object_new (obj : objects) id x : obj !! id = None → ∀ id' o' s0, obj !! id' = Some (o', s0) → ∃ s1, (<[id := x]> obj : objects) !! id' = Some (o', s1).
Proof. intros Hn id' o' s0 Ho'. rewrite lookup_insert_ne; [eauto|congruence]. Qed.

(** One more job, and what it does to the table and the objects. *)
Lemma machine_ok_job (m : machine) n max live obj w jobs timers j :
  core max live obj (match ends j with Some x => x :: omap ends jobs | None => omap ends jobs end) (match inserts j with Some x => x :: omap inserts jobs | None => omap inserts jobs end) →
  (∀ j', j' ∈ jobs → job_bound obj j') → job_bound obj j → machine_ok (mkMachine n max live obj w (jobs ++ [j]) timers).
Proof.
  intros Hc Hb Hj. split; simpl.
  - eapply core_perm; [symmetry; apply omap_snoc|symmetry; apply omap_snoc|done].
  - intros j' [?|Hx%list_elem_of_singleton]%elem_of_app; [by auto|by subst].
Qed.
Lemma remove_ok (m : machine) id reason : machine_ok m → machine_ok (removeResourceSession m id reason).
Proof.
  intros [Hc Hb]. unfold removeResourceSession. destruct (m_live m !! id) as [o|] eqn:El; [|by split]. unfold set_live.
  apply (machine_ok_job m); [|done|done]. simpl. by eapply core_remove.
Qed.
Lemma validate_ok (m : machine) now request inbound m' o : machine_ok m → validateResourceSession m now request inbound = (m', o) →
  machine_ok m' ∧ ∀ o', o = Some o' → m' = m ∧ m_live m !! e_CorrelationID request = Some o' ∧ bound o' request (link_id inbound) ∧
    is_ok (authorizeLocal (m_node m) now request) = true ∧ now < ow_expiresAt o' * 1000000 ∧ ow_policyGeneration o' = PolicyGeneration (n_policy (m_node m)).
Proof.
  intros Hm. unfold validateResourceSession. destruct (authorizeLocal (m_node m) now request) eqn:Ea; [|by intros [= <- <-]].
  destruct (m_live m !! e_CorrelationID request) as [o0|] eqn:El; [|by intros [= <- <-]].
  match goal with |- context [if ?b then (m, None) else _] => destruct b eqn:E1 end; [by intros [= <- <-]|].
  match goal with |- context [if ?b then _ else (m, Some o0)] => destruct b eqn:E2 end; intros Hx; apply pair_equal_spec in Hx as [<- <-]; [split; [by apply remove_ok|done]|].
  split; [done|]. intros o' [= <-]. repeat (apply orb_false_iff in E1 as [E1 ?]). apply orb_false_iff in E2 as [E2 E3].
  repeat match goal with Hx : negb _ = false |- _ => apply negb_false_iff in Hx end. apply Z.eqb_eq in E1, E3. apply Z.leb_gt in E2.
  repeat match goal with Hx : String.eqb _ _ = true |- _ => apply String.eqb_eq in Hx | Hx : bool_decide _ = true |- _ => apply bool_decide_eq_true in Hx end.
  unfold bound. by split_and!.
Qed.
Lemma open_ok (m : machine) i now request inbound key drawn : machine_ok m → m_objects m !! key = None → machine_ok (handleSessionOpen resolve m i now request inbound key drawn).1.
Proof.
  intros [Hc Hb] Hn. unfold handleSessionOpen. destruct (authorizeLocal _ _ _); [|by split]. destruct (Registry_OpenSession resolve i (m_world m) request) as [[s|e] w] eqn:Eo; [|by split].
  assert (sess_done s = false) as Hd.
  { unfold Registry_OpenSession in Eo. destruct (resolve _) as [[d r]|]; [|done]. destruct (Capability d _); [|done]. destruct (_ || _); [done|]. destruct (_ && _); [done|].
    destruct r as [r|]; [|done]. by eapply Open_fresh. }
  cbv zeta. set (o := mkOwned _ _ _ _ _ _ _). pose proof (core_open _ _ _ _ _ key o s true Hc Hn Hd) as H1. pose proof (core_open _ _ _ _ _ key o s false Hc Hn Hd) as H2.
  assert (∀ j', j' ∈ m_jobs m → job_bound (<[key := (o, s)]> (m_objects m)) j') as Hb' by (intros j' Hj; eapply job_bound_mono; [by apply object_new|by apply Hb]).
  destruct (_ || _); [by apply (machine_ok_job m)|]. destruct (negb drawn); by apply (machine_ok_job m).
Qed.
Lemma run_ok (m : machine) i sent j k : machine_ok m → m_jobs m !! k = Some j → machine_ok (run_job (set_live m (m_live m) (delete k (m_jobs m))) i sent j).1.
Proof.
  intros [Hc Hb] Hk. apply delete_Permutation in Hk. set (jobs := delete k (m_jobs m)) in *.
  assert (∀ j', j' ∈ j :: jobs → job_bound (m_objects m) j') as Hb0 by (intros j'; rewrite <- Hk; apply Hb).
  assert (∀ j', j' ∈ jobs → job_bound (m_objects m) j') as Hb' by (intros j' Hj; apply Hb0; by right).
  pose proof (Hb0 j ltac:(left)) as Hj. eapply core_perm in Hc; [|by rewrite Hk|by rewrite Hk]. cbn [omap list_omap] in Hc.
  destruct j as [id request|id request|id request link d|id request link commit payload|id reason|id reason]; cbn [ends inserts] in Hc; unfold run_job; cbn [set_live m_objects m_live m_node m_max m_world].
  - destruct (_ || _) eqn:Ef; [apply (machine_ok_job m); [|done|done]; by apply core_refuse|]. apply orb_false_iff in Ef as [_ Ef]. apply Z.leb_gt in Ef.
    destruct (m_objects m !! id) as [[o s]|] eqn:Eo; [|destruct (k_new _ _ _ _ _ Hc id ltac:(left)) as (_ & _ & ? & ? & ? & _); congruence].
    apply (machine_ok_job m); [|done|done]. by eapply core_insert.
  - destruct (m_objects m !! id) as [[o s]|] eqn:Eo; [|by split]. destruct sent; [by split|]. apply remove_ok. by split.
  - destruct Hj as (_ & o & s & Ho & _). rewrite Ho. destruct (sess_Write i (m_world m) s d) as [[answer w] s'] eqn:Ew.
    pose proof (Write_keeps i (m_world m) s d) as Hd. rewrite Ew in Hd. split; simpl; [by eapply core_write|].
    intros j' Hj'. eapply job_bound_mono; [by eapply object_update|by apply Hb'].
  - destruct Hj as (_ & o & s & Ho & _). rewrite Ho. destruct (sess_Close i (m_world m) s commit payload) as [[answer w] s'] eqn:Ec.
    pose proof (Close_ends i (m_world m) s commit payload) as Hd. rewrite Ec in Hd. pose proof (core_end _ _ _ _ _ _ _ _ _ Hc Ho Hd) as Hc'.
    assert (∀ j', j' ∈ jobs → job_bound (<[id := (o, s')]> (m_objects m)) j') as Hb2 by (intros j' Hj'; eapply job_bound_mono; [by eapply object_update|by apply Hb']).
    destruct answer; [by split|]. apply (machine_ok_job m); [|done|done]. eapply core_again; [done|apply lookup_insert_eq|done].
  - destruct (k_ends _ _ _ _ _ Hc id ltac:(left)) as (_ & [[o s] Ho]). rewrite Ho. destruct (sess_Abort i (m_world m) s reason) as [w s'] eqn:Ea.
    pose proof (Abort_ends i (m_world m) s reason) as Hd. rewrite Ea in Hd. split; simpl; [by eapply core_end|].
    intros j' Hj'. eapply job_bound_mono; [by eapply object_update|by apply Hb'].
  - apply remove_ok. by split.
Qed.
Lemma omap_none {A B C} (f : B → option C) (g : A → B) (l : list A) : (∀ x, f (g x) = None) → omap f (g <$> l) = [].
Proof. intros Hf. induction l as [|x l IH]; [done|]. simpl. by rewrite Hf. Qed.
Lemma omap_all {A B} (f : B → option A) (g : A → B) (l : list A) : (∀ x, f (g x) = Some x) → omap f (g <$> l) = l.
Proof. intros Hf. induction l as [|x l IH]; [done|]. simpl. rewrite Hf. f_equal. exact IH. Qed.
Lemma cleanup_machine_ok (m : machine) stale reason : machine_ok m → machine_ok (cleanup m stale reason).
Proof.
  intros [Hc Hb]. unfold cleanup, add_jobs, set_live. split; simpl.
  - rewrite !omap_app, !omap_none, !app_nil_r by done. done.
  - intros j [?|Hj]%elem_of_app; [by apply Hb|]. by apply list_elem_of_fmap in Hj as (id & -> & _).
Qed.
Lemma step_ok (m : machine) l m' r : machine_ok m → step resolve m l = Some (m', r) → machine_ok m'.
Proof.
  intros Hm. destruct l as [i now request inbound key drawn|now request inbound|now request inbound|k i sent|k now|linkID reason|generation|n|]; simpl.
  - case_bool_decide as Hk; [done|]. intros [= Ho]. pose proof (open_ok m i now request inbound key drawn Hm) as Hop. rewrite Ho in Hop. apply Hop.
    destruct (m_objects m !! key); [by destruct Hk|done].
  - unfold handleSessionData. destruct (validateResourceSession m now request inbound) as [m1 o] eqn:Ev. destruct (validate_ok m _ _ _ _ _ Hm Ev) as [Hm1 Hv].
    destruct o as [o|]; [|by intros [= <- <-]]. destruct (Hv o eq_refl) as (-> & Hl & Hbd & _). destruct (DecodeJSONPayload _ _) as [d|]; [|by intros [= <- <-]].
    intros [= <- <-]. destruct Hm1 as [Hc Hb]. apply (machine_ok_job m); [done|done|]. split; [done|]. destruct (k_live _ _ _ _ _ Hc _ _ Hl) as (s & Ho & _). eauto.
  - unfold handleSessionClose. destruct (validateResourceSession m now request inbound) as [m1 o] eqn:Ev. destruct (validate_ok m _ _ _ _ _ Hm Ev) as [Hm1 Hv].
    destruct o as [o|]; [|by intros [= <- <-]]. destruct (Hv o eq_refl) as (-> & Hl & Hbd & _). destruct (DecodeJSONPayload _ _) as [d|]; [|by intros [= <- <-]].
    intros [= <- <-]. destruct Hm1 as [Hc Hb]. apply (machine_ok_job m); [by eapply core_remove|done|]. split; [done|]. destruct (k_live _ _ _ _ _ Hc _ _ Hl) as (s & Ho & _). eauto.
  - destruct (m_jobs m !! k) as [j|] eqn:Ek; [|done]. intros [= Hr]. pose proof (run_ok m i sent j k Hm Ek) as Hrun. by rewrite Hr in Hrun.
  - destruct (m_timers m !! k) as [[id expires]|]; [|done]. case_match; [done|]. intros [= <- <-]. apply remove_ok. by destruct Hm.
  - intros [= <- <-]. by apply cleanup_machine_ok.
  - intros [= <- <-]. by apply cleanup_machine_ok.
  - destruct (_ && _); [done|]. intros [= <- <-]. by destruct Hm.
  - intros [= <- <-]. destruct Hm as [Hc Hb]. unfold shutdown, set_live, set_node. split; simpl.
    + rewrite !omap_app, omap_all, (omap_none inserts), app_nil_r by done. eapply core_perm; [apply Permutation_app_comm|done|]. by apply core_shutdown.
    + intros j [?|Hj]%elem_of_app; [by apply Hb|]. by apply list_elem_of_fmap in Hj as (id & -> & _).
Qed.
Lemma step_max (m : machine) l m' r : step resolve m l = Some (m', r) → m_max m' = m_max m.
Proof.
  assert (∀ (x : machine) id reason, m_max (removeResourceSession x id reason) = m_max x) as Hrm by (intros x id reason; unfold removeResourceSession; by destruct (m_live x !! id)).
  destruct l as [i now request inbound key drawn|now request inbound|now request inbound|k i sent|k now|linkID reason|generation|n|]; simpl.
  - case_bool_decide; [done|]. unfold handleSessionOpen. intros [= Ho]. revert Ho. repeat case_match; intros [= <- <-]; done.
  - unfold handleSessionData, validateResourceSession. intros [= Ho]. revert Ho. repeat case_match; simplify_eq; intros [= <- <-]; try done; by rewrite Hrm.
  - unfold handleSessionClose, validateResourceSession. intros [= Ho]. revert Ho. repeat case_match; simplify_eq; intros [= <- <-]; try done; by rewrite Hrm.
  - destruct (m_jobs m !! k) as [j|]; [|done]. unfold run_job. intros [= Ho]. revert Ho. repeat case_match; simplify_eq; intros [= <- <-]; try done; by rewrite Hrm.
  - destruct (m_timers m !! k) as [[id expires]|]; [|done]. case_match; [done|]. intros [= <- <-]. by rewrite Hrm.
  - by intros [= <- <-].
  - by intros [= <- <-].
  - destruct (_ && _); [done|]. by intros [= <- <-].
  - by intros [= <- <-].
Qed.
Lemma reachable_max n max w m : reachable resolve (fresh_machine n max w) m → m_max m = max.
Proof. induction 1 as [|m l m' r _ IH Hs]; [done|]. rewrite (step_max _ _ _ _ Hs). done. Qed.
Lemma reachable_ok n max w m : 0 ≤ max → reachable resolve (fresh_machine n max w) m → machine_ok m.
Proof.
  intros Hmax. induction 1 as [|m l m' r _ IH Hs]; [|by eapply step_ok]. split; simpl; [|intros j Hj; by apply elem_of_nil in Hj].
  split; try done; try (intros id Hid; by apply elem_of_nil in Hid). constructor.
Qed.

(** What every call of the resource preserves holds along every run. *)
Lemma reachable_world (Q : W → Prop) n max w m :
  (∀ i w r subject capability payload, Q w → Q (res_OpenSession i w r subject capability payload).2) →
  (∀ i w s d, Q w → Q (sess_Write i w s d).1.2) → (∀ i w s commit payload, Q w → Q (sess_Close i w s commit payload).1.2) →
  (∀ i w s reason, Q w → Q (sess_Abort i w s reason).1) → Q w → reachable resolve (fresh_machine n max w) m → Q (m_world m).
Proof.
  intros Ho Hw Hc Ha H0. assert (∀ (x : machine) id reason, m_world (removeResourceSession x id reason) = m_world x) as Hrm by (intros x id reason; unfold removeResourceSession; by destruct (m_live x !! id)).
  induction 1 as [|m l m' r _ IH Hs]; [done|]. destruct l as [i now request inbound key drawn|now request inbound|now request inbound|k i sent|k now|linkID reason|generation|nd|]; simpl in Hs.
  - case_bool_decide; [done|]. injection Hs as Hs. unfold handleSessionOpen, Registry_OpenSession in Hs.
    repeat case_match; simplify_eq; simpl in *; try done; match goal with Hx : res_OpenSession ?i ?w ?r ?s ?c ?p = _ |- _ => pose proof (Ho i w r s c p IH) as Hq; rewrite Hx in Hq; exact Hq end.
  - unfold handleSessionData, validateResourceSession in Hs. repeat case_match; simplify_eq; simpl; rewrite ?Hrm; done.
  - unfold handleSessionClose, validateResourceSession in Hs. repeat case_match; simplify_eq; simpl; rewrite ?Hrm; done.
  - destruct (m_jobs m !! k) as [j|]; [|done]. injection Hs as Hs. unfold run_job in Hs. repeat case_match; simplify_eq; simpl in *; rewrite ?Hrm; try done.
    all: first [match goal with Hx : sess_Write ?i ?w ?s ?d = _ |- _ => pose proof (Hw i w s d IH) as Hq; rewrite Hx in Hq; exact Hq end
               |match goal with Hx : sess_Close ?i ?w ?s ?d ?e = _ |- _ => pose proof (Hc i w s d e IH) as Hq; rewrite Hx in Hq; exact Hq end
               |match goal with Hx : sess_Abort ?i ?w ?s ?d = _ |- _ => pose proof (Ha i w s d IH) as Hq; rewrite Hx in Hq; exact Hq end].
  - destruct (m_timers m !! k) as [[id expires]|]; [|done]. case_match; [done|]. simplify_eq. by rewrite Hrm.
  - by simplify_eq.
  - by simplify_eq.
  - destruct (_ && _); [done|]. by simplify_eq.
  - by simplify_eq.
Qed.

(** C32. The node never loses a session: in every interleaving of frames, handlers, timers,
    link losses, policy changes and shutdown, at most [MaxResourceSessions] sessions are in
    the table, every session in the table is open, and when no handler is running every open
    session of a resource is in the table, so that a resource can rely on being told about
    the end of each session it opened. *)
Theorem sessions_no_leak n max w m :
  0 ≤ max → reachable resolve (fresh_machine n max w) m →
  Z.of_nat (size (m_live m)) ≤ max ∧
  (∀ id o, m_live m !! id = Some o → ∃ s, m_objects m !! id = Some (o, s) ∧ sess_done s = false) ∧
  (m_jobs m = [] → ∀ id o s, m_objects m !! id = Some (o, s) → sess_done s = false → m_live m !! id = Some o).
Proof.
  intros Hmax Hr. destruct (reachable_ok n max w m Hmax Hr) as [Hc _]. assert (m_max m = max) as Em by (by eapply reachable_max).
  destruct Hc as [K1 K2 K3 K4 K5 K6]. rewrite Em in K1. split_and!; [done|done|]. intros Ej id o s Ho Hd. rewrite Ej in *.
  destruct (K6 _ _ _ Ho Hd) as [[o' Hl]|[Hx|Hx]]; [|by apply elem_of_nil in Hx..]. destruct (K2 _ _ Hl) as (s' & Ho' & _). congruence.
Qed.

(** C33. What reaches a session object comes from its owner: in every interleaving, a write or
    a close that the node runs on an object was asked for by a frame of the subject, over the
    link, and with the resource and capability of the frame that opened the session; and the
    frame was accepted while the session was in the table, authorised, not expired, and under
    the policy generation it was opened with. *)
Theorem session_frames_bound n max w m :
  0 ≤ max → reachable resolve (fresh_machine n max w) m →
  (∀ id request link data, JWrite id request link data ∈ m_jobs m → id = e_CorrelationID request ∧ ∃ o s, m_objects m !! id = Some (o, s) ∧ bound o request link) ∧
  (∀ id request link commit payload, JClose id request link commit payload ∈ m_jobs m → id = e_CorrelationID request ∧ ∃ o s, m_objects m !! id = Some (o, s) ∧ bound o request link) ∧
  (∀ now request inbound m' r, step resolve m (SData now request inbound) = Some (m', r) ∨ step resolve m (SClose now request inbound) = Some (m', r) → r = RNothing →
    ∃ o, m_live m !! e_CorrelationID request = Some o ∧ bound o request (link_id inbound) ∧ is_ok (authorizeLocal (m_node m) now request) = true ∧
      now < ow_expiresAt o * 1000000 ∧ ow_policyGeneration o = PolicyGeneration (n_policy (m_node m))).
Proof.
  intros Hmax Hr. pose proof (reachable_ok n max w m Hmax Hr) as Hm. split_and!.
  - intros id request link data Hj. exact (mo_bound _ Hm _ Hj).
  - intros id request link commit payload Hj. exact (mo_bound _ Hm _ Hj).
  - intros now request inbound m' r Hs ->. simpl in Hs. unfold handleSessionData, handleSessionClose in Hs.
    destruct (validateResourceSession m now request inbound) as [m1 o] eqn:Ev. destruct (validate_ok m _ _ _ _ _ Hm Ev) as [_ Hv].
    destruct o as [o|]; [|by destruct Hs]. destruct (Hv o eq_refl) as (_ & H1 & H2 & H3 & H4 & H5). by exists o.
Qed.
End theory.
