(* ===== verification/UploadSessions.v ===== *)
(** * Uploads over the sessions of a node

    The upload resource (feature/file/resource.go) as an instance of the interface that the
    node's session handlers are written against (runtime/node/sessions.go), the invariant of
    the upload controller under everything the node does with its sessions, and a run of the
    two together. *)

From S2P Require Import Prelude GoStd GoSort GoEncoding GoJSON GoFloat GoStruct Wire Tree Policy PolicySchema FileSchema Payload EnrollmentWire Identity Admission Catalog VariableModel Streams FileTransfer FileTransferTheory FileUpload Node NodeSessions Codec.
Open Scope Z_scope.

Definition ResourceTypeFile : string := "mfh.file".
Definition upload_descriptor (node : NodeID) : Descriptor :=
  SessionDescriptor (mkResourceID node BuiltinFileUpload) ResourceTypeFile "application/json" SchemaFileOfferV1 SchemaFileProgressV1 "file.write" DefaultMaxPayload.

Section uploads.
Context {P : Type} {HP : Policy P} `{Crypto} (convert : list byte → option (list byte)).
(** What a call of the resource finds: failing system calls, the clock, and the order in which
    the table of transfers is visited. *)
Definition outside : Type := faults * Z * list string.
Definition open_error_of (e : transfer_error) : open_error := match e with TUnsupported => OUnsupported | _ => OOther end.
Definition upload_open (i : outside) (c : Controller) (r : unit) (subject : NodeID) (capability : CapabilityID) (payload : list byte) : result open_error uploadSession * Controller :=
  let '(f, now, order) := i in
  match OpenSession convert f c subject capability payload now order with (Ok s, c) => (Ok s, c) | (Err e, c) => (Err (open_error_of e), c) end.
Definition answer_of (r : result transfer_error OperationResult) : option OperationResult := match r with Ok a => Some a | Err _ => None end.
Definition upload_write (i : outside) (c : Controller) (s : uploadSession) (d : SessionData) : option OperationResult * Controller * uploadSession :=
  let '(f, now, order) := i in let '(r, c) := Session_Write convert f c s d now order in (answer_of r, c, s).
Definition upload_close (i : outside) (c : Controller) (s : uploadSession) (commit : bool) (payload : list byte) : option OperationResult * Controller * uploadSession :=
  let '(f, now, order) := i in let '(r, c, s) := Session_Close convert f c s commit payload now order in (answer_of r, c, s).
Definition upload_abort (i : outside) (c : Controller) (s : uploadSession) (reason : string) : Controller * uploadSession :=
  Session_Abort convert i.1.1 c s (Some reason).

#[local] Instance upload_resource : SessionResource Controller outside uploadSession unit :=
  {| res_OpenSession := upload_open; sess_Grant := Grant; sess_Write := upload_write; sess_Close := upload_close; sess_Abort := upload_abort; sess_done := us_closed |}.
#[local] Instance upload_laws : SessionLaws Controller outside uploadSession unit.
Proof.
  split; simpl.
  - intros [[f now] order] c r subject capability payload s c'. unfold upload_open, OpenSession. repeat case_match; intros; by simplify_eq.
  - intros [[f now] order] c s d. unfold upload_write. by case_match.
  - intros [[f now] order] c s commit payload. unfold upload_close, Session_Close. destruct (us_closed s) eqn:E; [done|]. by destruct (progress_result _).
  - intros i c s reason. unfold upload_abort, Session_Abort. by destruct (us_closed s) eqn:E.
  - intros i c s reason Hs. unfold upload_abort, Session_Abort. by rewrite Hs.
  - intros [[f now] order] c s d Hs. unfold upload_write, Session_Write. by rewrite Hs.
  - intros [[f now] order] c s commit payload Hs. unfold upload_close, Session_Close. by rewrite Hs.
Qed.

(** A call of the resource is an operation of the controller, or does nothing. *)
Definition one_op (c c' : Controller) : Prop := c' = c ∨ ∃ o, c' = run_op convert c o.
Lemma one_op_ok c c' : ctl_ok c → one_op c c' → ctl_ok c'.
Proof. intros Hc [->|[o ->]]; [done|]. exact (proj1 (run_ops_evolves convert [o] c Hc)). Qed.
Lemma open_op i c r subject capability payload : one_op c (upload_open i c r subject capability payload).2.
Proof.
  destruct i as [[f now] order]. unfold upload_open, OpenSession. destruct (negb _); [by left|]. destruct (NodeID_Validate subject); [|by left].
  destruct (DecodeJSONPayload payload DefaultMaxPayload) as [offer|]; [|by left]. right. exists (f, OpOffer subject offer now order). simpl.
  by destruct (offerFor convert f c subject offer now order) as [[] ?].
Qed.
Lemma progress_world r : (progress_result r).2 = r.2.
Proof. by destruct r as [[] ?]. Qed.
Lemma write_op i c s d : one_op c (upload_write i c s d).1.2.
Proof.
  destruct i as [[f now] order]. unfold upload_write, Session_Write. destruct (us_closed s); [by left|]. right.
  exists (f, OpChunk (us_owner s) (mkChunk 1 (fo_TransferID (us_offer s)) (da_Offset d) (da_Payload d) (da_Checksum d)) now order). simpl.
  match goal with |- context [progress_result ?r] => rewrite <- (progress_world r) end. by destruct (progress_result _).
Qed.
Lemma close_op i c s commit payload : one_op c (upload_close i c s commit payload).1.2.
Proof.
  destruct i as [[f now] order]. unfold upload_close, Session_Close. destruct (us_closed s); [by left|]. right. destruct commit.
  - exists (f, OpComplete (us_owner s) (mkComplete 1 (fo_TransferID (us_offer s)) (fo_Size (us_offer s)) (fo_SHA256 (us_offer s))) now order). simpl.
    match goal with |- context [progress_result ?r] => rewrite <- (progress_world r) end. by destruct (progress_result _).
  - eexists (f, OpCancel (us_owner s) _). simpl. match goal with |- context [progress_result ?r] => rewrite <- (progress_world r) end. by destruct (progress_result _).
Qed.
Lemma abort_op i c s reason : one_op c (upload_abort i c s reason).1.
Proof. unfold upload_abort, Session_Abort. destruct (us_closed s); [by left|]. right. by exists (i.1.1, OpAbort (us_owner s) (fo_TransferID (us_offer s)) (Some reason)). Qed.

End uploads.

(** ** A run *)

(** Node 1 uploads a file to itself over a session: the frames, each followed by what its
    handler does after the lock. *)
Module Session_demo.
#[local] Existing Instance Toy.toy_crypto.
#[local] Instance resource : SessionResource Controller outside uploadSession unit := upload_resource Upload_demo.convert.
#[export] Instance laws : SessionLaws Controller outside uploadSession unit := upload_laws Upload_demo.convert.
Definition node : Node (P := StaticPolicy) := mkNode (Network_demo.tree_of 1 []) NewStaticPolicy ∅ ∅ ∅ 16 false.
Definition resolve (id : ResourceID) : option (Descriptor * option unit) :=
  if bool_decide (id = mkResourceID 1 BuiltinFileUpload) then Some (upload_descriptor 1, Some tt) else None.
Definition frame (operation correlation : Z) (payload : list byte) : Envelope :=
  mkEnvelope CurrentVersion PhaseRequest operation 900 correlation 1 0 1 (mkResourceID 1 BuiltinFileUpload) 0 0 "application/json" "" CapabilityOpen payload.
Definition clear : outside := (no_faults, Upload_demo.now, [Upload_demo.id]).
Definition part (offset : Z) (data : list byte) : Envelope :=
  frame OperationSessionData 500 (json_Marshal (mkSessionData 2 offset (checksum data) data)).
Definition opening : list (label (P := StaticPolicy) (I := outside)) :=
  [SOpen clear Upload_demo.now (frame OperationSessionOpen 0 Upload_demo.payload) None 500 true; SRun 0 clear true; SRun 0 clear true].
Definition sending : list (label (P := StaticPolicy) (I := outside)) :=
  [SData Upload_demo.now (part 0 [x61; x62; x63]) None; SData Upload_demo.now (part 3 [x64; x65]) None].
Definition closing : list (label (P := StaticPolicy) (I := outside)) :=
  [SRun 0 clear true; SRun 0 clear true; SClose Upload_demo.now (frame OperationSessionClose 500 (json_Marshal (mkSessionClose 2 true "" []))) None; SRun 0 clear true].
Definition start : machine (P := StaticPolicy) (W := Controller) (S := uploadSession) := fresh_machine node 4 Upload_demo.start.
Definition after (labels : list (label (P := StaticPolicy) (I := outside))) : machine (P := StaticPolicy) (W := Controller) (S := uploadSession) :=
  default start (fst <$> run_labels resolve start labels).
Lemma after_reachable labels : match run_labels resolve start labels with Some _ => true | None => false end = true → reachable resolve start (after labels).
Proof.
  unfold after. destruct (run_labels resolve start labels) as [[m rs]|] eqn:E; [|done]. intros _. simpl. eapply run_labels_from; [apply reach_start|exact E].
Qed.
Definition reply_code (r : reply) : Z := match r with RNothing => 0 | RError _ => -1 | RGranted _ _ => 1 | RAnswer _ => 2 end.
(** The session is granted, both parts are answered, and so is the commit. *)
Lemma replies : option_map (λ mr, reply_code <$> mr.2) (run_labels resolve start (opening ++ sending ++ closing)) = Some [0; 0; 1; 0; 0; 2; 2; 0; 2].
Proof. vm_compute. reflexivity. Qed.
Lemma opened_reachable : reachable resolve start (after opening).
Proof. apply after_reachable. vm_compute. reflexivity. Qed.
Lemma sent_reachable : reachable resolve start (after (opening ++ sending)).
Proof. apply after_reachable. vm_compute. reflexivity. Qed.
Lemma closed_reachable : reachable resolve start (after (opening ++ sending ++ closing)).
Proof. apply after_reachable. vm_compute. reflexivity. Qed.
(** The file is at its destination, and the session is gone. *)
Lemma closed_delivered :
  bool_decide (t_state <$> c_transfers (m_world (after (opening ++ sending ++ closing))) !! Upload_demo.id = Some Completed) = true ∧
  size (m_live (after (opening ++ sending ++ closing))) = 0%nat.
Proof. split; vm_compute; reflexivity. Qed.
Lemma max_positive : 0 ≤ 4.
Proof. lia. Qed.
End Session_demo.

Lemma sessions_no_leak_witness :
  size (m_live (Session_demo.after Session_demo.opening)) = 1%nat ∧ Z.of_nat (size (m_live (Session_demo.after Session_demo.opening))) ≤ 4.
Proof.
  split; [vm_compute; reflexivity|].
  exact (proj1 (sessions_no_leak (HL := Session_demo.laws) Session_demo.resolve Session_demo.node 4 Upload_demo.start (Session_demo.after Session_demo.opening) Session_demo.max_positive Session_demo.opened_reachable)).
Defined.
Lemma session_frames_bound_witness :
  length (m_jobs (Session_demo.after (Session_demo.opening ++ Session_demo.sending))) = 2%nat ∧
  ∀ id request link data, JWrite id request link data ∈ m_jobs (Session_demo.after (Session_demo.opening ++ Session_demo.sending)) →
    id = e_CorrelationID request ∧ ∃ o s, m_objects (Session_demo.after (Session_demo.opening ++ Session_demo.sending)) !! id = Some (o, s) ∧ bound o request link.
Proof.
  split; [vm_compute; reflexivity|].
  exact (proj1 (session_frames_bound (HL := Session_demo.laws) Session_demo.resolve Session_demo.node 4 Upload_demo.start (Session_demo.after (Session_demo.opening ++ Session_demo.sending))
    Session_demo.max_positive Session_demo.sent_reachable)).
Defined.
